(* ===== verification/_CoqProject ===== *)
-Q . S2P
Prelude.v
Computation.v
OrderedMap.v
LinearMath.v
LinearMathReal.v
TimeCache.v
TfWalk.v
BufferCore.v
BufferFacts.v
BufferReal.v
RclTime.v
MsgCache.v
TimeSequencer.v
ExactTime.v
ApproximateTime.v
ApproximateFacts.v
EpsilonTime.v
LatestTime.v
RingBuffer.v
Qos.v
IntraProcess.v
IntraProcessFacts.v
IntraProcessMatching.v
ParameterValue.v
NodeParameters.v
NodeParametersFacts.v
NodeParametersSafety.v
NodeParametersAccept.v
ParameterQueries.v
ParameterService.v
ParameterEvents.v
TypeHash.v
GraphCache.v
GraphContext.v
RclTypes.v
Timer.v
WaitSet.v
WaitSetFacts.v
CallbackGroups.v
EntitiesCollector.v
EntitiesCollectorFacts.v
ExecutorGroups.v
ExecutorWaitSet.v
Executor.v
ExecutorExample.v
ExecutorChoice.v
ExecutorSpinning.v
ExecutorWaiting.v
MultiThreaded.v
Heap.v
TimersManager.v
TimersManagerFacts.v
TimersManagerRuns.v
TimersManagerMembers.v
EventsExecutor.v
EventsExecutorFacts.v
EventsExecutorRuns.v
Lifecycle.v
LifecycleNode.v
ActionGoal.v
ActionServer.v
BagCache.v
CacheConsumer.v
PlayerClock.v
BagStorage.v
SequentialReader.v
SequentialWriter.v
SequentialWriterFacts.v
SequentialWriterMetadata.v
SequentialWriterRuns.v
BagRewrite.v
Reindexer.v
