(* ===== verification/Prelude.v ===== *)
(** * Verification of the core of a ROS 2 Jazzy workspace

    The workspace holds the ROS 2 client libraries and the packages around
    them.  This development models the parts of its C++ code that carry data
    and time through a robot program: the transform library tf2, the time
    types of rclcpp, its executors, its parameters and its intra-process
    communication, the wait sets, timers, life cycles and actions beneath it,
    the message filters that align streams of messages, the discovery
    graph and quality-of-service rules that the DDS layers share, and the
    reading, writing and rewriting of bags in rosbag2, with its caches and
    the clock of its player.

    ** Parts and files

    - [Prelude]: machine integers, results of code that throws,
      lists, strings, sequences ordered by a key; tactics and the hint database.
      [Computation]: the monad of methods that change an object and may
      throw, with the rules by which proofs run them; [OrderedMap]: maps and
      sets that are walked in the order of their keys.
    - [LinearMath]: [geometry2/tf2/include/tf2/LinearMath/]; vectors,
      quaternions, matrices and rigid transforms over the class [Scalar] of
      the operations on [double]; instances for primitive floats, integers,
      canonical rationals.  [LinearMathReal] has the instance for the reals
      and what the code computes in exact arithmetic.
    - [TimeCache]: [tf2/src/cache.cpp] and [static_cache.cpp]; the history of
      one frame.  The class [TimeCacheOps] is [TimeCacheInterface], and
      [TimeCacheLaws] what its clients rely on; both caches satisfy it.
    - [TfWalk]: the two searches of [tf2/src/buffer_core.cpp] over the parent
      relation, [walkToTopParent] and [getLatestCommonTime], for any
      implementation of the cache interface; the template argument of the
      first is the class [WalkAccum].
    - [BufferCore]: the transform buffer itself, one definition per method;
      the state is the record [BufferCore] of the member variables.
      [BufferFacts] has the invariant of its reachable states and the
      theorems about each operation, [BufferReal] the end-to-end theorems
      about lookups over the reals.
    - [RclTime]: [rclcpp/src/rclcpp/time.cpp] and [duration.cpp].
    - [MsgCache], [TimeSequencer], [ExactTime], [ApproximateTime],
      [EpsilonTime], [LatestTime]: the headers of [message_filters] of these
      names ([cache.h], [time_sequencer.h] and, in [sync_policies/],
      [exact_time.h], [approximate_time.h], [approximate_epsilon_time.h] and
      [latest_time.h]), which compute with the times of [RclTime].
      [ApproximateFacts] has the theorems of [ApproximateTime].
    - [RingBuffer]: [rclcpp/experimental/buffers/], the queue between a
      publisher and a subscription of one process, over a heap of messages.
    - [IntraProcess]: [rclcpp/src/rclcpp/intra_process_manager.cpp], its
      header, the subscriptions of [rclcpp/experimental/] and the publish
      paths of [publisher.hpp], over the buffers of [RingBuffer] and the
      profiles of [Qos]; the class [Environment] holds the type adapters of
      the program.  [IntraProcessFacts] has the theorems about one
      publication, [IntraProcessMatching] the invariant that relates the
      lists of the manager to the subscriptions that exist.
    - [ParameterValue], [NodeParameters]: values, descriptors and ranges, and
      the store of [rclcpp/src/rclcpp/node_interfaces/node_parameters.cpp], a
      method for each of its own over the calls of its callbacks.
      [NodeParametersFacts] has atomicity and events, [NodeParametersSafety]
      the invariant of its states, [NodeParametersAccept] when a list is set.
      [ParameterQueries]: listings; [ParameterService]: [parameter_service.cpp];
      [ParameterEvents]: [parameter_event_handler.cpp].
    - [RclTypes], [Timer]: return codes and clocks of rcl, [rcl/src/rcl/timer.c].
      [WaitSet]: [rcl/src/rcl/wait.c] over these timers; the middleware is the
      class [Rmw].  [WaitSetFacts] has what a wait leaves and how long it lasts.
    - [CallbackGroups]: [callback_group.cpp], the groups of [node_base.cpp] and
      [executor_notify_waitable.cpp] of [rclcpp/src/rclcpp/]; the record [World]
      of the objects that are alive.  [EntitiesCollector]: the class of that
      name; [EntitiesCollectorFacts], [ExecutorGroups]: its update, and several
      executors that share nodes and groups.
    - [ExecutorWaitSet]: [rclcpp::WaitSet] and the result of a wait, over
      [WaitSet].  [Executor]: [executor.cpp], the collections it keeps and its
      single-threaded and static descendants, over the collector and the wait
      set.  [ExecutorWaiting]: what a wait leaves; [ExecutorChoice]: what is
      taken next; [ExecutorSpinning]: [spin_some] ends; [MultiThreaded]: the
      threads of [multi_threaded_executor.cpp].  [ExecutorExample] is a small
      executor for the witnesses.
    - [Heap]: [std::push_heap], [std::pop_heap] and [std::make_heap] as
      libstdc++ has them.  [TimersManager]: the class of
      [rclcpp/src/rclcpp/experimental/timers_manager.cpp] over this heap and
      the timers of [Timer]; its thread is a sequence of passes.
      [TimersManagerFacts] has the order that the heap keeps,
      [TimersManagerRuns] what is executed, [TimersManagerMembers] which
      timers are in it.
    - [EventsExecutor]: [rclcpp/src/rclcpp/experimental/executors/] and its
      headers, with the queue [SimpleEventsQueue], over the collector and the
      timers manager.  [EventsExecutorFacts] has the invariant of its states
      and what a refresh does, [EventsExecutorRuns] whom it listens to and
      that [spin_some] ends.
    - [Lifecycle]: [rcl_lifecycle/src/], the state machine as data and the
      functions that build and follow it; [LifecycleNode]: the node of
      [rclcpp_lifecycle] that runs it, its callbacks and managed entities.
    - [ActionGoal]: the goal state machine of [rcl_action/src/rcl_action/];
      [ActionServer]: [action_server.c], the goals a server keeps, their
      acceptance, cancellation and expiry, with the timer of [Timer].
    - [Qos]: [rmw_dds_common/src/qos.cpp] and [time_utils.cpp], whether two
      profiles match and how open policies are chosen, with the times of
      [RclTime]; [TypeHash]: the hashes of types in the user data of
      endpoints.
    - [GraphCache]: [rmw_dds_common/src/graph_cache.cpp], the discovered
      endpoints, with their profiles ([Qos]) and hashes ([TypeHash]), and the
      nodes of all participants; [GraphContext]: [context.cpp], the protocol
      that announces the local nodes to the other participants.
    - [BagCache]: [rosbag2_cpp/src/rosbag2_cpp/cache/], the buffers and the
      two caches, with their interface as the class [MessageCacheInterface];
      [CacheConsumer]: [cache_consumer.cpp], the thread that empties a cache,
      among the threads that push.  [PlayerClock]:
      [rosbag2_cpp/src/rosbag2_cpp/clocks/time_controller_clock.cpp].
    - [BagStorage]: the records of [rosbag2_storage] and the interfaces of its
      plug-ins as the classes [ReadOnlyInterface] and [ReadWriteInterface] with
      their laws, implemented here by a file in memory for the witnesses; event
      callbacks, service names and the converter of [rosbag2_cpp].
    - [SequentialReader], [SequentialWriter]: [readers/sequential_reader.cpp]
      and [writers/sequential_writer.cpp] over any such plug-in, the writer with
      the caches of [BagCache] and the thread of [CacheConsumer].
      [SequentialWriterFacts] has what is in the files of a recording,
      [SequentialWriterMetadata] what the metadata say of them,
      [SequentialWriterRuns] recordings that are run.
    - [BagRewrite]: [rosbag2_transport/src/rosbag2_transport/bag_rewrite.cpp]
      and [topic_filter.cpp], from readers to writers; [Reindexer]:
      [rosbag2_cpp/src/rosbag2_cpp/reindexer.cpp], over the reader.

    A method is a function from the state before it to its result and the
    state after it.  The public methods of the modelled classes run under
    the mutex of the state they touch, so the interleavings of a program
    with threads are sequences of these steps; where one call takes the lock
    several times ([publish] of a transient-local publisher) its parts are
    steps of their own.  Functions of the C libraries have no lock and rely
    on their callers.  Callbacks and signals, which
    the code calls under the same lock or after releasing it, are returned
    as lists in the order of the calls, or counted when they carry nothing
    ([GraphCache]).  An exception is a value of an error
    type, by [Result]; undefined behaviour and failed assertions are error
    values of their own ([ClosestUB], [OutOfRange], [Broken], [Dangling],
    [AssertionFailed], [EndIncremented], [Undefined], and [None] for a wait of
    rcl); [Unfinished] is that of a loop whose fuel ran out.

    ** What is shown

    - Linear algebra: matrices and quaternions convert into each other,
      inverses are inverses, spherical interpolation stays on the unit
      sphere.
    - Caches: the storage window of an insertion, the exact outcome of every
      query, insertion and lookup agree.
    - Graph search: the walk finds every connection within its depth, returns
      only connections that exist, reports cycles, and the latest common
      time is the minimum it should be.
    - Buffer: frame names and numbers correspond in every reachable state;
      [setTransform] terminates without an exception; [canTransform] agrees
      with [lookupTransform]; a successful lookup is the composition of the
      stored transforms, in exact arithmetic, as is the one that a static
      transform makes; pending requests are answered exactly once.
    - Time: arithmetic is exact or throws, messages round-trip; the corner
      cases in which this fails are stated with the theorems.
    - Filters: the message cache keeps the newest messages in order and its
      queries are exact; the sequencer's output is in temporal order; exact
      synchronisation signals precisely the complete tuples and loses
      nothing; approximate synchronisation terminates, violates none of its
      assertions, keeps each topic's order and bounds its queues; its simpler
      version does so too, and of two topics in order it loses nothing that
      fits; the latest-time policy signals the last messages, and the state in
      which it looks for a rate that does not exist is stated.
    - Intra-process buffers: the ring buffer is a bounded queue; what the
      owners of messages write is never seen by anyone else.  The manager
      delivers a publication once to every matched subscription and nowhere
      else; its lists are exact in every reachable state; the states in
      which it fails are stated with the theorems.
    - Timers, life cycles, actions: calls keep the grid of the period; the
      node follows the life cycle of the design, ends in a primary state
      and can be finalized if its notifications are published; what expiry,
      cancel requests and acceptance do to the goals of a server is exact, and
      every goal ends.
    - Parameters: a list is set as a whole or not at all, and exactly when each
      parameter of it is acceptable; events tell the difference between the
      values before and after; in every reachable store values fit the types
      and ranges of their descriptors, doubles up to the tolerance of the code,
      read-only ones stay; listings, services and the callbacks
      for events are exact, with the exceptions that the theorems state.
    - Wait sets: [rcl_wait] offers what was added, leaves what is ready, and
      lasts until the earliest deadline.
    - Executors: a group is with one executor, and updates never throw; a wait
      leaves every living entity that is ready, at its place, unless one has
      expired; the next executable is the one the documented order names;
      [spin_some] ends; mutually exclusive groups never run twice at once.
      Where the code fails these, a theorem shows the state.
    - Timers manager and events executor: the timers that are due are executed
      once each, in order; the head of the heap is the earliest, also after
      timers have died, all as long as only the manager moves its timers; one
      that is canceled in the heap can hide those below it.  The executor
      listens to the entities in its collection and to no others, its
      notifications are neither lost nor doubled, and which entities of its
      groups it misses after a refresh is stated.
    - DDS layers: the compatibility check finds exactly the profiles that do
      not match, and the profiles chosen for open policies match as far as
      stated; durations and type hashes survive their encodings; the queries
      of the graph are exact; announcements keep the other participants up
      to date although messages are lost.
    - Bags: in every interleaving the messages that a cache accepts are
      written or in a buffer, in order; those it drops are never counted too
      often, and all of them if they are pushed one after the other; after a
      stop nothing is left of what was there, and the thread ends; the buffer
      of a snapshot has the newest messages that fit; in exact arithmetic the
      time of the player never goes back.  Outside the snapshot mode a
      recording has, in its files, its cache and its counts, every message
      that was accepted, and in its files all that was not dropped once it is
      closed while a storage is open; without a cache, its metadata describe
      the files; reading gives all of it back; a seek ends except between two
      files, where it does not; rewriting merges bags in the order of time.

    ** Bounds and fuel

    The loops of [walkToTopParent] and [getLatestCommonTime] are bounded by
    [MAX_GRAPH_DEPTH] in the source and count it down.  The other loops that
    are not structural take fuel and return [None] without it, and a theorem
    shows that what they are given is enough: the pending requests of a
    buffer (their number), the search for a free callback handle (fewer than
    2^32 are stored), the loops of the approximate-time policy (quadratic in
    the messages it holds, see [process]) and of its simpler version (their
    number), the expiry of goals (their
    number), the search for the next executable ([passes]: the entities that
    are locked), the passes of [spin_some] ([budget]: the handles and waitables
    that its wait left; for the events executor the events and timers it
    found), the files that a reader goes through (their number), the steps of
    the consumer's thread after a stop (ten), the rounds of a seek (the number
    of files, when it ends).  The loops that run until an executor is canceled
    take fuel and end in [Unfinished] without it.  Integers keep their width:
    64-bit stamps and durations wrap where the code does not check, 32-bit
    fields of messages wrap on conversion.

    ** What is not modelled

    Log and error texts; [lookupVelocity] and the dumps of the frame graph;
    the clients of parameters, their files and the patterns of node names in
    them; the events and intra-process parts of subscriptions in wait sets, the
    static storage and thread-safe policies of wait sets, how often a guard
    condition was triggered, and what an executor does between
    taking an entity and its callback, which is one step given as an argument
    (the objects do not change during a wait);
    loaned and serialized messages; the services and
    topics of life-cycle nodes and action servers beyond the calls into
    their cores, and [rclcpp_action];
    the plug-ins of rosbag2, its compression, the YAML form of its metadata, its
    player and its recorder; the middleware, build and user-interface
    packages.  Theorems in exact arithmetic say nothing about rounding; the
    same definitions evaluate on primitive floats.

    ** Plan

    What could come next: the execution of subscriptions, services and
    clients, which needs a model of the middleware's queues, and the player of
    rosbag2 over its reader and its clock. *)

From Stdlib Require Import ZArith Lia String.
From stdpp Require Import base numbers list gmap strings sorting.

Declare Scope ros_scope.
Delimit Scope ros_scope with ros.
Open Scope Z_scope.

(** ** Machine integers

    Every integer of the sources is a [Z] (or an [N] for indices and
    identifiers); the width is written out at each arithmetic operation
    with the wrap-around functions below. *)

Definition wrap_u (w : Z) (x : Z) : Z := x mod 2 ^ w.
Definition wrap_s (w : Z) (x : Z) : Z := (x + 2 ^ (w - 1)) mod 2 ^ w - 2 ^ (w - 1).

Abbreviation i64 := (wrap_s 64).
Abbreviation i32 := (wrap_s 32).
Abbreviation u64 := (wrap_u 64).
Abbreviation u32 := (wrap_u 32).

Definition int64_max : Z := 2 ^ 63 - 1.
Definition int64_min : Z := - 2 ^ 63.

Definition in_s (w x : Z) : Prop := - 2 ^ (w - 1) <= x < 2 ^ (w - 1).
Definition in_u (w x : Z) : Prop := 0 <= x < 2 ^ w.

Lemma wrap_s_range w x : 0 < w -> in_s w (wrap_s w x).
Proof.
  intros Hw. unfold in_s, wrap_s.
  replace (2 ^ w) with (2 * 2 ^ (w - 1)).
  - pose proof (Z.pow_pos_nonneg 2 (w - 1)).
    pose proof (Z.mod_pos_bound (x + 2 ^ (w - 1)) (2 * 2 ^ (w - 1))). lia.
  - rewrite <- Z.pow_succ_r by lia. f_equal. lia.
Qed.

Lemma wrap_s_id w x : 0 < w -> in_s w x -> wrap_s w x = x.
Proof.
  intros Hw [H1 H2]. unfold wrap_s.
  assert (E : 2 ^ w = 2 * 2 ^ (w - 1)).
  { rewrite <- Z.pow_succ_r by lia. f_equal. lia. }
  rewrite Z.mod_small by lia. lia.
Qed.

Lemma wrap_u_id w x : in_u w x -> wrap_u w x = x.
Proof. apply Z.mod_small. Qed.

Lemma wrap_u_range w x : 0 <= w -> in_u w (wrap_u w x).
Proof. intros Hw. apply Z.mod_pos_bound. apply Z.pow_pos_nonneg; lia. Qed.

(** A sum that is kept at the width along the way. *)
Lemma wrap_u_add_l w x y : wrap_u w (wrap_u w x + y) = wrap_u w (x + y).
Proof. unfold wrap_u. apply Zplus_mod_idemp_l. Qed.

Lemma i64_id x : int64_min <= x <= int64_max -> i64 x = x.
Proof. intros H. apply wrap_s_id; [lia|]. unfold in_s, int64_min, int64_max in *. lia. Qed.

Lemma i64_range x : int64_min <= i64 x <= int64_max.
Proof. pose proof (wrap_s_range 64 x). unfold in_s, int64_min, int64_max in *. lia. Qed.

(** ** Results of code that throws *)

Inductive Result (E A : Type) : Type :=
| Ok (a : A)
| Throw (e : E).
Arguments Ok {E A} a.
Arguments Throw {E A} e.

Definition rbind {E A B} (m : Result E A) (f : A -> Result E B) : Result E B :=
  match m with
  | Ok a => f a
  | Throw e => Throw e
  end.

Notation "'let!' x := m 'in' k" := (rbind m (fun x => k))
  (at level 10, x pattern, m at level 100, k at level 200) : ros_scope.
Open Scope ros_scope.

Definition is_ok {E A} (m : Result E A) : bool :=
  match m with Ok _ => true | Throw _ => false end.

Lemma rbind_ok {E A B} (m : Result E A) (f : A -> Result E B) b :
  rbind m f = Ok b -> exists a, m = Ok a /\ f a = Ok b.
Proof. destruct m; [eauto | discriminate]. Qed.

(** ** Lists *)

Section Lists.
Context {A : Type}.

(** [span p l] is the longest prefix of [l] whose elements satisfy [p] and
    the rest: the split a [std::find_if] with the negated predicate makes. *)
Fixpoint span (p : A -> bool) (l : list A) : list A * list A :=
  match l with
  | [] => ([], [])
  | x :: l' => if p x then let '(a, b) := span p l' in (x :: a, b) else ([], l)
  end.

Lemma span_app p l : (span p l).1 ++ (span p l).2 = l.
Proof.
  induction l as [|x l IH]; [done|]. simpl.
  destruct (p x); [|done]. destruct (span p l). simpl in *. by rewrite IH.
Qed.

Lemma span_fst p l : Forall (fun x => p x = true) (span p l).1.
Proof.
  induction l as [|x l IH]; simpl; [constructor|].
  destruct (p x) eqn:E; [|constructor]. destruct (span p l). by constructor.
Qed.

Lemma span_snd p l x r : (span p l).2 = x :: r -> p x = false.
Proof.
  induction l as [|y l IH]; simpl; [discriminate|].
  destruct (p y) eqn:E; [destruct (span p l); simpl in *; auto|].
  intros [= -> ->]. done.
Qed.

Lemma filter_all (P : A -> Prop) `{!forall x, Decision (P x)} l : Forall P l -> filter P l = l.
Proof. induction 1 as [|x l Hx _ IH]; [done|]. by rewrite filter_cons_True, IH. Qed.

Lemma filter_none (P : A -> Prop) `{!forall x, Decision (P x)} l :
  Forall (fun x => ~ P x) l -> filter P l = [].
Proof. induction 1 as [|x l Hx _ IH]; [done|]. by rewrite filter_cons_False. Qed.

(** [drop_back p l] pops elements from the back of [l] while [p] holds. *)
Definition drop_back (p : A -> bool) (l : list A) : list A :=
  rev (span p (rev l)).2.

Lemma drop_back_prefix p l : exists d, l = drop_back p l ++ d /\ Forall (fun x => p x = true) d.
Proof.
  unfold drop_back. exists (rev (span p (rev l)).1). split.
  - rewrite <- rev_app_distr, span_app, rev_involutive. done.
  - apply Forall_rev, span_fst.
Qed.

Lemma drop_back_last p l x : last (drop_back p l) = Some x -> p x = false.
Proof.
  unfold drop_back. destruct (span p (rev l)).2 as [|y r] eqn:E; [done|].
  simpl. rewrite last_snoc. intros [= ->]. by eapply span_snd.
Qed.
End Lists.

(** ** Strings *)

Lemma length_append s t : String.length (String.append s t) = (String.length s + String.length t)%nat.
Proof. induction s as [|c s IH]; simpl; [done|by rewrite IH]. Qed.

Lemma substring_all s : String.substring 0 (String.length s) s = s.
Proof. induction s as [|c s IH]; simpl; [done|by rewrite IH]. Qed.

(** ** Sequences ordered by a key

    [descending key l] and [ascending key l]: the orders of a cache that
    keeps its newest, respectively its oldest, element in front. *)

Section Keyed.
Context {A : Type} (key : A -> Z).

Definition descending : list A -> Prop := StronglySorted (fun a b => key b <= key a).
Definition ascending : list A -> Prop := StronglySorted (fun a b => key a <= key b).

Lemma descending_cons x l :
  descending (x :: l) <-> (forall y, y ∈ l -> key y <= key x) /\ descending l.
Proof. unfold descending. by rewrite StronglySorted_cons, Forall_forall. Qed.

Lemma descending_app l1 l2 :
  descending (l1 ++ l2) <->
  (forall x y, x ∈ l1 -> y ∈ l2 -> key y <= key x) /\ descending l1 /\ descending l2.
Proof. unfold descending. rewrite StronglySorted_app. naive_solver. Qed.

Lemma ascending_cons x l :
  ascending (x :: l) <-> (forall y, y ∈ l -> key x <= key y) /\ ascending l.
Proof. unfold ascending. by rewrite StronglySorted_cons, Forall_forall. Qed.

Lemma ascending_app l1 l2 :
  ascending (l1 ++ l2) <->
  (forall x y, x ∈ l1 -> y ∈ l2 -> key x <= key y) /\ ascending l1 /\ ascending l2.
Proof. unfold ascending. rewrite StronglySorted_app. naive_solver. Qed.

(** The oldest element of a descending sequence bounds the others. *)
Lemma descending_last l x y : descending l -> last l = Some x -> y ∈ l -> key x <= key y.
Proof.
  intros Hs Hl Hy. apply last_Some in Hl as [l' ->].
  apply descending_app in Hs as (Hs & _). apply elem_of_app in Hy as [Hy|Hy].
  - apply Hs; set_solver.
  - apply list_elem_of_singleton in Hy as ->. lia.
Qed.

(** In a descending sequence the elements that precede the split at a
    threshold are exactly the newer ones. *)
Lemma descending_span (b : Z) l :
  descending l ->
  (forall x, x ∈ (span (fun t => negb (key t <=? b)) l).1 -> b < key x) /\
  (forall x, x ∈ (span (fun t => negb (key t <=? b)) l).2 -> key x <= b).
Proof.
  intros Hs. split.
  - intros x Hx. pose proof (span_fst (fun t => negb (key t <=? b)) l) as Hf.
    rewrite Forall_forall in Hf. apply Hf in Hx. rewrite negb_true_iff in Hx. lia.
  - destruct (span _ l) as [l1 l2] eqn:E. simpl. destruct l2 as [|y r]; [set_solver|].
    pose proof (span_app (fun t => negb (key t <=? b)) l) as Ha. rewrite E in Ha. simpl in Ha.
    assert (Hy : key y <= b).
    { pose proof (span_snd (fun t => negb (key t <=? b)) l y r) as Hy. rewrite E in Hy.
      specialize (Hy eq_refl). rewrite negb_false_iff in Hy. lia. }
    rewrite <- Ha in Hs. apply descending_app in Hs as (_ & _ & Hs).
    apply descending_cons in Hs as [Hs _].
    intros x [->|Hx]%elem_of_cons; [done|]. specialize (Hs _ Hx). lia.
Qed.

Lemma descending_insert d l :
  descending l ->
  descending ((span (fun t => negb (key t <=? key d)) l).1 ++
              d :: (span (fun t => negb (key t <=? key d)) l).2).
Proof.
  intros Hs. destruct (descending_span (key d) l Hs) as [H1 H2].
  rewrite <- (span_app (fun t => negb (key t <=? key d)) l) in Hs.
  apply descending_app in Hs as (Hs & Hs1 & Hs2).
  apply descending_app. repeat split; [|done|].
  - intros x y Hx [->|Hy]%elem_of_cons; [|by apply Hs]. specialize (H1 _ Hx). lia.
  - apply descending_cons. split; [|done]. intros y Hy. by apply H2.
Qed.

End Keyed.

(** ** Tactics and hints *)

(** Split every conditional and every match on a variable of the goal or of
    a hypothesis, discharging the impossible branches. *)
Ltac split_ifs :=
  repeat match goal with
  | |- context [if ?b then _ else _] => let E := fresh "E" in destruct b eqn:E
  | H : context [if ?b then _ else _] |- _ => let E := fresh "E" in destruct b eqn:E
  end.

(** Turn boolean comparisons on integers in the context into propositions. *)
Ltac bool_to_prop :=
  repeat match goal with
  | H : (_ && _)%bool = true |- _ => apply andb_true_iff in H; destruct H
  | H : (_ || _)%bool = false |- _ => apply orb_false_iff in H; destruct H
  | H : negb _ = true |- _ => apply negb_true_iff in H
  | H : negb _ = false |- _ => apply negb_false_iff in H
  | H : (_ <=? _) = true |- _ => apply Z.leb_le in H
  | H : (_ <=? _) = false |- _ => apply Z.leb_gt in H
  | H : (_ <? _) = true |- _ => apply Z.ltb_lt in H
  | H : (_ <? _) = false |- _ => apply Z.ltb_ge in H
  | H : (_ =? _) = true |- _ => apply Z.eqb_eq in H
  | H : (_ =? _) = false |- _ => apply Z.eqb_neq in H
  | H : (_ =? _)%N = true |- _ => apply N.eqb_eq in H
  | H : (_ =? _)%N = false |- _ => apply N.eqb_neq in H
  end.

Create HintDb ros.
#[export] Hint Resolve wrap_s_range wrap_u_range i64_range : ros.
