(* ===== verification/Computation.v ===== *)
(** * Computations with a state and exceptions

    [ST S E] is the monad of the methods that change an object of type [S]
    and may throw an [E]: what was done before the exception stays done, as
    in the code.  The monad's notations are those of stdpp.  The lemmas are
    the rules by which the proofs run such a method: [bind_ok] and
    [bind_throw] forward, [bind_inv] backward from its result, and [Keeps]
    for what no step of it changes. *)

From stdpp Require Import base list.
From S2P Require Import Prelude.

Definition ST (S E A : Type) : Type := S -> Result E A * S.

#[export] Instance ST_ret {S E} : MRet (ST S E) := fun A a st => (Ok a, st).
#[export] Instance ST_bind {S E} : MBind (ST S E) := fun A B k m st =>
  match m st with
  | (Ok a, st) => k a st
  | (Throw e, st) => (Throw e, st)
  end.

Section Primitives.
Context {S E : Type}.

Definition throw {A} (e : E) : ST S E A := fun st => (Throw e, st).
Definition get : ST S E S := fun st => (Ok st, st).
Definition modify (f : S -> S) : ST S E unit := fun st => (Ok tt, f st).

Fixpoint for_each {A} (f : A -> ST S E unit) (l : list A) : ST S E unit :=
  match l with
  | [] => mret tt
  | x :: l => f x;; for_each f l
  end.

(** A computation that cannot change the state. *)
Definition lift {A} (r : Result E A) : ST S E A := fun st => (r, st).

(** ** Rules *)

Lemma bind_ok {A B} (m : ST S E A) (k : A -> ST S E B) st st' x :
  m st = (Ok x, st') -> (m ≫= k) st = k x st'.
Proof. intros Hm. unfold mbind, ST_bind. by rewrite Hm. Qed.

Lemma bind_throw {A B} (m : ST S E A) (k : A -> ST S E B) st st' e :
  m st = (Throw e, st') -> (m ≫= k) st = (Throw e, st').
Proof. intros Hm. unfold mbind, ST_bind. by rewrite Hm. Qed.

Lemma get_bind {A} (k : S -> ST S E A) st : (get ≫= k) st = k st st.
Proof. done. Qed.

Lemma bind_inv {A B} (m : ST S E A) (k : A -> ST S E B) st y st' :
  (m ≫= k) st = (Ok y, st') -> exists x st1, m st = (Ok x, st1) /\ k x st1 = (Ok y, st').
Proof. unfold mbind, ST_bind. destruct (m st) as [[x|e] st1]; [eauto|done]. Qed.

(** The two ways a sequence throws. *)
Lemma bind_throw_inv {A B} (m : ST S E A) (k : A -> ST S E B) st e st' :
  (m ≫= k) st = (Throw e, st') ->
  m st = (Throw e, st') \/ exists x st1, m st = (Ok x, st1) /\ k x st1 = (Throw e, st').
Proof. unfold mbind, ST_bind. destruct (m st) as [[x|e'] st1]; [eauto|intros [= -> ->]; auto]. Qed.

(** ** What a computation keeps *)

Context (R : S -> S -> Prop).

Definition Keeps {A} (m : ST S E A) : Prop := forall st, R st (m st).2.

Lemma Keeps_bind `{!Transitive R} {A B} (m : ST S E A) (k : A -> ST S E B) :
  Keeps m -> (forall x, Keeps (k x)) -> Keeps (m ≫= k).
Proof.
  intros Hm Hk st. unfold mbind, ST_bind. specialize (Hm st).
  destruct (m st) as [[x|e] st1]; simpl in *; [|done]. by transitivity st1; [|apply Hk].
Qed.

Lemma Keeps_ret `{!Reflexive R} {A} (x : A) : Keeps (mret x).
Proof. by intros st. Qed.

Lemma Keeps_throw `{!Reflexive R} {A} e : Keeps (A := A) (throw e).
Proof. by intros st. Qed.

Lemma Keeps_get `{!Reflexive R} : Keeps get.
Proof. by intros st. Qed.

Lemma Keeps_lift `{!Reflexive R} {A} (r : Result E A) : Keeps (lift r).
Proof. by intros st. Qed.

Lemma Keeps_for_each `{!PreOrder R} {A} (f : A -> ST S E unit) l :
  (forall x, Keeps (f x)) -> Keeps (for_each f l).
Proof.
  intros Hf. induction l as [|x l IH]; simpl; [by apply Keeps_ret; apply _|].
  apply Keeps_bind; auto.
Qed.

(** A loop whose steps keep [I], move along [R] and do something for their
    element, [Done], that later steps do not undo. *)
Lemma for_each_done `{!PreOrder R} {A} (I : S -> Prop) (Done : A -> S -> Prop) (f : A -> ST S E unit) l st :
  (forall x st, I st -> exists st', f x st = (Ok tt, st') /\ I st' /\ R st st' /\ Done x st') ->
  (forall x st st', R st st' -> Done x st -> Done x st') ->
  I st -> exists st', for_each f l st = (Ok tt, st') /\ I st' /\ R st st' /\ forall x, x ∈ l -> Done x st'.
Proof.
  intros Hf Hm. revert st. induction l as [|x l IH]; intros st Hi; simpl.
  - exists st. split_and!; [done..|]. by intros ? ?%elem_of_nil.
  - destruct (Hf x st Hi) as (st1 & E1 & H1 & R1 & D1). destruct (IH st1 H1) as (st2 & E2 & H2 & R2 & D2).
    exists st2. split_and!; [by rewrite (bind_ok _ _ _ _ _ E1)|done|by transitivity st1|].
    intros y [->|Hy]%elem_of_cons; eauto.
Qed.

(** ** What a computation never throws *)

Definition Avoids {A} (e : E) (m : ST S E A) : Prop := forall st, (m st).1 <> Throw e.

Lemma Avoids_bind {A B} e (m : ST S E A) (k : A -> ST S E B) : Avoids e m -> (forall x, Avoids e (k x)) -> Avoids e (m ≫= k).
Proof.
  intros Hm Hk st. unfold mbind, ST_bind. specialize (Hm st). destruct (m st) as [[x|e'] st1]; simpl in *; [apply Hk|congruence].
Qed.

Lemma Avoids_ret {A} e (x : A) : Avoids e (mret x).
Proof. by intros st. Qed.

Lemma Avoids_throw {A} e e' : e' <> e -> Avoids (A := A) e (throw e').
Proof. intros He st. simpl. congruence. Qed.

Lemma Avoids_get e : Avoids e get.
Proof. by intros st. Qed.

Lemma Avoids_modify e f : Avoids e (modify f).
Proof. by intros st. Qed.

Lemma Avoids_for_each {A} e (f : A -> ST S E unit) l : (forall x, Avoids e (f x)) -> Avoids e (for_each f l).
Proof. intros Hf. induction l as [|x l IH]; simpl; [apply Avoids_ret|]. apply Avoids_bind; auto. Qed.

(** ** Total correctness

    [total P m Q]: from a state with [P] the computation returns, with a
    result and a state with [Q]. *)

Definition total {A} (P : S -> Prop) (m : ST S E A) (Q : A -> S -> Prop) : Prop :=
  forall st, P st -> exists a st', m st = (Ok a, st') /\ Q a st'.

Lemma total_ret {A} (P : S -> Prop) (x : A) (Q : A -> S -> Prop) : (forall st, P st -> Q x st) -> total P (mret x) Q.
Proof. intros HQ st HP. exists x, st. auto. Qed.

Lemma total_bind {A B} P (Q : A -> S -> Prop) (T : B -> S -> Prop) (m : ST S E A) (k : A -> ST S E B) :
  total P m Q -> (forall x, total (Q x) (k x) T) -> total P (m ≫= k) T.
Proof.
  intros Hm Hk st HP. destruct (Hm st HP) as (x & st1 & E1 & HQ).
  destruct (Hk x st1 HQ) as (y & st2 & E2 & HT). exists y, st2. split; [|done]. by rewrite (bind_ok _ _ _ _ _ E1).
Qed.

(** The state that was read is remembered. *)
Lemma total_get {A} P (T : A -> S -> Prop) (k : S -> ST S E A) :
  (forall st, total (fun st' => st' = st /\ P st') (k st) T) -> total P (get ≫= k) T.
Proof. intros Hk st HP. apply (Hk st st). by split. Qed.

Lemma total_modify P f (Q : S -> Prop) : (forall st, P st -> Q (f st)) -> total P (modify f) (fun _ => Q).
Proof. intros HQ st HP. exists tt, (f st). auto. Qed.

Lemma total_conseq {A} (P P' : S -> Prop) (Q Q' : A -> S -> Prop) (m : ST S E A) :
  total P' m Q' -> (forall st, P st -> P' st) -> (forall x st, Q' x st -> Q x st) -> total P m Q.
Proof. intros Hm HP HQ st Hst. destruct (Hm st (HP st Hst)) as (x & st' & ? & ?). eauto 6. Qed.

(** [I l]: the elements of [l] are still to come. *)
Lemma total_for_each {A} (I : list A -> S -> Prop) (f : A -> ST S E unit) l :
  (forall x l, total (I (x :: l)) (f x) (fun _ => I l)) -> total (I l) (for_each f l) (fun _ => I []).
Proof.
  intros Hf. induction l as [|x l IH]; simpl; [by apply total_ret|]. eapply total_bind; [apply Hf|]. intros u. apply IH.
Qed.

End Primitives.

Create HintDb keeps.
#[export] Hint Resolve Keeps_ret Keeps_throw Keeps_get Keeps_lift : keeps.
#[export] Hint Extern 1 (Reflexive _) => apply _ : keeps.
#[export] Hint Extern 1 (Transitive _) => apply _ : keeps.

(** Through the branches of a computation. *)
Ltac keeps_steps :=
  repeat match goal with
  | |- Keeps _ (_ ≫= _) => apply Keeps_bind; [apply _| |intros ?]
  | |- Keeps _ (for_each _ _) => apply Keeps_for_each; [apply _|intros ?]
  | |- Keeps _ (if ?b then _ else _) => destruct b
  | |- Keeps _ (match ?x with _ => _ end) => destruct x
  | |- Keeps _ (let _ := _ in _) => cbv zeta
  | |- _ => solve [eauto with keeps]
  end.

Create HintDb avoids.
#[export] Hint Resolve Avoids_ret Avoids_get Avoids_modify : avoids.
#[export] Hint Extern 1 (Avoids _ (throw _)) => (apply Avoids_throw; discriminate) : avoids.

Ltac avoids_steps :=
  repeat match goal with
  | |- Avoids _ (_ ≫= _) => apply Avoids_bind; [|intros ?]
  | |- Avoids _ (for_each _ _) => apply Avoids_for_each; intros ?
  | |- Avoids _ (if ?b then _ else _) => destruct b
  | |- Avoids _ (match ?x with _ => _ end) => destruct x
  | |- Avoids _ (let _ := _ in _) => cbv zeta
  | |- _ => solve [eauto with avoids]
  end.
