(* ===== verification/OrderedMap.v ===== *)
(** * Ordered maps

    [std::map] walks its keys in their order; a [gmap] has no order of its
    own, so what a loop over such a map meets is [in_order].  [string_le] is
    [std::less] on strings: the order of their unsigned characters. *)

From Stdlib Require Import ZArith Lia String Ascii.
From stdpp Require Import base numbers list gmap strings sorting.
From S2P Require Import Prelude.

(** The order of a map with keys in the order [key_le]. *)
Definition item_le {K A} (key_le : K -> K -> Prop) (x y : K * A) : Prop := key_le x.1 y.1.

#[export] Instance item_le_dec {K A} (key_le : K -> K -> Prop) `{!RelDecision key_le} :
  RelDecision (item_le (A := A) key_le).
Proof. intros x y. unfold item_le. apply _. Defined.

Definition string_le (x y : string) : Prop := String.leb x y = true.

#[export] Instance string_le_dec : RelDecision string_le.
Proof. intros x y. unfold string_le. apply _. Defined.

(** ** Laws of the orders *)

#[export] Instance item_le_total {K A} (key_le : K -> K -> Prop) `{!Total key_le} : Total (item_le (A := A) key_le).
Proof. intros x y. apply (total key_le). Qed.

#[export] Instance item_le_trans {K A} (key_le : K -> K -> Prop) `{!Transitive key_le} :
  Transitive (item_le (A := A) key_le).
Proof. intros x y z. apply (transitivity (R := key_le)). Qed.

#[export] Instance N_le_total : Total N.le.
Proof. intros x y. lia. Qed.

Lemma string_le_cons a s b t :
  string_le (String a s) (String b t) <->
  (Ascii.N_of_ascii a < Ascii.N_of_ascii b)%N \/ a = b /\ string_le s t.
Proof.
  unfold string_le, String.leb. cbn [String.compare]. unfold Ascii.compare.
  destruct (N.compare_spec (Ascii.N_of_ascii a) (Ascii.N_of_ascii b)) as [E|E|E].
  - assert (a = b) as -> by (rewrite <- (Ascii.ascii_N_embedding a), <- (Ascii.ascii_N_embedding b); congruence).
    split; [by right|]. intros [H|[_ H]]; [lia|done].
  - split; [by left|done].
  - split; [done|]. intros [H|[-> _]]; lia.
Qed.

#[export] Instance string_le_total : Total string_le.
Proof. intros x y. apply String.leb_total. Qed.

#[export] Instance string_le_trans : Transitive string_le.
Proof.
  intros x y z. revert y z. induction x as [|a x IH]; intros [|b y] [|c z]; try done.
  rewrite !string_le_cons. intros [H1|[-> H1]] [H2|[-> H2]]; try (left; lia). right. eauto.
Qed.

(** ** Maps with names as keys *)

Definition in_order {A} (m : gmap string A) : list (string * A) :=
  merge_sort (item_le string_le) (map_to_list m).

Lemma in_order_lookup {A} (m : gmap string A) k x : (k, x) ∈ in_order m <-> m !! k = Some x.
Proof. unfold in_order. by rewrite merge_sort_Permutation, elem_of_map_to_list. Qed.

Lemma in_order_nodup {A} (m : gmap string A) : NoDup (in_order m).*1.
Proof. unfold in_order. rewrite merge_sort_Permutation. apply NoDup_fst_map_to_list. Qed.

Lemma in_order_sorted {A} (m : gmap string A) : StronglySorted (item_le string_le) (in_order m).
Proof. unfold in_order. apply StronglySorted_merge_sort; apply _. Qed.

Lemma in_order_keys_sorted {A} (m : gmap string A) : StronglySorted string_le (in_order m).*1.
Proof.
  induction (in_order_sorted m) as [|x l Hs IH Hx]; simpl; [constructor|]. constructor; [done|].
  apply Forall_fmap. by apply Hx.
Qed.

(** ** Sets of numbers

    A [std::set] ordered by the addresses of its elements. *)

Definition set_in_order (X : gset N) : list N := merge_sort N.le (elements X).

Lemma elem_of_set_in_order X x : x ∈ set_in_order X <-> x ∈ X.
Proof. unfold set_in_order. by rewrite merge_sort_Permutation, elem_of_elements. Qed.

Lemma NoDup_set_in_order X : NoDup (set_in_order X).
Proof. unfold set_in_order. rewrite merge_sort_Permutation. apply NoDup_elements. Qed.

Lemma length_set_in_order X : length (set_in_order X) = size X.
Proof. unfold set_in_order. by rewrite merge_sort_Permutation. Qed.

Lemma set_in_order_empty : set_in_order ∅ = [].
Proof. done. Qed.
