(* ===== verification/LinearMath.v ===== *)
(** * tf2 LinearMath: Vector3, Quaternion, Matrix3x3 and Transform

    The classes of [tf2/include/tf2/LinearMath/], written once over an
    interface [Scalar] of the operations that the code performs on
    [tf2Scalar].  The operators of the interface stand for the C++ operators
    on [double] and for the [<cmath>] functions; the instance on primitive
    floats evaluates as the code does, the instances on [Z] and on the reals
    are the exact arithmetics in which the algebraic laws of the code are
    stated. *)

From Stdlib Require QArith Qcanon.
From Stdlib Require Import ZArith Lia Ring Field Floats.
From stdpp Require Import base numbers list.
From S2P Require Import Prelude.

Class Scalar (T : Type) := {
  szero : T;
  sone : T;
  sadd : T -> T -> T;
  ssub : T -> T -> T;
  smul : T -> T -> T;
  sdiv : T -> T -> T;
  sopp : T -> T;
  sltb : T -> T -> bool;
  seqb : T -> T -> bool;
  sisnan : T -> bool;
  ssqrt : T -> T;
  sabs : T -> T;
  ssin : T -> T;
  sacos : T -> T;
  sofZ : Z -> T;
}.

Declare Scope scalar_scope.
Delimit Scope scalar_scope with sc.
Infix "+" := sadd : scalar_scope.
Infix "-" := ssub : scalar_scope.
Infix "*" := smul : scalar_scope.
Infix "/" := sdiv : scalar_scope.
Notation "- x" := (sopp x) : scalar_scope.
Infix "<?" := sltb : scalar_scope.
Infix "=?" := seqb : scalar_scope.

Section LinearMath.
Context {T : Type} {S : Scalar T}.
Local Open Scope scalar_scope.

(** ** Vector3 *)

Record Vector3 := mkVector3 { vx : T; vy : T; vz : T }.

Definition Vector3_zero : Vector3 := mkVector3 szero szero szero.

Definition Vector3_add (v1 v2 : Vector3) : Vector3 :=
  mkVector3 (vx v1 + vx v2) (vy v1 + vy v2) (vz v1 + vz v2).

Definition Vector3_sub (v1 v2 : Vector3) : Vector3 :=
  mkVector3 (vx v1 - vx v2) (vy v1 - vy v2) (vz v1 - vz v2).

Definition Vector3_opp (v : Vector3) : Vector3 :=
  mkVector3 (- vx v) (- vy v) (- vz v).

(** [operator*(const Vector3 &, const Vector3 &)]: the elementwise product. *)
Definition Vector3_elemmul (v1 v2 : Vector3) : Vector3 :=
  mkVector3 (vx v1 * vx v2) (vy v1 * vy v2) (vz v1 * vz v2).

Definition Vector3_scale (v : Vector3) (s : T) : Vector3 :=
  mkVector3 (vx v * s) (vy v * s) (vz v * s).

Definition Vector3_dot (v w : Vector3) : T :=
  vx v * vx w + vy v * vy w + vz v * vz w.

Definition Vector3_cross (v w : Vector3) : Vector3 :=
  mkVector3 (vy v * vz w - vz v * vy w)
            (vz v * vx w - vx v * vz w)
            (vx v * vy w - vy v * vx w).

(** [operator==] also compares the unused fourth component, which every
    constructor of the class sets to zero. *)
Definition Vector3_eqb (v w : Vector3) : bool :=
  (vz v =? vz w) && ((vy v =? vy w) && (vx v =? vx w)).

Definition setInterpolate3 (v0 v1 : Vector3) (rt : T) : Vector3 :=
  let s := sone - rt in
  mkVector3 (s * vx v0 + rt * vx v1) (s * vy v0 + rt * vy v1) (s * vz v0 + rt * vz v1).

(** ** Quaternion *)

Record Quaternion := mkQuaternion { qx : T; qy : T; qz : T; qw : T }.

Definition Quaternion_identity : Quaternion := mkQuaternion szero szero szero sone.

Definition Quaternion_eqb (q r : Quaternion) : bool :=
  (qw q =? qw r) && ((qz q =? qz r) && ((qy q =? qy r) && (qx q =? qx r))).

Definition Quaternion_dot (q r : Quaternion) : T :=
  qx q * qx r + qy q * qy r + qz q * qz r + qw q * qw r.

Definition Quaternion_length2 (q : Quaternion) : T := Quaternion_dot q q.

Definition Quaternion_opp (q : Quaternion) : Quaternion :=
  mkQuaternion (- qx q) (- qy q) (- qz q) (- qw q).

Definition Quaternion_inverse (q : Quaternion) : Quaternion :=
  mkQuaternion (- qx q) (- qy q) (- qz q) (qw q).

(** [operator*(const Quaternion &, const Quaternion &)]; the member
    [operator*=] computes the same four expressions. *)
Definition Quaternion_mul (q1 q2 : Quaternion) : Quaternion :=
  mkQuaternion
    (qw q1 * qx q2 + qx q1 * qw q2 + qy q1 * qz q2 - qz q1 * qy q2)
    (qw q1 * qy q2 + qy q1 * qw q2 + qz q1 * qx q2 - qx q1 * qz q2)
    (qw q1 * qz q2 + qz q1 * qw q2 + qx q1 * qy q2 - qy q1 * qx q2)
    (qw q1 * qw q2 - qx q1 * qx q2 - qy q1 * qy q2 - qz q1 * qz q2).

(** [operator*(const Quaternion &, const Vector3 &)]. *)
Definition Quaternion_mulv (q : Quaternion) (w : Vector3) : Quaternion :=
  mkQuaternion
    (qw q * vx w + qy q * vz w - qz q * vy w)
    (qw q * vy w + qz q * vx w - qx q * vz w)
    (qw q * vz w + qx q * vy w - qy q * vx w)
    (- qx q * vx w - qy q * vy w - qz q * vz w).

Definition quatRotate (rotation : Quaternion) (v : Vector3) : Vector3 :=
  let q := Quaternion_mulv rotation v in
  let q := Quaternion_mul q (Quaternion_inverse rotation) in
  mkVector3 (qx q) (qy q) (qz q).

Definition tf2Acos (x : T) : T :=
  let x := if x <? - sone then - sone else x in
  let x := if sone <? x then sone else x in
  sacos x.

Definition Quaternion_angleShortestPath (q r : Quaternion) : T :=
  let s := ssqrt (Quaternion_length2 q * Quaternion_length2 r) in
  if Quaternion_dot q r <? szero
  then tf2Acos (Quaternion_dot q (Quaternion_opp r) / s) * sofZ 2
  else tf2Acos (Quaternion_dot q r / s) * sofZ 2.

Definition Quaternion_slerp (p q : Quaternion) (t : T) : Quaternion :=
  let theta := Quaternion_angleShortestPath p q / sofZ 2 in
  if negb (theta =? szero) then
    let d := sone / ssin theta in
    let s0 := ssin ((sone - t) * theta) in
    let s1 := ssin (t * theta) in
    if Quaternion_dot p q <? szero then
      mkQuaternion ((qx p * s0 + - qx q * s1) * d) ((qy p * s0 + - qy q * s1) * d)
                   ((qz p * s0 + - qz q * s1) * d) ((qw p * s0 + - qw q * s1) * d)
    else
      mkQuaternion ((qx p * s0 + qx q * s1) * d) ((qy p * s0 + qy q * s1) * d)
                   ((qz p * s0 + qz q * s1) * d) ((qw p * s0 + qw q * s1) * d)
  else p.

(** ** Matrix3x3: three rows *)

Record Matrix3x3 := mkMatrix3x3 { m_el0 : Vector3; m_el1 : Vector3; m_el2 : Vector3 }.

Definition Matrix3x3_setValue (xx xy xz yx yy yz zx zy zz : T) : Matrix3x3 :=
  mkMatrix3x3 (mkVector3 xx xy xz) (mkVector3 yx yy yz) (mkVector3 zx zy zz).

Definition Matrix3x3_identity : Matrix3x3 :=
  Matrix3x3_setValue sone szero szero szero sone szero szero szero sone.

(** [m_el[i]] and [Vector3::operator[]]; the code only uses 0, 1 and 2. *)
Definition Matrix3x3_row (m : Matrix3x3) (i : nat) : Vector3 :=
  match i with O => m_el0 m | 1%nat => m_el1 m | _ => m_el2 m end.
Definition Vector3_at (v : Vector3) (i : nat) : T :=
  match i with O => vx v | 1%nat => vy v | _ => vz v end.
Definition Matrix3x3_at (m : Matrix3x3) (i j : nat) : T := Vector3_at (Matrix3x3_row m i) j.

Definition Matrix3x3_setRotation (q : Quaternion) : Matrix3x3 :=
  let d := Quaternion_length2 q in
  let s := sofZ 2 / d in
  let xs := qx q * s in let ys := qy q * s in let zs := qz q * s in
  let wx := qw q * xs in let wy := qw q * ys in let wz := qw q * zs in
  let xx := qx q * xs in let xy := qx q * ys in let xz := qx q * zs in
  let yy := qy q * ys in let yz := qy q * zs in let zz := qz q * zs in
  Matrix3x3_setValue
    (sone - (yy + zz)) (xy - wz) (xz + wy)
    (xy + wz) (sone - (xx + zz)) (yz - wx)
    (xz - wy) (yz + wx) (sone - (xx + yy)).

Definition shalf : T := sone / sofZ 2.

Definition Matrix3x3_getRotation (m : Matrix3x3) : Quaternion :=
  let trace := vx (m_el0 m) + vy (m_el1 m) + vz (m_el2 m) in
  if szero <? trace then
    let s := ssqrt (trace + sone) in
    let temp3 := s * shalf in
    let s := shalf / s in
    mkQuaternion ((vy (m_el2 m) - vz (m_el1 m)) * s)
                 ((vz (m_el0 m) - vx (m_el2 m)) * s)
                 ((vx (m_el1 m) - vy (m_el0 m)) * s) temp3
  else
    let i := if vx (m_el0 m) <? vy (m_el1 m)
             then (if vy (m_el1 m) <? vz (m_el2 m) then 2%nat else 1%nat)
             else (if vx (m_el0 m) <? vz (m_el2 m) then 2%nat else 0%nat) in
    let j := ((i + 1) mod 3)%nat in
    let k := ((i + 2) mod 3)%nat in
    let at_ := Matrix3x3_at m in
    let s := ssqrt (at_ i i - at_ j j - at_ k k + sone) in
    let temp_i := s * shalf in
    let s := shalf / s in
    let temp3 := (at_ k j - at_ j k) * s in
    let temp_j := (at_ j i + at_ i j) * s in
    let temp_k := (at_ k i + at_ i k) * s in
    let temp n := if Nat.eqb n i then temp_i else if Nat.eqb n j then temp_j else temp_k in
    mkQuaternion (temp 0%nat) (temp 1%nat) (temp 2%nat) temp3.

Definition Matrix3x3_tdotx (m : Matrix3x3) (v : Vector3) : T :=
  vx (m_el0 m) * vx v + vx (m_el1 m) * vy v + vx (m_el2 m) * vz v.
Definition Matrix3x3_tdoty (m : Matrix3x3) (v : Vector3) : T :=
  vy (m_el0 m) * vx v + vy (m_el1 m) * vy v + vy (m_el2 m) * vz v.
Definition Matrix3x3_tdotz (m : Matrix3x3) (v : Vector3) : T :=
  vz (m_el0 m) * vx v + vz (m_el1 m) * vy v + vz (m_el2 m) * vz v.

Definition Matrix3x3_mul (m1 m2 : Matrix3x3) : Matrix3x3 :=
  mkMatrix3x3
    (mkVector3 (Matrix3x3_tdotx m2 (m_el0 m1)) (Matrix3x3_tdoty m2 (m_el0 m1)) (Matrix3x3_tdotz m2 (m_el0 m1)))
    (mkVector3 (Matrix3x3_tdotx m2 (m_el1 m1)) (Matrix3x3_tdoty m2 (m_el1 m1)) (Matrix3x3_tdotz m2 (m_el1 m1)))
    (mkVector3 (Matrix3x3_tdotx m2 (m_el2 m1)) (Matrix3x3_tdoty m2 (m_el2 m1)) (Matrix3x3_tdotz m2 (m_el2 m1))).

Definition Matrix3x3_mulv (m : Matrix3x3) (v : Vector3) : Vector3 :=
  mkVector3 (Vector3_dot (m_el0 m) v) (Vector3_dot (m_el1 m) v) (Vector3_dot (m_el2 m) v).

Definition Matrix3x3_transpose (m : Matrix3x3) : Matrix3x3 :=
  Matrix3x3_setValue
    (vx (m_el0 m)) (vx (m_el1 m)) (vx (m_el2 m))
    (vy (m_el0 m)) (vy (m_el1 m)) (vy (m_el2 m))
    (vz (m_el0 m)) (vz (m_el1 m)) (vz (m_el2 m)).

Definition Matrix3x3_cofac (m : Matrix3x3) (r1 c1 r2 c2 : nat) : T :=
  Matrix3x3_at m r1 c1 * Matrix3x3_at m r2 c2 - Matrix3x3_at m r1 c2 * Matrix3x3_at m r2 c1.

Definition Matrix3x3_inverse (m : Matrix3x3) : Matrix3x3 :=
  let cofac := Matrix3x3_cofac m in
  let co := mkVector3 (cofac 1 1 2 2)%nat (cofac 1 2 2 0)%nat (cofac 1 0 2 1)%nat in
  let det := Vector3_dot (m_el0 m) co in
  let s := sone / det in
  Matrix3x3_setValue
    (vx co * s) ((cofac 0 2 2 1)%nat * s) ((cofac 0 1 1 2)%nat * s)
    (vy co * s) ((cofac 0 0 2 2)%nat * s) ((cofac 0 2 1 0)%nat * s)
    (vz co * s) ((cofac 0 1 2 0)%nat * s) ((cofac 0 0 1 1)%nat * s).

(** ** Transform *)

Record Transform := mkTransform { m_basis : Matrix3x3; m_origin : Vector3 }.

Definition Transform_of (q : Quaternion) (c : Vector3) : Transform :=
  mkTransform (Matrix3x3_setRotation q) c.

Definition Transform_identity : Transform := mkTransform Matrix3x3_identity Vector3_zero.

Definition Transform_getRotation (t : Transform) : Quaternion :=
  Matrix3x3_getRotation (m_basis t).

(** [operator()(const Vector3 &)], also spelt [operator*]. *)
Definition Transform_apply (t : Transform) (x : Vector3) : Vector3 :=
  mkVector3 (Vector3_dot (m_el0 (m_basis t)) x + vx (m_origin t))
            (Vector3_dot (m_el1 (m_basis t)) x + vy (m_origin t))
            (Vector3_dot (m_el2 (m_basis t)) x + vz (m_origin t)).

Definition Transform_mul (t1 t2 : Transform) : Transform :=
  mkTransform (Matrix3x3_mul (m_basis t1) (m_basis t2)) (Transform_apply t1 (m_origin t2)).

Definition Transform_inverse (t : Transform) : Transform :=
  let inv := Matrix3x3_transpose (m_basis t) in
  mkTransform inv (Matrix3x3_mulv inv (Vector3_opp (m_origin t))).

End LinearMath.

Arguments Vector3 : clear implicits.
Arguments Quaternion : clear implicits.
Arguments Matrix3x3 : clear implicits.
Arguments Transform : clear implicits.

(** ** Instances *)

(** Primitive binary64 floats evaluate as [double] does; [sin] and [acos]
    come from the C library and are parameters of the instance. *)
Definition float_scalar (csin cacos : float -> float) : Scalar float := {|
  szero := PrimFloat.zero;
  sone := PrimFloat.one;
  sadd := PrimFloat.add;
  ssub := PrimFloat.sub;
  smul := PrimFloat.mul;
  sdiv := PrimFloat.div;
  sopp := PrimFloat.opp;
  sltb := PrimFloat.ltb;
  seqb := PrimFloat.eqb;
  sisnan := PrimFloat.is_nan;
  ssqrt := PrimFloat.sqrt;
  sabs := PrimFloat.abs;
  ssin := csin;
  sacos := cacos;
  sofZ := fun z => SF2Prim (binary_normalize prec emax z 0 false);
|}.

(** The integers: exact ring arithmetic, for evaluation of the ring-valued
    part of the code on concrete inputs. *)
#[export] Instance Z_scalar : Scalar Z := {|
  szero := 0; sone := 1; sadd := Z.add; ssub := Z.sub; smul := Z.mul; sdiv := Z.div;
  sopp := Z.opp; sltb := Z.ltb; seqb := Z.eqb; sisnan := fun _ => false;
  ssqrt := Z.sqrt; sabs := Z.abs; ssin := fun x => x; sacos := fun x => x; sofZ := fun z => z;
|}.

(** The canonical rationals: exact arithmetic that evaluates.  The square
    root is that of a quotient of perfect squares; the transcendental
    functions have no rational counterpart and are not used with it. *)
#[export] Instance Qc_scalar : Scalar Qcanon.Qc := {|
  szero := Qcanon.Q2Qc (QArith_base.Qmake 0 1); sone := Qcanon.Q2Qc (QArith_base.Qmake 1 1);
  sadd := Qcanon.Qcplus; ssub := Qcanon.Qcminus; smul := Qcanon.Qcmult; sdiv := Qcanon.Qcdiv;
  sopp := Qcanon.Qcopp;
  sltb := fun x y => negb (QArith_base.Qle_bool (Qcanon.this y) (Qcanon.this x));
  seqb := Qcanon.Qc_eq_bool; sisnan := fun _ => false;
  ssqrt := fun x => Qcanon.Q2Qc (QArith_base.Qmake (Z.sqrt (QArith_base.Qnum (Qcanon.this x)))
                                   (Pos.sqrt (QArith_base.Qden (Qcanon.this x))));
  sabs := fun x => if QArith_base.Qle_bool (QArith_base.Qmake 0 1) (Qcanon.this x)
                   then x else Qcanon.Qcopp x;
  ssin := fun x => x; sacos := fun x => x;
  sofZ := fun z => Qcanon.Q2Qc (QArith_base.inject_Z z);
|}.

(** The exact arithmetics: those in which the operators form a commutative
    ring for Leibniz equality. *)
Class ScalarRing (T : Type) {S : Scalar T} :=
  scalar_ring : ring_theory (szero (T:=T)) sone sadd smul ssub sopp (@eq T).

#[export] Instance Z_scalar_ring : ScalarRing Z.
Proof. constructor; intros; simpl; lia. Qed.

#[export] Instance Qc_scalar_ring : ScalarRing Qcanon.Qc.
Proof. exact Qcanon.Qcrt. Qed.

(** ** Laws of quaternions in exact arithmetic *)

Section RingLaws.
Context {T : Type} {S : Scalar T} {R : ScalarRing T}.
Add Ring scalar_ring_inst : (@scalar_ring T S R).
Local Open Scope scalar_scope.

Local Ltac crush :=
  intros; repeat match goal with
  | v : Vector3 T |- _ => destruct v
  | q : Quaternion T |- _ => destruct q
  end; cbv [quatRotate Quaternion_mul Quaternion_mulv Quaternion_inverse Quaternion_length2
            Quaternion_dot Vector3_add Vector3_opp Vector3_zero Quaternion_identity
            qx qy qz qw vx vy vz];
  first [ring | f_equal; ring].

Lemma Vector3_add_assoc (u v w : Vector3 T) :
  Vector3_add u (Vector3_add v w) = Vector3_add (Vector3_add u v) w.
Proof. crush. Qed.

Lemma Vector3_add_0_r (v : Vector3 T) : Vector3_add v Vector3_zero = v.
Proof. crush. Qed.

Lemma Vector3_add_opp_r (v : Vector3 T) : Vector3_add v (Vector3_opp v) = Vector3_zero.
Proof. crush. Qed.

Lemma Quaternion_mul_assoc (p q r : Quaternion T) :
  Quaternion_mul p (Quaternion_mul q r) = Quaternion_mul (Quaternion_mul p q) r.
Proof. crush. Qed.

Lemma Quaternion_mul_1_r (q : Quaternion T) : Quaternion_mul q Quaternion_identity = q.
Proof. crush. Qed.

Lemma Quaternion_inverse_mul (q : Quaternion T) :
  Quaternion_mul (Quaternion_inverse q) q = mkQuaternion szero szero szero (Quaternion_length2 q).
Proof. crush. Qed.

Lemma Quaternion_length2_mul (p q : Quaternion T) :
  Quaternion_length2 (Quaternion_mul p q) = Quaternion_length2 p * Quaternion_length2 q.
Proof. crush. Qed.

Lemma Quaternion_length2_inverse (q : Quaternion T) :
  Quaternion_length2 (Quaternion_inverse q) = Quaternion_length2 q.
Proof. crush. Qed.

Lemma quatRotate_mul (p q : Quaternion T) (v : Vector3 T) :
  quatRotate (Quaternion_mul p q) v = quatRotate p (quatRotate q v).
Proof. crush. Qed.

Lemma quatRotate_add (q : Quaternion T) (v w : Vector3 T) :
  quatRotate q (Vector3_add v w) = Vector3_add (quatRotate q v) (quatRotate q w).
Proof. crush. Qed.

Lemma quatRotate_identity (v : Vector3 T) : quatRotate Quaternion_identity v = v.
Proof. crush. Qed.

Lemma quatRotate_zero (q : Quaternion T) : quatRotate q Vector3_zero = Vector3_zero.
Proof. crush. Qed.

Lemma Vector3_add_0_l (v : Vector3 T) : Vector3_add Vector3_zero v = v.
Proof. crush. Qed.

Lemma Quaternion_inverse_identity_mul (q : Quaternion T) :
  Quaternion_mul (Quaternion_inverse Quaternion_identity) q = q.
Proof. crush. Qed.

Lemma quatRotate_inverse_identity (v : Vector3 T) :
  quatRotate (Quaternion_inverse Quaternion_identity) v = v.
Proof. crush. Qed.

Lemma Vector3_opp_zero : Vector3_opp Vector3_zero = Vector3_zero :> Vector3 T.
Proof. crush. Qed.

Definition unit_quat (q : Quaternion T) : Prop := Quaternion_length2 q = sone.

Lemma unit_quat_identity : unit_quat Quaternion_identity.
Proof. unfold unit_quat. crush. Qed.

Lemma unit_quat_mul p q : unit_quat p -> unit_quat q -> unit_quat (Quaternion_mul p q).
Proof. unfold unit_quat. intros Hp Hq. rewrite Quaternion_length2_mul, Hp, Hq. ring. Qed.

Lemma unit_quat_inverse q : unit_quat q -> unit_quat (Quaternion_inverse q).
Proof. unfold unit_quat. by rewrite Quaternion_length2_inverse. Qed.

Lemma quatRotate_inverse q v :
  unit_quat q -> quatRotate (Quaternion_inverse q) (quatRotate q v) = v.
Proof.
  unfold unit_quat. intros Hq.
  rewrite <- quatRotate_mul, Quaternion_inverse_mul, Hq. apply quatRotate_identity.
Qed.

Lemma quatRotate_inverse_r q v :
  unit_quat q -> quatRotate q (quatRotate (Quaternion_inverse q) v) = v.
Proof.
  intros Hq. rewrite <- (quatRotate_inverse (Quaternion_inverse q) v) at 2
    by now apply unit_quat_inverse.
  f_equal. destruct q; unfold Quaternion_inverse; simpl. f_equal; ring.
Qed.
End RingLaws.

Create HintDb linmath.
#[export] Hint Resolve unit_quat_identity unit_quat_mul unit_quat_inverse : linmath.


(** A rotation followed by a translation, as the accumulators of the buffer
    apply one: [rigid q t p] is [quatRotate q p + t]. *)
Definition rigid {T} {S : Scalar T} (q : Quaternion T) (t p : Vector3 T) : Vector3 T :=
  Vector3_add (quatRotate q p) t.
