(* ===== verification/LinearMathReal.v ===== *)
(** * tf2 LinearMath over the real numbers

    What the quaternion and matrix code computes in exact real arithmetic:
    a rotation matrix acts as its quaternion, the quaternion recovered from
    a matrix is the normalised original up to sign, inverses are inverses,
    and spherical interpolation stays on the unit sphere. *)

From Stdlib Require Import Reals Lra Psatz.
From stdpp Require Import base tactics.
From S2P Require Import Prelude LinearMath.
Local Open Scope R_scope.

Definition Rltb (x y : R) : bool := if Rlt_dec x y then true else false.
Definition Reqb (x y : R) : bool := if Req_dec_T x y then true else false.

#[export] Instance R_scalar : Scalar R := {|
  szero := 0; sone := 1; sadd := Rplus; ssub := Rminus; smul := Rmult; sdiv := Rdiv; sopp := Ropp;
  sltb := Rltb; seqb := Reqb; sisnan := fun _ => false; ssqrt := sqrt; sabs := Rabs;
  ssin := sin; sacos := acos; sofZ := IZR;
|}.

#[export] Instance R_scalar_ring : ScalarRing R.
Proof. constructor; intros; simpl; ring. Qed.

Lemma Rltb_spec x y : reflect (x < y) (Rltb x y).
Proof. unfold Rltb. destruct (Rlt_dec x y); by constructor. Qed.

Lemma Reqb_spec x y : reflect (x = y) (Reqb x y).
Proof. unfold Reqb. destruct (Req_dec_T x y); by constructor. Qed.

Definition Quaternion_scale (q : Quaternion R) (k : R) : Quaternion R :=
  mkQuaternion (qx q * k) (qy q * k) (qz q * k) (qw q * k).

Definition norm2 (q : Quaternion R) : R := Quaternion_length2 q.

Lemma norm2_scale q k : norm2 (Quaternion_scale q k) = k * k * norm2 q.
Proof. destruct q; unfold norm2, Quaternion_length2, Quaternion_dot; simpl. ring. Qed.

Lemma norm2_nonneg q : 0 <= norm2 q.
Proof. destruct q; unfold norm2, Quaternion_length2, Quaternion_dot; simpl. nra. Qed.

(** The scaled rotation matrix entries do not depend on the scale. *)
Lemma setRotation_scale q k :
  k <> 0 -> norm2 q <> 0 -> Matrix3x3_setRotation (Quaternion_scale q k) = Matrix3x3_setRotation q.
Proof.
  destruct q as [x y z w]. unfold norm2, Quaternion_length2, Quaternion_dot; simpl. intros Hk Hn.
  assert (x * k * (x * k) + y * k * (y * k) + z * k * (z * k) + w * k * (w * k) <> 0).
  { replace (_ + _) with (k * k * (x * x + y * y + z * z + w * w)) by ring.
    repeat apply Rmult_integral_contrapositive_currified; done. }
  unfold Matrix3x3_setRotation, Quaternion_scale, Quaternion_length2, Quaternion_dot; simpl.
  unfold Matrix3x3_setValue. f_equal; f_equal; field; split; done.
Qed.

(** The matrix of a quaternion rotates as the quaternion does. *)
Lemma setRotation_rotates q p :
  norm2 q <> 0 ->
  Matrix3x3_mulv (Matrix3x3_setRotation q) p = Vector3_scale (quatRotate q p) (/ norm2 q).
Proof.
  destruct q as [x y z w], p as [px py pz].
  unfold norm2, Quaternion_length2, Quaternion_dot; simpl. intros Hn.
  unfold Matrix3x3_mulv, Matrix3x3_setRotation, Vector3_scale, quatRotate,
    Quaternion_mul, Quaternion_mulv, Quaternion_inverse, Vector3_dot, Quaternion_length2, Quaternion_dot;
  simpl. f_equal; field; done.
Qed.

(** ** The quaternion of a rotation matrix *)

Definition signed (s : R) : Prop := s = 1 \/ s = -1.

Lemma sqrt_of_double_square e a : e = 4 * (a * a) -> a <> 0 ->
  exists s, signed s /\ sqrt e = 2 * (s * a) /\ / a <> 0.
Proof.
  intros -> Ha. assert (/ a <> 0) by (by apply Rinv_neq_0_compat).
  replace (4 * (a * a)) with (Rsqr (2 * a)) by (unfold Rsqr; ring). rewrite sqrt_Rsqr_abs.
  destruct (Rle_dec 0 a).
  - exists 1. rewrite Rabs_pos_eq by lra. split; [by left|]. split; [lra|done].
  - exists (-1). rewrite Rabs_left by lra. split; [by right|]. split; [lra|done].
Qed.

Ltac rotation_branch Hn a :=
  let s := fresh "s" in let Hs := fresh in let Hq := fresh in
  match goal with |- context [sqrt ?e] =>
    destruct (sqrt_of_double_square e a) as (s & Hs & Hq & ?); [lra|try nra|rewrite Hq] end;
  exists s; split; [done|]; unfold shalf, Quaternion_scale; simpl;
  destruct Hs as [-> | ->]; f_equal; field_simplify_eq; try nra; try done.

Lemma getRotation_setRotation_unit u :
  norm2 u = 1 ->
  exists s, signed s /\ Matrix3x3_getRotation (Matrix3x3_setRotation u) = Quaternion_scale u s.
Proof.
  destruct u as [x y z w]. unfold norm2, Quaternion_length2, Quaternion_dot; simpl. intros Hn.
  unfold Matrix3x3_setRotation, Matrix3x3_setValue, Quaternion_length2, Quaternion_dot; simpl.
  rewrite Hn, Rdiv_1_r. unfold Matrix3x3_getRotation; simpl.
  destruct (Rltb_spec 0 (1 - (y * (y * 2) + z * (z * 2)) + (1 - (x * (x * 2) + z * (z * 2))) +
                         (1 - (x * (x * 2) + y * (y * 2))))) as [Ht|Ht].
  { assert (w <> 0) by nra. rotation_branch Hn w. }
  destruct (Rltb_spec (1 - (y * (y * 2) + z * (z * 2))) (1 - (x * (x * 2) + z * (z * 2)))) as [H01|H01].
  - destruct (Rltb_spec (1 - (x * (x * 2) + z * (z * 2))) (1 - (x * (x * 2) + y * (y * 2)))) as [H12|H12];
    cbv [Matrix3x3_at Matrix3x3_row Vector3_at Nat.modulo Nat.divmod Nat.add Nat.sub Nat.eqb fst snd]; simpl.
    + assert (z <> 0) by nra. rotation_branch Hn z.
    + assert (y <> 0) by nra. rotation_branch Hn y.
  - destruct (Rltb_spec (1 - (y * (y * 2) + z * (z * 2))) (1 - (x * (x * 2) + y * (y * 2)))) as [H02|H02];
    cbv [Matrix3x3_at Matrix3x3_row Vector3_at Nat.modulo Nat.divmod Nat.add Nat.sub Nat.eqb fst snd]; simpl.
    + assert (z <> 0) by nra. rotation_branch Hn z.
    + assert (x <> 0) by nra. rotation_branch Hn x.
Qed.

Lemma normalized q : norm2 q <> 0 -> norm2 (Quaternion_scale q (/ sqrt (norm2 q))) = 1.
Proof.
  intros Hn. pose proof (norm2_nonneg q). assert (0 < norm2 q) by lra.
  rewrite norm2_scale. pose proof (sqrt_lt_R0 (norm2 q)). pose proof (sqrt_sqrt (norm2 q)).
  transitivity (norm2 q / (sqrt (norm2 q) * sqrt (norm2 q))); [field; lra|].
  rewrite H2 by lra. field. done.
Qed.

Lemma Quaternion_scale_scale q a b : Quaternion_scale (Quaternion_scale q a) b = Quaternion_scale q (a * b).
Proof. destruct q; unfold Quaternion_scale; simpl. f_equal; ring. Qed.

Lemma setRotation_getRotation q :
  norm2 q <> 0 ->
  exists s, signed s /\
    Matrix3x3_getRotation (Matrix3x3_setRotation q) = Quaternion_scale q (/ sqrt (norm2 q) * s).
Proof.
  intros Hn. pose proof (norm2_nonneg q). assert (Hp : 0 < sqrt (norm2 q)) by (apply sqrt_lt_R0; lra).
  destruct (getRotation_setRotation_unit (Quaternion_scale q (/ sqrt (norm2 q)))) as (s & Hs & E);
    [by apply normalized|].
  rewrite setRotation_scale, Quaternion_scale_scale in E; [eauto| |done].
  apply Rinv_neq_0_compat. lra.
Qed.

Lemma getRotation_norm q : norm2 (Matrix3x3_getRotation (Matrix3x3_setRotation q)) = 1.
Proof.
  destruct (Req_dec_T (norm2 q) 0) as [H0|Hn].
  - assert (Hz : qx q = 0 /\ qy q = 0 /\ qz q = 0).
    { destruct q; unfold norm2, Quaternion_length2, Quaternion_dot in H0; simpl in *. nra. }
    destruct q as [x y z w]; simpl in Hz. destruct Hz as (-> & -> & ->).
    unfold Matrix3x3_setRotation, Matrix3x3_setValue; simpl.
    rewrite !Rmult_0_l, !Rmult_0_r, !Rplus_0_l, !Rminus_0_r. unfold Matrix3x3_getRotation; simpl.
    destruct (Rltb_spec 0 (1 + 1 + 1)); [|lra].
    unfold norm2, Quaternion_length2, Quaternion_dot, shalf; simpl.
    replace (1 + 1 + 1 + 1) with (2 * 2) by ring. rewrite sqrt_square by lra. field.
  - destruct (setRotation_getRotation q Hn) as (s & Hs & ->).
    rewrite <- Quaternion_scale_scale, norm2_scale, normalized by done.
    destruct Hs as [-> | ->]; ring.
Qed.

(** the quaternion recovered from a rotation matrix is the normalised
    original up to sign, on each of the four branches of [getRotation]; so
    it has unit length, and it has the same matrix. *)
Theorem getRotation_setRotation q :
  norm2 q <> 0 ->
  let r := Matrix3x3_getRotation (Matrix3x3_setRotation q) in
  (exists s, signed s /\ r = Quaternion_scale q (s / sqrt (norm2 q))) /\
  norm2 r = 1 /\ Matrix3x3_setRotation r = Matrix3x3_setRotation q.
Proof.
  intros Hn r. pose proof (norm2_nonneg q). assert (0 < sqrt (norm2 q)) by (apply sqrt_lt_R0; lra).
  destruct (setRotation_getRotation q Hn) as (s & Hs & Hr). fold r in Hr. split_and!.
  - exists s. split; [done|]. rewrite Hr. f_equal. field. lra.
  - apply getRotation_norm.
  - rewrite Hr. apply setRotation_scale; [|done]. apply Rmult_integral_contrapositive_currified.
    + apply Rinv_neq_0_compat. lra.
    + destruct Hs; lra.
Qed.

(** ** Inverses *)

Definition det (m : Matrix3x3 R) : R :=
  Vector3_dot (m_el0 m)
    (mkVector3 (Matrix3x3_cofac m 1 1 2 2) (Matrix3x3_cofac m 1 2 2 0) (Matrix3x3_cofac m 1 0 2 1)).

(** [Matrix3x3::inverse] is a two-sided inverse of every matrix with a
    non-zero determinant. *)
Theorem Matrix3x3_inverse_correct m :
  det m <> 0 ->
  Matrix3x3_mul m (Matrix3x3_inverse m) = Matrix3x3_identity /\
  Matrix3x3_mul (Matrix3x3_inverse m) m = Matrix3x3_identity.
Proof.
  destruct m as [[a b c] [d e f] [g h i]].
  unfold det, Matrix3x3_cofac, Matrix3x3_at, Vector3_dot; simpl. intros Hd.
  unfold Matrix3x3_mul, Matrix3x3_inverse, Matrix3x3_identity, Matrix3x3_setValue, Matrix3x3_cofac,
    Matrix3x3_tdotx, Matrix3x3_tdoty, Matrix3x3_tdotz, Matrix3x3_at, Vector3_dot; simpl.
  split; f_equal; f_equal; field; done.
Qed.

Definition orthogonal (m : Matrix3x3 R) : Prop :=
  Matrix3x3_mul (Matrix3x3_transpose m) m = Matrix3x3_identity /\
  Matrix3x3_mul m (Matrix3x3_transpose m) = Matrix3x3_identity.

Ltac unfold_linear :=
  cbv [Matrix3x3_mulv Matrix3x3_mul Matrix3x3_tdotx Matrix3x3_tdoty Matrix3x3_tdotz Matrix3x3_identity
       Matrix3x3_transpose Matrix3x3_setValue Vector3_dot Vector3_add Vector3_opp Transform_apply
       vx vy vz m_el0 m_el1 m_el2 m_basis m_origin szero sone sadd ssub smul sopp R_scalar].

Lemma Matrix3x3_mulv_mul (m n : Matrix3x3 R) p :
  Matrix3x3_mulv (Matrix3x3_mul m n) p = Matrix3x3_mulv m (Matrix3x3_mulv n p).
Proof. destruct m as [[] [] []], n as [[] [] []], p. unfold_linear. f_equal; ring. Qed.

Lemma Matrix3x3_mulv_identity (p : Vector3 R) : Matrix3x3_mulv Matrix3x3_identity p = p.
Proof. destruct p. unfold_linear. f_equal; ring. Qed.

Lemma Matrix3x3_mulv_add (m : Matrix3x3 R) p q :
  Matrix3x3_mulv m (Vector3_add p q) = Vector3_add (Matrix3x3_mulv m p) (Matrix3x3_mulv m q).
Proof. destruct m as [[] [] []], p, q. unfold_linear. f_equal; ring. Qed.

Lemma Transform_apply_mulv (t : Transform R) p :
  Transform_apply t p = Vector3_add (Matrix3x3_mulv (m_basis t) p) (m_origin t).
Proof. destruct t as [[[] [] []] []], p. unfold_linear. done. Qed.

Lemma orthogonal_inverse (t : Transform R) p :
  orthogonal (m_basis t) ->
  Transform_apply (Transform_inverse t) (Transform_apply t p) = p /\
  Transform_apply t (Transform_apply (Transform_inverse t) p) = p.
Proof.
  intros [H1 H2]. rewrite !Transform_apply_mulv. unfold Transform_inverse. cbn [m_basis m_origin].
  rewrite !Matrix3x3_mulv_add, <- !Matrix3x3_mulv_mul, H1, H2, !Matrix3x3_mulv_identity. split.
  - rewrite <- Vector3_add_assoc, <- Matrix3x3_mulv_add, Vector3_add_opp_r.
    destruct p, (m_basis t) as [[] [] []]. unfold_linear. f_equal; simpl; ring.
  - destruct p, (m_origin t). unfold_linear. f_equal; ring.
Qed.

Lemma setRotation_orthogonal q : norm2 q <> 0 -> orthogonal (Matrix3x3_setRotation q).
Proof.
  intros Hn. pose proof (norm2_nonneg q) as Hp.
  rewrite <- (setRotation_scale q (/ sqrt (norm2 q))).
  2:{ apply Rinv_neq_0_compat. pose proof (sqrt_lt_R0 (norm2 q)). lra. }
  2:{ done. }
  pose proof (normalized q Hn) as H1. revert H1. generalize (Quaternion_scale q (/ sqrt (norm2 q))).
  clear. intros [x y z w]. unfold norm2, Quaternion_length2, Quaternion_dot; simpl. intros H1.
  unfold Matrix3x3_setRotation, Quaternion_length2, Quaternion_dot; simpl. rewrite H1, Rdiv_1_r.
  assert (Hw : w * w = 1 - x * x - y * y - z * z) by lra. clear H1.
  split; unfold_linear; f_equal; f_equal; ring_simplify; ring [Hw].
Qed.

(** inverting a transform built from a quaternion undoes it on every
    point, on both sides. *)
Theorem Transform_inverse_correct q t p :
  norm2 q <> 0 ->
  Transform_apply (Transform_inverse (Transform_of q t)) (Transform_apply (Transform_of q t) p) = p /\
  Transform_apply (Transform_of q t) (Transform_apply (Transform_inverse (Transform_of q t)) p) = p.
Proof. intros Hn. by apply orthogonal_inverse, setRotation_orthogonal. Qed.

(** ** Spherical interpolation *)

Lemma cauchy_schwarz_unit p q : norm2 p = 1 -> norm2 q = 1 -> Rabs (Quaternion_dot p q) <= 1.
Proof.
  destruct p as [a b c d], q as [e f g h].
  unfold norm2, Quaternion_length2, Quaternion_dot; simpl. intros Hp Hq.
  set (k := a * e + b * f + c * g + d * h).
  assert (0 <= (a - e)² + (b - f)² + (c - g)² + (d - h)²).
  { repeat apply Rplus_le_le_0_compat; apply Rle_0_sqr. }
  assert (0 <= (a + e)² + (b + f)² + (c + g)² + (d + h)²).
  { repeat apply Rplus_le_le_0_compat; apply Rle_0_sqr. }
  unfold Rsqr in *. apply Rabs_le. subst k. split; lra.
Qed.

Lemma tf2Acos_id x : -1 <= x <= 1 -> tf2Acos x = acos x.
Proof.
  intros Hx. unfold tf2Acos; simpl.
  destruct (Rltb_spec x (Ropp 1)); [lra|]. destruct (Rltb_spec 1 x); [lra|done].
Qed.

(** The half angle that [slerp] interpolates over. *)
Lemma slerp_theta p q :
  norm2 p = 1 -> norm2 q = 1 ->
  Quaternion_angleShortestPath p q / 2 = acos (Rabs (Quaternion_dot p q)).
Proof.
  intros Hp Hq. pose proof (cauchy_schwarz_unit p q Hp Hq) as Hc.
  unfold Quaternion_angleShortestPath. unfold norm2 in Hp, Hq. rewrite Hp, Hq.
  cbn [R_scalar ssqrt smul sdiv szero sltb sofZ]. rewrite Rmult_1_l, sqrt_1, !Rdiv_1_r.
  assert (Ho : Quaternion_dot p (Quaternion_opp q) = - Quaternion_dot p q).
  { destruct p, q; unfold Quaternion_dot; simpl. ring. }
  rewrite Ho. set (k := Quaternion_dot p q) in *.
  destruct (Rltb_spec k 0) as [H|H].
  - rewrite Rabs_left in * by lra. rewrite tf2Acos_id by lra. field.
  - rewrite Rabs_pos_eq in * by lra. rewrite tf2Acos_id by lra. field.
Qed.

(** The operand that the shortest path leads to: [q] or its opposite. *)
Definition nearer (p q : Quaternion R) : Quaternion R :=
  if Rltb (Quaternion_dot p q) 0 then Quaternion_opp q else q.

Lemma nearer_dot p q : Quaternion_dot p (nearer p q) = Rabs (Quaternion_dot p q).
Proof.
  unfold nearer. destruct (Rltb_spec (Quaternion_dot p q) 0) as [H|H].
  - rewrite Rabs_left by done. destruct p, q; unfold Quaternion_dot; simpl. ring.
  - by rewrite Rabs_pos_eq by lra.
Qed.

Lemma nearer_norm p q : norm2 (nearer p q) = norm2 q.
Proof.
  unfold nearer. destruct (Rltb _ _); [|done].
  destruct q; unfold norm2, Quaternion_length2, Quaternion_dot; simpl. ring.
Qed.

(** [slerp] as one formula over the nearer operand. *)
Lemma slerp_formula p q t :
  norm2 p = 1 -> norm2 q = 1 ->
  let theta := acos (Rabs (Quaternion_dot p q)) in
  let r := nearer p q in
  let s0 := sin ((1 - t) * theta) in
  let s1 := sin (t * theta) in
  let d := 1 / sin theta in
  Quaternion_slerp p q t =
    if Reqb theta 0 then p
    else mkQuaternion ((qx p * s0 + qx r * s1) * d) ((qy p * s0 + qy r * s1) * d)
                      ((qz p * s0 + qz r * s1) * d) ((qw p * s0 + qw r * s1) * d).
Proof.
  intros Hp Hq theta r s0 s1 d. unfold Quaternion_slerp.
  change (Quaternion_angleShortestPath p q / sofZ 2)%sc with (Quaternion_angleShortestPath p q / 2).
  rewrite slerp_theta by done. fold theta. cbn [seqb sltb R_scalar szero]. unfold r, nearer.
  destruct (Reqb theta 0); [done|]. simpl. by destruct (Rltb _ _).
Qed.

Lemma slerp_angle p q :
  norm2 p = 1 -> norm2 q = 1 ->
  let theta := acos (Rabs (Quaternion_dot p q)) in
  cos theta = Quaternion_dot p (nearer p q) /\ (theta <> 0 -> sin theta <> 0) /\
  (theta = 0 -> Quaternion_dot p (nearer p q) = 1).
Proof.
  intros Hp Hq theta. pose proof (cauchy_schwarz_unit p q Hp Hq) as Hc.
  pose proof (Rabs_pos (Quaternion_dot p q)).
  assert (Hcos : cos theta = Rabs (Quaternion_dot p q)) by (apply cos_acos; lra).
  rewrite nearer_dot. split; [done|]. split.
  - intros Ht. pose proof (acos_bound (Rabs (Quaternion_dot p q))) as Hb. fold theta in Hb.
    assert (Hpi : theta <> PI).
    { intros E. rewrite E, cos_PI in Hcos. lra. }
    assert (0 < sin theta) by (apply sin_gt_0; lra). lra.
  - intros Ht. by rewrite <- Hcos, Ht, cos_0.
Qed.

Lemma unit_dot_one p r : norm2 p = 1 -> norm2 r = 1 -> Quaternion_dot p r = 1 -> p = r.
Proof.
  destruct p as [a b c d], r as [e f g h]. unfold norm2, Quaternion_length2, Quaternion_dot; simpl.
  intros Hp Hr Hd.
  assert (H : (a - e)² + (b - f)² + (c - g)² + (d - h)² = 0) by (unfold Rsqr; lra).
  assert (Rsqr (a - e) = 0 /\ Rsqr (b - f) = 0 /\ Rsqr (c - g) = 0 /\ Rsqr (d - h) = 0) as (H1 & H2 & H3 & H4).
  { pose proof (Rle_0_sqr (a - e)). pose proof (Rle_0_sqr (b - f)). pose proof (Rle_0_sqr (c - g)).
    pose proof (Rle_0_sqr (d - h)). lra. }
  apply Rsqr_0_uniq in H1, H2, H3, H4. f_equal; lra.
Qed.

Lemma slerp_norm p q t : norm2 p = 1 -> norm2 q = 1 -> norm2 (Quaternion_slerp p q t) = 1.
Proof.
  intros Hp Hq. rewrite slerp_formula by done. set (theta := acos _).
  destruct (slerp_angle p q Hp Hq) as (Hc & Hs & _). fold theta in Hc, Hs.
  destruct (Reqb_spec theta 0) as [|Ht]; [done|]. specialize (Hs Ht).
  pose proof (nearer_norm p q) as Hr. rewrite Hq in Hr. set (r := nearer p q) in *.
  assert (E0 : sin ((1 - t) * theta) = sin theta * cos (t * theta) - cos theta * sin (t * theta)).
  { rewrite <- sin_minus. f_equal. ring. }
  rewrite E0. pose proof (sin2_cos2 theta) as P1. pose proof (sin2_cos2 (t * theta)) as P2.
  unfold Rsqr in P1, P2. set (a := sin (t * theta)) in *. set (b := cos (t * theta)) in *.
  set (sn := sin theta) in *. set (cs := cos theta) in *. clearbody a b sn cs. clear theta E0 Ht.
  transitivity (((sn * b - cs * a) * (sn * b - cs * a) * norm2 p + a * a * norm2 r +
                 2 * (sn * b - cs * a) * a * Quaternion_dot p r) / (sn * sn)).
  { destruct p, r; unfold norm2, Quaternion_length2, Quaternion_dot; simpl. field. done. }
  rewrite Hp, Hr, <- Hc.
  replace (_ + _) with (sn * sn * (b * b) + a * a * (1 - cs * cs)) by ring.
  replace (1 - cs * cs) with (sn * sn) by lra.
  replace (_ + _) with (sn * sn * (a * a + b * b)) by ring. rewrite P2. field. done.
Qed.

(** spherical interpolation between unit quaternions stays on the unit
    sphere for every ratio, starts at the first operand, and ends at the
    second one or its opposite, whichever is nearer. *)
Theorem slerp_correct p q t :
  norm2 p = 1 -> norm2 q = 1 ->
  norm2 (Quaternion_slerp p q t) = 1 /\
  Quaternion_slerp p q 0 = p /\ Quaternion_slerp p q 1 = nearer p q.
Proof.
  intros Hp Hq. split; [by apply slerp_norm|]. rewrite !slerp_formula by done.
  destruct (slerp_angle p q Hp Hq) as (_ & Hs & H0). set (theta := acos _) in *.
  destruct (Reqb_spec theta 0) as [Ht|Ht].
  - split; [done|]. apply unit_dot_one; [done|by rewrite nearer_norm|auto].
  - specialize (Hs Ht). rewrite !Rminus_0_r, Rminus_diag, Rmult_1_l, Rmult_0_l, sin_0.
    destruct p, (nearer _ q); simpl. split; f_equal; field; done.
Qed.

(** ** Witnesses *)

Section Witnesses.
Local Abbreviation half_turn := (mkQuaternion 0 0 0 2).

Lemma half_turn_norm : norm2 half_turn <> 0.
Proof. unfold norm2, Quaternion_length2, Quaternion_dot; simpl. lra. Qed.

Lemma getRotation_setRotation_witness :
  norm2 half_turn <> 0 /\ norm2 (Matrix3x3_getRotation (Matrix3x3_setRotation half_turn)) = 1.
Proof.
  split; [apply half_turn_norm|].
  apply (getRotation_setRotation half_turn half_turn_norm).
Defined.

Lemma Matrix3x3_inverse_correct_witness :
  Matrix3x3_mul (Matrix3x3_setValue 2 0 0 0 1 0 0 1 1)
    (Matrix3x3_inverse (Matrix3x3_setValue 2 0 0 0 1 0 0 1 1)) = Matrix3x3_identity.
Proof.
  apply (Matrix3x3_inverse_correct (Matrix3x3_setValue 2 0 0 0 1 0 0 1 1)).
  unfold det, Matrix3x3_cofac, Matrix3x3_at, Vector3_dot; simpl. lra.
Defined.

Lemma Transform_inverse_correct_witness :
  Transform_apply (Transform_inverse (Transform_of half_turn (mkVector3 1 2 3)))
    (Transform_apply (Transform_of half_turn (mkVector3 1 2 3)) (mkVector3 4 5 6)) = mkVector3 4 5 6.
Proof.
  apply (Transform_inverse_correct half_turn (mkVector3 1 2 3) (mkVector3 4 5 6) half_turn_norm).
Defined.

Lemma slerp_correct_witness :
  norm2 (Quaternion_slerp (mkQuaternion 0 0 0 1) (mkQuaternion 1 0 0 0) (1 / 3)) = 1.
Proof.
  apply (slerp_correct (mkQuaternion 0 0 0 1) (mkQuaternion 1 0 0 0));
    unfold norm2, Quaternion_length2, Quaternion_dot; simpl; lra.
Defined.
End Witnesses.
