(* ===== verification/TimeCache.v ===== *)
(** * tf2 time caches

    [tf2/src/cache.cpp], [tf2/src/static_cache.cpp] and
    [tf2/include/tf2/transform_storage.h]: the history of one frame, newest
    transform first.  The abstract class [TimeCacheInterface] is the class
    [TimeCacheOps]; the promises the transform buffer relies on are its laws
    [TimeCacheLaws], discharged by both caches.

    A [TimePoint] or [Duration] is a 64-bit count of nanoseconds.  Error
    texts are not modelled; the [TF2Error] written through the optional
    pointer [error_code] is returned, [None] when nothing is written. *)

From Stdlib Require Import ZArith Lia.
From stdpp Require Import base numbers list gmap sorting.
From S2P Require Import Prelude LinearMath.

Inductive TF2Error :=
| TF2_NO_ERROR
| TF2_LOOKUP_ERROR
| TF2_CONNECTIVITY_ERROR
| TF2_EXTRAPOLATION_ERROR
| TF2_INVALID_ARGUMENT_ERROR
| TF2_TIMEOUT_ERROR
| TF2_TRANSFORM_ERROR
| TF2_BACKWARD_EXTRAPOLATION_ERROR
| TF2_FORWARD_EXTRAPOLATION_ERROR
| TF2_NO_DATA_FOR_EXTRAPOLATION_ERROR.

#[export] Instance TF2Error_eq_dec : EqDecision TF2Error.
Proof. solve_decision. Defined.

Definition TimePointZero : Z := 0.

Section TimeCache.
Context {T : Type} {S : Scalar T}.

(** ** Transform storage *)

Record TransformStorage := mkTransformStorage {
  rotation_ : Quaternion T;
  translation_ : Vector3 T;
  stamp_ : Z;
  frame_id_ : N;
  child_frame_id_ : N;
}.

Definition TransformStorage_eqb (a b : TransformStorage) : bool :=
  Quaternion_eqb (rotation_ a) (rotation_ b) &&
  (Vector3_eqb (translation_ a) (translation_ b) &&
  ((stamp_ a =? stamp_ b) &&
  ((frame_id_ a =? frame_id_ b)%N && (child_frame_id_ a =? child_frame_id_ b)%N))).

(** ** The cache of a dynamic frame *)

Record TimeCache := mkTimeCache {
  storage_ : list TransformStorage;
  max_storage_time_ : Z;
}.

(** What [findClosest] leaves in its reference parameters: its return
    value is the number of pointers set.  [ClosestUB] marks the two ways
    in which the search could leave the list: dereferencing [end()] or
    decrementing [begin()]. *)
Inductive Closest :=
| Closest0
| Closest1 (one : TransformStorage)
| Closest2 (one two : TransformStorage)
| ClosestUB.

(** The search loop at the end of [findClosest]; [newer] is the element
    that precedes the iterator. *)
Fixpoint find_bracket (newer : option TransformStorage) (l : list TransformStorage)
    (target_time : Z) : Closest :=
  match l with
  | [] => ClosestUB
  | s :: l' =>
      if stamp_ s <=? target_time then
        match newer with
        | Some n => Closest2 s n
        | None => ClosestUB
        end
      else find_bracket (Some s) l' target_time
  end.

Definition findClosest (c : TimeCache) (target_time : Z) : TF2Error * Closest :=
  match storage_ c with
  | [] => (TF2_NO_DATA_FOR_EXTRAPOLATION_ERROR, Closest0)
  | front :: rest =>
      if target_time =? TimePointZero then (TF2_NO_ERROR, Closest1 front)
      else
        match last rest with
        | None =>
            if stamp_ front =? target_time then (TF2_NO_ERROR, Closest1 front)
            else (TF2_NO_DATA_FOR_EXTRAPOLATION_ERROR, Closest0)
        | Some back =>
            let latest_time := stamp_ front in
            let earliest_time := stamp_ back in
            if target_time =? latest_time then (TF2_NO_ERROR, Closest1 front)
            else if target_time =? earliest_time then (TF2_NO_ERROR, Closest1 back)
            else if latest_time <? target_time then
              (TF2_FORWARD_EXTRAPOLATION_ERROR, Closest0)
            else if target_time <? earliest_time then
              (TF2_BACKWARD_EXTRAPOLATION_ERROR, Closest0)
            else (TF2_NO_ERROR, find_bracket None (storage_ c) target_time)
        end
  end.

Definition interpolate (one two : TransformStorage) (time : Z) : TransformStorage :=
  if stamp_ two =? stamp_ one then two
  else
    let ratio := sdiv (sofZ (i64 (time - stamp_ one))) (sofZ (i64 (stamp_ two - stamp_ one))) in
    mkTransformStorage
      (Quaternion_slerp (rotation_ one) (rotation_ two) ratio)
      (setInterpolate3 (translation_ one) (translation_ two) ratio)
      (stamp_ one) (frame_id_ one) (child_frame_id_ one).

(** [getData]: the error code written and, on [true], [data_out]. *)
Definition TimeCache_getData (c : TimeCache) (time : Z)
  : option TF2Error * option TransformStorage :=
  match findClosest c time with
  | (e, Closest1 one) => (Some e, Some one)
  | (e, Closest2 one two) =>
      (Some e, Some (if (frame_id_ one =? frame_id_ two)%N
                     then interpolate one two time else one))
  | (e, _) => (Some e, None)
  end.

Definition TimeCache_getParent (c : TimeCache) (time : Z) : option TF2Error * N :=
  match findClosest c time with
  | (e, Closest1 one) | (e, Closest2 one _) => (Some e, frame_id_ one)
  | (e, _) => (Some e, 0%N)
  end.

Definition TimeCache_getLatestTimestamp (c : TimeCache) : Z :=
  match storage_ c with [] => 0 | ts :: _ => stamp_ ts end.

Definition TimeCache_getOldestTimestamp (c : TimeCache) : Z :=
  match last (storage_ c) with None => 0 | Some ts => stamp_ ts end.

Definition TimeCache_getLatestTimeAndParent (c : TimeCache) : Z * N :=
  match storage_ c with [] => (0, 0%N) | ts :: _ => (stamp_ ts, frame_id_ ts) end.

Definition TimeCache_getListLength (c : TimeCache) : Z := u32 (Z.of_nat (length (storage_ c))).

Definition TimeCache_clearList (c : TimeCache) : TimeCache :=
  mkTimeCache [] (max_storage_time_ c).

Definition pruneList (c : TimeCache) : TimeCache :=
  let latest_time := TimeCache_getLatestTimestamp c in
  mkTimeCache
    (drop_back (fun ts => i64 (stamp_ ts + max_storage_time_ c) <? latest_time) (storage_ c))
    (max_storage_time_ c).

(** The scan for an exact duplicate among the elements with the stamp of
    the new data, from the insertion point on. *)
Fixpoint has_duplicate (l : list TransformStorage) (new_data : TransformStorage) : bool :=
  match l with
  | [] => false
  | s :: l' =>
      if stamp_ s =? stamp_ new_data then
        TransformStorage_eqb s new_data || has_duplicate l' new_data
      else false
  end.

Definition TimeCache_insertData (c : TimeCache) (new_data : TransformStorage) : TimeCache * bool :=
  let latest_time := TimeCache_getLatestTimestamp c in
  let c := pruneList c in
  if negb (bool_decide (storage_ c = [])) && (stamp_ new_data <? i64 (latest_time - max_storage_time_ c))
  then (c, false)
  else
    let '(newer, rest) := span (fun t => negb (stamp_ t <=? stamp_ new_data)) (storage_ c) in
    if has_duplicate rest new_data then (c, true)
    else (mkTimeCache (newer ++ new_data :: rest) (max_storage_time_ c), true).

(** ** The cache of a static frame *)

Record StaticCache := mkStaticCache { static_storage_ : TransformStorage }.

Definition StaticCache_getData (c : StaticCache) (time : Z)
  : option TF2Error * option TransformStorage :=
  let s := static_storage_ c in
  (None, Some (mkTransformStorage (rotation_ s) (translation_ s) time (frame_id_ s) (child_frame_id_ s))).

Definition StaticCache_insertData (c : StaticCache) (new_data : TransformStorage)
  : StaticCache * bool := (mkStaticCache new_data, true).

Definition StaticCache_clearList (c : StaticCache) : StaticCache := c.

Definition StaticCache_getListLength (c : StaticCache) : Z := 1.

Definition StaticCache_getParent (c : StaticCache) (time : Z) : option TF2Error * N :=
  (None, frame_id_ (static_storage_ c)).

Definition StaticCache_getLatestTimeAndParent (c : StaticCache) : Z * N :=
  (0, frame_id_ (static_storage_ c)).

Definition StaticCache_getLatestTimestamp (c : StaticCache) : Z := 0.

Definition StaticCache_getOldestTimestamp (c : StaticCache) : Z := 0.

End TimeCache.

Arguments TransformStorage : clear implicits.
Arguments TimeCache : clear implicits.
Arguments StaticCache : clear implicits.
Arguments Closest : clear implicits.

(** ** The interface the buffer programs against *)

Class TimeCacheOps (T C : Type) := {
  getData : C -> Z -> option TF2Error * option (TransformStorage T);
  insertData : C -> TransformStorage T -> C * bool;
  clearList : C -> C;
  getParent : C -> Z -> option TF2Error * N;
  getLatestTimeAndParent : C -> Z * N;
  getListLength : C -> Z;
  getLatestTimestamp : C -> Z;
  getOldestTimestamp : C -> Z;
}.

(** What a cache promises: asking for the parent agrees with asking for the
    data, and a query that yields nothing either reports an error or is
    about a frame whose recorded parent is 0. *)
Class TimeCacheLaws (T C : Type) {Ops : TimeCacheOps T C} := {
  getParent_getData : forall (c : C) (time : Z),
    getParent c time = ((getData c time).1, match (getData c time).2 with
                                            | Some d => frame_id_ d
                                            | None => 0%N
                                            end);
  getData_no_error : forall (c : C) (time : Z) e,
    getData c time = (Some e, None) -> e <> TF2_NO_ERROR;
  getData_written : forall (c : C) (time : Z) e d,
    getData c time = (Some e, Some d) -> e = TF2_NO_ERROR;
  getData_silent : forall (c : C) (time : Z),
    (getData c time).1 = None -> is_Some (getData c time).2;
}.

(** A [TimeCacheInterfacePtr]: a [dynamic_cast] tells the two apart. *)
Inductive AnyCache (T : Type) :=
| DynamicCache (c : TimeCache T)
| FixedCache (c : StaticCache T).
Arguments DynamicCache {T} c.
Arguments FixedCache {T} c.

Section Interface.
Context {T : Type} {S : Scalar T}.

#[export] Instance AnyCache_ops : TimeCacheOps T (AnyCache T) := {|
  getData c t := match c with
    | DynamicCache c => TimeCache_getData c t | FixedCache c => StaticCache_getData c t end;
  insertData c d := match c with
    | DynamicCache c => let '(c, b) := TimeCache_insertData c d in (DynamicCache c, b)
    | FixedCache c => let '(c, b) := StaticCache_insertData c d in (FixedCache c, b) end;
  clearList c := match c with
    | DynamicCache c => DynamicCache (TimeCache_clearList c)
    | FixedCache c => FixedCache (StaticCache_clearList c) end;
  getParent c t := match c with
    | DynamicCache c => TimeCache_getParent c t | FixedCache c => StaticCache_getParent c t end;
  getLatestTimeAndParent c := match c with
    | DynamicCache c => TimeCache_getLatestTimeAndParent c
    | FixedCache c => StaticCache_getLatestTimeAndParent c end;
  getListLength c := match c with
    | DynamicCache c => TimeCache_getListLength c
    | FixedCache c => StaticCache_getListLength c end;
  getLatestTimestamp c := match c with
    | DynamicCache c => TimeCache_getLatestTimestamp c
    | FixedCache c => StaticCache_getLatestTimestamp c end;
  getOldestTimestamp c := match c with
    | DynamicCache c => TimeCache_getOldestTimestamp c
    | FixedCache c => StaticCache_getOldestTimestamp c end;
|}.
End Interface.

(** ** Correctness of the dynamic cache *)

Section TimeCacheFacts.
Context {T : Type} {S : Scalar T}.
Implicit Types (c : TimeCache T) (d s one two : TransformStorage T).

(** The invariant of the class documentation: newest first, oldest last. *)
Definition time_sorted (c : TimeCache T) : Prop := descending stamp_ (storage_ c).

(** No [TimePoint] arithmetic of the cache overflows: stamps and the
    storage time leave a factor of two of head-room in 64 bits. *)
Definition in_time_range (x : Z) : Prop := - 2 ^ 62 <= x < 2 ^ 62.
Definition cache_in_range (c : TimeCache T) : Prop :=
  in_time_range (max_storage_time_ c) /\ Forall (fun s => in_time_range (stamp_ s)) (storage_ c).

Lemma in_time_range_add x y : in_time_range x -> in_time_range y -> i64 (x + y) = x + y.
Proof. unfold in_time_range. intros. apply i64_id. unfold int64_min, int64_max. lia. Qed.

Lemma in_time_range_sub x y : in_time_range x -> in_time_range y -> i64 (x - y) = x - y.
Proof. unfold in_time_range. intros. apply i64_id. unfold int64_min, int64_max. lia. Qed.

Lemma latest_in_range c : cache_in_range c -> in_time_range (TimeCache_getLatestTimestamp c).
Proof.
  intros [_ Hr]. unfold TimeCache_getLatestTimestamp.
  destruct (storage_ c); [unfold in_time_range; lia|]. by inversion Hr.
Qed.

Lemma pruneList_prefix c : exists l, storage_ c = storage_ (pruneList c) ++ l.
Proof.
  destruct (drop_back_prefix
    (fun ts => i64 (stamp_ ts + max_storage_time_ c) <? TimeCache_getLatestTimestamp c)
    (storage_ c)) as (l & Hl & _).
  by exists l.
Qed.

Lemma pruneList_sorted c : time_sorted c -> time_sorted (pruneList c).
Proof.
  intros Hs. destruct (pruneList_prefix c) as [l Hl]. unfold time_sorted in *.
  rewrite Hl in Hs. by apply descending_app in Hs as (_ & Hs & _).
Qed.

(** Without overflow, pruning is the filter that keeps the storage window. *)
Lemma pruneList_window c :
  time_sorted c -> cache_in_range c ->
  storage_ (pruneList c) =
    filter (fun s => TimeCache_getLatestTimestamp c - max_storage_time_ c <= stamp_ s) (storage_ c).
Proof.
  intros Hs Hr. pose proof (latest_in_range c Hr) as Hl. destruct Hr as [Hm Hr].
  unfold pruneList; simpl. set (latest := TimeCache_getLatestTimestamp c) in *.
  assert (Hin : forall s, s ∈ storage_ c -> in_time_range (stamp_ s)).
  { by apply Forall_forall. }
  destruct (drop_back_prefix (fun ts => i64 (stamp_ ts + max_storage_time_ c) <? latest)
              (storage_ c)) as (d & Hd & Hold).
  set (k := drop_back _ _) in *.
  assert (Hk : Forall (fun s => latest - max_storage_time_ c <= stamp_ s) k).
  { apply Forall_forall. intros s Hsk.
    destruct (last k) as [b|] eqn:Eb; [|apply last_None in Eb; rewrite Eb in Hsk; by apply not_elem_of_nil in Hsk].
    pose proof (drop_back_last _ _ _ Eb) as Hb. simpl in Hb.
    assert (b ∈ storage_ c) by (apply last_Some in Eb as [k' Ek]; rewrite Hd, Ek, !elem_of_app, elem_of_cons; auto).
    rewrite in_time_range_add in Hb by auto. bool_to_prop.
    unfold time_sorted in Hs. rewrite Hd in Hs. apply descending_app in Hs as (_ & Hs & _).
    pose proof (descending_last _ _ _ _ Hs Eb Hsk). lia. }
  assert (Hnil : filter (fun s => latest - max_storage_time_ c <= stamp_ s) d = []).
  { assert (Hdin : forall s, s ∈ d -> in_time_range (stamp_ s)) by (intros; apply Hin; rewrite Hd; set_solver).
    clear Hd Hk Hs. induction Hold as [|s d Ho Hold IH]; [done|].
    rewrite filter_cons_False; [apply IH; set_solver|].
    rewrite in_time_range_add in Ho by (auto; apply Hdin; set_solver). bool_to_prop. lia. }
  by rewrite Hd, filter_app, Hnil, app_nil_r, filter_all.
Qed.

Lemma insertData_cases c d :
  let c1 := pruneList c in
  (TimeCache_insertData c d = (c1, false) /\ storage_ c1 <> [] /\
     stamp_ d < i64 (TimeCache_getLatestTimestamp c - max_storage_time_ c)) \/
  (TimeCache_insertData c d = (c1, true) /\
     exists s, s ∈ storage_ c1 /\ TransformStorage_eqb s d = true /\ stamp_ s = stamp_ d) \/
  (TimeCache_insertData c d =
     (mkTimeCache ((span (fun t => negb (stamp_ t <=? stamp_ d)) (storage_ c1)).1 ++
                   d :: (span (fun t => negb (stamp_ t <=? stamp_ d)) (storage_ c1)).2)
        (max_storage_time_ c), true) /\
     (storage_ c1 = [] \/ i64 (TimeCache_getLatestTimestamp c - max_storage_time_ c) <= stamp_ d)).
Proof.
  intros c1. unfold TimeCache_insertData. fold c1.
  destruct (negb _ && _) eqn:E; [left|right].
  - bool_to_prop. rewrite bool_decide_eq_false in H. auto.
  - destruct (span _ (storage_ c1)) as [n r] eqn:Esp; simpl.
    destruct (has_duplicate r d) eqn:Ed; [left|right; split; [done|]].
    2:{ apply andb_false_iff in E as [E|E]; bool_to_prop; [left|by right].
        by rewrite bool_decide_eq_true in E. }
    split; [done|].
    assert (Hr : forall s, s ∈ r -> s ∈ storage_ c1).
    { intros s Hs. pose proof (span_app (fun t => negb (stamp_ t <=? stamp_ d)) (storage_ c1)) as <-.
      rewrite Esp. simpl. set_solver. }
    clear Esp. induction r as [|s r IH]; [discriminate|]. simpl in Ed.
    destruct (stamp_ s =? stamp_ d) eqn:Es; [|discriminate].
    apply orb_true_iff in Ed as [Ed|Ed].
    + exists s. bool_to_prop. split; [apply Hr; set_solver|done].
    + apply IH; [done|]. intros; apply Hr; set_solver.
Qed.

(** [insertData] keeps the list of transforms sorted, newest first, whether
    the new data is inserted, recognised as a duplicate or rejected, and
    for every stamp and every storage time (overflow included). *)
Lemma insertData_sorted c d :
  time_sorted c -> time_sorted (TimeCache_insertData c d).1.
Proof.
  intros Hs%pruneList_sorted.
  destruct (insertData_cases c d) as [(-> & _)|[(-> & _)|(-> & _)]]; simpl; [done..|].
  by apply descending_insert.
Qed.

(** Every entry after an insertion is an old one or the new data. *)
Lemma insertData_elem c d s :
  s ∈ storage_ (TimeCache_insertData c d).1 -> s = d \/ s ∈ storage_ c.
Proof.
  assert (Hp : forall x, x ∈ storage_ (pruneList c) -> x ∈ storage_ c).
  { intros x Hx. destruct (pruneList_prefix c) as [l ->]. set_solver. }
  destruct (insertData_cases c d) as [(-> & _)|[(-> & _)|(-> & _)]]; simpl; [by auto..|].
  rewrite elem_of_app, elem_of_cons. intros Hs.
  assert (s = d \/ s ∈ storage_ (pruneList c)) as [->|H]; [|by left|by auto].
  rewrite <- (span_app (fun t => negb (stamp_ t <=? stamp_ d)) (storage_ (pruneList c))).
  rewrite elem_of_app. tauto.
Qed.

Lemma insertData_max c d :
  max_storage_time_ (TimeCache_insertData c d).1 = max_storage_time_ c.
Proof. by destruct (insertData_cases c d) as [(-> & _)|[(-> & _)|(-> & _)]]. Qed.

(** the storage window. For in-range stamps, [insertData] rejects the
    new data exactly when it is older than the newest entry by more than
    the storage time; whatever the outcome, of the old entries exactly
    those inside the window survive, and the new one is the only entry
    that can appear. *)
Theorem insertData_window c d :
  time_sorted c -> cache_in_range c -> in_time_range (stamp_ d) ->
  let lower := TimeCache_getLatestTimestamp c - max_storage_time_ c in
  let kept := filter (fun s => lower <= stamp_ s) (storage_ c) in
  let '(c', accepted) := TimeCache_insertData c d in
  (accepted = false <-> kept <> [] /\ stamp_ d < lower) /\
  (storage_ c' ≡ₚ kept \/ accepted = true /\ storage_ c' ≡ₚ d :: kept) /\
  (accepted = true -> exists s, s ∈ storage_ c' /\ (s = d \/ TransformStorage_eqb s d = true)).
Proof.
  intros Hs Hr Hd lower kept.
  pose proof (pruneList_window c Hs Hr) as Hw. fold lower in Hw. fold kept in Hw.
  assert (Hlow : i64 (TimeCache_getLatestTimestamp c - max_storage_time_ c) = lower).
  { apply in_time_range_sub; [by apply latest_in_range|apply Hr]. }
  pose proof (insertData_cases c d) as H. cbv zeta in H. rewrite Hlow, Hw in H.
  destruct H as [(-> & Hne & Hlt)|[(-> & s & Hsin & Heq & Hst)|(-> & Hge)]]; cbv beta iota.
  - rewrite Hw. naive_solver.
  - rewrite Hw. split; [|split; [by left|naive_solver]].
    split; [discriminate|]. intros [_ Hlt]. apply list_elem_of_filter in Hsin as [Hsin _]. lia.
  - cbn [storage_].
    pose proof (span_app (fun t => negb (stamp_ t <=? stamp_ d)) kept) as Ha.
    destruct (span _ kept) as [n r]; simpl in *. split; [|split].
    + split; [discriminate|]. intros [Hk Hlt]. destruct Hge; [done|lia].
    + right. split; [done|]. rewrite <- Ha. symmetry. apply Permutation_middle.
    + intros _. exists d. split; [|by left]. rewrite elem_of_app, elem_of_cons. auto.
Qed.

(** ** Searching *)

Lemma find_bracket_spec n l t b :
  last l = Some b -> stamp_ b <= t -> t < stamp_ n ->
  exists one two l1 l2,
    find_bracket (Some n) l t = Closest2 one two /\
    n :: l = l1 ++ two :: one :: l2 /\ stamp_ one <= t < stamp_ two.
Proof.
  revert n. induction l as [|x l IH]; intros n Hl Hb Hn; [discriminate|]. simpl.
  destruct (stamp_ x <=? t) eqn:E; bool_to_prop.
  - exists x, n, [], l. done.
  - destruct l as [|y l]; [simplify_eq/=; lia|].
    destruct (IH x) as (one & two & l1 & l2 & H1 & H2 & H3); [done..|].
    exists one, two, (n :: l1), l2. rewrite H1, H2. done.
Qed.

(** Searching is safe and exact. [findClosest] never dereferences [end()]
    nor steps before [begin()] (for any list, sorted or not).  It reports
    no data exactly when a query at a non-zero time is outside the stored
    interval, with the error code that names the side; one element is the
    newest one (query at time zero) or one whose stamp is the query; two
    elements are adjacent in the list and bracket the query. *)
Lemma findClosest_spec c t :
  time_sorted c ->
  match findClosest c t with
  | (e, Closest0) =>
      (forall s, s ∈ storage_ c -> stamp_ s <> t) /\ (t <> 0 \/ storage_ c = []) /\
      (e = TF2_NO_DATA_FOR_EXTRAPOLATION_ERROR /\ (length (storage_ c) <= 1)%nat \/
       e = TF2_FORWARD_EXTRAPOLATION_ERROR /\ (forall s, s ∈ storage_ c -> stamp_ s < t) \/
       e = TF2_BACKWARD_EXTRAPOLATION_ERROR /\ (forall s, s ∈ storage_ c -> t < stamp_ s))
  | (e, Closest1 one) =>
      e = TF2_NO_ERROR /\ one ∈ storage_ c /\
      (t = 0 -> head (storage_ c) = Some one) /\ (t <> 0 -> stamp_ one = t)
  | (e, Closest2 one two) =>
      e = TF2_NO_ERROR /\ t <> 0 /\
      (exists l1 l2, storage_ c = l1 ++ two :: one :: l2) /\ stamp_ one <= t < stamp_ two
  | (e, ClosestUB) => False
  end.
Proof.
  unfold time_sorted, findClosest, TimePointZero.
  destruct (storage_ c) as [|f rest] eqn:Ec; intros Hs.
  { split; [set_solver|]. split; [by right|]. left. simpl. auto. }
  assert (Hf : f ∈ f :: rest) by apply elem_of_cons, or_introl, eq_refl.
  destruct (t =? 0) eqn:Et; bool_to_prop; [split_and!; naive_solver|].
  destruct (last rest) as [b|] eqn:Eb.
  2:{ apply last_None in Eb as ->. destruct (stamp_ f =? t) eqn:E; bool_to_prop; [naive_solver|].
      split_and!; [|by left|left; done]. intros s ->%list_elem_of_singleton. done. }
  assert (Hb : b ∈ f :: rest).
  { apply last_Some in Eb as [k ->]. rewrite elem_of_cons, elem_of_app, list_elem_of_singleton. auto. }
  assert (Hle : forall s, s ∈ f :: rest -> stamp_ b <= stamp_ s <= stamp_ f).
  { intros s Hsin. split.
    - eapply descending_last; [exact Hs| |done]. rewrite last_cons, Eb. done.
    - apply descending_cons in Hs as [Hs _]. apply elem_of_cons in Hsin as [->|Hsin]; [lia|auto]. }
  destruct (t =? stamp_ f) eqn:E1; bool_to_prop; [split_and!; naive_solver|].
  destruct (t =? stamp_ b) eqn:E2; bool_to_prop; [split_and!; naive_solver|].
  destruct (stamp_ f <? t) eqn:E3; bool_to_prop.
  { split_and!; [|by left|right; left; split; [done|]]; intros s Hsin; specialize (Hle s Hsin); lia. }
  destruct (t <? stamp_ b) eqn:E4; bool_to_prop.
  { split_and!; [|by left|right; right; split; [done|]]; intros s Hsin; specialize (Hle s Hsin); lia. }
  change (find_bracket None (f :: rest) t) with
    (if stamp_ f <=? t then ClosestUB else find_bracket (Some f) rest t).
  destruct (stamp_ f <=? t) eqn:E5; bool_to_prop; [lia|].
  destruct (find_bracket_spec f rest t b) as (one & two & l1 & l2 & -> & -> & H3); [done|lia..|].
  split_and!; naive_solver.
Qed.

(** The search is safe whatever the list. *)
Lemma findClosest_no_ub c t : (findClosest c t).2 <> ClosestUB.
Proof.
  unfold findClosest. destruct (storage_ c) as [|f rest]; [done|].
  destruct (t =? TimePointZero); [done|].
  destruct (last rest) as [b|] eqn:Eb; [|by destruct (_ =? _)].
  destruct (t =? stamp_ f) eqn:E1; [done|]. destruct (t =? stamp_ b) eqn:E2; [done|].
  destruct (stamp_ f <? t) eqn:E3; [done|]. destruct (t <? stamp_ b) eqn:E4; [done|].
  bool_to_prop. simpl. destruct (stamp_ f <=? t) eqn:E5; bool_to_prop; [lia|].
  destruct (find_bracket_spec f rest t b) as (one & two & l1 & l2 & -> & _); [done|lia..|done].
Qed.

(** asking for data is exact. For every sorted cache, [getData] always
    writes an error code.  It fails exactly with a code that names the
    reason, when no stored stamp is the query and, unless it has at most
    one entry, the query lies outside the stored interval on the side the
    code names.  It succeeds with the newest entry (query at time zero),
    with an entry whose stamp is the query, or with the data of the two
    adjacent entries that bracket the query: their interpolation when
    they have the same parent, else the older one. *)
Theorem getData_spec c t :
  time_sorted c ->
  match TimeCache_getData c t with
  | (None, _) => False
  | (Some e, None) =>
      (forall s, s ∈ storage_ c -> stamp_ s <> t) /\ (t <> 0 \/ storage_ c = []) /\
      (e = TF2_NO_DATA_FOR_EXTRAPOLATION_ERROR /\ (length (storage_ c) <= 1)%nat \/
       e = TF2_FORWARD_EXTRAPOLATION_ERROR /\ (forall s, s ∈ storage_ c -> stamp_ s < t) \/
       e = TF2_BACKWARD_EXTRAPOLATION_ERROR /\ (forall s, s ∈ storage_ c -> t < stamp_ s))
  | (Some e, Some d) =>
      e = TF2_NO_ERROR /\
      (d ∈ storage_ c /\ (t = 0 -> head (storage_ c) = Some d) /\ (t <> 0 -> stamp_ d = t) \/
       t <> 0 /\ exists l1 l2 one two,
         storage_ c = l1 ++ two :: one :: l2 /\ stamp_ one <= t < stamp_ two /\
         d = if (frame_id_ one =? frame_id_ two)%N then interpolate one two t else one)
  end.
Proof.
  intros Hs. pose proof (findClosest_spec c t Hs) as H. unfold TimeCache_getData.
  destruct (findClosest c t) as [e [|one|one two|]]; [done|by destruct H; auto| |done].
  destruct H as (-> & Ht & (l1 & l2 & Hl) & Hst). split; [done|]. right. eauto 10.
Qed.

Lemma find_bracket_not0 (n : option (TransformStorage T)) l t : find_bracket n l t <> Closest0.
Proof. revert n. induction l as [|s l IH]; intros [n|]; simpl; try done; by destruct (_ <=? _). Qed.

Lemma findClosest_error c t :
  match findClosest c t with
  | (e, Closest0) => e <> TF2_NO_ERROR
  | (e, _) => e = TF2_NO_ERROR
  end.
Proof.
  unfold findClosest. destruct (storage_ c) as [|f rest]; [done|].
  destruct (t =? TimePointZero); [done|].
  destruct (last rest) as [b|]; [|by destruct (_ =? _)].
  destruct (_ =? _); [done|]. destruct (_ =? _); [done|].
  destruct (_ <? _); [done|]. destruct (_ <? _); [done|].
  pose proof (find_bracket_not0 None (f :: rest) t) as Hn.
  by destruct (find_bracket _ _ _).
Qed.

Lemma interpolate_frame one two t :
  frame_id_ one = frame_id_ two -> frame_id_ (interpolate one two t) = frame_id_ one.
Proof. unfold interpolate. by destruct (_ =? _). Qed.

#[export] Instance AnyCache_laws : TimeCacheLaws T (AnyCache T).
Proof.
  constructor; intros [c|c] t; simpl; try done;
    unfold TimeCache_getParent, TimeCache_getData;
    pose proof (findClosest_no_ub c t) as Hub; pose proof (findClosest_error c t) as He;
    destruct (findClosest c t) as [e [|one|one two|]]; simpl in *; try done;
    try (intros; simplify_eq; done).
  destruct (_ =? _)%N eqn:E; [|done]. bool_to_prop. by rewrite interpolate_frame.
Qed.

(** Insert/lookup round trip. After data with a fresh, non-zero stamp has been
    accepted, asking for the parent at that stamp gives the parent that
    was inserted, with no error. *)
Theorem insertData_getParent c d :
  time_sorted c ->
  stamp_ d <> 0 ->
  Forall (fun s => stamp_ s <> stamp_ d) (storage_ c) ->
  (TimeCache_insertData c d).2 = true ->
  TimeCache_getParent (TimeCache_insertData c d).1 (stamp_ d) = (Some TF2_NO_ERROR, frame_id_ d).
Proof.
  intros Hs Hd Hfresh Hacc. rewrite Forall_forall in Hfresh.
  assert (Hfresh' : forall s, s ∈ storage_ (pruneList c) -> stamp_ s <> stamp_ d).
  { intros s Hsin. apply Hfresh. destruct (pruneList_prefix c) as [l ->]. apply elem_of_app; auto. }
  destruct (insertData_cases c d) as [(E & _)|[(_ & s & Hsin & _ & Hst)|(E & _)]].
  { by rewrite E in Hacc. }
  { by apply Hfresh' in Hsin. }
  pose proof (insertData_sorted c d Hs) as Hs'. rewrite E in Hs' |- *. simpl in Hs' |- *.
  set (c' := mkTimeCache _ _) in *.
  assert (Huniq : forall s, s ∈ storage_ c' -> stamp_ s = stamp_ d -> s = d).
  { subst c'. simpl. intros s Hsin Hst.
    rewrite elem_of_app, elem_of_cons in Hsin.
    assert (s = d \/ s ∈ storage_ (pruneList c)) as [->|Hin]; [|done|by apply Hfresh' in Hin].
    rewrite <- (span_app (fun t => negb (stamp_ t <=? stamp_ d)) (storage_ (pruneList c))).
    rewrite elem_of_app. tauto. }
  assert (Hin : d ∈ storage_ c') by (subst c'; simpl; rewrite elem_of_app, elem_of_cons; auto).
  pose proof (findClosest_spec c' (stamp_ d) Hs') as Hf. unfold TimeCache_getParent.
  destruct (findClosest c' (stamp_ d)) as [e [|one|one two|]].
  - destruct Hf as [Hf _]. by apply Hf in Hin.
  - destruct Hf as (-> & Hone & _ & Hst). by rewrite (Huniq one) by auto.
  - destruct Hf as (-> & _ & (l1 & l2 & Hl) & Hlo & Hhi).
    assert (one ∈ storage_ c').
    { rewrite Hl, elem_of_app, !elem_of_cons. auto. }
    destruct (decide (stamp_ one = stamp_ d)) as [Heq|Hne]; [by rewrite (Huniq one)|].
    exfalso. unfold time_sorted in Hs'. rewrite Hl in Hin, Hs'.
    apply descending_app in Hs' as (H12 & _ & H2).
    apply descending_cons in H2 as [_ H2]. apply descending_cons in H2 as [H2 _].
    rewrite elem_of_app, !elem_of_cons in Hin.
    destruct Hin as [Hin|[->|[->|Hin]]]; [|lia|lia|specialize (H2 _ Hin); lia].
    specialize (H12 d two Hin (list_elem_of_here _ _)). lia.
  - done.
Qed.
End TimeCacheFacts.

(** ** Witnesses *)

Section Witnesses.
Local Abbreviation entry t p := (mkTransformStorage (T := Z) Quaternion_identity Vector3_zero t p 1).

Definition sample_cache : TimeCache Z := mkTimeCache [entry 30 2%N; entry 20 2%N; entry 10 3%N] 15.

Lemma sample_sorted : time_sorted sample_cache.
Proof. repeat (constructor; simpl; try lia). Qed.

Lemma sample_in_range : cache_in_range sample_cache.
Proof. split; [done|]. repeat (constructor; simpl; [unfold in_time_range; simpl; lia|]). constructor. Qed.

Lemma insertData_window_witness :
  (TimeCache_insertData sample_cache (entry 14 2%N)).2 = false /\
  (TimeCache_insertData sample_cache (entry 25 2%N)).2 = true /\
  storage_ (TimeCache_insertData sample_cache (entry 25 2%N)).1 = [entry 30 2%N; entry 25 2%N; entry 20 2%N] /\
  let '(c', accepted) := TimeCache_insertData sample_cache (entry 14 2%N) in
  (accepted = false <-> filter (fun s => 15 <= stamp_ s) (storage_ sample_cache) <> [] /\ 14 < 15).
Proof.
  split_and!; [reflexivity..|].
  destruct (insertData_window sample_cache (entry 14 2%N) sample_sorted sample_in_range) as (H & _);
    [done|exact H].
Defined.

Lemma getData_spec_witness :
  TimeCache_getData sample_cache 35 = (Some TF2_FORWARD_EXTRAPOLATION_ERROR, None) /\
  forall s, s ∈ storage_ sample_cache -> stamp_ s <> 35.
Proof. split; [reflexivity|]. apply (getData_spec sample_cache 35 sample_sorted). Defined.

Lemma insertData_getParent_witness :
  TimeCache_getParent (TimeCache_insertData sample_cache (entry 25 4%N)).1 25 = (Some TF2_NO_ERROR, 4%N).
Proof.
  apply (insertData_getParent sample_cache (entry 25 4%N) sample_sorted); [done| |reflexivity].
  repeat (constructor; [done|]). constructor.
Defined.
End Witnesses.
