(* ===== verification/TfWalk.v ===== *)
(** * tf2 graph search

    The two searches of [tf2/src/buffer_core.cpp] over the parent relation of
    the frames, written over the cache interface [TimeCacheOps] and over any
    [getFrame]: [getLatestCommonTime] and the template [walkToTopParent].
    The template parameter [F] is the class [WalkAccum], with the two
    accumulators of the source as instances.

    The loops of the source stop after [MAX_GRAPH_DEPTH] iterations; the
    argument [remaining] below counts the same bound down, so
    [++depth > MAX_GRAPH_DEPTH] is [remaining = 0]. *)

From Stdlib Require Import ZArith Lia Ring.
From stdpp Require Import base numbers list gmap.
From S2P Require Import Prelude LinearMath TimeCache.

Definition MAX_GRAPH_DEPTH : nat := 1000.

Definition TimePoint_max : Z := int64_max.

Inductive WalkEnding := Identity | TargetParentOfSource | SourceParentOfTarget | FullPath.

(** The concept [F] of [walkToTopParent]. *)
Class WalkAccum (F C : Type) := {
  gather : F -> C -> Z -> F * option TF2Error * N;
  accum : bool -> F -> F;
  finalize : WalkEnding -> Z -> F -> F;
}.

Section Accumulators.
Context {T C : Type} {S : Scalar T} {Ops : TimeCacheOps T C}.

Record TransformAccum := mkTransformAccum {
  acc_st : option (TransformStorage T);   (* set by gather, read by accum *)
  acc_time : Z;
  source_to_top_quat : Quaternion T;
  source_to_top_vec : Vector3 T;
  target_to_top_quat : Quaternion T;
  target_to_top_vec : Vector3 T;
  result_quat : Quaternion T;
  result_vec : Vector3 T;
}.

Definition TransformAccum_init : TransformAccum :=
  mkTransformAccum None 0 Quaternion_identity Vector3_zero Quaternion_identity Vector3_zero
    Quaternion_identity Vector3_zero.

Definition TransformAccum_gather (f : TransformAccum) (cache : C) (time : Z)
  : TransformAccum * option TF2Error * N :=
  match getData cache time with
  | (e, None) => (f, e, 0%N)
  | (e, Some st) =>
      (mkTransformAccum (Some st) (acc_time f) (source_to_top_quat f) (source_to_top_vec f)
         (target_to_top_quat f) (target_to_top_vec f) (result_quat f) (result_vec f),
       e, frame_id_ st)
  end.

Definition TransformAccum_accum (source : bool) (f : TransformAccum) : TransformAccum :=
  match acc_st f with
  | None => f
  | Some st =>
      if source then
        mkTransformAccum (acc_st f) (acc_time f)
          (Quaternion_mul (rotation_ st) (source_to_top_quat f))
          (Vector3_add (quatRotate (rotation_ st) (source_to_top_vec f)) (translation_ st))
          (target_to_top_quat f) (target_to_top_vec f) (result_quat f) (result_vec f)
      else
        mkTransformAccum (acc_st f) (acc_time f) (source_to_top_quat f) (source_to_top_vec f)
          (Quaternion_mul (rotation_ st) (target_to_top_quat f))
          (Vector3_add (quatRotate (rotation_ st) (target_to_top_vec f)) (translation_ st))
          (result_quat f) (result_vec f)
  end.

Definition TransformAccum_finalize (ending : WalkEnding) (time : Z) (f : TransformAccum)
  : TransformAccum :=
  let '(q, v) :=
    match ending with
    | Identity => (result_quat f, result_vec f)
    | TargetParentOfSource => (source_to_top_quat f, source_to_top_vec f)
    | SourceParentOfTarget =>
        let inv_target_quat := Quaternion_inverse (target_to_top_quat f) in
        let inv_target_vec := quatRotate inv_target_quat (Vector3_opp (target_to_top_vec f)) in
        (inv_target_quat, inv_target_vec)
    | FullPath =>
        let inv_target_quat := Quaternion_inverse (target_to_top_quat f) in
        let inv_target_vec := quatRotate inv_target_quat (Vector3_opp (target_to_top_vec f)) in
        (Quaternion_mul inv_target_quat (source_to_top_quat f),
         Vector3_add (quatRotate inv_target_quat (source_to_top_vec f)) inv_target_vec)
    end in
  mkTransformAccum (acc_st f) time (source_to_top_quat f) (source_to_top_vec f)
    (target_to_top_quat f) (target_to_top_vec f) q v.

#[export] Instance TransformAccum_walk : WalkAccum TransformAccum C := {|
  gather := TransformAccum_gather;
  accum := TransformAccum_accum;
  finalize := TransformAccum_finalize;
|}.

Definition CanTransformAccum := unit.

#[export] Instance CanTransformAccum_walk : WalkAccum CanTransformAccum C := {|
  gather := fun f cache time => let '(e, p) := getParent cache time in (f, e, p);
  accum := fun _ f => f;
  finalize := fun _ _ f => f;
|}.
End Accumulators.
Arguments TransformAccum : clear implicits.

Section Search.
Context {T C : Type} {Ops : TimeCacheOps T C}.
Variable getFrame : N -> option C.

(** ** getLatestCommonTime *)

(** [latest_min common latest]: the update of [common_time]. *)
Definition latest_min (common_time latest : Z) : Z :=
  if negb (latest =? TimePointZero) then Z.min latest common_time else common_time.

Definition finish_time (common_time : Z) : Z :=
  if common_time =? TimePoint_max then TimePointZero else common_time.

Inductive LctStep :=
| LctDone (e : TF2Error) (time : option Z)      (* early return *)
| LctCache (lct_cache : list (Z * N)).          (* the loop ended *)

Fixpoint lct_source (remaining : nat) (target_id frame : N) (common_time : Z)
    (lct_cache : list (Z * N)) : LctStep :=
  if (frame =? 0)%N then LctCache lct_cache
  else match getFrame frame with
  | None => LctCache lct_cache
  | Some cache =>
      let latest := getLatestTimeAndParent cache in
      if (latest.2 =? 0)%N then LctCache lct_cache
      else
        let common_time := latest_min common_time latest.1 in
        let lct_cache := lct_cache ++ [latest] in
        let frame := latest.2 in
        if (frame =? target_id)%N then LctDone TF2_NO_ERROR (Some (finish_time common_time))
        else match remaining with
        | O => LctDone TF2_LOOKUP_ERROR None
        | Datatypes.S r => lct_source r target_id frame common_time lct_cache
        end
  end.

Inductive LctTarget :=
| LctTDone (e : TF2Error) (time : option Z)
| LctCommon (common_parent : N) (common_time : Z).

Fixpoint lct_target (remaining : nat) (source_id frame : N) (common_time : Z)
    (lct_cache : list (Z * N)) : LctTarget :=
  match getFrame frame with
  | None => LctCommon 0 common_time
  | Some cache =>
      let latest := getLatestTimeAndParent cache in
      if (latest.2 =? 0)%N then LctCommon 0 common_time
      else
        let common_time := latest_min common_time latest.1 in
        if existsb (fun p => (p.2 =? latest.2)%N) lct_cache then LctCommon latest.2 common_time
        else
          let frame := latest.2 in
          if (frame =? source_id)%N then LctTDone TF2_NO_ERROR (Some (finish_time common_time))
          else match remaining with
          | O => LctTDone TF2_LOOKUP_ERROR None
          | Datatypes.S r => lct_target r source_id frame common_time lct_cache
          end
  end.

(** The loop over the source chain up to the common parent. *)
Fixpoint lct_common (common_parent : N) (common_time : Z) (lct_cache : list (Z * N)) : Z :=
  match lct_cache with
  | [] => common_time
  | p :: l =>
      let common_time := if negb (p.1 =? TimePointZero) then Z.min common_time p.1 else common_time in
      if (p.2 =? common_parent)%N then common_time else lct_common common_parent common_time l
  end.

(** The error code, and the new value of the parameter [time] if assigned. *)
Definition getLatestCommonTime (target_id source_id : N) : TF2Error * option Z :=
  if (source_id =? 0)%N || (target_id =? 0)%N then (TF2_LOOKUP_ERROR, None)
  else if (source_id =? target_id)%N then
    (TF2_NO_ERROR, Some (match getFrame source_id with
                         | Some cache => getLatestTimestamp cache
                         | None => TimePointZero
                         end))
  else
    match lct_source MAX_GRAPH_DEPTH target_id source_id TimePoint_max [] with
    | LctDone e t => (e, t)
    | LctCache lct_cache =>
        match lct_target MAX_GRAPH_DEPTH source_id target_id TimePoint_max lct_cache with
        | LctTDone e t => (e, t)
        | LctCommon common_parent common_time =>
            if (common_parent =? 0)%N then (TF2_CONNECTIVITY_ERROR, None)
            else (TF2_NO_ERROR, Some (finish_time (lct_common common_parent common_time lct_cache)))
        end
    end.

(** ** walkToTopParent *)

Context {F : Type} {W : WalkAccum F C}.

(** Outcome of the walk from the source frame. *)
Inductive UpOutcome :=
| UpTarget (f : F) (chain : list N)             (* the target is an ancestor of the source *)
| UpLoop (f : F) (chain : list N)               (* depth exceeded *)
| UpTop (f : F) (chain : list N) (top_parent : N) (extrapolation : option TF2Error).

Fixpoint walk_source (remaining : nat) (time : Z) (target_id : N) (f : F) (frame : N)
    (top_parent : N) (extrapolation_error_code : TF2Error) (chain : list N) : UpOutcome :=
  if (frame =? 0)%N then UpTop f chain top_parent None
  else
    let chain := chain ++ [frame] in
    match getFrame frame with
    | None => UpTop f chain frame None
    | Some cache =>
        let '(f, written, parent) := gather f cache time in
        let extrapolation_error_code := default extrapolation_error_code written in
        if (parent =? 0)%N then UpTop f chain frame (Some extrapolation_error_code)
        else if (frame =? target_id)%N then UpTarget (finalize TargetParentOfSource time f) chain
        else
          let f := accum true f in
          match remaining with
          | O => UpLoop f chain
          | Datatypes.S r => walk_source r time target_id f parent frame extrapolation_error_code chain
          end
    end.

(** Outcome of the walk from the target frame. *)
Inductive DownOutcome :=
| DownReturn (f : F) (e : TF2Error)               (* a return inside the loop *)
| DownSource (f : F) (chain : list N)             (* the source is an ancestor of the target *)
| DownEnd (f : F) (frame : N) (chain : list N).   (* the loop ended at [frame] *)

Fixpoint walk_target (remaining : nat) (time : Z) (source_id top_parent : N) (f : F) (frame : N)
    (error_code : TF2Error) (chain : list N) : DownOutcome :=
  if (frame =? top_parent)%N then DownEnd f frame chain
  else
    let chain := chain ++ [frame] in
    match getFrame frame with
    | None => DownEnd f frame chain
    | Some cache =>
        let '(f, written, parent) := gather f cache time in
        let error_code := default error_code written in
        if (parent =? 0)%N then DownReturn f error_code
        else if (frame =? source_id)%N then DownSource (finalize SourceParentOfTarget time f) chain
        else
          let f := accum false f in
          match remaining with
          | O => DownReturn f TF2_LOOKUP_ERROR
          | Datatypes.S r => walk_target r time source_id top_parent f parent error_code chain
          end
    end.

(** The pruning of the two chains after a full path: the indices [m], [n]
    at which the comparison from the parents' end stops. *)
Fixpoint prune_chains (frame_chain reverse_frame_chain : list N) (m n : nat) : nat * nat :=
  match m, n with
  | Datatypes.S m', Datatypes.S n' =>
      if decide (frame_chain !! n' = reverse_frame_chain !! m')
      then prune_chains frame_chain reverse_frame_chain m' n' else (m', n')
  | _, _ => (m, n)
  end.

Definition join_chains (frame_chain reverse_frame_chain : list N) : list N :=
  let '(m, n) := prune_chains frame_chain reverse_frame_chain
                   (length reverse_frame_chain) (length frame_chain) in
  let frame_chain := if (0 <? n)%nat then take (n - 1) frame_chain else frame_chain in
  if (m <? length reverse_frame_chain)%nat
  then frame_chain ++ rev (take (m + 1) reverse_frame_chain) else frame_chain.

(** The accumulator, the error code and the frame chain on return. *)
Definition walkToTopParent (f : F) (time : Z) (target_id source_id : N)
  : F * TF2Error * list N :=
  if (source_id =? target_id)%N then (finalize Identity time f, TF2_NO_ERROR, [])
  else
    let '(e, time) :=
      if time =? TimePointZero then
        let '(e, t) := getLatestCommonTime target_id source_id in (e, default time t)
      else (TF2_NO_ERROR, time) in
    if bool_decide (e <> TF2_NO_ERROR) then (f, e, [])
    else
      match walk_source MAX_GRAPH_DEPTH time target_id f source_id source_id TF2_NO_ERROR [] with
      | UpTarget f chain => (f, TF2_NO_ERROR, chain)
      | UpLoop f chain => (f, TF2_LOOKUP_ERROR, chain)
      | UpTop f chain top_parent extrapolation =>
          match walk_target MAX_GRAPH_DEPTH time source_id top_parent f target_id TF2_NO_ERROR [] with
          | DownReturn f e => (f, e, chain)
          | DownSource f reverse_chain => (f, TF2_NO_ERROR, reverse_chain)
          | DownEnd f frame reverse_chain =>
              if negb (frame =? top_parent)%N then
                match extrapolation with
                | Some e => (f, e, chain)
                | None => (f, TF2_CONNECTIVITY_ERROR, chain)
                end
              else (finalize FullPath time f, TF2_NO_ERROR, join_chains chain reverse_chain)
          end
      end.
End Search.

(** ** The parent relation at a time *)

Section Chains.
Context {T C : Type} {S : Scalar T} {Ops : TimeCacheOps T C}.
Variable getFrame : N -> option C.

(** [edge t a st]: frame [a] has the transform [st] to a parent at time [t]. *)
Definition edge (t : Z) (a : N) (st : TransformStorage T) : Prop :=
  a <> 0%N /\ frame_id_ st <> 0%N /\
  exists cache, getFrame a = Some cache /\ (getData cache t).2 = Some st.

(** [chain t a b l]: the transforms [l] lead from frame [a] up to its
    ancestor [b]. *)
Inductive chain (t : Z) : N -> N -> list (TransformStorage T) -> Prop :=
| chain_nil a : chain t a a []
| chain_cons a b st l : edge t a st -> chain t (frame_id_ st) b l -> chain t a b (st :: l).

Definition stuck (t : Z) (a : N) : Prop := forall st, ~ edge t a st.

(** The map of points that a chain describes: from the coordinates of its
    lower frame to those of its upper frame. *)
Definition compose (l : list (TransformStorage T)) (p : Vector3 T) : Vector3 T :=
  fold_left (fun p st => rigid (rotation_ st) (translation_ st) p) l p.

Lemma compose_snoc l st p : compose (l ++ [st]) p = rigid (rotation_ st) (translation_ st) (compose l p).
Proof. unfold compose. by rewrite fold_left_app. Qed.

Lemma chain_app t a b c l l' : chain t a b l -> chain t b c l' -> chain t a c (l ++ l').
Proof. induction 1; [done|]. intros. simpl. econstructor; eauto. Qed.

Lemma chain_snoc t a b st l : chain t a b l -> edge t b st -> chain t a (frame_id_ st) (l ++ [st]).
Proof. intros H He. eapply chain_app; [done|]. econstructor; [done|constructor]. Qed.

(** No transform of a frame is recorded against the reserved identifier 0. *)
Definition no_null_parent (t : Z) : Prop :=
  forall a cache st, getFrame a = Some cache -> (getData cache t).2 = Some st -> frame_id_ st <> 0%N.
End Chains.
Arguments chain_nil {T C Ops getFrame t} a.
Arguments chain_cons {T C Ops getFrame t} a b st l _ _.

Create HintDb tf2.
#[export] Hint Constructors chain : tf2.
#[export] Hint Resolve chain_app chain_snoc : tf2.

(** ** The search does not depend on what is accumulated *)

Section Simulation.
Context {T C F G : Type} {Ops : TimeCacheOps T C} {WF : WalkAccum F C} {WG : WalkAccum G C}.
Variable getFrame : N -> option C.
(** Both accumulators answer [gather] with the same code and parent. *)
Hypothesis same_gather : forall (f : F) (g : G) (c : C) (t : Z),
  (gather f c t).1.2 = (gather g c t).1.2 /\ (gather f c t).2 = (gather g c t).2.

Lemma walk_source_sim n t tgt (f : F) (g : G) fr top e ch :
  match walk_source getFrame n t tgt f fr top e ch, walk_source getFrame n t tgt g fr top e ch with
  | UpTarget _ a, UpTarget _ b => a = b
  | UpLoop _ a, UpLoop _ b => a = b
  | UpTop _ a x p, UpTop _ b y q => a = b /\ x = y /\ p = q
  | _, _ => False
  end.
Proof.
  revert f g fr top e ch. induction n as [|n IH]; intros; simpl;
    (destruct (fr =? 0)%N; [done|]); (destruct (getFrame fr) as [c|]; [|done]);
    (destruct (same_gather f g c t) as [H1 H2]);
    destruct (gather f c t) as [[f' w] p], (gather g c t) as [[g' w'] p']; simpl in *; subst;
    (destruct (p' =? 0)%N; [done|]); (destruct (fr =? tgt)%N; [done|]); [done|apply IH].
Qed.

Lemma walk_target_sim n t src top (f : F) (g : G) fr e ch :
  match walk_target getFrame n t src top f fr e ch, walk_target getFrame n t src top g fr e ch with
  | DownReturn _ a, DownReturn _ b => a = b
  | DownSource _ a, DownSource _ b => a = b
  | DownEnd _ x a, DownEnd _ y b => x = y /\ a = b
  | _, _ => False
  end.
Proof.
  revert f g fr e ch. induction n as [|n IH]; intros; simpl;
    (destruct (fr =? top)%N; [done|]); (destruct (getFrame fr) as [c|]; [|done]);
    (destruct (same_gather f g c t) as [H1 H2]);
    destruct (gather f c t) as [[f' w] p], (gather g c t) as [[g' w'] p']; simpl in *; subst;
    (destruct (p' =? 0)%N; [done|]); (destruct (fr =? src)%N; [done|]); [done|apply IH].
Qed.

Lemma walkToTopParent_sim (f : F) (g : G) t tgt src :
  (walkToTopParent getFrame f t tgt src).1.2 = (walkToTopParent getFrame g t tgt src).1.2 /\
  (walkToTopParent getFrame f t tgt src).2 = (walkToTopParent getFrame g t tgt src).2.
Proof.
  unfold walkToTopParent. destruct (src =? tgt)%N; [done|].
  destruct (if t =? TimePointZero then _ else _) as [e t'].
  destruct (bool_decide _); [done|].
  pose proof (walk_source_sim MAX_GRAPH_DEPTH t' tgt f g src src TF2_NO_ERROR []) as Hs.
  destruct (walk_source _ _ _ _ f _ _ _ _) as [f1 c1|f1 c1|f1 c1 p1 x1],
           (walk_source _ _ _ _ g _ _ _ _) as [g1 d1|g1 d1|g1 d1 q1 y1]; try done; try (by subst).
  destruct Hs as (-> & -> & ->).
  pose proof (walk_target_sim MAX_GRAPH_DEPTH t' src q1 f1 g1 tgt TF2_NO_ERROR []) as Ht.
  destruct (walk_target _ _ _ _ _ f1 _ _ _), (walk_target _ _ _ _ _ g1 _ _ _); try done; try (by subst).
  destruct Ht as [-> ->]. destruct (negb _); [by destruct y1|done].
Qed.
End Simulation.

(** ** Soundness of a successful walk *)

Section Soundness.
Context {T C : Type} {S : Scalar T} {Ops : TimeCacheOps T C} {L : TimeCacheLaws T C}.
Variable getFrame : N -> option C.
Local Abbreviation edge := (edge getFrame).
Local Abbreviation chain := (chain getFrame).

(** The accumulated source (target) transform is the composition of [l]. *)
Definition source_is (f : TransformAccum T) (l : list (TransformStorage T)) : Prop :=
  forall p, rigid (source_to_top_quat f) (source_to_top_vec f) p = compose l p.
Definition target_is (f : TransformAccum T) (l : list (TransformStorage T)) : Prop :=
  forall p, rigid (target_to_top_quat f) (target_to_top_vec f) p = compose l p.

(** What [gather] does, by cases on the data. *)
Lemma gather_edge (f : TransformAccum T) c t a st :
  a <> 0%N -> getFrame a = Some c -> (getData c t).2 = Some st -> frame_id_ st <> 0%N ->
  exists f' w, gather f c t = (f', w, frame_id_ st) /\ edge t a st /\
    acc_st f' = Some st /\
    source_to_top_quat f' = source_to_top_quat f /\ source_to_top_vec f' = source_to_top_vec f /\
    target_to_top_quat f' = target_to_top_quat f /\ target_to_top_vec f' = target_to_top_vec f /\
    result_quat f' = result_quat f /\ result_vec f' = result_vec f.
Proof.
  intros Ha Hc Hd Hp. simpl. unfold TransformAccum_gather.
  destruct (getData c t) as [w [d|]] eqn:E; [|done]. simpl in Hd. simplify_eq.
  eexists _, w. split; [done|]. split; [|done].
  split; [done|]. split; [done|]. exists c. by rewrite E.
Qed.

Context {R : ScalarRing T}.
Add Ring walk_scalar_ring : (@scalar_ring T S R).

Lemma rigid_mul (q1 q2 : Quaternion T) v1 v2 p :
  rigid (Quaternion_mul q1 q2) (Vector3_add (quatRotate q1 v2) v1) p = rigid q1 v1 (rigid q2 v2 p).
Proof.
  unfold rigid. rewrite quatRotate_mul, quatRotate_add. symmetry. by rewrite Vector3_add_assoc.
Qed.

(** The inverse the accumulator computes undoes a unit rigid transform. *)
Lemma rigid_inverse (q : Quaternion T) v p :
  unit_quat q ->
  rigid q v (rigid (Quaternion_inverse q) (quatRotate (Quaternion_inverse q) (Vector3_opp v)) p) = p.
Proof.
  intros Hq. unfold rigid. rewrite <- quatRotate_add, quatRotate_inverse_r by done.
  destruct p, v. unfold Vector3_add, Vector3_opp; simpl. f_equal; ring.
Qed.

Lemma source_is_accum f l st :
  acc_st f = Some st -> source_is f l -> source_is (accum true f) (l ++ [st]).
Proof.
  intros Hst Hf p. rewrite compose_snoc. simpl. unfold TransformAccum_accum. rewrite Hst. simpl.
  rewrite rigid_mul. by rewrite <- Hf.
Qed.

Lemma target_is_accum f l st :
  acc_st f = Some st -> target_is f l -> target_is (accum false f) (l ++ [st]).
Proof.
  intros Hst Hf p. rewrite compose_snoc. simpl. unfold TransformAccum_accum. rewrite Hst. simpl.
  rewrite rigid_mul. by rewrite <- Hf.
Qed.

(** Every rotation available at [t] is a unit quaternion. *)
Definition unit_data (t : Z) : Prop :=
  forall a cache st, getFrame a = Some cache -> (getData cache t).2 = Some st -> unit_quat (rotation_ st).

Definition target_fresh (f : TransformAccum T) : Prop :=
  target_to_top_quat f = Quaternion_identity /\ target_to_top_vec f = Vector3_zero.

Variable t : Z.
Hypothesis Hnull : no_null_parent getFrame t.
Hypothesis Hunit : unit_data t.

Lemma walk_source_sound n tgt f fr top e ch l0 :
  (fr = 0%N -> top = fr) -> source_is f l0 -> unit_quat (source_to_top_quat f) -> target_fresh f ->
  match walk_source getFrame n t tgt f fr top e ch with
  | UpTarget f' _ => exists f0 l, f' = finalize (WalkAccum := TransformAccum_walk (Ops := Ops)) TargetParentOfSource t f0 /\
      chain t fr tgt l /\ source_is f0 (l0 ++ l) /\ unit_quat (source_to_top_quat f0)
  | UpLoop _ _ => True
  | UpTop f' _ top' x => (exists l, chain t fr top' l /\ source_is f' (l0 ++ l)) /\
      unit_quat (source_to_top_quat f') /\ target_fresh f' /\
      (forall e', x = Some e' -> e' <> TF2_NO_ERROR)
  end.
Proof.
  revert f fr top e ch l0. induction n as [|n IH]; intros f fr top e ch l0 Htop Hs Hu Ht;
  unfold walk_source; fold (@walk_source C getFrame (TransformAccum T) _);
  (destruct (decide (fr = 0%N)) as [->|H0];
    [simpl; rewrite Htop by done; split_and!; [exists []; rewrite app_nil_r; eauto with tf2|done|done|done]|]);
  (destruct (fr =? 0)%N eqn:E0; [by apply N.eqb_eq in E0|]);
  (destruct (getFrame fr) as [c|] eqn:Ec;
    [|split_and!; [exists []; rewrite app_nil_r; eauto with tf2|done|done|done]]);
  (destruct (getData c t) as [w [st|]] eqn:Ed;
    [|simpl; unfold TransformAccum_gather; rewrite Ed; simpl;
      split_and!; [exists []; rewrite app_nil_r; eauto with tf2|done|done|];
      destruct w as [w|]; simpl; intros ? [= <-];
      [by eapply getData_no_error
      |pose proof (getData_silent c t) as Hsil; rewrite Ed in Hsil; destruct (Hsil eq_refl); done]]);
  (assert (Hp : frame_id_ st <> 0%N) by (eapply Hnull; [done|by rewrite Ed]));
  (destruct (gather_edge f c t fr st) as (f' & w' & -> & He & Hst & E1 & E2 & E3 & E4 & _);
    [done|done|by rewrite Ed|done|]);
  (destruct (frame_id_ st =? 0)%N eqn:Ep; [by apply N.eqb_eq in Ep|]);
  (assert (Hs' : source_is f' l0) by (intros p; rewrite E1, E2; apply Hs));
  (assert (Hu' : unit_quat (source_to_top_quat f')) by (by rewrite E1));
  (assert (Ht' : target_fresh f') by (destruct Ht; split; congruence));
  (destruct (fr =? tgt)%N eqn:Et;
    [apply N.eqb_eq in Et as ->; exists f', []; rewrite app_nil_r; eauto with tf2|]).
  - done.
  - assert (Hacc : source_is (accum true f') (l0 ++ [st])) by (by apply source_is_accum).
    assert (Hua : unit_quat (source_to_top_quat (accum (C := C) true f'))).
    { simpl. unfold TransformAccum_accum. rewrite Hst. simpl.
      assert (unit_quat (rotation_ st)) by (eapply Hunit; [done|by rewrite Ed]). auto with linmath. }
    assert (Hfr : target_fresh (accum true f')).
    { simpl. unfold TransformAccum_accum. rewrite Hst. by destruct Ht'. }
    specialize (IH (accum true f') (frame_id_ st) fr (default e w') (ch ++ [fr]) (l0 ++ [st])).
    specialize (IH (fun H => False_ind _ (Hp H)) Hacc Hua Hfr).
    destruct (walk_source _ _ _ _ _ _ _ _ _) as [f1 c1|f1 c1|f1 c1 top1 x].
    + destruct IH as (f0 & l & -> & Hc & Hl & Hu0). exists f0, (st :: l).
      rewrite <- app_assoc in Hl. eauto 6 with tf2.
    + done.
    + destruct IH as ((l & Hc & Hl) & Hrest). split; [|done]. exists (st :: l).
      rewrite <- app_assoc in Hl. eauto with tf2.
Qed.

Lemma walk_target_sound n src top f fr e ch l0 :
  fr <> 0%N \/ top = 0%N -> target_is f l0 -> unit_quat (target_to_top_quat f) ->
  match walk_target getFrame n t src top f fr e ch with
  | DownReturn _ e' => e' <> TF2_NO_ERROR
  | DownSource f' _ => exists f0 l, f' = finalize (WalkAccum := TransformAccum_walk (Ops := Ops)) SourceParentOfTarget t f0 /\
      chain t fr src l /\ target_is f0 (l0 ++ l) /\ unit_quat (target_to_top_quat f0)
  | DownEnd f' fr' _ => (exists l, chain t fr fr' l /\ target_is f' (l0 ++ l)) /\
      unit_quat (target_to_top_quat f') /\
      source_to_top_quat f' = source_to_top_quat f /\ source_to_top_vec f' = source_to_top_vec f
  end.
Proof.
  revert f fr e ch l0. induction n as [|n IH]; intros f fr e ch l0 H0 Ht Hu;
  unfold walk_target; fold (@walk_target C getFrame (TransformAccum T) _);
  (destruct (fr =? top)%N eqn:Etop;
    [split_and!; [exists []; rewrite app_nil_r; eauto with tf2|done|done|done]|]);
  (destruct (getFrame fr) as [c|] eqn:Ec;
    [|split_and!; [exists []; rewrite app_nil_r; eauto with tf2|done|done|done]]);
  (assert (Hfr : fr <> 0%N) by (apply N.eqb_neq in Etop; destruct H0; congruence));
  (destruct (getData c t) as [w [st|]] eqn:Ed;
    [|simpl; unfold TransformAccum_gather; rewrite Ed; simpl;
      destruct w as [w|]; simpl;
      [by eapply getData_no_error
      |pose proof (getData_silent c t) as Hsil; rewrite Ed in Hsil; destruct (Hsil eq_refl); done]]);
  (assert (Hp : frame_id_ st <> 0%N) by (eapply Hnull; [done|by rewrite Ed]));
  (assert (Hust : unit_quat (rotation_ st)) by (eapply Hunit; [done|by rewrite Ed]));
  (destruct (gather_edge f c t fr st) as (f' & w' & -> & He & Hst & E1 & E2 & E3 & E4 & _);
    [done|done|by rewrite Ed|done|]);
  (destruct (frame_id_ st =? 0)%N eqn:Ep; [by apply N.eqb_eq in Ep|]);
  (assert (Ht' : target_is f' l0) by (intros p; rewrite E3, E4; apply Ht));
  (assert (Hu' : unit_quat (target_to_top_quat f')) by (by rewrite E3));
  (destruct (fr =? src)%N eqn:Et;
    [apply N.eqb_eq in Et as ->; exists f', []; rewrite app_nil_r; eauto with tf2|]).
  - done.
  - assert (Hacc : target_is (accum false f') (l0 ++ [st])) by (by apply target_is_accum).
    assert (Hua : unit_quat (target_to_top_quat (accum (C := C) false f'))).
    { simpl. unfold TransformAccum_accum. rewrite Hst. simpl. auto with linmath. }
    assert (Hs : source_to_top_quat (accum (C := C) false f') = source_to_top_quat f /\
                 source_to_top_vec (accum (C := C) false f') = source_to_top_vec f).
    { simpl. unfold TransformAccum_accum. by rewrite Hst. }
    specialize (IH (accum false f') (frame_id_ st) (default e w') (ch ++ [fr]) (l0 ++ [st])
                  (or_introl Hp) Hacc Hua).
    destruct (walk_target _ _ _ _ _ _ _ _ _) as [f1 e1|f1 c1|f1 fr1 c1]; [done| |].
    + destruct IH as (f0 & l & -> & Hc & Hl & Hu0). exists f0, (st :: l).
      rewrite <- app_assoc in Hl. eauto with tf2.
    + destruct IH as ((l & Hc & Hl) & Hu1 & Hs1 & Hs2). destruct Hs. split_and!; [|done|congruence..].
      exists (st :: l). rewrite <- app_assoc in Hl. eauto with tf2.
Qed.

(** The time at which the walk is made: the latest common time of the two
    frames for a query at time zero. *)
Definition resolve_time (time : Z) (target_id source_id : N) : Z :=
  if time =? TimePointZero then default time (getLatestCommonTime getFrame target_id source_id).2
  else time.

Lemma source_is_init : source_is TransformAccum_init [].
Proof. intros p. unfold rigid. simpl. rewrite quatRotate_identity. apply Vector3_add_0_r. Qed.

Lemma target_fresh_is f : target_fresh f -> target_is f [] /\ unit_quat (target_to_top_quat f).
Proof.
  intros [Hq Hv]. split; [|rewrite Hq; auto with linmath].
  intros p. rewrite Hq, Hv. unfold rigid. rewrite quatRotate_identity. apply Vector3_add_0_r.
Qed.

(** Soundness of the graph search in exact arithmetic. When
    [walkToTopParent] succeeds, the two frames have a common ancestor, and
    the resulting transform is a map that, followed by the chain of
    transforms from the target to the ancestor, gives the chain from the
    source to the ancestor; the result carries the time of the walk. *)
Lemma walkToTopParent_sound time tgt src f fc :
  src <> tgt -> tgt <> 0%N ->
  resolve_time time tgt src = t ->
  walkToTopParent getFrame TransformAccum_init time tgt src = (f, TF2_NO_ERROR, fc) ->
  exists c l1 l2,
    chain t src c l1 /\ chain t tgt c l2 /\ acc_time f = t /\ unit_quat (result_quat f) /\
    forall p, compose l2 (rigid (result_quat f) (result_vec f) p) = compose l1 p.
Proof.
  intros Hne Htgt0 Hres. unfold walkToTopParent.
  destruct (src =? tgt)%N eqn:E; [by apply N.eqb_eq in E|]. clear E.
  assert (exists e, (if time =? TimePointZero
                     then let '(e, t0) := getLatestCommonTime getFrame tgt src in (e, default time t0)
                     else (TF2_NO_ERROR, time)) = (e, t)) as [e ->].
  { revert Hres. unfold resolve_time. destruct (time =? TimePointZero); [|intros <-; eauto].
    destruct (getLatestCommonTime getFrame tgt src) as [e o]. simpl. intros <-. eauto. }
  destruct (bool_decide (e <> TF2_NO_ERROR)) eqn:Ee.
  { apply bool_decide_eq_true in Ee. intros [= _ -> _]. done. }
  pose proof (walk_source_sound MAX_GRAPH_DEPTH tgt TransformAccum_init src src TF2_NO_ERROR [] []
                (fun _ => eq_refl) source_is_init unit_quat_identity (conj eq_refl eq_refl)) as Hws.
  destruct (walk_source _ _ _ _ _ _ _ _ _) as [f1 c1|f1 c1|f1 c1 top x].
  - destruct Hws as (f0 & l & -> & Hc & Hl & Hus). intros [= <- _].
    exists tgt, l, []. split_and!; [done|constructor|done|done|]. intros p. apply Hl.
  - discriminate.
  - destruct Hws as ((l & Hc & Hl) & Hus & Hfr & Hx).
    destruct (target_fresh_is _ Hfr) as [Hti Hu].
    pose proof (walk_target_sound MAX_GRAPH_DEPTH src top f1 tgt TF2_NO_ERROR [] []
                  (or_introl Htgt0) Hti Hu) as Hwt.
    destruct (walk_target _ _ _ _ _ _ _ _ _) as [f2 e2|f2 c2|f2 fr2 c2].
    + intros [= _ -> _]. done.
    + destruct Hwt as (f0 & l2 & -> & Hc2 & Hl2 & Hu0). intros [= <- _].
      exists src, [], l2. split_and!; [constructor|done|done|simpl; auto with linmath|].
      intros p. rewrite <- Hl2. apply rigid_inverse. done.
    + destruct Hwt as ((l2 & Hc2 & Hl2) & Hu2 & Es1 & Es2).
      destruct (fr2 =? top)%N eqn:Efr; cbn [negb];
        [|destruct x as [e'|]; intros [= _ -> _]; by destruct (Hx TF2_NO_ERROR)].
      apply N.eqb_eq in Efr as ->. intros [= <- _].
      exists top, l, l2.
      assert (Hu1 : unit_quat (source_to_top_quat f2)) by (by rewrite Es1).
      split_and!; [done|done|done|simpl; auto with linmath|]. intros p. cbn [app] in Hl, Hl2.
      rewrite <- Hl2, <- (Hl p). simpl.
      rewrite rigid_mul, rigid_inverse by done. by rewrite Es1, Es2.
Qed.
End Soundness.

(** ** Completeness of the walk *)

Section Completeness.
Context {T C F : Type} {Ops : TimeCacheOps T C} {W : WalkAccum F C}.
Variable getFrame : N -> option C.
Hypothesis gather_parent : forall (f : F) (c : C) (t : Z),
  (gather f c t).2 = match (getData c t).2 with Some d => frame_id_ d | None => 0%N end.
Local Abbreviation edge := (edge getFrame).
Local Abbreviation chain := (chain getFrame).
Local Abbreviation stuck := (stuck getFrame).

(** A frame with a transform continues the loop, one without ends it. *)
Lemma gather_some (f : F) t a st :
  edge t a st -> exists c f' w, getFrame a = Some c /\ gather f c t = (f', w, frame_id_ st) /\
    (a =? 0)%N = false /\ (frame_id_ st =? 0)%N = false.
Proof.
  intros (Ha & Hp & c & Hc & Hd). pose proof (gather_parent f c t) as Hg. rewrite Hd in Hg.
  destruct (gather f c t) as [[f' w] p] eqn:E. simpl in Hg. subst p.
  exists c, f', w. rewrite !N.eqb_neq. by rewrite E.
Qed.

Lemma gather_stuck (f : F) t a c :
  stuck t a -> a <> 0%N -> getFrame a = Some c -> (gather f c t).2 = 0%N.
Proof.
  intros Hs Ha Hc. rewrite gather_parent.
  destruct ((getData c t).2) as [d|] eqn:Ed; [|done].
  destruct (decide (frame_id_ d = 0%N)) as [|Hd]; [done|].
  exfalso. apply (Hs d). split_and!; eauto.
Qed.

Lemma walk_source_stuck n t tgt (f : F) r e ch top :
  stuck t r -> (r = 0%N -> top = r) ->
  exists f' ch' x, walk_source getFrame n t tgt f r top e ch = UpTop f' ch' r x.
Proof.
  intros Hs Htop.
  destruct n; simpl; (destruct (r =? 0)%N eqn:E0;
    [apply N.eqb_eq in E0; rewrite <- Htop by done; eauto|]);
    apply N.eqb_neq in E0; (destruct (getFrame r) as [c|] eqn:Ec; [|eauto]);
    pose proof (gather_stuck f t r c Hs E0 Ec) as Hg;
    destruct (gather f c t) as [[f' w] p]; simpl in Hg; subst p; simpl; eauto.
Qed.

Lemma walk_source_complete n t tgt (f : F) a r l e ch top :
  chain t a r l -> stuck t r -> (length l <= n)%nat -> (a = 0%N -> top = a) ->
  match walk_source getFrame n t tgt f a top e ch with
  | UpTarget _ _ => True
  | UpLoop _ _ => False
  | UpTop _ _ top' _ => top' = r
  end.
Proof.
  intros Hc Hs Hn. revert n f e ch top Hn.
  induction Hc as [r|a r st l He Hc IH]; intros n f e ch top Hn Htop.
  - destruct (walk_source_stuck n t tgt f r e ch top Hs Htop) as (f' & ch' & x & ->). done.
  - destruct (gather_some f t a st He) as (c & f' & w & Ec & Eg & E0 & Ep).
    destruct n as [|n]; simpl in Hn; [lia|]. simpl. rewrite E0, Ec, Eg, Ep.
    destruct (a =? tgt)%N; [done|]. apply IH; [done|lia|].
    intros H. by rewrite H in Ep.
Qed.

Lemma walk_target_complete n t src (f : F) a r l e ch :
  chain t a r l -> (length l <= n)%nat ->
  match walk_target getFrame n t src r f a e ch with
  | DownReturn _ _ => False
  | DownSource _ _ => True
  | DownEnd _ fr _ => fr = r
  end.
Proof.
  intros Hc Hn. revert n f e ch Hn.
  induction Hc as [r|a r st l He Hc IH]; intros n f e ch Hn.
  - destruct n; simpl; by rewrite N.eqb_refl.
  - destruct (gather_some f t a st He) as (c & f' & w & Ec & Eg & E0 & Ep).
    destruct n as [|n]; simpl in Hn; [lia|]. simpl.
    destruct (a =? r)%N eqn:Er; [by apply N.eqb_eq in Er|].
    rewrite Ec, Eg, Ep. destruct (a =? src)%N; [done|]. apply IH; lia.
Qed.

(** completeness of the graph search. If at a non-zero time the chains
    of both frames end in the same root, and neither is longer than
    [MAX_GRAPH_DEPTH], the walk succeeds, whatever it accumulates. *)
Theorem walkToTopParent_complete (f : F) t tgt src r l1 l2 :
  t <> TimePointZero ->
  chain t src r l1 -> chain t tgt r l2 -> stuck t r ->
  (length l1 <= MAX_GRAPH_DEPTH)%nat -> (length l2 <= MAX_GRAPH_DEPTH)%nat ->
  (walkToTopParent getFrame f t tgt src).1.2 = TF2_NO_ERROR.
Proof.
  intros Ht Hs1 Hs2 Hr Hl1 Hl2. unfold walkToTopParent.
  destruct (src =? tgt)%N; [done|]. apply Z.eqb_neq in Ht. rewrite Ht.
  rewrite bool_decide_eq_false_2 by (intros H; by apply H).
  pose proof (walk_source_complete MAX_GRAPH_DEPTH t tgt f src r l1 TF2_NO_ERROR [] src
                Hs1 Hr Hl1 (fun _ => eq_refl)) as Hw.
  destruct (walk_source _ _ _ _ _ _ _ _ _) as [f1 c1|f1 c1|f1 c1 top x]; [done..|]. subst top.
  pose proof (walk_target_complete MAX_GRAPH_DEPTH t src f1 tgt r l2 TF2_NO_ERROR [] Hs2 Hl2) as Hw.
  destruct (walk_target _ _ _ _ _ _ _ _ _) as [f2 e2|f2 c2|f2 fr2 c2]; [done..|]. subst fr2.
  by rewrite N.eqb_refl.
Qed.

(** ** Cycles *)

Lemma walk_source_loops n t tgt (f : F) a b l e ch top :
  chain t a b l -> (n < length l)%nat -> (forall l', ~ chain t a tgt l') ->
  exists f' ch', walk_source getFrame n t tgt f a top e ch = UpLoop f' ch'.
Proof.
  intros Hc Hn Havoid. revert n f e ch top Hn.
  induction Hc as [|a b st l He Hc IH]; intros n f e ch top Hn; simpl in Hn; [lia|].
  destruct (gather_some f t a st He) as (c & f' & w & Ec & Eg & E0 & Ep).
  assert (Et : (a =? tgt)%N = false).
  { apply N.eqb_neq. intros ->. apply (Havoid []). constructor. }
  destruct n as [|n]; simpl; rewrite E0, Ec, Eg, Ep, Et; [eauto|].
  apply IH; [|lia]. intros l' Hl'. apply (Havoid (st :: l')). by econstructor.
Qed.

Lemma chain_cycle_long t a st l n :
  chain t a a (st :: l) -> exists l', chain t a a l' /\ (n < length l')%nat.
Proof.
  intros Hc. induction n as [|n (l' & Hl' & Hn)].
  - exists (st :: l). split; [done|]. simpl. lia.
  - exists ((st :: l) ++ l'). split; [by eapply chain_app|]. rewrite length_app. simpl. lia.
Qed.

(** a cyclic parent relation is reported, not followed. If the source
    leads into a cycle that does not pass through the target, the walk
    terminates with [TF2_LOOKUP_ERROR]. *)
Theorem walkToTopParent_cycle (f : F) t tgt src a st l0 l :
  t <> TimePointZero -> src <> tgt ->
  chain t src a l0 -> chain t a a (st :: l) ->
  (forall l', ~ chain t src tgt l') ->
  (walkToTopParent getFrame f t tgt src).1.2 = TF2_LOOKUP_ERROR.
Proof.
  intros Ht Hne Hc Hcyc Havoid. unfold walkToTopParent.
  apply N.eqb_neq in Hne. rewrite Hne. apply Z.eqb_neq in Ht. rewrite Ht.
  rewrite bool_decide_eq_false_2 by (intros H; by apply H).
  destruct (chain_cycle_long t a st l MAX_GRAPH_DEPTH Hcyc) as (l' & Hl' & Hn).
  destruct (walk_source_loops MAX_GRAPH_DEPTH t tgt f src a (l0 ++ l') TF2_NO_ERROR [] src)
    as (f' & ch' & ->); [by eapply chain_app|rewrite length_app; lia|done|done].
Qed.
End Completeness.

(** ** The latest common time *)

Section CommonTime.
Context {T C : Type} {Ops : TimeCacheOps T C}.
Variable getFrame : N -> option C.

(** [lpath a l]: the pairs (latest stamp, parent) met when following the
    latest parents from frame [a]; [lend a l] is the frame reached. *)
Fixpoint lpath (a : N) (l : list (Z * N)) : Prop :=
  match l with
  | [] => True
  | p :: l' =>
      (exists c, getFrame a = Some c /\ getLatestTimeAndParent c = p) /\ p.2 <> 0%N /\ lpath p.2 l'
  end.

Fixpoint lend (a : N) (l : list (Z * N)) : N :=
  match l with [] => a | p :: l' => lend p.2 l' end.

Lemma lpath_snoc a l p :
  lpath a l -> (exists c, getFrame (lend a l) = Some c /\ getLatestTimeAndParent c = p) -> p.2 <> 0%N ->
  lpath a (l ++ [p]) /\ lend a (l ++ [p]) = p.2.
Proof. revert a. induction l as [|q l IH]; intros a; naive_solver. Qed.

(** The minimum of the non-zero stamps of a path, from a start value. *)
Definition min_stamps (common_time : Z) (l : list (Z * N)) : Z :=
  fold_left latest_min (map fst l) common_time.

Lemma min_stamps_app ct l1 l2 : min_stamps ct (l1 ++ l2) = min_stamps (min_stamps ct l1) l2.
Proof. unfold min_stamps. by rewrite map_app, fold_left_app. Qed.

Lemma lct_source_spec n src tgt fr ct l :
  lpath src l -> lend src l = fr -> ct = min_stamps TimePoint_max l ->
  match lct_source getFrame n tgt fr ct l with
  | LctDone e None => e <> TF2_NO_ERROR
  | LctDone e (Some t) => exists l', lpath src l' /\ lend src l' = tgt /\
      t = finish_time (min_stamps TimePoint_max l')
  | LctCache l' => lpath src l'
  end.
Proof.
  revert fr ct l. induction n as [|n IH]; intros fr ct l Hl He Hct; simpl;
    (destruct (fr =? 0)%N; [done|]); (destruct (getFrame fr) as [c|] eqn:Ec; [|done]);
    destruct (getLatestTimeAndParent c) as [s p] eqn:Ep; simpl;
    (destruct (p =? 0)%N eqn:E0; [done|]); apply N.eqb_neq in E0;
    (destruct (lpath_snoc src l (s, p)) as [Hl' He']; [done|rewrite He; eauto|done|]);
    (assert (Hct' : latest_min ct s = min_stamps TimePoint_max (l ++ [(s, p)]))
      by (by rewrite min_stamps_app, <- Hct));
    (destruct (p =? tgt)%N eqn:Et; [apply N.eqb_eq in Et as <-; rewrite Hct'; eauto|]); [done|].
  by apply IH.
Qed.

Lemma lct_common_spec p ct l :
  existsb (fun q => (q.2 =? p)%N) l = true ->
  exists l1 l2, l = l1 ++ l2 /\ lct_common p ct l = min_stamps ct l1 /\ forall a, lend a l1 = p.
Proof.
  revert ct. induction l as [|q l IH]; intros ct Hex; [discriminate|]. simpl in Hex |- *.
  assert (Hm : (if negb (q.1 =? TimePointZero) then Z.min ct q.1 else ct) = latest_min ct q.1).
  { unfold latest_min. by rewrite Z.min_comm. }
  rewrite Hm. destruct (q.2 =? p)%N eqn:E.
  - exists [q], l. apply N.eqb_eq in E. split_and!; [done|done|]. intros a. done.
  - destruct (IH (latest_min ct q.1) Hex) as (l1 & l2 & -> & H & He).
    exists (q :: l1), l2. split_and!; [done|done|]. intros a. apply He.
Qed.

Lemma lpath_app_l a l1 l2 : lpath a (l1 ++ l2) -> lpath a l1.
Proof. revert a. induction l1 as [|q l1 IH]; simpl; naive_solver. Qed.

Lemma lct_target_spec n src tgt fr ct l cache :
  lpath tgt l -> lend tgt l = fr -> ct = min_stamps TimePoint_max l ->
  match lct_target getFrame n src fr ct cache with
  | LctTDone e None => e <> TF2_NO_ERROR
  | LctTDone e (Some t) => exists l', lpath tgt l' /\ lend tgt l' = src /\
      t = finish_time (min_stamps TimePoint_max l')
  | LctCommon p ct' => p = 0%N \/ exists l', lpath tgt l' /\ lend tgt l' = p /\
      ct' = min_stamps TimePoint_max l' /\ existsb (fun q => (q.2 =? p)%N) cache = true
  end.
Proof.
  revert fr ct l. induction n as [|n IH]; intros fr ct l Hl He Hct; simpl;
    (destruct (getFrame fr) as [c|] eqn:Ec; [|by left]);
    destruct (getLatestTimeAndParent c) as [s p] eqn:Ep; simpl;
    (destruct (p =? 0)%N eqn:E0; [by left|]); apply N.eqb_neq in E0;
    (destruct (lpath_snoc tgt l (s, p)) as [Hl' He']; [done|rewrite He; eauto|done|]);
    (assert (Hct' : latest_min ct s = min_stamps TimePoint_max (l ++ [(s, p)]))
      by (by rewrite min_stamps_app, <- Hct));
    (destruct (existsb _ cache) eqn:Ex; [right; eauto|]);
    (destruct (p =? src)%N eqn:Et; [apply N.eqb_eq in Et as <-; rewrite Hct'; eauto|]); [done|].
  by apply (IH _ _ (l ++ [(s, p)])).
Qed.

(** the latest common time. Whenever [getLatestCommonTime] of two distinct
    frames succeeds, following the latest parents from both leads to a
    common frame, and the time is the minimum of the non-zero latest
    stamps on the two paths (zero when there are none). *)
Theorem getLatestCommonTime_spec tgt src t :
  tgt <> src ->
  getLatestCommonTime getFrame tgt src = (TF2_NO_ERROR, Some t) ->
  exists l1 l2,
    lpath src l1 /\ lpath tgt l2 /\ lend src l1 = lend tgt l2 /\
    t = finish_time (min_stamps TimePoint_max (l2 ++ l1)).
Proof.
  intros Hne. unfold getLatestCommonTime.
  destruct (_ || _); [discriminate|].
  destruct (src =? tgt)%N eqn:E; [apply N.eqb_eq in E; congruence|].
  pose proof (lct_source_spec MAX_GRAPH_DEPTH src tgt src TimePoint_max [] I eq_refl eq_refl) as Hs.
  destruct (lct_source _ _ _ _ _ _) as [e [t'|]|cache].
  - destruct Hs as (l1 & H1 & H2 & ->). intros [= _ <-]. exists l1, [].
    rewrite H2. done.
  - discriminate.
  - pose proof (lct_target_spec MAX_GRAPH_DEPTH src tgt tgt TimePoint_max [] cache I eq_refl eq_refl) as Ht.
    destruct (lct_target _ _ _ _ _ _) as [e [t'|]|p ct].
    + destruct Ht as (l2 & H1 & H2 & ->). intros [= _ <-]. exists [], l2.
      rewrite H2, app_nil_r. done.
    + discriminate.
    + destruct (p =? 0)%N eqn:Ep; [discriminate|]. apply N.eqb_neq in Ep. intros [= <-].
      destruct Ht as [|(l2 & H1 & H2 & -> & Hex)]; [done|].
      destruct (lct_common_spec p (min_stamps TimePoint_max l2) cache Hex) as (l1 & l1' & -> & Hc & He).
      exists l1, l2. split_and!; [by eapply lpath_app_l|done|by rewrite He|].
      by rewrite Hc, min_stamps_app.
Qed.
End CommonTime.

(** ** A single transform *)

Section OneEdge.
Context {T C : Type} {S : Scalar T} {R : ScalarRing T} {Ops : TimeCacheOps T C}.
Variable getFrame : N -> option C.

Definition accumulated (f : TransformAccum T) (d : TransformStorage T) : Prop :=
  source_to_top_quat f = rotation_ d /\ source_to_top_vec f = translation_ d /\
  target_to_top_quat f = Quaternion_identity /\ target_to_top_vec f = Vector3_zero.

(** A frame that is not the target either ends the walk or, if it is the
    target, is its result. *)
Lemma walk_source_at_target n t f tgt top e ch d :
  tgt <> 0%N -> accumulated f d ->
  match walk_source getFrame n t tgt f tgt top e ch with
  | UpTarget f' _ => exists f0, f' = TransformAccum_finalize TargetParentOfSource t f0 /\ accumulated f0 d
  | UpTop f' _ top' _ => top' = tgt /\ accumulated f' d
  | UpLoop _ _ => False
  end.
Proof.
  intros Ht%N.eqb_neq Hacc. destruct n; cbn [walk_source]; rewrite Ht;
    (destruct (getFrame tgt) as [c|]; [|done]); simpl; unfold TransformAccum_gather;
    destruct (getData c t) as [w [d'|]]; rewrite ?N.eqb_refl; try done;
    destruct (frame_id_ d' =? 0)%N; try done; eauto.
Qed.

(** The result of a walk over the only transform between two frames is
    that transform. *)
Lemma walkToTopParent_one t tgt src c w d :
  t <> TimePointZero -> src <> tgt -> src <> 0%N -> tgt <> 0%N ->
  getFrame src = Some c -> getData c t = (w, Some d) -> frame_id_ d = tgt ->
  exists f ch, walkToTopParent getFrame TransformAccum_init t tgt src = (f, TF2_NO_ERROR, ch) /\
    result_quat f = rotation_ d /\ result_vec f = translation_ d /\ acc_time f = t.
Proof.
  intros Ht Hne Hs H0 Hc Hd Hp. unfold walkToTopParent.
  pose proof Hne as Hne'. apply N.eqb_neq in Hne'. rewrite Hne'. apply Z.eqb_neq in Ht. rewrite Ht.
  rewrite bool_decide_eq_false_2 by (intros H; by apply H).
  assert (exists n, MAX_GRAPH_DEPTH = Datatypes.S n) as [n ->] by (by exists 999%nat).
  cbn [walk_source].
  apply N.eqb_neq in Hs. rewrite Hs, Hc. cbn [gather TransformAccum_walk].
  unfold TransformAccum_gather. rewrite Hd, Hp. pose proof H0 as H0'. apply N.eqb_neq in H0'.
  rewrite H0', Hne'.
  set (f1 := accum true _). set (ch := [] ++ [src]).
  assert (Hacc : accumulated f1 d).
  { subst f1. simpl. unfold TransformAccum_accum. simpl.
    split_and!; simpl; [apply Quaternion_mul_1_r| |done|done].
    by rewrite quatRotate_zero, Vector3_add_0_l. }
  pose proof (walk_source_at_target n t f1 tgt src (default TF2_NO_ERROR w) ch d H0 Hacc) as Hw.
  destruct (walk_source _ _ _ _ _ _ _ _ _) as [f' ch'|f' ch'|f' ch' top x]; [|done|].
  - destruct Hw as (f0 & -> & A1 & A2 & _ & _). eauto 10.
  - destruct Hw as (-> & A1 & A2 & A3 & A4). cbn [walk_target]. rewrite !N.eqb_refl. simpl.
    eexists _, _. split; [done|]. simpl. rewrite A1, A2, A3, A4.
    rewrite Quaternion_inverse_identity_mul, !quatRotate_inverse_identity, Vector3_opp_zero.
    by rewrite Vector3_add_0_r.
Qed.
End OneEdge.

(** ** The error codes of the searches *)

Section Codes.
Context {T C F : Type} {Ops : TimeCacheOps T C} {W : WalkAccum F C}.
Variable getFrame : N -> option C.

(** The codes for which the callers have an exception, and success. *)
Definition walk_code (e : TF2Error) : Prop :=
  match e with
  | TF2_NO_ERROR | TF2_LOOKUP_ERROR | TF2_CONNECTIVITY_ERROR | TF2_BACKWARD_EXTRAPOLATION_ERROR
  | TF2_FORWARD_EXTRAPOLATION_ERROR | TF2_NO_DATA_FOR_EXTRAPOLATION_ERROR => True
  | _ => False
  end.

Hypothesis gather_codes : forall (f : F) (c : C) (t : Z) f' w p,
  gather f c t = (f', w, p) -> forall e, w = Some e -> walk_code e.

Lemma walk_source_codes n t tgt f fr top e ch :
  walk_code e ->
  match walk_source getFrame n t tgt f fr top e ch with
  | UpTop _ _ _ x => forall e', x = Some e' -> walk_code e'
  | _ => True
  end.
Proof.
  revert f fr top e ch. induction n as [|n IH]; intros f fr top e ch He; simpl;
    (destruct (fr =? 0)%N; [done|]); (destruct (getFrame fr) as [c|]; [|done]);
    destruct (gather f c t) as [[f' w] p] eqn:Eg;
    (assert (walk_code (default e w)) by (destruct w; [by eapply gather_codes|done]));
    (destruct (p =? 0)%N; [by intros ? [= <-]|]); (destruct (fr =? tgt)%N; [done|]); [done|by apply IH].
Qed.

Lemma walk_target_codes n t src top f fr e ch :
  walk_code e ->
  match walk_target getFrame n t src top f fr e ch with
  | DownReturn _ e' => walk_code e'
  | _ => True
  end.
Proof.
  revert f fr e ch. induction n as [|n IH]; intros f fr e ch He; simpl;
    (destruct (fr =? top)%N; [done|]); (destruct (getFrame fr) as [c|]; [|done]);
    destruct (gather f c t) as [[f' w] p] eqn:Eg;
    (assert (walk_code (default e w)) by (destruct w; [by eapply gather_codes|done]));
    (destruct (p =? 0)%N; [done|]); (destruct (fr =? src)%N; [done|]); [done|by apply IH].
Qed.

Lemma lct_source_codes n tgt fr ct l :
  match lct_source getFrame n tgt fr ct l with LctDone e _ => walk_code e | _ => True end.
Proof.
  revert fr ct l. induction n as [|n IH]; intros; simpl;
    (destruct (fr =? 0)%N; [done|]); (destruct (getFrame fr) as [c|]; [|done]);
    (destruct (_ =? 0)%N; [done|]); (destruct (_ =? tgt)%N; [done|]); [done|apply IH].
Qed.

Lemma lct_target_codes n src fr ct l :
  match lct_target getFrame n src fr ct l with LctTDone e _ => walk_code e | _ => True end.
Proof.
  revert fr ct. induction n as [|n IH]; intros; simpl;
    (destruct (getFrame fr) as [c|]; [|done]);
    (destruct (_ =? 0)%N; [done|]); (destruct (existsb _ _); [done|]);
    (destruct (_ =? src)%N; [done|]); [done|apply IH].
Qed.

Lemma getLatestCommonTime_codes tgt src : walk_code (getLatestCommonTime getFrame tgt src).1.
Proof.
  unfold getLatestCommonTime. destruct (_ || _); [done|]. destruct (_ =? _)%N; [done|].
  pose proof (lct_source_codes MAX_GRAPH_DEPTH tgt src TimePoint_max []) as Hs.
  destruct (lct_source _ _ _ _ _ _) as [|l]; [done|].
  pose proof (lct_target_codes MAX_GRAPH_DEPTH src tgt TimePoint_max l) as Ht.
  destruct (lct_target _ _ _ _ _ _); [done|]. by destruct (_ =? _)%N.
Qed.

Lemma walkToTopParent_codes f time tgt src :
  walk_code (walkToTopParent getFrame f time tgt src).1.2.
Proof.
  unfold walkToTopParent. destruct (src =? tgt)%N; [done|].
  pose proof (getLatestCommonTime_codes tgt src) as Hl.
  assert (Hp : walk_code ((if time =? TimePointZero
           then let '(e, t) := getLatestCommonTime getFrame tgt src in (e, default time t)
           else (TF2_NO_ERROR, time)).1)).
  { destruct (_ =? _); [|done]. by destruct (getLatestCommonTime _ _ _). }
  destruct (if time =? TimePointZero then _ else _) as [e t]. simpl in Hp.
  destruct (bool_decide _); [done|].
  pose proof (walk_source_codes MAX_GRAPH_DEPTH t tgt f src src TF2_NO_ERROR [] I) as Hs.
  destruct (walk_source _ _ _ _ _ _ _ _ _) as [| |f1 c1 top x]; [done..|].
  pose proof (walk_target_codes MAX_GRAPH_DEPTH t src top f1 tgt TF2_NO_ERROR [] I) as Ht.
  destruct (walk_target _ _ _ _ _ _ _ _ _) as [| |f2 fr c2]; [done..|].
  destruct (negb _); [|done]. destruct x; [by apply Hs|done].
Qed.
End Codes.

(** ** Witnesses *)

Section Witnesses.
(** Frames 1 and 3 with parent 2, and, in the cyclic variant, 2 with
    parent 1. *)
Local Abbreviation edge_to p c := (FixedCache (mkStaticCache
  (mkTransformStorage (T := Z) Quaternion_identity Vector3_zero 0 p c))).

Definition sample_frames (a : N) : option (AnyCache Z) :=
  match a with
  | 1%N => Some (edge_to 2%N 1%N)
  | 3%N => Some (edge_to 2%N 3%N)
  | _ => None
  end.

Definition cyclic_frames (a : N) : option (AnyCache Z) :=
  match a with
  | 2%N => Some (edge_to 1%N 2%N)
  | _ => sample_frames a
  end.

Definition dynamic_frames (a : N) : option (AnyCache Z) :=
  match a with
  | 1%N => Some (DynamicCache (mkTimeCache
      [mkTransformStorage (T := Z) Quaternion_identity Vector3_zero 7 2%N 1%N] 10))
  | 3%N => Some (DynamicCache (mkTimeCache
      [mkTransformStorage (T := Z) Quaternion_identity Vector3_zero 9 2%N 3%N] 10))
  | _ => None
  end.

Lemma can_gather_parent (f : CanTransformAccum) (c : AnyCache Z) (t : Z) :
  (gather f c t).2 = match (getData c t).2 with Some d => frame_id_ d | None => 0%N end.
Proof. cbn [gather CanTransformAccum_walk]. by rewrite (getParent_getData c t). Qed.

Lemma walkToTopParent_complete_witness :
  (walkToTopParent (F := CanTransformAccum) sample_frames tt 5 3 1).1.2 = TF2_NO_ERROR.
Proof.
  eapply (walkToTopParent_complete sample_frames can_gather_parent tt 5 3 1 2); [done| | | | |].
  - eapply chain_cons; [split; [done|]; split; [|eexists; split; reflexivity]; done|constructor].
  - eapply chain_cons; [split; [done|]; split; [|eexists; split; reflexivity]; done|constructor].
  - by intros st (_ & _ & c & Hc & _).
  - unfold MAX_GRAPH_DEPTH. simpl length. lia.
  - unfold MAX_GRAPH_DEPTH. simpl length. lia.
Defined.

Lemma cyclic_closed a l : chain cyclic_frames 5 1 a l -> a = 1%N \/ a = 2%N.
Proof.
  assert (H : forall x, chain cyclic_frames 5 x a l -> x = 1%N \/ x = 2%N -> a = 1%N \/ a = 2%N).
  { induction 1 as [|x b st l (_ & _ & c & Hc & Hd) _ IH]; [done|]. intros [-> | ->]; apply IH;
    simpl in Hc; simplify_eq/=; auto. }
  intros Hc. eapply H; [done|by left].
Qed.

Lemma walkToTopParent_cycle_witness :
  (walkToTopParent (F := CanTransformAccum) cyclic_frames tt 5 3 1).1.2 = TF2_LOOKUP_ERROR.
Proof.
  eapply (walkToTopParent_cycle cyclic_frames can_gather_parent tt 5 3 1 1); [done|done|constructor| |].
  - eapply chain_cons; [split; [done|]; split; [|eexists; split; reflexivity]; done|].
    eapply chain_cons; [split; [done|]; split; [|eexists; split; reflexivity]; done|]. constructor.
  - intros l' Hl'. destruct (cyclic_closed _ _ Hl'); done.
Defined.

Lemma getLatestCommonTime_spec_witness :
  exists l1 l2, lpath dynamic_frames 1 l1 /\ lpath dynamic_frames 3 l2 /\
    lend 1 l1 = lend 3 l2 /\ 7 = finish_time (min_stamps TimePoint_max (l2 ++ l1)).
Proof. apply (getLatestCommonTime_spec dynamic_frames 3 1 7); [done|vm_compute; reflexivity]. Defined.
End Witnesses.
