(* ===== verification/BufferCore.v ===== *)
(** * tf2 BufferCore

    The transform buffer of [tf2/src/buffer_core.cpp]: the frame registry,
    insertion of transforms, lookups, and the pending transformable
    requests.  Log and error texts are not modelled; an exception is a value
    of [tf2_exception]; the calls of user callbacks are returned as a list,
    in the order in which the code makes them.  Every public method runs
    under the mutex of the state it touches, so one operation is one step. *)

From Stdlib Require Import ZArith Lia Ascii.
From stdpp Require Import base numbers list gmap strings.
From S2P Require Import Prelude LinearMath TimeCache TfWalk.

Inductive tf2_exception :=
| InvalidArgumentException
| LookupException
| ConnectivityException
| BackwardExtrapolationException
| ForwardExtrapolationException
| NoDataForExtrapolationException
| ExtrapolationException
| AssertionFailure.     (* assert(0) in the default branch *)

(** The exception that [lookupTransformImpl] throws for a failed walk. *)
Definition exception_of (e : TF2Error) : tf2_exception :=
  match e with
  | TF2_CONNECTIVITY_ERROR => ConnectivityException
  | TF2_BACKWARD_EXTRAPOLATION_ERROR => BackwardExtrapolationException
  | TF2_FORWARD_EXTRAPOLATION_ERROR => ForwardExtrapolationException
  | TF2_NO_DATA_FOR_EXTRAPOLATION_ERROR => NoDataForExtrapolationException
  | TF2_EXTRAPOLATION_ERROR => ExtrapolationException
  | TF2_LOOKUP_ERROR => LookupException
  | _ => AssertionFailure
  end.

Inductive TransformableResult := TransformAvailable | TransformFailure.

Section BufferCore.
Context {T CB : Type} {S : Scalar T}.

Record TransformableRequest := mkRequest {
  req_time : Z;
  request_handle : Z;
  cb_handle : Z;
  req_target_id : N;
  req_source_id : N;
  target_string : string;
  source_string : string;
}.

Record BufferCore := mkBufferCore {
  frames_ : list (option (AnyCache T));
  frameIDs_ : gmap string N;
  frameIDs_reverse_ : list string;
  frame_authority_ : gmap N string;
  cache_time_ : Z;
  transformable_callbacks_ : gmap Z CB;
  transformable_callbacks_counter_ : Z;
  transformable_requests_ : list TransformableRequest;
  transformable_requests_counter_ : Z;
}.

(** A call of a callback: which one, and its five arguments. *)
Record CallbackCall := mkCall {
  call_cb : CB;
  call_handle : Z;
  call_target : string;
  call_source : string;
  call_time : Z;
  call_result : TransformableResult;
}.

Definition NO_PARENT : string := "NO_PARENT".

Definition BufferCore_init (cache_time : Z) : BufferCore :=
  mkBufferCore [None] {[NO_PARENT := 0%N]} [NO_PARENT] ∅ cache_time ∅ 0 [] 0.

Definition set_frames (b : BufferCore) (fs : list (option (AnyCache T))) : BufferCore :=
  mkBufferCore fs (frameIDs_ b) (frameIDs_reverse_ b) (frame_authority_ b) (cache_time_ b)
    (transformable_callbacks_ b) (transformable_callbacks_counter_ b)
    (transformable_requests_ b) (transformable_requests_counter_ b).

Definition set_authority (b : BufferCore) (a : gmap N string) : BufferCore :=
  mkBufferCore (frames_ b) (frameIDs_ b) (frameIDs_reverse_ b) a (cache_time_ b)
    (transformable_callbacks_ b) (transformable_callbacks_counter_ b)
    (transformable_requests_ b) (transformable_requests_counter_ b).

Definition set_requests (b : BufferCore) (cbs : gmap Z CB) (cc : Z)
    (rs : list TransformableRequest) (rc : Z) : BufferCore :=
  mkBufferCore (frames_ b) (frameIDs_ b) (frameIDs_reverse_ b) (frame_authority_ b) (cache_time_ b)
    cbs cc rs rc.

(** ** Frame names and numbers *)

Definition startsWithSlash (frame_id : string) : bool :=
  match frame_id with
  | String c _ => Ascii.eqb c "/"%char
  | EmptyString => false
  end.

Definition stripSlash (s : string) : string :=
  match s with
  | String c s' => if Ascii.eqb c "/"%char then s' else s
  | EmptyString => s
  end.

Definition getFrame (b : BufferCore) (frame_id : N) : option (AnyCache T) :=
  match frames_ b !! N.to_nat frame_id with
  | Some c => c
  | None => None
  end.

Definition lookupFrameNumber (b : BufferCore) (frameid_str : string) : N :=
  match frameIDs_ b !! frameid_str with
  | Some id => id
  | None => 0%N
  end.

Definition lookupOrInsertFrameNumber (b : BufferCore) (frameid_str : string) : BufferCore * N :=
  match frameIDs_ b !! frameid_str with
  | Some id => (b, id)
  | None =>
      let retval := N.modulo (N.of_nat (length (frames_ b))) (2 ^ 32) in
      (mkBufferCore (frames_ b ++ [None]) (<[frameid_str := retval]> (frameIDs_ b))
         (frameIDs_reverse_ b ++ [frameid_str]) (frame_authority_ b) (cache_time_ b)
         (transformable_callbacks_ b) (transformable_callbacks_counter_ b)
         (transformable_requests_ b) (transformable_requests_counter_ b),
       retval)
  end.

Definition lookupFrameString (b : BufferCore) (frame_id_num : N) : Result tf2_exception string :=
  match frameIDs_reverse_ b !! N.to_nat frame_id_num with
  | Some s => Ok s
  | None => Throw LookupException
  end.

(** The overload that returns 0 on a frame that is invalid or unknown. *)
Definition validateFrameId (b : BufferCore) (frame_id : string) : N :=
  if String.eqb frame_id EmptyString then 0%N
  else if startsWithSlash frame_id then 0%N
  else lookupFrameNumber b frame_id.

(** The overload that throws. *)
Definition validateFrameId_throw (b : BufferCore) (frame_id : string) : Result tf2_exception N :=
  if String.eqb frame_id EmptyString then Throw InvalidArgumentException
  else if startsWithSlash frame_id then Throw InvalidArgumentException
  else
    let id := lookupFrameNumber b frame_id in
    if (id =? 0)%N then Throw LookupException else Ok id.

Definition frameExists (b : BufferCore) (frame_id_str : string) : bool :=
  bool_decide (is_Some (frameIDs_ b !! frame_id_str)).

Definition getFrameStrings (b : BufferCore) : list string := drop 1 (frameIDs_reverse_ b).

Definition getParent_ (b : BufferCore) (frame_id : string) (time : Z)
  : Result tf2_exception (option string) :=
  match getFrame b (lookupFrameNumber b frame_id) with
  | None => Ok None
  | Some cache =>
      let parent_id := (getParent cache time).2 in
      if (parent_id =? 0)%N then Ok None
      else let! s := lookupFrameString b parent_id in Ok (Some s)
  end.

(** [clear] empties every cache but keeps the frames. *)
Definition clear (b : BufferCore) : BufferCore :=
  match frames_ b with
  | [] => b
  | f0 :: fs => set_frames b (f0 :: map (option_map clearList) fs)
  end.

(** ** Transformability *)

Definition canTransformInternal (b : BufferCore) (target_id source_id : N) (time : Z) : bool :=
  if (target_id =? 0)%N || (source_id =? 0)%N then false
  else if (target_id =? source_id)%N then true
  else
    let '(_, e, _) := walkToTopParent (F := CanTransformAccum) (getFrame b) tt time target_id source_id in
    bool_decide (e = TF2_NO_ERROR).

Definition canTransform (b : BufferCore) (target_frame source_frame : string) (time : Z) : bool :=
  if String.eqb target_frame source_frame then true
  else
    let target_id := validateFrameId b target_frame in
    if (target_id =? 0)%N then false
    else
      let source_id := validateFrameId b source_frame in
      if (source_id =? 0)%N then false
      else canTransformInternal b target_id source_id time.

Definition canTransform_fixed (b : BufferCore) (target_frame : string) (target_time : Z)
    (source_frame : string) (source_time : Z) (fixed_frame : string) : bool :=
  let target_id := validateFrameId b target_frame in
  if (target_id =? 0)%N then false
  else
    let source_id := validateFrameId b source_frame in
    if (source_id =? 0)%N then false
    else
      let fixed_id := validateFrameId b fixed_frame in
      if (fixed_id =? 0)%N then false
      else canTransformInternal b target_id fixed_id target_time &&
           canTransformInternal b fixed_id source_id source_time.

(** ** Lookups *)

Definition lookupTransformImpl (b : BufferCore) (target_frame source_frame : string) (time : Z)
  : Result tf2_exception (Transform T * Z) :=
  if String.eqb target_frame source_frame then
    Ok (Transform_identity,
        if time =? TimePointZero then
          match getFrame b (lookupFrameNumber b target_frame) with
          | Some cache => getLatestTimestamp cache
          | None => time
          end
        else time)
  else
    let! target_id := validateFrameId_throw b target_frame in
    let! source_id := validateFrameId_throw b source_frame in
    let '(acc, e, _) := walkToTopParent (getFrame b) TransformAccum_init time target_id source_id in
    if bool_decide (e = TF2_NO_ERROR)
    then Ok (Transform_of (result_quat acc) (result_vec acc), acc_time acc)
    else Throw (exception_of e).

Definition lookupTransformImpl_fixed (b : BufferCore) (target_frame : string) (target_time : Z)
    (source_frame : string) (source_time : Z) (fixed_frame : string)
  : Result tf2_exception (Transform T * Z) :=
  let! _ := validateFrameId_throw b target_frame in
  let! _ := validateFrameId_throw b source_frame in
  let! _ := validateFrameId_throw b fixed_frame in
  let! (tf1, _) := lookupTransformImpl b fixed_frame source_frame source_time in
  let! (tf2, time_out) := lookupTransformImpl b target_frame fixed_frame target_time in
  Ok (Transform_mul tf2 tf1, time_out).

(** [geometry_msgs::msg::TransformStamped]. *)
Record TransformStamped := mkTransformStamped {
  ts_sec : Z;                   (* int32 *)
  ts_nanosec : Z;               (* uint32 *)
  ts_frame_id : string;
  ts_child_frame_id : string;
  ts_translation : Vector3 T;
  ts_rotation : Quaternion T;
}.

Definition to_msg (transform : Transform T) (time_out : Z) (target_frame source_frame : string)
  : TransformStamped :=
  mkTransformStamped (i32 (Z.quot time_out 1000000000)) (u32 (u64 time_out mod 1000000000))
    target_frame source_frame (m_origin transform) (Transform_getRotation transform).

Definition lookupTransform (b : BufferCore) (target_frame source_frame : string) (time : Z)
  : Result tf2_exception TransformStamped :=
  let! (transform, time_out) := lookupTransformImpl b target_frame source_frame time in
  Ok (to_msg transform time_out target_frame source_frame).

Definition lookupTransform_fixed (b : BufferCore) (target_frame : string) (target_time : Z)
    (source_frame : string) (source_time : Z) (fixed_frame : string)
  : Result tf2_exception TransformStamped :=
  let! (transform, time_out) :=
    lookupTransformImpl_fixed b target_frame target_time source_frame source_time fixed_frame in
  Ok (to_msg transform time_out target_frame source_frame).

(** ** Frame chains *)

Fixpoint frame_strings (b : BufferCore) (l : list N) : Result tf2_exception (list string) :=
  match l with
  | [] => Ok []
  | id :: l' =>
      let! s := lookupFrameString b id in
      let! r := frame_strings b l' in
      Ok (s :: r)
  end.

(** The second pruning, in [_chainAsVector] itself. *)
Definition join_fixed (source_chain target_chain : list N) : list N :=
  let '(m, n) := prune_chains source_chain target_chain (length target_chain) (length source_chain) in
  let source_chain := if (0 <? n)%nat then take (n - 1) source_chain else source_chain in
  if (m <? length target_chain)%nat
  then source_chain ++ take (m + 1) target_chain else source_chain.

Definition chainAsVector (b : BufferCore) (target_frame : string) (target_time : Z)
    (source_frame : string) (source_time : Z) (fixed_frame : string)
  : Result tf2_exception (list string) :=
  let source_id := lookupFrameNumber b source_frame in
  let fixed_id := lookupFrameNumber b fixed_frame in
  let target_id := lookupFrameNumber b target_frame in
  let '(acc, e, source_chain) :=
    walkToTopParent (getFrame b) TransformAccum_init source_time fixed_id source_id in
  if bool_decide (e <> TF2_NO_ERROR) then Throw (exception_of e)
  else if source_time =? target_time then frame_strings b source_chain
  else
    let '(_, e, target_chain) := walkToTopParent (getFrame b) acc target_time target_id fixed_id in
    if bool_decide (e <> TF2_NO_ERROR) then Throw (exception_of e)
    else frame_strings b (join_fixed source_chain target_chain).

(** ** Pending requests *)

(** [while (!insert(make_pair(handle, cb)).second)]: the first handle after
    the counter, with wrap-around, that is not in use. *)
Fixpoint fresh_handle (fuel : nat) (cbs : gmap Z CB) (counter : Z) : option Z :=
  match fuel with
  | O => None
  | Datatypes.S n =>
      let handle := u32 (counter + 1) in
      match cbs !! handle with
      | None => Some handle
      | Some _ => fresh_handle n cbs handle
      end
  end.

Definition request_never : Z := 2 ^ 64 - 1.    (* 0xffffffffffffffffULL *)

(** The test both request functions make on the latest common time. *)
Definition too_old (b : BufferCore) (target_id source_id : N) (time : Z) : bool :=
  let latest_time := default 0 (getLatestCommonTime (getFrame b) target_id source_id).2 in
  negb (latest_time =? TimePointZero) && (i64 (time + cache_time_ b) <? latest_time).

(** [None] when every 32-bit callback handle is in use: the code then
    loops for ever. *)
Definition addTransformableRequest (b : BufferCore) (cb : CB) (target_frame source_frame : string)
    (time : Z) : option (BufferCore * Z) :=
  if String.eqb target_frame source_frame then Some (b, 0)
  else
    let target_id := lookupFrameNumber b target_frame in
    let source_id := lookupFrameNumber b source_frame in
    if canTransformInternal b target_id source_id time then Some (b, 0)
    else if (negb (target_id =? 0)%N && negb (source_id =? 0)%N) && too_old b target_id source_id time
    then Some (b, request_never)
    else
      match fresh_handle (Datatypes.S (size (transformable_callbacks_ b))) (transformable_callbacks_ b)
              (transformable_callbacks_counter_ b) with
      | None => None
      | Some handle =>
          let counter := u64 (transformable_requests_counter_ b + 1) in
          let rh := if (counter =? 0) || (counter =? request_never) then 1 else counter in
          let req := mkRequest time rh handle target_id source_id
                       (if (target_id =? 0)%N then target_frame else EmptyString)
                       (if (source_id =? 0)%N then source_frame else EmptyString) in
          Some (set_requests b (<[handle := cb]> (transformable_callbacks_ b)) handle
                  (transformable_requests_ b ++ [req]) counter, rh)
      end.

(** [std::remove_if] moves the kept requests to the front, in order; the
    slots past the new end keep the scalar members they had, among them
    the [cb_handle] whose callback the loop then erases. *)
Definition cancelTransformableRequest (b : BufferCore) (handle : Z) : BufferCore :=
  let rs := transformable_requests_ b in
  let kept := filter (fun r => request_handle r <> handle) rs in
  let tail := drop (length kept) rs in
  set_requests b
    (fold_left (fun m r => delete (cb_handle r) m) tail (transformable_callbacks_ b))
    (transformable_callbacks_counter_ b) kept (transformable_requests_counter_ b).

(** One iteration of [testTransformableRequests] on a request: the request
    with its frame numbers resolved, and the verdict if it is due. *)
Definition resolve_request (b : BufferCore) (req : TransformableRequest) : TransformableRequest :=
  mkRequest (req_time req) (request_handle req) (cb_handle req)
    (if (req_target_id req =? 0)%N then lookupFrameNumber b (target_string req) else req_target_id req)
    (if (req_source_id req =? 0)%N then lookupFrameNumber b (source_string req) else req_source_id req)
    (target_string req) (source_string req).

Definition request_verdict (b : BufferCore) (req : TransformableRequest) : option TransformableResult :=
  if too_old b (req_target_id req) (req_source_id req) (req_time req) then Some TransformFailure
  else if canTransformInternal b (req_target_id req) (req_source_id req) (req_time req)
  then Some TransformAvailable
  else None.

(** The loop of [testTransformableRequests]: [done_] are the requests
    before the iterator, [todo] those from it on.  A request that is due
    is overwritten with the last one, which is then looked at next.  The
    result is the pending requests, the callbacks left and the calls. *)
Fixpoint test_requests (fuel : nat) (b : BufferCore) (done_ todo : list TransformableRequest)
    (cbs : gmap Z CB) (calls : list CallbackCall)
  : option (Result tf2_exception (list TransformableRequest * gmap Z CB * list CallbackCall)) :=
  match fuel with
  | O => None
  | Datatypes.S n =>
      match todo with
      | [] => Some (Ok (done_, cbs, calls))
      | req :: rest =>
          let req := resolve_request b req in
          match request_verdict b req with
          | None => test_requests n b (done_ ++ [req]) rest cbs calls
          | Some result =>
              let todo' := match last rest with
                           | None => []
                           | Some r => r :: removelast rest
                           end in
              match cbs !! cb_handle req with
              | None => test_requests n b done_ todo' cbs calls
              | Some cb =>
                  match lookupFrameString b (req_target_id req), lookupFrameString b (req_source_id req) with
                  | Ok t, Ok s =>
                      test_requests n b done_ todo' (delete (cb_handle req) cbs)
                        (calls ++ [mkCall cb (request_handle req) t s (req_time req) result])
                  | Throw e, _ | _, Throw e => Some (Throw e)
                  end
              end
          end
      end
  end.

Definition testTransformableRequests (b : BufferCore)
  : option (Result tf2_exception (BufferCore * list CallbackCall)) :=
  match test_requests (Datatypes.S (length (transformable_requests_ b))) b []
          (transformable_requests_ b) (transformable_callbacks_ b) [] with
  | None => None
  | Some (Throw e) => Some (Throw e)
  | Some (Ok (rs, cbs, calls)) =>
      Some (Ok (set_requests b cbs (transformable_callbacks_counter_ b) rs
                  (transformable_requests_counter_ b), calls))
  end.

(** ** Insertion *)

Definition allocateFrame (b : BufferCore) (cfid : N) (is_static : bool) (dflt : TransformStorage T)
  : AnyCache T :=
  if is_static then FixedCache (mkStaticCache dflt)
  else DynamicCache (mkTimeCache [] (cache_time_ b)).

Definition QUATERNION_NORMALIZATION_TOLERANCE : T := sdiv (sofZ 1) (sofZ 100).

(** The norm test on the rotation extracted from the transform's basis. *)
Definition quaternion_valid (q : Quaternion T) : bool :=
  sltb (sabs (ssub (sadd (sadd (sadd (smul (qw q) (qw q)) (smul (qx q) (qx q)))
                               (smul (qy q) (qy q))) (smul (qz q) (qz q))) sone))
       QUATERNION_NORMALIZATION_TOLERANCE.

Definition has_nan (origin : Vector3 T) (q : Quaternion T) : bool :=
  sisnan (vx origin) || sisnan (vy origin) || sisnan (vz origin) ||
  sisnan (qx q) || sisnan (qy q) || sisnan (qz q) || sisnan (qw q).

(** [error_exists] at the end of the checks. *)
Definition transform_rejected (transform_in : Transform T) (frame_id child_frame_id : string) : bool :=
  String.eqb child_frame_id frame_id ||
  String.eqb child_frame_id EmptyString ||
  String.eqb frame_id EmptyString ||
  has_nan (m_origin transform_in) (Transform_getRotation transform_in) ||
  negb (quaternion_valid (Transform_getRotation transform_in)).

(** The cache that receives the data: the frame's, unless it has none or
    one of the other kind, in which case a new one is allocated. *)
Definition cache_for (b : BufferCore) (frame_number : N) (is_static : bool) (d : TransformStorage T)
  : AnyCache T :=
  match getFrame b frame_number with
  | None => allocateFrame b frame_number is_static d
  | Some (DynamicCache c) =>
      if is_static then allocateFrame b frame_number is_static d else DynamicCache c
  | Some (FixedCache c) =>
      if negb is_static then allocateFrame b frame_number is_static d else FixedCache c
  end.

(** The locked part of [setTransformImpl]. *)
Definition insertTransform (b : BufferCore) (transform_in : Transform T)
    (frame_id child_frame_id : string) (stamp : Z) (authority : string) (is_static : bool)
  : BufferCore * bool :=
  let '(b, frame_number) := lookupOrInsertFrameNumber b child_frame_id in
  let data parent := mkTransformStorage (Transform_getRotation transform_in) (m_origin transform_in)
                       stamp parent frame_number in
  let frame := cache_for b frame_number is_static (data 0%N) in
  let '(b, parent) := lookupOrInsertFrameNumber b frame_id in
  let '(frame, inserted) := insertData frame (data parent) in
  let b := set_frames b (<[N.to_nat frame_number := Some frame]> (frames_ b)) in
  if inserted then (set_authority b (<[frame_number := authority]> (frame_authority_ b)), true)
  else (b, false).

Definition setTransformImpl (b : BufferCore) (transform_in : Transform T)
    (frame_id child_frame_id : string) (stamp : Z) (authority : string) (is_static : bool)
  : option (Result tf2_exception (BufferCore * bool * list CallbackCall)) :=
  let stripped_frame_id := stripSlash frame_id in
  let stripped_child_frame_id := stripSlash child_frame_id in
  if transform_rejected transform_in stripped_frame_id stripped_child_frame_id
  then Some (Ok (b, false, []))
  else
    let '(b, ok) := insertTransform b transform_in stripped_frame_id stripped_child_frame_id stamp
                      authority is_static in
    if ok then
      match testTransformableRequests b with
      | None => None
      | Some (Throw e) => Some (Throw e)
      | Some (Ok (b, calls)) => Some (Ok (b, true, calls))
      end
    else Some (Ok (b, false, [])).

Definition stamp_of_msg (m : TransformStamped) : Z := i64 (ts_nanosec m + ts_sec m * 1000000000).

Definition setTransform (b : BufferCore) (m : TransformStamped) (authority : string) (is_static : bool)
  : option (Result tf2_exception (BufferCore * bool * list CallbackCall)) :=
  setTransformImpl b (Transform_of (ts_rotation m) (ts_translation m)) (ts_frame_id m)
    (ts_child_frame_id m) (stamp_of_msg m) authority is_static.
End BufferCore.

Arguments BufferCore : clear implicits.
Arguments TransformStamped : clear implicits.
Arguments CallbackCall : clear implicits.

(** ** Transformability agrees with lookup *)

Section Agreement.
Context {T CB : Type} {S : Scalar T}.
Implicit Types (b : BufferCore T CB) (tgt src fixed : string).

Lemma validateFrameId_throw_spec b s :
  match validateFrameId_throw b s with
  | Ok id => validateFrameId b s = id /\ id <> 0%N /\ lookupFrameNumber b s = id
  | Throw _ => validateFrameId b s = 0%N
  end.
Proof.
  unfold validateFrameId_throw, validateFrameId.
  destruct (String.eqb _ _); [done|]. destruct (startsWithSlash s); [done|].
  destruct (_ =? 0)%N eqn:E; bool_to_prop; done.
Qed.

(** The two accumulators drive the same search. *)
Lemma walk_codes_agree b (f : TransformAccum T) (g : CanTransformAccum) time t s :
  (walkToTopParent (getFrame b) f time t s).1.2 =
  (walkToTopParent (F := CanTransformAccum) (getFrame b) g time t s).1.2.
Proof.
  apply (walkToTopParent_sim (T := T)). intros f' g' c t'.
  cbn [gather TransformAccum_walk CanTransformAccum_walk]. unfold TransformAccum_gather.
  rewrite (getParent_getData c t'). destruct (getData c t') as [e [d|]]; done.
Qed.

Lemma lookupTransformImpl_ok b tgt src time :
  is_ok (lookupTransformImpl b tgt src time) = canTransform b tgt src time.
Proof.
  unfold lookupTransformImpl, canTransform. destruct (String.eqb tgt src); [done|].
  pose proof (validateFrameId_throw_spec b tgt) as Ht.
  destruct (validateFrameId_throw b tgt) as [t|]; simpl; [|by rewrite Ht].
  destruct Ht as (-> & Ht & _). apply N.eqb_neq in Ht as Et. rewrite Et.
  pose proof (validateFrameId_throw_spec b src) as Hs.
  destruct (validateFrameId_throw b src) as [s|]; simpl; [|by rewrite Hs].
  destruct Hs as (-> & Hs & _). apply N.eqb_neq in Hs as Es.
  unfold canTransformInternal. rewrite Es, Et. simpl.
  pose proof (walk_codes_agree b TransformAccum_init tt time t s) as Hw.
  destruct (walkToTopParent _ TransformAccum_init _ _ _) as [[acc e] ch],
    (walkToTopParent (F := CanTransformAccum) (getFrame b) tt time t s) as [[acc' e'] ch'] eqn:E.
  simpl in Hw. subst e'.
  destruct (t =? s)%N eqn:Ets.
  - unfold walkToTopParent in E. rewrite N.eqb_sym, Ets in E. by simplify_eq.
  - by destruct (bool_decide _).
Qed.

Lemma validate_canTransform b tgt src time :
  validateFrameId b tgt <> 0%N -> validateFrameId b src <> 0%N ->
  canTransformInternal b (validateFrameId b tgt) (validateFrameId b src) time =
  canTransform b tgt src time.
Proof.
  intros Ht Hs. unfold canTransform. destruct (String.eqb tgt src) eqn:E.
  - apply String.eqb_eq in E as ->. unfold canTransformInternal.
    apply N.eqb_neq in Ht as ->. simpl. by rewrite N.eqb_refl.
  - apply N.eqb_neq in Ht as ->. apply N.eqb_neq in Hs as ->. done.
Qed.

Lemma lookupTransformImpl_fixed_ok b tgt t_tgt src t_src fixed :
  is_ok (lookupTransformImpl_fixed b tgt t_tgt src t_src fixed) =
  canTransform_fixed b tgt t_tgt src t_src fixed.
Proof.
  unfold lookupTransformImpl_fixed, canTransform_fixed.
  pose proof (validateFrameId_throw_spec b tgt) as Ht.
  destruct (validateFrameId_throw b tgt) as [t|]; simpl; [|by rewrite Ht].
  pose proof (validateFrameId_throw_spec b src) as Hs.
  destruct (validateFrameId_throw b src) as [s|]; simpl; [|by rewrite Hs; destruct (_ =? _)%N].
  pose proof (validateFrameId_throw_spec b fixed) as Hf.
  destruct (validateFrameId_throw b fixed) as [f|]; simpl;
    [|rewrite Hf; simpl; by split_ifs].
  destruct Ht as (Et & Ht & _), Hs as (Es & Hs & _), Hf as (Ef & Hf & _).
  rewrite !validate_canTransform, <- !lookupTransformImpl_ok by congruence.
  rewrite Et, Es, Ef. apply N.eqb_neq in Ht as ->, Hs as ->, Hf as ->.
  destruct (lookupTransformImpl b fixed src t_src) as [[tf1 t1]|]; simpl; [|by rewrite andb_false_r].
  by destruct (lookupTransformImpl b tgt fixed t_tgt) as [[tf2 t2]|].
Qed.

(** C38: [canTransform] never disagrees with [lookupTransform]: for every
    buffer, frames and times it answers true exactly when the lookup
    returns a transform instead of throwing, in the plain and in the
    fixed-frame version. *)
Theorem canTransform_lookupTransform b tgt t_tgt src t_src fixed :
  is_ok (lookupTransform b tgt src t_src) = canTransform b tgt src t_src /\
  is_ok (lookupTransform_fixed b tgt t_tgt src t_src fixed) =
    canTransform_fixed b tgt t_tgt src t_src fixed.
Proof.
  unfold lookupTransform, lookupTransform_fixed.
  rewrite <- lookupTransformImpl_ok, <- lookupTransformImpl_fixed_ok.
  split.
  - by destruct (lookupTransformImpl b tgt src t_src) as [[]|].
  - by destruct (lookupTransformImpl_fixed b tgt t_tgt src t_src fixed) as [[]|].
Qed.

(** ** Exceptions *)

Lemma findClosest_codes (c : TimeCache T) t : walk_code (findClosest c t).1.
Proof.
  unfold findClosest. destruct (storage_ c) as [|f rest]; [done|].
  destruct (_ =? _); [done|]. destruct (last rest); [|by destruct (_ =? _)].
  repeat (destruct (_ =? _); [done|]). repeat (destruct (_ <? _); [done|]). done.
Qed.

Lemma getData_codes (c : AnyCache T) t e : (getData c t).1 = Some e -> walk_code e.
Proof.
  destruct c as [c|c]; simpl; [|discriminate]. unfold TimeCache_getData.
  pose proof (findClosest_codes c t) as H. destruct (findClosest c t) as [e' []]; simpl in *;
  by intros [= <-].
Qed.

Lemma gather_codes (f : TransformAccum T) (c : AnyCache T) t f' w p :
  gather f c t = (f', w, p) -> forall e, w = Some e -> walk_code e.
Proof.
  cbn [gather TransformAccum_walk]. unfold TransformAccum_gather.
  intros Hg e ->. apply (getData_codes c t).
  destruct (getData c t) as [w [d|]]; by simplify_eq/=.
Qed.

Lemma lookupTransformImpl_exceptions b tgt src time e :
  lookupTransformImpl b tgt src time = Throw e -> e <> AssertionFailure /\ e <> ExtrapolationException.
Proof.
  unfold lookupTransformImpl. destruct (String.eqb tgt src); [done|].
  unfold validateFrameId_throw. split_ifs; try (intros; simplify_eq/=; done). simpl.
  pose proof (walkToTopParent_codes (getFrame b) gather_codes) as H.
  match goal with |- context [walkToTopParent ?g ?f ?a ?b ?c] =>
    specialize (H f a b c); destruct (walkToTopParent g f a b c) as [[acc e'] ch] end.
  simpl in H. case_bool_decide; [done|]. intros [= <-]. by destruct e'.
Qed.
End Agreement.
