(* ===== verification/BufferFacts.v ===== *)
(** * Invariants and correctness of the tf2 transform buffer

    The theorems about [BufferCore]: the frame registry and the invariant of
    the whole state, preserved by every operation; totality of
    [setTransform]; the processing of pending requests; what a stored static
    transform looks like to a later lookup; time stamps. *)

From Stdlib Require Import ZArith Lia Ascii Ring.
From stdpp Require Import base numbers list gmap strings.
From S2P Require Import Prelude LinearMath TimeCache TfWalk BufferCore.

Section Invariant.
Context {T CB : Type} {S : Scalar T}.
Implicit Types (b : BufferCore T CB) (s : string) (id : N).

(** The registry: names and numbers in bijection, one slot per number. *)
Record registry_ok b : Prop := {
  reg_len : length (frameIDs_reverse_ b) = length (frames_ b);
  reg_bound : (length (frames_ b) <= N.to_nat (2 ^ 32))%nat;
  reg_bij : forall s id, frameIDs_ b !! s = Some id <-> frameIDs_reverse_ b !! N.to_nat id = Some s;
  reg_null : frameIDs_reverse_ b !! 0%nat = Some NO_PARENT;
}.

(** Entry of the history of frame [id] in a buffer of [n] frames. *)
Definition storage_ok (n : nat) id (st : TransformStorage T) : Prop :=
  child_frame_id_ st = id /\ (N.to_nat (frame_id_ st) < n)%nat.

Definition cache_ok (n : nat) (cache_time : Z) id (c : AnyCache T) : Prop :=
  match c with
  | DynamicCache c =>
      time_sorted c /\ Forall (storage_ok n id) (storage_ c) /\ max_storage_time_ c = cache_time
  | FixedCache c => storage_ok n id (static_storage_ c)
  end.

Definition request_ok (n : nat) (r : TransformableRequest) : Prop :=
  (N.to_nat (req_target_id r) < n)%nat /\ (N.to_nat (req_source_id r) < n)%nat.

Record buffer_ok b : Prop := {
  bo_reg : registry_ok b;
  bo_caches : forall id c, getFrame b id = Some c -> cache_ok (length (frames_ b)) (cache_time_ b) id c;
  bo_requests : Forall (request_ok (length (frames_ b))) (transformable_requests_ b);
}.

(** Everything but the frames and the registry is the same. *)
Definition same_rest b b' : Prop :=
  frame_authority_ b' = frame_authority_ b /\ cache_time_ b' = cache_time_ b /\
  transformable_callbacks_ b' = transformable_callbacks_ b /\
  transformable_callbacks_counter_ b' = transformable_callbacks_counter_ b /\
  transformable_requests_ b' = transformable_requests_ b /\
  transformable_requests_counter_ b' = transformable_requests_counter_ b.

(** ** The registry *)

Lemma registry_id_lt b s id :
  registry_ok b -> frameIDs_ b !! s = Some id -> (N.to_nat id < length (frames_ b))%nat.
Proof. intros Hr H%(reg_bij b Hr)%lookup_lt_Some. by rewrite (reg_len b Hr) in H. Qed.

Lemma registry_pos b : registry_ok b -> (0 < length (frames_ b))%nat.
Proof. intros Hr. rewrite <- (reg_len b Hr). eapply lookup_lt_Some, reg_null, Hr. Qed.

Lemma lookupFrameNumber_lt b s : registry_ok b -> (N.to_nat (lookupFrameNumber b s) < length (frames_ b))%nat.
Proof.
  intros Hr. unfold lookupFrameNumber. destruct (frameIDs_ b !! s) eqn:E.
  - by eapply registry_id_lt.
  - by apply registry_pos.
Qed.

Lemma lookupFrameString_ok b id :
  registry_ok b -> (N.to_nat id < length (frames_ b))%nat -> exists s, lookupFrameString b id = Ok s.
Proof.
  intros Hr Hid. unfold lookupFrameString. rewrite <- (reg_len b Hr) in Hid.
  apply lookup_lt_is_Some in Hid as [s ->]. eauto.
Qed.

Lemma getFrame_snoc b id :
  (match (frames_ b ++ [None]) !! N.to_nat id with Some c => c | None => None end) = getFrame b id.
Proof.
  unfold getFrame. destruct (decide (N.to_nat id < length (frames_ b))%nat) as [H|H].
  - by rewrite lookup_app_l.
  - rewrite lookup_app_r by lia. rewrite (lookup_ge_None_2 (frames_ b)) by lia.
    by destruct (N.to_nat id - length (frames_ b))%nat.
Qed.

Lemma lookupOrInsert_spec b s b' id :
  registry_ok b -> (length (frames_ b) < N.to_nat (2 ^ 32))%nat ->
  lookupOrInsertFrameNumber b s = (b', id) ->
  registry_ok b' /\ frameIDs_ b' !! s = Some id /\
  (forall s' i, frameIDs_ b !! s' = Some i -> frameIDs_ b' !! s' = Some i) /\
  (forall i, getFrame b' i = getFrame b i) /\
  (length (frames_ b) <= length (frames_ b') <= Datatypes.S (length (frames_ b)))%nat /\
  same_rest b b'.
Proof.
  intros Hr Hlen. unfold lookupOrInsertFrameNumber.
  destruct (frameIDs_ b !! s) as [i|] eqn:E; intros [= <- <-].
  { split_and!; try done; lia. }
  set (n := length (frames_ b)) in *.
  assert (Hid : (N.of_nat n mod 2 ^ 32)%N = N.of_nat n) by (apply N.mod_small; lia).
  rewrite Hid. split_and!; try done; cbn [frames_ frameIDs_].
  - destruct Hr as [R1 R2 R3 R4]. fold n in R1, R2.
    constructor; cbn [frames_ frameIDs_ frameIDs_reverse_].
    + rewrite !length_app. simpl. fold n. lia.
    + rewrite length_app. simpl. fold n. lia.
    + intros s' i. destruct (decide (s' = s)) as [->|Hs].
      * rewrite lookup_insert_eq. split.
        -- intros [= <-]. rewrite Nat2N.id, <- R1. by rewrite lookup_app_r, Nat.sub_diag by lia.
        -- intros Hl. apply lookup_app_Some in Hl as [Hl|[Hge Hl]].
           ++ apply R3 in Hl. congruence.
           ++ apply list_lookup_singleton_Some in Hl as [Hl _]. f_equal. lia.
      * rewrite lookup_insert_ne by done. rewrite R3. split.
        -- intros Hl. by apply lookup_app_l_Some.
        -- intros Hl. apply lookup_app_Some in Hl as [Hl|[Hge Hl]]; [done|].
           apply list_lookup_singleton_Some in Hl as [_ Hl]. congruence.
    + by apply lookup_app_l_Some.
  - by rewrite lookup_insert_eq.
  - intros s' i Hs'. rewrite lookup_insert_ne; [done|congruence].
  - intros i. unfold getFrame at 1. cbn [frames_]. apply getFrame_snoc.
  - rewrite length_app. fold n. lia.
  - rewrite length_app. simpl. fold n. lia.
Qed.

(** ** Insertion *)

Lemma cache_ok_mono n n' ct id c : (n <= n')%nat -> cache_ok n ct id c -> cache_ok n' ct id c.
Proof.
  intros Hn. assert (Hs : forall st, storage_ok n id st -> storage_ok n' id st).
  { intros st [? ?]. split; [done|lia]. }
  destruct c as [c|c]; simpl; [|apply Hs]. intros (? & Hc & ?). split_and!; [done| |done].
  eapply Forall_impl; eauto.
Qed.

Lemma request_ok_mono n n' r : (n <= n')%nat -> request_ok n r -> request_ok n' r.
Proof. intros Hn [? ?]. split; lia. Qed.

Lemma insertData_ok n ct id (c : AnyCache T) d :
  cache_ok n ct id c -> storage_ok n id d -> cache_ok n ct id (insertData c d).1.
Proof.
  intros Hc Hd. destruct c as [c|c]; simpl in *; [|done].
  pose proof (insertData_elem c d) as He. pose proof (insertData_sorted c d) as Hs.
  pose proof (insertData_max c d) as Hm.
  destruct (TimeCache_insertData c d) as [c' r]. simpl in *.
  destruct Hc as (Hsort & Hall & Hmax). split_and!; [by apply Hs| |congruence].
  rewrite Forall_forall in Hall |- *. intros s [->|Hin]%He; [done|by apply Hall].
Qed.

Lemma clearList_ok n ct id (c : AnyCache T) : cache_ok n ct id c -> cache_ok n ct id (clearList c).
Proof.
  destruct c as [c|c]; simpl; [|done]. intros (_ & _ & ?). split_and!; [|constructor|done].
  constructor.
Qed.

Lemma getFrame_insert b id c i :
  (N.to_nat id < length (frames_ b))%nat ->
  getFrame (set_frames b (<[N.to_nat id := Some c]> (frames_ b))) i =
  if decide (i = id) then Some c else getFrame b i.
Proof.
  intros Hid. unfold getFrame. cbn [set_frames frames_]. destruct (decide (i = id)) as [->|Hne].
  - by rewrite list_lookup_insert_eq.
  - rewrite list_lookup_insert_ne; [done|]. intros H. apply Hne. lia.
Qed.

(** The outcome of [insertTransform], field by field. *)
Lemma insertTransform_spec b tf parent child stamp auth st b' ok :
  registry_ok b -> (length (frames_ b) + 1 < N.to_nat (2 ^ 32))%nat ->
  insertTransform b tf parent child stamp auth st = (b', ok) ->
  exists cid pid,
    let d := mkTransformStorage (Transform_getRotation tf) (m_origin tf) stamp pid cid in
    let d0 := mkTransformStorage (Transform_getRotation tf) (m_origin tf) stamp 0 cid in
    let r := insertData (cache_for b cid st d0) d in
    registry_ok b' /\ frameIDs_ b' !! child = Some cid /\ frameIDs_ b' !! parent = Some pid /\
    (forall s i, frameIDs_ b !! s = Some i -> frameIDs_ b' !! s = Some i) /\
    (length (frames_ b) <= length (frames_ b'))%nat /\
    ok = r.2 /\ (forall i, getFrame b' i = if decide (i = cid) then Some r.1 else getFrame b i) /\
    cache_time_ b' = cache_time_ b /\
    transformable_callbacks_ b' = transformable_callbacks_ b /\
    transformable_requests_ b' = transformable_requests_ b.
Proof.
  intros Hr Hlen. unfold insertTransform.
  destruct (lookupOrInsertFrameNumber b child) as [b1 cid] eqn:E1.
  destruct (lookupOrInsert_spec b child b1 cid Hr) as (Hr1 & Hc1 & Hk1 & Hg1 & Hl1 & Hs1); [lia|done|].
  destruct (lookupOrInsertFrameNumber b1 parent) as [b2 pid] eqn:E2.
  destruct (lookupOrInsert_spec b1 parent b2 pid Hr1) as (Hr2 & Hc2 & Hk2 & Hg2 & Hl2 & Hs2); [lia|done|].
  set (d0 := mkTransformStorage _ _ _ 0%N _). set (d := mkTransformStorage _ _ _ pid _).
  assert (Hcf : cache_for b1 cid st d0 = cache_for b cid st d0).
  { unfold cache_for, allocateFrame. rewrite Hg1. by destruct Hs1 as (_ & -> & _). }
  rewrite Hcf. destruct (insertData _ d) as [fr ok'] eqn:Ei.
  assert (Hcid : (N.to_nat cid < length (frames_ b2))%nat).
  { pose proof (registry_id_lt b1 child cid Hr1 Hc1). lia. }
  destruct Hs1 as (_ & T1 & C1 & _ & Q1 & _), Hs2 as (_ & T2 & C2 & _ & Q2 & _).
  intros Hb. exists cid, pid. cbv zeta. fold d d0. rewrite Ei. simpl.
  assert (Hfields : frames_ b' = <[N.to_nat cid:=Some fr]> (frames_ b2) /\
    frameIDs_ b' = frameIDs_ b2 /\ frameIDs_reverse_ b' = frameIDs_reverse_ b2 /\
    cache_time_ b' = cache_time_ b2 /\ transformable_callbacks_ b' = transformable_callbacks_ b2 /\
    transformable_requests_ b' = transformable_requests_ b2 /\ ok = ok').
  { destruct ok'; simplify_eq; done. }
  destruct Hfields as (F1 & F2 & F3 & F4 & F5 & F6 & ->).
  split_and!; try congruence.
  - destruct Hr2. constructor; rewrite ?F1, ?F2, ?F3, ?length_insert; done.
  - rewrite F2. by apply Hk2.
  - rewrite F2. auto.
  - rewrite F1, length_insert. lia.
  - intros i. unfold getFrame at 1. rewrite F1. fold (getFrame b2 i).
    pose proof (getFrame_insert b2 cid fr i Hcid) as Hg. unfold getFrame at 1 in Hg.
    cbn [set_frames frames_] in Hg. rewrite Hg, Hg2, Hg1. done.
Qed.
End Invariant.

(** ** Pending requests *)

Section Requests.
Context {T CB : Type} {S : Scalar T}.
Implicit Types (b : BufferCore T CB) (r : TransformableRequest) (cbs : gmap Z CB).

(** The request is due: its callback is to be called now. *)
Definition due b r : bool := bool_decide (is_Some (request_verdict b (resolve_request b r))).

Definition frame_name b (id : N) : string :=
  match lookupFrameString b id with Ok s => s | Throw _ => EmptyString end.

(** The call a due request gives rise to, if it still has a callback. *)
Definition call_of b cbs r : option (CallbackCall CB) :=
  let r := resolve_request b r in
  match request_verdict b r, cbs !! cb_handle r with
  | Some result, Some cb =>
      Some (mkCall cb (request_handle r) (frame_name b (req_target_id r))
              (frame_name b (req_source_id r)) (req_time r) result)
  | _, _ => None
  end.

Definition still_pending b (l : list TransformableRequest) : list TransformableRequest :=
  map (resolve_request b) (filter (fun r => due b r = false) l).

Lemma replace_by_last (l : list TransformableRequest) :
  match last l with None => [] | Some r => r :: removelast l end ≡ₚ l.
Proof.
  destruct (last l) as [r|] eqn:E; [|by apply last_None in E as ->].
  apply last_Some in E as [l' ->]. rewrite removelast_last. apply Permutation_cons_append.
Qed.

Lemma resolve_request_ok b r :
  registry_ok b -> request_ok (length (frames_ b)) r ->
  request_ok (length (frames_ b)) (resolve_request b r).
Proof.
  intros Hr [H1 H2]. split; simpl; destruct (_ =? 0)%N; auto using lookupFrameNumber_lt.
Qed.

Lemma call_of_delete b cbs h r :
  cb_handle r <> h -> call_of b (delete h cbs) r = call_of b cbs r.
Proof. intros Hh. unfold call_of. cbn [resolve_request cb_handle]. by rewrite lookup_delete_ne. Qed.

Definition replaced_by_last (l : list TransformableRequest) : list TransformableRequest :=
  match last l with None => [] | Some r => r :: removelast l end.

(** One iteration on a due request ... *)
Lemma test_requests_due n b done_ r todo cbs calls :
  registry_ok b -> request_ok (length (frames_ b)) r -> due b r = true ->
  test_requests (Datatypes.S n) b done_ (r :: todo) cbs calls =
  test_requests n b done_ (replaced_by_last todo) (delete (cb_handle r) cbs)
    (calls ++ omap (call_of b cbs) [r]).
Proof.
  intros Hr Hro Hdue. apply bool_decide_eq_true in Hdue as [v Ev].
  pose proof (resolve_request_ok b r Hr Hro) as [Ht Hs].
  apply (lookupFrameString_ok b _ Hr) in Ht as [t Et], Hs as [s Es].
  cbn [test_requests omap list_omap]. unfold call_of, frame_name. rewrite Ev.
  cbn [cb_handle resolve_request]. destruct (cbs !! cb_handle r) eqn:Ecb.
  - by rewrite Et, Es.
  - by rewrite app_nil_r, delete_id.
Qed.

(** ... and on one that is not. *)
Lemma test_requests_kept n b done_ r todo cbs calls :
  due b r = false ->
  test_requests (Datatypes.S n) b done_ (r :: todo) cbs calls =
  test_requests n b (done_ ++ [resolve_request b r]) todo cbs calls /\ call_of b cbs r = None.
Proof.
  intros Hdue. apply bool_decide_eq_false in Hdue. cbn [test_requests]. unfold call_of.
  destruct (request_verdict _ _) as [v|]; [by destruct Hdue|done].
Qed.

Lemma calls_after_due b cbs r todo :
  NoDup (map cb_handle (r :: todo)) ->
  omap (call_of b cbs) [r] ++ omap (call_of b (delete (cb_handle r) cbs)) todo =
  omap (call_of b cbs) (r :: todo).
Proof.
  intros [Hnin Hnd]%NoDup_cons. change (r :: todo) with ([r] ++ todo). rewrite omap_app. f_equal.
  apply list_omap_ext, Forall_Forall2_diag, Forall_forall. intros x Hx. apply call_of_delete.
  intros E. apply Hnin. rewrite <- E. by apply list_elem_of_fmap_2.
Qed.

(** The callbacks left: those of requests that were not due. *)
Definition callbacks_left b cbs (todo : list TransformableRequest) (cbs' : gmap Z CB) : Prop :=
  forall h, cbs' !! h = if bool_decide (h ∈ map cb_handle (filter (fun r => due b r = true) todo))
                        then None else cbs !! h.

Lemma callbacks_left_due b cbs r todo cbs' :
  due b r = true -> callbacks_left b (delete (cb_handle r) cbs) todo cbs' ->
  callbacks_left b cbs (r :: todo) cbs'.
Proof.
  intros Hdue H h. rewrite (H h), filter_cons_True by done. cbn [map].
  destruct (decide (h = cb_handle r)) as [->|Hne].
  - rewrite lookup_delete_eq. rewrite (bool_decide_eq_true_2 (_ ∈ _ :: _)) by set_solver.
    by case_bool_decide.
  - rewrite lookup_delete_ne by done. repeat case_bool_decide; set_solver.
Qed.

Lemma test_requests_spec b n done_ todo cbs calls :
  registry_ok b -> Forall (request_ok (length (frames_ b))) todo -> (length todo < n)%nat ->
  exists rs cbs' calls',
    test_requests n b done_ todo cbs calls = Some (Ok (rs, cbs', calls')) /\
    rs ≡ₚ done_ ++ still_pending b todo /\
    (NoDup (map cb_handle todo) ->
      calls' ≡ₚ calls ++ omap (call_of b cbs) todo /\ callbacks_left b cbs todo cbs').
Proof.
  intros Hr. revert done_ todo cbs calls. induction n as [|n IH]; intros done_ todo cbs calls Ht Hn; [lia|].
  destruct todo as [|r todo].
  { exists done_, cbs, calls. rewrite !app_nil_r. done. }
  simpl in Hn. apply Forall_cons in Ht as [Hro Ht].
  destruct (due b r) eqn:Hdue.
  - rewrite test_requests_due by done. pose proof (replace_by_last todo) as Hp.
    fold (replaced_by_last todo) in Hp. set (todo' := replaced_by_last todo) in *.
    destruct (IH done_ todo' (delete (cb_handle r) cbs) (calls ++ omap (call_of b cbs) [r]))
      as (rs & cbs' & calls' & H1 & H2 & H3); [by rewrite Hp|rewrite Hp; lia|].
    exists rs, cbs', calls'. split; [done|]. split.
    + rewrite H2. unfold still_pending. rewrite filter_cons_False by congruence. by rewrite Hp.
    + intros Hnd. destruct H3 as [H3 H4]; [rewrite Hp; by apply NoDup_cons in Hnd as [_ Hnd]|]. split.
      * rewrite H3, <- app_assoc, <- (calls_after_due b cbs r todo) by done. by rewrite Hp.
      * apply callbacks_left_due; [done|]. intros h. rewrite (H4 h).
        by rewrite (bool_decide_ext _ (h ∈ map cb_handle (filter (fun r => due b r = true) todo)))
          by (by rewrite Hp).
  - destruct (test_requests_kept n b done_ r todo cbs calls Hdue) as [-> Hc].
    destruct (IH (done_ ++ [resolve_request b r]) todo cbs calls) as (rs & cbs' & calls' & H1 & H2 & H3);
      [done|lia|].
    exists rs, cbs', calls'. split; [done|]. split.
    + rewrite H2. unfold still_pending. rewrite filter_cons_True by done. cbn [map].
      by rewrite <- app_assoc.
    + intros Hnd. apply NoDup_cons in Hnd as [_ Hnd]. destruct (H3 Hnd) as [H4 H5]. split.
      * rewrite H4. f_equiv. simpl. by rewrite Hc.
      * intros h. rewrite filter_cons_False by congruence. apply H5.
Qed.
End Requests.

(** ** Operations preserve the invariant *)

Section Operations.
Context {T CB : Type} {S : Scalar T}.
Implicit Types (b : BufferCore T CB) (r : TransformableRequest).

(** Every pending request has its own callback, and there are no others. *)
Definition callbacks_ok b : Prop :=
  NoDup (map cb_handle (transformable_requests_ b)) /\
  forall h, is_Some (transformable_callbacks_ b !! h) <-> h ∈ map cb_handle (transformable_requests_ b).

Definition room b (n : nat) : Prop := (length (frames_ b) + n <= N.to_nat (2 ^ 32))%nat.

Lemma BufferCore_init_ok ct : buffer_ok (BufferCore_init (T := T) (CB := CB) ct).
Proof.
  constructor; [constructor| |constructor]; simpl; try done.
  - lia.
  - intros s id. destruct (decide (s = NO_PARENT)) as [->|Hs].
    + rewrite lookup_singleton_eq. split; [by intros [= <-]|].
      intros H%list_lookup_singleton_Some. f_equal. lia.
    + rewrite lookup_singleton_ne by done. split; [done|].
      intros [_ H]%list_lookup_singleton_Some. congruence.
  - intros id c. unfold getFrame. simpl. destruct (N.to_nat id) as [|n]; simpl; [done|].
    by destruct n.
Qed.

Lemma cache_for_ok b n id st d0 :
  (forall c, getFrame b id = Some c -> cache_ok n (cache_time_ b) id c) ->
  storage_ok n id d0 -> cache_ok n (cache_time_ b) id (cache_for b id st d0).
Proof.
  intros Hc Hd. unfold cache_for, allocateFrame.
  assert (Hdyn : cache_ok (T := T) n (cache_time_ b) id (DynamicCache (mkTimeCache [] (cache_time_ b)))).
  { split_and!; [constructor|constructor|done]. }
  destruct (getFrame b id) as [[c|c]|]; destruct st; simpl negb; cbv iota; try done; by apply Hc.
Qed.

Lemma insertTransform_ok b tf parent child stamp auth st b' ok :
  buffer_ok b -> room b 2 ->
  insertTransform b tf parent child stamp auth st = (b', ok) -> buffer_ok b'.
Proof.
  intros [Hr Hc Hq] Hroom Hi. unfold room in Hroom.
  destruct (insertTransform_spec b tf parent child stamp auth st b' ok Hr) as
    (cid & pid & Hr' & Hcid & Hpid & Hk & Hl & _ & Hg & Ht & _ & Hreq); [lia|done|].
  set (d := mkTransformStorage _ _ stamp pid cid) in *.
  set (d0 := mkTransformStorage _ _ stamp 0%N cid) in *.
  constructor; [done| |].
  - intros id c. rewrite Hg, Ht. case_decide as Hid.
    + intros [= <-]. subst id. apply insertData_ok.
      * apply cache_for_ok.
        -- intros c0 Hc0. eapply cache_ok_mono; [done|by apply Hc].
        -- split; [done|]. by apply registry_pos.
      * split; [done|]. by eapply registry_id_lt.
    + intros Hid'. eapply cache_ok_mono; [done|by apply Hc].
  - rewrite Hreq. eapply Forall_impl; [done|]. intros r. by apply request_ok_mono.
Qed.

Lemma set_requests_ok b cbs cc rs rc :
  buffer_ok b -> Forall (request_ok (length (frames_ b))) rs -> buffer_ok (set_requests b cbs cc rs rc).
Proof. intros [[] Hc _] Hrs. constructor; [constructor|..]; done. Qed.

Lemma still_pending_ok b l :
  registry_ok b -> Forall (request_ok (length (frames_ b))) l ->
  Forall (request_ok (length (frames_ b))) (still_pending b l).
Proof.
  intros Hr Hl. unfold still_pending. apply Forall_map. rewrite Forall_forall in Hl |- *.
  intros r [_ Hin]%list_elem_of_filter. by apply resolve_request_ok, Hl.
Qed.

Lemma testTransformableRequests_ok b :
  buffer_ok b -> exists b' calls,
    testTransformableRequests b = Some (Ok (b', calls)) /\ buffer_ok b' /\
    frames_ b' = frames_ b /\ frameIDs_ b' = frameIDs_ b.
Proof.
  intros Hb. unfold testTransformableRequests.
  destruct (test_requests_spec b (Datatypes.S (length (transformable_requests_ b))) []
    (transformable_requests_ b) (transformable_callbacks_ b) [] (bo_reg b Hb) (bo_requests b Hb))
    as (rs & cbs' & calls' & -> & Hp & _); [lia|].
  eexists _, _. split; [done|]. split; [|done]. apply set_requests_ok; [done|].
  rewrite Hp. apply still_pending_ok; [apply Hb|apply Hb].
Qed.

Lemma setTransformImpl_ok b tf parent child stamp auth st :
  buffer_ok b -> room b 2 ->
  exists b' ok calls,
    setTransformImpl b tf parent child stamp auth st = Some (Ok (b', ok, calls)) /\ buffer_ok b'.
Proof.
  intros Hb Hroom. unfold setTransformImpl.
  destruct (transform_rejected _ _ _); [eauto 10|].
  destruct (insertTransform b tf _ _ stamp auth st) as [b1 ok] eqn:Ei.
  assert (Hb1 : buffer_ok b1) by (by eapply insertTransform_ok).
  destruct ok; [|eauto 10].
  destruct (testTransformableRequests_ok b1 Hb1) as (b2 & calls & -> & Hb2 & _). eauto 10.
Qed.

Lemma clear_ok b : buffer_ok b -> buffer_ok (clear b).
Proof.
  intros [Hr Hc Hq]. unfold clear. destruct (frames_ b) as [|f0 fs] eqn:Ef.
  { constructor; [done|rewrite Ef; done..]. }
  set (fs' := f0 :: map (option_map clearList) fs).
  assert (Hlen : length fs' = length (frames_ b)) by (rewrite Ef; simpl; by rewrite length_map).
  constructor.
  - destruct Hr. constructor; simpl frames_; rewrite ?Hlen; done.
  - intros id c. unfold getFrame. cbn [set_frames frames_ cache_time_]. rewrite Hlen. subst fs'.
    destruct (N.to_nat id) as [|i] eqn:Ei; simpl.
    + intros Hf0. specialize (Hc id c). unfold getFrame in Hc.
      rewrite Ef, Ei in Hc. simpl in Hc. rewrite Ef. by apply Hc.
    + rewrite list_lookup_fmap. intros Hi. specialize (Hc id).
      unfold getFrame in Hc. rewrite Ef, Ei in Hc. simpl in Hc.
      destruct (fs !! i) as [[c0|]|]; simpl in Hi; try done. injection Hi as <-.
      rewrite Ef. apply clearList_ok. by apply Hc.
  - cbn [set_frames frames_ transformable_requests_]. rewrite Hlen. by rewrite Ef.
Qed.

Lemma cancel_ok b h : buffer_ok b -> buffer_ok (cancelTransformableRequest b h).
Proof.
  intros Hb. apply set_requests_ok; [done|]. destruct Hb as [_ _ Hq].
  rewrite Forall_forall in Hq |- *. intros r [_ Hin]%list_elem_of_filter. by apply Hq.
Qed.

Lemma addTransformableRequest_ok b cb tgt src time b' h :
  buffer_ok b -> addTransformableRequest b cb tgt src time = Some (b', h) -> buffer_ok b'.
Proof.
  intros Hb. unfold addTransformableRequest.
  destruct (String.eqb _ _); [by intros [= <- _]|].
  destruct (canTransformInternal _ _ _ _); [by intros [= <- _]|].
  destruct (_ && _)%bool; [by intros [= <- _]|].
  destruct (fresh_handle _ _ _) as [hd|]; [|done]. intros [= <- _].
  apply set_requests_ok; [done|]. apply Forall_app. split; [apply Hb|].
  constructor; [|constructor]. split; simpl; apply lookupFrameNumber_lt, Hb.
Qed.

(** ** Reachable buffers *)

(** One public call that changes the buffer. *)
Inductive step : BufferCore T CB -> BufferCore T CB -> Prop :=
| step_setTransform b m auth st b' ok calls :
    room b 2 -> setTransform b m auth st = Some (Ok (b', ok, calls)) -> step b b'
| step_clear b : step b (clear b)
| step_addTransformableRequest b cb tgt src time b' h :
    addTransformableRequest b cb tgt src time = Some (b', h) -> step b b'
| step_cancelTransformableRequest b h : step b (cancelTransformableRequest b h).

Definition reachable (ct : Z) b : Prop := rtc step (BufferCore_init ct) b.

Lemma step_ok b b' : step b b' -> buffer_ok b -> buffer_ok b'.
Proof.
  destruct 1 as [b m auth st b' ok calls Hroom Hs|b|b cb tgt src time b' h Ha|b h]; intros Hb.
  - unfold setTransform in Hs.
    edestruct (setTransformImpl_ok b) as (b1 & ok1 & c1 & E & Hb1); [done|done|].
    rewrite E in Hs. by simplify_eq.
  - by apply clear_ok.
  - by eapply addTransformableRequest_ok.
  - by apply cancel_ok.
Qed.

Lemma reachable_ok ct b : reachable ct b -> buffer_ok b.
Proof.
  unfold reachable. intros H. remember (BufferCore_init ct) as b0 eqn:E.
  assert (Hb : buffer_ok b0) by (subst; apply BufferCore_init_ok). clear E.
  induction H; eauto using step_ok.
Qed.
End Operations.

(** ** Request handles *)

Section Handles.
Context {T CB : Type} {S : Scalar T}.
Implicit Types (b : BufferCore T CB) (r : TransformableRequest) (cbs : gmap Z CB).

Lemma fresh_handle_None n cbs c i :
  fresh_handle n cbs c = None -> 0 < i <= Z.of_nat n -> is_Some (cbs !! u32 (c + i)).
Proof.
  revert c i. induction n as [|n IH]; intros c i; [lia|]. cbn [fresh_handle].
  destruct (cbs !! u32 (c + 1)) as [cb|] eqn:E; [|done]. intros H Hi.
  destruct (decide (i = 1)) as [->|]; [eauto|].
  specialize (IH _ (i - 1) H). rewrite wrap_u_add_l in IH.
  replace (c + 1 + (i - 1)) with (c + i) in IH by lia. apply IH. lia.
Qed.

Lemma fresh_handle_Some n cbs c h : fresh_handle n cbs c = Some h -> cbs !! h = None.
Proof.
  revert c. induction n as [|n IH]; intros c; [done|]. cbn [fresh_handle].
  destruct (cbs !! u32 (c + 1)) as [cb|] eqn:E; [apply IH|by intros [= <-]].
Qed.

(** Pigeonhole: one more attempt than there are callbacks is enough. *)
Lemma fresh_handle_total cbs c :
  Z.of_nat (size cbs) < 2 ^ 32 -> is_Some (fresh_handle (Datatypes.S (size cbs)) cbs c).
Proof.
  intros Hsize. destruct (fresh_handle _ cbs c) as [h|] eqn:E; [eauto|exfalso].
  pose proof (fun i => fresh_handle_None _ _ _ i E) as H. clear E.
  set (l := (fun i => u32 (c + i)) <$> seqZ 1 (Z.of_nat (Datatypes.S (size cbs)))).
  assert (Hnd : NoDup l).
  { apply NoDup_fmap_2_strong; [|apply NoDup_seqZ].
    intros x y Hx%elem_of_seqZ Hy%elem_of_seqZ Hxy. unfold wrap_u in Hxy.
    assert (Hd : (x - y) mod 2 ^ 32 = 0).
    { replace (x - y) with ((c + x) - (c + y)) by lia. by rewrite Zminus_mod, Hxy, Z.sub_diag. }
    apply Z.mod_divide in Hd as [k Hk]; [|lia]. nia. }
  assert (Hsub : list_to_set l ⊆@{gset Z} dom cbs).
  { intros h. rewrite elem_of_list_to_set, elem_of_dom. unfold l.
    rewrite list_elem_of_fmap. intros (i & -> & Hi%elem_of_seqZ). apply H. lia. }
  apply subseteq_size in Hsub. rewrite size_list_to_set, size_dom in Hsub by done.
  unfold l in Hsub. rewrite length_fmap, length_seqZ in Hsub. lia.
Qed.
End Handles.

(** ** Correctness of the buffer *)

Section Correctness.
Context {T CB : Type} {S : Scalar T}.
Implicit Types (b : BufferCore T CB) (r : TransformableRequest) (s : string).

Lemma registry_roundtrip b s :
  registry_ok b -> frameExists b s = true -> lookupFrameString b (lookupFrameNumber b s) = Ok s.
Proof.
  intros Hr [id Hs]%bool_decide_eq_true. unfold lookupFrameNumber. rewrite Hs.
  apply (reg_bij b Hr) in Hs. unfold lookupFrameString. by rewrite Hs.
Qed.

Lemma registry_roundtrip_r b id s :
  registry_ok b -> lookupFrameString b id = Ok s -> frameIDs_ b !! s = Some id.
Proof.
  intros Hr. unfold lookupFrameString.
  destruct (frameIDs_reverse_ b !! N.to_nat id) as [s'|] eqn:E; [|done]. intros [= ->].
  by apply (reg_bij b Hr).
Qed.

Lemma setTransformImpl_ids b tf parent child stamp auth st b' ok calls s id :
  buffer_ok b -> room b 2 ->
  setTransformImpl b tf parent child stamp auth st = Some (Ok (b', ok, calls)) ->
  frameIDs_ b !! s = Some id -> frameIDs_ b' !! s = Some id.
Proof.
  intros Hb Hroom. unfold setTransformImpl. destruct (transform_rejected _ _ _); [by intros [= <- _]|].
  destruct (insertTransform b tf _ _ stamp auth st) as [b1 ok1] eqn:Ei.
  pose proof (insertTransform_ok _ _ _ _ _ _ _ _ _ Hb Hroom Ei) as Hb1.
  apply insertTransform_spec in Ei as (cid & pid & _ & _ & _ & Hk & _); [|apply Hb|unfold room in Hroom; lia].
  destruct ok1; [|by intros [= <- _]; auto].
  destruct (testTransformableRequests_ok b1 Hb1) as (b2 & c2 & -> & _ & _ & Hids).
  intros [= <- _ _] Hs. rewrite Hids. auto.
Qed.

Lemma step_ids b b' s id :
  buffer_ok b -> step b b' -> frameIDs_ b !! s = Some id -> frameIDs_ b' !! s = Some id.
Proof.
  intros Hb. destruct 1 as [b m auth st b' ok calls Hroom Hs|b|b cb tgt src time b' h Ha|b h].
  - by eapply setTransformImpl_ids.
  - unfold clear. by destruct (frames_ b).
  - revert Ha. unfold addTransformableRequest.
    destruct (String.eqb _ _); [by intros [= <- _]|].
    destruct (canTransformInternal _ _ _ _); [by intros [= <- _]|].
    destruct (_ && _)%bool; [by intros [= <- _]|].
    destruct (fresh_handle _ _ _); [|done]. by intros [= <- _].
  - done.
Qed.

(** frame numbers and frame names correspond one to one in every
    reachable buffer, in both directions, and a frame keeps its number
    whatever is called next. *)
Theorem reachable_registry ct b :
  reachable ct b ->
  (forall s, frameExists b s = true -> lookupFrameString b (lookupFrameNumber b s) = Ok s) /\
  (forall id s, lookupFrameString b id = Ok s ->
     frameExists b s = true /\ lookupFrameNumber b s = id) /\
  (forall b' s, step b b' -> frameExists b s = true ->
     frameExists b' s = true /\ lookupFrameNumber b' s = lookupFrameNumber b s).
Proof.
  intros Hb%reachable_ok. split_and!.
  - intros s. apply registry_roundtrip, Hb.
  - intros id s Hs%registry_roundtrip_r; [|apply Hb]. unfold frameExists, lookupFrameNumber.
    rewrite Hs. by rewrite bool_decide_eq_true_2.
  - intros b' s Hstep [id Hs]%bool_decide_eq_true. unfold frameExists, lookupFrameNumber.
    rewrite Hs, (step_ids b b' s id Hb Hstep Hs). by rewrite bool_decide_eq_true_2.
Qed.

(** C3: [setTransform] is total on reachable buffers: while there is room
    for two more frame numbers, it terminates without an exception, for
    any message; every cache is then sorted, holds only transforms of its
    own frame whose parent is a known frame, and keeps the buffer's
    storage time; a rejected transform changes nothing and calls no one. *)
Theorem setTransform_total ct b m auth st :
  reachable ct b -> room b 2 ->
  exists b' ok calls,
    setTransform b m auth st = Some (Ok (b', ok, calls)) /\
    (forall id c, getFrame b' id = Some c -> cache_ok (length (frames_ b')) (cache_time_ b') id c) /\
    (transform_rejected (Transform_of (ts_rotation m) (ts_translation m))
       (stripSlash (ts_frame_id m)) (stripSlash (ts_child_frame_id m)) = true ->
     b' = b /\ ok = false /\ calls = []).
Proof.
  intros Hb%reachable_ok Hroom. unfold setTransform.
  destruct (setTransformImpl_ok b (Transform_of (ts_rotation m) (ts_translation m)) (ts_frame_id m)
    (ts_child_frame_id m) (stamp_of_msg m) auth st Hb Hroom) as (b' & ok & calls & E & Hb').
  exists b', ok, calls. split; [done|]. split; [apply Hb'|].
  intros Hrej. unfold setTransformImpl in E. rewrite Hrej in E. by simplify_eq.
Qed.

Lemma call_of_due b r :
  due b r = true -> is_Some (transformable_callbacks_ b !! cb_handle r) ->
  is_Some (call_of b (transformable_callbacks_ b) r).
Proof.
  intros [v Hv]%bool_decide_eq_true [cb Hcb]. unfold call_of. rewrite Hv.
  cbn [resolve_request cb_handle]. rewrite Hcb. eauto.
Qed.

Lemma handles_pending b (l : list TransformableRequest) :
  map cb_handle (still_pending b l) = map cb_handle (filter (fun r => due b r = false) l).
Proof. unfold still_pending. rewrite map_map. done. Qed.

Lemma handle_due_or_pending b (l : list TransformableRequest) h :
  NoDup (map cb_handle l) ->
  h ∈ map cb_handle (filter (fun r => due b r = false) l) <->
  h ∈ map cb_handle l /\ h ∉ map cb_handle (filter (fun r => due b r = true) l).
Proof.
  intros Hnd. rewrite !list_elem_of_fmap. split.
  - intros (r & -> & [Hr Hin]%list_elem_of_filter). split; [eauto|].
    intros (r' & Hh & [Hr' Hin']%list_elem_of_filter).
    assert (r = r') as <-; [|congruence].
    apply list_elem_of_lookup in Hin as [i Hi], Hin' as [j Hj].
    assert (i = j) as <-; [|congruence].
    apply (NoDup_lookup (cb_handle <$> l) i j (cb_handle r)); [exact Hnd| |];
      rewrite list_lookup_fmap, ?Hi, ?Hj; simpl; congruence.
  - intros [(r & -> & Hin) Hn]. exists r. split; [done|]. apply list_elem_of_filter. split; [|done].
    destruct (due b r) eqn:E; [|done]. exfalso. apply Hn. exists r. split; [done|].
    by apply list_elem_of_filter.
Qed.

(** the processing of pending requests is exact. On a reachable buffer
    in which every pending request has its own callback,
    [testTransformableRequests] terminates; it calls, exactly once each,
    the callbacks of the requests that are due, with the result and the
    names of their frames; the others stay pending with their frames
    resolved, and every one of them still has its callback. *)
Theorem testTransformableRequests_exact ct b :
  reachable ct b -> callbacks_ok b ->
  exists b' calls,
    testTransformableRequests b = Some (Ok (b', calls)) /\
    transformable_requests_ b' ≡ₚ still_pending b (transformable_requests_ b) /\
    map Some calls ≡ₚ map (call_of b (transformable_callbacks_ b))
                        (filter (fun r => due b r = true) (transformable_requests_ b)) /\
    callbacks_ok b'.
Proof.
  intros Hb%reachable_ok [Hnd Hcb]. unfold testTransformableRequests.
  set (rs := transformable_requests_ b) in *. set (cbs := transformable_callbacks_ b) in *.
  destruct (test_requests_spec b (Datatypes.S (length rs)) [] rs cbs [] (bo_reg b Hb) (bo_requests b Hb))
    as (rs' & cbs' & calls & -> & Hp & Hx); [lia|]. destruct (Hx Hnd) as [Hcalls Hleft].
  eexists _, _. split; [done|]. split; [done|]. simpl in Hp, Hcalls. split.
  - rewrite Hcalls. clear -Hcb. subst cbs.
    assert (Hall : forall r, r ∈ rs -> is_Some (transformable_callbacks_ b !! cb_handle r)).
    { intros r Hr. apply Hcb. by apply list_elem_of_fmap_2. }
    clear Hcb. induction rs as [|r rs IH]; [done|]. rewrite filter_cons. simpl.
    assert (IH' := IH (fun x Hx => Hall x (list_elem_of_further _ _ _ Hx))).
    destruct (due b r) eqn:E.
    + rewrite decide_True by done.
      destruct (call_of_due b r E (Hall r (list_elem_of_here _ _))) as [x Hx].
      simpl. rewrite Hx. simpl. by f_equiv.
    + rewrite decide_False by done.
      destruct (call_of b (transformable_callbacks_ b) r) eqn:Ec; [|done].
      exfalso. unfold call_of in Ec. apply bool_decide_eq_false in E.
      destruct (request_verdict _ _); [by apply E|done].
  - split; cbn [set_requests transformable_requests_ transformable_callbacks_].
    + rewrite Hp, handles_pending. eapply sublist_NoDup; [exact Hnd|].
      apply fmap_sublist, sublist_filter.
    + intros h. rewrite Hp, handles_pending, handle_due_or_pending by done.
      rewrite (Hleft h). case_bool_decide as Hh; [|rewrite (Hcb h); tauto].
      split; [by intros [? ?]|tauto].
Qed.

(** a request is queued exactly when it is neither satisfied already
    nor hopeless. [addTransformableRequest] terminates while fewer than
    2^32 callbacks are stored; it answers 0 exactly when the transform is
    available now, and then, or when the data is too old, it changes
    nothing; otherwise it appends one request, under the handle it
    returns, whose callback is stored under a key that was free. *)
Theorem addTransformableRequest_spec b cb tgt src time :
  Z.of_nat (size (transformable_callbacks_ b)) < 2 ^ 32 ->
  exists b' h,
    addTransformableRequest b cb tgt src time = Some (b', h) /\
    (h = 0 <-> tgt = src \/
       canTransformInternal b (lookupFrameNumber b tgt) (lookupFrameNumber b src) time = true) /\
    (h = 0 \/ h = request_never -> b' = b) /\
    (h <> 0 -> h <> request_never ->
     exists r, transformable_requests_ b' = transformable_requests_ b ++ [r] /\
       request_handle r = h /\ req_time r = time /\ transformable_callbacks_ b !! cb_handle r = None /\
       transformable_callbacks_ b' = <[cb_handle r := cb]> (transformable_callbacks_ b)) /\
    (callbacks_ok b -> callbacks_ok b').
Proof.
  intros Hsize. unfold addTransformableRequest.
  destruct (String.eqb tgt src) eqn:E.
  { apply String.eqb_eq in E. exists b, 0. split_and!; try done; naive_solver. }
  apply String.eqb_neq in E.
  destruct (canTransformInternal _ _ _ _) eqn:Ec.
  { exists b, 0. split_and!; try done; naive_solver. }
  destruct (_ && _)%bool.
  { exists b, request_never. split_and!; try done; naive_solver. }
  destruct (fresh_handle_total _ (transformable_callbacks_counter_ b) Hsize) as [h Hh]. rewrite Hh.
  apply fresh_handle_Some in Hh.
  set (rh := if (_ || _)%bool then 1 else _).
  assert (Hrh : rh <> 0 /\ rh <> request_never).
  { subst rh. destruct (_ || _)%bool eqn:Eo; [done|]. by bool_to_prop. }
  eexists _, rh. split; [done|]. split; [naive_solver|]. split; [naive_solver|]. split.
  - intros _ _. eexists. split; [reflexivity|]. split_and!; done.
  - intros [Hnd Hk]. split; cbn [set_requests transformable_requests_ transformable_callbacks_];
      rewrite map_app; cbn [map cb_handle].
    + apply NoDup_app. split_and!; [done| |apply NoDup_singleton].
      intros x Hx ->%list_elem_of_singleton. apply Hk in Hx. rewrite Hh in Hx. by destruct Hx.
    + intros k. rewrite elem_of_app, list_elem_of_singleton, <- Hk, lookup_insert_is_Some'. naive_solver.
Qed.

Lemma filter_out_one {A} (f : A -> Z) (l : list A) (x : A) :
  NoDup (map f l) -> x ∈ l ->
  Datatypes.S (length (filter (fun y => f y <> f x) l)) = length l.
Proof.
  induction l as [|y l IH]; [by intros ? ?%not_elem_of_nil|].
  cbn [map]. rewrite NoDup_cons, elem_of_cons. intros [Hy Hnd] [->|Hx]; rewrite filter_cons.
  - rewrite decide_False by auto. cbn [length]. f_equal.
    clear IH Hnd. induction l as [|z l IH]; [done|].
    rewrite filter_cons_True; [cbn [length]; f_equal; apply IH; set_solver|].
    intros Hz. apply Hy. rewrite <- Hz. simpl. apply list_elem_of_here.
  - rewrite decide_True; [cbn [length]; f_equal; by apply IH|].
    intros Hxy. apply Hy. rewrite Hxy. by apply list_elem_of_fmap_2.
Qed.

(** what [cancelTransformableRequest] does. The cancelled request
    leaves the queue, the others stay in order; but the callback that is
    erased is always that of the last request of the queue.  So
    cancelling any other request leaves the last one pending without a
    callback, and the cancelled request's callback stored. *)
Theorem cancel_erases_last b r z :
  NoDup (map request_handle (transformable_requests_ b)) ->
  r ∈ transformable_requests_ b -> last (transformable_requests_ b) = Some z ->
  let b' := cancelTransformableRequest b (request_handle r) in
  (forall q, q ∈ transformable_requests_ b' <->
     q ∈ transformable_requests_ b /\ request_handle q <> request_handle r) /\
  transformable_callbacks_ b' = delete (cb_handle z) (transformable_callbacks_ b) /\
  (request_handle r <> request_handle z ->
   z ∈ transformable_requests_ b' /\ transformable_callbacks_ b' !! cb_handle z = None).
Proof.
  intros Hnd Hr Hz b'.
  assert (Hq : forall q, q ∈ transformable_requests_ b' <->
     q ∈ transformable_requests_ b /\ request_handle q <> request_handle r).
  { intros q. subst b'. cbn. rewrite list_elem_of_filter. tauto. }
  assert (Hcb : transformable_callbacks_ b' = delete (cb_handle z) (transformable_callbacks_ b)).
  { subst b'. cbn [cancelTransformableRequest set_requests transformable_callbacks_].
    pose proof (filter_out_one request_handle _ r Hnd Hr) as Hlen.
    apply last_Some in Hz as [l Hl]. rewrite Hl in Hlen |- *.
    rewrite length_app, Nat.add_1_r in Hlen. injection Hlen as Hlen. rewrite Hlen.
    by rewrite drop_app_length. }
  split_and!; [done|done|]. intros Hne. rewrite Hq, Hcb, lookup_delete_eq. split_and!; [|done|done].
  apply last_Some in Hz as [l ->]. set_solver.
Qed.

(** Time stamps survive the message format. The stamp that
    [setTransform] computes from any message whose fields have their
    declared widths does not overflow; and the stamp of a message that a
    lookup returns for a non-negative time in the range of the format is
    that time again. *)
Theorem stamp_exact (m : TransformStamped T) tf t tgt src :
  in_s 32 (ts_sec m) -> in_u 32 (ts_nanosec m) -> 0 <= t < 2 ^ 31 * 1000000000 ->
  stamp_of_msg m = ts_sec m * 1000000000 + ts_nanosec m /\
  stamp_of_msg (to_msg tf t tgt src) = t.
Proof.
  unfold in_s, in_u. intros Hs Hn Ht. unfold stamp_of_msg. split.
  - rewrite i64_id; [lia|]. unfold int64_min, int64_max. lia.
  - cbn [to_msg ts_sec ts_nanosec].
    rewrite (wrap_u_id 64 t) by (unfold in_u; lia).
    pose proof (Z.mod_pos_bound t 1000000000). pose proof (Z.div_mod t 1000000000).
    rewrite (wrap_u_id 32) by (unfold in_u; lia).
    rewrite Z.quot_div_nonneg by lia.
    assert (0 <= t / 1000000000 < 2 ^ 31) by (split; [apply Z.div_pos|apply Z.div_lt_upper_bound]; lia).
    rewrite (wrap_s_id 32) by (unfold in_s; lia). rewrite i64_id; unfold int64_min, int64_max; lia.
Qed.

Context {R : ScalarRing T}.

Lemma named_frame b s id :
  registry_ok b -> frameIDs_ b !! s = Some id ->
  s <> EmptyString -> startsWithSlash s = false -> s <> NO_PARENT ->
  validateFrameId_throw b s = Ok id /\ id <> 0%N.
Proof.
  intros Hr Hs He Hsl Hn.
  assert (Hid : id <> 0%N).
  { intros ->. apply (reg_bij b Hr) in Hs. pose proof (reg_null b Hr). change (N.to_nat 0) with 0%nat in Hs. congruence. }
  unfold validateFrameId_throw, lookupFrameNumber. rewrite Hsl, Hs.
  apply String.eqb_neq in He as ->. by rewrite (proj2 (N.eqb_neq _ _) Hid).
Qed.

Lemma not_rejected tf parent child :
  transform_rejected tf parent child = false ->
  child <> parent /\ child <> EmptyString /\ parent <> EmptyString.
Proof.
  unfold transform_rejected. intros H.
  repeat (apply orb_false_iff in H as [H ?]). by rewrite <- !String.eqb_neq.
Qed.

(** What a static insertion leaves in the child's frame. *)
Lemma insertData_static b id d0 (d : TransformStorage T) :
  insertData (cache_for b id true d0) d = (FixedCache (mkStaticCache d), true).
Proof. unfold cache_for, allocateFrame. by destruct (getFrame b id) as [[c|c]|]. Qed.

(** Round trip of a static transform, in exact arithmetic: a message that
    passes the checks, with valid names, is accepted, and the lookup from
    child to parent at any non-zero time gives its transform back. *)
Lemma setTransform_static_lookup b m auth t :
  let tf := Transform_of (ts_rotation m) (ts_translation m) in
  let parent := stripSlash (ts_frame_id m) in
  let child := stripSlash (ts_child_frame_id m) in
  buffer_ok b -> room b 2 -> t <> 0 ->
  startsWithSlash parent = false -> startsWithSlash child = false ->
  parent <> NO_PARENT -> child <> NO_PARENT ->
  transform_rejected tf parent child = false ->
  exists b' calls pid cid,
    setTransform b m auth true = Some (Ok (b', true, calls)) /\
    lookupTransformImpl b' parent child t =
      Ok (Transform_of (Transform_getRotation tf) (m_origin tf), t) /\
    pid <> 0%N /\
    forall i, getFrame b' i =
      if decide (i = cid)
      then Some (FixedCache (mkStaticCache (mkTransformStorage (Transform_getRotation tf) (m_origin tf)
                                              (stamp_of_msg m) pid cid)))
      else getFrame b i.
Proof.
  intros tf parent child Hb Hroom Ht Sp Sc Np Nc Hrej.
  destruct (not_rejected _ _ _ Hrej) as (Hne & Ec & Ep).
  unfold setTransform, setTransformImpl. fold tf parent child. rewrite Hrej.
  destruct (insertTransform b tf parent child (stamp_of_msg m) auth true) as [b1 ok] eqn:Ei.
  pose proof (insertTransform_ok _ _ _ _ _ _ _ _ _ Hb Hroom Ei) as Hb1.
  apply insertTransform_spec in Ei as (cid & pid & Hr1 & Hcid & Hpid & _ & _ & Hok & Hg & _);
    [|apply Hb|unfold room in Hroom; lia].
  rewrite insertData_static in Hok, Hg. simpl in Hok, Hg. subst ok.
  destruct (testTransformableRequests_ok b1 Hb1) as (b2 & calls & -> & Hb2 & Hf & Hids).
  rewrite <- Hids in Hcid, Hpid.
  assert (Hg2 : forall i, getFrame b2 i = getFrame b1 i) by (intros i; unfold getFrame; by rewrite Hf).
  destruct (named_frame b2 parent pid (bo_reg _ Hb2) Hpid Ep Sp Np) as [Vp P0].
  destruct (named_frame b2 child cid (bo_reg _ Hb2) Hcid Ec Sc Nc) as [Vc C0].
  exists b2, calls, pid, cid. split; [done|]. split; [|split; [done|intros i; by rewrite Hg2, Hg]].
  assert (Hcp : cid <> pid).
  { intros ->. apply (reg_bij b2 (bo_reg _ Hb2)) in Hcid, Hpid. congruence. }
  unfold lookupTransformImpl. rewrite (proj2 (String.eqb_neq _ _)) by congruence.
  rewrite Vp, Vc. cbn [rbind].
  edestruct (walkToTopParent_one (getFrame b2) t pid cid) as (f & ch & -> & Hq & Hv & Htm); try done.
  - rewrite Hg2, Hg, decide_True by done. reflexivity.
  - reflexivity.
  - reflexivity.
  - cbn [rotation_ translation_] in Hq, Hv. by rewrite Hq, Hv, Htm.
Qed.
End Correctness.

(** ** Witnesses *)

Section Witnesses.
Local Abbreviation buffer := (BufferCore Z N).

Definition b0 : buffer := BufferCore_init 10.

(** Two requests pending on frames that do not exist yet. *)
Definition b2 : buffer :=
  match addTransformableRequest b0 7%N "map" "base" 3 with
  | Some (b, _) => match addTransformableRequest b 8%N "map" "laser" 4 with
                   | Some (b, _) => b | None => b0 end
  | None => b0
  end.

Lemma b2_reachable : reachable 10 b2.
Proof.
  eapply rtc_l; [eapply (step_addTransformableRequest b0 7%N "map" "base" 3); reflexivity|].
  eapply rtc_l; [eapply (step_addTransformableRequest _ 8%N "map" "laser" 4); reflexivity|].
  apply rtc_refl.
Qed.

Lemma b2_room : room b2 2.
Proof. unfold room. change (length (frames_ b2)) with 1%nat. lia. Qed.

Lemma b2_callbacks : callbacks_ok b2.
Proof.
  split.
  - change (NoDup [1; 2]). apply (bool_decide_unpack _). reflexivity.
  - intros h. change (transformable_callbacks_ b2) with (<[2 := 8%N]> {[1 := 7%N]} : gmap Z N).
    change (map cb_handle (transformable_requests_ b2)) with [1; 2].
    rewrite lookup_insert_is_Some', lookup_singleton_is_Some. set_solver.
Qed.

Definition msg : TransformStamped Z :=
  mkTransformStamped 3 5 "map" "base" Vector3_zero Quaternion_identity.

Lemma reachable_registry_witness :
  lookupFrameNumber b2 NO_PARENT = 0%N /\ lookupFrameString b2 (lookupFrameNumber b2 NO_PARENT) = Ok NO_PARENT.
Proof. split; [reflexivity|]. apply (reachable_registry 10 b2 b2_reachable). reflexivity. Defined.

Lemma setTransform_total_witness :
  exists b' ok calls, setTransform b2 msg "a" false = Some (Ok (b', ok, calls)).
Proof.
  destruct (setTransform_total 10 b2 msg "a" false b2_reachable b2_room) as (b' & ok & calls & H & _).
  exists b', ok, calls. exact H.
Defined.

Lemma testTransformableRequests_exact_witness :
  exists b' calls, testTransformableRequests b2 = Some (Ok (b', calls)) /\ callbacks_ok b'.
Proof.
  destruct (testTransformableRequests_exact 10 b2 b2_reachable b2_callbacks) as (b' & calls & H & _ & _ & Hc).
  exists b', calls. split; [exact H|exact Hc].
Defined.

Lemma addTransformableRequest_spec_witness :
  exists b' h, addTransformableRequest b2 9%N "map" "laser" 4 = Some (b', h) /\ callbacks_ok b'.
Proof.
  destruct (addTransformableRequest_spec b2 9%N "map" "laser" 4) as (b' & h & H & _ & _ & _ & Hc);
    [reflexivity|].
  exists b', h. split; [exact H|apply Hc, b2_callbacks].
Defined.

(** Cancelling the first of the two requests erases the callback of the
    second, which stays pending. *)
Lemma cancel_erases_last_witness :
  map request_handle (transformable_requests_ b2) = [1; 2] /\
  transformable_callbacks_ (cancelTransformableRequest b2 1) =
    delete 2 (transformable_callbacks_ b2) /\
  map cb_handle (transformable_requests_ (cancelTransformableRequest b2 1)) = [2].
Proof.
  split; [reflexivity|]. split; [|reflexivity].
  apply (cancel_erases_last b2 (mkRequest 3 1 1 0 0 "map" "base") (mkRequest 4 2 2 0 0 "map" "laser")).
  - change (NoDup [1; 2]). apply (bool_decide_unpack _). reflexivity.
  - apply list_elem_of_here.
  - reflexivity.
Defined.

Lemma stamp_exact_witness :
  stamp_of_msg msg = 3000000005 /\ stamp_of_msg (to_msg (Transform_identity (T := Z)) 77 "a" "b") = 77.
Proof.
  apply (stamp_exact msg Transform_identity 77 "a" "b"); unfold in_s, in_u; simpl; lia.
Defined.
End Witnesses.
