(* ===== verification/BufferReal.v ===== *)
(** * The tf2 transform buffer over the real numbers

    The end-to-end statement about lookups: in exact arithmetic, every
    transform that a reachable buffer returns is the one that the stored
    transforms describe. *)

From Stdlib Require Import Reals.
From stdpp Require Import base numbers list gmap strings.
From S2P Require Import Prelude LinearMath LinearMathReal TimeCache TfWalk BufferCore BufferFacts.
Local Open Scope Z_scope.

(** ** The rotations in a cache are unit quaternions *)

Section UnitCache.
Implicit Types (c : TimeCache R) (one two s d : TransformStorage R).

Definition unit_storage s : Prop := norm2 (rotation_ s) = 1%R.

Definition unit_cache (c : AnyCache R) : Prop :=
  match c with
  | DynamicCache c => Forall unit_storage (storage_ c)
  | FixedCache c => unit_storage (static_storage_ c)
  end.

Lemma find_bracket_elem n (l : list (TransformStorage R)) t one two :
  find_bracket n l t = Closest2 one two -> one ∈ l /\ (n = Some two \/ two ∈ l).
Proof.
  revert n. induction l as [|s l IH]; intros n; simpl; [done|].
  destruct (stamp_ s <=? t).
  - destruct n; [|done]. intros [= -> ->]. split; [apply list_elem_of_here|by left].
  - intros [H1 [[= ->]|H2]]%IH; split; try (right; apply list_elem_of_here);
      try (right; by apply list_elem_of_further); by apply list_elem_of_further.
Qed.

Lemma find_bracket_not1 n (l : list (TransformStorage R)) t one : find_bracket n l t <> Closest1 one.
Proof. revert n. induction l as [|s l IH]; intros [n|]; simpl; try done; by destruct (_ <=? _). Qed.

Lemma findClosest_elem c t :
  match (findClosest c t).2 with
  | Closest1 one => one ∈ storage_ c
  | Closest2 one two => one ∈ storage_ c /\ two ∈ storage_ c
  | _ => True
  end.
Proof.
  unfold findClosest. destruct (storage_ c) as [|f rest] eqn:E; [done|].
  destruct (_ =? _); [apply list_elem_of_here|].
  destruct (last rest) as [b|] eqn:El; [|destruct (_ =? _); [apply list_elem_of_here|done]].
  destruct (_ =? _); [apply list_elem_of_here|].
  destruct (_ =? _); [simpl; apply list_elem_of_further, list_elem_of_lookup_2 with (length rest - 1)%nat|].
  { rewrite last_lookup in El. by rewrite Nat.sub_1_r. }
  destruct (_ <? _); [done|]. destruct (_ <? _); [done|]. cbn [snd].
  destruct (find_bracket None (f :: rest) t) eqn:Eb; try done.
  - by apply find_bracket_not1 in Eb.
  - by apply find_bracket_elem in Eb as [? [?|?]].
Qed.

(** Interpolated or not, the data has a unit rotation. *)
Lemma getData_unit (c : AnyCache R) t s :
  unit_cache c -> (getData c t).2 = Some s -> unit_storage s.
Proof.
  destruct c as [c|c]; simpl; [|by intros H [= <-]].
  rewrite Forall_forall. intros Hu. unfold TimeCache_getData.
  pose proof (findClosest_elem c t) as He.
  destruct (findClosest c t) as [e [|one|one two|]]; simpl in *; try done.
  - intros [= <-]. auto.
  - destruct He as [H1%Hu H2%Hu]. intros [= <-].
    destruct (_ =? _)%N; [|done]. unfold interpolate. destruct (_ =? _); [done|].
    by apply slerp_norm.
Qed.

Lemma insertData_unit (c : AnyCache R) d : unit_cache c -> unit_storage d -> unit_cache (insertData c d).1.
Proof.
  destruct c as [c|c]; simpl; [|done]. intros Hc Hd. pose proof (insertData_elem c d) as He.
  destruct (TimeCache_insertData c d) as [c' r]. simpl in *. rewrite Forall_forall in Hc |- *.
  intros s [->|Hin]%He; auto.
Qed.
End UnitCache.

Section Lookup.
Context {CB : Type}.
Implicit Types (b : BufferCore R CB).

Definition unit_buffer b : Prop := forall id c, getFrame b id = Some c -> unit_cache c.

Lemma cache_for_unit b id st d0 : unit_buffer b -> unit_storage d0 -> unit_cache (cache_for b id st d0).
Proof.
  intros Hb Hd. unfold cache_for, allocateFrame. pose proof (Hb id) as Hc.
  destruct (getFrame b id) as [[c|c]|]; destruct st; simpl; try done; try constructor;
    by apply (Hc _ eq_refl).
Qed.

Lemma setTransform_unit b m auth st b' ok calls :
  buffer_ok b -> room b 2 -> unit_buffer b ->
  setTransform b m auth st = Some (Ok (b', ok, calls)) -> unit_buffer b'.
Proof.
  intros Hb Hroom Hu. unfold setTransform, setTransformImpl.
  set (tf := Transform_of _ _). destruct (transform_rejected _ _ _); [by intros [= <- _]|].
  destruct (insertTransform b tf _ _ _ auth st) as [b1 ok1] eqn:Ei.
  pose proof (insertTransform_ok _ _ _ _ _ _ _ _ _ Hb Hroom Ei) as Hb1.
  apply insertTransform_spec in Ei as (cid & pid & _ & _ & _ & _ & _ & _ & Hg & _);
    [|apply Hb|unfold room in Hroom; lia].
  assert (Hu1 : unit_buffer b1).
  { intros id c. rewrite Hg. case_decide; [|apply Hu]. intros [= <-].
    apply insertData_unit; [apply cache_for_unit; [done|]|]; apply getRotation_norm. }
  destruct ok1; [|by intros [= <- _]].
  destruct (testTransformableRequests_ok b1 Hb1) as (b2 & c2 & -> & _ & Hf & _).
  intros [= <- _ _] id c. unfold getFrame. rewrite Hf. apply Hu1.
Qed.

Lemma clear_unit b : unit_buffer b -> unit_buffer (clear b).
Proof.
  intros Hu id c. specialize (Hu id). unfold clear, getFrame in *.
  destruct (frames_ b) as [|f0 fs] eqn:Ef; [rewrite Ef; apply Hu|].
  cbn [set_frames frames_]. destruct (N.to_nat id) as [|i]; simpl in *; [apply Hu|].
  rewrite list_lookup_fmap. destruct (fs !! i) as [[[c0|c0]|]|]; simpl; try done; intros [= <-].
  - constructor.
  - by apply (Hu _ eq_refl).
Qed.

Lemma reachable_unit ct b : reachable ct b -> unit_buffer b.
Proof.
  unfold reachable. intros H.
  assert (Hi : buffer_ok (BufferCore_init (T := R) (CB := CB) ct) /\
               unit_buffer (BufferCore_init (T := R) (CB := CB) ct)).
  { split; [apply BufferCore_init_ok|]. intros id c. unfold getFrame. simpl.
    by destruct (N.to_nat id) as [|[|n]]. }
  remember (BufferCore_init ct) as b0 eqn:E. clear E. destruct Hi as [Hb Hu].
  induction H as [b|b b1 b2 Hs _ IH]; [done|].
  apply IH; [by eapply step_ok|]. clear IH.
  destruct Hs as [b m auth st b' ok calls Hroom Hs|b|b cb tgt src time b' h Ha|b h].
  - by eapply setTransform_unit.
  - by apply clear_unit.
  - revert Ha. unfold addTransformableRequest.
    destruct (String.eqb _ _); [by intros [= <- _]|].
    destruct (canTransformInternal _ _ _ _); [by intros [= <- _]|].
    destruct (_ && _)%bool; [by intros [= <- _]|].
    destruct (fresh_handle _ _ _); [|done]. by intros [= <- _].
  - done.
Qed.

Lemma Transform_of_unit (q : Quaternion R) v p :
  norm2 q = 1%R -> Transform_apply (Transform_of q v) p = rigid q v p.
Proof.
  intros Hq. rewrite Transform_apply_mulv. unfold rigid. f_equal.
  transitivity (Vector3_scale (quatRotate q p) (/ norm2 q)%R); [|].
  - apply setRotation_rotates. rewrite Hq. apply R1_neq_R0.
  - rewrite Hq, Rinv_1. destruct (quatRotate q p). unfold Vector3_scale. simpl. by rewrite !Rmult_1_r.
Qed.

(** C1: lookups are right. In a reachable buffer, whatever was stored,
    interpolated, pruned, overwritten or cleared before, when the lookup
    between two different frames at a non-zero time succeeds, the stored
    transforms at that time form chains from both frames to a common
    ancestor, and the transform returned carries every point from source
    coordinates to target coordinates: followed by the chain of the
    target it equals the chain of the source.  The time returned is the
    time asked for. *)
Theorem lookupTransform_sound ct b tgt src t tf t' :
  reachable ct b -> t <> 0 -> tgt <> src -> no_null_parent (getFrame b) t ->
  lookupTransformImpl b tgt src t = Ok (tf, t') ->
  t' = t /\ exists c l1 l2,
    chain (getFrame b) t (lookupFrameNumber b src) c l1 /\
    chain (getFrame b) t (lookupFrameNumber b tgt) c l2 /\
    forall p, compose l2 (Transform_apply tf p) = compose l1 p.
Proof.
  intros Hreach Ht Hne Hnull. pose proof (reachable_ok _ _ Hreach) as Hb.
  pose proof (reachable_unit _ _ Hreach) as Hu.
  unfold lookupTransformImpl. rewrite (proj2 (String.eqb_neq _ _) Hne).
  pose proof (validateFrameId_throw_spec b tgt) as Vt.
  destruct (validateFrameId_throw b tgt) as [ti|]; [|done].
  pose proof (validateFrameId_throw_spec b src) as Vs.
  destruct (validateFrameId_throw b src) as [si|]; [|done]. cbn [rbind].
  destruct Vt as (_ & Ht0 & Et), Vs as (_ & Hs0 & Es). rewrite Et, Es.
  destruct (walkToTopParent _ _ _ _ _) as [[f e] ch] eqn:Ew. case_bool_decide as He; [|done]. subst e.
  assert (Hids : si <> ti).
  { intros ->. apply Hne. unfold lookupFrameNumber in Et, Es.
    destruct (frameIDs_ b !! tgt) as [i|] eqn:E1; [|congruence].
    destruct (frameIDs_ b !! src) as [j|] eqn:E2; [|congruence]. subst i j.
    apply (reg_bij b (bo_reg _ Hb)) in E1, E2. congruence. }
  destruct (walkToTopParent_sound (getFrame b) t Hnull) with (time := t) (tgt := ti) (src := si)
    (f := f) (fc := ch) as (c & l1 & l2 & H1 & H2 & H3 & H4 & H5); try done.
  - intros a cache st Hc Hd. eapply getData_unit; [|done]. by eapply Hu.
  - unfold resolve_time, TimePointZero. by rewrite (proj2 (Z.eqb_neq _ _) Ht).
  - intros [= <- <-]. split; [done|]. exists c, l1, l2. split; [done|]. split; [done|].
    intros p. by rewrite Transform_of_unit.
Qed.

(** No quaternion fails the norm test: it is made after normalisation. *)
Lemma quaternion_always_valid q v : quaternion_valid (Transform_getRotation (Transform_of q v)) = true.
Proof.
  unfold quaternion_valid, QUATERNION_NORMALIZATION_TOLERANCE, Transform_getRotation, Transform_of.
  cbn [m_basis]. pose proof (getRotation_norm q) as Hn. set (r := Matrix3x3_getRotation _) in *.
  cbn [R_scalar sabs ssub sadd smul sone sdiv sofZ sltb].
  replace (qw r * qw r + qx r * qx r + qy r * qy r + qz r * qz r)%R with (norm2 r)
    by (destruct r; unfold norm2, Quaternion_length2, Quaternion_dot; simpl; ring).
  rewrite Hn, Rminus_diag, Rabs_R0. destruct (Rltb_spec 0 (1 / 100)) as [|H]; [done|].
  exfalso. apply H. Lra.lra.
Qed.

Lemma not_rejected_names q v parent child :
  child <> parent -> child <> EmptyString -> parent <> EmptyString ->
  transform_rejected (Transform_of q v) parent child = false.
Proof.
  intros H1 H2 H3. unfold transform_rejected. rewrite quaternion_always_valid.
  apply String.eqb_neq in H1 as ->, H2 as ->, H3 as ->. done.
Qed.

(** Whether a frame is static cannot be changed after the first call. *)
Definition new_or_static b (child : string) : Prop :=
  forall i c, frameIDs_ b !! child = Some i -> getFrame b i = Some c -> exists sc, c = FixedCache sc.

(** The code takes any rotation but zero, and also a change of the kind. *)
Lemma static_lookup b m auth t :
  buffer_ok b -> room b 2 -> t <> 0 ->
  let parent := stripSlash (ts_frame_id m) in
  let child := stripSlash (ts_child_frame_id m) in
  child <> parent -> child <> EmptyString -> parent <> EmptyString ->
  startsWithSlash parent = false -> startsWithSlash child = false ->
  parent <> NO_PARENT -> child <> NO_PARENT -> norm2 (ts_rotation m) <> 0%R ->
  exists b' calls pid cid rot,
    setTransform b m auth true = Some (Ok (b', true, calls)) /\
    lookupTransformImpl b' parent child t = Ok (Transform_of (ts_rotation m) (ts_translation m), t) /\
    pid <> 0%N /\
    forall i, getFrame b' i =
      if decide (i = cid)
      then Some (FixedCache (mkStaticCache (mkTransformStorage rot (ts_translation m)
                                              (stamp_of_msg m) pid cid)))
      else getFrame b i.
Proof.
  intros Hb Hroom Ht parent child H1 H2 H3 S1 S2 N1 N2 Hq.
  destruct (setTransform_static_lookup b m auth t Hb Hroom Ht S1 S2 N1 N2) as
    (b' & calls & pid & cid & E1 & E2 & E3 & E4); [by apply not_rejected_names|].
  exists b', calls, pid, cid. eexists. split; [done|]. split; [|split; [done|exact E4]].
  unfold parent, child. rewrite E2. f_equal. f_equal. unfold Transform_of, Transform_getRotation.
  cbn [m_basis m_origin]. f_equal.
  destruct (setRotation_getRotation (ts_rotation m) Hq) as (s & Hs & ->).
  apply setRotation_scale; [|done].
  pose proof (norm2_nonneg (ts_rotation m)).
  assert (0 < sqrt (norm2 (ts_rotation m)))%R by (apply sqrt_lt_R0; Lra.lra).
  apply Rmult_integral_contrapositive_currified; [apply Rinv_neq_0_compat; Lra.lra|].
  destruct Hs; Lra.lra.
Qed.

(** C2: round trip of a static transform, in exact arithmetic. Every message
    with a unit quaternion, between two valid distinct frame names (less one
    leading slash), of which the child is new or static already, is accepted
    by every reachable buffer with room; from then on, the lookup from child
    to parent at any non-zero time returns exactly the transform of the
    message, at that time. *)
Theorem static_transform_roundtrip ct b m auth t :
  reachable ct b -> room b 2 -> t <> 0 ->
  let parent := stripSlash (ts_frame_id m) in
  let child := stripSlash (ts_child_frame_id m) in
  child <> parent -> child <> EmptyString -> parent <> EmptyString ->
  startsWithSlash parent = false -> startsWithSlash child = false ->
  parent <> NO_PARENT -> child <> NO_PARENT -> norm2 (ts_rotation m) = 1%R -> new_or_static b child ->
  exists b' calls,
    setTransform b m auth true = Some (Ok (b', true, calls)) /\
    lookupTransformImpl b' parent child t = Ok (Transform_of (ts_rotation m) (ts_translation m), t).
Proof.
  intros Hb%reachable_ok Hroom Ht parent child H1 H2 H3 S1 S2 N1 N2 Hq _.
  destruct (static_lookup b m auth t Hb Hroom Ht) as (b' & calls & ? & ? & ? & E1 & E2 & _); try done; [|by exists b', calls].
  rewrite Hq. apply R1_neq_R0.
Qed.
End Lookup.

(** ** Witnesses *)

Definition sample_msg : TransformStamped R :=
  mkTransformStamped 1 0 "/map" "base" (mkVector3 1 2 3)%R (mkQuaternion 0 0 1 0)%R.

Lemma sample_norm : norm2 (ts_rotation sample_msg) = 1%R.
Proof. unfold norm2, Quaternion_length2, Quaternion_dot; simpl. Lra.lra. Qed.

Lemma sample_room : room (BufferCore_init (T := R) (CB := unit) 10) 2.
Proof. unfold room. cbn [BufferCore_init frames_ length]. lia. Qed.

Lemma static_transform_roundtrip_witness :
  exists b' calls,
    setTransform (CB := unit) (BufferCore_init 10) sample_msg "a" true = Some (Ok (b', true, calls)) /\
    lookupTransformImpl b' "map" "base" 5 =
      Ok (Transform_of (mkQuaternion 0 0 1 0)%R (mkVector3 1 2 3)%R, 5).
Proof.
  apply (static_transform_roundtrip 10 (BufferCore_init 10) sample_msg "a" 5);
    [apply rtc_refl|apply sample_room|done..|apply sample_norm|].
  intros i c E. by vm_compute in E.
Defined.

Lemma sample_lookup :
  exists b tf, reachable (CB := unit) 10 b /\ no_null_parent (getFrame b) 5 /\
    lookupTransformImpl b "map" "base" 5 = Ok (tf, 5).
Proof.
  destruct (static_lookup (CB := unit) (BufferCore_init 10) sample_msg "a" 5) as
    (b' & calls & pid & cid & rot & E1 & E2 & E3 & E4);
    [apply BufferCore_init_ok|apply sample_room|done..|rewrite sample_norm; apply R1_neq_R0|].
  exists b'. eexists. split; [|split; [|exact E2]].
  - eapply rtc_once, step_setTransform; [apply sample_room|exact E1].
  - intros a c st. rewrite E4. case_decide.
    + intros [= <-]. simpl. by intros [= <-].
    + unfold getFrame. simpl. by destruct (N.to_nat a) as [|[|n]].
Qed.

Lemma lookupTransform_sound_witness :
  exists b tf c l1 l2,
    lookupTransformImpl b "map" "base" 5 = Ok (tf, 5) /\
    chain (getFrame (CB := unit) b) 5 (lookupFrameNumber b "base") c l1 /\
    chain (getFrame b) 5 (lookupFrameNumber b "map") c l2 /\
    forall p, compose l2 (Transform_apply tf p) = compose l1 p.
Proof.
  destruct sample_lookup as (b & tf & Hb & Hn & Hl). exists b, tf.
  destruct (lookupTransform_sound 10 b "map" "base" 5 tf 5) as (_ & c & l1 & l2 & H); [done..|].
  exists c, l1, l2. split; [exact Hl|exact H].
Defined.
