(* ===== verification/RclTime.v ===== *)
(** * rclcpp Time and Duration

    [rclcpp/src/rclcpp/time.cpp] and [duration.cpp], with the overflow tests
    of [rclcpp/include/rclcpp/utilities.hpp].  A point in time or a duration
    is a 64-bit count of nanoseconds; an exception is a value of
    [time_error].  [double] is the primitive binary64 type and
    [long double] the 80-bit extended format, as the specification-level
    floats of the Standard Library with 64 bits of precision.  The two
    message types are pairs of a 32-bit signed and a 32-bit unsigned field. *)

From Stdlib Require Import ZArith Lia Floats.
From stdpp Require Import base numbers.
From S2P Require Import Prelude.

Inductive time_error := RuntimeError | OverflowError | UnderflowError.

Inductive ClockType := RCL_CLOCK_UNINITIALIZED | RCL_ROS_TIME | RCL_SYSTEM_TIME | RCL_STEADY_TIME.

#[export] Instance ClockType_eq_dec : EqDecision ClockType.
Proof. solve_decision. Defined.

Record TimeMsg := mkTimeMsg { sec : Z; nanosec : Z }.
Record RmwTime := mkRmwTime { rmw_sec : Z; rmw_nsec : Z }.

Definition S_TO_NS (s : Z) : Z := s * 1000000000.

(** ** Overflow tests *)

Definition add_will_overflow (x y : Z) : bool := (0 <? y) && (int64_max - y <? x).
Definition add_will_underflow (x y : Z) : bool := (y <? 0) && (x <? int64_min - y).
Definition sub_will_overflow (x y : Z) : bool := (y <? 0) && (int64_max + y <? x).
Definition sub_will_underflow (x y : Z) : bool := (0 <? y) && (x <? int64_min + y).

(** ** Time *)

Record Time := mkTime { nanoseconds : Z; clock_type : ClockType }.

(** The default constructor. *)
Definition Time_default : Time := mkTime 0 RCL_SYSTEM_TIME.

Definition Time_of_sec (seconds nanoseconds : Z) (clock_type : ClockType) : Result time_error Time :=
  if seconds <? 0 then Throw RuntimeError
  else Ok (mkTime (i64 (i64 (S_TO_NS seconds) + nanoseconds)) clock_type).

Definition Time_of_msg (m : TimeMsg) (clock_type : ClockType) : Result time_error Time :=
  if sec m <? 0 then Throw RuntimeError
  else Ok (mkTime (i64 (i64 (S_TO_NS (sec m)) + nanosec m)) clock_type).

Definition Time_max (clock_type : ClockType) : Result time_error Time :=
  Time_of_sec (2 ^ 31 - 1) 999999999 clock_type.

Definition convert_rcl_time_to_sec_nanos (time_point : Z) : TimeMsg :=
  let kRemainder := S_TO_NS 1 in
  let quot := Z.quot time_point kRemainder in
  let rem := Z.rem time_point kRemainder in
  if 0 <=? rem then mkTimeMsg (i32 quot) (u32 rem)
  else mkTimeMsg (i32 (quot - 1)) (u32 (kRemainder + rem)).

Definition Time_to_msg (t : Time) : TimeMsg := convert_rcl_time_to_sec_nanos (nanoseconds t).

(** The comparison operators. *)
Definition Time_compare (op : Z -> Z -> bool) (t rhs : Time) : Result time_error bool :=
  if bool_decide (clock_type t = clock_type rhs) then Ok (op (nanoseconds t) (nanoseconds rhs))
  else Throw RuntimeError.
Definition Time_eqb := Time_compare Z.eqb.
Definition Time_ltb := Time_compare Z.ltb.
Definition Time_leb := Time_compare Z.leb.
Definition Time_geb := Time_compare Z.geb.
Definition Time_gtb := Time_compare Z.gtb.
Definition Time_neqb (t rhs : Time) : Result time_error bool :=
  let! r := Time_eqb t rhs in Ok (negb r).

(** [Time + Duration], which [operator+=] repeats. *)
Definition Time_add (t : Time) (d : Z) : Result time_error Time :=
  if add_will_overflow d (nanoseconds t) then Throw OverflowError
  else if add_will_underflow d (nanoseconds t) then Throw UnderflowError
  else Ok (mkTime (i64 (nanoseconds t + d)) (clock_type t)).

(** [Duration + Time]. *)
Definition Duration_add_Time (d : Z) (t : Time) : Result time_error Time :=
  if add_will_overflow (nanoseconds t) d then Throw OverflowError
  else if add_will_underflow (nanoseconds t) d then Throw UnderflowError
  else Ok (mkTime (i64 (d + nanoseconds t)) (clock_type t)).

(** [Time - Time]: a duration. *)
Definition Time_sub (t rhs : Time) : Result time_error Z :=
  if negb (bool_decide (clock_type t = clock_type rhs)) then Throw RuntimeError
  else if sub_will_overflow (nanoseconds t) (nanoseconds rhs) then Throw OverflowError
  else if sub_will_underflow (nanoseconds t) (nanoseconds rhs) then Throw UnderflowError
  else Ok (i64 (nanoseconds t - nanoseconds rhs)).

(** [Time - Duration], which [operator-=] repeats. *)
Definition Time_sub_Duration (t : Time) (d : Z) : Result time_error Time :=
  if sub_will_overflow (nanoseconds t) d then Throw OverflowError
  else if sub_will_underflow (nanoseconds t) d then Throw UnderflowError
  else Ok (mkTime (i64 (nanoseconds t - d)) (clock_type t)).

(** ** Duration *)

Definition Duration_of_sec (seconds nanoseconds : Z) : Z := i64 (i64 (S_TO_NS seconds) + nanoseconds).

Definition Duration_of_msg (m : TimeMsg) : Z := i64 (i64 (S_TO_NS (sec m)) + nanosec m).

Definition Duration_to_msg (d : Z) : TimeMsg :=
  let kDivisor := S_TO_NS 1 in
  let max_s := 2 ^ 31 - 1 in
  let min_s := - 2 ^ 31 in
  let quot := Z.quot d kDivisor in
  let rem := Z.rem d kDivisor in
  if 0 <=? rem then
    if max_s <? quot then mkTimeMsg max_s (2 ^ 32 - 1) else mkTimeMsg (i32 quot) (u32 rem)
  else
    if quot <=? min_s then mkTimeMsg min_s 0 else mkTimeMsg (i32 (quot - 1)) (u32 (kDivisor + rem)).

(** [std::abs] on [int64_t], then the conversion to [uint64_t]. *)
Definition abs_u64 (x : Z) : Z := u64 (i64 (Z.abs x)).

Definition bounds_check_duration_sum (lhsns rhsns max : Z) : Result time_error unit :=
  let abs_lhs := abs_u64 lhsns in
  let abs_rhs := abs_u64 rhsns in
  if (0 <? lhsns) && (0 <? rhsns) then
    if max <? u64 (abs_lhs + abs_rhs) then Throw OverflowError else Ok tt
  else if (lhsns <? 0) && (rhsns <? 0) then
    if max <? u64 (abs_lhs + abs_rhs) then Throw UnderflowError else Ok tt
  else Ok tt.

Definition Duration_add (d rhs : Z) : Result time_error Z :=
  let! _ := bounds_check_duration_sum d rhs int64_max in
  Ok (i64 (d + rhs)).

Definition bounds_check_duration_difference (lhsns rhsns max : Z) : Result time_error unit :=
  let abs_lhs := abs_u64 lhsns in
  let abs_rhs := abs_u64 rhsns in
  if (0 <? lhsns) && (rhsns <? 0) then
    if max <? u64 (abs_lhs + abs_rhs) then Throw OverflowError else Ok tt
  else if (lhsns <? 0) && (0 <? rhsns) then
    if max <? u64 (abs_lhs + abs_rhs) then Throw UnderflowError else Ok tt
  else Ok tt.

Definition Duration_sub (d rhs : Z) : Result time_error Z :=
  let! _ := bounds_check_duration_difference d rhs int64_max in
  Ok (i64 (d - rhs)).

Definition Duration_max : Z := Duration_of_sec (2 ^ 31 - 1) 999999999.

Definition to_rmw_time (d : Z) : Result time_error RmwTime :=
  if d <? 0 then Throw RuntimeError
  else Ok (mkRmwTime (u64 (Z.quot d (S_TO_NS 1))) (u64 (Z.rem d (S_TO_NS 1)))).

Definition from_rmw_time (duration : RmwTime) : Z :=
  let limit_ns := int64_max in
  let limit_sec := Z.quot limit_ns 1000000000 in
  if (limit_sec <? rmw_sec duration) || (limit_ns <? rmw_nsec duration) then limit_ns
  else
    let total_ns := u64 (u64 (S_TO_NS (rmw_sec duration)) + rmw_nsec duration) in
    if limit_ns <? total_ns then limit_ns else i64 total_ns.

(** [operator+] and [operator-] on a time message and a duration. *)
Definition msg_add (lhs : TimeMsg) (rhs : Z) : Result time_error TimeMsg :=
  if sec lhs <? 0 then Throw RuntimeError
  else
    let rcl_time := i64 (i64 (S_TO_NS (sec lhs)) + nanosec lhs) in
    if add_will_overflow rcl_time rhs then Throw OverflowError
    else if add_will_underflow rcl_time rhs then Throw UnderflowError
    else Ok (convert_rcl_time_to_sec_nanos (i64 (rcl_time + rhs))).

Definition msg_sub (lhs : TimeMsg) (rhs : Z) : Result time_error TimeMsg :=
  if sec lhs <? 0 then Throw RuntimeError
  else
    let rcl_time := i64 (i64 (S_TO_NS (sec lhs)) + nanosec lhs) in
    if sub_will_overflow rcl_time rhs then Throw OverflowError
    else if sub_will_underflow rcl_time rhs then Throw UnderflowError
    else Ok (convert_rcl_time_to_sec_nanos (i64 (rcl_time - rhs))).

(** ** Floating point *)

Definition double_of_Z (z : Z) : float := SF2Prim (binary_normalize prec emax z 0 false).

(** [std::chrono::duration<double>(nanoseconds).count()]. *)
Definition seconds (ns : Z) : float := PrimFloat.div (double_of_Z ns) (double_of_Z 1000000000).

(** The integer part, towards zero, of a finite number. *)
Definition trunc (x : spec_float) : Z :=
  match x with
  | S754_finite s m e =>
      let a := if 0 <=? e then Zpos m * 2 ^ e else Zpos m / 2 ^ (- e) in
      if s then - a else a
  | _ => 0
  end.

Definition from_seconds (s : float) : Z := i64 (trunc (Prim2SF (PrimFloat.mul s (double_of_Z 1000000000)))).

(** [long double]: 64 bits of precision, 15 bits of exponent. *)
Definition ld_prec : Z := 64.
Definition ld_emax : Z := 16384.
Definition ld_of_Z (z : Z) : spec_float := binary_normalize ld_prec ld_emax z 0 false.

Definition bounds_check_duration_scale (dns : Z) (scale : float) (max : Z) : Result time_error unit :=
  let abs_dns := abs_u64 dns in
  let abs_scale := PrimFloat.abs scale in
  if PrimFloat.ltb 1 abs_scale &&
     (u64 (trunc (SFdiv ld_prec ld_emax (ld_of_Z max) (Prim2SF abs_scale))) <? abs_dns)
  then
    if ((0 <? dns) && PrimFloat.ltb 0 scale) || ((dns <? 0) && PrimFloat.ltb scale 0)
    then Throw OverflowError else Throw UnderflowError
  else Ok tt.

Definition Duration_scale (d : Z) (scale : float) : Result time_error Z :=
  if negb (PrimFloat.is_finite scale) then Throw RuntimeError
  else
    let! _ := bounds_check_duration_scale d scale int64_max in
    Ok (i64 (trunc (SFmul ld_prec ld_emax (ld_of_Z d) (Prim2SF scale)))).

(** ** Correctness *)

Definition is_int64 (x : Z) : Prop := int64_min <= x <= int64_max.

(** The exact result of an operation, or the exception for the side on which
    it leaves the 64-bit range. *)
Definition exact64 (x : Z) : Result time_error Z :=
  if int64_max <? x then Throw OverflowError
  else if x <? int64_min then Throw UnderflowError
  else Ok x.

Definition on_clock (c : ClockType) (r : Result time_error Z) : Result time_error Time :=
  let! ns := r in Ok (mkTime ns c).

Ltac int64_lia :=
  unfold is_int64, exact64, on_clock, add_will_overflow, add_will_underflow, sub_will_overflow,
    sub_will_underflow in *;
  repeat match goal with |- context [?a <? ?b] => destruct (Z.ltb_spec a b) end;
  simpl; try (f_equal; try f_equal; apply i64_id); try done;
  unfold int64_max, int64_min in *; lia.

Lemma Time_sub_exact t t' :
  is_int64 (nanoseconds t) -> is_int64 (nanoseconds t') ->
  Time_sub t t' = (if bool_decide (clock_type t = clock_type t')
                   then exact64 (nanoseconds t - nanoseconds t') else Throw RuntimeError).
Proof. intros Ht Ht'. unfold Time_sub. case_bool_decide; cbn [negb]; [int64_lia|done]. Qed.

(** time arithmetic is exact or throws. For any operands of the 64-bit
    type, each of the four operations on points in time returns the
    mathematical result on the same clock, or throws the exception that
    names the side on which that result leaves the type; the difference of
    two points throws when their clocks differ. *)
Theorem Time_arith_exact t t' d :
  is_int64 (nanoseconds t) -> is_int64 (nanoseconds t') -> is_int64 d ->
  Time_add t d = on_clock (clock_type t) (exact64 (nanoseconds t + d)) /\
  Duration_add_Time d t = on_clock (clock_type t) (exact64 (nanoseconds t + d)) /\
  Time_sub_Duration t d = on_clock (clock_type t) (exact64 (nanoseconds t - d)) /\
  Time_sub t t' = (if bool_decide (clock_type t = clock_type t')
                   then exact64 (nanoseconds t - nanoseconds t') else Throw RuntimeError).
Proof.
  intros Ht Ht' Hd. split_and!.
  - unfold Time_add. int64_lia.
  - unfold Duration_add_Time. rewrite (Z.add_comm d). int64_lia.
  - unfold Time_sub_Duration. int64_lia.
  - by apply Time_sub_exact.
Qed.

Lemma abs_u64_spec x : is_int64 x -> abs_u64 x = Z.abs x.
Proof.
  intros Hx. unfold abs_u64. destruct (decide (x = int64_min)) as [->|Hne]; [reflexivity|].
  unfold is_int64 in Hx. rewrite i64_id by (unfold int64_min, int64_max in *; lia).
  apply wrap_u_id. unfold in_u, int64_min, int64_max in *. lia.
Qed.

(** The bounds checks of [Duration] reject the result [-2^63] that the type
    could hold, when both operands push towards it. *)
Definition exact_duration (x : Z) (opposed : bool) : Result time_error Z :=
  if int64_max <? x then Throw OverflowError
  else if (x <? int64_min) || ((x =? int64_min) && opposed) then Throw UnderflowError
  else Ok x.

(** addition and subtraction of durations. For any operands of the
    64-bit type but two pairs, the result is exact, or the exception for
    its side is thrown, where the result [-2^63] counts as an underflow
    when no operand is zero.  The two pairs slip through the checks: the
    sum of two minimal durations is 0, and zero minus the minimal duration
    is the minimal duration. *)
Theorem Duration_arith a b :
  is_int64 a -> is_int64 b ->
  (~ (a = int64_min /\ b = int64_min) ->
     Duration_add a b = exact_duration (a + b) ((a <? 0) && (b <? 0))) /\
  (~ (a = 0 /\ b = int64_min) ->
     Duration_sub a b = exact_duration (a - b) ((a <? 0) && (0 <? b))) /\
  Duration_add int64_min int64_min = Ok 0 /\ Duration_sub 0 int64_min = Ok int64_min.
Proof.
  intros Ha Hb. split_and!; [| |reflexivity|reflexivity]; intros Hne.
  - unfold Duration_add, bounds_check_duration_sum, exact_duration. rewrite !abs_u64_spec by done.
    unfold is_int64, int64_min, int64_max in *.
    rewrite (wrap_u_id 64 (_ + _)) by (unfold in_u; lia).
    repeat match goal with |- context [?x <? ?y] => destruct (Z.ltb_spec x y) end; simpl;
      try destruct (Z.eqb_spec (a + b) (- 2 ^ 63)); simpl; try done; try lia;
      rewrite i64_id; unfold int64_min, int64_max; done || lia.
  - unfold Duration_sub, bounds_check_duration_difference, exact_duration. rewrite !abs_u64_spec by done.
    unfold is_int64, int64_min, int64_max in *.
    assert (Hu : 0 < a /\ b < 0 \/ a < 0 /\ 0 < b -> u64 (Z.abs a + Z.abs b) = Z.abs a + Z.abs b).
    { intros. apply wrap_u_id. unfold in_u. lia. }
    destruct (decide (0 < a /\ b < 0 \/ a < 0 /\ 0 < b)) as [E|E]; [rewrite Hu by done|]; clear Hu;
    repeat match goal with |- context [?x <? ?y] => destruct (Z.ltb_spec x y) end; simpl;
      try destruct (Z.eqb_spec (a - b) (- 2 ^ 63)); simpl; try done; try lia;
      rewrite i64_id; unfold int64_min, int64_max; done || lia.
Qed.

(** The split of a count of nanoseconds into whole seconds, rounded down,
    and a remainder. *)
Lemma split_ns ns :
  S_TO_NS (Z.quot ns (S_TO_NS 1)) + Z.rem ns (S_TO_NS 1) = ns /\
  (0 <= ns -> 0 <= Z.rem ns (S_TO_NS 1) < S_TO_NS 1) /\
  (ns <= 0 -> - S_TO_NS 1 < Z.rem ns (S_TO_NS 1) <= 0).
Proof.
  unfold S_TO_NS. pose proof (Z.quot_rem ns (1 * 1000000000)). split; [lia|].
  split; intros Hns.
  - apply Z.rem_bound_pos; lia.
  - apply Z.rem_bound_pos_neg; lia.
Qed.

Lemma i32_id x : - 2 ^ 31 <= x < 2 ^ 31 -> i32 x = x.
Proof. intros. apply wrap_s_id; [lia|]. unfold in_s. lia. Qed.

Lemma u32_id x : 0 <= x < 2 ^ 32 -> u32 x = x.
Proof. intros. by apply wrap_u_id. Qed.

(** The value a message stands for. *)
Definition msg_value (m : TimeMsg) : Z := S_TO_NS (sec m) + nanosec m.

Definition msg_normal (m : TimeMsg) : Prop := - 2 ^ 31 <= sec m < 2 ^ 31 /\ 0 <= nanosec m < 1000000000.

Lemma convert_value ns :
  - 2 ^ 31 * 1000000000 <= ns < 2 ^ 31 * 1000000000 ->
  msg_normal (convert_rcl_time_to_sec_nanos ns) /\ msg_value (convert_rcl_time_to_sec_nanos ns) = ns.
Proof.
  intros Hns. destruct (split_ns ns) as (Hs & Hp & Hn). unfold convert_rcl_time_to_sec_nanos.
  set (q := Z.quot _ _) in *. set (r := Z.rem _ _) in *. unfold S_TO_NS in *.
  destruct (Z.leb_spec 0 r); unfold msg_normal, msg_value; cbn [sec nanosec];
    rewrite i32_id, u32_id by lia; unfold S_TO_NS; lia.
Qed.

Lemma read_value m : msg_normal m -> i64 (i64 (S_TO_NS (sec m)) + nanosec m) = msg_value m.
Proof.
  unfold msg_normal, msg_value, S_TO_NS. intros [Hs Hn].
  rewrite (i64_id (sec m * _)) by (unfold int64_min, int64_max; lia).
  apply i64_id. unfold int64_min, int64_max. lia.
Qed.

(** round trip of time stamps. Over the whole range of the message
    type, a point in time becomes a message with a normalised nanosecond
    field and the same value, also before the epoch; reading a message back
    returns the same point when it is not before the epoch, and throws when
    it is. *)
Theorem Time_msg_roundtrip ns c :
  - 2 ^ 31 * 1000000000 <= ns < 2 ^ 31 * 1000000000 ->
  let m := Time_to_msg (mkTime ns c) in
  msg_normal m /\ msg_value m = ns /\
  Time_of_msg m c = (if 0 <=? ns then Ok (mkTime ns c) else Throw RuntimeError).
Proof.
  intros Hns m. destruct (convert_value ns Hns) as [Hm Hv].
  change (convert_rcl_time_to_sec_nanos ns) with m in Hm, Hv. split; [done|]. split; [done|].
  unfold Time_of_msg. rewrite read_value, Hv by done.
  destruct Hm as [Hs Hn]. unfold msg_value, S_TO_NS in Hv.
  destruct (Z.ltb_spec (sec m) 0), (Z.leb_spec 0 ns); done || lia.
Qed.

(** durations in messages. Within the range of the message type a
    duration round-trips through its message, which is normalised.  Above
    it, and below it unless the duration is a whole number of seconds, the
    message saturates; a whole number of seconds below the range is not
    saturated: its seconds are reduced modulo 2^32. *)
Theorem Duration_msg_roundtrip d :
  is_int64 d ->
  let m := Duration_to_msg d in
  (- 2 ^ 31 * 1000000000 <= d < 2 ^ 31 * 1000000000 -> msg_normal m /\ Duration_of_msg m = d) /\
  (2 ^ 31 * 1000000000 <= d -> m = mkTimeMsg (2 ^ 31 - 1) (2 ^ 32 - 1)) /\
  (d < - 2 ^ 31 * 1000000000 -> Z.rem d 1000000000 <> 0 -> m = mkTimeMsg (- 2 ^ 31) 0) /\
  (d < - 2 ^ 31 * 1000000000 -> Z.rem d 1000000000 = 0 -> m = mkTimeMsg (i32 (Z.quot d 1000000000)) 0).
Proof.
  intros Hd m. destruct (split_ns d) as (Hs & Hp & Hn).
  assert (Hm : Duration_to_msg d = m) by done. unfold Duration_to_msg in Hm.
  set (q := Z.quot _ _) in *. set (r := Z.rem _ _) in *.
  change (Z.rem d 1000000000) with r. change (Z.quot d 1000000000) with q.
  unfold S_TO_NS in Hs, Hp, Hn, Hm.
  assert (Hread : forall a n, - 2 ^ 31 <= a < 2 ^ 31 -> 0 <= n < 1000000000 ->
    msg_normal (mkTimeMsg (i32 a) (u32 n)) /\
    Duration_of_msg (mkTimeMsg (i32 a) (u32 n)) = a * 1000000000 + n).
  { intros a n Ha Hn'. rewrite i32_id, u32_id by lia. split; [done|].
    unfold Duration_of_msg. by rewrite read_value. }
  destruct (Z.leb_spec 0 r) as [Hr|Hr].
  - assert (r < 1000000000) by (destruct (Z.leb_spec 0 d); lia).
    destruct (Z.ltb_spec (2 ^ 31 - 1) q) as [Hq|Hq]; rewrite <- Hm; split_and!; intros; try lia; [done| |].
    + destruct (Hread q r) as [H1 H2]; [lia|lia|]. split; [done|]. rewrite H2. lia.
    + replace r with 0 by lia. done.
  - destruct (Z.leb_spec q (- 2 ^ 31)) as [Hq|Hq]; rewrite <- Hm; split_and!; intros; try lia; [done|].
    destruct (Hread (q - 1) (1 * 1000000000 + r)) as [H1 H2]; [lia|lia|]. split; [done|]. rewrite H2. lia.
Qed.

(** The rmw representation. A non-negative duration round-trips through
    [rmw_time_t]; a negative one is refused; and every [rmw_time_t] reads
    as the smaller of its exact value and the largest duration. *)
Theorem rmw_time_roundtrip d t :
  is_int64 d -> 0 <= rmw_sec t < 2 ^ 64 -> 0 <= rmw_nsec t < 2 ^ 64 ->
  (0 <= d -> exists r, to_rmw_time d = Ok r /\ from_rmw_time r = d /\ 0 <= rmw_nsec r < 1000000000) /\
  (d < 0 -> to_rmw_time d = Throw RuntimeError) /\
  from_rmw_time t = Z.min (S_TO_NS (rmw_sec t) + rmw_nsec t) int64_max.
Proof.
  intros Hd Hs Hn.
  assert (Hfrom : forall t, 0 <= rmw_sec t < 2 ^ 64 -> 0 <= rmw_nsec t < 2 ^ 64 ->
    from_rmw_time t = Z.min (S_TO_NS (rmw_sec t) + rmw_nsec t) int64_max).
  { clear. intros t Hs Hn. unfold from_rmw_time. unfold S_TO_NS, int64_max in *.
    change (Z.quot (2 ^ 63 - 1) 1000000000) with 9223372036.
    destruct (Z.ltb_spec 9223372036 (rmw_sec t)), (Z.ltb_spec (2 ^ 63 - 1) (rmw_nsec t)); simpl orb;
      cbv iota; try lia.
    rewrite (wrap_u_id 64 (_ * _)) by (unfold in_u; lia). rewrite wrap_u_id by (unfold in_u; lia).
    destruct (Z.ltb_spec (2 ^ 63 - 1) (rmw_sec t * 1000000000 + rmw_nsec t)); [lia|].
    rewrite i64_id; unfold int64_min, int64_max; lia. }
  split_and!; [|intros Hneg; unfold to_rmw_time; destruct (Z.ltb_spec d 0); [done|lia]|by apply Hfrom].
  intros Hpos. destruct (split_ns d) as (Hq & Hr & _). specialize (Hr Hpos).
  unfold to_rmw_time. destruct (Z.ltb_spec d 0); [lia|].
  set (q := Z.quot _ _) in *. set (r := Z.rem _ _) in *.
  unfold is_int64, int64_min, int64_max, S_TO_NS in *.
  exists (mkRmwTime q r). rewrite !wrap_u_id by (unfold in_u; lia). split; [done|].
  rewrite Hfrom by (cbn; lia). cbn [rmw_sec rmw_nsec]. lia.
Qed.

(** ** Witnesses *)

Lemma Time_arith_exact_witness :
  Time_add (mkTime int64_max RCL_ROS_TIME) 1 = Throw OverflowError /\
  Time_sub (mkTime 5 RCL_ROS_TIME) (mkTime 7 RCL_ROS_TIME) = Ok (-2).
Proof.
  destruct (Time_arith_exact (mkTime int64_max RCL_ROS_TIME) (mkTime 5 RCL_ROS_TIME) 1) as (H & _);
    [unfold is_int64, int64_min, int64_max; simpl; lia..|].
  split; [rewrite H; reflexivity|reflexivity].
Defined.

Lemma Duration_arith_witness : Duration_add (-5) 7 = Ok 2 /\ Duration_sub 0 int64_min = Ok int64_min.
Proof.
  destruct (Duration_arith (-5) 7) as (H & _ & _ & H'); [unfold is_int64, int64_min, int64_max; lia..|].
  split; [rewrite H; [reflexivity|intros [? ?]; discriminate]|exact H'].
Defined.

Lemma Time_msg_roundtrip_witness :
  Time_to_msg (mkTime (-1) RCL_ROS_TIME) = mkTimeMsg (-1) 999999999 /\
  Time_of_msg (Time_to_msg (mkTime 1500000000 RCL_ROS_TIME)) RCL_ROS_TIME = Ok (mkTime 1500000000 RCL_ROS_TIME).
Proof. split; [reflexivity|]. apply (Time_msg_roundtrip 1500000000 RCL_ROS_TIME). lia. Defined.

Lemma Duration_msg_roundtrip_witness :
  Duration_of_msg (Duration_to_msg (-1500000000)) = -1500000000 /\
  Duration_to_msg (-3000000000 * 1000000000) = mkTimeMsg 1294967296 0.
Proof.
  split.
  - apply (Duration_msg_roundtrip (-1500000000)); [unfold is_int64, int64_min, int64_max|]; lia.
  - apply (Duration_msg_roundtrip (-3000000000 * 1000000000));
      [unfold is_int64, int64_min, int64_max; lia|lia|reflexivity].
Defined.

Lemma rmw_time_roundtrip_witness : from_rmw_time (mkRmwTime (2 ^ 63) 5) = int64_max.
Proof.
  destruct (rmw_time_roundtrip 0 (mkRmwTime (2 ^ 63) 5)) as (_ & _ & H);
    [unfold is_int64, int64_min, int64_max; lia|cbn; lia|cbn; lia|].
  rewrite H. reflexivity.
Defined.
