(* ===== verification/MsgCache.v ===== *)
(** * message_filters Cache

    [message_filters/include/message_filters/cache.h]: the last messages of
    a topic, ordered by time stamp.  The trait [TimeStamp<M>] gives the
    stamps of one message type on one clock, so it is a function into
    nanoseconds together with that clock; comparisons with the points in
    time of a caller throw when the clocks differ.  Reading [cache_] out of
    range, which is undefined in C++, is the error [OutOfRange]. *)

From Stdlib Require Import ZArith Lia.
From stdpp Require Import base numbers list sets.
From S2P Require Import Prelude RclTime.

Inductive cache_error := Thrown (e : time_error) | OutOfRange.

Definition thrown {A} (r : Result time_error A) : Result cache_error A :=
  match r with Ok a => Ok a | Throw e => Throw (Thrown e) end.

Section Cache.
Context {M : Type}.
Variable stamp : M -> Z.
Variable clock : ClockType.

Record Cache := mkCache { cache_ : list M; cache_size_ : nat }.

(** [TimeStamp<M>::value]. *)
Definition value (m : M) : Time := mkTime (stamp m) clock.

Definition setCacheSize (c : Cache) (cache_size : nat) : Cache :=
  if (cache_size =? 0)%nat then c else mkCache (cache_ c) cache_size.

(** The member [cache_size_] has no initialiser: [uninitialized] is the
    value it holds when the constructor is given the size 0. *)
Definition Cache_init (uninitialized cache_size : nat) : Cache :=
  setCacheSize (mkCache [] uninitialized) cache_size.

(** [while (cache_.size() >= cache_size_) cache_.pop_front()]. *)
Fixpoint pop_old (cache_size : nat) (l : list M) : list M :=
  if (cache_size <=? length l)%nat then
    match l with
    | [] => []
    | _ :: l' => pop_old cache_size l'
    end
  else l.

(** The walk backwards to the insertion point, and the insertion. *)
Definition insert_by_stamp (evt : M) (l : list M) : list M :=
  let '(newer, older) := span (fun m => stamp evt <? stamp m) (rev l) in
  rev older ++ evt :: rev newer.

(** The new cache and the message signalled to the output. *)
Definition Cache_add (c : Cache) (evt : M) : Cache * M :=
  (mkCache (insert_by_stamp evt (pop_old (cache_size_ c) (cache_ c))) (cache_size_ c), evt).

Definition at_ (c : Cache) (i : nat) : Result cache_error M :=
  match cache_ c !! i with Some m => Ok m | None => Throw OutOfRange end.

(** Advance an index while the message there satisfies a test. *)
Fixpoint advance (test : M -> Result time_error bool) (l : list M) (i : nat) : Result cache_error nat :=
  match l with
  | [] => Ok i
  | m :: l' =>
      let! b := thrown (test m) in
      if b then advance test l' (i + 1) else Ok i
  end.

Definition getInterval (c : Cache) (start end_ : Time) : Result cache_error (list M) :=
  let! start_index := advance (fun m => Time_ltb (value m) start) (cache_ c) 0 in
  let! end_index := advance (fun m => Time_leb (value m) end_) (drop start_index (cache_ c)) start_index in
  Ok (take (end_index - start_index) (drop start_index (cache_ c))).

Fixpoint surrounding_start (c : Cache) (start : Time) (start_index : nat) : Result cache_error nat :=
  match start_index with
  | O => Ok O
  | S j =>
      let! m := at_ c start_index in
      let! b := thrown (Time_gtb (value m) start) in
      if b then surrounding_start c start j else Ok start_index
  end.

Fixpoint surrounding_end (c : Cache) (end_ : Time) (steps end_index : nat) : Result cache_error nat :=
  match steps with
  | O => Ok end_index
  | S n =>
      let! m := at_ c end_index in
      let! b := thrown (Time_ltb (value m) end_) in
      if b then surrounding_end c end_ n (end_index + 1) else Ok end_index
  end.

(** On an empty cache both indices are -1 and [cache_[-1]] is read. *)
Definition getSurroundingInterval (c : Cache) (start end_ : Time) : Result cache_error (list M) :=
  if (length (cache_ c) =? 0)%nat then Throw OutOfRange
  else
    let! start_index := surrounding_start c start (length (cache_ c) - 1) in
    let! end_index := surrounding_end c end_ (length (cache_ c) - 1 - start_index) start_index in
    Ok (take (end_index - start_index + 1) (drop start_index (cache_ c))).

Definition getElemBeforeTime (c : Cache) (time : Time) : Result cache_error (option M) :=
  let! i := advance (fun m => Time_ltb (value m) time) (cache_ c) 0 in
  match i with
  | O => Ok None
  | S elem_index => let! m := at_ c elem_index in Ok (Some m)
  end.

(** The loop counts the messages from the back that are after [time]. *)
Definition getElemAfterTime (c : Cache) (time : Time) : Result cache_error (option M) :=
  let! n := advance (fun m => Time_gtb (value m) time) (rev (cache_ c)) 0 in
  match n with
  | O => Ok None
  | S _ => let! m := at_ c (length (cache_ c) - n) in Ok (Some m)
  end.

Definition getLatestTime (c : Cache) : Time :=
  match last (cache_ c) with Some m => value m | None => Time_default end.

Definition getOldestTime (c : Cache) : Time :=
  match head (cache_ c) with Some m => value m | None => Time_default end.

(** ** Correctness *)

Local Abbreviation sorted := (ascending stamp).

Lemma pop_old_spec n l : (1 <= n)%nat -> pop_old n l = drop (S (length l) - n) l.
Proof.
  intros Hn. induction l as [|m l IH].
  { simpl. destruct n; [lia|]. by rewrite drop_nil. }
  cbn [pop_old length]. destruct (Nat.leb_spec n (S (length l))).
  - rewrite IH. assert (E : (S (S (length l)) - n = S (S (length l) - n))%nat) by lia.
    by rewrite E.
  - assert (E : (S (S (length l)) - n = 0)%nat) by lia. by rewrite E.
Qed.

Lemma ascending_rev l : sorted l <-> descending stamp (rev l).
Proof.
  assert (Hr : forall (l : list M) y, y ∈ rev l <-> y ∈ l).
  { intros l0 y. rewrite !list_elem_of_In. symmetry. apply in_rev. }
  induction l as [|x l IH]; [split; constructor|].
  simpl rev. rewrite ascending_cons, descending_app, IH.
  assert (descending stamp [x]) by repeat constructor. split.
  - intros [H1 H2]. split_and!; [|done|done].
    intros y z Hy ->%list_elem_of_singleton. apply H1, Hr, Hy.
  - intros (H1 & H2 & _). split; [|done]. intros y Hy. apply (H1 y x); [by apply Hr|].
    apply list_elem_of_here.
Qed.

Lemma span_ext {A} (p q : A -> bool) l : (forall x, p x = q x) -> span p l = span q l.
Proof. intros H. induction l as [|x l IH]; simpl; [done|]. by rewrite H, IH. Qed.

Lemma insert_by_stamp_sorted evt l : sorted l -> sorted (insert_by_stamp evt l).
Proof.
  rewrite !ascending_rev. intros Hs%(descending_insert stamp evt). revert Hs.
  unfold insert_by_stamp. rewrite (span_ext (fun m => stamp evt <? stamp m) (fun t => negb (stamp t <=? stamp evt)))
    by (intros; apply Z.ltb_antisym).
  destruct (span _ (rev l)) as [n o]. simpl. rewrite rev_app_distr. simpl.
  rewrite !rev_involutive, <- app_assoc. done.
Qed.

Lemma insert_by_stamp_perm evt l : insert_by_stamp evt l ≡ₚ evt :: l.
Proof.
  unfold insert_by_stamp. pose proof (span_app (fun m => stamp evt <? stamp m) (rev l)) as H.
  destruct (span _ (rev l)) as [n o]. simpl in H.
  rewrite <- (rev_involutive l), <- H, rev_app_distr. symmetry. apply Permutation_middle.
Qed.

(** adding keeps the newest messages in order. For a cache that is
    ordered by stamp and within its size, [add] leaves a cache that is
    ordered, never exceeds the size, and holds the new message and the
    old ones except, when the cache was full, the oldest; the message is
    passed on whatever its stamp. *)
Theorem Cache_add_correct c evt :
  sorted (cache_ c) -> (1 <= cache_size_ c)%nat -> (length (cache_ c) <= cache_size_ c)%nat ->
  let '(c', signalled) := Cache_add c evt in
  sorted (cache_ c') /\ cache_size_ c' = cache_size_ c /\ signalled = evt /\
  (length (cache_ c') <= cache_size_ c)%nat /\
  cache_ c' ≡ₚ evt :: (if decide (length (cache_ c) = cache_size_ c)
                       then tail (cache_ c) else cache_ c).
Proof.
  intros Hs Hpos Hlen. unfold Cache_add. cbn [cache_ cache_size_]. rewrite pop_old_spec by done.
  set (k := (S (length (cache_ c)) - cache_size_ c)%nat).
  assert (Hd : drop k (cache_ c) =
    if decide (length (cache_ c) = cache_size_ c) then tail (cache_ c) else cache_ c).
  { subst k. case_decide as H.
    - replace (S (length (cache_ c)) - cache_size_ c)%nat with 1%nat by lia. by destruct (cache_ c).
    - by replace (S (length (cache_ c)) - cache_size_ c)%nat with 0%nat by lia. }
  assert (Hsd : sorted (drop k (cache_ c))).
  { rewrite <- (take_drop k (cache_ c)) in Hs. by apply ascending_app in Hs as (_ & _ & Hs). }
  split_and!; [by apply insert_by_stamp_sorted|done|done| |].
  - rewrite insert_by_stamp_perm. cbn [length]. rewrite length_drop. subst k. lia.
  - by rewrite insert_by_stamp_perm, Hd.
Qed.

(** ** Queries on the cache's own clock *)

Lemma advance_span (test : M -> Result time_error bool) p l i :
  (forall m, test m = Ok (p m)) -> advance test l i = Ok (i + length (span p l).1)%nat.
Proof.
  intros Ht. revert i. induction l as [|m l IH]; intros i; simpl; [f_equal; lia|].
  rewrite Ht. simpl. destruct (p m); [|simpl; f_equal; lia].
  rewrite IH. destruct (span p l). simpl. f_equal. lia.
Qed.

Lemma same_clock_test op m ns : Time_compare op (value m) (mkTime ns clock) = Ok (op (stamp m) ns).
Proof. unfold Time_compare. by rewrite bool_decide_eq_true_2. Qed.

Lemma span_length_take p (l : list M) : take (length (span p l).1) l = (span p l).1.
Proof. rewrite <- (span_app p l) at 2. by rewrite take_app_length. Qed.

Lemma span_length_drop p (l : list M) : drop (length (span p l).1) l = (span p l).2.
Proof. rewrite <- (span_app p l) at 2. by rewrite drop_app_length. Qed.

(** On an ordered list, the longest prefix below a bound is the filter. *)
Lemma sorted_span (p : M -> bool) l :
  sorted l -> (forall x y, stamp x <= stamp y -> p y = true -> p x = true) ->
  (span p l).1 = filter (fun x => p x = true) l /\ (span p l).2 = filter (fun x => p x = false) l.
Proof.
  intros Hs Hp. induction l as [|x l IH]; [done|].
  apply ascending_cons in Hs as [Hx Hs]. destruct (IH Hs) as [IH1 IH2]. clear IH. simpl.
  rewrite !filter_cons. destruct (p x) eqn:E.
  - rewrite decide_True, decide_False by congruence. destruct (span p l). simpl in *. by subst.
  - rewrite decide_False, decide_True by congruence. simpl.
    assert (Hall : forall y, y ∈ l -> p y = false).
    { intros y Hy. destruct (p y) eqn:Ey; [|done]. rewrite <- E. symmetry. eapply Hp, Ey. by apply Hx. }
    rewrite filter_none, filter_all; [done| |]; apply Forall_forall; [done|].
    intros y Hy. rewrite (Hall y Hy). done.
Qed.

(** [getInterval] returns exactly the messages of the interval, both
    ends included, in order, for an ordered cache and any two points in
    time, ordered or not. *)
Theorem getInterval_exact c s e :
  sorted (cache_ c) ->
  getInterval c (mkTime s clock) (mkTime e clock) =
    Ok (filter (fun m => s <= stamp m /\ stamp m <= e) (cache_ c)).
Proof.
  intros Hs. unfold getInterval.
  rewrite (advance_span _ (fun m => stamp m <? s)) by (intros; apply same_clock_test). cbn [rbind].
  rewrite Nat.add_0_l, span_length_drop.
  destruct (sorted_span (fun m => stamp m <? s) (cache_ c) Hs) as [_ H2].
  { intros x y. rewrite !Z.ltb_lt. lia. }
  rewrite H2. set (l := filter _ (cache_ c)).
  assert (Hl : sorted l).
  { subst l. rewrite <- H2. rewrite <- (span_app (fun m => stamp m <? s) (cache_ c)) in Hs.
    by apply ascending_app in Hs as (_ & _ & Hs). }
  rewrite (advance_span _ (fun m => stamp m <=? e)) by (intros; apply same_clock_test). cbn [rbind].
  rewrite Nat.add_comm, Nat.add_sub, span_length_take.
  destruct (sorted_span (fun m => stamp m <=? e) l Hl) as [-> _].
  { intros x y. rewrite !Z.leb_le. lia. }
  subst l. f_equal. rewrite list_filter_filter. apply list_filter_iff.
  intros x. rewrite Z.leb_le, Z.ltb_ge. tauto.
Qed.

(** the neighbours of a point in time. On an ordered cache,
    [getElemBeforeTime] is the last message before it and
    [getElemAfterTime] the first one after it, and they are absent
    exactly when there is no such message. *)
Theorem getElem_neighbours c t :
  sorted (cache_ c) ->
  getElemBeforeTime c (mkTime t clock) = Ok (last (filter (fun m => stamp m < t) (cache_ c))) /\
  getElemAfterTime c (mkTime t clock) = Ok (head (filter (fun m => t < stamp m) (cache_ c))).
Proof.
  intros Hs. split.
  - unfold getElemBeforeTime.
    rewrite (advance_span _ (fun m => stamp m <? t)) by (intros; apply same_clock_test). cbn [rbind].
    destruct (sorted_span (fun m => stamp m <? t) (cache_ c) Hs) as [H1 _].
    { intros x y. rewrite !Z.ltb_lt. lia. }
    rewrite (list_filter_iff _ (fun x => (stamp x <? t) = true)) by (intros; by rewrite Z.ltb_lt).
    rewrite <- H1, Nat.add_0_l. pose proof (span_length_take (fun m => stamp m <? t) (cache_ c)) as Ht.
    set (b := (span _ _).1) in *. rewrite last_lookup. destruct (length b) as [|n] eqn:En.
    + by apply nil_length_inv in En as ->.
    + cbn [Nat.pred]. unfold at_. rewrite <- Ht, lookup_take_lt by lia.
      destruct (lookup_lt_is_Some_2 (cache_ c) n) as [m Hm]; [|by rewrite Hm].
      apply (f_equal length) in Ht. rewrite length_take in Ht. lia.
  - unfold getElemAfterTime.
    rewrite (advance_span _ (fun m => t <? stamp m)).
    2:{ intros m. unfold Time_gtb. rewrite same_clock_test. f_equal. apply Z.gtb_ltb. }
    cbn [rbind]. rewrite Nat.add_0_l.
    pose proof Hs as Hd. apply ascending_rev in Hd.
    destruct (descending_span stamp t (rev (cache_ c)) Hd) as [D1 D2].
    rewrite (span_ext (fun m => t <? stamp m) (fun m => negb (stamp m <=? t))) by (intros; apply Z.ltb_antisym).
    pose proof (span_app (fun m => negb (stamp m <=? t)) (rev (cache_ c))) as Ha.
    set (newer := (span _ _).1) in *. set (older := (span _ _).2) in *.
    assert (Hc : cache_ c = rev older ++ rev newer).
    { by rewrite <- rev_app_distr, Ha, rev_involutive. }
    assert (Hf : filter (fun m => t < stamp m) (cache_ c) = rev newer).
    { rewrite Hc, filter_app, (filter_all _ (rev newer)), (filter_none _ (rev older)); [done| |];
        apply Forall_forall; intros x Hx; rewrite list_elem_of_In, <- in_rev, <- list_elem_of_In in Hx.
      - specialize (D2 x Hx). lia.
      - by apply D1. }
    rewrite Hf. assert (Hl : length (cache_ c) = (length older + length newer)%nat).
    { rewrite Hc, length_app, !length_rev. done. }
    destruct (length newer) as [|n] eqn:En.
    + by apply nil_length_inv in En as ->.
    + unfold at_. rewrite Hl, Nat.add_sub, Hc, lookup_app_r by (rewrite length_rev; lia).
      rewrite length_rev, Nat.sub_diag. destruct (rev newer) as [|m r] eqn:Er; [|done].
      apply (f_equal length) in Er. rewrite length_rev, En in Er. discriminate.
Qed.

Lemma surrounding_start_spec c s i :
  (i < length (cache_ c))%nat ->
  exists j, surrounding_start c (mkTime s clock) i = Ok j /\ (j <= i)%nat /\
    (forall m, cache_ c !! j = Some m -> j = 0%nat \/ stamp m <= s) /\
    (forall k m, (j < k <= i)%nat -> cache_ c !! k = Some m -> s < stamp m).
Proof.
  induction i as [|i IH]; intros Hi.
  { exists 0%nat. split_and!; [done|lia|by left|lia]. }
  cbn [surrounding_start]. unfold at_.
  destruct (lookup_lt_is_Some_2 _ _ Hi) as [m Hm]. rewrite Hm. cbn [rbind].
  unfold Time_gtb. rewrite same_clock_test. cbn [thrown rbind]. rewrite Z.gtb_ltb.
  destruct (Z.ltb_spec s (stamp m)).
  - destruct IH as (j & -> & Hj & H1 & H2); [lia|]. exists j. split_and!; [done|lia|done|].
    intros k m' Hk Hm'. destruct (decide (k = S i)) as [->|]; [by simplify_eq|].
    eapply H2; [|done]. lia.
  - exists (S i). split_and!; [done|lia| |lia]. intros m' Hm'. right. by simplify_eq.
Qed.

Lemma surrounding_end_spec c e n i :
  (i + n < length (cache_ c))%nat ->
  exists j, surrounding_end c (mkTime e clock) n i = Ok j /\ (i <= j <= i + n)%nat /\
    (forall m, cache_ c !! j = Some m -> j = (i + n)%nat \/ e <= stamp m) /\
    (forall k m, (i <= k < j)%nat -> cache_ c !! k = Some m -> stamp m < e).
Proof.
  revert i. induction n as [|n IH]; intros i Hi.
  { exists i. split_and!; [done|lia|lia|left; lia|lia]. }
  cbn [surrounding_end]. unfold at_.
  destruct (lookup_lt_is_Some_2 (cache_ c) i) as [m Hm]; [lia|]. rewrite Hm. cbn [rbind].
  unfold Time_ltb. rewrite same_clock_test. cbn [thrown rbind].
  destruct (Z.ltb_spec (stamp m) e).
  - destruct (IH (i + 1)%nat) as (j & -> & Hj & H1 & H2); [lia|]. exists j.
    split_and!; [done|lia|lia| |].
    + intros m' Hm'. destruct (H1 _ Hm'); [left; lia|by right].
    + intros k m' Hk Hm'. destruct (decide (k = i)) as [->|]; [by simplify_eq|].
      eapply H2; [|done]. lia.
  - exists i. split_and!; [done|lia|lia| |lia]. intros m' Hm'. right. by simplify_eq.
Qed.

(** [getSurroundingInterval] returns the messages from the last one
    that is not after the start (or the first of all) to the first one
    from there on that is not before the end (or the last of all), for
    any non-empty cache; on an empty cache it reads out of range. *)
Theorem getSurroundingInterval_spec c s e :
  match getSurroundingInterval c (mkTime s clock) (mkTime e clock) with
  | Throw err => err = OutOfRange /\ cache_ c = []
  | Ok l => exists i j, (i <= j < length (cache_ c))%nat /\ l = take (j - i + 1) (drop i (cache_ c)) /\
      (forall m, cache_ c !! i = Some m -> i = 0%nat \/ stamp m <= s) /\
      (forall k m, (i < k)%nat -> cache_ c !! k = Some m -> s < stamp m) /\
      (forall m, cache_ c !! j = Some m -> j = (length (cache_ c) - 1)%nat \/ e <= stamp m) /\
      (forall k m, (i <= k < j)%nat -> cache_ c !! k = Some m -> stamp m < e)
  end.
Proof.
  unfold getSurroundingInterval. destruct (Nat.eqb_spec (length (cache_ c)) 0) as [H0|H0].
  { split; [done|by apply nil_length_inv]. }
  destruct (surrounding_start_spec c s (length (cache_ c) - 1)) as (i & -> & Hi & S1 & S2); [lia|].
  cbn [rbind].
  destruct (surrounding_end_spec c e (length (cache_ c) - 1 - i) i) as (j & -> & Hj & E1 & E2); [lia|].
  cbn [rbind]. exists i, j. split; [lia|]. split; [done|]. split; [done|]. split; [|split; [|done]].
  - intros k m Hk Hm. eapply S2; [|done]. apply lookup_lt_Some in Hm. lia.
  - intros m Hm. destruct (E1 _ Hm); [left; lia|by right].
Qed.
End Cache.

(** ** Witnesses *)

Section Witnesses.
Definition sample : Cache := mkCache [1; 3; 3; 6] 4.

Lemma sample_ordered : ascending id (cache_ sample).
Proof. repeat (constructor; simpl; try lia). Qed.

Lemma Cache_add_correct_witness :
  cache_ (Cache_add id sample 2).1 = [2; 3; 3; 6] /\ ascending id (cache_ (Cache_add id sample 2).1).
Proof.
  split; [reflexivity|].
  apply (Cache_add_correct id sample 2 sample_ordered); simpl; lia.
Defined.

Lemma getInterval_exact_witness :
  getInterval id RCL_ROS_TIME sample (mkTime 2 RCL_ROS_TIME) (mkTime 5 RCL_ROS_TIME) = Ok [3; 3].
Proof. rewrite (getInterval_exact id RCL_ROS_TIME sample 2 5 sample_ordered). reflexivity. Defined.

Lemma getElem_neighbours_witness :
  getElemBeforeTime id RCL_ROS_TIME sample (mkTime 3 RCL_ROS_TIME) = Ok (Some 1) /\
  getElemAfterTime id RCL_ROS_TIME sample (mkTime 3 RCL_ROS_TIME) = Ok (Some 6).
Proof.
  destruct (getElem_neighbours id RCL_ROS_TIME sample 3 sample_ordered) as [-> ->]. split; reflexivity.
Defined.
End Witnesses.
