(* ===== verification/TimeSequencer.v ===== *)
(** * message_filters TimeSequencer

    [message_filters/include/message_filters/time_sequencer.h]: messages are
    held back for a fixed delay and passed on in temporal order.  The
    [std::multiset] is a list in the order of its iteration; the wall timer
    that calls [dispatch] and the clock it reads are the environment, so the
    current time is an argument.  Both operations can throw in the middle
    of a comparison, so each returns the state it leaves together with its
    result. *)

From Stdlib Require Import ZArith Lia.
From stdpp Require Import base numbers list sets.
From S2P Require Import Prelude RclTime MsgCache.

Section TimeSequencer.
Context {M : Type}.
Variable stamp : M -> Z.
Variable clock : ClockType.

Record TimeSequencer := mkTimeSequencer {
  delay_ : Z;
  queue_size_ : nat;
  messages_ : list M;
  last_time_ : Time;
}.

Definition TimeSequencer_init (delay : Z) (queue_size : nat) : TimeSequencer :=
  mkTimeSequencer delay queue_size [] Time_default.

(** [std::multiset::insert]: after the equivalent elements. *)
Definition multiset_insert (evt : M) (l : list M) : list M :=
  let '(before, after) := span (fun m => negb (stamp evt <? stamp m)) l in
  before ++ evt :: after.

(** [std::multiset::erase(const key_type &)]: every equivalent element. *)
Definition multiset_erase (key : M) (l : list M) : list M :=
  filter (fun m => stamp m <> stamp key) l.

Definition TimeSequencer_add (s : TimeSequencer) (evt : M)
  : TimeSequencer * Result time_error unit :=
  match Time_ltb (value stamp clock evt) (last_time_ s) with
  | Throw e => (s, Throw e)
  | Ok true => (s, Ok tt)
  | Ok false =>
      let messages := multiset_insert evt (messages_ s) in
      let messages :=
        if negb (queue_size_ s =? 0)%nat && (queue_size_ s <? length messages)%nat then
          match messages with
          | [] => messages
          | oldest :: _ => multiset_erase oldest messages
          end
        else messages in
      (mkTimeSequencer (delay_ s) (queue_size_ s) messages (last_time_ s), Ok tt)
  end.

(** The loop of [dispatch] over the messages: those left, the time of the
    last one taken, those taken. *)
Fixpoint dispatch_loop (delay : Z) (now : Time) (messages : list M) (last_time : Time) (to_call : list M)
  : list M * Time * Result time_error (list M) :=
  match messages with
  | [] => ([], last_time, Ok to_call)
  | e :: rest =>
      match (let! t := Time_add (value stamp clock e) delay in Time_leb t now) with
      | Throw err => (messages, last_time, Throw err)
      | Ok true => dispatch_loop delay now rest (value stamp clock e) (to_call ++ [e])
      | Ok false => (messages, last_time, Ok to_call)
      end
  end.

(** The new state and the messages signalled to the output. *)
Definition TimeSequencer_dispatch (s : TimeSequencer) (now : Time)
  : TimeSequencer * Result time_error (list M) :=
  let '(messages, last_time, to_call) := dispatch_loop (delay_ s) now (messages_ s) (last_time_ s) [] in
  (mkTimeSequencer (delay_ s) (queue_size_ s) messages last_time, to_call).

(** ** Invariant *)

Local Abbreviation sorted := (ascending stamp).

Lemma multiset_insert_perm evt l : multiset_insert evt l ≡ₚ evt :: l.
Proof.
  unfold multiset_insert. pose proof (span_app (fun m => negb (stamp evt <? stamp m)) l) as H.
  destruct (span _ l) as [a b]. simpl in H. rewrite <- H. symmetry. apply Permutation_middle.
Qed.

Lemma multiset_insert_sorted evt l : sorted l -> sorted (multiset_insert evt l).
Proof.
  intros Hs. unfold multiset_insert. pose proof Hs as Hs'.
  destruct (sorted_span stamp (fun m => negb (stamp evt <? stamp m)) l Hs) as [H1 H2].
  { intros x y. rewrite !negb_true_iff, !Z.ltb_ge. lia. }
  rewrite <- (span_app (fun m => negb (stamp evt <? stamp m)) l) in Hs'.
  apply ascending_app in Hs' as (Ha & Hl1 & Hl2).
  destruct (span _ l) as [a b]. simpl in *. apply ascending_app. split_and!; [|done|].
  - intros x y Hx [->|Hy]%elem_of_cons; [|by apply Ha].
    rewrite H1 in Hx. apply list_elem_of_filter in Hx as [Hx _].
    apply negb_true_iff, Z.ltb_ge in Hx. done.
  - apply ascending_cons. split; [|done]. intros y Hy.
    rewrite H2 in Hy. apply list_elem_of_filter in Hy as [Hy _].
    apply negb_false_iff, Z.ltb_lt in Hy. lia.
Qed.

Lemma ascending_filter (P : M -> Prop) `{!forall x, Decision (P x)} l : sorted l -> sorted (filter P l).
Proof.
  intros Hs. induction l as [|x l IH]; [done|].
  apply ascending_cons in Hs as [Hx Hs]. rewrite filter_cons.
  case_decide; [|auto]. apply ascending_cons. split; [|auto].
  intros y [_ Hy]%list_elem_of_filter. auto.
Qed.

(** The held messages are in order and none is older than the last one
    passed on, which was on the same clock. *)
Definition sequencer_ok (s : TimeSequencer) : Prop :=
  sorted (messages_ s) /\ clock_type (last_time_ s) = clock /\
  forall m, m ∈ messages_ s -> nanoseconds (last_time_ s) <= stamp m.

Lemma add_same_clock s evt :
  clock_type (last_time_ s) = clock ->
  Time_ltb (value stamp clock evt) (last_time_ s) = Ok (stamp evt <? nanoseconds (last_time_ s)).
Proof.
  destruct s as [d q ms [ns c]]. simpl. intros ->. apply (same_clock_test stamp).
Qed.

Lemma TimeSequencer_add_ok s evt : sequencer_ok s -> sequencer_ok (TimeSequencer_add s evt).1.
Proof.
  intros (Hs & Hc & Hl). unfold TimeSequencer_add. rewrite add_same_clock by done.
  destruct (Z.ltb_spec (stamp evt) (nanoseconds (last_time_ s))); [done|].
  assert (Hi : sorted (multiset_insert evt (messages_ s))) by (by apply multiset_insert_sorted).
  assert (Hin : forall m, m ∈ multiset_insert evt (messages_ s) -> nanoseconds (last_time_ s) <= stamp m).
  { intros m. rewrite multiset_insert_perm. intros [->|Hm]%elem_of_cons; auto. }
  split_and!; simpl; [|done|].
  - destruct (_ && _)%bool; [|done]. destruct (multiset_insert _ _); [done|]. by apply ascending_filter.
  - intros m. destruct (_ && _)%bool; [|apply Hin].
    destruct (multiset_insert _ _) as [|o l]; [apply Hin|].
    intros [_ Hm]%list_elem_of_filter. by apply Hin.
Qed.

Lemma dispatch_loop_spec delay now l last to_call :
  sorted l -> clock_type last = clock -> (forall m, m ∈ l -> nanoseconds last <= stamp m) ->
  let '(rest, last', called) := dispatch_loop delay now l last to_call in
  exists taken, l = taken ++ rest /\ clock_type last' = clock /\
    (forall m, m ∈ rest -> nanoseconds last' <= stamp m) /\ nanoseconds last <= nanoseconds last' /\
    (forall m, m ∈ taken -> stamp m <= nanoseconds last') /\
    (called = Ok (to_call ++ taken) \/ exists e, called = Throw e).
Proof.
  revert last to_call. induction l as [|m l IH]; intros last to_call Hs Hc Hl; simpl.
  { exists []. rewrite !app_nil_r. split_and!; try done; try lia; [by intros ? ?%elem_of_nil|by left]. }
  apply ascending_cons in Hs as [Hm Hs].
  destruct (rbind _ _) as [[|]|e].
  - specialize (IH (value stamp clock m) (to_call ++ [m]) Hs eq_refl Hm).
    destruct (dispatch_loop _ _ l _ _) as [[rest last'] called].
    destruct IH as (taken & -> & Hc' & H1 & H2 & H3 & H4). exists (m :: taken).
    assert (nanoseconds last <= stamp m) by (apply Hl; set_solver). simpl in H2.
    split_and!; [done|done|done|lia| |].
    + intros x [->|Hx]%elem_of_cons; [done|auto].
    + by rewrite <- app_assoc in H4.
  - exists []. rewrite !app_nil_r. split_and!; try done; try lia; [by intros ? ?%elem_of_nil|by left].
  - exists []. split_and!; try done; try lia; [by intros ? ?%elem_of_nil|right; eauto].
Qed.

(** ** Runs *)

Inductive Event := Add (m : M) | Dispatch (now : Time).

(** One call, with the messages it passes on; an exception reaches the
    caller and passes nothing on. *)
Definition run_event (s : TimeSequencer) (e : Event) : TimeSequencer * list M :=
  match e with
  | Add m => ((TimeSequencer_add s m).1, [])
  | Dispatch now =>
      let '(s, r) := TimeSequencer_dispatch s now in
      (s, match r with Ok l => l | Throw _ => [] end)
  end.

Fixpoint run (s : TimeSequencer) (es : list Event) : TimeSequencer * list M :=
  match es with
  | [] => (s, [])
  | e :: es => let '(s, out) := run_event s e in let '(s, out') := run s es in (s, out ++ out')
  end.

Lemma run_event_ok s e :
  sequencer_ok s ->
  let '(s', out) := run_event s e in
  sequencer_ok s' /\ sorted out /\ nanoseconds (last_time_ s) <= nanoseconds (last_time_ s') /\
  forall m, m ∈ out -> nanoseconds (last_time_ s) <= stamp m <= nanoseconds (last_time_ s').
Proof.
  intros Hok. pose proof Hok as (Hs & Hc & Hl). destruct e as [m|now]; simpl.
  - split_and!; [by apply TimeSequencer_add_ok|constructor| |set_solver].
    unfold TimeSequencer_add. destruct (Time_ltb _ _) as [[]|]; simpl; lia.
  - unfold TimeSequencer_dispatch.
    pose proof (dispatch_loop_spec (delay_ s) now (messages_ s) (last_time_ s) [] Hs Hc Hl) as H.
    destruct (dispatch_loop _ _ _ _ _) as [[rest last'] called].
    destruct H as (taken & Hm & Hc' & H1 & H2 & H3 & H4). rewrite Hm in Hs, Hl.
    apply ascending_app in Hs as (_ & Ht & Hleft).
    split; [by split_and!|]. cbn [last_time_]. split_and!; [|done|].
    + by destruct H4 as [->|[e ->]]; [|constructor].
    + destruct H4 as [->|[e ->]]; [|set_solver]. intros x Hx. split; [|by apply H3].
      apply Hl. set_solver.
Qed.

Lemma run_ok s es :
  sequencer_ok s ->
  sorted (run s es).2 /\ forall m, m ∈ (run s es).2 -> nanoseconds (last_time_ s) <= stamp m.
Proof.
  revert s. induction es as [|e es IH]; intros s Hok; simpl; [split; [constructor|set_solver]|].
  pose proof (run_event_ok s e Hok) as H. destruct (run_event s e) as [s1 out].
  destruct H as (Hok1 & Hs1 & Hl1 & Hb1). specialize (IH s1 Hok1).
  destruct (run s1 es) as [s2 out']. simpl in *. destruct IH as [IH1 IH2]. split.
  - apply ascending_app. split_and!; [|done|done]. intros x y Hx Hy.
    specialize (Hb1 x Hx). specialize (IH2 y Hy). lia.
  - intros m [Hm|Hm]%elem_of_app; [apply Hb1 in Hm; lia|apply IH2 in Hm; lia].
Qed.

(** temporal order. Whatever messages arrive, in whatever order, and
    whenever the timer fires, also when additions overflow: the messages
    that a sequencer for system-time stamps passes on, over all its
    dispatches together, are in temporal order. *)
Theorem TimeSequencer_ordered delay queue_size es :
  clock = RCL_SYSTEM_TIME ->
  sorted (run (TimeSequencer_init delay queue_size) es).2.
Proof.
  intros Hc. apply run_ok. split_and!; [constructor|by rewrite Hc|set_solver].
Qed.

(** stamps of another clock are never accepted. A new sequencer
    compares with a default-constructed time, which is on the system
    clock; so [add] throws for every message whose stamps are on another
    clock, among them the ROS-time stamps of messages with a header, and
    stays as it was. *)
Theorem TimeSequencer_add_throws delay queue_size m :
  clock <> RCL_SYSTEM_TIME ->
  let s := TimeSequencer_init delay queue_size in
  TimeSequencer_add s m = (s, Throw RuntimeError).
Proof.
  intros Hc s. unfold TimeSequencer_add, Time_ltb, Time_compare. simpl.
  by rewrite bool_decide_eq_false_2.
Qed.

(** What [add] does, on one clock. A message older than the last one
    passed on is ignored; otherwise it is inserted after those that are
    not newer.  When this exceeds a non-zero queue size, every message
    with the oldest stamp is dropped, not only the oldest message. *)
Theorem TimeSequencer_add_spec s m :
  sequencer_ok s ->
  let '(s', r) := TimeSequencer_add s m in
  r = Ok tt /\ last_time_ s' = last_time_ s /\
  (stamp m < nanoseconds (last_time_ s) -> s' = s) /\
  (nanoseconds (last_time_ s) <= stamp m ->
     (queue_size_ s = 0%nat \/ (length (messages_ s) < queue_size_ s)%nat ->
        messages_ s' ≡ₚ m :: messages_ s) /\
     (queue_size_ s <> 0%nat -> (queue_size_ s <= length (messages_ s))%nat ->
        exists oldest, oldest ∈ m :: messages_ s /\
          (forall x, x ∈ m :: messages_ s -> stamp oldest <= stamp x) /\
          messages_ s' ≡ₚ filter (fun x => stamp x <> stamp oldest) (m :: messages_ s))).
Proof.
  intros (Hs & Hc & Hl). unfold TimeSequencer_add. rewrite add_same_clock by done.
  pose proof (multiset_insert_perm m (messages_ s)) as Hp.
  pose proof (multiset_insert_sorted m (messages_ s) Hs) as Hi.
  set (ms := multiset_insert m (messages_ s)) in *.
  assert (Hlen : length ms = S (length (messages_ s))) by (by rewrite Hp).
  destruct (Z.ltb_spec (stamp m) (nanoseconds (last_time_ s))); cbn [messages_ last_time_].
  { split_and!; try done. lia. }
  split_and!; [done|done|lia|]. intros _. split.
  - intros Hq. replace (_ && _)%bool with false; [done|]. symmetry. apply andb_false_iff.
    destruct Hq as [->|Hq]; [by left|right]. apply Nat.ltb_ge. lia.
  - intros Hq0 Hq. apply Nat.eqb_neq in Hq0. rewrite Hq0.
    assert (Hlt : (queue_size_ s <? length ms)%nat = true) by (apply Nat.ltb_lt; lia).
    rewrite Hlt. cbn [negb andb]. destruct ms as [|o ms']; [done|]. exists o.
    apply ascending_cons in Hi as [Ho _]. split_and!.
    + rewrite <- Hp. set_solver.
    + intros x. rewrite <- Hp. intros [->|Hx]%elem_of_cons; [lia|auto].
    + unfold multiset_erase. by rewrite Hp.
Qed.
End TimeSequencer.

(** ** Witnesses *)

Section Witnesses.
Definition full : TimeSequencer := mkTimeSequencer 0 2 [1; 1] (mkTime 0 RCL_SYSTEM_TIME).

Lemma full_ok : sequencer_ok id RCL_SYSTEM_TIME full.
Proof.
  split_and!; [repeat (constructor; simpl; try lia)|done|].
  intros m [->|[->|[]%elem_of_nil]%elem_of_cons]%elem_of_cons; done.
Qed.

Lemma TimeSequencer_ordered_witness :
  ascending id
    (run id RCL_SYSTEM_TIME (TimeSequencer_init 1 0)
       [Add 5; Add 3; Dispatch (mkTime 4 RCL_SYSTEM_TIME); Add 2; Add 4; Dispatch (mkTime 9 RCL_SYSTEM_TIME)]).2 /\
  (run id RCL_SYSTEM_TIME (TimeSequencer_init 1 0)
     [Add 5; Add 3; Dispatch (mkTime 4 RCL_SYSTEM_TIME); Add 2; Add 4; Dispatch (mkTime 9 RCL_SYSTEM_TIME)]).2
    = [3; 4; 5].
Proof. split; [by apply (TimeSequencer_ordered id RCL_SYSTEM_TIME 1 0)|reflexivity]. Defined.

Lemma TimeSequencer_add_throws_witness :
  (TimeSequencer_add id RCL_ROS_TIME (TimeSequencer_init 1 10) 5).2 = Throw RuntimeError.
Proof. by rewrite (TimeSequencer_add_throws id RCL_ROS_TIME 1 10 5). Defined.

Lemma TimeSequencer_add_spec_witness :
  messages_ (TimeSequencer_add id RCL_SYSTEM_TIME full 3).1 = [3] /\
  (TimeSequencer_add id RCL_SYSTEM_TIME full 3).2 = Ok tt.
Proof.
  split; [reflexivity|].
  apply (TimeSequencer_add_spec id RCL_SYSTEM_TIME full 3 full_ok).
Defined.
End Witnesses.
