(* ===== verification/ExactTime.v ===== *)
(** * message_filters ExactTime policy

    [message_filters/include/message_filters/sync_policies/exact_time.h]:
    messages of [n] topics are grouped by equal stamps.  A tuple has one
    slot per topic; the nine slots of the C++ tuple beyond the real topics
    stay empty and are left out.  The topics' message types are one type
    [M]; their stamps are on one clock, so no comparison throws.  The map
    [tuples_] is an association list in key order.  Calls of the signals are
    returned, in order. *)

From Stdlib Require Import ZArith Lia.
From stdpp Require Import base numbers list sets sorting.
From S2P Require Import Prelude.

Section ExactTime.
Context {M : Type}.
Variable stamp : M -> Z.
Variable n : nat.                     (* RealTypeCount::value *)

Local Abbreviation Tuple := (list (option M)).

Inductive Output :=
| Signal (t : Tuple)                  (* parent_->signal *)
| Drop (t : Tuple).                   (* drop_signal_.call *)

Record ExactTime := mkExactTime {
  queue_size_ : nat;
  tuples_ : list (Z * Tuple);
  last_signal_time_ : option Z;       (* None: default-constructed *)
}.

Definition ExactTime_init (queue_size : nat) : ExactTime := mkExactTime queue_size [] None.

Definition empty_tuple : Tuple := replicate n None.

(** [std::map::operator[]]: the tuple at a key, default-constructed if new. *)
Definition tuple_at (tuples : list (Z * Tuple)) (k : Z) : Tuple :=
  match list_find (fun p => p.1 = k) tuples with
  | Some (_, p) => p.2
  | None => empty_tuple
  end.

(** Writing through the reference that [operator[]] returned. *)
Fixpoint set_tuple (tuples : list (Z * Tuple)) (k : Z) (t : Tuple) : list (Z * Tuple) :=
  match tuples with
  | [] => [(k, t)]
  | p :: rest =>
      if k <? p.1 then (k, t) :: tuples
      else if k =? p.1 then (k, t) :: rest
      else p :: set_tuple rest k t
  end.

Definition erase (tuples : list (Z * Tuple)) (k : Z) : list (Z * Tuple) :=
  filter (fun p => p.1 <> k) tuples.

Definition is_full (t : Tuple) : bool := forallb (fun o => bool_decide (is_Some o)) t.

(** The loop stops at the first key after the last signal time. *)
Fixpoint clearOldTuples (tuples : list (Z * Tuple)) (last_signal_time : Z)
  : list (Z * Tuple) * list Output :=
  match tuples with
  | [] => ([], [])
  | p :: rest =>
      if p.1 <=? last_signal_time then
        let '(rest, out) := clearOldTuples rest last_signal_time in (rest, Drop p.2 :: out)
      else (tuples, [])
  end.

(** [while (tuples_.size() > queue_size_)]. *)
Fixpoint drop_excess (queue_size : nat) (tuples : list (Z * Tuple)) : list (Z * Tuple) * list Output :=
  match tuples with
  | [] => ([], [])
  | p :: rest =>
      if (queue_size <? length tuples)%nat then
        let '(rest, out) := drop_excess queue_size rest in (rest, Drop p.2 :: out)
      else (tuples, [])
  end.

(** The signal time: the stamp of the first slot's message. *)
Definition signal_time (t : Tuple) : option Z :=
  match t with Some m :: _ => Some (stamp m) | _ => None end.

Definition checkTuple (s : ExactTime) (t : Tuple) : ExactTime * list Output :=
  let '(s, out) :=
    match is_full t, signal_time t with
    | true, Some time =>
        let '(tuples, dropped) := clearOldTuples (erase (tuples_ s) time) time in
        (mkExactTime (queue_size_ s) tuples (Some time), Signal t :: dropped)
    | _, _ => (s, [])
    end in
  if (0 <? queue_size_ s)%nat then
    let '(tuples, dropped) := drop_excess (queue_size_ s) (tuples_ s) in
    (mkExactTime (queue_size_ s) tuples (last_signal_time_ s), out ++ dropped)
  else (s, out).

(** [add<i>]. *)
Definition ExactTime_add (s : ExactTime) (i : nat) (evt : M) : ExactTime * list Output :=
  let t := <[i := Some evt]> (tuple_at (tuples_ s) (stamp evt)) in
  checkTuple (mkExactTime (queue_size_ s) (set_tuple (tuples_ s) (stamp evt) t) (last_signal_time_ s)) t.

(** ** Invariant *)

Definition tuple_ok (k : Z) (t : Tuple) : Prop :=
  length t = n /\ forall i m, t !! i = Some (Some m) -> stamp m = k.

Definition tuples_ok (tuples : list (Z * Tuple)) : Prop :=
  StronglySorted (fun p q => p.1 < q.1) tuples /\ Forall (fun p => tuple_ok p.1 p.2) tuples.

Definition no_full (tuples : list (Z * Tuple)) : Prop := Forall (fun p => is_full p.2 = false) tuples.

Record policy_ok (s : ExactTime) : Prop := {
  ok_tuples : tuples_ok (tuples_ s);
  ok_pending : no_full (tuples_ s);
  ok_size : (0 < queue_size_ s)%nat -> (length (tuples_ s) <= queue_size_ s)%nat;
}.

Lemma tuples_cons k t l :
  tuples_ok ((k, t) :: l) <-> (forall p, p ∈ l -> k < p.1) /\ tuple_ok k t /\ tuples_ok l.
Proof. unfold tuples_ok. rewrite StronglySorted_cons, Forall_cons, Forall_forall. naive_solver. Qed.

Lemma tuple_at_cons p l k :
  tuple_at (p :: l) k = if decide (p.1 = k) then p.2 else tuple_at l k.
Proof.
  unfold tuple_at. simpl. case_decide; [done|].
  by destruct (list_find _ l) as [[i q]|].
Qed.

Lemma tuple_at_ok l k : tuples_ok l -> tuple_ok k (tuple_at l k).
Proof.
  intros [_ Hl]. induction Hl as [|[k' t] l Ht _ IH].
  - split; [apply length_replicate|]. by intros i m [Hi _]%lookup_replicate.
  - rewrite tuple_at_cons. case_decide as H; [simpl in H; by subst|done].
Qed.

Lemma insert_tuple_ok k t i m : tuple_ok k t -> stamp m = k -> tuple_ok k (<[i := Some m]> t).
Proof.
  intros [Hl Ht] Hm. split; [by rewrite length_insert|]. intros j m' Hj.
  apply list_lookup_insert_Some in Hj as [(-> & [= ->] & _)|[_ Hj]]; eauto.
Qed.

Lemma set_tuple_elem l k t p : p ∈ set_tuple l k t -> p = (k, t) \/ p ∈ l.
Proof.
  induction l as [|q l IH]; simpl; [set_solver|].
  destruct (k <? q.1); [set_solver|]. destruct (k =? q.1); set_solver.
Qed.

Lemma set_tuple_ok l k t : tuples_ok l -> tuple_ok k t -> tuples_ok (set_tuple l k t).
Proof.
  intros Hl Ht. induction l as [|[k' t'] l IH]; simpl.
  { apply tuples_cons. split_and!; [set_solver|done|done]. }
  pose proof Hl as Hl0. apply tuples_cons in Hl as (Hk & Ht' & Hl).
  destruct (Z.ltb_spec k k'); [|destruct (Z.eqb_spec k k')].
  - apply tuples_cons. split_and!; [|done|done]. intros p [->|Hp]%elem_of_cons; [done|].
    specialize (Hk p Hp). lia.
  - subst. by apply tuples_cons.
  - apply tuples_cons. split_and!; [|done|by apply IH]. intros p [->|Hp]%set_tuple_elem; [simpl; lia|auto].
Qed.

Lemma sublist_ok l l' : (exists d, l = d ++ l') -> tuples_ok l -> tuples_ok l'.
Proof.
  intros [d ->] [H1 H2]. apply StronglySorted_app in H1 as (_ & _ & H1).
  apply Forall_app in H2 as [_ H2]. done.
Qed.

Lemma erase_ok l k : tuples_ok l -> tuples_ok (erase l k).
Proof.
  intros Hl. induction l as [|[k' t'] l IH]; [done|].
  apply tuples_cons in Hl as (Hk & Ht' & Hl). unfold erase in *. rewrite filter_cons.
  case_decide; [|auto]. apply tuples_cons. split_and!; [|done|auto].
  intros p [_ Hp]%list_elem_of_filter. auto.
Qed.

Lemma clearOldTuples_spec l time :
  let '(l', out) := clearOldTuples l time in
  exists d, l = d ++ l' /\ out = map (fun p => Drop p.2) d /\ Forall (fun p => p.1 <= time) d /\
    (tuples_ok l -> forall p, p ∈ l' -> time < p.1).
Proof.
  induction l as [|[k t] l IH]; simpl.
  { exists []. split_and!; [done|done|constructor|set_solver]. }
  destruct (Z.leb_spec k time) as [Hk|Hk].
  - destruct (clearOldTuples l time) as [l' out]. destruct IH as (d & -> & -> & Hd & Hl).
    exists ((k, t) :: d). split_and!; [done|done|by constructor|]. intros Hok. apply Hl.
    by apply tuples_cons in Hok as (_ & _ & Hok).
  - exists []. split_and!; [done|done|constructor|]. intros Hok p [->|Hp]%elem_of_cons; [done|].
    apply tuples_cons in Hok as (Hok & _). specialize (Hok p Hp). lia.
Qed.

Lemma drop_excess_spec q l :
  let '(l', out) := drop_excess q l in
  exists d, l = d ++ l' /\ out = map (fun p => Drop p.2) d /\ (length l' <= q)%nat /\
    (d <> [] -> length l' = q).
Proof.
  induction l as [|p l IH]; cbn [drop_excess].
  { exists []. split_and!; [done|done|simpl; lia|done]. }
  destruct (Nat.ltb_spec q (length (p :: l))) as [Hq|Hq]; simpl in Hq.
  - destruct (drop_excess q l) as [l' out]. destruct IH as (d & -> & -> & Hl & Hd).
    exists (p :: d). split_and!; [done|done|done|]. intros _.
    destruct d as [|q' d]; [simpl in Hq; lia|]. by apply Hd.
  - exists []. split_and!; [done|done|simpl; lia|done].
Qed.

Lemma signal_time_full k t :
  (0 < n)%nat -> tuple_ok k t -> is_full t = true -> signal_time t = Some k.
Proof.
  intros Hn [Hl Ht] Hf. destruct t as [|o t]; [simpl in Hl; lia|]. simpl in Hf.
  apply andb_true_iff in Hf as [Hf _]. apply bool_decide_eq_true in Hf as [m ->]. simpl.
  f_equal. by apply (Ht 0%nat).
Qed.

Lemma set_tuple_erase l k t : tuples_ok l -> erase (set_tuple l k t) k = erase l k.
Proof.
  intros Hl. unfold erase. induction l as [|[k' t'] l IH]; simpl.
  { by rewrite filter_cons_False by auto. }
  apply tuples_cons in Hl as (Hk & _ & Hl).
  destruct (Z.ltb_spec k k'); [|destruct (Z.eqb_spec k k')].
  - by rewrite filter_cons_False by auto.
  - subst. rewrite !filter_cons_False by auto. done.
  - rewrite !filter_cons. by rewrite IH.
Qed.

(** The step of [checkTuple] before the queue is cut to its size. *)
Lemma complete_step l k t :
  (0 < n)%nat -> tuples_ok l -> no_full l -> tuple_ok k t ->
  let '(l', out) :=
    match is_full t, signal_time t with
    | true, Some time =>
        let '(tuples, dropped) := clearOldTuples (erase (set_tuple l k t) time) time in
        (tuples, Signal t :: dropped)
    | _, _ => (set_tuple l k t, [])
    end in
  tuples_ok l' /\ no_full l' /\
  (is_full t = false -> l' = set_tuple l k t /\ out = []) /\
  (is_full t = true -> (forall p, p ∈ l' -> k < p.1) /\
     exists d, erase l k = d ++ l' /\ out = Signal t :: map (fun p => Drop p.2) d).
Proof.
  intros Hn Hl Hf Ht. destruct (is_full t) eqn:E.
  - rewrite (signal_time_full k t) by done. rewrite set_tuple_erase by done.
    pose proof (clearOldTuples_spec (erase l k) k) as H.
    destruct (clearOldTuples (erase l k) k) as [l' out]. destruct H as (d & Hd & -> & Hle & Hgt).
    pose proof (erase_ok l k Hl) as He.
    split_and!; [eapply sublist_ok; eauto| |done|].
    + assert (Hff : no_full (erase l k)).
      { unfold no_full in *. rewrite Forall_forall in Hf |- *.
        intros p [_ Hp]%list_elem_of_filter. auto. }
      rewrite Hd in Hff. by apply Forall_app in Hff as [_ Hff].
    + intros _. split; [by apply Hgt|]. eauto.
  - split_and!; [by apply set_tuple_ok| |done|done].
    unfold no_full in *. rewrite Forall_forall in Hf |- *.
    intros p [->|Hp]%set_tuple_elem; auto.
Qed.

(** exact synchronisation. Adding a message to topic [i] of a policy
    in a valid state leaves a valid state: tuples in key order, each
    message in the tuple of its stamp, no complete tuple left waiting, no
    more tuples than the queue size.  The tuple of the message is
    signalled, before anything is dropped, exactly when it is complete;
    then all its messages have the stamp of the new one, and no tuple
    that is as old is left. *)
Theorem ExactTime_add_exact s i evt :
  (i < n)%nat -> policy_ok s ->
  let t := <[i := Some evt]> (tuple_at (tuples_ s) (stamp evt)) in
  let '(s', out) := ExactTime_add s i evt in
  policy_ok s' /\
  (is_full t = true ->
     head out = Some (Signal t) /\ (forall p, p ∈ tuples_ s' -> stamp evt < p.1) /\
     last_signal_time_ s' = Some (stamp evt)) /\
  (forall t', Signal t' ∈ out -> t' = t /\ is_full t = true /\
     forall j m, t' !! j = Some (Some m) -> stamp m = stamp evt).
Proof.
  intros Hi [Hok Hnf Hsz] t.
  assert (Ht : tuple_ok (stamp evt) t) by (by apply insert_tuple_ok; [apply tuple_at_ok|]).
  assert (Hn : (0 < n)%nat) by lia.
  pose proof (complete_step (tuples_ s) (stamp evt) t Hn Hok Hnf Ht) as H.
  unfold ExactTime_add. fold t. unfold checkTuple. cbn [tuples_ queue_size_ last_signal_time_].
  assert (Hcut : forall l, tuples_ok l -> no_full l ->
    let '(l', out) := drop_excess (queue_size_ s) l in
    tuples_ok l' /\ no_full l' /\ (length l' <= queue_size_ s)%nat /\
    (forall p, p ∈ l' -> p ∈ l) /\ forall t', Signal t' ∉ out).
  { intros l Hl Hf. pose proof (drop_excess_spec (queue_size_ s) l) as Hd.
    destruct (drop_excess _ l) as [l' out]. destruct Hd as (d & -> & -> & Hlen & _).
    split_and!; [eapply sublist_ok; eauto|by apply Forall_app in Hf as [_ Hf]|done|set_solver|].
    intros t'. rewrite list_elem_of_fmap. by intros (p & ? & _). }
  assert (Hdrop : forall d t', Signal t' ∈ Signal t :: map (fun p : Z * Tuple => Drop p.2) d -> t' = t).
  { intros d t' [[= ->]|Hin]%elem_of_cons; [done|].
    rewrite list_elem_of_fmap in Hin. by destruct Hin as (p & ? & _). }
  destruct (is_full t) eqn:E.
  - rewrite (signal_time_full (stamp evt) t) in * by done.
    destruct (clearOldTuples _ _) as [l1 out1]. destruct H as (H1 & H2 & _ & H3).
    destruct (H3 eq_refl) as (H4 & d & _ & H5). cbn [queue_size_ tuples_ last_signal_time_].
    destruct (Nat.ltb_spec 0 (queue_size_ s)) as [Hq|Hq].
    + specialize (Hcut l1 H1 H2). destruct (drop_excess _ l1) as [l2 out2].
      destruct Hcut as (C1 & C2 & C3 & C4 & C5). split_and!; [by constructor|intros _; split_and!; [done|by auto|done]|].
      intros t' [Hin|Hin]%elem_of_app; [|by apply C5 in Hin].
      rewrite H5 in Hin. apply Hdrop in Hin as ->. split_and!; [done|done|apply Ht].
    + split_and!; [constructor; simpl; done || lia|intros _; by split_and!|].
      intros t' Hin. rewrite H5 in Hin. apply Hdrop in Hin as ->. split_and!; [done|done|apply Ht].
  - destruct H as (H1 & H2 & _ & _). cbn [queue_size_ tuples_ last_signal_time_].
    destruct (Nat.ltb_spec 0 (queue_size_ s)) as [Hq|Hq].
    + specialize (Hcut _ H1 H2). destruct (drop_excess _ _) as [l2 out2].
      destruct Hcut as (C1 & C2 & C3 & C4 & C5). split_and!; [by constructor|done|].
      intros t' [Hin|Hin]%elem_of_app; [set_solver|by apply C5 in Hin].
    + split_and!; [constructor; simpl; done || lia|done|set_solver].
Qed.

(** ** Conservation *)

Definition messages (t : Tuple) : list M := omap id t.
Definition pending (l : list (Z * Tuple)) : list M := concat (map (fun p => messages p.2) l).
Definition output_messages (out : list Output) : list M :=
  concat (map (fun o => match o with Signal t | Drop t => messages t end) out).

Lemma messages_insert (t : Tuple) i m :
  (i < length t)%nat ->
  option_list (mjoin (t !! i)) ++ messages (<[i := Some m]> t) ≡ₚ m :: messages t.
Proof.
  revert i. induction t as [|o t IH]; intros i Hi; simpl in Hi; [lia|].
  destruct i as [|i]; simpl.
  - destruct o as [m'|]; simpl; [apply perm_swap|done].
  - specialize (IH i ltac:(lia)). unfold messages in *. simpl.
    destruct o as [m'|]; simpl; [|done].
    rewrite <- Permutation_middle, IH. apply perm_swap.
Qed.

Lemma messages_empty : messages empty_tuple = [].
Proof. unfold messages, empty_tuple. induction n as [|k IH]; [done|]. simpl. apply IH. Qed.

Lemma tuple_at_absent l k : (forall p, p ∈ l -> p.1 <> k) -> tuple_at l k = empty_tuple.
Proof.
  induction l as [|p l IH]; intros Hl; [done|]. rewrite tuple_at_cons, decide_False.
  - apply IH. set_solver.
  - apply Hl. apply list_elem_of_here.
Qed.

Lemma pending_erase l k : tuples_ok l -> pending l ≡ₚ messages (tuple_at l k) ++ pending (erase l k).
Proof.
  intros Hl. induction l as [|[k' t'] l IH]; [by rewrite tuple_at_absent, messages_empty by set_solver|].
  apply tuples_cons in Hl as (Hk & _ & Hl). rewrite tuple_at_cons. unfold erase in *. simpl.
  rewrite filter_cons. simpl. destruct (decide (k' = k)) as [->|Hne].
  - rewrite decide_False by auto. change (pending ((k, t') :: l)) with (messages t' ++ pending l).
    rewrite filter_all; [done|]. apply Forall_forall. intros p Hp. specialize (Hk p Hp). lia.
  - rewrite decide_True by auto.
    change (messages t' ++ pending l ≡ₚ messages (tuple_at l k) ++ messages t' ++ pending (filter (fun p => p.1 <> k) l)).
    rewrite IH by done. rewrite !app_assoc. f_equiv. apply Permutation_app_comm.
Qed.

Lemma pending_set l k t :
  tuples_ok l -> messages (tuple_at l k) ++ pending (set_tuple l k t) ≡ₚ messages t ++ pending l.
Proof.
  intros Hl. induction l as [|[k' t'] l IH].
  { rewrite tuple_at_absent, messages_empty by set_solver. simpl. done. }
  pose proof Hl as Hl0. apply tuples_cons in Hl as (Hk & _ & Hl). cbn [set_tuple fst].
  destruct (Z.ltb_spec k k').
  - rewrite tuple_at_absent, messages_empty; [done|].
    intros p [->|Hp]%elem_of_cons; simpl; [lia|]. specialize (Hk p Hp). lia.
  - rewrite tuple_at_cons. cbn [fst snd].
    destruct (Z.eqb_spec k k') as [->|Hne].
    + rewrite decide_True by done.
      change (messages t' ++ messages t ++ pending l ≡ₚ messages t ++ messages t' ++ pending l).
      rewrite !app_assoc. f_equiv. apply Permutation_app_comm.
    + rewrite decide_False by auto.
      change (messages (tuple_at l k) ++ messages t' ++ pending (set_tuple l k t) ≡ₚ
              messages t ++ messages t' ++ pending l).
      rewrite (Permutation_app_swap_app (messages (tuple_at l k))), IH by done.
      apply Permutation_app_swap_app.
Qed.

Lemma pending_app l l' : pending (l ++ l') = pending l ++ pending l'.
Proof. unfold pending. by rewrite map_app, concat_app. Qed.

Lemma output_drops d : output_messages (map (fun p : Z * Tuple => Drop p.2) d) = pending d.
Proof. unfold output_messages, pending. by rewrite map_map. Qed.

Lemma output_app o o' : output_messages (o ++ o') = output_messages o ++ output_messages o'.
Proof. unfold output_messages. by rewrite map_app, concat_app. Qed.

Lemma drop_excess_conserves q l :
  let '(l', out) := drop_excess q l in pending l ≡ₚ pending l' ++ output_messages out.
Proof.
  pose proof (drop_excess_spec q l) as H. destruct (drop_excess q l) as [l' out].
  destruct H as (d & -> & -> & _). rewrite pending_app, output_drops. apply Permutation_app_comm.
Qed.

(** no message is lost or duplicated. Every message of a valid state
    and the new one is afterwards in exactly one place: still pending, in
    a tuple that was signalled or dropped, or replaced by the new message,
    when the same topic already had one with this stamp. *)
Theorem ExactTime_conservation s i evt :
  (i < n)%nat -> policy_ok s ->
  let replaced := option_list (mjoin (tuple_at (tuples_ s) (stamp evt) !! i)) in
  let '(s', out) := ExactTime_add s i evt in
  replaced ++ pending (tuples_ s') ++ output_messages out ≡ₚ evt :: pending (tuples_ s).
Proof.
  intros Hi [Hok Hnf Hsz] replaced. set (t0 := tuple_at (tuples_ s) (stamp evt)) in *.
  pose proof (tuple_at_ok (tuples_ s) (stamp evt) Hok) as Ht0. fold t0 in Ht0.
  assert (Ht : tuple_ok (stamp evt) (<[i := Some evt]> t0)) by (by apply insert_tuple_ok).
  unfold ExactTime_add. fold t0. set (t := <[i := Some evt]> t0) in *.
  assert (Hn : (0 < n)%nat) by lia.
  assert (Hrep : replaced ++ messages t ≡ₚ evt :: messages t0).
  { apply messages_insert. by rewrite (proj1 Ht0). }
  assert (Hmain : forall l' out, replaced ++ pending l' ++ output_messages out ≡ₚ evt :: pending (tuples_ s) ->
    forall l'' out', pending l' ≡ₚ pending l'' ++ output_messages out' ->
    replaced ++ pending l'' ++ output_messages (out ++ out') ≡ₚ evt :: pending (tuples_ s)).
  { intros l' out H0 l'' out' E. rewrite <- H0, E, output_app. f_equiv. rewrite <- app_assoc. f_equiv.
    apply Permutation_app_comm. }
  pose proof (complete_step (tuples_ s) (stamp evt) t Hn Hok Hnf Ht) as H.
  unfold checkTuple. cbn [tuples_ queue_size_ last_signal_time_].
  destruct (is_full t) eqn:E.
  - rewrite (signal_time_full (stamp evt) t) in * by done.
    destruct (clearOldTuples _ _) as [l1 out1]. destruct H as (_ & _ & _ & H3).
    destruct (H3 eq_refl) as (_ & d & Hd & Hout). cbn [queue_size_ tuples_].
    assert (H1 : replaced ++ pending l1 ++ output_messages (Signal t :: out1) ≡ₚ evt :: pending (tuples_ s)).
    { rewrite Hout. change (output_messages (Signal t :: map (fun p : Z * Tuple => Drop p.2) d)) with
        (messages t ++ output_messages (map (fun p : Z * Tuple => Drop p.2) d)).
      rewrite output_drops. rewrite (pending_erase (tuples_ s) (stamp evt)) by done. fold t0.
      rewrite Hd, pending_app, (Permutation_app_swap_app (pending l1)), app_assoc, Hrep. simpl. f_equiv.
      f_equiv. apply Permutation_app_comm. }
    destruct (0 <? queue_size_ s)%nat; [|done].
    pose proof (drop_excess_conserves (queue_size_ s) l1) as Hd2.
    destruct (drop_excess _ l1) as [l2 out2]. by apply (Hmain l1).
  - cbn [queue_size_ tuples_].
    assert (H1 : replaced ++ pending (set_tuple (tuples_ s) (stamp evt) t) ++ output_messages [] ≡ₚ
                 evt :: pending (tuples_ s)).
    { simpl. rewrite app_nil_r. apply (Permutation_app_inv_l (messages t0)).
      rewrite (Permutation_app_swap_app (messages t0)).
      unfold t0 at 1. rewrite pending_set by done. rewrite app_assoc, Hrep. simpl.
      apply Permutation_middle. }
    destruct (0 <? queue_size_ s)%nat; [|done].
    pose proof (drop_excess_conserves (queue_size_ s) (set_tuple (tuples_ s) (stamp evt) t)) as Hd2.
    destruct (drop_excess _ _) as [l2 out2]. by apply (Hmain (set_tuple (tuples_ s) (stamp evt) t) []).
Qed.
End ExactTime.

(** ** Witnesses *)

Section Witnesses.
(** Two topics; a message is its stamp and a payload. *)
Definition waiting : ExactTime := (ExactTime_add fst 2 (ExactTime_init 10) 0 (5, 100)).1.

Lemma waiting_ok : policy_ok fst 2 waiting.
Proof.
  constructor; [|repeat constructor|simpl; lia]. split; repeat constructor.
  intros i m. destruct i as [|[|i]]; simpl; try done. by intros [= <-].
Qed.

Lemma ExactTime_add_exact_witness :
  (ExactTime_add fst 2 waiting 1 (5, 200)).2 = [Signal [Some (5, 100); Some (5, 200)]] /\
  policy_ok fst 2 (ExactTime_add fst 2 waiting 1 (5, 200)).1.
Proof.
  split; [reflexivity|].
  apply (ExactTime_add_exact fst 2 waiting 1 (5, 200) ltac:(lia) waiting_ok).
Defined.

Lemma ExactTime_conservation_witness :
  [] ++ pending (tuples_ (ExactTime_add fst 2 waiting 1 (5, 200)).1) ++
    output_messages (ExactTime_add fst 2 waiting 1 (5, 200)).2 ≡ₚ (5, 200) :: pending (tuples_ waiting).
Proof. exact (ExactTime_conservation fst 2 waiting 1 (5, 200) ltac:(lia) waiting_ok). Defined.
End Witnesses.
