(* ===== verification/ApproximateTime.v ===== *)
(** * message_filters ApproximateTime policy

    [message_filters/include/message_filters/sync_policies/approximate_time.h]:
    sets of one message per topic with close stamps.  The members
    [std::get<i>] of the tuples [deques_] and [past_], and the entries [i] of
    the three vectors, are the record of topic [i]; only the real topics are
    kept.  The message types are one type [M] whose stamps are on one clock,
    so comparisons of points in time do not throw; arithmetic on them can.
    [scaled d] is the value of [d * (1 + age_penalty_)], for which the
    operator of [rclcpp::Duration] is instantiated below.

    A violated [RCUTILS_ASSERT] and the use of the front of an empty deque
    are the fault [Broken].  The theorems show that it does not occur. *)

From Stdlib Require Import ZArith Lia Floats.
From stdpp Require Import base numbers list sets.
From S2P Require Import Prelude RclTime.

Inductive fault := Exception (e : time_error) | Broken.

Definition lift {A} (r : Result time_error A) : Result fault A :=
  match r with Ok a => Ok a | Throw e => Throw (Exception e) end.

Section ApproximateTime.
Context {M : Type}.
Variable stamp : M -> Z.
Variable clock : ClockType.
Variable scaled : Z -> Result time_error Z.

Record Topic := mkTopic {
  deque : list M;
  past : list M;
  has_dropped : bool;
  lower_bound : Z;                    (* inter_message_lower_bounds_ *)
  warned : bool;                      (* warned_about_incorrect_bound_ *)
}.

Record ApproximateTime := mkApproximateTime {
  queue_size_ : nat;
  max_interval_duration_ : Z;
  topics_ : list Topic;
  num_non_empty_deques_ : nat;
  candidate_ : list M;
  candidate_start_ : Z;
  candidate_end_ : Z;
  pivot_time_ : Z;
  pivot_ : option nat;                (* None: NO_PIVOT *)
}.

Definition Topic_init : Topic := mkTopic [] [] false 0 false.

Definition ApproximateTime_init (n queue_size : nat) : ApproximateTime :=
  mkApproximateTime queue_size ((2 ^ 31 - 1) * 1000000000 + 999999999) (replicate n Topic_init) 0
    [] 0 0 0 None.

Definition RealTypeCount (s : ApproximateTime) : nat := length (topics_ s).

Definition set_topics (s : ApproximateTime) (ts : list Topic) (num : nat) : ApproximateTime :=
  mkApproximateTime (queue_size_ s) (max_interval_duration_ s) ts num (candidate_ s)
    (candidate_start_ s) (candidate_end_ s) (pivot_time_ s) (pivot_ s).

Definition set_candidate (s : ApproximateTime) (c : list M) (start_ end_ pivot_time : Z)
    (pivot : option nat) : ApproximateTime :=
  mkApproximateTime (queue_size_ s) (max_interval_duration_ s) (topics_ s) (num_non_empty_deques_ s)
    c start_ end_ pivot_time pivot.

Definition set_queues (t : Topic) (deque past : list M) : Topic :=
  mkTopic deque past (has_dropped t) (lower_bound t) (warned t).
Definition set_dropped (t : Topic) (b : bool) : Topic :=
  mkTopic (deque t) (past t) b (lower_bound t) (warned t).
Definition set_warned (t : Topic) : Topic :=
  mkTopic (deque t) (past t) (has_dropped t) (lower_bound t) true.

Definition topic (s : ApproximateTime) (i : nat) : Result fault Topic :=
  match topics_ s !! i with Some t => Ok t | None => Throw Broken end.

Definition time_minus (a b : Z) : Result fault Z := lift (Time_sub (mkTime a clock) (mkTime b clock)).

(** ** Moving messages *)

Definition dequeDeleteFront (s : ApproximateTime) (i : nat) : Result fault ApproximateTime :=
  let! t := topic s i in
  match deque t with
  | [] => Throw Broken
  | _ :: q =>
      Ok (set_topics s (<[i := set_queues t q (past t)]> (topics_ s))
            (match q with [] => num_non_empty_deques_ s - 1 | _ => num_non_empty_deques_ s end))
  end.

Definition dequeMoveFrontToPast (s : ApproximateTime) (i : nat) : Result fault ApproximateTime :=
  let! t := topic s i in
  match deque t with
  | [] => Throw Broken
  | m :: q =>
      Ok (set_topics s (<[i := set_queues t q (past t ++ [m])]> (topics_ s))
            (match q with [] => num_non_empty_deques_ s - 1 | _ => num_non_empty_deques_ s end))
  end.

Fixpoint fronts (ts : list Topic) : Result fault (list M) :=
  match ts with
  | [] => Ok []
  | t :: ts =>
      match deque t with
      | [] => Throw Broken
      | m :: _ => let! ms := fronts ts in Ok (m :: ms)
      end
  end.

(** [makeCandidate], with the candidate's interval and pivot, which the
    caller assigns next. *)
Definition makeCandidate (s : ApproximateTime) (start_ end_ pivot_time : Z) (pivot : option nat)
  : Result fault ApproximateTime :=
  let! ms := fronts (topics_ s) in
  Ok (set_candidate
        (set_topics s (map (fun t => set_queues t (deque t) []) (topics_ s)) (num_non_empty_deques_ s))
        ms start_ end_ pivot_time pivot).

(** The count that the [recover] functions rebuild from zero. *)
Definition count_non_empty (ts : list Topic) : nat :=
  length (filter (fun t => deque t <> []) ts).

(** [recover<i>(num_messages)]. *)
Definition recover_n (t : Topic) (num_messages : nat) : Result fault Topic :=
  if (num_messages <=? length (past t))%nat then
    let k := (length (past t) - num_messages)%nat in
    Ok (set_queues t (drop k (past t) ++ deque t) (take k (past t)))
  else Throw Broken.

Fixpoint recover_moves (ts : list Topic) (moves : list nat) : Result fault (list Topic) :=
  match ts, moves with
  | t :: ts, k :: moves =>
      let! t := recover_n t k in
      let! ts := recover_moves ts moves in
      Ok (t :: ts)
  | [], _ => Ok []
  | _, _ => Throw Broken
  end.

(** [recover<i>()]. *)
Definition recover (t : Topic) : Topic := set_queues t (past t ++ deque t) [].

(** [recoverAndDelete<i>()]. *)
Definition recoverAndDelete (t : Topic) : Result fault Topic :=
  match past t ++ deque t with
  | [] => Throw Broken
  | _ :: q => Ok (set_queues t q [])
  end.

Fixpoint recoverAndDelete_all (ts : list Topic) : Result fault (list Topic) :=
  match ts with
  | [] => Ok []
  | t :: ts =>
      let! t := recoverAndDelete t in
      let! ts := recoverAndDelete_all ts in
      Ok (t :: ts)
  end.

(** The new state and the set that is signalled. *)
Definition publishCandidate (s : ApproximateTime) : Result fault (ApproximateTime * list (list M)) :=
  let! ts := recoverAndDelete_all (topics_ s) in
  Ok (set_candidate (set_topics s ts (count_non_empty ts)) [] (candidate_start_ s) (candidate_end_ s)
        (pivot_time_ s) None, [candidate_ s]).

(** ** Interval boundaries *)

(** The scan of both boundary functions over the times of the topics. *)
Fixpoint boundary (end_ : bool) (times : list Z) (i : nat) (index : nat) (time : Z) : nat * Z :=
  match times with
  | [] => (index, time)
  | t :: times =>
      if xorb (t <? time) end_ then boundary end_ times (i + 1) i t
      else boundary end_ times (i + 1) index time
  end.

Definition getCandidateBoundary (s : ApproximateTime) (end_ : bool) : Result fault (nat * Z) :=
  let! ms := fronts (topics_ s) in
  match map stamp ms with
  | [] => Throw Broken
  | t :: times => Ok (boundary end_ times 1 0 t)
  end.

Definition getVirtualTime (s : ApproximateTime) (t : Topic) : Result fault Z :=
  if bool_decide (pivot_ s = None) then Throw Broken else
  match deque t with
  | m :: _ => Ok (stamp m)
  | [] =>
      match last (past t) with
      | None => Throw Broken
      | Some m =>
          let! b := lift (Time_add (mkTime (stamp m) clock) (lower_bound t)) in
          Ok (if pivot_time_ s <? nanoseconds b then nanoseconds b else pivot_time_ s)
      end
  end.

Fixpoint virtual_times (s : ApproximateTime) (ts : list Topic) : Result fault (list Z) :=
  match ts with
  | [] => Ok []
  | t :: ts =>
      let! x := getVirtualTime s t in
      let! xs := virtual_times s ts in
      Ok (x :: xs)
  end.

Definition getVirtualCandidateBoundary (s : ApproximateTime) (end_ : bool) : Result fault (nat * Z) :=
  let! xs := virtual_times s (topics_ s) in
  match xs with
  | [] => Throw Broken
  | x :: _ => Ok (boundary end_ xs 0 0 x)
  end.

(** [(end_time - candidate_end_) * (1 + age_penalty_)]. *)
Definition penalized (s : ApproximateTime) (end_time : Z) : Result fault Z :=
  let! d := time_minus end_time (candidate_end_ s) in
  lift (scaled d).

(** ** The search *)

(** [while (1)] of [process]; [None]: out of fuel. *)
Fixpoint virtual_search (fuel : nat) (s : ApproximateTime) (before : nat) (num_virtual_moves : list nat)
  : option (Result fault (ApproximateTime * list (list M))) :=
  match fuel with
  | O => None
  | S fuel =>
      match (
        let! (end_index, end_time) := getVirtualCandidateBoundary s true in
        let! (start_index, start_time) := getVirtualCandidateBoundary s false in
        let! penalty := penalized s end_time in
        let! to_pivot := time_minus (pivot_time_ s) (candidate_start_ s) in
        if to_pivot <=? penalty then
          let! r := publishCandidate s in Ok (inr r)
        else
          let! penalty := penalized s end_time in
          let! to_start := time_minus start_time (candidate_start_ s) in
          if penalty <? to_start then
            let! ts := recover_moves (topics_ s) num_virtual_moves in
            if (count_non_empty ts =? before)%nat
            then Ok (inr (set_topics s ts (count_non_empty ts), []))
            else Throw Broken
          else if bool_decide (Some start_index = pivot_ s) then Throw Broken
          else if negb (start_time <? pivot_time_ s) then Throw Broken
          else
            let! s := dequeMoveFrontToPast s start_index in
            Ok (inl (s, alter S start_index num_virtual_moves))
      ) with
      | Throw e => Some (Throw e)
      | Ok (inr r) => Some (Ok r)
      | Ok (inl (s, moves)) => virtual_search fuel s before moves
      end
  end.

Definition total_deques (s : ApproximateTime) : nat :=
  sum_list_with (fun t => length (deque t)) (topics_ s).
Definition total_held (s : ApproximateTime) : nat :=
  sum_list_with (fun t => length (past t) + length (deque t))%nat (topics_ s).

(** The part of an iteration after the candidate is settled. *)
Definition conclude (s : ApproximateTime) (start_index : nat) (end_time : Z)
  : option (Result fault (ApproximateTime * list (list M))) :=
  if bool_decide (Some start_index = pivot_ s) then Some (publishCandidate s)
  else
    match (let! penalty := penalized s end_time in
           let! to_pivot := time_minus (pivot_time_ s) (candidate_start_ s) in
           Ok (to_pivot <=? penalty)) with
    | Throw e => Some (Throw e)
    | Ok true => Some (publishCandidate s)
    | Ok false =>
        if (num_non_empty_deques_ s <? RealTypeCount s)%nat
        then virtual_search (S (total_deques s)) s (num_non_empty_deques_ s) (replicate (RealTypeCount s) 0%nat)
        else Some (Ok (s, []))
    end.

(** No dropped message could have been better than the ones there are. *)
Definition clear_dropped (s : ApproximateTime) (end_index : nat) : ApproximateTime :=
  set_topics s (imap (fun i t => if decide (i = end_index) then t else set_dropped t false) (topics_ s))
    (num_non_empty_deques_ s).

(** The part of an iteration up to the candidate: the next state, and the
    start index and end time when there is a candidate to conclude on. *)
Definition settle (s : ApproximateTime)
  : Result fault (ApproximateTime * option (nat * Z)) :=
  let! (end_index, end_time) := getCandidateBoundary s true in
  let! (start_index, start_time) := getCandidateBoundary s false in
  let s := clear_dropped s end_index in
  match pivot_ s with
  | None =>
      let! d := time_minus end_time start_time in
      let! t := topic s end_index in
      if (max_interval_duration_ s <? d) || has_dropped t then
        let! s := dequeDeleteFront s start_index in Ok (s, None)
      else
        let! s := makeCandidate s start_time end_time end_time (Some end_index) in
        let! s := dequeMoveFrontToPast s start_index in
        Ok (s, Some (start_index, end_time))
  | Some pivot =>
      let! penalty := penalized s end_time in
      let! d := time_minus start_time (candidate_start_ s) in
      if d <=? penalty then
        let! s := dequeMoveFrontToPast s start_index in
        Ok (s, Some (start_index, end_time))
      else
        let! s := makeCandidate s start_time end_time (pivot_time_ s) (Some pivot) in
        let! s := dequeMoveFrontToPast s start_index in
        Ok (s, Some (start_index, end_time))
  end.

(** One iteration of the outer loop. *)
Definition process_step (s : ApproximateTime)
  : option (Result fault (ApproximateTime * list (list M))) :=
  match settle s with
  | Throw e => Some (Throw e)
  | Ok (s, None) => Some (Ok (s, []))
  | Ok (s, Some (start_index, end_time)) => conclude s start_index end_time
  end.

Fixpoint process_loop (fuel : nat) (s : ApproximateTime)
  : option (Result fault (ApproximateTime * list (list M))) :=
  match fuel with
  | O => None
  | S fuel =>
      if (num_non_empty_deques_ s =? RealTypeCount s)%nat then
        match process_step s with
        | Some (Ok (s, out)) =>
            match process_loop fuel s with
            | Some (Ok (s, out')) => Some (Ok (s, out ++ out'))
            | r => r
            end
        | r => r
        end
      else Some (Ok (s, []))
  end.

Definition process (s : ApproximateTime) : option (Result fault (ApproximateTime * list (list M))) :=
  process_loop (S (total_held s * total_held s + total_held s + total_deques s)) s.

(** [checkInterMessageBound<i>] only records that it has warned. *)
Definition checkInterMessageBound (s : ApproximateTime) (i : nat) : Result fault ApproximateTime :=
  let! t := topic s i in
  if warned t then Ok s
  else
    match rev (deque t) with
    | [] => Throw Broken
    | msg :: older =>
        match (match older with
               | [] => last (past t)
               | previous :: _ => Some previous
               end) with
        | None => Ok s
        | Some previous =>
            if stamp msg <? stamp previous
            then Ok (set_topics s (<[i := set_warned t]> (topics_ s)) (num_non_empty_deques_ s))
            else
              let! d := time_minus (stamp msg) (stamp previous) in
              if d <? lower_bound t
              then Ok (set_topics s (<[i := set_warned t]> (topics_ s)) (num_non_empty_deques_ s))
              else Ok s
        end
    end.

(** The first half of [add<i>]: queueing the message. *)
Definition enqueue (s : ApproximateTime) (i : nat) (evt : M)
  : option (Result fault (ApproximateTime * list (list M))) :=
  match topic s i with
  | Throw e => Some (Throw e)
  | Ok t =>
      let s := set_topics s (<[i := set_queues t (deque t ++ [evt]) (past t)]> (topics_ s))
                 (num_non_empty_deques_ s) in
      match deque t with
      | [] =>
          let s := set_topics s (topics_ s) (num_non_empty_deques_ s + 1) in
          if (num_non_empty_deques_ s =? RealTypeCount s)%nat then process s else Some (Ok (s, []))
      | _ => match checkInterMessageBound s i with
             | Ok s => Some (Ok (s, []))
             | Throw e => Some (Throw e)
             end
      end
  end.

(** The second half: dropping the oldest message of a topic that exceeds
    the queue size. *)
Definition limit_queue (s : ApproximateTime) (i : nat)
  : option (Result fault (ApproximateTime * list (list M))) :=
  match topic s i with
  | Throw e => Some (Throw e)
  | Ok t =>
      if (queue_size_ s <? length (deque t) + length (past t))%nat then
        let ts := map recover (topics_ s) in
        let s := set_topics s ts (count_non_empty ts) in
        match topic s i with
        | Throw e => Some (Throw e)
        | Ok t =>
            match deque t with
            | [] => Some (Throw Broken)
            | _ :: q =>
                let s := set_topics s (<[i := set_dropped (set_queues t q (past t)) true]> (topics_ s))
                           (num_non_empty_deques_ s) in
                match pivot_ s with
                | None => Some (Ok (s, []))
                | Some _ =>
                    process (set_candidate s [] (candidate_start_ s) (candidate_end_ s) (pivot_time_ s) None)
                end
            end
        end
      else Some (Ok (s, []))
  end.

(** [add<i>]. *)
Definition ApproximateTime_add (s : ApproximateTime) (i : nat) (evt : M)
  : option (Result fault (ApproximateTime * list (list M))) :=
  match enqueue s i evt with
  | Some (Ok (s, out)) =>
      match limit_queue s i with
      | Some (Ok (s, out')) => Some (Ok (s, out ++ out'))
      | r => r
      end
  | r => r
  end.

(** The setters; their assertions admit no negative duration. *)
Definition setInterMessageLowerBound (s : ApproximateTime) (i : nat) (lower_bound : Z)
  : Result fault ApproximateTime :=
  if negb (0 <=? lower_bound) then Throw Broken
  else
    let! t := topic s i in
    Ok (set_topics s (<[i := mkTopic (deque t) (past t) (has_dropped t) lower_bound (warned t)]> (topics_ s))
          (num_non_empty_deques_ s)).

Definition setMaxIntervalDuration (s : ApproximateTime) (max_interval_duration : Z)
  : Result fault ApproximateTime :=
  if negb (0 <=? max_interval_duration) then Throw Broken
  else Ok (mkApproximateTime (queue_size_ s) max_interval_duration (topics_ s) (num_non_empty_deques_ s)
             (candidate_ s) (candidate_start_ s) (candidate_end_ s) (pivot_time_ s) (pivot_ s)).

(** The calls on a policy, and what a sequence of them signals. *)
Inductive Call :=
| Add (i : nat) (evt : M)
| SetInterMessageLowerBound (i : nat) (lower_bound : Z)
| SetMaxIntervalDuration (max_interval_duration : Z).

Definition silent (r : Result fault ApproximateTime)
  : option (Result fault (ApproximateTime * list (list M))) :=
  Some (let! s := r in Ok (s, [])).

Definition run_call (s : ApproximateTime) (c : Call)
  : option (Result fault (ApproximateTime * list (list M))) :=
  match c with
  | Add i evt => ApproximateTime_add s i evt
  | SetInterMessageLowerBound i d => silent (setInterMessageLowerBound s i d)
  | SetMaxIntervalDuration d => silent (setMaxIntervalDuration s d)
  end.

Fixpoint run (s : ApproximateTime) (calls : list Call)
  : option (Result fault (ApproximateTime * list (list M))) :=
  match calls with
  | [] => Some (Ok (s, []))
  | c :: calls =>
      match run_call s c with
      | Some (Ok (s, out)) =>
          match run s calls with
          | Some (Ok (s, out')) => Some (Ok (s, out ++ out'))
          | r => r
          end
      | r => r
      end
  end.
End ApproximateTime.

(** The penalty with the operator of [rclcpp::Duration]; 0.1 by default. *)
Definition scaled_by (age_penalty : float) (d : Z) : Result time_error Z :=
  Duration_scale d (PrimFloat.add 1 age_penalty).
