(* ===== verification/ApproximateFacts.v ===== *)
(** * The ApproximateTime policy is safe, terminates and respects the topics

    Theorems on [ApproximateTime.v].  The invariant of a policy, the effect
    of every operation on it, and from these: no assertion of the code is
    violated, every loop ends, each topic's messages are used in their order
    and at most once, and the queues stay within their bound. *)

From Stdlib Require Import ZArith Lia Floats.
From stdpp Require Import base numbers list sets.
From S2P Require Import Prelude RclTime ApproximateTime.

(** ** Results without the fault *)

(** The computation does not run into [Broken], and what it returns
    satisfies [P]. *)
Definition safe {A} (r : Result fault A) (P : A -> Prop) : Prop :=
  match r with Ok a => P a | Throw e => e <> Broken end.

(** The same for a loop, which moreover ends. *)
Definition safe_loop {A} (r : option (Result fault A)) (P : A -> Prop) : Prop :=
  match r with Some r => safe r P | None => False end.

Section Safe.
Context {A B : Type}.

Lemma safe_bind (r : Result fault A) (f : A -> Result fault B) P Q :
  safe r P -> (forall a, P a -> safe (f a) Q) -> safe (rbind r f) Q.
Proof. destruct r; simpl; auto. Qed.

Lemma safe_impl (r : Result fault A) (P Q : A -> Prop) : safe r P -> (forall a, P a -> Q a) -> safe r Q.
Proof. destruct r; simpl; auto. Qed.

Lemma safe_loop_impl (r : option (Result fault A)) (P Q : A -> Prop) :
  safe_loop r P -> (forall a, P a -> Q a) -> safe_loop r Q.
Proof. destruct r; simpl; [apply safe_impl|done]. Qed.

(** One round of a loop whose body continues ([inl]) or leaves ([inr]). *)
Lemma safe_loop_step (r : Result fault (A + B)) (k : A -> option (Result fault B)) I P :
  safe r (fun x => match x with inl a => I a | inr b => P b end) -> (forall a, I a -> safe_loop (k a) P) ->
  safe_loop (match r with Throw e => Some (Throw e) | Ok (inr b) => Some (Ok b) | Ok (inl a) => k a end) P.
Proof. destruct r as [[a|b]|e]; simpl; auto. Qed.

Lemma safe_lift (r : Result time_error A) P : (forall a, r = Ok a -> P a) -> safe (lift r) P.
Proof. destruct r; simpl; auto. Qed.
End Safe.

(** ** Sums over a list *)

Lemma sum_list_with_insert {A} (f : A -> nat) l i x y :
  l !! i = Some x -> (sum_list_with f (<[i:=y]> l) + f x = sum_list_with f l + f y)%nat.
Proof.
  revert i. induction l as [|z l IH]; intros [|i] Hl; simplify_eq/=; [lia|].
  specialize (IH _ Hl). lia.
Qed.

Lemma sum_list_with_le {A} (f g : A -> nat) l :
  (forall x, (f x <= g x)%nat) -> (sum_list_with f l <= sum_list_with g l)%nat.
Proof. intros H. induction l as [|x l IH]; simpl; [lia|]. specialize (H x). lia. Qed.

Lemma sum_list_with_map {A B} (f : B -> nat) (h : A -> B) l :
  sum_list_with f (map h l) = sum_list_with (fun x => f (h x)) l.
Proof. induction l; simpl; congruence. Qed.

Lemma sum_list_with_id {A} (f : A -> nat) l : sum_list_with f l = sum_list_with id (map f l).
Proof. by rewrite sum_list_with_map. Qed.

Lemma sum_list_with_ext {A} (f g : A -> nat) l :
  (forall x, f x = g x) -> sum_list_with f l = sum_list_with g l.
Proof. intros H. induction l; simpl; congruence. Qed.

Lemma sum_list_with_Forall2 {A} (f : A -> nat) (P : A -> A -> Prop) (k : nat) l l' :
  (forall x y, P x y -> f x = (k + f y)%nat) -> Forall2 P l l' ->
  (sum_list_with f l = k * length l + sum_list_with f l')%nat.
Proof. intros H. induction 1 as [|x y l l' Hxy _ IH]; simpl; [lia|]. apply H in Hxy. lia. Qed.

(** ** Topics *)

#[local] Arguments recover_n : simpl never.

Section Topics.
Context {M : Type}.
Implicit Types (t : Topic (M := M)) (ts : list (Topic (M := M))) (m : M).

(** The messages that topic [t] holds, oldest first. *)
Definition held (t : Topic (M := M)) : list M := past t ++ deque t.

Lemma held_pop t t' : (exists m, held t = m :: held t') -> length (held t) = (1 + length (held t'))%nat.
Proof. by intros (m & ->). Qed.

Definition occupied (t : Topic (M := M)) : nat := match deque t with [] => 0 | _ => 1 end.

Lemma count_non_empty_sum ts : count_non_empty ts = sum_list_with occupied ts.
Proof.
  unfold count_non_empty. induction ts as [|t ts IH]; [done|].
  rewrite filter_cons. simpl. rewrite <- IH. unfold occupied.
  destruct (deque t); case_decide; simpl; congruence.
Qed.

Lemma count_non_empty_full ts :
  count_non_empty ts = length ts <-> Forall (fun t => deque t <> []) ts.
Proof.
  rewrite count_non_empty_sum. induction ts as [|t ts IH]; [done|]. simpl.
  assert (Hle : (sum_list_with occupied ts <= length ts)%nat).
  { clear. induction ts as [|t ts IH]; simpl; [lia|]. unfold occupied at 1. destruct (deque t); lia. }
  rewrite Forall_cons, <- IH. unfold occupied at 1. destruct (deque t); naive_solver lia.
Qed.

Lemma fronts_spec ts :
  Forall (fun t => deque t <> []) ts ->
  exists ms, fronts ts = Ok ms /\ Forall2 (fun t m => head (deque t) = Some m) ts ms.
Proof.
  induction 1 as [|t ts Ht _ (ms & E & Hms)]; simpl; [eauto|].
  destruct (deque t) as [|m q] eqn:Eq; [done|]. rewrite E. simpl.
  eexists. split; [done|]. constructor; [by rewrite Eq|done].
Qed.

(** [recover] of the virtual moves undoes them. *)
Lemma recover_n_move t m q k t0 :
  deque t = m :: q -> recover_n t k = Ok t0 ->
  recover_n (set_queues t q (past t ++ [m])) (S k) = Ok t0.
Proof.
  intros Eq. unfold recover_n. cbn [past deque set_queues]. rewrite length_app. cbn [length].
  destruct (Nat.leb_spec k (length (past t))); [|done]. intros [= <-].
  destruct (Nat.leb_spec (S k) (length (past t) + 1)); [|lia].
  replace (length (past t) + 1 - S k)%nat with (length (past t) - k)%nat by lia.
  by rewrite drop_app_le, take_app_le, Eq, <- app_assoc by lia.
Qed.

Lemma recover_n_zero t : recover_n t 0 = Ok t.
Proof.
  unfold recover_n. simpl. rewrite Nat.sub_0_r, drop_all, take_ge by lia. by destruct t.
Qed.

Lemma recover_moves_zero ts n : (length ts <= n)%nat -> recover_moves ts (replicate n 0%nat) = Ok ts.
Proof.
  revert n. induction ts as [|t ts IH]; intros [|n] Hn; cbn in Hn |- *; [done..|lia|].
  rewrite recover_n_zero. simpl. rewrite IH by lia. done.
Qed.

Lemma recover_moves_move ts i t m q moves ts0 :
  ts !! i = Some t -> deque t = m :: q -> recover_moves ts moves = Ok ts0 ->
  recover_moves (<[i:=set_queues t q (past t ++ [m])]> ts) (alter S i moves) = Ok ts0.
Proof.
  revert i moves ts0. induction ts as [|t' ts IH]; intros [|i] moves ts0 Hl Eq; simplify_eq/=;
    destruct moves as [|k moves]; simpl; try done; intros (t1 & E1 & E2)%rbind_ok;
    apply rbind_ok in E2 as (ts1 & E2 & [= <-]).
  - erewrite recover_n_move by done. simpl. by rewrite E2.
  - rewrite E1. simpl. specialize (IH _ _ _ Hl Eq E2). unfold alter in *. by rewrite IH.
Qed.

Lemma recoverAndDelete_all_spec ts c :
  map (fun t => head (held t)) ts = map Some c ->
  exists ts', recoverAndDelete_all ts = Ok ts' /\
    Forall2 (fun t t' => past t' = [] /\ exists m, held t = m :: held t') ts ts'.
Proof.
  revert c. induction ts as [|t ts IH]; intros [|m c]; simpl; intros [=]; [eauto|].
  destruct (IH c) as (ts' & E & Hts'); [done|]. unfold recoverAndDelete.
  fold (held t). destruct (held t) as [|m' q] eqn:Eh; [done|]. simplify_eq/=.
  rewrite E. simpl. eexists. split; [done|]. constructor; [|done]. simpl. eauto.
Qed.
End Topics.

(** The scan for the boundary returns one of the times with its index. *)
Lemma boundary_lookup end_ times pre index time :
  (pre ++ times) !! index = Some time ->
  (pre ++ times) !! (boundary end_ times (length pre) index time).1 =
    Some (boundary end_ times (length pre) index time).2.
Proof.
  revert pre index time. induction times as [|t times IH]; intros pre index time Hl; simpl; [done|].
  rewrite cons_middle, app_assoc in *.
  replace (length pre + 1)%nat with (length (pre ++ [t])) by (rewrite length_app; simpl; lia).
  destruct (xorb _ _); apply IH; [|done].
  rewrite lookup_app_l by (rewrite length_app; simpl; lia).
  by rewrite lookup_app_r, Nat.sub_diag by lia.
Qed.

(** ** What an operation consumes

    Between two states, topic [i] gives up its oldest messages, and the sets
    that are signalled take theirs from among these, in the same order. *)

Section Consumes.
Context {M : Type}.

(** The messages of topic [i] in the sets [out]. *)
Definition of_topic (i : nat) (out : list (list M)) : list M := omap (fun set => set !! i) out.

Definition gives_up (t t' : Topic (M := M)) (used : list M) : Prop :=
  exists c, held t = c ++ held t' /\ sublist used c.

Record consumes (ts : list (Topic (M := M))) (out : list (list M)) (ts' : list (Topic (M := M))) : Prop := {
  consumes_length : length ts' = length ts;
  consumes_sets : Forall (fun set => length set = length ts) out;
  consumes_topic : forall i t t', ts !! i = Some t -> ts' !! i = Some t' ->
                     gives_up t t' (of_topic i out);
}.

Lemma of_topic_app i out out' : of_topic i (out ++ out') = of_topic i out ++ of_topic i out'.
Proof. apply omap_app. Qed.

Lemma consumes_trans ts out ts' out' ts'' :
  consumes ts out ts' -> consumes ts' out' ts'' -> consumes ts (out ++ out') ts''.
Proof.
  intros [L1 S1 T1] [L2 S2 T2]. split.
  - congruence.
  - apply Forall_app. split; [done|]. by rewrite <- L1.
  - intros i t t'' Ht Ht''. destruct (lookup_lt_is_Some_2 ts' i) as [t' Ht'].
    { rewrite L1. by eapply lookup_lt_Some. }
    destruct (T1 _ _ _ Ht Ht') as (c1 & E1 & U1). destruct (T2 _ _ _ Ht' Ht'') as (c2 & E2 & U2).
    exists (c1 ++ c2). rewrite of_topic_app. split; [|by apply sublist_app].
    by rewrite E1, E2, app_assoc.
Qed.

(** Nothing is consumed when every topic holds what it held. *)
Lemma consumes_held ts ts' : map held ts = map held ts' -> consumes ts [] ts'.
Proof.
  intros E. split; [|done|].
  - apply (f_equal length) in E. by rewrite !length_map in E.
  - intros i t t' Ht Ht'. exists []. split; [|constructor]. simpl.
    apply (f_equal (.!! i)) in E. rewrite !list_lookup_fmap, Ht, Ht' in E. by injection E.
Qed.

Lemma consumes_refl ts : consumes ts [] ts.
Proof. by apply consumes_held. Qed.

Lemma held_insert (ts : list (Topic (M := M))) i t t' : ts !! i = Some t -> held t' = held t -> map held (<[i:=t']> ts) = map held ts.
Proof.
  intros Ht E. rewrite list_fmap_insert, E. apply list_insert_id.
  by rewrite list_lookup_fmap, Ht.
Qed.
End Consumes.

(** ** The invariant of the policy *)

Section Policy.
Context {M : Type}.
Variable stamp : M -> Z.
Variable clock : ClockType.
Variable scaled : Z -> Result time_error Z.
Hypothesis stamp_int64 : forall m, is_int64 (stamp m).
Variable queue_size : nat.

Local Abbreviation State := (ApproximateTime (M := M)).
Implicit Types (s : State) (ts : list (Topic (M := M))).

(** The front of every topic, had nothing been moved, is the candidate. *)
Definition candidate_is_front s : Prop :=
  map (fun t => head (held t)) (topics_ s) = map Some (candidate_ s).

(** The message of the pivot is still in front of its topic. *)
Definition pivot_in_front s (p : nat) : Prop :=
  exists t m q, topics_ s !! p = Some t /\ past t = [] /\ deque t = m :: q /\ stamp m = pivot_time_ s.

Record counted s : Prop := {
  counted_num : num_non_empty_deques_ s = count_non_empty (topics_ s);
  counted_topics : (0 < length (topics_ s))%nat;
  counted_start : is_int64 (candidate_start_ s);
  counted_queue : queue_size_ s = queue_size;
}.

Definition pivot_ok s : Prop :=
  match pivot_ s with
  | None => Forall (fun t => past t = []) (topics_ s)
  | Some p => candidate_is_front s /\ pivot_in_front s p
  end.

Definition valid s : Prop := counted s /\ pivot_ok s.

(** The measure of the loops, lexicographic: a message that is given up
    counts for more than all that can come back from the past. *)
Definition smaller s s' : Prop :=
  (total_held s < total_held s')%nat \/
  (total_held s = total_held s' /\ (total_deques s < total_deques s')%nat).

Lemma total_held_alt s : total_held s = sum_list_with (fun t => length (held t)) (topics_ s).
Proof. apply sum_list_with_ext. intros t. unfold held. by rewrite length_app. Qed.

Lemma total_deques_le s : (total_deques s <= total_held s)%nat.
Proof. apply sum_list_with_le. intros t. lia. Qed.

Lemma topic_safe s i (P : Topic -> Prop) :
  (i < length (topics_ s))%nat -> (forall t, topics_ s !! i = Some t -> P t) -> safe (topic s i) P.
Proof. intros [t Ht]%lookup_lt_is_Some_2 HP. unfold topic. rewrite Ht. simpl. auto. Qed.

(** *** Moving messages *)

Lemma count_pop ts i t m q t' :
  ts !! i = Some t -> deque t = m :: q -> deque t' = q ->
  count_non_empty (<[i:=t']> ts) =
    match q with [] => (count_non_empty ts - 1)%nat | _ => count_non_empty ts end.
Proof.
  intros Ht Eq Eq'. rewrite !count_non_empty_sum.
  pose proof (sum_list_with_insert occupied ts i t t' Ht) as H.
  unfold occupied in H at 2 4. rewrite Eq, Eq' in H. destruct q; lia.
Qed.

Definition moved s i s' : Prop :=
  exists t m q, topics_ s !! i = Some t /\ deque t = m :: q /\
    s' = set_topics s (<[i := set_queues t q (past t ++ [m])]> (topics_ s))
           (match q with [] => num_non_empty_deques_ s - 1 | _ => num_non_empty_deques_ s end)%nat.

Lemma dequeMoveFrontToPast_safe s i t m q :
  topics_ s !! i = Some t -> deque t = m :: q -> safe (dequeMoveFrontToPast s i) (moved s i).
Proof.
  intros Ht Eq. unfold dequeMoveFrontToPast, topic. rewrite Ht. simpl. rewrite Eq. simpl.
  by exists t, m, q.
Qed.

Lemma moved_held s i s' : moved s i s' -> map held (topics_ s') = map held (topics_ s).
Proof.
  intros (t & m & q & Ht & Eq & ->). simpl. apply (held_insert _ _ t); [done|].
  unfold held. simpl. by rewrite Eq, <- app_assoc.
Qed.

Lemma held_total s s' : map held (topics_ s') = map held (topics_ s) -> total_held s' = total_held s.
Proof. intros E. rewrite !total_held_alt, <- !(sum_list_with_map length held). by rewrite E. Qed.

Lemma moved_deques s i s' : moved s i s' -> (total_deques s' < total_deques s)%nat.
Proof.
  intros (t & m & q & Ht & Eq & ->). unfold total_deques. simpl.
  pose proof (sum_list_with_insert (fun t => length (deque t)) (topics_ s) i t
    (set_queues t q (past t ++ [m])) Ht) as H. simpl in H. rewrite Eq in H. simpl in H. lia.
Qed.

Lemma moved_counted s i s' : moved s i s' -> counted s -> counted s'.
Proof.
  intros (t & m & q & Ht & Eq & ->) [Hn Ht0 Hs Hq]. split; simpl; [|by rewrite length_insert|done..].
  rewrite Hn. symmetry. by eapply count_pop.
Qed.

Lemma moved_pivot s i p s' : moved s i s' -> i <> p -> pivot_in_front s p -> pivot_in_front s' p.
Proof.
  intros (t & m & q & _ & _ & ->) Hne (t' & m' & q' & Ht' & H). exists t', m', q'. simpl.
  by rewrite list_lookup_insert_ne.
Qed.

Lemma moved_candidate s i s' : moved s i s' -> candidate_is_front s -> candidate_is_front s'.
Proof.
  intros Hm. pose proof (moved_held _ _ _ Hm) as E. unfold candidate_is_front.
  rewrite <- !(map_map held head), E. by destruct Hm as (t & m & q & _ & _ & ->).
Qed.
(** *** Publishing *)

Lemma candidate_lookup s i t :
  candidate_is_front s -> topics_ s !! i = Some t -> head (held t) = candidate_ s !! i /\ is_Some (head (held t)).
Proof.
  intros Hc Ht. apply (f_equal (.!! i)) in Hc. rewrite !list_lookup_fmap, Ht in Hc. simpl in Hc.
  destruct (candidate_ s !! i); simplify_eq/=. rewrite Hc. eauto.
Qed.

Lemma publishCandidate_safe s :
  counted s -> candidate_is_front s ->
  safe (publishCandidate s) (fun '(s', out) =>
    valid s' /\ consumes (topics_ s) out (topics_ s') /\ (total_held s' < total_held s)%nat).
Proof.
  intros [Hn Ht0 Hs Hq] Hc. unfold publishCandidate.
  destruct (recoverAndDelete_all_spec (topics_ s) (candidate_ s) Hc) as (ts' & E & Hts').
  rewrite E. simpl. pose proof (Forall2_length _ _ _ Hts') as Hlen. split_and!.
  - split; [by split; simpl; [|rewrite <- Hlen| |]|]. unfold pivot_ok. simpl. apply Forall_forall.
    intros t' (i & Ht')%list_elem_of_lookup. by destruct (Forall2_lookup_r _ _ _ _ _ Hts' Ht') as (? & _ & ? & _).
  - split; simpl; [done| |].
    + constructor; [|done]. apply (f_equal length) in Hc. by rewrite !length_map in Hc.
    + intros i t t' Ht Ht'. destruct (Forall2_lookup_lr _ _ _ i _ _ Hts' Ht Ht') as (_ & m & Em).
      destruct (candidate_lookup s i t Hc Ht) as [Ec _]. exists [m]. split; [done|].
      unfold of_topic. simpl. rewrite <- Ec, Em. done.
  - rewrite !total_held_alt. simpl.
    apply (sum_list_with_Forall2 (fun t => length (held t)) _ 1) in Hts'; [lia|].
    intros x y [_ H]. by apply held_pop.
Qed.

(** *** Boundaries *)

Lemma time_minus_safe a b (P : Z -> Prop) :
  is_int64 a -> is_int64 b -> P (a - b) -> safe (time_minus clock a b) P.
Proof.
  intros Ha Hb HP. apply safe_lift. intros d. rewrite Time_sub_exact by done.
  rewrite bool_decide_true by done. unfold exact64. simpl. split_ifs; intros [=]. by subst.
Qed.

Lemma getCandidateBoundary_safe s end_ :
  counted s -> num_non_empty_deques_ s = RealTypeCount s ->
  safe (getCandidateBoundary stamp s end_) (fun '(i, time) =>
    exists t m q, topics_ s !! i = Some t /\ deque t = m :: q /\ time = stamp m).
Proof.
  intros [Hn Ht0 _ _] Hfull. unfold getCandidateBoundary.
  rewrite Hfull in Hn. symmetry in Hn. apply count_non_empty_full in Hn.
  destruct (fronts_spec _ Hn) as (ms & E & Hms). rewrite E. simpl.
  destruct ms as [|m ms]; [apply Forall2_nil_inv_r in Hms; rewrite Hms in Ht0; simpl in Ht0; lia|]. simpl.
  pose proof (boundary_lookup end_ (map stamp ms) [stamp m] 0 (stamp m) eq_refl) as Hl.
  simpl in Hl. destruct (boundary _ _ 1 0 _) as [i time]. simpl in Hl.
  change (stamp m :: map stamp ms) with (stamp <$> (m :: ms)) in Hl.
  apply list_lookup_fmap_Some in Hl as (m' & -> & Hm').
  destruct (Forall2_lookup_r _ _ _ _ _ Hms Hm') as (t' & Ht' & Hh).
  destruct (deque t') as [|m'' q] eqn:Eq; simplify_eq/=. by exists t', m', q.
Qed.

(** A virtual time is the stamp of the front of its topic, or not before
    the pivot. *)
Definition virtual_time s (t : Topic (M := M)) (time : Z) : Prop :=
  is_int64 time /\ match deque t with m :: _ => time = stamp m | [] => pivot_time_ s <= time end.

Lemma getVirtualTime_safe s t :
  pivot_ s <> None -> is_int64 (pivot_time_ s) -> is_Some (head (held t)) ->
  safe (getVirtualTime stamp clock s t) (virtual_time s t).
Proof.
  intros Hpv Hp Hh. unfold getVirtualTime, virtual_time. rewrite bool_decide_false by done. destruct (deque t) as [|m q] eqn:Eq; [|by simpl].
  unfold held in Hh. rewrite Eq, app_nil_r in Hh. destruct (last (past t)) as [m|] eqn:El.
  - eapply (safe_bind _ _ (fun b => is_int64 (nanoseconds b))).
    + apply safe_lift. intros b. unfold Time_add. split_ifs; intros [= <-]. apply i64_range.
    + intros b Hb. simpl. split_ifs; bool_to_prop; split; (done || lia).
  - apply last_None in El. rewrite El in Hh. by destruct Hh.
Qed.

Lemma virtual_times_safe s ts :
  pivot_ s <> None -> is_int64 (pivot_time_ s) -> Forall (fun t => is_Some (head (held t))) ts ->
  safe (virtual_times stamp clock s ts) (Forall2 (virtual_time s) ts).
Proof.
  intros Hpv Hp. induction 1 as [|t ts Ht _ IH]; simpl; [constructor|].
  eapply safe_bind; [by apply getVirtualTime_safe|]. intros x Hx.
  eapply safe_bind; [exact IH|]. intros xs Hxs. by constructor.
Qed.

Lemma getVirtualCandidateBoundary_safe s end_ :
  counted s -> candidate_is_front s -> pivot_ s <> None -> is_int64 (pivot_time_ s) ->
  safe (getVirtualCandidateBoundary stamp clock s end_) (fun '(i, time) =>
    exists t, topics_ s !! i = Some t /\ virtual_time s t time).
Proof.
  intros [_ Ht0 _ _] Hc Hpv Hp. unfold getVirtualCandidateBoundary.
  eapply safe_bind; [apply virtual_times_safe; [done|done|]|].
  { apply Forall_forall. intros t (i & Ht)%list_elem_of_lookup. by eapply candidate_lookup. }
  intros xs Hxs. destruct xs as [|x xs]; [apply Forall2_nil_inv_r in Hxs; rewrite Hxs in Ht0; simpl in Ht0; lia|].
  pose proof (boundary_lookup end_ (x :: xs) [] 0 x eq_refl) as Hl.
  cbn [app length] in Hl. destruct (boundary _ _ 0 0 _) as [i time].
  destruct (Forall2_lookup_r _ _ _ _ _ Hxs Hl) as (t & Ht & Hv). simpl. by exists t.
Qed.
(** *** The virtual search *)

Definition published s s' out : Prop :=
  valid s' /\ consumes (topics_ s) out (topics_ s') /\ (total_held s' < total_held s)%nat.

(** The state of the search: [ts0] are the topics it started from. *)
Record searching (ts0 : list (Topic (M := M))) (p : nat) s (moves : list nat) : Prop := {
  searching_counted : counted s;
  searching_candidate : candidate_is_front s;
  searching_pivot : pivot_ s = Some p;
  searching_front : pivot_in_front s p;
  searching_moves : recover_moves (topics_ s) moves = Ok ts0;
  searching_held : map held (topics_ s) = map held ts0;
}.

Lemma pivot_time_int64 s p : pivot_in_front s p -> is_int64 (pivot_time_ s).
Proof. by intros (t & m & q & _ & _ & _ & <-). Qed.

Lemma penalized_safe s e : safe (penalized clock scaled s e) (fun d => penalized clock scaled s e = Ok d).
Proof. unfold penalized, time_minus. destruct (Time_sub _ _); [|done]. simpl. by destruct (scaled _). Qed.

Lemma published_held s s1 s' out :
  map held (topics_ s1) = map held (topics_ s) -> published s1 s' out -> published s s' out.
Proof.
  intros E (Hv & Hc & Hh). split_and!; [done| |].
  - apply (consumes_trans _ [] _ _ _ (consumes_held _ _ (eq_sym E)) Hc).
  - by rewrite <- (held_total _ _ E).
Qed.

Lemma moved_searching ts0 p s moves i s' :
  searching ts0 p s moves -> moved s i s' -> i <> p -> searching ts0 p s' (alter S i moves).
Proof.
  intros [Hn Hc Hp Hf Hm Hh] Hmv Hne. split.
  - by eapply moved_counted.
  - by eapply moved_candidate.
  - by destruct Hmv as (t & m & q & _ & _ & ->).
  - by eapply moved_pivot.
  - destruct Hmv as (t & m & q & Ht & Eq & ->). by apply (recover_moves_move _ _ _ _ _ _ _ Ht Eq).
  - by rewrite (moved_held _ _ _ Hmv).
Qed.

(** An iteration that neither publishes nor gives up moves a message of a
    topic other than the pivot: past the two tests the virtual start
    precedes the pivot. *)
Lemma virtual_start_moves s p i t time penalty :
  pivot_in_front s p -> topics_ s !! i = Some t -> virtual_time s t time ->
  ~ pivot_time_ s - candidate_start_ s <= penalty -> ~ penalty < time - candidate_start_ s ->
  i <> p /\ time < pivot_time_ s /\ exists m q, deque t = m :: q.
Proof.
  intros (tp & mp & qp & Htp & _ & Eqp & Hmp) Ht [_ Hv] H1 H2. split_and!; [|lia|].
  - intros ->. simplify_eq. rewrite Eqp in Hv. lia.
  - destruct (deque t); [lia|eauto].
Qed.

Lemma virtual_search_safe fuel ts0 p before s moves :
  searching ts0 p s moves -> before = count_non_empty ts0 -> (total_deques s < fuel)%nat ->
  safe_loop (virtual_search stamp clock scaled fuel s before moves) (fun '(s', out) =>
    published s s' out \/ (out = [] /\ s' = set_topics s ts0 before)).
Proof.
  intros Hs ->. revert s moves Hs. induction fuel as [|fuel IH]; intros s moves Hs Hf; [lia|]. simpl.
  pose proof Hs as [Hn Hc Hp Hfr Hm Hh]. pose proof (pivot_time_int64 _ _ Hfr) as Hpt.
  assert (Hpv : pivot_ s <> None) by congruence.
  eapply (safe_loop_step _ _ (fun '(s1, moves1) => searching ts0 p s1 moves1 /\ exists i, moved s i s1)).
  2: { intros [s1 moves1] [Hs1 [i Hmv]]. pose proof (moved_deques _ _ _ Hmv).
    eapply safe_loop_impl; [apply IH; [done|lia]|]. intros [s' out] [H'|[-> ->]].
    - left. eapply published_held; [|done]. by eapply moved_held.
    - right. split; [done|]. by destruct Hmv as (t & m & q & _ & _ & ->). }
  eapply safe_bind; [by apply getVirtualCandidateBoundary_safe|]. intros [ei et] _.
  eapply safe_bind; [by apply getVirtualCandidateBoundary_safe|]. intros [si st] (t & Ht & Hv).
  eapply safe_bind; [apply penalized_safe|]. intros penalty Epen.
  eapply safe_bind; [apply (time_minus_safe _ _ (fun d => d = pivot_time_ s - candidate_start_ s)); by destruct Hn|].
  intros _ ->. destruct (Z.leb_spec (pivot_time_ s - candidate_start_ s) penalty) as [H1|H1].
  { eapply safe_bind; [by apply publishCandidate_safe|]. intros [s' out] H. by left. }
  rewrite Epen. cbn [rbind].
  eapply safe_bind; [apply (time_minus_safe _ _ (fun d => d = st - candidate_start_ s)); [apply Hv|apply Hn|done]|].
  intros _ ->. destruct (Z.ltb_spec penalty (st - candidate_start_ s)) as [H2|H2].
  { rewrite Hm. cbn [rbind]. rewrite Nat.eqb_refl. by right. }
  destruct (virtual_start_moves s p si t st penalty) as (Hne & Hlt & m & q & Eq); [done..|lia|lia|].
  rewrite Hp, bool_decide_false by congruence. destruct (Z.ltb_spec st (pivot_time_ s)); [|lia]. cbn [negb].
  eapply safe_bind; [by eapply dequeMoveFrontToPast_safe|]. intros s1 Hmv. simpl. split; [|eauto].
  by eapply moved_searching.
Qed.
(** *** One iteration *)

Definition queues (t : Topic (M := M)) : list M * list M := (past t, deque t).

(** Only flags of topics differ. *)
Definition same s s' : Prop :=
  map queues (topics_ s') = map queues (topics_ s) /\ s' = set_topics s (topics_ s') (num_non_empty_deques_ s).

Lemma same_lookup s s' i t :
  same s s' -> topics_ s !! i = Some t ->
  exists t', topics_ s' !! i = Some t' /\ deque t' = deque t /\ past t' = past t.
Proof.
  intros [E _] Ht. apply (f_equal (.!! i)) in E. rewrite !list_lookup_fmap, Ht in E. simpl in E.
  destruct (topics_ s' !! i) as [t'|]; [|done]. injection E as Ep Ed. eauto.
Qed.

Lemma same_map {B} (f : list M * list M -> B) s s' :
  same s s' -> map (fun t => f (queues t)) (topics_ s') = map (fun t => f (queues t)) (topics_ s).
Proof. intros [E _]. by rewrite <- !(map_map queues f), E. Qed.

Lemma same_held s s' : same s s' -> map held (topics_ s') = map held (topics_ s).
Proof. apply (same_map (fun p => p.1 ++ p.2)). Qed.

Lemma same_occupied s s' : same s s' -> count_non_empty (topics_ s') = count_non_empty (topics_ s).
Proof.
  intros H. rewrite !count_non_empty_sum. apply (same_map (fun p => match p.2 with [] => 0 | _ => 1 end)%nat) in H.
  rewrite !(sum_list_with_id occupied). unfold occupied, queues in *. simpl in H. by rewrite H.
Qed.

Lemma same_deques s s' : same s s' -> total_deques s' = total_deques s.
Proof.
  intros H. apply (same_map (fun p => length p.2)) in H. unfold total_deques.
  rewrite !(sum_list_with_id (fun t => length (deque t))). simpl in H. by rewrite H.
Qed.

Lemma same_counted s s' : same s s' -> counted s -> counted s'.
Proof.
  intros H [Hn Ht0 Hs Hq]. pose proof (same_occupied _ _ H) as Ho.
  pose proof (f_equal length (same_held _ _ H)) as Hl. rewrite !length_map in Hl.
  destruct H as [_ ->]. simpl in *. split; simpl; [congruence|lia|done..].
Qed.

Lemma same_candidate s s' : same s s' -> candidate_is_front s -> candidate_is_front s'.
Proof.
  intros H. pose proof (same_held _ _ H) as E. destruct H as [_ ->]. unfold candidate_is_front.
  simpl in *. by rewrite <- !(map_map held head), E.
Qed.

Lemma same_pivot s s' p : same s s' -> pivot_in_front s p -> pivot_in_front s' p.
Proof.
  intros H (t & m & q & Ht & Hp & Hd & Hm). destruct (same_lookup _ _ _ _ H Ht) as (t' & Ht' & Ed & Ep).
  exists t', m, q. rewrite Ed, Ep. split_and!; try done. by destruct H as [_ ->].
Qed.

Lemma same_valid s s' : same s s' -> valid s -> valid s'.
Proof.
  intros H [Hc Hp]. split; [by eapply same_counted|]. unfold pivot_ok in *.
  assert (E : pivot_ s' = pivot_ s) by (by destruct H as [_ ->]). rewrite E. destruct (pivot_ s) as [p|].
  - destruct Hp. split; [by eapply same_candidate|by eapply same_pivot].
  - apply (same_map fst) in H. change (map past (topics_ s') = map past (topics_ s)) in H.
    apply (Forall_map past (fun l => l = [])). rewrite H. by apply Forall_map.
Qed.

Lemma clear_dropped_same s e : same s (clear_dropped s e).
Proof.
  split; [|done]. simpl. apply list_eq. intros i. rewrite !list_lookup_fmap, list_lookup_imap.
  destruct (topics_ s !! i); simpl; [|done]. by case_decide.
Qed.
(** A new candidate: the fronts, whose past is forgotten. *)
Definition fresh s s' : Prop :=
  topics_ s' = map (fun t => set_queues t (deque t) []) (topics_ s).

Lemma fresh_consumes s s' : fresh s s' -> consumes (topics_ s) [] (topics_ s').
Proof.
  unfold fresh. intros ->. split; [by rewrite length_map|done|]. intros i t t' Ht Ht'.
  rewrite list_lookup_fmap, Ht in Ht'. simplify_eq/=. exists (past t). split; [done|apply sublist_nil_l].
Qed.

Lemma fresh_totals s s' :
  fresh s s' -> (total_held s' <= total_held s)%nat /\ total_deques s' = total_deques s.
Proof.
  unfold fresh, total_held, total_deques. intros ->. rewrite !sum_list_with_map. simpl. split; [|done].
  apply sum_list_with_le. intros t. lia.
Qed.

Lemma makeCandidate_safe s start_ end_ pivot_time p t m q :
  counted s -> num_non_empty_deques_ s = RealTypeCount s -> is_int64 start_ ->
  topics_ s !! p = Some t -> deque t = m :: q -> stamp m = pivot_time ->
  safe (makeCandidate s start_ end_ pivot_time (Some p)) (fun s' =>
    counted s' /\ candidate_is_front s' /\ pivot_in_front s' p /\ pivot_ s' = Some p /\ fresh s s').
Proof.
  intros [Hn Ht0 _ Hq] Hfull Hst Ht Eq Hm. unfold makeCandidate. rewrite Hfull in Hn. symmetry in Hn.
  apply count_non_empty_full in Hn as Hne. destruct (fronts_spec _ Hne) as (ms & E & Hms).
  rewrite E. simpl. split_and!; [|clear -Hms| |done..].
  - split; simpl; [|by rewrite length_map|done..].
    rewrite Hfull, <- Hn, !count_non_empty_sum, sum_list_with_map. done.
  - unfold candidate_is_front. simpl. rewrite map_map.
    induction Hms as [|t m ts ms Htm _ IH]; simpl; [done|].
    unfold held at 1. simpl. by rewrite Htm, IH.
  - exists (set_queues t (deque t) []), m, q. simpl. by rewrite list_lookup_fmap, Ht.
Qed.

(** After the first part of an iteration: either the policy is ready for
    another one, or there is a candidate and a message has been moved. *)
Definition settled s s' (o : option (nat * Z)) : Prop :=
  match o with
  | None => valid s' /\ consumes (topics_ s) [] (topics_ s') /\ (total_held s' < total_held s)%nat
  | Some (i, _) =>
      counted s' /\ candidate_is_front s' /\ consumes (topics_ s) [] (topics_ s') /\
      (total_held s' <= total_held s)%nat /\ (total_deques s' < total_deques s)%nat /\
      exists p, pivot_ s' = Some p /\ (i <> p -> pivot_in_front s' p)
  end.

(** Moving the start of a candidate settles the iteration. *)
Lemma move_settles s s1 i p t m q e :
  counted s1 -> candidate_is_front s1 -> pivot_in_front s1 p -> pivot_ s1 = Some p ->
  consumes (topics_ s) [] (topics_ s1) ->
  (total_held s1 <= total_held s)%nat -> total_deques s1 = total_deques s ->
  topics_ s1 !! i = Some t -> deque t = m :: q ->
  safe (let! s2 := dequeMoveFrontToPast s1 i in Ok (s2, Some (i, e))) (fun '(s', o) => settled s s' o).
Proof.
  intros Hn Hc Hf Hp Hcs Hh Hd Ht Eq.
  eapply safe_bind; [by eapply dequeMoveFrontToPast_safe|]. intros s2 Hmv.
  pose proof (moved_held _ _ _ Hmv) as E. pose proof (moved_deques _ _ _ Hmv).
  pose proof (held_total _ _ E). simpl. split_and!; [..|lia|lia|].
  - by eapply moved_counted.
  - by eapply moved_candidate.
  - apply (consumes_trans _ _ _ _ _ Hcs (consumes_held _ _ (eq_sym E))).
  - exists p. split; [by destruct Hmv as (? & ? & ? & _ & _ & ->)|]. intros Hne. by eapply moved_pivot.
Qed.

Lemma dequeDeleteFront_safe s i t m q :
  valid s -> pivot_ s = None -> topics_ s !! i = Some t -> deque t = m :: q ->
  safe (dequeDeleteFront s i) (fun s' =>
    valid s' /\ consumes (topics_ s) [] (topics_ s') /\ (total_held s' < total_held s)%nat).
Proof.
  intros [[Hn Ht0 Hs Hq] Hp] Hpn Ht Eq. unfold dequeDeleteFront, topic. rewrite Ht. simpl. rewrite Eq. simpl.
  set (t1 := set_queues t q (past t)). unfold pivot_ok in Hp. rewrite Hpn in Hp.
  assert (Ep : past t = []) by exact (Forall_lookup_1 _ _ _ _ Hp Ht). split_and!.
  - split; [split; simpl; [|by rewrite length_insert|done..]|].
    + rewrite (count_pop _ i t m q t1) by done. rewrite Hn. by destruct q.
    + unfold pivot_ok. simpl. rewrite Hpn. by apply Forall_insert.
  - split; simpl; [by rewrite length_insert|done|]. intros j u u' Hu Hu'.
    destruct (decide (j = i)) as [->|Hne].
    + rewrite list_lookup_insert_eq in Hu' by (by eapply lookup_lt_Some). simplify_eq.
      exists [m]. split; [|apply sublist_nil_l]. unfold held. simpl. by rewrite Eq, Ep.
    + rewrite list_lookup_insert_ne in Hu' by done. simplify_eq. exists []. by split; [|constructor].
  - unfold total_held. simpl.
    pose proof (sum_list_with_insert (fun t => length (past t) + length (deque t))%nat _ i t t1 Ht) as H.
    simpl in H. rewrite Eq in H. simpl in H. lia.
Qed.
(** Taking a new candidate settles the iteration. *)
Lemma candidate_settles s start_ end_ pivot_time p tp mp qp i t m q e :
  counted s -> num_non_empty_deques_ s = RealTypeCount s -> is_int64 start_ ->
  topics_ s !! p = Some tp -> deque tp = mp :: qp -> stamp mp = pivot_time ->
  topics_ s !! i = Some t -> deque t = m :: q ->
  safe (let! s := makeCandidate s start_ end_ pivot_time (Some p) in
        let! s := dequeMoveFrontToPast s i in Ok (s, Some (i, e))) (fun '(s', o) => settled s s' o).
Proof.
  intros Hn Hfull Hst Htp Eqp Hmp Ht Eq.
  eapply safe_bind; [by eapply makeCandidate_safe|]. intros s1 (Hn1 & Hc1 & Hf1 & Hp1 & Hfr).
  destruct (fresh_totals _ _ Hfr) as [Hh Hd]. pose proof (fresh_consumes _ _ Hfr).
  eapply (move_settles s s1 i p (set_queues t (deque t) [])); try done.
  unfold fresh in Hfr. rewrite Hfr, list_lookup_fmap, Ht. done.
Qed.

Lemma settled_same s s1 s' o : same s s1 -> settled s1 s' o -> settled s s' o.
Proof.
  intros H. pose proof (held_total _ _ (same_held _ _ H)) as E1. pose proof (same_deques _ _ H) as E2.
  assert (Hc : forall ts', consumes (topics_ s1) [] ts' -> consumes (topics_ s) [] ts').
  { intros ts'. apply (consumes_trans _ [] _ []), consumes_held, eq_sym, (same_held _ _ H). }
  destruct o as [[i e]|]; simpl; rewrite E1, ?E2; naive_solver.
Qed.

Lemma settle_safe s :
  valid s -> num_non_empty_deques_ s = RealTypeCount s ->
  safe (settle stamp clock scaled s) (fun '(s', o) => settled s s' o).
Proof.
  intros Hv Hfull. unfold settle.
  eapply safe_bind; [by apply getCandidateBoundary_safe; [apply Hv|]|]. intros [ei et] (te & me & qe & Hte & Eqe & ->).
  eapply safe_bind; [by apply getCandidateBoundary_safe; [apply Hv|]|]. intros [si st] (t & m & q & Ht & Eq & ->).
  pose proof (clear_dropped_same s ei) as Hsame. set (s1 := clear_dropped s ei) in *.
  eapply (safe_impl _ (fun '(s', o) => settled s1 s' o)); [|intros [s' o]; by apply settled_same].
  destruct (same_lookup _ _ _ _ Hsame Hte) as (te' & Hte' & Ede & _). rewrite Eqe in Ede.
  destruct (same_lookup _ _ _ _ Hsame Ht) as (t' & Ht' & Ed & _). rewrite Eq in Ed.
  assert (Hfull1 : num_non_empty_deques_ s1 = RealTypeCount s1).
  { unfold RealTypeCount, s1. simpl. by rewrite length_imap. }
  apply (same_valid _ _ Hsame) in Hv as [Hn Hp]. clear Hsame Hte Ht Hfull. unfold pivot_ok in Hp. clearbody s1.
  destruct (pivot_ s1) as [p|] eqn:Hps.
  - destruct Hp as [Hc Hf]. pose proof (pivot_time_int64 _ _ Hf).
    eapply safe_bind; [apply penalized_safe|]. intros penalty _.
    eapply safe_bind; [by apply (time_minus_safe _ _ (fun _ => True)); [|apply Hn|]|]. intros d _.
    destruct (d <=? penalty).
    + eapply move_settles; try done. apply consumes_refl.
    + destruct Hf as (tp & mp & qp & Htp & _ & Eqp & Hmp). by eapply candidate_settles.
  - eapply safe_bind; [by apply (time_minus_safe _ _ (fun _ => True))|]. intros d _.
    eapply safe_bind; [by eapply (topic_safe _ _ (fun _ => True)); [eapply lookup_lt_Some|]|]. intros t0 _.
    destruct (_ || _).
    + eapply safe_bind; [eapply dequeDeleteFront_safe; try done|].
      { split; [done|]. unfold pivot_ok. by rewrite Hps. }
      intros s2 H2. exact H2.
    + by eapply candidate_settles.
Qed.
Lemma conclude_safe s i e p :
  counted s -> candidate_is_front s -> pivot_ s = Some p -> (i <> p -> pivot_in_front s p) ->
  safe_loop (conclude stamp clock scaled s i e) (fun '(s', out) =>
    published s s' out \/ (out = [] /\ s' = s /\ valid s)).
Proof.
  intros Hn Hc Hp Hf. unfold conclude. rewrite Hp. case_bool_decide as Hip.
  { eapply safe_impl; [by apply publishCandidate_safe|]. intros [s' out]. by left. }
  assert (Hfr : pivot_in_front s p) by (apply Hf; congruence).
  assert (Hv : valid s) by (split; [done|]; unfold pivot_ok; by rewrite Hp).
  pose proof (pivot_time_int64 _ _ Hfr) as Hpt.
  assert (Hpen : safe (let! penalty := penalized clock scaled s e in
                       let! to_pivot := time_minus clock (pivot_time_ s) (candidate_start_ s) in
                       Ok (to_pivot <=? penalty)) (fun _ => True)).
  { eapply safe_bind; [apply penalized_safe|]. intros penalty _.
    by eapply safe_bind; [apply (time_minus_safe _ _ (fun _ => True)); [|apply Hn|]|]. }
  destruct (rbind _ _) as [[|]|]; [| |done].
  - eapply safe_impl; [by apply publishCandidate_safe|]. intros [s' out]. by left.
  - destruct (_ <? _)%nat; [|simpl; by right].
    eapply safe_loop_impl; [apply (virtual_search_safe _ (topics_ s) p)|].
    + split; try done. apply recover_moves_zero. unfold RealTypeCount. lia.
    + apply Hn.
    + lia.
    + intros [s' out] [H|[-> ->]]; [by left|]. right. split_and!; [done| |done]. by destruct s.
Qed.

Lemma process_step_safe s :
  valid s -> num_non_empty_deques_ s = RealTypeCount s ->
  safe_loop (process_step stamp clock scaled s) (fun '(s', out) =>
    valid s' /\ consumes (topics_ s) out (topics_ s') /\ smaller s' s).
Proof.
  intros Hv Hfull. pose proof (settle_safe _ Hv Hfull) as Hset. unfold process_step.
  destruct (settle _ _ _ _) as [[s1 [[i e]|]]|]; [| |done]; simpl in Hset.
  - destruct Hset as (Hn & Hc & Hcs & Hh & Hd & p & Hp & Hf).
    eapply safe_loop_impl; [by eapply conclude_safe|]. intros [s' out] [(Hv' & Hcs' & Hlt)|(-> & -> & Hv')].
    + split_and!; [done| |left; lia]. exact (consumes_trans _ _ _ _ _ Hcs Hcs').
    + split_and!; [done..|]. unfold smaller. lia.
  - destruct Hset as (Hv' & Hcs & Hlt). split_and!; [done..|by left].
Qed.

(** The square of what is held bounds the work before a message is given
    up. *)
Definition work s : nat := total_held s * total_held s + total_held s + total_deques s.

Lemma smaller_work s s' : smaller s' s -> (work s' < work s)%nat.
Proof.
  pose proof (total_deques_le s). pose proof (total_deques_le s'). unfold smaller, work.
  intros [Hlt|[-> ?]]; [nia|lia].
Qed.

Lemma process_loop_safe fuel s :
  valid s -> (work s < fuel)%nat ->
  safe_loop (process_loop stamp clock scaled fuel s) (fun '(s', out) =>
    valid s' /\ consumes (topics_ s) out (topics_ s')).
Proof.
  revert s. induction fuel as [|fuel IH]; intros s Hv Hf; [lia|]. cbn [process_loop].
  destruct (Nat.eqb_spec (num_non_empty_deques_ s) (RealTypeCount s)) as [Hfull|_].
  2: { split; [done|apply consumes_refl]. }
  pose proof (process_step_safe _ Hv Hfull) as Hst.
  destruct (process_step _ _ _ _) as [[[s1 out1]|]|]; [|done..].
  destruct Hst as (Hv1 & Hc1 & Hlt%smaller_work).
  specialize (IH s1 Hv1 ltac:(lia)).
  destruct (process_loop _ _ _ _ s1) as [[[s2 out2]|]|]; [|done..].
  destruct IH as [Hv2 Hc2]. split; [done|]. by eapply consumes_trans.
Qed.

Lemma process_safe s :
  valid s -> safe_loop (process stamp clock scaled s) (fun '(s', out) =>
    valid s' /\ consumes (topics_ s) out (topics_ s')).
Proof. intros Hv. apply process_loop_safe; [done|]. unfold work. lia. Qed.
(** *** Messages *)

(** The topics once the message is in the queue of topic [i]. *)
Definition received s (i : nat) (evt : M) : list (Topic (M := M)) :=
  match topics_ s !! i with
  | Some t => <[i := set_queues t (deque t ++ [evt]) (past t)]> (topics_ s)
  | None => topics_ s
  end.

Lemma received_lookup s i evt j :
  received s i evt !! j =
    (fun t => if decide (j = i) then set_queues t (deque t ++ [evt]) (past t) else t) <$> topics_ s !! j.
Proof.
  unfold received. destruct (topics_ s !! i) as [t|] eqn:Ht.
  - destruct (decide (j = i)) as [->|Hne].
    + rewrite list_lookup_insert_eq by (by eapply lookup_lt_Some). by rewrite Ht.
    + rewrite list_lookup_insert_ne by done. by destruct (topics_ s !! j).
  - destruct (decide (j = i)) as [->|Hne]; [by rewrite Ht|]. by destruct (topics_ s !! j).
Qed.

Lemma received_length s i evt : length (received s i evt) = length (topics_ s).
Proof. unfold received. destruct (topics_ s !! i); [apply length_insert|done]. Qed.

Lemma received_count s i evt t :
  topics_ s !! i = Some t ->
  count_non_empty (received s i evt) =
    match deque t with [] => (count_non_empty (topics_ s) + 1)%nat | _ => count_non_empty (topics_ s) end.
Proof.
  intros Ht. unfold received. rewrite Ht, !count_non_empty_sum.
  pose proof (sum_list_with_insert occupied (topics_ s) i t (set_queues t (deque t ++ [evt]) (past t)) Ht) as H.
  assert (E : occupied (set_queues t (deque t ++ [evt]) (past t)) = 1%nat).
  { unfold occupied. simpl. by destruct (deque t). }
  rewrite E in H. unfold occupied in H at 2. destruct (deque t); lia.
Qed.

(** Queueing a message keeps the invariant, whatever the count. *)
Lemma received_valid s i evt t :
  valid s -> topics_ s !! i = Some t ->
  valid (set_topics s (received s i evt)
           (match deque t with [] => num_non_empty_deques_ s + 1 | _ => num_non_empty_deques_ s end)%nat).
Proof.
  intros [[Hn Ht0 Hs Hq] Hp] Ht. split; [split; simpl; [|by rewrite received_length|done..]|].
  { rewrite (received_count _ _ _ _ Ht), Hn. by destruct (deque t). }
  unfold pivot_ok in *. simpl. destruct (pivot_ s) as [p|].
  - destruct Hp as [Hc (tp & m & q & Htp & Hpast & Eq & Hm)]. split.
    + unfold candidate_is_front in *. simpl. rewrite <- Hc. apply list_eq. intros j.
      rewrite !list_lookup_fmap, received_lookup. destruct (topics_ s !! j) as [tj|] eqn:Hj; [|done]. simpl.
      destruct (candidate_lookup s j tj Hc Hj) as [_ [mj Hmj]]. case_decide; [|done].
      f_equal. unfold held in *. simpl. rewrite app_assoc. by destruct (past tj ++ deque tj).
    + exists (if decide (p = i) then set_queues tp (deque tp ++ [evt]) (past tp) else tp), m,
        (if decide (p = i) then q ++ [evt] else q).
      simpl. rewrite received_lookup, Htp. simpl. case_decide; simpl; [by rewrite Eq|done].
  - apply Forall_lookup. intros j tj Hj. rewrite received_lookup in Hj.
    apply fmap_Some in Hj as (tj' & Hj & ->). apply (Forall_lookup_1 _ _ _ _ Hp) in Hj. by case_decide.
Qed.

Lemma warn_same s i t num :
  topics_ s !! i = Some t -> num = num_non_empty_deques_ s ->
  same s (set_topics s (<[i := set_warned t]> (topics_ s)) num).
Proof.
  intros Ht ->. split; [|done]. simpl. rewrite list_fmap_insert. apply list_insert_id.
  by rewrite list_lookup_fmap, Ht.
Qed.

Lemma same_consumes s s' : same s s' -> consumes (topics_ s) [] (topics_ s').
Proof. intros H. apply consumes_held, eq_sym, (same_held _ _ H). Qed.

Lemma checkInterMessageBound_safe s i t :
  valid s -> topics_ s !! i = Some t -> deque t <> [] ->
  safe (checkInterMessageBound stamp clock s i) (fun s' => same s s').
Proof.
  intros Hv Ht Hne. assert (Hr : same s s) by (split; [done|by destruct s]).
  unfold checkInterMessageBound, topic. rewrite Ht. simpl. destruct (warned t); [done|].
  destruct (rev (deque t)) as [|m older] eqn:Er.
  { apply (f_equal (@rev _)) in Er. by rewrite rev_involutive in Er. }
  destruct (match older with [] => _ | _ => _ end) as [prev|]; [|done].
  destruct (_ <? _); [by apply warn_same|].
  eapply safe_bind; [by apply (time_minus_safe _ _ (fun _ => True))|]. intros d _.
  destruct (_ <? _); [by apply warn_same|done].
Qed.
Lemma enqueue_safe s i evt :
  valid s -> (i < length (topics_ s))%nat ->
  safe_loop (enqueue stamp clock scaled s i evt) (fun '(s', out) =>
    valid s' /\ consumes (received s i evt) out (topics_ s')).
Proof.
  intros Hv [t Ht]%lookup_lt_is_Some_2. pose proof (received_valid s i evt t Hv Ht) as Hv1.
  assert (Ht1 : received s i evt !! i = Some (set_queues t (deque t ++ [evt]) (past t))).
  { rewrite received_lookup, Ht. simpl. by rewrite decide_True. }
  assert (Hne : deque t ++ [evt] <> []) by (by destruct (deque t)).
  unfold enqueue, topic. rewrite Ht.
  assert (Hrec : <[i := set_queues t (deque t ++ [evt]) (past t)]> (topics_ s) = received s i evt).
  { unfold received. by rewrite Ht. }
  rewrite Hrec. clear Hrec. set (t1 := set_queues t (deque t ++ [evt]) (past t)) in *.
  change (deque t1 <> []) in Hne. clearbody t1. destruct (deque t) as [|m q].
  - destruct (_ =? _)%nat; [|split; [done|apply consumes_refl]].
    by apply (process_safe _ Hv1).
  - set (s1 := set_topics s (received s i evt) _) in *.
    pose proof (checkInterMessageBound_safe s1 i t1 Hv1 Ht1 Hne) as Hsafe.
    destruct (checkInterMessageBound _ _ s1 i) as [s2|e]; [|done].
    split; [by eapply same_valid|]. by apply (same_consumes s1).
Qed.

(** Dropping the oldest message of a topic, all past messages back. *)
Lemma recovered_consumes ts i t m q b :
  map recover ts !! i = Some t -> deque t = m :: q ->
  consumes ts [] (<[i := set_dropped (set_queues t q (past t)) b]> (map recover ts)).
Proof.
  intros Ht Eq.
  assert (E : map held (map recover ts) = map held ts).
  { rewrite map_map. apply map_ext. intros u. unfold held. simpl. done. }
  apply (consumes_trans _ [] _ [] _ (consumes_held _ _ (eq_sym E))).
  split; [by rewrite length_insert|done|]. intros j u u' Hu Hu'. destruct (decide (j = i)) as [->|Hne].
  - rewrite list_lookup_insert_eq in Hu' by (by eapply lookup_lt_Some). simplify_eq.
    exists [m]. split; [|apply sublist_nil_l]. unfold held. simpl. rewrite list_lookup_fmap in Ht.
    destruct (ts !! i); simplify_eq/=. by rewrite Eq.
  - rewrite list_lookup_insert_ne in Hu' by done. simplify_eq. exists []. by split; [|constructor].
Qed.

Lemma consumes_le ts out ts' i t t' :
  consumes ts out ts' -> ts !! i = Some t -> ts' !! i = Some t' -> (length (held t') <= length (held t))%nat.
Proof.
  intros [_ _ H] Ht Ht'. destruct (H _ _ _ Ht Ht') as (c & -> & _). rewrite length_app. lia.
Qed.

Lemma limit_queue_safe s i t :
  valid s -> (0 < queue_size)%nat -> topics_ s !! i = Some t -> (length (held t) <= S queue_size)%nat ->
  safe_loop (limit_queue stamp clock scaled s i) (fun '(s', out) =>
    valid s' /\ consumes (topics_ s) out (topics_ s') /\
    forall t', topics_ s' !! i = Some t' -> (length (held t') <= queue_size)%nat).
Proof.
  intros Hv HQ Ht Hlen. pose proof Hv as [[Hn Ht0 Hs Hq] Hp]. unfold limit_queue, topic. rewrite Ht.
  unfold held in Hlen. rewrite length_app in Hlen. rewrite Hq.
  destruct (Nat.ltb_spec queue_size (length (deque t) + length (past t))).
  2: { split_and!; [done|apply consumes_refl|]. intros t' Ht'. simplify_eq. unfold held. rewrite length_app. lia. }
  simpl. rewrite list_lookup_fmap, Ht. simpl.
  assert (Hl : length (past t ++ deque t) = S queue_size) by (rewrite length_app; lia).
  destruct (past t ++ deque t) as [|m q] eqn:Eq; [done|].
  set (t1 := set_dropped (set_queues (recover t) q []) true).
  set (ts := <[i:=t1]> (map recover (topics_ s))). set (num := count_non_empty (map recover (topics_ s))).
  assert (Hcs : consumes (topics_ s) [] ts).
  { apply (recovered_consumes _ _ (recover t) m q); [by rewrite list_lookup_fmap, Ht|done]. }
  assert (Hti : ts !! i = Some t1).
  { apply list_lookup_insert_eq. rewrite length_map. by eapply lookup_lt_Some. }
  assert (Hpast : Forall (fun t => past t = []) ts).
  { apply Forall_insert; [|done]. apply Forall_map, Forall_true. done. }
  assert (Hnum : num = count_non_empty ts).
  { unfold ts. rewrite (count_pop _ i (recover t) m q); [by destruct q; simpl in *; [lia|]| | |done].
    - by rewrite list_lookup_fmap, Ht.
    - done. }
  assert (Hv1 : forall c, valid (set_candidate (set_topics s ts num) c (candidate_start_ s) (candidate_end_ s)
                                   (pivot_time_ s) None)).
  { intros c. split; [split; simpl; try done; unfold ts; by rewrite length_insert, length_map|done]. }
  destruct (pivot_ s) as [p|] eqn:Hps.
  - eapply safe_loop_impl; [apply process_safe, Hv1|]. intros [s' out] [Hv' Hcs']. split_and!; [done| |].
    + exact (consumes_trans _ _ _ _ _ Hcs Hcs').
    + intros t' Ht'. pose proof (consumes_le _ _ _ _ _ _ Hcs' Hti Ht') as Hle.
      unfold held in Hle at 2. simpl in Hle, Hl. lia.
  - split_and!; [|done|].
    + specialize (Hv1 (candidate_ s)). unfold set_candidate in Hv1. simpl in Hv1. by rewrite <- Hps in Hv1.
    + simpl. intros t' Ht'. rewrite Hti in Ht'. simplify_eq. unfold held. simpl in *. lia.
Qed.
Definition bounded s : Prop := Forall (fun t => (length (held t) <= queue_size)%nat) (topics_ s).

Lemma add_safe s i evt :
  valid s -> bounded s -> (0 < queue_size)%nat -> (i < length (topics_ s))%nat ->
  safe_loop (ApproximateTime_add stamp clock scaled s i evt) (fun '(s', out) =>
    valid s' /\ bounded s' /\ consumes (received s i evt) out (topics_ s')).
Proof.
  intros Hv Hb HQ Hi. unfold ApproximateTime_add.
  pose proof (enqueue_safe s i evt Hv Hi) as Hen.
  destruct (enqueue _ _ _ _ _ _) as [[[s1 out1]|]|]; [|done..]. destruct Hen as [Hv1 Hc1].
  pose proof (consumes_length _ _ _ Hc1) as Hl. rewrite received_length in Hl.
  assert (Hb1 : forall j t, topics_ s1 !! j = Some t ->
    (length (held t) <= if decide (j = i) then S queue_size else queue_size)%nat).
  { intros j t Ht. destruct (lookup_lt_is_Some_2 (topics_ s) j) as [t0 Ht0].
    { rewrite <- Hl. by eapply lookup_lt_Some. }
    eapply consumes_le in Ht; [|done|by rewrite received_lookup, Ht0].
    pose proof (Forall_lookup_1 _ _ _ _ Hb Ht0) as H0. simpl in *. case_decide; [|lia].
    unfold held in *. simpl in *. rewrite !length_app in *. simpl in *. lia. }
  destruct (lookup_lt_is_Some_2 (topics_ s1) i) as [t1 Ht1]; [lia|].
  pose proof (Hb1 _ _ Ht1) as Hlen. rewrite decide_True in Hlen by done.
  pose proof (limit_queue_safe s1 i t1 Hv1 HQ Ht1 Hlen) as Hlim.
  destruct (limit_queue _ _ _ s1 i) as [[[s2 out2]|]|]; [|done..]. destruct Hlim as (Hv2 & Hc2 & Hb2).
  split_and!; [done| |by eapply consumes_trans].
  apply Forall_lookup. intros j t Ht. destruct (decide (j = i)) as [->|Hne]; [by apply Hb2|].
  destruct (lookup_lt_is_Some_2 (topics_ s1) j) as [t' Ht'].
  { rewrite <- (consumes_length _ _ _ Hc2). by eapply lookup_lt_Some. }
  pose proof (consumes_le _ _ _ _ _ _ Hc2 Ht' Ht). specialize (Hb1 _ _ Ht'). rewrite decide_False in Hb1 by done. lia.
Qed.

(** *** Sequences of calls *)

(** The messages that arrive on topic [i]. *)
Definition arrivals (i : nat) (calls : list (Call (M := M))) : list M :=
  omap (fun c => match c with Add j evt => if decide (j = i) then Some evt else None | _ => None end) calls.

Definition call_ok (n : nat) (c : Call (M := M)) : Prop :=
  match c with
  | Add i _ => (i < n)%nat
  | SetInterMessageLowerBound i d => (i < n)%nat /\ 0 <= d
  | SetMaxIntervalDuration d => 0 <= d
  end.

(** What a sequence of calls does to the topics. *)
Definition uses s (calls : list Call) s' (out : list (list M)) : Prop :=
  length (topics_ s') = length (topics_ s) /\
  Forall (fun set => length set = length (topics_ s)) out /\
  forall i t t', topics_ s !! i = Some t -> topics_ s' !! i = Some t' ->
    exists c, held t ++ arrivals i calls = c ++ held t' /\ sublist (of_topic i out) c.
Lemma arrivals_app i calls calls' : arrivals i (calls ++ calls') = arrivals i calls ++ arrivals i calls'.
Proof. apply omap_app. Qed.

Lemma uses_trans s calls s1 out calls' s2 out' :
  uses s calls s1 out -> uses s1 calls' s2 out' -> uses s (calls ++ calls') s2 (out ++ out').
Proof.
  intros (L1 & S1 & T1) (L2 & S2 & T2). split_and!; [congruence|apply Forall_app; split; [done|by rewrite <- L1]|].
  intros i t t'' Ht Ht''. destruct (lookup_lt_is_Some_2 (topics_ s1) i) as [t' Ht'].
  { rewrite L1. by eapply lookup_lt_Some. }
  destruct (T1 _ _ _ Ht Ht') as (c1 & E1 & U1), (T2 _ _ _ Ht' Ht'') as (c2 & E2 & U2).
  exists (c1 ++ c2). rewrite of_topic_app, arrivals_app. split; [|by apply sublist_app].
  by rewrite app_assoc, E1, <- !app_assoc, E2.
Qed.

Lemma uses_nil s s' calls :
  map held (topics_ s') = map held (topics_ s) -> (forall i, arrivals i calls = []) -> uses s calls s' [].
Proof.
  intros E Ha. destruct (consumes_held _ _ (eq_sym E)) as [L _ T]. split_and!; [done..|].
  intros i t t' Ht Ht'. rewrite Ha, app_nil_r. exact (T _ _ _ Ht Ht').
Qed.

Lemma uses_received s i evt s' out :
  consumes (received s i evt) out (topics_ s') -> uses s [Add i evt] s' out.
Proof.
  intros [L S T]. rewrite received_length in L, S. split_and!; [done..|]. intros j t t' Ht Ht'.
  destruct (T j (if decide (j = i) then set_queues t (deque t ++ [evt]) (past t) else t) t') as (c & E & U).
  { by rewrite received_lookup, Ht. }
  { done. }
  exists c. split; [|done]. rewrite <- E. unfold arrivals. simpl.
  destruct (decide (i = j)) as [->|Hne]; [rewrite decide_True by done|rewrite decide_False by congruence].
  - unfold held. simpl. by rewrite app_assoc.
  - apply app_nil_r.
Qed.

Lemma configured_safe s s' c :
  (forall i, arrivals i [c] = []) ->
  map queues (topics_ s') = map queues (topics_ s) ->
  s' = mkApproximateTime (queue_size_ s) (max_interval_duration_ s') (topics_ s') (num_non_empty_deques_ s)
         (candidate_ s) (candidate_start_ s) (candidate_end_ s) (pivot_time_ s) (pivot_ s) ->
  valid s -> bounded s -> valid s' /\ bounded s' /\ uses s [c] s' [].
Proof.
  intros Ha E -> Hv Hb.
  assert (Hs : same s (set_topics s (topics_ s') (num_non_empty_deques_ s))) by by split.
  split_and!; simpl.
  - apply (same_valid _ _ Hs) in Hv as [[]]. by split; [split|].
  - unfold bounded. simpl. apply (Forall_map held (fun l => (length l <= queue_size)%nat)).
    pose proof (same_held _ _ Hs) as Eh. simpl in Eh. rewrite Eh. by apply Forall_map.
  - apply uses_nil; [exact (same_held _ _ Hs)|done].
Qed.

Lemma run_call_safe s c :
  valid s -> bounded s -> (0 < queue_size)%nat -> call_ok (length (topics_ s)) c ->
  safe_loop (run_call stamp clock scaled s c) (fun '(s', out) => valid s' /\ bounded s' /\ uses s [c] s' out).
Proof.
  intros Hv Hb HQ Hc. destruct c as [i evt|i d|d]; simpl in *.
  - eapply safe_loop_impl; [by apply add_safe|]. intros [s' out] (Hv' & Hb' & Hcs).
    split_and!; [done..|]. by apply uses_received.
  - destruct Hc as [[t Ht]%lookup_lt_is_Some_2 Hd]. unfold setInterMessageLowerBound, topic.
    destruct (Z.leb_spec 0 d); [|lia]. simpl. rewrite Ht. simpl.
    apply configured_safe; try done. simpl. rewrite list_fmap_insert. apply list_insert_id.
    by rewrite list_lookup_fmap, Ht.
  - unfold setMaxIntervalDuration. destruct (Z.leb_spec 0 d); [|lia]. simpl. by apply configured_safe.
Qed.

Lemma run_safe calls s :
  valid s -> bounded s -> (0 < queue_size)%nat -> Forall (call_ok (length (topics_ s))) calls ->
  safe_loop (run stamp clock scaled s calls) (fun '(s', out) => valid s' /\ bounded s' /\ uses s calls s' out).
Proof.
  intros Hv Hb HQ Hcs. revert s Hv Hb Hcs. induction calls as [|c calls IH]; intros s Hv Hb Hcs; simpl.
  { split_and!; [done..|]. by apply uses_nil. }
  apply Forall_cons in Hcs as [Hc Hcs]. pose proof (run_call_safe s c Hv Hb HQ Hc) as H1.
  destruct (run_call _ _ _ _ _) as [[[s1 out1]|]|]; [|done..]. destruct H1 as (Hv1 & Hb1 & Hu1).
  rewrite <- (proj1 Hu1) in Hcs. specialize (IH s1 Hv1 Hb1 Hcs).
  destruct (run _ _ _ s1 calls) as [[[s2 out2]|]|]; [|done..]. destruct IH as (Hv2 & Hb2 & Hu2).
  split_and!; [done..|]. exact (uses_trans _ [c] _ _ _ _ _ Hu1 Hu2).
Qed.

Lemma init_valid n : (0 < n)%nat -> valid (ApproximateTime_init n queue_size) /\ bounded (ApproximateTime_init n queue_size).
Proof.
  intros Hn. split; [split; [split|]|]; simpl.
  - rewrite count_non_empty_sum. clear. induction n; simpl; [done|]. by rewrite <- IHn.
  - by rewrite length_replicate.
  - done.
  - done.
  - by apply Forall_replicate.
  - apply Forall_replicate. simpl. lia.
Qed.
(** *** Properties *)

(** C4: the ApproximateTime policy is safe and its loops end.  For any
    sequence of messages and settings on a new policy, [process], its
    virtual search and the recovery of dropped messages all terminate, no
    assertion of the code fails, no front of an empty deque is read, and
    the only way not to return is an exception of the time arithmetic. *)
Theorem ApproximateTime_total n calls :
  (0 < n)%nat -> (0 < queue_size)%nat -> Forall (call_ok n) calls ->
  exists r, run stamp clock scaled (ApproximateTime_init n queue_size) calls = Some r /\
    match r with Throw Broken => False | _ => True end.
Proof.
  intros Hn HQ Hcs. destruct (init_valid n Hn) as [Hv Hb].
  pose proof (run_safe calls _ Hv Hb HQ) as H. simpl in H. rewrite length_replicate in H. specialize (H Hcs).
  destruct (run _ _ _ _ _) as [[?|[]]|]; simpl in H; naive_solver.
Qed.

(** C5: the policy respects every topic.  Each signalled set has one
    message of every topic; on each topic, what the policy still holds is
    the end of what arrived, and the signalled messages are drawn from the
    rest in the order of arrival, none of them twice. *)
Theorem ApproximateTime_order n calls s' out :
  (0 < n)%nat -> (0 < queue_size)%nat -> Forall (call_ok n) calls ->
  run stamp clock scaled (ApproximateTime_init n queue_size) calls = Some (Ok (s', out)) ->
  Forall (fun set => length set = n) out /\
  forall i, (i < n)%nat -> exists t' gone,
    topics_ s' !! i = Some t' /\
    arrivals i calls = gone ++ past t' ++ deque t' /\
    sublist (of_topic i out) gone.
Proof.
  intros Hn HQ Hcs E. destruct (init_valid n Hn) as [Hv Hb].
  pose proof (run_safe calls _ Hv Hb HQ) as H. simpl in H. rewrite length_replicate in H. specialize (H Hcs).
  rewrite E in H. destruct H as (_ & _ & L & S & T). simpl in L, S. rewrite length_replicate in L, S.
  split; [done|]. intros i Hi. destruct (lookup_lt_is_Some_2 (topics_ s') i) as [t' Ht']; [lia|].
  destruct (T i Topic_init t') as (c & Ec & U); [by apply lookup_replicate_2|done|]. by exists t', c.
Qed.

(** the queues are bounded.  After any sequence of calls a topic holds
    at most [queue_size_] messages, those set aside included, and
    [num_non_empty_deques_] counts the topics with a message. *)
Theorem ApproximateTime_bounded n calls s' out :
  (0 < n)%nat -> (0 < queue_size)%nat -> Forall (call_ok n) calls ->
  run stamp clock scaled (ApproximateTime_init n queue_size) calls = Some (Ok (s', out)) ->
  Forall (fun t => (length (past t) + length (deque t) <= queue_size)%nat) (topics_ s') /\
  num_non_empty_deques_ s' = length (filter (fun t => deque t <> []) (topics_ s')).
Proof.
  intros Hn HQ Hcs E. destruct (init_valid n Hn) as [Hv Hb].
  pose proof (run_safe calls _ Hv Hb HQ) as H. simpl in H. rewrite length_replicate in H. specialize (H Hcs).
  rewrite E in H. destruct H as (Hv' & Hb' & _). split; [|apply Hv'].
  eapply Forall_impl; [exact Hb'|]. intros t. unfold held. by rewrite length_app.
Qed.
End Policy.

(** ** Witnesses *)

Section Witnesses.
(** Two topics; a message is its stamp and a number. *)
Definition sample_stamp (m : bool * nat) : Z := if m.1 then 1000 else 990.

Definition sample_calls : list (Call (M := bool * nat)) :=
  [SetInterMessageLowerBound 1 5; Add 0 (false, 1%nat); Add 1 (true, 2%nat); Add 0 (true, 3%nat); Add 0 (true, 4%nat);
   SetMaxIntervalDuration 100].

Lemma sample_stamp_int64 m : is_int64 (sample_stamp m).
Proof. destruct m as [[] k]; by split. Qed.

Lemma sample_calls_ok : Forall (call_ok 2) sample_calls.
Proof. unfold sample_calls. rewrite !Forall_cons. simpl. split_and!; (lia || constructor). Qed.

Definition sample_scaled : Z -> Result time_error Z := scaled_by 0x1.999999999999ap-4%float.

Local Abbreviation sample_run :=
  (run sample_stamp RCL_ROS_TIME sample_scaled (ApproximateTime_init 2 2) sample_calls).

Definition sample_end : ApproximateTime (M := bool * nat) :=
  mkApproximateTime 2 100 [mkTopic [(true, 4%nat)] [] false 0 false; mkTopic [] [] false 5 false] 1
    [] 1000 1000 1000 None.

(** The message that is too old for the others is skipped, and the two
    simultaneous ones form a set. *)
Lemma sample_run_result : sample_run = Some (Ok (sample_end, [[(true, 3%nat); (true, 2%nat)]])).
Proof. vm_compute. reflexivity. Qed.

Lemma ApproximateTime_total_witness :
  exists r, sample_run = Some r /\ match r with Throw Broken => False | _ => True end.
Proof.
  exact (ApproximateTime_total sample_stamp RCL_ROS_TIME sample_scaled sample_stamp_int64 2 2 sample_calls
           ltac:(lia) ltac:(lia) sample_calls_ok).
Defined.

Lemma ApproximateTime_order_witness :
  exists gone, arrivals 0 sample_calls = gone ++ [(true, 4%nat)] /\ sublist [(true, 3%nat)] gone.
Proof.
  destruct (ApproximateTime_order sample_stamp RCL_ROS_TIME sample_scaled sample_stamp_int64 2 2 sample_calls _ _
    ltac:(lia) ltac:(lia) sample_calls_ok sample_run_result) as [_ H].
  destruct (H 0%nat ltac:(lia)) as (t & gone & Ht & Ea & Hs). injection Ht as <-. by exists gone.
Defined.

Lemma ApproximateTime_bounded_witness :
  Forall (fun t => (length (past t) + length (deque t) <= 2)%nat) (topics_ sample_end).
Proof.
  exact (proj1 (ApproximateTime_bounded sample_stamp RCL_ROS_TIME sample_scaled sample_stamp_int64 2 2 sample_calls _ _
    ltac:(lia) ltac:(lia) sample_calls_ok sample_run_result)).
Defined.
End Witnesses.
