(* ===== verification/EpsilonTime.v ===== *)
(** * message_filters ApproximateEpsilonTime policy

    [message_filters/include/message_filters/sync_policies/approximate_epsilon_time.h]:
    sets of one message per topic whose stamps are within [epsilon_] of the
    oldest.  As in the other policies only the [n] real topics are kept, the
    message types are one type [M], and their stamps are points of ROS time.
    [signals] are the calls of [parent_->signal], in order.

    The theorems: every call ends, unless [epsilon_] is negative
    ([negative_epsilon_never_ends]), what is signalled fits together, and with
    two topics in order nothing that fits is lost; with three it may be. *)

From Stdlib Require Import ZArith Lia.
From stdpp Require Import base numbers list sets.
From S2P Require Import Prelude Computation RclTime.
#[local] Open Scope Z_scope.

Inductive epsilon_fault := FromTime (e : time_error) | OutOfRange | Unfinished.

Section EpsilonTime.
Context {M : Type} (stamp : M -> Z) (n : nat).

Record ApproximateEpsilonTime := mkEpsilonTime {
  queue_size_ : nat;
  epsilon_ : Z;
  number_of_non_empty_events_ : Z;
  events_ : list (list M);
  signals : list (list M);
}.

Notation E := (ST ApproximateEpsilonTime epsilon_fault).

Definition ApproximateEpsilonTime_init (queue_size : nat) (epsilon : Z) : ApproximateEpsilonTime :=
  mkEpsilonTime queue_size epsilon 0 (replicate n []) [].

Definition set_events (number : Z) (events : list (list M)) (s : ApproximateEpsilonTime) : ApproximateEpsilonTime :=
  mkEpsilonTime (queue_size_ s) (epsilon_ s) number events (signals s).

Definition time_plus (t d : Z) : E Z :=
  match Time_add (mkTime t RCL_ROS_TIME) d with Ok x => mret (nanoseconds x) | Throw e => throw (FromTime e) end.

(** [std::get<i>(events_)]. *)
Definition events_of_this_type (s : ApproximateEpsilonTime) (i : nat) : list M := default [] (events_ s !! i).

(** [TimeIndexPair], with [None] for the largest [size_t]. *)
Definition get_older_timestamp_between (s : ApproximateEpsilonTime) (current : Z * option nat) (i : nat) : Z * option nat :=
  match events_of_this_type s i with
  | [] => current
  | candidate :: _ => if stamp candidate <? current.1 then (stamp candidate, Some i) else current
  end.

Definition get_older_timestamp (s : ApproximateEpsilonTime) : Z * option nat :=
  fold_left (get_older_timestamp_between s) (seq 0 n) (int64_max, None).

Definition check_timestamp_within_epsilon (older : Z * option nat) (i : nat) : E bool :=
  if bool_decide (older.2 = Some i) then mret true else
  s ← get;
  match events_of_this_type s i with
  | [] => mret false
  | ts :: _ => limit ← time_plus older.1 (epsilon_ s); mret (stamp ts <=? limit)
  end.

(** The fold of [valid &=] over topics. *)
Fixpoint check_all_timestamp_within_epsilon (older : Z * option nat) (topics : list nat) (valid : bool) : E bool :=
  match topics with
  | [] => mret valid
  | i :: topics => within ← check_timestamp_within_epsilon older i; check_all_timestamp_within_epsilon older topics (valid && within)
  end.

(** Erasing the first message of a topic; it is known that there is one. *)
Definition erase_first (i : nat) (s : ApproximateEpsilonTime) : ApproximateEpsilonTime :=
  let this_vector := tail (events_of_this_type s i) in
  set_events (if bool_decide (this_vector = []) then u64 (number_of_non_empty_events_ s - 1) else number_of_non_empty_events_ s)
    (<[i := this_vector]> (events_ s)) s.

Definition erase_beginning_of_vector (i : nat) (s : ApproximateEpsilonTime) : ApproximateEpsilonTime :=
  match events_of_this_type s i with [] => s | _ => erase_first i s end.

Definition erase_beginning_of_vectors (s : ApproximateEpsilonTime) : ApproximateEpsilonTime :=
  fold_left (fun s i => erase_beginning_of_vector i s) (seq 0 n) s.

Definition erase_beginning_of_vector_if_on_sync_with_ts (timestamp : Z) (i : nat) : E unit :=
  s ← get;
  match events_of_this_type s i with
  | [] => mret tt
  | event :: _ =>
    limit ← time_plus timestamp (epsilon_ s);
    if limit <? stamp event then mret tt else modify (erase_first i)
  end.

Definition erase_old_events_if_on_sync_with_ts (timestamp : Z) : E unit :=
  for_each (erase_beginning_of_vector_if_on_sync_with_ts timestamp) (seq 0 n).

(** [at(0)] of each topic. *)
Definition signal : E unit :=
  s ← get;
  match mapM head (events_ s) with
  | Some set => modify (fun s => mkEpsilonTime (queue_size_ s) (epsilon_ s) (number_of_non_empty_events_ s) (events_ s) (signals s ++ [set]))
  | None => throw OutOfRange
  end.

Fixpoint process (fuel : nat) : E unit :=
  s ← get;
  if number_of_non_empty_events_ s =? Z.of_nat n then
    match fuel with
    | O => throw Unfinished
    | S fuel =>
      let old_ts := get_older_timestamp s in
      valid ← check_all_timestamp_within_epsilon old_ts (seq 0 n) true;
      (if valid : bool then signal;; modify erase_beginning_of_vectors
       else erase_old_events_if_on_sync_with_ts old_ts.1);;
      process fuel
    end
  else mret tt.

Definition push_back (i : nat) (evt : M) (s : ApproximateEpsilonTime) : ApproximateEpsilonTime :=
  set_events (if bool_decide (events_of_this_type s i = []) then u64 (number_of_non_empty_events_ s + 1) else number_of_non_empty_events_ s)
    (<[i := events_of_this_type s i ++ [evt]]> (events_ s)) s.

(** [add<i>]. *)
Definition ApproximateEpsilonTime_add (fuel i : nat) (evt : M) : E unit :=
  modify (push_back i evt);;
  s ← get;
  if number_of_non_empty_events_ s =? Z.of_nat n then process fuel
  else if (queue_size_ s <? length (events_of_this_type s i))%nat then modify (erase_beginning_of_vector i)
  else mret tt.

(** ** States *)

Definition non_empty (events : list (list M)) : nat := length (filter (fun q => q <> []) events).

(** The state with these messages, and their number as it is counted. *)
Definition holding (events : list (list M)) (s : ApproximateEpsilonTime) : ApproximateEpsilonTime :=
  set_events (Z.of_nat (non_empty events)) events s.

Definition signalled (sets : list (list M)) (s : ApproximateEpsilonTime) : ApproximateEpsilonTime :=
  mkEpsilonTime (queue_size_ s) (epsilon_ s) (number_of_non_empty_events_ s) (events_ s) (signals s ++ sets).

Definition drop_if (p : M -> bool) (q : list M) : list M := match q with m :: r => if p m then r else q | [] => [] end.

Lemma non_empty_middle pre q rest :
  non_empty (pre ++ q :: rest) = (non_empty pre + (if bool_decide (q = []) then 0 else 1) + non_empty rest)%nat.
Proof.
  unfold non_empty. rewrite filter_app, length_app, filter_cons. repeat case_decide; case_bool_decide; simpl; try lia; naive_solver.
Qed.

Lemma non_empty_le events : (non_empty events <= length events)%nat.
Proof. apply length_filter. Qed.

Lemma non_empty_all events : non_empty events = length events <-> [] ∉ events.
Proof.
  unfold non_empty. induction events as [|q l IH]; [split; [intros _ H; by apply elem_of_nil in H|done]|].
  pose proof (length_filter (fun q : list M => q <> []) l). rewrite filter_cons, not_elem_of_cons. case_decide as Hq; simpl.
  - rewrite <- IH. split; [intros [=]; split; congruence|]. intros [_ ->]. done.
  - split; [lia|]. by intros [Hq' _].
Qed.

Lemma events_of_middle pre q rest k s : events_of_this_type (set_events k (pre ++ q :: rest) s) (length pre) = q.
Proof. unfold events_of_this_type. simpl. by rewrite list_lookup_middle. Qed.

Lemma insert_middle pre (q q' : list M) rest : <[length pre := q']> (pre ++ q :: rest) = pre ++ q' :: rest.
Proof. by rewrite <- (Nat.add_0_r (length pre)), insert_app_r. Qed.

Lemma u64_small z : 0 <= z < 20 -> u64 z = z.
Proof. intros Hz. apply wrap_u_id. unfold in_u. lia. Qed.

(** Erasing in all topics the first message if it satisfies [p]. *)
Definition erase_one (p : M -> bool) (i : nat) (s : ApproximateEpsilonTime) : ApproximateEpsilonTime :=
  match events_of_this_type s i with [] => s | m :: _ => if p m then erase_first i s else s end.

Lemma erase_one_holding p pre q rest s :
  (length (pre ++ q :: rest) <= 9)%nat -> erase_one p (length pre) (holding (pre ++ q :: rest) s) = holding (pre ++ drop_if p q :: rest) s.
Proof.
  intros H9. unfold erase_one, holding. rewrite events_of_middle. destruct q as [|m r]; [done|]. simpl drop_if. destruct (p m); [|done].
  unfold erase_first. rewrite events_of_middle. unfold set_events. simpl. rewrite insert_middle, !non_empty_middle. f_equal.
  pose proof (non_empty_le pre). pose proof (non_empty_le rest). rewrite length_app in H9. simpl in H9.
  rewrite (bool_decide_false (m :: r = [])) by done. case_bool_decide; [rewrite u64_small by lia|]; lia.
Qed.

Lemma erase_all_holding p pre rest s :
  (length (pre ++ rest) <= 9)%nat ->
  fold_left (fun s i => erase_one p i s) (seq (length pre) (length rest)) (holding (pre ++ rest) s) = holding (pre ++ (drop_if p <$> rest)) s.
Proof.
  revert pre. induction rest as [|q rest IH]; intros pre H9; [done|]. cbn [length seq fold_left]. rewrite erase_one_holding by done.
  rewrite <- (last_length pre (drop_if p q)). change (pre ++ drop_if p q :: rest) with (pre ++ [drop_if p q] ++ rest). rewrite app_assoc, IH.
  - by rewrite <- app_assoc.
  - rewrite !length_app in *. simpl in *. lia.
Qed.

Lemma push_back_holding pre q rest evt s :
  (length (pre ++ q :: rest) <= 9)%nat -> push_back (length pre) evt (holding (pre ++ q :: rest) s) = holding (pre ++ (q ++ [evt]) :: rest) s.
Proof.
  intros H9. unfold push_back, holding. rewrite !events_of_middle. unfold set_events. simpl. rewrite insert_middle, !non_empty_middle.
  f_equal. pose proof (non_empty_le pre). pose proof (non_empty_le rest). rewrite length_app in H9. simpl in H9.
  rewrite (bool_decide_false (q ++ [evt] = [])) by by destruct q. case_bool_decide; [rewrite u64_small by lia|]; lia.
Qed.

(** ** A pass of [process] *)

Definition oldest (heads : list M) (t : Z) : Prop := (exists m, m ∈ heads /\ stamp m = t) /\ forall m, m ∈ heads -> t <= stamp m.

Definition proper (epsilon : Z) (m : M) : Prop := 0 <= stamp m < int64_max /\ stamp m + epsilon <= int64_max.

Definition fits (epsilon t : Z) (m : M) : bool := stamp m <=? t + epsilon.

Lemma time_plus_ok t d s : is_int64 t -> is_int64 d -> is_int64 (t + d) -> time_plus t d s = (Ok (t + d), s).
Proof.
  intros Ht Hd Hs. unfold time_plus. destruct (Time_arith_exact (mkTime t RCL_ROS_TIME) (mkTime t RCL_ROS_TIME) d Ht Ht Hd) as [-> _].
  assert (Ee : exact64 (t + d) = Ok (t + d)) by (unfold is_int64 in Hs; int64_lia). simpl. by rewrite Ee.
Qed.

Section Pass.
Variables (s : ApproximateEpsilonTime) (heads : list M).
Hypothesis Hheads : mapM head (events_ s) = Some heads.
Hypothesis Hn : length (events_ s) = n.
Hypothesis Hproper : Forall (proper (epsilon_ s)) heads.

Lemma heads_length : length heads = n.
Proof using Hheads Hn. rewrite <- Hn. symmetry. by eapply length_mapM. Qed.

Lemma heads_lookup i m : heads !! i = Some m -> exists r, events_of_this_type s i = m :: r.
Proof using Hheads.
  intros Hi. apply mapM_Some in Hheads as Hf. destruct (Forall2_lookup_r _ _ _ _ _ Hf Hi) as (q & Hq & Hm).
  unfold events_of_this_type. rewrite Hq. destruct q as [|m' r]; [done|]. injection Hm as ->. by exists r.
Qed.

Lemma get_older_prefix k :
  (k <= n)%nat ->
  let '(t, o) := fold_left (get_older_timestamp_between s) (seq 0 k) (int64_max, None) in
  (forall i m, (i < k)%nat -> heads !! i = Some m -> t <= stamp m) /\ match o with Some i => exists m, heads !! i = Some m /\ stamp m = t | None => t = int64_max end.
Proof using Hheads Hn.
  induction k as [|k IH]; intros Hk; [split; [lia|done]|]. rewrite seq_S, fold_left_app. simpl. specialize (IH ltac:(lia)).
  destruct (fold_left _ _ _) as [t o]. destruct IH as [H1 H2].
  destruct (lookup_lt_is_Some_2 heads k) as [m Hm]; [rewrite heads_length; lia|].
  destruct (heads_lookup k m Hm) as [r Er]. unfold get_older_timestamp_between. rewrite Er. simpl.
  destruct (Z.ltb_spec (stamp m) t) as [Hlt|Hge]; (split; [|by eauto]); intros i m' Hi Hm'.
  - destruct (decide (i = k)) as [->|Hne]; [by simplify_eq|]. specialize (H1 i m' ltac:(lia) Hm'). lia.
  - destruct (decide (i = k)) as [->|Hne]; [by simplify_eq|]. apply (H1 i); [lia|done].
Qed.

Lemma get_older_spec : (1 <= n)%nat -> exists t i m, get_older_timestamp s = (t, Some i) /\ heads !! i = Some m /\ stamp m = t /\ oldest heads t.
Proof using Hheads Hn Hproper.
  intros H1. pose proof (get_older_prefix n ltac:(lia)) as Hp. fold (get_older_timestamp s) in Hp.
  destruct (get_older_timestamp s) as [t o]. destruct Hp as [Hle Ho]. assert (Hall : forall m, m ∈ heads -> t <= stamp m).
  { intros m [i Hi]%list_elem_of_lookup. apply (Hle i); [|done]. rewrite <- heads_length. by eapply lookup_lt_Some. }
  destruct o as [i|].
  - destruct Ho as (m & Hm & Et). exists t, i, m. split_and!; try done. split; [|done]. exists m. split; [by eapply list_elem_of_lookup_2|done].
  - destruct (lookup_lt_is_Some_2 heads 0) as [m Hm]; [rewrite heads_length; lia|]. apply list_elem_of_lookup_2 in Hm.
    specialize (Hall m Hm). rewrite Forall_forall in Hproper. destruct (Hproper m Hm). lia.
Qed.

Variables (t : Z) (o : nat) (mo : M).
Hypothesis Hlimit : forall st, time_plus t (epsilon_ s) st = (Ok (t + epsilon_ s), st).

(** The oldest itself is not asked for. *)
Definition within (i : nat) : bool :=
  bool_decide (i = o) || match heads !! i with Some m => fits (epsilon_ s) t m | None => true end.

Lemma check_one i : (i < n)%nat -> check_timestamp_within_epsilon (t, Some o) i s = (Ok (within i), s).
Proof using Hheads Hn Hlimit.
  intros Hi. unfold check_timestamp_within_epsilon, within. simpl. repeat case_bool_decide; try congruence; [done|]. rewrite get_bind.
  destruct (lookup_lt_is_Some_2 heads i) as [m Hm]; [by rewrite heads_length|].
  destruct (heads_lookup i m Hm) as [r ->]. rewrite Hm. by rewrite (bind_ok _ _ _ _ _ (Hlimit s)).
Qed.

Lemma check_all l b :
  Forall (fun i => i < n)%nat l -> check_all_timestamp_within_epsilon (t, Some o) l b s = (Ok (b && forallb within l), s).
Proof using Hheads Hn Hlimit.
  revert b. induction l as [|i l IH]; intros b Hl; simpl; [by rewrite andb_true_r|]. apply Forall_cons in Hl as [Hi Hl].
  rewrite (bind_ok _ _ _ _ _ (check_one i Hi)), IH by done. by rewrite andb_assoc.
Qed.

Lemma check_all_topics : check_all_timestamp_within_epsilon (t, Some o) (seq 0 n) true s = (Ok (forallb within (seq 0 n)), s).
Proof using Hheads Hn Hlimit. apply check_all, Forall_forall. intros i Hi%elem_of_seq. lia. Qed.

Lemma check_all_spec :
  heads !! o = Some mo -> stamp mo = t -> 0 <= epsilon_ s ->
  check_all_timestamp_within_epsilon (t, Some o) (seq 0 n) true s = (Ok (forallb (fits (epsilon_ s) t) heads), s).
Proof using Hheads Hn Hlimit.
  intros Ho Et He. rewrite check_all_topics. do 2 f_equal.
  apply eq_bool_prop_intro. rewrite !Is_true_true, !forallb_forall. unfold within. split.
  - intros H m [i Hi]%list_elem_of_In%list_elem_of_lookup. specialize (H i). rewrite Hi in H. case_bool_decide as Eo.
    + subst i. rewrite Ho in Hi. injection Hi as <-. apply Z.leb_le. lia.
    + apply H, in_seq. rewrite <- heads_length. apply lookup_lt_Some in Hi. lia.
  - intros H i _. apply orb_true_intro. destruct (heads !! i) as [m|] eqn:Hi; [right|by right]. apply H, list_elem_of_In. by eapply list_elem_of_lookup_2.
Qed.
End Pass.

(** ** [process]

    What it makes of the messages, and signals. *)
Inductive processed (epsilon : Z) : list (list M) -> list (list M) -> list (list M) -> Prop :=
| processed_stop events : [] ∈ events -> processed epsilon events events []
| processed_signal events heads t events' out :
    mapM head events = Some heads -> oldest heads t -> forallb (fits epsilon t) heads = true ->
    processed epsilon (drop_if (fun _ => true) <$> events) events' out -> processed epsilon events events' (heads :: out)
| processed_drop events heads t events' out :
    mapM head events = Some heads -> oldest heads t -> forallb (fits epsilon t) heads = false ->
    processed epsilon (drop_if (fits epsilon t) <$> events) events' out -> processed epsilon events events' out.

Definition total_events (events : list (list M)) : nat := length (concat events).

Lemma drop_if_le p (events : list (list M)) : (total_events (drop_if p <$> events) <= total_events events)%nat.
Proof.
  unfold total_events. induction events as [|q l IH]; [done|]. rewrite fmap_cons. simpl. rewrite !length_app.
  destruct q as [|m r]; simpl in *; [lia|]. destruct (p m); simpl; lia.
Qed.

Lemma drop_if_lt p (events : list (list M)) heads m :
  mapM head events = Some heads -> m ∈ heads -> p m = true -> (total_events (drop_if p <$> events) < total_events events)%nat.
Proof.
  intros Hh%mapM_Some. revert heads Hh. induction events as [|q l IH]; intros heads Hh Hm Hp.
  - inversion Hh; subst. by apply elem_of_nil in Hm.
  - inversion Hh as [|? m' ? hs Hq Hl]; subst. destruct q as [|m1 r]; [done|]. injection Hq as ->.
    pose proof (drop_if_le p l) as Hle. specialize (IH hs Hl). unfold total_events in *. rewrite fmap_cons. cbn [concat]. rewrite !length_app. simpl.
    apply elem_of_cons in Hm as [->|Hm]; [rewrite Hp; lia|]. specialize (IH Hm Hp). destruct (p m'); simpl; lia.
Qed.

Lemma heads_elem (events : list (list M)) heads m : mapM head events = Some heads -> m ∈ heads -> exists q, q ∈ events /\ m ∈ q.
Proof.
  intros Hh%mapM_Some [i Hi]%list_elem_of_lookup. destruct (Forall2_lookup_r _ _ _ _ _ Hh Hi) as (q & Hq & Hm).
  exists q. split; [by eapply list_elem_of_lookup_2|]. destruct q as [|m' r]; [done|]. injection Hm as ->. by left.
Qed.

Definition all_proper (epsilon : Z) (events : list (list M)) : Prop := Forall (Forall (proper epsilon)) events.

Lemma drop_if_proper epsilon p events : all_proper epsilon events -> all_proper epsilon (drop_if p <$> events).
Proof.
  intros Hp. apply Forall_fmap. eapply Forall_impl; [exact Hp|]. intros [|m r]; simpl; [done|]. intros H. destruct (p m); [|done].
  by apply Forall_cons in H as [_ H].
Qed.

Lemma heads_some (events : list (list M)) : [] ∉ events -> exists heads, mapM head events = Some heads.
Proof.
  intros Hin. apply mapM_is_Some_2, Forall_forall. intros q Hq. destruct q as [|m r]; [done|by eexists].
Qed.

Lemma heads_proper epsilon (events : list (list M)) heads : all_proper epsilon events -> mapM head events = Some heads -> Forall (proper epsilon) heads.
Proof.
  intros Hp Hh. apply Forall_forall. intros m Hm. destruct (heads_elem _ _ _ Hh Hm) as (q & Hq & Hmq).
  unfold all_proper in Hp. rewrite Forall_forall in Hp. specialize (Hp q Hq). rewrite Forall_forall in Hp. auto.
Qed.

Lemma some_empty (events : list (list M)) : [] ∈ events \/ [] ∉ events.
Proof.
  induction events as [|q l IH]; [right; apply not_elem_of_nil|]. destruct q as [|m r]; [left; by left|].
  destruct IH as [H|H]; [left; by right|right]. by rewrite not_elem_of_cons.
Qed.

Section Process.
Hypothesis Hn : (2 <= n <= 9)%nat.

Lemma erase_vectors events s :
  length events = n -> erase_beginning_of_vectors (holding events s) = holding (drop_if (fun _ => true) <$> events) s.
Proof using Hn.
  intros Hl. unfold erase_beginning_of_vectors. rewrite <- Hl. pose proof (erase_all_holding (fun _ => true) [] events s ltac:(simpl; lia)) as He.
  simpl in He. rewrite <- He. f_equal.
Qed.

Lemma erase_old (events : list (list M)) t s :
  length events = n -> (forall st, time_plus t (epsilon_ s) st = (Ok (t + epsilon_ s), st)) ->
  erase_old_events_if_on_sync_with_ts t (holding events s) = (Ok tt, holding (drop_if (fits (epsilon_ s) t) <$> events) s).
Proof using Hn.
  intros Hl Hlim. pose proof (erase_all_holding (fits (epsilon_ s) t) [] events s ltac:(simpl; lia)) as Ha. simpl in Ha.
  rewrite <- Ha. unfold erase_old_events_if_on_sync_with_ts. rewrite <- Hl. clear Ha.
  assert (H : forall l s', epsilon_ s' = epsilon_ s ->
    for_each (erase_beginning_of_vector_if_on_sync_with_ts t) l s' = (Ok tt, fold_left (fun s0 i => erase_one (fits (epsilon_ s) t) i s0) l s')).
  { induction l as [|i l IH]; intros s' Es; [done|]. cbn [for_each fold_left].
    rewrite (bind_ok _ _ s' (erase_one (fits (epsilon_ s) t) i s') tt).
    - apply IH. unfold erase_one. destruct (events_of_this_type s' i); [done|]. by destruct (fits _ _ _).
    - unfold erase_beginning_of_vector_if_on_sync_with_ts. rewrite get_bind. unfold erase_one.
      destruct (events_of_this_type s' i) as [|m r]; [done|]. rewrite Es, (bind_ok _ _ _ _ _ (Hlim s')). unfold fits.
      rewrite Z.leb_antisym. by destruct (_ <? _). }
  by apply H.
Qed.

Lemma process_spec fuel events s :
  length events = n -> 0 <= epsilon_ s -> all_proper (epsilon_ s) events -> (total_events events < fuel)%nat ->
  exists events' out, process fuel (holding events s) = (Ok tt, signalled out (holding events' s)) /\
    processed (epsilon_ s) events events' out /\ length events' = n.
Proof using Hn.
  revert events s. induction fuel as [|fuel IH]; intros events s Hl He Hp Hf; [lia|]. cbn [process]. rewrite get_bind. cbv beta iota.
  change (number_of_non_empty_events_ (holding events s)) with (Z.of_nat (non_empty events)).
  destruct (Z.eqb_spec (Z.of_nat (non_empty events)) (Z.of_nat n)) as [Hne|Hne].
  2:{ exists events, []. split; [|split; [|done]].
    - unfold signalled. simpl. rewrite app_nil_r. by destruct s.
    - constructor. destruct (some_empty events) as [H|H]; [done|]. apply non_empty_all in H. lia. }
  assert (Hin : [] ∉ events) by (apply non_empty_all; lia). destruct (heads_some _ Hin) as [heads Hh].
  pose proof (heads_proper _ _ _ Hp Hh) as Hph.
  destruct (get_older_spec (holding events s) heads Hh Hl Hph ltac:(lia)) as (t & o & mo & Eo & Ho & Et & Hold). rewrite Eo. cbv zeta.
  apply list_elem_of_lookup_2 in Ho as Hmo.
  assert (Hlim : forall st, time_plus t (epsilon_ s) st = (Ok (t + epsilon_ s), st)).
  { intros st. rewrite Forall_forall in Hph. destruct (Hph mo Hmo) as [[]]. apply time_plus_ok; unfold is_int64, int64_min, int64_max in *; lia. }
  rewrite (bind_ok _ _ _ _ _ (check_all_spec (holding events s) heads Hh Hl t o mo Hlim Ho Et He)).
  change (epsilon_ (holding events s)) with (epsilon_ s). destruct Hold as [Hex Hmin].
  assert (Hfit : fits (epsilon_ s) t mo = true) by (apply Z.leb_le; lia).
  destruct (forallb (fits (epsilon_ s) t) heads) eqn:Hall.
  - rewrite (bind_ok _ _ _ (signalled [heads] (holding (drop_if (fun _ => true) <$> events) s)) tt).
    2:{ assert (Hs : signal (holding events s) = (Ok tt, signalled [heads] (holding events s))).
        { unfold signal. rewrite get_bind. cbv beta iota. change (events_ (holding events s)) with events. by rewrite Hh. }
        rewrite (bind_ok _ _ _ _ _ Hs). unfold modify. change (signalled [heads] (holding ?x s)) with (holding x (signalled [heads] s)).
        by rewrite erase_vectors. }
    destruct (IH (drop_if (fun _ => true) <$> events) (signalled [heads] s)) as (ev & out & E & Hpr & Hl').
    + by rewrite length_fmap.
    + done.
    + by apply drop_if_proper.
    + pose proof (drop_if_lt (fun _ => true) events heads mo Hh Hmo eq_refl). lia.
    + exists ev, (heads :: out). split; [|split; [by eapply processed_signal|done]].
      change (signalled [heads] (holding ?x s)) with (holding x (signalled [heads] s)). rewrite E. unfold signalled, holding, set_events. simpl.
      by rewrite <- app_assoc.
  - rewrite (bind_ok _ _ _ _ _ (erase_old events t s Hl Hlim)).
    destruct (IH (drop_if (fits (epsilon_ s) t) <$> events) s) as (ev & out & E & Hpr & Hl').
    + by rewrite length_fmap.
    + done.
    + by apply drop_if_proper.
    + pose proof (drop_if_lt (fits (epsilon_ s) t) events heads mo Hh Hmo Hfit). lia.
    + exists ev, out. split; [done|]. split; [by eapply processed_drop|done].
Qed.

(** Nothing is within a negative limit, so nothing is erased. *)
Lemma process_negative fuel events s :
  length events = n -> [] ∉ events -> is_int64 (epsilon_ s) -> epsilon_ s < 0 -> Forall (Forall (fun m => 0 <= stamp m < int64_max)) events ->
  process fuel (holding events s) = (Throw Unfinished, holding events s).
Proof using Hn.
  intros Hl Hin Hi He Hp. destruct (heads_some _ Hin) as [heads Hh].
  assert (Hph : forall m, m ∈ heads -> 0 <= stamp m < int64_max).
  { intros m Hm. destruct (heads_elem _ _ _ Hh Hm) as (q & Hq & Hmq). rewrite Forall_forall in Hp. specialize (Hp q Hq).
    rewrite Forall_forall in Hp. auto. }
  destruct (get_older_spec (holding events s) heads Hh Hl) as (t & o & mo & Eo & Ho & Et & _ & Hmin); [|lia|].
  { apply Forall_forall. intros m Hm. specialize (Hph m Hm). unfold proper. simpl. lia. }
  apply list_elem_of_lookup_2 in Ho as Hmo.
  assert (Hlim : forall st, time_plus t (epsilon_ s) st = (Ok (t + epsilon_ s), st)).
  { intros st. specialize (Hph mo Hmo). apply time_plus_ok; unfold is_int64, int64_min, int64_max in *; lia. }
  assert (Hfits : forall m, m ∈ heads -> fits (epsilon_ s) t m = false) by (intros m Hm; specialize (Hmin m Hm); apply Z.leb_gt; lia).
  assert (Hall : forallb (within (holding events s) heads t o) (seq 0 n) = false).
  { apply not_true_iff_false. rewrite forallb_forall. intros Hall. set (j := if decide (o = 0%nat) then 1%nat else 0%nat).
    assert (Hj : (j < n)%nat /\ j <> o) by (unfold j; case_decide; lia). specialize (Hall j ltac:(apply in_seq; lia)).
    unfold within in Hall. rewrite bool_decide_false in Hall by apply Hj. destruct (lookup_lt_is_Some_2 heads j) as [m Hm].
    - rewrite (heads_length (holding events s) heads Hh Hl). apply Hj.
    - rewrite Hm in Hall. apply list_elem_of_lookup_2 in Hm. simpl in Hall. by rewrite (Hfits m Hm) in Hall. }
  assert (Hsame : drop_if (fits (epsilon_ s) t) <$> events = events).
  { apply mapM_Some in Hh. clear -Hh Hfits. induction Hh as [|q m l hs Hq Hh IH]; [done|]. rewrite fmap_cons. f_equal.
    - destruct q as [|m' r]; [done|]. injection Hq as <-. simpl. rewrite (Hfits m'); [done|by left].
    - apply IH. intros m' Hm'. apply Hfits. by right. }
  apply non_empty_all in Hin as Hne. induction fuel as [|fuel IH]; cbn [process]; rewrite get_bind; cbv beta iota;
    change (number_of_non_empty_events_ (holding events s)) with (Z.of_nat (non_empty events)); rewrite Hne, Hl, Z.eqb_refl; [done|].
  rewrite Eo. cbv zeta. rewrite (bind_ok _ _ _ _ _ (check_all_topics (holding events s) heads Hh Hl t o Hlim)), Hall.
  pose proof (erase_old events t s Hl Hlim) as Hold. rewrite Hsame in Hold. by rewrite (bind_ok _ _ _ _ _ Hold).
Qed.
End Process.

(** ** What [process] does *)

Definition set_ok (epsilon : Z) (set : list M) : Prop :=
  length set = n /\ forall a b, a ∈ set -> b ∈ set -> stamp a <= stamp b + epsilon.

Lemma processed_empty epsilon events events' out : processed epsilon events events' out -> [] ∈ events'.
Proof. by induction 1. Qed.

Lemma processed_sets epsilon events events' out :
  length events = n -> processed epsilon events events' out -> Forall (set_ok epsilon) out.
Proof.
  intros Hl H. induction H as [|events heads t events' out Hh [_ Hmin] Hall H IH|]; [done| |by apply IHprocessed; rewrite length_fmap].
  constructor; [|by apply IH; rewrite length_fmap]. split; [rewrite <- Hl; symmetry; by eapply length_mapM|].
  rewrite forallb_forall in Hall. intros a b Ha Hb. specialize (Hmin b Hb). apply list_elem_of_In in Ha. specialize (Hall a Ha).
  apply Z.leb_le in Hall. lia.
Qed.

Definition of_topic (i : nat) (sets : list (list M)) : list M := omap (fun set => set !! i) sets.

Lemma drop_if_sublist p q : sublist (drop_if p q) q.
Proof. destruct q as [|m r]; simpl; [done|]. destruct (p m); [by apply sublist_cons|done]. Qed.

Lemma processed_sublist epsilon events events' out i q :
  processed epsilon events events' out -> events !! i = Some q ->
  exists q', events' !! i = Some q' /\ sublist (of_topic i out ++ q') q.
Proof.
  intros H. revert q. induction H as [|events heads t events' out Hh _ _ _ IH|events heads t events' out Hh _ _ _ IH]; intros q Hq.
  - by exists q.
  - apply mapM_Some in Hh. destruct (Forall2_lookup_l _ _ _ _ _ Hh Hq) as (m & Hm & Hqm). destruct q as [|m' r]; [done|]. injection Hqm as ->.
    destruct (IH r) as (q' & E & Hs); [rewrite list_lookup_fmap, Hq; done|]. exists q'. split; [done|]. simpl. rewrite Hm. simpl. by apply sublist_skip.
  - destruct (IH (drop_if (fits epsilon t) q)) as (q' & E & Hs); [rewrite list_lookup_fmap, Hq; done|]. exists q'. split; [done|].
    etransitivity; [exact Hs|apply drop_if_sublist].
Qed.

(** ** [add] *)

Section Adding.
Hypothesis Hn : (2 <= n <= 9)%nat.

Lemma holding_counted events s : number_of_non_empty_events_ (holding events s) = Z.of_nat n -> length events = n -> [] ∉ events.
Proof. simpl. intros Hnum Hl. apply non_empty_all. lia. Qed.

Lemma add_spec fuel i q evt events s :
  length events = n -> events !! i = Some q -> 0 <= epsilon_ s -> all_proper (epsilon_ s) (<[i := q ++ [evt]]> events) ->
  (total_events (<[i := q ++ [evt]]> events) < fuel)%nat ->
  exists events' out, processed (epsilon_ s) (<[i := q ++ [evt]]> events) events' out /\ length events' = n /\
    (ApproximateEpsilonTime_add fuel i evt (holding events s) = (Ok tt, signalled out (holding events' s)) /\
       ([] ∉ <[i := q ++ [evt]]> events \/ (length (q ++ [evt]) <= queue_size_ s)%nat) \/
     ApproximateEpsilonTime_add fuel i evt (holding events s) = (Ok tt, holding (<[i := tail (q ++ [evt])]> events) s) /\
       out = [] /\ events' = <[i := q ++ [evt]]> events /\ (queue_size_ s < length (q ++ [evt]))%nat).
Proof using Hn.
  intros Hl Hq He Hp Hf. set (events1 := <[i := q ++ [evt]]> events) in *.
  assert (Hl1 : length events1 = n) by (unfold events1; by rewrite length_insert).
  assert (Hpush : push_back i evt (holding events s) = holding events1 s).
  { unfold events1. apply list_elem_of_split_length in Hq as (pre & rest & -> & ->). rewrite push_back_holding by lia. by rewrite insert_middle. }
  unfold ApproximateEpsilonTime_add. rewrite (bind_ok _ _ _ (holding events1 s) tt) by (unfold modify; by rewrite Hpush).
  rewrite get_bind. cbv beta iota.
  destruct (Z.eqb_spec (number_of_non_empty_events_ (holding events1 s)) (Z.of_nat n)) as [Hall|Hall].
  - destruct (process_spec Hn fuel events1 s Hl1 He Hp Hf) as (ev & out & E & Hpr & Hlev).
    exists ev, out. split_and!; try done. left. split; [done|]. left. by eapply holding_counted.
  - exists events1, []. assert (Hin : [] ∈ events1).
    { destruct (some_empty events1) as [H|H]; [done|]. apply non_empty_all in H. simpl in Hall. lia. }
    split; [by constructor|]. split; [done|]. assert (Hof : events_of_this_type (holding events1 s) i = q ++ [evt]).
    { unfold events_of_this_type, events1. simpl. by rewrite list_lookup_insert_eq by by eapply lookup_lt_Some. }
    rewrite Hof. destruct (Nat.ltb_spec (queue_size_ (holding events1 s)) (length (q ++ [evt]))) as [Hlt|Hge]; simpl in *.
    + right. split_and!; try done. unfold modify. do 2 f_equal. unfold events1.
      apply list_elem_of_split_length in Hq as (pre & rest & -> & ->). rewrite !insert_middle.
      pose proof (erase_one_holding (fun _ => true) pre (q ++ [evt]) rest s ltac:(rewrite length_app in *; simpl in *; lia)) as Ho.
      unfold erase_one in Ho. unfold erase_beginning_of_vector.
      assert (Eo : events_of_this_type (holding (pre ++ (q ++ [evt]) :: rest) s) (length pre) = q ++ [evt]) by apply events_of_middle.
      rewrite Eo in Ho |- *. by destruct q.
    + left. split; [|by right]. unfold signalled, mret, ST_ret. simpl. rewrite app_nil_r. by destruct s.
Qed.
End Adding.

(** ** Runs *)

Definition add_all (fuel : nat) (arrivals : list (nat * M)) : E unit := for_each (fun '(i, m) => ApproximateEpsilonTime_add fuel i m) arrivals.

Lemma for_each_snoc {S Err A} (f : A -> ST S Err unit) l x st st' : for_each f l st = (Ok tt, st') -> for_each f (l ++ [x]) st = f x st'.
Proof.
  revert st. induction l as [|y l IH]; intros st; simpl.
  - intros [= ->]. unfold mbind, ST_bind. by destruct (f x st') as [[[]|e] st2].
  - intros ([] & st1 & E1 & E2)%bind_inv. rewrite (bind_ok _ _ _ _ _ E1). by apply IH.
Qed.

Definition arrived (i : nat) (arrivals : list (nat * M)) : list M := snd <$> filter (fun a => a.1 = i) arrivals.

Lemma arrived_snoc i arrivals j m : arrived i (arrivals ++ [(j, m)]) = arrived i arrivals ++ (if decide (j = i) then [m] else []).
Proof. unfold arrived. rewrite filter_app, fmap_app, filter_cons. simpl. by destruct (decide (j = i)). Qed.

Lemma arrived_elem i arrivals m : m ∈ arrived i arrivals -> (i, m) ∈ arrivals.
Proof. unfold arrived. intros ([j m'] & -> & [Hj Hin]%list_elem_of_filter)%list_elem_of_fmap. simpl in *. by subst. Qed.

Record run_ok (queue_size : nat) (epsilon : Z) (arrivals : list (nat * M)) (s : ApproximateEpsilonTime) : Prop := {
  run_counted : s = holding (events_ s) s;
  run_topics : length (events_ s) = n;
  run_size : queue_size_ s = queue_size;
  run_epsilon : epsilon_ s = epsilon;
  run_waiting : [] ∈ events_ s;
  run_bounded : forall i q, events_ s !! i = Some q -> (length q <= queue_size)%nat;
  run_sets : Forall (set_ok epsilon) (signals s);
  run_order : forall i q, events_ s !! i = Some q -> sublist (of_topic i (signals s) ++ q) (arrived i arrivals);
  run_total : (total_events (events_ s) <= length arrivals)%nat;
}.

Definition arrivals_ok (epsilon : Z) (arrivals : list (nat * M)) : Prop := Forall (fun a => (a.1 < n)%nat /\ proper epsilon a.2) arrivals.

Lemma total_insert (events : list (list M)) i q m : events !! i = Some q -> total_events (<[i := q ++ [m]]> events) = S (total_events events).
Proof.
  unfold total_events. intros (pre & rest & -> & ->)%list_elem_of_split_length. rewrite insert_middle, !concat_app. simpl.
  rewrite !length_app. simpl. lia.
Qed.

Lemma processed_total epsilon events events' out : processed epsilon events events' out -> (total_events events' <= total_events events)%nat.
Proof. induction 1; [done|..]; (etransitivity; [eassumption|apply drop_if_le]). Qed.

Lemma run_proper queue_size epsilon arrivals s : arrivals_ok epsilon arrivals -> run_ok queue_size epsilon arrivals s -> all_proper epsilon (events_ s).
Proof.
  intros Ha Hr. apply Forall_lookup. intros i q Hq. apply Forall_forall. intros m Hm.
  pose proof (run_order _ _ _ _ Hr i q Hq) as Hs. assert (Hin : m ∈ arrived i arrivals).
  { eapply elem_of_sublist; [|exact Hs]. apply elem_of_app. by right. }
  apply arrived_elem in Hin. unfold arrivals_ok in Ha. rewrite Forall_forall in Ha. by apply (Ha _ Hin).
Qed.

Lemma init_run queue_size epsilon : (2 <= n)%nat -> run_ok queue_size epsilon [] (ApproximateEpsilonTime_init queue_size epsilon).
Proof.
  intros Hn. assert (Hrep : forall i q, (replicate n [] : list (list M)) !! i = Some q -> q = []) by (intros i q [-> _]%lookup_replicate; done).
  split; simpl; try done.
  - unfold holding, set_events. simpl. unfold ApproximateEpsilonTime_init. f_equal. unfold non_empty.
    rewrite filter_none; [done|]. apply Forall_replicate. tauto.
  - apply length_replicate.
  - destruct n; [lia|]. by left.
  - intros i q Hq. rewrite (Hrep i q Hq). simpl. lia.
  - intros i q Hq. by rewrite (Hrep i q Hq).
  - unfold total_events. clear Hrep Hn. by induction n.
Qed.

(** A message arrives, and this is what becomes of the messages. *)
Lemma run_step queue_size epsilon arrivals i m s q events out :
  run_ok queue_size epsilon arrivals s -> events_ s !! i = Some q ->
  length events = n -> [] ∈ events -> Forall (set_ok epsilon) out -> (total_events events <= S (total_events (events_ s)))%nat ->
  (forall j q', events !! j = Some q' -> (length q' <= queue_size)%nat) ->
  (forall j qj, <[i := q ++ [m]]> (events_ s) !! j = Some qj -> exists q', events !! j = Some q' /\ sublist (of_topic j out ++ q') qj) ->
  run_ok queue_size epsilon (arrivals ++ [(i, m)]) (signalled out (holding events s)).
Proof.
  intros [Hc Hl Hsz Heps Hw Hb Hs Ho Ht] Hq Hlev Hin Hout Htot Hbound Hsub. split; simpl; try done.
  - by apply Forall_app.
  - intros j q' Hj. destruct (lookup_lt_is_Some_2 (<[i := q ++ [m]]> (events_ s)) j) as [qj Hqj].
    { rewrite length_insert, Hl, <- Hlev. by eapply lookup_lt_Some. }
    destruct (Hsub j qj Hqj) as (q2 & E2 & Hsj). rewrite Hj in E2. injection E2 as <-.
    unfold of_topic in *. rewrite omap_app, <- app_assoc.
    etransitivity; [apply sublist_app; [reflexivity|exact Hsj]|]. rewrite arrived_snoc.
    apply list_lookup_insert_Some in Hqj as [(-> & <- & _)|[Hne Hqj]].
    + rewrite decide_True by done. rewrite app_assoc. apply sublist_app; [by apply Ho|done].
    + rewrite decide_False by done. rewrite app_nil_r. by apply Ho.
  - rewrite length_app. simpl. lia.
Qed.

Section Runs.
Hypothesis Hn : (2 <= n <= 9)%nat.

(** The queues stay small when none is empty: the last message was the
    first of its topic. *)
Lemma filled_bounded queue_size (events : list (list M)) i q m :
  length events = n -> [] ∈ events -> events !! i = Some q -> [] ∉ <[i := q ++ [m]]> events ->
  (forall j q', events !! j = Some q' -> (length q' <= queue_size)%nat) -> q = [] /\ (1 <= queue_size)%nat.
Proof using Hn.
  intros Hl Hin Hq Hne Hb. assert (q = []) as ->.
  { apply list_elem_of_lookup in Hin as [k Hk]. destruct (decide (k = i)) as [->|Hki]; [by simplify_eq|]. destruct Hne.
    apply list_elem_of_lookup. exists k. by rewrite list_lookup_insert_ne. }
  split; [done|]. assert (exists k, (k < n)%nat /\ k <> i) as (k & Hk & Hki).
  { destruct (decide (i = 0%nat)); [exists 1%nat|exists 0%nat]; lia. }
  destruct (lookup_lt_is_Some_2 events k) as [qk Hqk]; [by rewrite Hl|]. specialize (Hb k qk Hqk).
  destruct qk as [|x r]; [|simpl in *; lia]. destruct Hne. apply list_elem_of_lookup. exists k. by rewrite list_lookup_insert_ne.
Qed.

Lemma add_run queue_size epsilon fuel arrivals i m s :
  0 <= epsilon -> arrivals_ok epsilon (arrivals ++ [(i, m)]) -> (length arrivals + 1 < fuel)%nat -> run_ok queue_size epsilon arrivals s ->
  exists s', ApproximateEpsilonTime_add fuel i m s = (Ok tt, s') /\ run_ok queue_size epsilon (arrivals ++ [(i, m)]) s'  /\
    exists q events' out, events_ s !! i = Some q /\ processed epsilon (<[i := q ++ [m]]> (events_ s)) events' out /\ signals s' = signals s ++ out /\
      (events_ s' = events' \/ (queue_size <= length q)%nat).
Proof using Hn.
  intros He [Ha [[Hi Hm] _]%Forall_cons]%Forall_app Hf Hr. simpl in Hi, Hm. pose proof (run_proper _ _ _ _ Ha Hr) as Hp.
  destruct (lookup_lt_is_Some_2 (events_ s) i) as [q Hq]; [by rewrite (run_topics _ _ _ _ Hr)|].
  pose proof Hr as [Hc Hl Hsz Heps Hw Hb Hs Ho Ht]. pose proof (total_insert _ i q m Hq) as Htot.
  destruct (add_spec Hn fuel i q m (events_ s) s Hl Hq) as (ev & out & Hpr & Hlev & Hcase); rewrite ?Heps; try done.
  { apply Forall_insert; [done|]. apply Forall_app. split; [|by apply Forall_singleton].
    unfold all_proper in Hp. rewrite Forall_lookup in Hp. by apply (Hp i). }
  { lia. }
  rewrite <- Hc, Heps in *. pose proof (processed_total _ _ _ _ Hpr) as Hpt. pose proof (Hb i q Hq) as Hqle.
  pose proof (processed_empty _ _ _ _ Hpr) as Hin.
  destruct Hcase as [[E Hbound]|(E & -> & -> & Hover)]; eexists; (split; [exact E|]).
  - split; [|exists q, ev, out; by split_and!; try left]. apply (run_step _ _ _ _ _ _ q); try done; [|lia| |].
    + eapply processed_sets; [|exact Hpr]. by rewrite length_insert.
    + intros j q' Hj. destruct (lookup_lt_is_Some_2 (<[i := q ++ [m]]> (events_ s)) j) as [qj Hqj].
      { rewrite length_insert, Hl, <- Hlev. by eapply lookup_lt_Some. }
      destruct (processed_sublist _ _ _ _ j qj Hpr Hqj) as (q2 & E2 & Hsub). rewrite Hj in E2. injection E2 as <-.
      apply sublist_length in Hsub. rewrite length_app in Hsub. enough ((length qj <= queue_size)%nat) by lia.
      apply list_lookup_insert_Some in Hqj as [(-> & <- & _)|[_ Hqj]]; [|by apply (Hb j)].
      destruct Hbound as [Hne|Hbound]; [|lia]. destruct (filled_bounded queue_size _ _ _ _ Hl Hw Hq Hne Hb) as [-> ?]. done.
    + intros j qj Hj. by eapply processed_sublist.
  - assert (Es : holding (<[i := tail (q ++ [m])]> (events_ s)) s = signalled [] (holding (<[i := tail (q ++ [m])]> (events_ s)) s))
      by (unfold signalled; simpl; rewrite app_nil_r; by destruct s).
    assert (Htail : length (tail (q ++ [m])) = length q) by (destruct q; simpl; rewrite ?length_app; simpl; lia).
    rewrite length_app in Hover. simpl in Hover.
    split; [|exists q, (<[i := q ++ [m]]> (events_ s)), []; split_and!; [done|done|by rewrite app_nil_r|right; lia]].
    rewrite Es. apply (run_step _ _ _ _ _ _ q); try done.
    + by rewrite length_insert.
    + apply list_elem_of_lookup in Hin as [k Hk]. apply list_elem_of_lookup. exists k.
      apply list_lookup_insert_Some in Hk as [(-> & Hk & _)|[Hne Hk]]; [by destruct q|]. by rewrite list_lookup_insert_ne.
    + clear - Hq Htail. unfold total_events. apply list_elem_of_split_length in Hq as (pre & rest & -> & ->). rewrite insert_middle, !concat_app.
      cbn [concat]. rewrite !length_app, Htail. lia.
    + intros j q' Hj. apply list_lookup_insert_Some in Hj as [(-> & <- & _)|[_ Hj]]; [|by apply (Hb j)].
      by rewrite Htail.
    + intros j qj Hj. apply list_lookup_insert_Some in Hj as [(-> & <- & Hlt)|[Hne Hj]].
      * exists (tail (q ++ [m])). rewrite list_lookup_insert_eq by done. split; [done|]. simpl. destruct (q ++ [m]); simpl; [done|by apply sublist_cons].
      * exists qj. by rewrite list_lookup_insert_ne.
Qed.

Lemma run_all queue_size epsilon fuel arrivals :
  0 <= epsilon -> arrivals_ok epsilon arrivals -> (length arrivals + 1 < fuel)%nat ->
  exists s, add_all fuel arrivals (ApproximateEpsilonTime_init queue_size epsilon) = (Ok tt, s) /\ run_ok queue_size epsilon arrivals s.
Proof using Hn.
  intros He. induction arrivals as [|[i m] arrivals IH] using rev_ind; intros Ha Hf; [eexists; split; [done|apply init_run; lia]|].
  rewrite length_app in Hf. simpl in Hf. destruct IH as (s & E & Hr); [by apply Forall_app in Ha as [? _]|lia|].
  destruct (add_run queue_size epsilon fuel arrivals i m s He Ha ltac:(lia) Hr) as (s' & E' & Hr' & _).
  exists s'. split; [|done]. unfold add_all in *. by rewrite (for_each_snoc _ _ _ _ _ E).
Qed.
End Runs.

(** ** Two topics *)

Definition apart (epsilon : Z) (a b : M) : Prop := epsilon < Z.abs (stamp a - stamp b).

(** Of each topic: what has arrived, was signalled, was dropped, is waiting. *)
Record lossless (epsilon : Z) (A0 S0 D0 Q0 A1 S1 D1 Q1 : list M) : Prop := {
  kept0 : A0 ≡ₚ S0 ++ D0 ++ Q0;
  kept1 : A1 ≡ₚ S1 ++ D1 ++ Q1;
  apart_dropped : forall a b, a ∈ D0 -> b ∈ D1 -> apart epsilon a b;
  apart0 : forall a b, a ∈ D0 -> b ∈ Q1 -> apart epsilon a b;
  apart1 : forall a b, a ∈ Q0 -> b ∈ D1 -> apart epsilon a b;
  late0 : forall a, a ∈ D0 -> exists b, b ∈ A1 /\ stamp a + epsilon < stamp b;
  late1 : forall b, b ∈ D1 -> exists a, a ∈ A0 /\ stamp b + epsilon < stamp a;
  ordered0 : ascending stamp Q0;
  ordered1 : ascending stamp Q1;
}.

Lemma apart_sym epsilon a b : apart epsilon a b -> apart epsilon b a.
Proof. unfold apart. lia. Qed.

Lemma lossless_sym epsilon A0 S0 D0 Q0 A1 S1 D1 Q1 :
  lossless epsilon A0 S0 D0 Q0 A1 S1 D1 Q1 -> lossless epsilon A1 S1 D1 Q1 A0 S0 D0 Q0.
Proof. intros []. split; eauto using apart_sym. Qed.

Lemma lossless_drop epsilon A0 S0 D0 h0 r0 A1 S1 D1 h1 r1 :
  0 <= epsilon -> stamp h0 + epsilon < stamp h1 ->
  lossless epsilon A0 S0 D0 (h0 :: r0) A1 S1 D1 (h1 :: r1) -> lossless epsilon A0 S0 (h0 :: D0) r0 A1 S1 D1 (h1 :: r1).
Proof.
  intros He Hlt [K0 K1 Ad A01 A10 L0 L1 O0 O1]. apply ascending_cons in O0 as [_ O0]. split; try done.
  - rewrite K0. by rewrite <- Permutation_middle.
  - intros a b [->|Ha]%elem_of_cons Hb; [apply A10; [by left|done]|by apply Ad].
  - intros a b [->|Ha]%elem_of_cons Hb; [|by apply A01]. apply ascending_cons in O1 as [O1 _]. unfold apart.
    apply elem_of_cons in Hb as [->|Hb]; [lia|]. specialize (O1 b Hb). lia.
  - intros a b Ha Hb. apply A10; [by right|done].
  - intros a [->|Ha]%elem_of_cons; [|by apply L0]. exists h1. split; [|done]. rewrite K1, !elem_of_app. right. right. by left.
Qed.

Lemma lossless_signal epsilon A0 S0 D0 h0 r0 A1 S1 D1 h1 r1 :
  lossless epsilon A0 S0 D0 (h0 :: r0) A1 S1 D1 (h1 :: r1) -> lossless epsilon A0 (S0 ++ [h0]) D0 r0 A1 (S1 ++ [h1]) D1 r1.
Proof.
  intros [K0 K1 Ad A01 A10 L0 L1 O0 O1]. apply ascending_cons in O0 as [_ O0]. apply ascending_cons in O1 as [_ O1]. split; try done.
  - rewrite K0. rewrite <- app_assoc. simpl. by rewrite <- Permutation_middle.
  - rewrite K1. rewrite <- app_assoc. simpl. by rewrite <- Permutation_middle.
  - intros a b Ha Hb. apply A01; [done|by right].
  - intros a b Ha Hb. apply A10; [by right|done].
Qed.

Lemma lossless_add epsilon A0 S0 D0 Q0 m A1 S1 D1 Q1 :
  (forall a, a ∈ A0 -> stamp a <= stamp m) ->
  lossless epsilon A0 S0 D0 Q0 A1 S1 D1 Q1 -> lossless epsilon (A0 ++ [m]) S0 D0 (Q0 ++ [m]) A1 S1 D1 Q1.
Proof.
  intros Hm [K0 K1 Ad A01 A10 L0 L1 O0 O1]. split; try done.
  - by rewrite K0, !app_assoc.
  - intros a b [Ha| ->%list_elem_of_singleton]%elem_of_app Hb; [by apply A10|]. destruct (L1 b Hb) as (a & Ha & Hab).
    specialize (Hm a Ha). unfold apart. lia.
  - intros b Hb. destruct (L1 b Hb) as (a & Ha & Hab). exists a. split; [|done]. apply elem_of_app. by left.
  - apply ascending_app. split_and!; [|done|apply ascending_cons; split; [by intros y Hy%elem_of_nil|constructor]].
    intros a b Ha ->%list_elem_of_singleton. apply Hm. rewrite K0, !elem_of_app. by right; right.
Qed.

Lemma processed_lossless epsilon Q0 Q1 events' out A0 S0 D0 A1 S1 D1 :
  0 <= epsilon -> processed epsilon [Q0; Q1] events' out -> lossless epsilon A0 S0 D0 Q0 A1 S1 D1 Q1 ->
  exists D0' Q0' D1' Q1', events' = [Q0'; Q1'] /\ lossless epsilon A0 (S0 ++ of_topic 0 out) D0' Q0' A1 (S1 ++ of_topic 1 out) D1' Q1'.
Proof.
  intros He H. remember [Q0; Q1] as events eqn:Ee. revert Q0 Q1 S0 D0 S1 D1 Ee.
  induction H as [events Hin|events heads t events' out Hh Ht Hall H IH|events heads t events' out Hh Ht Hall H IH];
    intros Q0 Q1 S0 D0 S1 D1 -> Hl.
  - exists D0, Q0, D1, Q1. simpl. by rewrite !app_nil_r.
  - destruct Q0 as [|h0 r0], Q1 as [|h1 r1]; try done. injection Hh as <-.
    destruct (IH r0 r1 (S0 ++ [h0]) D0 (S1 ++ [h1]) D1 eq_refl (lossless_signal _ _ _ _ _ _ _ _ _ _ _ Hl)) as (D0' & Q0' & D1' & Q1' & E & Hl').
    exists D0', Q0', D1', Q1'. split; [done|]. by rewrite <- !app_assoc in Hl'.
  - destruct Q0 as [|h0 r0], Q1 as [|h1 r1]; try done. injection Hh as <-. destruct Ht as [(m & Hm & <-) Hmin].
    pose proof (Hmin h0 ltac:(by left)) as M0. pose proof (Hmin h1 ltac:(by right; left)) as M1.
    simpl in Hall, IH. assert (Hs : stamp m = stamp h0 \/ stamp m = stamp h1).
    { apply elem_of_cons in Hm as [->|Hm]; [by left|]. apply elem_of_cons in Hm as [->|Hm%elem_of_nil]; [by right|done]. }
    unfold fits in *. destruct (Z.leb_spec (stamp h0) (stamp m + epsilon)) as [F0|F0], (Z.leb_spec (stamp h1) (stamp m + epsilon)) as [F1|F1];
      simpl in Hall; try done; try lia.
    + apply (IH r0 (h1 :: r1) S0 (h0 :: D0) S1 D1 eq_refl). apply lossless_drop; [done|lia|done].
    + apply (IH (h0 :: r0) r1 S0 D0 S1 (h1 :: D1) eq_refl). apply lossless_sym, lossless_drop; [done|lia|by apply lossless_sym].
Qed.

(** Whatever arrives, every call ends without an exception; the sets that
    are signalled have a message of each topic, and their stamps differ by no
    more than [epsilon]; the messages of a topic are signalled in the order
    of their arrival, none twice, and no topic has more than [queue_size]
    messages waiting, one of them none. *)
Theorem ApproximateEpsilonTime_sets queue_size epsilon fuel arrivals :
  (2 <= n <= 9)%nat -> 0 <= epsilon -> arrivals_ok epsilon arrivals -> (length arrivals + 1 < fuel)%nat ->
  exists s, add_all fuel arrivals (ApproximateEpsilonTime_init queue_size epsilon) = (Ok tt, s) /\
    Forall (set_ok epsilon) (signals s) /\ [] ∈ events_ s /\
    forall i q, events_ s !! i = Some q -> (length q <= queue_size)%nat /\ sublist (of_topic i (signals s) ++ q) (arrived i arrivals).
Proof.
  intros Hn He Ha Hf. destruct (run_all Hn queue_size epsilon fuel arrivals He Ha Hf) as (s & E & Hr). exists s. split; [done|].
  destruct Hr. split; [done|]. split; [done|]. intros i q Hq. split; [by eapply run_bounded0|by apply run_order0].
Qed.

Lemma two_topics_run queue_size epsilon fuel arrivals :
  n = 2%nat -> 0 <= epsilon -> arrivals_ok epsilon arrivals -> (length arrivals + 1 < fuel)%nat -> (length arrivals <= queue_size)%nat ->
  (forall i, ascending stamp (arrived i arrivals)) ->
  exists s D0 Q0 D1 Q1, add_all fuel arrivals (ApproximateEpsilonTime_init queue_size epsilon) = (Ok tt, s) /\
    run_ok queue_size epsilon arrivals s /\ events_ s = [Q0; Q1] /\
    lossless epsilon (arrived 0 arrivals) (of_topic 0 (signals s)) D0 Q0 (arrived 1 arrivals) (of_topic 1 (signals s)) D1 Q1.
Proof.
  intros H2 He. assert (Hn : (2 <= n <= 9)%nat) by lia. induction arrivals as [|[i m] arrivals IH] using rev_ind; intros Ha Hf Hs Ho.
  - exists (ApproximateEpsilonTime_init queue_size epsilon), [], [], [], []. split; [done|]. split; [apply init_run; lia|].
    split; [simpl; by rewrite H2|]. split; try done; try (intros ? ?%elem_of_nil; done); try (intros ? ? ?%elem_of_nil; done); constructor.
  - rewrite length_app in *. simpl in *. destruct IH as (s & D0 & Q0 & D1 & Q1 & E & Hr & Eq & Hl).
    { by apply Forall_app in Ha as [? _]. } { lia. } { lia. }
    { intros j. specialize (Ho j). rewrite arrived_snoc in Ho. by apply ascending_app in Ho as (_ & ? & _). }
    destruct (add_run Hn queue_size epsilon fuel arrivals i m s He Ha ltac:(lia) Hr) as (s' & E' & Hr' & q & ev & out & Hq & Hpr & Hsig & Hev).
    assert (Hev' : events_ s' = ev).
    { destruct Hev as [?|Hlong]; [done|]. pose proof (run_order _ _ _ _ Hr i q Hq) as Hsub%sublist_length. rewrite length_app in Hsub.
      unfold arrived in Hsub. rewrite length_fmap in Hsub. pose proof (length_filter (fun a : nat * M => a.1 = i) arrivals). lia. }
    assert (Hi : i = 0%nat \/ i = 1%nat) by (apply lookup_lt_Some in Hq; rewrite Eq in Hq; simpl in Hq; lia).
    assert (Hm : forall a, a ∈ arrived i arrivals -> stamp a <= stamp m).
    { intros a Hin. specialize (Ho i). rewrite arrived_snoc, decide_True in Ho by done. apply ascending_app in Ho as (Ho & _). apply Ho; [done|by left]. }
    assert (Hnew : exists R0 R1, <[i := q ++ [m]]> (events_ s) = [R0; R1] /\
      lossless epsilon (arrived 0 (arrivals ++ [(i, m)])) (of_topic 0 (signals s)) D0 R0 (arrived 1 (arrivals ++ [(i, m)])) (of_topic 1 (signals s)) D1 R1).
    { rewrite !arrived_snoc. rewrite Eq in Hq |- *. destruct Hi as [-> | ->]; injection Hq as ->; simpl.
      - exists (q ++ [m]), Q1. split; [done|]. rewrite app_nil_r. by apply lossless_add.
      - exists Q0, (q ++ [m]). split; [done|]. rewrite app_nil_r. by apply lossless_sym, lossless_add, lossless_sym. }
    destruct Hnew as (R0 & R1 & ER & HR). rewrite ER in Hpr.
    destruct (processed_lossless _ _ _ _ _ _ _ _ _ _ _ He Hpr HR) as (D0' & Q0' & D1' & Q1' & EQ & HL).
    exists s', D0', Q0', D1', Q1'. split; [unfold add_all in *; by rewrite (for_each_snoc _ _ _ _ _ E)|]. split; [done|].
    split; [congruence|]. rewrite Hsig. unfold of_topic in *. by rewrite !omap_app.
Qed.

(** C6: Of two topics whose messages are in order, with room for them all, no
    message is lost that fits: one that was dropped without being signalled
    is more than [epsilon] away from every message of the other topic that
    was dropped or is waiting, and from those to come. *)
Theorem two_topics_lose_nothing queue_size epsilon fuel arrivals :
  n = 2%nat -> 0 <= epsilon -> arrivals_ok epsilon arrivals -> (length arrivals + 1 < fuel)%nat -> (length arrivals <= queue_size)%nat ->
  (forall i, ascending stamp (arrived i arrivals)) ->
  exists s D0 Q0 D1 Q1, add_all fuel arrivals (ApproximateEpsilonTime_init queue_size epsilon) = (Ok tt, s) /\ events_ s = [Q0; Q1] /\
    lossless epsilon (arrived 0 arrivals) (of_topic 0 (signals s)) D0 Q0 (arrived 1 arrivals) (of_topic 1 (signals s)) D1 Q1.
Proof.
  intros H2 He Ha Hf Hs Ho. destruct (two_topics_run queue_size epsilon fuel arrivals H2 He Ha Hf Hs Ho) as (s & D0 & Q0 & D1 & Q1 & E & _ & Eq & Hl).
  by exists s, D0, Q0, D1, Q1.
Qed.

(** A negative limit is not refused; with it, nothing is ever within it, not
    even the oldest message itself is erased, and the second message makes
    the loop run for ever. *)
Theorem negative_epsilon_never_ends queue_size epsilon fuel a b :
  n = 2%nat -> (1 <= queue_size)%nat -> is_int64 epsilon -> epsilon < 0 -> 0 <= stamp a < int64_max -> 0 <= stamp b < int64_max ->
  (add_all fuel [(0%nat, a); (1%nat, b)] (ApproximateEpsilonTime_init queue_size epsilon)).1 = Throw Unfinished.
Proof.
  intros H2 Hq Hi He Ha Hb. assert (Hn : (2 <= n <= 9)%nat) by lia. set (s := ApproximateEpsilonTime_init queue_size epsilon).
  assert (Es : s = holding [[]; []] s) by (unfold s, ApproximateEpsilonTime_init; by rewrite H2).
  assert (Ea : ApproximateEpsilonTime_add fuel 0 a s = (Ok tt, holding [[a]; []] s)).
  { rewrite Es at 1. unfold ApproximateEpsilonTime_add. pose proof (push_back_holding [] [] [[]] a s ltac:(simpl; lia)) as Hp. simpl in Hp.
    rewrite (bind_ok _ _ _ (holding [[a]; []] s) tt) by (unfold modify; by rewrite Hp). rewrite get_bind. cbv beta iota. simpl. rewrite H2. simpl.
    by destruct queue_size; [lia|]. }
  unfold add_all. cbn [for_each]. rewrite (bind_ok _ _ _ _ _ Ea). unfold ApproximateEpsilonTime_add.
  pose proof (push_back_holding [[a]] [] [] b s ltac:(simpl; lia)) as Hp. simpl in Hp.
  assert (Hproc : process fuel (holding [[a]; [b]] s) = (Throw Unfinished, holding [[a]; [b]] s)).
  { apply (process_negative Hn); [by rewrite H2|set_solver|done|done|]. by rewrite !Forall_cons, !Forall_nil. }
  erewrite bind_throw; [done|]. rewrite (bind_ok _ _ _ (holding [[a]; [b]] s) tt) by (unfold modify; by rewrite Hp). rewrite get_bind. cbv beta iota.
  change (number_of_non_empty_events_ (holding [[a]; [b]] s)) with 2. rewrite H2. exact Hproc.
Qed.
End EpsilonTime.

(** ** Witnesses *)

(** Two topics with messages at 0 and 30, and at 8, 12 and 25. *)
Definition some_arrivals : list (nat * Z) := [(0%nat, 0); (1%nat, 8); (1%nat, 12); (0%nat, 30); (1%nat, 25)].

Lemma some_arrivals_ok : arrivals_ok id 2 10 some_arrivals.
Proof. repeat (constructor; [by split; [simpl; lia|by split; vm_compute]|]). constructor. Qed.

Lemma ApproximateEpsilonTime_sets_witness :
  exists s, add_all id 2 9 some_arrivals (ApproximateEpsilonTime_init 2 5 10) = (Ok tt, s) /\ Forall (set_ok id 2 10) (signals s) /\
    signals s = [[0; 8]; [30; 25]].
Proof.
  destruct (ApproximateEpsilonTime_sets id 2 5 10 9 some_arrivals ltac:(lia) ltac:(lia) some_arrivals_ok ltac:(simpl; lia)) as (s & E & Hs & _).
  exists s. split_and!; [done..|]. vm_compute in E. by injection E as <-.
Defined.

Lemma two_topics_lose_nothing_witness :
  exists s D0 Q0 D1 Q1, add_all id 2 9 some_arrivals (ApproximateEpsilonTime_init 2 5 10) = (Ok tt, s) /\
    lossless id 10 [0; 30] (of_topic 0 (signals s)) D0 Q0 [8; 12; 25] (of_topic 1 (signals s)) D1 Q1.
Proof.
  destruct (two_topics_lose_nothing id 2 5 10 9 some_arrivals) as (s & D0 & Q0 & D1 & Q1 & E & _ & Hl);
    [done|lia|exact some_arrivals_ok|simpl; lia|simpl; lia| |by exists s, D0, Q0, D1, Q1].
  assert (H0 : ascending id [0; 30]) by (repeat (apply ascending_cons; split; [intros y; rewrite ?elem_of_cons, elem_of_nil; unfold id; lia|]); constructor).
  assert (H1 : ascending id [8; 12; 25]) by (repeat (apply ascending_cons; split; [intros y; rewrite ?elem_of_cons, elem_of_nil; unfold id; lia|]); constructor).
  intros [|[|i]]; [exact H0|exact H1|]. change (ascending id ([] : list Z)). constructor.
Defined.

Lemma negative_epsilon_never_ends_witness :
  (add_all id 2 1000 [(0%nat, 5); (1%nat, 5)] (ApproximateEpsilonTime_init 2 5 (-1))).1 = Throw Unfinished.
Proof. apply negative_epsilon_never_ends; unfold id, is_int64, int64_min, int64_max; lia. Defined.

(** With three topics messages that would fit later are dropped: those at 10,
    11 and 20. *)
Example three_topics_lose :
  signals (add_all id 3 9 [(0%nat, 0); (1%nat, 10); (2%nat, 11); (0%nat, 20)] (ApproximateEpsilonTime_init 3 5 10)).2 = [].
Proof. by vm_compute. Qed.
