(* ===== verification/LatestTime.v ===== *)
(** * message_filters LatestTime policy

    [message_filters/include/message_filters/sync_policies/latest_time.h]:
    whenever a message of the fastest topic arrives, it is signalled with the
    last message of each other topic.  As in the other policies only the [n]
    real topics are kept and the message types are one type [M]; an empty
    slot of [events_] is [None].  The reading of the clock is an argument;
    rates are doubles.

    The theorems: what is signalled and when, and when a rate is looked for
    that does not exist. *)

From Stdlib Require Import ZArith Lia Floats.
From stdpp Require Import base numbers list sets.
From S2P Require Import Prelude Computation RclTime.
#[local] Open Scope Z_scope.

Inductive latest_fault := FromTime (e : time_error) | OutOfRange | Unfinished.

(** ** Rates *)

Record Rate := mkRate {
  prev : Time;
  hz : float;
  error : float;
  rate_ema_alpha : float;
  error_ema_alpha : float;
  rate_step_change_margin_factor : float;
  do_hz_init : bool;
  do_error_init : bool;
}.

Definition RateConfig : Type := float * float * float.

Definition DEFAULT_CONFIG : RateConfig := (0.9, 0.3, 10.0)%float.

Definition new_rate (start : Time) (config : RateConfig) : Rate :=
  mkRate start 0 0 config.1.1 config.1.2 config.2 true true.

Definition set_hz (x : float) (r : Rate) : Rate :=
  mkRate (prev r) x (error r) (rate_ema_alpha r) (error_ema_alpha r) (rate_step_change_margin_factor r) (do_hz_init r) (do_error_init r).
Definition set_error (x : float) (r : Rate) : Rate :=
  mkRate (prev r) (hz r) x (rate_ema_alpha r) (error_ema_alpha r) (rate_step_change_margin_factor r) (do_hz_init r) (do_error_init r).
Definition set_inits (hz_init error_init : bool) (r : Rate) : Rate :=
  mkRate (prev r) (hz r) (error r) (rate_ema_alpha r) (error_ema_alpha r) (rate_step_change_margin_factor r) hz_init error_init.
Definition set_prev (t : Time) (r : Rate) : Rate :=
  mkRate t (hz r) (error r) (rate_ema_alpha r) (error_ema_alpha r) (rate_step_change_margin_factor r) (do_hz_init r) (do_error_init r).

(** [(now - prev).seconds()]. *)
Definition seconds_since (now prev : Time) : Result latest_fault float :=
  match Time_sub now prev with Ok d => Ok (seconds d) | Throw e => Throw (FromTime e) end.

Section ComputeHz.
Local Open Scope float_scope.

Definition smooth (period : float) (r : Rate) : Rate := set_hz (rate_ema_alpha r / period + (1 - rate_ema_alpha r) * hz r) r.

(** One pass of the loop of [compute_hz], with a period above zero; [true]:
    a step change was detected. *)
Definition compute_hz_pass (period : float) (r : Rate) : Rate * bool :=
  if do_hz_init r then (set_inits false (do_error_init r) (set_hz (1 / period) r), false)
  else if do_error_init r then (smooth period (set_inits false false (set_error (abs (hz r - 1 / period)) r)), false)
  else if rate_step_change_margin_factor r * error r <? abs (hz r - 1 / period) then (set_inits true true r, true)
  else (smooth period (set_error (error_ema_alpha r * abs (hz r - 1 / period) + (1 - error_ema_alpha r) * error r) r), false).

Fixpoint compute_hz_loop (fuel : nat) (period : float) (r : Rate) : option Rate :=
  match fuel with
  | O => None
  | S fuel => let '(r, step_change_detected) := compute_hz_pass period r in
              if step_change_detected then compute_hz_loop fuel period r else Some r
  end.

(** [Rate::compute_hz]: the rate afterwards, and whether it is valid. *)
Definition compute_hz (now : Time) (r : Rate) : Result latest_fault (Rate * bool) :=
  let! period := seconds_since now (prev r) in
  if period <=? 0 then Ok (r, false) else
  match compute_hz_loop 2 period r with
  | Some r => Ok (set_prev now r, true)
  | None => Throw Unfinished
  end.
End ComputeHz.

(** Where [std::stable_sort] puts an index: behind those with rates that are
    not below its own. *)
Fixpoint insert_index (v : list Rate) (i : nat) (idx : list nat) : list nat :=
  match idx with
  | [] => [i]
  | j :: idx' =>
    match v !! i, v !! j with
    | Some a, Some b => if (hz b <? hz a)%float then i :: idx else j :: insert_index v i idx'
    | _, _ => i :: idx
    end
  end.

Definition sort_indices (v : list Rate) : list nat := fold_left (fun idx i => insert_index v i idx) (seq 0 (length v)) [].

(** A topic in the loop of [find_pivot]: is it the pivot? *)
Definition may_be_pivot (now : Time) (r : Rate) : Result latest_fault bool :=
  let! period := seconds_since now (prev r) in
  if (period =? 0)%float then Ok (0 <? hz r)%float
  else if negb (do_error_init r) && (rate_step_change_margin_factor r * error r <? hz r - 1 / period)%float then Ok false
  else Ok (0 <? hz r)%float.

Fixpoint first_pivot (now : Time) (rates : list Rate) (idx : list nat) : Result latest_fault (option nat) :=
  match idx with
  | [] => Ok None
  | pivot :: idx =>
    match rates !! pivot with
    | Some r => let! found := may_be_pivot now r in if found : bool then Ok (Some pivot) else first_pivot now rates idx
    | None => Throw OutOfRange
    end
  end.

(** [None]: [NO_PIVOT]. *)
Definition find_pivot (now : Time) (rates : list Rate) : Result latest_fault (option nat) := first_pivot now rates (sort_indices rates).

(** ** The policy *)

Section LatestTime.
Context {M : Type} (n : nat).

Record LatestTime := mkLatestTime {
  events_ : list (option M);
  rates_ : list Rate;
  rate_configs_ : list RateConfig;
  signals : list (list (option M));
}.

Notation E := (ST LatestTime latest_fault).

Definition LatestTime_init : LatestTime := mkLatestTime (replicate n None) [] [] [].

Definition setRateConfigPerMessage (configs : list RateConfig) (s : LatestTime) : LatestTime :=
  mkLatestTime (events_ s) (rates_ s) configs (signals s).
Definition setRateConfig (config : RateConfig) (s : LatestTime) : LatestTime := setRateConfigPerMessage [config] s.

(** The copy assignment. *)
Definition copy_of (rhs s : LatestTime) : LatestTime := mkLatestTime (events_ rhs) (rates_ rhs) (rate_configs_ s) (signals s).

Definition set_event (i : nat) (evt : M) (s : LatestTime) : LatestTime :=
  mkLatestTime (<[i := Some evt]> (events_ s)) (rates_ s) (rate_configs_ s) (signals s).
Definition set_rates (rates : list Rate) (s : LatestTime) : LatestTime := mkLatestTime (events_ s) rates (rate_configs_ s) (signals s).

Definition received_msg (i : nat) (s : LatestTime) : bool := match events_ s !! i with Some (Some _) => true | _ => false end.

Definition is_full (s : LatestTime) : bool := forallb (fun o => bool_decide (is_Some o)) (events_ s).

Definition config_of (i : nat) (s : LatestTime) : RateConfig :=
  if bool_decide (length (rate_configs_ s) = n) then default DEFAULT_CONFIG (rate_configs_ s !! i)
  else match rate_configs_ s with [config] => config | _ => DEFAULT_CONFIG end.

Definition initialize_rate (now : Time) (i : nat) : E unit :=
  modify (fun s => set_rates (rates_ s ++ [new_rate now (config_of i s)]) s).

Definition publish : E unit := modify (fun s => mkLatestTime (events_ s) (rates_ s) (rate_configs_ s) (signals s ++ [events_ s])).

(** [rates_[i].compute_hz(now)]. *)
Definition update_rate (now : Time) (i : nat) : E bool :=
  s ← get;
  match rates_ s !! i with
  | Some r => '(r, valid) ← lift (compute_hz now r); modify (set_rates (<[i := r]> (rates_ s)));; mret valid
  | None => throw OutOfRange
  end.

(** [add<i>]. *)
Definition LatestTime_add (now : Time) (i : nat) (evt : M) : E unit :=
  s ← get;
  if negb (received_msg i s) then initialize_rate now i;; modify (set_event i evt)
  else
    modify (set_event i evt);;
    valid_rate ← update_rate now i;
    if valid_rate : bool then
      s ← get;
      pivot ← lift (find_pivot now (rates_ s));
      if bool_decide (pivot = Some i) && is_full s then publish else mret tt
    else mret tt.

(** ** What the policy does *)

Lemma compute_hz_pass_again period r r' : compute_hz_pass period r = (r', true) -> do_hz_init r' = true.
Proof. unfold compute_hz_pass. destruct (do_hz_init r), (do_error_init r); try done. destruct (_ <? _)%float; [|done]. by intros [= <-]. Qed.

(** Two passes are enough: the second one starts anew. *)
Lemma compute_hz_ends period r : is_Some (compute_hz_loop 2 period r).
Proof.
  cbn [compute_hz_loop]. destruct (compute_hz_pass period r) as [r1 b] eqn:E. destruct b; [|by eexists].
  unfold compute_hz_pass at 1. rewrite (compute_hz_pass_again _ _ _ E). by eexists.
Qed.

Lemma compute_hz_faults now r : compute_hz now r <> Throw OutOfRange /\ compute_hz now r <> Throw Unfinished.
Proof.
  unfold compute_hz, seconds_since. destruct (Time_sub now (prev r)) as [d|e]; cbn [rbind]; [|done].
  destruct (_ <=? 0)%float; [done|]. by destruct (compute_hz_ends (seconds d) r) as [r' ->].
Qed.

Lemma insert_index_perm v i idx : insert_index v i idx ≡ₚ i :: idx.
Proof.
  induction idx as [|j idx IH]; [done|]. simpl. destruct (v !! i), (v !! j); try done. destruct (_ <? _)%float; [done|].
  rewrite IH. by constructor.
Qed.

Lemma sort_indices_perm v : sort_indices v ≡ₚ seq 0 (length v).
Proof.
  unfold sort_indices. assert (H : forall l acc, fold_left (fun idx i => insert_index v i idx) l acc ≡ₚ l ++ acc).
  { induction l as [|i l IH]; intros acc; [done|]. simpl. rewrite IH, insert_index_perm. by rewrite <- Permutation_middle. }
  by rewrite H, app_nil_r.
Qed.

Lemma find_pivot_faults now v : find_pivot now v <> Throw OutOfRange /\ find_pivot now v <> Throw Unfinished.
Proof.
  unfold find_pivot. assert (Hall : Forall (fun i => i < length v)%nat (sort_indices v)).
  { rewrite sort_indices_perm. apply Forall_forall. intros i Hi%elem_of_seq. lia. }
  induction Hall as [|i idx Hi _ IH]; [done|]. simpl. destruct (lookup_lt_is_Some_2 v i Hi) as [r ->].
  unfold may_be_pivot, seconds_since. destruct (Time_sub now (prev r)) as [d|e]; [simpl|done].
  repeat (case_match; simpl; try done).
Qed.

Definition last_of (j : nat) (arrivals : list (nat * M)) : option M := last (snd <$> filter (fun a => a.1 = j) arrivals).

Lemma last_of_snoc j arrivals i m : last_of j (arrivals ++ [(i, m)]) = if decide (i = j) then Some m else last_of j arrivals.
Proof.
  unfold last_of. rewrite filter_app, fmap_app, filter_cons. simpl. destruct (decide (i = j)); simpl; [apply last_snoc|by rewrite app_nil_r].
Qed.

(** The topics that a message has come from. *)
Definition topics_seen (arrivals : list (nat * M)) : nat := length (filter (fun j => is_Some (last_of j arrivals)) (seq 0 n)).

(** What has arrived, whether or not it made the clock throw. *)
Inductive latest_run : list (nat * M) -> LatestTime -> Prop :=
| latest_start : latest_run [] LatestTime_init
| latest_configured configs arrivals s : latest_run arrivals s -> latest_run arrivals (setRateConfigPerMessage configs s)
| latest_added now i m arrivals s r s' :
    (i < n)%nat -> LatestTime_add now i m s = (r, s') -> r <> Throw OutOfRange ->
    latest_run arrivals s -> latest_run (arrivals ++ [(i, m)]) s'.

Record latest_ok (arrivals : list (nat * M)) (s : LatestTime) : Prop := {
  ok_events : events_ s = (fun j => last_of j arrivals) <$> seq 0 n;
  ok_rates : length (rates_ s) = topics_seen arrivals;
}.

Lemma received_spec arrivals s i : (i < n)%nat -> latest_ok arrivals s -> received_msg i s = bool_decide (is_Some (last_of i arrivals)).
Proof.
  intros Hi [He _]. unfold received_msg. rewrite He, list_lookup_fmap, lookup_seq_lt by done. simpl.
  by destruct (last_of i arrivals).
Qed.

Lemma set_event_spec arrivals i m s : (i < n)%nat -> events_ s = (fun j => last_of j arrivals) <$> seq 0 n ->
  events_ (set_event i m s) = (fun j => last_of j (arrivals ++ [(i, m)])) <$> seq 0 n.
Proof.
  intros Hi He. simpl. rewrite He. apply list_eq. intros j. rewrite list_lookup_fmap. destruct (decide (j < n)%nat) as [Hj|Hj].
  - rewrite lookup_seq_lt by done. simpl. rewrite last_of_snoc. destruct (decide (i = j)) as [->|Hne].
    + by rewrite list_lookup_insert_eq by (rewrite length_fmap, length_seq; lia).
    + rewrite list_lookup_insert_ne, list_lookup_fmap, lookup_seq_lt by done. done.
  - rewrite lookup_seq_ge by lia. simpl. apply lookup_ge_None. rewrite length_insert, length_fmap, length_seq. lia.
Qed.

Lemma filter_seq_ext (P Q : nat -> Prop) `{!forall j, Decision (P j), !forall j, Decision (Q j)} (l : list nat) :
  (forall j, j ∈ l -> P j <-> Q j) -> filter P l = filter Q l.
Proof.
  induction l as [|j l IH]; intros Hpq; [done|]. rewrite !filter_cons, IH by (intros k Hk; apply Hpq; by right).
  specialize (Hpq j ltac:(by left)). repeat case_decide; naive_solver.
Qed.

Lemma topics_seen_snoc arrivals i m : (i < n)%nat ->
  topics_seen (arrivals ++ [(i, m)]) = (topics_seen arrivals + if decide (is_Some (last_of i arrivals)) then 0 else 1)%nat.
Proof.
  intros Hi. unfold topics_seen. replace n with (i + S (n - i - 1))%nat by lia. rewrite seq_app. cbn [seq Nat.add].
  assert (Hother : forall l : list nat, i ∉ l -> filter (fun j => is_Some (last_of j (arrivals ++ [(i, m)]))) l = filter (fun j => is_Some (last_of j arrivals)) l).
  { intros l Hl. apply filter_seq_ext. intros j Hj. rewrite last_of_snoc. by destruct (decide (i = j)) as [->|]. }
  rewrite !filter_app, !filter_cons, !length_app, !Hother by (intros H%elem_of_seq; lia).
  rewrite (decide_True (P := is_Some (last_of i (arrivals ++ [(i, m)])))) by (rewrite last_of_snoc, decide_True by done; by eexists).
  destruct (decide _); simpl; lia.
Qed.

Lemma all_some (l : list (option M)) : forallb (fun o => bool_decide (is_Some o)) l = true -> exists set, l = Some <$> set.
Proof.
  induction l as [|o l IH]; simpl; [by exists []|]. intros [Ho Hl]%andb_prop. destruct (IH Hl) as [set ->].
  apply bool_decide_eq_true in Ho as [x ->]. by exists (x :: set).
Qed.

(** The fields that [update_rate] leaves alone. *)
Lemma update_rate_spec now i s :
  let '(r, s') := update_rate now i s in
  events_ s' = events_ s /\ signals s' = signals s /\ length (rates_ s') = length (rates_ s) /\ r <> Throw Unfinished /\
  (r = Throw OutOfRange <-> (length (rates_ s) <= i)%nat).
Proof.
  unfold update_rate. rewrite get_bind. cbv beta iota. destruct (rates_ s !! i) as [r|] eqn:Hr.
  - apply lookup_lt_Some in Hr. unfold mbind, ST_bind, lift. destruct (compute_hz_faults now r) as [F1 F2].
    destruct (compute_hz now r) as [[r' valid]|e]; simpl.
    + rewrite length_insert. split_and!; try done. split; [done|lia].
    + split_and!; try done; [congruence|]. split; [congruence|lia].
  - apply lookup_ge_None in Hr. by split_and!.
Qed.

Lemma add_outcome now i m arrivals s r s' :
  (i < n)%nat -> latest_ok arrivals s -> LatestTime_add now i m s = (r, s') ->
  (r = Throw OutOfRange <-> is_Some (last_of i arrivals) /\ (topics_seen arrivals <= i)%nat) /\ r <> Throw Unfinished /\
  latest_ok (arrivals ++ [(i, m)]) s' /\
  (signals s' = signals s \/ exists set, signals s' = signals s ++ [Some <$> set] /\ find_pivot now (rates_ s') = Ok (Some i) /\ length set = n /\
    forall j x, set !! j = Some x -> last_of j (arrivals ++ [(i, m)]) = Some x).
Proof.
  intros Hi Hok E. pose proof (received_spec arrivals s i Hi Hok) as Hrec. destruct Hok as [He Hr].
  pose proof (set_event_spec arrivals i m s Hi He) as Hset. pose proof (topics_seen_snoc arrivals i m Hi) as Hseen.
  unfold LatestTime_add in E. rewrite get_bind in E. cbv beta iota in E. rewrite Hrec in E. case_bool_decide as Hsome; cbn [negb] in E.
  2:{ injection E as <- <-. rewrite decide_False in Hseen by done. split_and!; [|done| |by left]; [split; [done|by intros [? _]]|].
      split; [exact Hset|]. simpl. rewrite length_app. simpl. lia. }
  rewrite decide_True in Hseen by done. rewrite (bind_ok _ _ s (set_event i m s) tt) in E by done.
  pose proof (update_rate_spec now i (set_event i m s)) as Hu. unfold mbind at 1, ST_bind at 1 in E.
  destruct (update_rate now i (set_event i m s)) as [r1 s1]. destruct Hu as (U1 & U2 & U3 & U4 & U5). simpl in U2, U3, U5. rewrite Hset in U1.
  assert (Hok1 : latest_ok (arrivals ++ [(i, m)]) s1) by (split; [done|rewrite U3; lia]).
  assert (Hfault : r1 = Throw OutOfRange <-> is_Some (last_of i arrivals) /\ (topics_seen arrivals <= i)%nat) by (rewrite U5, Hr; tauto).
  destruct r1 as [valid|e]; [|injection E as <- <-; split_and!; [|congruence|done|by left]; rewrite <- Hfault; split; congruence].
  assert (Hno : ~ (is_Some (last_of i arrivals) /\ (topics_seen arrivals <= i)%nat)) by (rewrite <- Hfault; done).
  destruct valid; [|injection E as <- <-; split_and!; [split; [done|by intros ?%Hno]|done|done|by left]].
  rewrite get_bind in E. cbv beta iota in E. unfold mbind, ST_bind, lift in E. destruct (find_pivot_faults now (rates_ s1)) as [P1 P2].
  destruct (find_pivot now (rates_ s1)) as [pivot|e] eqn:Ep; [|injection E as <- <-; split_and!; [split; [congruence|done]|congruence|done|by left]].
  case_bool_decide as Hp; [|injection E as <- <-; split_and!; [by split|done|done|by left]]. simpl in E.
  destruct (is_full s1) eqn:Hfull; injection E as <- <-; (split_and!; [by split|done|split; apply Hok1|]); [right|by left].
  destruct (all_some _ Hfull) as [set Es]. exists set. simpl. split_and!; [by rewrite U2, Es|congruence| |].
  - rewrite <- (length_fmap Some set), <- Es, U1, length_fmap, length_seq. done.
  - intros j x Hj. assert (Hl : events_ s1 !! j = Some (Some x)) by (rewrite Es, list_lookup_fmap, Hj; done). rewrite U1, list_lookup_fmap in Hl.
    destruct (seq 0 n !! j) as [k|] eqn:Hk; [|done]. apply lookup_seq in Hk as [-> _]. simpl in Hl. by injection Hl.
Qed.

Lemma latest_run_ok arrivals s : latest_run arrivals s -> latest_ok arrivals s.
Proof.
  induction 1 as [|configs arrivals s _ [H1 H2]|now i m arrivals s r s' Hi E _ _ IH]; [|done|by apply (add_outcome now i m arrivals s r s' Hi IH E)].
  split; simpl.
  - change (fun j => last_of j []) with (fun _ : nat => None : option M). apply list_eq. intros j. rewrite list_lookup_fmap.
    destruct (decide (j < n)%nat) as [Hj|Hj]; [by rewrite lookup_seq_lt, lookup_replicate_2|].
    rewrite lookup_seq_ge by lia. apply lookup_ge_None. rewrite length_replicate. lia.
  - unfold topics_seen. by rewrite filter_none by (apply Forall_forall; intros j _ [x [=]]).
Qed.

(** Whatever has arrived: a message makes the policy look for a rate that
    does not exist exactly if its topic has been seen before, and has a number
    that is not below how many topics have been seen - the rates are in the
    order in which the topics were first seen, and looked up by topic.
    Otherwise it is signalled, or not; if it is, then its topic is the pivot,
    with the last message of every topic, each of which has sent one. *)
Theorem LatestTime_add_spec arrivals s now i m r s' :
  latest_run arrivals s -> (i < n)%nat -> LatestTime_add now i m s = (r, s') ->
  (r = Throw OutOfRange <-> is_Some (last_of i arrivals) /\ (topics_seen arrivals <= i)%nat) /\ r <> Throw Unfinished /\
  (signals s' = signals s \/ exists set, signals s' = signals s ++ [Some <$> set] /\ find_pivot now (rates_ s') = Ok (Some i) /\ length set = n /\
    forall j x, set !! j = Some x -> last_of j (arrivals ++ [(i, m)]) = Some x).
Proof.
  intros Hr%latest_run_ok Hi E. destruct (add_outcome now i m arrivals s r s' Hi Hr E) as (H1 & H2 & _ & H4). done.
Qed.
End LatestTime.

(** ** Witnesses *)

Definition at_second (x : Z) : Time := mkTime (x * 1000000000) RCL_ROS_TIME.

(** Of two topics the second one comes first. *)
Definition second_first : LatestTime := (LatestTime_add 2 (at_second 1) 1 (7 : Z) (LatestTime_init 2)).2.

Lemma LatestTime_add_spec_witness :
  latest_run 2 [(1%nat, 7)] second_first /\ (LatestTime_add 2 (at_second 2) 1 8 second_first).1 = Throw OutOfRange.
Proof.
  assert (Hr : latest_run 2 [(1%nat, 7)] second_first).
  { change [(1%nat, 7)] with ([] ++ [(1%nat, 7)]). eapply (latest_added 2 (at_second 1) 1 7); [lia|by apply surjective_pairing|done|constructor]. }
  split; [done|]. destruct (LatestTime_add_spec 2 [(1%nat, 7)] second_first (at_second 2) 1 8 _ _ Hr ltac:(lia) (surjective_pairing _)) as [H _].
  apply H. split; [by eexists|]. by apply (bool_decide_eq_true_1 _); vm_compute.
Defined.

(** In order, the faster topic is the pivot and signals. *)
Example faster_signals :
  signals (for_each (fun '(t, i, m) => LatestTime_add 2 (at_second t) i m)
    [(1, 0%nat, 10); (1, 1%nat, 11); (3, 0%nat, 12); (4, 1%nat, 13); (5, 0%nat, 14); (5, 0%nat, 15); (7, 0%nat, 16)] (LatestTime_init 2)).2
  = [[Some 12; Some 11]; [Some 14; Some 13]; [Some 16; Some 13]].
Proof. vm_compute. reflexivity. Qed.
