(* ===== verification/RingBuffer.v ===== *)
(** * rclcpp ring buffer and intra-process buffer

    [rclcpp/include/rclcpp/experimental/buffers/ring_buffer_implementation.hpp]
    and [intra_process_buffer.hpp]: the queue of messages that a
    subscription keeps for publishers of the same process.  Indices are
    [size_t], 64 bits wide.  Each method locks the buffer, so it is one step.

    An element that has been moved from is what the parameter [moved] makes
    of it, and [default] is a value-initialised element; reading or writing
    [ring_buffer_] out of range is the error [OutOfRange]. *)

From Stdlib Require Import ZArith Lia.
From stdpp Require Import base numbers list gmap sets fin_maps.
From S2P Require Import Prelude.

Inductive ring_error := InvalidArgument | OutOfRange | NullPointer | Dangling.

(** ** RingBufferImplementation *)

Section RingBuffer.
Context {A : Type}.
Variable default : A.
Variable moved : A -> A.

Record RingBuffer := mkRingBuffer {
  capacity_ : Z;
  ring_buffer_ : list A;
  write_index_ : Z;
  read_index_ : Z;
  size_ : Z;
}.

Definition RingBuffer_init (capacity : Z) : Result ring_error RingBuffer :=
  let b := mkRingBuffer capacity (replicate (Z.to_nat capacity) default) (u64 (capacity - 1)) 0 0 in
  if capacity =? 0 then Throw InvalidArgument else Ok b.

Definition next_ (b : RingBuffer) (val : Z) : Z := u64 (val + 1) mod capacity_ b.

Definition has_data_ (b : RingBuffer) : bool := negb (size_ b =? 0).
Definition is_full_ (b : RingBuffer) : bool := size_ b =? capacity_ b.
Definition available_capacity_ (b : RingBuffer) : Z := u64 (capacity_ b - size_ b).

(** [ring_buffer_[i]]. *)
Definition slot (b : RingBuffer) (i : Z) : Result ring_error A :=
  match ring_buffer_ b !! Z.to_nat i with Some x => Ok x | None => Throw OutOfRange end.

Definition enqueue (b : RingBuffer) (request : A) : Result ring_error RingBuffer :=
  let write_index := next_ b (write_index_ b) in
  let! _ := slot b write_index in
  let ring_buffer := <[Z.to_nat write_index := request]> (ring_buffer_ b) in
  Ok (if is_full_ b
      then mkRingBuffer (capacity_ b) ring_buffer write_index (next_ b (read_index_ b)) (size_ b)
      else mkRingBuffer (capacity_ b) ring_buffer write_index (read_index_ b) (u64 (size_ b + 1))).

Definition dequeue (b : RingBuffer) : Result ring_error (A * RingBuffer) :=
  if negb (has_data_ b) then Ok (default, b)
  else
    let! request := slot b (read_index_ b) in
    let ring_buffer := <[Z.to_nat (read_index_ b) := moved request]> (ring_buffer_ b) in
    Ok (request, mkRingBuffer (capacity_ b) ring_buffer (write_index_ b) (next_ b (read_index_ b))
                   (u64 (size_ b - 1))).

(** The loop of [get_all_data_impl], for [count] elements from [id] on. *)
Fixpoint get_from (b : RingBuffer) (id : Z) (count : nat) : Result ring_error (list A) :=
  match count with
  | O => Ok []
  | S count =>
      let! x := slot b (u64 (read_index_ b + id) mod capacity_ b) in
      let! xs := get_from b (id + 1) count in
      Ok (x :: xs)
  end.

(** The copy of an element is the element; the version for [unique_ptr],
    which copies what the pointers point to, is in the next section. *)
Definition get_all_data (b : RingBuffer) : Result ring_error (list A) := get_from b 0 (Z.to_nat (size_ b)).

Definition clear (b : RingBuffer) : RingBuffer := b.

(** ** The contract: a bounded queue *)

Definition fifo_enqueue (capacity : Z) (q : list A) (x : A) : list A :=
  if Z.of_nat (length q) =? capacity then tail q ++ [x] else q ++ [x].

Definition fifo_dequeue (q : list A) : A * list A :=
  match q with [] => (default, []) | x :: q => (x, q) end.

(** ** Sequences of calls *)

Inductive Op := Enqueue (x : A) | Dequeue | GetAllData | HasData | IsFull | AvailableCapacity | Clear.
Inductive Answer := Done | Element (x : A) | Elements (l : list A) | Flag (b : bool) | Count (n : Z).

Definition ring_op (b : RingBuffer) (o : Op) : Result ring_error (RingBuffer * Answer) :=
  match o with
  | Enqueue x => let! b := enqueue b x in Ok (b, Done)
  | Dequeue => let! (x, b) := dequeue b in Ok (b, Element x)
  | GetAllData => let! l := get_all_data b in Ok (b, Elements l)
  | HasData => Ok (b, Flag (has_data_ b))
  | IsFull => Ok (b, Flag (is_full_ b))
  | AvailableCapacity => Ok (b, Count (available_capacity_ b))
  | Clear => Ok (clear b, Done)
  end.

Definition fifo_op (capacity : Z) (q : list A) (o : Op) : list A * Answer :=
  match o with
  | Enqueue x => (fifo_enqueue capacity q x, Done)
  | Dequeue => let '(x, q) := fifo_dequeue q in (q, Element x)
  | GetAllData => (q, Elements q)
  | HasData => (q, Flag (negb (bool_decide (q = []))))
  | IsFull => (q, Flag (Z.of_nat (length q) =? capacity))
  | AvailableCapacity => (q, Count (capacity - Z.of_nat (length q)))
  | Clear => (q, Done)
  end.

Fixpoint ring_run (b : RingBuffer) (os : list Op) : Result ring_error (RingBuffer * list Answer) :=
  match os with
  | [] => Ok (b, [])
  | o :: os =>
      let! (b, a) := ring_op b o in
      let! (b, r) := ring_run b os in
      Ok (b, a :: r)
  end.

Fixpoint fifo_run (capacity : Z) (q : list A) (os : list Op) : list A * list Answer :=
  match os with
  | [] => (q, [])
  | o :: os =>
      let '(q, a) := fifo_op capacity q o in
      let '(q, r) := fifo_run capacity q os in
      (q, a :: r)
  end.
End RingBuffer.

(** ** TypedIntraProcessBuffer

    Messages are objects of a heap.  A pointer, shared or unique, is the
    location of an object or null; what is moved from becomes null.  The
    life time of objects is not modelled: a location is never reused. *)

Inductive BufferType := SharedPtr | UniquePtr.

Definition Ptr : Type := option N.
Definition moved_ptr (p : Ptr) : Ptr := None.

Section IntraProcess.
Context {V : Type}.

Record IntraProcessBuffer := mkIntraProcessBuffer {
  buffer_type : BufferType;
  buffer_ : RingBuffer (A := Ptr);
  heap : gmap N V;
}.

Definition set_buffer (t : IntraProcessBuffer) (b : RingBuffer) : IntraProcessBuffer :=
  mkIntraProcessBuffer (buffer_type t) b (heap t).

(** [allocate] and [construct]. *)
Definition new_message (t : IntraProcessBuffer) (v : V) : IntraProcessBuffer * N :=
  let l := fresh (dom (heap t)) in
  (mkIntraProcessBuffer (buffer_type t) (buffer_ t) (<[l := v]> (heap t)), l).

Definition deref (t : IntraProcessBuffer) (p : Ptr) : Result ring_error V :=
  match p with
  | None => Throw NullPointer
  | Some l => match heap t !! l with Some v => Ok v | None => Throw Dangling end
  end.

Definition copy_message (t : IntraProcessBuffer) (p : Ptr) : Result ring_error (IntraProcessBuffer * Ptr) :=
  let! v := deref t p in
  let '(t, l) := new_message t v in
  Ok (t, Some l).

Fixpoint copy_messages (t : IntraProcessBuffer) (ps : list Ptr)
  : Result ring_error (IntraProcessBuffer * list Ptr) :=
  match ps with
  | [] => Ok (t, [])
  | p :: ps =>
      let! (t, p) := copy_message t p in
      let! (t, ps) := copy_messages t ps in
      Ok (t, p :: ps)
  end.

Definition add_unique (t : IntraProcessBuffer) (msg : Ptr) : Result ring_error IntraProcessBuffer :=
  let! b := enqueue (buffer_ t) msg in Ok (set_buffer t b).

Definition add_shared (t : IntraProcessBuffer) (msg : Ptr) : Result ring_error IntraProcessBuffer :=
  match buffer_type t with
  | SharedPtr => let! b := enqueue (buffer_ t) msg in Ok (set_buffer t b)
  | UniquePtr =>
      let! (t, unique_msg) := copy_message t msg in
      let! b := enqueue (buffer_ t) unique_msg in
      Ok (set_buffer t b)
  end.

Definition consume_shared (t : IntraProcessBuffer) : Result ring_error (IntraProcessBuffer * Ptr) :=
  let! (p, b) := dequeue None moved_ptr (buffer_ t) in Ok (set_buffer t b, p).

Definition consume_unique (t : IntraProcessBuffer) : Result ring_error (IntraProcessBuffer * Ptr) :=
  let! (p, b) := dequeue None moved_ptr (buffer_ t) in
  match buffer_type t with
  | SharedPtr => copy_message (set_buffer t b) p
  | UniquePtr => Ok (set_buffer t b, p)
  end.

Definition get_all_data_shared (t : IntraProcessBuffer) : Result ring_error (IntraProcessBuffer * list Ptr) :=
  let! ps := get_all_data (buffer_ t) in
  match buffer_type t with
  | SharedPtr => Ok (t, ps)
  | UniquePtr => copy_messages t ps
  end.

Definition get_all_data_unique (t : IntraProcessBuffer) : Result ring_error (IntraProcessBuffer * list Ptr) :=
  let! ps := get_all_data (buffer_ t) in copy_messages t ps.

Definition use_take_shared_method (t : IntraProcessBuffer) : bool :=
  match buffer_type t with SharedPtr => true | UniquePtr => false end.

(** [create_intra_process_buffer]. *)
Definition create_intra_process_buffer (t : BufferType) (depth : Z) : Result ring_error IntraProcessBuffer :=
  let! b := RingBuffer_init None depth in Ok (mkIntraProcessBuffer t b ∅).

(** ** Publishers and subscriptions of the process

    The clients of a buffer publish new messages, take messages, and write
    to the messages they own, which are those they got as unique pointers. *)

Inductive Action :=
| AddUnique (v : V)
| AddShared (v : V)
| ConsumeShared
| ConsumeUnique
| GetAllShared
| GetAllUnique
| WriteOwned (l : N) (v : V).

Definition locations (ps : list Ptr) : gset N := list_to_set (omap id ps).

(** The contents of the messages behind the pointers. *)
Fixpoint read_all (t : IntraProcessBuffer) (ps : list Ptr) : Result ring_error (list V) :=
  match ps with
  | [] => Ok []
  | p :: ps => let! v := deref t p in let! vs := read_all t ps in Ok (v :: vs)
  end.

(** A null pointer tells the subscription that there is nothing to take. *)
Definition taken (p : Ptr) : list Ptr := match p with None => [] | _ => [p] end.

(** An action, with the contents of the messages it gets. *)
Definition act (t : IntraProcessBuffer) (owned : gset N) (a : Action)
  : Result ring_error (IntraProcessBuffer * gset N * list V) :=
  match a with
  | AddUnique v => let '(t, l) := new_message t v in
                   let! t := add_unique t (Some l) in Ok (t, owned, [])
  | AddShared v => let '(t, l) := new_message t v in
                   let! t := add_shared t (Some l) in Ok (t, owned, [])
  | ConsumeShared => let! (t, p) := consume_shared t in
                     let! vs := read_all t (taken p) in Ok (t, owned, vs)
  | ConsumeUnique => let! (t, p) := consume_unique t in
                     let! vs := read_all t (taken p) in Ok (t, owned ∪ locations [p], vs)
  | GetAllShared => let! (t, ps) := get_all_data_shared t in
                    let! vs := read_all t ps in Ok (t, owned, vs)
  | GetAllUnique => let! (t, ps) := get_all_data_unique t in
                    let! vs := read_all t ps in Ok (t, owned ∪ locations ps, vs)
  | WriteOwned l v =>
      if decide (l ∈ owned)
      then Ok (mkIntraProcessBuffer (buffer_type t) (buffer_ t) (<[l := v]> (heap t)), owned, [])
      else Ok (t, owned, [])
  end.

Fixpoint act_all (t : IntraProcessBuffer) (owned : gset N) (actions : list Action)
  : Result ring_error (list (list V)) :=
  match actions with
  | [] => Ok []
  | a :: actions =>
      let! (t, owned, vs) := act t owned a in
      let! r := act_all t owned actions in
      Ok (vs :: r)
  end.

(** The same on a queue of contents: values, that no one can write to. *)
Definition value_act (type : BufferType) (capacity : Z) (q : list V) (a : Action)
  : Result ring_error (list V * list V) :=
  match a with
  | AddUnique v | AddShared v => Ok (fifo_enqueue capacity q v, [])
  | ConsumeShared => Ok (tail q, take 1 q)
  | ConsumeUnique =>
      match q, type with
      | [], SharedPtr => Throw NullPointer
      | _, _ => Ok (tail q, take 1 q)
      end
  | GetAllShared | GetAllUnique => Ok (q, q)
  | WriteOwned _ _ => Ok (q, [])
  end.

Fixpoint value_act_all (type : BufferType) (capacity : Z) (q : list V) (actions : list Action)
  : Result ring_error (list (list V)) :=
  match actions with
  | [] => Ok []
  | a :: actions =>
      let! (q, vs) := value_act type capacity q a in
      let! r := value_act_all type capacity q actions in
      Ok (vs :: r)
  end.
End IntraProcess.

(** ** The buffer implements the queue *)

Lemma mod_distinct c a b : 0 < c -> a <> b -> Z.abs (a - b) < c -> a mod c <> b mod c.
Proof.
  intros Hc Hne Hab E. pose proof (Z.div_mod a c). pose proof (Z.div_mod b c).
  assert (a - b = c * (a / c - b / c)) by lia.
  assert (a / c - b / c = 0) by nia. nia.
Qed.

Lemma mod_step c a s : ((a + 1) mod c + s - 1) mod c = (a + s) mod c.
Proof. rewrite <- Z.add_sub_assoc, Zplus_mod_idemp_l. f_equal. lia. Qed.

Section Refinement.
Context {A : Type}.
Variable default : A.
Variable moved : A -> A.
Variable capacity : Z.
Hypothesis capacity_range : 0 < capacity < 2 ^ 63.

(** The position of the [k]-th element. *)
Definition position (read : Z) (k : nat) : nat := Z.to_nat ((read + Z.of_nat k) mod capacity).

Record represents (b : RingBuffer) (q : list A) : Prop := {
  rep_capacity : capacity_ b = capacity;
  rep_storage : length (ring_buffer_ b) = Z.to_nat capacity;
  rep_read : 0 <= read_index_ b < capacity;
  rep_size : size_ b = Z.of_nat (length q);
  rep_fits : Z.of_nat (length q) <= capacity;
  rep_write : write_index_ b = (read_index_ b + size_ b - 1) mod capacity;
  rep_elements : forall k x, q !! k = Some x -> ring_buffer_ b !! position (read_index_ b) k = Some x;
}.

Lemma position_lt read k : (position read k < Z.to_nat capacity)%nat.
Proof. unfold position. pose proof (Z.mod_pos_bound (read + Z.of_nat k) capacity). lia. Qed.

Lemma position_distinct read j k :
  (j <> k)%nat -> Z.of_nat j < capacity -> Z.of_nat k < capacity -> position read j <> position read k.
Proof.
  intros Hne Hj Hk E. apply (mod_distinct capacity (read + Z.of_nat j) (read + Z.of_nat k)); [lia..|].
  unfold position in E. pose proof (Z.mod_pos_bound (read + Z.of_nat j) capacity).
  pose proof (Z.mod_pos_bound (read + Z.of_nat k) capacity). lia.
Qed.

Lemma position_next read k : position ((read + 1) mod capacity) k = position read (S k).
Proof.
  unfold position. rewrite Zplus_mod_idemp_l. do 2 f_equal. lia.
Qed.

Lemma next_spec (b : RingBuffer (A := A)) v : capacity_ b = capacity -> 0 <= v < capacity -> next_ b v = (v + 1) mod capacity.
Proof. intros E Hv. unfold next_. rewrite E, wrap_u_id; [done|]. unfold in_u. lia. Qed.

Lemma next_write b q :
  represents b q -> next_ b (write_index_ b) = (read_index_ b + Z.of_nat (length q)) mod capacity.
Proof.
  intros [Ec _ _ Es _ Ew _]. rewrite next_spec; [|done|].
  - rewrite Ew, Es, Zplus_mod_idemp_l. f_equal. lia.
  - rewrite Ew. apply Z.mod_pos_bound. lia.
Qed.

Lemma slot_ok b q k : represents b q -> exists x, slot b ((read_index_ b + Z.of_nat k) mod capacity) = Ok x.
Proof.
  intros [_ El _ _ _ _ _]. unfold slot.
  destruct (lookup_lt_is_Some_2 (ring_buffer_ b) (position (read_index_ b) k)) as [x Hx].
  { rewrite El. apply position_lt. }
  unfold position in Hx. rewrite Hx. eauto.
Qed.

Lemma slot_at b q k x :
  represents b q -> q !! k = Some x -> slot b ((read_index_ b + Z.of_nat k) mod capacity) = Ok x.
Proof. intros Hr Hx. unfold slot. pose proof (rep_elements _ _ Hr _ _ Hx) as H. unfold position in H. by rewrite H. Qed.

Lemma init_represents :
  exists b, RingBuffer_init default capacity = Ok b /\ represents b [].
Proof.
  unfold RingBuffer_init. destruct (Z.eqb_spec capacity 0); [lia|]. eexists. split; [done|].
  split; simpl; try done; [apply length_replicate|lia|lia|].
  rewrite wrap_u_id by (unfold in_u; lia). rewrite <- (Z_mod_plus_full (0 + 0 - 1) 1), Z.mod_small; lia.
Qed.

Lemma enqueue_refines b q x :
  represents b q -> exists b', enqueue b x = Ok b' /\ represents b' (fifo_enqueue capacity q x).
Proof.
  intros Hr. pose proof Hr as [Ec El Erd Es Ef Ew Ee]. unfold enqueue. rewrite (next_write b q Hr).
  destruct (slot_ok b q (length q) Hr) as [y ->]. simpl. eexists. split; [done|].
  change (Z.to_nat ((read_index_ b + Z.of_nat (length q)) mod capacity)) with (position (read_index_ b) (length q)).
  unfold is_full_, fifo_enqueue. rewrite Ec, Es.
  destruct (Z.eqb_spec (Z.of_nat (length q)) capacity) as [Efull|Hnf].
  - destruct q as [|z q]; [simpl in *; lia|]. simpl length in *.
    assert (Ep : position (read_index_ b) (S (length q)) = position (read_index_ b) 0).
    { unfold position. rewrite Efull, <- (Z_mod_plus_full (read_index_ b + Z.of_nat 0) 1). do 2 f_equal. lia. }
    split; simpl; rewrite ?length_app, ?length_insert; simpl; try lia; try done.
    + rewrite next_spec by done. apply Z.mod_pos_bound. lia.
    + rewrite next_spec, mod_step by done. done.
    + intros k w Hk. rewrite next_spec, position_next by done.
      apply lookup_app_Some in Hk as [Hk|[Hge Hk]].
      * rewrite list_lookup_insert_ne.
        { by apply (Ee (S k)). }
        rewrite Ep. apply lookup_lt_Some in Hk. apply position_distinct; lia.
      * apply list_lookup_singleton_Some in Hk as [Hk <-]. replace k with (length q) by lia.
        apply list_lookup_insert_eq. rewrite El. apply position_lt.
  - split; simpl; rewrite ?length_app, ?length_insert; simpl; try lia; try done.
    + rewrite wrap_u_id by (unfold in_u; lia). lia.
    + rewrite wrap_u_id by (unfold in_u; lia). f_equal. lia.
    + intros k w Hk. apply lookup_app_Some in Hk as [Hk|[Hge Hk]].
      * rewrite list_lookup_insert_ne; [by apply Ee|]. apply lookup_lt_Some in Hk. apply position_distinct; lia.
      * apply list_lookup_singleton_Some in Hk as [Hk <-]. replace k with (length q) by lia.
        apply list_lookup_insert_eq. rewrite El. apply position_lt.
Qed.

Lemma dequeue_refines b q :
  represents b q ->
  exists b', dequeue default moved b = Ok ((fifo_dequeue default q).1, b') /\
             represents b' (fifo_dequeue default q).2.
Proof.
  intros Hr. pose proof Hr as [Ec El Erd Es Ef Ew Ee]. unfold dequeue, has_data_. rewrite Es.
  destruct q as [|x q]; simpl.
  { exists b. by split. }
  assert (Hx : slot b (read_index_ b) = Ok x).
  { rewrite <- (slot_at b (x :: q) 0 x Hr) by done. f_equal. rewrite Z.mod_small; lia. }
  rewrite Hx. simpl. eexists. split; [done|]. simpl length in *.
  assert (Ep : Z.to_nat (read_index_ b) = position (read_index_ b) 0).
  { unfold position. rewrite Z.mod_small; [f_equal|]; lia. }
  split; simpl; rewrite ?length_insert; simpl; try lia; try done.
  - rewrite next_spec by done. apply Z.mod_pos_bound. lia.
  - rewrite wrap_u_id by (unfold in_u; lia). lia.
  - rewrite Ew, Es, next_spec, wrap_u_id by (done || (unfold in_u; lia)).
    rewrite mod_step. f_equal. lia.
  - intros k w Hk. rewrite next_spec, position_next, Ep by done. rewrite list_lookup_insert_ne.
    + by apply (Ee (S k)).
    + apply lookup_lt_Some in Hk. apply position_distinct; lia.
Qed.

Lemma get_from_spec b q : represents b q ->
  forall n k, (k + n = length q)%nat -> get_from b (Z.of_nat k) n = Ok (drop k q).
Proof.
  intros Hr n. induction n as [|n IH]; intros k Hk; simpl.
  { by rewrite drop_ge by lia. }
  destruct (lookup_lt_is_Some_2 q k) as [x Hx]; [lia|].
  rewrite wrap_u_id, (rep_capacity _ _ Hr).
  - rewrite (slot_at b q k x Hr Hx). simpl.
    replace (Z.of_nat k + 1) with (Z.of_nat (S k)) by lia. rewrite IH by lia. simpl. by rewrite (drop_S _ _ _ Hx).
  - destruct Hr as [_ _ ? _ ? _ _]. unfold in_u. lia.
Qed.

Lemma get_all_data_refines b q : represents b q -> get_all_data b = Ok q.
Proof.
  intros Hr. unfold get_all_data. rewrite (rep_size _ _ Hr), Nat2Z.id. by apply (get_from_spec b q Hr _ 0).
Qed.

Lemma ring_op_refines b q o :
  represents b q ->
  exists b', ring_op default moved b o = Ok (b', (fifo_op default capacity q o).2) /\
             represents b' (fifo_op default capacity q o).1.
Proof.
  intros Hr. pose proof Hr as [Ec _ _ Es Ef _ _]. destruct o as [x| | | | | |]; simpl.
  - destruct (enqueue_refines b q x Hr) as (b' & -> & Hr'). simpl. eauto.
  - destruct (dequeue_refines b q Hr) as (b' & -> & Hr'). simpl. destruct (fifo_dequeue default q). eauto.
  - rewrite (get_all_data_refines b q Hr). simpl. eauto.
  - exists b. split; [|done]. unfold has_data_. rewrite Es. by destruct q.
  - exists b. split; [|done]. unfold is_full_. by rewrite Es, Ec.
  - exists b. split; [|done]. unfold available_capacity_. rewrite Es, Ec, wrap_u_id; [done|]. unfold in_u. lia.
  - eauto.
Qed.

(** the ring buffer is a bounded queue.  Whatever sequence of calls is
    made on a new buffer of a positive capacity, also across the wrap-around
    of its indices and when it is full, no access is out of range and every
    answer is that of a first-in first-out queue which drops its oldest
    element to make room. *)
Theorem RingBuffer_refines_fifo os :
  exists b b', RingBuffer_init default capacity = Ok b /\
    ring_run default moved b os = Ok (b', (fifo_run default capacity [] os).2) /\
    represents b' (fifo_run default capacity [] os).1.
Proof.
  destruct init_represents as (b & Hb & Hr). exists b.
  enough (H : exists b', ring_run default moved b os = Ok (b', (fifo_run default capacity [] os).2) /\
                         represents b' (fifo_run default capacity [] os).1) by (destruct H; eauto).
  clear Hb. revert b Hr. generalize (@nil A) as q. induction os as [|o os IH]; intros q b Hr; simpl; [eauto|].
  destruct (ring_op_refines b q o Hr) as (b1 & -> & Hr1). simpl.
  destruct (fifo_op default capacity q o) as [q1 a]. destruct (IH q1 b1 Hr1) as (b2 & -> & Hr2). simpl.
  destruct (fifo_run default capacity q1 os). eauto.
Qed.
End Refinement.

(** ** Isolation of the clients *)

Section Isolation.
Context {V : Type}.
Variable capacity : Z.
Hypothesis capacity_range : 0 < capacity < 2 ^ 63.
Implicit Types (t : IntraProcessBuffer (V := V)) (ps : list Ptr) (q : list V) (h : gmap N V).

(** The pointers [ps] lead to the contents [q]. *)
Definition stored (h : gmap N V) (ps : list Ptr) (q : list V) : Prop :=
  Forall2 (fun (p : Ptr) v => exists l, p = Some l /\ h !! l = Some v) ps q.

(** The buffer holds the pointers [ps] to the contents [q], each once, and
    no client owns one of these messages. *)
Record isolated t (owned : gset N) ps q : Prop := {
  isolated_ring : represents capacity (buffer_ t) ps;
  isolated_stored : stored (heap t) ps q;
  isolated_once : NoDup ps;
  isolated_private : forall l, l ∈ owned -> Some l ∉ ps;
  isolated_owned : owned ⊆ dom (heap t);
}.

Lemma elem_of_locations l ps : l ∈ locations ps <-> Some l ∈ ps.
Proof.
  unfold locations. rewrite elem_of_list_to_set, list_elem_of_omap. split; [|by exists (Some l)].
  intros (p & Hp & Hl). unfold id in Hl. by subst.
Qed.

Lemma stored_weaken h h' ps q : h ⊆ h' -> stored h ps q -> stored h' ps q.
Proof.
  intros Hsub Hs. eapply Forall2_impl; [exact Hs|]. intros p v (l & -> & Hl). exists l. split; [done|].
  by eapply lookup_weaken.
Qed.

Lemma stored_elem h ps q l : stored h ps q -> Some l ∈ ps -> l ∈ dom h.
Proof.
  intros Hs (i & Hi)%list_elem_of_lookup. destruct (Forall2_lookup_l _ _ _ _ _ Hs Hi) as (v & _ & l' & [= <-] & Hl).
  by apply elem_of_dom_2 in Hl.
Qed.

Lemma stored_read t ps q : stored (heap t) ps q -> read_all t ps = Ok q.
Proof.
  intros Hs. induction Hs as [|p v ps q (l & -> & Hl) _ IH]; simpl; [done|]. by rewrite Hl, IH.
Qed.

Lemma stored_write h ps q l v : Some l ∉ ps -> stored h ps q -> stored (<[l:=v]> h) ps q.
Proof.
  intros Hl Hs. induction Hs as [|p w ps q (l' & -> & Hl') _ IH]; [constructor|].
  apply not_elem_of_cons in Hl as [Hne Hl]. constructor; [|by apply IH].
  exists l'. split; [done|]. rewrite lookup_insert_ne; [done|congruence].
Qed.

Lemma new_message_spec t v t' l :
  new_message t v = (t', l) ->
  l ∉ dom (heap t) /\ buffer_ t' = buffer_ t /\ buffer_type t' = buffer_type t /\
  heap t' = <[l:=v]> (heap t) /\ heap t ⊆ heap t'.
Proof.
  unfold new_message. intros [= <- <-]. pose proof (is_fresh (dom (heap t))) as Hf. split_and!; [done..|].
  simpl. apply insert_subseteq. by apply not_elem_of_dom.
Qed.

Lemma copy_messages_spec ps q t :
  stored (heap t) ps q ->
  exists t' ls, copy_messages t ps = Ok (t', ls) /\ buffer_ t' = buffer_ t /\ buffer_type t' = buffer_type t /\
    heap t ⊆ heap t' /\ stored (heap t') ls q /\ forall l, Some l ∈ ls -> l ∉ dom (heap t).
Proof.
  revert t q. induction ps as [|p ps IH]; intros t q Hs; inversion Hs as [|? v ? q' (l & -> & Hl) Hs']; subst.
  { exists t, []. split_and!; try done. intros l H. by apply elem_of_nil in H. }
  cbn [copy_messages]. unfold copy_message at 1. cbn [deref]. rewrite Hl. cbn [rbind].
  destruct (new_message t v) as [t1 l1] eqn:E1. destruct (new_message_spec _ _ _ _ E1) as (Hf & Eb & Et & Eh1 & Hsub).
  cbn [rbind]. destruct (IH t1 q') as (t2 & ls & E2 & Eb2 & Et2 & Hsub2 & Hs2 & Hf2); [by eapply stored_weaken|].
  rewrite E2. cbn [rbind]. exists t2, (Some l1 :: ls). split_and!; [done|congruence..|by etrans| |].
  - constructor; [|done]. exists l1. split; [done|]. eapply lookup_weaken; [|done]. by rewrite Eh1, lookup_insert_eq.
  - intros l' [[= ->]|Hl']%elem_of_cons; [done|]. apply Hf2 in Hl'. intros Hin. apply Hl'.
    rewrite Eh1, dom_insert. set_solver.
Qed.

(** Queueing a pointer to a message that is in neither place. *)
Lemma enqueue_isolated t owned ps q l v :
  isolated t owned ps q -> heap t !! l = Some v -> l ∉ owned -> Some l ∉ ps ->
  exists b ps', enqueue (buffer_ t) (Some l) = Ok b /\ isolated (set_buffer t b) owned ps' (fifo_enqueue capacity q v).
Proof.
  intros [Hr Hs Hnd Ho Hd] Hl Hlo Hlp.
  destruct (enqueue_refines capacity capacity_range _ _ (Some l) Hr) as (b & Hb & Hr').
  exists b, (fifo_enqueue capacity ps (Some l)). split; [done|].
  assert (Hall : forall ps' q', stored (heap t) ps' q' -> NoDup ps' -> Some l ∉ ps' ->
    (forall k, k ∈ owned -> Some k ∉ ps') ->
    stored (heap t) (ps' ++ [Some l]) (q' ++ [v]) /\ NoDup (ps' ++ [Some l]) /\
    (forall k, k ∈ owned -> Some k ∉ ps' ++ [Some l])).
  { intros ps' q' Hs' Hnd' Hl' Ho'. split_and!.
    - apply Forall2_app; [done|]. constructor; [|constructor]. eauto.
    - apply NoDup_app. split_and!; [done|set_solver|apply NoDup_singleton].
    - intros k Hk [H|H]%elem_of_app; [by eapply Ho'|]. apply list_elem_of_singleton in H. congruence. }
  enough (Hgoal : stored (heap t) (fifo_enqueue capacity ps (Some l)) (fifo_enqueue capacity q v) /\
    NoDup (fifo_enqueue capacity ps (Some l)) /\
    (forall k, k ∈ owned -> Some k ∉ fifo_enqueue capacity ps (Some l))) by (destruct Hgoal as (? & ? & ?); by split).
  unfold fifo_enqueue. rewrite (Forall2_length _ _ _ Hs). destruct (_ =? _); [|by apply Hall].
  destruct Hs as [|p w ps q Hp Hs]; [apply (Hall [] []); [constructor|done..]|]. cbn [tail].
  apply NoDup_cons in Hnd as [_ Hnd]. apply Hall; [done..|set_solver|]. intros k Hk. specialize (Ho k Hk). set_solver.
Qed.

Lemma new_message_isolated t owned ps q v t' l :
  isolated t owned ps q -> new_message t v = (t', l) ->
  isolated t' owned ps q /\ heap t' !! l = Some v /\ l ∉ owned /\ Some l ∉ ps.
Proof.
  intros [Hr Hs Hnd Ho Hd] E. destruct (new_message_spec _ _ _ _ E) as (Hf & Eb & Et & Eh & Hsub). split_and!.
  - split; [by rewrite Eb|by eapply stored_weaken|done..|]. rewrite Eh, dom_insert. set_solver.
  - by rewrite Eh, lookup_insert_eq.
  - set_solver.
  - intros Hin. by apply (stored_elem _ _ _ _ Hs) in Hin.
Qed.

(** Copies may be given away. *)
Lemma copies_isolated t owned ps q rs vs :
  isolated t owned ps q -> stored (heap t) rs vs ->
  exists t' ls, copy_messages t rs = Ok (t', ls) /\ buffer_type t' = buffer_type t /\
    read_all t' ls = Ok vs /\ isolated t' (owned ∪ locations ls) ps q /\ isolated t' owned ps q.
Proof.
  intros [Hr Hs Hnd Ho Hd] Hrs.
  destruct (copy_messages_spec rs vs t Hrs) as (t' & ls & E & Eb & Et & Hsub & Hs' & Hf).
  exists t', ls. split_and!; [done..|by apply stored_read| |].
  - split; [by rewrite Eb|by eapply stored_weaken|done| |].
    + intros l [Hl|Hl%elem_of_locations]%elem_of_union; [by apply Ho|]. intros Hin.
      apply Hf in Hl. by apply (stored_elem _ _ _ _ Hs) in Hin.
    + apply union_subseteq. split.
      * etrans; [exact Hd|]. by apply subseteq_dom.
      * intros l Hl%elem_of_locations. by apply (stored_elem _ _ _ _ Hs') in Hl.
  - split; [by rewrite Eb|by eapply stored_weaken|done..|]. etrans; [exact Hd|]. by apply subseteq_dom.
Qed.

(** The oldest pointer, and the rest. *)
Lemma dequeue_isolated t owned ps q :
  isolated t owned ps q ->
  exists b, dequeue None moved_ptr (buffer_ t) = Ok (default None (head ps), b) /\
    isolated (set_buffer t b) owned (tail ps) (tail q) /\
    stored (heap t) (taken (default None (head ps))) (take 1 q) /\
    isolated (set_buffer t b) (owned ∪ locations [default None (head ps)]) (tail ps) (tail q).
Proof.
  intros [Hr Hs Hnd Ho Hd].
  destruct (dequeue_refines None moved_ptr capacity capacity_range _ _ Hr) as (b & Hb & Hr').
  exists b. destruct Hs as [|p v ps q (l & -> & Hl) Hs]; simpl in *.
  - split_and!; [done| |by apply Forall2_nil|].
    + by split; [|apply Forall2_nil|..].
    + split; simpl; [done|by apply Forall2_nil|done|..]; set_solver.
  - apply NoDup_cons in Hnd as [Hnl Hnd]. split_and!; [done| | |].
    + split; simpl; try done. set_solver.
    + constructor; [by exists l|constructor].
    + split; simpl; try done.
      * intros k Hk. destruct (decide (k = l)) as [->|Hne]; [done|]. specialize (Ho k). set_solver.
      * apply elem_of_dom_2 in Hl. set_solver.
Qed.
Lemma add_unique_isolated t owned ps q v t1 l :
  isolated t owned ps q -> new_message t v = (t1, l) ->
  exists t' ps', add_unique t1 (Some l) = Ok t' /\ buffer_type t' = buffer_type t /\
    isolated t' owned ps' (fifo_enqueue capacity q v).
Proof.
  intros Hi E. destruct (new_message_isolated _ _ _ _ _ _ _ Hi E) as (Hi1 & Hl & Ho & Hp).
  destruct (new_message_spec _ _ _ _ E) as (_ & _ & Et & _).
  destruct (enqueue_isolated _ _ _ _ _ _ Hi1 Hl Ho Hp) as (b & ps' & Eb & Hi').
  unfold add_unique. rewrite Eb. simpl. eauto.
Qed.

Lemma add_shared_isolated t owned ps q v t1 l :
  isolated t owned ps q -> new_message t v = (t1, l) ->
  exists t' ps', add_shared t1 (Some l) = Ok t' /\ buffer_type t' = buffer_type t /\
    isolated t' owned ps' (fifo_enqueue capacity q v).
Proof.
  intros Hi E. destruct (new_message_isolated _ _ _ _ _ _ _ Hi E) as (Hi1 & Hl & Ho & Hp).
  destruct (new_message_spec _ _ _ _ E) as (_ & _ & Et & _). unfold add_shared. rewrite Et.
  destruct (buffer_type t) eqn:Ety.
  - destruct (enqueue_isolated _ _ _ _ _ _ Hi1 Hl Ho Hp) as (b & ps' & Eb & Hi').
    rewrite Eb. simpl. exists (set_buffer t1 b), ps'. split_and!; [done|simpl; congruence|done].
  - unfold copy_message. cbn [deref]. rewrite Hl. cbn [rbind].
    destruct (new_message t1 v) as [t2 l2] eqn:E2. cbn [rbind].
    destruct (new_message_isolated _ _ _ _ _ _ _ Hi1 E2) as (Hi2 & Hl2 & Ho2 & Hp2).
    destruct (new_message_spec _ _ _ _ E2) as (_ & _ & Et2 & _).
    destruct (enqueue_isolated _ _ _ _ _ _ Hi2 Hl2 Ho2 Hp2) as (b & ps' & Eb & Hi').
    rewrite Eb. simpl. exists (set_buffer t2 b), ps'. split_and!; [done|simpl; congruence|done].
Qed.

(** [consume_unique] gives the oldest message to a client alone. *)
Lemma consume_unique_isolated t owned ps q :
  isolated t owned ps q -> (buffer_type t = SharedPtr -> q <> []) ->
  exists t' p, consume_unique t = Ok (t', p) /\ buffer_type t' = buffer_type t /\
    read_all t' (taken p) = Ok (take 1 q) /\ isolated t' (owned ∪ locations [p]) (tail ps) (tail q).
Proof.
  intros Hi Hne. pose proof (isolated_stored _ _ _ _ Hi) as Hs.
  destruct (dequeue_isolated _ _ _ _ Hi) as (b & Eb & Hi1 & Htk & Hi2).
  unfold consume_unique. rewrite Eb. cbn [rbind]. destruct (buffer_type t) eqn:Ety.
  - destruct Hs as [|p v ps q (l & -> & Hl) Hs]; [by destruct Hne|]. simpl in *.
    destruct (copies_isolated _ _ _ _ _ _ Hi1 Htk) as (t' & ls & E & Et & Er & Hi' & _).
    cbn [copy_messages] in E. change (deref (set_buffer t b) (Some l)) with (deref t (Some l)) in E.
    destruct (copy_message (set_buffer t b) (Some l)) as [[t2 p2]|] eqn:E2; [|done].
    simpl in E. injection E as <- <-. exists t2, p2. split_and!; [done|simpl in Et; congruence| |done].
    unfold copy_message in E2. destruct (deref _ _); [|done]. simpl in E2.
    injection E2 as _ <-. exact Er.
  - exists (set_buffer t b), (default None (head ps)). split_and!; [done|done| |done].
    by apply stored_read.
Qed.

Lemma act_refines t owned ps q a :
  isolated t owned ps q ->
  match value_act (buffer_type t) capacity q a with
  | Ok (q', vs) => exists t' owned' ps', act t owned a = Ok (t', owned', vs) /\
      buffer_type t' = buffer_type t /\ isolated t' owned' ps' q'
  | Throw e => act t owned a = Throw e
  end.
Proof.
  intros Hi. pose proof Hi as [Hr Hs Hnd Ho Hd]. destruct a as [v|v| | | | |l v]; cbn [value_act act].
  - destruct (new_message t v) as [t1 l] eqn:E.
    destruct (add_unique_isolated _ _ _ _ _ _ _ Hi E) as (t' & ps' & -> & Et & Hi'). simpl. eauto 6.
  - destruct (new_message t v) as [t1 l] eqn:E.
    destruct (add_shared_isolated _ _ _ _ _ _ _ Hi E) as (t' & ps' & -> & Et & Hi'). simpl. eauto 6.
  - destruct (dequeue_isolated _ _ _ _ Hi) as (b & Eb & Hi1 & Htk & _).
    unfold consume_shared. rewrite Eb. cbn [rbind].
    rewrite (stored_read (set_buffer t b) _ _ Htk). simpl. eauto 6.
  - assert (Hc : (buffer_type t = SharedPtr -> q <> []) \/ (buffer_type t = SharedPtr /\ q = [])).
    { destruct (buffer_type t), q; auto; left; congruence. }
    destruct Hc as [Hc|[Et ->]].
    + destruct (consume_unique_isolated _ _ _ _ Hi Hc) as (t' & p & E & Et & Er & Hi').
      rewrite E. cbn [rbind]. rewrite Er. simpl. destruct q, (buffer_type t); try (by destruct Hc); eauto 6.
    + rewrite Et. unfold consume_unique. destruct (dequeue_isolated _ _ _ _ Hi) as (b & Eb & _).
      apply Forall2_nil_inv_r in Hs. subst ps. rewrite Eb. cbn [rbind]. by rewrite Et.
  - unfold get_all_data_shared. rewrite (get_all_data_refines capacity capacity_range _ _ Hr). cbn [rbind].
    destruct (buffer_type t) eqn:Et.
    + cbn [rbind]. rewrite (stored_read _ _ _ Hs). simpl. eauto 6.
    + destruct (copies_isolated _ _ _ _ _ _ Hi Hs) as (t' & ls & E & Et' & Er & _ & Hi').
      rewrite E. cbn [rbind]. rewrite Er. simpl. rewrite <- Et. eauto 6.
  - unfold get_all_data_unique. rewrite (get_all_data_refines capacity capacity_range _ _ Hr). cbn [rbind].
    destruct (copies_isolated _ _ _ _ _ _ Hi Hs) as (t' & ls & E & Et' & Er & Hi' & _).
    rewrite E. cbn [rbind]. rewrite Er. simpl. eauto 6.
  - case_decide as Hl; [|by eauto 6]. eexists _, owned, ps. split_and!; [done..|].
    split; simpl; try done; [by apply stored_write; [apply Ho|]|]. rewrite dom_insert. set_solver.
Qed.

(** C37: messages of one process are isolated.  Whatever publishers add to an
    intra-process buffer and subscriptions take from it, as shared or as
    unique pointers, and whatever the owners of unique pointers write to
    their messages, everyone sees the contents that were published: the
    answers are those of a queue of values that no one can write to.  The one
    exception is taking a unique pointer from an empty buffer of shared
    pointers, which dereferences null. *)
Theorem intra_process_isolation type actions :
  exists t, create_intra_process_buffer type capacity = Ok t /\
    act_all t ∅ actions = value_act_all (V := V) type capacity [] actions.
Proof.
  unfold create_intra_process_buffer.
  destruct (init_represents (A := option N) None capacity capacity_range) as (b & Eb & Hr). rewrite Eb. simpl.
  eexists. split; [done|]. set (t := mkIntraProcessBuffer type b ∅).
  assert (Hi : isolated t ∅ [] []).
  { split; simpl; [done|by apply Forall2_nil|constructor|set_solver|set_solver]. }
  change type with (buffer_type t). clearbody t. clear b Eb Hr type. revert t Hi.
  generalize (@nil Ptr) as ps, (@nil V) as q, (∅ : gset N) as owned.
  induction actions as [|a actions IH]; intros ps q owned t Hi; simpl; [done|].
  pose proof (act_refines t owned ps q a Hi) as Ha. destruct (value_act _ _ q a) as [[q' vs]|e].
  - destruct Ha as (t' & owned' & ps' & -> & Et & Hi'). simpl. by rewrite (IH _ _ _ _ Hi'), Et.
  - by rewrite Ha.
Qed.
End Isolation.

(** ** Witnesses *)

Section Witnesses.
(** A buffer of two elements, overrun by a third. *)
Definition sample_ops : list (Op (A := Z)) := [Enqueue 1; Enqueue 2; Enqueue 3; GetAllData; Dequeue; Dequeue; Dequeue].

Lemma RingBuffer_refines_fifo_witness :
  exists b b', RingBuffer_init (-1) 2 = Ok b /\
    ring_run (-1) (fun _ => 0) b sample_ops =
      Ok (b', [Done; Done; Done; Elements [2; 3]; Element 2; Element 3; Element (-1)]).
Proof.
  destruct (RingBuffer_refines_fifo (-1) (fun _ => 0) 2 ltac:(lia) sample_ops) as (b & b' & H1 & H2 & _).
  exists b, b'. split; [exact H1|exact H2].
Defined.

Definition sample_actions : list (Action (V := Z)) :=
  [AddUnique 1; AddShared 2; GetAllUnique; WriteOwned 2 7; ConsumeUnique; WriteOwned 4 8; ConsumeShared].

Lemma intra_process_isolation_witness :
  exists t, create_intra_process_buffer SharedPtr 2 = Ok t /\
    act_all t ∅ sample_actions = Ok [[]; []; [1; 2]; []; [1]; []; [2]].
Proof.
  destruct (intra_process_isolation (V := Z) 2 ltac:(lia) SharedPtr sample_actions) as (t & H1 & H2).
  exists t. split; [exact H1|exact H2].
Defined.
End Witnesses.
