(* ===== verification/Qos.v ===== *)
(** * Quality of service of the DDS layers

    [rmw_dds_common/src/qos.cpp] and [time_utils.cpp]: whether a publisher
    and a subscription can communicate, the profiles chosen for the
    [BEST_AVAILABLE] policies, and the conversion of durations to DDS.  The
    enumerations and constants are those of [rmw/types.h], the names of
    policies those of [rmw/src/qos_string_conversions.c].

    The output buffer of [qos_profile_check_compatible] is null or the
    string in it up to its terminator; formatting into it never fails. *)

From Stdlib Require Import ZArith Lia String.
From stdpp Require Import base numbers list strings sets.
From S2P Require Import Prelude RclTime.

Inductive Reliability :=
| RMW_QOS_POLICY_RELIABILITY_SYSTEM_DEFAULT
| RMW_QOS_POLICY_RELIABILITY_RELIABLE
| RMW_QOS_POLICY_RELIABILITY_BEST_EFFORT
| RMW_QOS_POLICY_RELIABILITY_UNKNOWN
| RMW_QOS_POLICY_RELIABILITY_BEST_AVAILABLE.

Inductive History :=
| RMW_QOS_POLICY_HISTORY_SYSTEM_DEFAULT
| RMW_QOS_POLICY_HISTORY_KEEP_LAST
| RMW_QOS_POLICY_HISTORY_KEEP_ALL
| RMW_QOS_POLICY_HISTORY_UNKNOWN.

Inductive Durability :=
| RMW_QOS_POLICY_DURABILITY_SYSTEM_DEFAULT
| RMW_QOS_POLICY_DURABILITY_TRANSIENT_LOCAL
| RMW_QOS_POLICY_DURABILITY_VOLATILE
| RMW_QOS_POLICY_DURABILITY_UNKNOWN
| RMW_QOS_POLICY_DURABILITY_BEST_AVAILABLE.

Inductive Liveliness :=
| RMW_QOS_POLICY_LIVELINESS_SYSTEM_DEFAULT
| RMW_QOS_POLICY_LIVELINESS_AUTOMATIC
| RMW_QOS_POLICY_LIVELINESS_MANUAL_BY_NODE
| RMW_QOS_POLICY_LIVELINESS_MANUAL_BY_TOPIC
| RMW_QOS_POLICY_LIVELINESS_UNKNOWN
| RMW_QOS_POLICY_LIVELINESS_BEST_AVAILABLE.

#[export] Instance Reliability_eq_dec : EqDecision Reliability.
Proof. solve_decision. Defined.
#[export] Instance Durability_eq_dec : EqDecision Durability.
Proof. solve_decision. Defined.
#[export] Instance Liveliness_eq_dec : EqDecision Liveliness.
Proof. solve_decision. Defined.
#[export] Instance RmwTime_eq_dec : EqDecision RmwTime.
Proof. solve_decision. Defined.

Record QosProfile := mkQosProfile {
  history : History;
  depth : Z;
  reliability : Reliability;
  durability : Durability;
  deadline : RmwTime;
  lifespan : RmwTime;
  liveliness : Liveliness;
  liveliness_lease_duration : RmwTime;
  avoid_ros_namespace_conventions : bool;
}.

Definition set_reliability (q : QosProfile) (x : Reliability) : QosProfile :=
  mkQosProfile (history q) (depth q) x (durability q) (deadline q) (lifespan q) (liveliness q)
    (liveliness_lease_duration q) (avoid_ros_namespace_conventions q).
Definition set_durability (q : QosProfile) (x : Durability) : QosProfile :=
  mkQosProfile (history q) (depth q) (reliability q) x (deadline q) (lifespan q) (liveliness q)
    (liveliness_lease_duration q) (avoid_ros_namespace_conventions q).
Definition set_deadline (q : QosProfile) (x : RmwTime) : QosProfile :=
  mkQosProfile (history q) (depth q) (reliability q) (durability q) x (lifespan q) (liveliness q)
    (liveliness_lease_duration q) (avoid_ros_namespace_conventions q).
Definition set_liveliness (q : QosProfile) (x : Liveliness) : QosProfile :=
  mkQosProfile (history q) (depth q) (reliability q) (durability q) (deadline q) (lifespan q) x
    (liveliness_lease_duration q) (avoid_ros_namespace_conventions q).
Definition set_lease (q : QosProfile) (x : RmwTime) : QosProfile :=
  mkQosProfile (history q) (depth q) (reliability q) (durability q) (deadline q) (lifespan q) (liveliness q)
    x (avoid_ros_namespace_conventions q).

Definition RMW_DURATION_INFINITE : RmwTime := mkRmwTime 9223372036 854775807.
Definition RMW_DURATION_UNSPECIFIED : RmwTime := mkRmwTime 0 0.
Definition deadline_default : RmwTime := RMW_DURATION_UNSPECIFIED.
Definition deadline_best_available : RmwTime := mkRmwTime 9223372036 854775806.
Definition liveliness_lease_duration_default : RmwTime := RMW_DURATION_UNSPECIFIED.
Definition liveliness_lease_duration_best_available : RmwTime := mkRmwTime 9223372036 854775806.

Definition rmw_time_ltb (t1 t2 : RmwTime) : bool :=
  if rmw_sec t1 <? rmw_sec t2 then true
  else if (rmw_sec t1 =? rmw_sec t2) && (rmw_nsec t1 <? rmw_nsec t2) then true
  else false.

Inductive rmw_ret :=
| RMW_RET_ERROR
| RMW_RET_INVALID_ARGUMENT
| RMW_RET_BAD_ALLOC
| RMW_RET_INCORRECT_RMW_IMPLEMENTATION
| RMW_RET_NODE_NAME_NON_EXISTENT.

Inductive Compatibility :=
| RMW_QOS_COMPATIBILITY_OK
| RMW_QOS_COMPATIBILITY_WARNING
| RMW_QOS_COMPATIBILITY_ERROR.

#[export] Instance Compatibility_eq_dec : EqDecision Compatibility.
Proof. solve_decision. Defined.

(** ** Compatibility *)

Definition append_to_buffer (buffer : option string) (buffer_size : Z) (text : string) : option string :=
  match buffer with
  | None => None
  | Some s =>
      if buffer_size =? 0 then Some s
      else
        let offset := Z.of_nat (String.length s) in
        let write_size := buffer_size - offset in
        Some (s ++ substring 0 (Z.to_nat (write_size - 1)) text)%string
  end.

Definition rmw_qos_reliability_policy_to_str (r : Reliability) : option string :=
  match r with
  | RMW_QOS_POLICY_RELIABILITY_SYSTEM_DEFAULT => Some "system_default"%string
  | RMW_QOS_POLICY_RELIABILITY_RELIABLE => Some "reliable"%string
  | RMW_QOS_POLICY_RELIABILITY_BEST_EFFORT => Some "best_effort"%string
  | RMW_QOS_POLICY_RELIABILITY_BEST_AVAILABLE => Some "best_available"%string
  | RMW_QOS_POLICY_RELIABILITY_UNKNOWN => None
  end.

Definition rmw_qos_durability_policy_to_str (d : Durability) : option string :=
  match d with
  | RMW_QOS_POLICY_DURABILITY_SYSTEM_DEFAULT => Some "system_default"%string
  | RMW_QOS_POLICY_DURABILITY_TRANSIENT_LOCAL => Some "transient_local"%string
  | RMW_QOS_POLICY_DURABILITY_VOLATILE => Some "volatile"%string
  | RMW_QOS_POLICY_DURABILITY_BEST_AVAILABLE => Some "best_available"%string
  | RMW_QOS_POLICY_DURABILITY_UNKNOWN => None
  end.

Definition rmw_qos_liveliness_policy_to_str (l : Liveliness) : option string :=
  match l with
  | RMW_QOS_POLICY_LIVELINESS_SYSTEM_DEFAULT => Some "system_default"%string
  | RMW_QOS_POLICY_LIVELINESS_AUTOMATIC => Some "automatic"%string
  | RMW_QOS_POLICY_LIVELINESS_MANUAL_BY_TOPIC => Some "manual_by_topic"%string
  | RMW_QOS_POLICY_LIVELINESS_BEST_AVAILABLE => Some "best_available"%string
  | RMW_QOS_POLICY_LIVELINESS_UNKNOWN => None
  | RMW_QOS_POLICY_LIVELINESS_MANUAL_BY_NODE => None
  end.

Definition or_unknown (s : option string) : string := default "unknown"%string s.

(** The outputs while the checks run. *)
Record CheckState := mkCheckState {
  compatibility : Compatibility;
  reason : option string;
  reason_size : Z;
}.

Definition report (c : Compatibility) (text : string) (s : CheckState) : CheckState :=
  mkCheckState c (append_to_buffer (reason s) (reason_size s) text) (reason_size s).

(** The checks, in order, over any state that [report]s are noted in. *)
Section Checks.
Context {St : Type}.
Variable report : Compatibility -> string -> St -> St.

Definition check_errors (p s : QosProfile) (st : St) : St :=
  let error := report RMW_QOS_COMPATIBILITY_ERROR in
  let st :=
    if bool_decide (reliability p = RMW_QOS_POLICY_RELIABILITY_BEST_EFFORT) &&
       bool_decide (reliability s = RMW_QOS_POLICY_RELIABILITY_RELIABLE)
    then error "ERROR: Best effort publisher and reliable subscription;"%string st else st in
  let st :=
    if bool_decide (durability p = RMW_QOS_POLICY_DURABILITY_VOLATILE) &&
       bool_decide (durability s = RMW_QOS_POLICY_DURABILITY_TRANSIENT_LOCAL)
    then error "ERROR: Volatile publisher and transient local subscription;"%string st else st in
  let st :=
    if bool_decide (deadline p = deadline_default) && negb (bool_decide (deadline s = deadline_default))
    then error "ERROR: Subscription has a deadline, but publisher does not;"%string st else st in
  let st :=
    if negb (bool_decide (deadline p = deadline_default)) && negb (bool_decide (deadline s = deadline_default))
    then
      if rmw_time_ltb (deadline s) (deadline p)
      then error "ERROR: Subscription deadline is less than publisher deadline;"%string st else st
    else st in
  let st :=
    if bool_decide (liveliness p = RMW_QOS_POLICY_LIVELINESS_AUTOMATIC) &&
       bool_decide (liveliness s = RMW_QOS_POLICY_LIVELINESS_MANUAL_BY_TOPIC)
    then error "ERROR: Publisher's liveliness is automatic and subscription's is manual by topic;"%string st else st in
  let pub_lease := liveliness_lease_duration p in
  let sub_lease := liveliness_lease_duration s in
  let st :=
    if bool_decide (pub_lease = liveliness_lease_duration_default) &&
       negb (bool_decide (sub_lease = liveliness_lease_duration_default))
    then error "ERROR: Subscription has a liveliness lease duration, but publisher does not;"%string st else st in
  if negb (bool_decide (pub_lease = liveliness_lease_duration_default)) &&
     negb (bool_decide (sub_lease = liveliness_lease_duration_default))
  then
    if rmw_time_ltb sub_lease pub_lease
    then error "ERROR: Subscription liveliness lease duration is less than publisher;"%string st else st
  else st.

Definition check_warnings (p s : QosProfile) (st : St) : St :=
  let warning := report RMW_QOS_COMPATIBILITY_WARNING in
  let pub_reliability_unknown :=
    bool_decide (reliability p = RMW_QOS_POLICY_RELIABILITY_SYSTEM_DEFAULT) ||
    bool_decide (reliability p = RMW_QOS_POLICY_RELIABILITY_UNKNOWN) in
  let sub_reliability_unknown :=
    bool_decide (reliability s = RMW_QOS_POLICY_RELIABILITY_SYSTEM_DEFAULT) ||
    bool_decide (reliability s = RMW_QOS_POLICY_RELIABILITY_UNKNOWN) in
  let pub_durability_unknown :=
    bool_decide (durability p = RMW_QOS_POLICY_DURABILITY_SYSTEM_DEFAULT) ||
    bool_decide (durability p = RMW_QOS_POLICY_DURABILITY_UNKNOWN) in
  let sub_durability_unknown :=
    bool_decide (durability s = RMW_QOS_POLICY_DURABILITY_SYSTEM_DEFAULT) ||
    bool_decide (durability s = RMW_QOS_POLICY_DURABILITY_UNKNOWN) in
  let pub_liveliness_unknown :=
    bool_decide (liveliness p = RMW_QOS_POLICY_LIVELINESS_SYSTEM_DEFAULT) ||
    bool_decide (liveliness p = RMW_QOS_POLICY_LIVELINESS_UNKNOWN) in
  let sub_liveliness_unknown :=
    bool_decide (liveliness s = RMW_QOS_POLICY_LIVELINESS_SYSTEM_DEFAULT) ||
    bool_decide (liveliness s = RMW_QOS_POLICY_LIVELINESS_UNKNOWN) in
  let pub_reliability_str := or_unknown (rmw_qos_reliability_policy_to_str (reliability p)) in
  let sub_reliability_str := or_unknown (rmw_qos_reliability_policy_to_str (reliability s)) in
  let pub_durability_str := or_unknown (rmw_qos_durability_policy_to_str (durability p)) in
  let sub_durability_str := or_unknown (rmw_qos_durability_policy_to_str (durability s)) in
  let pub_liveliness_str := or_unknown (rmw_qos_liveliness_policy_to_str (liveliness p)) in
  let sub_liveliness_str := or_unknown (rmw_qos_liveliness_policy_to_str (liveliness s)) in
  let st :=
    if pub_reliability_unknown && sub_reliability_unknown then
      warning ("WARNING: Publisher reliability is " ++ pub_reliability_str ++
               " and subscription reliability is " ++ sub_reliability_str ++ ";")%string st
    else if pub_reliability_unknown && bool_decide (reliability s = RMW_QOS_POLICY_RELIABILITY_RELIABLE) then
      warning ("WARNING: Reliable subscription, but publisher is " ++ pub_reliability_str ++ ";")%string st
    else if bool_decide (reliability p = RMW_QOS_POLICY_RELIABILITY_BEST_EFFORT) && sub_reliability_unknown then
      warning ("WARNING: Best effort publisher, but subscription is " ++ sub_reliability_str ++ ";")%string st
    else st in
  let st :=
    if pub_durability_unknown && sub_durability_unknown then
      warning ("WARNING: Publisher durabilty is " ++ pub_durability_str ++
               " and subscription durability is " ++ sub_durability_str ++ ";")%string st
    else if pub_durability_unknown && bool_decide (durability s = RMW_QOS_POLICY_DURABILITY_TRANSIENT_LOCAL) then
      warning ("WARNING: Transient local subscription, but publisher is " ++ pub_durability_str ++ ";")%string st
    else if bool_decide (durability p = RMW_QOS_POLICY_DURABILITY_VOLATILE) && sub_durability_unknown then
      warning ("WARNING: Volatile publisher, but subscription is " ++ sub_durability_str ++ ";")%string st
    else st in
  if pub_liveliness_unknown && sub_liveliness_unknown then
    warning ("WARNING: Publisher liveliness is " ++ pub_liveliness_str ++
             " and subscription liveliness is " ++ sub_liveliness_str ++ ";")%string st
  else if pub_liveliness_unknown && bool_decide (liveliness s = RMW_QOS_POLICY_LIVELINESS_MANUAL_BY_TOPIC) then
    warning ("WARNING: Subscription's liveliness is manual by topic, but publisher's is " ++
             pub_liveliness_str ++ ";")%string st
  else if bool_decide (liveliness p = RMW_QOS_POLICY_LIVELINESS_AUTOMATIC) && sub_liveliness_unknown then
    warning ("WARNING: Publisher's liveliness is automatic, but subscription's is " ++
             sub_liveliness_str ++ ";")%string st
  else st.
End Checks.

(** [compatibility_given]: the output parameter is not null.  [buffer] is
    null or what the caller's buffer holds. *)
Definition qos_profile_check_compatible (publisher_qos subscription_qos : QosProfile)
    (compatibility_given : bool) (buffer : option string) (reason_size : Z)
  : Result rmw_ret (Compatibility * option string) :=
  if negb compatibility_given then Throw RMW_RET_INVALID_ARGUMENT
  else if negb (bool_decide (is_Some buffer)) && negb (reason_size =? 0) then Throw RMW_RET_INVALID_ARGUMENT
  else
    let buffer := if bool_decide (is_Some buffer) && negb (reason_size =? 0) then Some ""%string else buffer in
    let st := check_errors report publisher_qos subscription_qos (mkCheckState RMW_QOS_COMPATIBILITY_OK buffer reason_size) in
    let st :=
      if bool_decide (compatibility st = RMW_QOS_COMPATIBILITY_OK)
      then check_warnings report publisher_qos subscription_qos st else st in
    Ok (compatibility st, reason st).

(** ** Best available policies *)

(** The counters of the loop over the publishers. *)
Record PubSummary := mkPubSummary {
  number_of_reliable : nat;
  number_of_transient_local : nat;
  number_of_manual_by_topic : nat;
  use_default_deadline : bool;
  largest_deadline : RmwTime;
  use_default_liveliness_lease_duration : bool;
  largest_liveliness_lease_duration : RmwTime;
}.

Definition count_if (b : bool) (n : nat) : nat := if b then S n else n.

Definition pub_summary_step (c : PubSummary) (profile : QosProfile) : PubSummary :=
  let has_deadline := negb (bool_decide (deadline profile = deadline_default)) in
  let lease := liveliness_lease_duration profile in
  let has_lease := negb (bool_decide (lease = liveliness_lease_duration_default)) in
  mkPubSummary
    (count_if (bool_decide (RMW_QOS_POLICY_RELIABILITY_RELIABLE = reliability profile)) (number_of_reliable c))
    (count_if (bool_decide (RMW_QOS_POLICY_DURABILITY_TRANSIENT_LOCAL = durability profile)) (number_of_transient_local c))
    (count_if (bool_decide (RMW_QOS_POLICY_LIVELINESS_MANUAL_BY_TOPIC = liveliness profile)) (number_of_manual_by_topic c))
    (if has_deadline then false else use_default_deadline c)
    (if has_deadline && rmw_time_ltb (largest_deadline c) (deadline profile)
     then deadline profile else largest_deadline c)
    (if has_lease then false else use_default_liveliness_lease_duration c)
    (if has_lease && rmw_time_ltb (largest_liveliness_lease_duration c) lease
     then lease else largest_liveliness_lease_duration c).

Definition pub_summary (publishers : list QosProfile) : PubSummary :=
  fold_left pub_summary_step publishers
    (mkPubSummary 0 0 0 true (mkRmwTime 0 0) true (mkRmwTime 0 0)).

Definition best_for_subscription (publishers : list QosProfile) (q : QosProfile) : QosProfile :=
  let c := pub_summary publishers in
  let size := length publishers in
  let q :=
    if bool_decide (RMW_QOS_POLICY_RELIABILITY_BEST_AVAILABLE = reliability q) then
      set_reliability q (if (number_of_reliable c =? size)%nat
        then RMW_QOS_POLICY_RELIABILITY_RELIABLE else RMW_QOS_POLICY_RELIABILITY_BEST_EFFORT)
    else q in
  let q :=
    if bool_decide (RMW_QOS_POLICY_DURABILITY_BEST_AVAILABLE = durability q) then
      set_durability q (if (number_of_transient_local c =? size)%nat
        then RMW_QOS_POLICY_DURABILITY_TRANSIENT_LOCAL else RMW_QOS_POLICY_DURABILITY_VOLATILE)
    else q in
  let q :=
    if bool_decide (RMW_QOS_POLICY_LIVELINESS_BEST_AVAILABLE = liveliness q) then
      set_liveliness q (if (number_of_manual_by_topic c =? size)%nat
        then RMW_QOS_POLICY_LIVELINESS_MANUAL_BY_TOPIC else RMW_QOS_POLICY_LIVELINESS_AUTOMATIC)
    else q in
  let q :=
    if bool_decide (deadline_best_available = deadline q) then
      set_deadline q (if use_default_deadline c then deadline_default else largest_deadline c)
    else q in
  if bool_decide (liveliness_lease_duration_best_available = liveliness_lease_duration q) then
    set_lease q (if use_default_liveliness_lease_duration c
                 then liveliness_lease_duration_default else largest_liveliness_lease_duration c)
  else q.

(** The pointers may be null. *)
Definition qos_profile_get_best_available_for_subscription
    (publishers_info : option (list QosProfile)) (subscription_profile : option QosProfile)
  : Result rmw_ret QosProfile :=
  match publishers_info, subscription_profile with
  | None, _ => Throw RMW_RET_INVALID_ARGUMENT
  | _, None => Throw RMW_RET_INVALID_ARGUMENT
  | Some publishers, Some q => Ok (best_for_subscription publishers q)
  end.

(** The variables of the loop over the subscriptions. *)
Record SubSummary := mkSubSummary {
  use_manual_by_topic : bool;
  sub_default_deadline : bool;
  smallest_deadline : RmwTime;
  sub_default_lease : bool;
  smallest_liveliness_lease_duration : RmwTime;
}.

Definition sub_summary_step (c : SubSummary) (profile : QosProfile) : SubSummary :=
  let has_deadline := negb (bool_decide (deadline profile = deadline_default)) in
  let lease := liveliness_lease_duration profile in
  let has_lease := negb (bool_decide (lease = liveliness_lease_duration_default)) in
  mkSubSummary
    (if bool_decide (RMW_QOS_POLICY_LIVELINESS_MANUAL_BY_TOPIC = liveliness profile) then true
     else use_manual_by_topic c)
    (if has_deadline then false else sub_default_deadline c)
    (if has_deadline && rmw_time_ltb (deadline profile) (smallest_deadline c)
     then deadline profile else smallest_deadline c)
    (if has_lease then false else sub_default_lease c)
    (if has_lease && rmw_time_ltb lease (smallest_liveliness_lease_duration c)
     then lease else smallest_liveliness_lease_duration c).

Definition sub_summary (subscriptions : list QosProfile) : SubSummary :=
  fold_left sub_summary_step subscriptions
    (mkSubSummary false true RMW_DURATION_INFINITE true RMW_DURATION_INFINITE).

Definition best_for_publisher (subscriptions : list QosProfile) (q : QosProfile) : QosProfile :=
  let q :=
    if bool_decide (RMW_QOS_POLICY_RELIABILITY_BEST_AVAILABLE = reliability q)
    then set_reliability q RMW_QOS_POLICY_RELIABILITY_RELIABLE else q in
  let q :=
    if bool_decide (RMW_QOS_POLICY_DURABILITY_BEST_AVAILABLE = durability q)
    then set_durability q RMW_QOS_POLICY_DURABILITY_TRANSIENT_LOCAL else q in
  let c := sub_summary subscriptions in
  let q :=
    if bool_decide (RMW_QOS_POLICY_LIVELINESS_BEST_AVAILABLE = liveliness q) then
      set_liveliness q (if use_manual_by_topic c
        then RMW_QOS_POLICY_LIVELINESS_MANUAL_BY_TOPIC else RMW_QOS_POLICY_LIVELINESS_AUTOMATIC)
    else q in
  let q :=
    if bool_decide (deadline_best_available = deadline q) then
      set_deadline q (if sub_default_deadline c then deadline_default else smallest_deadline c)
    else q in
  if bool_decide (liveliness_lease_duration_best_available = liveliness_lease_duration q) then
    set_lease q (if sub_default_lease c
                 then liveliness_lease_duration_default else smallest_liveliness_lease_duration c)
  else q.

Definition qos_profile_get_best_available_for_publisher
    (subscriptions_info : option (list QosProfile)) (publisher_profile : option QosProfile)
  : Result rmw_ret QosProfile :=
  match subscriptions_info, publisher_profile with
  | None, _ => Throw RMW_RET_INVALID_ARGUMENT
  | _, None => Throw RMW_RET_INVALID_ARGUMENT
  | Some subscriptions, Some q => Ok (best_for_publisher subscriptions q)
  end.

Definition qos_profile_has_best_available_policy (q : QosProfile) : bool :=
  if bool_decide (RMW_QOS_POLICY_RELIABILITY_BEST_AVAILABLE = reliability q) then true
  else if bool_decide (RMW_QOS_POLICY_DURABILITY_BEST_AVAILABLE = durability q) then true
  else if bool_decide (RMW_QOS_POLICY_LIVELINESS_BEST_AVAILABLE = liveliness q) then true
  else if bool_decide (deadline_best_available = deadline q) then true
  else if bool_decide (liveliness_lease_duration_best_available = liveliness_lease_duration q) then true
  else false.

(** ** The same for a topic

    [get_endpoint_info] is the middleware's query for the endpoints of a
    topic and [fini] releases the memory of what it returned.  The profile
    is updated in place; after an error it is not looked at. *)

Section Topic.
Context {Node : Type}.
Variable get_endpoint_info : Node -> string -> Result rmw_ret (list QosProfile).
Variable fini : list QosProfile -> Result rmw_ret unit.

Definition qos_profile_get_best_available_for_topic_subscription
    (node : option Node) (topic_name : option string) (qos_profile : option QosProfile)
  : Result rmw_ret QosProfile :=
  match node, topic_name, qos_profile with
  | Some node, Some topic_name, Some q =>
      if qos_profile_has_best_available_policy q then
        let! publishers_info := get_endpoint_info node topic_name in
        let ret := qos_profile_get_best_available_for_subscription (Some publishers_info) (Some q) in
        let! _ := fini publishers_info in
        ret
      else Ok q
  | _, _, _ => Throw RMW_RET_INVALID_ARGUMENT
  end.

Definition qos_profile_get_best_available_for_topic_publisher
    (node : option Node) (topic_name : option string) (qos_profile : option QosProfile)
  : Result rmw_ret QosProfile :=
  match node, topic_name, qos_profile with
  | Some node, Some topic_name, Some q =>
      if qos_profile_has_best_available_policy q then
        let! subscriptions_info := get_endpoint_info node topic_name in
        let ret := qos_profile_get_best_available_for_publisher (Some subscriptions_info) (Some q) in
        let! _ := fini subscriptions_info in
        ret
      else Ok q
  | _, _, _ => Throw RMW_RET_INVALID_ARGUMENT
  end.
End Topic.

Definition rmw_qos_profile_services_default : QosProfile :=
  mkQosProfile RMW_QOS_POLICY_HISTORY_KEEP_LAST 10 RMW_QOS_POLICY_RELIABILITY_RELIABLE
    RMW_QOS_POLICY_DURABILITY_VOLATILE deadline_default RMW_DURATION_UNSPECIFIED
    RMW_QOS_POLICY_LIVELINESS_SYSTEM_DEFAULT liveliness_lease_duration_default false.

Definition qos_profile_update_best_available_for_services (q : QosProfile) : QosProfile :=
  let d := rmw_qos_profile_services_default in
  let q := if bool_decide (RMW_QOS_POLICY_RELIABILITY_BEST_AVAILABLE = reliability q)
           then set_reliability q (reliability d) else q in
  let q := if bool_decide (RMW_QOS_POLICY_DURABILITY_BEST_AVAILABLE = durability q)
           then set_durability q (durability d) else q in
  let q := if bool_decide (RMW_QOS_POLICY_LIVELINESS_BEST_AVAILABLE = liveliness q)
           then set_liveliness q (liveliness d) else q in
  let q := if bool_decide (deadline_best_available = deadline q)
           then set_deadline q (deadline d) else q in
  if bool_decide (liveliness_lease_duration_best_available = liveliness_lease_duration q)
  then set_lease q (liveliness_lease_duration d) else q.

(** ** Durations for DDS *)

Definition INT_MAX : Z := 2 ^ 31 - 1.

Definition clamp_rmw_time_to_dds_time (t : RmwTime) : RmwTime :=
  let sec_to_ns := 1000000000 in
  let ns_sec_adjust := rmw_nsec t / sec_to_ns in
  let overflow_nsec := INT_MAX <? ns_sec_adjust in
  let ns_sec_adjust := if overflow_nsec then INT_MAX else ns_sec_adjust in
  let overflow_sec := u64 (INT_MAX - ns_sec_adjust) <? rmw_sec t in
  let s := if overflow_sec then INT_MAX else u64 (rmw_sec t + ns_sec_adjust) in
  if overflow_nsec || overflow_sec then mkRmwTime s (sec_to_ns - 1)
  else mkRmwTime s (u64 (rmw_nsec t - u64 (ns_sec_adjust * sec_to_ns))).

(** ** What the checks decide

    A publisher offers at least what a subscription requests; a default
    duration is an infinite one. *)

Definition reliability_matches (p s : Reliability) : Prop :=
  ~ (p = RMW_QOS_POLICY_RELIABILITY_BEST_EFFORT /\ s = RMW_QOS_POLICY_RELIABILITY_RELIABLE).
Definition durability_matches (p s : Durability) : Prop :=
  ~ (p = RMW_QOS_POLICY_DURABILITY_VOLATILE /\ s = RMW_QOS_POLICY_DURABILITY_TRANSIENT_LOCAL).
Definition liveliness_matches (p s : Liveliness) : Prop :=
  ~ (p = RMW_QOS_POLICY_LIVELINESS_AUTOMATIC /\ s = RMW_QOS_POLICY_LIVELINESS_MANUAL_BY_TOPIC).

Definition period (t : RmwTime) : option RmwTime :=
  if bool_decide (t = RMW_DURATION_UNSPECIFIED) then None else Some t.

Definition period_matches (p s : RmwTime) : Prop :=
  match period p, period s with
  | _, None => True
  | None, Some _ => False
  | Some p, Some s => rmw_time_ltb s p = false
  end.

Record profiles_match (p s : QosProfile) : Prop := {
  match_reliability : reliability_matches (reliability p) (reliability s);
  match_durability : durability_matches (durability p) (durability s);
  match_deadline : period_matches (deadline p) (deadline s);
  match_liveliness : liveliness_matches (liveliness p) (liveliness s);
  match_lease : period_matches (liveliness_lease_duration p) (liveliness_lease_duration s);
}.

(** What a policy that is not known yet can turn out to be. *)
Definition resolves_reliability (r r' : Reliability) : Prop :=
  match r with
  | RMW_QOS_POLICY_RELIABILITY_SYSTEM_DEFAULT | RMW_QOS_POLICY_RELIABILITY_UNKNOWN =>
      r' = RMW_QOS_POLICY_RELIABILITY_RELIABLE \/ r' = RMW_QOS_POLICY_RELIABILITY_BEST_EFFORT
  | _ => r' = r
  end.
Definition resolves_durability (d d' : Durability) : Prop :=
  match d with
  | RMW_QOS_POLICY_DURABILITY_SYSTEM_DEFAULT | RMW_QOS_POLICY_DURABILITY_UNKNOWN =>
      d' = RMW_QOS_POLICY_DURABILITY_TRANSIENT_LOCAL \/ d' = RMW_QOS_POLICY_DURABILITY_VOLATILE
  | _ => d' = d
  end.
Definition resolves_liveliness (l l' : Liveliness) : Prop :=
  match l with
  | RMW_QOS_POLICY_LIVELINESS_SYSTEM_DEFAULT | RMW_QOS_POLICY_LIVELINESS_UNKNOWN =>
      l' = RMW_QOS_POLICY_LIVELINESS_AUTOMATIC \/ l' = RMW_QOS_POLICY_LIVELINESS_MANUAL_BY_TOPIC
  | _ => l' = l
  end.

Record resolves (q q' : QosProfile) : Prop := {
  res_reliability : resolves_reliability (reliability q) (reliability q');
  res_durability : resolves_durability (durability q) (durability q');
  res_liveliness : resolves_liveliness (liveliness q) (liveliness q');
  res_deadline : deadline q' = deadline q;
  res_lease : liveliness_lease_duration q' = liveliness_lease_duration q;
}.

(** *** The log of the checks *)

Definition note (c : Compatibility) (text : string) (s : Compatibility * string) : Compatibility * string :=
  (c, s.2 ++ text)%string.

Definition error_log (p s : QosProfile) : Compatibility * string :=
  check_errors note p s (RMW_QOS_COMPATIBILITY_OK, ""%string).

Definition full_log (p s : QosProfile) : Compatibility * string :=
  let st := error_log p s in
  if bool_decide (st.1 = RMW_QOS_COMPATIBILITY_OK) then check_warnings note p s st else st.

(** What remains of a text in a buffer. *)
Definition render (buffer : option string) (size : Z) (text : string) : option string :=
  match buffer with
  | None => None
  | Some b => Some (if size =? 0 then b else substring 0 (Z.to_nat (size - 1)) text)
  end.

Lemma substring_app n t m :
  (substring 0 n t ++ substring 0 (n - String.length (substring 0 n t)) m)%string = substring 0 n (t ++ m).
Proof.
  revert n. induction t as [|a t IH]; intros n; simpl.
  - destruct n; simpl; [|done]. by rewrite ?Nat.sub_0_r.
  - destruct n; simpl; [by destruct m|]. by rewrite <- IH.
Qed.

Lemma substring_length n t : (String.length (substring 0 n t) <= n)%nat.
Proof. revert n. induction t as [|a t IH]; intros [|n]; simpl; try lia. specialize (IH n). lia. Qed.

Lemma append_render buffer size t m :
  append_to_buffer (render buffer size t) size m = render buffer size (t ++ m).
Proof.
  destruct buffer as [b|]; simpl; [|done]. destruct (size =? 0) eqn:E; [done|]. f_equal.
  rewrite <- substring_app. do 2 f_equal. pose proof (substring_length (Z.to_nat (size - 1)) t).
  apply Z.eqb_neq in E. lia.
Qed.

(** Noting in a buffer agrees with noting everything. *)
Definition logged buffer size (st : CheckState) (l : Compatibility * string) : Prop :=
  compatibility st = l.1 /\ reason_size st = size /\ reason st = render buffer size l.2.

Lemma report_logged buffer size k m st l :
  logged buffer size st l -> logged buffer size (report k m st) (note k m l).
Proof. intros (H1 & H2 & H3). split_and!; [done..|]. simpl. by rewrite H3, H2, append_render. Qed.

Lemma if_logged buffer size (b : bool) st st' l l' :
  logged buffer size st l -> logged buffer size st' l' ->
  logged buffer size (if b then st else st') (if b then l else l').
Proof. by destruct b. Qed.

Lemma check_errors_logged buffer size p s st l :
  logged buffer size st l -> logged buffer size (check_errors report p s st) (check_errors note p s l).
Proof. intros H. unfold check_errors. repeat (apply if_logged || apply report_logged || done). Qed.

Lemma check_warnings_logged buffer size p s st l :
  logged buffer size st l -> logged buffer size (check_warnings report p s st) (check_warnings note p s l).
Proof. intros H. unfold check_warnings. repeat (apply if_logged || apply report_logged || done). Qed.

Lemma check_compatible_log p s buffer size :
  qos_profile_check_compatible p s true buffer size =
  if negb (bool_decide (is_Some buffer)) && negb (size =? 0) then Throw RMW_RET_INVALID_ARGUMENT
  else Ok ((full_log p s).1, render buffer size (full_log p s).2).
Proof.
  unfold qos_profile_check_compatible. cbn [negb]. destruct (_ && _) eqn:E0; [done|].
  set (b0 := if _ && _ then Some ""%string else buffer).
  assert (Hb : logged buffer size (mkCheckState RMW_QOS_COMPATIBILITY_OK b0 size) (RMW_QOS_COMPATIBILITY_OK, ""%string)).
  { split_and!; [done..|]. simpl. subst b0. destruct buffer as [b|]; simpl; [|done].
    destruct (size =? 0); simpl; [done|]. by destruct (Z.to_nat (size - 1)). }
  apply (check_errors_logged _ _ p s) in Hb. unfold full_log, error_log.
  revert Hb. generalize (check_errors report p s (mkCheckState RMW_QOS_COMPATIBILITY_OK b0 size)).
  generalize (check_errors note p s (RMW_QOS_COMPATIBILITY_OK, ""%string)). intros l st Hb.
  pose proof (check_warnings_logged buffer size p s _ _ Hb) as Hw.
  destruct Hb as (H1 & _ & H3), Hw as (H4 & _ & H5). cbv zeta. rewrite H1.
  destruct (bool_decide (l.1 = _)); congruence.
Qed.

(** *** Errors *)

(** The state before the first report at a level, and the states after one. *)
Definition reported (k : Compatibility) (st : Compatibility * string) (found : bool) : Prop :=
  if found then st.1 = k /\ st.2 <> ""%string
  else st = (RMW_QOS_COMPATIBILITY_OK, ""%string).

Lemma note_reported k st found (b : bool) a m :
  reported k st found -> reported k (if b then note k (String a m) st else st) (found || b).
Proof.
  intros H. destruct b; [|by rewrite orb_false_r]. rewrite orb_true_r. split; [done|].
  destruct st as [c t]. simpl. by destruct t.
Qed.

Lemma if_if {A} (a b : bool) (x y : A) : (if a then if b then x else y else y) = if a && b then x else y.
Proof. by destruct a, b. Qed.

Definition periods_mismatch (p s : RmwTime) : bool :=
  bool_decide (p = RMW_DURATION_UNSPECIFIED) && negb (bool_decide (s = RMW_DURATION_UNSPECIFIED)) ||
  negb (bool_decide (p = RMW_DURATION_UNSPECIFIED)) && negb (bool_decide (s = RMW_DURATION_UNSPECIFIED)) &&
  rmw_time_ltb s p.

Lemma periods_mismatch_false p s : periods_mismatch p s = false <-> period_matches p s.
Proof.
  unfold periods_mismatch, period_matches, period.
  destruct (bool_decide (p = _)), (bool_decide (s = _)); simpl; done.
Qed.

Lemma bool_decide_and_false (P Q : Prop) `{Decision P, Decision Q} :
  bool_decide P && bool_decide Q = false <-> ~ (P /\ Q).
Proof. repeat case_bool_decide; naive_solver. Qed.

Definition has_errors (p s : QosProfile) : bool :=
  bool_decide (reliability p = RMW_QOS_POLICY_RELIABILITY_BEST_EFFORT) &&
  bool_decide (reliability s = RMW_QOS_POLICY_RELIABILITY_RELIABLE) ||
  bool_decide (durability p = RMW_QOS_POLICY_DURABILITY_VOLATILE) &&
  bool_decide (durability s = RMW_QOS_POLICY_DURABILITY_TRANSIENT_LOCAL) ||
  periods_mismatch (deadline p) (deadline s) ||
  bool_decide (liveliness p = RMW_QOS_POLICY_LIVELINESS_AUTOMATIC) &&
  bool_decide (liveliness s = RMW_QOS_POLICY_LIVELINESS_MANUAL_BY_TOPIC) ||
  periods_mismatch (liveliness_lease_duration p) (liveliness_lease_duration s).

Lemma has_errors_false p s : has_errors p s = false <-> profiles_match p s.
Proof.
  unfold has_errors. rewrite !orb_false_iff, !bool_decide_and_false, !periods_mismatch_false.
  split; [intros ((((? & ?) & ?) & ?) & ?); by split|intros []; done].
Qed.

Lemma error_log_found p s : reported RMW_QOS_COMPATIBILITY_ERROR (error_log p s) (has_errors p s).
Proof.
  unfold error_log, check_errors. rewrite !if_if. cbv zeta.
  assert (H : reported RMW_QOS_COMPATIBILITY_ERROR (RMW_QOS_COMPATIBILITY_OK, ""%string) false) by done.
  do 7 (eapply note_reported in H). unfold has_errors, periods_mismatch. rewrite !orb_assoc.
  apply H.
Qed.

(** *** Warnings *)

Definition may_mismatch (pub_unknown pub_weak sub_unknown sub_strong : bool) : bool :=
  pub_unknown && sub_unknown || pub_unknown && sub_strong || pub_weak && sub_unknown.

Lemma note_reported_3 k st found (b1 b2 b3 : bool) a1 m1 a2 m2 a3 m3 :
  reported k st found ->
  reported k (if b1 then note k (String a1 m1) st else if b2 then note k (String a2 m2) st
              else if b3 then note k (String a3 m3) st else st) (found || (b1 || b2 || b3)).
Proof.
  intros H. destruct b1; [apply (note_reported k st found true)|]; [done|].
  destruct b2; [apply (note_reported k st found true)|]; [done|]. by apply (note_reported k st found b3).
Qed.

Definition reliability_unknown (r : Reliability) : bool :=
  bool_decide (r = RMW_QOS_POLICY_RELIABILITY_SYSTEM_DEFAULT) || bool_decide (r = RMW_QOS_POLICY_RELIABILITY_UNKNOWN).
Definition durability_unknown (d : Durability) : bool :=
  bool_decide (d = RMW_QOS_POLICY_DURABILITY_SYSTEM_DEFAULT) || bool_decide (d = RMW_QOS_POLICY_DURABILITY_UNKNOWN).
Definition liveliness_unknown (l : Liveliness) : bool :=
  bool_decide (l = RMW_QOS_POLICY_LIVELINESS_SYSTEM_DEFAULT) || bool_decide (l = RMW_QOS_POLICY_LIVELINESS_UNKNOWN).

Definition has_warnings (p s : QosProfile) : bool :=
  may_mismatch (reliability_unknown (reliability p)) (bool_decide (reliability p = RMW_QOS_POLICY_RELIABILITY_BEST_EFFORT))
    (reliability_unknown (reliability s)) (bool_decide (reliability s = RMW_QOS_POLICY_RELIABILITY_RELIABLE)) ||
  may_mismatch (durability_unknown (durability p)) (bool_decide (durability p = RMW_QOS_POLICY_DURABILITY_VOLATILE))
    (durability_unknown (durability s)) (bool_decide (durability s = RMW_QOS_POLICY_DURABILITY_TRANSIENT_LOCAL)) ||
  may_mismatch (liveliness_unknown (liveliness p)) (bool_decide (liveliness p = RMW_QOS_POLICY_LIVELINESS_AUTOMATIC))
    (liveliness_unknown (liveliness s)) (bool_decide (liveliness s = RMW_QOS_POLICY_LIVELINESS_MANUAL_BY_TOPIC)).

Lemma warnings_found p s st :
  st = (RMW_QOS_COMPATIBILITY_OK, ""%string) ->
  reported RMW_QOS_COMPATIBILITY_WARNING (check_warnings note p s st) (has_warnings p s).
Proof.
  intros ->. assert (H : reported RMW_QOS_COMPATIBILITY_WARNING (RMW_QOS_COMPATIBILITY_OK, ""%string) false) by done.
  do 3 (eapply note_reported_3 in H). exact H.
Qed.

Ltac settle := try discriminate; intuition (discriminate || eauto).

(** Per policy: there is neither an error nor a warning exactly when all
    that the two values can turn out to be matches. *)
Lemma reliability_settled p s :
  reliability_matches p s /\
  may_mismatch (reliability_unknown p) (bool_decide (p = RMW_QOS_POLICY_RELIABILITY_BEST_EFFORT))
    (reliability_unknown s) (bool_decide (s = RMW_QOS_POLICY_RELIABILITY_RELIABLE)) = false <->
  (forall p' s', resolves_reliability p p' -> resolves_reliability s s' -> reliability_matches p' s').
Proof.
  unfold reliability_matches. split.
  - intros [H1 H2] p' s' Hp Hs [-> ->]. destruct p, s; simpl in *; settle.
  - intros H. specialize (H RMW_QOS_POLICY_RELIABILITY_BEST_EFFORT RMW_QOS_POLICY_RELIABILITY_RELIABLE).
    destruct p, s; simpl in *; settle.
Qed.

Lemma durability_settled p s :
  durability_matches p s /\
  may_mismatch (durability_unknown p) (bool_decide (p = RMW_QOS_POLICY_DURABILITY_VOLATILE))
    (durability_unknown s) (bool_decide (s = RMW_QOS_POLICY_DURABILITY_TRANSIENT_LOCAL)) = false <->
  (forall p' s', resolves_durability p p' -> resolves_durability s s' -> durability_matches p' s').
Proof.
  unfold durability_matches. split.
  - intros [H1 H2] p' s' Hp Hs [-> ->]. destruct p, s; simpl in *; settle.
  - intros H. specialize (H RMW_QOS_POLICY_DURABILITY_VOLATILE RMW_QOS_POLICY_DURABILITY_TRANSIENT_LOCAL).
    destruct p, s; simpl in *; settle.
Qed.

Lemma liveliness_settled p s :
  liveliness_matches p s /\
  may_mismatch (liveliness_unknown p) (bool_decide (p = RMW_QOS_POLICY_LIVELINESS_AUTOMATIC))
    (liveliness_unknown s) (bool_decide (s = RMW_QOS_POLICY_LIVELINESS_MANUAL_BY_TOPIC)) = false <->
  (forall p' s', resolves_liveliness p p' -> resolves_liveliness s s' -> liveliness_matches p' s').
Proof.
  unfold liveliness_matches. split.
  - intros [H1 H2] p' s' Hp Hs [-> ->]. destruct p, s; simpl in *; settle.
  - intros H. specialize (H RMW_QOS_POLICY_LIVELINESS_AUTOMATIC RMW_QOS_POLICY_LIVELINESS_MANUAL_BY_TOPIC).
    destruct p, s; simpl in *; settle.
Qed.

Lemma resolves_some q : exists q', resolves q q'.
Proof.
  assert (Hr : exists r, resolves_reliability (reliability q) r) by (destruct (reliability q); simpl; eauto).
  assert (Hd : exists d, resolves_durability (durability q) d) by (destruct (durability q); simpl; eauto).
  assert (Hl : exists l, resolves_liveliness (liveliness q) l) by (destruct (liveliness q); simpl; eauto).
  destruct Hr as [r Hr], Hd as [d Hd], Hl as [l Hl].
  exists (set_liveliness (set_durability (set_reliability q r) d) l). by split.
Qed.

Lemma settled p s :
  has_errors p s || has_warnings p s = false <->
  (forall p' s', resolves p p' -> resolves s s' -> profiles_match p' s').
Proof.
  rewrite orb_false_iff, has_errors_false. unfold has_warnings. rewrite !orb_false_iff. split.
  - intros [[Hr Hd Ht Hl Hs] [[Wr Wd] Wl]] p' s' [] []. split.
    + by eapply (proj1 (reliability_settled _ _)).
    + by eapply (proj1 (durability_settled _ _)).
    + congruence.
    + by eapply (proj1 (liveliness_settled _ _)).
    + congruence.
  - intros H. destruct (resolves_some p) as [p0 Hp], (resolves_some s) as [s0 Hs].
    pose proof (H _ _ Hp Hs) as [_ _ Ht _ Ht']. destruct Hp as [P1 P2 P3 P4 P5], Hs as [S1 S2 S3 S4 S5].
    rewrite P4, S4 in Ht. rewrite P5, S5 in Ht'.
    assert (Hr := proj2 (reliability_settled (reliability p) (reliability s))).
    assert (Hd := proj2 (durability_settled (durability p) (durability s))).
    assert (Hl := proj2 (liveliness_settled (liveliness p) (liveliness s))).
    destruct Hr as [Hr1 Hr2]; [|destruct Hd as [Hd1 Hd2]; [|destruct Hl as [Hl1 Hl2]; [|by repeat split]]].
    + intros p' s' Rp Rs. apply (H (set_reliability p0 p') (set_reliability s0 s')); by split.
    + intros p' s' Rp Rs. apply (H (set_durability p0 p') (set_durability s0 s')); by split.
    + intros p' s' Rp Rs. apply (H (set_liveliness p0 p') (set_liveliness s0 s')); by split.
Qed.

(** C27: the compatibility check is exact.  The answer is ERROR exactly when
    the publisher offers less than the subscription requests in some policy,
    where a default duration counts as infinite; it is OK exactly when the
    two match whatever the policies turn out to be that are unknown or left
    to the system; it is WARNING otherwise.  There is a text that is empty
    exactly for OK, and the buffer receives as much of its beginning as fits
    before the terminator.  A null buffer of non-zero size is refused. *)
Theorem qos_check_compatible_exact p s :
  exists c text,
    (c = RMW_QOS_COMPATIBILITY_ERROR <-> ~ profiles_match p s) /\
    (c = RMW_QOS_COMPATIBILITY_OK <-> forall p' s', resolves p p' -> resolves s s' -> profiles_match p' s') /\
    (text = ""%string <-> c = RMW_QOS_COMPATIBILITY_OK) /\
    forall buffer size,
      qos_profile_check_compatible p s true buffer size =
      match buffer with
      | None => if size =? 0 then Ok (c, None) else Throw RMW_RET_INVALID_ARGUMENT
      | Some b => Ok (c, Some (if size =? 0 then b else substring 0 (Z.to_nat (size - 1)) text))
      end.
Proof.
  exists (full_log p s).1, (full_log p s).2. unfold full_log.
  rewrite <- settled, <- has_errors_false. pose proof (error_log_found p s) as He.
  pose proof (warnings_found p s (error_log p s)) as Hw.
  assert (Hrest : forall buffer size, qos_profile_check_compatible p s true buffer size =
    match buffer with
    | None => if size =? 0 then Ok ((full_log p s).1, None) else Throw RMW_RET_INVALID_ARGUMENT
    | Some b => Ok ((full_log p s).1, Some (if size =? 0 then b else substring 0 (Z.to_nat (size - 1)) (full_log p s).2))
    end).
  { intros [b|] size; rewrite check_compatible_log; simpl; [done|]. by destruct (size =? 0). }
  unfold full_log in Hrest. destruct (has_errors p s); simpl in He.
  - destruct He as [He1 He2]. rewrite He1 in *. simpl in *. rewrite He1 in *. naive_solver.
  - specialize (Hw He). rewrite He in *. simpl in *.
    destruct (has_warnings p s); simpl in Hw; [|rewrite Hw in *; simpl in *; naive_solver].
    destruct Hw as [Hw1 Hw2]. rewrite Hw1 in *. naive_solver.
Qed.

(** ** Best available profiles *)

Lemma rmw_time_ltb_true a b :
  rmw_time_ltb a b = true <-> rmw_sec a < rmw_sec b \/ rmw_sec a = rmw_sec b /\ rmw_nsec a < rmw_nsec b.
Proof. unfold rmw_time_ltb. split_ifs; bool_to_prop; try apply andb_false_iff in E0; naive_solver lia. Qed.

Lemma rmw_time_ltb_false a b :
  rmw_time_ltb a b = false <-> rmw_sec b < rmw_sec a \/ rmw_sec a = rmw_sec b /\ rmw_nsec b <= rmw_nsec a.
Proof.
  pose proof (rmw_time_ltb_true a b) as H. destruct (rmw_time_ltb a b).
  - split; [done|]. destruct H as [H _]. specialize (H eq_refl). lia.
  - split; [intros _|done]. destruct H as [_ H].
    destruct (Z.lt_trichotomy (rmw_sec a) (rmw_sec b)) as [?|[?|?]]; [|destruct (Z.lt_ge_cases (rmw_nsec a) (rmw_nsec b))|]; try (left; lia); try (right; lia);
    exfalso; discriminate H; lia.
Qed.

Ltac rmw_order :=
  repeat match goal with
  | H : rmw_time_ltb _ _ = true |- _ => apply rmw_time_ltb_true in H
  | H : rmw_time_ltb _ _ = false |- _ => apply rmw_time_ltb_false in H
  | |- rmw_time_ltb _ _ = true => apply rmw_time_ltb_true
  | |- rmw_time_ltb _ _ = false => apply rmw_time_ltb_false
  end; simpl in *; lia.

(** The smallest of the durations that are not default, and infinity. *)
Record smallest_of (ts : list RmwTime) (all_default : bool) (m : RmwTime) : Prop := {
  smallest_default : all_default = true <-> Forall (fun t => t = RMW_DURATION_UNSPECIFIED) ts;
  smallest_bound : forall t, t ∈ ts -> t <> RMW_DURATION_UNSPECIFIED -> rmw_time_ltb t m = false;
  smallest_infinite : rmw_time_ltb RMW_DURATION_INFINITE m = false;
  smallest_in : m = RMW_DURATION_INFINITE \/ m ∈ ts /\ m <> RMW_DURATION_UNSPECIFIED;
}.

Lemma smallest_nil : smallest_of [] true RMW_DURATION_INFINITE.
Proof. split; [by split|set_solver|done|by left]. Qed.

Lemma default_snoc ts all_default t :
  (all_default = true <-> Forall (fun t => t = RMW_DURATION_UNSPECIFIED) ts) ->
  (if negb (bool_decide (t = RMW_DURATION_UNSPECIFIED)) then false else all_default) = true <->
  Forall (fun t => t = RMW_DURATION_UNSPECIFIED) (ts ++ [t]).
Proof.
  intros H. rewrite Forall_app, Forall_singleton, <- H. case_bool_decide; naive_solver.
Qed.

Lemma smallest_snoc ts d m t :
  smallest_of ts d m ->
  smallest_of (ts ++ [t]) (if negb (bool_decide (t = RMW_DURATION_UNSPECIFIED)) then false else d)
    (if negb (bool_decide (t = RMW_DURATION_UNSPECIFIED)) && rmw_time_ltb t m then t else m).
Proof.
  intros [Hd Hb Hi Hin]. split; [by apply default_snoc|..].
  - intros u [Hu|Hu%list_elem_of_singleton]%elem_of_app Hne.
    + specialize (Hb u Hu Hne). destruct (_ && _) eqn:E; bool_to_prop; [rmw_order|done].
    + subst u. rewrite bool_decide_false by done. simpl. destruct (rmw_time_ltb t m) eqn:E; rmw_order.
  - destruct (_ && _) eqn:E; bool_to_prop; [rmw_order|done].
  - destruct (_ && _) eqn:E; bool_to_prop.
    + right. apply bool_decide_eq_false in H. set_solver.
    + destruct Hin as [->|[]]; [by left|right; set_solver].
Qed.

(** The largest of the durations that are not default. *)
Record largest_of (ts : list RmwTime) (all_default : bool) (m : RmwTime) : Prop := {
  largest_default : all_default = true <-> Forall (fun t => t = RMW_DURATION_UNSPECIFIED) ts;
  largest_bound : forall t, t ∈ ts -> t <> RMW_DURATION_UNSPECIFIED -> rmw_time_ltb m t = false;
  largest_in : m = RMW_DURATION_UNSPECIFIED /\ Forall (fun t => t = RMW_DURATION_UNSPECIFIED) ts \/
               m ∈ ts /\ m <> RMW_DURATION_UNSPECIFIED;
}.

Definition is_rmw_time (t : RmwTime) : Prop := in_u 64 (rmw_sec t) /\ in_u 64 (rmw_nsec t).

Lemma largest_nil : largest_of [] true RMW_DURATION_UNSPECIFIED.
Proof. split; [by split|set_solver|by left]. Qed.

Lemma unspecified_least t : is_rmw_time t -> t <> RMW_DURATION_UNSPECIFIED -> rmw_time_ltb RMW_DURATION_UNSPECIFIED t = true.
Proof.
  destruct t as [a b]. intros [[Ha _] [Hb _]] Hne. simpl in *. apply rmw_time_ltb_true. simpl.
  destruct (decide (a = 0)) as [->|]; [|lia]. destruct (decide (b = 0)) as [->|]; [done|lia].
Qed.

Lemma largest_snoc ts d m t :
  is_rmw_time t ->
  largest_of ts d m ->
  largest_of (ts ++ [t]) (if negb (bool_decide (t = RMW_DURATION_UNSPECIFIED)) then false else d)
    (if negb (bool_decide (t = RMW_DURATION_UNSPECIFIED)) && rmw_time_ltb m t then t else m).
Proof.
  intros Ht [Hd Hb Hin]. split; [by apply default_snoc|..].
  - intros u [Hu|Hu%list_elem_of_singleton]%elem_of_app Hne.
    + specialize (Hb u Hu Hne). destruct (_ && _) eqn:E; bool_to_prop; [rmw_order|done].
    + subst u. rewrite bool_decide_false by done. simpl. destruct (rmw_time_ltb m t) eqn:E; rmw_order.
  - case_bool_decide as Hne; simpl.
    + subst t. destruct Hin as [[-> ?]|[]]; [left|right; set_solver]. split; [done|]. apply Forall_app. by repeat constructor.
    + destruct (rmw_time_ltb m t) eqn:E; [right; set_solver|]. right.
      destruct Hin as [[-> ?]|[]]; [|set_solver]. by rewrite unspecified_least in E.
Qed.

Lemma sub_summary_snoc l s : sub_summary (l ++ [s]) = sub_summary_step (sub_summary l) s.
Proof. unfold sub_summary. by rewrite fold_left_app. Qed.

Lemma pub_summary_snoc l p : pub_summary (l ++ [p]) = pub_summary_step (pub_summary l) p.
Proof. unfold pub_summary. by rewrite fold_left_app. Qed.

Lemma sub_summary_spec l :
  (use_manual_by_topic (sub_summary l) = true <->
     Exists (fun s => liveliness s = RMW_QOS_POLICY_LIVELINESS_MANUAL_BY_TOPIC) l) /\
  smallest_of (map deadline l) (sub_default_deadline (sub_summary l)) (smallest_deadline (sub_summary l)) /\
  smallest_of (map liveliness_lease_duration l) (sub_default_lease (sub_summary l))
    (smallest_liveliness_lease_duration (sub_summary l)).
Proof.
  induction l as [|s l IH] using rev_ind.
  - split_and!; [|apply smallest_nil..]. split; [done|]. by intros H%Exists_nil.
  - destruct IH as (IH1 & IH2 & IH3). rewrite sub_summary_snoc, !map_app. simpl.
    split_and!; [|by apply smallest_snoc..]. rewrite Exists_app, Exists_cons, Exists_nil, <- IH1.
    case_bool_decide; naive_solver.
Qed.

Lemma count_if_snoc {A} (P : A -> Prop) b n l x :
  (n <= length l)%nat -> (n = length l <-> Forall P l) -> (b = true <-> P x) ->
  (count_if b n <= length (l ++ [x]))%nat /\ (count_if b n = length (l ++ [x]) <-> Forall P (l ++ [x])).
Proof.
  intros Hle Hn Hb. rewrite length_app, Forall_app, Forall_singleton, <- Hb. simpl.
  destruct b; simpl; split; try lia; split; intros H; try lia; naive_solver lia.
Qed.

Definition all_reliable (l : list QosProfile) : Prop :=
  Forall (fun p => reliability p = RMW_QOS_POLICY_RELIABILITY_RELIABLE) l.
Definition all_transient_local (l : list QosProfile) : Prop :=
  Forall (fun p => durability p = RMW_QOS_POLICY_DURABILITY_TRANSIENT_LOCAL) l.
Definition all_manual_by_topic (l : list QosProfile) : Prop :=
  Forall (fun p => liveliness p = RMW_QOS_POLICY_LIVELINESS_MANUAL_BY_TOPIC) l.

Definition is_profile (q : QosProfile) : Prop := is_rmw_time (deadline q) /\ is_rmw_time (liveliness_lease_duration q).

Lemma pub_counts l :
  let c := pub_summary l in
  ((number_of_reliable c <= length l)%nat /\ (number_of_reliable c = length l <-> all_reliable l)) /\
  ((number_of_transient_local c <= length l)%nat /\ (number_of_transient_local c = length l <-> all_transient_local l)) /\
  ((number_of_manual_by_topic c <= length l)%nat /\ (number_of_manual_by_topic c = length l <-> all_manual_by_topic l)).
Proof.
  induction l as [|p l IH] using rev_ind.
  - cbn. unfold all_reliable, all_transient_local, all_manual_by_topic. by rewrite !Forall_nil.
  - cbv zeta in *. rewrite pub_summary_snoc. destruct IH as ([] & [] & []).
    split; [|split]; apply count_if_snoc; try done; rewrite bool_decide_eq_true; split; congruence.
Qed.

Lemma pub_periods l :
  Forall is_profile l ->
  largest_of (map deadline l) (use_default_deadline (pub_summary l)) (largest_deadline (pub_summary l)) /\
  largest_of (map liveliness_lease_duration l) (use_default_liveliness_lease_duration (pub_summary l))
    (largest_liveliness_lease_duration (pub_summary l)).
Proof.
  induction l as [|p l IH] using rev_ind; intros Hl.
  - split; apply largest_nil.
  - apply Forall_app in Hl as [Hl [[] _]%Forall_cons]. destruct (IH Hl). rewrite pub_summary_snoc, !map_app. simpl.
    split; by apply largest_snoc.
Qed.

(** Every policy is left to the choice of the middleware. *)
Record all_best_available (q : QosProfile) : Prop := {
  ba_reliability : reliability q = RMW_QOS_POLICY_RELIABILITY_BEST_AVAILABLE;
  ba_durability : durability q = RMW_QOS_POLICY_DURABILITY_BEST_AVAILABLE;
  ba_liveliness : liveliness q = RMW_QOS_POLICY_LIVELINESS_BEST_AVAILABLE;
  ba_deadline : deadline q = deadline_best_available;
  ba_lease : liveliness_lease_duration q = liveliness_lease_duration_best_available;
}.

Lemma period_some t : t <> RMW_DURATION_UNSPECIFIED -> period t = Some t.
Proof. intros H. unfold period. by rewrite bool_decide_false. Qed.

(** The chosen period of a publisher: it matches all the others, and is the
    longest that does, up to infinity. *)
Definition chosen_smallest (all_default : bool) (m : RmwTime) : RmwTime :=
  if all_default then RMW_DURATION_UNSPECIFIED else m.

Lemma chosen_smallest_matches ts d m :
  smallest_of ts d m ->
  (forall t, t ∈ ts -> period_matches (chosen_smallest d m) t) /\
  (forall u, rmw_time_ltb RMW_DURATION_INFINITE u = false ->
     (forall t, t ∈ ts -> period_matches u t) -> period_matches u (chosen_smallest d m)).
Proof.
  intros [Hd Hb Hi Hin]. unfold chosen_smallest, period_matches. split.
  - intros t Ht. destruct (decide (t = RMW_DURATION_UNSPECIFIED)) as [->|Hne]; [by destruct (period _)|].
    rewrite (period_some t) by done. destruct d.
    + destruct Hd as [Hd _]. specialize (Hd eq_refl). rewrite Forall_forall in Hd. by apply Hd in Ht.
    + rewrite period_some; [by apply Hb|]. by destruct Hin as [->|[]].
  - intros u Hu Hall. destruct d; [by destruct (period u)|].
    destruct Hin as [->|[Hin Hne]]; [|by apply Hall in Hin].
    rewrite (period_some RMW_DURATION_INFINITE) by done.
    destruct (decide (u = RMW_DURATION_UNSPECIFIED)) as [->|Hne].
    + assert (~ Forall (fun t => t = RMW_DURATION_UNSPECIFIED) ts) as Hex by (intros H; apply Hd in H; done).
      apply not_Forall_Exists in Hex; [|apply _]. apply Exists_exists in Hex as (t & Ht & Hne).
      specialize (Hall t Ht). by rewrite (period_some t) in Hall by done.
    + rewrite period_some by done. done.
Qed.

Lemma check_error p s :
  qos_profile_check_compatible p s true None 0 = Ok (RMW_QOS_COMPATIBILITY_ERROR, None) <-> ~ profiles_match p s.
Proof.
  rewrite check_compatible_log, <- has_errors_false. simpl. unfold full_log.
  pose proof (error_log_found p s) as He. pose proof (warnings_found p s (error_log p s)) as Hw.
  destruct (has_errors p s); simpl in He.
  - destruct He as [He _]. rewrite He. simpl. rewrite He. naive_solver.
  - specialize (Hw He). rewrite He in *. simpl. split; [|done].
    destruct (has_warnings p s); simpl in Hw; [destruct Hw as [-> _]|rewrite Hw]; done.
Qed.

Definition largest_dominates (ts : list RmwTime) (u : RmwTime) : Prop :=
  forall t, t ∈ ts -> t <> RMW_DURATION_UNSPECIFIED -> period_matches t u.

(** The chosen period of a subscription: the publishers that have one all
    match it, and it is the shortest such; the others match it only if none
    has one. *)
Lemma chosen_largest_matches ts d m t :
  largest_of ts d m -> t ∈ ts ->
  (period_matches t (if d then RMW_DURATION_UNSPECIFIED else m) <->
   (t = RMW_DURATION_UNSPECIFIED -> Forall (fun t => t = RMW_DURATION_UNSPECIFIED) ts)).
Proof.
  intros [Hd Hb Hin] Ht. unfold period_matches. destruct d.
  - split; [|by destruct (period t)]. intros _ _. by apply Hd.
  - assert (Hne : m <> RMW_DURATION_UNSPECIFIED).
    { destruct Hin as [[_ H]|[]]; [|done]. by apply Hd in H. }
    rewrite (period_some m) by done. destruct (decide (t = RMW_DURATION_UNSPECIFIED)) as [->|Hnt].
    + simpl. split; [done|]. intros H. specialize (H eq_refl). by apply Hd in H.
    + rewrite (period_some t) by done. split; [done|]. intros _. by apply Hb.
Qed.

Lemma chosen_largest_least ts d m u :
  largest_of ts d m -> largest_dominates ts u -> d = false -> period_matches m u.
Proof.
  intros [Hd Hb Hin] Hu ->. destruct Hin as [[_ H]|[Hin Hne]]; [by apply Hd in H|by apply Hu].
Qed.

Lemma best_for_publisher_fields subscriptions q :
  all_best_available q ->
  let c := sub_summary subscriptions in
  best_for_publisher subscriptions q =
    mkQosProfile (history q) (depth q) RMW_QOS_POLICY_RELIABILITY_RELIABLE RMW_QOS_POLICY_DURABILITY_TRANSIENT_LOCAL
      (chosen_smallest (sub_default_deadline c) (smallest_deadline c)) (lifespan q)
      (if use_manual_by_topic c then RMW_QOS_POLICY_LIVELINESS_MANUAL_BY_TOPIC else RMW_QOS_POLICY_LIVELINESS_AUTOMATIC)
      (chosen_smallest (sub_default_lease c) (smallest_liveliness_lease_duration c)) (avoid_ros_namespace_conventions q).
Proof.
  intros [H1 H2 H3 H4 H5]. destruct q; cbn in *; subst. reflexivity.
Qed.

Lemma best_for_subscription_fields publishers q :
  all_best_available q ->
  let c := pub_summary publishers in
  let size := length publishers in
  best_for_subscription publishers q =
    mkQosProfile (history q) (depth q)
      (if (number_of_reliable c =? size)%nat then RMW_QOS_POLICY_RELIABILITY_RELIABLE else RMW_QOS_POLICY_RELIABILITY_BEST_EFFORT)
      (if (number_of_transient_local c =? size)%nat then RMW_QOS_POLICY_DURABILITY_TRANSIENT_LOCAL else RMW_QOS_POLICY_DURABILITY_VOLATILE)
      (if use_default_deadline c then deadline_default else largest_deadline c) (lifespan q)
      (if (number_of_manual_by_topic c =? size)%nat then RMW_QOS_POLICY_LIVELINESS_MANUAL_BY_TOPIC else RMW_QOS_POLICY_LIVELINESS_AUTOMATIC)
      (if use_default_liveliness_lease_duration c then liveliness_lease_duration_default else largest_liveliness_lease_duration c)
      (avoid_ros_namespace_conventions q).
Proof.
  intros [H1 H2 H3 H4 H5]. destruct q; cbn in *; subst. reflexivity.
Qed.

(** a publisher whose policies are all BEST_AVAILABLE gets a profile that
    the check finds in error with none of the given subscriptions, and the
    best such: its liveliness is manual only if a subscription requests
    that, and its deadline and lease are the longest, up to infinity, that
    match every subscription. *)
Theorem best_available_publisher_matches subscriptions q :
  all_best_available q ->
  exists q', qos_profile_get_best_available_for_publisher (Some subscriptions) (Some q) = Ok q' /\
    (forall s, s ∈ subscriptions ->
       qos_profile_check_compatible q' s true None 0 <> Ok (RMW_QOS_COMPATIBILITY_ERROR, None)) /\
    reliability q' = RMW_QOS_POLICY_RELIABILITY_RELIABLE /\
    durability q' = RMW_QOS_POLICY_DURABILITY_TRANSIENT_LOCAL /\
    (liveliness q' = RMW_QOS_POLICY_LIVELINESS_MANUAL_BY_TOPIC <->
       exists s, s ∈ subscriptions /\ liveliness s = RMW_QOS_POLICY_LIVELINESS_MANUAL_BY_TOPIC) /\
    (forall u, rmw_time_ltb RMW_DURATION_INFINITE u = false ->
       (forall s, s ∈ subscriptions -> period_matches u (deadline s)) -> period_matches u (deadline q')) /\
    (forall u, rmw_time_ltb RMW_DURATION_INFINITE u = false ->
       (forall s, s ∈ subscriptions -> period_matches u (liveliness_lease_duration s)) ->
       period_matches u (liveliness_lease_duration q')).
Proof.
  intros Hq. exists (best_for_publisher subscriptions q). split; [done|]. rewrite best_for_publisher_fields by done.
  destruct (sub_summary_spec subscriptions) as (Hl & Hd & Hs). revert Hl Hd Hs.
  destruct (sub_summary subscriptions) as [manual dd sd dl sl]. cbn [use_manual_by_topic
    sub_default_deadline smallest_deadline sub_default_lease smallest_liveliness_lease_duration].
  intros Hl Hd Hs. apply chosen_smallest_matches in Hd as [Hd1 Hd2], Hs as [Hs1 Hs2].
  rewrite Exists_exists in Hl. split_and!; cbn; try done.
  - intros s Hs E. apply check_error in E. apply E.
    split; cbn; [by intros []|by intros []|by apply Hd1, list_elem_of_fmap_2| |by apply Hs1, list_elem_of_fmap_2].
    intros [Hm Hs']. destruct manual; [done|]. destruct Hl as [_ Hl]. by discriminate Hl; eauto.
  - rewrite <- Hl. by destruct manual.
  - intros u Hu Hall. apply Hd2; [done|]. intros t (s & -> & Hin)%list_elem_of_fmap. by apply Hall.
  - intros u Hu Hall. apply Hs2; [done|]. intros t (s & -> & Hin)%list_elem_of_fmap. by apply Hall.
Qed.

Definition lacks_period (get : QosProfile -> RmwTime) (publishers : list QosProfile) (p : QosProfile) : Prop :=
  get p = RMW_DURATION_UNSPECIFIED /\ Exists (fun p' => get p' <> RMW_DURATION_UNSPECIFIED) publishers.

#[export] Instance lacks_period_dec get publishers p : Decision (lacks_period get publishers p).
Proof. unfold lacks_period. apply _. Defined.

Lemma chosen_largest_lacks get publishers d m p :
  largest_of (map get publishers) d m -> p ∈ publishers ->
  period_matches (get p) (if d then RMW_DURATION_UNSPECIFIED else m) <-> ~ lacks_period get publishers p.
Proof.
  intros Hm Hp. rewrite (chosen_largest_matches _ _ _ _ Hm) by by apply list_elem_of_fmap_2.
  unfold lacks_period. split.
  - intros H [Hp' (p' & Hin & Hne)%Exists_exists]. specialize (H Hp'). rewrite Forall_forall in H.
    by apply Hne, H, list_elem_of_fmap_2.
  - intros H Hp'. apply Forall_forall. intros t (p' & -> & Hin)%list_elem_of_fmap.
    destruct (decide (get p' = RMW_DURATION_UNSPECIFIED)); [done|]. destruct H. split; [done|]. apply Exists_exists. eauto.
Qed.

Lemma chosen_largest_shortest (get : QosProfile -> RmwTime) publishers d m u :
  largest_of (map get publishers) d m ->
  (exists p, p ∈ publishers /\ get p <> RMW_DURATION_UNSPECIFIED) ->
  (forall p, p ∈ publishers -> get p <> RMW_DURATION_UNSPECIFIED -> period_matches (get p) u) ->
  period_matches (if d then RMW_DURATION_UNSPECIFIED else m) u.
Proof.
  intros Hm (p & Hp & Hne) Hu. assert (d = false) as ->.
  { destruct d; [|done]. pose proof (proj1 (largest_default _ _ _ Hm) eq_refl) as H. rewrite Forall_forall in H.
    destruct Hne. by apply H, list_elem_of_fmap_2. }
  eapply chosen_largest_least; [done| |done]. intros t (p' & -> & Hin)%list_elem_of_fmap. auto.
Qed.

(** a subscription whose policies are all BEST_AVAILABLE gets a profile
    that the check finds in error with a given publisher exactly when that
    publisher has no deadline (or lease) while another one does; otherwise
    it matches every publisher.  It is reliable, transient local and manual
    by topic exactly when all publishers are, and its deadline and lease are
    the shortest that match every publisher that has one. *)
Theorem best_available_subscription_exact publishers q :
  Forall is_profile publishers -> all_best_available q ->
  exists q', qos_profile_get_best_available_for_subscription (Some publishers) (Some q) = Ok q' /\
    (forall p, p ∈ publishers ->
       qos_profile_check_compatible p q' true None 0 = Ok (RMW_QOS_COMPATIBILITY_ERROR, None) <->
       lacks_period deadline publishers p \/ lacks_period liveliness_lease_duration publishers p) /\
    (reliability q' = RMW_QOS_POLICY_RELIABILITY_RELIABLE <-> all_reliable publishers) /\
    (durability q' = RMW_QOS_POLICY_DURABILITY_TRANSIENT_LOCAL <-> all_transient_local publishers) /\
    (liveliness q' = RMW_QOS_POLICY_LIVELINESS_MANUAL_BY_TOPIC <-> all_manual_by_topic publishers) /\
    (forall u, (exists p, p ∈ publishers /\ deadline p <> RMW_DURATION_UNSPECIFIED) ->
       (forall p, p ∈ publishers -> deadline p <> RMW_DURATION_UNSPECIFIED -> period_matches (deadline p) u) ->
       period_matches (deadline q') u) /\
    (forall u, (exists p, p ∈ publishers /\ liveliness_lease_duration p <> RMW_DURATION_UNSPECIFIED) ->
       (forall p, p ∈ publishers -> liveliness_lease_duration p <> RMW_DURATION_UNSPECIFIED ->
          period_matches (liveliness_lease_duration p) u) ->
       period_matches (liveliness_lease_duration q') u).
Proof.
  intros Hp Hq. exists (best_for_subscription publishers q). split; [done|]. rewrite best_for_subscription_fields by done.
  destruct (pub_counts publishers) as ((_ & Hr) & (_ & Hd) & (_ & Hl)).
  destruct (pub_periods publishers Hp) as [Ht Hs]. revert Hr Hd Hl Ht Hs.
  destruct (pub_summary publishers) as [nr nt nm dd ld dl ll].
  cbn [number_of_reliable number_of_transient_local number_of_manual_by_topic use_default_deadline
    largest_deadline use_default_liveliness_lease_duration largest_liveliness_lease_duration].
  rewrite <- !Nat.eqb_eq. intros Hr Hd Hl Ht Hs. cbv zeta.
  split; [|split; [|split; [|split; [|split]]]];
    cbn [reliability durability liveliness deadline liveliness_lease_duration];
    [|rewrite <- Hr; destruct (nr =? _)%nat|rewrite <- Hd; destruct (nt =? _)%nat
    |rewrite <- Hl; destruct (nm =? _)%nat|intros u; by apply chosen_largest_shortest..]; try (split; congruence).
  intros p Hin. rewrite check_error.
  pose proof (chosen_largest_lacks _ _ _ _ _ Ht Hin) as H1. pose proof (chosen_largest_lacks _ _ _ _ _ Hs Hin) as H2.
  transitivity (~ (~ lacks_period deadline publishers p /\ ~ lacks_period liveliness_lease_duration publishers p));
    [|destruct (decide (lacks_period deadline publishers p)), (decide (lacks_period liveliness_lease_duration publishers p)); tauto].
  rewrite <- H1, <- H2. apply not_iff_compat. split; [by intros []|]. intros [Hm1 Hm2].
  unfold all_reliable, all_transient_local, all_manual_by_topic in *. rewrite !Forall_forall in *.
  split; cbn; [intros [E1 E2]|intros [E1 E2]|done|intros [E1 E2]|done].
  - destruct (nr =? _)%nat; [|done]. by rewrite (proj1 Hr eq_refl p Hin) in E1.
  - destruct (nt =? _)%nat; [|done]. by rewrite (proj1 Hd eq_refl p Hin) in E1.
  - destruct (nm =? _)%nat; [|done]. by rewrite (proj1 Hl eq_refl p Hin) in E1.
Qed.

(** ** Durations for DDS *)

Definition total_nsec (t : RmwTime) : Z := rmw_sec t * 1000000000 + rmw_nsec t.
Definition dds_max : Z := INT_MAX * 1000000000 + 999999999.

(** The duration given to DDS is normalised, fits its signed 32-bit
    seconds, and is exactly the smaller of the requested duration and the
    longest one that DDS can express. *)
Theorem clamp_rmw_time_exact t :
  is_rmw_time t ->
  let t' := clamp_rmw_time_to_dds_time t in
  0 <= rmw_sec t' <= INT_MAX /\ 0 <= rmw_nsec t' < 1000000000 /\
  total_nsec t' = Z.min (total_nsec t) dds_max.
Proof.
  destruct t as [s n]. intros [[Hs1 Hs2] [Hn1 Hn2]]. cbn [rmw_sec rmw_nsec] in *.
  unfold clamp_rmw_time_to_dds_time, total_nsec, dds_max, INT_MAX. cbn [rmw_sec rmw_nsec]. cbv zeta.
  pose proof (Z.div_mod n 1000000000 ltac:(lia)) as Hn. pose proof (Z.mod_pos_bound n 1000000000 ltac:(lia)) as Hm.
  set (q := n / 1000000000) in *. set (r := n mod 1000000000) in *.
  destruct (2 ^ 31 - 1 <? q) eqn:E1; bool_to_prop.
  - rewrite orb_true_l. cbn [rmw_sec rmw_nsec]. rewrite (wrap_u_id 64 (2 ^ 31 - 1 - _)) by (unfold in_u; lia).
    destruct (2 ^ 31 - 1 - (2 ^ 31 - 1) <? s) eqn:E2; bool_to_prop; [lia|].
    rewrite wrap_u_id by (unfold in_u; lia). lia.
  - assert (0 <= q) by (apply Z.div_pos; lia). rewrite orb_false_l, (wrap_u_id 64 (2 ^ 31 - 1 - q)) by (unfold in_u; lia).
    destruct (2 ^ 31 - 1 - q <? s) eqn:E2; bool_to_prop; cbn [rmw_sec rmw_nsec]; [lia|].
    rewrite !wrap_u_id; unfold in_u; try rewrite wrap_u_id; unfold in_u; lia.
Qed.

(** ** Witnesses *)

Definition any_profile : QosProfile :=
  mkQosProfile RMW_QOS_POLICY_HISTORY_KEEP_LAST 10 RMW_QOS_POLICY_RELIABILITY_BEST_AVAILABLE
    RMW_QOS_POLICY_DURABILITY_BEST_AVAILABLE deadline_best_available RMW_DURATION_UNSPECIFIED
    RMW_QOS_POLICY_LIVELINESS_BEST_AVAILABLE liveliness_lease_duration_best_available false.

Definition sample_profile (ms : Z) : QosProfile :=
  mkQosProfile RMW_QOS_POLICY_HISTORY_KEEP_LAST 10 RMW_QOS_POLICY_RELIABILITY_RELIABLE
    RMW_QOS_POLICY_DURABILITY_VOLATILE (mkRmwTime 0 (ms * 1000000)) RMW_DURATION_UNSPECIFIED
    RMW_QOS_POLICY_LIVELINESS_AUTOMATIC RMW_DURATION_UNSPECIFIED false.

Lemma any_profile_best : all_best_available any_profile.
Proof. by split. Qed.

Lemma best_available_publisher_matches_witness :
  exists q', qos_profile_get_best_available_for_publisher (Some [sample_profile 0; sample_profile 7; sample_profile 5])
               (Some any_profile) = Ok q' /\
    deadline q' = mkRmwTime 0 5000000 /\
    qos_profile_check_compatible q' (sample_profile 5) true None 0 <> Ok (RMW_QOS_COMPATIBILITY_ERROR, None).
Proof.
  destruct (best_available_publisher_matches [sample_profile 0; sample_profile 7; sample_profile 5] any_profile
    any_profile_best) as (q' & E & H & _).
  exists q'. split; [exact E|]. split; [injection E as <-; reflexivity|]. apply H. set_solver.
Defined.

(** The publisher without a deadline is left out. *)
Lemma best_available_subscription_exact_witness :
  exists q', qos_profile_get_best_available_for_subscription (Some [sample_profile 0; sample_profile 7]) (Some any_profile) = Ok q' /\
    qos_profile_check_compatible (sample_profile 0) q' true None 0 = Ok (RMW_QOS_COMPATIBILITY_ERROR, None) /\
    qos_profile_check_compatible (sample_profile 7) q' true None 0 <> Ok (RMW_QOS_COMPATIBILITY_ERROR, None).
Proof.
  destruct (best_available_subscription_exact [sample_profile 0; sample_profile 7] any_profile) as (q' & E & H & _).
  - repeat constructor; cbn; lia.
  - exact any_profile_best.
  - exists q'. split; [exact E|]. split.
    + apply H; [set_solver|]. left. split; [reflexivity|]. right. left. discriminate.
    + rewrite H by set_solver. intros [[Hd _]|[_ Hl]]; [discriminate Hd|].
      apply Exists_exists in Hl as (p & Hp & Hne). apply Hne. set_solver.
Defined.

Lemma clamp_rmw_time_exact_witness :
  total_nsec (clamp_rmw_time_to_dds_time (mkRmwTime 2147483646 2500000000)) = dds_max.
Proof.
  destruct (clamp_rmw_time_exact (mkRmwTime 2147483646 2500000000)) as (_ & _ & H).
  - split; cbn; unfold in_u; lia.
  - rewrite H. reflexivity.
Defined.
