(* ===== verification/IntraProcess.v ===== *)
(** * rclcpp intra-process communication

    [rclcpp/src/rclcpp/intra_process_manager.cpp] and
    [rclcpp/include/rclcpp/experimental/intra_process_manager.hpp], which
    deliver a message within the process, with the objects they work on:
    [subscription_intra_process_base.hpp], [subscription_intra_process_buffer.hpp],
    [subscription_intra_process.hpp], and the publications and the set-up of
    [publisher.hpp], [publisher_base.cpp] and [subscription.hpp].

    Messages, buffers, publishers and subscriptions are objects with
    addresses, which are not used again.  A [weak_ptr] is an address, [lock]
    finds the object if it is still alive; the destruction of an object is a
    step of its own.  A method may throw half way: it is a computation over
    the state ([M]) and what it did before stays done. *)

From Stdlib Require Import ZArith Lia String.
From stdpp Require Import base numbers list gmap sets fin_maps strings.
From S2P Require Import Prelude Computation RclTime Qos RingBuffer.
#[local] Open Scope Z_scope.

(** [NoObject] is the use of an object that a [shared_ptr] or a reference
    of the caller keeps alive; the callers have it. *)
Inductive ipm_error :=
| InvalidArgument_error
| OutOfScope
| NeedsBuffer
| BufferOutOfScope
| BadCast
| IdsExhausted
| QosCheckFailed
| GidCompareFailed
| ManagerDestroyed
| NullMessage
| SendFailed
| BufferFault (e : ring_error)
| NoObject.

#[export] Instance BufferType_eq_dec : EqDecision BufferType.
Proof. solve_decision. Defined.

(** [create_intra_process_buffer] made for the message type [q_data]. *)
Record Queue := mkQueue {
  q_type : BufferType;
  q_data : N;
  q_allocator : N;
  q_ring : RingBuffer (A := Ptr);
}.

(** [SubscriptionIntraProcess]: [ready_calls] are the arguments of the calls
    of [on_new_message_callback_], [triggers] counts those of
    [gc_.trigger()]. *)
Record SubscriptionIntraProcess := mkSubscription {
  sub_topic : string;
  sub_qos : QosProfile;
  sub_type : N;
  sub_ros_type : N;
  sub_allocator : N;
  sub_buffer : N;
  callback_takes_shared : bool;
  triggers : nat;
  has_callback : bool;
  unread_count_ : Z;
  ready_calls : list Z;
}.

Definition set_notices (s : SubscriptionIntraProcess) (t : nat) (c : bool) (u : Z) (calls : list Z)
    : SubscriptionIntraProcess :=
  mkSubscription (sub_topic s) (sub_qos s) (sub_type s) (sub_ros_type s) (sub_allocator s) (sub_buffer s)
    (callback_takes_shared s) t c u calls.

(** [Publisher]: [pub_types] are its [PublishedType], [ROSMessageType] and
    allocator. *)
Record PublisherObject := mkPublisher {
  pub_topic : string;
  pub_qos : QosProfile;
  pub_gid : Z;
  pub_published_type : N;
  pub_ros_type : N;
  pub_allocator : N;
  pub_buffer : option N;
  intra_process_is_enabled_ : bool;
  intra_process_publisher_id_ : Z;
}.

Record SplittedSubscriptions := mkSplit {
  take_shared_subscriptions : list Z;
  take_ownership_subscriptions : list Z;
}.

Definition no_subscriptions : SplittedSubscriptions := mkSplit [] [].

(** The code has one counter of identifiers, [_next_unique_id], for all
    managers of a process; here it belongs to a manager, as if there were no
    other: its identifiers then have no gaps. *)
Record IntraProcessManager := mkManager {
  _next_unique_id : Z;
  pub_to_subs_ : gmap Z SplittedSubscriptions;
  subscriptions_ : gmap Z N;
  publishers_ : gmap Z N;
  publisher_buffers_ : gmap Z (option N);
}.

Definition new_manager : IntraProcessManager := mkManager 1 ∅ ∅ ∅ ∅.

(** What is not code of the repository.  The conversions of [TypeAdapter] are
    the user's: whether [TypeAdapter<MessageT>] and
    [TypeAdapter<MessageT, ROSMessageType>] are specialised, their types, and
    their functions.  The order in which an [unordered_map] is walked is not
    specified; a walk happens while the identifier [id] is registered.
    [rmw_compare_gids_equal] of the middleware is [None] when it fails. *)
Class Environment (V : Type) := {
  adapter_specialized : N -> bool;
  adapter_custom_type : N -> N;
  pair_specialized : N -> N -> bool;
  pair_ros_type : N -> N -> N;
  convert_to_ros_message : N -> N -> V -> V;
  convert_to_custom : N -> N -> V -> V;
  iteration : forall (id : Z) (X : Type), gmap Z X -> list (Z * X);
  rmw_compare_gids_equal : Z -> Z -> option bool;
}.

Section Manager.
Context {V : Type} `{Environment V}.

(** [wire]: the messages given to the middleware. *)
Record Process := mkProcess {
  messages : gmap N V;
  buffers : gmap N Queue;
  subs : gmap N SubscriptionIntraProcess;
  pubs : gmap N PublisherObject;
  next_address : N;
  wire : list V;
  manager_alive : bool;
  manager : IntraProcessManager;
}.

Definition set_messages (st : Process) (h : gmap N V) (bs : gmap N Queue) : Process :=
  mkProcess h bs (subs st) (pubs st) (next_address st) (wire st) (manager_alive st) (manager st).
Definition set_subs (st : Process) (ss : gmap N SubscriptionIntraProcess) : Process :=
  mkProcess (messages st) (buffers st) ss (pubs st) (next_address st) (wire st) (manager_alive st) (manager st).
Definition set_pubs (st : Process) (ps : gmap N PublisherObject) : Process :=
  mkProcess (messages st) (buffers st) (subs st) ps (next_address st) (wire st) (manager_alive st) (manager st).
Definition set_address (st : Process) (a : N) : Process :=
  mkProcess (messages st) (buffers st) (subs st) (pubs st) a (wire st) (manager_alive st) (manager st).
Definition set_wire (st : Process) (w : list V) : Process :=
  mkProcess (messages st) (buffers st) (subs st) (pubs st) (next_address st) w (manager_alive st) (manager st).
Definition set_manager (st : Process) (m : IntraProcessManager) : Process :=
  mkProcess (messages st) (buffers st) (subs st) (pubs st) (next_address st) (wire st) (manager_alive st) m.

Definition set_next_id (m : IntraProcessManager) (n : Z) : IntraProcessManager :=
  mkManager n (pub_to_subs_ m) (subscriptions_ m) (publishers_ m) (publisher_buffers_ m).
Definition set_pub_to_subs (m : IntraProcessManager) (x : gmap Z SplittedSubscriptions) : IntraProcessManager :=
  mkManager (_next_unique_id m) x (subscriptions_ m) (publishers_ m) (publisher_buffers_ m).
Definition set_subscriptions (m : IntraProcessManager) (x : gmap Z N) : IntraProcessManager :=
  mkManager (_next_unique_id m) (pub_to_subs_ m) x (publishers_ m) (publisher_buffers_ m).
Definition set_publishers (m : IntraProcessManager) (x : gmap Z N) (b : gmap Z (option N)) : IntraProcessManager :=
  mkManager (_next_unique_id m) (pub_to_subs_ m) (subscriptions_ m) x b.

(** ** Computations *)

Notation M := (ST Process ipm_error).

Definition update_manager (f : IntraProcessManager -> IntraProcessManager) : M unit :=
  modify (fun st => set_manager st (f (manager st))).

Definition find_object {A} (field : Process -> gmap N A) (a : N) : M A := fun st =>
  match field st !! a with Some x => (Ok x, st) | None => (Throw NoObject, st) end.

(** A method of the buffer at [a]. *)
Definition on_buffer {A} (a : N) (f : IntraProcessBuffer -> Result ring_error (IntraProcessBuffer * A)) : M A :=
  fun st =>
  match buffers st !! a with
  | None => (Throw NoObject, st)
  | Some q =>
    match f (mkIntraProcessBuffer (q_type q) (q_ring q) (messages st)) with
    | Throw e => (Throw (BufferFault e), st)
    | Ok (t, x) =>
      (Ok x, set_messages st (heap t) (<[a := mkQueue (buffer_type t) (q_data q) (q_allocator q) (buffer_ t)]> (buffers st)))
    end
  end.

Definition add_to_buffer (shared : bool) (a : N) (p : Ptr) : M unit :=
  on_buffer a (fun t => let! t := (if shared then add_shared t p else add_unique t p) in Ok (t, tt)).

(** [*p], and [allocate] with [construct]. *)
Definition load (p : Ptr) : M V := fun st =>
  match p with
  | None => (Throw (BufferFault NullPointer), st)
  | Some l => match messages st !! l with Some v => (Ok v, st) | None => (Throw (BufferFault Dangling), st) end
  end.

Definition allocate_message (v : V) : M Ptr := fun st =>
  let l := fresh (dom (messages st)) in (Ok (Some l), set_messages st (<[l := v]> (messages st)) (buffers st)).

Definition copy (p : Ptr) : M Ptr := v ← load p; allocate_message v.

(** ** Subscriptions *)

Definition update_subscription (a : N) (f : SubscriptionIntraProcess -> SubscriptionIntraProcess) : M unit :=
  modify (fun st => set_subs st (alter f a (subs st))).

Definition trigger_guard_condition (a : N) : M unit :=
  update_subscription a (fun s =>
    set_notices s (S (triggers s)) (has_callback s) (unread_count_ s) (ready_calls s)).

Definition invoke_on_new_message (a : N) : M unit :=
  update_subscription a (fun s =>
    if has_callback s then set_notices s (triggers s) true (unread_count_ s) (ready_calls s ++ [1])
    else set_notices s (triggers s) false (u64 (unread_count_ s + 1)) (ready_calls s)).

(** [callable]: the callback given is not empty. *)
Definition set_on_ready_callback (a : N) (callable : bool) : M unit :=
  if negb callable then throw InvalidArgument_error else
  update_subscription a (fun s =>
    if 0 <? unread_count_ s then
      let n :=
        match history (sub_qos s) with
        | RMW_QOS_POLICY_HISTORY_KEEP_ALL => unread_count_ s
        | _ => Z.min (unread_count_ s) (depth (sub_qos s))
        end in
      set_notices s (triggers s) true 0 (ready_calls s ++ [n])
    else set_notices s (triggers s) true (unread_count_ s) (ready_calls s)).

Definition clear_on_ready_callback (a : N) : M unit :=
  update_subscription a (fun s => set_notices s (triggers s) false (unread_count_ s) (ready_calls s)).

(** [provide_intra_process_data] and [provide_intra_process_message], for a
    shared or a unique pointer. *)
Definition provide_intra_process_data (shared : bool) (a : N) (message : Ptr) : M unit :=
  s ← find_object subs a;
  add_to_buffer shared (sub_buffer s) message;;
  trigger_guard_condition a;;
  invoke_on_new_message a.

Definition provide_intra_process_message (shared : bool) (a : N) (message : Ptr) : M unit :=
  s ← find_object subs a;
  (if (sub_type s =? sub_ros_type s)%N then
     add_to_buffer shared (sub_buffer s) message;;
     trigger_guard_condition a
   else
     v ← load message;
     p ← allocate_message (convert_to_custom (sub_type s) (sub_ros_type s) v);
     add_to_buffer shared (sub_buffer s) p;;
     trigger_guard_condition a);;
  invoke_on_new_message a.

Definition buffer_has_data (b : N) : M bool := on_buffer b (fun t => Ok (t, has_data_ (RingBuffer.buffer_ t))).

Definition is_ready (a : N) : M bool := s ← find_object subs a; buffer_has_data (sub_buffer s).

Definition add_to_wait_set (a : N) : M unit :=
  b ← is_ready a;
  if b : bool then trigger_guard_condition a else mret tt.

(** The pair of a shared and a unique pointer, or null. *)
Definition take_data (a : N) : M (option (Ptr * Ptr)) :=
  s ← find_object subs a;
  let shared := callback_takes_shared s in
  p ← on_buffer (sub_buffer s) (fun t => if shared then consume_shared t else consume_unique t);
  if negb (bool_decide (is_Some p)) then mret None else
  b ← buffer_has_data (sub_buffer s);
  (if b : bool then trigger_guard_condition a else mret tt);;
  mret (Some (if shared then (p, None) else (None, p))).

Definition available_capacity (a : N) : M Z :=
  s ← find_object subs a;
  on_buffer (sub_buffer s) (fun t => Ok (t, available_capacity_ (RingBuffer.buffer_ t))).

(** [buffer_->use_take_shared_method()] *)
Definition sub_takes_shared (a : N) : M bool :=
  s ← find_object subs a;
  q ← find_object buffers (sub_buffer s);
  mret (match q_type q with SharedPtr => true | UniquePtr => false end).

Definition is_transient_local (q : QosProfile) : bool :=
  bool_decide (durability q = RMW_QOS_POLICY_DURABILITY_TRANSIENT_LOCAL).

(** ** The manager *)

Definition get_next_unique_id : M Z := fun st =>
  let next_id := _next_unique_id (manager st) in
  let st := set_manager st (set_next_id (manager st) (u64 (next_id + 1))) in
  if next_id =? 0 then (Throw IdsExhausted, st) else (Ok next_id, st).

Definition add_id (sub_id : Z) (use_take_shared_method : bool) (s : SplittedSubscriptions) : SplittedSubscriptions :=
  if use_take_shared_method
  then mkSplit (take_shared_subscriptions s ++ [sub_id]) (take_ownership_subscriptions s)
  else mkSplit (take_shared_subscriptions s) (take_ownership_subscriptions s ++ [sub_id]).

(** [pub_to_subs_[pub_id]] makes the entry if there is none. *)
Definition insert_sub_id_for_pub (sub_id pub_id : Z) (use_take_shared_method : bool) : M unit :=
  update_manager (fun m =>
    let old := default no_subscriptions (pub_to_subs_ m !! pub_id) in
    set_pub_to_subs m (<[pub_id := add_id sub_id use_take_shared_method old]> (pub_to_subs_ m))).

Definition qos_check_compatible (publisher_qos subscription_qos : QosProfile) : M Compatibility :=
  match qos_profile_check_compatible publisher_qos subscription_qos true (Some ""%string) 2048 with
  | Ok (c, _) => mret c
  | Throw _ => throw QosCheckFailed
  end.

Definition can_communicate (pub : PublisherObject) (sub : SubscriptionIntraProcess) : M bool :=
  if negb (bool_decide (pub_topic pub = sub_topic sub)) then mret false else
  check_result ← qos_check_compatible (pub_qos pub) (sub_qos sub);
  mret (negb (bool_decide (check_result = RMW_QOS_COMPATIBILITY_ERROR))).

Definition match_subscription (pub : PublisherObject) (pub_id : Z) (pair : Z * N) : M unit :=
  st ← get;
  match subs st !! pair.2 with
  | None => mret tt
  | Some subscription =>
    c ← can_communicate pub subscription;
    if c : bool then
      b ← sub_takes_shared pair.2;
      insert_sub_id_for_pub pair.1 pub_id b
    else mret tt
  end.

Definition add_publisher (publisher : N) (buffer : option N) : M Z :=
  pub_id ← get_next_unique_id;
  update_manager (fun m => set_publishers m (<[pub_id := publisher]> (publishers_ m)) (publisher_buffers_ m));;
  p ← find_object pubs publisher;
  (if is_transient_local (pub_qos p) then
     match buffer with
     | Some b =>
       update_manager (fun m => set_publishers m (publishers_ m) (<[pub_id := Some b]> (publisher_buffers_ m)))
     | None => throw NeedsBuffer
     end
   else mret tt);;
  update_manager (fun m => set_pub_to_subs m (<[pub_id := no_subscriptions]> (pub_to_subs_ m)));;
  st ← get;
  for_each (match_subscription p pub_id) (iteration pub_id _ (subscriptions_ (manager st)));;
  mret pub_id.

Definition erase_id (sub_id : Z) (s : SplittedSubscriptions) : SplittedSubscriptions :=
  mkSplit (filter (fun i => i <> sub_id) (take_shared_subscriptions s))
    (filter (fun i => i <> sub_id) (take_ownership_subscriptions s)).

Definition remove_subscription (id : Z) : M unit :=
  update_manager (fun m =>
    set_pub_to_subs (set_subscriptions m (delete id (subscriptions_ m))) (erase_id id <$> pub_to_subs_ m)).

Definition remove_publisher (id : Z) : M unit :=
  update_manager (fun m =>
    set_pub_to_subs (set_publishers m (delete id (publishers_ m)) (delete id (publisher_buffers_ m)))
      (delete id (pub_to_subs_ m))).

Fixpoint any_publisher (gid : Z) (l : list (Z * N)) : M bool :=
  match l with
  | [] => mret false
  | (_, a) :: l =>
    st ← get;
    match pubs st !! a with
    | None => any_publisher gid l
    | Some p =>
      match rmw_compare_gids_equal gid (pub_gid p) with
      | None => throw GidCompareFailed
      | Some true => mret true
      | Some false => any_publisher gid l
      end
    end
  end.

Definition matches_any_publishers (gid : Z) : M bool :=
  st ← get; any_publisher gid (iteration 0 _ (publishers_ (manager st))).

Definition get_subscription_count (pub_id : Z) : M Z :=
  st ← get;
  mret match pub_to_subs_ (manager st) !! pub_id with
       | None => 0
       | Some s => u64 (Z.of_nat (length (take_shared_subscriptions s)) + Z.of_nat (length (take_ownership_subscriptions s)))
       end.

Definition erase_subscription (id : Z) : M unit :=
  update_manager (fun m => set_subscriptions m (delete id (subscriptions_ m))).

Definition get_subscription_intra_process (id : Z) : M (option N) :=
  st ← get;
  match subscriptions_ (manager st) !! id with
  | None => mret None
  | Some a =>
    if bool_decide (is_Some (subs st !! a)) then mret (Some a) else erase_subscription id;; mret None
  end.

Definition lower_capacity (capacity : Z) (id : Z) : M Z :=
  st ← get;
  match subscriptions_ (manager st) !! id with
  | None => mret capacity
  | Some a =>
    if bool_decide (is_Some (subs st !! a)) then c ← available_capacity a; mret (Z.min capacity c)
    else mret capacity
  end.

Fixpoint lower_capacities (capacity : Z) (ids : list Z) : M Z :=
  match ids with
  | [] => mret capacity
  | id :: ids => c ← lower_capacity capacity id; lower_capacities c ids
  end.

Definition SIZE_MAX : Z := 2 ^ 64 - 1.

Definition lowest_available_capacity (pub_id : Z) : M Z :=
  st ← get;
  match pub_to_subs_ (manager st) !! pub_id with
  | None => mret 0
  | Some s =>
    if bool_decide (take_shared_subscriptions s = []) && bool_decide (take_ownership_subscriptions s = []) then mret 0
    else
      c ← lower_capacities SIZE_MAX (take_shared_subscriptions s);
      lower_capacities c (take_ownership_subscriptions s)
  end.

(** ** Delivery *)

(** The template arguments [MessageT], [ROSMessageType] and [Alloc]. *)
Record MessageTypes := mkTypes {
  message_type : N;
  ros_message_type : N;
  message_allocator : N;
}.

(** The subscription behind an identifier; an expired one is forgotten. *)
Definition find_subscription (id : Z) : M (option N) :=
  st ← get;
  match subscriptions_ (manager st) !! id with
  | None => throw OutOfScope
  | Some a =>
    if bool_decide (is_Some (subs st !! a)) then mret (Some a) else erase_subscription id;; mret None
  end.

(** The two casts: to the buffer for the published type and to the one for
    the ROS message type. *)
Inductive Cast := ToData | ToMessage | NoCast.

Definition cast (T : MessageTypes) (s : SubscriptionIntraProcess) : Cast :=
  if negb ((sub_ros_type s =? ros_message_type T) && (sub_allocator s =? message_allocator T))%N then NoCast
  else if (sub_type s =? adapter_custom_type (message_type T))%N then ToData
  else ToMessage.

Definition add_shared_msg (T : MessageTypes) (message : Ptr) (id : Z) : M unit :=
  found ← find_subscription id;
  match found with
  | None => mret tt
  | Some a =>
    s ← find_object subs a;
    match cast T s with
    | ToData => provide_intra_process_data true a message
    | NoCast => throw BadCast
    | ToMessage =>
      let converted :=
        v ← load message;
        p ← allocate_message (convert_to_ros_message (message_type T) (ros_message_type T) v);
        provide_intra_process_message true a p in
      if adapter_specialized (message_type T) then converted
      else if (message_type T =? ros_message_type T)%N then provide_intra_process_message true a message
      else if (pair_ros_type (message_type T) (ros_message_type T) =? ros_message_type T)%N then converted
      else mret tt
    end
  end.

Definition add_shared_msg_to_buffers (T : MessageTypes) (message : Ptr) (ids : list Z) : M unit :=
  for_each (add_shared_msg T message) ids.

Fixpoint add_owned_msg_to_buffers (T : MessageTypes) (message : Ptr) (ids : list Z) : M unit :=
  match ids with
  | [] => mret tt
  | id :: rest =>
    let last := bool_decide (rest = []) in
    found ← find_subscription id;
    match found with
    | None => add_owned_msg_to_buffers T message rest
    | Some a =>
      s ← find_object subs a;
      match cast T s with
      | ToData =>
        if last then provide_intra_process_data false a message
        else
          p ← copy message;
          provide_intra_process_data false a p;;
          add_owned_msg_to_buffers T message rest
      | NoCast => throw BadCast
      | ToMessage =>
        if pair_specialized (message_type T) (ros_message_type T) then
          v ← load message;
          p ← allocate_message (convert_to_ros_message (message_type T) (ros_message_type T) v);
          provide_intra_process_message false a p;;
          add_owned_msg_to_buffers T message rest
        else if (message_type T =? ros_message_type T)%N then
          if last then provide_intra_process_message false a message
          else
            p ← copy message;
            provide_intra_process_message false a p;;
            add_owned_msg_to_buffers T message rest
        else add_owned_msg_to_buffers T message rest
      end
    end
  end.

Definition do_intra_process_publish (T : MessageTypes) (pub_id : Z) (message : Ptr) : M unit :=
  st ← get;
  match pub_to_subs_ (manager st) !! pub_id with
  | None => mret tt
  | Some sub_ids =>
    let shared := take_shared_subscriptions sub_ids in
    let owning := take_ownership_subscriptions sub_ids in
    if bool_decide (owning = []) then add_shared_msg_to_buffers T message shared
    else if (length shared <=? 1)%nat then add_owned_msg_to_buffers T message (shared ++ owning)
    else
      shared_msg ← copy message;
      add_shared_msg_to_buffers T shared_msg shared;;
      add_owned_msg_to_buffers T message owning
  end.

Definition do_intra_process_publish_and_return_shared (T : MessageTypes) (pub_id : Z) (message : Ptr) : M Ptr :=
  st ← get;
  match pub_to_subs_ (manager st) !! pub_id with
  | None => mret None
  | Some sub_ids =>
    let shared := take_shared_subscriptions sub_ids in
    let owning := take_ownership_subscriptions sub_ids in
    if bool_decide (owning = []) then
      (if bool_decide (shared = []) then mret tt else add_shared_msg_to_buffers T message shared);;
      mret message
    else
      shared_msg ← copy message;
      (if bool_decide (shared = []) then mret tt else add_shared_msg_to_buffers T shared_msg shared);;
      add_owned_msg_to_buffers T message owning;;
      mret shared_msg
  end.

(** [do_transient_local_publish], for the type [ROSMessageType]. *)
Definition do_transient_local_publish (ros_type allocator : N) (pub_id sub_id : Z) (use_take_shared_method : bool)
    : M unit :=
  let T := mkTypes ros_type ros_type allocator in
  st ← get;
  let entry := default None (publisher_buffers_ (manager st) !! pub_id) in
  update_manager (fun m => set_publishers m (publishers_ m) (<[pub_id := entry]> (publisher_buffers_ m)));;
  match entry with
  | None => throw BufferOutOfScope
  | Some b =>
    match buffers st !! b with
    | None => throw BufferOutOfScope
    | Some q =>
      if negb ((q_data q =? ros_type) && (q_allocator q =? allocator))%N then throw BadCast
      else if use_take_shared_method then
        data_vec ← on_buffer b get_all_data_shared;
        for_each (fun shared_data => add_shared_msg_to_buffers T shared_data [sub_id]) data_vec
      else
        data_vec ← on_buffer b get_all_data_unique;
        for_each (fun owned_data => add_owned_msg_to_buffers T owned_data [sub_id]) data_vec
    end
  end.

Definition match_publisher (ros_type allocator : N) (subscription : N) (sub_id : Z) (pair : Z * N) : M unit :=
  st ← get;
  match pubs st !! pair.2 with
  | None => mret tt
  | Some p =>
    s ← find_object subs subscription;
    c ← can_communicate p s;
    if c : bool then
      b ← sub_takes_shared subscription;
      insert_sub_id_for_pub sub_id pair.1 b;;
      if is_transient_local (pub_qos p) && is_transient_local (sub_qos s)
      then do_transient_local_publish ros_type allocator pair.1 sub_id b
      else mret tt
    else mret tt
  end.

Definition add_subscription (ros_type allocator : N) (subscription : N) : M Z :=
  sub_id ← get_next_unique_id;
  update_manager (fun m => set_subscriptions m (<[sub_id := subscription]> (subscriptions_ m)));;
  st ← get;
  for_each (match_publisher ros_type allocator subscription sub_id) (iteration sub_id _ (publishers_ (manager st)));;
  mret sub_id.

(** ** Publishers *)

(** How [rcl_publish] ends: sent, refused because the context is shut down,
    or failed. *)
Inductive SendStatus := Sent | ContextShutDown | NotSent.

Definition do_inter_process_publish (msg : V) (status : SendStatus) : M unit :=
  match status with
  | Sent => modify (fun st => set_wire st (wire st ++ [msg]))
  | ContextShutDown => mret tt
  | NotSent => throw SendFailed
  end.

(** [weak_ipm_.lock()] and the checks before a delivery. *)
Definition lock_manager (msg : Ptr) : M unit :=
  st ← get;
  if negb (manager_alive st) then throw ManagerDestroyed
  else if bool_decide (msg = None) then throw NullMessage
  else mret tt.

Definition published_types (p : PublisherObject) : MessageTypes :=
  mkTypes (pub_published_type p) (pub_ros_type p) (pub_allocator p).
Definition ros_types (p : PublisherObject) : MessageTypes :=
  mkTypes (pub_ros_type p) (pub_ros_type p) (pub_allocator p).

Definition Publisher_do_intra_process_publish (p : PublisherObject) (msg : Ptr) : M unit :=
  lock_manager msg;; do_intra_process_publish (published_types p) (intra_process_publisher_id_ p) msg.

Definition do_intra_process_ros_message_publish (p : PublisherObject) (msg : Ptr) : M unit :=
  lock_manager msg;; do_intra_process_publish (ros_types p) (intra_process_publisher_id_ p) msg.

Definition do_intra_process_ros_message_publish_and_return_shared (p : PublisherObject) (msg : Ptr) : M Ptr :=
  lock_manager msg;;
  do_intra_process_publish_and_return_shared (ros_types p) (intra_process_publisher_id_ p) msg.

Definition get_intra_process_subscription_count (p : PublisherObject) : M Z :=
  st ← get;
  if negb (intra_process_is_enabled_ p) then mret 0
  else if negb (manager_alive st) then throw ManagerDestroyed
  else get_subscription_count (intra_process_publisher_id_ p).

(** [publish] of a unique pointer to a ROS message; [count] is what the
    middleware says [get_subscription_count()] is. *)
Definition publish_ros_message (a : N) (msg : Ptr) (count : Z) (status : SendStatus) : M unit :=
  p ← find_object pubs a;
  if negb (intra_process_is_enabled_ p) then
    v ← load msg; do_inter_process_publish v status
  else
    intra ← get_intra_process_subscription_count p;
    let inter_process_publish_needed := intra <? count in
    if inter_process_publish_needed then
      shared_msg ← do_intra_process_ros_message_publish_and_return_shared p msg;
      (match pub_buffer p with Some b => add_to_buffer true b shared_msg | None => mret tt end);;
      v ← load shared_msg;
      do_inter_process_publish v status
    else
      match pub_buffer p with
      | Some b =>
        shared_msg ← do_intra_process_ros_message_publish_and_return_shared p msg;
        add_to_buffer true b shared_msg
      | None => do_intra_process_ros_message_publish p msg
      end.

(** [publish] of a reference to a ROS message. *)
Definition publish_ros_copy (a : N) (v : V) (count : Z) (status : SendStatus) : M unit :=
  p ← find_object pubs a;
  if negb (intra_process_is_enabled_ p) then do_inter_process_publish v status
  else
    unique_msg ← allocate_message v;
    publish_ros_message a unique_msg count status.

(** [publish] of a unique pointer to a message of the custom type. *)
Definition publish_custom (a : N) (msg : Ptr) (count : Z) (status : SendStatus) : M unit :=
  p ← find_object pubs a;
  let convert := convert_to_ros_message (pub_published_type p) (pub_ros_type p) in
  if negb (intra_process_is_enabled_ p) then
    v ← load msg; do_inter_process_publish (convert v) status
  else
    intra ← get_intra_process_subscription_count p;
    let inter_process_publish_needed := intra <? count in
    if inter_process_publish_needed then
      v ← load msg;
      ros_msg_ptr ← allocate_message (convert v);
      Publisher_do_intra_process_publish p msg;;
      ros ← load ros_msg_ptr;
      do_inter_process_publish ros status;;
      match pub_buffer p with Some b => add_to_buffer true b ros_msg_ptr | None => mret tt end
    else
      (match pub_buffer p with
       | Some b =>
         v ← load msg;
         ros_msg_ptr ← allocate_message (convert v);
         add_to_buffer true b ros_msg_ptr
       | None => mret tt
       end);;
      Publisher_do_intra_process_publish p msg.

Definition publish_custom_copy (a : N) (v : V) (count : Z) (status : SendStatus) : M unit :=
  p ← find_object pubs a;
  if negb (intra_process_is_enabled_ p) then
    do_inter_process_publish (convert_to_ros_message (pub_published_type p) (pub_ros_type p) v) status
  else
    unique_msg ← allocate_message v;
    publish_custom a unique_msg count status.

(** ** Set-up and destruction *)

Definition new_address : M N := fun st => (Ok (next_address st), set_address st (next_address st + 1)%N).

Definition lift_buffer {A} (r : Result ring_error A) : M A :=
  match r with Ok x => mret x | Throw e => throw (BufferFault e) end.

Definition create_buffer (type : BufferType) (data allocator : N) (qos : QosProfile) : M N :=
  t ← lift_buffer (create_intra_process_buffer (V := V) type (depth qos));
  a ← new_address;
  modify (fun st => set_messages st (messages st)
    (<[a := mkQueue type data allocator (RingBuffer.buffer_ t)]> (buffers st)));;
  mret a.

(** Only histories that keep a positive number of messages. *)
Definition check_history (qos : QosProfile) : M unit :=
  match history qos with
  | RMW_QOS_POLICY_HISTORY_KEEP_LAST => if depth qos =? 0 then throw InvalidArgument_error else mret tt
  | _ => throw InvalidArgument_error
  end.

(** [Publisher::post_init_setup] with intra-process communication, for the
    publisher at [a]; [qos] are the policies asked for. *)
Definition post_init_setup (a : N) (qos : QosProfile) (type : BufferType) : M unit :=
  p ← find_object pubs a;
  check_history qos;;
  b ← (if is_transient_local qos
       then b ← create_buffer type (pub_ros_type p) (pub_allocator p) qos; mret (Some b)
       else mret (pub_buffer p));
  modify (fun st => set_pubs st (alter (fun p =>
    mkPublisher (pub_topic p) (pub_qos p) (pub_gid p) (pub_published_type p) (pub_ros_type p) (pub_allocator p)
      b (intra_process_is_enabled_ p) (intra_process_publisher_id_ p)) a (pubs st)));;
  id ← add_publisher a b;
  modify (fun st => set_pubs st (alter (fun p =>
    mkPublisher (pub_topic p) (pub_qos p) (pub_gid p) (pub_published_type p) (pub_ros_type p) (pub_allocator p)
      (pub_buffer p) true id) a (pubs st))).

(** [resolve_intra_process_buffer_type]: [None] is [CallbackDefault]. *)
Definition resolve_intra_process_buffer_type (type : option BufferType) (takes_shared : bool) : BufferType :=
  match type with
  | Some type => type
  | None => if takes_shared then SharedPtr else UniquePtr
  end.

(** The constructor of [Subscription]: the address and the identifier of
    the new [SubscriptionIntraProcess]. *)
Definition Subscription_init (topic : string) (qos : QosProfile) (type ros_type allocator : N)
    (takes_shared : bool) (buffer_type : option BufferType) : M (N * Z) :=
  check_history qos;;
  b ← create_buffer (resolve_intra_process_buffer_type buffer_type takes_shared) type allocator qos;
  a ← new_address;
  modify (fun st => set_subs st
    (<[a := mkSubscription topic qos type ros_type allocator b takes_shared 0 false 0 []]> (subs st)));;
  id ← add_subscription ros_type allocator a;
  mret (a, id).

(** The last [shared_ptr] goes.  [~SubscriptionBase] has removed the
    subscription before, unless its constructor threw: then
    [use_intra_process_] was not set yet. *)
Definition expire_subscription (a : N) : M unit :=
  modify (fun st =>
    let st' := set_subs st (delete a (subs st)) in
    match subs st !! a with
    | Some s => set_messages st' (messages st') (delete (sub_buffer s) (buffers st'))
    | None => st'
    end).

Definition expire_publisher (a : N) : M unit :=
  modify (fun st =>
    let st' := set_pubs st (delete a (pubs st)) in
    match (pubs st !! a) ≫= pub_buffer with
    | Some b => set_messages st' (messages st') (delete b (buffers st'))
    | None => st'
    end).

Definition SubscriptionBase_destructor (use_intra_process : bool) (id : Z) : M unit :=
  if negb use_intra_process then mret tt else
  st ← get; if manager_alive st then remove_subscription id else mret tt.

Definition PublisherBase_destructor (intra_process_is_enabled : bool) (id : Z) : M unit :=
  if negb intra_process_is_enabled then mret tt else
  st ← get; if manager_alive st then remove_publisher id else mret tt.
End Manager.
