(* ===== verification/IntraProcessFacts.v ===== *)
(** * Intra-process communication: what is delivered

    The theorems about [IntraProcess]. *)

From Stdlib Require Import ZArith Lia String.
From stdpp Require Import base numbers list gmap sets fin_maps strings.
From S2P Require Import Prelude Computation RclTime Qos RingBuffer IntraProcess.
#[local] Open Scope Z_scope.

Section Facts.
Context {V : Type} `{Environment V}.

(** ** What the process holds *)

Definition pointers (q : Queue) : list Ptr :=
  match get_all_data (q_ring q) with Ok ps => ps | Throw _ => [] end.

Definition q_capacity (q : Queue) : Z := capacity_ (q_ring q).

Definition contents (h : gmap N V) (q : Queue) : list V := omap (fun p => p ≫= (fun l => h !! l)) (pointers q).

(** The queues hold pointers to messages.  Those in queues of unique
    pointers are held nowhere else; the messages [owned] by clients, which
    may write to them, are in no queue. *)
Record buffers_ok (h : gmap N V) (bs : gmap N Queue) (owned : gset N) : Prop := {
  ok_ring : forall a q, bs !! a = Some q -> 0 < q_capacity q < 2 ^ 63 /\ represents (q_capacity q) (q_ring q) (pointers q);
  ok_stored : forall a q, bs !! a = Some q -> stored h (pointers q) (contents h q);
  ok_once : forall a q, bs !! a = Some q -> q_type q = UniquePtr -> NoDup (pointers q);
  ok_private : forall a q a' q' l, bs !! a = Some q -> q_type q = UniquePtr -> Some l ∈ pointers q ->
    bs !! a' = Some q' -> Some l ∈ pointers q' -> a = a';
  ok_owned : forall l a q, l ∈ owned -> bs !! a = Some q -> Some l ∉ pointers q;
  ok_live : owned ⊆ dom h;
}.

(** A message that may only be read. *)
Definition read_only (h : gmap N V) (bs : gmap N Queue) (owned : gset N) (l : N) : Prop :=
  l ∈ dom h /\ l ∉ owned /\ forall a q, bs !! a = Some q -> q_type q = UniquePtr -> Some l ∉ pointers q.

Definition queue_ok (q : Queue) (ps : list Ptr) : Prop :=
  0 < q_capacity q < 2 ^ 63 /\ represents (q_capacity q) (q_ring q) ps.

Lemma queue_ok_pointers q ps : queue_ok q ps -> pointers q = ps.
Proof. intros [Hc Hr]. unfold pointers. by rewrite (get_all_data_refines _ Hc _ _ Hr). Qed.

Lemma stored_contents h q vs : stored h (pointers q) vs -> contents h q = vs.
Proof.
  unfold contents. intros Hs. induction Hs as [|p v ps vs (l & -> & Hl) _ IH]; [done|].
  simpl. rewrite Hl. by f_equal.
Qed.

Lemma contents_grow h h' q : h ⊆ h' -> stored h (pointers q) (contents h q) -> contents h' q = contents h q.
Proof. intros Hsub Hs. apply stored_contents. by eapply stored_weaken. Qed.

(** *** Adding a pointer to a queue *)

Lemma elem_of_fifo_enqueue {A} c (ps : list A) x y : y ∈ fifo_enqueue c ps x -> y = x \/ y ∈ ps.
Proof. unfold fifo_enqueue. destruct (_ =? _); destruct ps; simpl; set_solver. Qed.

Lemma NoDup_fifo_enqueue {A} c (ps : list A) x : NoDup ps -> x ∉ ps -> NoDup (fifo_enqueue c ps x).
Proof.
  intros Hnd Hx. unfold fifo_enqueue. destruct (_ =? _).
  - destruct ps as [|y ps]; simpl; [apply NoDup_singleton|]. apply NoDup_cons in Hnd as [_ Hnd].
    apply NoDup_app. split_and!; [done|set_solver|apply NoDup_singleton].
  - apply NoDup_app. split_and!; [done|set_solver|apply NoDup_singleton].
Qed.

Lemma stored_fifo (h : gmap N V) c (ps : list Ptr) (vs : list V) l v :
  stored h ps vs -> h !! l = Some v -> stored h (fifo_enqueue c ps (Some l)) (fifo_enqueue c vs v).
Proof.
  intros Hs Hl. unfold fifo_enqueue. rewrite (Forall2_length _ _ _ Hs).
  assert (Ht : stored h (tail ps) (tail vs)) by (destruct Hs; [by apply Forall2_nil|done]).
  destruct (_ =? _); (apply Forall2_app; [done|]); (constructor; [by exists l|constructor]).
Qed.

Definition with_ring (q : Queue) (r : RingBuffer (A := Ptr)) : Queue :=
  mkQueue (q_type q) (q_data q) (q_allocator q) r.

(** A queue after an operation: its pointers and contents. *)
Record queue_after (h : gmap N V) (q q' : Queue) (ps : list Ptr) (vs : list V) : Prop := {
  after_type : q_type q' = q_type q;
  after_capacity : q_capacity q' = q_capacity q;
  after_ok : queue_ok q' ps;
  after_stored : stored h ps vs;
}.

Lemma enqueue_after h q l v :
  queue_ok q (pointers q) -> stored h (pointers q) (contents h q) -> h !! l = Some v ->
  exists r, enqueue (q_ring q) (Some l) = Ok r /\
    queue_after h q (with_ring q r) (fifo_enqueue (q_capacity q) (pointers q) (Some l))
      (fifo_enqueue (q_capacity q) (contents h q) v).
Proof.
  intros [Hc Hr] Hs Hl. destruct (enqueue_refines _ Hc _ _ (Some l) Hr) as (r & Er & Hr').
  exists r. split; [done|]. assert (Ec : q_capacity (with_ring q r) = q_capacity q) by apply (rep_capacity _ _ _ Hr').
  split; [done|done|by split; rewrite Ec|by apply stored_fifo].
Qed.

(** The pointers of one queue change: what remains to be shown. *)
Lemma buffers_ok_update h bs owned owned' a q q' ps vs :
  buffers_ok h bs owned -> bs !! a = Some q -> queue_after h q q' ps vs ->
  owned' ⊆ owned ->
  (q_type q = UniquePtr -> NoDup ps) ->
  (forall l, Some l ∈ ps -> Some l ∉ pointers q ->
     l ∉ owned' /\ (forall b r, bs !! b = Some r -> b <> a -> q_type r = UniquePtr \/ q_type q = UniquePtr -> Some l ∉ pointers r)) ->
  buffers_ok h (<[a := q']> bs) owned'.
Proof.
  intros [Hri Hst Hon Hpr How Hli] Ha [Ht Hc Hok Hs] Hsub Hnd Hnew.
  pose proof (queue_ok_pointers _ _ Hok) as Ep. pose proof (stored_contents h q' vs) as Ev. rewrite Ep in Ev.
  assert (Hin : forall b r l, <[a := q']> bs !! b = Some r -> Some l ∈ pointers r ->
    (b = a /\ r = q' /\ Some l ∈ ps) \/ (b <> a /\ bs !! b = Some r)).
  { intros b r l Hb Hl. destruct (decide (b = a)) as [->|Hne].
    - rewrite lookup_insert_eq in Hb. injection Hb as <-. left. by rewrite <- Ep.
    - rewrite lookup_insert_ne in Hb by done. by right. }
  split.
  - intros b r [(<- & <-)|(_ & Hb)]%lookup_insert_Some; [|by apply (Hri b)]. rewrite Ep. apply Hok.
  - intros b r [(<- & <-)|(_ & Hb)]%lookup_insert_Some; [|by apply (Hst b)]. by rewrite Ep, Ev.
  - intros b r [(<- & <-)|(_ & Hb)]%lookup_insert_Some Hu; [|by apply (Hon b)]. rewrite Ep. apply Hnd. congruence.
  - intros b r b' r' l Hb Hu Hl Hb' Hl'.
    destruct (Hin _ _ _ Hb Hl) as [(-> & -> & Hl1)|(Hne & Hb1)],
      (Hin _ _ _ Hb' Hl') as [(-> & -> & Hl2)|(Hne' & Hb2)]; [done|..|by eapply Hpr].
    + rewrite Ht in Hu. destruct (decide (Some l ∈ pointers q)) as [Hq|Hq].
      * by rewrite (Hpr a q b' r' l Ha Hu Hq Hb2 Hl').
      * destruct (Hnew l Hl1 Hq) as [_ Hn]. by destruct (Hn b' r' Hb2 Hne' (or_intror Hu)).
    + destruct (decide (Some l ∈ pointers q)) as [Hq|Hq].
      * by rewrite (Hpr b r a q l Hb1 Hu Hl Ha Hq).
      * destruct (Hnew l Hl2 Hq) as [_ Hn]. by destruct (Hn b r Hb1 Hne (or_introl Hu)).
  - intros l b r Hl Hb Hlr. destruct (Hin _ _ _ Hb Hlr) as [(-> & -> & Hl1)|(Hne & Hb1)].
    + destruct (decide (Some l ∈ pointers q)) as [Hq|Hq]; [by apply (How l a q); [apply Hsub|..]|].
      by destruct (Hnew l Hl1 Hq).
    + by apply (How l b r); [apply Hsub|..].
  - by etrans.
Qed.

(** ** The state as values

    What matters about a queue is its kind, its capacity and the contents of
    its messages, in order; about the manager during a delivery, the
    subscriptions it knows. *)

Definition QueueView : Type := (BufferType * Z * list V).

Definition q_view (h : gmap N V) (q : Queue) : QueueView := (q_type q, q_capacity q, contents h q).

Record Values := mkValues {
  queues : gmap N QueueView;
  listeners : gmap N SubscriptionIntraProcess;
  known : gmap Z N;
}.

Notation Process := (Process (V := V)).
Notation M := (ST Process ipm_error).
Implicit Types (st : Process) (owned : gset N).

Definition values (st : Process) : Values :=
  mkValues (q_view (messages st) <$> buffers st) (subs st) (subscriptions_ (manager st)).

(** The rest of the state. *)
Definition rest (st : Process) :=
  (pubs st, next_address st, wire st, manager_alive st, set_subscriptions (manager st) ∅).

Record process_ok (st : Process) (owned : gset N) : Prop := {
  ok_buffers : buffers_ok (messages st) (buffers st) owned;
  ok_subs : forall a s, subs st !! a = Some s -> is_Some (buffers st !! sub_buffer s);
}.

(** A computation went from [st] to [st'] and had the effect [f]. *)
Record effect (st : Process) (owned : gset N) (st' : Process) (owned' : gset N) (f : Values -> Values) : Prop := {
  effect_ok : process_ok st' owned';
  effect_values : values st' = f (values st);
  effect_grow : messages st ⊆ messages st';
  effect_read_only : forall l, read_only (messages st) (buffers st) owned l -> read_only (messages st') (buffers st') owned' l;
  effect_rest : rest st' = rest st;
}.

Lemma effect_id st owned : process_ok st owned -> effect st owned st owned id.
Proof. intros Hok. by split. Qed.

Lemma effect_trans st o st1 o1 st2 o2 f g :
  effect st o st1 o1 f -> effect st1 o1 st2 o2 g -> effect st o st2 o2 (g ∘ f).
Proof.
  intros [Hok1 Hv1 Hg1 Hr1 He1] [Hok2 Hv2 Hg2 Hr2 He2]. split.
  - done.
  - simpl. by rewrite Hv2, Hv1.
  - by etrans.
  - intros l Hl. by apply Hr2, Hr1.
  - congruence.
Qed.

Lemma effect_ext st o st' o' f g : f (values st) = g (values st) -> effect st o st' o' f -> effect st o st' o' g.
Proof. intros E [Hok Hv Hg Hr He]. split; try done. congruence. Qed.

Lemma effect_then st o st1 o1 st2 o2 f g k :
  effect st o st1 o1 f -> effect st1 o1 st2 o2 g -> (forall x, g (f x) = k x) -> effect st o st2 o2 k.
Proof.
  intros H1 H2 E. destruct (effect_trans _ _ _ _ _ _ _ _ H1 H2) as [Hok Hv Hg Hr He].
  split; try done. by rewrite <- E.
Qed.

Lemma buffers_ok_mono h bs owned owned' : owned' ⊆ owned -> buffers_ok h bs owned -> buffers_ok h bs owned'.
Proof. intros Hsub []. split; try done; [|by etrans]. intros l a q Hl. by apply ok_owned0, Hsub. Qed.

(** Fewer messages are owned: they are dropped, or become read-only. *)
Lemma effect_drop st o st' o1 o2 f : o2 ⊆ o1 -> effect st o st' o1 f -> effect st o st' o2 f.
Proof.
  intros Hsub [[Hb Hs] Hv Hg Hr He]. split; try done.
  - split; [by eapply buffers_ok_mono|done].
  - intros l Hl. destruct (Hr l Hl) as (? & ? & ?). split_and!; [done| |done]. set_solver.
Qed.

Lemma read_only_dropped st owned l :
  process_ok st owned -> l ∈ owned -> read_only (messages st) (buffers st) (owned ∖ {[l]}) l.
Proof.
  intros [Hb _] Hl. split_and!; [|set_solver|].
  - pose proof (ok_live _ _ _ Hb). set_solver.
  - intros a q Ha _. by eapply ok_owned.
Qed.

(** *** Allocation *)

Lemma read_only_in_dom h bs owned l : read_only h bs owned l -> l ∈ dom h.
Proof. by intros []. Qed.

Lemma allocate_effect st owned v :
  process_ok st owned ->
  exists l st', allocate_message v st = (Ok (Some l), st') /\ messages st' !! l = Some v /\ l ∉ owned /\
    (forall k, k ∈ dom (messages st) -> k <> l) /\ effect st owned st' (owned ∪ {[l]}) id.
Proof.
  intros [Hb Hs]. pose proof (is_fresh (dom (messages st))) as Hf. unfold allocate_message.
  set (l := fresh _) in *. exists l. eexists. split; [done|].
  assert (Hsub : messages st ⊆ <[l := v]> (messages st)) by (apply insert_subseteq; by apply not_elem_of_dom).
  assert (Hnot : forall a q, buffers st !! a = Some q -> Some l ∉ pointers q).
  { intros a q Ha Hin. apply Hf. by eapply stored_elem; [apply (ok_stored _ _ _ Hb a q Ha)|]. }
  split_and!; [by apply lookup_insert_eq| |set_solver|].
  { pose proof (ok_live _ _ _ Hb). set_solver. }
  destruct Hb as [Hri Hst Hon Hpr How Hli]. split; simpl.
  - split; [|done]. split; simpl; try done.
    + intros a q Ha. rewrite (contents_grow _ _ _ Hsub) by eauto. eapply stored_weaken; eauto.
    + set_solver.
    + rewrite dom_insert. set_solver.
  - unfold values. simpl. f_equal. apply map_fmap_ext. intros a q Ha. unfold q_view.
    by rewrite (contents_grow _ _ _ Hsub) by eauto.
  - done.
  - intros k (Hd & Ho & Hu). split_and!; [rewrite dom_insert; set_solver|set_solver|done].
  - done.
Qed.

Lemma load_ok st l v : messages st !! l = Some v -> load (Some l) st = (Ok v, st).
Proof. intros Hl. unfold load. by rewrite Hl. Qed.

Lemma copy_effect st owned l v :
  process_ok st owned -> messages st !! l = Some v ->
  exists l' st', copy (Some l) st = (Ok (Some l'), st') /\ messages st' !! l' = Some v /\ l' ∉ owned /\
    (forall k, k ∈ dom (messages st) -> k <> l') /\ effect st owned st' (owned ∪ {[l']}) id.
Proof.
  intros Hok Hl. unfold copy. rewrite (bind_ok _ _ _ _ _ (load_ok _ _ _ Hl)). by apply allocate_effect.
Qed.

(** *** Adding a message to a buffer *)

Definition push (v : V) (x : QueueView) : QueueView :=
  let '(type, capacity, l) := x in (type, capacity, fifo_enqueue capacity l v).

Definition push_queue (b : N) (v : V) (x : Values) : Values :=
  mkValues (alter (push v) b (queues x)) (listeners x) (known x).

(** The view after the queue at [b] changes. *)
Lemma queues_update h (bs : gmap N Queue) b q q' ps vs f :
  bs !! b = Some q -> queue_after h q q' ps vs -> f (q_view h q) = (q_type q, q_capacity q, vs) ->
  q_view h <$> <[b := q']> bs = alter f b (q_view h <$> bs).
Proof.
  intros Hb [Ht Hc Hok Hs] Hf. apply map_eq. intros i. rewrite lookup_fmap.
  destruct (decide (i = b)) as [->|Hne].
  - rewrite lookup_insert_eq, lookup_alter_eq, lookup_fmap, Hb. simpl. rewrite Hf. unfold q_view.
    rewrite Ht, Hc. do 2 f_equal. apply stored_contents. by rewrite (queue_ok_pointers _ _ Hok).
  - by rewrite lookup_insert_ne, lookup_alter_ne, lookup_fmap by done.
Qed.

Lemma update_subs_ok (st : Process) b q :
  (forall a s, subs st !! a = Some s -> is_Some (buffers st !! sub_buffer s)) ->
  forall a s, subs st !! a = Some s -> is_Some (<[b := q]> (buffers st) !! sub_buffer s).
Proof.
  intros Hs a s Ha. destruct (decide (sub_buffer s = b)) as [->|Hne].
  - rewrite lookup_insert_eq. eauto.
  - rewrite lookup_insert_ne by done. eauto.
Qed.

Lemma enqueue_effect st owned owned' b q l v :
  process_ok st owned -> buffers st !! b = Some q -> messages st !! l = Some v -> owned' ⊆ owned -> l ∉ owned' ->
  (forall a r, buffers st !! a = Some r -> q_type r = UniquePtr \/ q_type q = UniquePtr -> Some l ∉ pointers r) ->
  (q_type q = UniquePtr -> l ∈ owned) ->
  exists r, enqueue (q_ring q) (Some l) = Ok r /\
    effect st owned (set_messages st (messages st) (<[b := with_ring q r]> (buffers st))) owned' (push_queue b v).
Proof.
  intros [Hok Hsubs] Hb Hl Hsub Hlo Hnot Hown.
  destruct (enqueue_after (messages st) q l v) as (r & Er & Ha); [by apply (ok_ring _ _ _ Hok b)|by apply (ok_stored _ _ _ Hok b)|done|].
  exists r. split; [done|]. split; simpl.
  - split; simpl; [|intros a s; by apply update_subs_ok]. eapply buffers_ok_update; [done..| |].
    + intros Hu. apply NoDup_fifo_enqueue; [by apply (ok_once _ _ _ Hok b)|]. apply (Hnot b q Hb). by right.
    + intros k Hk Hkq. apply elem_of_fifo_enqueue in Hk as [[= ->]|?]; [|done]. split; [done|].
      intros a r' Hr' _ Hty. by apply (Hnot a r').
  - unfold values, push_queue. simpl. f_equal. by eapply queues_update.
  - done.
  - intros k (Hd & Ho & Hu). split_and!; [done|set_solver|]. intros a r' [(<- & <-)|(_ & Hr')]%lookup_insert_Some Hty; [|by apply (Hu a)].
    rewrite (queue_ok_pointers _ _ (after_ok _ _ _ _ _ Ha)). intros [[= ->]|Hk]%elem_of_fifo_enqueue.
    + simpl in Hty. by apply Ho, Hown.
    + by apply (Hu b q).
  - done.
Qed.

Lemma add_unique_effect st owned b l v :
  process_ok st owned -> is_Some (buffers st !! b) -> l ∈ owned -> messages st !! l = Some v ->
  exists st', add_to_buffer false b (Some l) st = (Ok tt, st') /\ effect st owned st' (owned ∖ {[l]}) (push_queue b v).
Proof.
  intros Hok [q Hb] Hl Hv. pose proof (ok_buffers _ _ Hok) as Hbs.
  destruct (enqueue_effect st owned (owned ∖ {[l]}) b q l v) as (r & Er & He); [done..|set_solver|set_solver| |done|].
  { intros a r Hr _. by apply (ok_owned _ _ _ Hbs l a r). }
  eexists. split; [|exact He]. unfold add_to_buffer, on_buffer, add_unique. rewrite Hb. simpl. by rewrite Er.
Qed.

Lemma add_shared_effect st owned b l v :
  process_ok st owned -> is_Some (buffers st !! b) -> read_only (messages st) (buffers st) owned l -> messages st !! l = Some v ->
  exists st', add_to_buffer true b (Some l) st = (Ok tt, st') /\ effect st owned st' owned (push_queue b v).
Proof.
  intros Hok [q Hb] (Hd & Ho & Hu) Hv. destruct (q_type q) eqn:Ht.
  - destruct (enqueue_effect st owned owned b q l v) as (r & Er & He); [done..| |congruence|].
    { intros a r Hr [Hty|Hty]; [by apply (Hu a)|congruence]. }
    eexists. split; [|exact He]. unfold add_to_buffer, on_buffer, add_shared. rewrite Hb. simpl. rewrite Ht, Er. simpl.
    unfold with_ring. by rewrite Ht.
  - destruct (copy_effect st owned l v Hok Hv) as (l' & st1 & E1 & Hl' & Hf & _ & He1).
    destruct (add_unique_effect st1 (owned ∪ {[l']}) b l' v) as (st2 & E2 & He2).
    + apply (effect_ok _ _ _ _ _ He1).
    + unfold copy in E1. rewrite (bind_ok _ _ _ _ _ (load_ok _ _ _ Hv)) in E1. injection E1 as <- <-. eauto.
    + set_solver.
    + done.
    + exists st2. split; [|apply (effect_drop st owned st2 ((owned ∪ {[l']}) ∖ {[l']})); [set_solver|by eapply effect_then]].
      unfold copy in E1. rewrite (bind_ok _ _ _ _ _ (load_ok _ _ _ Hv)) in E1. unfold allocate_message in E1. injection E1 as <- <-.
      revert E2. unfold add_to_buffer, on_buffer, add_shared, add_unique. simpl. rewrite Hb. simpl. rewrite Ht.
      unfold copy_message, deref. simpl. rewrite Hv. simpl. destruct (enqueue (q_ring q) _) as [r|e]; simpl; [|done].
      by intros [= <-].
Qed.

(** *** Handing a message to a subscription *)

Definition notified (s : SubscriptionIntraProcess) : SubscriptionIntraProcess :=
  if has_callback s then set_notices s (S (triggers s)) true (unread_count_ s) (ready_calls s ++ [1])
  else set_notices s (S (triggers s)) false (u64 (unread_count_ s + 1)) (ready_calls s).

Definition notify (a : N) (x : Values) : Values := mkValues (queues x) (alter notified a (listeners x)) (known x).

Lemma notify_effect st owned a :
  process_ok st owned ->
  exists st', (trigger_guard_condition a;; invoke_on_new_message a) st = (Ok tt, st') /\
    effect st owned st' owned (notify a).
Proof.
  intros [Hb Hs]. eexists. split; [reflexivity|]. split; simpl; try done.
  - split; simpl; [done|]. intros a' s Ha. rewrite alter_alter_eq in Ha.
    apply lookup_alter_Some in Ha as [(<- & s' & Ha & ->)|(_ & Ha)]; [|by eapply Hs].
    simpl. destruct (has_callback s'); simpl; by eapply Hs.
  - unfold values, notify. simpl. f_equal. rewrite alter_alter_eq. by apply alter_ext.
Qed.

(** A pointer as it is passed on: shared, or unique. *)
Definition passed (shared : bool) (st : Process) (owned : gset N) (l : N) : Prop :=
  if shared then read_only (messages st) (buffers st) owned l else l ∈ owned.
Definition kept (shared : bool) (owned : gset N) (l : N) : gset N := if shared then owned else owned ∖ {[l]}.

Lemma kept_subset shared owned l : kept shared owned l ⊆ owned.
Proof. destruct shared; simpl; set_solver. Qed.

Lemma passed_in_dom shared st owned l : process_ok st owned -> passed shared st owned l -> l ∈ dom (messages st).
Proof. intros [Hb _]. destruct shared; simpl; [by intros []|apply (ok_live _ _ _ Hb)]. Qed.

Lemma add_effect shared st owned b l v :
  process_ok st owned -> is_Some (buffers st !! b) -> passed shared st owned l -> messages st !! l = Some v ->
  exists st', add_to_buffer shared b (Some l) st = (Ok tt, st') /\ effect st owned st' (kept shared owned l) (push_queue b v).
Proof. destruct shared; [apply add_shared_effect|apply add_unique_effect]. Qed.

Lemma provide_effect shared st owned a s l v :
  process_ok st owned -> subs st !! a = Some s -> passed shared st owned l -> messages st !! l = Some v ->
  exists st', (add_to_buffer shared (sub_buffer s) (Some l);; trigger_guard_condition a;; invoke_on_new_message a) st =
    (Ok tt, st') /\
    effect st owned st' (kept shared owned l) (notify a ∘ push_queue (sub_buffer s) v).
Proof.
  intros Hok Ha Hp Hv.
  destruct (add_effect shared st owned (sub_buffer s) l v) as (st1 & E1 & He1); [done|by eapply ok_subs|done..|].
  destruct (notify_effect st1 (kept shared owned l) a (effect_ok _ _ _ _ _ He1)) as (st2 & E2 & He2).
  exists st2. rewrite (bind_ok _ _ _ _ _ E1). split; [exact E2|]. by eapply effect_trans.
Qed.

Lemma find_object_ok {A} (field : Process -> gmap N A) a x st : field st !! a = Some x -> find_object field a st = (Ok x, st).
Proof. unfold find_object. by intros ->. Qed.

(** A new message that is passed on at once. *)
Lemma fresh_effect shared st owned v :
  process_ok st owned ->
  exists l st', allocate_message v st = (Ok (Some l), st') /\ messages st' !! l = Some v /\
    exists owned', effect st owned st' owned' id /\ passed shared st' owned' l /\ kept shared owned' l = owned.
Proof.
  intros Hok. destruct (allocate_effect st owned v Hok) as (l & st' & E & Hl & Hf & _ & He).
  exists l, st'. split_and!; [done..|].
  assert (Hd : (owned ∪ {[l]}) ∖ {[l]} = owned) by set_solver.
  destruct shared; simpl.
  - exists owned. split_and!; [apply (effect_drop _ _ _ (owned ∪ {[l]})); [set_solver|done]| |done].
    rewrite <- Hd. apply read_only_dropped; [apply He|set_solver].
  - exists (owned ∪ {[l]}). split_and!; [done|set_solver|done].
Qed.

(** What a subscription makes of a ROS message. *)
Definition as_subscribed (s : SubscriptionIntraProcess) (m : V) : V :=
  if (sub_type s =? sub_ros_type s)%N then m else convert_to_custom (sub_type s) (sub_ros_type s) m.

Lemma provide_message_effect shared st owned a s l v :
  process_ok st owned -> subs st !! a = Some s -> passed shared st owned l -> messages st !! l = Some v ->
  exists st', provide_intra_process_message shared a (Some l) st = (Ok tt, st') /\
    effect st owned st' (kept shared owned l) (notify a ∘ push_queue (sub_buffer s) (as_subscribed s v)).
Proof.
  intros Hok Ha Hp Hv. unfold provide_intra_process_message, as_subscribed.
  rewrite (bind_ok _ _ _ _ _ (find_object_ok _ _ _ _ Ha)). destruct (sub_type s =? sub_ros_type s)%N.
  - destruct (provide_effect shared st owned a s l v) as (st' & E & He); [done..|]. exists st'. split; [|done].
    rewrite <- E. unfold mbind, ST_bind. by destruct (add_to_buffer _ _ _ st) as [[]].
  - destruct (fresh_effect shared st owned (convert_to_custom (sub_type s) (sub_ros_type s) v) Hok)
      as (l' & st1 & E1 & Hl' & owned' & He1 & Hp' & Hk).
    assert (Hrest : rest st1 = rest st) by apply He1.
    assert (Ha1 : subs st1 !! a = Some s).
    { by rewrite <- Ha; apply (f_equal (fun x => listeners x !! a) (effect_values _ _ _ _ _ He1)). }
    destruct (provide_effect shared st1 owned' a s l' (convert_to_custom (sub_type s) (sub_ros_type s) v))
      as (st2 & E2 & He2); [apply He1|done..|].
    rewrite Hk in He2. exists st2. split.
    + revert E2. unfold mbind, ST_bind. rewrite (load_ok _ _ _ Hv), E1. by destruct (add_to_buffer _ _ _ st1) as [[]].
    + apply (effect_drop _ _ _ owned); [apply kept_subset|]. by eapply effect_then.
Qed.

(** *** Delivery to one subscription *)

(** The adapters of the types of a publication fit together: a ROS message
    is its own type, and another type has an adapter to the ROS type. *)
Definition coherent (T : MessageTypes) : Prop :=
  if (message_type T =? ros_message_type T)%N
  then adapter_specialized (message_type T) = false /\ pair_specialized (message_type T) (ros_message_type T) = false
  else pair_specialized (message_type T) (ros_message_type T) = true /\
       pair_ros_type (message_type T) (ros_message_type T) = ros_message_type T.

Definition as_ros (T : MessageTypes) (v : V) : V :=
  if (message_type T =? ros_message_type T)%N then v
  else convert_to_ros_message (message_type T) (ros_message_type T) v.

(** What the subscription [s] finds in its buffer after [v] is published. *)
Definition received (T : MessageTypes) (s : SubscriptionIntraProcess) (v : V) : V :=
  match cast T s with
  | ToData => v
  | _ => as_subscribed s (as_ros T v)
  end.

Definition forget (id : Z) (x : Values) : Values := mkValues (queues x) (listeners x) (delete id (known x)).

Definition deliver (T : MessageTypes) (v : V) (x : Values) (id : Z) : Values :=
  match known x !! id with
  | None => x
  | Some a =>
    match listeners x !! a with
    | None => forget id x
    | Some s => notify a (push_queue (sub_buffer s) (received T s v) x)
    end
  end.

(** The subscription is registered, and of the types of the publication if
    it is alive. *)
Definition deliverable (T : MessageTypes) (x : Values) (id : Z) : Prop :=
  match known x !! id with
  | None => False
  | Some a => match listeners x !! a with None => True | Some s => cast T s <> NoCast end
  end.

Lemma erase_effect st owned id :
  process_ok st owned ->
  exists st', erase_subscription id st = (Ok tt, st') /\ effect st owned st' owned (forget id).
Proof. intros [Hb Hs]. eexists. split; [reflexivity|]. by split; [split|..]. Qed.

Lemma find_subscription_effect st owned T id :
  process_ok st owned -> deliverable T (values st) id ->
  (exists st', find_subscription id st = (Ok None, st') /\ effect st owned st' owned (forget id) /\
    forall v, deliver T v (values st) id = forget id (values st)) \/
  (exists a s, find_subscription id st = (Ok (Some a), st) /\ subs st !! a = Some s /\ cast T s <> NoCast /\
    forall v, deliver T v (values st) id = notify a (push_queue (sub_buffer s) (received T s v) (values st))).
Proof.
  intros Hok. unfold deliverable, find_subscription, deliver. simpl.
  destruct (subscriptions_ (manager st) !! id) as [a|] eqn:Ea; [|done].
  destruct (subs st !! a) as [s|] eqn:Es.
  - intros Hc. right. exists a, s. split_and!; try done. unfold mbind, ST_bind, get. by rewrite Ea, bool_decide_true by eauto.
  - intros _. left. destruct (erase_effect st owned id Hok) as (st' & E & He). exists st'. split_and!; try done.
    unfold mbind, ST_bind, get. rewrite Ea, bool_decide_false by (rewrite Es; by intros []). by rewrite E.
Qed.

(** A message of the process's own type is converted where it must be. *)
Lemma convert_provide_effect shared st owned a s l v w :
  process_ok st owned -> subs st !! a = Some s -> messages st !! l = Some v ->
  exists st', (x ← load (Some l); p ← allocate_message (w x); provide_intra_process_message shared a p) st = (Ok tt, st') /\
    effect st owned st' owned (notify a ∘ push_queue (sub_buffer s) (as_subscribed s (w v))).
Proof.
  intros Hok Ha Hv. rewrite (bind_ok _ _ _ _ _ (load_ok _ _ _ Hv)).
  destruct (fresh_effect shared st owned (w v) Hok) as (l' & st1 & E1 & Hl' & owned' & He1 & Hp' & Hk).
  assert (Ha1 : subs st1 !! a = Some s).
  { by rewrite <- Ha; apply (f_equal (fun x => listeners x !! a) (effect_values _ _ _ _ _ He1)). }
  rewrite (bind_ok _ _ _ _ _ E1).
  destruct (provide_message_effect shared st1 owned' a s l' (w v)) as (st2 & E2 & He2); [apply He1|done..|].
  rewrite Hk in He2. exists st2. split; [done|]. by eapply effect_then.
Qed.

Lemma add_shared_msg_effect T st owned l v id :
  coherent T -> process_ok st owned -> deliverable T (values st) id ->
  read_only (messages st) (buffers st) owned l -> messages st !! l = Some v ->
  exists st', add_shared_msg T (Some l) id st = (Ok tt, st') /\ effect st owned st' owned (fun x => deliver T v x id).
Proof.
  intros HT Hok Hd Hro Hv. unfold add_shared_msg.
  destruct (find_subscription_effect st owned T id Hok Hd) as [(st' & E & He & Hdel)|(a & s & E & Ha & Hc & Hdel)].
  - rewrite (bind_ok _ _ _ _ _ E). exists st'. split; [done|]. eapply effect_ext; [|exact He]. by rewrite Hdel.
  - rewrite (bind_ok _ _ _ _ _ E), (bind_ok _ _ _ _ _ (find_object_ok _ _ _ _ Ha)).
    enough (Hgoal : exists st', (match cast T s with
      | ToData => provide_intra_process_data true a (Some l)
      | ToMessage => if adapter_specialized (message_type T) then
          x ← load (Some l); p ← allocate_message (convert_to_ros_message (message_type T) (ros_message_type T) x); provide_intra_process_message true a p
        else if (message_type T =? ros_message_type T)%N then provide_intra_process_message true a (Some l)
        else if (pair_ros_type (message_type T) (ros_message_type T) =? ros_message_type T)%N then
          x ← load (Some l); p ← allocate_message (convert_to_ros_message (message_type T) (ros_message_type T) x); provide_intra_process_message true a p
        else mret tt
      | NoCast => throw BadCast end) st = (Ok tt, st') /\
      effect st owned st' owned (notify a ∘ push_queue (sub_buffer s) (received T s v))).
    { destruct Hgoal as (st' & E' & He). exists st'. split; [exact E'|]. eapply effect_ext; [|exact He]. by rewrite Hdel. }
    unfold received. destruct (cast T s) eqn:Ecast; [| |done].
    + unfold provide_intra_process_data. rewrite (bind_ok _ _ _ _ _ (find_object_ok _ _ _ _ Ha)).
      by apply (provide_effect true).
    + unfold coherent in HT. unfold as_ros. destruct (message_type T =? ros_message_type T)%N eqn:ET.
      * destruct HT as [-> _]. by apply (provide_message_effect true).
      * destruct HT as [_ Hpair]. rewrite Hpair, N.eqb_refl.
        destruct (convert_provide_effect true st owned a s l v (convert_to_ros_message (message_type T) (ros_message_type T)))
          as (st' & E' & He'); [done..|].
        exists st'. by destruct (adapter_specialized (message_type T)).
Qed.

(** *** Delivery to all *)

Lemma cast_notified T s : cast T (notified s) = cast T s.
Proof. unfold notified. by destruct (has_callback s). Qed.

Lemma deliver_deliverable T v x id i : id <> i -> deliverable T x i -> deliverable T (deliver T v x id) i.
Proof.
  intros Hne. unfold deliver. destruct (known x !! id) as [a|] eqn:Ea; [|done].
  destruct (listeners x !! a) as [s|] eqn:Es; unfold deliverable; simpl.
  - destruct (known x !! i) as [b|]; [|done]. destruct (decide (a = b)) as [<-|Hab].
    + rewrite lookup_alter_eq, Es. simpl. by rewrite cast_notified.
    + by rewrite lookup_alter_ne.
  - by rewrite lookup_delete_ne.
Qed.

Lemma deliverable_step T v x id ids :
  NoDup (id :: ids) -> Forall (deliverable T x) (id :: ids) -> Forall (deliverable T (deliver T v x id)) ids.
Proof.
  intros [Hn _]%NoDup_cons [_ Hf]%Forall_cons. apply Forall_forall. intros i Hi.
  apply deliver_deliverable; [by intros ->|]. by apply (proj1 (Forall_forall _ _) Hf).
Qed.

Lemma effect_message st o st' o' f l v : effect st o st' o' f -> messages st !! l = Some v -> messages st' !! l = Some v.
Proof. intros He Hl. eapply lookup_weaken; [exact Hl|apply He]. Qed.

Lemma add_shared_msgs_effect T l v ids : forall st owned,
  coherent T -> process_ok st owned -> NoDup ids -> Forall (deliverable T (values st)) ids ->
  read_only (messages st) (buffers st) owned l -> messages st !! l = Some v ->
  exists st', add_shared_msg_to_buffers T (Some l) ids st = (Ok tt, st') /\
    effect st owned st' owned (fun x => foldl (deliver T v) x ids).
Proof.
  unfold add_shared_msg_to_buffers.
  induction ids as [|id ids IH]; intros st owned HT Hok Hnd Hd Hro Hv; cbn [for_each].
  { exists st. split; [done|]. by apply effect_id. }
  destruct (add_shared_msg_effect T st owned l v id) as (st1 & E1 & He1); [done..|by inversion Hd|done|done|].
  destruct (IH st1 owned) as (st2 & E2 & He2); [done|apply He1|by inversion Hnd| | |by eapply effect_message|].
  - rewrite (effect_values _ _ _ _ _ He1). by apply deliverable_step.
  - by apply He1.
  - exists st2. rewrite (bind_ok _ _ _ _ _ E1). split; [done|]. by eapply effect_then.
Qed.

Lemma copy_push_effect T st owned a s l v w :
  process_ok st owned -> subs st !! a = Some s -> messages st !! l = Some v -> l ∈ owned ->
  (forall st o k, process_ok st o -> subs st !! a = Some s -> k ∈ o -> messages st !! k = Some v ->
     exists st', T (Some k) st = (Ok tt, st') /\ effect st o st' (o ∖ {[k]}) w) ->
  exists st', (p ← copy (Some l); T p) st = (Ok tt, st') /\ effect st owned st' owned w.
Proof.
  intros Hok Ha Hv Hl HT. destruct (copy_effect st owned l v Hok Hv) as (l' & st1 & E1 & Hl' & Hf & _ & He1).
  assert (Ha1 : subs st1 !! a = Some s).
  { by rewrite <- Ha; apply (f_equal (fun x => listeners x !! a) (effect_values _ _ _ _ _ He1)). }
  destruct (HT st1 (owned ∪ {[l']}) l') as (st2 & E2 & He2); [apply He1|done|set_solver|done|].
  exists st2. rewrite (bind_ok _ _ _ _ _ E1). split; [done|].
  apply (effect_drop _ _ _ ((owned ∪ {[l']}) ∖ {[l']})); [set_solver|]. by eapply effect_then.
Qed.

(** A subscription that is not the last gets a copy; the last one gets the
    message itself. *)
Lemma give_copy (give : Ptr -> M unit) (next : M unit) st owned a s l v w :
  process_ok st owned -> subs st !! a = Some s -> messages st !! l = Some v -> l ∈ owned ->
  (forall st o k, process_ok st o -> subs st !! a = Some s -> k ∈ o -> messages st !! k = Some v ->
     exists st', give (Some k) st = (Ok tt, st') /\ effect st o st' (o ∖ {[k]}) w) ->
  exists st', (p ← copy (Some l); give p;; next) st = next st' /\ effect st owned st' owned w.
Proof.
  intros Hok Ha Hv Hl Hg. destruct (copy_push_effect give st owned a s l v w) as (st1 & E1 & He1); [done..|].
  exists st1. split; [|done]. revert E1. unfold mbind, ST_bind.
  destruct (copy (Some l) st) as [[p|] st0]; [|done]. destruct (give p st0) as [[[]|] st0']; [|done]. by intros [= ->].
Qed.

Lemma provide_data_effect st owned a s l v :
  process_ok st owned -> subs st !! a = Some s -> l ∈ owned -> messages st !! l = Some v ->
  exists st', provide_intra_process_data false a (Some l) st = (Ok tt, st') /\
    effect st owned st' (owned ∖ {[l]}) (notify a ∘ push_queue (sub_buffer s) v).
Proof.
  intros Hok Ha Hl Hv. unfold provide_intra_process_data. rewrite (bind_ok _ _ _ _ _ (find_object_ok _ _ _ _ Ha)).
  by apply (provide_effect false).
Qed.

(** One subscription of the loop that gives the message away. *)
Lemma add_owned_step T l v id ids st owned :
  coherent T -> process_ok st owned -> deliverable T (values st) id -> l ∈ owned -> messages st !! l = Some v ->
  (exists st1, add_owned_msg_to_buffers T (Some l) (id :: ids) st = add_owned_msg_to_buffers T (Some l) ids st1 /\
     effect st owned st1 owned (fun x => deliver T v x id)) \/
  (ids = [] /\ exists st', add_owned_msg_to_buffers T (Some l) [id] st = (Ok tt, st') /\
     effect st owned st' (owned ∖ {[l]}) (fun x => deliver T v x id)).
Proof.
  intros HT Hok Hd Hl Hv. cbn [add_owned_msg_to_buffers].
  destruct (find_subscription_effect st owned T id Hok Hd) as [(st1 & E & He & Hdel)|(a & s & E & Ha & Hc & Hdel)].
  { left. exists st1. rewrite (bind_ok _ _ _ _ _ E). split; [done|]. eapply effect_ext; [|exact He]. by rewrite Hdel. }
  set (w := notify a ∘ push_queue (sub_buffer s) (received T s v)).
  assert (Hw : forall st1 o, effect st owned st1 o w -> effect st owned st1 o (fun x => deliver T v x id)).
  { intros st1 o. apply effect_ext. by rewrite Hdel. }
  rewrite !(bind_ok _ _ _ _ _ E), !(bind_ok _ _ _ _ _ (find_object_ok _ _ _ _ Ha)).
  assert (Hgive : forall give : Ptr -> M unit,
    (forall st o k, process_ok st o -> subs st !! a = Some s -> k ∈ o -> messages st !! k = Some v ->
       exists st', give (Some k) st = (Ok tt, st') /\ effect st o st' (o ∖ {[k]}) w) ->
    (exists st1, (if bool_decide (ids = []) then give (Some l)
                 else p ← copy (Some l); give p;; add_owned_msg_to_buffers T (Some l) ids) st =
                 add_owned_msg_to_buffers T (Some l) ids st1 /\ effect st owned st1 owned (fun x => deliver T v x id)) \/
    (ids = [] /\ exists st', give (Some l) st = (Ok tt, st') /\
       effect st owned st' (owned ∖ {[l]}) (fun x => deliver T v x id))).
  { intros give Hg. case_bool_decide as Hids.
    - right. split; [done|]. destruct (Hg st owned l) as (st' & E' & He'); [done..|]. eauto.
    - left. destruct (give_copy give (add_owned_msg_to_buffers T (Some l) ids) st owned a s l v w) as (st1 & E1 & He1); [done..|].
      eauto. }
  rewrite (bool_decide_true ([] = [])) by done. unfold received in w. destruct (cast T s) eqn:Ecast; [| |done].
  - apply Hgive. intros. by apply provide_data_effect.
  - unfold coherent in HT. unfold as_ros in w. destruct (message_type T =? ros_message_type T)%N eqn:ET.
    + destruct HT as [_ ->]. apply Hgive. intros. by apply (provide_message_effect false).
    + destruct HT as [-> _]. left.
      destruct (convert_provide_effect false st owned a s l v (convert_to_ros_message (message_type T) (ros_message_type T)))
        as (st1 & E1 & He1); [done..|].
      exists st1. split; [|by apply Hw]. revert E1. unfold mbind, ST_bind. destruct (load (Some l) st) as [[x|] st0]; [|done].
      destruct (allocate_message _ st0) as [[p|] st0']; [|done].
      destruct (provide_intra_process_message false a p st0') as [[[]|] st0'']; [|done]. by intros [= ->].
Qed.

Lemma add_owned_msgs_effect T l v ids : forall st owned,
  coherent T -> process_ok st owned -> NoDup ids -> Forall (deliverable T (values st)) ids ->
  l ∈ owned -> messages st !! l = Some v ->
  exists st', add_owned_msg_to_buffers T (Some l) ids st = (Ok tt, st') /\
    effect st owned st' (owned ∖ {[l]}) (fun x => foldl (deliver T v) x ids).
Proof.
  induction ids as [|id ids IH]; intros st owned HT Hok Hnd Hd Hl Hv.
  { exists st. split; [done|]. apply (effect_drop _ _ _ owned); [set_solver|]. by apply effect_id. }
  destruct (add_owned_step T l v id ids st owned) as [(st1 & -> & He1)|(-> & Hlast)]; [done..|by inversion Hd|done|done| |done].
  destruct (IH st1 owned) as (st2 & E2 & He2); [done|apply He1|by inversion Hnd| |done|by eapply effect_message|].
  - rewrite (effect_values _ _ _ _ _ He1). by apply deliverable_step.
  - exists st2. split; [done|]. by eapply effect_then.
Qed.

Lemma Forall_deliverable T v ids js x :
  (forall i, i ∈ ids -> i ∉ js) -> Forall (deliverable T x) js -> Forall (deliverable T (foldl (deliver T v) x ids)) js.
Proof.
  revert x. induction ids as [|i ids IH]; intros x Hdis Hd; [done|]. simpl. apply IH.
  { intros k Hk. apply Hdis. by right. }
  apply Forall_forall. intros k Hk. apply deliver_deliverable.
  - intros ->. apply (Hdis k); [by left|done].
  - by apply (proj1 (Forall_forall _ _) Hd).
Qed.

Lemma effect_owned_less st owned owned' st' f :
  owned' ⊆ owned -> effect st owned' st' owned' f -> effect st owned st' owned' f.
Proof.
  intros Hsub [Ho Hv Hg Hr He]. split; try done. intros k (? & ? & ?). apply Hr. split_and!; [done|set_solver|done].
Qed.

Lemma process_ok_mono st owned owned' : owned' ⊆ owned -> process_ok st owned -> process_ok st owned'.
Proof. intros Hsub [Hb Hs]. split; [by eapply buffers_ok_mono|done]. Qed.

(** *** Publication *)


Definition targets (s : SplittedSubscriptions) : list Z := take_shared_subscriptions s ++ take_ownership_subscriptions s.

Lemma publish_effect T pub_id subs_of st owned l v :
  coherent T -> process_ok st owned -> pub_to_subs_ (manager st) !! pub_id = Some subs_of ->
  NoDup (targets subs_of) -> Forall (deliverable T (values st)) (targets subs_of) ->
  l ∈ owned -> messages st !! l = Some v ->
  exists st', do_intra_process_publish T pub_id (Some l) st = (Ok tt, st') /\
    effect st owned st' (owned ∖ {[l]}) (fun x => foldl (deliver T v) x (targets subs_of)).
Proof.
  intros HT Hok Hsubs Hnd Hd Hl Hv. unfold do_intra_process_publish, targets in *. destruct subs_of as [shared owning]. simpl in *.
  rewrite get_bind, Hsubs. cbn [take_shared_subscriptions take_ownership_subscriptions].
  pose proof (proj1 (NoDup_app _ _) Hnd) as (Hnd1 & Hdis & Hnd2). apply Forall_app in Hd as Hd'. destruct Hd' as [Hd1 Hd2].
  case_bool_decide as Hown.
  - subst owning. rewrite app_nil_r in *.
    pose proof (read_only_dropped _ _ _ Hok Hl) as Hro.
    destruct (add_shared_msgs_effect T l v shared st (owned ∖ {[l]})) as (st' & E & He);
      [done|eapply process_ok_mono; [|done]; set_solver|done..|].
    exists st'. split; [done|]. by apply effect_owned_less; [set_solver|].
  - destruct (length shared <=? 1)%nat; [by apply add_owned_msgs_effect|].
    destruct (fresh_effect true st owned v Hok) as (l' & st1 & E1 & Hl' & o & He1 & Hro & Ho). simpl in Hro, Ho. subst o.
    assert (Ec : copy (Some l) st = (Ok (Some l'), st1)) by (unfold copy; by rewrite (bind_ok _ _ _ _ _ (load_ok _ _ _ Hv))).
    rewrite (bind_ok _ _ _ _ _ Ec).
    destruct (add_shared_msgs_effect T l' v shared st1 owned) as (st2 & E2 & He2); [done|apply He1|done| |done|done|].
    { by rewrite (effect_values _ _ _ _ _ He1). }
    rewrite (bind_ok _ _ _ _ _ E2).
    destruct (add_owned_msgs_effect T l v owning st2 owned) as (st3 & E3 & He3); [done|apply He2|done| |done| |].
    + rewrite (effect_values _ _ _ _ _ He2), (effect_values _ _ _ _ _ He1). by apply Forall_deliverable.
    + eapply effect_message; [exact He2|]. by eapply effect_message.
    + exists st3. split; [done|]. 
      apply (effect_then _ _ _ _ _ _ _ _ _ (effect_trans _ _ _ _ _ _ _ _ He1 He2) He3). intros x. simpl. by rewrite foldl_app.
Qed.

Lemma return_shared_effect T pub_id subs_of st owned l v :
  coherent T -> process_ok st owned -> pub_to_subs_ (manager st) !! pub_id = Some subs_of ->
  NoDup (targets subs_of) -> Forall (deliverable T (values st)) (targets subs_of) ->
  l ∈ owned -> messages st !! l = Some v ->
  exists k st', do_intra_process_publish_and_return_shared T pub_id (Some l) st = (Ok (Some k), st') /\
    messages st' !! k = Some v /\ read_only (messages st') (buffers st') (owned ∖ {[l]}) k /\
    effect st owned st' (owned ∖ {[l]}) (fun x => foldl (deliver T v) x (targets subs_of)).
Proof.
  intros HT Hok Hsubs Hnd Hd Hl Hv. unfold do_intra_process_publish_and_return_shared, targets in *. destruct subs_of as [shared owning].
  rewrite get_bind, Hsubs. cbn [take_shared_subscriptions take_ownership_subscriptions] in *.
  pose proof (proj1 (NoDup_app _ _) Hnd) as (Hnd1 & Hdis & Hnd2). apply Forall_app in Hd as Hd'. destruct Hd' as [Hd1 Hd2].
  assert (Hskip : forall k, (if bool_decide (shared = []) then mret tt else add_shared_msg_to_buffers T (Some k) shared) =
    add_shared_msg_to_buffers T (Some k) shared) by (intros k; by case_bool_decide as Hs; [rewrite Hs|]).
  destruct (bool_decide_reflect (owning = [])) as [Hown|Hown].
  - subst owning. rewrite app_nil_r in *. pose proof (read_only_dropped _ _ _ Hok Hl) as Hro.
    destruct (add_shared_msgs_effect T l v shared st (owned ∖ {[l]})) as (st' & E & He);
      [done|eapply process_ok_mono; [|done]; set_solver|done..|].
    exists l, st'. rewrite Hskip, (bind_ok _ _ _ _ _ E). split_and!; [done|by eapply effect_message|by apply He|].
    by apply effect_owned_less; [set_solver|].
  - destruct (fresh_effect true st owned v Hok) as (l' & st1 & E1 & Hl' & o & He1 & Hro & Ho). simpl in Hro, Ho. subst o.
    assert (Ec : copy (Some l) st = (Ok (Some l'), st1)) by (unfold copy; by rewrite (bind_ok _ _ _ _ _ (load_ok _ _ _ Hv))).
    rewrite (bind_ok _ _ _ _ _ Ec).
    destruct (add_shared_msgs_effect T l' v shared st1 owned) as (st2 & E2 & He2); [done|apply He1|done| |done|done|].
    { by rewrite (effect_values _ _ _ _ _ He1). }
    rewrite Hskip, (bind_ok _ _ _ _ _ E2).
    destruct (add_owned_msgs_effect T l v owning st2 owned) as (st3 & E3 & He3); [done|apply He2|done| |done| |].
    + rewrite (effect_values _ _ _ _ _ He2), (effect_values _ _ _ _ _ He1). by apply Forall_deliverable.
    + eapply effect_message; [exact He2|]. by eapply effect_message.
    + exists l', st3. rewrite (bind_ok _ _ _ _ _ E3). split_and!; [done| |by apply He3, He2|].
      * eapply effect_message; [exact He3|]. by eapply effect_message.
      * apply (effect_then _ _ _ _ _ _ _ _ _ (effect_trans _ _ _ _ _ _ _ _ He1 He2) He3). intros x. simpl. by rewrite foldl_app.
Qed.

(** The live subscriptions among [ids] have buffers of their own. *)
Definition own_buffers (x : Values) (ids : list Z) : Prop :=
  forall i j a b s t, i ∈ ids -> j ∈ ids -> i <> j -> known x !! i = Some a -> known x !! j = Some b ->
    listeners x !! a = Some s -> listeners x !! b = Some t -> sub_buffer s <> sub_buffer t.

Lemma sub_buffer_notified s : sub_buffer (notified s) = sub_buffer s.
Proof. unfold notified. by destruct (has_callback s). Qed.

(** The buffer [b] is that of a live subscription among [ids]. *)
Definition serves (x : Values) (ids : list Z) (b : N) : Prop :=
  exists i a s, i ∈ ids /\ known x !! i = Some a /\ listeners x !! a = Some s /\ sub_buffer s = b.

Lemma deliver_serves T v x id ids b : serves (deliver T v x id) ids b -> serves x ids b.
Proof.
  unfold deliver. destruct (known x !! id) as [a|] eqn:Ea; [|done]. destruct (listeners x !! a) as [s|] eqn:Es;
    intros (i & c & t & Hi & Hc & Ht & Hb); exists i, c; simpl in *.
  - apply lookup_alter_Some in Ht as [(<- & t' & Ht & ->)|(_ & Ht)]; [|by exists t].
    exists t'. split_and!; [done..|by rewrite <- Hb, sub_buffer_notified].
  - apply lookup_delete_Some in Hc as [_ Hc]. by exists t.
Qed.

Lemma foldl_other_queue T v ids b x : ~ serves x ids b -> queues (foldl (deliver T v) x ids) !! b = queues x !! b.
Proof.
  revert x. induction ids as [|id ids IH]; intros x Hb; [done|]. simpl. rewrite IH.
  - unfold deliver. destruct (known x !! id) as [a|] eqn:Ea; [|done]. destruct (listeners x !! a) as [s|] eqn:Es; [|done].
    simpl. apply lookup_alter_ne. intros E. apply Hb. exists id, a, s. split_and!; [by left|done..].
  - intros Hs. apply Hb. apply deliver_serves in Hs as (i & a & s & Hi & Hs). exists i, a, s. split; [by right|done].
Qed.

Lemma foldl_serves T v l x ids b : serves (foldl (deliver T v) x l) ids b -> serves x ids b.
Proof. revert x. induction l as [|j l IH]; intros x Hb; [done|]. by eapply deliver_serves, IH. Qed.

(** Deliveries to other subscriptions. *)
Lemma foldl_keeps T v l i a s : forall x,
  known x !! i = Some a -> listeners x !! a = Some s -> (forall j, j ∈ l -> j <> i /\ known x !! j <> Some a) ->
  known (foldl (deliver T v) x l) !! i = Some a /\ listeners (foldl (deliver T v) x l) !! a = Some s.
Proof.
  induction l as [|j l IH]; intros x Hi Ha Hno; [done|]. destruct (Hno j) as [Hji Hja]; [by left|]. simpl. apply IH.
  - unfold deliver. destruct (known x !! j) as [b|]; [|done]. destruct (listeners x !! b); simpl; [done|].
    by rewrite lookup_delete_ne.
  - unfold deliver. destruct (known x !! j) as [b|]; [|done]. destruct (listeners x !! b); simpl; [|done].
    rewrite lookup_alter_ne; [done|congruence].
  - intros k Hk. destruct (Hno k) as [Hki Hka]; [by right|]. split; [done|]. unfold deliver.
    destruct (known x !! j) as [b|]; [|done]. destruct (listeners x !! b); simpl; [done|].
    intros [_ ?]%lookup_delete_Some. done.
Qed.

Lemma foldl_queue T v ids x i a s :
  NoDup ids -> own_buffers x ids -> i ∈ ids -> known x !! i = Some a -> listeners x !! a = Some s ->
  queues (foldl (deliver T v) x ids) !! sub_buffer s = push (received T s v) <$> queues x !! sub_buffer s.
Proof.
  intros Hnd Hown Hi Ha Hs. apply list_elem_of_split in Hi as (l1 & l2 & ->). rewrite foldl_app. cbn [foldl].
  apply NoDup_app in Hnd as (_ & Hdis & [Hn2 _]%NoDup_cons).
  assert (Hout : forall l, (forall j, j ∈ l -> j ∈ l1 ++ i :: l2 /\ j <> i) -> ~ serves x l (sub_buffer s)).
  { intros l Hl (j & b & t & Hj & Hb & Ht & E). destruct (Hl j Hj) as [Hin Hji].
    apply (Hown j i b a t s); [done|set_solver|done..]. }
  assert (H1 : forall j, j ∈ l1 -> j ∈ l1 ++ i :: l2 /\ j <> i).
  { intros j Hj. split; [set_solver|]. intros ->. apply (Hdis i Hj). by left. }
  destruct (foldl_keeps T v l1 i a s x Ha Hs) as [Ha1 Hs1].
  { intros j Hj. destruct (H1 j Hj) as [Hin Hji]. split; [done|]. intros Hja. apply (Hown j i a a s s); [done|set_solver|done..]. }
  rewrite foldl_other_queue.
  - unfold deliver at 1. rewrite Ha1, Hs1. simpl. rewrite lookup_alter_eq. f_equal. by apply foldl_other_queue, Hout.
  - intros Hb%deliver_serves%foldl_serves. revert Hb. apply Hout. intros j Hj. split; [set_solver|]. by intros ->.
Qed.

(** C35: a publication reaches everyone.  The message that a publisher gives
    away arrives once in the buffer of every subscription matched with it
    that is alive, converted to the type it stores, and no other buffer
    changes.  However the subscriptions divide into those that take
    ownership and those that share, all get the contents published, and
    afterwards the messages that can be written to have one holder each. *)
Theorem do_intra_process_publish_delivers T pub_id subs_of st owned l v :
  coherent T -> process_ok st owned -> pub_to_subs_ (manager st) !! pub_id = Some subs_of ->
  NoDup (targets subs_of) -> Forall (deliverable T (values st)) (targets subs_of) ->
  own_buffers (values st) (targets subs_of) ->
  l ∈ owned -> messages st !! l = Some v ->
  exists st', do_intra_process_publish T pub_id (Some l) st = (Ok tt, st') /\ process_ok st' (owned ∖ {[l]}) /\
    (forall i a s q, i ∈ targets subs_of -> subscriptions_ (manager st) !! i = Some a -> subs st !! a = Some s ->
       buffers st !! sub_buffer s = Some q ->
       exists q', buffers st' !! sub_buffer s = Some q' /\
         contents (messages st') q' = fifo_enqueue (q_capacity q) (contents (messages st) q) (received T s v)) /\
    (forall b q, buffers st !! b = Some q -> ~ serves (values st) (targets subs_of) b ->
       exists q', buffers st' !! b = Some q' /\ contents (messages st') q' = contents (messages st) q).
Proof.
  intros HT Hok Hsubs Hnd Hd Hown Hl Hv.
  destruct (publish_effect T pub_id subs_of st owned l v) as (st' & E & He); [done..|].
  exists st'. split_and!; [done|apply He|..].
  - intros i a s q Hi Ha Hs Hq.
    pose proof (foldl_queue T v _ (values st) i a s Hnd Hown Hi Ha Hs) as Hf.
    rewrite <- (effect_values _ _ _ _ _ He) in Hf. simpl in Hf. rewrite !lookup_fmap, Hq in Hf. simpl in Hf.
    destruct (buffers st' !! sub_buffer s) as [q'|]; simpl in Hf; [|done]. exists q'. split; [done|]. by injection Hf.
  - intros b q Hq Hb. pose proof (foldl_other_queue T v _ b (values st) Hb) as Hf.
    rewrite <- (effect_values _ _ _ _ _ He) in Hf. simpl in Hf. rewrite !lookup_fmap, Hq in Hf.
    destruct (buffers st' !! b) as [q'|]; simpl in Hf; [|done]. exists q'. split; [done|]. by injection Hf.
Qed.

(** *** Subscriptions that have gone *)

(** A subscription that was forgotten, or one that can be served. *)
Definition served_or_gone (T : MessageTypes) (x : Values) (id : Z) : Prop :=
  deliverable T x id \/ known x !! id = None.

Lemma deliver_gone T v x id i : known x !! i = None -> known (deliver T v x id) !! i = None.
Proof.
  intros Hi. unfold deliver. destruct (known x !! id) as [a|]; [|done].
  destruct (listeners x !! a); simpl; [done|]. by apply lookup_delete_None; right.
Qed.

Lemma served_step T v x id ids :
  NoDup (id :: ids) -> Forall (served_or_gone T x) ids -> Forall (served_or_gone T (deliver T v x id)) ids.
Proof.
  intros [Hn _]%NoDup_cons Hf. apply Forall_forall. intros i Hi.
  destruct (proj1 (Forall_forall _ _) Hf i Hi) as [Hd|Hg].
  - left. apply deliver_deliverable; [by intros ->|done].
  - right. by apply deliver_gone.
Qed.

Lemma foldl_gone T v ids x i : known x !! i = None -> known (foldl (deliver T v) x ids) !! i = None.
Proof. revert x. induction ids as [|j ids IH]; intros x Hi; [done|]. by apply IH, deliver_gone. Qed.

Lemma foldl_served T v ids js x :
  (forall i, i ∈ ids -> i ∉ js) -> Forall (served_or_gone T x) js -> Forall (served_or_gone T (foldl (deliver T v) x ids)) js.
Proof.
  intros Hdis Hf. apply Forall_forall. intros k Hk. destruct (proj1 (Forall_forall _ _) Hf k Hk) as [Hd|Hn].
  - left. refine (proj1 (Forall_singleton _ _) (Forall_deliverable T v ids [k] x _ _)); [set_solver|by apply Forall_singleton].
  - right. by apply foldl_gone.
Qed.

Lemma find_subscription_gone st id : subscriptions_ (manager st) !! id = None -> find_subscription id st = (Throw OutOfScope, st).
Proof. intros Hid. unfold find_subscription. by rewrite get_bind, Hid. Qed.

Lemma add_shared_gone T l v i ids : forall st owned,
  coherent T -> process_ok st owned -> NoDup ids -> Forall (served_or_gone T (values st)) ids ->
  i ∈ ids -> known (values st) !! i = None -> read_only (messages st) (buffers st) owned l -> messages st !! l = Some v ->
  exists st', add_shared_msg_to_buffers T (Some l) ids st = (Throw OutOfScope, st').
Proof.
  unfold add_shared_msg_to_buffers.
  induction ids as [|id ids IH]; intros st owned HT Hok Hnd Hd Hi Hg Hro Hv; [by apply elem_of_nil in Hi|]. cbn [for_each].
  apply Forall_cons in Hd as [[Hd|Hn] Hds].
  - destruct (add_shared_msg_effect T st owned l v id) as (st1 & E1 & He1); [done..|].
    rewrite (bind_ok _ _ _ _ _ E1). apply (IH st1 owned); [done|apply He1|by inversion Hnd| | | |by apply He1|by eapply effect_message].
    + rewrite (effect_values _ _ _ _ _ He1). by apply served_step.
    + apply elem_of_cons in Hi as [->|Hi]; [|done]. unfold deliverable in Hd. by rewrite Hg in Hd.
    + rewrite (effect_values _ _ _ _ _ He1). by apply deliver_gone.
  - exists st. unfold add_shared_msg. do 2 (erewrite bind_throw; [reflexivity|]). by apply find_subscription_gone.
Qed.

Lemma add_owned_gone T l v i ids : forall st owned,
  coherent T -> process_ok st owned -> NoDup ids -> Forall (served_or_gone T (values st)) ids ->
  i ∈ ids -> known (values st) !! i = None -> l ∈ owned -> messages st !! l = Some v ->
  exists st', add_owned_msg_to_buffers T (Some l) ids st = (Throw OutOfScope, st').
Proof.
  induction ids as [|id ids IH]; intros st owned HT Hok Hnd Hd Hi Hg Hl Hv; [by apply elem_of_nil in Hi|].
  apply Forall_cons in Hd as [[Hd|Hn] Hds].
  - assert (Hne : i ∈ ids).
    { apply elem_of_cons in Hi as [->|Hi]; [|done]. unfold deliverable in Hd. by rewrite Hg in Hd. }
    destruct (add_owned_step T l v id ids st owned) as [(st1 & -> & He1)|(-> & _)]; [done..| |by apply elem_of_nil in Hne].
    apply (IH st1 owned); [done|apply He1|by inversion Hnd| |done| |done|by eapply effect_message].
    + rewrite (effect_values _ _ _ _ _ He1). by apply served_step.
    + rewrite (effect_values _ _ _ _ _ He1). by apply deliver_gone.
  - exists st. cbn [add_owned_msg_to_buffers]. erewrite bind_throw; [reflexivity|]. by apply find_subscription_gone.
Qed.

Lemma publish_gone T pub_id subs_of st owned l v i :
  coherent T -> process_ok st owned -> pub_to_subs_ (manager st) !! pub_id = Some subs_of ->
  NoDup (targets subs_of) -> Forall (served_or_gone T (values st)) (targets subs_of) ->
  i ∈ targets subs_of -> known (values st) !! i = None -> l ∈ owned -> messages st !! l = Some v ->
  exists st', do_intra_process_publish T pub_id (Some l) st = (Throw OutOfScope, st').
Proof.
  intros HT Hok Hsubs Hnd Hd Hi Hg Hl Hv. unfold do_intra_process_publish, targets in *. destruct subs_of as [shared owning].
  rewrite get_bind, Hsubs. cbn [take_shared_subscriptions take_ownership_subscriptions] in *.
  pose proof (proj1 (NoDup_app _ _) Hnd) as (Hnd1 & Hdis & Hnd2). apply Forall_app in Hd as Hd'. destruct Hd' as [Hd1 Hd2].
  case_bool_decide as Hown.
  - subst owning. rewrite app_nil_r in *.
    by apply (add_shared_gone T l v i shared st (owned ∖ {[l]}));
      [|eapply process_ok_mono; [|done]; set_solver|..|apply read_only_dropped|].
  - destruct (length shared <=? 1)%nat; [by eapply add_owned_gone|].
    destruct (fresh_effect true st owned v Hok) as (l' & st1 & E1 & Hl' & o & He1 & Hro & Ho). simpl in Hro, Ho. subst o.
    assert (Ec : copy (Some l) st = (Ok (Some l'), st1)) by (unfold copy; by rewrite (bind_ok _ _ _ _ _ (load_ok _ _ _ Hv))).
    rewrite (bind_ok _ _ _ _ _ Ec).
    assert (Ev : values st1 = values st) by apply He1.
    destruct (decide (i ∈ shared)) as [His|His].
    { destruct (add_shared_gone T l' v i shared st1 owned) as (st2 & E2); [done|apply He1|done|by rewrite Ev|done|by rewrite Ev|done..|].
      exists st2. by rewrite (bind_throw _ _ _ _ _ E2). }
    apply elem_of_app in Hi as [Hi|Hi]; [done|].
    destruct (decide (Forall (fun j => is_Some (known (values st) !! j)) shared)) as [Hk|Hk].
    + destruct (add_shared_msgs_effect T l' v shared st1 owned) as (st2 & E2 & He2); [done|apply He1|done| |done|done|].
      { rewrite Ev. apply Forall_forall. intros j Hj. rewrite Forall_forall in Hd1, Hk.
        destruct (Hd1 j Hj) as [?|Hn]; [done|]. destruct (Hk j Hj) as [? Hs]. by rewrite Hn in Hs. }
      rewrite (bind_ok _ _ _ _ _ E2).
      eapply (add_owned_gone T l v i owning st2 owned); [done|apply He2|done| |done| |done|].
      * rewrite (effect_values _ _ _ _ _ He2), Ev. by apply foldl_served.
      * rewrite (effect_values _ _ _ _ _ He2), Ev. by apply foldl_gone.
      * eapply effect_message; [exact He2|]. by eapply effect_message.
    + apply not_Forall_Exists in Hk; [|apply _]. apply Exists_exists in Hk as (j & Hj & Hjn).
      apply eq_None_not_Some in Hjn.
      destruct (add_shared_gone T l' v j shared st1 owned) as (st2 & E2); [done|apply He1|done|by rewrite Ev|done|by rewrite Ev|done..|].
      exists st2. by rewrite (bind_throw _ _ _ _ _ E2).
Qed.

Lemma foldl_known T v ids x i a :
  NoDup ids -> i ∈ ids -> known x !! i = Some a -> listeners x !! a = None -> known (foldl (deliver T v) x ids) !! i = None.
Proof.
  revert x. induction ids as [|j ids IH]; intros x Hnd Hi Hx Ha; [by apply elem_of_nil in Hi|]. simpl.
  apply NoDup_cons in Hnd as [Hj Hnd]. apply elem_of_cons in Hi as [->|Hi].
  - apply foldl_gone. unfold deliver. rewrite Hx, Ha. simpl. apply lookup_delete_eq.
  - assert (Hne : j <> i) by (by intros ->). apply IH; [done|done|..]; unfold deliver;
      destruct (known x !! j) as [b|]; try done; destruct (listeners x !! b) eqn:Eb; simpl; try done.
    + by rewrite lookup_delete_ne.
    + by rewrite lookup_alter_None.
Qed.

Lemma deliver_served T v ids x :
  NoDup ids -> Forall (deliverable T x) ids -> Forall (served_or_gone T (foldl (deliver T v) x ids)) ids.
Proof.
  intros Hnd Hd. apply Forall_forall. intros i Hi. destruct (decide (is_Some (known (foldl (deliver T v) x ids) !! i))) as [Hs|Hs];
    [|right; by apply eq_None_not_Some].
  left. revert x Hd Hs. induction ids as [|j ids IH]; intros x Hd Hs; [by apply elem_of_nil in Hi|].
  simpl in *. pose proof Hnd as [Hj Hnd']%NoDup_cons. destruct (decide (i ∈ ids)) as [Hin|Hout].
  - apply IH; [done|done|by apply deliverable_step|done].
  - apply elem_of_cons in Hi as [->|]; [|done]. apply Forall_cons in Hd as [Hd _].
    assert (Hd' : deliverable T (deliver T v x j) j).
    { destruct (known (deliver T v x j) !! j) as [a|] eqn:Ea; [|by rewrite foldl_gone in Hs by done; destruct Hs].
      revert Ea Hd. unfold deliver, deliverable. destruct (known x !! j) as [b|] eqn:Eb; [|by rewrite Eb].
      destruct (listeners x !! b) as [s|] eqn:El; simpl; [|by rewrite lookup_delete_eq].
      rewrite Eb. intros _. rewrite lookup_alter_eq, El. simpl. by rewrite cast_notified. }
    refine (proj1 (Forall_singleton _ _) (Forall_deliverable T v ids [j] _ _ _)); [set_solver|by apply Forall_singleton].
Qed.

(** a registered subscription that expires breaks its publisher.  The
    next publication skips it and erases it from the map of subscriptions,
    but not from the lists of the publisher, so that the one after it
    throws.  This happens to a subscription whose constructor throws after
    its registration, see [failed_subscription]. *)
Theorem expired_subscription_breaks_publisher T pub_id subs_of st owned l v i a :
  coherent T -> process_ok st owned -> pub_to_subs_ (manager st) !! pub_id = Some subs_of ->
  NoDup (targets subs_of) -> Forall (deliverable T (values st)) (targets subs_of) ->
  l ∈ owned -> messages st !! l = Some v ->
  i ∈ targets subs_of -> subscriptions_ (manager st) !! i = Some a -> subs st !! a = None ->
  exists st1, do_intra_process_publish T pub_id (Some l) st = (Ok tt, st1) /\
    forall v2, exists l2 st2 st3, allocate_message v2 st1 = (Ok (Some l2), st2) /\
      do_intra_process_publish T pub_id (Some l2) st2 = (Throw OutOfScope, st3).
Proof.
  intros HT Hok Hsubs Hnd Hd Hl Hv Hi Hia Ha.
  destruct (publish_effect T pub_id subs_of st owned l v) as (st1 & E1 & He1); [done..|].
  exists st1. split; [done|]. intros v2.
  destruct (fresh_effect false st1 (owned ∖ {[l]}) v2) as (l2 & st2 & E2 & Hl2 & o & He2 & Hp & _); [apply He1|].
  assert (Ev : values st2 = foldl (deliver T v) (values st) (targets subs_of)).
  { rewrite (effect_values _ _ _ _ _ He2). apply (effect_values _ _ _ _ _ He1). }
  assert (Hs2 : pub_to_subs_ (manager st2) !! pub_id = Some subs_of).
  { rewrite <- Hsubs. pose proof (effect_rest _ _ _ _ _ He1) as H1. pose proof (effect_rest _ _ _ _ _ He2) as H2.
    unfold rest, set_subscriptions in H1, H2. congruence. }
  destruct (publish_gone T pub_id subs_of st2 o l2 v2 i) as (st3 & E3); [done|apply He2|done|done| |done| |done|done|by eauto 6].
  - rewrite Ev. by apply deliver_served.
  - rewrite Ev. by eapply foldl_known.
Qed.

(** *** Taking a message *)

Definition pop (x : QueueView) : QueueView := let '(type, capacity, l) := x in (type, capacity, tail l).

Definition triggered (s : SubscriptionIntraProcess) : SubscriptionIntraProcess :=
  set_notices s (S (triggers s)) (has_callback s) (unread_count_ s) (ready_calls s).

(** The oldest message leaves the queue; the guard condition stays triggered
    while there are more. *)
Definition taken_from (a : N) (s : SubscriptionIntraProcess) (more : bool) (x : Values) : Values :=
  mkValues (alter pop (sub_buffer s) (queues x)) (if more then alter triggered a (listeners x) else listeners x) (known x).

Lemma has_data_spec st owned b q :
  process_ok st owned -> buffers st !! b = Some q ->
  buffer_has_data b st = (Ok (negb (bool_decide (contents (messages st) q = []))), st).
Proof.
  intros [Hb _] Hq. unfold buffer_has_data, on_buffer. rewrite Hq. simpl.
  assert (E : mkQueue (q_type q) (q_data q) (q_allocator q) (q_ring q) = q) by (by destruct q). rewrite E, insert_id by done.
  destruct (ok_ring _ _ _ Hb b q Hq) as [Hc Hr]. pose proof (ok_stored _ _ _ Hb b q Hq) as Hs.
  unfold has_data_. rewrite (rep_size _ _ _ Hr). f_equal; [|by destruct st].
  do 2 f_equal. apply Forall2_length in Hs. destruct (contents _ q), (pointers q); simpl in *; (done || lia).
Qed.

Lemma buffers_ok_own h bs owned l :
  buffers_ok h bs owned -> l ∈ dom h -> (forall a q, bs !! a = Some q -> Some l ∉ pointers q) ->
  buffers_ok h bs (owned ∪ {[l]}).
Proof.
  intros [] Hl Hn. split; try done; [|set_solver].
  intros k a q [Hk|Hk%elem_of_singleton]%elem_of_union Ha; [by eapply ok_owned0|subst k; by eapply Hn].
Qed.

(** The oldest pointer leaves a queue. *)
Lemma dequeue_effect st owned b q v vs :
  process_ok st owned -> buffers st !! b = Some q -> contents (messages st) q = v :: vs ->
  exists k r, dequeue None moved_ptr (q_ring q) = Ok (Some k, r) /\ messages st !! k = Some v /\ Some k ∈ pointers q /\
    (q_type q = UniquePtr -> forall a q', <[b := with_ring q r]> (buffers st) !! a = Some q' -> Some k ∉ pointers q') /\
    effect st owned (set_messages st (messages st) (<[b := with_ring q r]> (buffers st))) owned
      (fun x => mkValues (alter pop b (queues x)) (listeners x) (known x)).
Proof.
  intros [Hb Hs] Hq Hv. destruct (ok_ring _ _ _ Hb b q Hq) as [Hc Hr]. pose proof (ok_stored _ _ _ Hb b q Hq) as Hst.
  rewrite Hv in Hst.
  assert (Hp : exists k ps', pointers q = Some k :: ps' /\ messages st !! k = Some v /\ stored (messages st) ps' vs).
  { inversion Hst as [|p v' ps' vs' (k & -> & Hk) Hst']. eauto. }
  destruct Hp as (k & ps' & Ep & Hk & Hst'). rewrite Ep in Hr.
  destruct (dequeue_refines None moved_ptr _ Hc _ _ Hr) as (r & Er & Hr'). simpl in Er, Hr'. exists k, r.
  assert (Ha : queue_after (messages st) q (with_ring q r) ps' vs).
  { assert (Ec : q_capacity (with_ring q r) = q_capacity q) by apply (rep_capacity _ _ _ Hr').
    split; [done|done|by split; rewrite Ec|done]. }
  split_and!; [done|done|rewrite Ep; by left|..].
  - intros Hu a q' [(<- & <-)|(Hne & Ha')]%lookup_insert_Some.
    + rewrite (queue_ok_pointers _ _ (after_ok _ _ _ _ _ Ha)).
      pose proof (ok_once _ _ _ Hb b q Hq Hu) as Hnd. rewrite Ep in Hnd. by apply NoDup_cons in Hnd as [? _].
    + intros Hin. apply Hne. apply (ok_private _ _ _ Hb b q a q' k Hq Hu); [rewrite Ep; by left|done..].
  - split; simpl; try done.
    + split; simpl; [|intros a s; by apply update_subs_ok]. eapply buffers_ok_update; [done..| |].
      * intros Hu. pose proof (ok_once _ _ _ Hb b q Hq Hu) as Hnd. rewrite Ep in Hnd. by apply NoDup_cons in Hnd as [_ ?].
      * intros j Hj Hn. exfalso. apply Hn. rewrite Ep. by right.
    + unfold values. simpl. f_equal. apply (queues_update _ _ _ q _ ps' vs); [done..|]. unfold q_view, pop. by rewrite Hv.
    + intros j (Hd & Ho & Hu). split_and!; [done..|]. intros a q' [(<- & <-)|(_ & Ha')]%lookup_insert_Some Hty; [|by apply (Hu a)].
      rewrite (queue_ok_pointers _ _ (after_ok _ _ _ _ _ Ha)). intros Hj. apply (Hu b q Hq Hty). rewrite Ep. by right.
Qed.

Lemma trigger_effect st owned a (more : bool) :
  process_ok st owned ->
  exists st', (if more then trigger_guard_condition a else mret tt) st = (Ok tt, st') /\
    effect st owned st' owned (fun x => mkValues (queues x) (if more then alter triggered a (listeners x) else listeners x) (known x)).
Proof.
  intros Hok. destruct more; [|by exists st; split; [|by split]]. destruct Hok as [Hb Hs].
  eexists. split; [reflexivity|]. split; simpl; try done. split; simpl; [done|]. intros a' s Ha.
  apply lookup_alter_Some in Ha as [(<- & s' & Ha & ->)|(_ & Ha)]; [|by eapply Hs]. simpl. by eapply Hs.
Qed.

(** What is left after the message has been taken from the buffer. *)
Lemma take_finish {A} st owned st1 owned1 a s q (x : A) v vs :
  subs st !! a = Some s -> buffers st !! sub_buffer s = Some q -> contents (messages st) q = v :: vs ->
  effect st owned st1 owned1 (fun x => mkValues (alter pop (sub_buffer s) (queues x)) (listeners x) (known x)) ->
  exists st2, (b ← buffer_has_data (sub_buffer s); (if b : bool then trigger_guard_condition a else mret tt);; mret x) st1 = (Ok x, st2) /\
    effect st1 owned1 st2 owned1 (fun x =>
      mkValues (queues x) (if negb (bool_decide (vs = [])) then alter triggered a (listeners x) else listeners x) (known x)).
Proof.
  intros Ha Hq Hv He. pose proof (f_equal (fun x => queues x !! sub_buffer s) (effect_values _ _ _ _ _ He)) as Hq1.
  simpl in Hq1. rewrite lookup_alter_eq, !lookup_fmap, Hq in Hq1. simpl in Hq1.
  destruct (buffers st1 !! sub_buffer s) as [q1|] eqn:Eq1; [|done]. injection Hq1 as _ _ Ec.
  rewrite (bind_ok _ _ _ _ _ (has_data_spec _ _ _ _ (effect_ok _ _ _ _ _ He) Eq1)), Ec, Hv. simpl.
  destruct (trigger_effect st1 owned1 a (negb (bool_decide (vs = []))) (effect_ok _ _ _ _ _ He)) as (st2 & E2 & He2).
  exists st2. by rewrite (bind_ok _ _ _ _ _ E2).
Qed.

(** a subscription takes what was published.  [take_data] returns a
    pointer to the oldest message of the buffer, which leaves it; a unique
    pointer is the client's alone, and a shared one points to a message that
    no one can write to.  On an empty buffer it returns null, except when
    the callback takes ownership and the buffer holds shared pointers: then
    it dereferences null. *)
Theorem take_data_spec st owned a s q :
  process_ok st owned -> subs st !! a = Some s -> buffers st !! sub_buffer s = Some q ->
  match contents (messages st) q with
  | [] =>
    if callback_takes_shared s || bool_decide (q_type q = UniquePtr)
    then exists st', take_data a st = (Ok None, st') /\ effect st owned st' owned id
    else take_data a st = (Throw (BufferFault NullPointer), st)
  | v :: vs =>
    exists k st' owned',
      take_data a st = (Ok (Some (if callback_takes_shared s then (Some k, None) else (None, Some k))), st') /\
      messages st' !! k = Some v /\
      effect st owned st' owned' (taken_from a s (negb (bool_decide (vs = [])))) /\
      (if callback_takes_shared s then owned' = owned /\ read_only (messages st') (buffers st') owned k
       else owned' = owned ∪ {[k]} /\ k ∉ owned)
  end.
Proof.
  intros Hok Ha Hq. pose proof (ok_buffers _ _ Hok) as Hb. unfold take_data. rewrite (bind_ok _ _ _ _ _ (find_object_ok _ _ _ _ Ha)).
  destruct (contents (messages st) q) as [|v vs] eqn:Ev.
  - destruct (ok_ring _ _ _ Hb _ q Hq) as [Hc Hr]. pose proof (ok_stored _ _ _ Hb _ q Hq) as Hs. rewrite Ev in Hs.
    inversion Hs as [E|]. rewrite <- E in Hr. destruct (dequeue_refines None moved_ptr _ Hc _ _ Hr) as (r & Er & Hr'). simpl in Er.
    assert (Hr0 : r = q_ring q).
    { pose proof (rep_size _ _ _ Hr) as Hz. unfold dequeue, has_data_, Ptr in *. rewrite Hz in Er. simpl in Er. by injection Er. }
    subst r. assert (Eq : mkQueue (q_type q) (q_data q) (q_allocator q) (q_ring q) = q) by (by destruct q).
    assert (Hst : set_messages st (messages st) (<[sub_buffer s := q]> (buffers st)) = st) by (rewrite insert_id by done; by destruct st).
    assert (Hnull : callback_takes_shared s || bool_decide (q_type q = UniquePtr) = true ->
      on_buffer (sub_buffer s) (fun t => if callback_takes_shared s then consume_shared t else consume_unique t) st = (Ok None, st)).
    { intros Ht. unfold on_buffer, consume_shared, consume_unique. rewrite Hq. simpl. rewrite Er. simpl.
      destruct (callback_takes_shared s); simpl in *; [by rewrite Eq, Hst|]. apply bool_decide_eq_true in Ht. rewrite Ht. simpl.
      by rewrite Ht in Eq; rewrite Eq, Hst. }
    destruct (_ || _) eqn:Et.
    + exists st. rewrite (bind_ok _ _ _ _ _ (Hnull eq_refl)). split; [done|by apply effect_id].
    + apply orb_false_iff in Et as [Et1 Et2]. apply bool_decide_eq_false in Et2. apply bind_throw.
      unfold on_buffer, consume_unique. rewrite Hq, Et1. simpl. rewrite Er. simpl. by destruct (q_type q).
  - destruct (dequeue_effect st owned _ q v vs Hok Hq Ev) as (k & r & Er & Hk & Hin & Hgone & He).
    set (st1 := set_messages st _ _) in He. destruct (callback_takes_shared s) eqn:Ecs.
    + assert (E : on_buffer (sub_buffer s) (fun t => consume_shared t) st = (Ok (Some k), st1)).
      { unfold on_buffer, consume_shared. rewrite Hq. simpl. by rewrite Er. }
      rewrite (bind_ok _ _ _ _ _ E), bool_decide_true by eauto.
      destruct (take_finish st owned st1 owned a s q (Some (Some k, None : Ptr)) v vs) as (st2 & E2 & He2); [done..|].
      exists k, st2, owned. split_and!; [done|by eapply effect_message|by eapply effect_then|done|]. apply He2.
      split_and!; [by eapply elem_of_dom_2|intros Ho; by apply (ok_owned _ _ _ Hb k _ q Ho Hq)|].
      intros b q' Hb' Hu. destruct (decide (q_type q = UniquePtr)) as [Hqu|Hqs]; [by apply (Hgone Hqu b)|].
      unfold st1 in Hb'. simpl in Hb'.
      apply lookup_insert_Some in Hb' as [(<- & <-)|(Hne & Hb')]; [done|]. intros Hk'. apply Hne.
      symmetry. by apply (ok_private _ _ _ Hb b q' _ q k).
    + destruct (q_type q) eqn:Ety.
      * destruct (allocate_effect st1 owned v) as (k' & st2 & E2 & Hk' & Hf & _ & He2); [apply He|].
        assert (E : on_buffer (sub_buffer s) (fun t => consume_unique t) st = (Ok (Some k'), st2)).
        { revert E2. unfold on_buffer, consume_unique, allocate_message, copy_message. rewrite Hq. simpl. rewrite Er. simpl. rewrite Ety, Hk.
          simpl. unfold with_ring in st1. intros [= <- <-]. by rewrite <- Ety. }
        assert (He12 : effect st owned st2 (owned ∪ {[k']}) (fun x => mkValues (alter pop (sub_buffer s) (queues x)) (listeners x) (known x)))
          by (by eapply effect_then).
        rewrite (bind_ok _ _ _ _ _ E), bool_decide_true by eauto.
        destruct (take_finish st owned st2 (owned ∪ {[k']}) a s q (Some (None : Ptr, Some k')) v vs) as (st3 & E3 & He3); [done..|].
        exists k', st3, (owned ∪ {[k']}). split_and!; [done|by eapply effect_message| |done|done].
        by eapply effect_then.
      * assert (E : on_buffer (sub_buffer s) (fun t => consume_unique t) st = (Ok (Some k), st1)).
        { unfold on_buffer, consume_unique. rewrite Hq. simpl. rewrite Er. simpl. rewrite Ety. simpl. by rewrite <- Ety. }
        assert (Hko : k ∉ owned) by (intros Ho; by apply (ok_owned _ _ _ Hb k _ q Ho Hq)).
        assert (He1 : effect st owned st1 (owned ∪ {[k]}) (fun x => mkValues (alter pop (sub_buffer s) (queues x)) (listeners x) (known x))).
        { destruct He as [[Hok1 Hs1] Hv1 Hg1 Hr1 Hre1]. split; try done.
          - split; [|done]. apply buffers_ok_own; [done|by eapply elem_of_dom_2|by apply Hgone].
          - intros j Hj. destruct (Hr1 j Hj) as (? & ? & ?). split_and!; [done| |done].
            intros [?|Hjk%elem_of_singleton]%elem_of_union; [done|]. subst j. destruct Hj as (_ & _ & Hu). by apply (Hu _ q Hq Ety). }
        rewrite (bind_ok _ _ _ _ _ E), bool_decide_true by eauto.
        destruct (take_finish st owned st1 (owned ∪ {[k]}) a s q (Some (None : Ptr, Some k)) v vs) as (st3 & E3 & He3); [done..|].
        exists k, st3, (owned ∪ {[k]}). split_and!; [done|by eapply effect_message|by eapply effect_then|done|done].
Qed.

(** *** Messages that arrive before there is a callback *)

Lemma notified_unread s n :
  has_callback s = false -> 0 <= unread_count_ s -> unread_count_ s + Z.of_nat n < 2 ^ 64 ->
  has_callback (Nat.iter n notified s) = false /\ unread_count_ (Nat.iter n notified s) = unread_count_ s + Z.of_nat n /\
  ready_calls (Nat.iter n notified s) = ready_calls s /\ sub_qos (Nat.iter n notified s) = sub_qos s.
Proof.
  intros Hc H0 Hn. induction n as [|n IH]; [split_and!; (done || simpl; lia)|].
  destruct IH as (Ec & Eu & Er & Eq); [lia|]. simpl. unfold notified at 1 3 5 7. rewrite Ec, Eu. simpl. split_and!; try done.
  rewrite wrap_u_id; [lia|unfold in_u; lia].
Qed.

(** The callback is told at once about what has arrived, but about no more
    than the buffer can hold. *)
Theorem unread_reported st a s n :
  has_callback s = false -> unread_count_ s = 0 -> 0 < Z.of_nat n < 2 ^ 64 ->
  history (sub_qos s) = RMW_QOS_POLICY_HISTORY_KEEP_LAST -> subs st !! a = Some (Nat.iter n notified s) ->
  exists st' s', set_on_ready_callback a true st = (Ok tt, st') /\ subs st' !! a = Some s' /\
    ready_calls s' = ready_calls s ++ [Z.min (Z.of_nat n) (depth (sub_qos s))] /\ unread_count_ s' = 0.
Proof.
  intros Hc H0 Hn Hh Ha. destruct (notified_unread s n Hc) as (Ec & Eu & Er & Eq); [lia..|].
  do 2 eexists. split; [reflexivity|]. split; [simpl; rewrite lookup_alter_eq, Ha; reflexivity|].
  rewrite Eu, Er, Eq, H0, Hh. destruct (Z.ltb_spec 0 (0 + Z.of_nat n)); [|lia]. by rewrite Z.add_0_l.
Qed.

(** *** A process at rest *)

Definition empty_process (bs : gmap N Queue) (ss : gmap N SubscriptionIntraProcess) (h : gmap N V)
    (m : IntraProcessManager) : Process := mkProcess h bs ss ∅ 100%N [] true m.

(** Buffers that have just been made. *)
Lemma empty_buffers_ok h bs owned :
  owned ⊆ dom h ->
  (forall a q, bs !! a = Some q -> exists c, 0 < c < 2 ^ 63 /\ RingBuffer_init None c = Ok (q_ring q)) ->
  buffers_ok h bs owned.
Proof.
  intros Hd Hq.
  assert (He : forall a q, bs !! a = Some q -> queue_ok q [] /\ pointers q = []).
  { intros a q Ha. destruct (Hq a q Ha) as (c & Hc & Hr). destruct (init_represents (A := Ptr) None c Hc) as (b & Hb & Hrep).
    assert (b = q_ring q) as -> by (unfold Ptr in *; rewrite Hb in Hr; by injection Hr). assert (Hok : queue_ok q []).
    { unfold queue_ok, q_capacity. by rewrite (rep_capacity _ _ _ Hrep). }
    split; [done|by apply queue_ok_pointers]. }
  split; try done.
  - intros a q Ha. destruct (He a q Ha) as [Hok ->]. exact Hok.
  - intros a q Ha. unfold contents. destruct (He a q Ha) as [_ ->]. constructor.
  - intros a q Ha _. destruct (He a q Ha) as [_ ->]. constructor.
  - intros a q a' q' l Ha _ Hl. destruct (He a q Ha) as [_ E]. rewrite E in Hl. by apply elem_of_nil in Hl.
  - intros l a q _ Ha. destruct (He a q Ha) as [_ ->]. apply not_elem_of_nil.
Qed.
End Facts.

(** ** Witnesses *)

Section Witnesses.
(** Messages are numbers, and there are no adapters. *)
#[local] Instance plain : Environment Z := {
  adapter_specialized _ := false;
  adapter_custom_type t := t;
  pair_specialized _ _ := false;
  pair_ros_type c _ := c;
  convert_to_ros_message _ _ v := v;
  convert_to_custom _ _ v := v;
  iteration _ _ m := map_to_list m;
  rmw_compare_gids_equal a b := Some (a =? b);
}.

Definition sample_qos (d : Durability) : QosProfile :=
  mkQosProfile RMW_QOS_POLICY_HISTORY_KEEP_LAST 2 RMW_QOS_POLICY_RELIABILITY_RELIABLE d RMW_DURATION_UNSPECIFIED
    RMW_DURATION_UNSPECIFIED RMW_QOS_POLICY_LIVELINESS_AUTOMATIC RMW_DURATION_UNSPECIFIED false.

Definition sample_ring : RingBuffer (A := Ptr) := mkRingBuffer 2 [None; None] 1 0 0.

Definition sample_sub (buffer : N) : SubscriptionIntraProcess :=
  mkSubscription "/chatter" (sample_qos RMW_QOS_POLICY_DURABILITY_VOLATILE) 1 1 1 buffer false 0 false 0 [].

(** Two subscriptions of one publisher, which share and own; message 0 is
    about to be published. *)
Definition sample_manager : IntraProcessManager :=
  mkManager 4 {[ 1 := mkSplit [2] [3] ]} {[ 2 := 20%N; 3 := 30%N ]} {[ 1 := 10%N ]} ∅.
Definition sample_buffers : gmap N Queue :=
  {[ 21%N := mkQueue SharedPtr 1 1 sample_ring; 31%N := mkQueue UniquePtr 1 1 sample_ring ]}.
Definition sample_process : Process (V := Z) :=
  empty_process sample_buffers {[ 20%N := sample_sub 21; 30%N := sample_sub 31 ]} {[ 0%N := 7 ]} sample_manager.
(** The same after the second subscription has expired. *)
Definition sample_expired : Process (V := Z) :=
  empty_process sample_buffers {[ 20%N := sample_sub 21 ]} {[ 0%N := 7 ]} sample_manager.

Lemma sample_buffers_ok : buffers_ok {[ 0%N := 7 ]} sample_buffers {[ 0%N ]}.
Proof.
  apply empty_buffers_ok; [set_solver|]. intros a q Ha. exists 2. split; [lia|].
  unfold sample_buffers in Ha. apply lookup_insert_Some in Ha as [(_ & <-)|(_ & [_ <-]%lookup_singleton_Some)]; done.
Qed.

Lemma sample_ok : process_ok sample_process {[ 0%N ]}.
Proof.
  split; [apply sample_buffers_ok|]. intros a s Ha. simpl in Ha.
  apply lookup_insert_Some in Ha as [(_ & <-)|(_ & [_ <-]%lookup_singleton_Some)]; by eexists.
Qed.

Lemma sample_expired_ok : process_ok sample_expired {[ 0%N ]}.
Proof.
  split; [apply sample_buffers_ok|]. intros a s Ha. simpl in Ha.
  apply lookup_singleton_Some in Ha as [_ <-]. by eexists.
Qed.

Lemma sample_own_buffers : own_buffers (values sample_process) [2; 3].
Proof.
  intros i j a b s t Hi Hj Hne Ha Hb Hs Ht. apply list_elem_of_In in Hi, Hj.
  destruct Hi as [<-|[<-|[]]], Hj as [<-|[<-|[]]]; try done; vm_compute in Ha, Hb; injection Ha as <-; injection Hb as <-;
    vm_compute in Hs, Ht; injection Hs as <-; injection Ht as <-; done.
Qed.

Lemma do_intra_process_publish_delivers_witness :
  exists st', do_intra_process_publish (mkTypes 1 1 1) 1 (Some 0%N) sample_process = (Ok tt, st') /\
    exists q', buffers st' !! 31%N = Some q' /\ contents (messages st') q' = [7].
Proof.
  destruct (do_intra_process_publish_delivers (mkTypes 1 1 1) 1 (mkSplit [2] [3]) sample_process {[ 0%N ]} 0 7)
    as (st' & E & _ & Hq & _); [done|exact sample_ok|done| | |exact sample_own_buffers|set_solver|done|].
  - apply NoDup_ListNoDup. repeat constructor; simpl; lia.
  - repeat constructor; vm_compute; done.
  - exists st'. split; [exact E|]. exact (Hq 3 30%N (sample_sub 31) _ ltac:(set_solver) eq_refl eq_refl eq_refl).
Defined.

(** After the publication the second subscription takes the message. *)
Lemma take_data_spec_witness :
  exists st' k st2, do_intra_process_publish (mkTypes 1 1 1) 1 (Some 0%N) sample_process = (Ok tt, st') /\
    take_data 30%N st' = (Ok (Some (None, Some k)), st2) /\ messages st2 !! k = Some 7.
Proof.
  destruct (publish_effect (mkTypes 1 1 1) 1 (mkSplit [2] [3]) sample_process {[ 0%N ]} 0 7) as (st' & E & He);
    [done|exact sample_ok|done| | |set_solver|done|].
  - apply NoDup_ListNoDup. repeat constructor; simpl; lia.
  - repeat constructor; vm_compute; done.
  - pose proof (effect_values _ _ _ _ _ He) as Hv.
    pose proof (f_equal (fun x => listeners x !! 30%N) Hv) as Hs. pose proof (f_equal (fun x => queues x !! 31%N) Hv) as Hq.
    simpl in Hs, Hq. rewrite lookup_fmap in Hq.
    destruct (buffers st' !! 31%N) as [q|] eqn:Eq; [|exfalso; vm_compute in Hq; done].
    assert (Ec : contents (messages st') q = [7]) by (simpl in Hq; vm_compute (queues _ !! _) in Hq; by injection Hq).
    vm_compute (listeners _ !! _) in Hs.
    pose proof (take_data_spec st' _ 30%N _ q (effect_ok _ _ _ _ _ He) Hs Eq) as Ht. rewrite Ec in Ht.
    destruct Ht as (k & st2 & o & Et & Hk & _). exists st', k, st2. split_and!; [exact E|exact Et|exact Hk].
Defined.

Lemma expired_subscription_breaks_publisher_witness :
  exists st1, do_intra_process_publish (mkTypes 1 1 1) 1 (Some 0%N) sample_expired = (Ok tt, st1) /\
    forall v2, exists l2 st2 st3, allocate_message v2 st1 = (Ok (Some l2), st2) /\
      do_intra_process_publish (mkTypes 1 1 1) 1 (Some l2) st2 = (Throw OutOfScope, st3).
Proof.
  apply (expired_subscription_breaks_publisher (mkTypes 1 1 1) 1 (mkSplit [2] [3]) sample_expired {[ 0%N ]} 0 7 3 30%N);
    [done|exact sample_expired_ok|done| | |set_solver|done|set_solver|done|done].
  - apply NoDup_ListNoDup. repeat constructor; simpl; lia.
  - repeat constructor; vm_compute; done.
Defined.
End Witnesses.
