(* ===== verification/IntraProcessMatching.v ===== *)
(** * Intra-process communication: who is matched with whom

    The manager's lists of subscriptions stay exact while publishers and
    subscriptions come and go, messages are delivered and taken, and objects
    expire; and what happens when a subscription joins between the steps of
    a publication. *)

From Stdlib Require Import ZArith Lia String.
From stdpp Require Import base numbers list gmap sets fin_maps strings.
From S2P Require Import Prelude Computation RclTime Qos RingBuffer IntraProcess IntraProcessFacts.
#[local] Open Scope Z_scope.

(** An [unordered_map] is walked once over its entries. *)
Class IterationLaw (V : Type) `{Environment V} : Prop :=
  iteration_entries : forall id X (m : gmap Z X), iteration id X m ≡ₚ map_to_list m.

Section Matching.
Context {V : Type} `{IterationLaw V}.
Notation Process := (Process (V := V)).
Notation M := (ST Process ipm_error).
Implicit Types (st : Process).

(** ** Computations that only deliver

    They change neither the publishers nor who they are matched with, only
    forget subscriptions. *)

Definition sub_static (s : SubscriptionIntraProcess) : SubscriptionIntraProcess := set_notices s 0 false 0 [].

Record quiet (st st' : Process) : Prop := {
  quiet_pub_to_subs : pub_to_subs_ (manager st') = pub_to_subs_ (manager st);
  quiet_publishers : publishers_ (manager st') = publishers_ (manager st);
  quiet_next : _next_unique_id (manager st') = _next_unique_id (manager st);
  quiet_subscriptions : subscriptions_ (manager st') ⊆ subscriptions_ (manager st);
  quiet_pubs : pubs st' = pubs st;
  quiet_subs : sub_static <$> subs st' = sub_static <$> subs st;
  quiet_buffers : q_type <$> buffers st' = q_type <$> buffers st;
}.

#[local] Instance quiet_preorder : PreOrder quiet.
Proof.
  split.
  - by intros st.
  - intros x y z [] []. split; try congruence. by etrans.
Qed.

Notation Quiet := (Keeps quiet).

Lemma Quiet_find {A} (f : Process -> gmap N A) a : Quiet (find_object f a).
Proof. intros st. unfold find_object. by destruct (f st !! a). Qed.

Lemma Quiet_update_subscription a f :
  (forall s, sub_static (f s) = sub_static s) -> Quiet (update_subscription a f).
Proof.
  intros Hf st. split; try done. simpl. apply map_eq. intros i. rewrite !lookup_fmap.
  destruct (decide (i = a)) as [->|Hne].
  - rewrite lookup_alter_eq. destruct (subs st !! a); simpl; [by rewrite Hf|done].
  - by rewrite lookup_alter_ne.
Qed.

Lemma Quiet_trigger a : Quiet (trigger_guard_condition a).
Proof. by apply Quiet_update_subscription. Qed.
Lemma Quiet_invoke a : Quiet (invoke_on_new_message a).
Proof. apply Quiet_update_subscription. intros s. by destruct (has_callback s). Qed.
Lemma Quiet_erase id : Quiet (erase_subscription id).
Proof. intros st. split; try done. simpl. apply delete_subseteq. Qed.
Lemma Quiet_load p : Quiet (load p).
Proof. intros st. unfold load. destruct p as [l|]; [|done]. by destruct (messages st !! l). Qed.
Lemma Quiet_allocate v : Quiet (allocate_message v).
Proof. by intros st. Qed.

Lemma Quiet_on_buffer {A} a (f : IntraProcessBuffer -> Result ring_error (IntraProcessBuffer * A)) :
  (forall t t' x, f t = Ok (t', x) -> buffer_type t' = buffer_type t) -> Quiet (on_buffer a f).
Proof.
  intros Hf st. unfold on_buffer. destruct (buffers st !! a) as [q|] eqn:Ea; [|done].
  destruct (f _) as [[t x]|e] eqn:Ef; [|done]. split; try done. simpl. rewrite fmap_insert. apply insert_id.
  rewrite lookup_fmap, Ea. simpl. apply Hf in Ef. by rewrite Ef.
Qed.

#[local] Hint Resolve Quiet_find Quiet_trigger Quiet_invoke Quiet_erase Quiet_load Quiet_allocate : keeps.

Lemma copy_message_type (t t' : IntraProcessBuffer (V := V)) p p' :
  copy_message t p = Ok (t', p') -> buffer_type t' = buffer_type t.
Proof. unfold copy_message. intros (v & _ & E)%rbind_ok. unfold new_message in E. by injection E as <- _. Qed.

Lemma Quiet_add_to_buffer shared a p : Quiet (add_to_buffer shared a p).
Proof.
  apply Quiet_on_buffer. intros t t' x (t1 & E & E2)%rbind_ok. injection E2 as <- _. destruct shared.
  - unfold add_shared in E. destruct (buffer_type t) eqn:Et.
    + apply rbind_ok in E as (b & _ & E). by injection E as <-.
    + apply rbind_ok in E as ([t2 p2] & E1 & (b & _ & E)%rbind_ok). injection E as <-. simpl.
      apply copy_message_type in E1. congruence.
  - unfold add_unique in E. apply rbind_ok in E as (b & _ & E). by injection E as <-.
Qed.

Lemma copy_messages_type (t t' : IntraProcessBuffer (V := V)) ps ps' :
  copy_messages t ps = Ok (t', ps') -> buffer_type t' = buffer_type t.
Proof.
  revert t ps'. induction ps as [|p ps IH]; intros t ps' E; [by injection E as <- _|].
  simpl in E. apply rbind_ok in E as ([t1 p1] & E1 & ([t2 ps2] & E2 & E)%rbind_ok). injection E as <- _.
  apply copy_message_type in E1. apply IH in E2. congruence.
Qed.

Lemma Quiet_get_all shared b :
  Quiet (if shared : bool then on_buffer b get_all_data_shared else on_buffer b get_all_data_unique).
Proof.
  destruct shared; apply Quiet_on_buffer; intros t t' ps.
  - unfold get_all_data_shared. intros (l & _ & E)%rbind_ok. destruct (buffer_type t) eqn:Et.
    + by injection E as <- _.
    + apply copy_messages_type in E. congruence.
  - unfold get_all_data_unique. intros (l & _ & E)%rbind_ok. by apply copy_messages_type in E.
Qed.

#[local] Hint Resolve Quiet_add_to_buffer : keeps.

Lemma Quiet_provide_data shared a p : Quiet (provide_intra_process_data shared a p).
Proof. unfold provide_intra_process_data. keeps_steps. Qed.
Lemma Quiet_provide_message shared a p : Quiet (provide_intra_process_message shared a p).
Proof. unfold provide_intra_process_message. keeps_steps. Qed.
Lemma Quiet_find_subscription id : Quiet (find_subscription id).
Proof. unfold find_subscription. keeps_steps. Qed.
Lemma Quiet_copy p : Quiet (copy p).
Proof. unfold copy. keeps_steps. Qed.
#[local] Hint Resolve Quiet_provide_data Quiet_provide_message Quiet_find_subscription Quiet_copy : keeps.

Lemma Quiet_add_shared T p ids : Quiet (add_shared_msg_to_buffers T p ids).
Proof. apply Keeps_for_each; [apply _|]. intros id. unfold add_shared_msg. keeps_steps. Qed.
Lemma Quiet_add_owned T p ids : Quiet (add_owned_msg_to_buffers T p ids).
Proof. induction ids as [|id ids IH]; simpl; keeps_steps; auto. Qed.
#[local] Hint Resolve Quiet_add_shared Quiet_add_owned : keeps.

Lemma Quiet_publish T pub_id p : Quiet (do_intra_process_publish T pub_id p).
Proof. unfold do_intra_process_publish. keeps_steps. Qed.
Lemma Quiet_publish_shared T pub_id p : Quiet (do_intra_process_publish_and_return_shared T pub_id p).
Proof. unfold do_intra_process_publish_and_return_shared. keeps_steps. Qed.

Lemma Quiet_transient_local ros alloc pub_id sub_id shared : Quiet (do_transient_local_publish ros alloc pub_id sub_id shared).
Proof.
  unfold do_transient_local_publish. apply Keeps_bind; [apply _|by apply Keeps_get; apply _|]. intros st.
  apply Keeps_bind; [apply _|by intros st1|]. intros _. keeps_steps.
  - apply (Quiet_get_all true).
  - apply (Quiet_get_all false).
Qed.

(** ** The invariant *)

Definition can_match (p : PublisherObject) (s : SubscriptionIntraProcess) : bool :=
  bool_decide (pub_topic p = sub_topic s) && negb (has_errors (pub_qos p) (sub_qos s)).

Lemma can_match_iff p s :
  can_match p s = true <-> pub_topic p = sub_topic s /\ profiles_match (pub_qos p) (sub_qos s).
Proof. unfold can_match. by rewrite andb_true_iff, bool_decide_eq_true, negb_true_iff, has_errors_false. Qed.

Lemma full_log_error p s : (full_log p s).1 = RMW_QOS_COMPATIBILITY_ERROR <-> has_errors p s = true.
Proof.
  pose proof (check_error p s) as Hc. rewrite check_compatible_log in Hc. simpl in Hc.
  rewrite <- has_errors_false in Hc. rewrite <- not_false_iff_true, <- Hc. split; [by intros ->|by intros [= ->]].
Qed.

Lemma can_communicate_spec p s st : can_communicate p s st = (Ok (can_match p s), st).
Proof.
  unfold can_communicate, can_match. destruct (bool_decide (pub_topic p = sub_topic s)); [|done].
  unfold qos_check_compatible. rewrite check_compatible_log. simpl. unfold mbind, ST_bind. simpl. do 2 f_equal.
  pose proof (full_log_error (pub_qos p) (sub_qos s)) as He. destruct (has_errors _ _).
  - by rewrite bool_decide_true by (by apply He).
  - by rewrite bool_decide_false by (intros Hc; by apply He in Hc).
Qed.

Definition list_of (type : BufferType) (ss : SplittedSubscriptions) : list Z :=
  match type with SharedPtr => take_shared_subscriptions ss | UniquePtr => take_ownership_subscriptions ss end.

(** The kind of the buffer of a subscription. *)
Definition takes (st : Process) (s : SubscriptionIntraProcess) : option BufferType :=
  q_type <$> buffers st !! sub_buffer s.

Definition used (m : IntraProcessManager) (id : Z) : Prop :=
  is_Some (subscriptions_ m !! id) \/ is_Some (publishers_ m !! id) \/
  exists pid ss, pub_to_subs_ m !! pid = Some ss /\ id ∈ targets ss.

(** Live subscriptions are in the list of their kind of exactly the
    publishers they match, once. *)
Record matched (st : Process) : Prop := {
  matched_next : 0 <= _next_unique_id (manager st) < 2 ^ 64;
  matched_ids : forall id, used (manager st) id ->
    0 < id /\ (_next_unique_id (manager st) = 0 \/ id < _next_unique_id (manager st));
  matched_dom : dom (pub_to_subs_ (manager st)) = dom (publishers_ (manager st));
  matched_once : forall pid ss, pub_to_subs_ (manager st) !! pid = Some ss -> NoDup (targets ss);
  matched_buffers : forall a s, subs st !! a = Some s -> is_Some (takes st s);
  matched_exact : forall pid ss b p sid a s type type',
    pub_to_subs_ (manager st) !! pid = Some ss -> publishers_ (manager st) !! pid = Some b -> pubs st !! b = Some p ->
    subscriptions_ (manager st) !! sid = Some a -> subs st !! a = Some s -> takes st s = Some type ->
    (sid ∈ list_of type' ss <-> type' = type /\ can_match p s = true);
}.

Lemma list_of_targets type ss id : id ∈ list_of type ss -> id ∈ targets ss.
Proof. unfold targets. destruct type; simpl; set_solver. Qed.

(** Everything that leaves the lists of the publishers alone. *)
Record elsewhere (st st' : Process) : Prop := {
  else_pub_to_subs : pub_to_subs_ (manager st') = pub_to_subs_ (manager st);
  else_publishers : publishers_ (manager st') = publishers_ (manager st);
  else_next : _next_unique_id (manager st') = _next_unique_id (manager st);
  else_subscriptions : subscriptions_ (manager st') ⊆ subscriptions_ (manager st);
  else_pubs : forall id b p', publishers_ (manager st) !! id = Some b -> pubs st' !! b = Some p' ->
    exists p, pubs st !! b = Some p /\ pub_topic p = pub_topic p' /\ pub_qos p = pub_qos p';
  else_subs : forall id a s', subscriptions_ (manager st) !! id = Some a -> subs st' !! a = Some s' ->
    exists s, subs st !! a = Some s /\ sub_static s = sub_static s' /\ takes st s = takes st' s';
  else_buffers : (forall a s, subs st !! a = Some s -> is_Some (takes st s)) ->
    forall a s, subs st' !! a = Some s -> is_Some (takes st' s);
}.

Lemma sub_static_inv s s' : sub_static s = sub_static s' ->
  sub_topic s = sub_topic s' /\ sub_qos s = sub_qos s' /\ sub_buffer s = sub_buffer s'.
Proof. destruct s, s'. unfold sub_static, set_notices. simpl. by intros [= -> -> -> -> -> -> ->]. Qed.

Lemma quiet_takes st st' s s' : quiet st st' -> sub_static s = sub_static s' -> takes st s = takes st' s'.
Proof.
  intros Hq (_ & _ & E)%sub_static_inv. unfold takes. rewrite E.
  pose proof (f_equal (fun m => m !! sub_buffer s') (quiet_buffers _ _ Hq)) as Hb. by rewrite !lookup_fmap in Hb.
Qed.

Lemma quiet_sub st st' a s' : quiet st st' -> subs st' !! a = Some s' ->
  exists s, subs st !! a = Some s /\ sub_static s = sub_static s'.
Proof.
  intros Hq Ha. pose proof (f_equal (fun m => m !! a) (quiet_subs _ _ Hq)) as Hs. rewrite !lookup_fmap, Ha in Hs.
  destruct (subs st !! a) as [s|]; simpl in Hs; [|done]. exists s. split; [done|congruence].
Qed.

Lemma quiet_elsewhere st st' : quiet st st' -> elsewhere st st'.
Proof.
  intros Hq. pose proof Hq as []. split; try done.
  - intros id b p' Hb Hp. rewrite quiet_pubs0 in Hp. eauto.
  - intros id a s' _ Ha. destruct (quiet_sub _ _ _ _ Hq Ha) as (s & Hs & E). exists s. split_and!; [done..|].
    by apply quiet_takes.
  - intros Hs a s' Ha. destruct (quiet_sub _ _ _ _ Hq Ha) as (s & Hsa & E). rewrite <- (quiet_takes _ _ _ _ Hq E). eauto.
Qed.

Lemma can_match_static p p' s s' :
  pub_topic p = pub_topic p' -> pub_qos p = pub_qos p' -> sub_static s = sub_static s' -> can_match p s = can_match p' s'.
Proof. intros E1 E2 (E3 & E4 & _)%sub_static_inv. unfold can_match. by rewrite E1, E2, E3, E4. Qed.

Lemma used_mono m m' id :
  subscriptions_ m' ⊆ subscriptions_ m -> publishers_ m' = publishers_ m -> pub_to_subs_ m' = pub_to_subs_ m ->
  used m' id -> used m id.
Proof.
  intros Hs Hp Ht. unfold used. rewrite Hp, Ht. intros [[a Ha]|Hr]; [|by right]. left. exists a. by eapply lookup_weaken.
Qed.

Lemma elsewhere_matched st st' : elsewhere st st' -> matched st -> matched st'.
Proof.
  intros [Et Ep En Es Hp Hs Hb] [Mn Mi Md Mo Mb Me]. split.
  - by rewrite En.
  - intros id Hid. rewrite En. apply Mi. by eapply used_mono.
  - by rewrite Et, Ep.
  - rewrite Et. apply Mo.
  - by apply Hb.
  - intros pid ss b p' sid a s' type type' Hss Hpid Hp' Hsid Hs' Hty. rewrite Et in Hss. rewrite Ep in Hpid.
    apply (lookup_weaken _ _ _ _ Hsid) in Es. destruct (Hp pid b p' Hpid Hp') as (p & Hpb & E1 & E2).
    destruct (Hs sid a s' Es Hs') as (s & Hsa & E3 & E4).
    rewrite <- (can_match_static p p' s s') by done. eapply Me; try done. by rewrite E4.
Qed.

(** ** Registration *)

Lemma next_id_spec st id st1 :
  matched st -> get_next_unique_id st = (Ok id, st1) ->
  st1 = set_manager st (set_next_id (manager st) (u64 (id + 1))) /\
  ~ used (manager st) id /\ 0 < id /\
  (forall i, used (manager st) i \/ i = id -> 0 < i /\ (u64 (id + 1) = 0 \/ i < u64 (id + 1))).
Proof.
  intros Hm. unfold get_next_unique_id. destruct (Z.eqb_spec (_next_unique_id (manager st)) 0) as [|Hne]; [done|].
  intros [= <- <-]. pose proof (matched_next _ Hm). split; [done|].
  assert (Hw : u64 (_next_unique_id (manager st) + 1) = 0 \/ u64 (_next_unique_id (manager st) + 1) = _next_unique_id (manager st) + 1).
  { destruct (Z.eq_dec (_next_unique_id (manager st)) (2 ^ 64 - 1)) as [E|E]; [rewrite E; by left|right]. apply wrap_u_id. unfold in_u. lia. }
  split_and!; [|lia|].
  - intros Hu%(matched_ids _ Hm). lia.
  - intros i [Hu|E]; [|subst i; lia]. destruct (matched_ids _ Hm i Hu). lia.
Qed.

Definition is_shared (type : BufferType) : bool := match type with SharedPtr => true | UniquePtr => false end.

Lemma sub_takes_shared_spec st a s type :
  subs st !! a = Some s -> takes st s = Some type -> sub_takes_shared a st = (Ok (is_shared type), st).
Proof.
  intros Ha Ht. unfold sub_takes_shared, takes in *. rewrite (bind_ok _ _ _ _ _ (find_object_ok _ _ _ _ Ha)).
  destruct (buffers st !! sub_buffer s) as [q|] eqn:Eq; [|done]. injection Ht as <-.
  by rewrite (bind_ok _ _ _ _ _ (find_object_ok _ _ _ _ Eq)).
Qed.

Lemma elem_of_add_id type type' sid i ss :
  i ∈ list_of type (add_id sid (is_shared type') ss) <-> i ∈ list_of type ss \/ (i = sid /\ type = type').
Proof. destruct type, type'; simpl; rewrite ?elem_of_app, ?list_elem_of_singleton; naive_solver. Qed.

Lemma targets_add_id sid shared ss : targets (add_id sid shared ss) ≡ₚ sid :: targets ss.
Proof.
  unfold targets. destruct shared; simpl.
  - rewrite <- app_assoc. symmetry. apply Permutation_middle.
  - rewrite app_assoc. symmetry. apply Permutation_cons_append.
Qed.

(** One subscription of the walk of [add_publisher]. *)
Definition add_match (st : Process) (p : PublisherObject) (ss : SplittedSubscriptions) (pair : Z * N) : SplittedSubscriptions :=
  match subs st !! pair.2 with
  | Some s =>
    if can_match p s then match takes st s with Some type => add_id pair.1 (is_shared type) ss | None => ss end else ss
  | None => ss
  end.

Definition set_entry (st : Process) (pid : Z) (ss : SplittedSubscriptions) : Process :=
  set_manager st (set_pub_to_subs (manager st) (<[pid := ss]> (pub_to_subs_ (manager st)))).

Lemma set_entry_same st pid ss : pub_to_subs_ (manager st) !! pid = Some ss -> set_entry st pid ss = st.
Proof. intros Hp. unfold set_entry. rewrite insert_id by done. by destruct st as [? ? ? ? ? ? ? []]. Qed.

Lemma match_subscription_spec p pid st ss pair :
  (forall a s, subs st !! a = Some s -> is_Some (takes st s)) -> pub_to_subs_ (manager st) !! pid = Some ss ->
  match_subscription p pid pair st = (Ok tt, set_entry st pid (add_match st p ss pair)).
Proof.
  intros Hb Hp. unfold match_subscription, add_match. rewrite get_bind.
  destruct (subs st !! pair.2) as [s|] eqn:Es; [|by rewrite set_entry_same].
  rewrite (bind_ok _ _ _ _ _ (can_communicate_spec p s st)). destruct (can_match p s); [|by rewrite set_entry_same].
  destruct (Hb _ _ Es) as [type Ht]. rewrite Ht, (bind_ok _ _ _ _ _ (sub_takes_shared_spec _ _ _ _ Es Ht)).
  unfold insert_sub_id_for_pub, update_manager, modify. by rewrite Hp.
Qed.

Lemma match_subscriptions_spec p pid l : forall st ss,
  (forall a s, subs st !! a = Some s -> is_Some (takes st s)) -> pub_to_subs_ (manager st) !! pid = Some ss ->
  for_each (match_subscription p pid) l st = (Ok tt, set_entry st pid (foldl (add_match st p) ss l)).
Proof.
  induction l as [|pair l IH]; intros st ss Hb Hp; cbn [for_each foldl]; [by rewrite set_entry_same|].
  rewrite (bind_ok _ _ _ _ _ (match_subscription_spec p pid st ss pair Hb Hp)).
  rewrite (IH _ (add_match st p ss pair)); [|done|by simpl; rewrite lookup_insert_eq].
  unfold set_entry. simpl. by rewrite insert_insert_eq.
Qed.

Definition matches_pub (st : Process) (p : PublisherObject) (type : BufferType) (sid : Z) (l : list (Z * N)) : Prop :=
  exists a s, (sid, a) ∈ l /\ subs st !! a = Some s /\ can_match p s = true /\ takes st s = Some type.

Lemma elem_of_add_match st p type sid i a ss :
  sid ∈ list_of type (add_match st p ss (i, a)) <->
  sid ∈ list_of type ss \/ matches_pub st p type sid [(i, a)].
Proof.
  unfold matches_pub. setoid_rewrite list_elem_of_singleton.
  assert (Hnot : (forall s, subs st !! a = Some s -> can_match p s = true -> takes st s = Some type -> False) ->
    sid ∈ list_of type ss <->
    sid ∈ list_of type ss \/ exists b s, (sid, b) = (i, a) /\ subs st !! b = Some s /\ can_match p s = true /\ takes st s = Some type).
  { intros Hn. split; [by left|]. intros [?|(b & s & [= -> ->] & Hs & Hc & Ht)]; [done|]. by destruct (Hn s). }
  unfold add_match. simpl. destruct (subs st !! a) as [s|] eqn:Es; [|apply Hnot; congruence].
  destruct (can_match p s) eqn:Ec; [|apply Hnot; congruence].
  destruct (takes st s) as [type'|] eqn:Et; [|apply Hnot; congruence].
  rewrite elem_of_add_id. split.
  - intros [?|[-> ->]]; [by left|right]. by exists a, s.
  - intros [?|(b & s' & [= -> ->] & Hs & Hc & Ht)]; [by left|right]. split; [done|congruence].
Qed.

Lemma elem_of_add_matches st p type sid l ss :
  sid ∈ list_of type (foldl (add_match st p) ss l) <-> sid ∈ list_of type ss \/ matches_pub st p type sid l.
Proof.
  revert ss. induction l as [|[i a] l IH]; intros ss; simpl.
  { split; [by left|]. intros [?|(? & ? & Hin & _)]; [done|by apply elem_of_nil in Hin]. }
  rewrite IH, elem_of_add_match. unfold matches_pub. setoid_rewrite elem_of_cons. setoid_rewrite elem_of_nil. naive_solver.
Qed.

Lemma targets_add_matches st p l ss :
  exists k, k `sublist_of` l.*1 /\ targets (foldl (add_match st p) ss l) ≡ₚ k ++ targets ss.
Proof.
  revert ss. induction l as [|[i a] l IH]; intros ss; simpl; [by exists []|].
  destruct (IH (add_match st p ss (i, a))) as (k & Hk & E).
  assert (Hs : add_match st p ss (i, a) = ss \/ exists b, add_match st p ss (i, a) = add_id i b ss).
  { unfold add_match. simpl. destruct (subs st !! a) as [s|]; [|by left]. destruct (can_match p s); [|by left].
    destruct (takes st s); [right; eauto|by left]. }
  destruct Hs as [Hs|[b Hs]]; rewrite Hs in E |- *.
  - exists k. split; [by constructor|done].
  - exists (i :: k). split; [by constructor|]. rewrite E, targets_add_id. symmetry. apply Permutation_middle.
Qed.

Lemma elem_of_iteration id X (m : gmap Z X) k x : (k, x) ∈ iteration id X m <-> m !! k = Some x.
Proof. rewrite (iteration_entries id X m). apply elem_of_map_to_list. Qed.

Lemma NoDup_iteration id X (m : gmap Z X) : NoDup (iteration id X m).*1.
Proof. rewrite (iteration_entries id X m). apply NoDup_fst_map_to_list. Qed.

Lemma add_publisher_result st publisher buffer id st' :
  matched st -> add_publisher publisher buffer st = (Ok id, st') ->
  exists p pb, pubs st !! publisher = Some p /\
    st' = set_manager st (mkManager (u64 (id + 1))
      (<[id := foldl (add_match st p) no_subscriptions (iteration id _ (subscriptions_ (manager st)))]> (pub_to_subs_ (manager st)))
      (subscriptions_ (manager st)) (<[id := publisher]> (publishers_ (manager st))) pb) /\
    exists st1, get_next_unique_id st = (Ok id, st1).
Proof.
  intros Hm E. unfold add_publisher in E. apply bind_inv in E as (i & st1 & E1 & E).
  destruct (next_id_spec _ _ _ Hm E1) as (-> & _).
  apply bind_inv in E as ([] & st2 & [= <-] & E). apply bind_inv in E as (p & st3 & Ep & E).
  unfold find_object in Ep. simpl in Ep. destruct (pubs st !! publisher) as [p'|] eqn:Hp; [|done]. injection Ep as -> <-.
  exists p. apply bind_inv in E as ([] & st4 & E4 & E).
  assert (Hst4 : exists pb, st4 = set_manager st (mkManager (u64 (i + 1)) (pub_to_subs_ (manager st)) (subscriptions_ (manager st))
    (<[i := publisher]> (publishers_ (manager st))) pb)).
  { destruct (is_transient_local _); [destruct buffer|]; inversion E4; subst st4; by eexists. }
  destruct Hst4 as [pb ->]. exists pb. apply bind_inv in E as ([] & st5 & [= <-] & E). rewrite get_bind in E.
  apply bind_inv in E as ([] & st6 & E6 & E). injection E as -> <-.
  rewrite (match_subscriptions_spec p id _ _ no_subscriptions) in E6; [|exact (matched_buffers _ Hm)|simpl; apply lookup_insert_eq].
  injection E6 as <-. split_and!; [done| |eauto]. unfold set_entry. simpl. by rewrite insert_insert_eq.
Qed.

Lemma add_publisher_matched st publisher buffer id st' :
  matched st -> add_publisher publisher buffer st = (Ok id, st') -> matched st'.
Proof.
  intros Hm E. destruct (add_publisher_result _ _ _ _ _ Hm E) as (p & pb & Hp & -> & st1 & E1).
  destruct (next_id_spec _ _ _ Hm E1) as (_ & Hfresh & Hpos & Hids). set (l := iteration _ _ _).
  destruct (targets_add_matches st p l no_subscriptions) as (k & Hk & Htargets).
  change (targets no_subscriptions) with (@nil Z) in Htargets. rewrite app_nil_r in Htargets.
  destruct Hm as [Mn Mi Md Mo Mb Me]. split; simpl.
  - apply wrap_u_range. lia.
  - intros i Hi. apply Hids. destruct (decide (i = id)) as [->|Hne]; [by right|left].
    destruct Hi as [Hi|[Hi|(pid & ss & Hss & Hi)]]; simpl in *; [by left|..].
    + right; left. by rewrite lookup_insert_ne in Hi.
    + apply lookup_insert_Some in Hss as [[<- <-]|[_ Hss]]; [|right; right; eauto].
      left. rewrite Htargets in Hi. apply (elem_of_sublist _ _ _ Hi) in Hk as Hi'.
      apply list_elem_of_fmap in Hi' as ([i' a] & -> & Hia). exists a. by apply elem_of_iteration in Hia.
  - by rewrite !dom_insert_L, Md.
  - intros pid ss [[<- <-]|[_ Hss]]%lookup_insert_Some; [|by eapply Mo].
    rewrite Htargets. eapply sublist_NoDup; [apply NoDup_iteration|exact Hk].
  - exact Mb.
  - intros pid ss b q sid a s type type' Hss Hpid Hq Hsid Hs Hty.
    apply lookup_insert_Some in Hss as [[<- <-]|[Hne Hss]].
    + rewrite lookup_insert_eq in Hpid. injection Hpid as <-. assert (q = p) as -> by (unfold set_manager in Hq; simpl in Hq; congruence).
      rewrite elem_of_add_matches. split.
      * intros [Hin|(a' & s' & Hin & Hs' & Hc & Ht)]; [by destruct type'; apply elem_of_nil in Hin|].
        apply elem_of_iteration in Hin. assert (a' = a) as -> by congruence. assert (s' = s) as -> by (simpl in Hs; congruence).
        split; [unfold takes in *; simpl in Hty; congruence|done].
      * intros [-> Hc]. right. exists a, s. split_and!; [by apply elem_of_iteration|done..].
    + rewrite lookup_insert_ne in Hpid by done. by eapply Me.
Qed.

(** *** A subscription is added *)

(** The walk leaves everything alone but the lists. *)
Record listed (st st' : Process) : Prop := {
  listed_publishers : publishers_ (manager st') = publishers_ (manager st);
  listed_next : _next_unique_id (manager st') = _next_unique_id (manager st);
  listed_subscriptions : subscriptions_ (manager st') ⊆ subscriptions_ (manager st);
  listed_pubs : pubs st' = pubs st;
  listed_subs : sub_static <$> subs st' = sub_static <$> subs st;
  listed_buffers : q_type <$> buffers st' = q_type <$> buffers st;
}.

#[local] Instance listed_preorder : PreOrder listed.
Proof.
  split.
  - by intros st.
  - intros x y z [] []. split; try congruence. by etrans.
Qed.

Lemma quiet_listed st st' : quiet st st' -> listed st st'.
Proof. by intros []. Qed.

(** [quiet] is [listed] up to the lists. *)
Lemma listed_quiet st st' :
  listed st st' -> quiet (set_manager st (set_pub_to_subs (manager st) (pub_to_subs_ (manager st')))) st'.
Proof. by intros []. Qed.

Definition matches_sub (st : Process) (s : SubscriptionIntraProcess) (pair : Z * N) : bool :=
  match pubs st !! pair.2 with Some p => can_match p s | None => false end.

Definition sub_entry (shared : bool) (sid : Z) (m : gmap Z SplittedSubscriptions) (pid : Z) : gmap Z SplittedSubscriptions :=
  <[pid := add_id sid shared (default no_subscriptions (m !! pid))]> m.

Lemma match_publisher_spec ros alloc a sid pair st st' s type :
  subs st !! a = Some s -> takes st s = Some type ->
  match_publisher ros alloc a sid pair st = (Ok tt, st') ->
  listed st st' /\
  pub_to_subs_ (manager st') = (if matches_sub st s pair then sub_entry (is_shared type) sid (pub_to_subs_ (manager st)) pair.1
                               else pub_to_subs_ (manager st)).
Proof.
  intros Ha Ht. unfold match_publisher, matches_sub. rewrite get_bind.
  destruct (pubs st !! pair.2) as [p|] eqn:Ep; [|by intros [= <-]].
  rewrite (bind_ok _ _ _ _ _ (find_object_ok _ _ _ _ Ha)), (bind_ok _ _ _ _ _ (can_communicate_spec p s st)).
  destruct (can_match p s); [|by intros [= <-]].
  rewrite (bind_ok _ _ _ _ _ (sub_takes_shared_spec _ _ _ _ Ha Ht)). intros (x & st1 & E1 & E)%bind_inv.
  injection E1 as _ <-. set (st1 := set_manager st _) in *.
  assert (H1 : listed st st1) by done.
  assert (Hq : quiet st1 st').
  { destruct (_ && _) in E; [|by injection E as <-].
    pose proof (Quiet_transient_local ros alloc pair.1 sid (is_shared type) st1) as Hq. by rewrite E in Hq. }
  split; [etrans; [exact H1|by apply quiet_listed]|]. by rewrite (quiet_pub_to_subs _ _ Hq).
Qed.

Definition add_entries (st : Process) (s : SubscriptionIntraProcess) (shared : bool) (sid : Z)
    (m : gmap Z SplittedSubscriptions) (l : list (Z * N)) : gmap Z SplittedSubscriptions :=
  foldl (fun m pair => if matches_sub st s pair then sub_entry shared sid m pair.1 else m) m l.

Lemma listed_sub st st' a s : listed st st' -> subs st !! a = Some s ->
  exists s', subs st' !! a = Some s' /\ sub_static s = sub_static s' /\ takes st s = takes st' s'.
Proof.
  intros Hl Ha. pose proof (f_equal (fun m => m !! a) (listed_subs _ _ Hl)) as Hs. rewrite !lookup_fmap, Ha in Hs.
  destruct (subs st' !! a) as [s'|]; simpl in Hs; [|done].
  assert (E : sub_static s = sub_static s') by congruence. exists s'. split_and!; [done|done|].
  by apply (quiet_takes _ _ s s' (listed_quiet _ _ Hl)).
Qed.

Lemma listed_matches st st' s s' pair : listed st st' -> sub_static s = sub_static s' ->
  matches_sub st' s' pair = matches_sub st s pair.
Proof.
  intros Hl E. unfold matches_sub. rewrite (listed_pubs _ _ Hl). destruct (pubs st !! pair.2) as [p|]; [|done].
  symmetry. by apply can_match_static.
Qed.

Lemma match_publishers_spec ros alloc a sid l : forall st st' s type,
  subs st !! a = Some s -> takes st s = Some type ->
  for_each (match_publisher ros alloc a sid) l st = (Ok tt, st') ->
  listed st st' /\ pub_to_subs_ (manager st') = add_entries st s (is_shared type) sid (pub_to_subs_ (manager st)) l.
Proof.
  induction l as [|pair l IH]; intros st st' s type Ha Ht E; cbn [for_each] in E.
  { injection E as <-. by split. }
  apply bind_inv in E as ([] & st1 & E1 & E). destruct (match_publisher_spec _ _ _ _ _ _ _ _ _ Ha Ht E1) as [H1 Hm1].
  destruct (listed_sub _ _ _ _ H1 Ha) as (s1 & Ha1 & Es & Et). rewrite Et in Ht.
  destruct (IH st1 st' s1 type Ha1 Ht E) as [H2 Hm2]. split; [by etrans|]. rewrite Hm2, Hm1.
  unfold add_entries. cbn [foldl]. set (m := if matches_sub st s pair then _ else _). clearbody m. clear -H1 Es. revert m.
  induction l as [|q l IH]; intros m; [done|]. cbn [foldl]. by rewrite (listed_matches _ _ _ _ _ H1 Es), IH.
Qed.

Lemma add_entries_other st s (shared : bool) sid (l : list (Z * N)) m pid :
  (forall b, (pid, b) ∈ l -> matches_sub st s (pid, b) = false) -> add_entries st s shared sid m l !! pid = m !! pid.
Proof.
  revert m. induction l as [|[i b] l IH]; intros m Hno; [done|]. unfold add_entries. cbn [foldl]. fold (add_entries st s shared sid).
  unfold add_entries in IH. rewrite IH by (intros c Hc; apply Hno; by right).
  destruct (matches_sub st s (i, b)) eqn:Em; [|done]. apply lookup_insert_ne. simpl. intros ->. rewrite Hno in Em; [done|by left].
Qed.

Lemma add_entries_app st s (shared : bool) sid m l1 pair l2 :
  add_entries st s shared sid m (l1 ++ pair :: l2) =
  add_entries st s shared sid (if matches_sub st s pair then sub_entry shared sid (add_entries st s shared sid m l1) pair.1
                               else add_entries st s shared sid m l1) l2.
Proof. unfold add_entries. by rewrite foldl_app. Qed.

Lemma add_entries_match st s (shared : bool) sid (l : list (Z * N)) m pid b :
  NoDup l.*1 -> (pid, b) ∈ l -> matches_sub st s (pid, b) = true ->
  add_entries st s shared sid m l !! pid = Some (add_id sid shared (default no_subscriptions (m !! pid))).
Proof.
  intros Hnd Hin Hmatch. apply list_elem_of_split in Hin as (l1 & l2 & ->).
  rewrite fmap_app, fmap_cons in Hnd. apply NoDup_app in Hnd as (_ & Hdis & [Hn _]%NoDup_cons).
  rewrite add_entries_app, Hmatch. cbn [fst].
  assert (H1 : add_entries st s shared sid m l1 !! pid = m !! pid).
  { apply add_entries_other. intros c Hc. exfalso. apply (Hdis pid); [|by left]. by apply (list_elem_of_fmap_2 fst _ (pid, c)). }
  rewrite add_entries_other.
  - unfold sub_entry. by rewrite lookup_insert_eq, H1.
  - intros c Hc. exfalso. apply Hn. by apply (list_elem_of_fmap_2 fst _ (pid, c)).
Qed.

Lemma add_subscription_result st ros alloc a id st' s :
  matched st -> subs st !! a = Some s -> add_subscription ros alloc a st = (Ok id, st') ->
  exists type, takes st s = Some type /\
    listed (set_manager st (set_subscriptions (set_next_id (manager st) (u64 (id + 1))) (<[id := a]> (subscriptions_ (manager st))))) st' /\
    pub_to_subs_ (manager st') = add_entries st s (is_shared type) id (pub_to_subs_ (manager st)) (iteration id _ (publishers_ (manager st))) /\
    exists st1, get_next_unique_id st = (Ok id, st1).
Proof.
  intros Hm Ha E. unfold add_subscription in E. apply bind_inv in E as (i & st1 & E1 & E).
  destruct (next_id_spec _ _ _ Hm E1) as (-> & _).
  apply bind_inv in E as ([] & st2 & E2 & E). injection E2 as <-. rewrite get_bind in E.
  apply bind_inv in E as ([] & st3 & E3 & E). injection E as -> <-.
  destruct (matched_buffers _ Hm _ _ Ha) as [type Ht]. exists type.
  destruct (match_publishers_spec ros alloc a id _
    (set_manager st (set_subscriptions (set_next_id (manager st) (u64 (id + 1))) (<[id := a]> (subscriptions_ (manager st)))))
    st3 s type Ha Ht E3) as [Hl Hp]. split_and!; [done|exact Hl|exact Hp|eauto].
Qed.

(** The lists after the walk. *)
Lemma add_subscription_entry st st' s type id :
  matched st ->
  pub_to_subs_ (manager st') = add_entries st s (is_shared type) id (pub_to_subs_ (manager st)) (iteration id _ (publishers_ (manager st))) ->
  forall pid ss, pub_to_subs_ (manager st') !! pid = Some ss ->
    exists old b, pub_to_subs_ (manager st) !! pid = Some old /\ publishers_ (manager st) !! pid = Some b /\
      ss = if matches_sub st s (pid, b) then add_id id (is_shared type) old else old.
Proof.
  intros Hm Hp pid ss Hss. rewrite Hp in Hss. set (l := iteration _ _ _) in Hss.
  destruct (publishers_ (manager st) !! pid) as [b|] eqn:Eb.
  - assert (Hold : is_Some (pub_to_subs_ (manager st) !! pid)).
    { apply elem_of_dom. rewrite (matched_dom _ Hm). by apply elem_of_dom_2 in Eb. }
    destruct Hold as [old Hold]. exists old, b. split_and!; [done..|]. assert (Hin : (pid, b) ∈ l) by (by apply elem_of_iteration).
    destruct (matches_sub st s (pid, b)) eqn:Em.
    + rewrite (add_entries_match st s _ _ _ _ _ b (NoDup_iteration _ _ _) Hin Em), Hold in Hss. by injection Hss as <-.
    + rewrite add_entries_other in Hss; [congruence|]. intros c Hc. apply elem_of_iteration in Hc. congruence.
  - exfalso. rewrite add_entries_other in Hss.
    + apply elem_of_dom_2 in Hss. rewrite (matched_dom _ Hm) in Hss. apply elem_of_dom in Hss as [? Hx]. congruence.
    + intros c Hc. apply elem_of_iteration in Hc. congruence.
Qed.

Lemma add_subscription_matched st ros alloc a id st' s :
  matched st -> subs st !! a = Some s -> add_subscription ros alloc a st = (Ok id, st') -> matched st'.
Proof.
  intros Hm Ha E. destruct (add_subscription_result _ _ _ _ _ _ _ Hm Ha E) as (type & Ht & Hl & Hp & st1 & E1).
  destruct (next_id_spec _ _ _ Hm E1) as (_ & Hfresh & Hpos & Hids). set (l := iteration _ _ _) in Hp.
  set (st0 := set_manager st _) in Hl.
  pose proof (add_subscription_entry st st' s type id Hm Hp) as Hentry.
  pose proof Hm as [Mn Mi Md Mo Mb Me].
  assert (Hnew : forall pid ss, pub_to_subs_ (manager st) !! pid = Some ss -> id ∉ targets ss).
  { intros pid ss Hss Hin. apply Hfresh. right; right. eauto. }
  assert (Hsubs : forall i c, subscriptions_ (manager st') !! i = Some c -> i = id /\ c = a \/ subscriptions_ (manager st) !! i = Some c).
  { intros i c Hc. pose proof (lookup_weaken _ _ _ _ Hc (listed_subscriptions _ _ Hl)) as Hc'. simpl in Hc'.
    apply lookup_insert_Some in Hc' as [[<- <-]|[_ Hc']]; auto. }
  split.
  - rewrite (listed_next _ _ Hl). apply wrap_u_range. lia.
  - intros i Hi. rewrite (listed_next _ _ Hl). apply Hids. destruct (decide (i = id)) as [->|Hne]; [by right|left].
    destruct Hi as [[c Hc]|[Hi|(pid & ss & Hss & Hi)]].
    + destruct (Hsubs i c Hc) as [[? _]|Hc']; [done|]. left. eauto.
    + rewrite (listed_publishers _ _ Hl) in Hi. right; by left.
    + destruct (Hentry pid ss Hss) as (old & b & Hold & _ & ->). right; right. exists pid, old. split; [done|].
      destruct (matches_sub st s (pid, b)); [|done]. rewrite targets_add_id in Hi. by apply elem_of_cons in Hi as [->|].
  - rewrite (listed_publishers _ _ Hl). simpl. rewrite <- Md. apply set_eq. intros pid. rewrite !elem_of_dom. split.
    + intros [ss Hss]. destruct (Hentry pid ss Hss) as (old & b & Hold & _). eauto.
    + intros [old Hold]. rewrite Hp. assert (Hb : is_Some (publishers_ (manager st) !! pid)).
      { apply elem_of_dom. rewrite <- Md. by apply elem_of_dom_2 in Hold. }
      destruct Hb as [b Hb]. assert (Hin : (pid, b) ∈ l) by (by apply elem_of_iteration).
      destruct (matches_sub st s (pid, b)) eqn:Em.
      * rewrite (add_entries_match st s _ _ _ _ _ b (NoDup_iteration _ _ _) Hin Em). eauto.
      * rewrite add_entries_other; [eauto|]. intros c Hc. apply elem_of_iteration in Hc. congruence.
  - intros pid ss Hss. destruct (Hentry pid ss Hss) as (old & b & Hold & _ & ->). destruct (matches_sub st s (pid, b)); [|by eapply Mo].
    rewrite targets_add_id. apply NoDup_cons. split; [by eapply Hnew|by eapply Mo].
  - intros c t Hc. destruct (quiet_sub _ _ _ _ (listed_quiet _ _ Hl) Hc) as (t0 & Ht0 & Et).
    rewrite <- (quiet_takes _ _ _ _ (listed_quiet _ _ Hl) Et). by apply (Mb c).
  - intros pid ss b p sid c t type0 type' Hss Hpid Hpb Hsid Hc Hty.
    rewrite (listed_publishers _ _ Hl) in Hpid. rewrite (listed_pubs _ _ Hl) in Hpb. simpl in Hpid, Hpb.
    destruct (quiet_sub _ _ _ _ (listed_quiet _ _ Hl) Hc) as (t0 & Ht0 & Et). simpl in Ht0.
    rewrite <- (quiet_takes _ _ _ _ (listed_quiet _ _ Hl) Et) in Hty. change (takes st t0 = Some type0) in Hty.
    rewrite <- (can_match_static p p t0 t) by done.
    destruct (Hentry pid ss Hss) as (old & b' & Hold & Hb' & ->). assert (b' = b) as -> by congruence.
    assert (Em : matches_sub st s (pid, b) = can_match p s) by (unfold matches_sub; simpl; by rewrite Hpb).
    rewrite Em. destruct (Hsubs sid c Hsid) as [[-> ->]|Hsid'].
    + assert (t0 = s) as -> by congruence. assert (type0 = type) as -> by congruence.
      assert (Hno : forall ty, id ∉ list_of ty old) by (intros ty Hin%list_of_targets; by eapply Hnew).
      destruct (can_match p s); [rewrite elem_of_add_id|]; specialize (Hno type'); naive_solver.
    + assert (Hne : sid <> id) by (intros ->; apply Hfresh; left; eauto).
      destruct (can_match p s); [rewrite elem_of_add_id|]; rewrite (Me pid old b p sid c t0 type0 type' Hold Hb' Hpb Hsid' Ht0 Hty); naive_solver.
Qed.

(** *** Removal *)

Lemma targets_erase id ss : targets (erase_id id ss) = filter (fun i => i <> id) (targets ss).
Proof. unfold targets, erase_id. simpl. by rewrite filter_app. Qed.

Lemma elem_of_erase type id sid ss : sid ∈ list_of type (erase_id id ss) <-> sid ∈ list_of type ss /\ sid <> id.
Proof. destruct type; simpl; rewrite list_elem_of_filter; naive_solver. Qed.

Lemma remove_subscription_matched st id st' :
  matched st -> remove_subscription id st = (Ok tt, st') -> matched st'.
Proof.
  intros [Mn Mi Md Mo Mb Me] E. injection E as <-. split; simpl; try done.
  - intros i Hi. apply Mi. destruct Hi as [[a Ha]|[Hi|(pid & ss & Hss & Hi)]]; simpl in *.
    + apply lookup_delete_Some in Ha as [_ Ha]. left. eauto.
    + right; by left.
    + rewrite lookup_fmap_Some in Hss. destruct Hss as (old & <- & Hold). rewrite targets_erase in Hi.
      apply list_elem_of_filter in Hi as [_ Hi]. right; right. eauto.
  - by rewrite dom_fmap_L.
  - intros pid ss Hss. rewrite lookup_fmap_Some in Hss. destruct Hss as (old & <- & Hold).
    rewrite targets_erase. apply NoDup_filter. by eapply Mo.
  - intros pid ss b p sid a s type type' Hss Hpid Hp Hsid Hs Hty. rewrite lookup_fmap_Some in Hss. destruct Hss as (old & <- & Hold).
    apply lookup_delete_Some in Hsid as [Hne Hsid]. rewrite elem_of_erase, (Me pid old b p sid a s type type') by done. naive_solver.
Qed.

Lemma remove_publisher_matched st id st' :
  matched st -> remove_publisher id st = (Ok tt, st') -> matched st'.
Proof.
  intros [Mn Mi Md Mo Mb Me] E. injection E as <-. split; simpl; try done.
  - intros i Hi. apply Mi. destruct Hi as [Hi|[[b Hb]|(pid & ss & Hss & Hi)]]; simpl in *.
    + by left.
    + apply lookup_delete_Some in Hb as [_ Hb]. right; left. eauto.
    + apply lookup_delete_Some in Hss as [_ Hss]. right; right. eauto.
  - by rewrite !dom_delete_L, Md.
  - intros pid ss [_ Hss]%lookup_delete_Some. by eapply Mo.
  - intros pid ss b p sid a s type type' [_ Hss]%lookup_delete_Some [_ Hpid]%lookup_delete_Some. by eapply Me.
Qed.

(** ** Reachable states *)

Inductive registration_step (st : Process) : Process -> Prop :=
| elsewhere_step st' : elsewhere st st' -> registration_step st st'
| add_publisher_step publisher buffer id st' :
    add_publisher publisher buffer st = (Ok id, st') -> registration_step st st'
| add_subscription_step ros alloc a s id st' :
    subs st !! a = Some s -> add_subscription ros alloc a st = (Ok id, st') -> registration_step st st'
| remove_subscription_step id st' : remove_subscription id st = (Ok tt, st') -> registration_step st st'
| remove_publisher_step id st' : remove_publisher id st = (Ok tt, st') -> registration_step st st'.

Lemma registration_step_matched st st' : registration_step st st' -> matched st -> matched st'.
Proof.
  intros [? ?|? ? ? ? ?|? ? ? ? ? ? ? ?|? ? ?|? ? ?] Hm.
  - by eapply elsewhere_matched.
  - by eapply add_publisher_matched.
  - by eapply add_subscription_matched.
  - by eapply remove_subscription_matched.
  - by eapply remove_publisher_matched.
Qed.

Lemma new_manager_matched st :
  manager st = new_manager -> (forall a s, subs st !! a = Some s -> is_Some (takes st s)) -> matched st.
Proof.
  intros Em Hb. split; rewrite ?Em; simpl; try done.
  - intros id [[? Hx]|[[? Hx]|(? & ? & Hx & _)]]; done.
Qed.

(** Publications, with everything they do, and the taking of messages are
    steps elsewhere, whether they succeed or throw. *)
Lemma publish_elsewhere T pub_id p st : elsewhere st (do_intra_process_publish T pub_id p st).2.
Proof. apply quiet_elsewhere, Quiet_publish. Qed.
Lemma publish_shared_elsewhere T pub_id p st : elsewhere st (do_intra_process_publish_and_return_shared T pub_id p st).2.
Proof. apply quiet_elsewhere, Quiet_publish_shared. Qed.

Lemma Quiet_has_data b : Quiet (buffer_has_data b).
Proof. apply Quiet_on_buffer. by intros t t' x [= <- _]. Qed.

Lemma take_data_elsewhere a st : elsewhere st (take_data a st).2.
Proof.
  apply quiet_elsewhere. revert st. change (Quiet (take_data a)). unfold take_data.
  apply Keeps_bind; [apply _|apply Quiet_find|]. intros s. cbv zeta. apply Keeps_bind; [apply _| |].
  - apply Quiet_on_buffer. intros t t' p. destruct (callback_takes_shared s).
    + unfold consume_shared. intros ([q b] & _ & E)%rbind_ok. by injection E as <- _.
    + unfold consume_unique. intros ([q b] & _ & E)%rbind_ok. destruct (buffer_type t) eqn:Et; [|by injection E as <- _].
      apply copy_message_type in E. simpl in E. congruence.
  - intros p. destruct (negb _); [by apply Keeps_ret; apply _|]. apply Keeps_bind; [apply _|apply Quiet_has_data|]. intros b.
    apply Keeps_bind; [apply _|destruct b; [apply Quiet_trigger|by apply Keeps_ret; apply _]|]. intros _. by apply Keeps_ret; apply _.
Qed.

(** The destruction of a subscription, whose buffer is its own. *)
Lemma expire_subscription_elsewhere a st :
  (forall b s t, a <> b -> subs st !! a = Some s -> subs st !! b = Some t -> sub_buffer s <> sub_buffer t) ->
  elsewhere st (expire_subscription a st).2.
Proof.
  intros Hown. unfold expire_subscription, modify. simpl.
  assert (Hst : forall st', manager st' = manager st -> pubs st' = pubs st -> subs st' = delete a (subs st) ->
    (forall b t, a <> b -> subs st !! b = Some t -> takes st' t = takes st t) -> elsewhere st st').
  { intros st' Em Ep Es Ht. split; rewrite ?Em, ?Ep, ?Es; try done; [eauto|..].
    - intros id b t _ [Hne Hb]%lookup_delete_Some. exists t. split_and!; [done..|]. symmetry. by apply (Ht b).
    - intros Hb b t [Hne Hbt]%lookup_delete_Some. rewrite (Ht b t Hne Hbt). eauto. }
  destruct (subs st !! a) as [s|] eqn:Ea; apply Hst; try done. intros b t Hne Hb. unfold takes. simpl.
  rewrite lookup_delete_ne; [done|]. by apply (Hown b s t).
Qed.

Lemma reachable_matched st0 st : rtc registration_step st0 st -> matched st0 -> matched st.
Proof. induction 1 as [|x y z Hxy _ IH]; [done|]. intros Hm. by apply IH, (registration_step_matched x). Qed.

(** C36: the lists of the manager are exact.  In every state that publishers
    and subscriptions can reach by coming and going, by publishing and
    taking messages and by being destroyed, the list of a publisher contains
    each identifier at most once, and a live subscription exactly when it is
    on the same topic and the policies of the two match, in the half that
    fits the kind of its buffer. *)
Theorem matching_exact st0 st pid ss b p :
  manager st0 = new_manager -> (forall a s, subs st0 !! a = Some s -> is_Some (takes st0 s)) ->
  rtc registration_step st0 st ->
  pub_to_subs_ (manager st) !! pid = Some ss -> publishers_ (manager st) !! pid = Some b -> pubs st !! b = Some p ->
  NoDup (targets ss) /\
  forall sid a s, subscriptions_ (manager st) !! sid = Some a -> subs st !! a = Some s ->
    (sid ∈ targets ss <-> pub_topic p = sub_topic s /\ profiles_match (pub_qos p) (sub_qos s)) /\
    (sid ∈ take_shared_subscriptions ss -> takes st s = Some SharedPtr) /\
    (sid ∈ take_ownership_subscriptions ss -> takes st s = Some UniquePtr).
Proof.
  intros E0 Hb0 Hr Hss Hpid Hp. assert (Hm : matched st).
  { by apply (reachable_matched st0), new_manager_matched. }
  split; [by apply (matched_once _ Hm pid)|]. intros sid a s Hsid Hs. destruct (matched_buffers _ Hm _ _ Hs) as [type Ht].
  pose proof (matched_exact _ Hm pid ss b p sid a s type SharedPtr Hss Hpid Hp Hsid Hs Ht) as H1.
  pose proof (matched_exact _ Hm pid ss b p sid a s type UniquePtr Hss Hpid Hp Hsid Hs Ht) as H2. simpl in H1, H2.
  unfold targets. rewrite elem_of_app, H1, H2, <- can_match_iff, Ht. destruct type; naive_solver.
Qed.
End Matching.

(** ** Joining in the middle of a publication *)

Section Races.
(** Messages are numbers; type 2 has an adapter to the ROS type 1. *)
#[local] Instance adapted : Environment Z := {
  adapter_specialized _ := false;
  adapter_custom_type t := t;
  pair_specialized c r := ((c =? 2) && (r =? 1))%N;
  pair_ros_type c r := r;
  convert_to_ros_message _ _ v := v;
  convert_to_custom _ _ v := v;
  iteration _ _ m := map_to_list m;
  rmw_compare_gids_equal a b := Some (a =? b);
}.

#[local] Instance adapted_law : IterationLaw Z.
Proof. by intros id X m. Qed.

Definition latched : QosProfile := sample_qos RMW_QOS_POLICY_DURABILITY_TRANSIENT_LOCAL.

Definition sample_publisher (type : N) : PublisherObject := mkPublisher "/chatter" latched 5 type 1 1 None false 0.

Definition process_with (p : PublisherObject) : Process (V := Z) := mkProcess ∅ ∅ ∅ {[ 0%N := p ]} 1%N [] true new_manager.

Definition set_up (p : PublisherObject) : Process (V := Z) := (post_init_setup 0%N latched SharedPtr (process_with p)).2.

Definition subscribe : ST (Process (V := Z)) ipm_error (N * Z) := Subscription_init "/chatter" latched 1 1 1 false None.

Definition queue_at (st : Process (V := Z)) (a : N) : option (list Z) :=
  s ← subs st !! a; q ← buffers st !! sub_buffer s; Some (contents (messages st) q).

(** The two steps of [publish_ros_message] without other subscribers, with
    something in between. *)
Definition publish_around {A} (between : ST (Process (V := Z)) ipm_error A) (v : Z) : ST (Process (V := Z)) ipm_error A :=
  p ← find_object pubs 0%N;
  msg ← allocate_message v;
  shared_msg ← do_intra_process_ros_message_publish_and_return_shared p msg;
  x ← between;
  match pub_buffer p with Some b => add_to_buffer true b shared_msg;; mret x | None => mret x end.

(** The two steps of [publish_custom] without other subscribers. *)
Definition publish_custom_around {A} (between : ST (Process (V := Z)) ipm_error A) (v : Z) : ST (Process (V := Z)) ipm_error A :=
  p ← find_object pubs 0%N;
  msg ← allocate_message v;
  (match pub_buffer p with
   | Some b =>
     v ← load msg;
     ros_msg_ptr ← allocate_message (convert_to_ros_message (pub_published_type p) (pub_ros_type p) v);
     add_to_buffer true b ros_msg_ptr
   | None => mret tt
   end);;
  x ← between;
  Publisher_do_intra_process_publish p msg;;
  mret x.

(** a subscription that joins during a publication can miss the message.
    A transient-local publisher delivers a message and then stores it for
    those who join later, in two steps.  A subscription that joins before
    both finds the message; one that joins in between has the stored ones
    and those to come, but not this one.  When the message is of a custom
    type it is stored first, and a subscription that joins in between gets
    it twice. *)
Theorem late_joiner v w :
  let st := (publish_ros_copy 0%N v 0 Sent (set_up (sample_publisher 1))).2 in
  let custom := (publish_custom_copy 0%N v 0 Sent (set_up (sample_publisher 2))).2 in
  (exists a id st', (x ← subscribe; publish_ros_copy 0%N w 0 Sent;; mret x) st = (Ok (a, id), st') /\
     queue_at st' a = Some [v; w]) /\
  (exists a id st', publish_around subscribe w st = (Ok (a, id), st') /\ queue_at st' a = Some [v]) /\
  (exists a id st', publish_custom_around subscribe w custom = (Ok (a, id), st') /\ queue_at st' a = Some [w; w]).
Proof.
  intros st custom. split_and!; do 3 eexists; (split; [vm_compute; reflexivity|vm_compute; reflexivity]).
Qed.

(** A subscription with another allocator cannot get the stored messages: its
    constructor throws, but the manager keeps it.  The first publication
    afterwards succeeds, the second throws. *)
Theorem failed_subscription v w :
  let failed := Subscription_init "/chatter" latched 1 1 9 false None (set_up (sample_publisher 1)) in
  let first := (SubscriptionBase_destructor false 0;; expire_subscription 3;; publish_ros_copy 0%N v 0 Sent) failed.2 in
  failed.1 = Throw BadCast /\ first.1 = Ok tt /\ (publish_ros_copy 0%N w 0 Sent first.2).1 = Throw OutOfScope.
Proof. split_and!; vm_compute; reflexivity. Qed.

(** Without anything in between the two steps are the publication. *)
Lemma publish_around_ok p b v st :
  pubs st !! 0%N = Some p -> pub_buffer p = Some b -> intra_process_is_enabled_ p = true -> manager_alive st = true ->
  publish_around (mret tt) v st = publish_ros_copy 0%N v 0 Sent st.
Proof.
  intros Hp Hb He Ha. unfold publish_around, publish_ros_copy, publish_ros_message.
  rewrite !(bind_ok _ _ _ _ _ (find_object_ok _ _ _ _ Hp)), He. cbn [negb].
  set (st1 := (allocate_message v st).2). assert (Ea : exists l, allocate_message v st = (Ok l, st1)) by (by eexists).
  destruct Ea as [l Ea]. rewrite !(bind_ok _ _ _ _ _ Ea), (bind_ok _ _ _ _ _ (find_object_ok pubs 0%N p st1 Hp)), He. cbn [negb].
  assert (Ec : exists n, get_intra_process_subscription_count p st1 = (Ok n, st1) /\ 0 <= n).
  { unfold get_intra_process_subscription_count. rewrite get_bind, He. cbn [negb].
    change (manager_alive st1) with (manager_alive st). rewrite Ha. cbn [negb].
    eexists. split; [reflexivity|]. destruct (pub_to_subs_ _ !! _) as [ss|]; [|done]. apply wrap_u_range. lia. }
  destruct Ec as (n & Ec & Hn). rewrite (bind_ok _ _ _ _ _ Ec), (proj2 (Z.ltb_ge n 0)), Hb by done.
  unfold mbind, ST_bind. destruct (do_intra_process_ros_message_publish_and_return_shared p l st1) as [[k|] st2]; [|done].
  simpl. by destruct (add_to_buffer true b k st2) as [[[]|] st3].
Qed.

(** A publisher and then a subscription are registered. *)
Definition before : Process (V := Z) :=
  mkProcess ∅ {[ 21%N := mkQueue SharedPtr 1 1 sample_ring ]} {[ 20%N := sample_sub 21 ]}
    {[ 0%N := mkPublisher "/chatter" (sample_qos RMW_QOS_POLICY_DURABILITY_VOLATILE) 5 1 1 1 None false 0 ]} 100%N [] true new_manager.
Definition between : Process (V := Z) := (add_publisher 0%N None before).2.
Definition after : Process (V := Z) := (add_subscription 1 1 20%N between).2.

Lemma matching_exact_witness :
  NoDup [2] /\ (2 ∈ [2] <-> "/chatter"%string = "/chatter"%string /\
    profiles_match (sample_qos RMW_QOS_POLICY_DURABILITY_VOLATILE) (sample_qos RMW_QOS_POLICY_DURABILITY_VOLATILE)).
Proof.
  assert (E1 : add_publisher 0%N None before = (Ok 1, between)) by (vm_compute; reflexivity).
  assert (E2 : add_subscription 1 1 20%N between = (Ok 2, after)) by (vm_compute; reflexivity).
  assert (Hs : subs between !! 20%N = Some (sample_sub 21)) by (vm_compute; reflexivity).
  assert (Hr : rtc registration_step before after).
  { eapply rtc_l; [exact (add_publisher_step _ _ _ _ _ E1)|].
    eapply rtc_l; [exact (add_subscription_step _ _ _ _ _ _ _ Hs E2)|apply rtc_refl]. }
  destruct (matching_exact before after 1 (mkSplit [2] []) 0%N
    (mkPublisher "/chatter" (sample_qos RMW_QOS_POLICY_DURABILITY_VOLATILE) 5 1 1 1 None false 0)) as [Hnd Hex].
  - reflexivity.
  - intros a s Ha. unfold before in Ha. simpl in Ha. apply lookup_singleton_Some in Ha as [_ <-]. by exists SharedPtr.
  - exact Hr.
  - vm_compute. reflexivity.
  - vm_compute. reflexivity.
  - vm_compute. reflexivity.
  - split; [exact Hnd|]. apply (Hex 2 20%N (sample_sub 21)); vm_compute; reflexivity.
Defined.
End Races.
