(* ===== verification/ParameterValue.v ===== *)
(** * Parameters and their values

    The data of rclcpp's parameters: [ParameterValue] is the class of
    [rclcpp/src/rclcpp/parameter_value.cpp], which wraps the message
    [rcl_interfaces/msg/ParameterValue] (a type and a field for every
    type), [Param] that of [parameter.cpp], [ParameterDescriptor] the
    message that says what values a parameter may take, and
    [__check_parameter_value_in_range] the check of
    [node_interfaces/node_parameters.cpp] that a value is one of them.
    A [double] is a [spec_float]: the binary64 numbers with their infinities
    and NaN, on which the operations of the code compute exactly as written. *)

From Stdlib Require Import ZArith Lia String SpecFloat.
From stdpp Require Import base numbers list strings.
From S2P Require Import Prelude.
#[local] Open Scope string_scope.
#[local] Open Scope Z_scope.

(** ** Doubles *)

Abbreviation float64 := spec_float.

Definition float64_of_Z (z : Z) : float64 := binary_normalize 53 1024 z 0 false.

Definition fadd : float64 -> float64 -> float64 := SFadd 53 1024.
Definition fsub : float64 -> float64 -> float64 := SFsub 53 1024.
Definition fmul : float64 -> float64 -> float64 := SFmul 53 1024.
Definition fdiv : float64 -> float64 -> float64 := SFdiv 53 1024.

(** [std::round]: to the nearest integer, halves away from zero. *)
Definition fround (x : float64) : float64 :=
  match x with
  | S754_finite s m e =>
    if 0 <=? e then x
    else
      let n := (Z.pos m + 2 ^ (- e - 1)) / 2 ^ (- e) in
      binary_normalize 53 1024 (if s then - n else n) 0 s
  | _ => x
  end.

(** [std::numeric_limits<double>::epsilon()], 2 to the power -52. *)
Definition epsilon : float64 := binary_normalize 53 1024 1 (-52) false.

(** ** Types *)

(** The constants of [rcl_interfaces/msg/ParameterType], a [uint8]. *)
Abbreviation ParameterType := Z.
Definition PARAMETER_NOT_SET : ParameterType := 0.
Definition PARAMETER_BOOL : ParameterType := 1.
Definition PARAMETER_INTEGER : ParameterType := 2.
Definition PARAMETER_DOUBLE : ParameterType := 3.
Definition PARAMETER_STRING : ParameterType := 4.
Definition PARAMETER_BYTE_ARRAY : ParameterType := 5.
Definition PARAMETER_BOOL_ARRAY : ParameterType := 6.
Definition PARAMETER_INTEGER_ARRAY : ParameterType := 7.
Definition PARAMETER_DOUBLE_ARRAY : ParameterType := 8.
Definition PARAMETER_STRING_ARRAY : ParameterType := 9.

Definition type_to_string (type : ParameterType) : string :=
  match type with
  | 0 => "not set"
  | 1 => "bool"
  | 2 => "integer"
  | 3 => "double"
  | 4 => "string"
  | 5 => "byte_array"
  | 6 => "bool_array"
  | 7 => "integer_array"
  | 8 => "double_array"
  | 9 => "string_array"
  | _ => "unknown type"
  end.

(** ** Values *)

Inductive param_error :=
| ParameterModifiedInCallback
| InvalidParameters (reason : string)
| ParameterAlreadyDeclared (name : string)
| InvalidParameterType (name reason : string)
| InvalidParameterValue (reason : string)
| InvalidArgument_what (reason : string)
| ParameterNotDeclared (name : string)
| ParameterImmutable (name : string)
| ParameterUninitialized (name : string)
| ParameterTypeMismatch (expected actual : ParameterType)
| UnknownType (type : ParameterType)
| Runtime_error (reason : string)
| AssertionFailed
| UserException (n : N).

Record ParameterValue := mkParameterValue {
  type : ParameterType;
  bool_value : bool;
  integer_value : Z;
  double_value : float64;
  string_value : string;
  byte_array_value : list Z;
  bool_array_value : list bool;
  integer_array_value : list Z;
  double_array_value : list float64;
  string_array_value : list string;
}.

(** The message a value is stored in has the same fields. *)
Abbreviation ParameterValueMsg := ParameterValue.

Definition value_not_set : ParameterValue := mkParameterValue PARAMETER_NOT_SET false 0 (S754_zero false) "" [] [] [] [] [].

Definition value_bool (b : bool) : ParameterValue := mkParameterValue PARAMETER_BOOL b 0 (S754_zero false) "" [] [] [] [] [].
Definition value_int (i : Z) : ParameterValue := mkParameterValue PARAMETER_INTEGER false i (S754_zero false) "" [] [] [] [] [].
Definition value_double (d : float64) : ParameterValue := mkParameterValue PARAMETER_DOUBLE false 0 d "" [] [] [] [] [].
Definition value_string (s : string) : ParameterValue := mkParameterValue PARAMETER_STRING false 0 (S754_zero false) s [] [] [] [] [].
Definition value_byte_array (l : list Z) : ParameterValue :=
  mkParameterValue PARAMETER_BYTE_ARRAY false 0 (S754_zero false) "" l [] [] [] [].
Definition value_bool_array (l : list bool) : ParameterValue :=
  mkParameterValue PARAMETER_BOOL_ARRAY false 0 (S754_zero false) "" [] l [] [] [].
Definition value_integer_array (l : list Z) : ParameterValue :=
  mkParameterValue PARAMETER_INTEGER_ARRAY false 0 (S754_zero false) "" [] [] l [] [].
Definition value_double_array (l : list float64) : ParameterValue :=
  mkParameterValue PARAMETER_DOUBLE_ARRAY false 0 (S754_zero false) "" [] [] [] l [].
Definition value_string_array (l : list string) : ParameterValue :=
  mkParameterValue PARAMETER_STRING_ARRAY false 0 (S754_zero false) "" [] [] [] [] l.

(** The constructor from a message keeps every field, used or not. *)
Definition value_from_msg (value : ParameterValueMsg) : Result param_error ParameterValue :=
  if (0 <=? type value) && (type value <=? 9) then Ok value else Throw (UnknownType (type value)).

Definition get_type (v : ParameterValue) : ParameterType := type v.
Definition to_value_msg (v : ParameterValue) : ParameterValueMsg := v.

(** The variants of [get<type>()]. *)
Definition get_as {A} (t : ParameterType) (field : ParameterValue -> A) (v : ParameterValue) : Result param_error A :=
  if type v =? t then Ok (field v) else Throw (ParameterTypeMismatch t (get_type v)).

Fixpoint list_eqb {A} (eqb : A -> A -> bool) (l k : list A) : bool :=
  match l, k with
  | [], [] => true
  | x :: l, y :: k => eqb x y && list_eqb eqb l k
  | _, _ => false
  end.

(** [operator==] compares the messages field by field, doubles as doubles. *)
Definition value_eqb (v w : ParameterValue) : bool :=
  (type v =? type w) && Bool.eqb (bool_value v) (bool_value w) && (integer_value v =? integer_value w)
  && SFeqb (double_value v) (double_value w) && String.eqb (string_value v) (string_value w)
  && list_eqb Z.eqb (byte_array_value v) (byte_array_value w)
  && list_eqb Bool.eqb (bool_array_value v) (bool_array_value w)
  && list_eqb Z.eqb (integer_array_value v) (integer_array_value w)
  && list_eqb SFeqb (double_array_value v) (double_array_value w)
  && list_eqb String.eqb (string_array_value v) (string_array_value w).

(** ** Parameters *)

(** [Param] is the class [Parameter], whose name is a keyword here. *)

Record Param := mkParameter {
  name_ : string;
  value_ : ParameterValue;
}.

(** The message of a parameter has the same fields. *)
Abbreviation ParameterMsg := Param.

Definition Parameter_eqb (p q : Param) : bool := String.eqb (name_ p) (name_ q) && value_eqb (value_ p) (value_ q).
Definition Parameter_get_type (p : Param) : ParameterType := get_type (value_ p).

Definition from_parameter_msg (parameter : ParameterMsg) : Result param_error Param :=
  let! value := value_from_msg (value_ parameter) in Ok (mkParameter (name_ parameter) value).

Definition to_parameter_msg (p : Param) : ParameterMsg := mkParameter (name_ p) (to_value_msg (value_ p)).

(** ** Values from files *)

(** A [rcl_variant_t] of the parser: a pointer for every type. *)
Record rcl_variant := mkVariant {
  rcl_bool_value : option bool;
  rcl_integer_value : option Z;
  rcl_double_value : option float64;
  rcl_string_value : option string;
  rcl_byte_array_value : option (list Z);
  rcl_bool_array_value : option (list bool);
  rcl_integer_array_value : option (list Z);
  rcl_double_array_value : option (list float64);
  rcl_string_array_value : option (list string);
}.

(** [None]: the pointer passed is null. *)
Definition parameter_value_from (c_param_value : option rcl_variant) : Result param_error ParameterValue :=
  match c_param_value with
  | None => Throw (InvalidParameterValue "Passed argument is NULL")
  | Some v =>
    match rcl_bool_value v with Some b => Ok (value_bool b) | None =>
    match rcl_integer_value v with Some i => Ok (value_int i) | None =>
    match rcl_double_value v with Some d => Ok (value_double d) | None =>
    match rcl_string_value v with Some s => Ok (value_string s) | None =>
    match rcl_byte_array_value v with Some l => Ok (value_byte_array l) | None =>
    match rcl_bool_array_value v with Some l => Ok (value_bool_array l) | None =>
    match rcl_integer_array_value v with Some l => Ok (value_integer_array l) | None =>
    match rcl_double_array_value v with Some l => Ok (value_double_array l) | None =>
    match rcl_string_array_value v with Some l => Ok (value_string_array l) | None =>
    Throw (InvalidParameterValue "No parameter value set")
    end end end end end end end end end
  end.

(** ** Descriptors and ranges *)

Record FloatingPointRange := mkFloatingPointRange {
  fp_from_value : float64;
  fp_to_value : float64;
  fp_step : float64;
}.

Record IntegerRange := mkIntegerRange {
  from_value : Z;
  to_value : Z;
  step : Z;
}.

Record ParameterDescriptor := mkDescriptor {
  descriptor_name : string;
  descriptor_type : ParameterType;
  description : string;
  additional_constraints : string;
  read_only : bool;
  dynamic_typing : bool;
  floating_point_range : list FloatingPointRange;
  integer_range : list IntegerRange;
}.

Definition default_descriptor : ParameterDescriptor := mkDescriptor "" PARAMETER_NOT_SET "" "" false false [] [].

Definition set_descriptor_name (d : ParameterDescriptor) (n : string) : ParameterDescriptor :=
  mkDescriptor n (descriptor_type d) (description d) (additional_constraints d) (read_only d) (dynamic_typing d)
    (floating_point_range d) (integer_range d).
Definition set_descriptor_type (d : ParameterDescriptor) (t : ParameterType) : ParameterDescriptor :=
  mkDescriptor (descriptor_name d) t (description d) (additional_constraints d) (read_only d) (dynamic_typing d)
    (floating_point_range d) (integer_range d).

(** The descriptor of parameters that are declared implicitly or from
    overrides. *)
Definition dynamic_descriptor : ParameterDescriptor := mkDescriptor "" PARAMETER_NOT_SET "" "" false true [] [].

Record SetParametersResult := mkResult {
  successful : bool;
  reason : string;
}.

Definition success : SetParametersResult := mkResult true "".

Definition hundred : float64 := float64_of_Z 100.

Definition __are_doubles_equal (x y ulp : float64) : bool :=
  SFleb (SFabs (fsub x y)) (fmul (fmul epsilon (SFabs (fadd x y))) ulp).

Definition format_range_reason (name range_type : string) : string :=
  "Parameter {" ++ name ++ "} doesn't comply with " ++ range_type ++ " range.".

(** The difference of two [int64_t] wraps; the remainder is one of
    [uint64_t], the type of the step. *)
Definition in_integer_range (integer_range : IntegerRange) (v : Z) : bool :=
  if (v =? from_value integer_range) || (v =? to_value integer_range) then true
  else if (v <? from_value integer_range) || (to_value integer_range <? v) then false
  else if step integer_range =? 0 then true
  else u64 (i64 (v - from_value integer_range)) mod step integer_range =? 0.

Definition in_floating_point_range (fp_range : FloatingPointRange) (v : float64) : bool :=
  if __are_doubles_equal v (fp_from_value fp_range) hundred || __are_doubles_equal v (fp_to_value fp_range) hundred then true
  else if SFltb v (fp_from_value fp_range) || SFltb (fp_to_value fp_range) v then false
  else if SFeqb (fp_step fp_range) (S754_zero false) then true
  else
    let rounded_div := fround (fdiv (fsub v (fp_from_value fp_range)) (fp_step fp_range)) in
    __are_doubles_equal v (fadd (fp_from_value fp_range) (fmul rounded_div (fp_step fp_range))) hundred.

Definition __check_parameter_value_in_range (descriptor : ParameterDescriptor) (value : ParameterValue)
  : SetParametersResult :=
  match integer_range descriptor, get_type value =? PARAMETER_INTEGER with
  | range :: _, true =>
    if in_integer_range range (integer_value value) then success
    else mkResult false (format_range_reason (descriptor_name descriptor) "integer")
  | _, _ =>
    match floating_point_range descriptor, get_type value =? PARAMETER_DOUBLE with
    | range :: _, true =>
      if in_floating_point_range range (double_value value) then success
      else mkResult false (format_range_reason (descriptor_name descriptor) "floating point")
    | _, _ => success
    end
  end.

(** ** What the ranges accept *)

(** The difference of two integers of 64 bits, as an unsigned one. *)
Lemma difference_exact v from : in_s 64 v -> in_s 64 from -> from <= v -> u64 (i64 (v - from)) = v - from.
Proof.
  unfold in_s, wrap_u, wrap_s. intros Hv Hf Hle. rewrite Zminus_mod, Zmod_mod, <- Zminus_mod, Z.add_simpl_r. apply Z.mod_small. lia.
Qed.

(** C34: an integer is accepted exactly when it is one of the bounds or lies
    between them at a multiple of the step from the lower bound, for all
    values of 64 bits: the difference may overflow, its remainder is right. *)
Theorem integer_range_exact r v :
  in_s 64 v -> in_s 64 (from_value r) -> in_s 64 (to_value r) -> in_u 64 (step r) ->
  in_integer_range r v = true <->
  v = from_value r \/ v = to_value r \/
  (from_value r <= v <= to_value r /\ (step r = 0 \/ (step r | v - from_value r))).
Proof.
  destruct r as [from to st]. unfold in_u, in_integer_range. cbn [from_value to_value step]. intros Hv Hf Ht Hs.
  destruct (Z.eqb_spec v from) as [->|Hne1]; [by split; [left|]|]. destruct (Z.eqb_spec v to) as [->|Hne2]; [by split; [right; left|]|].
  cbn [orb]. destruct (Z.ltb_spec v from); [cbn [orb]; split; [done|lia]|]. destruct (Z.ltb_spec to v); [cbn [orb]; split; [done|lia]|].
  cbn [orb]. destruct (Z.eqb_spec st 0) as [->|Hst]; [split; [right; right; lia|done]|].
  rewrite difference_exact by (done || lia). rewrite Z.eqb_eq, Z.mod_divide by done. split; [intros Hdiv; right; right; split; [lia|by right]|].
  intros [|[|[_ [|]]]]; done.
Qed.

Definition is_finite (x : float64) : bool :=
  match x with S754_zero _ | S754_finite _ _ _ => true | _ => false end.

(** special values are not kept out: an infinity counts as equal to every
    finite bound, so that every range accepts it; NaN is accepted by every
    range without a step. *)
Theorem special_values_in_range r :
  (forall sign, is_finite (fp_from_value r) = true -> in_floating_point_range r (S754_infinity sign) = true) /\
  in_floating_point_range r S754_nan = SFeqb (fp_step r) (S754_zero false).
Proof.
  split.
  - intros sign Hf. unfold in_floating_point_range.
    assert (__are_doubles_equal (S754_infinity sign) (fp_from_value r) hundred = true) as ->; [|done].
    unfold __are_doubles_equal, fsub, fadd. destruct (fp_from_value r), sign; try done; by vm_compute.
  - unfold in_floating_point_range. cbn. destruct (fp_to_value r); cbn; by destruct (SFeqb _ _).
Qed.

Lemma special_values_in_range_witness :
  in_floating_point_range (mkFloatingPointRange (S754_zero false) (float64_of_Z 10) (S754_zero false)) (S754_infinity true) = true.
Proof. apply (proj1 (special_values_in_range (mkFloatingPointRange (S754_zero false) (float64_of_Z 10) (S754_zero false)))). reflexivity. Defined.

Lemma integer_range_exact_witness :
  in_integer_range (mkIntegerRange (- 2 ^ 63) (2 ^ 63 - 1) 3) (2 ^ 63 - 4) = true.
Proof.
  apply (integer_range_exact (mkIntegerRange (- 2 ^ 63) (2 ^ 63 - 1) 3) (2 ^ 63 - 4)); [unfold in_s; cbn; lia..|unfold in_u; cbn; lia|].
  right. right. split; [cbn; lia|]. right. exists 6148914691236517204. vm_compute. reflexivity.
Defined.
