(* ===== verification/NodeParameters.v ===== *)
(** * The parameters of a node

    [rclcpp/src/rclcpp/node_interfaces/node_parameters.cpp]: the store of a
    node's parameters, with the callbacks that change, refuse or follow what
    is set, and the events it publishes.  The record [NodeParameters] has the
    members of the class; a handle of a callback is a number, and [handles]
    are those whose [shared_ptr] somebody still holds, so that locking a weak
    pointer is a look at this set.  The class [Callbacks] gives what the
    callbacks do: any computation on the node, since they may call its
    methods.  The state is kept when an exception passes, as in the code. *)

From Stdlib Require Import ZArith Lia String Ascii.
From stdpp Require Import base numbers list gmap strings sorting.
From S2P Require Import Prelude Computation OrderedMap ParameterValue.
#[local] Open Scope string_scope.
#[local] Open Scope Z_scope.

(** ** State *)

Record ParameterInfo := mkInfo {
  value : ParameterValue;
  descriptor : ParameterDescriptor;
}.

Definition default_info : ParameterInfo := mkInfo value_not_set default_descriptor.

Abbreviation Infos := (gmap string ParameterInfo).

Record ParameterEvent := mkEvent {
  stamp : Z;
  node : string;
  new_parameters : list Param;
  changed_parameters : list Param;
  deleted_parameters : list Param;
}.

Record NodeParameters := mkNodeParameters {
  parameter_modification_enabled_ : bool;
  pre_set_parameters_callback_container_ : list N;
  on_set_parameters_callback_container_ : list N;
  post_set_parameters_callback_container_ : list N;
  parameters_ : Infos;
  parameter_overrides_ : gmap string ParameterValue;
  allow_undeclared_ : bool;
  has_events_publisher : bool;
  published : list ParameterEvent;
  combined_name_ : string;
  node_clock_ : Z;
  handles : gset N;
}.

Definition set_enabled (s : NodeParameters) (b : bool) : NodeParameters :=
  mkNodeParameters b (pre_set_parameters_callback_container_ s) (on_set_parameters_callback_container_ s)
    (post_set_parameters_callback_container_ s) (parameters_ s) (parameter_overrides_ s) (allow_undeclared_ s)
    (has_events_publisher s) (published s) (combined_name_ s) (node_clock_ s) (handles s).
Definition set_containers (s : NodeParameters) (pre on post : list N) : NodeParameters :=
  mkNodeParameters (parameter_modification_enabled_ s) pre on post (parameters_ s) (parameter_overrides_ s)
    (allow_undeclared_ s) (has_events_publisher s) (published s) (combined_name_ s) (node_clock_ s) (handles s).
Definition set_infos (s : NodeParameters) (ps : Infos) : NodeParameters :=
  mkNodeParameters (parameter_modification_enabled_ s) (pre_set_parameters_callback_container_ s)
    (on_set_parameters_callback_container_ s) (post_set_parameters_callback_container_ s) ps (parameter_overrides_ s)
    (allow_undeclared_ s) (has_events_publisher s) (published s) (combined_name_ s) (node_clock_ s) (handles s).
Definition set_published (s : NodeParameters) (es : list ParameterEvent) : NodeParameters :=
  mkNodeParameters (parameter_modification_enabled_ s) (pre_set_parameters_callback_container_ s)
    (on_set_parameters_callback_container_ s) (post_set_parameters_callback_container_ s) (parameters_ s)
    (parameter_overrides_ s) (allow_undeclared_ s) (has_events_publisher s) es (combined_name_ s) (node_clock_ s)
    (handles s).
Definition set_handles (s : NodeParameters) (hs : gset N) : NodeParameters :=
  mkNodeParameters (parameter_modification_enabled_ s) (pre_set_parameters_callback_container_ s)
    (on_set_parameters_callback_container_ s) (post_set_parameters_callback_container_ s) (parameters_ s)
    (parameter_overrides_ s) (allow_undeclared_ s) (has_events_publisher s) (published s) (combined_name_ s)
    (node_clock_ s) hs.

Notation M := (ST NodeParameters param_error).

Class Callbacks := {
  pre_set_callback : N -> list Param -> M (list Param);
  on_set_callback : N -> list Param -> M SetParametersResult;
  post_set_callback : N -> list Param -> M unit;
}.

(** ** Containers of callbacks *)

Inductive Kind := PreSet | OnSet | PostSet.

Definition container (k : Kind) (s : NodeParameters) : list N :=
  match k with
  | PreSet => pre_set_parameters_callback_container_ s
  | OnSet => on_set_parameters_callback_container_ s
  | PostSet => post_set_parameters_callback_container_ s
  end.

Definition set_container (k : Kind) (l : list N) (s : NodeParameters) : NodeParameters :=
  match k with
  | PreSet => set_containers s l (on_set_parameters_callback_container_ s) (post_set_parameters_callback_container_ s)
  | OnSet => set_containers s (pre_set_parameters_callback_container_ s) l (post_set_parameters_callback_container_ s)
  | PostSet => set_containers s (pre_set_parameters_callback_container_ s) (on_set_parameters_callback_container_ s) l
  end.

(** The loop of the three [__call_*_callbacks]: [kept] are the callbacks
    before the iterator; an expired one is erased. *)
Fixpoint call_handles {A} (k : Kind) (call : N -> A -> M A) (stop : A -> bool) (kept rest : list N) (a : A) : M A :=
  match rest with
  | [] => mret a
  | h :: rest =>
    s ← get;
    if bool_decide (h ∈ handles s) then
      a ← call h a;
      if stop a then mret a else call_handles k call stop (kept ++ [h])%list rest a
    else
      modify (set_container k (kept ++ rest)%list);;
      call_handles k call stop kept rest a
  end.

(** [ParameterMutationRecursionGuard]: when its constructor throws there is
    nothing to destroy. *)
Definition with_guard {A} (body : M A) : M A := fun s =>
  if parameter_modification_enabled_ s then
    let '(r, s) := body (set_enabled s false) in (r, set_enabled s true)
  else (Throw ParameterModifiedInCallback, s).

(** ** Checks *)

Definition format_type_reason (name old_type new_type : string) : string :=
  "Wrong parameter type, parameter {" ++ name ++ "} is of type {" ++ old_type ++ "}, setting it to {" ++ new_type
    ++ "} is not allowed.".

(** [parameter_infos[name]] adds a default entry for a new name. *)
Definition at_or_new (infos : Infos) (name : string) : ParameterInfo * Infos :=
  match infos !! name with
  | Some i => (i, infos)
  | None => (default_info, <[name := default_info]> infos)
  end.

Definition check_parameter (descriptor : ParameterDescriptor) (parameter : Param) : SetParametersResult :=
  let name := name_ parameter in
  let descriptor := if String.eqb (descriptor_name descriptor) "" then set_descriptor_name descriptor name else descriptor in
  let new_type := Parameter_get_type parameter in
  let specified_type := descriptor_type descriptor in
  if negb (dynamic_typing descriptor || (specified_type =? new_type)) then
    mkResult false (format_type_reason name (type_to_string specified_type) (type_to_string new_type))
  else __check_parameter_value_in_range descriptor (value_ parameter).

Fixpoint check_from (infos : Infos) (parameters : list Param) (allow_undeclared : bool) (result : SetParametersResult)
  : SetParametersResult * Infos :=
  match parameters with
  | [] => (result, infos)
  | parameter :: parameters =>
    let '(d, infos) :=
      if allow_undeclared then
        match infos !! name_ parameter with
        | Some i => (descriptor i, infos)
        | None => (dynamic_descriptor, infos)
        end
      else let '(i, infos) := at_or_new infos (name_ parameter) in (descriptor i, infos) in
    let result := check_parameter d parameter in
    if successful result then check_from infos parameters allow_undeclared result else (result, infos)
  end.

Definition __check_parameters (infos : Infos) (parameters : list Param) (allow_undeclared : bool)
  : SetParametersResult * Infos :=
  check_from infos parameters allow_undeclared success.

(** ** Setting *)

(** The loop that sets the values. *)
Definition assign_parameter (infos : Infos) (parameter : Param) : Infos :=
  let '(i, infos) := at_or_new infos (name_ parameter) in
  <[name_ parameter :=
    mkInfo (value_ parameter)
      (set_descriptor_type (set_descriptor_name (descriptor i) (name_ parameter)) (Parameter_get_type parameter))]> infos.

Section Callbacks.
Context `{Callbacks}.

Definition __call_pre_set_parameters_callbacks (parameters : list Param) : M (list Param) :=
  s ← get; call_handles PreSet pre_set_callback (fun _ => false) [] (container PreSet s) parameters.

Definition __call_on_set_parameters_callbacks (parameters : list Param) : M SetParametersResult :=
  s ← get;
  call_handles OnSet (fun h _ => on_set_callback h parameters) (fun result => negb (successful result)) []
    (container OnSet s) success.

Definition __call_post_set_parameters_callbacks (parameters : list Param) : M unit :=
  s ← get; call_handles PostSet (fun h _ => post_set_callback h parameters) (fun _ => false) [] (container PostSet s) tt.

(** [store] writes the map back where the reference [parameter_infos] leads:
    to the member, which the callbacks may look at, or to a local variable.
    [callbacks] is false when the containers passed are empty. *)
Definition __set_parameters_atomically_common (parameters : list Param) (parameter_infos : Infos)
    (store : Infos -> M unit) (callbacks allow_undeclared : bool) : M (SetParametersResult * Infos) :=
  let '(result, parameter_infos) := __check_parameters parameter_infos parameters allow_undeclared in
  store parameter_infos;;
  if negb (successful result) then mret (result, parameter_infos) else
  result ← (if callbacks then __call_on_set_parameters_callbacks parameters else mret success);
  if negb (successful result) then mret (result, parameter_infos) else
  let parameter_infos := fold_left assign_parameter parameters parameter_infos in
  store parameter_infos;;
  (if callbacks then __call_post_set_parameters_callbacks parameters else mret tt);;
  mret (result, parameter_infos).

(** The result, the entry for [parameters_out[name]] unless the value was
    refused, and what is added to the event. *)
Definition __declare_parameter_common (name : string) (default_value : ParameterValue)
    (parameter_descriptor : ParameterDescriptor) (overrides : gmap string ParameterValue)
    (callbacks ignore_override : bool) : M (SetParametersResult * option ParameterInfo * list Param) :=
  let initial_value :=
    if ignore_override then default_value else default default_value (overrides !! name) in
  if get_type initial_value =? PARAMETER_NOT_SET then
    let d := set_descriptor_name parameter_descriptor name in
    let d := set_descriptor_type d
      (if dynamic_typing parameter_descriptor then PARAMETER_NOT_SET else descriptor_type parameter_descriptor) in
    mret (success, Some (mkInfo value_not_set d), [])
  else
    let parameter_wrapper := mkParameter name initial_value in
    '(result, infos) ← __set_parameters_atomically_common [parameter_wrapper]
      {[name := mkInfo value_not_set parameter_descriptor]} (fun _ => mret tt) callbacks false;
    if negb (successful result) then mret (result, None, [])
    else mret (result, infos !! name, [to_parameter_msg parameter_wrapper]).

Definition publish_event (new changed deleted : list Param) : M unit :=
  s ← get;
  if has_events_publisher s then
    modify (fun s => set_published s (published s ++ [mkEvent (node_clock_ s) (combined_name_ s) new changed deleted])%list)
  else mret tt.

(** ** Declaration *)

Definition type_error_msg_start : string := "Wrong parameter type".

Definition declare_parameter_helper (name : string) (type : ParameterType) (default_value : ParameterValue)
    (parameter_descriptor : ParameterDescriptor) (ignore_override : bool) : M ParameterValue :=
  if String.eqb name "" then throw (InvalidParameters "parameter name must not be empty") else
  s ← get;
  if bool_decide (is_Some (parameters_ s !! name)) then throw (ParameterAlreadyDeclared name) else
  let type := if type =? PARAMETER_NOT_SET then get_type default_value else type in
  if negb (dynamic_typing parameter_descriptor) && (type =? PARAMETER_NOT_SET) then
    throw (InvalidParameterType name "cannot declare a statically typed parameter with an uninitialized value")
  else
  let parameter_descriptor :=
    if dynamic_typing parameter_descriptor then parameter_descriptor
    else set_descriptor_type parameter_descriptor (wrap_u 8 type) in
  '(result, info, event_new) ← __declare_parameter_common name default_value parameter_descriptor
    (parameter_overrides_ s) true ignore_override;
  match successful result, info with
  | true, Some i =>
    modify (fun s => set_infos s (<[name := i]> (parameters_ s)));;
    publish_event event_new [] [];;
    mret (value i)
  | _, _ =>
    if String.prefix type_error_msg_start (reason result) then throw (InvalidParameterType name (reason result))
    else throw (InvalidParameterValue ("parameter '" ++ name ++ "' could not be set: " ++ reason result))
  end.

(** The overload with a default value. *)
Definition declare_parameter (name : string) (default_value : ParameterValue)
    (parameter_descriptor : ParameterDescriptor) (ignore_override : bool) : M ParameterValue :=
  with_guard (declare_parameter_helper name PARAMETER_NOT_SET default_value parameter_descriptor ignore_override).

(** The overload with a type. *)
Definition declare_parameter_typed (name : string) (type : ParameterType)
    (parameter_descriptor : ParameterDescriptor) (ignore_override : bool) : M ParameterValue :=
  with_guard (
    if type =? PARAMETER_NOT_SET then
      throw (InvalidArgument_what "the provided parameter type cannot be rclcpp::PARAMETER_NOT_SET")
    else if dynamic_typing parameter_descriptor then
      throw (InvalidArgument_what "cannot declare parameter of specific type and pass descriptor with `dynamic_typing=true`")
    else declare_parameter_helper name type value_not_set parameter_descriptor ignore_override).

Definition undeclare_parameter (name : string) : M unit :=
  with_guard (
    s ← get;
    match parameters_ s !! name with
    | None => throw (ParameterNotDeclared name)
    | Some parameter_info =>
      if read_only (descriptor parameter_info) then throw (ParameterImmutable name)
      else if negb (dynamic_typing (descriptor parameter_info)) then
        throw (InvalidParameterType name "cannot undeclare a statically typed parameter")
      else modify (fun s => set_infos s (delete name (parameters_ s)))
    end).

Definition has_parameter (s : NodeParameters) (name : string) : bool := bool_decide (is_Some (parameters_ s !! name)).

Definition local_perform_automatically_declare_parameters_from_overrides : M unit :=
  s ← get;
  for_each (fun pair : string * ParameterValue =>
    s ← get;
    if has_parameter s pair.1 then mret tt
    else declare_parameter pair.1 pair.2 dynamic_descriptor true;; mret tt) (in_order (parameter_overrides_ s)).

(** ** Setting parameters *)

(** The parameters that are not declared yet, or the way the method ends. *)
Inductive Scan :=
| ToBeDeclared (l : list Param)
| Refused (result : SetParametersResult)
| Thrown (e : param_error).

Fixpoint scan_parameters (infos : Infos) (allow_undeclared : bool) (parameters : list Param) : Scan :=
  match parameters with
  | [] => ToBeDeclared []
  | parameter :: parameters =>
    let name := name_ parameter in
    if String.eqb name "" then Thrown (InvalidParameters "parameter name must not be empty") else
    match infos !! name with
    | None =>
      if allow_undeclared then
        match scan_parameters infos allow_undeclared parameters with
        | ToBeDeclared l => ToBeDeclared (parameter :: l)
        | r => r
        end
      else Thrown (ParameterNotDeclared name)
    | Some parameter_info =>
      if read_only (descriptor parameter_info) then
        Refused (mkResult false ("parameter '" ++ name ++ "' cannot be set because it is read-only"))
      else scan_parameters infos allow_undeclared parameters
    end
  end.

(** The staging area and the event after the implicit declarations. *)
Fixpoint stage_parameters (overrides : gmap string ParameterValue) (staged : Infos) (event_new : list Param)
    (parameters : list Param) : M (SetParametersResult * Infos * list Param) :=
  match parameters with
  | [] => mret (success, staged, event_new)
  | parameter :: parameters =>
    '(result, info, new) ← __declare_parameter_common (name_ parameter) (value_ parameter) dynamic_descriptor
      overrides false true;
    match successful result, info with
    | true, Some i =>
      stage_parameters overrides (<[name_ parameter := i]> staged) (event_new ++ new)%list parameters
    | _, _ => mret (result, staged, event_new)
    end
  end.

Fixpoint __find_parameter_by_name (parameters : list Param) (name : string) : option Param :=
  match parameters with
  | [] => None
  | p :: parameters => if String.eqb (name_ p) name then Some p else __find_parameter_by_name parameters name
  end.

(** [*it = parameter] where [it] is what [__find_parameter_by_name] finds. *)
Fixpoint replace_by_name (parameters : list Param) (parameter : Param) : list Param :=
  match parameters with
  | [] => []
  | p :: parameters =>
    if String.eqb (name_ p) (name_ parameter) then parameter :: parameters
    else p :: replace_by_name parameters parameter
  end.

Definition any_initial_values_used (staged : list (string * ParameterInfo)) (parameters : list Param) : bool :=
  existsb (fun staged_parameter_change =>
    match __find_parameter_by_name parameters staged_parameter_change.1 with
    | Some p => negb (value_eqb (value_ p) (value staged_parameter_change.2))
    | None => false
    end) staged.

Definition parameters_to_be_set (staged : Infos) (parameters : list Param) : list Param :=
  let changes := in_order staged in
  if any_initial_values_used changes parameters then
    fold_left (fun parameters_copy staged_parameter_change =>
      replace_by_name parameters_copy
        (mkParameter staged_parameter_change.1 (value staged_parameter_change.2))) changes parameters
  else parameters.

(** The parameters to be undeclared; [None] when one of them is statically
    typed. *)
Fixpoint collect_undeclared (infos : Infos) (parameters : list Param) : option (list Param) :=
  match parameters with
  | [] => Some []
  | parameter :: parameters =>
    let rest := collect_undeclared infos parameters in
    if Parameter_get_type parameter =? PARAMETER_NOT_SET then
      match infos !! name_ parameter with
      | Some i =>
        if negb (get_type (value i) =? PARAMETER_NOT_SET) then
          if negb (dynamic_typing (descriptor i)) then None
          else (fun l => parameter :: l) <$> rest
        else rest
      | None => rest
      end
    else rest
  end.

(** A staged entry replaces the one that was set; both assertions. *)
Definition apply_change (kv_pair : string * ParameterInfo) : M unit :=
  s ← get;
  match parameters_ s !! kv_pair.1 with
  | None => throw AssertionFailed
  | Some i =>
    if negb (value_eqb (value i) (value kv_pair.2)) then throw AssertionFailed
    else modify (fun s => set_infos s (<[kv_pair.1 := kv_pair.2]> (parameters_ s)))
  end.

Definition apply_staged (staged : Infos) : M unit := for_each apply_change (in_order staged).

(** The deleted parameters for the event; the assertion that the parameter
    is still there. *)
Fixpoint erase_undeclared (parameters : list Param) : M (list Param) :=
  match parameters with
  | [] => mret []
  | p :: parameters =>
    s ← get;
    match parameters_ s !! name_ p with
    | None => throw AssertionFailed
    | Some i =>
      modify (fun s => set_infos s (delete (name_ p) (parameters_ s)));;
      deleted ← erase_undeclared parameters;
      mret (to_parameter_msg (mkParameter (name_ p) (value i)) :: deleted)
    end
  end.

(** What is in the event as changed: set, but not declared or undeclared. *)
Definition changed_only (staged : Infos) (undeclared parameters : list Param) : list Param :=
  map to_parameter_msg
    (List.filter (fun p =>
       negb (bool_decide (is_Some (staged !! name_ p)))
       && negb (existsb (fun q => String.eqb (name_ q) (name_ p)) undeclared)) parameters).

Definition set_staged (staged : Infos) (event_new parameters : list Param) : M SetParametersResult :=
  s ← get;
  let parameters := parameters_to_be_set staged parameters in
  match collect_undeclared (parameters_ s) parameters with
  | None => mret (mkResult false "cannot undeclare a statically typed parameter")
  | Some parameters_to_be_undeclared =>
    '(result, _) ← __set_parameters_atomically_common parameters (parameters_ s)
      (fun infos => modify (fun s => set_infos s infos)) true (allow_undeclared_ s);
    if negb (successful result) then mret result else
    apply_staged staged;;
    deleted ← erase_undeclared parameters_to_be_undeclared;
    publish_event event_new (changed_only staged parameters_to_be_undeclared parameters) deleted;;
    mret result
  end.

Definition set_parameters_atomically (parameters : list Param) : M SetParametersResult :=
  with_guard (
    parameters ← __call_pre_set_parameters_callbacks parameters;
    if bool_decide (parameters = []) then
      mret (mkResult false "parameter list cannot be empty, this might be due to pre_set_parameters_callback modifying the original parameters list.")
    else
      s ← get;
      match scan_parameters (parameters_ s) (allow_undeclared_ s) parameters with
      | Thrown e => throw e
      | Refused result => mret result
      | ToBeDeclared parameters_to_be_declared =>
        '(result, staged, event_new) ← stage_parameters (parameter_overrides_ s) ∅ [] parameters_to_be_declared;
        if negb (successful result) then mret result else set_staged staged event_new parameters
      end).

Fixpoint set_parameters (parameters : list Param) : M (list SetParametersResult) :=
  match parameters with
  | [] => mret []
  | p :: parameters =>
    result ← set_parameters_atomically [p];
    results ← set_parameters parameters;
    mret (result :: results)
  end.

(** ** Registration of callbacks *)

Definition remove_callback (k : Kind) (what : string) (handle : option N) : M unit :=
  with_guard (
    s ← get;
    (** [handle == weak_handle.lock().get()]; a null pointer equals an
        expired one. *)
    let matches h :=
      match handle with
      | Some x => bool_decide (x = h) && bool_decide (h ∈ handles s)
      | None => negb (bool_decide (h ∈ handles s))
      end in
    let '(before, found) := span (fun h => negb (matches h)) (container k s) in
    match found with
    | _ :: after => modify (set_container k (before ++ after)%list)
    | [] => throw (Runtime_error what)
    end).

Definition remove_pre_set_parameters_callback := remove_callback PreSet "Pre set parameter callback doesn't exist".
Definition remove_on_set_parameters_callback := remove_callback OnSet "On set parameter callback doesn't exist".
Definition remove_post_set_parameters_callback := remove_callback PostSet "Post set parameter callback doesn't exist".

(** [make_shared] gives a pointer that no handle, living or in a container,
    has. *)
Definition fresh_handle (s : NodeParameters) : N :=
  fresh (handles s ∪ list_to_set (container PreSet s ++ container OnSet s ++ container PostSet s)).

Definition add_callback (k : Kind) : M N :=
  with_guard (
    s ← get;
    let h := fresh_handle s in
    modify (fun s => set_container k (h :: container k s) (set_handles s ({[h]} ∪ handles s)));;
    mret h).

Definition add_pre_set_parameters_callback : M N := add_callback PreSet.
Definition add_on_set_parameters_callback : M N := add_callback OnSet.
Definition add_post_set_parameters_callback : M N := add_callback PostSet.

(** The user resets the [shared_ptr] of a handle. *)
Definition drop_handle (h : N) : M unit := modify (fun s => set_handles s (handles s ∖ {[h]})).

End Callbacks.

(** ** Queries *)

Definition get_parameter (s : NodeParameters) (name : string) : Result param_error Param :=
  match parameters_ s !! name with
  | Some i =>
    if negb (get_type (value i) =? PARAMETER_NOT_SET) || dynamic_typing (descriptor i) then Ok (mkParameter name (value i))
    else Throw (ParameterUninitialized name)
  | None =>
    if allow_undeclared_ s then Ok (mkParameter name value_not_set) else Throw (ParameterNotDeclared name)
  end.

Fixpoint map_results {A B E} (f : A -> Result E B) (l : list A) : Result E (list B) :=
  match l with
  | [] => Ok []
  | x :: l => let! y := f x in let! ys := map_results f l in Ok (y :: ys)
  end.

Definition get_parameters (s : NodeParameters) (names : list string) : Result param_error (list Param) :=
  map_results (get_parameter s) names.

(** The overload that returns a [bool]: [None] for false. *)
Definition get_parameter_if (s : NodeParameters) (name : string) : option Param :=
  match parameters_ s !! name with
  | Some i => if negb (get_type (value i) =? PARAMETER_NOT_SET) then Some (mkParameter name (value i)) else None
  | None => None
  end.

(** [substr(n)]. *)
Definition substr_from (n : nat) (s : string) : string := String.substring n (String.length s - n) s.

(** The entries are added to the map [parameters] of the caller. *)
Definition get_parameters_by_prefix (s : NodeParameters) (prefix : string) (parameters : gmap string Param)
  : bool * gmap string Param :=
  let prefix_with_dot := if String.eqb prefix "" then prefix else prefix ++ "." in
  fold_left (fun acc param =>
    if String.prefix prefix_with_dot param.1 && (String.length prefix_with_dot <? String.length param.1)%nat then
      (true, <[substr_from (String.length prefix_with_dot) param.1 :=
                mkParameter (descriptor_name (descriptor param.2)) (value param.2)]> acc.2)
    else acc) (in_order (parameters_ s)) (false, parameters).

(** What [describe_parameters] and [get_parameter_types] say about a name. *)
Definition look_up {A} (s : NodeParameters) (found : ParameterInfo -> A) (absent : string -> A) (name : string)
  : Result param_error A :=
  match parameters_ s !! name with
  | Some i => Ok (found i)
  | None => if allow_undeclared_ s then Ok (absent name) else Throw (ParameterNotDeclared name)
  end.

Definition describe_parameters (s : NodeParameters) (names : list string) : Result param_error (list ParameterDescriptor) :=
  map_results (look_up s descriptor (set_descriptor_name default_descriptor)) names.

Definition get_parameter_types (s : NodeParameters) (names : list string) : Result param_error (list ParameterType) :=
  map_results (look_up s (fun i => get_type (value i)) (fun _ => PARAMETER_NOT_SET)) names.

Definition DEPTH_RECURSIVE : Z := 0.
Definition separator : ascii := "."%char.

Fixpoint count_separators (s : string) : Z :=
  match s with
  | EmptyString => 0
  | String c s => (if bool_decide (c = separator) then 1 else 0) + count_separators s
  end.

Definition separators_less_than_depth (depth : Z) (str : string) : bool := count_separators str <? depth.

Definition prefix_matches (depth : Z) (name prefix : string) : bool :=
  if String.eqb name prefix then true
  else if String.prefix (prefix ++ String separator "") name then
    if depth =? DEPTH_RECURSIVE then true
    else separators_less_than_depth depth (substr_from (String.length prefix + 1) name)
  else false.

Definition is_listed (prefixes : list string) (depth : Z) (name : string) : bool :=
  let no_prefixes := (length prefixes =? 0)%nat in
  (no_prefixes && (depth =? DEPTH_RECURSIVE)) || (no_prefixes && separators_less_than_depth depth name)
  || existsb (prefix_matches depth name) prefixes.

(** [find_last_of] and [substr(0, last_separator)]. *)
Fixpoint before_last_separator (s : string) : option string :=
  match s with
  | EmptyString => None
  | String c s =>
    match before_last_separator s with
    | Some p => Some (String c p)
    | None => if bool_decide (c = separator) then Some EmptyString else None
    end
  end.

Definition note_prefix (prefixes : list string) (name : string) : list string :=
  match before_last_separator name with
  | Some p => if existsb (String.eqb p) prefixes then prefixes else (prefixes ++ [p])%list
  | None => prefixes
  end.

Definition list_parameters (s : NodeParameters) (prefixes : list string) (depth : Z) : list string * list string :=
  let names := List.filter (is_listed prefixes depth) (in_order (parameters_ s)).*1 in
  (names, fold_left note_prefix names []).

(** ** Set-up *)

(** [sources]: what the parser found for the node in the global and in the
    local arguments. *)
Definition resolve_parameter_overrides (sources : list (list Param)) (parameter_overrides : list Param)
  : Result param_error (gmap string ParameterValue) :=
  fold_left (fun result param =>
    let! result := result in
    let! value := value_from_msg (to_value_msg (value_ param)) in
    Ok (<[name_ param := value]> result)) (concat sources ++ parameter_overrides)%list (Ok ∅).

Definition new_node_parameters (combined_name : string) (overrides : gmap string ParameterValue)
    (start_parameter_event_publisher allow_undeclared_parameters : bool) : NodeParameters :=
  mkNodeParameters true [] [] [] ∅ overrides allow_undeclared_parameters start_parameter_event_publisher []
    combined_name 0 ∅.

(** The constructor: there are no callbacks yet when it declares the
    overrides. *)
Definition construct `{Callbacks} (combined_name : string) (overrides : gmap string ParameterValue)
    (start_parameter_event_publisher allow_undeclared_parameters automatically_declare_parameters_from_overrides : bool)
  : Result param_error unit * NodeParameters :=
  (if automatically_declare_parameters_from_overrides then local_perform_automatically_declare_parameters_from_overrides
   else mret tt)
    (new_node_parameters combined_name overrides start_parameter_event_publisher allow_undeclared_parameters).
