(* ===== verification/NodeParametersFacts.v ===== *)
(** * What the parameter store guarantees

    Theorems about [NodeParameters].  [calm] is what the callbacks leave
    alone: while the guard is held every method that changes parameters
    throws, so callbacks that call the methods of the node change nothing
    but the handles ([CallbackLaw]). *)

From Stdlib Require Import ZArith Lia String Ascii.
From stdpp Require Import base numbers list gmap strings sorting.
From S2P Require Import Prelude Computation OrderedMap ParameterValue NodeParameters.
#[local] Open Scope string_scope.
#[local] Open Scope Z_scope.

(** ** Definitions of the statements *)

Record undisturbed (s s' : NodeParameters) : Prop := {
  undisturbed_enabled : parameter_modification_enabled_ s' = parameter_modification_enabled_ s;
  undisturbed_infos : parameters_ s' = parameters_ s;
  undisturbed_overrides : parameter_overrides_ s' = parameter_overrides_ s;
  undisturbed_allow : allow_undeclared_ s' = allow_undeclared_ s;
  undisturbed_publisher : has_events_publisher s' = has_events_publisher s;
  undisturbed_published : published s' = published s;
  undisturbed_name : combined_name_ s' = combined_name_ s;
}.

Definition calm (s s' : NodeParameters) : Prop := parameter_modification_enabled_ s = false -> undisturbed s s'.

(** What the callbacks of a program may do. *)
Class CallbackLaw `{Callbacks} : Prop := {
  pre_set_calm h ps : Keeps calm (pre_set_callback h ps);
  on_set_calm h ps : Keeps calm (on_set_callback h ps);
  post_set_calm h ps : Keeps calm (post_set_callback h ps);
}.

(** No callback of the third kind throws. *)
Definition post_set_returns `{Callbacks} : Prop := forall h ps s, is_ok (post_set_callback h ps s).1 = true.

(** The last value a list gives to a name. *)
Definition last_value (ps : list Param) (n : string) : option ParameterValue :=
  value_ <$> last (filter (fun p => name_ p = n) ps).

Definition is_set (v : ParameterValue) : bool := negb (get_type v =? PARAMETER_NOT_SET).

Definition assigned (n : string) (v : ParameterValue) (old : option ParameterInfo) : ParameterInfo :=
  mkInfo v (set_descriptor_type (set_descriptor_name (descriptor (default default_info old)) n) (get_type v)).

(** The entry of a parameter that is declared by setting it. *)
Definition implicit (n : string) (v : ParameterValue) : ParameterInfo :=
  mkInfo (if is_set v then v else value_not_set)
    (set_descriptor_type (set_descriptor_name dynamic_descriptor n) (get_type v)).

(** What a list of parameters, set at once, makes of the entry of [n]. *)
Definition outcome (infos : Infos) (ps : list Param) (n : string) : option ParameterInfo :=
  match last_value ps n, infos !! n with
  | None, old => old
  | Some v, None => Some (implicit n v)
  | Some v, Some i =>
    if is_set (value i) && existsb (fun p => String.eqb (name_ p) n && negb (is_set (value_ p))) ps then None
    else Some (assigned n v (Some i))
  end.

(** The values of the parameters that have one, and what somebody who keeps
    them from the events does with an event. *)
Definition stored (infos : Infos) : gmap string ParameterValue :=
  omap (fun i => if is_set (value i) then Some (value i) else None) infos.

Definition note (m : gmap string ParameterValue) (p : Param) : gmap string ParameterValue :=
  if is_set (value_ p) then <[name_ p := value_ p]> m else delete (name_ p) m.

Definition apply_event (m : gmap string ParameterValue) (e : ParameterEvent) : gmap string ParameterValue :=
  fold_left (fun m p => delete (name_ p) m) (deleted_parameters e)
    (fold_left note (new_parameters e ++ changed_parameters e)%list m).

(** ** Frames *)

#[export] Instance undisturbed_preorder : PreOrder undisturbed.
Proof. split; [by intros s|]. intros x y z [] []. split; congruence. Qed.

#[export] Instance calm_preorder : PreOrder calm.
Proof.
  split; [by intros s _|]. intros x y z H1 H2 Hx. specialize (H1 Hx). etrans; [exact H1|].
  apply H2. by rewrite (undisturbed_enabled _ _ H1).
Qed.

Section Laws.
Context {CB : Callbacks} {LAW : CallbackLaw}.

Lemma call_handles_calm {A} k (call : N -> A -> M A) stop kept rest a :
  (forall h a, Keeps calm (call h a)) -> Keeps calm (call_handles k call stop kept rest a).
Proof.
  intros Hc. revert kept a. induction rest as [|h rest IH]; intros kept a; simpl; keeps_steps; auto.
  intros s _. by destruct k.
Qed.

Lemma call_pre_calm ps : Keeps calm (__call_pre_set_parameters_callbacks ps).
Proof. unfold __call_pre_set_parameters_callbacks. keeps_steps. apply call_handles_calm. apply pre_set_calm. Qed.

Lemma call_on_calm ps : Keeps calm (__call_on_set_parameters_callbacks ps).
Proof. unfold __call_on_set_parameters_callbacks. keeps_steps. apply call_handles_calm. intros. apply on_set_calm. Qed.

Lemma call_post_calm ps : Keeps calm (__call_post_set_parameters_callbacks ps).
Proof. unfold __call_post_set_parameters_callbacks. keeps_steps. apply call_handles_calm. intros. apply post_set_calm. Qed.

Lemma call_post_returns ps s : post_set_returns -> is_ok (__call_post_set_parameters_callbacks ps s).1 = true.
Proof.
  intros Hr. unfold __call_post_set_parameters_callbacks. rewrite get_bind. generalize (container PostSet s), (@nil N).
  intros rest kept. revert kept s. induction rest as [|h rest IH]; intros kept s; simpl; [done|].
  rewrite get_bind. destruct (bool_decide _); [|by apply IH].
  specialize (Hr h ps s). destruct (post_set_callback h ps s) as [[[]|e] s1] eqn:E; [|done].
  by rewrite (bind_ok _ _ _ _ _ E).
Qed.

(** ** The checks *)

Lemma check_parameters_infos infos ps allow :
  (forall p, p ∈ ps -> allow = true \/ is_Some (infos !! name_ p)) -> (__check_parameters infos ps allow).2 = infos.
Proof.
  unfold __check_parameters. generalize success. induction ps as [|p ps IH]; intros r Hd; [done|]. cbn [check_from].
  assert (Hd' : forall q, q ∈ ps -> allow = true \/ is_Some (infos !! name_ q)) by (intros; apply Hd; by right).
  destruct (Hd p) as [->|[i Hi]]; [by left| |].
  - destruct (infos !! name_ p); cbn [fst snd]; case_match; auto.
  - unfold at_or_new. rewrite Hi. destruct allow; cbn [fst snd]; case_match; auto.
Qed.

(** ** Assignments *)

Lemma last_value_snoc ps p n :
  last_value (ps ++ [p])%list n = if bool_decide (name_ p = n) then Some (value_ p) else last_value ps n.
Proof.
  unfold last_value. rewrite filter_app. case_bool_decide as E.
  - rewrite filter_cons_True, filter_nil by done. by rewrite last_snoc.
  - rewrite filter_cons_False, filter_nil by done. by rewrite app_nil_r.
Qed.

Lemma last_value_in ps n v : last_value ps n = Some v -> exists p, p ∈ ps /\ name_ p = n /\ value_ p = v.
Proof.
  unfold last_value. destruct (last _) as [p|] eqn:E; [|done]. intros [= <-]. apply last_Some_elem_of in E.
  apply list_elem_of_filter in E as [E Hp]. by exists p.
Qed.

Lemma assign_lookup infos p n :
  assign_parameter infos p !! n = if bool_decide (name_ p = n) then Some (assigned n (value_ p) (infos !! n)) else infos !! n.
Proof.
  unfold assign_parameter, at_or_new, assigned. case_bool_decide as E.
  - subst n. destruct (infos !! name_ p); cbn; by rewrite lookup_insert_eq.
  - destruct (infos !! name_ p); cbn; by rewrite !lookup_insert_ne.
Qed.

Lemma assigned_again n v w old : assigned n v (Some (assigned n w old)) = assigned n v old.
Proof. done. Qed.

Lemma assign_all_lookup infos ps n :
  fold_left assign_parameter ps infos !! n =
  match last_value ps n with Some v => Some (assigned n v (infos !! n)) | None => infos !! n end.
Proof.
  induction ps as [|p ps IH] using rev_ind; [done|]. rewrite fold_left_app, last_value_snoc. cbn [fold_left].
  rewrite assign_lookup, IH. case_bool_decide; [|done]. by destruct (last_value ps n).
Qed.

(** The two outcomes of setting values in the store of the node itself. *)
Lemma set_common_spec ps s r s' :
  parameter_modification_enabled_ s = false ->
  (forall p, p ∈ ps -> allow_undeclared_ s = true \/ is_Some (parameters_ s !! name_ p)) ->
  __set_parameters_atomically_common ps (parameters_ s) (fun infos => modify (fun s => set_infos s infos)) true
    (allow_undeclared_ s) s = (r, s') ->
  (successful (__check_parameters (parameters_ s) ps (allow_undeclared_ s)).1 = true /\
   undisturbed (set_infos s (fold_left assign_parameter ps (parameters_ s))) s' /\
   ((exists res infos, r = Ok (res, infos) /\ successful res = true) \/ (is_ok r = false /\ ~ post_set_returns))) \/
  (forall x, r = Ok x -> successful x.1 = false) /\ undisturbed s s'.
Proof.
  intros He Hd. unfold __set_parameters_atomically_common.
  pose proof (check_parameters_infos _ _ _ Hd) as Hi.
  destruct (__check_parameters _ _ _) as [res0 infos0]. cbn [fst snd] in *. subst infos0.
  rewrite (bind_ok (modify _) _ _ _ _ eq_refl). set (s0 := set_infos s (parameters_ s)).
  assert (Hu0 : undisturbed s s0) by done.
  destruct (successful res0) eqn:Eres0; cbn [negb]; [|intros [= <- <-]; right; split; [by intros x [= <-]|done]].
  pose proof (call_on_calm ps s0 He) as H1. destruct (__call_on_set_parameters_callbacks ps s0) as [[res1|e] s1] eqn:E1.
  2: { rewrite (bind_throw _ _ _ _ _ E1). intros [= <- <-]. right. split; [done|by etrans]. }
  rewrite (bind_ok _ _ _ _ _ E1). cbn [snd] in H1. destruct (successful res1) eqn:Eres; cbn [negb].
  2: { intros [= <- <-]. right. split; [by intros x [= <-]|by etrans]. }
  rewrite (bind_ok (modify _) _ _ _ _ eq_refl). set (s2 := set_infos s1 _).
  assert (He2 : parameter_modification_enabled_ s2 = false) by (rewrite <- He; apply (undisturbed_enabled _ _ H1)).
  pose proof (call_post_calm ps s2 He2) as H3. pose proof (fun Hr => call_post_returns ps s2 Hr) as H4.
  assert (Hu2 : undisturbed (set_infos s (fold_left assign_parameter ps (parameters_ s))) s2) by (destruct H1; by split).
  destruct (__call_post_set_parameters_callbacks ps s2) as [[[]|e] s3] eqn:E3.
  - rewrite (bind_ok _ _ _ _ _ E3). intros [= <- <-]. left. split_and!; [done|by etrans|left; eauto].
  - rewrite (bind_throw _ _ _ _ _ E3). intros [= <- <-]. left. split_and!; [done|by etrans|right]. split; [done|].
    intros Hr. by specialize (H4 Hr).
Qed.

(** ** Before anything is set *)

Definition undeclared (infos : Infos) (p : Param) : Prop := infos !! name_ p = None.

#[export] Instance undeclared_dec infos p : Decision (undeclared infos p).
Proof. unfold undeclared. apply _. Defined.

Lemma scan_to_be_declared infos allow ps l :
  scan_parameters infos allow ps = ToBeDeclared l ->
  l = filter (undeclared infos) ps /\ (forall p, p ∈ ps -> name_ p <> "" /\
    match infos !! name_ p with Some i => read_only (descriptor i) = false | None => allow = true end).
Proof.
  revert l. induction ps as [|p ps IH]; intros l; simpl; [intros [= <-]; split; [done|by intros p ?%elem_of_nil]|].
  destruct (String.eqb_spec (name_ p) ""); [done|]. destruct (infos !! name_ p) as [i|] eqn:Ei.
  - destruct (read_only _) eqn:Er; [done|]. intros [-> Hp]%IH. split.
    + rewrite filter_cons_False; [done|]. unfold undeclared. by rewrite Ei.
    + intros q [->|Hq]%elem_of_cons; [by rewrite Ei|by apply Hp].
  - destruct allow; [|done]. destruct (scan_parameters _ _ _) as [l'| |]; try done. intros [= <-].
    destruct (IH l' eq_refl) as [-> Hp]. split; [by rewrite filter_cons_True|].
    intros q [->|Hq]%elem_of_cons; [by rewrite Ei|by apply Hp].
Qed.

Lemma last_value_undeclared infos ps n :
  last_value (filter (undeclared infos) ps) n = if bool_decide (infos !! n = None) then last_value ps n else None.
Proof.
  induction ps as [|p ps IH] using rev_ind; [by case_bool_decide|].
  rewrite filter_app, last_value_snoc. destruct (decide (undeclared infos p)) as [Hu|Hu].
  - rewrite filter_cons_True, filter_nil by done. rewrite last_value_snoc, IH. unfold undeclared in Hu.
    repeat case_bool_decide; congruence.
  - rewrite filter_cons_False, filter_nil, app_nil_r, IH by done. unfold undeclared in Hu.
    repeat case_bool_decide; congruence.
Qed.

(** Staging cannot fail and touches nothing. *)
Definition new_event (p : Param) : list Param := if is_set (value_ p) then [to_parameter_msg p] else [].

Lemma declare_dynamic n v overrides s :
  __declare_parameter_common n v dynamic_descriptor overrides false true s =
  (Ok (success, Some (implicit n v), new_event (mkParameter n v)), s).
Proof.
  unfold __declare_parameter_common, new_event, implicit, is_set. cbn [value_].
  destruct (Z.eqb_spec (get_type v) PARAMETER_NOT_SET) as [->|Hs]; [done|].
  unfold __set_parameters_atomically_common, __check_parameters. cbn [check_from name_].
  unfold at_or_new. rewrite lookup_singleton_eq. cbn [descriptor fst snd value_].
  change (check_parameter dynamic_descriptor (mkParameter n v)) with success. cbn [successful success].
  cbn [negb fold_left]. unfold mbind, ST_bind, mret, ST_ret. cbn [successful success negb].
  rewrite assign_lookup, lookup_singleton_eq. cbn [name_]. by rewrite bool_decide_true.
Qed.

Lemma stage_parameters_spec overrides staged event ps s :
  stage_parameters overrides staged event ps s =
  (Ok (success, fold_left (fun m p => <[name_ p := implicit (name_ p) (value_ p)]> m) ps staged,
       (event ++ concat (map new_event ps))%list), s).
Proof.
  revert staged event. induction ps as [|p ps IH]; intros staged event; cbn [stage_parameters fold_left map concat].
  - by rewrite app_nil_r.
  - rewrite (bind_ok _ _ _ _ _ (declare_dynamic _ _ _ _)). cbn [successful success]. rewrite IH.
    destruct p as [n v]. by rewrite app_assoc.
Qed.

Lemma staged_lookup ps n :
  fold_left (fun m p => <[name_ p := implicit (name_ p) (value_ p)]> m) ps (∅ : Infos) !! n = implicit n <$> last_value ps n.
Proof.
  induction ps as [|p ps IH] using rev_ind; [done|]. rewrite fold_left_app, last_value_snoc. cbn [fold_left].
  case_bool_decide as E; [by rewrite <- E, lookup_insert_eq|]. by rewrite lookup_insert_ne.
Qed.

(** ** After the values are set *)

Lemma insert_all_lookup {A} (l : list (string * A)) (m : gmap string A) n :
  NoDup l.*1 ->
  fold_left (fun m kv => <[kv.1 := kv.2]> m) l m !! n = match list_to_map (M := gmap string A) l !! n with Some x => Some x | None => m !! n end.
Proof.
  revert m. induction l as [|[k x] l IH]; intros m; [done|]. cbn [fmap list_fmap fst]. intros [Hn Hd]%NoDup_cons.
  cbn [fold_left fst snd list_to_map]. rewrite IH by done. destruct (decide (k = n)) as [->|Hk].
  - cbn. rewrite !lookup_insert_eq. by rewrite (not_elem_of_list_to_map_1 l n).
  - cbn. by rewrite !lookup_insert_ne.
Qed.

Lemma in_order_map {A} (m : gmap string A) : list_to_map (in_order m) = m.
Proof.
  apply map_eq. intros n. destruct (m !! n) as [x|] eqn:E.
  - apply elem_of_list_to_map; [apply in_order_nodup|]. by apply in_order_lookup.
  - apply not_elem_of_list_to_map. intros ([k x] & -> & Hx)%list_elem_of_fmap. apply in_order_lookup in Hx. cbn in E. congruence.
Qed.

Lemma apply_staged_spec staged s r s' :
  apply_staged staged s = (r, s') ->
  r = Throw AssertionFailed \/ r = Ok tt /\ s' = set_infos s (staged ∪ parameters_ s).
Proof.
  unfold apply_staged. intros E.
  enough (r = Throw AssertionFailed \/
    r = Ok tt /\ s' = set_infos s (fold_left (fun m kv => <[kv.1 := kv.2]> m) (in_order staged) (parameters_ s))) as [|[-> ->]]; [by left| |].
  { right. split; [done|]. f_equal. apply map_eq. intros n. rewrite insert_all_lookup by apply in_order_nodup.
    rewrite in_order_map, lookup_union. destruct (staged !! n), (parameters_ s !! n); done. }
  revert s E. generalize (in_order staged). intros l.
  induction l as [|[k x] l IH]; intros s; cbn [for_each fold_left]; [intros [= <- <-]; right; by destruct s|].
  unfold mbind at 1, ST_bind at 1. unfold apply_change at 1. rewrite get_bind. cbn [fst snd].
  destruct (parameters_ s !! k) as [i|]; [|intros [= <- <-]; by left]. destruct (value_eqb _ _); cbn [negb]; [|intros [= <- <-]; by left].
  intros [->|[-> ->]]%IH; [by left|by right].
Qed.

Lemma replace_by_name_other ps p n :
  name_ p <> n -> filter (fun q => name_ q = n) (replace_by_name ps p) = filter (fun q => name_ q = n) ps.
Proof.
  intros Hn. induction ps as [|q ps IH]; [done|]. cbn [replace_by_name]. destruct (String.eqb_spec (name_ q) (name_ p)) as [E|E].
  - rewrite !filter_cons_False by congruence. done.
  - destruct (decide (name_ q = n)); [rewrite !filter_cons_True by done; by f_equal|by rewrite !filter_cons_False].
Qed.

Lemma to_be_set_other staged ps n :
  staged !! n = None -> filter (fun q => name_ q = n) (parameters_to_be_set staged ps) = filter (fun q => name_ q = n) ps.
Proof.
  intros Hn. unfold parameters_to_be_set. destruct (any_initial_values_used _ _); [|done].
  assert (Hl : forall kv, kv ∈ in_order staged -> kv.1 <> n).
  { intros [k x] Hx E. cbn in E. subst k. apply in_order_lookup in Hx. congruence. }
  revert ps. induction (in_order staged) as [|[k x] l IH]; intros ps; [done|]. cbn [fold_left].
  rewrite IH by (intros; apply Hl; by right). apply replace_by_name_other. apply (Hl (k, x)). by left.
Qed.

Lemma replace_by_name_names ps p : map name_ (replace_by_name ps p) = map name_ ps.
Proof.
  induction ps as [|q ps IH]; [done|]. cbn [replace_by_name]. destruct (String.eqb_spec (name_ q) (name_ p)) as [E|E]; cbn [map].
  - by rewrite E.
  - by rewrite IH.
Qed.

Lemma to_be_set_names staged ps : map name_ (parameters_to_be_set staged ps) = map name_ ps.
Proof.
  unfold parameters_to_be_set. destruct (any_initial_values_used _ _); [|done].
  revert ps. induction (in_order staged) as [|kv l IH]; intros ps; [done|]. cbn [fold_left]. by rewrite IH, replace_by_name_names.
Qed.

(** A parameter that is undeclared by being set to nothing. *)
Definition undeclares (infos : Infos) (p : Param) : Prop :=
  is_set (value_ p) = false /\ match infos !! name_ p with Some i => is_set (value i) = true | None => False end.

#[export] Instance undeclares_dec infos p : Decision (undeclares infos p).
Proof. unfold undeclares. destruct (infos !! name_ p); apply _. Defined.

Lemma collect_undeclared_spec infos ps l :
  collect_undeclared infos ps = Some l ->
  l = filter (undeclares infos) ps /\
  (forall p i, p ∈ ps -> undeclares infos p -> infos !! name_ p = Some i -> dynamic_typing (descriptor i) = true).
Proof.
  revert l. induction ps as [|p ps IH]; intros l; cbn [collect_undeclared]; [intros [= <-]; split; [done|by intros ? ? ?%elem_of_nil]|].
  unfold Parameter_get_type. destruct (Z.eqb_spec (get_type (value_ p)) PARAMETER_NOT_SET) as [Et|Et].
  - assert (Hs : is_set (value_ p) = false) by (unfold is_set; by rewrite Et).
    destruct (infos !! name_ p) as [i|] eqn:Ei.
    + change (negb (get_type (value i) =? PARAMETER_NOT_SET)) with (is_set (value i)). destruct (is_set (value i)) eqn:Ev.
      * destruct (dynamic_typing (descriptor i)) eqn:Edyn; cbn [negb]; [|done].
        destruct (collect_undeclared infos ps) as [k|]; [|done]. intros [= <-]. destruct (IH _ eq_refl) as [-> Hd]. split.
        -- rewrite filter_cons_True; [done|]. split; [done|by rewrite Ei].
        -- intros q j [->|Hq]%elem_of_cons Hu Hj; [congruence|by eapply Hd].
      * intros [-> Hd]%IH. split; [rewrite filter_cons_False; [done|]; intros [_ Hx]; rewrite Ei in Hx; congruence|].
        intros q j [->|Hq]%elem_of_cons Hu Hj; [|by eapply Hd]. destruct Hu as [_ Hx]. rewrite Ei in Hx. congruence.
    + intros [-> Hd]%IH. split; [rewrite filter_cons_False; [done|]; intros [_ Hx]; by rewrite Ei in Hx|].
      intros q j [->|Hq]%elem_of_cons Hu Hj; [congruence|by eapply Hd].
  - assert (Hs : is_set (value_ p) = true) by (unfold is_set; by destruct (Z.eqb_spec (get_type (value_ p)) PARAMETER_NOT_SET)).
    intros [-> Hd]%IH. split; [rewrite filter_cons_False; [done|]; intros [Hx _]; congruence|].
    intros q j [->|Hq]%elem_of_cons Hu Hj; [destruct Hu; congruence|by eapply Hd].
Qed.

Lemma erase_undeclared_spec l s r s' :
  erase_undeclared l s = (r, s') ->
  r = Throw AssertionFailed \/
  exists deleted, r = Ok deleted /\ s' = set_infos s (parameters_ s') /\ map name_ deleted = map name_ l /\
    (forall n, parameters_ s' !! n = if bool_decide (n ∈ map name_ l) then None else parameters_ s !! n).
Proof.
  revert s r s'. induction l as [|p l IH]; intros s r s'; cbn [erase_undeclared].
  - intros [= <- <-]. right. exists []. split_and!; try done. by destruct s.
  - rewrite get_bind. destruct (parameters_ s !! name_ p) as [i|] eqn:Ei; [|intros [= <- <-]; by left].
    rewrite (bind_ok (modify _) _ _ _ _ eq_refl). set (s0 := set_infos s (delete (name_ p) (parameters_ s))).
    destruct (erase_undeclared l s0) as [r1 s1] eqn:E1.
    destruct (IH s0 r1 s1 E1) as [->|(d & -> & Hs & Hn & Hl)].
    + rewrite (bind_throw _ _ _ _ _ E1). intros [= <- <-]. by left.
    + rewrite (bind_ok _ _ _ _ _ E1). intros [= <- <-]. right. eexists. split_and!; [done| | |].
      * by rewrite Hs.
      * cbn. by rewrite Hn.
      * intros n. rewrite Hl. unfold s0. cbn [map parameters_ set_infos]. destruct (decide (name_ p = n)) as [<-|Hne].
        -- rewrite lookup_delete_eq. rewrite (bool_decide_true (name_ p ∈ name_ p :: _)) by (by left). by case_bool_decide.
        -- rewrite lookup_delete_ne by done. repeat case_bool_decide; set_solver.
Qed.

(** ** Setting parameters *)

Definition stage (ps : list Param) : Infos := fold_left (fun m p => <[name_ p := implicit (name_ p) (value_ p)]> m) ps ∅.

Lemma stage_lookup infos ps n :
  stage (filter (undeclared infos) ps) !! n = if bool_decide (infos !! n = None) then implicit n <$> last_value ps n else None.
Proof. unfold stage. rewrite staged_lookup, last_value_undeclared. by case_bool_decide. Qed.

Lemma existsb_named (f : Param -> bool) ps n :
  existsb (fun p => String.eqb (name_ p) n && f p) ps = existsb f (filter (fun p => name_ p = n) ps).
Proof.
  induction ps as [|p ps IH]; [done|]. cbn [existsb]. destruct (String.eqb_spec (name_ p) n) as [E|E].
  - rewrite filter_cons_True by done. cbn [existsb]. by rewrite IH.
  - rewrite filter_cons_False by done. by rewrite IH.
Qed.

Lemma no_value_existsb f ps n : last_value ps n = None -> existsb (fun p => String.eqb (name_ p) n && f p) ps = false.
Proof.
  rewrite existsb_named. unfold last_value. destruct (filter (fun p => name_ p = n) ps) as [|p l]; [done|].
  destruct (last (p :: l)) eqn:Elast; [done|]. by apply last_None in Elast.
Qed.

Lemma undeclares_names infos ps n i :
  infos !! n = Some i ->
  n ∈ map name_ (filter (undeclares infos) ps) <->
  is_set (value i) && existsb (fun p => String.eqb (name_ p) n && negb (is_set (value_ p))) ps = true.
Proof.
  intros Hi. rewrite andb_true_iff, existsb_exists, list_elem_of_fmap. setoid_rewrite list_elem_of_filter.
  setoid_rewrite list_elem_of_In. unfold undeclares. setoid_rewrite andb_true_iff. setoid_rewrite String.eqb_eq.
  split.
  - intros (p & -> & [Hv Hs] & Hp). rewrite Hi in Hs. split; [done|]. exists p. rewrite Hv. by split_and!.
  - intros [Hs (p & Hp & <- & Hv%negb_true_iff)]. exists p. rewrite Hi. by split_and!.
Qed.

Lemma outcome_of_steps infos ps n :
  let staged := stage (filter (undeclared infos) ps) in
  let ps' := parameters_to_be_set staged ps in
  (if bool_decide (n ∈ map name_ (filter (undeclares infos) ps')) then None
   else (staged ∪ fold_left assign_parameter ps' infos) !! n) = outcome infos ps n.
Proof.
  intros staged ps'. unfold outcome. rewrite lookup_union, assign_all_lookup.
  assert (Hsame : staged !! n = None -> filter (fun q => name_ q = n) ps' = filter (fun q => name_ q = n) ps) by apply to_be_set_other.
  assert (Hv : staged !! n = None -> last_value ps' n = last_value ps n) by (intros E; unfold last_value; by rewrite Hsame).
  assert (Hst : staged !! n = if bool_decide (infos !! n = None) then implicit n <$> last_value ps n else None) by apply stage_lookup.
  destruct (infos !! n) as [i|] eqn:Ei.
  - rewrite bool_decide_false in Hst by done. rewrite Hst, Hv, (left_id None (∪)) by done.
    assert (Hb : bool_decide (n ∈ map name_ (filter (undeclares infos) ps')) =
      is_set (value i) && existsb (fun p => String.eqb (name_ p) n && negb (is_set (value_ p))) ps).
    { rewrite (existsb_named (fun p => negb (is_set (value_ p)))), <- Hsame, <- existsb_named by done.
      apply eq_true_iff_eq. by rewrite bool_decide_eq_true, (undeclares_names _ _ _ _ Ei). }
    rewrite Hb. destruct (last_value ps n) as [v|] eqn:El; [by destruct (_ && _)|].
    by rewrite no_value_existsb, andb_false_r.
  - rewrite bool_decide_false.
    2: { rewrite list_elem_of_fmap. intros (p & -> & [[_ Hx] _]%list_elem_of_filter). by rewrite Ei in Hx. }
    rewrite bool_decide_true in Hst by done. rewrite Hst.
    destruct (last_value ps n) as [v|] eqn:El; cbn [fmap option_fmap option_map]; [by destruct (last_value ps' n)|].
    by rewrite Hv.
Qed.

(** Everything but the parameters and the events. *)
Definition kept (s s' : NodeParameters) : Prop := undisturbed (set_published (set_infos s (parameters_ s')) (published s')) s'.

Lemma publish_event_spec new changed deleted s :
  publish_event new changed deleted s =
  (Ok tt, if has_events_publisher s then
     set_published s (published s ++ [mkEvent (node_clock_ s) (combined_name_ s) new changed deleted])%list else s).
Proof. unfold publish_event. rewrite get_bind. by destruct (has_events_publisher s). Qed.

(** The event of a successful call, at time [t]. *)
Definition event_of (s : NodeParameters) (t : Z) (ps deleted : list Param) : list ParameterEvent :=
  let l := filter (undeclared (parameters_ s)) ps in
  let ps' := parameters_to_be_set (stage l) ps in
  if has_events_publisher s then
    [mkEvent t (combined_name_ s) (concat (map new_event l))
       (changed_only (stage l) (filter (undeclares (parameters_ s)) ps') ps') deleted]
  else [].

Definition deleted_from (infos : Infos) (ps deleted : list Param) : Prop :=
  map name_ deleted = map name_ (filter (undeclares infos) (parameters_to_be_set (stage (filter (undeclared infos) ps)) ps)).

Lemma set_staged_spec ps l s r s' :
  parameter_modification_enabled_ s = false -> post_set_returns ->
  scan_parameters (parameters_ s) (allow_undeclared_ s) ps = ToBeDeclared l ->
  set_staged (stage l) (concat (map new_event l)) ps s = (r, s') ->
  r = Throw AssertionFailed \/
  (exists res, r = Ok res /\ successful res = true /\ kept s s' /\
     (forall n, parameters_ s' !! n = outcome (parameters_ s) ps n) /\
     exists t deleted, deleted_from (parameters_ s) ps deleted /\ published s' = (published s ++ event_of s t ps deleted)%list) \/
  (forall res, r = Ok res -> successful res = false) /\ undisturbed s s'.
Proof.
  intros He Hr [-> Hp]%scan_to_be_declared. unfold set_staged. rewrite get_bind. set (staged := stage _).
  set (ps' := parameters_to_be_set staged ps).
  assert (Hd : forall p, p ∈ ps' -> allow_undeclared_ s = true \/ is_Some (parameters_ s !! name_ p)).
  { intros p Hin%(list_elem_of_fmap_2 name_). change (name_ p ∈ map name_ ps') in Hin. unfold ps' in Hin. rewrite to_be_set_names in Hin.
    apply list_elem_of_fmap in Hin as (q & -> & Hq). destruct (Hp q Hq) as [_ Hx].
    destruct (parameters_ s !! name_ q); [right; eauto|by left]. }
  destruct (collect_undeclared (parameters_ s) ps') as [und|] eqn:Ec; [|intros [= <- <-]; right; right; by split; [intros ? [= <-]|]].
  apply collect_undeclared_spec in Ec as [-> _].
  set (store := fun infos => modify (fun s => set_infos s infos)).
  destruct (__set_parameters_atomically_common ps' (parameters_ s) store true (allow_undeclared_ s) s) as [r1 s1] eqn:E1.
  destruct (set_common_spec _ _ _ _ He Hd E1) as [(_ & Hu & [(res & infos & -> & Hres)|[_ []]])|[Hx Hu]]; [|done|].
  2: { destruct r1 as [[res infos]|e].
       - rewrite (bind_ok _ _ _ _ _ E1). specialize (Hx _ eq_refl). cbn [fst] in Hx. rewrite Hx. cbn [negb].
         intros [= <- <-]. right. right. split; [by intros ? [= <-]|done].
       - rewrite (bind_throw _ _ _ _ _ E1). intros [= <- <-]. right. right. by split. }
  rewrite (bind_ok _ _ _ _ _ E1), Hres. cbn [negb].
  destruct (apply_staged staged s1) as [r2 s2] eqn:E2. pose proof E2 as E2'.
  apply apply_staged_spec in E2' as [->|[-> Es2]]; [rewrite (bind_throw _ _ _ _ _ E2); intros [= <- <-]; by left|].
  rewrite (bind_ok _ _ _ _ _ E2). destruct (erase_undeclared (filter (undeclares (parameters_ s)) ps') s2) as [r3 s3] eqn:E3. pose proof E3 as E3'.
  apply erase_undeclared_spec in E3' as [->|(deleted & -> & Es3 & Hdel & Hl)];
    [rewrite (bind_throw _ _ _ _ _ E3); intros [= <- <-]; by left|].
  rewrite (bind_ok _ _ _ _ _ E3), (bind_ok _ _ _ _ _ (publish_event_spec _ _ _ s3)). intros [= <- <-].
  right. left. exists res. assert (Hk : kept s s3) by (rewrite Es3, Es2; destruct Hu; by split).
  split_and!; [done|done| | |].
  - destruct (has_events_publisher s3); [|done]. destruct Hk. by split.
  - intros n. rewrite <- outcome_of_steps. fold staged ps'.
    assert (Hn : parameters_ s3 !! n =
      if bool_decide (n ∈ map name_ (filter (undeclares (parameters_ s)) ps')) then None
      else (staged ∪ fold_left assign_parameter ps' (parameters_ s)) !! n).
    { rewrite Hl, Es2. cbn [parameters_ set_infos]. by rewrite (undisturbed_infos _ _ Hu). }
    by destruct (has_events_publisher s3).
  - exists (node_clock_ s3), deleted. split; [done|]. unfold event_of. fold staged ps'.
    assert (Hpub : published s3 = published s) by (rewrite Es3, Es2; apply (undisturbed_published _ _ Hu)).
    pose proof (undisturbed_publisher _ _ Hk) as Hep. pose proof (undisturbed_name _ _ Hk) as Hen. cbn in Hep, Hen.
    rewrite Hep. destruct (has_events_publisher s); [cbn; by rewrite Hpub, Hen|by rewrite Hpub, app_nil_r].
Qed.

Lemma set_atomically_cases ps s r s' :
  parameter_modification_enabled_ s = true -> post_set_returns ->
  set_parameters_atomically ps s = (r, s') ->
  r = Throw AssertionFailed \/
  (exists res ps', r = Ok res /\ successful res = true /\
    (__call_pre_set_parameters_callbacks ps (set_enabled s false)).1 = Ok ps' /\ ps' <> [] /\
    kept s s' /\ (forall n, parameters_ s' !! n = outcome (parameters_ s) ps' n) /\
    exists t deleted, deleted_from (parameters_ s) ps' deleted /\ published s' = (published s ++ event_of s t ps' deleted)%list) \/
  (forall res, r = Ok res -> successful res = false) /\ undisturbed s s'.
Proof.
  intros He Hr. unfold set_parameters_atomically, with_guard. rewrite He. set (s0 := set_enabled s false).
  pose proof (call_pre_calm ps s0 eq_refl) as H1. destruct (__call_pre_set_parameters_callbacks ps s0) as [[ps'|e] s1] eqn:E1.
  2: { rewrite (bind_throw _ _ _ _ _ E1). intros [= <- <-]. right. right. split; [done|]. destruct H1. by split. }
  rewrite (bind_ok _ _ _ _ _ E1). cbn [snd] in H1.
  assert (Hback : forall s2, undisturbed s1 s2 -> undisturbed s (set_enabled s2 true)) by (intros s2 []; destruct H1; split; cbn in *; congruence).
  case_bool_decide as Hne; [intros [= <- <-]; right; right; split; [by intros ? [= <-]|by apply Hback]|]. rewrite get_bind.
  destruct (scan_parameters _ _ ps') as [l|res|e] eqn:Escan.
  3: { intros [= <- <-]. right. right. split; [done|by apply Hback]. }
  2: { intros [= <- <-]. right. right. split; [|by apply Hback]. intros ? [= <-]. clear -Escan. induction ps' as [|p ps IH]; [done|].
       cbn [scan_parameters] in Escan. repeat case_match; simplify_eq; auto. }
  rewrite (bind_ok _ _ _ _ _ (stage_parameters_spec _ _ _ _ _)). cbn [successful success negb app]. fold (stage l).
  destruct (set_staged (stage l) (concat (map new_event l)) ps' s1) as [r2 s2] eqn:E2. intros [= <- <-].
  assert (He1 : parameter_modification_enabled_ s1 = false) by apply (undisturbed_enabled _ _ H1).
  pose proof (undisturbed_infos _ _ H1) as Hi1. pose proof (undisturbed_published _ _ H1) as Hp1. cbn in Hi1, Hp1.
  destruct (set_staged_spec _ _ _ _ _ He1 Hr Escan E2) as [->|[(res & -> & Hres & Hk & Hn & t & d & Hd & Hp)|[Hx Hu]]]; [by left| |].
  - right. left. exists res, ps'. rewrite Hi1 in Hn, Hd. split_and!; try done.
    + destruct Hk, H1. split; cbn in *; congruence.
    + exists t, d. split; [done|]. cbn. rewrite Hp, Hp1. unfold event_of.
      rewrite Hi1, (undisturbed_publisher _ _ H1), (undisturbed_name _ _ H1). done.
  - right. right. split; [done|by apply Hback].
Qed.

(** C30: setting parameters is atomic, if no post-set callback throws.  When
    the call succeeds and the list that the pre-set callbacks leave names no
    parameter twice, every entry is what this list makes of it; when the call
    is refused, or throws, nothing has changed and no event was published.  The
    one other end is a failed assertion. *)
Theorem set_parameters_atomically_atomic ps s :
  parameter_modification_enabled_ s = true -> post_set_returns ->
  let '(r, s') := set_parameters_atomically ps s in
  r = Throw AssertionFailed \/
  (exists res ps', r = Ok res /\ successful res = true /\
    (__call_pre_set_parameters_callbacks ps (set_enabled s false)).1 = Ok ps' /\ ps' <> [] /\
    kept s s' /\ (NoDup (map name_ ps') -> forall n, parameters_ s' !! n = outcome (parameters_ s) ps' n)) \/
  (forall res, r = Ok res -> successful res = false) /\ undisturbed s s'.
Proof.
  intros He Hr. destruct (set_parameters_atomically ps s) as [r s'] eqn:E.
  destruct (set_atomically_cases _ _ _ _ He Hr E) as [|[(res & ps' & ? & ? & ? & ? & ? & ? & _)|]];
    [by left|right; left; by exists res, ps'|right; by right].
Qed.

(** ** What is told to others *)

Lemma last_value_app ps qs n :
  last_value (ps ++ qs)%list n = match last_value qs n with Some v => Some v | None => last_value ps n end.
Proof.
  induction qs as [|q qs IH] using rev_ind; [by rewrite app_nil_r|]. rewrite app_assoc, !last_value_snoc. by case_bool_decide.
Qed.

Lemma last_value_filter (f : string -> bool) ps n :
  last_value (List.filter (fun p => f (name_ p)) ps) n = if f n then last_value ps n else None.
Proof.
  induction ps as [|p ps IH] using rev_ind; [by destruct (f n)|]. rewrite List.filter_app, last_value_app, IH, last_value_snoc. cbn.
  destruct (f (name_ p)) eqn:E; [change [p] with ([] ++ [p])%list; rewrite last_value_snoc|];
    (case_bool_decide as En; [rewrite <- En, ?E; done|by destruct (f n)]).
Qed.

Lemma new_events_value ps n :
  NoDup (map name_ ps) ->
  last_value (concat (map new_event ps)) n = match last_value ps n with Some v => if is_set v then Some v else None | None => None end.
Proof.
  induction ps as [|p ps IH] using rev_ind; [done|]. rewrite !map_app, concat_app, last_value_app, last_value_snoc.
  intros (Hnd & Hp & _)%NoDup_app. rewrite IH by done. cbn [map concat]. rewrite app_nil_r. unfold new_event.
  destruct (is_set (value_ p)) eqn:Es.
  - change [to_parameter_msg p] with ([] ++ [to_parameter_msg p])%list. rewrite last_value_snoc. cbn. case_bool_decide; [by rewrite Es|done].
  - cbn. case_bool_decide as E; [|done]. rewrite Es. destruct (last_value ps n) as [v|] eqn:Ev; [|done].
    apply last_value_in in Ev as (q & Hq & Eq & _). exfalso. apply (Hp (name_ q)); [by apply (list_elem_of_fmap_2 name_)|].
    rewrite Eq, <- E. by left.
Qed.

Lemma fold_note_lookup ps m n :
  fold_left note ps m !! n = match last_value ps n with Some v => if is_set v then Some v else None | None => m !! n end.
Proof.
  induction ps as [|p ps IH] using rev_ind; [done|]. rewrite fold_left_app, last_value_snoc. cbn [fold_left]. unfold note at 1.
  destruct (is_set (value_ p)) eqn:Es; case_bool_decide as E.
  - by rewrite <- E, lookup_insert_eq, Es.
  - by rewrite lookup_insert_ne.
  - by rewrite <- E, lookup_delete_eq, Es.
  - by rewrite lookup_delete_ne.
Qed.

Lemma fold_delete_lookup ps (m : gmap string ParameterValue) n :
  fold_left (fun m p => delete (name_ p) m) ps m !! n = if bool_decide (n ∈ map name_ ps) then None else m !! n.
Proof.
  revert m. induction ps as [|p ps IH]; intros m; [done|]. cbn [fold_left map]. rewrite IH.
  destruct (decide (name_ p = n)) as [<-|Hn].
  - rewrite lookup_delete_eq, (bool_decide_true (name_ p ∈ name_ p :: _)) by (by left). by case_bool_decide.
  - rewrite lookup_delete_ne by done. repeat case_bool_decide; set_solver.
Qed.

Lemma stored_lookup infos n :
  stored infos !! n = match infos !! n with Some i => if is_set (value i) then Some (value i) else None | None => None end.
Proof. unfold stored. rewrite lookup_omap. by destruct (infos !! n). Qed.

Lemma map_to_msg ps : map to_parameter_msg ps = ps.
Proof. induction ps as [|[n v] ps IH]; [done|]. cbn. by rewrite IH. Qed.

Lemma filter_names_nodup (P : Param -> Prop) `{!forall p, Decision (P p)} l :
  NoDup (map name_ l) -> NoDup (map name_ (filter P l)).
Proof.
  induction l as [|q l IH]; [done|]. intros [Hq Hnd]%NoDup_cons. rewrite filter_cons. case_decide; [|by apply IH].
  apply NoDup_cons. split; [|by apply IH].
  intros (p & E & [_ Hp]%list_elem_of_filter)%list_elem_of_fmap.
  apply Hq. rewrite E. by apply (list_elem_of_fmap_2 name_).
Qed.

Lemma event_applied infos ps deleted t name n :
  NoDup (map name_ ps) -> deleted_from infos ps deleted ->
  let l := filter (undeclared infos) ps in
  let ps' := parameters_to_be_set (stage l) ps in
  apply_event (stored infos)
    (mkEvent t name (concat (map new_event l)) (changed_only (stage l) (filter (undeclares infos) ps') ps') deleted) !! n =
  match outcome infos ps n with Some i => if is_set (value i) then Some (value i) else None | None => None end.
Proof.
  intros Hnd Hdel l ps'. unfold apply_event. cbn [deleted_parameters new_parameters changed_parameters].
  rewrite fold_delete_lookup, fold_note_lookup, last_value_app, stored_lookup.
  unfold deleted_from in Hdel. fold l ps' in Hdel. rewrite Hdel. unfold changed_only. rewrite map_to_msg.
  set (und := filter (undeclares infos) ps').
  assert (Hst : stage l !! n = if bool_decide (infos !! n = None) then implicit n <$> last_value ps n else None) by apply stage_lookup.
  assert (Hsame : stage l !! n = None -> filter (fun q => name_ q = n) ps' = filter (fun q => name_ q = n) ps) by apply to_be_set_other.
  assert (Hund : existsb (fun q => String.eqb (name_ q) n) und = bool_decide (n ∈ map name_ und)).
  { apply eq_true_iff_eq. rewrite bool_decide_eq_true, existsb_exists. split.
    - intros (q & Hq & <-%String.eqb_eq). apply list_elem_of_In in Hq. by apply (list_elem_of_fmap_2 name_).
    - intros (q & -> & Hq)%list_elem_of_fmap. exists q. by rewrite <- list_elem_of_In, String.eqb_refl. }
  pose (f := fun k => negb (bool_decide (is_Some (stage l !! k))) && negb (existsb (fun q => String.eqb (name_ q) k) und)).
  match goal with |- context [List.filter ?g ps'] => change g with (fun p => f (name_ p)) end.
  rewrite (last_value_filter f). unfold f.
  rewrite Hund, new_events_value by by apply filter_names_nodup.
  assert (Hl : last_value l n = if bool_decide (infos !! n = None) then last_value ps n else None) by apply last_value_undeclared.
  rewrite Hl. unfold outcome.
  destruct (infos !! n) as [i|] eqn:Ei.
  - rewrite bool_decide_false in Hst by done. rewrite Hst, (bool_decide_false (is_Some None)), (bool_decide_false (Some i = None)) by (done || by intros []).
    assert (Hv : last_value ps' n = last_value ps n) by (unfold last_value; by rewrite Hsame). rewrite Hv.
    assert (Hb : bool_decide (n ∈ map name_ und) = is_set (value i) && existsb (fun p => String.eqb (name_ p) n && negb (is_set (value_ p))) ps).
    { unfold und. rewrite (existsb_named (fun p => negb (is_set (value_ p)))), <- Hsame, <- existsb_named by done.
      apply eq_true_iff_eq. by rewrite bool_decide_eq_true, (undeclares_names _ _ _ _ Ei). }
    rewrite Hb. destruct (last_value ps n) as [v|] eqn:Ev; [by destruct (_ && _)|].
    by rewrite (no_value_existsb _ _ _ Ev), andb_false_r.
  - rewrite bool_decide_true in Hst by done. rewrite Hst, (bool_decide_true (None = None)) by done.
    rewrite (bool_decide_false (n ∈ map name_ und)).
    2: { intros (p & -> & [[_ Hx] _]%list_elem_of_filter)%list_elem_of_fmap. by rewrite Ei in Hx. }
    destruct (last_value ps n) as [v|] eqn:Ev; cbn [fmap option_fmap option_map].
    + rewrite (bool_decide_true (is_Some _)) by eauto. cbn. unfold implicit. cbn. destruct (is_set v) eqn:Es; [by rewrite Es|done].
    + rewrite (bool_decide_false (is_Some None)) by (by intros []). cbn. unfold last_value. rewrite Hsame by done.
      unfold last_value in Ev. by rewrite Ev.
Qed.

(** C31: who follows the events knows the parameters: after a successful call
    the values are those that the one event published makes of the values
    before, provided no name is given twice. *)
Theorem events_follow_parameters ps s res s' :
  parameter_modification_enabled_ s = true -> post_set_returns -> has_events_publisher s = true ->
  (forall ps', (__call_pre_set_parameters_callbacks ps (set_enabled s false)).1 = Ok ps' -> NoDup (map name_ ps')) ->
  set_parameters_atomically ps s = (Ok res, s') -> successful res = true ->
  exists e, published s' = (published s ++ [e])%list /\ node e = combined_name_ s /\
    apply_event (stored (parameters_ s)) e = stored (parameters_ s').
Proof.
  intros He Hr Hpub Hnd E Hres.
  destruct (set_atomically_cases _ _ _ _ He Hr E) as [|[(res' & ps' & _ & _ & Epre & _ & _ & Hn & t & d & Hd & Hp)|[Hx _]]]; [done| |].
  - unfold event_of in Hp. rewrite Hpub in Hp. eexists. split_and!; [exact Hp|done|]. apply map_eq. intros n.
    rewrite (event_applied _ _ _ _ _ n (Hnd _ Epre) Hd). by rewrite stored_lookup, Hn.
  - rewrite (Hx _ eq_refl) in Hres. done.
Qed.

End Laws.

(** ** A concrete program *)

(** Its one kind of callback refuses negative integers. *)
Definition refuses_negative : Callbacks := {|
  pre_set_callback h ps := mret ps;
  on_set_callback h ps :=
    mret (if existsb (fun p => (Parameter_get_type p =? PARAMETER_INTEGER) && (integer_value (value_ p) <? 0)) ps
          then mkResult false "negative" else success);
  post_set_callback h ps := mret tt;
|}.

#[export] Instance refuses_negative_law : CallbackLaw (H := refuses_negative).
Proof. split; intros h ps s _; done. Qed.

Lemma refuses_negative_returns : post_set_returns (H := refuses_negative).
Proof. by intros h ps s. Qed.

Definition one_callback : NodeParameters :=
  mkNodeParameters true [] [1%N] [] ∅ ∅ true true [] "/n" 0 {[1%N]}.

Lemma set_parameters_atomically_atomic_witness :
  let five := set_parameters_atomically (H := refuses_negative) [mkParameter "a" (value_int 5)] one_callback in
  let minus := set_parameters_atomically (H := refuses_negative) [mkParameter "a" (value_int (-5))] one_callback in
  (exists res, five.1 = Ok res /\ parameters_ five.2 !! "a" = Some (implicit "a" (value_int 5))) /\
  (exists res, minus.1 = Ok res /\ undisturbed one_callback minus.2).
Proof.
  intros five minus. split.
  - pose proof (set_parameters_atomically_atomic (CB := refuses_negative) [mkParameter "a" (value_int 5)] one_callback eq_refl
      refuses_negative_returns) as T. fold five in T.
    assert (E : five.1 = Ok success) by (vm_compute; reflexivity). destruct five as [r s'] eqn:Ef. cbn [fst] in E. subst r.
    exists success. split; [reflexivity|]. destruct T as [T|[(res & ps' & _ & _ & E1 & _ & _ & Hn)|[T _]]]; [discriminate T| |discriminate (T _ eq_refl)].
    assert (E2 : ps' = [mkParameter "a" (value_int 5)]) by (vm_compute in E1; injection E1 as <-; reflexivity). subst ps'.
    assert (Hd : NoDup (map name_ [mkParameter "a" (value_int 5)])) by (apply NoDup_singleton).
    cbn [snd]. rewrite (Hn Hd "a"). vm_compute. reflexivity.
  - pose proof (set_parameters_atomically_atomic (CB := refuses_negative) [mkParameter "a" (value_int (-5))] one_callback eq_refl
      refuses_negative_returns) as T. fold minus in T.
    assert (E : minus.1 = Ok (mkResult false "negative")) by (vm_compute; reflexivity).
    destruct minus as [r s'] eqn:Em. cbn [fst] in E. subst r. eexists. split; [reflexivity|].
    destruct T as [T|[(res & ps' & E1 & E2 & _)|[_ T]]]; [discriminate T|injection E1 as <-; discriminate E2|exact T].
Defined.

Lemma events_follow_parameters_witness :
  exists s', set_parameters_atomically (H := refuses_negative) [mkParameter "a" (value_int 5); mkParameter "b" (value_int 6)] one_callback
    = (Ok success, s') /\
  exists e, published s' = [e] /\ apply_event ∅ e = stored (parameters_ s').
Proof.
  pose (ps := [mkParameter "a" (value_int 5); mkParameter "b" (value_int 6)]).
  exists (set_parameters_atomically (H := refuses_negative) ps one_callback).2.
  assert (E : set_parameters_atomically (H := refuses_negative) ps one_callback
    = (Ok success, (set_parameters_atomically (H := refuses_negative) ps one_callback).2)) by (vm_compute; reflexivity).
  split; [exact E|].
  assert (Hnd : forall ps', (__call_pre_set_parameters_callbacks (H := refuses_negative) ps (set_enabled one_callback false)).1 = Ok ps' ->
    NoDup (map name_ ps')).
  { intros ps' E1. vm_compute in E1. injection E1 as <-. apply (bool_decide_unpack _). vm_compute. exact I. }
  destruct (events_follow_parameters (CB := refuses_negative) ps one_callback success _ eq_refl refuses_negative_returns eq_refl Hnd E eq_refl)
    as (e & Hp & _ & He).
  exists e. split; [exact Hp|exact He].
Defined.
