(* ===== verification/NodeParametersSafety.v ===== *)
(** * What no call of the parameter store can break

    The invariant of the reachable states and what a declaration fixes for
    good, by one induction over the calls of the methods ([Call], [run]):
    each of them relates the stored parameters before and after by [good].
    Also here: the declarations, and the guard that refuses changes from
    within a callback. *)

From Stdlib Require Import ZArith Lia String Ascii SpecFloat.
From stdpp Require Import base numbers list gmap strings sorting.
From S2P Require Import Prelude Computation OrderedMap ParameterValue NodeParameters NodeParametersFacts.
#[local] Open Scope string_scope.
#[local] Open Scope Z_scope.

(** An entry that fits its descriptor; a statically typed parameter may be
    declared without a value. *)
Definition ok_info (n : string) (i : ParameterInfo) : Prop :=
  descriptor_name (descriptor i) = n /\ n <> "" /\
  (get_type (value i) = descriptor_type (descriptor i) \/
   get_type (value i) = PARAMETER_NOT_SET /\ dynamic_typing (descriptor i) = false) /\
  successful (__check_parameter_value_in_range (descriptor i) (value i)) = true.

Definition well_formed (infos : Infos) : Prop := forall n i, infos !! n = Some i -> ok_info n i.






(** What holds for good once a parameter is declared: a read-only one keeps
    its value, a statically typed one its type. *)
Definition respects (infos infos' : Infos) : Prop := forall n i, infos !! n = Some i ->
  (read_only (descriptor i) = true -> infos' !! n = Some i) /\
  (dynamic_typing (descriptor i) = false -> exists i', infos' !! n = Some i' /\
     dynamic_typing (descriptor i') = false /\ descriptor_type (descriptor i') = descriptor_type (descriptor i) /\
     (value i' = value i \/ get_type (value i') = descriptor_type (descriptor i'))).





(** ** What every method preserves *)

Section Laws.
Context {CB : Callbacks} {LAW : CallbackLaw}.

(** [good infos infos']: the second map is one the methods may make of the
    first. *)
Definition good (infos infos' : Infos) : Prop := respects infos infos' /\ (well_formed infos -> well_formed infos').

#[local] Instance respects_preorder : PreOrder respects.
Proof.
  split.
  - intros m n i Hi. split; [done|]. intros Hs. exists i. auto.
  - intros m1 m2 m3 H1 H2 n i Hi. destruct (H1 n i Hi) as [Hr Hs]. split.
    + intros Hro. by apply (H2 n i (Hr Hro)).
    + intros (i2 & Hi2 & Hd2 & Ht2 & Hv2)%Hs. destruct (H2 n i2 Hi2) as [_ (i3 & Hi3 & Hd3 & Ht3 & Hv3)]; [done|].
      exists i3. split_and!; [done|done|congruence|]. destruct Hv3 as [->|]; [|by right]. destruct Hv2; [by left|right; congruence].
Qed.

#[local] Instance good_preorder : PreOrder good.
Proof. split; [by intros m; split|]. intros x y z [] []. split; [by etrans|auto]. Qed.

Lemma good_insert m0 m n i : good m0 m -> m0 !! n = None -> ok_info n i -> good m0 (<[n := i]> m).
Proof.
  intros [Hr Hw] Hn Hi. split.
  - intros k j Hj. assert (n <> k) by congruence. rewrite lookup_insert_ne by done. by apply Hr.
  - intros H0 k j Hj. destruct (decide (n = k)) as [->|Hk]; [rewrite lookup_insert_eq in Hj; congruence|].
    rewrite lookup_insert_ne in Hj by done. by apply Hw.
Qed.

Lemma good_delete m0 m n i :
  good m0 m -> m0 !! n = Some i -> read_only (descriptor i) = false -> dynamic_typing (descriptor i) = true ->
  good m0 (delete n m).
Proof.
  intros [Hr Hw] Hn Hro Hdy. split.
  - intros k j Hj. destruct (decide (n = k)) as [->|Hk]; [|rewrite lookup_delete_ne by done; by apply Hr].
    assert (i = j) as -> by congruence. split; congruence.
  - intros H0 k j [_ Hj]%lookup_delete_Some. by apply Hw.
Qed.

Lemma range_name d n v :
  successful (__check_parameter_value_in_range (set_descriptor_name d n) v) = successful (__check_parameter_value_in_range d v).
Proof. unfold __check_parameter_value_in_range. cbn. repeat case_match; done. Qed.

Lemma range_not_set d : successful (__check_parameter_value_in_range d value_not_set) = true.
Proof. unfold __check_parameter_value_in_range. cbn. by destruct (integer_range d), (floating_point_range d). Qed.

Lemma check_parameter_ok d p :
  successful (check_parameter d p) = true ->
  (dynamic_typing d = true \/ descriptor_type d = get_type (value_ p)) /\
  successful (__check_parameter_value_in_range d (value_ p)) = true.
Proof.
  unfold check_parameter, Parameter_get_type. destruct (String.eqb _ _); cbn [dynamic_typing descriptor_type set_descriptor_name];
    (destruct (dynamic_typing d || _) eqn:E; cbn [negb]; [|done]); rewrite ?range_name; intros Hr;
    (split; [|done]); apply orb_true_iff in E as [|E%Z.eqb_eq]; auto.
Qed.

Lemma check_all_ok infos ps allow p :
  (forall p, p ∈ ps -> allow = true \/ is_Some (infos !! name_ p)) ->
  successful (__check_parameters infos ps allow).1 = true -> p ∈ ps ->
  successful (check_parameter (match infos !! name_ p with Some i => descriptor i | None => dynamic_descriptor end) p) = true.
Proof.
  unfold __check_parameters. generalize success. induction ps as [|q ps IH]; intros r Hd; [by intros _ ?%elem_of_nil|].
  assert (Hd' : forall q, q ∈ ps -> allow = true \/ is_Some (infos !! name_ q)) by (intros; apply Hd; by right).
  cbn [check_from].
  assert (E : (if allow then match infos !! name_ q with Some i => (descriptor i, infos) | None => (dynamic_descriptor, infos) end
    else let '(i, infos) := at_or_new infos (name_ q) in (descriptor i, infos)) =
    (match infos !! name_ q with Some i => descriptor i | None => dynamic_descriptor end, infos)).
  { destruct (Hd q) as [->|[i Hi]]; [by left|by destruct (infos !! name_ q)|]. unfold at_or_new. rewrite Hi. by destruct allow. }
  rewrite E. destruct (successful (check_parameter _ q)) eqn:Eq; [|cbn [fst]; congruence].
  intros Hs [->|Hp]%elem_of_cons; [done|by eapply IH].
Qed.

Lemma good_assign infos ps allow :
  (forall p, p ∈ ps -> allow = true \/ is_Some (infos !! name_ p)) ->
  (forall p, p ∈ ps -> name_ p <> "" /\ match infos !! name_ p with Some i => read_only (descriptor i) = false | None => True end) ->
  successful (__check_parameters infos ps allow).1 = true ->
  good infos (fold_left assign_parameter ps infos).
Proof.
  intros Hd Hp Hc.
  assert (Hok : forall n v, last_value ps n = Some v -> n <> "" /\
    match infos !! n with
    | Some i => read_only (descriptor i) = false /\ (dynamic_typing (descriptor i) = true \/ descriptor_type (descriptor i) = get_type v) /\
        successful (__check_parameter_value_in_range (descriptor i) v) = true
    | None => True
    end).
  { intros n v (p & Hin & <- & <-)%last_value_in. pose proof (check_all_ok _ _ _ _ Hd Hc Hin) as Hx.
    destruct (Hp p Hin) as [Hne Hro]. split; [done|]. destruct (infos !! name_ p); [|done]. apply check_parameter_ok in Hx. tauto. }
  split.
  - intros n i Hi. rewrite assign_all_lookup, Hi. destruct (last_value ps n) as [v|] eqn:Ev.
    2: { split; [done|]. intros Hs. exists i. auto. }
    apply Hok in Ev as [_ Ev]. rewrite Hi in Ev. destruct Ev as (Hro & Ht & _). split; [congruence|].
    intros Hs. eexists. split; [done|]. cbn. split; [done|]. destruct Ht as [|Ht]; [congruence|]. auto.
  - intros Hw n i'. rewrite assign_all_lookup. destruct (last_value ps n) as [v|] eqn:Ev; [|by apply Hw].
    intros [= <-]. apply Hok in Ev as [Hne Ev]. split_and!; [done|done|by left|].
    destruct (infos !! n) as [i|]; [|done]. destruct Ev as (_ & _ & Hr). cbn [assigned descriptor value default].
    change (successful (__check_parameter_value_in_range (set_descriptor_name (descriptor i) n) v) = true). by rewrite range_name.
Qed.

Lemma ok_implicit n v : n <> "" -> ok_info n (implicit n v).
Proof.
  intros Hn. unfold implicit, is_set. split_and!; [done|done| |].
  - left. cbn. by destruct (Z.eqb_spec (get_type v) PARAMETER_NOT_SET) as [->|].
  - by destruct (negb _).
Qed.

Lemma apply_staged_good staged m0 s :
  good m0 (parameters_ s) -> (forall n i, staged !! n = Some i -> m0 !! n = None /\ ok_info n i) ->
  good m0 (parameters_ (apply_staged staged s).2).
Proof.
  intros Hg Hst. assert (Hl : forall kv, kv ∈ in_order staged -> m0 !! kv.1 = None /\ ok_info kv.1 kv.2).
  { intros [k x] Hx%in_order_lookup. by apply Hst. }
  unfold apply_staged. revert s Hg Hl. induction (in_order staged) as [|[k x] l IH]; intros s Hg Hl; [done|].
  cbn [for_each]. unfold mbind at 1, ST_bind at 1. unfold apply_change at 1. rewrite get_bind. cbn [fst snd] in *.
  destruct (parameters_ s !! k) as [i|]; [|done]. destruct (value_eqb _ _); [|done]. cbn [negb]. apply IH.
  - cbn. destruct (Hl (k, x)) as [Hk Hok]; [by left|]. by apply good_insert.
  - intros kv Hkv. apply Hl. by right.
Qed.

Lemma erase_undeclared_good l m0 s :
  good m0 (parameters_ s) ->
  (forall p, p ∈ l -> exists i, m0 !! name_ p = Some i /\ read_only (descriptor i) = false /\ dynamic_typing (descriptor i) = true) ->
  good m0 (parameters_ (erase_undeclared l s).2).
Proof.
  revert s. induction l as [|p l IH]; intros s Hg Hl; [done|]. cbn [erase_undeclared]. rewrite get_bind.
  destruct (parameters_ s !! name_ p) as [i|]; [|done]. rewrite (bind_ok (modify _) _ _ _ _ eq_refl).
  destruct (Hl p) as (j & Hj & Hro & Hdy); [by left|].
  assert (Hg' : good m0 (parameters_ (erase_undeclared l (set_infos s (delete (name_ p) (parameters_ s)))).2)).
  { apply IH; [by apply (good_delete _ _ _ j)|]. intros q Hq. apply Hl. by right. }
  unfold mbind, ST_bind. by destruct (erase_undeclared l _) as [[d|e] s1].
Qed.

Lemma set_staged_good ps l s :
  parameter_modification_enabled_ s = false ->
  scan_parameters (parameters_ s) (allow_undeclared_ s) ps = ToBeDeclared l ->
  good (parameters_ s) (parameters_ (set_staged (stage l) (concat (map new_event l)) ps s).2).
Proof.
  intros He [-> Hp]%scan_to_be_declared. unfold set_staged. rewrite get_bind. set (staged := stage _).
  set (ps' := parameters_to_be_set staged ps).
  assert (Hn : forall p, p ∈ ps' -> exists q, q ∈ ps /\ name_ q = name_ p).
  { intros p Hin%(list_elem_of_fmap_2 name_). change (name_ p ∈ map name_ ps') in Hin. unfold ps' in Hin.
    rewrite to_be_set_names in Hin. apply list_elem_of_fmap in Hin as (q & -> & Hq). by exists q. }
  assert (Hd : forall p, p ∈ ps' -> allow_undeclared_ s = true \/ is_Some (parameters_ s !! name_ p)).
  { intros p (q & Hq & <-)%Hn. destruct (Hp q Hq) as [_ Hx]. destruct (parameters_ s !! name_ q); [right; eauto|by left]. }
  destruct (collect_undeclared (parameters_ s) ps') as [und|] eqn:Ec; [|done].
  apply collect_undeclared_spec in Ec as [-> Hdyn]. set (store := fun infos => modify (fun s => set_infos s infos)).
  destruct (__set_parameters_atomically_common ps' (parameters_ s) store true (allow_undeclared_ s) s) as [r1 s1] eqn:E1.
  destruct (set_common_spec _ _ _ _ He Hd E1) as [(Hc & Hu & Hr)|[Hx Hu]].
  2: { destruct r1 as [[res infos]|e].
       - rewrite (bind_ok _ _ _ _ _ E1). specialize (Hx _ eq_refl). cbn [fst] in Hx. rewrite Hx. cbn.
         by rewrite (undisturbed_infos _ _ Hu).
       - rewrite (bind_throw _ _ _ _ _ E1). cbn. by rewrite (undisturbed_infos _ _ Hu). }
  assert (Hg : good (parameters_ s) (parameters_ s1)).
  { rewrite (undisturbed_infos _ _ Hu). cbn. apply (good_assign _ _ (allow_undeclared_ s)); [done| |done].
    intros p (q & Hq & <-)%Hn. destruct (Hp q Hq) as [Hne Hx]. split; [done|]. by destruct (parameters_ s !! name_ q). }
  destruct r1 as [[res infos]|e]; [|by rewrite (bind_throw _ _ _ _ _ E1)].
  rewrite (bind_ok _ _ _ _ _ E1). destruct (successful res); cbn [negb]; [|done].
  assert (Hg2 : good (parameters_ s) (parameters_ (apply_staged staged s1).2)).
  { apply apply_staged_good; [done|]. intros n i. unfold staged. rewrite stage_lookup. case_bool_decide as En; [|done].
    destruct (last_value ps n) as [v|] eqn:Ev; [|done]. intros [= <-]. split; [done|].
    apply last_value_in in Ev as (p & Hq & <- & _). apply ok_implicit. by apply Hp. }
  destruct (apply_staged staged s1) as [[[]|e] s2] eqn:E2; [|by rewrite (bind_throw _ _ _ _ _ E2)].
  rewrite (bind_ok _ _ _ _ _ E2). set (und := filter (undeclares (parameters_ s)) ps').
  assert (Hg3 : good (parameters_ s) (parameters_ (erase_undeclared und s2).2)).
  { apply erase_undeclared_good; [done|]. intros p [Hu2 Hin]%list_elem_of_filter. pose proof Hu2 as [_ Hi].
    destruct (parameters_ s !! name_ p) as [i|] eqn:Ei; [|done]. exists i. split_and!; [done| |by apply (Hdyn p i)].
    destruct (Hn p Hin) as (q & Hq & Eq). destruct (Hp q Hq) as [_ Hx]. by rewrite Eq, Ei in Hx. }
  destruct (erase_undeclared und s2) as [[d|e] s3] eqn:E3; [|by rewrite (bind_throw _ _ _ _ _ E3)].
  rewrite (bind_ok _ _ _ _ _ E3), (bind_ok _ _ _ _ _ (publish_event_spec _ _ _ s3)). cbn.
  by destruct (has_events_publisher s3).
Qed.

Lemma set_parameters_atomically_good ps s :
  good (parameters_ s) (parameters_ (set_parameters_atomically ps s).2).
Proof.
  unfold set_parameters_atomically, with_guard. destruct (parameter_modification_enabled_ s); [|done]. set (s0 := set_enabled s false).
  pose proof (call_pre_calm ps s0 eq_refl) as H1. destruct (__call_pre_set_parameters_callbacks ps s0) as [[ps'|e] s1] eqn:E1.
  2: { rewrite (bind_throw _ _ _ _ _ E1). cbn in *. by rewrite (undisturbed_infos _ _ H1). }
  rewrite (bind_ok _ _ _ _ _ E1). cbn [snd] in H1.
  assert (Hback : good (parameters_ s) (parameters_ s1)) by (by rewrite (undisturbed_infos _ _ H1)).
  case_bool_decide as Hne; [done|]. rewrite get_bind. destruct (scan_parameters _ _ ps') as [l|res|e] eqn:Escan; [|done..].
  rewrite (bind_ok _ _ _ _ _ (stage_parameters_spec _ _ _ _ _)). cbn [successful success negb app]. fold (stage l).
  assert (He : parameter_modification_enabled_ s1 = false) by apply (undisturbed_enabled _ _ H1).
  pose proof (set_staged_good _ _ _ He Escan) as Hg.
  destruct (set_staged (stage l) (concat (map new_event l)) ps' s1) as [r s2]. cbn in *. by etrans.
Qed.

(** ** Declaration *)

(** The value a declaration starts from. *)
Definition initial_value (s : NodeParameters) (n : string) (default_value : ParameterValue) (ignore_override : bool) : ParameterValue :=
  if ignore_override then default_value else default default_value (parameter_overrides_ s !! n).

(** The entry a declaration makes. *)
Definition declared (n : string) (d : ParameterDescriptor) (v : ParameterValue) : ParameterInfo :=
  if is_set v then assigned n v (Some (mkInfo value_not_set d))
  else mkInfo value_not_set (set_descriptor_type (set_descriptor_name d n)
         (if dynamic_typing d then PARAMETER_NOT_SET else descriptor_type d)).

Lemma set_common_local p d s :
  let infos : Infos := {[name_ p := mkInfo value_not_set d]} in
  __set_parameters_atomically_common [p] infos (fun _ => mret tt) true false s =
  if successful (check_parameter d p) then
    (result ← __call_on_set_parameters_callbacks [p];
     if successful result then
       __call_post_set_parameters_callbacks [p];;
       mret (result, <[name_ p := assigned (name_ p) (value_ p) (Some (mkInfo value_not_set d))]> infos)
     else mret (result, infos)) s
  else (Ok (check_parameter d p, infos), s).
Proof.
  intros infos. unfold __set_parameters_atomically_common, __check_parameters. cbn [check_from].
  assert (Hl : infos !! name_ p = Some (mkInfo value_not_set d)) by apply lookup_singleton_eq.
  unfold at_or_new. rewrite Hl. cbn [descriptor fst snd]. destruct (successful (check_parameter d p)) eqn:Eck.
  - unfold mbind at 1, ST_bind at 1. cbn [mret ST_ret]. rewrite Eck. cbn [negb]. unfold mbind, ST_bind, mret, ST_ret.
    destruct (__call_on_set_parameters_callbacks [p] s) as [[res1|e] s1]; [|done].
    destruct (successful res1); cbn [negb]; [|done]. cbn [fold_left]. unfold assign_parameter, at_or_new. by rewrite Hl.
  - unfold mbind, ST_bind, mret, ST_ret. rewrite Eck. done.
Qed.

Lemma declare_common_spec n v d overrides (ignore : bool) s r s' :
  parameter_modification_enabled_ s = false -> n <> "" ->
  let w := if ignore then v else default v (overrides !! n) in
  __declare_parameter_common n v d overrides true ignore s = (r, s') ->
  undisturbed s s' /\
  (forall res i ev, r = Ok (res, Some i, ev) -> i = declared n d w /\ ev = new_event (mkParameter n w) /\ ok_info n i) /\
  (forall res ev, r = Ok (res, None, ev) -> successful res = false).
Proof.
  intros He Hn w. unfold __declare_parameter_common. fold w. unfold declared, new_event. cbn [value_].
  assert (Hs : is_set w = negb (get_type w =? PARAMETER_NOT_SET)) by done.
  destruct (get_type w =? PARAMETER_NOT_SET) eqn:Et; rewrite Hs; cbn [negb].
  { intros [= <- <-]. split_and!; [done| |done]. intros res i ev [= <- <- <-]. split_and!; [done|done|]. split_and!; [done|done| |apply range_not_set].
    cbn. destruct (dynamic_typing d); [by left|]. by right. }
  set (p := mkParameter n w). pose proof (set_common_local p d s) as Hc. cbv zeta in Hc. change (name_ p) with n in Hc.
  unfold mbind at 1, ST_bind at 1. rewrite Hc. clear Hc.
  destruct (successful (check_parameter d p)) eqn:Eck; [|rewrite Eck; intros [= <- <-]; split_and!; [done|done|by intros ? ? [= <- _]]].
  pose proof (call_on_calm [p] s He) as H1. unfold mbind, ST_bind, mret, ST_ret.
  destruct (__call_on_set_parameters_callbacks [p] s) as [[res1|e] s1] eqn:E1; [|intros [= <- <-]; split_and!; [exact H1|done|done]].
  cbn [snd] in H1. destruct (successful res1) eqn:Eres.
  2: { rewrite Eres. intros [= <- <-]. split_and!; [done|done|by intros ? ? [= <- _]]. }
  assert (He1 : parameter_modification_enabled_ s1 = false) by (rewrite <- He; apply (undisturbed_enabled _ _ H1)).
  pose proof (call_post_calm [p] s1 He1) as H2.
  destruct (__call_post_set_parameters_callbacks [p] s1) as [[[]|e] s2] eqn:E2; cbn [snd] in H2.
  2: { intros [= <- <-]. split_and!; [by etrans|done|done]. }
  rewrite Eres. cbn [negb]. rewrite lookup_insert_eq. intros [= <- <-]. split_and!; [by etrans| |done].
  intros res i ev [= <- <- <-]. split_and!; [done|done|]. split_and!; [done|done|by left|].
  apply check_parameter_ok in Eck as [_ Er]. cbn [assigned descriptor value default].
  change (successful (__check_parameter_value_in_range (set_descriptor_name d n) w) = true). by rewrite range_name.
Qed.

(** The descriptor a declaration stores. *)
Definition static_descriptor (type : ParameterType) (default_value : ParameterValue) (d : ParameterDescriptor) : ParameterDescriptor :=
  if dynamic_typing d then d
  else set_descriptor_type d (wrap_u 8 (if type =? PARAMETER_NOT_SET then get_type default_value else type)).

Lemma declare_helper_spec n type v d ignore s r s' :
  parameter_modification_enabled_ s = false ->
  declare_parameter_helper n type v d ignore s = (r, s') ->
  match r with
  | Ok w => parameters_ s !! n = None /\ n <> "" /\
      let i := declared n (static_descriptor type v d) (initial_value s n v ignore) in
      w = value i /\ ok_info n i /\ kept s s' /\ parameters_ s' = <[n := i]> (parameters_ s)
  | Throw e => undisturbed s s'
  end.
Proof.
  intros He. unfold declare_parameter_helper. destruct (String.eqb_spec n ""); [by intros [= <- <-]|].
  rewrite get_bind. case_bool_decide as Hn; [by intros [= <- <-]|]. apply eq_None_not_Some in Hn.
  destruct (negb (dynamic_typing d) && _); [by intros [= <- <-]|]. fold (static_descriptor type v d).
  destruct (__declare_parameter_common n v (static_descriptor type v d) (parameter_overrides_ s) true ignore s) as [r1 s1] eqn:E1.
  destruct (declare_common_spec _ _ _ _ _ _ _ _ He n0 E1) as (Hu & Hok & Hno).
  destruct r1 as [[[res info] ev]|e].
  2: { unfold mbind, ST_bind. rewrite E1. by intros [= <- <-]. }
  rewrite (bind_ok _ _ _ _ _ E1).
  assert (Hfail : ((if String.prefix type_error_msg_start (reason res) then throw (InvalidParameterType n (reason res))
    else throw (InvalidParameterValue ("parameter '" ++ n ++ "' could not be set: " ++ reason res))) : M ParameterValue) s1 = (r, s') ->
    match r with Ok w => False | Throw e => undisturbed s s' end) by (destruct (String.prefix _ _); by intros [= <- <-]).
  destruct (successful res) eqn:Eres; [|intros Hx%Hfail; by destruct r].
  destruct info as [i|]; [|by specialize (Hno _ _ eq_refl); congruence].
  destruct (Hok _ _ _ eq_refl) as (-> & -> & Hi). fold (initial_value s n v ignore) in *.
  rewrite (bind_ok (modify _) _ _ _ _ eq_refl), (bind_ok _ _ _ _ _ (publish_event_spec _ _ _ _)). intros [= <- <-].
  split_and!; [done|done|done|done| |].
  - cbn [has_events_publisher set_infos]. destruct Hu. destruct (has_events_publisher s1) eqn:Ep; split; cbn; congruence.
  - cbn [has_events_publisher set_infos]. rewrite <- (undisturbed_infos _ _ Hu). by destruct (has_events_publisher s1).
Qed.

(** ** Every sequence of calls *)

Inductive Call :=
| DeclareOne (n : string) (v : ParameterValue) (d : ParameterDescriptor) (ignore_override : bool)
| DeclareTyped (n : string) (t : ParameterType) (d : ParameterDescriptor) (ignore_override : bool)
| DeclareOverrides
| Undeclare (n : string)
| SetAtomically (ps : list Param)
| SetEach (ps : list Param)
| AddCallback (k : Kind)
| RemoveCallback (k : Kind) (what : string) (handle : option N)
| DropHandle (h : N).

(** Whether the call returns or throws, it leaves a state. *)
Definition run (c : Call) : M unit :=
  match c with
  | DeclareOne n v d i => declare_parameter n v d i;; mret tt
  | DeclareTyped n t d i => declare_parameter_typed n t d i;; mret tt
  | DeclareOverrides => local_perform_automatically_declare_parameters_from_overrides
  | Undeclare n => undeclare_parameter n
  | SetAtomically ps => set_parameters_atomically ps;; mret tt
  | SetEach ps => set_parameters ps;; mret tt
  | AddCallback k => add_callback k;; mret tt
  | RemoveCallback k what h => remove_callback k what h
  | DropHandle h => drop_handle h
  end.

Inductive reachable (s : NodeParameters) : NodeParameters -> Prop :=
| reachable_refl : reachable s s
| reachable_call c s' : reachable s s' -> reachable s (run c s').2.

Definition goodly (s s' : NodeParameters) : Prop := good (parameters_ s) (parameters_ s').

#[local] Instance goodly_preorder : PreOrder goodly.
Proof. split; [by intros s|]. intros x y z. unfold goodly. apply transitivity. Qed.

Lemma with_guard_good {A} (body : M A) :
  (forall s, parameter_modification_enabled_ s = false -> goodly s (body s).2) -> Keeps goodly (with_guard body).
Proof.
  intros Hb s. unfold with_guard. destruct (parameter_modification_enabled_ s); [|done].
  specialize (Hb (set_enabled s false) eq_refl). by destruct (body (set_enabled s false)).
Qed.

Lemma declare_helper_good n type v d ignore s :
  parameter_modification_enabled_ s = false -> goodly s (declare_parameter_helper n type v d ignore s).2.
Proof.
  intros He. destruct (declare_parameter_helper n type v d ignore s) as [r s'] eqn:E. apply declare_helper_spec in E; [|done].
  unfold goodly. cbn. destruct r as [w|e]; [|by rewrite (undisturbed_infos _ _ E)].
  destruct E as (Hn & _ & _ & Hi & _ & ->). by apply good_insert.
Qed.

Lemma declare_parameter_good n v d ignore : Keeps goodly (declare_parameter n v d ignore).
Proof. apply with_guard_good. intros s. apply declare_helper_good. Qed.

Lemma declare_typed_good n t d ignore : Keeps goodly (declare_parameter_typed n t d ignore).
Proof. apply with_guard_good. intros s He. destruct (t =? _), (dynamic_typing d); try done. by apply declare_helper_good. Qed.

Lemma undeclare_parameter_good n : Keeps goodly (undeclare_parameter n).
Proof.
  apply with_guard_good. intros s _. rewrite get_bind. destruct (parameters_ s !! n) as [i|] eqn:Ei; [|done].
  destruct (read_only (descriptor i)) eqn:Er; [done|]. destruct (dynamic_typing (descriptor i)) eqn:Ed; [|done].
  by apply (good_delete _ _ _ i).
Qed.

Lemma add_callback_good k : Keeps goodly (add_callback k).
Proof. apply with_guard_good. intros s _. by destruct k. Qed.

Lemma remove_callback_good k what h : Keeps goodly (remove_callback k what h).
Proof. apply with_guard_good. intros s _. rewrite get_bind. cbv zeta. case_match eqn:E. destruct l0 as [|x a]; [reflexivity|]. by destruct k. Qed.

Lemma set_parameters_good ps : Keeps goodly (set_parameters ps).
Proof.
  induction ps as [|p ps IH]; cbn [set_parameters]; keeps_steps. intros s. apply set_parameters_atomically_good.
Qed.

#[local] Hint Resolve declare_parameter_good declare_typed_good undeclare_parameter_good add_callback_good
  remove_callback_good set_parameters_good : keeps.

Lemma run_good c : Keeps goodly (run c).
Proof.
  destruct c; cbn [run]; keeps_steps; try (intros s; apply set_parameters_atomically_good).
  - unfold local_perform_automatically_declare_parameters_from_overrides. keeps_steps.
  - by intros s.
Qed.



(** whatever is called, a read-only parameter keeps its value and a
    statically typed one stays declared and keeps its type. *)
Theorem declared_for_good s s' : reachable s s' -> respects (parameters_ s) (parameters_ s').
Proof.
  induction 1 as [|c s' _ IH]; [done|]. etrans; [exact IH|]. apply (run_good c s').
Qed.

(** declaring a parameter stores its override, if there is one that may
    be used, or else its default value, under the given descriptor; the
    parameter must be new and fit.  A declaration that throws changes
    nothing. *)
Theorem declare_parameter_spec n v d ignore s :
  parameter_modification_enabled_ s = true ->
  let '(r, s') := declare_parameter n v d ignore s in
  match r with
  | Ok w => parameters_ s !! n = None /\ n <> "" /\
      let i := declared n (static_descriptor PARAMETER_NOT_SET v d) (initial_value s n v ignore) in
      w = value i /\ ok_info n i /\ kept s s' /\ parameters_ s' = <[n := i]> (parameters_ s)
  | Throw _ => undisturbed s s'
  end.
Proof.
  intros He. unfold declare_parameter, with_guard. rewrite He.
  destruct (declare_parameter_helper n PARAMETER_NOT_SET v d ignore (set_enabled s false)) as [r s1] eqn:E.
  apply declare_helper_spec in E; [|done]. destruct r as [w|e].
  - destruct E as (Hn & Hne & Hw & Hi & Hk & Hp). split_and!; try done. destruct Hk. by split.
  - destruct E. by split.
Qed.

(** ** The guard *)

(** while a call of the methods runs, so for every callback, each method
    that would change parameters or callbacks throws at once and changes
    nothing. *)
Theorem mutation_refused c s :
  parameter_modification_enabled_ s = false ->
  match c with
  | SetEach [] | DropHandle _ => True
  | DeclareOverrides => (run c s).2 = s
  | _ => run c s = (Throw ParameterModifiedInCallback, s)
  end.
Proof.
  intros He.
  assert (Hg : forall A (body : M A), with_guard body s = (Throw ParameterModifiedInCallback, s))
    by (intros A body; unfold with_guard; by rewrite He).
  destruct c as [n v d i|n t d i| |n|ps|[|p ps]|k|k what h|h]; cbn [run]; try done;
    try (erewrite bind_throw; [done|by apply Hg]); try by apply Hg.
  - unfold local_perform_automatically_declare_parameters_from_overrides. rewrite get_bind.
    generalize (in_order (parameter_overrides_ s)). intros l. induction l as [|[k v] l IH]; [done|]. cbn [for_each].
    unfold mbind at 1, ST_bind at 1. rewrite get_bind. cbn [fst snd]. destruct (has_parameter s k); [by apply IH|].
    pose proof (Hg _ (declare_parameter_helper k PARAMETER_NOT_SET v dynamic_descriptor true)) as Hk.
    unfold mbind, ST_bind, declare_parameter. by rewrite Hk.
  - erewrite bind_throw; [done|]. cbn [set_parameters]. erewrite bind_throw; [done|]. by apply Hg.
Qed.

End Laws.

(** ** A concrete run *)

Definition fixed : ParameterDescriptor := mkDescriptor "" PARAMETER_NOT_SET "" "" true false [] [mkIntegerRange 0 10 5].

Definition first_call : Call := DeclareOne "a" (value_int 5) fixed false.
Definition second_call : Call := SetAtomically [mkParameter "a" (value_int 10); mkParameter "b" (value_int 7)].

Definition after_first : NodeParameters := (run (CB := refuses_negative) first_call one_callback).2.
Definition after_second : NodeParameters := (run (CB := refuses_negative) second_call after_first).2.


Lemma declared_for_good_witness :
  exists i, parameters_ after_first !! "a" = Some i /\ parameters_ after_second !! "a" = Some i.
Proof.
  assert (Hr : reachable (CB := refuses_negative) after_first after_second) by (apply (reachable_call _ second_call), reachable_refl).
  pose proof (declared_for_good (CB := refuses_negative) _ _ Hr "a") as T.
  eexists. split; [vm_compute; reflexivity|]. apply T; vm_compute; reflexivity.
Defined.

Lemma declare_parameter_spec_witness :
  let w := declare_parameter (H := refuses_negative) "a" (value_int 5) fixed false one_callback in
  w.1 = Ok (value_int 5) /\ is_Some (parameters_ w.2 !! "a").
Proof.
  intros w. pose proof (declare_parameter_spec (CB := refuses_negative) "a" (value_int 5) fixed false one_callback eq_refl) as T. fold w in T.
  assert (E : w.1 = Ok (value_int 5)) by (vm_compute; reflexivity). split; [exact E|].
  destruct w as [r s']. cbn [fst] in E. subst r. destruct T as (_ & _ & _ & _ & _ & Hp). cbn [snd].
  exists (declared "a" (static_descriptor PARAMETER_NOT_SET (value_int 5) fixed) (initial_value one_callback "a" (value_int 5) false)).
  rewrite Hp. apply lookup_insert_eq.
Defined.

Lemma mutation_refused_witness :
  run (CB := refuses_negative) second_call (set_enabled one_callback false) =
  (Throw ParameterModifiedInCallback, set_enabled one_callback false).
Proof. apply (mutation_refused (CB := refuses_negative) second_call (set_enabled one_callback false)). reflexivity. Defined.
