(* ===== verification/NodeParametersAccept.v ===== *)
(** * When the parameter store accepts, and where it ends differently

    On a node without callbacks: the exact condition under which a list of
    parameters is set, and the calls that end in a failed assertion or in
    something else than documented. *)

From Stdlib Require Import ZArith Lia String Ascii.
From stdpp Require Import base numbers list gmap strings sorting.
From S2P Require Import Prelude Computation OrderedMap ParameterValue NodeParameters NodeParametersFacts NodeParametersSafety.
#[local] Open Scope string_scope.
#[local] Open Scope Z_scope.

(** What a node without callbacks accepts. *)
Definition acceptable (infos : Infos) (allow : bool) (p : Param) : Prop :=
  name_ p <> "" /\
  match infos !! name_ p with
  | Some i => read_only (descriptor i) = false /\ successful (check_parameter (descriptor i) p) = true /\
      (is_set (value_ p) = false -> is_set (value i) = true -> dynamic_typing (descriptor i) = true)
  | None => allow = true
  end.

Section Laws.
Context {CB : Callbacks} {LAW : CallbackLaw}.

(** ** Acceptance *)

Lemma scan_acceptable infos allow ps :
  (forall p, p ∈ ps -> acceptable infos allow p) ->
  scan_parameters infos allow ps = ToBeDeclared (filter (undeclared infos) ps).
Proof.
  induction ps as [|p ps IH]; intros Hp; [done|]. cbn [scan_parameters].
  destruct (Hp p) as [Hne Hi]; [by left|]. destruct (String.eqb_spec (name_ p) ""); [done|].
  destruct (infos !! name_ p) as [i|] eqn:Ei.
  - destruct Hi as [-> _]. rewrite filter_cons_False by (unfold undeclared; by rewrite Ei). apply IH. intros; apply Hp; by right.
  - rewrite Hi, filter_cons_True by done. rewrite Hi in IH. rewrite IH; [done|]. intros q Hq. rewrite <- Hi. apply Hp. by right.
Qed.

Lemma find_by_name ps p : NoDup (map name_ ps) -> p ∈ ps -> __find_parameter_by_name ps (name_ p) = Some p.
Proof.
  induction ps as [|q ps IH]; [by intros _ ?%elem_of_nil|]. cbn [map __find_parameter_by_name].
  intros [Hq Hnd]%NoDup_cons [->|Hp]%elem_of_cons; [by rewrite String.eqb_refl|].
  destruct (String.eqb_spec (name_ q) (name_ p)) as [E|]; [|by apply IH]. destruct Hq. rewrite E. by apply (list_elem_of_fmap_2 name_).
Qed.

Lemma replace_by_name_in ps p q :
  NoDup (map name_ ps) -> q ∈ replace_by_name ps p -> if bool_decide (name_ q = name_ p) then q = p else q ∈ ps.
Proof.
  induction ps as [|x ps IH]; [by intros _ ?%elem_of_nil|]. cbn [map replace_by_name]. intros [Hx Hnd]%NoDup_cons.
  destruct (String.eqb_spec (name_ x) (name_ p)) as [E|E]; intros [->|Hq]%elem_of_cons.
  - by rewrite bool_decide_true.
  - case_bool_decide as Eq; [|by right]. destruct Hx. rewrite E, <- Eq. by apply (list_elem_of_fmap_2 name_).
  - rewrite bool_decide_false by done. by left.
  - specialize (IH Hnd Hq). case_bool_decide; [done|]. by right.
Qed.

Lemma replace_all_in (l : list (string * ParameterInfo)) ps q :
  NoDup (map name_ ps) ->
  q ∈ fold_left (fun c kv => replace_by_name c (mkParameter kv.1 (value kv.2))) l ps ->
  (q ∈ ps /\ name_ q ∉ l.*1) \/ exists x, (name_ q, x) ∈ l /\ value_ q = value x.
Proof.
  revert ps. induction l as [|[k x] l IH]; intros ps Hnd Hq; [left; split; [done|by intros ?%elem_of_nil]|]. cbn [fold_left fst snd] in Hq.
  apply IH in Hq as [[Hq Hn]|(y & Hy & Ey)]; [| |by rewrite replace_by_name_names].
  - apply replace_by_name_in in Hq; [|done]. cbn [name_] in Hq. case_bool_decide as E.
    + right. exists x. rewrite Hq. split; [by left|done].
    + left. split; [done|]. by intros [|]%elem_of_cons.
  - right. exists y. split; [by right|done].
Qed.

(** The values that are set are those that were staged, as far as [==] can
    tell, and the others are not touched. *)
Lemma to_be_set_in staged ps q :
  NoDup (map name_ ps) -> (forall n x, staged !! n = Some x -> value_eqb (value x) (value x) = true) ->
  q ∈ parameters_to_be_set staged ps ->
  match staged !! name_ q with
  | Some x => value_eqb (value_ q) (value x) = true
  | None => q ∈ ps
  end.
Proof.
  intros Hnd Hrefl. unfold parameters_to_be_set. destruct (any_initial_values_used (in_order staged) ps) eqn:Ea.
  - intros [[Hq Hn]|(x & Hx%in_order_lookup & ->)]%replace_all_in; [| |done].
    + destruct (staged !! name_ q) as [x|] eqn:Ex; [|done]. destruct Hn. apply in_order_lookup in Ex.
      by apply (list_elem_of_fmap_2 fst) in Ex.
    + rewrite Hx. by eapply Hrefl.
  - intros Hq. destruct (staged !! name_ q) as [x|] eqn:Ex; [|done]. apply in_order_lookup, list_elem_of_In in Ex.
    destruct (value_eqb (value_ q) (value x)) eqn:Ev; [done|]. rewrite <- Ea. unfold any_initial_values_used. apply existsb_exists.
    exists (name_ q, x). split; [done|]. cbn [fst snd]. by rewrite find_by_name, Ev.
Qed.

Lemma in_last_value ps p : NoDup (map name_ ps) -> p ∈ ps -> last_value ps (name_ p) = Some (value_ p).
Proof.
  induction ps as [|q ps IH] using rev_ind; [by intros _ ?%elem_of_nil|]. rewrite map_app, last_value_snoc.
  intros (Hnd & Hq & _)%NoDup_app [Hp|Hp%list_elem_of_singleton]%elem_of_app; [|subst q; by rewrite bool_decide_true].
  rewrite bool_decide_false; [by apply IH|]. intros E. apply (Hq (name_ p)); [by apply (list_elem_of_fmap_2 name_)|]. rewrite <- E. by left.
Qed.

Lemma check_all_complete infos ps allow :
  (forall p, p ∈ ps -> match infos !! name_ p with Some i => successful (check_parameter (descriptor i) p) = true | None => allow = true end) ->
  successful (__check_parameters infos ps allow).1 = true.
Proof.
  unfold __check_parameters. assert (H : successful success = true) by done. revert H. generalize success.
  induction ps as [|q ps IH]; intros r Hr Hp; [done|]. cbn [check_from].
  assert (Hp' : forall p, p ∈ ps -> match infos !! name_ p with Some i => successful (check_parameter (descriptor i) p) = true | None => allow = true end)
    by (intros; apply Hp; by right).
  specialize (Hp q). unfold at_or_new. destruct (infos !! name_ q) as [i|].
  - specialize (Hp (list_elem_of_here _ _)). destruct allow; rewrite Hp; by apply IH.
  - rewrite (Hp (list_elem_of_here _ _)) in *. change (check_parameter dynamic_descriptor q) with success. by apply IH.
Qed.

Lemma collect_complete infos ps :
  (forall p i, p ∈ ps -> undeclares infos p -> infos !! name_ p = Some i -> dynamic_typing (descriptor i) = true) ->
  collect_undeclared infos ps = Some (filter (undeclares infos) ps).
Proof.
  induction ps as [|p ps IH]; intros Hp; [done|]. cbn [collect_undeclared].
  rewrite IH by (intros; eapply Hp; [by right|done|done]). clear IH. rewrite filter_cons.
  destruct (decide (undeclares infos p)) as [Hu|Hu].
  - pose proof Hu as [Hs Hi]. destruct (infos !! name_ p) as [i|] eqn:Ei; [|done].
    unfold Parameter_get_type. apply negb_false_iff in Hs. rewrite Hs. unfold is_set in Hi. rewrite Hi.
    by rewrite (Hp p i) by (done || by left).
  - unfold Parameter_get_type. destruct (get_type (value_ p) =? PARAMETER_NOT_SET) eqn:Et; [|done].
    destruct (infos !! name_ p) as [i|] eqn:Ei; [|done]. destruct (negb _) eqn:En; [|done]. destruct Hu.
    split; [unfold is_set; by rewrite Et|by rewrite Ei].
Qed.

Lemma apply_changes_complete l s :
  NoDup l.*1 -> (forall kv, kv ∈ l -> exists i, parameters_ s !! kv.1 = Some i /\ value_eqb (value i) (value kv.2) = true) ->
  (for_each apply_change l s).1 = Ok tt.
Proof.
  revert s. induction l as [|[k x] l IH]; intros s Hnd Hl; [done|]. apply NoDup_cons in Hnd as [Hk Hnd]. cbn [for_each].
  destruct (Hl (k, x)) as (i & Hi & Ev); [by left|]. cbn [fst snd] in Hi, Ev, Hk.
  assert (E : apply_change (k, x) s = (Ok tt, set_infos s (<[k := x]> (parameters_ s)))).
  { unfold apply_change. rewrite get_bind. cbn [fst snd]. by rewrite Hi, Ev. }
  rewrite (bind_ok _ _ _ _ _ E). apply IH; [done|]. intros [j y] Hj. cbn [parameters_ set_infos fst snd].
  rewrite lookup_insert_ne; [apply (Hl (j, y)); by right|]. intros ->. apply Hk. by apply (list_elem_of_fmap_2 fst) in Hj.
Qed.

Lemma apply_staged_complete staged s :
  (forall n x, staged !! n = Some x -> exists i, parameters_ s !! n = Some i /\ value_eqb (value i) (value x) = true) ->
  apply_staged staged s = (Ok tt, set_infos s (staged ∪ parameters_ s)).
Proof.
  intros Hst. pose proof (apply_changes_complete (in_order staged) s (in_order_nodup _)) as Hc. fold (apply_staged staged) in Hc.
  destruct (apply_staged staged s) as [r s'] eqn:E. cbn [fst] in Hc. apply apply_staged_spec in E as [->|[-> ->]]; [|done].
  discriminate Hc. intros [k x] Hx%in_order_lookup. by apply Hst.
Qed.

Lemma erase_complete l s :
  NoDup (map name_ l) -> (forall p, p ∈ l -> is_Some (parameters_ s !! name_ p)) -> is_ok (erase_undeclared l s).1 = true.
Proof.
  revert s. induction l as [|p l IH]; intros s Hnd Hl; [done|]. apply NoDup_cons in Hnd as [Hp Hnd]. cbn [erase_undeclared].
  rewrite get_bind. destruct (Hl p) as [i Hi]; [by left|]. rewrite Hi, (bind_ok (modify _) _ _ _ _ eq_refl).
  set (s1 := set_infos s (delete (name_ p) (parameters_ s))).
  assert (Ho : is_ok (erase_undeclared l s1).1 = true).
  { apply IH; [done|]. intros q Hq. cbn. rewrite lookup_delete_ne; [apply Hl; by right|].
    intros E. apply Hp. rewrite E. by apply (list_elem_of_fmap_2 name_). }
  unfold mbind, ST_bind. by destruct (erase_undeclared l s1) as [[d|e] s2].
Qed.

Lemma set_common_quiet ps s :
  container OnSet s = [] -> container PostSet s = [] ->
  (forall p, p ∈ ps -> allow_undeclared_ s = true \/ is_Some (parameters_ s !! name_ p)) ->
  successful (__check_parameters (parameters_ s) ps (allow_undeclared_ s)).1 = true ->
  __set_parameters_atomically_common ps (parameters_ s) (fun infos => modify (fun s => set_infos s infos)) true
    (allow_undeclared_ s) s =
  let infos := fold_left assign_parameter ps (parameters_ s) in (Ok (success, infos), set_infos s infos).
Proof.
  intros Hon Hpost Hd Hc. unfold __set_parameters_atomically_common.
  pose proof (check_parameters_infos _ _ _ Hd) as Hi. destruct (__check_parameters _ _ _) as [res0 infos0]. cbn [fst snd] in *. subst infos0.
  rewrite (bind_ok (modify _) _ _ _ _ eq_refl), Hc. cbn [negb].
  assert (E1 : forall s1, container OnSet s1 = [] -> __call_on_set_parameters_callbacks ps s1 = (Ok success, s1)).
  { intros s1 E. unfold __call_on_set_parameters_callbacks. rewrite get_bind. by rewrite E. }
  assert (E2 : forall s1, container PostSet s1 = [] -> __call_post_set_parameters_callbacks ps s1 = (Ok tt, s1)).
  { intros s1 E. unfold __call_post_set_parameters_callbacks. rewrite get_bind. by rewrite E. }
  rewrite (bind_ok _ _ _ _ _ (E1 (set_infos s (parameters_ s)) Hon)). cbn [successful success negb].
  rewrite (bind_ok (modify _) _ _ _ _ eq_refl). by rewrite (bind_ok _ _ _ _ _ (E2 (set_infos (set_infos s (parameters_ s)) _) Hpost)).
Qed.

Lemma set_staged_complete ps s :
  container OnSet s = [] -> container PostSet s = [] -> NoDup (map name_ ps) ->
  (forall p, p ∈ ps -> value_eqb (value_ p) (value_ p) = true) ->
  (forall p, p ∈ ps -> acceptable (parameters_ s) (allow_undeclared_ s) p) ->
  let l := filter (undeclared (parameters_ s)) ps in
  (set_staged (stage l) (concat (map new_event l)) ps s).1 = Ok success.
Proof.
  intros Hon Hpost Hnd Hrefl Hp l. unfold set_staged. rewrite get_bind. set (staged := stage l). set (ps' := parameters_to_be_set staged ps).
  assert (Hst : forall n, staged !! n = if bool_decide (parameters_ s !! n = None) then implicit n <$> last_value ps n else None) by (intros n; apply stage_lookup).
  assert (Hin : forall q, q ∈ ps' -> match staged !! name_ q with Some x => value_eqb (value_ q) (value x) = true | None => q ∈ ps end).
  { intros q. apply to_be_set_in; [done|]. intros n x. rewrite Hst. case_bool_decide; [|done].
    destruct (last_value ps n) as [v|] eqn:Ev; [|done]. intros [= <-]. apply last_value_in in Ev as (p & Hq & _ & <-).
    unfold implicit. cbn. destruct (is_set (value_ p)); [by apply Hrefl|done]. }
  assert (Hdecl : forall q i, q ∈ ps' -> parameters_ s !! name_ q = Some i -> q ∈ ps).
  { intros q i Hq Hi. specialize (Hin q Hq). rewrite Hst, Hi in Hin. by rewrite bool_decide_false in Hin. }
  assert (Hnd' : NoDup (map name_ ps')) by (unfold ps'; by rewrite to_be_set_names).
  assert (Hallow : forall q, q ∈ ps' -> parameters_ s !! name_ q = None -> allow_undeclared_ s = true).
  { intros q Hq%(list_elem_of_fmap_2 name_). change (name_ q ∈ map name_ ps') in Hq. unfold ps' in Hq. rewrite to_be_set_names in Hq.
    apply list_elem_of_fmap in Hq as (p & E & Hq). intros Hn. destruct (Hp p Hq) as [_ Hx]. by rewrite <- E, Hn in Hx. }
  assert (Hd : forall q, q ∈ ps' -> allow_undeclared_ s = true \/ is_Some (parameters_ s !! name_ q)).
  { intros q Hq. destruct (parameters_ s !! name_ q) eqn:E; [right; eauto|left; by eapply Hallow]. }
  assert (Hc : successful (__check_parameters (parameters_ s) ps' (allow_undeclared_ s)).1 = true).
  { apply check_all_complete. intros q Hq. destruct (parameters_ s !! name_ q) as [i|] eqn:E; [|by eapply Hallow].
    destruct (Hp q) as [_ Hx]; [by eapply Hdecl|]. rewrite E in Hx. apply Hx. }
  rewrite collect_complete.
  2: { intros q i Hq [Hs Hi] E. destruct (Hp q) as [_ Hx]; [by eapply Hdecl|]. rewrite E in Hx, Hi. by apply Hx. }
  rewrite (bind_ok _ _ _ _ _ (set_common_quiet ps' s Hon Hpost Hd Hc)). cbn [successful success negb].
  set (s1 := set_infos s _).
  assert (Hass : forall n x, staged !! n = Some x -> exists i, parameters_ s1 !! n = Some i /\ value_eqb (value i) (value x) = true).
  { intros n x Hx. pose proof Hx as Hx'. rewrite Hst in Hx'. case_bool_decide as En; [|done].
    destruct (last_value ps n) as [v|] eqn:Ev; [|done]. apply last_value_in in Ev as (p & Hq & <- & _).
    apply (list_elem_of_fmap_2 name_) in Hq. change (name_ p ∈ map name_ ps) in Hq.
    rewrite <- (to_be_set_names staged) in Hq. fold ps' in Hq. apply list_elem_of_fmap in Hq as (q & E & Hq).
    rewrite E in *. exists (assigned (name_ q) (value_ q) None). unfold s1. cbn [parameters_ set_infos].
    rewrite assign_all_lookup, (in_last_value ps' q), En by done. split; [done|]. specialize (Hin q Hq). by rewrite Hx in Hin. }
  rewrite (bind_ok _ _ _ _ _ (apply_staged_complete staged s1 Hass)).
  set (s2 := set_infos s1 _). set (und := filter _ ps').
  assert (Ho : is_ok (erase_undeclared und s2).1 = true).
  { apply erase_complete.
    - by apply filter_names_nodup.
    - intros q [[_ Hi] Hq]%list_elem_of_filter. destruct (parameters_ s !! name_ q) as [i|] eqn:E; [|done].
      unfold s2, s1. cbn [parameters_ set_infos]. rewrite lookup_union, assign_all_lookup, (in_last_value ps' q) by done.
      destruct (staged !! name_ q); eauto. }
  unfold mbind at 1, ST_bind at 1. destruct (erase_undeclared und s2) as [[d|e] s3]; [|done].
  by rewrite (bind_ok _ _ _ _ _ (publish_event_spec _ _ _ s3)).
Qed.

Lemma set_staged_sound ps l s res :
  parameter_modification_enabled_ s = false ->
  scan_parameters (parameters_ s) (allow_undeclared_ s) ps = ToBeDeclared l ->
  (set_staged (stage l) (concat (map new_event l)) ps s).1 = Ok res -> successful res = true ->
  forall p, p ∈ ps -> acceptable (parameters_ s) (allow_undeclared_ s) p.
Proof.
  intros He [-> Hp]%scan_to_be_declared Hres Hs p Hin. destruct (Hp p Hin) as [Hne Hi]. split; [done|].
  destruct (parameters_ s !! name_ p) as [i|] eqn:Ei; [|done]. split; [done|].
  revert Hres. unfold set_staged. rewrite get_bind. set (staged := stage _). set (ps' := parameters_to_be_set staged ps).
  assert (Hin' : p ∈ ps').
  { assert (Hf : p ∈ filter (fun q => name_ q = name_ p) ps) by by apply list_elem_of_filter.
    rewrite <- (to_be_set_other staged) in Hf; [by apply list_elem_of_filter in Hf as [_ ?]|].
    unfold staged. rewrite stage_lookup. by rewrite Ei, bool_decide_false. }
  assert (Hd : forall q, q ∈ ps' -> allow_undeclared_ s = true \/ is_Some (parameters_ s !! name_ q)).
  { intros q Hq%(list_elem_of_fmap_2 name_). change (name_ q ∈ map name_ ps') in Hq. unfold ps' in Hq. rewrite to_be_set_names in Hq.
    apply list_elem_of_fmap in Hq as (x & -> & Hq). destruct (Hp x Hq) as [_ Hx]. destruct (parameters_ s !! name_ x); [right; eauto|by left]. }
  destruct (collect_undeclared (parameters_ s) ps') as [und|] eqn:Ec; [|intros [= <-]; done].
  apply collect_undeclared_spec in Ec as [-> Hdyn]. set (store := fun infos => modify (fun s => set_infos s infos)).
  destruct (__set_parameters_atomically_common ps' (parameters_ s) store true (allow_undeclared_ s) s) as [r1 s1] eqn:E1.
  destruct (set_common_spec _ _ _ _ He Hd E1) as [(Hc & _)|[Hx _]].
  - intros _. split.
    + pose proof (check_all_ok _ _ _ _ Hd Hc Hin') as Hk. by rewrite Ei in Hk.
    + intros Hns Hset. apply (Hdyn p i); [done| |done]. split; [done|by rewrite Ei].
  - destruct r1 as [[res1 infos]|e]; [|by rewrite (bind_throw _ _ _ _ _ E1)]. specialize (Hx _ eq_refl). cbn [fst] in Hx.
    rewrite (bind_ok _ _ _ _ _ E1), Hx. cbn. intros [= <-]. congruence.
Qed.

(** C33: on a node without callbacks a list of parameters with different
    names is set exactly when each of them is acceptable: its name is not
    empty; it is declared, not read-only, of the right type, in range and not
    undeclared against its static type, or undeclared parameters are allowed.
    In particular no assertion fails; only NaN, which does not equal itself,
    has to be left out. *)
Theorem set_parameters_atomically_accepts ps s :
  parameter_modification_enabled_ s = true -> (forall k, container k s = []) -> ps <> [] ->
  NoDup (map name_ ps) -> (forall p, p ∈ ps -> value_eqb (value_ p) (value_ p) = true) ->
  (exists res, (set_parameters_atomically ps s).1 = Ok res /\ successful res = true) <->
  (forall p, p ∈ ps -> acceptable (parameters_ s) (allow_undeclared_ s) p).
Proof.
  intros He Hcont Hne Hnd Hrefl. unfold set_parameters_atomically, with_guard. rewrite He. set (s0 := set_enabled s false).
  assert (Epre : __call_pre_set_parameters_callbacks ps s0 = (Ok ps, s0)).
  { unfold __call_pre_set_parameters_callbacks. rewrite get_bind. change (container PreSet s0) with (container PreSet s). by rewrite Hcont. }
  rewrite (bind_ok _ _ _ _ _ Epre), bool_decide_false by done. rewrite get_bind.
  change (parameters_ s) with (parameters_ s0). change (allow_undeclared_ s) with (allow_undeclared_ s0).
  destruct (scan_parameters (parameters_ s0) (allow_undeclared_ s0) ps) as [l|res|e] eqn:Escan.
  - rewrite (bind_ok _ _ _ _ _ (stage_parameters_spec _ _ _ _ _)). cbn [successful success negb app]. fold (stage l). split.
    + intros (res & Hres & Hs). eapply set_staged_sound; [done|done| |done].
      by destruct (set_staged (stage l) (concat (map new_event l)) ps s0).
    + intros Hp. pose proof (scan_acceptable _ _ _ Hp) as E. rewrite Escan in E. injection E as ->.
      pose proof (set_staged_complete ps s0 (Hcont OnSet) (Hcont PostSet) Hnd Hrefl Hp) as Hc. cbv zeta in Hc.
      exists success. split; [|done]. by destruct (set_staged _ _ ps s0).
  - split; [|intros Hp%scan_acceptable; congruence]. intros (res' & [= <-] & Hs). exfalso. clear -Escan Hs.
    induction ps as [|p ps IH]; [done|]. cbn [scan_parameters] in Escan. repeat case_match; simplify_eq; auto.
  - split; [by intros (? & ? & _)|]. intros Hp%scan_acceptable. congruence.
Qed.

(** ** Where it ends differently *)

(** A list of declared parameters on a node without callbacks. *)
Lemma set_declared ps s :
  parameter_modification_enabled_ s = true -> (forall k, container k s = []) -> ps <> [] ->
  (forall p, p ∈ ps -> acceptable (parameters_ s) (allow_undeclared_ s) p /\ is_Some (parameters_ s !! name_ p)) ->
  set_parameters_atomically ps s =
  with_guard (
    modify (fun s0 => set_infos s0 (fold_left assign_parameter ps (parameters_ s)));;
    let und := filter (undeclares (parameters_ s)) ps in
    deleted ← erase_undeclared und;
    publish_event [] (changed_only ∅ und ps) deleted;;
    mret success) s.
Proof.
  intros He Hcont Hne Hp. unfold set_parameters_atomically, with_guard. rewrite He. set (s0 := set_enabled s false).
  assert (Epre : __call_pre_set_parameters_callbacks ps s0 = (Ok ps, s0)).
  { unfold __call_pre_set_parameters_callbacks. rewrite get_bind. change (container PreSet s0) with (container PreSet s). by rewrite Hcont. }
  rewrite (bind_ok _ _ _ _ _ Epre), bool_decide_false by done. rewrite get_bind.
  change (parameters_ s) with (parameters_ s0) in *. change (allow_undeclared_ s) with (allow_undeclared_ s0) in *.
  rewrite scan_acceptable by (intros; by apply Hp).
  assert (Hund : filter (undeclared (parameters_ s0)) ps = []).
  { apply filter_none. apply Forall_forall. intros p Hin Hu. destruct (Hp p Hin) as [_ [i Hi]]. unfold undeclared in Hu. congruence. }
  rewrite Hund. rewrite (bind_ok _ _ _ _ _ (stage_parameters_spec _ _ _ _ _)). cbn [fold_left map concat app successful success negb].
  unfold set_staged. rewrite get_bind. change (parameters_to_be_set ∅ ps) with ps.
  rewrite collect_complete.
  2: { intros p i Hin [Hs Hi] E. destruct (Hp p Hin) as [[_ Hx] _]. rewrite E in Hx, Hi. by apply Hx. }
  assert (Hd : forall p, p ∈ ps -> allow_undeclared_ s0 = true \/ is_Some (parameters_ s0 !! name_ p)) by (intros; right; by apply Hp).
  assert (Hc : successful (__check_parameters (parameters_ s0) ps (allow_undeclared_ s0)).1 = true).
  { apply check_all_complete. intros p Hin. destruct (Hp p Hin) as [[_ Hx] [i Hi]]. rewrite Hi in *. apply Hx. }
  by rewrite (bind_ok _ _ _ _ _ (set_common_quiet ps s0 (Hcont OnSet) (Hcont PostSet) Hd Hc)).
Qed.

Lemma erase_found p l s i :
  parameters_ s !! name_ p = Some i ->
  erase_undeclared (p :: l) s =
  (deleted ← erase_undeclared l; mret (to_parameter_msg (mkParameter (name_ p) (value i)) :: deleted))
    (set_infos s (delete (name_ p) (parameters_ s))).
Proof. intros Hi. cbn [erase_undeclared]. rewrite get_bind, Hi. by rewrite (bind_ok (modify _) _ _ _ _ eq_refl). Qed.

Lemma erase_absent p l s : parameters_ s !! name_ p = None -> erase_undeclared (p :: l) s = (Throw AssertionFailed, s).
Proof. intros Hi. cbn [erase_undeclared]. by rewrite get_bind, Hi. Qed.

(** of several values for one name the last one should count.  It does
    not when one of the values is missing: then the parameter is undeclared,
    whatever follows, and when two are missing the method runs into an
    assertion. *)
Theorem missing_value_wins n u v w i s :
  parameter_modification_enabled_ s = true -> (forall k, container k s = []) -> n <> "" ->
  parameters_ s !! n = Some i -> dynamic_typing (descriptor i) = true -> read_only (descriptor i) = false ->
  is_set (value i) = true -> is_set u = false -> is_set w = false ->
  successful (__check_parameter_value_in_range (descriptor i) v) = true -> is_set v = true ->
  (let '(r, s') := set_parameters_atomically [mkParameter n u; mkParameter n v] s in
   r = Ok success /\ parameters_ s' !! n = None) /\
  (set_parameters_atomically [mkParameter n u; mkParameter n w] s).1 = Throw AssertionFailed.
Proof.
  intros He Hcont Hn Hi Hdyn Hro Hset Hu Hw Hr Hv.
  assert (Hnone : forall x, is_set x = false -> successful (__check_parameter_value_in_range (descriptor i) x) = true).
  { intros x Hx%negb_false_iff%Z.eqb_eq. unfold __check_parameter_value_in_range. rewrite Hx. cbn.
    by destruct (integer_range (descriptor i)), (floating_point_range (descriptor i)). }
  assert (Hacc : forall x, successful (__check_parameter_value_in_range (descriptor i) x) = true ->
    acceptable (parameters_ s) (allow_undeclared_ s) (mkParameter n x) /\ is_Some (parameters_ s !! n)).
  { intros x Hx. split; [|eauto]. split; [done|]. cbn [name_]. rewrite Hi. split_and!; [done| |done].
    unfold check_parameter. destruct (String.eqb _ _); cbn [dynamic_typing set_descriptor_name]; rewrite Hdyn; cbn; by rewrite ?range_name. }
  assert (Hund : forall x, is_set x = false -> undeclares (parameters_ s) (mkParameter n x)) by (intros x Hx; split; cbn; [done|by rewrite Hi]).
  assert (Hnot : ~ undeclares (parameters_ s) (mkParameter n v)) by (intros [Hx _]; cbn in Hx; congruence).
  assert (Hstep : forall x m, assign_parameter m (mkParameter n x) !! n = Some (assigned n x (m !! n))) by (intros; by rewrite assign_lookup, bool_decide_true).
  split.
  - rewrite set_declared; try done.
    2: { intros p [->|[->|[]%elem_of_nil]%elem_of_cons]%elem_of_cons; apply Hacc; auto. }
    rewrite filter_cons_True, filter_cons_False, filter_nil by auto. cbn [fold_left]. cbv zeta.
    set (m := assign_parameter _ _). assert (Hm : exists j, m !! n = Some j) by (unfold m; rewrite Hstep; eauto). destruct Hm as [j Hm].
    unfold with_guard. rewrite He, (bind_ok (modify _) _ _ _ _ eq_refl).
    rewrite (bind_ok _ _ _ _ _ (erase_found (mkParameter n u) [] (set_infos (set_enabled s false) m) j Hm)).
    rewrite (bind_ok _ _ _ _ _ (publish_event_spec _ _ _ _)). split; [done|]. cbn.
    destruct (has_events_publisher s); cbn; apply lookup_delete_eq.
  - rewrite set_declared; try done.
    2: { intros p [->|[->|[]%elem_of_nil]%elem_of_cons]%elem_of_cons; apply Hacc; auto. }
    rewrite !filter_cons_True, filter_nil by auto. cbn [fold_left]. cbv zeta.
    set (m := assign_parameter _ _). assert (Hm : exists j, m !! n = Some j) by (unfold m; rewrite Hstep; eauto). destruct Hm as [j Hm].
    unfold with_guard. rewrite He, (bind_ok (modify _) _ _ _ _ eq_refl).
    rewrite (bind_throw (erase_undeclared _) _ _ (set_infos (set_enabled s false) (delete n m)) AssertionFailed); [done|].
    rewrite (erase_found (mkParameter n u) _ (set_infos (set_enabled s false) m) j Hm). apply bind_throw, erase_absent. apply lookup_delete_eq.
Qed.

Lemma in_order_singleton {A} n (x : A) : in_order {[n := x]} = [(n, x)].
Proof. unfold in_order. by rewrite map_to_list_singleton. Qed.

(** a parameter that is declared by setting it to a value with a NaN in
    it, which [==] does not find equal to itself, runs into an assertion,
    after the store was changed: the parameter is then there, statically
    typed, and no event was published. *)
Theorem implicit_nan_aborts n v s :
  parameter_modification_enabled_ s = true -> (forall k, container k s = []) -> n <> "" ->
  parameters_ s !! n = None -> allow_undeclared_ s = true -> is_set v = true -> value_eqb v v = false ->
  let '(r, s') := set_parameters_atomically [mkParameter n v] s in
  r = Throw AssertionFailed /\ parameters_ s' = <[n := assigned n v None]> (parameters_ s) /\ published s' = published s.
Proof.
  intros He Hcont Hn Hi Ha Hv Hnan. unfold set_parameters_atomically, with_guard. rewrite He. set (s0 := set_enabled s false).
  set (p := mkParameter n v).
  assert (Epre : __call_pre_set_parameters_callbacks [p] s0 = (Ok [p], s0)).
  { unfold __call_pre_set_parameters_callbacks. rewrite get_bind. change (container PreSet s0) with (container PreSet s). by rewrite Hcont. }
  rewrite (bind_ok _ _ _ _ _ Epre), bool_decide_false by done. rewrite get_bind.
  rewrite scan_acceptable.
  2: { intros q ->%list_elem_of_singleton. split; [done|]. cbn. by rewrite Hi. }
  rewrite filter_cons_True, filter_nil by done.
  rewrite (bind_ok _ _ _ _ _ (stage_parameters_spec _ _ _ _ _)). cbn [successful success negb app fold_left].
  change (name_ p) with n. change (value_ p) with v. rewrite insert_empty. unfold set_staged. rewrite get_bind.
  assert (Eset : parameters_to_be_set {[n := implicit n v]} [p] = [p]).
  { unfold parameters_to_be_set. rewrite in_order_singleton. destruct (any_initial_values_used _ _); [|done].
    cbn. rewrite String.eqb_refl. unfold implicit. cbn. by rewrite Hv. }
  rewrite Eset. cbn [collect_undeclared]. change (Parameter_get_type p) with (get_type v).
  pose proof Hv as Hv'. apply negb_true_iff in Hv'. rewrite Hv'.
  assert (Hd : forall q, q ∈ [p] -> allow_undeclared_ s0 = true \/ is_Some (parameters_ s0 !! name_ q)) by (intros; by left).
  assert (Hc : successful (__check_parameters (parameters_ s0) [p] (allow_undeclared_ s0)).1 = true).
  { apply check_all_complete. intros q ->%list_elem_of_singleton. cbn. by rewrite Hi. }
  rewrite (bind_ok _ _ _ _ _ (set_common_quiet [p] s0 (Hcont OnSet) (Hcont PostSet) Hd Hc)). cbn [successful success negb fold_left].
  assert (Em : assign_parameter (parameters_ s0) p = <[n := assigned n v None]> (parameters_ s)).
  { unfold assign_parameter, at_or_new, assigned. cbn. rewrite Hi. cbn. by rewrite insert_insert_eq. }
  rewrite Em. set (s1 := set_infos s0 _). unfold apply_staged. rewrite in_order_singleton. cbn [for_each].
  rewrite (bind_throw _ _ s1 s1 AssertionFailed); [done|]. apply bind_throw. unfold apply_change. rewrite get_bind. cbn.
  rewrite lookup_insert_eq. unfold implicit, assigned. cbn. by rewrite Hv, Hnan.
Qed.

(** a post-set callback that reads the parameter it is told about finds
    it when the parameter is set, but not when it is declared: there the
    callback runs before the parameter is stored, and the declaration fails
    when the callback does. *)
Theorem declaration_is_announced_early n v d ignore h s :
  parameter_modification_enabled_ s = true -> allow_undeclared_ s = false -> n <> "" -> parameters_ s !! n = None ->
  container OnSet s = [] -> container PostSet s = [h] -> h ∈ handles s ->
  (forall ps s, post_set_callback h ps s =
     ((let! _ := get_parameters s (map name_ ps) in Ok tt), s)) ->
  let w := initial_value s n v ignore in
  is_set w = true -> is_set v = true ->
  successful (check_parameter (static_descriptor PARAMETER_NOT_SET v d) (mkParameter n w)) = true ->
  (declare_parameter n v d ignore s).1 = Throw (ParameterNotDeclared n).
Proof.
  intros He Ha Hne Hn Hon Hpost Hh Hcb w Hw Hv Hc. unfold declare_parameter, with_guard. rewrite He. set (s0 := set_enabled s false).
  unfold declare_parameter_helper. destruct (String.eqb_spec n ""); [done|]. rewrite get_bind. change (parameters_ s0) with (parameters_ s).
  rewrite Hn, bool_decide_false by (by intros []). cbn [negb].
  change (if PARAMETER_NOT_SET =? PARAMETER_NOT_SET then get_type v else PARAMETER_NOT_SET) with (get_type v).
  pose proof Hv as Hv'. apply negb_true_iff in Hv'. rewrite Hv', andb_false_r.
  change (if dynamic_typing d then d else set_descriptor_type d (wrap_u 8 (get_type v))) with (static_descriptor PARAMETER_NOT_SET v d).
  set (d' := static_descriptor PARAMETER_NOT_SET v d) in *.
  rewrite (bind_throw _ _ s0 s0 (ParameterNotDeclared n)); [done|]. unfold __declare_parameter_common.
  change (if ignore then v else default v (parameter_overrides_ s0 !! n)) with w.
  pose proof Hw as Hw'. apply negb_true_iff in Hw'. rewrite Hw'. apply bind_throw.
  pose proof (set_common_local (mkParameter n w) d' s0) as Hcl. cbv zeta in Hcl. change (name_ (mkParameter n w)) with n in Hcl.
  rewrite Hcl, Hc.
  assert (E1 : __call_on_set_parameters_callbacks [mkParameter n w] s0 = (Ok success, s0)).
  { unfold __call_on_set_parameters_callbacks. rewrite get_bind. change (container OnSet s0) with (container OnSet s). by rewrite Hon. }
  rewrite (bind_ok _ _ _ _ _ E1). cbn [successful success]. apply bind_throw.
  unfold __call_post_set_parameters_callbacks. rewrite get_bind. change (container PostSet s0) with (container PostSet s).
  rewrite Hpost. cbn [call_handles]. rewrite get_bind, bool_decide_true by done. apply bind_throw. rewrite Hcb. cbn.
  unfold get_parameter. change (parameters_ s0) with (parameters_ s).
  change (allow_undeclared_ s0) with (allow_undeclared_ s). by rewrite Hn, Ha.
Qed.

End Laws.

(** ** Concrete inputs *)

Definition quiet_node : NodeParameters :=
  set_infos (new_node_parameters "/n" ∅ true true) {["a" := implicit "a" (value_int 5)]}.

Lemma quiet_node_containers k : container k quiet_node = [].
Proof. by destruct k. Qed.

Definition a_nan : ParameterValue := value_double SpecFloat.S754_nan.

Lemma set_parameters_atomically_accepts_witness :
  let ps := [mkParameter "a" (value_int 6); mkParameter "b" (value_int 7)] in
  exists res, (set_parameters_atomically (H := refuses_negative) ps quiet_node).1 = Ok res /\ successful res = true.
Proof.
  intros ps.
  assert (Hnd : NoDup (map name_ ps)) by (apply (bool_decide_unpack _); vm_compute; exact I).
  assert (Hrefl : forall p, p ∈ ps -> value_eqb (value_ p) (value_ p) = true).
  { intros p [->|Hp]%elem_of_cons; [reflexivity|]. apply list_elem_of_singleton in Hp as ->. reflexivity. }
  apply (set_parameters_atomically_accepts (CB := refuses_negative) ps quiet_node eq_refl quiet_node_containers); [discriminate|exact Hnd|exact Hrefl|].
  intros p [->|Hp]%elem_of_cons.
  - split; [discriminate|]. vm_compute. split; [reflexivity|]. split; [reflexivity|]. intros _ _. reflexivity.
  - apply list_elem_of_singleton in Hp as ->. split; [discriminate|]. vm_compute. reflexivity.
Defined.

Lemma missing_value_wins_witness :
  let r := set_parameters_atomically (H := refuses_negative) [mkParameter "a" value_not_set; mkParameter "a" (value_int 6)] quiet_node in
  r.1 = Ok success /\ parameters_ r.2 !! "a" = None.
Proof.
  intros r.
  pose proof (missing_value_wins (CB := refuses_negative) "a" value_not_set (value_int 6) value_not_set (implicit "a" (value_int 5)) quiet_node
    eq_refl quiet_node_containers ltac:(discriminate) eq_refl eq_refl eq_refl eq_refl eq_refl eq_refl eq_refl eq_refl) as [T _].
  fold r in T. destruct r as [x y]. exact T.
Defined.

Lemma implicit_nan_aborts_witness :
  (set_parameters_atomically (H := refuses_negative) [mkParameter "b" a_nan] quiet_node).1 = Throw AssertionFailed.
Proof.
  pose proof (implicit_nan_aborts (CB := refuses_negative) "b" a_nan quiet_node eq_refl quiet_node_containers ltac:(discriminate)
    eq_refl eq_refl eq_refl eq_refl) as T.
  destruct (set_parameters_atomically _ _) as [r s']. apply T.
Defined.

(** A post-set callback that reads what was set. *)
Definition reads_back : Callbacks := {|
  pre_set_callback h ps := mret ps;
  on_set_callback h ps := mret success;
  post_set_callback h ps := fun s => ((let! _ := get_parameters s (map name_ ps) in Ok tt), s);
|}.

#[local] Instance reads_back_law : CallbackLaw (H := reads_back).
Proof. split; intros h ps s _; done. Qed.

Lemma declaration_is_announced_early_witness :
  let s := mkNodeParameters true [] [] [1%N] ∅ ∅ false true [] "/n" 0 {[1%N]} in
  (declare_parameter (H := reads_back) "a" (value_int 5) default_descriptor false s).1 = Throw (ParameterNotDeclared "a").
Proof.
  intros s.
  assert (Hh : 1%N ∈ handles s) by (apply (bool_decide_unpack _); vm_compute; exact I).
  apply (declaration_is_announced_early (CB := reads_back) "a" (value_int 5) default_descriptor false 1%N s eq_refl eq_refl
    ltac:(discriminate) eq_refl eq_refl eq_refl Hh); [intros; reflexivity|reflexivity|reflexivity|vm_compute; reflexivity].
Defined.
