(* ===== verification/ParameterQueries.v ===== *)
(** * What the parameter store answers

    Theorems about the queries of [NodeParameters]: the listing of names by
    prefix and depth, and the agreement of the queries with each other and
    with what was set. *)

From Stdlib Require Import ZArith Lia String Ascii.
From stdpp Require Import base numbers list gmap strings sorting.
From S2P Require Import Prelude Computation OrderedMap ParameterValue NodeParameters.
#[local] Open Scope string_scope.
#[local] Open Scope Z_scope.
#[local] Arguments String.append !s1 s2 : simpl nomatch.

(** ** Definitions of the statements *)

(** [name] lies at most [depth] levels below [prefix]; depth 0 is no limit. *)
Definition within (depth : Z) (prefix name : string) : Prop :=
  name = prefix \/
  exists rest, name = prefix ++ String separator rest /\ (depth = DEPTH_RECURSIVE \/ count_separators rest < depth).

Definition listed (prefixes : list string) (depth : Z) (name : string) : Prop :=
  (prefixes = [] /\ (depth = DEPTH_RECURSIVE \/ count_separators name < depth)) \/
  exists prefix, prefix ∈ prefixes /\ within depth prefix name.

(** [prefix] is [name] without its last part. *)
Definition parent (prefix name : string) : Prop :=
  exists last_part, name = prefix ++ String separator last_part /\ count_separators last_part = 0.

(** ** Strings *)

Lemma append_assoc a b c : (a ++ b) ++ c = a ++ (b ++ c).
Proof. induction a as [|x a IH]; [done|]. simpl. by rewrite IH. Qed.

Lemma append_nil_r a : a ++ "" = a.
Proof. induction a as [|x a IH]; [done|]. simpl. by rewrite IH. Qed.

Lemma prefix_spec p s : String.prefix p s = true <-> exists t, s = p ++ t.
Proof.
  revert s. induction p as [|x p IH]; intros [|y s]; simpl.
  - split; [by exists ""|done].
  - split; [by exists (String y s)|done].
  - split; [done|by intros [t ?]].
  - destruct (ascii_dec x y) as [->|Hne]; [rewrite IH|]; split.
    + intros [t ->]. by exists t.
    + intros [t [= ->]]. by exists t.
    + done.
    + by intros [t [= ? ?]].
Qed.

Lemma substr_append p t : substr_from (String.length p) (p ++ t) = t.
Proof.
  unfold substr_from. induction p as [|x p IH]; cbn; [|exact IH]. by rewrite Nat.sub_0_r, substring_all.
Qed.

Lemma count_nonneg s : 0 <= count_separators s.
Proof. induction s as [|c s IH]; cbn; [lia|]. case_bool_decide; lia. Qed.

Lemma append_separator p t : p ++ String separator t = (p ++ String separator "") ++ t.
Proof. by rewrite append_assoc. Qed.

Lemma prefix_matches_spec depth name prefix : prefix_matches depth name prefix = true <-> within depth prefix name.
Proof.
  unfold prefix_matches, within. destruct (String.eqb_spec name prefix) as [->|Hne]; [split; [by left|done]|].
  destruct (String.prefix _ _) eqn:Ep.
  - apply prefix_spec in Ep as [t ->].
    assert (El : (String.length prefix + 1)%nat = String.length (prefix ++ String separator "")) by (by rewrite length_append).
    rewrite El, substr_append. unfold separators_less_than_depth. split.
    + intros Hd. right. exists t. split; [by rewrite append_assoc|]. destruct (Z.eqb_spec depth DEPTH_RECURSIVE); [by left|right; lia].
    + intros [|(r & Er & Hd)]; [done|]. rewrite append_assoc in Er. assert (t = r) as ->.
      { clear -Er. induction prefix as [|c p IH]; [by injection Er|]. injection Er. apply IH. }
      destruct (Z.eqb_spec depth DEPTH_RECURSIVE); [done|]. apply Z.ltb_lt. by destruct Hd.
  - split; [done|]. intros [|(r & -> & _)]; [done|]. rewrite (append_separator prefix r) in Ep.
    by rewrite (proj2 (prefix_spec _ _) (ex_intro _ r eq_refl)) in Ep.
Qed.

Lemma is_listed_spec prefixes depth name : is_listed prefixes depth name = true <-> listed prefixes depth name.
Proof.
  unfold is_listed, listed, separators_less_than_depth. rewrite !orb_true_iff, !andb_true_iff, existsb_exists, Nat.eqb_eq, Z.eqb_eq, Z.ltb_lt.
  rewrite length_zero_iff_nil. setoid_rewrite <- list_elem_of_In. setoid_rewrite prefix_matches_spec. tauto.
Qed.

Lemma before_last_spec s p : before_last_separator s = Some p <-> parent p s.
Proof.
  unfold parent. revert p. induction s as [|c s IH]; intros p; cbn.
  - split; [done|]. intros (l & E & _). by destruct p.
  - destruct (before_last_separator s) as [q|] eqn:Es.
    + destruct (proj1 (IH q) eq_refl) as (l & -> & Hl). split; [intros [= <-]; by exists l|].
      intros (k & Ek & Hk). destruct p as [|d p].
      * exfalso. injection Ek as _ <-. clear -Hk. induction q as [|x q IH]; cbn in Hk; [rewrite ?bool_decide_true in Hk by done; pose proof (count_nonneg l); lia|].
        apply IH. pose proof (count_nonneg (q ++ String separator l)). case_bool_decide; lia.
      * injection Ek as -> Ek. assert (Some q = Some p) as [= ->]; [|done]. apply IH. by exists k.
    + assert (Hno : forall q l, s = q ++ String separator l -> count_separators l = 0 -> False).
      { intros q l E Hl. assert (None = Some q) as [=]. apply IH. by exists l. }
      assert (H0 : count_separators s = 0).
      { clear -Es. induction s as [|x s IH]; [done|]. cbn in *. destruct (before_last_separator s); [done|].
        case_bool_decide; [done|]. rewrite IH by done. done. }
      case_bool_decide as Hc.
      * subst c. split; [intros [= <-]; by exists s|]. intros (k & Ek & Hk). destruct p as [|d p]; [done|].
        injection Ek as _ Ek. by destruct (Hno p k).
      * split; [done|]. intros (k & Ek & Hk). destruct p as [|d p]; [by injection Ek|]. injection Ek as _ Ek. by destruct (Hno p k).
Qed.

(** ** The listing *)

Lemma note_prefix_spec prefixes name p :
  p ∈ note_prefix prefixes name <-> p ∈ prefixes \/ parent p name.
Proof.
  unfold note_prefix. rewrite <- before_last_spec. destruct (before_last_separator name) as [q|].
  - destruct (existsb (String.eqb q) prefixes) eqn:Ee.
    + apply existsb_exists in Ee as (x & Hx & E%String.eqb_eq). subst x. apply list_elem_of_In in Hx. split; [by left|].
      intros [|E]; [done|by injection E as <-].
    + rewrite elem_of_app, list_elem_of_singleton. split; (intros [Hp|Hp]; [by left|right; congruence]).
  - split; [by left|]. by intros [|].
Qed.

Lemma note_prefix_nodup prefixes name : NoDup prefixes -> NoDup (note_prefix prefixes name).
Proof.
  intros Hn. unfold note_prefix. destruct (before_last_separator name) as [q|]; [|done].
  destruct (existsb (String.eqb q) prefixes) eqn:Ee; [done|]. apply NoDup_app. split_and!; [done| |apply NoDup_singleton].
  intros x Hx E%list_elem_of_singleton. subst x. rewrite <- not_true_iff_false in Ee. apply Ee. apply existsb_exists.
  exists q. rewrite <- list_elem_of_In. split; [done|apply String.eqb_refl].
Qed.

Lemma note_prefixes_spec names acc p :
  NoDup acc ->
  NoDup (fold_left note_prefix names acc) /\
  (p ∈ fold_left note_prefix names acc <-> p ∈ acc \/ exists n, n ∈ names /\ parent p n).
Proof.
  revert acc. induction names as [|n names IH]; intros acc Hn; cbn [fold_left].
  - split; [done|]. split; [by left|]. by intros [|(n & ?%elem_of_nil & _)].
  - destruct (IH (note_prefix acc n)) as [Hd Hi]; [by apply note_prefix_nodup|]. split; [done|]. rewrite Hi, note_prefix_spec. split.
    + intros [[|Hp]|(k & Hk & Hp)]; [by left|right; exists n; by split; [left|]|right; exists k; by split; [right|]].
    + intros [|(k & [->|Hk]%elem_of_cons & Hp)]; [by left; left|by left; right|right; by exists k].
Qed.

Lemma sorted_filter (f : string -> bool) l : StronglySorted string_le l -> StronglySorted string_le (List.filter f l).
Proof.
  induction 1 as [|x l Hs IH Hx]; simpl; [constructor|]. destruct (f x); [|done]. constructor; [done|].
  rewrite Forall_forall in *. intros y Hy. apply Hx. rewrite list_elem_of_In in *. by apply filter_In in Hy as [? _].
Qed.

(** [list_parameters] names, in alphabetical order and once each, the
    declared parameters that lie under one of the prefixes within the depth
    below it, or, without prefixes, those of at most that depth; a depth of
    zero is no limit.  Beside them it gives, once each, the prefixes up to
    the last separator of the names listed. *)
Theorem list_parameters_exact s prefixes depth names found :
  list_parameters s prefixes depth = (names, found) ->
  StronglySorted string_le names /\ NoDup names /\
  (forall n, n ∈ names <-> is_Some (parameters_ s !! n) /\ listed prefixes depth n) /\
  NoDup found /\ (forall p, p ∈ found <-> exists n, n ∈ names /\ parent p n).
Proof.
  unfold list_parameters. intros [= <- <-]. set (all := (in_order (parameters_ s)).*1).
  set (names := List.filter _ all). pose proof (fun p => note_prefixes_spec names [] p (NoDup_nil_2)) as Hf.
  assert (Hin : forall n, n ∈ names <-> is_Some (parameters_ s !! n) /\ listed prefixes depth n).
  { intros n. unfold names. rewrite list_elem_of_In, filter_In, is_listed_spec, <- list_elem_of_In. unfold all.
    rewrite list_elem_of_fmap. split; intros [Hn Hl]; (split; [|done]).
    - destruct Hn as ([k x] & -> & Hx%in_order_lookup). eauto.
    - destruct Hn as [x Hx]. exists (n, x). by rewrite in_order_lookup. }
  split_and!; [| |done|by apply (Hf "")|].
  - apply sorted_filter, in_order_keys_sorted.
  - unfold names. apply NoDup_ListNoDup, List.NoDup_filter, NoDup_ListNoDup, in_order_nodup.
  - intros p. destruct (Hf p) as [_ ->]. split; [by intros [?%elem_of_nil|]|by right].
Qed.

Lemma list_parameters_exact_witness :
  let info := default_info in
  let s := set_infos (new_node_parameters "/n" ∅ true true) {["a.b" := info; "a.b.c" := info; "a" := info; "d" := info]} in
  list_parameters s ["a"] 1 = (["a"; "a.b"], ["a"]) /\ NoDup ["a"; "a.b"].
Proof.
  intros info s. assert (E : list_parameters s ["a"] 1 = (["a"; "a.b"], ["a"])) by (vm_compute; reflexivity).
  split; [exact E|]. apply (list_parameters_exact s ["a"] 1 _ _ E).
Defined.
