(* ===== verification/ParameterService.v ===== *)
(** * The services of a node's parameters

    [rclcpp/src/rclcpp/parameter_service.cpp]: the callbacks of the six
    services through which other processes get and set the parameters of a
    node, as computations on [NodeParameters].  What they do not catch
    leaves the callback of the service, and with it the executor. *)

From Stdlib Require Import ZArith Lia String Ascii.
From stdpp Require Import base numbers list gmap strings sorting.
From S2P Require Import Prelude Computation OrderedMap ParameterValue NodeParameters NodeParametersFacts NodeParametersAccept.
#[local] Open Scope string_scope.
#[local] Open Scope Z_scope.

(** ** The callbacks *)

Definition not_declared (e : param_error) : bool := match e with ParameterNotDeclared _ => true | _ => false end.
Definition uninitialized (e : param_error) : bool := match e with ParameterUninitialized _ => true | _ => false end.

(** The text of [ParameterNotDeclaredException]. *)
Definition what (e : param_error) : string :=
  match e with ParameterNotDeclared name => "parameter '" ++ name ++ "' cannot be set because it was not declared" | _ => "" end.

(** An exception that is caught leaves the response empty. *)
Definition get_parameters_service (s : NodeParameters) (names : list string) : Result param_error (list ParameterValueMsg) :=
  match get_parameters s names with
  | Ok parameters => Ok (map (fun param => to_value_msg (value_ param)) parameters)
  | Throw e => if not_declared e || uninitialized e then Ok [] else Throw e
  end.

Definition get_parameter_types_service (s : NodeParameters) (names : list string) : Result param_error (list ParameterType) :=
  match get_parameter_types s names with
  | Ok types => Ok types
  | Throw e => if not_declared e then Ok [] else Throw e
  end.

Definition describe_parameters_service (s : NodeParameters) (names : list string)
  : Result param_error (list ParameterDescriptor) :=
  match describe_parameters s names with
  | Ok descriptors => Ok descriptors
  | Throw e => if not_declared e then Ok [] else Throw e
  end.

Definition list_parameters_service (s : NodeParameters) (prefixes : list string) (depth : Z) : list string * list string :=
  list_parameters s prefixes depth.

Section Callbacks.
Context `{Callbacks}.

(** [try m catch (ParameterNotDeclaredException)]. *)
Definition catch_not_declared {A} (m : M A) (handler : param_error -> A) : M A := fun s =>
  match m s with
  | (Throw e, s) => if not_declared e then (Ok (handler e), s) else (Throw e, s)
  | r => r
  end.

Fixpoint set_parameters_service (parameters : list ParameterMsg) : M (list SetParametersResult) :=
  match parameters with
  | [] => mret []
  | p :: parameters =>
    result ← catch_not_declared (parameter ← lift (from_parameter_msg p); set_parameters_atomically [parameter])
      (fun e => mkResult false (what e));
    results ← set_parameters_service parameters;
    mret (result :: results)
  end.

Definition set_parameters_atomically_service (parameters : list ParameterMsg) : M SetParametersResult :=
  pvariants ← lift (map_results from_parameter_msg parameters);
  catch_not_declared (set_parameters_atomically pvariants)
    (fun _ => mkResult false "One or more parameters were not declared before setting").

(** ** Theorems *)

Context {LAW : CallbackLaw}.

(** A node without callbacks stays one. *)
Definition no_callbacks (s : NodeParameters) : Prop := forall k, container k s = [].
Definition stays_quiet (s s' : NodeParameters) : Prop := no_callbacks s -> no_callbacks s'.

#[local] Instance stays_quiet_preorder : PreOrder stays_quiet.
Proof. split; [by intros s Hs|]. intros x y z H1 H2 Hx. exact (H2 (H1 Hx)). Qed.

Lemma call_handles_quiet {A} k (call : N -> A -> M A) stop a s :
  no_callbacks s -> (s ← get; call_handles k call stop [] (container k s) a) s = (Ok a, s).
Proof. intros Hs. rewrite get_bind. by rewrite Hs. Qed.

Lemma modify_infos_quiet f : Keeps stays_quiet (modify (fun s => set_infos s (f s)) : M unit).
Proof. intros s Hs k. cbn. specialize (Hs k). by destruct k. Qed.

Lemma publish_quiet new changed deleted : Keeps stays_quiet (publish_event new changed deleted).
Proof. intros s Hs k. rewrite publish_event_spec. cbn. specialize (Hs k). destruct (has_events_publisher s), k; done. Qed.

#[local] Hint Resolve modify_infos_quiet publish_quiet : keeps.

Lemma set_common_stays_quiet ps infos allow :
  Keeps stays_quiet (__set_parameters_atomically_common ps infos (fun infos => modify (fun s => set_infos s infos)) true allow).
Proof.
  unfold __set_parameters_atomically_common. destruct (__check_parameters _ _ _) as [res infos'].
  assert (Hm : forall x, Keeps stays_quiet (modify (fun s => set_infos s x) : M unit)) by (intros; apply (modify_infos_quiet (fun _ => x))).
  assert (Hon : Keeps stays_quiet (__call_on_set_parameters_callbacks ps)) by (intros s Hs; unfold __call_on_set_parameters_callbacks; by rewrite call_handles_quiet).
  assert (Hpost : Keeps stays_quiet (__call_post_set_parameters_callbacks ps)) by (intros s Hs; unfold __call_post_set_parameters_callbacks; by rewrite call_handles_quiet).
  keeps_steps.
Qed.

Lemma erase_stays_quiet l : Keeps stays_quiet (erase_undeclared l).
Proof. induction l as [|p l IH]; cbn [erase_undeclared]; keeps_steps. Qed.

Lemma set_atomically_stays_quiet ps : Keeps stays_quiet (set_parameters_atomically ps).
Proof.
  intros s Hs. unfold set_parameters_atomically, with_guard. destruct (parameter_modification_enabled_ s); [|done].
  set (s0 := set_enabled s false). assert (Hs0 : no_callbacks s0) by (intros k; specialize (Hs k); by destruct k).
  match goal with |- no_callbacks (let '(r, s) := ?m s0 in _).2 => assert (Hk : Keeps stays_quiet m) end.
  2: { specialize (Hk s0 Hs0). match goal with |- no_callbacks (let '(r, s) := ?x in _).2 => destruct x as [r s1] end.
       intros k. specialize (Hk k). by destruct k. }
  assert (Hpre : Keeps stays_quiet (__call_pre_set_parameters_callbacks ps)) by (intros t Ht; unfold __call_pre_set_parameters_callbacks; by rewrite call_handles_quiet).
  assert (Hstage : forall o st e l, Keeps stays_quiet (stage_parameters o st e l)) by (intros o st e l t Ht; by rewrite stage_parameters_spec).
  assert (Happ : forall st, Keeps stays_quiet (apply_staged st)).
  { intros st. unfold apply_staged, apply_change. keeps_steps. }
  unfold set_staged. keeps_steps; auto using set_common_stays_quiet, erase_stays_quiet.
Qed.

Lemma set_atomically_quiet ps s :
  parameter_modification_enabled_ s = true -> no_callbacks s -> ps <> [] ->
  (set_parameters_atomically ps s).1 =
  match scan_parameters (parameters_ s) (allow_undeclared_ s) ps with
  | Thrown e => Throw e
  | Refused result => Ok result
  | ToBeDeclared l => (set_staged (stage l) (concat (map new_event l)) ps (set_enabled s false)).1
  end.
Proof.
  intros He Hs Hne. unfold set_parameters_atomically, with_guard. rewrite He. set (s0 := set_enabled s false).
  assert (Epre : __call_pre_set_parameters_callbacks ps s0 = (Ok ps, s0)).
  { unfold __call_pre_set_parameters_callbacks. apply call_handles_quiet. intros k. specialize (Hs k). by destruct k. }
  rewrite (bind_ok _ _ _ _ _ Epre), bool_decide_false by done. rewrite get_bind.
  change (parameters_ s0) with (parameters_ s). change (allow_undeclared_ s0) with (allow_undeclared_ s).
  destruct (scan_parameters _ _ _) as [l|res|e]; [|done..].
  rewrite (bind_ok _ _ _ _ _ (stage_parameters_spec _ _ _ _ _)). cbn [successful success negb app]. fold (stage l).
  by destruct (set_staged (stage l) (concat (map new_event l)) ps s0).
Qed.

(** A single parameter with a name is answered, or is not declared. *)
Lemma set_one_answered p s :
  parameter_modification_enabled_ s = true -> no_callbacks s -> name_ p <> "" -> value_eqb (value_ p) (value_ p) = true ->
  (exists res, (set_parameters_atomically [p] s).1 = Ok res) \/
  (set_parameters_atomically [p] s).1 = Throw (ParameterNotDeclared (name_ p)).
Proof.
  intros He Hs Hn Hv. rewrite set_atomically_quiet by done. set (s0 := set_enabled s false).
  assert (Hs0 : no_callbacks s0) by (intros k; specialize (Hs k); by destruct k).
  assert (Hacc : acceptable (parameters_ s0) (allow_undeclared_ s0) p ->
    (set_staged (stage (filter (undeclared (parameters_ s0)) [p])) (concat (map new_event (filter (undeclared (parameters_ s0)) [p]))) [p] s0).1 = Ok success).
  { intros Ha. apply set_staged_complete; [by apply Hs0|by apply Hs0|by repeat constructor; intros ?%elem_of_nil| |];
      by intros q ->%list_elem_of_singleton. }
  change (parameters_ s0) with (parameters_ s) in *. change (allow_undeclared_ s0) with (allow_undeclared_ s) in *.
  cbn [scan_parameters]. destruct (String.eqb_spec (name_ p) ""); [done|]. unfold acceptable in Hacc. destruct (parameters_ s !! name_ p) as [i|] eqn:Ei.
  - destruct (read_only (descriptor i)); [left; eauto|]. left.
    assert (Hund : filter (undeclared (parameters_ s)) [p] = []) by (rewrite filter_cons_False; [done|unfold undeclared; by rewrite Ei]).
    rewrite Hund in Hacc. change (parameters_ s) with (parameters_ s0) in *.
    destruct (collect_undeclared (parameters_ s0) [p]) as [und|] eqn:Ec.
    2: { unfold set_staged. rewrite get_bind. change (parameters_to_be_set (stage []) [p]) with [p]. rewrite Ec. eauto. }
    destruct (successful (check_parameter (descriptor i) p)) eqn:Eck.
    + exists success. apply Hacc. split; [done|]. split_and!; [done|done|]. intros Hns Hset.
      apply collect_undeclared_spec in Ec as [_ Hd]. apply (Hd p i); [by left| |done]. split; [done|]. by rewrite Ei.
    + unfold set_staged. rewrite get_bind. change (parameters_to_be_set (stage []) [p]) with [p]. rewrite Ec.
      unfold __set_parameters_atomically_common, __check_parameters. cbn [check_from]. unfold at_or_new. rewrite Ei.
      assert (E : (if allow_undeclared_ s0 then (descriptor i, parameters_ s0) else (descriptor i, parameters_ s0)) = (descriptor i, parameters_ s0))
        by by destruct (allow_undeclared_ s0).
      rewrite E, Eck. eexists. unfold mbind, ST_bind, mret, ST_ret. cbn. rewrite Eck. cbn. rewrite Eck. done.
  - destruct (allow_undeclared_ s) eqn:Ea; [|by right]. left. exists success.
    assert (Hund : filter (undeclared (parameters_ s)) [p] = [p]) by (by rewrite filter_cons_True, filter_nil).
    rewrite Hund in Hacc. by apply Hacc.
Qed.

Lemma set_atomically_enabled ps s :
  parameter_modification_enabled_ s = true -> parameter_modification_enabled_ (set_parameters_atomically ps s).2 = true.
Proof. intros He. unfold set_parameters_atomically, with_guard. rewrite He. by case_match. Qed.

(** What the service can answer: parameters with a name and a known type. *)
Definition answerable (p : ParameterMsg) : Prop := name_ p <> "" /\ 0 <= type (value_ p) <= 9.

(** the service that sets parameters one by one gives a result for each
    of them exactly when every one has a name and a known type; a request
    with a nameless parameter, or one of an unknown type, raises an exception
    that nothing in the service catches, after the parameters before it were
    set. *)
Theorem set_parameters_service_answers ps s :
  parameter_modification_enabled_ s = true -> no_callbacks s ->
  (forall p, p ∈ ps -> value_eqb (value_ p) (value_ p) = true) ->
  (exists results, (set_parameters_service ps s).1 = Ok results /\ length results = length ps) <-> Forall answerable ps.
Proof.
  revert s. induction ps as [|p ps IH]; intros s He Hs Hv; [split; [constructor|by exists []]|]. cbn [set_parameters_service].
  rewrite Forall_cons. unfold answerable at 1.
  assert (Hmsg : from_parameter_msg p = if bool_decide (0 <= type (value_ p) <= 9) then Ok p else Throw (UnknownType (type (value_ p)))).
  { unfold from_parameter_msg, value_from_msg. case_bool_decide as Ht; destruct p as [n v]; cbn [value_ name_] in *.
    - by rewrite (proj2 (Z.leb_le 0 _)), (proj2 (Z.leb_le _ 9)) by lia.
    - destruct (Z.leb_spec 0 (type v)), (Z.leb_spec (type v) 9); try done. lia. }
  set (body := catch_not_declared _ _).
  assert (Hbody : body s = if bool_decide (0 <= type (value_ p) <= 9) then
      catch_not_declared (set_parameters_atomically [p]) (fun e => mkResult false (what e)) s
    else (Throw (UnknownType (type (value_ p))), s)).
  { unfold body, catch_not_declared, mbind, ST_bind, lift. rewrite Hmsg. by destruct (bool_decide _). }
  case_bool_decide as Ht.
  2: { rewrite (bind_throw _ _ _ _ _ Hbody). split; [by intros (? & ? & _)|tauto]. }
  destruct (decide (name_ p = "")) as [En|En].
  { assert (Hthrow : (set_parameters_atomically [p] s).1 = Throw (InvalidParameters "parameter name must not be empty")).
    { rewrite set_atomically_quiet by done. cbn [scan_parameters]. by rewrite En. }
    unfold catch_not_declared in Hbody. destruct (set_parameters_atomically [p] s) as [r s1]. cbn [fst] in Hthrow. subst r. cbn in Hbody.
    rewrite (bind_throw _ _ _ _ _ Hbody). split; [by intros (? & ? & _)|tauto]. }
  pose proof (set_one_answered p s He Hs En (Hv p (list_elem_of_here _ _))) as Hone.
  pose proof (set_atomically_enabled [p] s He) as He1. pose proof (set_atomically_stays_quiet [p] s Hs) as Hs1.
  assert (Hok : exists res, body s = (Ok res, (set_parameters_atomically [p] s).2)).
  { rewrite Hbody. unfold catch_not_declared. destruct (set_parameters_atomically [p] s) as [r s1]. cbn [fst snd] in *.
    destruct Hone as [[res E]|E]; rewrite E; [by exists res|by eexists]. }
  destruct Hok as [res Hok]. rewrite (bind_ok _ _ _ _ _ Hok). set (s1 := (set_parameters_atomically [p] s).2) in *.
  assert (Hv1 : forall q, q ∈ ps -> value_eqb (value_ q) (value_ q) = true) by (intros; apply Hv; by right).
  specialize (IH s1 He1 Hs1 Hv1). unfold mbind, ST_bind, mret, ST_ret.
  destruct (set_parameters_service ps s1) as [[results|e] s2]; cbn [fst] in *.
  - split.
    + intros (l & [= <-] & Hl). split; [done|]. apply IH. exists results. split; [done|]. cbn in Hl. lia.
    + intros [_ Hf]. apply IH in Hf as (l & [= <-] & Hl). exists (res :: results). split; [done|]. cbn. by rewrite Hl.
  - split; [by intros (? & ? & _)|]. intros [_ Hf]. apply IH in Hf as (? & ? & _). done.
Qed.
End Callbacks.

(** ** A concrete request *)

Lemma set_parameters_service_answers_witness :
  let s := new_node_parameters "/n" ∅ true false in
  exists results, (set_parameters_service (H := refuses_negative) [mkParameter "a" (value_int 5); mkParameter "b" (value_int 6)] s).1
    = Ok results /\ length results = 2%nat.
Proof.
  intros s. assert (Hs : no_callbacks s) by (intros []; reflexivity).
  pose proof (set_parameters_service_answers (H := refuses_negative) [mkParameter "a" (value_int 5); mkParameter "b" (value_int 6)] s eq_refl Hs) as T.
  apply T.
  - intros p [->|Hp]%elem_of_cons; [reflexivity|]. apply list_elem_of_singleton in Hp as ->. reflexivity.
  - repeat constructor; discriminate.
Defined.
