(* ===== verification/ParameterEvents.v ===== *)
(** * Following parameter events

    [rclcpp/src/rclcpp/parameter_event_handler.cpp] and
    [parameter_events_filter.cpp]: callbacks for single parameters of a node
    and for whole events, and the search of an event for parameters.  The
    handles that somebody still holds are [live]; the calls of a method are
    returned in their order.  The map of the parameter callbacks is an
    [unordered_map]: the class [HashOrder] gives the order of its loop. *)

From Stdlib Require Import ZArith Lia String Ascii.
From stdpp Require Import base numbers list gmap strings.
From S2P Require Import Prelude Computation OrderedMap ParameterValue NodeParameters.
#[local] Open Scope string_scope.
#[local] Open Scope Z_scope.

(** ** State *)

(** The name of a parameter and that of its node. *)
Abbreviation Watched := (string * string)%type.

Record ParameterEventHandler := mkHandler {
  parameter_callbacks_ : gmap Watched (list N);
  event_callbacks_ : list N;
  live : gset N;
  (** what the parameter handles say they watch *)
  watched : gmap N Watched;
}.

Inductive handler_error :=
| CallbackDoesNotExist
| NameMismatch
| NullHandle
| EndIncremented
| BadParameter (e : param_error).

Definition set_callbacks (t : ParameterEventHandler) (ps : gmap Watched (list N)) (es : list N) : ParameterEventHandler :=
  mkHandler ps es (live t) (watched t).
Definition set_live (t : ParameterEventHandler) (l : gset N) (w : gmap N Watched) : ParameterEventHandler :=
  mkHandler (parameter_callbacks_ t) (event_callbacks_ t) l w.

Notation H := (ST ParameterEventHandler handler_error).

Class HashOrder := hash_order : gmap Watched (list N) -> list Watched.
Class HashOrderLaw `{HashOrder} : Prop := hash_order_keys m : hash_order m ≡ₚ (map_to_list m).*1.

(** ** Registration *)

(** [make_shared]: no handle is at this address. *)
Definition new_handle (t : ParameterEventHandler) : N :=
  fresh (live t ∪ list_to_set (event_callbacks_ t ++ concat (map_to_list (parameter_callbacks_ t)).*2) ∪ dom (watched t)).

Definition add_parameter_event_callback : H N :=
  t ← get;
  let h := new_handle t in
  modify (fun t => set_live (set_callbacks t (parameter_callbacks_ t) (h :: event_callbacks_ t)) ({[h]} ∪ live t) (watched t));;
  mret h.

(** The first weak pointer that locks to the handle; a null handle finds an
    expired one. *)
Definition finds (t : ParameterEventHandler) (handle : option N) (h : N) : bool :=
  match handle with
  | Some x => bool_decide (x = h) && bool_decide (h ∈ live t)
  | None => negb (bool_decide (h ∈ live t))
  end.

Definition erase_first (t : ParameterEventHandler) (handle : option N) (l : list N) : option (list N) :=
  let '(before, found) := span (fun h => negb (finds t handle h)) l in
  match found with
  | _ :: after => Some (before ++ after)%list
  | [] => None
  end.

Definition remove_parameter_event_callback (handle : option N) : H unit :=
  t ← get;
  match erase_first t handle (event_callbacks_ t) with
  | Some l => modify (fun t => set_callbacks t (parameter_callbacks_ t) l)
  | None => throw CallbackDoesNotExist
  end.

(** The name of the node of the handler and its namespace; [rcpputils::join]
    puts the separator between its arguments. *)
Definition resolve_path (fully_qualified_name namespace path : string) : string :=
  match path with
  | EmptyString => fully_qualified_name
  | String c _ =>
    if bool_decide (c = "/"%char) then path
    else if String.eqb namespace "/" then namespace ++ path else namespace ++ "/" ++ path
  end.

Definition add_parameter_callback (fully_qualified_name namespace parameter_name node_name : string) : H N :=
  t ← get;
  let full_node_name := resolve_path fully_qualified_name namespace node_name in
  let h := new_handle t in
  let key := (parameter_name, full_node_name) in
  modify (fun t =>
    set_live (set_callbacks t (<[key := h :: default [] (parameter_callbacks_ t !! key)]> (parameter_callbacks_ t)) (event_callbacks_ t))
      ({[h]} ∪ live t) (<[h := key]> (watched t)));;
  mret h.

(** [parameter_callbacks_[key]] makes an entry, which stays when the method
    throws. *)
Definition remove_parameter_callback (handle : option N) : H unit :=
  match handle with
  | None => throw NullHandle
  | Some h =>
    t ← get;
    match watched t !! h with
    | None => throw NullHandle
    | Some key =>
      let container := default [] (parameter_callbacks_ t !! key) in
      modify (fun t => set_callbacks t (<[key := container]> (parameter_callbacks_ t)) (event_callbacks_ t));;
      match erase_first t handle container with
      | Some [] => modify (fun t => set_callbacks t (delete key (parameter_callbacks_ t)) (event_callbacks_ t))
      | Some l => modify (fun t => set_callbacks t (<[key := l]> (parameter_callbacks_ t)) (event_callbacks_ t))
      | None => throw CallbackDoesNotExist
      end
    end
  end.

(** The last [shared_ptr] of a handle goes. *)
Definition release_handle (h : N) : H unit := modify (fun t => set_live t (live t ∖ {[h]}) (delete h (watched t))).

(** ** Searching events *)

Definition find_msg (parameter_name : string) (l : list ParameterMsg) : option ParameterMsg :=
  List.find (fun p => String.eqb (name_ p) parameter_name) l.

(** The overload that returns a [bool]: [None] for false. *)
Definition get_parameter_from_event_if (event : ParameterEvent) (parameter_name node_name : string)
  : Result param_error (option Param) :=
  if negb (String.eqb (node event) node_name) then Ok None
  else match find_msg parameter_name (new_parameters event) with
  | Some p => let! p := from_parameter_msg p in Ok (Some p)
  | None =>
    match find_msg parameter_name (changed_parameters event) with
    | Some p => let! p := from_parameter_msg p in Ok (Some p)
    | None => Ok None
    end
  end.

Definition get_parameter_from_event (event : ParameterEvent) (parameter_name node_name : string)
  : Result handler_error Param :=
  match get_parameter_from_event_if event parameter_name node_name with
  | Throw e => Throw (BadParameter e)
  | Ok (Some p) => Ok p
  | Ok None => if String.eqb (node event) node_name then Ok (mkParameter parameter_name value_not_set) else Throw NameMismatch
  end.

Definition get_parameters_from_event (event : ParameterEvent) : Result param_error (list Param) :=
  map_results from_parameter_msg (new_parameters event ++ changed_parameters event)%list.

(** [ParameterEventsFilter]. *)
Inductive EventType := NEW | DELETED | CHANGED.

#[export] Instance EventType_eq_dec : EqDecision EventType.
Proof. solve_decision. Defined.

Definition select (names : list string) (types : list EventType) (type : EventType) (l : list ParameterMsg)
  : list (EventType * ParameterMsg) :=
  if bool_decide (type ∈ types) then map (pair type) (List.filter (fun p => bool_decide (name_ p ∈ names)) l) else [].

Definition ParameterEventsFilter (event : ParameterEvent) (names : list string) (types : list EventType)
  : list (EventType * ParameterMsg) :=
  (select names types NEW (new_parameters event) ++ select names types CHANGED (changed_parameters event)
   ++ select names types DELETED (deleted_parameters event))%list.

(** ** Dispatch *)

Inductive CallbackCall :=
| ParameterCall (h : N) (p : Param)
| EventCall (h : N).

(** The loop over a container: the callbacks called and the container after
    it.  [cb = erase(cb)] is followed by the [++cb] of the loop, which passes
    over the next callback, or increments the end. *)
Fixpoint walk_container (alive : gset N) (kept rest : list N) : Result handler_error (list N * list N) :=
  match rest with
  | [] => Ok ([], kept)
  | h :: rest =>
    if bool_decide (h ∈ alive) then
      let! (calls, l) := walk_container alive (kept ++ [h])%list rest in Ok (h :: calls, l)
    else
      match rest with
      | [] => Throw EndIncremented
      | next :: rest => walk_container alive (kept ++ [next])%list rest
      end
  end.

Fixpoint dispatch_parameters (alive : gset N) (event : ParameterEvent) (keys : list Watched) (callbacks : gmap Watched (list N))
  : Result handler_error (list CallbackCall * gmap Watched (list N)) :=
  match keys with
  | [] => Ok ([], callbacks)
  | key :: keys =>
    match get_parameter_from_event_if event key.1 key.2 with
    | Throw e => Throw (BadParameter e)
    | Ok None => dispatch_parameters alive event keys callbacks
    | Ok (Some p) =>
      let! (called, l) := walk_container alive [] (default [] (callbacks !! key)) in
      let! (calls, callbacks) := dispatch_parameters alive event keys (<[key := l]> callbacks) in
      Ok (map (fun h => ParameterCall h p) called ++ calls, callbacks)%list
    end
  end.

Definition event_callback `{HashOrder} (t : ParameterEventHandler) (event : ParameterEvent)
  : Result handler_error (list CallbackCall * ParameterEventHandler) :=
  let! (calls, ps) := dispatch_parameters (live t) event (hash_order (parameter_callbacks_ t)) (parameter_callbacks_ t) in
  let! (called, es) := walk_container (live t) [] (event_callbacks_ t) in
  Ok (calls ++ map EventCall called, set_callbacks t ps es)%list.

(** ** Theorems *)

(** What an event means for the callbacks of one parameter. *)
Definition calls_for (t : ParameterEventHandler) (event : ParameterEvent) (key : Watched) : list CallbackCall :=
  match get_parameter_from_event_if event key.1 key.2 with
  | Ok (Some p) => map (fun h => ParameterCall h p) (default [] (parameter_callbacks_ t !! key))
  | _ => []
  end.

Definition all_live (t : ParameterEventHandler) : Prop :=
  (forall key l h, parameter_callbacks_ t !! key = Some l -> h ∈ l -> h ∈ live t) /\ (forall h, h ∈ event_callbacks_ t -> h ∈ live t).

Definition known_types (event : ParameterEvent) : Prop :=
  forall p, p ∈ (new_parameters event ++ changed_parameters event)%list -> 0 <= type (value_ p) <= 9.

Lemma walk_live alive kept rest : (forall h, h ∈ rest -> h ∈ alive) -> walk_container alive kept rest = Ok (rest, (kept ++ rest)%list).
Proof.
  revert kept. induction rest as [|h rest IH]; intros kept Hl; cbn [walk_container]; [by rewrite app_nil_r|].
  rewrite bool_decide_true by (apply Hl; by left). rewrite IH by (intros; apply Hl; by right). cbn. by rewrite <- app_assoc.
Qed.

Lemma from_msg_known p : 0 <= type (value_ p) <= 9 -> from_parameter_msg p = Ok p.
Proof.
  intros Ht. unfold from_parameter_msg, value_from_msg. rewrite (proj2 (Z.leb_le 0 _)), (proj2 (Z.leb_le _ 9)) by lia. by destruct p.
Qed.

Lemma find_msg_in n l p : find_msg n l = Some p -> p ∈ l.
Proof. intros Hf. apply find_some in Hf as [Hp _]. by apply list_elem_of_In. Qed.

Lemma from_event_known event n nd :
  known_types event -> exists r, get_parameter_from_event_if event n nd = Ok r.
Proof.
  intros Hk. unfold get_parameter_from_event_if. destruct (negb _); [eauto|].
  destruct (find_msg n (new_parameters event)) as [p|] eqn:E1.
  { apply find_msg_in in E1. rewrite from_msg_known; [cbn; eauto|]. apply Hk, elem_of_app. by left. }
  destruct (find_msg n (changed_parameters event)) as [p|] eqn:E2; [|eauto].
  apply find_msg_in in E2. rewrite from_msg_known; [cbn; eauto|]. apply Hk, elem_of_app. by right.
Qed.

Lemma dispatch_live alive event keys callbacks :
  known_types event -> (forall key l h, callbacks !! key = Some l -> h ∈ l -> h ∈ alive) ->
  (forall key, key ∈ keys -> is_Some (callbacks !! key)) ->
  dispatch_parameters alive event keys callbacks =
  Ok (concat (map (fun key : Watched => match get_parameter_from_event_if event key.1 key.2 with
     | Ok (Some p) => map (fun h => ParameterCall h p) (default [] (callbacks !! key)) | _ => [] end) keys), callbacks).
Proof.
  intros Hk Hl. induction keys as [|key keys IH]; intros Hin; [done|]. cbn [dispatch_parameters map concat].
  assert (Hin' : forall k, k ∈ keys -> is_Some (callbacks !! k)) by (intros; apply Hin; by right).
  destruct (from_event_known event key.1 key.2 Hk) as [[p|] ->]; [|by apply IH].
  destruct (Hin key) as [l El]; [by left|]. rewrite El. cbn [default]. rewrite walk_live by (intros; by eapply Hl).
  cbn. rewrite insert_id by done. rewrite IH by done. done.
Qed.

(** while all handles are held, an event calls, for every parameter that
    has callbacks and that the event names as new or changed, each of these
    callbacks with the value in the event, and every callback for events, the
    last one registered first; nothing else is called. *)
Theorem event_callback_calls `{HashOrderLaw} t event :
  all_live t -> known_types event ->
  event_callback t event =
  Ok (concat (map (calls_for t event) (hash_order (parameter_callbacks_ t))) ++ map EventCall (event_callbacks_ t), t)%list.
Proof.
  intros [Hp He] Hk. unfold event_callback. rewrite dispatch_live; [|done|done|].
  - cbn. rewrite walk_live by done. cbn. by destruct t.
  - intros key Hin. rewrite hash_order_keys, list_elem_of_fmap in Hin. destruct Hin as ([k l] & -> & Hin%elem_of_map_to_list). by eexists.
Qed.

Lemma walk_expired alive kept pre h post :
  (forall x, x ∈ pre -> x ∈ alive) -> h ∉ alive ->
  walk_container alive kept (pre ++ h :: post) =
  match post with
  | [] => Throw EndIncremented
  | next :: post =>
    let! (calls, l) := walk_container alive (kept ++ pre ++ [next])%list post in Ok (pre ++ calls, l)%list
  end.
Proof.
  revert kept. induction pre as [|x pre IH]; intros kept Hpre Hh; cbn [app walk_container].
  - rewrite bool_decide_false by done. destruct post as [|next post]; [done|]. by destruct (walk_container _ _ post) as [[c l]|].
  - rewrite bool_decide_true by (apply Hpre; by left). rewrite IH by (done || intros; apply Hpre; by right).
    destruct post as [|next post]; [done|]. rewrite <- app_assoc. cbn. by destruct (walk_container _ _ post) as [[c l]|].
Qed.

Lemma walk_calls_in alive kept rest calls l : walk_container alive kept rest = Ok (calls, l) -> calls ⊆ rest.
Proof.
  remember (length rest) as n eqn:En. revert kept rest En calls l. induction (lt_wf n) as [n _ IH]. intros kept rest -> calls l.
  destruct rest as [|h rest]; cbn [walk_container]; [by intros [= <- _]|]. case_bool_decide.
  - destruct (walk_container alive _ rest) as [[c k]|] eqn:E; [|done]. intros [= <- <-]. apply (IH (length rest)) in E; [|by simpl; lia|done].
    set_solver.
  - destruct rest as [|next rest]; [done|]. intros E. apply (IH (length rest)) in E; [|by simpl; lia|done]. set_solver.
Qed.

(** an expired callback for events takes the next one with it: that one
    is erased from the loop's view and not called, although its handle is
    held; when the expired one is the last, the loop runs past the end. *)
Theorem expired_callback_hides_next `{HashOrder} t event pre h post :
  event_callbacks_ t = (pre ++ h :: post)%list -> NoDup (event_callbacks_ t) -> parameter_callbacks_ t = ∅ -> hash_order ∅ = [] ->
  (forall x, x ∈ pre -> x ∈ live t) -> h ∉ live t ->
  match post with
  | [] => event_callback t event = Throw EndIncremented
  | next :: _ => forall calls t', event_callback t event = Ok (calls, t') -> EventCall next ∉ calls
  end.
Proof.
  intros Ee Hnd Ep Eo Hpre Hh. unfold event_callback. rewrite Ep, Eo. cbn [dispatch_parameters rbind]. rewrite Ee, walk_expired by done.
  destruct post as [|next post]; [done|]. intros calls t'. destruct (walk_container _ _ post) as [[c l]|] eqn:E; [|done].
  cbn. intros [= <- _]. rewrite list_elem_of_fmap. intros (x & [= <-] & Hx). apply walk_calls_in in E.
  rewrite Ee in Hnd. apply NoDup_app in Hnd as (_ & Hd & [Hh2 [Hn _]%NoDup_cons]%NoDup_cons).
  apply elem_of_app in Hx as [Hx|Hx]; [|by apply Hn, E]. apply (Hd next Hx). right. by left.
Qed.

(** ** Concrete inputs *)

#[local] Instance by_key : HashOrder := fun m => (map_to_list m).*1.
#[local] Instance by_key_law : HashOrderLaw.
Proof. by intros m. Qed.

Definition two_events : ParameterEventHandler := mkHandler ∅ [2%N; 1%N] {[1%N]} ∅.
Definition some_event : ParameterEvent := mkEvent 0 "/n" [mkParameter "a" (value_int 5)] [] [].

Lemma expired_callback_hides_next_witness :
  event_callback two_events some_event = Ok ([], mkHandler ∅ [1%N] {[1%N]} ∅) /\ EventCall 1 ∉ ([] : list CallbackCall).
Proof.
  assert (E : event_callback two_events some_event = Ok ([], mkHandler ∅ [1%N] {[1%N]} ∅)) by (vm_compute; reflexivity).
  split; [exact E|].
  assert (Hx : 2%N ∉ live two_events) by (apply (bool_decide_unpack _); vm_compute; exact I).
  assert (Hnd : NoDup (event_callbacks_ two_events)) by (apply (bool_decide_unpack _); vm_compute; exact I).
  apply (expired_callback_hides_next two_events some_event [] 2%N [1%N] eq_refl Hnd eq_refl eq_refl
    (fun x Hx => False_ind _ (not_elem_of_nil x Hx)) Hx _ _ E).
Defined.

Lemma event_callback_calls_witness :
  let t := mkHandler {[("a", "/n") := [3%N; 2%N]]} [1%N] {[1%N; 2%N; 3%N]} ∅ in
  event_callback t some_event =
  Ok ([ParameterCall 3 (mkParameter "a" (value_int 5)); ParameterCall 2 (mkParameter "a" (value_int 5)); EventCall 1], t).
Proof.
  intros t.
  assert (Hl : all_live t).
  { split; cbn; [|set_solver]. intros key l h [_ <-]%lookup_singleton_Some Hin. set_solver. }
  assert (Hk : known_types some_event).
  { intros p. cbn. intros ->%list_elem_of_singleton. split; vm_compute; discriminate. }
  pose proof (event_callback_calls t some_event Hl Hk) as E. revert E. vm_compute. intros E. exact E.
Defined.
