(* ===== verification/TypeHash.v ===== *)
(** * Type hashes in the user data of DDS endpoints

    The last two functions of [rmw_dds_common/src/qos.cpp], with what they
    call: [parse_key_value] of [rmw/impl/cpp/key_value.hpp] and the text
    format of hashes, [rosidl_runtime_c/src/type_hash.c].  Bytes of texts
    are [ascii], a vector or a string is a list of them, bytes of a hash are
    numbers.  After an error the output parameter is not looked at. *)

From Stdlib Require Import NArith ZArith Lia String Ascii.
From stdpp Require Import base numbers list strings gmap fin_maps.
From S2P Require Import Prelude Qos.

Open Scope N_scope.

Definition text (s : string) : list ascii := list_ascii_of_string s.

(** ** The text of a hash *)

Record TypeHash := mkTypeHash { version : N; value : list N }.

Definition ROSIDL_TYPE_HASH_SIZE : nat := 32.
Definition ROSIDL_TYPE_HASH_VERSION_UNSET : N := 0.
Definition RIHS01_PREFIX : list ascii := text "RIHS01_".
Definition RIHS_VERSION_IDX : nat := 4.
Definition RIHS_PREFIX_LEN : nat := 7.
Definition RIHS01_STRING_LEN : nat := 71.
Definition INVALID_NIBBLE : N := 255.

Definition rosidl_get_zero_initialized_type_hash : TypeHash :=
  mkTypeHash 0 (replicate ROSIDL_TYPE_HASH_SIZE 0).

Definition xatoi (c : ascii) : N :=
  let n := N_of_ascii c in
  if (48 <=? n) && (n <=? 57) then n - 48
  else if (65 <=? n) && (n <=? 70) then n - 65 + 10
  else if (97 <=? n) && (n <=? 102) then n - 97 + 10
  else INVALID_NIBBLE.

Definition nibble_char (nibble : N) : ascii :=
  if nibble <? 10 then ascii_of_N (48 + nibble) else ascii_of_N (97 + (nibble - 10)).

Definition hex_byte (b : N) : list ascii :=
  [nibble_char (N.land (N.shiftr b 4) 15); nibble_char (N.land b 15)].

Inductive rcutils_ret := RCUTILS_RET_INVALID_ARGUMENT | RCUTILS_RET_BAD_ALLOC.

(** [allocated]: whether the allocator provides the memory. *)
Definition rosidl_stringify_type_hash (type_hash : TypeHash) (allocated : bool)
  : Result rcutils_ret (list ascii) :=
  if negb allocated then Throw RCUTILS_RET_BAD_ALLOC
  else Ok (RIHS01_PREFIX ++ concat (map hex_byte (value type_hash))).

Definition hex_value (top bottom : ascii) : option N :=
  let t := xatoi top in
  let b := xatoi bottom in
  if (t =? INVALID_NIBBLE) || (b =? INVALID_NIBBLE) then None else Some (N.shiftl t 4 + b).

Fixpoint parse_bytes (n : nat) (s : list ascii) : option (list N) :=
  match n, s with
  | O, _ => Some []
  | S n, t :: b :: s =>
      match hex_value t b with
      | None => None
      | Some x => match parse_bytes n s with Some xs => Some (x :: xs) | None => None end
      end
  | S _, _ => None
  end.

(** The string that a pointer to its first byte stands for. *)
Fixpoint c_str (s : list ascii) : list ascii :=
  match s with
  | [] => []
  | c :: s => if bool_decide (c = "000"%char) then [] else c :: c_str s
  end.

Definition rosidl_parse_type_hash_string (s : list ascii) : Result rcutils_ret TypeHash :=
  let s := c_str s in
  let input_len := length s in
  if (input_len <? RIHS_PREFIX_LEN)%nat then Throw RCUTILS_RET_INVALID_ARGUMENT
  else if negb (bool_decide (take RIHS_VERSION_IDX s = take RIHS_VERSION_IDX RIHS01_PREFIX))
  then Throw RCUTILS_RET_INVALID_ARGUMENT
  else
    match drop RIHS_VERSION_IDX s with
    | t :: b :: _ =>
        match hex_value t b with
        | None => Throw RCUTILS_RET_INVALID_ARGUMENT
        | Some version =>
            if negb (version =? 1) then Throw RCUTILS_RET_INVALID_ARGUMENT
            else if negb (input_len =? RIHS01_STRING_LEN)%nat then Throw RCUTILS_RET_INVALID_ARGUMENT
            else
              match parse_bytes ROSIDL_TYPE_HASH_SIZE (drop RIHS_PREFIX_LEN s) with
              | None => Throw RCUTILS_RET_INVALID_ARGUMENT
              | Some value => Ok (mkTypeHash version value)
              end
        end
    | _ => Throw RCUTILS_RET_INVALID_ARGUMENT
    end.

(** ** Keys and values *)

Definition isalnum (c : ascii) : bool :=
  let n := N_of_ascii c in
  ((48 <=? n) && (n <=? 57)) || ((65 <=? n) && (n <=? 90)) || ((97 <=? n) && (n <=? 122)).

Abbreviation KeyValues := (gmap string (list ascii)).

Record KvState := mkKvState {
  m : KeyValues;
  keyfound : bool;
  key : list ascii;
  val : list ascii;
  prev : ascii;
}.

(** What the body of the loop does next. *)
Inductive KvStep := Continue (s : KvState) | Break (s : KvState) | NotValid.

Definition store (s : KvState) : KeyValues := <[string_of_list_ascii (key s) := val s]> (m s).

(** The second half of the body. *)
Definition read_key (s : KvState) (u8 : ascii) : KvStep :=
  if bool_decide (u8 = "="%char) then
    if bool_decide (key s = []) then NotValid
    else Continue (mkKvState (m s) true (key s) (val s) u8)
  else if isalnum u8 then Continue (mkKvState (m s) false (key s ++ [u8]) (val s) u8)
  else if bool_decide (u8 = "000"%char) && bool_decide (key s = []) && negb (bool_decide (m s = ∅)) then Break s
  else if negb (bool_decide (prev s = ";"%char)) || negb (bool_decide (key s = [])) then NotValid
  else Continue (mkKvState (m s) false (key s) (val s) u8).

Definition kv_step (s : KvState) (u8 : ascii) : KvStep :=
  if keyfound s then
    if bool_decide (u8 = ";"%char) && negb (bool_decide (prev s = ";"%char)) then
      Continue (mkKvState (m s) true (key s) (val s) u8)
    else if negb (bool_decide (u8 = ";"%char)) && bool_decide (prev s = ";"%char) then
      if bool_decide (val s = []) then NotValid
      else read_key (mkKvState (store s) false [] [] (prev s)) u8
    else Continue (mkKvState (m s) true (key s) (val s ++ [u8]) u8)
  else read_key s u8.

Fixpoint kv_loop (s : KvState) (kv : list ascii) : option KvState :=
  match kv with
  | [] => Some s
  | u8 :: kv =>
      match kv_step s u8 with
      | Continue s => kv_loop s kv
      | Break s => Some s
      | NotValid => None
      end
  end.

Definition kv_end (s : KvState) : option KeyValues :=
  if keyfound s then if bool_decide (val s = []) then None else Some (store s)
  else if bool_decide (key s = []) then Some (m s) else None.

Definition parse_key_value (kv : list ascii) : KeyValues :=
  if bool_decide (kv = []) then ∅
  else default ∅ (kv_loop (mkKvState ∅ false [] [] "000"%char) kv ≫= kv_end).

(** ** Hashes in user data *)

Definition parse_type_hash_from_user_data (user_data : option (list ascii)) : Result rmw_ret TypeHash :=
  match user_data with
  | None => Throw RMW_RET_INVALID_ARGUMENT
  | Some udvec =>
      match parse_key_value udvec !! "typehash"%string with
      | None => Ok rosidl_get_zero_initialized_type_hash
      | Some type_hash_str =>
          match rosidl_parse_type_hash_string type_hash_str with
          | Ok h => Ok h
          | Throw _ => Throw RMW_RET_ERROR
          end
      end
  end.

Definition encode_type_hash_for_user_data_qos (type_hash : TypeHash) (allocated : bool)
  : Result rmw_ret (list ascii) :=
  if version type_hash =? ROSIDL_TYPE_HASH_VERSION_UNSET then Ok []
  else
    match rosidl_stringify_type_hash type_hash allocated with
    | Throw RCUTILS_RET_BAD_ALLOC => Throw RMW_RET_BAD_ALLOC
    | Throw _ => Throw RMW_RET_ERROR
    | Ok type_hash_c_str => Ok (text "typehash=" ++ type_hash_c_str ++ text ";")
    end.

(** ** Reading what was written *)

Definition is_byte (b : N) : Prop := b < 256.

Lemma below_256 (P : N -> bool) b : forallb P (map N.of_nat (seq 0 256)) = true -> is_byte b -> P b = true.
Proof.
  intros H Hb. rewrite forallb_forall in H. apply H. apply in_map_iff. exists (N.to_nat b).
  split; [lia|]. apply in_seq. unfold is_byte in Hb. lia.
Qed.

Definition plain (c : ascii) : bool := negb (bool_decide (c = "000"%char)) && negb (bool_decide (c = ";"%char)).

Lemma hex_byte_spec b :
  is_byte b -> exists t l, hex_byte b = [t; l] /\ hex_value t l = Some b /\ plain t = true /\ plain l = true.
Proof.
  intros Hb. set (P := fun b => match hex_byte b with
    | [t; l] => bool_decide (hex_value t l = Some b) && plain t && plain l
    | _ => false end).
  assert (HP : P b = true) by (apply below_256; [vm_compute; reflexivity|done]).
  subst P. cbv beta in HP. unfold hex_byte in *. eexists _, _. split; [done|].
  rewrite !andb_true_iff, bool_decide_eq_true in HP. tauto.
Qed.

Lemma parse_hex_bytes bs rest :
  Forall is_byte bs -> parse_bytes (length bs) (concat (map hex_byte bs) ++ rest) = Some bs.
Proof.
  induction 1 as [|b bs Hb _ IH]; [done|]. cbn [length map concat].
  destruct (hex_byte_spec b Hb) as (t & l & -> & Hv & _). cbn -[hex_value]. by rewrite Hv, IH.
Qed.

Lemma hex_plain bs : Forall is_byte bs -> forallb plain (concat (map hex_byte bs)) = true.
Proof.
  induction 1 as [|b bs Hb _ IH]; [done|]. cbn [map concat].
  destruct (hex_byte_spec b Hb) as (t & l & -> & _ & Ht & Hl). simpl. by rewrite Ht, Hl, IH.
Qed.

Lemma hex_length bs : length (concat (map hex_byte bs)) = (2 * length bs)%nat.
Proof. induction bs as [|b bs IH]; [done|]. cbn [map concat length]. rewrite length_app, IH. simpl. lia. Qed.

Lemma c_str_plain s : forallb plain s = true -> c_str s = s.
Proof.
  induction s as [|c s IH]; simpl; [done|]. intros [Hc Hs]%andb_true_iff.
  unfold plain in Hc. apply andb_true_iff in Hc as [Hc _]. apply negb_true_iff in Hc. by rewrite Hc, IH.
Qed.

(** A hash as the program has it. *)
Definition is_hash (h : TypeHash) : Prop := length (value h) = ROSIDL_TYPE_HASH_SIZE /\ Forall is_byte (value h).

Lemma parse_stringify h :
  is_hash h -> rosidl_parse_type_hash_string (RIHS01_PREFIX ++ concat (map hex_byte (value h))) = Ok (mkTypeHash 1 (value h)).
Proof.
  intros [Hl Hb]. unfold rosidl_parse_type_hash_string.
  rewrite c_str_plain by (rewrite forallb_app, hex_plain by done; done).
  assert (Hp : parse_bytes ROSIDL_TYPE_HASH_SIZE (concat (map hex_byte (value h))) = Some (value h)).
  { rewrite <- (app_nil_r (concat _)), <- Hl. by apply parse_hex_bytes. }
  cbv zeta. rewrite length_app, hex_length, Hl.
  change (drop RIHS_PREFIX_LEN (RIHS01_PREFIX ++ concat (map hex_byte (value h)))) with (concat (map hex_byte (value h))).
  rewrite Hp. reflexivity.
Qed.

(** *** Pairs *)

Record Pair := mkPair { pair_key : list ascii; pair_val : list ascii }.

Definition pair_text (p : Pair) : list ascii := pair_key p ++ text "=" ++ pair_val p ++ text ";".

Definition no_semicolon (c : ascii) : Prop := c <> ";"%char.

Record is_pair (p : Pair) : Prop := {
  key_nonempty : pair_key p <> [];
  key_alnum : Forall (fun c => isalnum c = true) (pair_key p);
  val_nonempty : pair_val p <> [];
  val_chars : Forall no_semicolon (pair_val p);
}.

Lemma alnum_not_equals c : isalnum c = true -> c <> "="%char.
Proof. intros H ->. done. Qed.

Lemma alnum_not_semicolon c : isalnum c = true -> c <> ";"%char.
Proof. intros H ->. done. Qed.

(** The map as if the pending pair were stored. *)
Definition ready (s : KvState) (kvs : KeyValues) : Prop :=
  keyfound s = false /\ key s = [] /\ val s = [] /\ m s = kvs \/
  keyfound s = true /\ prev s = ";"%char /\ val s <> [] /\ store s = kvs.

Lemma read_alnum s c : isalnum c = true -> read_key s c = Continue (mkKvState (m s) false (key s ++ [c]) (val s) c).
Proof. intros H. unfold read_key. rewrite bool_decide_false by by apply alnum_not_equals. by rewrite H. Qed.

Lemma first_char s kvs c :
  ready s kvs -> isalnum c = true -> kv_step s c = Continue (mkKvState kvs false [c] [] c).
Proof.
  intros Hs Hc. unfold kv_step. destruct Hs as [(Hk & Hy & Hv & <-)|(Hk & Hp & Hv & <-)]; rewrite Hk.
  - by rewrite read_alnum, Hy, Hv.
  - rewrite Hp, (bool_decide_false (c = _)) by by apply alnum_not_semicolon. simpl.
    rewrite bool_decide_false by done. by rewrite read_alnum.
Qed.

Lemma loop_key kvs k0 k p rest :
  Forall (fun c => isalnum c = true) k ->
  exists p', kv_loop (mkKvState kvs false k0 [] p) (k ++ rest) = kv_loop (mkKvState kvs false (k0 ++ k) [] p') rest.
Proof.
  intros Hk. revert k0 p. induction Hk as [|c k Hc _ IH]; intros k0 p.
  - exists p. by rewrite app_nil_r.
  - cbn [kv_loop app]. unfold kv_step. cbn [keyfound]. rewrite read_alnum by done. cbn [m key val].
    destruct (IH (k0 ++ [c]) c) as [p' E]. exists p'. by rewrite E, <- app_assoc.
Qed.

Lemma loop_val kvs k v0 v p rest :
  Forall no_semicolon v -> p <> ";"%char ->
  exists p', p' <> ";"%char /\
    kv_loop (mkKvState kvs true k v0 p) (v ++ rest) = kv_loop (mkKvState kvs true k (v0 ++ v) p') rest.
Proof.
  intros Hv. revert v0 p. induction Hv as [|c v Hc _ IH]; intros v0 p Hp.
  - exists p. by rewrite app_nil_r.
  - cbn [kv_loop app]. unfold kv_step. cbn [keyfound prev].
    rewrite (bool_decide_false (c = _)), (bool_decide_false (p = _)) by done. cbn [andb negb m key val].
    destruct (IH (v0 ++ [c]) c Hc) as (p' & Hp' & E). exists p'. by rewrite E, <- app_assoc.
Qed.

Lemma loop_pair s kvs p rest :
  ready s kvs -> is_pair p ->
  exists s', kv_loop s (pair_text p ++ rest) = kv_loop s' rest /\
    ready s' (<[string_of_list_ascii (pair_key p) := pair_val p]> kvs).
Proof.
  intros Hs [Hk1 Hk2 Hv1 Hv2]. destruct p as [k v]. cbn [pair_key pair_val] in *. unfold pair_text. cbn [pair_key pair_val].
  rewrite <- !app_assoc. destruct k as [|c k]; [done|]. apply Forall_cons in Hk2 as [Hc Hk].
  cbn [app]. cbn [kv_loop]. rewrite (first_char _ _ _ Hs Hc).
  destruct (loop_key kvs [c] k c (text "=" ++ v ++ text ";" ++ rest) Hk) as [p1 ->]. cbn [app].
  cbn [text list_ascii_of_string app kv_loop]. unfold kv_step at 1, read_key. cbn [keyfound key m val].
  rewrite (bool_decide_true ("="%char = _)) by done. rewrite bool_decide_false by done.
  destruct (loop_val kvs (c :: k) [] v "="%char (";"%char :: rest) Hv2 ltac:(done)) as (p2 & Hp2 & ->).
  cbn [app kv_loop]. unfold kv_step at 1. cbn [keyfound prev m key val].
  rewrite (bool_decide_true (";"%char = _)), (bool_decide_false (p2 = _)) by done. cbn [andb negb].
  eexists. split; [done|]. right. split_and!; try done.
Qed.

Definition stored_pairs (kvs : KeyValues) (ps : list Pair) : KeyValues :=
  fold_left (fun kvs p => <[string_of_list_ascii (pair_key p) := pair_val p]> kvs) ps kvs.

Lemma loop_pairs s kvs ps :
  ready s kvs -> Forall is_pair ps ->
  exists s', kv_loop s (concat (map pair_text ps)) = Some s' /\ ready s' (stored_pairs kvs ps).
Proof.
  intros Hs Hps. revert s kvs Hs. induction Hps as [|p ps Hp _ IH]; intros s kvs Hs.
  - by exists s.
  - cbn [map concat]. destruct (loop_pair s kvs p (concat (map pair_text ps)) Hs Hp) as (s' & -> & Hs'). by apply IH.
Qed.

Lemma kv_end_ready s kvs : ready s kvs -> kv_end s = Some kvs.
Proof.
  unfold kv_end. intros [(-> & -> & _ & ->)|(-> & _ & Hv & ->)]; [done|]. by rewrite bool_decide_false.
Qed.

Lemma parse_pairs ps : Forall is_pair ps -> parse_key_value (concat (map pair_text ps)) = stored_pairs ∅ ps.
Proof.
  intros Hps. unfold parse_key_value. case_bool_decide as E.
  - destruct ps as [|[[|c k] v] ps]; [done|..]; [by apply Forall_cons in Hps as [[] _]|done].
  - destruct (loop_pairs (mkKvState ∅ false [] [] "000"%char) ∅ ps) as (s & Hl & Hs); [by left|done|].
    rewrite Hl. cbn [mbind option_bind]. by rewrite (kv_end_ready _ _ Hs).
Qed.

Definition has_key (k : string) (p : Pair) : Prop := string_of_list_ascii (pair_key p) = k.

Lemma stored_pairs_other kvs ps k : Forall (fun p => ~ has_key k p) ps -> stored_pairs kvs ps !! k = kvs !! k.
Proof.
  intros H. revert kvs. induction H as [|p ps Hp _ IH]; intros kvs; [done|]. simpl. rewrite IH.
  by rewrite lookup_insert_ne.
Qed.

Definition hash_pair (h : TypeHash) : Pair := mkPair (text "typehash") (RIHS01_PREFIX ++ concat (map hex_byte (value h))).

Lemma hash_pair_ok h : is_hash h -> is_pair (hash_pair h).
Proof.
  intros [_ Hb]. split; [done|by repeat constructor|done|].
  apply Forall_app. split; [by repeat constructor|]. apply Forall_forall. intros c Hc.
  pose proof (hex_plain _ Hb) as Hp. rewrite forallb_forall in Hp.
  apply list_elem_of_In, Hp in Hc. unfold plain in Hc. apply andb_true_iff in Hc as [_ Hc].
  by apply negb_true_iff, bool_decide_eq_false in Hc.
Qed.

Lemma encode_pair h :
  version h <> 0 -> encode_type_hash_for_user_data_qos h true = Ok (pair_text (hash_pair h)).
Proof.
  intros Hv. unfold encode_type_hash_for_user_data_qos, ROSIDL_TYPE_HASH_VERSION_UNSET.
  destruct (version h =? 0) eqn:E; [by apply N.eqb_eq in E|]. done.
Qed.

(** C39: a type hash survives the user data.  Whatever other keys and values
    stand before and after it, reading what was encoded gives the bytes of
    the hash, with version 1; for a hash of unset version nothing is
    encoded, and what is read is the zero hash. *)
Theorem type_hash_user_data_roundtrip h before after :
  is_hash h -> Forall is_pair (before ++ after) ->
  Forall (fun p => ~ has_key "typehash" p) (before ++ after) ->
  exists s, encode_type_hash_for_user_data_qos h true = Ok s /\
    parse_type_hash_from_user_data
      (Some (concat (map pair_text before) ++ s ++ concat (map pair_text after))) =
    Ok (if version h =? ROSIDL_TYPE_HASH_VERSION_UNSET then rosidl_get_zero_initialized_type_hash
        else mkTypeHash 1 (value h)).
Proof.
  intros Hh [Hb Ha]%Forall_app [Nb Na]%Forall_app. unfold parse_type_hash_from_user_data.
  destruct (version h =? ROSIDL_TYPE_HASH_VERSION_UNSET) eqn:E.
  - exists []. unfold encode_type_hash_for_user_data_qos. rewrite E. split; [done|].
    rewrite app_nil_l, <- concat_app, <- map_app, parse_pairs by by apply Forall_app.
    rewrite stored_pairs_other by by apply Forall_app. by rewrite lookup_empty.
  - apply N.eqb_neq in E. exists (pair_text (hash_pair h)). split; [by apply encode_pair|].
    replace (concat (map pair_text before) ++ pair_text (hash_pair h) ++ concat (map pair_text after))
      with (concat (map pair_text ((before ++ [hash_pair h]) ++ after)))
      by (rewrite !map_app, !concat_app; cbn [map concat]; by rewrite app_nil_r, app_assoc).
    rewrite parse_pairs by (repeat apply Forall_app_2; [done|by constructor; [apply hash_pair_ok|]|done]).
    unfold stored_pairs. rewrite !fold_left_app. cbn [fold_left].
    change (fold_left _ after ?x) with (stored_pairs x after). rewrite stored_pairs_other by done.
    change (string_of_list_ascii (pair_key (hash_pair h))) with "typehash"%string. rewrite lookup_insert_eq.
    cbn [pair_val hash_pair]. by rewrite parse_stringify.
Qed.

(** ** Witness *)

Definition sample_hash : TypeHash := mkTypeHash 1 (171 :: replicate 31 7).
Definition sample_pair : Pair := mkPair (text "enclave") (text "/a=b").

Lemma type_hash_user_data_roundtrip_witness :
  exists s, encode_type_hash_for_user_data_qos sample_hash true = Ok s /\
    parse_type_hash_from_user_data (Some (text "enclave=/a=b;" ++ s)) = Ok sample_hash.
Proof.
  destruct (type_hash_user_data_roundtrip sample_hash [sample_pair] []) as (s & E & H).
  - split; [reflexivity|]. repeat constructor.
  - repeat constructor; discriminate.
  - constructor; [|constructor]. intros H. vm_compute in H. discriminate H.
  - exists s. split; [exact E|]. rewrite <- (app_nil_r s). exact H.
Defined.
