(* ===== verification/GraphCache.v ===== *)
(** * The ROS graph of the DDS layers

    [rmw_dds_common/src/graph_cache.cpp] and [graph_cache.hpp]: the known
    data writers and readers, and the participants with the nodes that they
    announce.  A gid is 16 bytes, read here as one big-endian number, so that
    the lexicographical [Compare_rmw_gid_t] of [gid_utils.cpp] is the order of
    numbers; [convert_gid_to_msg] and its inverse copy the bytes.

    A [std::map] is a [gmap] whose [items] are traversed by increasing gid.
    [on_change_calls] counts the calls of the callback that is set.  Every
    method locks the cache.  A failed assertion is [AssertionFailed].  The
    output arrays of the queries are lists, and their allocation succeeds;
    [args_valid] tells whether the output parameters that a query checks are
    there and zero-initialised, and the allocator is valid. *)

From Stdlib Require Import NArith ZArith Lia String.
From stdpp Require Import base numbers list strings gmap fin_maps sets sorting.
From S2P Require Import Prelude OrderedMap Qos TypeHash.

Abbreviation Gid := N.

Record NodeEntitiesInfo := mkNodeEntitiesInfo {
  node_namespace : string;
  node_name : string;
  reader_gid_seq : list Gid;
  writer_gid_seq : list Gid;
}.

Record ParticipantEntitiesInfo := mkParticipantEntitiesInfo {
  msg_gid : Gid;
  msg_node_entities_info_seq : list NodeEntitiesInfo;
}.

Record ParticipantInfo := mkParticipantInfo {
  node_entities_info_seq : list NodeEntitiesInfo;
  enclave : string;
}.

Record EntityInfo := mkEntityInfo {
  topic_name : string;
  topic_type : string;
  topic_type_hash : TypeHash;
  participant_gid : Gid;
  qos : QosProfile;
}.

Abbreviation EntityGidToInfo := (gmap Gid EntityInfo).
Abbreviation ParticipantToNodesMap := (gmap Gid ParticipantInfo).

Record GraphCache := mkGraphCache {
  data_writers_ : EntityGidToInfo;
  data_readers_ : EntityGidToInfo;
  participants_ : ParticipantToNodesMap;
  on_change_callback_ : bool;
  on_change_calls : nat;
}.

Definition GraphCache_init : GraphCache := mkGraphCache ∅ ∅ ∅ false 0.

Inductive graph_error := AssertionFailed.

Definition set_on_change_callback (s : GraphCache) : GraphCache :=
  mkGraphCache (data_writers_ s) (data_readers_ s) (participants_ s) true (on_change_calls s).
Definition clear_on_change_callback (s : GraphCache) : GraphCache :=
  mkGraphCache (data_writers_ s) (data_readers_ s) (participants_ s) false (on_change_calls s).

Definition call_on_change_callback_if (condition : bool) (s : GraphCache) : GraphCache :=
  if on_change_callback_ s && condition
  then mkGraphCache (data_writers_ s) (data_readers_ s) (participants_ s) (on_change_callback_ s) (S (on_change_calls s))
  else s.
Definition call_on_change_callback : GraphCache -> GraphCache := call_on_change_callback_if true.

Definition set_writers (s : GraphCache) (w : EntityGidToInfo) : GraphCache :=
  mkGraphCache w (data_readers_ s) (participants_ s) (on_change_callback_ s) (on_change_calls s).
Definition set_readers (s : GraphCache) (r : EntityGidToInfo) : GraphCache :=
  mkGraphCache (data_writers_ s) r (participants_ s) (on_change_callback_ s) (on_change_calls s).
Definition set_participants (s : GraphCache) (p : ParticipantToNodesMap) : GraphCache :=
  mkGraphCache (data_writers_ s) (data_readers_ s) p (on_change_callback_ s) (on_change_calls s).

(** ** Discovery of endpoints and participants *)

(** [std::map::emplace]: an existing entry stays. *)
Definition map_emplace {A} (m : gmap Gid A) (gid : Gid) (x : A) : gmap Gid A * bool :=
  match m !! gid with Some _ => (m, false) | None => (<[gid := x]> m, true) end.

(** [std::map::erase]. *)
Definition map_erase {A} (m : gmap Gid A) (gid : Gid) : gmap Gid A * bool :=
  match m !! gid with Some _ => (delete gid m, true) | None => (m, false) end.

Definition add_writer (s : GraphCache) (gid : Gid) (e : EntityInfo) : GraphCache * bool :=
  let '(w, inserted) := map_emplace (data_writers_ s) gid e in
  (call_on_change_callback_if inserted (set_writers s w), inserted).

Definition add_reader (s : GraphCache) (gid : Gid) (e : EntityInfo) : GraphCache * bool :=
  let '(r, inserted) := map_emplace (data_readers_ s) gid e in
  (call_on_change_callback_if inserted (set_readers s r), inserted).

Definition add_entity (s : GraphCache) (gid : Gid) (e : EntityInfo) (is_reader : bool) : GraphCache * bool :=
  if is_reader then add_reader s gid e else add_writer s gid e.

(** The overloads without a type hash. *)
Definition add_writer_unhashed (s : GraphCache) (gid : Gid) (topic_name type_name : string) (participant_gid : Gid)
    (qos : QosProfile) : GraphCache * bool :=
  add_writer s gid (mkEntityInfo topic_name type_name rosidl_get_zero_initialized_type_hash participant_gid qos).
Definition add_reader_unhashed (s : GraphCache) (gid : Gid) (topic_name type_name : string) (participant_gid : Gid)
    (qos : QosProfile) : GraphCache * bool :=
  add_reader s gid (mkEntityInfo topic_name type_name rosidl_get_zero_initialized_type_hash participant_gid qos).
Definition add_entity_unhashed (s : GraphCache) (gid : Gid) (topic_name type_name : string) (participant_gid : Gid)
    (qos : QosProfile) (is_reader : bool) : GraphCache * bool :=
  add_entity s gid (mkEntityInfo topic_name type_name rosidl_get_zero_initialized_type_hash participant_gid qos) is_reader.

Definition remove_writer (s : GraphCache) (gid : Gid) : GraphCache * bool :=
  let '(w, ret) := map_erase (data_writers_ s) gid in
  (call_on_change_callback_if ret (set_writers s w), ret).

Definition remove_reader (s : GraphCache) (gid : Gid) : GraphCache * bool :=
  let '(r, ret) := map_erase (data_readers_ s) gid in
  (call_on_change_callback_if ret (set_readers s r), ret).

Definition remove_entity (s : GraphCache) (gid : Gid) (is_reader : bool) : GraphCache * bool :=
  if is_reader then remove_reader s gid else remove_writer s gid.

(** The entry of a participant, made if there is none. *)
Definition participant_or_new (s : GraphCache) (gid : Gid) : ParticipantInfo :=
  default (mkParticipantInfo [] "") (participants_ s !! gid).

Definition update_participant_entities (s : GraphCache) (msg : ParticipantEntitiesInfo) : GraphCache :=
  let gid := msg_gid msg in
  let info := participant_or_new s gid in
  call_on_change_callback
    (set_participants s (<[gid := mkParticipantInfo (msg_node_entities_info_seq msg) (enclave info)]> (participants_ s))).

Definition remove_participant (s : GraphCache) (gid : Gid) : GraphCache * bool :=
  let '(p, ret) := map_erase (participants_ s) gid in
  (call_on_change_callback_if ret (set_participants s p), ret).

Definition add_participant (s : GraphCache) (gid : Gid) (enclave : string) : GraphCache :=
  let info := participant_or_new s gid in
  call_on_change_callback
    (set_participants s (<[gid := mkParticipantInfo (node_entities_info_seq info) enclave]> (participants_ s))).

(** ** The nodes of the local participant *)

Definition create_participant_info_message (gid : Gid) (info : list NodeEntitiesInfo) : ParticipantEntitiesInfo :=
  mkParticipantEntitiesInfo gid info.

Definition set_nodes (s : GraphCache) (gid : Gid) (p : ParticipantInfo) (nodes : list NodeEntitiesInfo) : GraphCache :=
  set_participants s (<[gid := mkParticipantInfo nodes (enclave p)]> (participants_ s)).

Definition add_node (s : GraphCache) (gid : Gid) (name namespace : string)
  : Result graph_error (GraphCache * ParticipantEntitiesInfo) :=
  match participants_ s !! gid with
  | None => Throw AssertionFailed
  | Some p =>
      let nodes := node_entities_info_seq p ++ [mkNodeEntitiesInfo namespace name [] []] in
      Ok (call_on_change_callback (set_nodes s gid p nodes), create_participant_info_message gid nodes)
  end.

Definition is_node (name namespace : string) (n : NodeEntitiesInfo) : bool :=
  String.eqb (node_name n) name && String.eqb (node_namespace n) namespace.

(** The elements before the first one that satisfies [p], that one, and the rest. *)
Definition find_split {A} (p : A -> bool) (l : list A) : option (list A * A * list A) :=
  match span (fun x => negb (p x)) l with
  | (l1, x :: l2) => Some (l1, x, l2)
  | (_, []) => None
  end.

Definition remove_node (s : GraphCache) (gid : Gid) (name namespace : string)
  : Result graph_error (GraphCache * ParticipantEntitiesInfo) :=
  match participants_ s !! gid with
  | None => Throw AssertionFailed
  | Some p =>
      match find_split (is_node name namespace) (node_entities_info_seq p) with
      | None => Throw AssertionFailed
      | Some (l1, _, l2) =>
          let nodes := l1 ++ l2 in
          Ok (call_on_change_callback (set_nodes s gid p nodes), create_participant_info_message gid nodes)
      end
  end.

Definition modify_node_info (s : GraphCache) (gid : Gid) (name namespace : string)
    (func : NodeEntitiesInfo -> NodeEntitiesInfo)
  : Result graph_error (GraphCache * ParticipantEntitiesInfo) :=
  match participants_ s !! gid with
  | None => Throw AssertionFailed
  | Some p =>
      match find_split (is_node name namespace) (node_entities_info_seq p) with
      | None => Throw AssertionFailed
      | Some (l1, node_info, l2) =>
          let nodes := l1 ++ func node_info :: l2 in
          Ok (set_nodes s gid p nodes, create_participant_info_message gid nodes)
      end
  end.

Definition add_writer_gid (gid : Gid) (n : NodeEntitiesInfo) : NodeEntitiesInfo :=
  mkNodeEntitiesInfo (node_namespace n) (node_name n) (reader_gid_seq n) (writer_gid_seq n ++ [gid]).
Definition add_reader_gid (gid : Gid) (n : NodeEntitiesInfo) : NodeEntitiesInfo :=
  mkNodeEntitiesInfo (node_namespace n) (node_name n) (reader_gid_seq n ++ [gid]) (writer_gid_seq n).

(** Erase the first gid found, if any. *)
Definition delete_gid (gid : Gid) (l : list Gid) : list Gid :=
  match find_split (N.eqb gid) l with Some (l1, _, l2) => l1 ++ l2 | None => l end.

Definition delete_writer_gid (gid : Gid) (n : NodeEntitiesInfo) : NodeEntitiesInfo :=
  mkNodeEntitiesInfo (node_namespace n) (node_name n) (reader_gid_seq n) (delete_gid gid (writer_gid_seq n)).
Definition delete_reader_gid (gid : Gid) (n : NodeEntitiesInfo) : NodeEntitiesInfo :=
  mkNodeEntitiesInfo (node_namespace n) (node_name n) (delete_gid gid (reader_gid_seq n)) (writer_gid_seq n).

Definition modify_and_notify (s : GraphCache) (gid : Gid) (name namespace : string)
    (func : NodeEntitiesInfo -> NodeEntitiesInfo) :=
  let! (s, msg) := modify_node_info s gid name namespace func in Ok (call_on_change_callback s, msg).

Definition associate_writer (s : GraphCache) (writer_gid gid : Gid) (name namespace : string) :=
  modify_and_notify s gid name namespace (add_writer_gid writer_gid).
Definition dissociate_writer (s : GraphCache) (writer_gid gid : Gid) (name namespace : string) :=
  modify_and_notify s gid name namespace (delete_writer_gid writer_gid).
Definition associate_reader (s : GraphCache) (reader_gid gid : Gid) (name namespace : string) :=
  modify_and_notify s gid name namespace (add_reader_gid reader_gid).
Definition dissociate_reader (s : GraphCache) (reader_gid gid : Gid) (name namespace : string) :=
  modify_and_notify s gid name namespace (delete_reader_gid reader_gid).

(** ** Queries *)

Definition items {A} (m : gmap Gid A) : list (Gid * A) := merge_sort (item_le N.le) (map_to_list m).

Definition has_topic (topic : string) (item : Gid * EntityInfo) : bool := String.eqb (topic_name item.2) topic.

Definition get_count (entities : EntityGidToInfo) (topic : string) : nat :=
  length (List.filter (has_topic topic) (items entities)).

(** [count_given]: the output parameter is not null. *)
Definition get_writer_count (s : GraphCache) (topic : string) (count_given : bool) : Result rmw_ret nat :=
  if negb count_given then Throw RMW_RET_INVALID_ARGUMENT else Ok (get_count (data_writers_ s) topic).
Definition get_reader_count (s : GraphCache) (topic : string) (count_given : bool) : Result rmw_ret nat :=
  if negb count_given then Throw RMW_RET_INVALID_ARGUMENT else Ok (get_count (data_readers_ s) topic).

Inductive EndpointCreator := ROS_NODE | UNDISCOVERED_ROS_NODE | BARE_DDS_PARTICIPANT.

Definition gid_seq (is_reader : bool) (n : NodeEntitiesInfo) : list Gid :=
  if is_reader then reader_gid_seq n else writer_gid_seq n.

Definition find_name_and_namespace_from_entity_gid (participant_map : ParticipantToNodesMap)
    (participant_gid entity_gid : Gid) (is_reader : bool) : string * string * EndpointCreator :=
  match participant_map !! participant_gid with
  | None => (""%string, ""%string, BARE_DDS_PARTICIPANT)
  | Some p =>
      match List.find (fun n => existsb (N.eqb entity_gid) (gid_seq is_reader n)) (node_entities_info_seq p) with
      | Some n => (node_name n, node_namespace n, ROS_NODE)
      | None => (""%string, ""%string, UNDISCOVERED_ROS_NODE)
      end
  end.

Inductive EndpointType := RMW_ENDPOINT_PUBLISHER | RMW_ENDPOINT_SUBSCRIPTION.

Record TopicEndpointInfo := mkTopicEndpointInfo {
  info_node_name : string;
  info_node_namespace : string;
  info_topic_type : string;
  info_topic_type_hash : TypeHash;
  info_endpoint_type : EndpointType;
  info_endpoint_gid : Gid;
  info_qos_profile : QosProfile;
}.

Definition endpoint_info (participant_map : ParticipantToNodesMap) (demangle_type : string -> string)
    (is_reader : bool) (entity_pair : Gid * EntityInfo) : TopicEndpointInfo :=
  let '(gid, e) := entity_pair in
  let '(found_name, found_namespace, creator) :=
    find_name_and_namespace_from_entity_gid participant_map (participant_gid e) gid is_reader in
  let '(name, namespace) :=
    match creator with
    | ROS_NODE => (found_name, found_namespace)
    | UNDISCOVERED_ROS_NODE => ("_NODE_NAME_UNKNOWN_"%string, "_NODE_NAMESPACE_UNKNOWN_"%string)
    | BARE_DDS_PARTICIPANT => ("_CREATED_BY_BARE_DDS_APP_"%string, "_CREATED_BY_BARE_DDS_APP_"%string)
    end in
  mkTopicEndpointInfo name namespace (demangle_type (topic_type e)) (topic_type_hash e)
    (if is_reader then RMW_ENDPOINT_SUBSCRIPTION else RMW_ENDPOINT_PUBLISHER) gid (qos e).

Definition get_entities_info_by_topic (entities : EntityGidToInfo) (participant_map : ParticipantToNodesMap)
    (topic : string) (demangle_type : string -> string) (is_reader : bool) : list TopicEndpointInfo :=
  map (endpoint_info participant_map demangle_type is_reader) (List.filter (has_topic topic) (items entities)).

Definition get_writers_info_by_topic (s : GraphCache) (topic : string) (demangle_type : string -> string) :=
  get_entities_info_by_topic (data_writers_ s) (participants_ s) topic demangle_type false.
Definition get_readers_info_by_topic (s : GraphCache) (topic : string) (demangle_type : string -> string) :=
  get_entities_info_by_topic (data_readers_ s) (participants_ s) topic demangle_type true.

(** [std::map<std::string, std::set<std::string>>]. *)
Abbreviation NamesAndTypes := (gmap string (gset string)).

(** [topics[name].insert(type)], for names that demangle to something. *)
Definition note_topic (demangle_topic demangle_type : string -> string) (topics : NamesAndTypes) (e : EntityInfo)
  : NamesAndTypes :=
  let demangled_topic_name := demangle_topic (topic_name e) in
  if String.eqb "" demangled_topic_name then topics
  else <[demangled_topic_name := {[demangle_type (topic_type e)]} ∪ default ∅ (topics !! demangled_topic_name)]> topics.

Definition names_and_types (entities : EntityGidToInfo) (demangle_topic demangle_type : string -> string)
    (topics : NamesAndTypes) : NamesAndTypes :=
  fold_left (fun topics item => note_topic demangle_topic demangle_type topics item.2) (items entities) topics.

(** The names and, for each, the types, in alphabetical order. *)
Definition populate_rmw_names_and_types (topics : NamesAndTypes) : list (string * list string) :=
  map (fun item => (item.1, merge_sort string_le (elements item.2)))
    (merge_sort (item_le string_le) (map_to_list topics)).

Definition get_names_and_types (s : GraphCache) (demangle_topic demangle_type : string -> string)
    (args_valid : bool) : Result rmw_ret (list (string * list string)) :=
  if negb args_valid then Throw RMW_RET_INVALID_ARGUMENT
  else
    let topics := names_and_types (data_readers_ s) demangle_topic demangle_type ∅ in
    let topics := names_and_types (data_writers_ s) demangle_topic demangle_type topics in
    Ok (populate_rmw_names_and_types topics).

Definition find_node (participant_map : ParticipantToNodesMap) (name namespace : string) : option NodeEntitiesInfo :=
  List.find (is_node name namespace)
    (concat (map (fun participant => node_entities_info_seq participant.2) (items participant_map))).

Definition names_and_types_from_gids (entities_map : EntityGidToInfo) (gids : list Gid)
    (demangle_topic demangle_type : string -> string) : NamesAndTypes :=
  fold_left (fun topics gid =>
    match entities_map !! gid with
    | None => topics
    | Some e => note_topic demangle_topic demangle_type topics e
    end) gids ∅.

Definition get_names_and_types_by_node (participants_map : ParticipantToNodesMap) (entities_map : EntityGidToInfo)
    (name namespace : string) (demangle_topic demangle_type : string -> string)
    (get_entities_gids : NodeEntitiesInfo -> list Gid) (args_valid : bool) : Result rmw_ret (list (string * list string)) :=
  if negb args_valid then Throw RMW_RET_INVALID_ARGUMENT
  else match find_node participants_map name namespace with
  | None => Throw RMW_RET_NODE_NAME_NON_EXISTENT
  | Some node_info =>
      Ok (populate_rmw_names_and_types
            (names_and_types_from_gids entities_map (get_entities_gids node_info) demangle_topic demangle_type))
  end.

Definition get_writer_names_and_types_by_node (s : GraphCache) (name namespace : string)
    (demangle_topic demangle_type : string -> string) (args_valid : bool) :=
  get_names_and_types_by_node (participants_ s) (data_writers_ s) name namespace demangle_topic demangle_type
    writer_gid_seq args_valid.
Definition get_reader_names_and_types_by_node (s : GraphCache) (name namespace : string)
    (demangle_topic demangle_type : string -> string) (args_valid : bool) :=
  get_names_and_types_by_node (participants_ s) (data_readers_ s) name namespace demangle_topic demangle_type
    reader_gid_seq args_valid.

Definition get_number_of_nodes (s : GraphCache) : nat :=
  fold_left (fun nodes_number elem => (nodes_number + length (node_entities_info_seq elem.2))%nat)
    (items (participants_ s)) 0%nat.

(** The three arrays, which are filled in step; [enclaves] may be null. *)
Definition get_node_names (s : GraphCache) (enclaves_given args_valid : bool)
  : Result rmw_ret (list string * list string * option (list string)) :=
  if negb args_valid then Throw RMW_RET_INVALID_ARGUMENT else
  let nodes := concat (map (fun elem => map (fun n => (node_name n, node_namespace n, enclave elem.2))
                 (node_entities_info_seq elem.2)) (items (participants_ s))) in
  Ok (map (fun x => x.1.1) nodes, map (fun x => x.1.2) nodes,
      if enclaves_given then Some (map snd nodes) else None).

(** ** Traversal *)

Lemma items_lookup {A} (m : gmap Gid A) k x : (k, x) ∈ items m <-> m !! k = Some x.
Proof. unfold items. by rewrite merge_sort_Permutation, elem_of_map_to_list. Qed.

Lemma items_nodup {A} (m : gmap Gid A) : NoDup (map fst (items m)).
Proof. unfold items. rewrite merge_sort_Permutation. apply NoDup_fst_map_to_list. Qed.

Lemma sorted_strict {A} (l : list (Gid * A)) :
  StronglySorted (item_le N.le) l -> NoDup (map fst l) -> StronglySorted N.lt (map fst l).
Proof.
  induction 1 as [|x l Hs IH Hx]; simpl; [constructor|]. intros [Hn Hnd]%NoDup_cons.
  constructor; [by apply IH|]. apply Forall_forall. intros k Hk.
  destruct (proj1 (list_elem_of_fmap fst l k) Hk) as (y & -> & Hy).
  rewrite Forall_forall in Hx. specialize (Hx y Hy). unfold item_le in Hx.
  destruct (decide (x.1 = y.1)) as [E|]; [|lia]. by rewrite E in Hn.
Qed.

Lemma items_sorted {A} (m : gmap Gid A) : StronglySorted N.lt (map fst (items m)).
Proof.
  apply sorted_strict; [|apply items_nodup]. unfold items. apply StronglySorted_merge_sort; apply _.
Qed.

Lemma map_fst_filter_sorted {A} (f : Gid * A -> bool) (l : list (Gid * A)) :
  StronglySorted N.lt (map fst l) -> StronglySorted N.lt (map fst (List.filter f l)).
Proof.
  intros H. induction l as [|x l IH]; simpl in *; [done|].
  inversion H as [|? ? Hs Hx]; subst. destruct (f x); simpl; [|by apply IH]. constructor; [by apply IH|].
  rewrite Forall_forall in *. intros k Hk. apply Hx.
  destruct (proj1 (list_elem_of_fmap fst _ k) Hk) as (y & -> & Hy). apply list_elem_of_fmap_2.
  apply list_elem_of_In in Hy. apply filter_In in Hy as [Hy _]. by apply list_elem_of_In.
Qed.

(** ** Endpoints of a topic *)

(** What is reported about the node of an endpoint. *)
Inductive reported_node (participant_map : ParticipantToNodesMap) (is_reader : bool) (participant gid : Gid)
  : string -> string -> Prop :=
| reported_bare :
    participant_map !! participant = None ->
    reported_node participant_map is_reader participant gid "_CREATED_BY_BARE_DDS_APP_" "_CREATED_BY_BARE_DDS_APP_"
| reported_unknown p :
    participant_map !! participant = Some p ->
    (forall n, n ∈ node_entities_info_seq p -> gid ∉ gid_seq is_reader n) ->
    reported_node participant_map is_reader participant gid "_NODE_NAME_UNKNOWN_" "_NODE_NAMESPACE_UNKNOWN_"
| reported_found p l1 n l2 :
    participant_map !! participant = Some p ->
    node_entities_info_seq p = l1 ++ n :: l2 ->
    (forall n', n' ∈ l1 -> gid ∉ gid_seq is_reader n') -> gid ∈ gid_seq is_reader n ->
    reported_node participant_map is_reader participant gid (node_name n) (node_namespace n).

Lemma existsb_gid g l : existsb (N.eqb g) l = true <-> g ∈ l.
Proof.
  rewrite existsb_exists. setoid_rewrite N.eqb_eq. split.
  - intros (x & Hx & ->). by apply list_elem_of_In.
  - intros H. exists g. by apply list_elem_of_In in H.
Qed.

Lemma find_first {A} (f : A -> bool) l :
  match List.find f l with
  | Some x => exists l1 l2, l = l1 ++ x :: l2 /\ f x = true /\ forall y, y ∈ l1 -> f y = false
  | None => forall y, y ∈ l -> f y = false
  end.
Proof.
  induction l as [|x l IH]; simpl; [by intros y Hy%elem_of_nil|]. destruct (f x) eqn:E.
  - exists [], l. split_and!; [done..|]. by intros y Hy%elem_of_nil.
  - destruct (List.find f l) as [z|].
    + destruct IH as (l1 & l2 & -> & Hz & Hl). exists (x :: l1), l2. split_and!; [done..|].
      intros y [->|Hy]%elem_of_cons; auto.
    + intros y [->|Hy]%elem_of_cons; auto.
Qed.

Lemma endpoint_info_spec pm dem (is_reader : bool) gid e :
  let i := endpoint_info pm dem is_reader (gid, e) in
  reported_node pm is_reader (participant_gid e) gid (info_node_name i) (info_node_namespace i) /\
  info_topic_type i = dem (topic_type e) /\ info_topic_type_hash i = topic_type_hash e /\
  info_endpoint_gid i = gid /\ info_qos_profile i = qos e /\
  info_endpoint_type i = (if is_reader then RMW_ENDPOINT_SUBSCRIPTION else RMW_ENDPOINT_PUBLISHER).
Proof.
  cbv zeta. unfold endpoint_info, find_name_and_namespace_from_entity_gid.
  destruct (pm !! participant_gid e) as [p|] eqn:Ep; [|split; [by apply reported_bare|done]].
  pose proof (find_first (fun n => existsb (N.eqb gid) (gid_seq is_reader n)) (node_entities_info_seq p)) as Hf.
  destruct (List.find _ _) as [n|]; split; try done.
  - destruct Hf as (l1 & l2 & El & Hn & Hl). apply existsb_gid in Hn.
    eapply reported_found; [done..| |done]. intros n' Hn' Hg. apply existsb_gid in Hg. by rewrite Hl in Hg.
  - eapply reported_unknown; [done|]. intros n Hn Hg. apply existsb_gid in Hg. by rewrite Hf in Hg.
Qed.

(** the endpoints reported for a topic are exactly the writers (or
    readers) discovered on it, once each and by increasing gid, as many as
    the count says, each with its type, hash and profile, and with the first
    node of its participant that announces it, or with the placeholders for
    an endpoint no node announces and for an unknown participant. *)
Theorem entities_info_by_topic_exact s topic dem (is_reader : bool) :
  let entities := if is_reader then data_readers_ s else data_writers_ s in
  let l := if is_reader then get_readers_info_by_topic s topic dem else get_writers_info_by_topic s topic dem in
  (if is_reader then get_reader_count s topic true else get_writer_count s topic true) = Ok (length l) /\
  StronglySorted N.lt (map info_endpoint_gid l) /\
  (forall gid, (exists i, i ∈ l /\ info_endpoint_gid i = gid) <->
     exists e, entities !! gid = Some e /\ topic_name e = topic) /\
  forall i e, i ∈ l -> entities !! info_endpoint_gid i = Some e ->
    reported_node (participants_ s) is_reader (participant_gid e) (info_endpoint_gid i) (info_node_name i) (info_node_namespace i) /\
    info_topic_type i = dem (topic_type e) /\ info_topic_type_hash i = topic_type_hash e /\ info_qos_profile i = qos e /\
    info_endpoint_type i = if is_reader then RMW_ENDPOINT_SUBSCRIPTION else RMW_ENDPOINT_PUBLISHER.
Proof.
  cbv zeta. set (entities := if is_reader then data_readers_ s else data_writers_ s).
  replace (if is_reader then get_readers_info_by_topic s topic dem else get_writers_info_by_topic s topic dem)
    with (get_entities_info_by_topic entities (participants_ s) topic dem is_reader) by by destruct is_reader.
  replace (if is_reader then get_reader_count s topic true else get_writer_count s topic true)
    with (Ok (E := rmw_ret) (get_count entities topic)) by by destruct is_reader.
  clearbody entities. unfold get_entities_info_by_topic, get_count.
  assert (Hin : forall i, i ∈ map (endpoint_info (participants_ s) dem is_reader) (List.filter (has_topic topic) (items entities)) <->
    exists gid e, i = endpoint_info (participants_ s) dem is_reader (gid, e) /\ entities !! gid = Some e /\ topic_name e = topic).
  { intros i. rewrite list_elem_of_fmap. setoid_rewrite list_elem_of_In. setoid_rewrite filter_In.
    setoid_rewrite <- list_elem_of_In. split.
    - intros ([gid e] & -> & Hi & Ht). apply items_lookup in Hi. unfold has_topic in Ht. apply String.eqb_eq in Ht. eauto.
    - intros (gid & e & -> & Hi & Ht). exists (gid, e). rewrite items_lookup. unfold has_topic. by rewrite String.eqb_eq. }
  split_and!.
  - by rewrite length_map.
  - rewrite map_map. rewrite (map_ext _ (fst : Gid * EntityInfo -> Gid)); [apply map_fst_filter_sorted, items_sorted|].
    intros [gid e]. by destruct (endpoint_info_spec (participants_ s) dem is_reader gid e) as (_ & _ & _ & -> & _).
  - intros gid. setoid_rewrite Hin. split.
    + intros (i & (gid' & e & -> & He & Ht) & <-).
      destruct (endpoint_info_spec (participants_ s) dem is_reader gid' e) as (_ & _ & _ & -> & _). eauto.
    + intros (e & He & Ht). exists (endpoint_info (participants_ s) dem is_reader (gid, e)).
      destruct (endpoint_info_spec (participants_ s) dem is_reader gid e) as (_ & _ & _ & E & _). eauto 6.
  - intros i e' Hi He'. apply Hin in Hi as (gid & e & -> & He & _).
    destruct (endpoint_info_spec (participants_ s) dem is_reader gid e) as (H1 & H2 & H3 & H4 & H5 & H6).
    rewrite H4 in *. rewrite He in He'. injection He' as <-. done.
Qed.

(** ** Names and types of topics *)

Definition topics_have (topics : NamesAndTypes) (t y : string) : Prop :=
  exists ys, topics !! t = Some ys /\ y ∈ ys.

Definition no_empty_entry (topics : NamesAndTypes) : Prop := forall t ys, topics !! t = Some ys -> ys <> ∅.

Section Topics.
Context (demangle_topic demangle_type : string -> string).

Definition is_topic_of (t y : string) (e : EntityInfo) : Prop :=
  t <> ""%string /\ demangle_topic (topic_name e) = t /\ demangle_type (topic_type e) = y.

Lemma note_topic_have topics e t y :
  topics_have (note_topic demangle_topic demangle_type topics e) t y <-> topics_have topics t y \/ is_topic_of t y e.
Proof.
  unfold note_topic, is_topic_of, topics_have. destruct (String.eqb_spec "" (demangle_topic (topic_name e))) as [E|E].
  - split; [by left|]. intros [H|(H & Ht & _)]; congruence.
  - split.
    + intros (ys & H & Hy). destruct (decide (t = demangle_topic (topic_name e))) as [->|Hne].
      * rewrite lookup_insert_eq in H. injection H as <-.
        apply elem_of_union in Hy as [->%elem_of_singleton|Hy]; [by right|left].
        destruct (topics !! _) as [ys|]; [by exists ys|by apply elem_of_empty in Hy].
      * rewrite lookup_insert_ne in H by done. eauto.
    + intros [(ys & H & Hy)|(Hne & <- & <-)]; [|rewrite lookup_insert_eq; eexists; split; [done|];
        apply elem_of_union_l, elem_of_singleton_2; done].
      destruct (decide (t = demangle_topic (topic_name e))) as [->|Hne].
      * rewrite lookup_insert_eq, H. eexists. split; [done|]. by apply elem_of_union_r.
      * rewrite lookup_insert_ne by done. eauto.
Qed.

Lemma note_topic_nonempty topics e :
  no_empty_entry topics -> no_empty_entry (note_topic demangle_topic demangle_type topics e).
Proof.
  intros H t ys. unfold note_topic. destruct (String.eqb _ _); [by apply H|].
  destruct (decide (t = demangle_topic (topic_name e))) as [->|Hne].
  - rewrite lookup_insert_eq. intros [= <-]. set_solver.
  - rewrite lookup_insert_ne by done. apply H.
Qed.

Lemma names_and_types_have entities topics t y :
  topics_have (names_and_types entities demangle_topic demangle_type topics) t y <->
  topics_have topics t y \/ exists gid e, entities !! gid = Some e /\ is_topic_of t y e.
Proof.
  setoid_rewrite <- items_lookup. unfold names_and_types. revert topics.
  induction (items entities) as [|[gid e] l IH]; intros topics; cbn [fold_left].
  - split; [by left|]. intros [H|(? & ? & H & _)]; [done|by apply elem_of_nil in H].
  - rewrite IH, note_topic_have. split.
    + intros [[H|H]|(gid' & e' & H & H')]; [by left|right; exists gid, e|right; exists gid', e']; split; try done; by constructor.
    + intros [H|(gid' & e' & [[= -> ->]|H]%elem_of_cons & H')]; eauto.
Qed.

Lemma names_and_types_nonempty entities topics :
  no_empty_entry topics -> no_empty_entry (names_and_types entities demangle_topic demangle_type topics).
Proof.
  unfold names_and_types. revert topics. induction (items entities) as [|x l IH]; intros topics H; [done|].
  apply IH. by apply note_topic_nonempty.
Qed.
End Topics.

Lemma populate_elem topics t types :
  (t, types) ∈ populate_rmw_names_and_types topics <->
  exists ys, topics !! t = Some ys /\ types = merge_sort string_le (elements ys).
Proof.
  unfold populate_rmw_names_and_types. rewrite list_elem_of_fmap. split.
  - intros ([t' ys] & [= -> ->] & H). rewrite merge_sort_Permutation, elem_of_map_to_list in H. eauto.
  - intros (ys & H & ->). exists (t, ys). split; [done|]. by rewrite merge_sort_Permutation, elem_of_map_to_list.
Qed.

Lemma sorted_map_fst (l : list (string * gset string)) :
  StronglySorted (item_le string_le) l -> StronglySorted string_le (map fst l).
Proof.
  induction 1 as [|x l Hs IH Hx]; simpl; constructor; [done|]. rewrite Forall_forall in Hx.
  apply Forall_forall. intros k Hk. destruct (proj1 (list_elem_of_fmap fst l k) Hk) as (y & -> & Hy). by apply Hx.
Qed.

Lemma populate_names topics :
  map fst (populate_rmw_names_and_types topics) = map fst (merge_sort (item_le string_le) (map_to_list topics)).
Proof. unfold populate_rmw_names_and_types. rewrite map_map. by apply map_ext. Qed.

(** What the arrays of a query contain. *)
Record lists_topics (l : list (string * list string)) (P : string -> string -> Prop) : Prop := {
  names_once : NoDup (map fst l);
  names_sorted : StronglySorted string_le (map fst l);
  types_once : forall t types, (t, types) ∈ l -> NoDup types /\ StronglySorted string_le types /\ types <> [];
  types_exact : forall t y, (exists types, (t, types) ∈ l /\ y ∈ types) <-> P t y;
}.

Lemma populate_lists topics P :
  no_empty_entry topics -> (forall t y, topics_have topics t y <-> P t y) ->
  lists_topics (populate_rmw_names_and_types topics) P.
Proof.
  intros Hne HP. split.
  - rewrite populate_names, merge_sort_Permutation. apply NoDup_fst_map_to_list.
  - rewrite populate_names. apply sorted_map_fst, StronglySorted_merge_sort; apply _.
  - intros t types (ys & Ht & ->)%populate_elem. split_and!.
    + rewrite merge_sort_Permutation. apply NoDup_elements.
    + apply StronglySorted_merge_sort; apply _.
    + intros E. apply (Hne _ _ Ht). apply leibniz_equiv, elements_empty_inv. apply Permutation_nil. rewrite <- E. apply merge_sort_Permutation.
  - intros t y. rewrite <- HP. setoid_rewrite populate_elem. split.
    + intros (types & (ys & Ht & ->) & Hy). rewrite merge_sort_Permutation, elem_of_elements in Hy. by exists ys.
    + intros (ys & Ht & Hy). exists (merge_sort string_le (elements ys)). split; [by exists ys|].
      by rewrite merge_sort_Permutation, elem_of_elements.
Qed.

(** C15: If no allocation fails, the topic names and types of the graph are
    exactly those of the discovered readers and writers whose topic name demangles to something,
    every name once and every type of it once, both in alphabetical order. *)
Theorem get_names_and_types_exact s demangle_topic demangle_type :
  exists l, get_names_and_types s demangle_topic demangle_type true = Ok l /\
  lists_topics l (fun t y =>
    exists gid e, (data_readers_ s !! gid = Some e \/ data_writers_ s !! gid = Some e) /\
      is_topic_of demangle_topic demangle_type t y e).
Proof.
  eexists. split; [done|]. apply populate_lists.
  - do 2 apply names_and_types_nonempty. intros t ys. by rewrite lookup_empty.
  - intros t y. rewrite !names_and_types_have. unfold topics_have at 1. setoid_rewrite lookup_empty. naive_solver.
Qed.

Lemma names_and_types_from_gids_have entities gids dt dty t y :
  topics_have (names_and_types_from_gids entities gids dt dty) t y <->
  exists gid e, gid ∈ gids /\ entities !! gid = Some e /\ is_topic_of dt dty t y e.
Proof.
  unfold names_and_types_from_gids.
  enough (H : forall topics, topics_have (fold_left (fun topics gid => match entities !! gid with
      | None => topics | Some e => note_topic dt dty topics e end) gids topics) t y <->
    topics_have topics t y \/ exists gid e, gid ∈ gids /\ entities !! gid = Some e /\ is_topic_of dt dty t y e).
  { rewrite H. unfold topics_have at 1. setoid_rewrite lookup_empty. naive_solver. }
  induction gids as [|gid gids IH]; intros topics; cbn [fold_left].
  - split; [by left|]. intros [H|(? & ? & H & _)]; [done|by apply elem_of_nil in H].
  - rewrite IH. setoid_rewrite elem_of_cons. destruct (entities !! gid) as [e|] eqn:E; [rewrite note_topic_have|]; naive_solver.
Qed.

Lemma names_and_types_from_gids_nonempty entities gids dt dty :
  no_empty_entry (names_and_types_from_gids entities gids dt dty).
Proof.
  unfold names_and_types_from_gids.
  assert (H : no_empty_entry (∅ : NamesAndTypes)) by (intros t ys; by rewrite lookup_empty). revert H.
  generalize (∅ : NamesAndTypes). induction gids as [|gid gids IH]; intros topics H; [done|]. cbn [fold_left].
  apply IH. destruct (entities !! gid); [by apply note_topic_nonempty|done].
Qed.

(** The first node of that name in the order of the participants. *)
Inductive first_node (participant_map : ParticipantToNodesMap) (name namespace : string) (n : NodeEntitiesInfo) : Prop :=
| first_node_intro l1 l2 :
    concat (map (fun p => node_entities_info_seq p.2) (items participant_map)) = l1 ++ n :: l2 ->
    node_name n = name -> node_namespace n = namespace ->
    (forall n', n' ∈ l1 -> ~ (node_name n' = name /\ node_namespace n' = namespace)) ->
    first_node participant_map name namespace n.

Lemma is_node_true name namespace n :
  is_node name namespace n = true <-> node_name n = name /\ node_namespace n = namespace.
Proof. unfold is_node. by rewrite andb_true_iff, !String.eqb_eq. Qed.

Definition node_exists (participant_map : ParticipantToNodesMap) (name namespace : string) : Prop :=
  exists gid p n, participant_map !! gid = Some p /\ n ∈ node_entities_info_seq p /\
    node_name n = name /\ node_namespace n = namespace.

Lemma find_node_spec participant_map name namespace :
  match find_node participant_map name namespace with
  | Some n => first_node participant_map name namespace n
  | None => ~ node_exists participant_map name namespace
  end.
Proof.
  unfold find_node. pose proof (find_first (is_node name namespace)
    (concat (map (fun p => node_entities_info_seq p.2) (items participant_map)))) as H.
  destruct (List.find _ _) as [n|].
  - destruct H as (l1 & l2 & El & Hn & Hl). apply is_node_true in Hn as [Hn1 Hn2]. econstructor; try done.
    intros n' Hn' Hc. apply is_node_true in Hc. by rewrite Hl in Hc.
  - intros (gid & p & n & Hp & Hn & Hc). apply is_node_true in Hc. rewrite H in Hc; [done|].
    apply list_elem_of_In, in_concat. exists (node_entities_info_seq p). split; [|by apply list_elem_of_In].
    apply in_map_iff. exists (gid, p). split; [done|]. apply list_elem_of_In. by apply items_lookup.
Qed.

(** the topics reported for a node are exactly those of the discovered
    writers that the first node of that name announces, in alphabetical
    order; the query fails exactly when no participant announces the node. *)
Theorem names_and_types_by_node_exact s name namespace dt dty :
  match get_writer_names_and_types_by_node s name namespace dt dty true with
  | Throw e => e = RMW_RET_NODE_NAME_NON_EXISTENT /\ ~ node_exists (participants_ s) name namespace
  | Ok l => exists n, first_node (participants_ s) name namespace n /\
      lists_topics l (fun t y => exists gid e, gid ∈ writer_gid_seq n /\ data_writers_ s !! gid = Some e /\ is_topic_of dt dty t y e)
  end.
Proof.
  unfold get_writer_names_and_types_by_node, get_names_and_types_by_node.
  pose proof (find_node_spec (participants_ s) name namespace) as H. destruct (find_node _ _ _) as [n|]; [|done].
  exists n. split; [done|]. apply populate_lists; [apply names_and_types_from_gids_nonempty|].
  intros t y. apply names_and_types_from_gids_have.
Qed.

(** ** Number of nodes *)

Lemma fold_nodes_length (l : list (Gid * ParticipantInfo)) n :
  fold_left (fun nodes_number elem => (nodes_number + length (node_entities_info_seq elem.2))%nat) l n =
  (n + length (concat (map (fun elem => map (fun i => (node_name i, node_namespace i, enclave elem.2))
                         (node_entities_info_seq elem.2)) l)))%nat.
Proof.
  revert n. induction l as [|x l IH]; intros n; cbn [fold_left map concat]; [simpl; lia|].
  rewrite IH, length_app, length_map. lia.
Qed.

(** The arrays have the size they are allocated with. *)
Lemma get_node_names_length s :
  exists names namespaces enclaves, get_node_names s true true = Ok (names, namespaces, Some enclaves) /\
  length names = get_number_of_nodes s /\ length namespaces = get_number_of_nodes s /\ length enclaves = get_number_of_nodes s.
Proof.
  unfold get_number_of_nodes. eexists _, _, _. split; [done|]. rewrite !length_map, fold_nodes_length. done.
Qed.

(** ** Witnesses *)

Definition sample_entity (topic : string) : EntityInfo :=
  mkEntityInfo topic "std_msgs/msg/String" rosidl_get_zero_initialized_type_hash 1 rmw_qos_profile_services_default.

Definition sample_graph : GraphCache :=
  (add_writer (add_writer (add_participant GraphCache_init 1 "/") 10 (sample_entity "rt/chatter")).1
     3 (sample_entity "rt/chatter")).1.

Lemma entities_info_by_topic_exact_witness :
  Ok (E := rmw_ret) (length (get_writers_info_by_topic sample_graph "rt/chatter" id)) = Ok 2%nat /\
  exists i, i ∈ get_writers_info_by_topic sample_graph "rt/chatter" id /\ info_endpoint_gid i = 10%N /\
    info_topic_type i = "std_msgs/msg/String"%string.
Proof.
  destruct (entities_info_by_topic_exact sample_graph "rt/chatter" id false) as (H1 & _ & H2 & H3).
  split; [rewrite <- H1; reflexivity|].
  destruct (proj2 (H2 10%N)) as (i & Hi & Hg); [exists (sample_entity "rt/chatter"); vm_compute; done|].
  exists i. split; [exact Hi|]. split; [exact Hg|].
  destruct (H3 i (sample_entity "rt/chatter") Hi) as (_ & -> & _); [rewrite Hg; vm_compute; reflexivity|reflexivity].
Defined.

Lemma names_and_types_by_node_exact_witness :
  ~ node_exists (participants_ sample_graph) "talker" "/".
Proof. exact (proj2 (names_and_types_by_node_exact sample_graph "talker" "/" id id)). Defined.
