(* ===== verification/GraphContext.v ===== *)
(** * Announcing the local graph

    [rmw_dds_common/src/context.cpp]: creating or destroying a node, or an
    endpoint of one, updates the graph cache and publishes the nodes of the
    local participant, from which the other participants update theirs.  An
    addition whose message cannot be published is undone.

    [sent] is what the publish callback answers to the call at hand.  Each
    function holds [node_update_mutex], so it is one step. *)

From Stdlib Require Import NArith ZArith Lia String.
From stdpp Require Import base numbers list strings gmap fin_maps sets.
From S2P Require Import Prelude Qos TypeHash GraphCache.

Record Context := mkContext {
  gid : Gid;
  pub : bool;
  publish_callback : bool;
  graph_cache : GraphCache;
}.

(** [RMW_RET_OK] with the message that was published, or [RMW_RET_ERROR]. *)
Inductive Outcome := Published (msg : ParticipantEntitiesInfo) | NotPublished.

Definition call_publish_callback (c : Context) (sent : bool) : bool :=
  if negb (pub c) || negb (publish_callback c) || negb sent then false else true.

Definition set_cache (c : Context) (g : GraphCache) : Context :=
  mkContext (gid c) (pub c) (publish_callback c) g.

Definition Step : Type := Result graph_error (Context * Outcome).

(** Publish the message, or undo what was done. *)
Definition publish_or (c : Context) (sent : bool) (g : GraphCache) (msg : ParticipantEntitiesInfo)
    (undo : Result graph_error GraphCache) : Step :=
  if call_publish_callback c sent then Ok (set_cache c g, Published msg)
  else let! g := undo in Ok (set_cache c g, NotPublished).

Definition add_node_graph (c : Context) (sent : bool) (name namespace : string) : Step :=
  let! (g, msg) := add_node (graph_cache c) (gid c) name namespace in
  publish_or c sent g msg (let! (g, _) := remove_node g (gid c) name namespace in Ok g).

Definition remove_node_graph (c : Context) (sent : bool) (name namespace : string) : Step :=
  let! (g, msg) := remove_node (graph_cache c) (gid c) name namespace in
  publish_or c sent g msg (Ok g).

Definition add_subscriber_graph (c : Context) (sent : bool) (subscription_gid : Gid) (name namespace : string) : Step :=
  let! (g, msg) := associate_reader (graph_cache c) subscription_gid (gid c) name namespace in
  publish_or c sent g msg
    (let! (g, _) := dissociate_reader g subscription_gid (gid c) name namespace in Ok g).

Definition remove_subscriber_graph (c : Context) (sent : bool) (subscription_gid : Gid) (name namespace : string) : Step :=
  let! (g, msg) := dissociate_reader (graph_cache c) subscription_gid (gid c) name namespace in
  publish_or c sent g msg (Ok g).

Definition add_publisher_graph (c : Context) (sent : bool) (publisher_gid : Gid) (name namespace : string) : Step :=
  let! (g, msg) := associate_writer (graph_cache c) publisher_gid (gid c) name namespace in
  publish_or c sent g msg
    (let! (g, _) := dissociate_writer g publisher_gid (gid c) name namespace in Ok g).

Definition remove_publisher_graph (c : Context) (sent : bool) (publisher_gid : Gid) (name namespace : string) : Step :=
  let! (g, msg) := dissociate_writer (graph_cache c) publisher_gid (gid c) name namespace in
  publish_or c sent g msg (Ok g).

Definition add_client_graph (c : Context) (sent : bool) (request_publisher_gid response_subscriber_gid : Gid)
    (name namespace : string) : Step :=
  let! (g, _) := associate_writer (graph_cache c) request_publisher_gid (gid c) name namespace in
  let! (g, msg) := associate_reader g response_subscriber_gid (gid c) name namespace in
  publish_or c sent g msg
    (let! (g, _) := dissociate_reader g response_subscriber_gid (gid c) name namespace in
     let! (g, _) := dissociate_writer g request_publisher_gid (gid c) name namespace in Ok g).

Definition remove_client_graph (c : Context) (sent : bool) (request_publisher_gid response_subscriber_gid : Gid)
    (name namespace : string) : Step :=
  let! (g, _) := dissociate_writer (graph_cache c) request_publisher_gid (gid c) name namespace in
  let! (g, msg) := dissociate_reader g response_subscriber_gid (gid c) name namespace in
  publish_or c sent g msg (Ok g).

Definition add_service_graph (c : Context) (sent : bool) (request_subscriber_gid response_publisher_gid : Gid)
    (name namespace : string) : Step :=
  let! (g, _) := associate_reader (graph_cache c) request_subscriber_gid (gid c) name namespace in
  let! (g, msg) := associate_writer g response_publisher_gid (gid c) name namespace in
  publish_or c sent g msg
    (let! (g, _) := dissociate_writer g response_publisher_gid (gid c) name namespace in
     let! (g, _) := dissociate_reader g request_subscriber_gid (gid c) name namespace in Ok g).

Definition remove_service_graph (c : Context) (sent : bool) (request_subscriber_gid response_publisher_gid : Gid)
    (name namespace : string) : Step :=
  let! (g, _) := dissociate_reader (graph_cache c) request_subscriber_gid (gid c) name namespace in
  let! (g, msg) := dissociate_writer g response_publisher_gid (gid c) name namespace in
  publish_or c sent g msg (Ok g).

(** ** Sequences of calls *)

Inductive ContextOp :=
| AddNode
| RemoveNode
| AddSubscriber (subscription_gid : Gid)
| RemoveSubscriber (subscription_gid : Gid)
| AddPublisher (publisher_gid : Gid)
| RemovePublisher (publisher_gid : Gid)
| AddClient (request_publisher_gid response_subscriber_gid : Gid)
| RemoveClient (request_publisher_gid response_subscriber_gid : Gid)
| AddService (request_subscriber_gid response_publisher_gid : Gid)
| RemoveService (request_subscriber_gid response_publisher_gid : Gid).

Definition context_op (c : Context) (o : ContextOp) (sent : bool) (name namespace : string) : Step :=
  match o with
  | AddNode => add_node_graph c sent name namespace
  | RemoveNode => remove_node_graph c sent name namespace
  | AddSubscriber r => add_subscriber_graph c sent r name namespace
  | RemoveSubscriber r => remove_subscriber_graph c sent r name namespace
  | AddPublisher w => add_publisher_graph c sent w name namespace
  | RemovePublisher w => remove_publisher_graph c sent w name namespace
  | AddClient w r => add_client_graph c sent w r name namespace
  | RemoveClient w r => remove_client_graph c sent w r name namespace
  | AddService r w => add_service_graph c sent r w name namespace
  | RemoveService r w => remove_service_graph c sent r w name namespace
  end.

(** ** The local participant and another one

    The other participant receives what is published, in order, and learns
    of everything else in between: endpoints and other participants come
    and go, and the enclave of the local one becomes known. *)

Inductive Discovery :=
| DiscoverEndpoint (endpoint_gid : Gid) (e : EntityInfo) (is_reader : bool)
| LoseEndpoint (endpoint_gid : Gid) (is_reader : bool)
| DiscoverParticipant (other : Gid) (enclave : string)
| UpdateOther (msg : ParticipantEntitiesInfo)
| LoseParticipant (other : Gid).

Definition discover (g : GraphCache) (d : Discovery) : GraphCache :=
  match d with
  | DiscoverEndpoint e_gid e is_reader => (add_entity g e_gid e is_reader).1
  | LoseEndpoint e_gid is_reader => (remove_entity g e_gid is_reader).1
  | DiscoverParticipant other enclave => add_participant g other enclave
  | UpdateOther msg => update_participant_entities g msg
  | LoseParticipant other => (remove_participant g other).1
  end.

(** Discovery of something else than the nodes of participant [p]. *)
Definition elsewhere (p : Gid) (d : Discovery) : bool :=
  match d with
  | UpdateOther msg => negb (msg_gid msg =? p)%N
  | LoseParticipant other => negb (other =? p)%N
  | _ => true
  end.

Inductive Event :=
| Local (o : ContextOp) (sent : bool) (name namespace : string)
| Remote (d : Discovery).

Definition nodes_of (g : GraphCache) (p : Gid) : list NodeEntitiesInfo :=
  node_entities_info_seq (participant_or_new g p).

(** The node that an operation on [name] acts on. *)
Definition node_of (c : Context) (name namespace : string) : option NodeEntitiesInfo :=
  List.find (is_node name namespace) (nodes_of (graph_cache c) (gid c)).

(** An addition of something new: a name that is not in use, gids that the
    node does not have. *)
Definition adds_new (c : Context) (o : ContextOp) (name namespace : string) : bool :=
  let fresh_reader r := match node_of c name namespace with
    | Some n => negb (existsb (N.eqb r) (reader_gid_seq n)) | None => false end in
  let fresh_writer w := match node_of c name namespace with
    | Some n => negb (existsb (N.eqb w) (writer_gid_seq n)) | None => false end in
  match o with
  | AddNode => match node_of c name namespace with None => true | Some _ => false end
  | AddSubscriber r => fresh_reader r
  | AddPublisher w => fresh_writer w
  | AddClient w r => fresh_writer w && fresh_reader r
  | AddService r w => fresh_reader r && fresh_writer w
  | _ => false
  end.

(** [up_to_date]: since the last message that was published, only additions
    of something new have failed. *)
Record World := mkWorld {
  local : Context;
  remote : GraphCache;
  up_to_date : bool;
}.

Definition world_step (w : World) (e : Event) : Result graph_error World :=
  match e with
  | Local o sent name namespace =>
      let! (c, outcome) := context_op (local w) o sent name namespace in
      match outcome with
      | Published msg => Ok (mkWorld c (update_participant_entities (remote w) msg) true)
      | NotPublished => Ok (mkWorld c (remote w) (up_to_date w && adds_new (local w) o name namespace))
      end
  | Remote d =>
      if elsewhere (gid (local w)) d then Ok (mkWorld (local w) (discover (remote w) d) (up_to_date w))
      else Ok w
  end.

Fixpoint world_run (w : World) (events : list Event) : Result graph_error World :=
  match events with
  | [] => Ok w
  | e :: events => let! w := world_step w e in world_run w events
  end.

(** ** The operations on the list of nodes *)

Definition nodes_add (name namespace : string) (l : list NodeEntitiesInfo) : option (list NodeEntitiesInfo) :=
  Some (l ++ [mkNodeEntitiesInfo namespace name [] []]).

Definition nodes_remove (name namespace : string) (l : list NodeEntitiesInfo) : option (list NodeEntitiesInfo) :=
  match find_split (is_node name namespace) l with Some (l1, _, l2) => Some (l1 ++ l2) | None => None end.

Definition nodes_modify (f : NodeEntitiesInfo -> NodeEntitiesInfo) (name namespace : string) (l : list NodeEntitiesInfo)
  : option (list NodeEntitiesInfo) :=
  match find_split (is_node name namespace) l with Some (l1, n, l2) => Some (l1 ++ f n :: l2) | None => None end.

(** An operation on the nodes of a participant of the cache. *)
Definition on_nodes (F : list NodeEntitiesInfo -> option (list NodeEntitiesInfo)) (s : GraphCache) (p : Gid)
  : Result graph_error (GraphCache * ParticipantEntitiesInfo) :=
  match participants_ s !! p with
  | None => Throw AssertionFailed
  | Some info =>
      match F (node_entities_info_seq info) with
      | None => Throw AssertionFailed
      | Some nodes => Ok (call_on_change_callback (set_nodes s p info nodes), mkParticipantEntitiesInfo p nodes)
      end
  end.

Lemma add_node_on_nodes s p name namespace : add_node s p name namespace = on_nodes (nodes_add name namespace) s p.
Proof. done. Qed.

Lemma remove_node_on_nodes s p name namespace : remove_node s p name namespace = on_nodes (nodes_remove name namespace) s p.
Proof.
  unfold remove_node, on_nodes, nodes_remove. destruct (participants_ s !! p) as [i|]; [|done].
  by destruct (find_split _ _) as [[[] ]|].
Qed.

Lemma modify_on_nodes s p name namespace f : modify_and_notify s p name namespace f = on_nodes (nodes_modify f name namespace) s p.
Proof.
  unfold modify_and_notify, modify_node_info, on_nodes, nodes_modify. destruct (participants_ s !! p) as [i|]; [|done].
  by destruct (find_split _ _) as [[[] ]|].
Qed.

Lemma participants_call_on_change b s : participants_ (call_on_change_callback_if b s) = participants_ s.
Proof. unfold call_on_change_callback_if. by destruct (_ && _). Qed.

Lemma on_nodes_ok F s p s' msg :
  on_nodes F s p = Ok (s', msg) ->
  F (nodes_of s p) = Some (nodes_of s' p) /\ msg = mkParticipantEntitiesInfo p (nodes_of s' p).
Proof.
  unfold on_nodes, nodes_of, participant_or_new. destruct (participants_ s !! p) as [i|]; [|done].
  cbn [default]. destruct (F _) as [nodes|] eqn:E; [|done]. intros [= <- <-].
  unfold call_on_change_callback. rewrite participants_call_on_change. cbn. by rewrite lookup_insert_eq.
Qed.

(** ** Undoing an addition *)

Lemma find_split_spec {A} (p : A -> bool) l :
  match find_split p l with
  | Some (l1, x, l2) => l = l1 ++ x :: l2 /\ List.find p l = Some x /\ p x = true /\ forall y, y ∈ l1 -> p y = false
  | None => List.find p l = None
  end.
Proof.
  induction l as [|x l IH]; [done|]. unfold find_split in *. cbn [span List.find].
  destruct (p x) eqn:E; cbn [negb]; [split_and!; [done..|by intros y Hy%elem_of_nil]|].
  destruct (span _ l) as [l1 [|z l2]]; [done|]. destruct IH as (-> & H & Hz & Hl). split_and!; [done..|].
  intros y [->|Hy]%elem_of_cons; auto.
Qed.

Lemma find_split_app {A} (p : A -> bool) l1 x l2 :
  (forall y, y ∈ l1 -> p y = false) -> p x = true -> find_split p (l1 ++ x :: l2) = Some (l1, x, l2).
Proof.
  unfold find_split. induction l1 as [|y l1 IH]; intros Hl Hx; cbn [app span]; [by rewrite Hx|].
  rewrite Hl by by constructor. cbn [negb]. specialize (IH (fun z Hz => Hl z (list_elem_of_further z y l1 Hz)) Hx).
  destruct (span _ _) as [a [|b c]]; [done|]. by injection IH as -> -> ->.
Qed.

Lemma find_none_all {A} (p : A -> bool) l y : List.find p l = None -> y ∈ l -> p y = false.
Proof. intros H Hy. by apply (find_none p l H), list_elem_of_In. Qed.

Definition keeps_name (f : NodeEntitiesInfo -> NodeEntitiesInfo) : Prop :=
  forall name namespace n, is_node name namespace (f n) = is_node name namespace n.

Lemma nodes_modify_twice f h name namespace l l' :
  keeps_name f -> nodes_modify f name namespace l = Some l' ->
  nodes_modify h name namespace l' = nodes_modify (h ∘ f) name namespace l.
Proof.
  intros Hf. unfold nodes_modify. pose proof (find_split_spec (is_node name namespace) l) as Hs.
  destruct (find_split _ l) as [[[l1 n] l2]|]; [|done]. destruct Hs as (-> & _ & Hn & Hl). intros [= <-].
  by rewrite find_split_app by (done || by rewrite Hf).
Qed.

Lemma nodes_modify_same f name namespace l l' n :
  List.find (is_node name namespace) l = Some n -> f n = n -> nodes_modify f name namespace l = Some l' -> l' = l.
Proof.
  intros Hn Hf. unfold nodes_modify. pose proof (find_split_spec (is_node name namespace) l) as Hs.
  destruct (find_split _ l) as [[[l1 n'] l2]|]; [|done]. destruct Hs as (-> & Hn' & _ & _). intros [= <-]. congruence.
Qed.

Lemma nodes_add_remove name namespace l l1 l2 :
  List.find (is_node name namespace) l = None ->
  nodes_add name namespace l = Some l1 -> nodes_remove name namespace l1 = Some l2 -> l2 = l.
Proof.
  intros Hn [= <-]. unfold nodes_remove. rewrite find_split_app.
  - intros [= <-]. by rewrite app_nil_r.
  - intros y. by apply find_none_all.
  - by apply is_node_true.
Qed.

Lemma delete_added g l : existsb (N.eqb g) l = false -> delete_gid g (l ++ [g]) = l.
Proof.
  intros H. unfold delete_gid. rewrite find_split_app; [by rewrite app_nil_r| |by apply N.eqb_refl].
  intros y Hy. apply not_true_iff_false. intros E. apply not_true_iff_false in H. apply H, existsb_exists.
  exists y. split; [by apply list_elem_of_In|done].
Qed.

Lemma delete_added_reader g n :
  existsb (N.eqb g) (reader_gid_seq n) = false -> delete_reader_gid g (add_reader_gid g n) = n.
Proof. intros H. unfold delete_reader_gid. cbn. rewrite delete_added by done. by destruct n. Qed.

Lemma delete_added_writer g n :
  existsb (N.eqb g) (writer_gid_seq n) = false -> delete_writer_gid g (add_writer_gid g n) = n.
Proof. intros H. unfold delete_writer_gid. cbn. rewrite delete_added by done. by destruct n. Qed.

(** ** The messages carry the nodes *)

(** A function of the context: what it publishes are the nodes it leaves,
    and a failed addition of something new leaves what it found. *)
Definition faithful (c : Context) (new : bool) (r : Step) : Prop :=
  forall c' o, r = Ok (c', o) ->
    gid c' = gid c /\
    match o with
    | Published msg => msg = mkParticipantEntitiesInfo (gid c) (nodes_of (graph_cache c') (gid c))
    | NotPublished => new = true -> nodes_of (graph_cache c') (gid c) = nodes_of (graph_cache c) (gid c)
    end.

Lemma publish_or_faithful c new sent g msg undo :
  msg = mkParticipantEntitiesInfo (gid c) (nodes_of g (gid c)) ->
  (new = true -> forall g', undo = Ok g' -> nodes_of g' (gid c) = nodes_of (graph_cache c) (gid c)) ->
  faithful c new (publish_or c sent g msg undo).
Proof.
  intros -> Hu c' o. unfold publish_or. destruct (call_publish_callback c sent); [by intros [= <- <-]|].
  destruct undo as [g'|]; [|done]. intros [= <- <-]. split; [done|]. intros Hn. by apply Hu.
Qed.

Lemma rbind_faithful {X} c new (m : Result graph_error X) (k : X -> Step) :
  (forall x, m = Ok x -> faithful c new (k x)) -> faithful c new (rbind m k).
Proof. intros H. destruct m as [x|]; [by apply H|]. by intros ? ?. Qed.

(** Undoing one and two changes of a node. *)
Lemma undo_one f h name namespace l l1 l2 n :
  List.find (is_node name namespace) l = Some n -> keeps_name f -> h (f n) = n ->
  nodes_modify f name namespace l = Some l1 -> nodes_modify h name namespace l1 = Some l2 -> l2 = l.
Proof.
  intros Hn Hf Hh H1 H2. rewrite (nodes_modify_twice _ _ _ _ _ _ Hf H1) in H2. exact (nodes_modify_same _ _ _ _ _ n Hn Hh H2).
Qed.

Lemma keeps_name_comp f h : keeps_name f -> keeps_name h -> keeps_name (h ∘ f).
Proof. intros Hf Hh name namespace n. simpl. by rewrite Hh, Hf. Qed.

Lemma undo_two f1 f2 h2 h1 name namespace l l1 l2 l3 l4 n :
  List.find (is_node name namespace) l = Some n -> keeps_name f1 -> keeps_name f2 -> keeps_name h2 ->
  h1 (h2 (f2 (f1 n))) = n ->
  nodes_modify f1 name namespace l = Some l1 -> nodes_modify f2 name namespace l1 = Some l2 ->
  nodes_modify h2 name namespace l2 = Some l3 -> nodes_modify h1 name namespace l3 = Some l4 -> l4 = l.
Proof.
  intros Hn Hf1 Hf2 Hh2 Hn' H1 H2 H3 H4.
  rewrite (nodes_modify_twice _ _ _ _ _ _ Hf1 H1) in H2.
  rewrite (nodes_modify_twice _ _ _ _ _ _ (keeps_name_comp _ _ Hf1 Hf2) H2) in H3.
  rewrite (nodes_modify_twice _ _ _ _ _ _ (keeps_name_comp _ _ (keeps_name_comp _ _ Hf1 Hf2) Hh2) H3) in H4.
  exact (nodes_modify_same _ _ _ _ _ n Hn Hn' H4).
Qed.

Lemma keeps_add_writer g : keeps_name (add_writer_gid g). Proof. done. Qed.
Lemma keeps_add_reader g : keeps_name (add_reader_gid g). Proof. done. Qed.
Lemma keeps_delete_writer g : keeps_name (delete_writer_gid g). Proof. done. Qed.
Lemma keeps_delete_reader g : keeps_name (delete_reader_gid g). Proof. done. Qed.

Ltac on_nodes_in H :=
  unfold associate_writer, associate_reader, dissociate_writer, dissociate_reader in H;
  rewrite ?add_node_on_nodes, ?remove_node_on_nodes, ?modify_on_nodes in H;
  apply on_nodes_ok in H.

(** Take apart the undoing of an operation. *)
Ltac undone H :=
  repeat (let g := fresh "g" in let m := fresh "msg" in let E := fresh "E" in
    apply rbind_ok in H; destruct H as ([g m] & E & H); on_nodes_in E; destruct E as [E _]);
  injection H as <-.

Lemma fresh_not_in (P : NodeEntitiesInfo -> list Gid) r o :
  match o with Some n => negb (existsb (N.eqb r) (P n)) | None => false end = true ->
  exists n, o = Some n /\ existsb (N.eqb r) (P n) = false.
Proof. destruct o as [n|]; [|done]. intros H%negb_true_iff. eauto. Qed.

Lemma context_op_faithful c o sent name namespace :
  faithful c (adds_new c o name namespace) (context_op c o sent name namespace).
Proof.
  destruct o; cbn [context_op];
    unfold add_node_graph, remove_node_graph, add_subscriber_graph, remove_subscriber_graph, add_publisher_graph,
      remove_publisher_graph, add_client_graph, remove_client_graph, add_service_graph, remove_service_graph;
    (apply rbind_faithful; intros [g1 msg1] E1; on_nodes_in E1; destruct E1 as [E1 ->]);
    try (apply rbind_faithful; intros [g2 msg2] E2; on_nodes_in E2; destruct E2 as [E2 ->]);
    (apply publish_or_faithful; [done|]); try done; intros Hnew g' H; cbn [adds_new] in Hnew; undone H.
  - destruct (node_of c name namespace) as [|] eqn:En; [done|]. by eapply nodes_add_remove.
  - apply fresh_not_in in Hnew as (n & En & Hn). refine (undo_one _ _ _ _ _ _ _ n En (keeps_add_reader _) _ E1 E).
    by apply delete_added_reader.
  - apply fresh_not_in in Hnew as (n & En & Hn). refine (undo_one _ _ _ _ _ _ _ n En (keeps_add_writer _) _ E1 E).
    by apply delete_added_writer.
  - apply andb_true_iff in Hnew as [(n & En & Hn)%fresh_not_in (n' & En' & Hn')%fresh_not_in].
    assert (n' = n) as -> by congruence.
    refine (undo_two _ _ _ _ _ _ _ _ _ _ _ n En (keeps_add_writer _) (keeps_add_reader _) (keeps_delete_reader _) _ E1 E2 E E0).
    rewrite delete_added_reader by done. by apply delete_added_writer.
  - apply andb_true_iff in Hnew as [(n & En & Hn)%fresh_not_in (n' & En' & Hn')%fresh_not_in].
    assert (n' = n) as -> by congruence.
    refine (undo_two _ _ _ _ _ _ _ _ _ _ _ n En (keeps_add_reader _) (keeps_add_writer _) (keeps_delete_writer _) _ E1 E2 E E0).
    rewrite delete_added_writer by done. by apply delete_added_reader.
Qed.

(** ** The other participant *)

Lemma nodes_of_call b s p : nodes_of (call_on_change_callback_if b s) p = nodes_of s p.
Proof. unfold nodes_of, participant_or_new. by rewrite participants_call_on_change. Qed.

Lemma update_nodes g msg p :
  nodes_of (update_participant_entities g msg) p =
  if (msg_gid msg =? p)%N then msg_node_entities_info_seq msg else nodes_of g p.
Proof.
  unfold update_participant_entities, call_on_change_callback. rewrite nodes_of_call.
  unfold nodes_of, participant_or_new. cbn. destruct (N.eqb_spec (msg_gid msg) p) as [->|Hne].
  - by rewrite lookup_insert_eq.
  - by rewrite lookup_insert_ne.
Qed.

Lemma discover_elsewhere g d p : elsewhere p d = true -> nodes_of (discover g d) p = nodes_of g p.
Proof.
  destruct d as [e_gid e []|e_gid []|other encl|msg|other]; cbn [discover elsewhere]; intros H.
  - unfold add_entity, add_reader. destruct (map_emplace _ _ _). cbn [fst]. by rewrite nodes_of_call.
  - unfold add_entity, add_writer. destruct (map_emplace _ _ _). cbn [fst]. by rewrite nodes_of_call.
  - unfold remove_entity, remove_reader. destruct (map_erase _ _). cbn [fst]. by rewrite nodes_of_call.
  - unfold remove_entity, remove_writer. destruct (map_erase _ _). cbn [fst]. by rewrite nodes_of_call.
  - unfold add_participant, call_on_change_callback. rewrite nodes_of_call. unfold nodes_of, participant_or_new. cbn.
    destruct (decide (p = other)) as [->|Hne]; [by rewrite lookup_insert_eq|by rewrite lookup_insert_ne].
  - rewrite update_nodes. by destruct (_ =? _)%N.
  - unfold remove_participant, map_erase. rewrite negb_true_iff, N.eqb_neq in H.
    destruct (participants_ g !! other); cbn [fst]; rewrite nodes_of_call; [|done].
    unfold nodes_of, participant_or_new. cbn. by rewrite lookup_delete_ne.
Qed.

Definition synced (w : World) : Prop :=
  nodes_of (remote w) (gid (local w)) = nodes_of (graph_cache (local w)) (gid (local w)).

Lemma world_step_synced w e w' :
  world_step w e = Ok w' -> (up_to_date w = true -> synced w) -> up_to_date w' = true -> synced w'.
Proof.
  destruct e as [o sent name namespace|d]; cbn [world_step]; intros H Hs Hu.
  - apply rbind_ok in H as ([c outcome] & Ho & H).
    destruct (context_op_faithful (local w) o sent name namespace _ _ Ho) as [Eg Hf].
    unfold synced in *. destruct outcome as [msg|]; injection H as <-; cbn [local remote up_to_date] in *; rewrite Eg.
    + subst msg. rewrite update_nodes. cbn. by rewrite N.eqb_refl.
    + apply andb_true_iff in Hu as [Hu Hn]. rewrite Hf by done. by apply Hs.
  - destruct (elsewhere _ d) eqn:He; injection H as <-; [|by apply Hs].
    unfold synced in *. cbn [local remote up_to_date] in *. rewrite discover_elsewhere by done. by apply Hs.
Qed.

(** C17: the announcement protocol keeps the other participants up to date.
    After any sequence of additions and removals of nodes and endpoints,
    with any of the messages lost at the sender, and whatever else the other
    participant discovers in between, it has exactly the nodes, readers and
    writers of the local one, unless a removal (or the addition of something
    that was there already) failed to be published after the last message
    that was. *)
Theorem announcements_keep_up_to_date w events w' :
  world_run w events = Ok w' -> (up_to_date w = true -> synced w) ->
  up_to_date w' = true -> synced w'.
Proof.
  revert w. induction events as [|e events IH]; intros w H Hs; cbn [world_run] in H.
  - by injection H as <-.
  - apply rbind_ok in H as (w1 & H1 & H). apply (IH w1 H). intros Hu. by eapply world_step_synced.
Qed.

(** ** Assertions *)

Definition op_possible (c : Context) (o : ContextOp) (name namespace : string) : Prop :=
  is_Some (participants_ (graph_cache c) !! gid c) /\
  match o with AddNode => True | _ => is_Some (node_of c name namespace) end.

(** The participant is there, and has the node. *)
Definition has_node (s : GraphCache) (p : Gid) (name namespace : string) : Prop :=
  is_Some (participants_ s !! p) /\ is_Some (List.find (is_node name namespace) (nodes_of s p)).

Lemma on_nodes_succeeds F s p :
  is_Some (participants_ s !! p) -> is_Some (F (nodes_of s p)) ->
  exists s' msg, on_nodes F s p = Ok (s', msg) /\ is_Some (participants_ s' !! p) /\ F (nodes_of s p) = Some (nodes_of s' p).
Proof.
  intros [i Hi] [l Hl]. assert (El : nodes_of s p = node_entities_info_seq i) by (unfold nodes_of, participant_or_new; by rewrite Hi).
  rewrite El in *. unfold on_nodes. rewrite Hi, Hl. eexists _, _. split; [done|].
  unfold nodes_of, participant_or_new, call_on_change_callback. rewrite participants_call_on_change. cbn.
  rewrite lookup_insert_eq. eauto.
Qed.

Lemma on_nodes_possible F s p r :
  on_nodes F s p = Ok r -> is_Some (participants_ s !! p) /\ is_Some (F (nodes_of s p)).
Proof.
  unfold on_nodes, nodes_of, participant_or_new. destruct (participants_ s !! p) as [i|]; [|done]. cbn [default].
  destruct (F _); [|done]. eauto.
Qed.

Lemma nodes_modify_possible f name namespace l :
  is_Some (nodes_modify f name namespace l) <-> is_Some (List.find (is_node name namespace) l).
Proof.
  unfold nodes_modify. pose proof (find_split_spec (is_node name namespace) l) as Hs.
  destruct (find_split _ l) as [[[l1 n] l2]|]; [destruct Hs as (_ & -> & _)|rewrite Hs]; by rewrite ?is_Some_alt.
Qed.

Lemma nodes_remove_possible name namespace l :
  is_Some (nodes_remove name namespace l) <-> is_Some (List.find (is_node name namespace) l).
Proof.
  unfold nodes_remove. pose proof (find_split_spec (is_node name namespace) l) as Hs.
  destruct (find_split _ l) as [[[l1 n] l2]|]; [destruct Hs as (_ & -> & _)|rewrite Hs]; by rewrite ?is_Some_alt.
Qed.

Lemma modify_keeps_node f name namespace l l' :
  keeps_name f -> nodes_modify f name namespace l = Some l' ->
  is_Some (List.find (is_node name namespace) l) -> is_Some (List.find (is_node name namespace) l').
Proof.
  intros Hf H Hl. rewrite <- (nodes_modify_possible id) in *. by rewrite (nodes_modify_twice f _ _ _ l).
Qed.

Lemma modify_succeeds s p name namespace f :
  keeps_name f -> has_node s p name namespace ->
  exists s' msg, modify_and_notify s p name namespace f = Ok (s', msg) /\ has_node s' p name namespace.
Proof.
  intros Hf [Hp Hn]. rewrite modify_on_nodes.
  destruct (on_nodes_succeeds (nodes_modify f name namespace) s p Hp) as (s' & msg & E & Hp' & El).
  { by apply nodes_modify_possible. }
  exists s', msg. split; [done|]. split; [done|]. by eapply modify_keeps_node.
Qed.

Lemma publish_or_total c sent g msg undo : is_ok undo = true -> is_ok (publish_or c sent g msg undo) = true.
Proof. unfold publish_or. destruct (call_publish_callback c sent); [done|]. by destruct undo. Qed.

Ltac modify_once H :=
  unfold associate_writer, associate_reader, dissociate_writer, dissociate_reader;
  match type of H with has_node ?s ?p ?name ?namespace =>
    match goal with |- context [modify_and_notify s p name namespace ?f] =>
      let g := fresh "g" in let m := fresh "msg" in let E := fresh "E" in let H' := fresh "H" in
      destruct (modify_succeeds s p name namespace f) as (g & m & E & H'); [done|exact H|];
      rewrite E; cbn [rbind]
    end
  end.

(** an announcement fails its assertions exactly when the local
    participant is not in the cache or, but for the addition of a node, when
    the node is not; in particular what undoes an addition never fails. *)
Theorem context_op_possible c o sent name namespace :
  is_ok (context_op c o sent name namespace) = true <-> op_possible c o name namespace.
Proof.
  split.
  - assert (Hr : forall F (k : GraphCache * ParticipantEntitiesInfo -> Step),
      is_ok (rbind (on_nodes F (graph_cache c) (gid c)) k) = true ->
      is_Some (participants_ (graph_cache c) !! gid c) /\ is_Some (F (nodes_of (graph_cache c) (gid c)))).
    { intros F k H. destruct (on_nodes F _ _) as [r|] eqn:E; [|done]. by eapply on_nodes_possible. }
    unfold op_possible, node_of. destruct o; cbn [context_op];
    unfold add_node_graph, remove_node_graph, add_subscriber_graph, remove_subscriber_graph, add_publisher_graph,
      remove_publisher_graph, add_client_graph, remove_client_graph, add_service_graph, remove_service_graph,
      associate_writer, associate_reader, dissociate_writer, dissociate_reader;
    rewrite ?add_node_on_nodes, ?remove_node_on_nodes, ?modify_on_nodes; intros [H1 H2]%Hr;
    rewrite ?nodes_modify_possible, ?nodes_remove_possible in H2; done.
  - intros [Hp Ho]. assert (Hn : match o with AddNode => True | _ => has_node (graph_cache c) (gid c) name namespace end).
    { destruct o; [done|..]; by split. }
    destruct o; cbn [context_op] in *;
    unfold add_node_graph, remove_node_graph, add_subscriber_graph, remove_subscriber_graph, add_publisher_graph,
      remove_publisher_graph, add_client_graph, remove_client_graph, add_service_graph, remove_service_graph.
    + rewrite add_node_on_nodes.
      destruct (on_nodes_succeeds (nodes_add name namespace) (graph_cache c) (gid c) Hp) as (s1 & m1 & -> & Hp1 & E1); [done|].
      cbn [rbind]. apply publish_or_total. rewrite remove_node_on_nodes.
      destruct (on_nodes_succeeds (nodes_remove name namespace) s1 (gid c) Hp1) as (s2 & m2 & -> & _); [|done].
      apply nodes_remove_possible. injection E1 as <-.
      pose proof (find_first (is_node name namespace) (nodes_of (graph_cache c) (gid c) ++ [mkNodeEntitiesInfo namespace name [] []])) as Hf.
      destruct (List.find _ _); [done|].
      specialize (Hf (mkNodeEntitiesInfo namespace name [] []) ltac:(apply elem_of_app; right; by constructor)).
      by rewrite (proj2 (is_node_true _ _ _)) in Hf.
    + rewrite remove_node_on_nodes. destruct Hn as [_ Hn].
      destruct (on_nodes_succeeds (nodes_remove name namespace) (graph_cache c) (gid c) Hp) as (s1 & m1 & -> & _).
      { by apply nodes_remove_possible. }
      cbn [rbind]. by apply publish_or_total.
    + modify_once Hn. apply publish_or_total. by modify_once H.
    + modify_once Hn. by apply publish_or_total.
    + modify_once Hn. apply publish_or_total. by modify_once H.
    + modify_once Hn. by apply publish_or_total.
    + modify_once Hn. modify_once H. apply publish_or_total. modify_once H0. by modify_once H1.
    + modify_once Hn. modify_once H. by apply publish_or_total.
    + modify_once Hn. modify_once H. apply publish_or_total. modify_once H0. by modify_once H1.
    + modify_once Hn. modify_once H. by apply publish_or_total.
Qed.

(** When the name is in use, undoing a failed addition of the node removes
    the node that had the name before, with all its endpoints. *)
Lemma failed_duplicate_loses_endpoints c name namespace n rest :
  pub c = false -> is_Some (participants_ (graph_cache c) !! gid c) ->
  nodes_of (graph_cache c) (gid c) = n :: rest -> is_node name namespace n = true ->
  exists c', context_op c AddNode true name namespace = Ok (c', NotPublished) /\
    nodes_of (graph_cache c') (gid c) = rest ++ [mkNodeEntitiesInfo namespace name [] []].
Proof.
  intros Hpub Hp Hl Hn. cbn [context_op]. unfold add_node_graph. rewrite add_node_on_nodes.
  destruct (on_nodes_succeeds (nodes_add name namespace) (graph_cache c) (gid c) Hp) as (s1 & m1 & -> & Hp1 & E1); [done|].
  cbn [rbind]. unfold publish_or, call_publish_callback. rewrite Hpub. cbn [negb orb]. rewrite remove_node_on_nodes.
  injection E1 as E1. rewrite Hl in E1.
  assert (Hr : nodes_remove name namespace (nodes_of s1 (gid c)) = Some (rest ++ [mkNodeEntitiesInfo namespace name [] []])).
  { unfold nodes_remove. rewrite <- E1. unfold find_split. cbn [app span]. by rewrite Hn. }
  destruct (on_nodes_succeeds (nodes_remove name namespace) s1 (gid c) Hp1) as (s2 & m2 & -> & _ & E2); [by rewrite Hr|].
  cbn [rbind]. eexists. split; [done|]. cbn [graph_cache set_cache]. congruence.
Qed.

(** ** Witnesses *)

Definition sample_context : Context := mkContext 1 true true (add_participant GraphCache_init 1 "/").
Definition sample_world : World := mkWorld sample_context GraphCache_init true.

(** The announcement of the second publisher is lost. *)
Definition sample_events : list Event :=
  [Local AddNode true "talker" "/"; Local (AddPublisher 10) true "talker" "/";
   Remote (DiscoverParticipant 1 "/"); Local (AddPublisher 11) false "talker" "/"].

Lemma announcements_keep_up_to_date_witness :
  exists w', world_run sample_world sample_events = Ok w' /\ synced w' /\
    nodes_of (remote w') 1 = [mkNodeEntitiesInfo "/" "talker" [] [10%N]].
Proof.
  destruct (world_run sample_world sample_events) as [w'|e] eqn:E; [|vm_compute in E; discriminate E].
  exists w'. split; [reflexivity|]. split.
  - apply (announcements_keep_up_to_date sample_world sample_events w' E).
    + intros _. reflexivity.
    + vm_compute in E. injection E as <-. reflexivity.
  - vm_compute in E. injection E as <-. reflexivity.
Defined.
