(* ===== verification/RclTypes.v ===== *)
(** * Return codes of rcl

    [rcl/include/rcl/types.h], [rcl_action/include/rcl_action/types.h]: the
    codes that the modelled functions return or tell apart, and what ends a
    call of a C function without a code. *)

From Stdlib Require Import ZArith.
From stdpp Require Import base numbers.
From S2P Require Import Prelude.

Inductive rcl_ret_t :=
| RCL_RET_OK | RCL_RET_ERROR | RCL_RET_TIMEOUT | RCL_RET_BAD_ALLOC | RCL_RET_INVALID_ARGUMENT
| RCL_RET_ALREADY_INIT | RCL_RET_NOT_INIT
| RCL_RET_TIMER_INVALID | RCL_RET_TIMER_CANCELED
| RCL_RET_WAIT_SET_INVALID | RCL_RET_WAIT_SET_EMPTY | RCL_RET_WAIT_SET_FULL
| RCL_RET_LIFECYCLE_STATE_REGISTERED | RCL_RET_LIFECYCLE_STATE_NOT_REGISTERED
| RCL_RET_ACTION_SERVER_INVALID | RCL_RET_ACTION_GOAL_HANDLE_INVALID | RCL_RET_ACTION_GOAL_EVENT_INVALID.

#[export] Instance rcl_ret_eq_dec : EqDecision rcl_ret_t.
Proof. solve_decision. Defined.

(** The value of a code, as the headers number them. *)
Definition ret_value (r : rcl_ret_t) : Z :=
  match r with
  | RCL_RET_OK => 0 | RCL_RET_ERROR => 1 | RCL_RET_TIMEOUT => 2 | RCL_RET_BAD_ALLOC => 10 | RCL_RET_INVALID_ARGUMENT => 11
  | RCL_RET_ALREADY_INIT => 100 | RCL_RET_NOT_INIT => 101
  | RCL_RET_TIMER_INVALID => 800 | RCL_RET_TIMER_CANCELED => 801
  | RCL_RET_WAIT_SET_INVALID => 900 | RCL_RET_WAIT_SET_EMPTY => 901 | RCL_RET_WAIT_SET_FULL => 902
  | RCL_RET_LIFECYCLE_STATE_REGISTERED => 3000 | RCL_RET_LIFECYCLE_STATE_NOT_REGISTERED => 3001
  | RCL_RET_ACTION_SERVER_INVALID => 2200
  | RCL_RET_ACTION_GOAL_HANDLE_INVALID => 2300 | RCL_RET_ACTION_GOAL_EVENT_INVALID => 2301
  end.

(** Codes compare as the integers they are in C. *)
Lemma ret_value_inj r r' : ret_value r = ret_value r' -> r = r'.
Proof. by destruct r, r'. Qed.
