(* ===== verification/Timer.v ===== *)
(** * Timers

    [rcl/src/rcl/timer.c]: when a timer is ready, how its next call is
    scheduled and what a jump of ROS time does to it.

    The clock is outside: [now] is the time it answers to the call at hand,
    or the code with which it fails.  Whether the guard condition could be
    triggered is only logged.  What a function does besides changing the
    timer is returned: the callback with its argument, the number of resets
    that are reported.  The fields are atomic variables of 64 bits; each
    function reads and writes them in one step. *)

From Stdlib Require Import ZArith Lia Zquot.
From stdpp Require Import base numbers list.
From S2P Require Import Prelude RclTypes.
#[local] Open Scope Z_scope.

(** [on_reset_callback] and [callback]: whether one is set. *)
Record rcl_timer_impl_t := mkTimer {
  ros_clock : bool;
  callback : bool;
  period : Z;
  last_call_time : Z;
  next_call_time : Z;
  time_credit : Z;
  canceled : bool;
  on_reset_callback : bool;
  reset_counter : nat;
}.

(** [rcl_timer_t]: the pointer [impl]. *)
Definition rcl_timer_t : Type := option rcl_timer_impl_t.

Definition rcl_get_zero_initialized_timer : rcl_timer_t := None.

Definition set_times (t : rcl_timer_impl_t) (last next credit : Z) : rcl_timer_impl_t :=
  mkTimer (ros_clock t) (callback t) (period t) last next credit (canceled t) (on_reset_callback t) (reset_counter t).

Definition set_canceled (t : rcl_timer_impl_t) (c : bool) : rcl_timer_impl_t :=
  mkTimer (ros_clock t) (callback t) (period t) (last_call_time t) (next_call_time t) (time_credit t) c
    (on_reset_callback t) (reset_counter t).

Definition set_reset (t : rcl_timer_impl_t) (cb : bool) (n : nat) : rcl_timer_impl_t :=
  mkTimer (ros_clock t) (callback t) (period t) (last_call_time t) (next_call_time t) (time_credit t) (canceled t) cb n.

Abbreviation Now := (Result rcl_ret_t Z).

(** The jump callback, before and after a jump of the clock.
    [clock_change]: ROS time was activated or deactivated.  The second
    component tells whether the guard condition is triggered. *)
Definition _rcl_timer_time_jump (t : rcl_timer_impl_t) (clock_change before_jump : bool) (now : Now)
    : rcl_timer_impl_t * bool :=
  if before_jump then
    if clock_change then
      match now with
      | Throw _ => (t, false)
      | Ok now =>
        if now =? 0 then (t, false)
        else (set_times t (last_call_time t) (next_call_time t) (i64 (next_call_time t - now)), false)
      end
    else (t, false)
  else
    match now with
    | Throw _ => (t, false)
    | Ok now =>
      if clock_change then
        if now =? 0 then (t, false) else
        let credit := time_credit t in
        if negb (credit =? 0)
        then (set_times t (i64 (now - credit)) (i64 (i64 (now - credit) + period t)) 0, false)
        else (set_times t (last_call_time t) (next_call_time t) 0, false)
      else if next_call_time t <=? now then (t, true)
      else if now <? last_call_time t then (set_times t now (i64 (now + period t)) (time_credit t), false)
      else (t, false)
    end.

(** [guard] and [jump]: the codes of setting up the guard condition and the
    jump callback; [fits]: the allocation succeeds. *)
Definition rcl_timer_init2 (timer : rcl_timer_t) (ros : bool) (now : Now) (guard jump : rcl_ret_t) (fits : bool)
    (new_period : Z) (cb : bool) (autostart : bool) : rcl_ret_t * rcl_timer_t :=
  if new_period <? 0 then (RCL_RET_INVALID_ARGUMENT, timer) else
  match timer with
  | Some _ => (RCL_RET_ALREADY_INIT, timer)
  | None =>
    match now with
    | Throw ret => (ret, timer)
    | Ok now =>
      if negb (bool_decide (guard = RCL_RET_OK)) then (guard, timer) else
      if ros && negb (bool_decide (jump = RCL_RET_OK)) then (jump, timer) else
      if negb fits then (RCL_RET_BAD_ALLOC, None) else
      (RCL_RET_OK, Some (mkTimer ros cb new_period now (i64 (now + new_period)) 0 (negb autostart) false 0))
    end
  end.

Definition rcl_timer_cancel (timer : rcl_timer_t) : rcl_ret_t * rcl_timer_t :=
  match timer with
  | None => (RCL_RET_TIMER_INVALID, timer)
  | Some t => (RCL_RET_OK, Some (set_canceled t true))
  end.

Definition rcl_timer_fini (timer : rcl_timer_t) : rcl_ret_t * rcl_timer_t :=
  match timer with
  | None => (RCL_RET_OK, None)
  | Some _ => ((rcl_timer_cancel timer).1, None)
  end.

Record rcl_timer_call_info_t := mkCallInfo { expected_call_time : Z; actual_call_time : Z }.

(** The call that follows one which was due at [next_call_time]. *)
Definition next_after (next_call_time period now : Z) : Z :=
  let next_call_time := i64 (next_call_time + period) in
  if next_call_time <=? now then
    if period =? 0 then now
    else
      let now_ahead := i64 (now - next_call_time) in
      let periods_ahead := i64 (1 + Z.quot now_ahead period) in
      i64 (next_call_time + i64 (periods_ahead * period))
  else next_call_time.

(** The answer, the new timer and the argument of the callback if it runs. *)
Definition rcl_timer_call_with_info (timer : rcl_timer_t) (now : Now)
    : rcl_ret_t * option rcl_timer_call_info_t * rcl_timer_t * option Z :=
  match timer with
  | None => (RCL_RET_TIMER_INVALID, None, timer, None)
  | Some t =>
    if canceled t then (RCL_RET_TIMER_CANCELED, None, timer, None) else
    match now with
    | Throw ret => (ret, None, timer, None)
    | Ok now =>
      if now <? 0 then (RCL_RET_ERROR, None, timer, None) else
      let previous_ns := last_call_time t in
      (RCL_RET_OK, Some (mkCallInfo (next_call_time t) now),
       Some (set_times t now (next_after (next_call_time t) (period t) now) (time_credit t)),
       if callback t then Some (i64 (now - previous_ns)) else None)
    end
  end.

Definition rcl_timer_call (timer : rcl_timer_t) (now : Now) : rcl_ret_t * rcl_timer_t * option Z :=
  let '(ret, _, timer, cb) := rcl_timer_call_with_info timer now in (ret, timer, cb).

Definition rcl_timer_get_time_until_next_call (timer : rcl_timer_t) (now : Now) : Result rcl_ret_t Z :=
  match timer with
  | None => Throw RCL_RET_TIMER_INVALID
  | Some t =>
    if canceled t then Throw RCL_RET_TIMER_CANCELED else
    let! now := now in Ok (i64 (next_call_time t - now))
  end.

Definition rcl_timer_is_ready (timer : rcl_timer_t) (now : Now) : Result rcl_ret_t bool :=
  match timer with
  | None => Throw RCL_RET_TIMER_INVALID
  | Some _ =>
    match rcl_timer_get_time_until_next_call timer now with
    | Throw RCL_RET_TIMER_CANCELED => Ok false
    | Throw ret => Throw ret
    | Ok time_until_next_call => Ok (time_until_next_call <=? 0)
    end
  end.

Definition rcl_timer_get_next_call_time (timer : rcl_timer_t) : Result rcl_ret_t Z :=
  match timer with
  | None => Throw RCL_RET_TIMER_INVALID
  | Some t => if canceled t then Throw RCL_RET_TIMER_CANCELED else Ok (next_call_time t)
  end.

Definition rcl_timer_get_time_since_last_call (timer : rcl_timer_t) (now : Now) : Result rcl_ret_t Z :=
  match timer with
  | None => Throw RCL_RET_TIMER_INVALID
  | Some t => let! now := now in Ok (i64 (now - last_call_time t))
  end.

Definition rcl_timer_get_period (timer : rcl_timer_t) : Result rcl_ret_t Z :=
  match timer with
  | None => Throw RCL_RET_TIMER_INVALID
  | Some t => Ok (period t)
  end.

(** The old period, and the timer with the new one. *)
Definition rcl_timer_exchange_period (timer : rcl_timer_t) (new_period : Z) : Result rcl_ret_t Z * rcl_timer_t :=
  match timer with
  | None => (Throw RCL_RET_TIMER_INVALID, timer)
  | Some t =>
    (Ok (period t),
     Some (mkTimer (ros_clock t) (callback t) new_period (last_call_time t) (next_call_time t) (time_credit t)
       (canceled t) (on_reset_callback t) (reset_counter t)))
  end.

Definition rcl_timer_get_callback (timer : rcl_timer_t) : bool :=
  match timer with None => false | Some t => callback t end.

Definition rcl_timer_exchange_callback (timer : rcl_timer_t) (new_callback : bool) : bool * rcl_timer_t :=
  match timer with
  | None => (false, timer)
  | Some t =>
    (callback t,
     Some (mkTimer (ros_clock t) new_callback (period t) (last_call_time t) (next_call_time t) (time_credit t)
       (canceled t) (on_reset_callback t) (reset_counter t)))
  end.

Definition rcl_timer_is_canceled (timer : rcl_timer_t) : Result rcl_ret_t bool :=
  match timer with
  | None => Throw RCL_RET_TIMER_INVALID
  | Some t => Ok (canceled t)
  end.

(** The number is that of resets reported to the callback. *)
Definition rcl_timer_reset (timer : rcl_timer_t) (now : Now)
    : rcl_ret_t * rcl_timer_t * option nat :=
  match timer with
  | None => (RCL_RET_TIMER_INVALID, timer, None)
  | Some t =>
    match now with
    | Throw ret => (ret, timer, None)
    | Ok now =>
      let t := set_canceled (set_times t (last_call_time t) (i64 (now + period t)) (time_credit t)) false in
      if on_reset_callback t then (RCL_RET_OK, Some t, Some 1%nat)
      else (RCL_RET_OK, Some (set_reset t false (S (reset_counter t))), None)
    end
  end.

(** [impl] is used without a test: a timer that was not initialised is a
    null pointer ([None]). *)
Definition rcl_timer_set_on_reset_callback (timer : rcl_timer_t) (set : bool)
    : option (rcl_ret_t * rcl_timer_t * option nat) :=
  match timer with
  | None => None
  | Some t =>
    if set then
      match reset_counter t with
      | O => Some (RCL_RET_OK, Some (set_reset t true 0), None)
      | n => Some (RCL_RET_OK, Some (set_reset t true 0), Some n)
      end
    else Some (RCL_RET_OK, Some (set_reset t false (reset_counter t)), None)
  end.

(** ** Scheduling

    A timer keeps to the grid of its period: the next call is due at the first
    multiple of the period after the one that was due that is still to come. *)

Lemma next_after_positive next period now :
  0 < period -> 0 <= now -> 0 <= next -> next + period <= int64_max -> now + period <= int64_max ->
  let n := next_after next period now in
  exists k, 1 <= k /\ n = next + k * period /\ now < n /\ (k = 1 \/ n - period <= now).
Proof.
  intros Hp Hnow Hnext H1 H2. cbn zeta. unfold next_after.
  assert (int64_min <= 0) by (unfold int64_min; lia).
  rewrite (i64_id (next + period)) by lia.
  destruct (Z.leb_spec (next + period) now) as [Hle|Hgt]; [|exists 1; lia].
  rewrite (proj2 (Z.eqb_neq period 0)) by lia.
  rewrite (i64_id (now - (next + period))) by lia.
  rewrite Z.quot_div_nonneg by lia.
  remember (now - (next + period)) as a eqn:Ha.
  pose proof (Z.div_mod a period ltac:(lia)) as Hdm. pose proof (Z.mod_pos_bound a period Hp) as Hmb.
  assert (Hq : 0 <= a / period) by (apply Z.div_pos; lia).
  assert (a / period <= a) by (apply Z.div_le_upper_bound; nia).
  replace ((1 + a / period) * period) with (period + period * (a / period)) by ring.
  assert (0 <= period * (a / period)) by nia.
  rewrite (i64_id (1 + a / period)) by lia.
  replace ((1 + a / period) * period) with (period + period * (a / period)) by ring.
  rewrite (i64_id (period + period * (a / period))) by lia.
  rewrite i64_id by lia.
  exists (2 + a / period). nia.
Qed.

Section Calls.
Context (t : rcl_timer_impl_t) (now : Z).
Hypothesis now_nonneg : 0 <= now.
Hypothesis next_nonneg : 0 <= next_call_time t.
Hypothesis room : next_call_time t + period t <= int64_max /\ now + period t <= int64_max.

(** C40: A call of a timer with a positive period, early, on time or after any
    number of missed cycles, keeps the timer on the grid of its period: the
    next call is due after now, at the first point of the grid after the
    call that was due which is still to come, so never more than a period
    from now unless the call was early.  The callback learns the time since
    the last call. *)
Theorem call_keeps_grid :
  canceled t = false -> 0 < period t ->
  exists k t', rcl_timer_call (Some t) (Ok now) =
      (RCL_RET_OK, Some t', if callback t then Some (i64 (now - last_call_time t)) else None) /\
    1 <= k /\ next_call_time t' = next_call_time t + k * period t /\ now < next_call_time t' /\
    (forall j, 1 <= j < k -> next_call_time t + j * period t <= now) /\
    (next_call_time t <= now -> next_call_time t' <= now + period t) /\
    last_call_time t' = now /\ period t' = period t /\ canceled t' = false.
Proof.
  intros Hc Hp. unfold rcl_timer_call, rcl_timer_call_with_info. rewrite Hc.
  rewrite (proj2 (Z.ltb_ge now 0)) by done.
  destruct (next_after_positive (next_call_time t) (period t) now) as (k & Hk & Hn & Hlt & Hl); try (destruct room; lia).
  exists k. eexists. split; [reflexivity|]. cbn. rewrite Hn in *. repeat split; try done.
  - intros j Hj. destruct Hl; nia.
  - intros Hle. destruct Hl as [->|Hl]; lia.
Qed.

(** A timer with period zero is always ready. *)
Lemma call_period_zero :
  canceled t = false -> period t = 0 -> next_call_time t <= now ->
  exists t', (rcl_timer_call (Some t) (Ok now)).1.2 = Some t' /\ next_call_time t' = now /\
    rcl_timer_is_ready (Some t') (Ok now) = Ok true.
Proof.
  intros Hc Hp Hle. unfold rcl_timer_call, rcl_timer_call_with_info. rewrite Hc.
  rewrite (proj2 (Z.ltb_ge now 0)) by done. eexists. split; [reflexivity|].
  assert (int64_min <= 0) by (unfold int64_min; lia).
  assert (Hn : next_after (next_call_time t) (period t) now = now).
  { unfold next_after. rewrite Hp, Z.add_0_r, i64_id by lia. by rewrite (proj2 (Z.leb_le _ _)). }
  split; [exact Hn|]. cbn [rcl_timer_is_ready]. unfold rcl_timer_get_time_until_next_call. cbn [canceled set_times].
  rewrite Hc. cbn [rbind next_call_time set_times]. by rewrite Hn, Z.sub_diag.
Qed.
End Calls.

(** When a timer is ready. *)
Lemma is_ready_iff t now :
  in_s 64 (next_call_time t - now) ->
  rcl_timer_is_ready (Some t) (Ok now) = Ok (negb (canceled t) && (next_call_time t <=? now)).
Proof.
  intros Hr. unfold rcl_timer_is_ready, rcl_timer_get_time_until_next_call.
  destruct (canceled t); [done|]. cbn [rbind negb andb]. rewrite wrap_s_id by (done || lia).
  f_equal. apply Bool.eq_iff_eq_true. rewrite !Z.leb_le. lia.
Qed.

(** ** Jumps of the clock *)

(** When ROS time is switched on or off, a timer that had [r] of its
    period left to wait waits [period - r] in the new time, which is what
    had elapsed and not what was left. *)
Theorem time_jump_credit t now now' :
  now <> 0 -> now' <> 0 -> next_call_time t <> now ->
  in_s 64 (next_call_time t - now) -> in_s 64 (now' - (next_call_time t - now)) ->
  in_s 64 (now' - (next_call_time t - now) + period t) ->
  let t1 := (_rcl_timer_time_jump t true true (Ok now)).1 in
  let t2 := (_rcl_timer_time_jump t1 true false (Ok now')).1 in
  next_call_time t2 - now' = period t - (next_call_time t - now) /\
  last_call_time t2 = next_call_time t2 - period t /\ time_credit t2 = 0.
Proof.
  intros H0 H0' Hne H1 H2 H3. cbn zeta.
  assert (E : (_rcl_timer_time_jump t true true (Ok now)).1 =
    set_times t (last_call_time t) (next_call_time t) (next_call_time t - now)).
  { unfold _rcl_timer_time_jump. rewrite (proj2 (Z.eqb_neq _ _) H0), wrap_s_id by (done || lia). done. }
  rewrite E. unfold _rcl_timer_time_jump. rewrite (proj2 (Z.eqb_neq _ _) H0'). cbn [time_credit set_times period].
  rewrite (proj2 (Z.eqb_neq _ 0)) by lia. cbn [negb fst set_times next_call_time last_call_time time_credit].
  rewrite (wrap_s_id 64 (now' - _)), wrap_s_id by (done || lia). lia.
Qed.

(** After a jump of the time back beyond the last call, the timer is due
    one period after the new time; a jump back that is not so far changes
    nothing, and a jump forward past the next call only wakes the waiting
    thread. *)
Theorem time_jump_backward t now :
  in_s 64 (now + period t) -> last_call_time t <= next_call_time t ->
  let '(t', woken) := _rcl_timer_time_jump t false false (Ok now) in
  (now < last_call_time t -> next_call_time t' = now + period t /\ last_call_time t' = now /\ woken = false) /\
  (last_call_time t <= now -> t' = t /\ woken = (next_call_time t <=? now)).
Proof.
  intros Hr Hle. unfold _rcl_timer_time_jump.
  destruct (Z.leb_spec (next_call_time t) now) as [H|H].
  - split; [lia|done].
  - destruct (Z.ltb_spec now (last_call_time t)) as [H'|H'].
    + split; [intros _|lia]. cbn. by rewrite wrap_s_id by (done || lia).
    + split; [lia|done].
Qed.

(** ** Resetting *)

(** The next call is scheduled with the period at the time of the reset; a
    period that is exchanged later does not move it. *)
Lemma reset_then_exchange t now p :
  in_s 64 (now + period t) ->
  let t1 := (rcl_timer_reset (Some t) (Ok now)).1.2 in
  let t2 := (rcl_timer_exchange_period t1 p).2 in
  exists t', t2 = Some t' /\ next_call_time t' = now + period t /\ period t' = p /\ canceled t' = false.
Proof.
  intros Hr. cbn zeta. unfold rcl_timer_reset. destruct t as [r c p0 l n cr ca [] k]; cbn in *;
    rewrite wrap_s_id by (done || lia); by eexists.
Qed.

(** ** Instances *)

Definition example_timer10 : rcl_timer_impl_t := mkTimer true true 10 100 110 0 false false 0.

Lemma call_keeps_grid_witness :
  exists t', rcl_timer_call (Some example_timer10) (Ok 135) = (RCL_RET_OK, Some t', Some 35) /\ next_call_time t' = 140.
Proof.
  destruct (call_keeps_grid example_timer10 135 ltac:(lia) ltac:(vm_compute; discriminate)
    ltac:(vm_compute; split; discriminate) eq_refl ltac:(reflexivity)) as (k & t' & E & _).
  exists t'. split; [exact E|]. vm_compute in E. injection E as <-. reflexivity.
Defined.

Lemma time_jump_credit_witness :
  let t1 := (_rcl_timer_time_jump example_timer10 true true (Ok 108)).1 in
  let t2 := (_rcl_timer_time_jump t1 true false (Ok 5000)).1 in
  next_call_time t2 - 5000 = 8.
Proof.
  exact (proj1 (time_jump_credit example_timer10 108 5000 ltac:(discriminate) ltac:(discriminate) ltac:(discriminate)
    ltac:(vm_compute; by split) ltac:(vm_compute; by split) ltac:(vm_compute; by split))).
Defined.

Lemma time_jump_backward_witness :
  next_call_time (_rcl_timer_time_jump example_timer10 false false (Ok 50)).1 = 60.
Proof.
  pose proof (time_jump_backward example_timer10 50 ltac:(vm_compute; by split) ltac:(vm_compute; discriminate)) as H.
  exact (proj1 (proj1 H eq_refl)).
Defined.
