(* ===== verification/WaitSet.v ===== *)
(** * Wait sets of rcl

    [rcl/src/rcl/wait.c]: the arrays of handles that a program waits for, the
    arrays of the middleware beside them, and [rcl_wait].  The macros that
    the source instantiates for each type of handle are functions of a
    [Kind].  A handle is a number; an array that is not allocated is empty.

    Outside are the middleware ([Rmw]: which of the handles offered to it are
    ready when it returns) and, as arguments, the timers in memory, their
    clocks, and which allocations succeed. *)

From Stdlib Require Import ZArith Lia.
From stdpp Require Import base numbers list.
From S2P Require Import Prelude RclTypes Timer.
#[local] Open Scope Z_scope.

(** ** State *)

Inductive Kind := SUBSCRIPTION | GUARD_CONDITION | CLIENT | SERVICE | EVENT | TIMER.

#[export] Instance Kind_eq_dec : EqDecision Kind.
Proof. solve_decision. Defined.

(** What a wait set has for one type of handle.  Timers have no array of the
    middleware; that of guard conditions has room for those of the timers
    too. *)
Record Slots := mkSlots {
  handles : list (option N);
  index : nat;
  rmw : list (option N);
  rmw_count : nat;
}.

Definition no_slots : Slots := mkSlots [] 0 [] 0.

Record rcl_wait_set_impl_t := mkWaitSet {
  subscriptions : Slots;
  guard_conditions : Slots;
  clients : Slots;
  services : Slots;
  events : Slots;
  timers : Slots;
}.

(** [rcl_wait_set_t]: [None] is a null pointer [impl]. *)
Definition rcl_wait_set_t : Type := option rcl_wait_set_impl_t.

Definition rcl_get_zero_initialized_wait_set : rcl_wait_set_t := None.

Definition slots (w : rcl_wait_set_impl_t) (k : Kind) : Slots :=
  match k with
  | SUBSCRIPTION => subscriptions w | GUARD_CONDITION => guard_conditions w | CLIENT => clients w
  | SERVICE => services w | EVENT => events w | TIMER => timers w
  end.

Definition set_slots (w : rcl_wait_set_impl_t) (k : Kind) (s : Slots) : rcl_wait_set_impl_t :=
  match k with
  | SUBSCRIPTION => mkWaitSet s (guard_conditions w) (clients w) (services w) (events w) (timers w)
  | GUARD_CONDITION => mkWaitSet (subscriptions w) s (clients w) (services w) (events w) (timers w)
  | CLIENT => mkWaitSet (subscriptions w) (guard_conditions w) s (services w) (events w) (timers w)
  | SERVICE => mkWaitSet (subscriptions w) (guard_conditions w) (clients w) s (events w) (timers w)
  | EVENT => mkWaitSet (subscriptions w) (guard_conditions w) (clients w) (services w) s (timers w)
  | TIMER => mkWaitSet (subscriptions w) (guard_conditions w) (clients w) (services w) (events w) s
  end.

Definition size_of (w : rcl_wait_set_impl_t) (k : Kind) : nat := length (handles (slots w k)).

Definition set_handles (s : Slots) (l : list (option N)) : Slots := mkSlots l (index s) (rmw s) (rmw_count s).

(** ** Clearing and resizing *)

(** [memset] to zero of the first [n] entries. *)
Definition zero_first (n : nat) (l : list (option N)) : list (option N) := replicate n None ++ drop n l.

(** [SET_CLEAR] and [SET_CLEAR_RMW]. *)
Definition clear_slots (s : Slots) : Slots :=
  let s :=
    match handles s with
    | [] => s
    | l => mkSlots (replicate (length l) None) 0 (rmw s) (rmw_count s)
    end in
  match rmw s with
  | [] => s
  | l => mkSlots (handles s) (index s) (zero_first (rmw_count s) l) 0
  end.

Definition rcl_wait_set_clear (wait_set : rcl_wait_set_t) : rcl_ret_t * rcl_wait_set_t :=
  match wait_set with
  | None => (RCL_RET_WAIT_SET_INVALID, None)
  | Some w =>
    (RCL_RET_OK,
     Some (mkWaitSet (clear_slots (subscriptions w)) (clear_slots (guard_conditions w)) (clear_slots (clients w))
       (clear_slots (services w)) (clear_slots (events w)) (clear_slots (timers w))))
  end.

(** [SET_RESIZE] without its extra statements.  [fits]: the allocation
    succeeds.  The first component tells whether it did. *)
Definition resize_handles (fits : bool) (size : nat) (s : Slots) : bool * Slots :=
  match size with
  | O => (true, mkSlots [] 0 (rmw s) (rmw_count s))
  | _ => if fits then (true, mkSlots (replicate size None) 0 (rmw s) (rmw_count s))
         else (false, mkSlots [] 0 (rmw s) (rmw_count s))
  end.

(** [SET_RESIZE_RMW_DEALLOC], [SET_RESIZE_RMW_REALLOC]. *)
Definition resize_rmw (fits : bool) (size : nat) (s : Slots) : bool * Slots :=
  match size with
  | O => (true, mkSlots (handles s) (index s) [] (if rmw s then rmw_count s else 0))
  | _ => if fits then (true, mkSlots (handles s) (index s) (replicate size None) 0)
         else (false, mkSlots [] (index s) [] 0)
  end.

(** Which allocations succeed: of the array of handles, and of that of the
    middleware. *)
Record Allocator := mkAllocator { fits_handles : Kind -> bool; fits_rmw : Kind -> bool }.

Definition resize_both (a : Allocator) (k : Kind) (size : nat) (w : rcl_wait_set_impl_t) : bool * rcl_wait_set_impl_t :=
  let '(ok, s) := resize_handles (fits_handles a k) size (slots w k) in
  if negb ok then (false, set_slots w k s) else
  let '(ok, s) := resize_rmw (fits_rmw a k) size s in
  (ok, set_slots w k s).

(** The middleware's array of guard conditions. *)
Definition resize_rmw_guard_conditions (a : Allocator) (size : nat) (w : rcl_wait_set_impl_t)
    : bool * rcl_wait_set_impl_t :=
  let s := guard_conditions w in
  match size with
  | O => (true, set_slots w GUARD_CONDITION (mkSlots (handles s) (index s) [] 0))
  | _ =>
    if fits_rmw a GUARD_CONDITION
    then (true, set_slots w GUARD_CONDITION (mkSlots (handles s) (index s) (replicate size None) 0))
    else
      let w := set_slots w GUARD_CONDITION (mkSlots [] (index s) [] 0) in
      (false, set_slots w TIMER (set_handles (timers w) []))
  end.

Definition and_then (r : bool * rcl_wait_set_impl_t) (k : rcl_wait_set_impl_t -> bool * rcl_wait_set_impl_t)
    : bool * rcl_wait_set_impl_t :=
  if r.1 then k r.2 else r.

Definition rcl_wait_set_resize (a : Allocator) (wait_set : rcl_wait_set_t)
    (subscriptions_size guard_conditions_size timers_size clients_size services_size events_size : nat)
    : rcl_ret_t * rcl_wait_set_t :=
  match wait_set with
  | None => (RCL_RET_WAIT_SET_INVALID, None)
  | Some w =>
    let '(ok, w) :=
      and_then (resize_both a SUBSCRIPTION subscriptions_size w) (fun w =>
      and_then (let '(ok, s) := resize_handles (fits_handles a GUARD_CONDITION) guard_conditions_size (guard_conditions w) in
                (ok, set_slots w GUARD_CONDITION s)) (fun w =>
      and_then (resize_rmw_guard_conditions a (guard_conditions_size + timers_size) w) (fun w =>
      and_then (let '(ok, s) := resize_handles (fits_handles a TIMER) timers_size (timers w) in
                (ok, set_slots w TIMER s)) (fun w =>
      and_then (resize_both a CLIENT clients_size w) (fun w =>
      and_then (resize_both a SERVICE services_size w) (fun w =>
      resize_both a EVENT events_size w)))))) in
    (if ok then RCL_RET_OK else RCL_RET_BAD_ALLOC, Some w)
  end.

(** [valid]: the context is; [created]: [rmw_create_wait_set] succeeds;
    [destroyed]: the code of [rmw_destroy_wait_set]; [fits]: the structure
    can be allocated. *)
Definition rcl_wait_set_init (a : Allocator) (valid created destroyed fits : bool) (wait_set : rcl_wait_set_t)
    (ns ng nt nc nv ne : nat) : rcl_ret_t * rcl_wait_set_t :=
  match wait_set with
  | Some _ => (RCL_RET_ALREADY_INIT, wait_set)
  | None =>
    if negb valid then (RCL_RET_NOT_INIT, None) else
    if negb fits then (RCL_RET_BAD_ALLOC, None) else
    let fail ret := (if destroyed then ret else RCL_RET_WAIT_SET_INVALID, None) in
    if negb created then fail RCL_RET_ERROR else
    let w := mkWaitSet no_slots no_slots no_slots no_slots no_slots no_slots in
    match rcl_wait_set_resize a (Some w) ns ng nt nc nv ne with
    | (RCL_RET_OK, w) => (RCL_RET_OK, w)
    | (ret, _) => fail ret
    end
  end.

Definition rcl_wait_set_fini (destroyed : bool) (wait_set : rcl_wait_set_t) : rcl_ret_t * rcl_wait_set_t :=
  match wait_set with
  | None => (RCL_RET_OK, None)
  | Some _ => (if destroyed then RCL_RET_OK else RCL_RET_WAIT_SET_INVALID, None)
  end.

(** ** Adding *)

(** [SET_ADD]; the handle may be a null pointer.  The first component is the
    place taken, or the code. *)
Definition set_add (k : Kind) (w : rcl_wait_set_impl_t) (handle : option N)
    : Result rcl_ret_t (nat * rcl_wait_set_impl_t) :=
  match handle with
  | None => Throw RCL_RET_INVALID_ARGUMENT
  | Some h =>
    let s := slots w k in
    if negb (index s <? length (handles s))%nat then Throw RCL_RET_WAIT_SET_FULL
    else Ok (index s, set_slots w k (mkSlots (<[index s := Some h]> (handles s)) (S (index s)) (rmw s) (rmw_count s)))
  end.

(** The functions [rcl_wait_set_add_*] but that for timers: [SET_ADD] and
    [SET_ADD_RMW].  [rmw_handle]: the handle of the middleware, or a null
    pointer.  The place is the optional output [index]. *)
Definition rcl_wait_set_add (k : Kind) (rmw_handle : N -> option N) (wait_set : rcl_wait_set_t) (handle : option N)
    : rcl_ret_t * option nat * rcl_wait_set_t :=
  match wait_set with
  | None => (RCL_RET_WAIT_SET_INVALID, None, None)
  | Some w =>
    match set_add k w handle with
    | Throw ret => (ret, None, wait_set)
    | Ok (i, w) =>
      match handle ≫= rmw_handle with
      | None => (RCL_RET_ERROR, Some i, Some w)
      | Some d =>
        let s := slots w k in
        (RCL_RET_OK, Some i,
         Some (set_slots w k (mkSlots (handles s) (index s) (<[i := Some d]> (rmw s)) (S (rmw_count s)))))
      end
    end
  end.

Inductive rcl_clock_type_t := RCL_ROS_TIME | RCL_SYSTEM_TIME | RCL_STEADY_TIME.

#[export] Instance rcl_clock_type_eq_dec : EqDecision rcl_clock_type_t.
Proof. solve_decision. Defined.

(** The timers that handles point to, and their clocks.  [timer_guard]: the
    guard condition of a timer; the outer [None]: it has none, the inner one:
    the middleware has no handle for it.  [override_active]: the ROS time of
    a clock is overridden. *)
Record TimerTable := mkTimers {
  timer_at : N -> rcl_timer_t;
  timer_clock : N -> N;
  timer_guard : N -> option (option N);
  clock_type : N -> rcl_clock_type_t;
  override_active : N -> bool;
}.

Definition rcl_wait_set_add_timer (ts : TimerTable) (wait_set : rcl_wait_set_t) (handle : option N)
    : rcl_ret_t * option nat * rcl_wait_set_t :=
  match wait_set with
  | None => (RCL_RET_WAIT_SET_INVALID, None, None)
  | Some w =>
    match set_add TIMER w handle with
    | Throw ret => (ret, None, wait_set)
    | Ok (i, w) =>
      match handle ≫= timer_guard ts with
      | None => (RCL_RET_OK, Some i, Some w)
      | Some None => (RCL_RET_ERROR, Some i, Some w)
      | Some (Some d) =>
        let g := guard_conditions w in
        let at_ := (length (handles g) + (index (timers w) - 1))%nat in
        (RCL_RET_OK, Some i,
         Some (set_slots w GUARD_CONDITION (mkSlots (handles g) (index g) (<[at_ := Some d]> (rmw g)) (rmw_count g))))
      end
    end
  end.

(** ** Waiting *)

(** The guard conditions of the timers are moved behind those added, by
    increasing index of the timers. *)
Fixpoint move_guard_conditions (size i : nat) (ts : list (option N)) (rmw : list (option N)) (count : nat)
    : list (option N) * nat :=
  match ts with
  | [] => (rmw, count)
  | None :: ts => move_guard_conditions size (S i) ts rmw count
  | Some _ :: ts =>
    match mjoin (rmw !! (size + i)%nat) with
    | None => move_guard_conditions size (S i) ts rmw count
    | Some d => move_guard_conditions size (S i) ts (<[count := Some d]> rmw) (S count)
    end
  end.

(** [clocks] and [min_next_call_time]: for each type of clock the earliest
    next call of a timer, and the clock of that timer. *)
Definition NextCalls : Type := rcl_clock_type_t -> option (N * Z).

Definition earliest (m : NextCalls) (t : rcl_clock_type_t) : Z :=
  match m t with Some (_, z) => z | None => int64_max end.

Definition note_next_call (m : NextCalls) (t : rcl_clock_type_t) (clock : N) (next : Z) : NextCalls :=
  if next <? earliest m t then fun t' => if bool_decide (t' = t) then Some (clock, next) else m t' else m.

Inductive Scan :=
| ScanFailed (ret : rcl_ret_t)
| WakeInstantly
| ScanDone (m : NextCalls).

(** What the clocks say while a call of [rcl_wait] runs: to the test of a
    timer before waiting, when the timeout is computed, and to the tests of
    the timers after waiting. *)
Record Readings := mkReadings {
  ready_now : nat -> Now;
  clock_now : N -> Now;
  after_now : nat -> Now;
}.

(** The loop over the timers before waiting; a canceled timer leaves the
    set.  [i]: the index of the first timer of [l]. *)
Fixpoint scan_timers (ts : TimerTable) (r : Readings) (i : nat) (l : list (option N)) (m : NextCalls)
    : Scan * list (option N) :=
  match l with
  | [] => (ScanDone m, [])
  | None :: l' => let '(res, l'') := scan_timers ts r (S i) l' m in (res, None :: l'')
  | Some h :: l' =>
    let continue m x := let '(res, l'') := scan_timers ts r (S i) l' m in (res, x :: l'') in
    match timer_at ts h with
    | None => (ScanFailed RCL_RET_ERROR, l)
    | Some _ =>
      let clock := timer_clock ts h in
      if bool_decide (clock_type ts clock = RCL_ROS_TIME) && override_active ts clock then
        match rcl_timer_is_ready (timer_at ts h) (ready_now r i) with
        | Throw _ => (ScanFailed RCL_RET_ERROR, l)
        | Ok true => (WakeInstantly, l)
        | Ok false => continue m (Some h)
        end
      else
        match rcl_timer_get_next_call_time (timer_at ts h) with
        | Throw RCL_RET_TIMER_CANCELED => continue m None
        | Throw ret => (ScanFailed ret, l)
        | Ok next => continue (note_next_call m (clock_type ts clock) clock next) (Some h)
        end
    end
  end.

(** The loop over the types of clocks: [has_valid_timeout], [min_timeout]. *)
Fixpoint clock_timeouts (r : Readings) (m : NextCalls) (types : list rcl_clock_type_t) (valid : bool) (min_timeout : Z)
    : Result rcl_ret_t (bool * Z) :=
  match types with
  | [] => Ok (valid, min_timeout)
  | t :: types =>
    match m t with
    | None => clock_timeouts r m types valid min_timeout
    | Some (clock, next) =>
      let! cur_time := clock_now r clock in
      let timer_timeout := i64 (next - cur_time) in
      if timer_timeout <=? min_timeout then clock_timeouts r m types true timer_timeout
      else clock_timeouts r m types valid min_timeout
    end
  end.

Definition clock_types : list rcl_clock_type_t := [RCL_ROS_TIME; RCL_SYSTEM_TIME; RCL_STEADY_TIME].

Definition no_next_calls : NextCalls := fun _ => None.

(** [timeout_argument]: seconds and nanoseconds, or a null pointer to wait
    without limit. *)
Definition timeout_argument (r : Readings) (m : NextCalls) (timeout : Z) : Result rcl_ret_t (option (Z * Z)) :=
  let! (valid, min_timeout) :=
    clock_timeouts r m clock_types (0 <? timeout) (if 0 <? timeout then timeout else int64_max) in
  let min_timeout := Z.max min_timeout 0 in
  Ok (if valid then Some (min_timeout / 1000000000, min_timeout mod 1000000000) else None).

(** What is handed to the middleware, and its answer: the code and, for each
    type and place, whether the handle there is ready.  It sets the others to
    null. *)
Inductive rmw_wait_ret_t := RMW_RET_OK | RMW_RET_TIMEOUT | RMW_RET_ERROR.

Record Offer := mkOffer {
  offer_subscriptions : list (option N);
  offer_guard_conditions : list (option N);
  offer_services : list (option N);
  offer_clients : list (option N);
  offer_events : list (option N);
  offer_timeout : option (Z * Z);
}.

Class Rmw := rmw_wait : Offer -> rmw_wait_ret_t * (Kind -> nat -> bool).

(** The entries of the middleware's array that count. *)
Definition in_use (s : Slots) : list (option N) := take (rmw_count s) (rmw s).

(** The entries of [l] whose place the middleware left alone. *)
Definition keep_ready (ready : nat -> bool) (l : list (option N)) : list (option N) :=
  imap (fun i x => if ready i then x else None) l.

Definition after_rmw (ready : nat -> bool) (s : Slots) : Slots :=
  mkSlots (handles s) (index s) (keep_ready ready (in_use s) ++ drop (rmw_count s) (rmw s)) (rmw_count s).

(** Handles are set to null where the array of the middleware has null. *)
Definition drop_not_ready (s : Slots) : Slots :=
  set_handles s (zip_with (fun h d => match d with Some _ => h | None => None end) (handles s) (rmw s)).

(** The tests of the timers after waiting; the loop ends at the first that
    fails. *)
Fixpoint ready_timers (ts : TimerTable) (r : Readings) (i : nat) (l : list (option N))
    : Result rcl_ret_t bool * list (option N) :=
  match l with
  | [] => (Ok false, [])
  | None :: l => let '(res, l) := ready_timers ts r (S i) l in (res, None :: l)
  | Some h :: l =>
    match rcl_timer_is_ready (timer_at ts h) (after_now r i) with
    | Throw ret => (Throw ret, Some h :: l)
    | Ok ready =>
      let '(res, l) := ready_timers ts r (S i) l in
      (let! any := res in Ok (ready || any), (if ready then Some h else None) :: l)
    end
  end.

(** On a prefix of the timers, those that were added. *)
Definition on_timers {A} (f : list (option N) -> A * list (option N)) (w : rcl_wait_set_impl_t)
    : A * rcl_wait_set_impl_t :=
  let s := timers w in
  let '(a, l) := f (take (index s) (handles s)) in
  (a, set_slots w TIMER (set_handles s (l ++ drop (index s) (handles s)))).

Definition offer_of (w : rcl_wait_set_impl_t) (timeout : option (Z * Z)) : Offer :=
  mkOffer (in_use (subscriptions w)) (in_use (guard_conditions w)) (in_use (services w)) (in_use (clients w))
    (in_use (events w)) timeout.

(** The part of [rcl_wait] from the call of the middleware on. *)
Definition wait_and_update `{Rmw} (ts : TimerTable) (r : Readings) (w : rcl_wait_set_impl_t) (timeout : option (Z * Z))
    : rcl_ret_t * rcl_wait_set_impl_t :=
  let '(ret, ready) := rmw_wait (offer_of w timeout) in
  let w := mkWaitSet (after_rmw (ready SUBSCRIPTION) (subscriptions w))
    (after_rmw (ready GUARD_CONDITION) (guard_conditions w)) (after_rmw (ready CLIENT) (clients w))
    (after_rmw (ready SERVICE) (services w)) (after_rmw (ready EVENT) (events w)) (timers w) in
  let '(any, w) := on_timers (ready_timers ts r 0) w in
  match any, ret with
  | Throw ret, _ => (ret, w)
  | Ok _, RMW_RET_ERROR => (RCL_RET_ERROR, w)
  | Ok any_timer_is_ready, _ =>
    (match ret with RMW_RET_TIMEOUT => if any_timer_is_ready then RCL_RET_OK else RCL_RET_TIMEOUT | _ => RCL_RET_OK end,
     mkWaitSet (drop_not_ready (subscriptions w)) (drop_not_ready (guard_conditions w)) (drop_not_ready (clients w))
       (drop_not_ready (services w)) (drop_not_ready (events w)) (timers w))
  end.

Definition is_empty (w : rcl_wait_set_impl_t) : bool :=
  forallb (fun k => (size_of w k =? 0)%nat) [SUBSCRIPTION; GUARD_CONDITION; TIMER; CLIENT; SERVICE; EVENT].

Definition prepare_guard_conditions (w : rcl_wait_set_impl_t) : rcl_wait_set_impl_t :=
  let g := guard_conditions w in
  let '(l, n) := move_guard_conditions (length (handles g)) 0 (take (index (timers w)) (handles (timers w))) (rmw g)
    (rmw_count g) in
  set_slots w GUARD_CONDITION (mkSlots (handles g) (index g) l n).

(** The timeout for the middleware and the timers that are left. *)
Definition compute_timeout (ts : TimerTable) (r : Readings) (w : rcl_wait_set_impl_t) (timeout : Z)
    : Result rcl_ret_t (option (Z * Z)) * rcl_wait_set_impl_t :=
  if timeout =? 0 then (Ok (Some (0, 0)), w) else
  let '(scan, w) := on_timers (fun l => scan_timers ts r 0 l no_next_calls) w in
  (match scan with
   | ScanFailed ret => Throw ret
   | WakeInstantly => Ok (Some (0, 0))
   | ScanDone m => timeout_argument r m timeout
   end, w).

(** The loops over the timers run to [timer_index]; beyond the end of the
    array, a null pointer after a resize that failed, the wait follows it
    ([None]). *)
Definition rcl_wait `{Rmw} (ts : TimerTable) (r : Readings) (wait_set : rcl_wait_set_t) (timeout : Z)
    : option (rcl_ret_t * rcl_wait_set_t) :=
  match wait_set with
  | None => Some (RCL_RET_WAIT_SET_INVALID, None)
  | Some w =>
    if is_empty w then Some (RCL_RET_WAIT_SET_EMPTY, wait_set) else
    if (size_of w TIMER <? index (timers w))%nat then None else
    match compute_timeout ts r (prepare_guard_conditions w) timeout with
    | (Throw ret, w) => Some (ret, Some w)
    | (Ok timeout, w) => let '(ret, w) := wait_and_update ts r w timeout in Some (ret, Some w)
    end
  end.
