(* ===== verification/WaitSetFacts.v ===== *)
(** * Waiting, proved

    What [WaitSet] promises: a set is filled handle by handle
    ([wait_set_add_filled] and its companions), a wait offers everything and
    leaves what is ready ([rcl_wait_spec]), and it lasts no longer than it
    should ([compute_timeout_earliest]).  After a resize that failed it does
    not ([failed_resize_breaks_wait]). *)

From Stdlib Require Import ZArith Lia.
From stdpp Require Import base numbers list.
From S2P Require Import Prelude RclTypes Timer WaitSet.
#[local] Open Scope Z_scope.

(** * What the functions promise *)

(** ** Filling a wait set

    [filled]: what the caller has added since the set was cleared, handle by
    handle, with the handles of the middleware ([hd]) and the guard
    conditions of the timers ([guard]).  Of the middleware's arrays only the
    places in use are described: clearing leaves what is behind them. *)
Section Filled.
Context (hd : Kind -> N -> N) (guard : N -> N).

Definition rmw_room (w : rcl_wait_set_impl_t) (k : Kind) : nat :=
  match k with
  | GUARD_CONDITION => size_of w GUARD_CONDITION + size_of w TIMER
  | TIMER => 0
  | _ => size_of w k
  end.

Record filled (w : rcl_wait_set_impl_t) (L : Kind -> list N) : Prop := mkFilled {
  filled_room k : (length (L k) <= size_of w k)%nat;
  filled_handles k : handles (slots w k) = map Some (L k) ++ replicate (size_of w k - length (L k)) None;
  filled_index k : index (slots w k) = length (L k);
  filled_rmw_room k : length (rmw (slots w k)) = rmw_room w k;
  filled_count k : k <> TIMER -> rmw_count (slots w k) = length (L k);
  filled_rmw k : k <> TIMER -> take (length (L k)) (rmw (slots w k)) = map (fun h => Some (hd k h)) (L k);
  filled_guards i h : L TIMER !! i = Some h ->
    rmw (guard_conditions w) !! (size_of w GUARD_CONDITION + i)%nat = Some (Some (guard h));
}.

Lemma slots_set w k k' s : slots (set_slots w k s) k' = if bool_decide (k' = k) then s else slots w k'.
Proof. by destruct k, k'. Qed.

Lemma set_slots_slots w k : set_slots w k (slots w k) = w.
Proof. by destruct w, k. Qed.

(** A set whose arrays have the sizes they should have. *)
Definition sized (w : rcl_wait_set_impl_t) : Prop :=
  (forall k, (index (slots w k) <= size_of w k)%nat /\ length (rmw (slots w k)) = rmw_room w k) /\
  forall k, k <> TIMER -> (rmw_count (slots w k) <= rmw_room w k)%nat.

Lemma filled_sized w L : filled w L -> sized w.
Proof.
  intros [H1 H2 H3 H4 H5 H6 H7]. split.
  - intros k. rewrite H3, H4. split; [apply H1|done].
  - intros k Hk. rewrite H5 by done. specialize (H1 k). destruct k; simpl; try lia. done.
Qed.

Lemma filled_nothing w :
  (forall k, handles (slots w k) = replicate (size_of w k) None /\ index (slots w k) = 0%nat /\
     length (rmw (slots w k)) = rmw_room w k /\ (k <> TIMER -> rmw_count (slots w k) = 0%nat)) ->
  filled w (fun _ => []).
Proof.
  intros Hw. split; intros; try (by apply Hw); try done; simpl; try lia.
  rewrite Nat.sub_0_r. apply Hw.
Qed.

Lemma clear_slots_spec s :
  (index s <= length (handles s))%nat ->
  handles (clear_slots s) = replicate (length (handles s)) None /\ index (clear_slots s) = 0%nat /\
  (rmw_count s <= length (rmw s) -> length (rmw (clear_slots s)) = length (rmw s) /\ rmw_count (clear_slots s) = 0)%nat.
Proof.
  destruct s as [hs i rs n]. simpl. intros Hi. unfold clear_slots, zero_first. simpl.
  destruct hs as [|h hs]; destruct rs as [|d rs]; simpl in *; repeat split; try lia; try done.
  all: rewrite length_app, length_replicate, length_drop; simpl; lia.
Qed.

Lemma clear_empties w w' :
  sized w -> rcl_wait_set_clear (Some w) = (RCL_RET_OK, Some w') ->
  (forall k, size_of w' k = size_of w k) /\ filled w' (fun _ => []).
Proof.
  intros [Hs Hc] [= <-]. 
  assert (E : forall k, slots (mkWaitSet (clear_slots (subscriptions w)) (clear_slots (guard_conditions w)) (clear_slots (clients w))
       (clear_slots (services w)) (clear_slots (events w)) (clear_slots (timers w))) k = clear_slots (slots w k)) by by intros [].
  revert E. generalize (mkWaitSet (clear_slots (subscriptions w)) (clear_slots (guard_conditions w)) (clear_slots (clients w))
       (clear_slots (services w)) (clear_slots (events w)) (clear_slots (timers w))). intros w' E.
  assert (Hsz : forall k, size_of w' k = size_of w k).
  { intros k. unfold size_of. rewrite E. destruct (Hs k) as [Hi _].
    destruct (clear_slots_spec (slots w k) Hi) as (-> & _). apply length_replicate. }
  assert (Hr : forall k, rmw_room w' k = rmw_room w k) by (intros []; simpl; by rewrite ?Hsz).
  split; [done|]. apply filled_nothing. intros k. rewrite E, Hsz, Hr. destruct (Hs k) as [Hi Hl].
  destruct (clear_slots_spec (slots w k) Hi) as (H1 & H2 & H3). split_and!; [done|done| |].
  - destruct (decide (k = TIMER)) as [->|Hk]; [|rewrite <- Hl; apply H3; rewrite Hl; by apply Hc].
    simpl in *. destruct (timers w) as [hs i rs n]. simpl in *. destruct rs; [|done].
    unfold clear_slots. simpl. by destruct hs.
  - intros Hk. apply H3. rewrite Hl. by apply Hc.
Qed.

(** One handle more. *)
Definition add_to (L : Kind -> list N) (k : Kind) (h : N) : Kind -> list N :=
  fun k' => if bool_decide (k' = k) then L k ++ [h] else L k'.

Lemma fill_one (l : list N) n h :
  (length l < n)%nat ->
  <[length l := Some h]> (map Some l ++ replicate (n - length l) None) =
  map Some (l ++ [h]) ++ replicate (n - length (l ++ [h])) None.
Proof.
  intros Hn. rewrite length_app. simpl. replace (n - length l)%nat with (S (n - (length l + 1))) by lia.
  rewrite insert_app_r_alt by by rewrite length_map. rewrite length_map, Nat.sub_diag. simpl.
  by rewrite map_app, <- app_assoc.
Qed.

Lemma set_add_filled w L k h :
  filled w L -> (length (L k) < size_of w k)%nat ->
  set_add k w (Some h) = Ok (length (L k),
    set_slots w k (mkSlots (<[length (L k) := Some h]> (handles (slots w k))) (S (length (L k))) (rmw (slots w k))
      (rmw_count (slots w k)))).
Proof.
  intros Hf Hn. unfold set_add. rewrite (filled_index _ _ Hf). unfold size_of in Hn. by destruct (Nat.ltb_spec (length (L k)) (length (handles (slots w k)))); [|lia].
Qed.

Lemma set_add_full w L k h :
  filled w L -> length (L k) = size_of w k -> set_add k w (Some h) = Throw RCL_RET_WAIT_SET_FULL.
Proof.
  intros Hf Hn. unfold set_add. rewrite (filled_index _ _ Hf), Hn. unfold size_of.
  by rewrite (proj2 (Nat.ltb_ge _ _)).
Qed.

Lemma add_to_same L k h : add_to L k h k = L k ++ [h].
Proof. unfold add_to. by rewrite bool_decide_true. Qed.

Lemma add_to_other L k k' h : k' <> k -> add_to L k h k' = L k'.
Proof. intros Hk. unfold add_to. by rewrite bool_decide_false. Qed.

(** The handle is added and the rest of its slots, but for the places in use
    of the middleware's array, is as it was. *)
Lemma add_filled w L k h rs n s :
  filled w L -> (length (L k) < size_of w k)%nat ->
  s = mkSlots (<[length (L k) := Some h]> (handles (slots w k))) (S (length (L k))) rs n ->
  length rs = rmw_room w k -> (k <> TIMER -> n = S (length (L k))) ->
  (k <> TIMER -> take (S (length (L k))) rs = take (length (L k)) (rmw (slots w k)) ++ [Some (hd k h)]) ->
  (k = GUARD_CONDITION -> drop (size_of w k) rs = drop (size_of w k) (rmw (slots w k))) ->
  (k = TIMER -> rmw (guard_conditions w) !! (size_of w GUARD_CONDITION + length (L k))%nat = Some (Some (guard h))) ->
  filled (set_slots w k s) (add_to L k h).
Proof.
  intros Hf Hn -> Hrs Hc Ht Hg Hgt.
  assert (Hsz : forall k', size_of (set_slots w k (mkSlots (<[length (L k) := Some h]> (handles (slots w k))) (S (length (L k))) rs n)) k' = size_of w k').
  { intros k'. unfold size_of. rewrite slots_set. case_bool_decide; [subst; simpl; apply length_insert|done]. }
  split.
  - intros k'. rewrite Hsz. destruct (decide (k' = k)) as [->|Hk]; [|rewrite add_to_other by done; by apply Hf].
    rewrite add_to_same, length_app. simpl. lia.
  - intros k'. rewrite Hsz, slots_set. case_bool_decide as Hk; [subst k'|rewrite add_to_other by done; by apply Hf].
    rewrite add_to_same. simpl. rewrite (filled_handles _ _ Hf k). by apply fill_one.
  - intros k'. rewrite slots_set. case_bool_decide as Hk; [subst k'|rewrite add_to_other by done; by apply Hf].
    rewrite add_to_same, length_app. simpl. lia.
  - intros k'. rewrite slots_set.
    replace (rmw_room (set_slots w k _) k') with (rmw_room w k') by (destruct k'; simpl; by rewrite ?Hsz).
    case_bool_decide as Hk; [by subst k'|by apply Hf].
  - intros k' Hk'. rewrite slots_set. case_bool_decide as Hk; [subst k'|rewrite add_to_other by done; by apply Hf].
    simpl. rewrite add_to_same, length_app, Hc by done. simpl. lia.
  - intros k' Hk'. rewrite slots_set. case_bool_decide as Hk; [subst k'|rewrite add_to_other by done; by apply Hf].
    simpl. rewrite add_to_same, length_app, map_app. simpl. rewrite Nat.add_1_r, Ht by done.
    by rewrite (filled_rmw _ _ Hf k Hk').
  - intros i h'. rewrite Hsz. change (guard_conditions (set_slots w k ?s)) with (slots (set_slots w k s) GUARD_CONDITION).
    rewrite slots_set. destruct (decide (k = TIMER)) as [->|Hk].
    + rewrite add_to_same, lookup_app_Some, list_lookup_singleton_Some. simpl.
      intros [Hi|(Hi & Hi' & <-)]; [by apply Hf|]. replace i with (length (L TIMER)) by lia. by apply Hgt.
    + rewrite add_to_other by congruence. intros Hi. apply (filled_guards _ _ Hf) in Hi.
      case_bool_decide as Hk'; [|done]. subst k. simpl in *.
      rewrite <- lookup_drop in Hi |- *. by rewrite Hg.
Qed.

Lemma take_insert_end {A} (l : list A) n x : (n < length l)%nat -> take (S n) (<[n := x]> l) = take n l ++ [x].
Proof.
  intros Hn. erewrite take_S_r by (apply list_lookup_insert_eq; done). by rewrite take_insert_ge.
Qed.

Lemma wait_set_add_filled w L k h rh :
  k <> TIMER -> filled w L -> (length (L k) < size_of w k)%nat -> rh h = Some (hd k h) ->
  exists w', rcl_wait_set_add k rh (Some w) (Some h) = (RCL_RET_OK, Some (length (L k)), Some w') /\
    filled w' (add_to L k h) /\ forall k', size_of w' k' = size_of w k'.
Proof.
  intros Hk Hf Hn Hh. unfold rcl_wait_set_add. rewrite (set_add_filled _ _ _ _ Hf Hn). simpl. rewrite Hh.
  eexists. split; [done|]. rewrite slots_set, bool_decide_true by done. simpl.
  assert (E : forall s s', set_slots (set_slots w k s) k s' = set_slots w k s') by by (intros; destruct k).
  rewrite E, (filled_count _ _ Hf k Hk). pose proof (filled_room _ _ Hf k) as Hr.
  assert (Hlen : (length (L k) < length (rmw (slots w k)))%nat).
  { rewrite (filled_rmw_room _ _ Hf k). destruct k; simpl in *; try lia; done. }
  split.
  - apply (add_filled _ _ _ _ _ _ _ Hf Hn eq_refl); try done.
    + rewrite length_insert. apply Hf.
    + intros _. by apply take_insert_end.
    + intros _. by rewrite drop_insert_lt.
  - intros k'. unfold size_of. rewrite slots_set. case_bool_decide; [subst; simpl; by rewrite length_insert|done].
Qed.

Lemma wait_set_add_timer_filled w L ts h :
  filled w L -> (length (L TIMER) < size_of w TIMER)%nat -> timer_guard ts h = Some (Some (guard h)) ->
  exists w', rcl_wait_set_add_timer ts (Some w) (Some h) = (RCL_RET_OK, Some (length (L TIMER)), Some w') /\
    filled w' (add_to L TIMER h) /\ forall k', size_of w' k' = size_of w k'.
Proof.
  intros Hf Hn Hg. unfold rcl_wait_set_add_timer. rewrite (set_add_filled _ _ _ _ Hf Hn). simpl. rewrite Hg, Nat.sub_0_r.
  eexists. split; [done|].
  pose proof (filled_rmw_room _ _ Hf GUARD_CONDITION) as Hr. simpl in Hr.
  pose proof (filled_room _ _ Hf GUARD_CONDITION) as Hl.
  assert (Hg' : filled (set_slots w GUARD_CONDITION (mkSlots (handles (guard_conditions w)) (index (guard_conditions w))
    (<[(size_of w GUARD_CONDITION + length (L TIMER))%nat := Some (guard h)]> (rmw (guard_conditions w)))
    (rmw_count (guard_conditions w)))) L).
  { destruct Hf as [H1 H2 H3 H4 H5 H6 H7].
    split; try (intros k; specialize (H1 k); specialize (H2 k); specialize (H3 k); specialize (H4 k); specialize (H5 k);
      by destruct k).
    - intros k. specialize (H4 k). destruct k; try done. simpl in *. by rewrite length_insert.
    - intros k Hk. specialize (H6 k Hk). destruct k; try done. simpl in *. rewrite take_insert_ge; [done|].
      unfold size_of in *. simpl in *. lia.
    - intros i h' Hi. simpl. rewrite list_lookup_insert_ne; [by apply H7|]. apply lookup_lt_Some in Hi. unfold size_of. simpl. lia. }
  change (mkWaitSet _ _ _ _ _ _) with (set_slots (set_slots w GUARD_CONDITION (mkSlots (handles (guard_conditions w)) (index (guard_conditions w))
    (<[(size_of w GUARD_CONDITION + length (L TIMER))%nat := Some (guard h)]> (rmw (guard_conditions w)))
    (rmw_count (guard_conditions w)))) TIMER (mkSlots (<[length (L TIMER) := Some h]> (handles (timers w))) (S (length (L TIMER))) (rmw (timers w))
      (rmw_count (timers w)))).
  split.
  - apply (add_filled _ _ _ _ _ _ _ Hg' Hn eq_refl); try done.
    + apply (filled_rmw_room _ _ Hf TIMER).
    + intros _. simpl. change (size_of _ GUARD_CONDITION) with (size_of w GUARD_CONDITION).
      apply list_lookup_insert_eq. rewrite Hr. lia.
  - intros []; unfold size_of; simpl; by rewrite ?length_insert.
Qed.
End Filled.

(** ** What is waited for *)

Section Waiting.
Context (hd : Kind -> N -> N) (guard : N -> N) (ts : TimerTable).

Lemma move_guard_conditions_spec size i l (ids : list N) n :
  (forall j h, ids !! j = Some h -> l !! (size + i + j)%nat = Some (Some (guard h))) ->
  (n <= size + i)%nat ->
  exists l', move_guard_conditions size i (map Some ids) l n = (l', (n + length ids)%nat) /\
    length l' = length l /\
    take (n + length ids) l' = take n l ++ map (fun h => Some (guard h)) ids.
Proof.
  revert i l n. induction ids as [|h ids IH]; intros i l n Hg Hn; simpl.
  - exists l. by rewrite Nat.add_0_r, app_nil_r.
  - pose proof (Hg 0%nat h eq_refl) as H0. rewrite Nat.add_0_r in H0. rewrite H0. simpl.
    pose proof (lookup_lt_Some _ _ _ H0) as Hl.
    destruct (IH (S i) (<[n := Some (guard h)]> l) (S n)) as (l' & -> & Hlen & Ht).
    + intros j h' Hj. rewrite list_lookup_insert_ne by lia.
      replace (size + S i + j)%nat with (size + i + S j)%nat by lia. by apply Hg.
    + lia.
    + exists l'. replace (n + S (length ids))%nat with (S n + length ids)%nat by lia.
      rewrite length_insert in Hlen. split_and!; [done|done|]. rewrite Ht, take_insert_end by lia. by rewrite <- app_assoc.
Qed.

(** Everything that was added, and the guard conditions of the timers. *)
Definition everything (L : Kind -> list N) (timeout : option (Z * Z)) : Offer :=
  let all k := map (fun h => Some (hd k h)) (L k) in
  mkOffer (all SUBSCRIPTION) (all GUARD_CONDITION ++ map (fun h => Some (guard h)) (L TIMER))
    (all SERVICE) (all CLIENT) (all EVENT) timeout.

Lemma filled_timers w L : filled hd guard w L -> take (index (timers w)) (handles (timers w)) = map Some (L TIMER).
Proof.
  intros Hf. pose proof (filled_handles _ _ _ _ Hf TIMER) as Hh. pose proof (filled_index _ _ _ _ Hf TIMER) as Hi.
  simpl in *. rewrite Hh, Hi. rewrite <- (length_map Some (L TIMER)). apply take_app_length.
Qed.

Lemma filled_in_use w L k :
  filled hd guard w L -> k <> TIMER -> in_use (slots w k) = map (fun h => Some (hd k h)) (L k).
Proof. intros Hf Hk. unfold in_use. rewrite (filled_count _ _ _ _ Hf k Hk). by apply Hf. Qed.

Lemma prepare_spec w L :
  filled hd guard w L ->
  exists g, prepare_guard_conditions w = set_slots w GUARD_CONDITION g /\
    handles g = handles (guard_conditions w) /\ length (rmw g) = length (rmw (guard_conditions w)) /\
    rmw_count g = (length (L GUARD_CONDITION) + length (L TIMER))%nat /\
    in_use g = map (fun h => Some (hd GUARD_CONDITION h)) (L GUARD_CONDITION) ++ map (fun h => Some (guard h)) (L TIMER).
Proof.
  intros Hf. unfold prepare_guard_conditions. rewrite (filled_timers _ _ Hf).
  pose proof (filled_count _ _ _ _ Hf GUARD_CONDITION) as Hc. pose proof (filled_room _ _ _ _ Hf GUARD_CONDITION) as Hr.
  pose proof (filled_in_use _ _ GUARD_CONDITION Hf) as Hu. unfold size_of, in_use in *. simpl in *.
  destruct (move_guard_conditions_spec (length (handles (guard_conditions w))) 0 (rmw (guard_conditions w)) (L TIMER)
    (rmw_count (guard_conditions w))) as (l' & -> & Hlen & Ht).
  - intros j h Hj. rewrite Nat.add_0_r. by apply (filled_guards _ _ _ _ Hf).
  - rewrite Hc by done. lia.
  - eexists. split; [done|]. simpl. unfold in_use. simpl. rewrite Ht, Hc in * by done. split_and!; try done. by rewrite Hu.
Qed.

(** A timer that is due after the wait. *)
Definition due (r : Readings) (i : nat) (h : N) : bool :=
  match rcl_timer_is_ready (timer_at ts h) (after_now r i) with Ok ready => ready | Throw _ => false end.

(** The timers before the wait: those that were canceled may be gone. *)
Inductive pruned : list N -> list (option N) -> Prop :=
| pruned_nil : pruned [] []
| pruned_keep h l l' : pruned l l' -> pruned (h :: l) (Some h :: l')
| pruned_drop h l l' : (exists t, timer_at ts h = Some t /\ canceled t = true) -> pruned l l' -> pruned (h :: l) (None :: l').

Lemma pruned_all l : pruned l (map Some l).
Proof. induction l; by constructor. Qed.

Lemma pruned_length l l' : pruned l l' -> length l' = length l.
Proof. induction 1; simpl; congruence. Qed.

Lemma scan_prunes r i l m : pruned l (scan_timers ts r i (map Some l) m).2.
Proof.
  revert i m. induction l as [|h l IH]; intros i m; simpl; [constructor|].
  destruct (timer_at ts h) as [t|] eqn:Et; [|by apply (pruned_all (h :: l))].
  assert (Hk : forall m, pruned (h :: l) (let '(res, l'') := scan_timers ts r (S i) (map Some l) m in (res, Some h :: l'')).2).
  { intros m'. specialize (IH (S i) m'). destruct (scan_timers _ _ _ _ _). by constructor. }
  destruct (bool_decide _ && _).
  - destruct (rcl_timer_is_ready _ _) as [[]|]; [by apply (pruned_all (h :: l))|apply Hk|by apply (pruned_all (h :: l))].
  - simpl. destruct (canceled t) eqn:Ec; [|apply Hk].
    specialize (IH (S i) m). destruct (scan_timers _ _ _ _ _). constructor; eauto.
Qed.

Lemma imap_from {B C} (f : nat -> B -> C) i x l :
  imap (fun j => f (i + j)%nat) (x :: l) = f i x :: imap (fun j => f (S i + j)%nat) l.
Proof. simpl. f_equal; [f_equal; lia|]. apply imap_ext. intros j y _. simpl. f_equal. lia. Qed.

Lemma due_ready r i h :
  is_Some (timer_at ts h) -> is_ok (after_now r i) = true ->
  rcl_timer_is_ready (timer_at ts h) (after_now r i) = Ok (due r i h).
Proof.
  unfold due. intros [t ->] Hr. simpl. destruct (after_now r i); [|done]. simpl. by destruct (canceled t).
Qed.

Lemma canceled_not_due r i h t : timer_at ts h = Some t -> canceled t = true -> due r i h = false.
Proof. intros Ht Hc. unfold due. rewrite Ht. simpl. by rewrite Hc. Qed.

Lemma ready_timers_spec r i l l' :
  pruned l l' -> (forall h, h ∈ l -> is_Some (timer_at ts h)) -> (forall j, is_ok (after_now r j) = true) ->
  ready_timers ts r i l' =
  (Ok (existsb id (imap (fun j => due r (i + j)%nat) l)), imap (fun j h => if due r (i + j)%nat h then Some h else None) l).
Proof.
  intros Hp Hl Hr. revert i. induction Hp as [|h l l' Hp IH|h l l' (t & Ht & Hc) Hp IH]; intros i; [done| |].
  all: rewrite (imap_from (due r)), (imap_from (fun j h => if due r j h then Some h else None));
    cbn [ready_timers existsb]; rewrite IH by (intros; apply Hl; by right).
  - rewrite due_ready; [done|apply Hl; by left|done].
  - by rewrite (canceled_not_due _ _ _ _ Ht Hc).
Qed.

(** What is left of the handles of one type. *)
Definition left_over (ready : nat -> N -> bool) (ids : list N) (size : nat) : list (option N) :=
  imap (fun i h => if ready i h then Some h else None) ids ++ replicate (size - length ids) None.

Lemma zip_nothing (l : list (option N)) n :
  (n <= length l)%nat ->
  zip_with (fun h d : option N => match d with Some _ => h | None => None end) (replicate n None) l = replicate n None.
Proof. revert l. induction n as [|n IH]; intros [|[x|] l]; simpl; intros Hn; try done; try lia; f_equal; apply IH; lia. Qed.

Lemma drop_not_ready_spec ready (s : Slots) (ids : list N) (f : N -> N) (rest : list (option N)) :
  handles s = map Some ids ++ replicate (length (handles s) - length ids) None ->
  (length ids <= length (handles s))%nat -> (length (handles s) <= length (rmw s))%nat ->
  in_use s = map (fun h => Some (f h)) ids ++ rest ->
  handles (drop_not_ready (after_rmw ready s)) = left_over (fun i _ => ready i) ids (length (handles s)).
Proof.
  intros Hh Hr Hl Hu. unfold after_rmw, drop_not_ready, set_handles, left_over. simpl. rewrite Hu. 
  assert (Hlen : (length ids + length rest + length (drop (rmw_count s) (rmw s)) = length (rmw s))%nat).
  { rewrite <- (take_drop (rmw_count s) (rmw s)) at 2. fold (in_use s). rewrite Hu, !length_app, length_map. lia. }
  unfold keep_ready. rewrite imap_app, <- app_assoc, Hh at 1. rewrite zip_with_app by by rewrite length_map, length_imap, length_map.
  f_equal.
  - rewrite imap_fmap. clear. generalize ready. induction ids as [|h ids IH]; intros g; [done|]. simpl. f_equal; [by destruct (g 0%nat)|].
    apply (IH (fun i => g (S i))).
  - rewrite imap_ext with (g := fun i x => if ready (length ids + i)%nat then x else None) by (intros; by rewrite length_map).
    apply zip_nothing. rewrite length_app, length_imap. lia.
Qed.

(** ** The outcome of a wait

    [any_due]: some timer is due after the wait. *)
Definition any_due (r : Readings) (L : Kind -> list N) : bool := existsb id (imap (due r) (L TIMER)).

Lemma compute_timeout_prunes w L r timeout res w' :
  take (index (timers w)) (handles (timers w)) = map Some (L TIMER) ->
  compute_timeout ts r w timeout = (res, w') ->
  exists l, pruned (L TIMER) l /\
    w' = set_slots w TIMER (set_handles (timers w) (l ++ drop (index (timers w)) (handles (timers w)))).
Proof.
  intros Ht. unfold compute_timeout. case_match.
  - intros [= <- <-]. exists (map Some (L TIMER)). split; [apply pruned_all|]. rewrite <- Ht, take_drop. by destruct w as [?????[]].
  - unfold on_timers. rewrite Ht. pose proof (scan_prunes r 0 (L TIMER) no_next_calls) as Hp.
    destruct (scan_timers _ _ _ _ _) as [scan l]. simpl in Hp. intros [= <- <-]. exists l. split; [done|]. by destruct scan.
Qed.

Lemma compute_timeout_timers w w' r timeout :
  timers w' = timers w -> (compute_timeout ts r w' timeout).1 = (compute_timeout ts r w timeout).1.
Proof. intros E. unfold compute_timeout, on_timers. rewrite E. case_match; [done|]. by destruct (scan_timers _ _ _ _ _). Qed.

Lemma after_drop w L g k ready :
  filled hd guard w L -> handles g = handles (guard_conditions w) -> length (rmw g) = length (rmw (guard_conditions w)) ->
  in_use g = map (fun h => Some (hd GUARD_CONDITION h)) (L GUARD_CONDITION) ++ map (fun h => Some (guard h)) (L TIMER) ->
  k <> TIMER ->
  handles (drop_not_ready (after_rmw ready (slots (set_slots w GUARD_CONDITION g) k))) =
  left_over (fun i _ => ready i) (L k) (size_of w k).
Proof.
  intros Hf Hh Hl Hu Hk. pose proof (filled_handles _ _ _ _ Hf k) as Hhk. pose proof (filled_room _ _ _ _ Hf k) as Hr.
  pose proof (filled_rmw_room _ _ _ _ Hf k) as Hrr. unfold size_of in *.
  rewrite slots_set. case_bool_decide as E; [subst k; simpl in *; rewrite <- Hh in *|].
  - eapply drop_not_ready_spec; [exact Hhk|done|rewrite Hl, Hrr, Hh; unfold size_of; simpl; lia|exact Hu].
  - eapply (drop_not_ready_spec _ _ _ (hd k) []); [exact Hhk|done|by rewrite Hrr; destruct k|].
    rewrite app_nil_r. by eapply filled_in_use.
Qed.

(** C12: [rcl_wait] offers the middleware every handle that was added since
    the set was cleared, and the guard conditions of its timers, and nothing
    else.  Afterwards a handle is left exactly if the middleware found it
    ready, a timer exactly if it is due then; the code is that of a timeout
    exactly if the middleware timed out and no timer is due. *)
Theorem rcl_wait_spec `{Rmw} w L r timeout t :
  filled hd guard w L -> is_empty w = false -> (forall h, h ∈ L TIMER -> is_Some (timer_at ts h)) ->
  (forall j, is_ok (after_now r j) = true) -> (compute_timeout ts r w timeout).1 = Ok t ->
  let '(ret, ready) := rmw_wait (everything L t) in
  ret <> RMW_RET_ERROR ->
  exists w', rcl_wait ts r (Some w) timeout =
      Some (match ret with RMW_RET_TIMEOUT => if any_due r L then RCL_RET_OK else RCL_RET_TIMEOUT | _ => RCL_RET_OK end, Some w') /\
    (forall k, k <> TIMER -> handles (slots w' k) = left_over (fun i _ => ready k i) (L k) (size_of w k)) /\
    handles (timers w') = left_over (due r) (L TIMER) (size_of w TIMER).
Proof.
  intros Hf He Hl Hr Ht. destruct (rmw_wait (everything L t)) as [ret ready] eqn:Er. intros Hret.
  unfold rcl_wait. rewrite He.
  pose proof (filled_index _ _ _ _ Hf TIMER) as Hi. pose proof (filled_room _ _ _ _ Hf TIMER) as Hroom. simpl in Hi.
  rewrite Hi, (proj2 (Nat.ltb_ge _ _) Hroom).
  destruct (prepare_spec w L Hf) as (g & -> & Hgh & Hgl & Hgc & Hgu).
  pose proof (compute_timeout_timers w (set_slots w GUARD_CONDITION g) r timeout eq_refl) as Ec. rewrite Ht in Ec.
  destruct (compute_timeout ts r (set_slots w GUARD_CONDITION g) timeout) as [res w1] eqn:E1. simpl in Ec. subst res.
  apply (compute_timeout_prunes _ L) in E1 as (l & Hp & ->); [|exact (filled_timers _ _ Hf)].
  unfold wait_and_update.
  assert (Eo : offer_of (set_slots (set_slots w GUARD_CONDITION g) TIMER (set_handles (timers (set_slots w GUARD_CONDITION g))
      (l ++ drop (index (timers (set_slots w GUARD_CONDITION g))) (handles (timers (set_slots w GUARD_CONDITION g)))))) t = everything L t).
  { unfold offer_of, everything. simpl. rewrite Hgu.
    by rewrite <- (filled_in_use w L SUBSCRIPTION), <- (filled_in_use w L SERVICE), <- (filled_in_use w L CLIENT),
      <- (filled_in_use w L EVENT). }
  rewrite Eo, Er. unfold on_timers. simpl.
  assert (El : take (index (timers w)) (l ++ drop (index (timers w)) (handles (timers w))) = l).
  { rewrite Hi, <- (pruned_length _ _ Hp). apply take_app_length. }
  rewrite El, (ready_timers_spec r 0 _ _ Hp Hl Hr). simpl.
  eexists. split_and!; [by destruct ret|..].
  - intros k Hk. pose proof (after_drop w L g k (ready k) Hf Hgh Hgl Hgu Hk) as Hd. destruct k; exact Hd || done.
  - simpl. unfold left_over. f_equal. rewrite Hi, <- (pruned_length _ _ Hp) at 1. rewrite drop_app_length.
    pose proof (filled_handles _ _ _ _ Hf TIMER) as Hh. simpl in Hh. rewrite Hh, Hi.
    rewrite <- (length_map Some (L TIMER)) at 1. by rewrite drop_app_length.
Qed.
End Waiting.

(** ** How long a wait lasts *)

Section Timeout.
Context (ts : TimerTable) (r : Readings) (now : rcl_clock_type_t -> Z).

(** The clocks of one type agree while the timeout is computed. *)
Context (clocks_agree : forall c, clock_now r c = Ok (now (clock_type ts c))) (readings : forall i, is_ok (ready_now r i) = true).

Definition overridden (h : N) : bool :=
  bool_decide (clock_type ts (timer_clock ts h) = RCL_ROS_TIME) && override_active ts (timer_clock ts h).

(** A timer on overridden time that is due. *)
Definition wakes (i : nat) (h : N) : bool :=
  overridden h && match rcl_timer_is_ready (timer_at ts h) (ready_now r i) with Ok ready => ready | Throw _ => false end.

(** The next call of a timer whose time passes by itself. *)
Definition next_of (h : N) : option (rcl_clock_type_t * Z) :=
  if overridden h then None else
  match timer_at ts h with
  | Some t => if canceled t then None else Some (clock_type ts (timer_clock ts h), next_call_time t)
  | None => None
  end.

(** [m'] has, for each type of clock, the earliest of the calls in [m] and of
    the timers [l]. *)
Definition gathers (m : NextCalls) (l : list N) (m' : NextCalls) : Prop :=
  forall t, earliest m' t <= earliest m t /\
    (forall h z, h ∈ l -> next_of h = Some (t, z) -> earliest m' t <= z) /\
    (m' t = m t \/ exists h z, h ∈ l /\ next_of h = Some (t, z) /\ z < int64_max /\ m' t = Some (timer_clock ts h, z)).

Lemma gathers_skip m h l m' : next_of h = None -> gathers m l m' -> gathers m (h :: l) m'.
Proof.
  intros Hn Hg t. destruct (Hg t) as (H1 & H2 & H3). split_and!; [done| |].
  - intros h' z [->|Hh]%elem_of_cons; [by rewrite Hn|eauto].
  - destruct H3 as [?|(h' & z & ? & ?)]; [by left|right]. exists h', z. split; [by right|done].
Qed.

Lemma gathers_note m h l m' t z :
  next_of h = Some (t, z) -> earliest m t <= int64_max -> gathers (note_next_call m t (timer_clock ts h) z) l m' -> gathers m (h :: l) m'.
Proof.
  intros Hn Hm Hg t'. destruct (Hg t') as (H1 & H2 & H3). clear Hg. unfold note_next_call in *.
  assert (Hin : forall h', h' ∈ l -> h' ∈ h :: l) by (intros; by right).
  destruct (Z.ltb_spec z (earliest m t)) as [Hz|Hz].
  - assert (E1 : earliest (fun t' => if bool_decide (t' = t) then Some (timer_clock ts h, z) else m t') t' =
      if bool_decide (t' = t) then z else earliest m t') by (unfold earliest; by case_bool_decide).
    rewrite E1 in H1. clear E1. case_bool_decide as E; [subst t'|]; (split_and!; [lia|..]).
    + intros h' z' [->|Hh]%elem_of_cons; [rewrite Hn; intros [= <-]; lia|eauto].
    + right. destruct H3 as [E3|(h' & z' & ? & ? & ? & ?)]; [exists h, z|exists h', z'; eauto].
      split_and!; [by left|done|lia|done].
    + intros h' z' [->|Hh]%elem_of_cons; [rewrite Hn; congruence|eauto].
    + destruct H3 as [?|(h' & z' & ? & ? & ? & ?)]; [by left|right]. exists h', z'. eauto.
  - split_and!; [done| |].
    + intros h' z' [->|Hh]%elem_of_cons; [rewrite Hn; intros [= <- <-]; lia|eauto].
    + destruct H3 as [?|(h' & z' & ? & ? & ? & ?)]; [by left|right]. exists h', z'. eauto.
Qed.

Lemma earliest_bound m : (forall t c z, m t = Some (c, z) -> z < int64_max) -> forall t, earliest m t <= int64_max.
Proof. intros Hm t. unfold earliest. destruct (m t) as [[c z]|] eqn:E; [apply Hm in E; lia|lia]. Qed.

Lemma note_bound m t c z :
  (forall t c z, m t = Some (c, z) -> z < int64_max) ->
  forall t' c' z', note_next_call m t c z t' = Some (c', z') -> z' < int64_max.
Proof.
  intros Hm t' c' z'. unfold note_next_call. destruct (Z.ltb_spec z (earliest m t)); [|apply Hm].
  case_bool_decide; [|apply Hm]. intros [= <- <-]. pose proof (earliest_bound m Hm t). lia.
Qed.

Lemma scan_timers_spec i l m :
  (forall h, h ∈ l -> is_Some (timer_at ts h)) -> (forall t c z, m t = Some (c, z) -> z < int64_max) ->
  (scan_timers ts r i (map Some l) m).1 = WakeInstantly /\ existsb id (imap (fun j => wakes (i + j)) l) = true \/
  exists m', (scan_timers ts r i (map Some l) m).1 = ScanDone m' /\ existsb id (imap (fun j => wakes (i + j)) l) = false /\
    gathers m l m'.
Proof.
  revert i m. induction l as [|h l IH]; intros i m Hl Hm.
  - right. exists m. split_and!; [done|done|]. intros t. split_and!; [lia|by intros ?? ?%elem_of_nil|by left].
  - rewrite (imap_from wakes). cbn [existsb map scan_timers]. unfold id at 1 3.
    destruct (Hl h ltac:(by left)) as [t Ht]. pose proof (fun h Hh => Hl h ltac:(by right)) as Hl'. clear Hl.
    unfold wakes at 1 3, overridden. rewrite Ht. fold (overridden h). specialize (readings i).
    assert (Hrec : forall m x, (forall t c z, m t = Some (c, z) -> z < int64_max) ->
      (let '(res, l'') := scan_timers ts r (S i) (map Some l) m in (res, (x : option N) :: l'')).1 = WakeInstantly /\
        existsb id (imap (fun j => wakes (S i + j)) l) = true \/
      exists m', (let '(res, l'') := scan_timers ts r (S i) (map Some l) m in (res, x :: l'')).1 = ScanDone m' /\
        existsb id (imap (fun j => wakes (S i + j)) l) = false /\ gathers m l m').
    { intros m' x Hm'. specialize (IH (S i) m' Hl' Hm'). by destruct (scan_timers _ _ _ _ _). }
    destruct (overridden h) eqn:Eo; simpl.
    + destruct (ready_now r i) as [z|]; [|done]. simpl.
      assert (Hn : next_of h = None) by (unfold next_of; by rewrite Eo).
      assert (Hrest : forall x, (let '(res, l'') := scan_timers ts r (S i) (map Some l) m in (res, (x : option N) :: l'')).1 = WakeInstantly /\
          existsb id (imap (fun j => wakes (S (i + j))) l) = true \/
        exists m', (let '(res, l'') := scan_timers ts r (S i) (map Some l) m in (res, x :: l'')).1 = ScanDone m' /\
          existsb id (imap (fun j => wakes (S (i + j))) l) = false /\ gathers m (h :: l) m').
      { intros x. destruct (Hrec m x Hm) as [?|(m' & ? & ? & ?)]; [by left|right]. exists m'. eauto using gathers_skip. }
      destruct (canceled t); [apply Hrest|]. simpl. destruct (_ <=? 0); [by left|apply Hrest].
    + destruct (canceled t) eqn:Ec.
      * destruct (Hrec m None Hm) as [?|(m' & ? & ? & ?)]; [by left|right]. exists m'. split_and!; [done..|].
        apply gathers_skip; [|done]. unfold next_of. by rewrite Eo, Ht, Ec.
      * destruct (Hrec _ (Some h) (note_bound m (clock_type ts (timer_clock ts h)) (timer_clock ts h) (next_call_time t) Hm))
          as [?|(m' & ? & ? & ?)]; [by left|right]. exists m'. split_and!; [done..|].
        eapply gathers_note; [|by apply earliest_bound|done]. unfold next_of. by rewrite Eo, Ht, Ec.
Qed.

(** The time that is left for the types of clocks in [types]. *)
Definition remaining (m : NextCalls) (t : rcl_clock_type_t) (d : Z) : Prop :=
  exists c z, m t = Some (c, z) /\ d = z - now t.

Definition typed_calls (m : NextCalls) : Prop :=
  forall t c z, m t = Some (c, z) -> clock_type ts c = t /\ in_s 64 (z - now t).

Lemma clock_timeouts_spec m types valid d0 :
  typed_calls m ->
  exists valid' d, clock_timeouts r m types valid d0 = Ok (valid', d) /\ d <= d0 /\
    (forall t d', t ∈ types -> remaining m t d' -> d <= d') /\
    ((valid', d) = (valid, d0) /\ (forall t d', t ∈ types -> remaining m t d' -> d0 < d') \/
     valid' = true /\ exists t, t ∈ types /\ remaining m t d).
Proof.
  intros Hm. revert valid d0. induction types as [|t types IH]; intros valid d0; simpl.
  { exists valid, d0. split_and!; [done|lia|by intros ?? ?%elem_of_nil|]. left. split; [done|]. by intros ?? ?%elem_of_nil. }
  destruct (m t) as [[c z]|] eqn:Et.
  - destruct (Hm _ _ _ Et) as [Hc Hz]. rewrite clocks_agree, Hc. simpl. rewrite (wrap_s_id 64) by (lia || done).
    assert (Ht : forall d, remaining m t d -> d = z - now t) by (intros d (c' & z' & E & ->); congruence).
    destruct (Z.leb_spec (z - now t) d0) as [Hle|Hlt].
    + destruct (IH true (z - now t)) as (v & d & -> & Hd & Hall & Hor). exists v, d. split_and!; [done|lia| |].
      * intros t' d' [->|?]%elem_of_cons Hr; [by apply Ht in Hr as ->|eauto].
      * right. destruct Hor as [[[= -> ->] _]|(-> & t' & ? & ?)].
        -- split; [done|]. exists t. split; [by left|]. by exists c, z.
        -- split; [done|]. exists t'. split; [by right|done].
    + destruct (IH valid d0) as (v & d & -> & Hd & Hall & Hor). exists v, d. split_and!; [done|lia| |].
      * intros t' d' [->|?]%elem_of_cons Hr; [apply Ht in Hr as ->; lia|eauto].
      * destruct Hor as [[? ?]|(-> & t' & ? & ?)]; [left|right].
        -- split; [done|]. intros t' d' [->|?]%elem_of_cons Hr; [by apply Ht in Hr as ->|eauto].
        -- split; [done|]. exists t'. split; [by right|done].
  - destruct (IH valid d0) as (v & d & -> & Hd & Hall & Hor). exists v, d.
    assert (Ht : forall d, ~ remaining m t d) by (intros ? (? & ? & ? & _); congruence).
    split_and!; [done|done| |].
    + intros t' d' [->|?]%elem_of_cons Hr; [by apply Ht in Hr|eauto].
    + destruct Hor as [[? ?]|(-> & t' & ? & ?)]; [left|right].
      * split; [done|]. intros t' d' [->|?]%elem_of_cons Hr; [by apply Ht in Hr|eauto].
      * split; [done|]. exists t'. split; [by right|done].
Qed.

(** What can end a wait of [timeout] nanoseconds: the limit, if there is one,
    and the next calls of the timers on clocks that run. *)
Definition deadline (l : list N) (timeout d : Z) : Prop :=
  0 < timeout /\ d = timeout \/
  exists h t z, h ∈ l /\ next_of h = Some (t, z) /\ z < int64_max /\ d = z - now t.

Definition nanoseconds (t : Z * Z) : Z := t.1 * 1000000000 + t.2.

Lemma split_nanoseconds z : nanoseconds (z / 1000000000, z mod 1000000000) = z.
Proof. unfold nanoseconds. simpl. pose proof (Z.div_mod z 1000000000). lia. Qed.

(** The earliest call per type of clock is one of the timers'. *)
Lemma gathers_calls l m :
  (forall h t z, h ∈ l -> next_of h = Some (t, z) -> in_s 64 (z - now t)) ->
  gathers no_next_calls l m ->
  typed_calls m /\
  (forall t d, remaining m t d -> exists h z, h ∈ l /\ next_of h = Some (t, z) /\ z < int64_max /\ d = z - now t) /\
  (forall h t z, h ∈ l -> next_of h = Some (t, z) -> z < int64_max -> exists d, remaining m t d /\ d <= z - now t).
Proof.
  intros Hin Hg. split_and!.
  - intros t c z Et. destruct (Hg t) as (_ & _ & [E|(h & z' & Hh & Hn & Hz & E)]); [by rewrite Et in E|].
    rewrite Et in E. injection E as -> <-. split; [|by eapply Hin]. unfold next_of in Hn.
    destruct (overridden h); [done|]. destruct (timer_at ts h) as [x|]; [|done]. by destruct (canceled x); simplify_eq.
  - intros t d (c & z & Et & ->). destruct (Hg t) as (_ & _ & [E|(h & z' & Hh & Hn & Hz & E)]); [by rewrite Et in E|].
    rewrite Et in E. injection E as -> <-. by exists h, z.
  - intros h t z Hh Hn Hz. destruct (Hg t) as (_ & H2 & _). specialize (H2 h z Hh Hn). unfold earliest in H2.
    destruct (m t) as [[c z']|] eqn:Et; [|lia]. exists (z' - now t). split; [by exists c, z'|lia].
Qed.

(** a wait ends in time for every timer: it does not block when the
    caller asks so or a timer on overridden time is due; else its timeout is
    the earliest of the limit and the next calls of the timers on clocks
    that run, or nothing when it is late; without any of these there is
    none. *)
Theorem compute_timeout_earliest w L timeout :
  take (index (timers w)) (handles (timers w)) = map Some (L TIMER) ->
  (forall h, h ∈ L TIMER -> is_Some (timer_at ts h)) ->
  (forall h t z, h ∈ L TIMER -> next_of h = Some (t, z) -> in_s 64 (z - now t)) -> timeout <= int64_max ->
  exists t, (compute_timeout ts r w timeout).1 = Ok t /\
    if (timeout =? 0) || existsb id (imap wakes (L TIMER)) then t = Some (0, 0) else
    match t with
    | None => timeout < 0 /\ forall d, ~ deadline (L TIMER) timeout d
    | Some t => 0 <= t.2 < 1000000000 /\
        (exists d, deadline (L TIMER) timeout d /\ nanoseconds t = Z.max 0 d) /\
        forall d, deadline (L TIMER) timeout d -> nanoseconds t <= Z.max 0 d
    end.
Proof.
  intros Hl Hv Hin Hmax. unfold compute_timeout, on_timers. rewrite Hl.
  destruct (Z.eqb_spec timeout 0) as [->|Ht0]; simpl; [by eexists|].
  destruct (scan_timers_spec 0 (L TIMER) no_next_calls Hv ltac:(done)) as [[Hs Hw]|(m & Hs & Hw & Hg)];
    destruct (scan_timers _ _ _ _ _) as [scan l]; simpl in Hs; subst scan;
    match type of Hw with _ = ?b => change (existsb id (imap wakes (L TIMER)) = b) in Hw end; rewrite Hw; simpl; [by eexists|].
  destruct (gathers_calls _ _ Hin Hg) as (Htyped & Hof & Hto). unfold timeout_argument.
  destruct (clock_timeouts_spec m clock_types (0 <? timeout) (if 0 <? timeout then timeout else int64_max) Htyped)
    as (v & d & -> & Hd & Hall & Hor). simpl. eexists. split; [done|].
  assert (Hty : forall t, t ∈ clock_types) by (intros []; repeat constructor).
  assert (Hdl : forall d', deadline (L TIMER) timeout d' -> d <= d').
  { intros d' [[Hpos ->]|(h & t & z & Hh & Hn & Hz & ->)].
    - by rewrite (proj2 (Z.ltb_lt _ _) Hpos) in Hd.
    - destruct (Hto h t z Hh Hn Hz) as (d' & Hr & Hle). specialize (Hall t d' (Hty t) Hr). lia. }
  destruct v.
  - split; [apply Z.mod_pos_bound; lia|]. split.
    + exists d. rewrite split_nanoseconds, Z.max_comm. split; [|done].
      destruct Hor as [[[= Hpos ->] _]|(_ & t & _ & Hr)].
      * rewrite <- Hpos. left. split; [by apply Z.ltb_lt|done].
      * right. destruct (Hof t d Hr) as (h & z & ? & ? & ? & ->). by exists h, t, z.
    + intros d' Hd'. rewrite split_nanoseconds. specialize (Hdl d' Hd'). lia.
  - destruct Hor as [[[= Hpos Hd0] Hno]|[? _]]; [|done]. split; [symmetry in Hpos; apply Z.ltb_ge in Hpos; lia|].
    rewrite <- Hpos in *. intros d' [[Hp _]|(h & t & z & Hh & Hn & Hz & ->)]; [by rewrite (proj2 (Z.ltb_lt _ _) Hp) in Hpos|].
    destruct (Hto h t z Hh Hn Hz) as (d' & Hr & Hle). specialize (Hno t d' (Hty t) Hr).
    specialize (Hin h t z Hh Hn). unfold in_s, int64_max in *. lia.
Qed.
End Timeout.

(** ** Resizing *)

Definition fits_all : Allocator := mkAllocator (fun _ => true) (fun _ => true).

Lemma resize_handles_fits n s : resize_handles true n s = (true, mkSlots (replicate n None) 0 (rmw s) (rmw_count s)).
Proof. by destruct n. Qed.

Lemma resize_rmw_fits n s :
  (rmw s = [] -> rmw_count s = 0%nat) ->
  resize_rmw true n s = (true, mkSlots (handles s) (index s) (replicate n None) 0).
Proof. intros Hs. destruct n; [|done]. simpl. destruct (rmw s); [by rewrite Hs|done]. Qed.

Definition blank (n room : nat) : Slots := mkSlots (replicate n None) 0 (replicate room None) 0.

Lemma resize_both_fits k n w :
  (rmw (slots w k) = [] -> rmw_count (slots w k) = 0%nat) ->
  resize_both fits_all k n w = (true, set_slots w k (blank n n)).
Proof. intros Hk. unfold resize_both. simpl fits_handles. rewrite resize_handles_fits. cbn [negb]. simpl fits_rmw. by rewrite resize_rmw_fits. Qed.

Lemma resize_rmw_guard_conditions_fits n w :
  resize_rmw_guard_conditions fits_all n w =
  (true, set_slots w GUARD_CONDITION (mkSlots (handles (guard_conditions w)) (index (guard_conditions w)) (replicate n None) 0)).
Proof. by destruct n. Qed.

(** Resizing empties the set and gives it the sizes asked for. *)
Lemma resize_empties hd guard w ns ng nt nc nv ne :
  sized w -> rmw (timers w) = [] ->
  exists w', rcl_wait_set_resize fits_all (Some w) ns ng nt nc nv ne = (RCL_RET_OK, Some w') /\
    filled hd guard w' (fun _ => []) /\ forall k, size_of w' k =
      match k with SUBSCRIPTION => ns | GUARD_CONDITION => ng | TIMER => nt | CLIENT => nc | SERVICE => nv | EVENT => ne end.
Proof.
  intros [Hs Hc] Ht.
  assert (Hz : forall k, k <> TIMER -> rmw (slots w k) = [] -> rmw_count (slots w k) = 0%nat).
  { intros k Hk E. destruct (Hs k) as [_ Hl]. specialize (Hc k Hk). rewrite <- Hl, E in Hc. simpl in Hc. lia. }
  exists (mkWaitSet (blank ns ns) (blank ng (ng + nt)) (blank nc nc) (blank nv nv) (blank ne ne)
    (mkSlots (replicate nt None) 0 [] (rmw_count (timers w)))). split.
  - unfold rcl_wait_set_resize, and_then. rewrite resize_both_fits by by apply Hz. cbn [fst snd].
    simpl fits_handles. rewrite resize_handles_fits. cbn [fst snd]. rewrite resize_rmw_guard_conditions_fits. cbn [fst snd].
    rewrite resize_handles_fits. cbn [fst snd].
    rewrite resize_both_fits by by apply (Hz CLIENT). cbn [fst snd].
    rewrite resize_both_fits by by apply (Hz SERVICE). cbn [fst snd].
    rewrite resize_both_fits by by apply (Hz EVENT). simpl in Ht. by destruct w as [?????[]]; simpl in Ht; subst.
  - unfold blank. split; [apply filled_nothing|]; intros []; unfold size_of; unfold rmw_room, size_of; simpl;
    rewrite ?length_replicate; try done.
    all: by split_and!.
Qed.

(** A resize that fails to grow the middleware's guard conditions takes the
    array of timers away but leaves their number: the next wait follows a
    null pointer. *)
Lemma failed_resize_breaks_wait `{Rmw} a w ns ng nt nc nv ne ts r timeout :
  fits_handles a SUBSCRIPTION = true -> fits_rmw a SUBSCRIPTION = true -> fits_handles a GUARD_CONDITION = true ->
  fits_rmw a GUARD_CONDITION = false -> (0 < ng + nt)%nat -> (0 < ns)%nat -> (0 < index (timers w))%nat ->
  exists w', rcl_wait_set_resize a (Some w) ns ng nt nc nv ne = (RCL_RET_BAD_ALLOC, Some w') /\
    rcl_wait ts r (Some w') timeout = None /\
    (exists w'', rcl_wait_set_clear (Some w') = (RCL_RET_OK, Some w'') /\ rcl_wait ts r (Some w'') timeout = None).
Proof.
  intros H1 H2 H3 H4 Hn Hns Hi. unfold rcl_wait_set_resize, and_then, resize_both, resize_rmw_guard_conditions.
  rewrite H1, H2, H3, H4, resize_handles_fits. cbn [negb].
  assert (E : forall s, resize_rmw true ns s = (true, mkSlots (handles s) (index s) (replicate ns None) 0)) by by destruct ns; [lia|].
  rewrite E. cbn [fst snd]. rewrite resize_handles_fits. cbn [fst snd]. destruct (ng + nt)%nat; [lia|]. cbn [fst snd].
  eexists. split; [done|]. unfold rcl_wait, is_empty, rcl_wait_set_clear, size_of. simpl.
  assert (En : forall n, (n =? 0)%nat = false -> n <> 0%nat) by (intros; by apply Nat.eqb_neq).
  rewrite !length_replicate. destruct ns as [|ns]; [lia|]. simpl.
  destruct (index (timers w)) eqn:Ei; [lia|]. split; [done|]. eexists. split; [done|]. simpl. unfold clear_slots. simpl.
  destruct (rmw (timers w)); simpl; rewrite ?length_replicate, ?Ei; done.
Qed.

(** ** Examples

    A subscription, a guard condition and two timers, the first due after
    the wait, the second a second later. *)
Definition example_timer (next : Z) : rcl_timer_impl_t := mkTimer false true 10 0 next 0 false false 0.

Definition example_timers : TimerTable :=
  mkTimers (fun h => if (h =? 7)%N then Some (example_timer 1000) else Some (example_timer 2000)) (fun _ => 0%N)
    (fun h => Some (Some (100 + h)%N)) (fun _ => RCL_STEADY_TIME) (fun _ => false).

Definition example_readings : Readings := mkReadings (fun _ => Ok 0) (fun _ => Ok 400) (fun _ => Ok 1000).

Definition example_handles (k : Kind) : list N :=
  match k with SUBSCRIPTION => [1%N] | GUARD_CONDITION => [2%N] | TIMER => [7%N; 8%N] | _ => [] end.

Definition example_set : rcl_wait_set_impl_t :=
  mkWaitSet (mkSlots [Some 1%N; None] 1 [Some 1%N; None] 1) (mkSlots [Some 2%N] 1 [Some 2%N; Some 107%N; Some 108%N] 1)
    no_slots no_slots no_slots (mkSlots [Some 7%N; Some 8%N] 2 [] 0).

(** Nothing but the first guard condition of a timer is ready. *)
#[local] Instance example_rmw : Rmw := fun o =>
  (RMW_RET_OK, fun k i => match k with GUARD_CONDITION => (i =? 1)%nat | _ => false end).

Lemma example_filled : filled (fun _ h => h) (fun h => 100 + h)%N example_set example_handles.
Proof.
  split; try (intros []; done).
  - intros []; unfold size_of; simpl; lia.
  - intros [|[|i]] h; simpl; by intros [= <-].
Qed.

Lemma rcl_wait_spec_witness :
  exists w', rcl_wait example_timers example_readings (Some example_set) 1000000 = Some (RCL_RET_OK, Some w') /\
    handles (subscriptions w') = [None; None] /\ handles (timers w') = [Some 7%N; None].
Proof.
  destruct (rcl_wait_spec (fun _ h => h) (fun h => 100 + h)%N example_timers example_set example_handles example_readings
    1000000 (Some (0, 600)) example_filled eq_refl) as (w' & E & Hk & Ht).
  - intros h _. simpl. destruct (h =? 7)%N; by eexists.
  - done.
  - by vm_compute.
  - done.
  - exists w'. split; [exact E|]. split; [exact (Hk SUBSCRIPTION ltac:(discriminate))|exact Ht].
Defined.

Lemma compute_timeout_earliest_witness :
  exists t, (compute_timeout example_timers example_readings example_set 1000000).1 = Ok t /\
    match t with
    | None => False
    | Some t => exists d, deadline example_timers (fun _ => 400) [7%N; 8%N] 1000000 d /\ nanoseconds t = Z.max 0 d
    end.
Proof.
  destruct (compute_timeout_earliest example_timers example_readings (fun _ => 400) (fun _ => eq_refl) (fun _ => eq_refl)
    example_set example_handles 1000000 eq_refl) as (t & E & Ht).
  - intros h _. simpl. destruct (h =? 7)%N; by eexists.
  - intros h t z _. unfold next_of. simpl. destruct (h =? 7)%N; intros [= <- <-]; unfold in_s; simpl; lia.
  - unfold int64_max. lia.
  - exists t. split; [exact E|]. simpl in Ht. destruct t as [t|]; [apply Ht|]. destruct Ht as [Hneg _]. lia.
Defined.
