(* ===== verification/CallbackGroups.v ===== *)
(** * Callback groups, nodes and what they hold

    [rclcpp/src/rclcpp/callback_group.cpp], the part of
    [node_interfaces/node_base.cpp] about groups, and
    [executors/executor_notify_waitable.cpp].

    Objects are named by numbers, in the order of the addresses by which
    [std::owner_less] compares weak pointers.  [World] has the objects that
    are alive: a weak pointer locks exactly if its object is there. *)

From Stdlib Require Import ZArith Lia.
From stdpp Require Import base numbers list gmap.
From S2P Require Import Prelude Computation OrderedMap Timer.

(** ** The objects *)

Inductive CallbackGroupType := MutuallyExclusive | Reentrant.

#[export] Instance CallbackGroupType_eq_dec : EqDecision CallbackGroupType.
Proof. solve_decision. Defined.

(** What an executor waits for. *)
Inductive EntityKind := Subscriptions | Services | Clients | Timers | Waitables | GuardConditions.

#[export] Instance EntityKind_eq_dec : EqDecision EntityKind.
Proof. solve_decision. Defined.

(** [group_guard]: the guard condition, once [get_notify_guard_condition] has
    made it.  [ptrs]: [subscription_ptrs_] and its companions. *)
Record CallbackGroup := mkGroup {
  type_ : CallbackGroupType;
  associated_with_executor_ : bool;
  can_be_taken_from_ : bool;
  automatically_add_to_executor_with_node_ : bool;
  group_guard : N;
  guard_made : bool;
  ptrs : EntityKind -> list N;
}.

Record NodeBase := mkNode {
  callback_groups_ : list N;
  node_associated_ : bool;
  node_guard : N;
}.

(** [entity_handle]: the address of the rcl handle, under which collections
    file the entity. *)
Record Entity := mkEntity { entity_handle : N; in_use_by_wait_set_ : bool }.

(** [context_valid]: the context of the groups; [guards]: the guard
    conditions alive; [guard_callbacks]: those that have a callback;
    [timer_handles]: the rcl timers. *)
Record World := mkWorld {
  groups : gmap N CallbackGroup;
  nodes : gmap N NodeBase;
  entities : gmap N Entity;
  guards : gset N;
  guard_callbacks : gset N;
  timer_handles : gmap N rcl_timer_impl_t;
  context_valid : bool;
}.

Definition set_groups (w : World) (g : gmap N CallbackGroup) : World :=
  mkWorld g (nodes w) (entities w) (guards w) (guard_callbacks w) (timer_handles w) (context_valid w).
Definition set_nodes (w : World) (n : gmap N NodeBase) : World :=
  mkWorld (groups w) n (entities w) (guards w) (guard_callbacks w) (timer_handles w) (context_valid w).
Definition set_entities (w : World) (e : gmap N Entity) : World :=
  mkWorld (groups w) (nodes w) e (guards w) (guard_callbacks w) (timer_handles w) (context_valid w).
Definition set_guards (w : World) (g cb : gset N) : World :=
  mkWorld (groups w) (nodes w) (entities w) g cb (timer_handles w) (context_valid w).
Definition set_timer_handles (w : World) (t : gmap N rcl_timer_impl_t) : World :=
  mkWorld (groups w) (nodes w) (entities w) (guards w) (guard_callbacks w) t (context_valid w).

Definition set_associated (g : CallbackGroup) (b : bool) : CallbackGroup :=
  mkGroup (type_ g) b (can_be_taken_from_ g) (automatically_add_to_executor_with_node_ g) (group_guard g) (guard_made g) (ptrs g).
Definition set_taken_from (g : CallbackGroup) (b : bool) : CallbackGroup :=
  mkGroup (type_ g) (associated_with_executor_ g) b (automatically_add_to_executor_with_node_ g) (group_guard g) (guard_made g)
    (ptrs g).
Definition set_ptrs (g : CallbackGroup) (p : EntityKind -> list N) : CallbackGroup :=
  mkGroup (type_ g) (associated_with_executor_ g) (can_be_taken_from_ g) (automatically_add_to_executor_with_node_ g)
    (group_guard g) (guard_made g) p.
Definition set_guard_made (g : CallbackGroup) : CallbackGroup :=
  mkGroup (type_ g) (associated_with_executor_ g) (can_be_taken_from_ g) (automatically_add_to_executor_with_node_ g)
    (group_guard g) true (ptrs g).

Definition on_group (f : CallbackGroup -> CallbackGroup) (g : N) (w : World) : World := set_groups w (alter f g (groups w)).

(** ** Callback groups *)

(** [CallbackGroup::CallbackGroup]. *)
Definition new_callback_group (group_type : CallbackGroupType) (auto : bool) (guard : N) : CallbackGroup :=
  mkGroup group_type false true auto guard false (fun _ => []).

Definition size (g : CallbackGroup) : nat :=
  length (ptrs g Subscriptions) + length (ptrs g Services) + length (ptrs g Clients) + length (ptrs g Timers)
    + length (ptrs g Waitables).

(** [add_subscription] and its companions: the new weak pointer goes to the
    end, expired ones leave. *)
Definition alive (w : World) (e : N) : bool := bool_decide (is_Some (entities w !! e)).

Definition add_entity (k : EntityKind) (e : N) (g : N) (w : World) : World :=
  on_group (fun g => set_ptrs g (fun k' =>
    if bool_decide (k' = k) then List.filter (alive w) (ptrs g k ++ [e]) else ptrs g k')) g w.

(** The first pointer that locks to [waitable_ptr]; a null pointer finds an
    expired one. *)
Fixpoint erase_waitable (w : World) (waitable_ptr : option N) (l : list N) : list N :=
  match l with
  | [] => []
  | e :: l =>
    if bool_decide ((if alive w e then Some e else None) = waitable_ptr) then l
    else e :: erase_waitable w waitable_ptr l
  end.

Definition remove_waitable (waitable_ptr : option N) (g : N) (w : World) : World :=
  on_group (fun g => set_ptrs g (fun k' =>
    if bool_decide (k' = Waitables) then erase_waitable w waitable_ptr (ptrs g Waitables) else ptrs g k')) g w.

(** [collect_all_ptrs]: what the callbacks are called with, in the order of
    the calls. *)
Definition collected_kinds : list EntityKind := [Subscriptions; Services; Clients; Timers; Waitables].

Definition collect_all_ptrs (w : World) (g : CallbackGroup) : list (EntityKind * N) :=
  concat (map (fun k => map (pair k) (List.filter (alive w) (ptrs g k))) collected_kinds).

(** The guard condition, or a null pointer. *)
Definition get_notify_guard_condition (g : N) (w : World) : option N * World :=
  match groups w !! g with
  | Some c =>
    if context_valid w
    then (Some (group_guard c), set_guards (on_group set_guard_made g w) ({[group_guard c]} ∪ guards w) (guard_callbacks w))
    else (None, w)
  | None => (None, w)
  end.

(** ** Nodes *)

Definition callback_group_in_node (w : World) (n : NodeBase) (group : option N) : bool :=
  existsb (fun g => bool_decide (is_Some (groups w !! g) /\ group = Some g)) (callback_groups_ n).

(** The groups that [for_each_callback_group] calls its function with. *)
Definition node_groups (w : World) (n : NodeBase) : list N :=
  List.filter (fun g => bool_decide (is_Some (groups w !! g))) (callback_groups_ n).

(** [create_callback_group]: [group] is its address. *)
Definition create_callback_group (group : N) (group_type : CallbackGroupType) (auto : bool) (guard : N) (n : N) (w : World)
    : World :=
  let w := set_groups w (<[group := new_callback_group group_type auto guard]> (groups w)) in
  set_nodes w (alter (fun n => mkNode (callback_groups_ n ++ [group]) (node_associated_ n) (node_guard n)) n (nodes w)).

(** ** The waitable that wakes an executor *)

Record ExecutorNotifyWaitable := mkNotify { notify_guard_conditions_ : gset N; on_ready_callback_ : bool }.

(** The copy has no callback. *)
Definition copy_notify_waitable (other : ExecutorNotifyWaitable) : ExecutorNotifyWaitable :=
  mkNotify (notify_guard_conditions_ other) false.

Definition add_guard_condition (guard : option N) (t : ExecutorNotifyWaitable) (w : World) : ExecutorNotifyWaitable * World :=
  match guard with
  | Some gc =>
    if bool_decide (gc ∈ guards w /\ gc ∉ notify_guard_conditions_ t) then
      (mkNotify ({[gc]} ∪ notify_guard_conditions_ t) (on_ready_callback_ t),
       if on_ready_callback_ t then set_guards w (guards w) ({[gc]} ∪ guard_callbacks w) else w)
    else (t, w)
  | None => (t, w)
  end.

Definition remove_guard_condition (gc : N) (t : ExecutorNotifyWaitable) (w : World) : ExecutorNotifyWaitable * World :=
  if bool_decide (gc ∈ notify_guard_conditions_ t) then
    (mkNotify (notify_guard_conditions_ t ∖ {[gc]}) (on_ready_callback_ t),
     if bool_decide (gc ∈ guards w) && on_ready_callback_ t then set_guards w (guards w) (guard_callbacks w ∖ {[gc]}) else w)
  else (t, w).

Definition set_on_ready_callback (t : ExecutorNotifyWaitable) (w : World) : ExecutorNotifyWaitable * World :=
  (mkNotify (notify_guard_conditions_ t) true,
   set_guards w (guards w) (guard_callbacks w ∪ (notify_guard_conditions_ t ∩ guards w))).

Definition clear_on_ready_callback (t : ExecutorNotifyWaitable) (w : World) : ExecutorNotifyWaitable * World :=
  (mkNotify (notify_guard_conditions_ t) false,
   set_guards w (guards w) (guard_callbacks w ∖ (notify_guard_conditions_ t ∩ guards w))).

Definition get_number_of_ready_guard_conditions (t : ExecutorNotifyWaitable) : nat :=
  base.size (notify_guard_conditions_ t).

(** The guard conditions that [add_to_wait_set] adds, in its order. *)
Definition guards_to_wait_for (w : World) (t : ExecutorNotifyWaitable) : list N :=
  List.filter (fun gc => bool_decide (gc ∈ guards w)) (set_in_order (notify_guard_conditions_ t)).

(** [is_ready], given the guard conditions that are left in the wait set. *)
Definition notify_is_ready (w : World) (t : ExecutorNotifyWaitable) (left : list (option N)) : bool :=
  existsb (fun gc => match gc with
    | Some gc => bool_decide (gc ∈ notify_guard_conditions_ t /\ gc ∈ guards w)
    | None => false
    end) left.
