(* ===== verification/EntitiesCollector.v ===== *)
(** * The entities collector of an executor

    [rclcpp/src/rclcpp/executors/executor_entities_collector.cpp]: the nodes
    and callback groups of one executor, and the queues of those to be added
    and removed when the executor next looks.  The methods run on the objects
    ([World]) and the collector; the notify waitable belongs to the executor
    and is kept with its collector. *)

From Stdlib Require Import ZArith Lia.
From stdpp Require Import base numbers list gmap.
From S2P Require Import Prelude Computation OrderedMap RclTypes CallbackGroups.

(** ** State *)

Record ExecutorEntitiesCollector := mkCollector {
  automatically_added_groups_ : gset N;
  manually_added_groups_ : gset N;
  weak_nodes_ : gset N;
  weak_nodes_to_guard_conditions_ : gmap N N;
  weak_groups_to_guard_conditions_ : gmap N (option N);
  pending_added_nodes_ : gset N;
  pending_removed_nodes_ : gset N;
  pending_manually_added_groups_ : gset N;
  pending_manually_removed_groups_ : gset N;
  notify_waitable_ : ExecutorNotifyWaitable;
}.

Definition new_collector (t : ExecutorNotifyWaitable) : ExecutorEntitiesCollector :=
  mkCollector ∅ ∅ ∅ ∅ ∅ ∅ ∅ ∅ ∅ t.

(** The exceptions of the collector and of the executor above it, which has
    the exception of an rcl code.  The last two are none: the run is beyond
    what the language defines, or it has not come to its end. *)
Inductive executor_error :=
| NodeAlreadyAdded | NodeAlreadyInThisExecutor | NodeNeedsExecutor | NodeNeedsThisExecutor
| GroupAlreadyAdded | GroupAlreadyInThisExecutor | GroupNeedsExecutor | GroupNeedsThisExecutor | GroupNotInThisExecutor
| AlreadyInUse (k : EntityKind) | AlreadyInWaitSet (k : EntityKind) | NotInWaitSet (k : EntityKind)
| RclFailed (ret : rcl_ret_t) | WaitResultHeld | WaitResultNotHeld | WaitResultNotReady | TimerIndexOutOfRange
| TimerCallFailed | AlreadySpinning | NegativeDuration | CallbackThrew
| Undefined | Unfinished.

Definition Managed : Type := World * ExecutorEntitiesCollector.
Notation C := (ST Managed executor_error).

Definition set_weak_nodes (x : gset N) (c : ExecutorEntitiesCollector) : ExecutorEntitiesCollector :=
  mkCollector (automatically_added_groups_ c) (manually_added_groups_ c) x (weak_nodes_to_guard_conditions_ c)
    (weak_groups_to_guard_conditions_ c) (pending_added_nodes_ c) (pending_removed_nodes_ c) (pending_manually_added_groups_ c)
    (pending_manually_removed_groups_ c) (notify_waitable_ c).
Definition set_node_guards (x : gmap N N) (c : ExecutorEntitiesCollector) : ExecutorEntitiesCollector :=
  mkCollector (automatically_added_groups_ c) (manually_added_groups_ c) (weak_nodes_ c) x
    (weak_groups_to_guard_conditions_ c) (pending_added_nodes_ c) (pending_removed_nodes_ c) (pending_manually_added_groups_ c)
    (pending_manually_removed_groups_ c) (notify_waitable_ c).
Definition set_group_guards (x : gmap N (option N)) (c : ExecutorEntitiesCollector) : ExecutorEntitiesCollector :=
  mkCollector (automatically_added_groups_ c) (manually_added_groups_ c) (weak_nodes_ c) (weak_nodes_to_guard_conditions_ c)
    x (pending_added_nodes_ c) (pending_removed_nodes_ c) (pending_manually_added_groups_ c)
    (pending_manually_removed_groups_ c) (notify_waitable_ c).
Definition set_pending_nodes (add rem : gset N) (c : ExecutorEntitiesCollector) : ExecutorEntitiesCollector :=
  mkCollector (automatically_added_groups_ c) (manually_added_groups_ c) (weak_nodes_ c) (weak_nodes_to_guard_conditions_ c)
    (weak_groups_to_guard_conditions_ c) add rem (pending_manually_added_groups_ c)
    (pending_manually_removed_groups_ c) (notify_waitable_ c).
Definition set_pending_groups (add rem : gset N) (c : ExecutorEntitiesCollector) : ExecutorEntitiesCollector :=
  mkCollector (automatically_added_groups_ c) (manually_added_groups_ c) (weak_nodes_ c) (weak_nodes_to_guard_conditions_ c)
    (weak_groups_to_guard_conditions_ c) (pending_added_nodes_ c) (pending_removed_nodes_ c) add rem (notify_waitable_ c).
Definition set_notify (t : ExecutorNotifyWaitable) (c : ExecutorEntitiesCollector) : ExecutorEntitiesCollector :=
  mkCollector (automatically_added_groups_ c) (manually_added_groups_ c) (weak_nodes_ c) (weak_nodes_to_guard_conditions_ c)
    (weak_groups_to_guard_conditions_ c) (pending_added_nodes_ c) (pending_removed_nodes_ c) (pending_manually_added_groups_ c)
    (pending_manually_removed_groups_ c) t.

(** The two collections of groups. *)
Inductive GroupCollection := Automatically | Manually.

Definition collection (k : GroupCollection) (c : ExecutorEntitiesCollector) : gset N :=
  match k with Automatically => automatically_added_groups_ c | Manually => manually_added_groups_ c end.
Definition set_collection (k : GroupCollection) (x : gset N) (c : ExecutorEntitiesCollector) : ExecutorEntitiesCollector :=
  mkCollector (match k with Automatically => x | Manually => automatically_added_groups_ c end)
    (match k with Automatically => manually_added_groups_ c | Manually => x end)
    (weak_nodes_ c) (weak_nodes_to_guard_conditions_ c) (weak_groups_to_guard_conditions_ c) (pending_added_nodes_ c)
    (pending_removed_nodes_ c) (pending_manually_added_groups_ c) (pending_manually_removed_groups_ c) (notify_waitable_ c).

Definition on_world (f : World -> World) : C unit := modify (fun st => (f st.1, st.2)).
Definition on_collector (f : ExecutorEntitiesCollector -> ExecutorEntitiesCollector) : C unit :=
  modify (fun st => (st.1, f st.2)).

Definition associate_node (b : bool) (n : N) (w : World) : World :=
  set_nodes w (alter (fun n => mkNode (callback_groups_ n) b (node_guard n)) n (nodes w)).
Definition associate_group (b : bool) (g : N) (w : World) : World := on_group (fun g => set_associated g b) g w.

Definition notify_add (guard : option N) : C unit :=
  modify (fun '(w, c) => let '(t, w) := add_guard_condition guard (notify_waitable_ c) w in (w, set_notify t c)).

(** The map holds a weak pointer, empty when the group has no guard
    condition. *)
Definition notify_remove (guard : option N) : C unit :=
  match guard with
  | Some gc => modify (fun '(w, c) => let '(t, w) := remove_guard_condition gc (notify_waitable_ c) w in (w, set_notify t c))
  | None => mret tt
  end.

(** ** Nodes *)

(** [node]: the node of the shared pointer, which is alive. *)
Definition node_associated (w : World) (n : N) : bool := match nodes w !! n with Some x => node_associated_ x | None => false end.
Definition group_associated (w : World) (g : N) : bool :=
  match groups w !! g with Some x => associated_with_executor_ x | None => false end.

Definition has_pending (c : ExecutorEntitiesCollector) : bool :=
  negb (bool_decide (pending_manually_added_groups_ c = ∅ /\ pending_manually_removed_groups_ c = ∅ /\
    pending_added_nodes_ c = ∅ /\ pending_removed_nodes_ c = ∅)).

Definition add_node (node_ptr : N) : C unit :=
  '(w, _) ← get;
  let has_executor := node_associated w node_ptr in
  on_world (associate_node true node_ptr);;
  if has_executor then throw NodeAlreadyAdded else
  '(_, c) ← get;
  let associated := bool_decide (node_ptr ∈ weak_nodes_ c) in
  let add_queued := bool_decide (node_ptr ∈ pending_added_nodes_ c) in
  let remove_queued := bool_decide (node_ptr ∈ pending_removed_nodes_ c) in
  if (associated || add_queued) && negb remove_queued then throw NodeAlreadyInThisExecutor else
  on_collector (fun c => set_pending_nodes ({[node_ptr]} ∪ pending_added_nodes_ c) (pending_removed_nodes_ c) c).

Definition remove_node (node_ptr : N) : C unit :=
  '(w, _) ← get;
  let has_executor := node_associated w node_ptr in
  on_world (associate_node false node_ptr);;
  if negb has_executor then throw NodeNeedsExecutor else
  '(_, c) ← get;
  let associated := bool_decide (node_ptr ∈ weak_nodes_ c) in
  let add_queued := bool_decide (node_ptr ∈ pending_added_nodes_ c) in
  let remove_queued := bool_decide (node_ptr ∈ pending_removed_nodes_ c) in
  if negb (associated || add_queued) || remove_queued then throw NodeNeedsThisExecutor else
  on_collector (fun c => set_pending_nodes (pending_added_nodes_ c) ({[node_ptr]} ∪ pending_removed_nodes_ c) c).

(** ** Groups *)

(** The guard condition is filed under the group; an entry that is there
    stays. *)
Definition keep_guard (group : N) : C unit :=
  '(w, _) ← get;
  let '(guard, w) := get_notify_guard_condition group w in
  on_world (fun _ => w);;
  on_collector (fun c => set_group_guards
    (match weak_groups_to_guard_conditions_ c !! group with
     | Some _ => weak_groups_to_guard_conditions_ c
     | None => <[group := guard]> (weak_groups_to_guard_conditions_ c)
     end) c);;
  notify_add guard.

Definition drop_guard (group : N) : C unit :=
  '(_, c) ← get;
  match weak_groups_to_guard_conditions_ c !! group with
  | Some guard =>
    notify_remove guard;;
    on_collector (fun c => set_group_guards (delete group (weak_groups_to_guard_conditions_ c)) c)
  | None => mret tt
  end.

Definition add_callback_group (group_ptr : N) : C unit :=
  '(w, _) ← get;
  let has_executor := group_associated w group_ptr in
  on_world (associate_group true group_ptr);;
  if has_executor then throw GroupAlreadyAdded else
  '(_, c) ← get;
  let associated := bool_decide (group_ptr ∈ manually_added_groups_ c) in
  let add_queued := bool_decide (group_ptr ∈ pending_manually_added_groups_ c) in
  let remove_queued := bool_decide (group_ptr ∈ pending_manually_removed_groups_ c) in
  if (associated || add_queued) && negb remove_queued then throw GroupAlreadyInThisExecutor else
  on_collector (fun c => set_pending_groups ({[group_ptr]} ∪ pending_manually_added_groups_ c) (pending_manually_removed_groups_ c) c);;
  keep_guard group_ptr.

Definition remove_callback_group (group_ptr : N) : C unit :=
  '(w, c) ← get;
  if negb (group_associated w group_ptr) then throw GroupNeedsExecutor else
  let associated := bool_decide (group_ptr ∈ manually_added_groups_ c) in
  let add_queued := bool_decide (group_ptr ∈ pending_manually_added_groups_ c) in
  let remove_queued := bool_decide (group_ptr ∈ pending_manually_removed_groups_ c) in
  if negb (associated || add_queued) || remove_queued then throw GroupNeedsThisExecutor else
  on_collector (fun c => set_pending_groups (pending_manually_added_groups_ c) ({[group_ptr]} ∪ pending_manually_removed_groups_ c) c).

Definition get_all_callback_groups (c : ExecutorEntitiesCollector) : list N :=
  set_in_order (manually_added_groups_ c) ++ set_in_order (automatically_added_groups_ c).
Definition get_manually_added_callback_groups (c : ExecutorEntitiesCollector) : list N := set_in_order (manually_added_groups_ c).
Definition get_automatically_added_callback_groups (c : ExecutorEntitiesCollector) : list N :=
  set_in_order (automatically_added_groups_ c).

(** ** Updating *)

Definition remove_weak_node (n : N) : C unit :=
  '(_, c) ← get;
  (match weak_nodes_to_guard_conditions_ c !! n with
   | Some gc =>
     notify_remove (Some gc);;
     on_collector (fun c => set_node_guards (delete n (weak_nodes_to_guard_conditions_ c)) c)
   | None => mret tt
   end);;
  on_world (associate_node false n);;
  on_collector (fun c => set_weak_nodes (weak_nodes_ c ∖ {[n]}) c).

Definition remove_weak_callback_group (k : GroupCollection) (g : N) : C unit :=
  drop_guard g;;
  on_world (associate_group false g);;
  on_collector (fun c => set_collection k (collection k c ∖ {[g]}) c).

Definition add_callback_group_to_collection (g : N) (k : GroupCollection) : C unit :=
  '(_, c) ← get;
  if bool_decide (g ∈ collection k c) then throw GroupAlreadyInThisExecutor else
  on_collector (fun c => set_collection k ({[g]} ∪ collection k c) c);;
  keep_guard g.

(** The callback of [for_each_callback_group]. *)
Definition associate_automatically (g : N) : C unit :=
  '(w, _) ← get;
  match groups w !! g with
  | Some x =>
    if negb (associated_with_executor_ x) && automatically_add_to_executor_with_node_ x then
      on_world (associate_group true g);;
      add_callback_group_to_collection g Automatically
    else mret tt
  | None => mret tt
  end.

Definition add_automatically_associated_callback_groups (nodes_to_check : list N) : C unit :=
  for_each (fun n =>
    '(w, _) ← get;
    match nodes w !! n with
    | Some node => for_each associate_automatically (node_groups w node)
    | None => mret tt
    end) nodes_to_check.

Definition process_added_node (n : N) : C unit :=
  '(w, _) ← get;
  match nodes w !! n with
  | None => mret tt
  | Some node =>
    on_collector (fun c => set_weak_nodes ({[n]} ∪ weak_nodes_ c) c);;
    add_automatically_associated_callback_groups [n];;
    on_collector (fun c => set_node_guards
      (match weak_nodes_to_guard_conditions_ c !! n with
       | Some _ => weak_nodes_to_guard_conditions_ c
       | None => <[n := node_guard node]> (weak_nodes_to_guard_conditions_ c)
       end) c);;
    notify_add (Some (node_guard node))
  end.

Definition process_removed_node (n : N) : C unit :=
  '(w, c) ← get;
  (if bool_decide (n ∈ weak_nodes_ c) then remove_weak_node n
   else if bool_decide (is_Some (nodes w !! n)) then throw NodeNeedsThisExecutor else mret tt);;
  '(w, c) ← get;
  match nodes w !! n with
  | None => mret tt
  | Some node =>
    for_each (fun g =>
      '(w, _) ← get;
      let group_ptr := if bool_decide (is_Some (groups w !! g)) then Some g else None in
      if callback_group_in_node w node group_ptr then remove_weak_callback_group Automatically g else mret tt)
      (set_in_order (automatically_added_groups_ c))
  end.

Definition process_added_group (g : N) : C unit :=
  '(w, _) ← get;
  if bool_decide (is_Some (groups w !! g)) then add_callback_group_to_collection g Manually else drop_guard g.

Definition process_removed_group (g : N) : C unit :=
  '(w, c) ← get;
  if bool_decide (is_Some (groups w !! g)) then
    if bool_decide (g ∈ manually_added_groups_ c) then remove_weak_callback_group Manually g
    else throw GroupNotInThisExecutor
  else mret tt.

Definition process_queues : C unit :=
  '(_, c) ← get;
  for_each process_added_node (set_in_order (pending_added_nodes_ c));;
  on_collector (fun c => set_pending_nodes ∅ (pending_removed_nodes_ c) c);;
  '(_, c) ← get;
  for_each process_removed_node (set_in_order (pending_removed_nodes_ c));;
  on_collector (fun c => set_pending_nodes (pending_added_nodes_ c) ∅ c);;
  '(_, c) ← get;
  for_each process_added_group (set_in_order (pending_manually_added_groups_ c));;
  on_collector (fun c => set_pending_groups ∅ (pending_manually_removed_groups_ c) c);;
  '(_, c) ← get;
  for_each process_removed_group (set_in_order (pending_manually_removed_groups_ c));;
  on_collector (fun c => set_pending_groups (pending_manually_added_groups_ c) ∅ c).

Definition prune_invalid_nodes_and_groups : C unit :=
  '(_, c) ← get;
  for_each (fun n =>
    '(w, _) ← get;
    if bool_decide (is_Some (nodes w !! n)) then mret tt else remove_weak_node n) (set_in_order (weak_nodes_ c));;
  let prune k :=
    '(_, c) ← get;
    for_each (fun g =>
      '(w, _) ← get;
      if bool_decide (is_Some (groups w !! g)) then mret tt else remove_weak_callback_group k g)
      (set_in_order (collection k c)) in
  prune Automatically;;
  prune Manually.

Definition update_collections : C unit :=
  process_queues;;
  '(_, c) ← get;
  add_automatically_associated_callback_groups (set_in_order (weak_nodes_ c));;
  prune_invalid_nodes_and_groups.

(** [~ExecutorEntitiesCollector]. *)
Definition destroy_collector : C unit :=
  '(_, c) ← get;
  for_each remove_weak_node (set_in_order (weak_nodes_ c));;
  '(_, c) ← get;
  for_each (remove_weak_callback_group Automatically) (set_in_order (automatically_added_groups_ c));;
  '(_, c) ← get;
  for_each (remove_weak_callback_group Manually) (set_in_order (manually_added_groups_ c));;
  '(_, c) ← get;
  for_each (fun n => on_world (associate_node false n)) (set_in_order (pending_added_nodes_ c));;
  on_collector (set_pending_nodes ∅ ∅);;
  '(_, c) ← get;
  for_each (fun g => on_world (associate_group false g);; drop_guard g) (set_in_order (pending_manually_added_groups_ c));;
  on_collector (set_pending_groups ∅ ∅).
