(* ===== verification/EntitiesCollectorFacts.v ===== *)
(** * What an update of the entities collector does

    Lemmas on [EntitiesCollector]: when a collector is well formed beside
    others that share its objects ([tidy]), and what [update_collections] then
    does ([update_collections_spec]). *)

From Stdlib Require Import ZArith Lia.
From stdpp Require Import base numbers list gmap.
From S2P Require Import Prelude Computation OrderedMap CallbackGroups EntitiesCollector.

(** ** Guard conditions are beside the point

    [same]: states that differ only in guard conditions and the notify
    waitable. *)

Definition strip (c : ExecutorEntitiesCollector) : ExecutorEntitiesCollector :=
  set_node_guards ∅ (set_group_guards ∅ (set_notify (mkNotify ∅ false) c)).

Definition same (st st' : Managed) : Prop :=
  (forall g, set_guard_made <$> groups st'.1 !! g = set_guard_made <$> groups st.1 !! g) /\
  nodes st'.1 = nodes st.1 /\ strip st'.2 = strip st.2.

#[export] Instance same_preorder : PreOrder same.
Proof.
  split; [by intros [w c]|]. intros x y z (H1 & H2 & H3) (H4 & H5 & H6).
  split_and!; [intros g; by rewrite H4|congruence|congruence].
Qed.

(** Computations that return and change nothing else. *)
Definition quiet (m : C unit) : Prop := forall st, exists st', m st = (Ok tt, st') /\ same st st'.

Lemma quiet_bind m k : quiet m -> (forall u, quiet (k u)) -> quiet (m ≫= k).
Proof.
  intros Hm Hk st. destruct (Hm st) as (st1 & E1 & S1). destruct (Hk tt st1) as (st2 & E2 & S2).
  exists st2. split; [by rewrite (bind_ok _ _ _ _ _ E1)|by transitivity st1].
Qed.

Lemma quiet_get (k : Managed -> C unit) : (forall st, quiet (k st)) -> quiet (get ≫= k).
Proof. intros Hk st. rewrite get_bind. apply Hk. Qed.

Lemma quiet_ret : quiet (mret tt).
Proof. intros st. by exists st. Qed.

Lemma quiet_modify f : (forall st, same st (f st)) -> quiet (modify f).
Proof. intros Hf st. by exists (f st). Qed.

Lemma quiet_notify_add guard : quiet (notify_add guard).
Proof.
  apply quiet_modify. intros [w c]. unfold add_guard_condition.
  destruct guard; [|by destruct c]. case_bool_decide; [|by destruct c]. by destruct (on_ready_callback_ _).
Qed.

Lemma quiet_notify_remove guard : quiet (notify_remove guard).
Proof.
  destruct guard; simpl; [|apply quiet_ret]. apply quiet_modify. intros [w c]. unfold remove_guard_condition.
  case_bool_decide; [|by destruct c]. by destruct (_ && _).
Qed.

Lemma same_get_guard w c g : same (w, c) ((get_notify_guard_condition g w).2, c).
Proof.
  unfold get_notify_guard_condition. destruct (groups w !! g) as [x|] eqn:E; [|done]. destruct (context_valid w); [|done].
  split_and!; [|done|done]. intros g'. simpl. destruct (decide (g' = g)) as [->|Hg].
  - by rewrite lookup_alter_eq, E.
  - by rewrite lookup_alter_ne by done.
Qed.

Lemma quiet_keep_guard g : quiet (keep_guard g).
Proof.
  intros [w c]. unfold keep_guard. rewrite get_bind. pose proof (same_get_guard w c g) as Hs.
  destruct (get_notify_guard_condition g w) as [guard w']. simpl in Hs.
  rewrite (bind_ok _ _ _ (w', c) tt) by done.
  destruct (quiet_bind (on_collector (fun c => set_group_guards
    (match weak_groups_to_guard_conditions_ c !! g with
     | Some _ => weak_groups_to_guard_conditions_ c
     | None => <[g := guard]> (weak_groups_to_guard_conditions_ c)
     end) c)) (fun _ => notify_add guard)) with (w', c) as (st' & E & Hst).
  - apply quiet_modify. by intros [].
  - intros. apply quiet_notify_add.
  - exists st'. split; [done|]. by transitivity (w', c).
Qed.

Lemma quiet_drop_guard g : quiet (drop_guard g).
Proof.
  apply quiet_get. intros [w c]. destruct (_ !! g); [|apply quiet_ret].
  apply quiet_bind; [apply quiet_notify_remove|]. intros. apply quiet_modify. by intros [].
Qed.

(** ** Well-formed collectors

    [others]: the groups that other executors have; [P], [R]: the groups that
    are still to be added and removed by hand; [A], [D]: the nodes that are. *)

Definition tidy_at (other pending removed flag : Prop) (auto manual : Prop) : Prop :=
  (other -> flag /\ ~ auto /\ ~ manual /\ ~ pending) /\ (auto \/ manual \/ pending -> flag) /\
  ~ (auto /\ manual) /\ ~ (auto /\ pending) /\ ~ (manual /\ pending) /\ (removed -> manual \/ pending).

#[export] Instance tidy_at_proper : Proper (iff ==> iff ==> iff ==> iff ==> iff ==> iff ==> iff) tidy_at.
Proof. intros ?? H1 ?? H2 ?? H3 ?? H4 ?? H5 ?? H6. unfold tidy_at. by rewrite H1, H2, H3, H4, H5, H6. Qed.

Definition here (st : Managed) (g : N) : Prop := is_Some (groups st.1 !! g).
Definition node_here (st : Managed) (n : N) : Prop := is_Some (nodes st.1 !! n).

Definition groups_tidy (others P R : N -> Prop) (st : Managed) : Prop :=
  forall g, here st g ->
    tidy_at (others g) (P g) (R g) (group_associated st.1 g = true)
      (g ∈ automatically_added_groups_ st.2) (g ∈ manually_added_groups_ st.2).

Definition nodes_tidy (A D : N -> Prop) (st : Managed) : Prop :=
  forall n, node_here st n -> D n -> n ∈ weak_nodes_ st.2 \/ A n.

Lemma same_here st st' g : same st st' -> here st' g <-> here st g.
Proof.
  intros (H & _). specialize (H g). unfold here.
  destruct (groups st'.1 !! g), (groups st.1 !! g); simpl in H; split; intros []; (done || by eexists).
Qed.

Lemma same_associated st st' g : same st st' -> group_associated st'.1 g = group_associated st.1 g.
Proof.
  intros (H & _). specialize (H g). unfold group_associated.
  destruct (groups st'.1 !! g) as [[]|], (groups st.1 !! g) as [[]|]; unfold set_guard_made in H; simpl in *; congruence.
Qed.

Lemma same_collector st st' : same st st' ->
  automatically_added_groups_ st'.2 = automatically_added_groups_ st.2 /\
  manually_added_groups_ st'.2 = manually_added_groups_ st.2 /\ weak_nodes_ st'.2 = weak_nodes_ st.2 /\
  pending_added_nodes_ st'.2 = pending_added_nodes_ st.2 /\ pending_removed_nodes_ st'.2 = pending_removed_nodes_ st.2 /\
  pending_manually_added_groups_ st'.2 = pending_manually_added_groups_ st.2 /\
  pending_manually_removed_groups_ st'.2 = pending_manually_removed_groups_ st.2.
Proof. destruct st as [w c], st' as [w' c']. intros (_ & _ & E). unfold strip in E. simpl in *. injection E. auto 10. Qed.

Lemma same_node_here st st' n : same st st' -> node_here st' n <-> node_here st n.
Proof. intros (_ & H & _). unfold node_here. by rewrite H. Qed.

Lemma groups_tidy_same st st' o P R : same st st' -> groups_tidy o P R st -> groups_tidy o P R st'.
Proof.
  intros Hs Ht g Hg. destruct (same_collector _ _ Hs) as (-> & -> & _). rewrite (same_associated _ _ _ Hs).
  apply Ht. by apply (same_here _ _ _ Hs).
Qed.

Lemma nodes_tidy_same st st' A D : same st st' -> nodes_tidy A D st -> nodes_tidy A D st'.
Proof.
  intros Hs Ht n Hn. destruct (same_collector _ _ Hs) as (_ & _ & -> & _). apply Ht. by apply (same_node_here _ _ _ Hs).
Qed.

(** ** The steps of an update *)

Definition associate (b : bool) (g : N) (st : Managed) : Managed := (associate_group b g st.1, st.2).
Definition with_collector (f : ExecutorEntitiesCollector -> ExecutorEntitiesCollector) (st : Managed) : Managed := (st.1, f st.2).

(** A group leaves a collection. *)
Definition release (k : GroupCollection) (g : N) (st : Managed) : Managed :=
  (associate_group false g st.1, set_collection k (collection k st.2 ∖ {[g]}) st.2).

Lemma remove_weak_callback_group_eq k g st :
  exists st1, same st st1 /\ remove_weak_callback_group k g st = (Ok tt, release k g st1).
Proof.
  destruct (quiet_drop_guard g st) as (st1 & E & Hs). exists st1. split; [done|].
  unfold remove_weak_callback_group. by rewrite (bind_ok _ _ _ _ _ E).
Qed.

Lemma add_to_collection_eq k g st :
  g ∉ collection k st.2 ->
  exists st', same (with_collector (fun c => set_collection k ({[g]} ∪ collection k c) c) st) st' /\
    add_callback_group_to_collection g k st = (Ok tt, st').
Proof.
  intros Hg. unfold add_callback_group_to_collection. rewrite get_bind. destruct st as [w c]. simpl in Hg.
  rewrite bool_decide_false by done.
  destruct (quiet_keep_guard g (w, set_collection k ({[g]} ∪ collection k c) c)) as (st' & E & Hs).
  exists st'. split; [done|]. by rewrite (bind_ok _ _ _ (w, set_collection k ({[g]} ∪ collection k c) c) tt) by done.
Qed.

Lemma here_associate b g st g' : here (associate b g st) g' <-> here st g'.
Proof.
  unfold here, associate, associate_group, on_group. simpl. destruct (decide (g' = g)) as [->|Hg].
  - rewrite lookup_alter_eq. by rewrite fmap_is_Some.
  - by rewrite lookup_alter_ne.
Qed.

Lemma associated_associate b g st g' :
  here st g' -> group_associated (associate b g st).1 g' = if bool_decide (g' = g) then b else group_associated st.1 g'.
Proof.
  unfold here, group_associated, associate, associate_group, on_group. simpl. intros [x Hx]. case_bool_decide as Hg; [subst g'|].
  - by rewrite lookup_alter_eq, Hx.
  - by rewrite lookup_alter_ne.
Qed.

Lemma collection_other k k' X c : k' <> k -> collection k' (set_collection k X c) = collection k' c.
Proof. by destruct k, k'. Qed.

(** Releasing a group of the collection [k]; when it was to be removed, that
    is done. *)
Lemma groups_tidy_release o P R R' k g st :
  groups_tidy o P R st -> g ∈ collection k st.2 -> (forall g', R' g' -> R g') -> (k = Manually -> ~ R' g) ->
  groups_tidy o P R' (release k g st).
Proof.
  intros Ht Hin HR Hk g' Hg'. unfold release in Hg'. fold (associate false g st) in Hg'.
  change (here (associate false g st) g') in Hg'. apply here_associate in Hg'. specialize (Ht g' Hg').
  change (release k g st).1 with (associate false g st).1. rewrite associated_associate by done.
  unfold release, tidy_at in *. destruct k; simpl in *; case_bool_decide as Hgg; [subst g'| |subst g'|];
    rewrite elem_of_difference, elem_of_singleton; naive_solver.
Qed.

(** A group whose association is new joins the collection of those added
    automatically. *)
Lemma groups_tidy_join o P R g st :
  groups_tidy o P R st -> (here st g -> group_associated st.1 g = false) ->
  groups_tidy o P R (with_collector (fun c => set_collection Automatically ({[g]} ∪ collection Automatically c) c) (associate true g st)).
Proof.
  intros Ht Hf g' Hg'. change (here (associate true g st) g') in Hg'. apply here_associate in Hg'. specialize (Ht g' Hg').
  simpl. change (associate_group true g st.1) with (associate true g st).1. rewrite associated_associate by done.
  unfold tidy_at in *. case_bool_decide as Hgg; [subst g'; specialize (Hf Hg'); rewrite Hf in Ht|];
    rewrite elem_of_union, elem_of_singleton; naive_solver.
Qed.

(** A pending group joins the collection of those added by hand. *)
Lemma groups_tidy_admit o P P' R g st :
  groups_tidy o P R st -> P g -> (forall g', P' g' <-> P g' /\ g' <> g) ->
  groups_tidy o P' R (with_collector (fun c => set_collection Manually ({[g]} ∪ collection Manually c) c) st).
Proof.
  intros Ht HP HP' g' Hg'. specialize (Ht g' Hg'). unfold tidy_at in *. simpl. rewrite elem_of_union, elem_of_singleton.
  specialize (HP' g'). destruct (decide (g' = g)) as [->|Hgg]; naive_solver.
Qed.

(** ** What no step changes

    The objects, but for their associations and guard conditions. *)

Definition group_core (g : CallbackGroup) : CallbackGroup := set_associated (set_guard_made g) false.
Definition node_core (n : NodeBase) : NodeBase := mkNode (callback_groups_ n) false (node_guard n).

Definition objects (st st' : Managed) : Prop :=
  (forall g, group_core <$> groups st'.1 !! g = group_core <$> groups st.1 !! g) /\
  (forall n, node_core <$> nodes st'.1 !! n = node_core <$> nodes st.1 !! n).

#[export] Instance objects_preorder : PreOrder objects.
Proof. split; [done|]. intros x y z [H1 H2] [H3 H4]. split; intros ?; [by rewrite H3|by rewrite H4]. Qed.

Lemma objects_here st st' g : objects st st' -> here st' g <-> here st g.
Proof.
  intros [H _]. specialize (H g). unfold here. rewrite <- (fmap_is_Some group_core (groups st'.1 !! g)), H. apply fmap_is_Some.
Qed.

Lemma objects_node_here st st' n : objects st st' -> node_here st' n <-> node_here st n.
Proof. intros [_ H]. specialize (H n). unfold node_here. rewrite <- (fmap_is_Some node_core (nodes st'.1 !! n)), H. apply fmap_is_Some. Qed.

Lemma same_objects st st' : same st st' -> objects st st'.
Proof.
  intros (H & Hn & _). split; intros x; [|by rewrite Hn].
  assert (E : forall o : option CallbackGroup, group_core <$> o = (fun y => set_associated y false) <$> (set_guard_made <$> o)) by by intros [].
  by rewrite !E, H.
Qed.

Lemma objects_associate b g st : objects st (associate b g st).
Proof.
  split; [|done]. intros x. unfold associate, associate_group, on_group. simpl. destruct (decide (x = g)) as [->|Hx].
  - rewrite lookup_alter_eq. by destruct (groups st.1 !! g).
  - by rewrite lookup_alter_ne.
Qed.

Lemma objects_associate_node b n st : objects st (associate_node b n st.1, st.2).
Proof.
  split; [done|]. intros x. unfold associate_node. simpl. destruct (decide (x = n)) as [->|Hx].
  - rewrite lookup_alter_eq. by destruct (nodes st.1 !! n).
  - by rewrite lookup_alter_ne.
Qed.

Lemma objects_release k g st : objects st (release k g st).
Proof. apply (objects_associate false g st). Qed.

Lemma objects_collector st f : objects st (with_collector f st).
Proof. done. Qed.

(** Groups that join a node's executor by themselves. *)
Definition automatic (st : Managed) (g : N) : Prop :=
  exists x, groups st.1 !! g = Some x /\ automatically_add_to_executor_with_node_ x = true.

Lemma objects_automatic st st' g : objects st st' -> automatic st' g <-> automatic st g.
Proof.
  intros [H _]. specialize (H g). unfold automatic.
  destruct (groups st'.1 !! g) as [x|], (groups st.1 !! g) as [y|]; simpl in H; try done.
  assert (E : automatically_add_to_executor_with_node_ x = automatically_add_to_executor_with_node_ y).
  { apply (f_equal (fmap automatically_add_to_executor_with_node_)) in H. by injection H. }
  split; intros (z & [= <-] & Hz); eexists; (split; [done|]); congruence.
Qed.

(** ** Joining automatically *)

Definition rest (c : ExecutorEntitiesCollector) :=
  (manually_added_groups_ c, weak_nodes_ c, pending_added_nodes_ c, pending_removed_nodes_ c, pending_manually_added_groups_ c,
   pending_manually_removed_groups_ c).

(** Only more groups are associated, automatically. *)
Definition joins (st st' : Managed) : Prop :=
  objects st st' /\ rest st'.2 = rest st.2 /\
  forall g, group_associated st.1 g = true -> group_associated st'.1 g = true.

#[export] Instance joins_preorder : PreOrder joins.
Proof.
  split; [by intros x|]. intros x y z (H1 & H2 & H3) (H4 & H5 & H6).
  split_and!; [by transitivity y|congruence|auto].
Qed.

Lemma same_joins st st' : same st st' -> joins st st'.
Proof.
  intros Hs. split_and!; [by apply same_objects| |intros g; by rewrite (same_associated _ _ _ Hs)].
  unfold rest. destruct (same_collector _ _ Hs) as (_ & -> & -> & -> & -> & -> & ->). done.
Qed.

Lemma associate_automatically_spec o P R g st :
  groups_tidy o P R st ->
  exists st', associate_automatically g st = (Ok tt, st') /\ groups_tidy o P R st' /\ joins st st' /\
    (automatic st' g -> group_associated st'.1 g = true).
Proof.
  intros Ht. unfold associate_automatically. rewrite get_bind. destruct st as [w c]. simpl.
  destruct (groups w !! g) as [x|] eqn:Eg.
  2: { exists (w, c). split_and!; [done..|]. intros (x & Hx & _). simpl in Hx. congruence. }
  destruct (associated_with_executor_ x) eqn:Ea; simpl.
  { exists (w, c). split_and!; [done..|]. intros _. unfold group_associated. simpl. by rewrite Eg. }
  destruct (automatically_add_to_executor_with_node_ x) eqn:Eauto.
  2: { exists (w, c). split_and!; [done..|]. intros (y & Hy & ?). simpl in Hy. congruence. }
  assert (Hf : here (w, c) g -> group_associated (w, c).1 g = false) by (intros _; unfold group_associated; simpl; by rewrite Eg).
  assert (Hh : here (w, c) g) by by eexists.
  destruct (add_to_collection_eq Automatically g (associate true g (w, c))) as (st' & Hs & E).
  { intros Hin. destruct (Ht g Hh) as (_ & Hown & _). specialize (Hf Hh). rewrite Hf in Hown. by specialize (Hown (or_introl Hin)). }
  exists st'. split_and!.
  - rewrite (bind_ok _ _ _ (associate true g (w, c)) tt) by done. exact E.
  - eapply groups_tidy_same; [exact Hs|]. by apply groups_tidy_join.
  - transitivity (with_collector (fun c => set_collection Automatically ({[g]} ∪ collection Automatically c) c)
      (associate true g (w, c))); [|by apply same_joins].
    split_and!; [apply (objects_associate true g (w, c))|done|]. intros g' Hg'.
    change (group_associated (associate true g (w, c)).1 g' = true).
    rewrite associated_associate; [by case_bool_decide|]. unfold group_associated in Hg'. unfold here.
    destruct (groups (w, c).1 !! g'); [by eexists|done].
  - intros _. rewrite (same_associated _ _ _ Hs). change (group_associated (associate true g (w, c)).1 g = true).
    rewrite associated_associate by done. by rewrite bool_decide_true.
Qed.

(** Every group of the node that joins by itself is with some executor. *)
Definition node_served (n : N) (st : Managed) : Prop :=
  forall x g, nodes st.1 !! n = Some x -> g ∈ callback_groups_ x -> automatic st g -> group_associated st.1 g = true.

Lemma node_served_joins n st st' : joins st st' -> node_served n st -> node_served n st'.
Proof.
  intros (Ho & _ & Hg) Hn x g Hx Hin Ha. destruct Ho as [Ho1 Ho2] eqn:Eo. clear Eo. apply Hg.
  pose proof (Ho2 n) as E. rewrite Hx in E. destruct (nodes st.1 !! n) as [y|] eqn:Ey; [|done]. 
  unfold node_core in E. simpl in E. injection E as E _. eapply Hn; [done|by rewrite <- E|].
  by apply (objects_automatic st st' g).
Qed.

Lemma join_nodes_spec o P R l st :
  groups_tidy o P R st ->
  exists st', add_automatically_associated_callback_groups l st = (Ok tt, st') /\ groups_tidy o P R st' /\ joins st st' /\
    forall n, n ∈ l -> node_served n st'.
Proof.
  intros Ht. unfold add_automatically_associated_callback_groups.
  apply (for_each_done joins (groups_tidy o P R) node_served); [|intros; by eapply node_served_joins|done].
  clear st Ht. intros n [w c] Ht. rewrite get_bind. simpl. destruct (nodes w !! n) as [x|] eqn:En.
  2: { exists (w, c). split_and!; [done..|]. intros y g Hy. simpl in Hy. congruence. }
  destruct (for_each_done joins (groups_tidy o P R) (fun g st => automatic st g -> group_associated st.1 g = true)
    associate_automatically (node_groups w x) (w, c)) as (st' & E & Ht' & Hj & Hd).
  - intros g st1. apply associate_automatically_spec.
  - intros g st1 st2 (Ho & _ & Hg) H Ha. apply Hg, H. by apply (objects_automatic st1 st2 g).
  - done.
  - exists st'. split_and!; [done..|]. intros y g Hy Hin Ha. apply Hd; [|done].
    destruct Hj as (Ho & _). pose proof (proj2 Ho n) as E'. simpl in E'. rewrite Hy, En in E'. unfold node_core in E'. simpl in E'.
    injection E' as E' _. rewrite E' in Hin. apply list_elem_of_In, filter_In. split; [by apply list_elem_of_In|].
    apply bool_decide_eq_true_2. apply (objects_automatic _ _ g Ho) in Ha as (z & Hz & _). by eexists.
Qed.

(** ** The queues, one by one *)

Definition pendings (c : ExecutorEntitiesCollector) :=
  (pending_added_nodes_ c, pending_removed_nodes_ c, pending_manually_added_groups_ c, pending_manually_removed_groups_ c).

Lemma groups_tidy_ext o P P' R R' st :
  groups_tidy o P R st -> (forall g, here st g -> (P' g <-> P g) /\ (R' g -> R g)) -> groups_tidy o P' R' st.
Proof. intros Ht He g Hg. specialize (Ht g Hg). specialize (He g Hg). unfold tidy_at in *. naive_solver. Qed.

Lemma process_added_node_spec o P R n st :
  groups_tidy o P R st ->
  exists st', process_added_node n st = (Ok tt, st') /\ groups_tidy o P R st' /\ objects st st' /\
    pendings st'.2 = pendings st.2 /\ manually_added_groups_ st'.2 = manually_added_groups_ st.2 /\
    forall m, m ∈ weak_nodes_ st'.2 <-> m ∈ weak_nodes_ st.2 \/ m = n /\ node_here st n.
Proof.
  intros Ht. unfold process_added_node. rewrite get_bind. destruct st as [w c]. simpl.
  destruct (nodes w !! n) as [x|] eqn:En.
  2: { exists (w, c). split_and!; [done..|]. intros m. unfold node_here. simpl. rewrite En. split; [auto|intros [?|[_ []]]; done]. }
  rewrite (bind_ok _ _ _ (with_collector (fun c => set_weak_nodes ({[n]} ∪ weak_nodes_ c) c) (w, c)) tt) by done.
  destruct (join_nodes_spec o P R [n] (with_collector (fun c => set_weak_nodes ({[n]} ∪ weak_nodes_ c) c) (w, c)) Ht)
    as (st1 & E1 & Ht1 & (Ho & Hr & _) & _).
  rewrite (bind_ok _ _ _ _ _ E1).
  destruct (quiet_bind (on_collector (fun c => set_node_guards
      (match weak_nodes_to_guard_conditions_ c !! n with
       | Some _ => weak_nodes_to_guard_conditions_ c
       | None => <[n := node_guard x]> (weak_nodes_to_guard_conditions_ c)
       end) c)) (fun _ => notify_add (Some (node_guard x)))) with st1 as (st2 & E2 & S2).
  { apply quiet_modify. by intros []. }
  { intros. apply quiet_notify_add. }
  exists st2. split; [exact E2|]. pose proof (same_collector _ _ S2) as (Ea & Em & Ew & E3 & E4 & E5 & E6).
  unfold pendings, rest in *. simpl in Hr. split_and!.
  - by eapply groups_tidy_same.
  - transitivity st1; [exact Ho|by apply same_objects].
  - rewrite E3, E4, E5, E6. simpl. congruence.
  - rewrite Em. simpl. congruence.
  - intros m. rewrite Ew. injection Hr as _ -> _ _ _ _. simpl. rewrite elem_of_union, elem_of_singleton.
    unfold node_here. simpl. rewrite En. naive_solver.
Qed.

Lemma process_added_nodes_spec o P R l st :
  groups_tidy o P R st ->
  exists st', for_each process_added_node l st = (Ok tt, st') /\ groups_tidy o P R st' /\ objects st st' /\
    pendings st'.2 = pendings st.2 /\ manually_added_groups_ st'.2 = manually_added_groups_ st.2 /\
    forall m, m ∈ weak_nodes_ st'.2 <-> m ∈ weak_nodes_ st.2 \/ m ∈ l /\ node_here st m.
Proof.
  revert st. induction l as [|n l IH]; intros st Ht; simpl.
  - exists st. split_and!; try done. intros m. rewrite elem_of_nil. naive_solver.
  - destruct (process_added_node_spec o P R n st Ht) as (st1 & E1 & Ht1 & Ho1 & Hp1 & Hm1 & Hw1).
    destruct (IH st1 Ht1) as (st2 & E2 & Ht2 & Ho2 & Hp2 & Hm2 & Hw2).
    exists st2. split_and!; [by rewrite (bind_ok _ _ _ _ _ E1)|done|by transitivity st1|congruence|congruence|].
    intros m. rewrite Hw2, Hw1, elem_of_cons, (objects_node_here _ _ _ Ho1).
    split; [intros [[?|[-> ?]]|[? ?]]|intros [?|[[->|?] ?]]]; auto.
Qed.

(** The groups of a node that leaves. *)
Lemma release_node_groups_spec o P R x l st :
  groups_tidy o P R st -> NoDup l -> (forall g, g ∈ l -> g ∈ automatically_added_groups_ st.2) ->
  exists st', for_each (fun g =>
      '(w, _) ← get;
      let group_ptr := if bool_decide (is_Some (groups w !! g)) then Some g else None in
      if callback_group_in_node w x group_ptr then remove_weak_callback_group Automatically g else mret tt) l st = (Ok tt, st') /\
    groups_tidy o P R st' /\ objects st st' /\ rest st'.2 = rest st.2.
Proof.
  intros Ht Hl. revert st Ht. induction Hl as [|g l Hg Hl IH]; intros st Ht Hin; simpl; [by exists st|].
  assert (Hstep : exists st1, (('(w, _) ← get;
      let group_ptr := if bool_decide (is_Some (groups w !! g)) then Some g else None in
      if callback_group_in_node w x group_ptr then remove_weak_callback_group Automatically g else mret tt) : C unit) st = (Ok tt, st1) /\
    groups_tidy o P R st1 /\ objects st st1 /\ rest st1.2 = rest st.2 /\
    forall g', g' <> g -> g' ∈ automatically_added_groups_ st.2 -> g' ∈ automatically_added_groups_ st1.2).
  { rewrite get_bind. destruct st as [w c]. cbv zeta. destruct (callback_group_in_node _ _ _); [|by exists (w, c)].
    destruct (remove_weak_callback_group_eq Automatically g (w, c)) as (st1 & S1 & E1). exists (release Automatically g st1).
    pose proof (same_collector _ _ S1) as (Ea & Em & Ew & E3 & E4 & E5 & E6). split_and!; [done| | | |].
    - apply (groups_tidy_release o P R R); [by eapply groups_tidy_same| |done|done]. simpl. rewrite Ea. apply Hin. by left.
    - transitivity st1; [by apply same_objects|apply objects_release].
    - unfold rest. simpl in *. congruence.
    - intros g' Hg'. simpl. rewrite Ea. set_solver. }
  destruct Hstep as (st1 & E1 & Ht1 & Ho1 & Hr1 & Hk1).
  destruct (IH st1 Ht1) as (st2 & E2 & Ht2 & Ho2 & Hr2).
  { intros g' Hg'. apply Hk1; [by intros ->|]. apply Hin. by right. }
  exists st2. split_and!; [by rewrite (bind_ok _ _ _ _ _ E1)|done|by transitivity st1|congruence].
Qed.

Definition leave_node (n : N) (st : Managed) : Managed :=
  (associate_node false n st.1, set_weak_nodes (weak_nodes_ st.2 ∖ {[n]}) st.2).

Lemma remove_weak_node_eq n st :
  exists st1, same st st1 /\ remove_weak_node n st = (Ok tt, leave_node n st1).
Proof.
  unfold remove_weak_node. rewrite get_bind. destruct st as [w c].
  assert (Hq : quiet (match weak_nodes_to_guard_conditions_ c !! n with
   | Some gc =>
     notify_remove (Some gc);;
     on_collector (fun c => set_node_guards (delete n (weak_nodes_to_guard_conditions_ c)) c)
   | None => mret tt
   end)).
  { destruct (_ !! n); [|apply quiet_ret]. apply quiet_bind; [apply quiet_notify_remove|]. intros.
    apply quiet_modify. by intros []. }
  destruct (Hq (w, c)) as (st1 & E & Hs). exists st1. split; [done|]. by rewrite (bind_ok _ _ _ _ _ E).
Qed.

Lemma groups_tidy_leave o P R n st : groups_tidy o P R st -> groups_tidy o P R (leave_node n st).
Proof. done. Qed.

Lemma process_removed_node_spec o P R n st :
  groups_tidy o P R st -> (node_here st n -> n ∈ weak_nodes_ st.2) ->
  exists st', process_removed_node n st = (Ok tt, st') /\ groups_tidy o P R st' /\ objects st st' /\
    pendings st'.2 = pendings st.2 /\ manually_added_groups_ st'.2 = manually_added_groups_ st.2 /\
    weak_nodes_ st'.2 = weak_nodes_ st.2 ∖ {[n]}.
Proof.
  intros Ht Hn. unfold process_removed_node. rewrite get_bind. destruct st as [w c]. simpl in Hn.
  assert (Hstep : exists st1, ((if bool_decide (n ∈ weak_nodes_ c) then remove_weak_node n
      else if bool_decide (is_Some (nodes w !! n)) then throw NodeNeedsThisExecutor else mret tt) : C unit) (w, c) = (Ok tt, st1) /\
    groups_tidy o P R st1 /\ objects (w, c) st1 /\ pendings st1.2 = pendings c /\
    manually_added_groups_ st1.2 = manually_added_groups_ c /\ weak_nodes_ st1.2 = weak_nodes_ c ∖ {[n]}).
  { case_bool_decide as Hw.
    - destruct (remove_weak_node_eq n (w, c)) as (st1 & S1 & E1). exists (leave_node n st1).
      pose proof (same_collector _ _ S1) as (Ea & Em & Ew & E3 & E4 & E5 & E6). split_and!; [done| | | | |].
      + apply groups_tidy_leave. by eapply groups_tidy_same.
      + transitivity st1; [by apply same_objects|]. apply (objects_associate_node false n st1).
      + unfold pendings. simpl in *. congruence.
      + done.
      + simpl in *. by rewrite Ew.
    - rewrite bool_decide_false by (intros H; apply Hw, Hn, H). exists (w, c). split_and!; try done. simpl. set_solver. }
  destruct Hstep as (st1 & E1 & Ht1 & Ho1 & Hp1 & Hm1 & Hw1). rewrite (bind_ok _ _ _ _ _ E1), get_bind.
  destruct st1 as [w1 c1]. simpl. destruct (nodes w1 !! n) as [x|]; [|by exists (w1, c1)].
  destruct (release_node_groups_spec o P R x (set_in_order (automatically_added_groups_ c1)) (w1, c1) Ht1)
    as (st2 & E2 & Ht2 & Ho2 & Hr2); [apply NoDup_set_in_order|intros g; apply elem_of_set_in_order|].
  exists st2. unfold rest, pendings in *. simpl in *. split_and!; [done|done|by transitivity (w1, c1)|congruence|congruence|congruence].
Qed.

Lemma process_removed_nodes_spec o P R l st :
  groups_tidy o P R st -> NoDup l -> (forall n, n ∈ l -> node_here st n -> n ∈ weak_nodes_ st.2) ->
  exists st', for_each process_removed_node l st = (Ok tt, st') /\ groups_tidy o P R st' /\ objects st st' /\
    pendings st'.2 = pendings st.2 /\ manually_added_groups_ st'.2 = manually_added_groups_ st.2 /\
    forall m, m ∈ weak_nodes_ st'.2 <-> m ∈ weak_nodes_ st.2 /\ m ∉ l.
Proof.
  intros Ht Hl. revert st Ht. induction Hl as [|n l Hn Hl IH]; intros st Ht Hw; simpl.
  - exists st. split_and!; try done. intros m. rewrite elem_of_nil. naive_solver.
  - destruct (process_removed_node_spec o P R n st Ht) as (st1 & E1 & Ht1 & Ho1 & Hp1 & Hm1 & Hw1).
    { apply Hw. by left. }
    destruct (IH st1 Ht1) as (st2 & E2 & Ht2 & Ho2 & Hp2 & Hm2 & Hw2).
    { intros m Hm Hh. rewrite Hw1. apply elem_of_difference. split; [|rewrite elem_of_singleton; by intros ->].
      apply Hw; [by right|]. by apply (objects_node_here _ _ _ Ho1). }
    exists st2. split_and!; [by rewrite (bind_ok _ _ _ _ _ E1)|done|by transitivity st1|congruence|congruence|].
    intros m. rewrite Hw2, Hw1, elem_of_cons. set_solver.
Qed.

Lemma process_added_groups_spec o R l st :
  groups_tidy o (fun g => g ∈ l) R st -> NoDup l ->
  exists st', for_each process_added_group l st = (Ok tt, st') /\ groups_tidy o (fun _ => False) R st' /\ objects st st' /\
    pendings st'.2 = pendings st.2 /\ weak_nodes_ st'.2 = weak_nodes_ st.2 /\
    forall g, g ∈ manually_added_groups_ st'.2 <-> g ∈ manually_added_groups_ st.2 \/ g ∈ l /\ here st g.
Proof.
  intros Ht Hl. revert st Ht. induction Hl as [|g l Hg Hl IH]; intros st Ht; simpl.
  - exists st. split_and!; try done.
    + eapply groups_tidy_ext; [done|]. intros g _. rewrite elem_of_nil. naive_solver.
    + intros g. rewrite elem_of_nil. naive_solver.
  - assert (Hstep : exists st1, process_added_group g st = (Ok tt, st1) /\ groups_tidy o (fun g => g ∈ l) R st1 /\
      objects st st1 /\ pendings st1.2 = pendings st.2 /\ weak_nodes_ st1.2 = weak_nodes_ st.2 /\
      forall g', g' ∈ manually_added_groups_ st1.2 <-> g' ∈ manually_added_groups_ st.2 \/ g' = g /\ here st g).
    { unfold process_added_group. rewrite get_bind. destruct st as [w c]. case_bool_decide as Hh.
      - destruct (add_to_collection_eq Manually g (w, c)) as (st1 & S1 & E1).
        { intros Hin. destruct (Ht g Hh) as (_ & _ & _ & _ & Hd & _). apply Hd. split; [done|by left]. }
        exists st1. pose proof (same_collector _ _ S1) as (Ea & Em & Ew & E3 & E4 & E5 & E6). split_and!; [done| | | | |].
        + eapply groups_tidy_same; [exact S1|]. eapply groups_tidy_admit; [exact Ht|by left|].
          intros g'. rewrite elem_of_cons. split; [intros Hg'; split; [by right|by intros ->]|naive_solver].
        + by apply (same_objects _ _ S1).
        + unfold pendings. simpl in *. congruence.
        + done.
        + intros g'. rewrite Em. simpl. rewrite elem_of_union, elem_of_singleton. naive_solver.
      - destruct (quiet_drop_guard g (w, c)) as (st1 & E1 & S1). exists st1.
        pose proof (same_collector _ _ S1) as (Ea & Em & Ew & E3 & E4 & E5 & E6). split_and!; [done| | | |done|].
        + eapply groups_tidy_same; [exact S1|]. eapply groups_tidy_ext; [exact Ht|].
          intros g' Hg'. rewrite elem_of_cons. split; [|done]. split; [by right|intros [->|?]; done].
        + by apply same_objects.
        + unfold pendings. simpl in *. congruence.
        + intros g'. rewrite Em. naive_solver. }
    destruct Hstep as (st1 & E1 & Ht1 & Ho1 & Hp1 & Hw1 & Hm1).
    destruct (IH st1 Ht1) as (st2 & E2 & Ht2 & Ho2 & Hp2 & Hw2 & Hm2).
    exists st2. split_and!; [by rewrite (bind_ok _ _ _ _ _ E1)|done|by transitivity st1|congruence|congruence|].
    intros g'. rewrite Hm2, Hm1, elem_of_cons, (objects_here _ _ _ Ho1).
    split; [intros [[?|[-> ?]]|[? ?]]|intros [?|[[->|?] ?]]]; auto.
Qed.

Lemma process_removed_groups_spec o l st :
  groups_tidy o (fun _ => False) (fun g => g ∈ l) st -> NoDup l ->
  exists st', for_each process_removed_group l st = (Ok tt, st') /\ groups_tidy o (fun _ => False) (fun _ => False) st' /\
    objects st st' /\ pendings st'.2 = pendings st.2 /\ weak_nodes_ st'.2 = weak_nodes_ st.2 /\
    forall g, g ∈ manually_added_groups_ st'.2 <-> g ∈ manually_added_groups_ st.2 /\ ~ (g ∈ l /\ here st g).
Proof.
  intros Ht Hl. revert st Ht. induction Hl as [|g l Hg Hl IH]; intros st Ht; simpl.
  - exists st. split_and!; try done.
    + eapply groups_tidy_ext; [done|]. intros g _. rewrite elem_of_nil. naive_solver.
    + intros g. rewrite elem_of_nil. naive_solver.
  - assert (Hstep : exists st1, process_removed_group g st = (Ok tt, st1) /\
      groups_tidy o (fun _ => False) (fun g => g ∈ l) st1 /\
      objects st st1 /\ pendings st1.2 = pendings st.2 /\ weak_nodes_ st1.2 = weak_nodes_ st.2 /\
      forall g', g' ∈ manually_added_groups_ st1.2 <-> g' ∈ manually_added_groups_ st.2 /\ ~ (g' = g /\ here st g)).
    { unfold process_removed_group. rewrite get_bind. destruct st as [w c]. case_bool_decide as Hh.
      - destruct (Ht g Hh) as (_ & _ & _ & _ & _ & Hr). destruct (Hr ltac:(by left)) as [Hin|[]]. simpl in Hin.
        rewrite bool_decide_true by done.
        destruct (remove_weak_callback_group_eq Manually g (w, c)) as (st1 & S1 & E1). exists (release Manually g st1).
        pose proof (same_collector _ _ S1) as (Ea & Em & Ew & E3 & E4 & E5 & E6). split_and!; [done| | | | |].
        + eapply (groups_tidy_release o _ (fun g' => g' ∈ g :: l)); [by eapply groups_tidy_same|by simpl; rewrite Em| |done].
          intros g' Hg'. by right.
        + transitivity st1; [by apply same_objects|apply objects_release].
        + unfold pendings. simpl in *. congruence.
        + done.
        + intros g'. simpl. rewrite Em, elem_of_difference, elem_of_singleton. naive_solver.
      - exists (w, c). split_and!; try done.
        + eapply groups_tidy_ext; [exact Ht|]. intros g' Hg'. split; [done|]. by right.
        + intros g'. naive_solver. }
    destruct Hstep as (st1 & E1 & Ht1 & Ho1 & Hp1 & Hw1 & Hm1).
    destruct (IH st1 Ht1) as (st2 & E2 & Ht2 & Ho2 & Hp2 & Hw2 & Hm2).
    exists st2. split_and!; [by rewrite (bind_ok _ _ _ _ _ E1)|done|by transitivity st1|congruence|congruence|].
    intros g'. rewrite Hm2, Hm1, elem_of_cons, (objects_here _ _ _ Ho1). naive_solver.
Qed.

(** ** Pruning *)

(** The associations of living groups stay. *)
Definition prunes (st st' : Managed) : Prop :=
  objects st st' /\ pendings st'.2 = pendings st.2 /\
  forall g, here st g -> group_associated st'.1 g = group_associated st.1 g.

#[export] Instance prunes_preorder : PreOrder prunes.
Proof.
  split; [by intros x|]. intros x y z (H1 & H2 & H3) (H4 & H5 & H6). split_and!; [by transitivity y|congruence|].
  intros g Hg. rewrite H6; [by apply H3|by apply (objects_here _ _ _ H1)].
Qed.

Lemma same_prunes st st' : same st st' -> prunes st st'.
Proof.
  intros Hs. split_and!; [by apply same_objects| |intros; by apply same_associated].
  unfold pendings. destruct (same_collector _ _ Hs) as (_ & _ & _ & -> & -> & -> & ->). done.
Qed.

Lemma prune_nodes_spec o P R l st :
  groups_tidy o P R st ->
  exists st', for_each (fun n =>
      '(w, _) ← get; if bool_decide (is_Some (nodes w !! n)) then mret tt else remove_weak_node n) l st = (Ok tt, st') /\
    groups_tidy o P R st' /\ prunes st st' /\ automatically_added_groups_ st'.2 = automatically_added_groups_ st.2 /\
    manually_added_groups_ st'.2 = manually_added_groups_ st.2 /\
    forall m, m ∈ weak_nodes_ st'.2 <-> m ∈ weak_nodes_ st.2 /\ (m ∈ l -> node_here st m).
Proof.
  revert st. induction l as [|n l IH]; intros st Ht; simpl.
  - exists st. split_and!; try done. intros m. rewrite elem_of_nil. naive_solver.
  - assert (Hstep : exists st1, (('(w, _) ← get; if bool_decide (is_Some (nodes w !! n)) then mret tt else remove_weak_node n) : C unit)
        st = (Ok tt, st1) /\ groups_tidy o P R st1 /\ prunes st st1 /\
      automatically_added_groups_ st1.2 = automatically_added_groups_ st.2 /\
      manually_added_groups_ st1.2 = manually_added_groups_ st.2 /\
      forall m, m ∈ weak_nodes_ st1.2 <-> m ∈ weak_nodes_ st.2 /\ (m = n -> node_here st m)).
    { rewrite get_bind. destruct st as [w c]. case_bool_decide as Hh.
      - exists (w, c). split_and!; try done. intros m. unfold node_here. simpl. naive_solver.
      - destruct (remove_weak_node_eq n (w, c)) as (st1 & S1 & E1). exists (leave_node n st1).
        pose proof (same_collector _ _ S1) as (Ea & Em & Ew & E3 & E4 & E5 & E6). split_and!; [done| | |done|done|].
        + apply groups_tidy_leave. by eapply groups_tidy_same.
        + transitivity st1; [by apply same_prunes|]. split_and!; [apply (objects_associate_node false n st1)|done|done].
        + intros m. simpl. rewrite Ew, elem_of_difference, elem_of_singleton. unfold node_here. simpl. naive_solver. }
    destruct Hstep as (st1 & E1 & Ht1 & Hp1 & Ha1 & Hm1 & Hw1).
    destruct (IH st1 Ht1) as (st2 & E2 & Ht2 & Hp2 & Ha2 & Hm2 & Hw2).
    exists st2. split_and!; [by rewrite (bind_ok _ _ _ _ _ E1)|done|by transitivity st1|congruence|congruence|].
    intros m. rewrite Hw2, Hw1, elem_of_cons, (objects_node_here _ _ _ (proj1 Hp1)). naive_solver.
Qed.

Lemma prune_groups_spec o P R k l st :
  groups_tidy o P R st ->
  exists st', for_each (fun g =>
      '(w, _) ← get; if bool_decide (is_Some (groups w !! g)) then mret tt else remove_weak_callback_group k g) l st = (Ok tt, st') /\
    groups_tidy o P R st' /\ prunes st st' /\ weak_nodes_ st'.2 = weak_nodes_ st.2 /\
    (forall k', k' <> k -> collection k' st'.2 = collection k' st.2) /\
    forall g, g ∈ collection k st'.2 <-> g ∈ collection k st.2 /\ (g ∈ l -> here st g).
Proof.
  revert st. induction l as [|g l IH]; intros st Ht; simpl.
  - exists st. split_and!; try done. intros m. rewrite elem_of_nil. naive_solver.
  - assert (Hstep : exists st1, (('(w, _) ← get; if bool_decide (is_Some (groups w !! g)) then mret tt
          else remove_weak_callback_group k g) : C unit) st = (Ok tt, st1) /\ groups_tidy o P R st1 /\ prunes st st1 /\
      weak_nodes_ st1.2 = weak_nodes_ st.2 /\ (forall k', k' <> k -> collection k' st1.2 = collection k' st.2) /\
      forall g', g' ∈ collection k st1.2 <-> g' ∈ collection k st.2 /\ (g' = g -> here st g')).
    { rewrite get_bind. destruct st as [w c]. case_bool_decide as Hh.
      - exists (w, c). split_and!; try done. intros m. unfold here. simpl. naive_solver.
      - destruct (remove_weak_callback_group_eq k g (w, c)) as (st1 & S1 & E1). exists (release k g st1).
        pose proof (same_collector _ _ S1) as (Ea & Em & Ew & E3 & E4 & E5 & E6).
        assert (Hc : forall k', collection k' st1.2 = collection k' c) by (intros []; done).
        assert (Hne : forall g', here st1 g' -> g' <> g).
        { intros g' Hg' ->. apply Hh. by apply (same_here _ _ _ S1). }
        split_and!; [done| | |done| |].
        + pose proof (groups_tidy_same _ _ _ _ _ S1 Ht) as Ht1. intros g' Hg'. change (here (associate false g st1) g') in Hg'.
          apply here_associate in Hg'. specialize (Ht1 g' Hg'). specialize (Hne g' Hg').
          change (release k g st1).1 with (associate false g st1).1. rewrite associated_associate, bool_decide_false by done.
          unfold release, tidy_at in *. destruct k; simpl in *; rewrite elem_of_difference, elem_of_singleton; naive_solver.
        + transitivity st1; [by apply same_prunes|]. split_and!; [apply objects_release|by destruct k|].
          intros g' Hg'. change (release k g st1).1 with (associate false g st1).1.
          rewrite associated_associate, bool_decide_false by auto. done.
        + intros k' Hk'. rewrite <- Hc. by apply collection_other.
        + intros g'. unfold release. simpl. rewrite Hc. destruct k; simpl; rewrite elem_of_difference, elem_of_singleton;
            unfold here; simpl; naive_solver. }
    destruct Hstep as (st1 & E1 & Ht1 & Hp1 & Hw1 & Hk1 & Hc1).
    destruct (IH st1 Ht1) as (st2 & E2 & Ht2 & Hp2 & Hw2 & Hk2 & Hc2).
    exists st2. split_and!; [by rewrite (bind_ok _ _ _ _ _ E1)|done|by transitivity st1|congruence| |].
    + intros k' Hk'. by rewrite Hk2, Hk1.
    + intros g'. rewrite Hc2, Hc1, elem_of_cons, (objects_here _ _ _ (proj1 Hp1)). naive_solver.
Qed.

(** ** An update *)

(** A collector between the calls of its methods. *)
Definition tidy (others : N -> Prop) (st : Managed) : Prop :=
  groups_tidy others (fun g => g ∈ pending_manually_added_groups_ st.2) (fun g => g ∈ pending_manually_removed_groups_ st.2) st /\
  nodes_tidy (fun n => n ∈ pending_added_nodes_ st.2) (fun n => n ∈ pending_removed_nodes_ st.2) st.

Lemma process_queues_spec o st :
  tidy o st ->
  exists st', process_queues st = (Ok tt, st') /\ groups_tidy o (fun _ => False) (fun _ => False) st' /\ objects st st' /\
    pendings st'.2 = (∅, ∅, ∅, ∅) /\
    (forall n, node_here st n -> n ∈ weak_nodes_ st'.2 <->
      (n ∈ weak_nodes_ st.2 \/ n ∈ pending_added_nodes_ st.2) /\ n ∉ pending_removed_nodes_ st.2) /\
    (forall g, here st g -> g ∈ manually_added_groups_ st'.2 <->
      (g ∈ manually_added_groups_ st.2 \/ g ∈ pending_manually_added_groups_ st.2) /\ g ∉ pending_manually_removed_groups_ st.2).
Proof.
  intros [Hg Hn]. unfold process_queues. destruct st as [w c]. rewrite get_bind. simpl in *.
  destruct (process_added_nodes_spec o _ _ (set_in_order (pending_added_nodes_ c)) (w, c) Hg)
    as ([w1 c1] & E1 & Ht1 & Ho1 & Hp1 & Hm1 & Hw1). rewrite (bind_ok _ _ _ _ _ E1).
  rewrite (bind_ok _ _ _ (w1, set_pending_nodes ∅ (pending_removed_nodes_ c1) c1) tt), get_bind by done.
  unfold pendings in *. simpl in *. injection Hp1 as Pa1 Pr1 Pg1 Pq1.
  destruct (process_removed_nodes_spec o (fun g => g ∈ pending_manually_added_groups_ c)
    (fun g => g ∈ pending_manually_removed_groups_ c) (set_in_order (pending_removed_nodes_ c1))
    (w1, set_pending_nodes ∅ (pending_removed_nodes_ c1) c1) Ht1)
    as ([w2 c2] & E2 & Ht2 & Ho2 & Hp2 & Hm2 & Hw2); [apply NoDup_set_in_order| |].
  { intros n Hin Hh. apply elem_of_set_in_order in Hin. simpl. rewrite Hw1, elem_of_set_in_order.
    apply (objects_node_here _ _ n Ho1) in Hh. rewrite Pr1 in Hin. destruct (Hn n Hh Hin); auto. }
  rewrite (bind_ok _ _ _ _ _ E2).
  rewrite (bind_ok _ _ _ (w2, set_pending_nodes (pending_added_nodes_ c2) ∅ c2) tt), get_bind by done.
  unfold pendings in *. simpl in *. injection Hp2 as Pa2 Pr2 Pg2 Pq2.
  destruct (process_added_groups_spec o (fun g => g ∈ pending_manually_removed_groups_ c)
    (set_in_order (pending_manually_added_groups_ c2)) (w2, set_pending_nodes (pending_added_nodes_ c2) ∅ c2))
    as ([w3 c3] & E3 & Ht3 & Ho3 & Hp3 & Hw3 & Hm3); [|apply NoDup_set_in_order|].
  { eapply groups_tidy_ext; [exact Ht2|]. intros g _. by rewrite elem_of_set_in_order, Pg2, Pg1. }
  rewrite (bind_ok _ _ _ _ _ E3).
  rewrite (bind_ok _ _ _ (w3, set_pending_groups ∅ (pending_manually_removed_groups_ c3) c3) tt), get_bind by done.
  unfold pendings in *. simpl in *. injection Hp3 as Pa3 Pr3 Pg3 Pq3.
  destruct (process_removed_groups_spec o (set_in_order (pending_manually_removed_groups_ c3))
    (w3, set_pending_groups ∅ (pending_manually_removed_groups_ c3) c3))
    as ([w4 c4] & E4 & Ht4 & Ho4 & Hp4 & Hw4 & Hm4); [|apply NoDup_set_in_order|].
  { eapply groups_tidy_ext; [exact Ht3|]. intros g _. by rewrite elem_of_set_in_order, Pq3, Pq2, Pq1. }
  rewrite (bind_ok _ _ _ _ _ E4). exists (w4, set_pending_groups (pending_manually_added_groups_ c4) ∅ c4).
  unfold pendings in *. simpl in *. injection Hp4 as Pa4 Pr4 Pg4 Pq4.
  assert (Ho : objects (w, c) (w3, c3)) by (transitivity (w1, c1); [done|by transitivity (w2, c2)]).
  split_and!; [done|done| | | |].
  - by transitivity (w3, c3).
  - by rewrite Pa4, Pr4, Pg4, Pa3, Pr3, Pa2.
  - intros n Hh. rewrite Hw4, Hw3, Hw2, Hw1, !elem_of_set_in_order, Pr1. naive_solver.
  - intros g Hh. rewrite Hm4, Hm3, Hm2, Hm1, !elem_of_set_in_order, Pq3, Pq2, Pq1, Pg2, Pg1.
    assert (Hh3 : here (w3, set_pending_groups ∅ (pending_manually_removed_groups_ c3) c3) g) by by apply (objects_here _ _ g Ho).
    assert (Hh2 : here (w2, set_pending_nodes (pending_added_nodes_ c2) ∅ c2) g).
    { apply (objects_here (w, c) (w2, c2)); [by transitivity (w1, c1)|done]. }
    naive_solver.
Qed.

(** The groups that an executor has or is about to have. *)
Definition owned (c : ExecutorEntitiesCollector) : gset N :=
  automatically_added_groups_ c ∪ manually_added_groups_ c ∪ pending_manually_added_groups_ c.

(** An update never throws.  Afterwards the collector has the living
    nodes and groups that it had or that were added, without those to be
    removed, whatever the order of the requests; nothing is pending; every
    group of its nodes that joins automatically is with some executor. *)
Lemma update_collections_spec o st :
  tidy o st ->
  exists st', update_collections st = (Ok tt, st') /\ tidy o st' /\ objects st st' /\ pendings st'.2 = (∅, ∅, ∅, ∅) /\
    (forall n, n ∈ weak_nodes_ st'.2 <-> node_here st n /\
      (n ∈ weak_nodes_ st.2 \/ n ∈ pending_added_nodes_ st.2) /\ n ∉ pending_removed_nodes_ st.2) /\
    (forall g, g ∈ manually_added_groups_ st'.2 <-> here st g /\
      (g ∈ manually_added_groups_ st.2 \/ g ∈ pending_manually_added_groups_ st.2) /\ g ∉ pending_manually_removed_groups_ st.2) /\
    (forall g, g ∈ automatically_added_groups_ st'.2 -> here st g) /\
    forall n, n ∈ weak_nodes_ st'.2 -> node_served n st'.
Proof.
  intros Ht. destruct (process_queues_spec o st Ht) as ([w1 c1] & E1 & Ht1 & Ho1 & Hp1 & Hw1 & Hm1).
  unfold update_collections. rewrite (bind_ok _ _ _ _ _ E1), get_bind.
  destruct (join_nodes_spec o _ _ (set_in_order (weak_nodes_ c1)) (w1, c1) Ht1) as ([w2 c2] & E2 & Ht2 & (Ho2 & Hr2 & _) & Hserved).
  rewrite (bind_ok _ _ _ _ _ E2). unfold prune_invalid_nodes_and_groups. rewrite get_bind. unfold rest in Hr2. simpl in Hr2.
  destruct (prune_nodes_spec o _ _ (set_in_order (weak_nodes_ c2)) (w2, c2) Ht2)
    as ([w3 c3] & E3 & Ht3 & Hp3 & Ha3 & Hm3 & Hw3).
  rewrite (bind_ok _ _ _ _ _ E3). cbv zeta. unfold mbind at 1, ST_bind at 1. rewrite get_bind.
  destruct (prune_groups_spec o _ _ Automatically (set_in_order (collection Automatically c3)) (w3, c3) Ht3)
    as ([w4 c4] & E4 & Ht4 & Hp4 & Hw4 & Hk4 & Ha4).
  rewrite E4, get_bind.
  destruct (prune_groups_spec o _ _ Manually (set_in_order (collection Manually c4)) (w4, c4) Ht4)
    as ([w5 c5] & E5 & Ht5 & Hp5 & Hw5 & Hk5 & Hm5).
  rewrite E5. exists (w5, c5).
  assert (Hpr : prunes (w2, c2) (w5, c5)) by (transitivity (w3, c3); [done|by transitivity (w4, c4)]).
  assert (Ho : forall w' c', objects (w2, c2) (w', c') -> objects st (w', c')).
  { intros w' c' H'. transitivity (w1, c1); [done|]. by transitivity (w2, c2). }
  assert (Hpend : pendings c5 = (∅, ∅, ∅, ∅)).
  { destruct Hpr as (_ & Hpp & _). unfold pendings in *. simpl in *. rewrite Hpp. congruence. }
  assert (Hh4 : forall g, here (w4, c4) g <-> here st g).
  { intros g. apply objects_here, Ho. transitivity (w3, c3); [apply Hp3|apply Hp4]. }
  assert (Hweak : forall n, n ∈ weak_nodes_ c5 <-> n ∈ weak_nodes_ c1 /\ node_here st n).
  { intros n. simpl in *. rewrite Hw5, Hw4, Hw3, elem_of_set_in_order. injection Hr2 as _ -> _ _ _ _.
    rewrite (objects_node_here st (w2, c2) n) by by apply Ho. naive_solver. }
  split_and!; [done| |apply Ho, Hpr|done| | | |].
  - unfold pendings in Hpend. injection Hpend as P1 P2 P3 P4. split.
    + eapply groups_tidy_ext; [exact Ht5|]. intros g _. simpl. rewrite P3, P4. set_solver.
    + intros n _. simpl. rewrite P2. set_solver.
  - intros n. simpl. rewrite Hweak. split; intros [H1 H2]; (split; [|done || by apply Hw1]); (done || by apply Hw1).
  - intros g. change (g ∈ collection Manually c5 <-> here st g /\
      (g ∈ manually_added_groups_ st.2 \/ g ∈ pending_manually_added_groups_ st.2) /\ g ∉ pending_manually_removed_groups_ st.2).
    rewrite Hm5, elem_of_set_in_order, Hh4. specialize (Hk4 Manually ltac:(done)). simpl in *. rewrite Hk4, Hm3.
    injection Hr2 as -> _ _ _ _ _. specialize (Hm1 g). naive_solver.
  - intros g. specialize (Hk5 Automatically ltac:(done)). specialize (Ha4 g). simpl in *. rewrite Hk5.
    rewrite elem_of_set_in_order in Ha4. intros Hg. apply (objects_here st (w3, c3)); [apply Ho, Hp3|]. naive_solver.
  - intros n Hn. apply Hweak in Hn as [Hn Hh]. intros x g Hx Hin Ha. simpl in *.
    destruct Hpr as (Hob & _ & Hfl). pose proof Ha as (y & Hy & _). simpl in Hy.
    rewrite Hfl by (apply (objects_here _ _ g Hob); by eexists).
    destruct Hob as [Hob1 Hob2] eqn:Eo. clear Eo. pose proof (Hob2 n) as E. simpl in E. rewrite Hx in E.
    destruct (nodes w2 !! n) as [z|] eqn:Ez; [|done]. unfold node_core in E. simpl in E. injection E as E _.
    apply (Hserved n ltac:(by apply elem_of_set_in_order) z g Ez); [by rewrite <- E|].
    apply (objects_automatic (w2, c2) (w5, c5) g); [by split|done].
Qed.
