(* ===== verification/ExecutorGroups.v ===== *)
(** * Nodes and groups belong to one executor

    What [EntitiesCollector] promises to several executors that share nodes
    and callback groups: a group is never in two of them, and updating never
    throws ([groups_exclusive]).  Nodes are not that safe
    ([remove_node_frees_foreign_node]), and the queues forget the order of
    their requests ([readded_node_is_lost]). *)

From Stdlib Require Import ZArith Lia.
From stdpp Require Import base numbers list gmap.
From S2P Require Import Prelude Computation OrderedMap CallbackGroups EntitiesCollector EntitiesCollectorFacts.

(** ** Several executors

    The methods of the collectors, as calls; what else happens to the objects
    ([evolves]); the states that follow. *)

Inductive Request :=
| AddNode (n : N) | RemoveNode (n : N) | AddGroup (g : N) | RemoveGroup (g : N) | Update | Destroy.

Definition run_request (r : Request) : C unit :=
  match r with
  | AddNode n => add_node n
  | RemoveNode n => remove_node n
  | AddGroup g => add_callback_group g
  | RemoveGroup g => remove_callback_group g
  | Update => update_collections
  | Destroy => destroy_collector
  end.

(** The caller holds what it passes. *)
Definition held (w : World) (r : Request) : Prop :=
  match r with
  | AddNode n | RemoveNode n => is_Some (nodes w !! n)
  | AddGroup g | RemoveGroup g => is_Some (groups w !! g)
  | Update | Destroy => True
  end.

Record System := mkSystem { sys_world : World; executors : gmap N ExecutorEntitiesCollector }.

(** The program changes objects at will, destroys some and makes new ones,
    whose addresses no weak pointer remembers; it leaves the associations to
    the executors. *)
Definition evolves (es : gmap N ExecutorEntitiesCollector) (w w' : World) : Prop :=
  (forall g x', groups w' !! g = Some x' ->
    (exists x, groups w !! g = Some x /\ associated_with_executor_ x' = associated_with_executor_ x) \/
    groups w !! g = None /\ associated_with_executor_ x' = false /\
      forall e c, es !! e = Some c -> g ∉ owned c /\ g ∉ pending_manually_removed_groups_ c) /\
  (forall n, is_Some (nodes w' !! n) -> is_Some (nodes w !! n) \/
    forall e c, es !! e = Some c -> n ∉ pending_removed_nodes_ c).

Inductive system_step : System -> System -> Prop :=
| step_request s e c r res w' c' :
    executors s !! e = Some c -> held (sys_world s) r -> run_request r (sys_world s, c) = (res, (w', c')) ->
    system_step s (mkSystem w' (match r with Destroy => delete e (executors s) | _ => <[e := c']> (executors s) end))
| step_new s e t : executors s !! e = None -> system_step s (mkSystem (sys_world s) (<[e := new_collector t]> (executors s)))
| step_world s w' : evolves (executors s) (sys_world s) w' -> system_step s (mkSystem w' (executors s)).

Inductive system_reachable : System -> Prop :=
| reach_start w : (forall g x, groups w !! g = Some x -> associated_with_executor_ x = false) -> system_reachable (mkSystem w ∅)
| reach_step s s' : system_reachable s -> system_step s s' -> system_reachable s'.

(** ** The methods keep a collector tidy *)

Lemma add_node_tidy o n st : tidy o st -> tidy o (add_node n st).2.
Proof.
  intros [Hg Hn]. unfold add_node. destruct st as [w c]. rewrite get_bind. cbv zeta.
  rewrite (bind_ok _ _ _ (associate_node true n w, c) tt) by done.
  assert (Ho : objects (w, c) (associate_node true n w, c)) by apply (objects_associate_node true n (w, c)).
  assert (Ht : tidy o (associate_node true n w, c)).
  { split; [exact Hg|]. intros m Hm. apply Hn. by apply (objects_node_here _ _ _ Ho). }
  destruct (node_associated w n); [exact Ht|]. rewrite get_bind. destruct (_ && _); [exact Ht|].
  destruct Ht as [Hg' Hn']. split; [exact Hg'|]. intros m Hm Hd. simpl in *. rewrite elem_of_union.
  destruct (Hn' m Hm Hd); auto.
Qed.

Lemma remove_node_tidy o n st : tidy o st -> tidy o (remove_node n st).2.
Proof.
  intros [Hg Hn]. unfold remove_node. destruct st as [w c]. rewrite get_bind. cbv zeta.
  rewrite (bind_ok _ _ _ (associate_node false n w, c) tt) by done.
  assert (Ho : objects (w, c) (associate_node false n w, c)) by apply (objects_associate_node false n (w, c)).
  assert (Ht : tidy o (associate_node false n w, c)).
  { split; [exact Hg|]. intros m Hm. apply Hn. by apply (objects_node_here _ _ _ Ho). }
  destruct (negb _); [exact Ht|]. rewrite get_bind.
  case_bool_decide as H1; case_bool_decide as H2; case_bool_decide as H3; simpl; try exact Ht.
  all: destruct Ht as [Hg' Hn']; split; [exact Hg'|]; intros m Hm; simpl in *; rewrite elem_of_union, elem_of_singleton.
  all: intros [->|Hd]; [by auto|by apply Hn'].
Qed.

Lemma associated_here st g : group_associated st.1 g = true -> here st g.
Proof. unfold group_associated, here. destruct (groups st.1 !! g); [by eexists|done]. Qed.

Lemma add_callback_group_tidy o g st : here st g -> tidy o st -> tidy o (add_callback_group g st).2.
Proof.
  intros Hh [Hg Hn]. unfold add_callback_group. destruct st as [w c]. rewrite get_bind. cbv zeta.
  rewrite (bind_ok _ _ _ (associate true g (w, c)) tt) by done. pose proof (Hg g Hh) as Hgg. unfold tidy_at in Hgg. simpl in Hgg.
  assert (Hn' : nodes_tidy (fun n => n ∈ pending_added_nodes_ c) (fun n => n ∈ pending_removed_nodes_ c) (associate true g (w, c))) by done.
  destruct (group_associated w g) eqn:Ea.
  - change (tidy o (associate true g (w, c))). split; [|exact Hn']. intros g' Hg'.
    apply here_associate in Hg'. rewrite associated_associate by done.
    specialize (Hg g' Hg'). unfold tidy_at in *. case_bool_decide as E; [subst g'; simpl in Hg; rewrite Ea in Hg|]; exact Hg.
  - unfold associate. rewrite get_bind. cbv beta iota zeta. rewrite !bool_decide_false by naive_solver. simpl.
    set (st1 := with_collector (fun c => set_pending_groups ({[g]} ∪ pending_manually_added_groups_ c)
      (pending_manually_removed_groups_ c) c) (associate true g (w, c))).
    rewrite (bind_ok _ _ _ st1 tt) by done. destruct (quiet_keep_guard g st1) as (st2 & E2 & S2). rewrite E2. simpl.
    pose proof (same_collector _ _ S2) as (Ea2 & Em & Ew & E3 & E4 & E5 & E6). split.
    + rewrite E5, E6. eapply groups_tidy_same; [exact S2|]. intros g' Hg'. change (here (associate true g (w, c)) g') in Hg'.
      apply here_associate in Hg'. change st1.1 with (associate true g (w, c)).1. rewrite associated_associate by done.
      specialize (Hg g' Hg'). unfold tidy_at in *. simpl in *. rewrite elem_of_union, elem_of_singleton.
      case_bool_decide as E; [subst g'; rewrite Ea in Hg|]; naive_solver.
    + rewrite E3, E4. eapply nodes_tidy_same; [exact S2|]. exact Hn'.
Qed.

Lemma remove_callback_group_tidy o g st : tidy o st -> tidy o (remove_callback_group g st).2.
Proof.
  intros Ht. unfold remove_callback_group. destruct st as [w c]. rewrite get_bind. cbv zeta.
  destruct (negb _); [exact Ht|].
  case_bool_decide as H1; case_bool_decide as H2; case_bool_decide as H3; simpl; try exact Ht.
  all: destruct Ht as [Hg Hn]; split; [|exact Hn]; intros g' Hg'; specialize (Hg g' Hg'); unfold tidy_at in *; simpl in *;
    rewrite elem_of_union, elem_of_singleton; naive_solver.
Qed.

Lemma release_all_spec o P k l st :
  groups_tidy o P (fun _ => False) st -> NoDup l -> (forall g, g ∈ l -> g ∈ collection k st.2) ->
  exists st', for_each (remove_weak_callback_group k) l st = (Ok tt, st') /\ groups_tidy o P (fun _ => False) st' /\
    objects st st' /\ pendings st'.2 = pendings st.2.
Proof.
  intros Ht Hl. revert st Ht. induction Hl as [|g l Hg Hl IH]; intros st Ht Hin; simpl; [by exists st|].
  destruct (remove_weak_callback_group_eq k g st) as (st1 & S1 & E1).
  pose proof (same_collector _ _ S1) as (Ea & Em & Ew & E3 & E4 & E5 & E6).
  assert (Hc : collection k st1.2 = collection k st.2) by by destruct k.
  destruct (IH (release k g st1)) as (st2 & E2 & Ht2 & Ho2 & Hp2).
  - eapply groups_tidy_release; [by eapply groups_tidy_same|rewrite Hc; apply Hin; by left|done|by intros ? []].
  - intros g' Hg'. unfold release. simpl.
    assert (E : collection k (set_collection k (collection k st1.2 ∖ {[g]}) st1.2) = collection k st1.2 ∖ {[g]}) by by destruct k.
    rewrite E, Hc, elem_of_difference, elem_of_singleton. split; [apply Hin; by right|by intros ->].
  - exists st2. split_and!; [by rewrite (bind_ok _ _ _ _ _ E1)|done| |].
    + transitivity st1; [by apply same_objects|]. by transitivity (release k g st1); [apply objects_release|].
    + rewrite Hp2. unfold release, pendings. destruct k; simpl; congruence.
Qed.

Lemma leave_nodes_spec o P R l st :
  groups_tidy o P R st ->
  exists st', for_each remove_weak_node l st = (Ok tt, st') /\ groups_tidy o P R st' /\ objects st st' /\ pendings st'.2 = pendings st.2.
Proof.
  revert st. induction l as [|n l IH]; intros st Ht; simpl; [by exists st|].
  destruct (remove_weak_node_eq n st) as (st1 & S1 & E1).
  pose proof (same_collector _ _ S1) as (Ea & Em & Ew & E3 & E4 & E5 & E6).
  destruct (IH (leave_node n st1)) as (st2 & E2 & Ht2 & Ho2 & Hp2); [apply groups_tidy_leave; by eapply groups_tidy_same|].
  exists st2. split_and!; [by rewrite (bind_ok _ _ _ _ _ E1)|done| |].
  - transitivity st1; [by apply same_objects|]. transitivity (leave_node n st1); [apply (objects_associate_node false n st1)|done].
  - rewrite Hp2. unfold pendings. simpl. congruence.
Qed.

Lemma dissociate_nodes_spec l st :
  exists w, for_each (fun n => on_world (associate_node false n)) l st = (Ok tt, (w, st.2)) /\ groups w = groups st.1 /\ objects st (w, st.2).
Proof.
  revert st. induction l as [|n l IH]; intros [w c]; simpl; [by exists w|].
  destruct (IH (associate_node false n w, c)) as (w' & E & Hg & Ho). exists w'.
  split_and!; [by rewrite (bind_ok _ _ _ (associate_node false n w, c) tt)|done|].
  transitivity (associate_node false n w, c); [apply (objects_associate_node false n (w, c))|done].
Qed.

Lemma drop_pending_spec o l st :
  groups_tidy o (fun g => g ∈ l) (fun _ => False) st -> NoDup l ->
  exists st', for_each (fun g => on_world (associate_group false g);; drop_guard g) l st = (Ok tt, st') /\
    groups_tidy o (fun _ => False) (fun _ => False) st' /\ objects st st'.
Proof.
  intros Ht Hl. revert st Ht. induction Hl as [|g l Hg Hl IH]; intros st Ht; simpl.
  - exists st. split_and!; [done| |done]. eapply groups_tidy_ext; [done|]. intros g _. rewrite elem_of_nil. naive_solver.
  - destruct (quiet_drop_guard g (associate false g st)) as (st1 & E1 & S1).
    destruct (IH st1) as (st2 & E2 & Ht2 & Ho2).
    + eapply groups_tidy_same; [exact S1|]. intros g' Hg'. apply here_associate in Hg'. rewrite associated_associate by done.
      specialize (Ht g' Hg'). unfold tidy_at in *. rewrite elem_of_cons in Ht. simpl.
      case_bool_decide as E; [subst g'|]; naive_solver.
    + exists st2. split_and!; [|done|].
      * rewrite (bind_ok _ _ _ st1 tt); [done|]. by rewrite (bind_ok _ _ _ (associate false g st) tt).
      * transitivity (associate false g st); [apply objects_associate|]. transitivity st1; [by apply same_objects|done].
Qed.

Lemma destroy_tidy o st :
  tidy o st -> exists st', destroy_collector st = (Ok tt, st') /\ objects st st' /\
    forall g, here st g -> o g -> group_associated st'.1 g = true.
Proof.
  intros [Hg _]. unfold destroy_collector. destruct st as [w c]. rewrite get_bind. simpl in Hg.
  assert (Hg0 : groups_tidy o (fun g => g ∈ pending_manually_added_groups_ c) (fun _ => False) (w, c)).
  { eapply groups_tidy_ext; [exact Hg|]. naive_solver. }
  destruct (leave_nodes_spec _ _ _ (set_in_order (weak_nodes_ c)) _ Hg0) as ([w1 c1] & E1 & Ht1 & Ho1 & Hp1).
  rewrite (bind_ok _ _ _ _ _ E1), get_bind.
  destruct (release_all_spec _ _ Automatically (set_in_order (automatically_added_groups_ c1)) _ Ht1)
    as ([w2 c2] & E2 & Ht2 & Ho2 & Hp2); [apply NoDup_set_in_order|intros g; apply elem_of_set_in_order|].
  rewrite (bind_ok _ _ _ _ _ E2), get_bind.
  destruct (release_all_spec _ _ Manually (set_in_order (manually_added_groups_ c2)) _ Ht2)
    as ([w3 c3] & E3 & Ht3 & Ho3 & Hp3); [apply NoDup_set_in_order|intros g; apply elem_of_set_in_order|].
  rewrite (bind_ok _ _ _ _ _ E3), get_bind.
  destruct (dissociate_nodes_spec (set_in_order (pending_added_nodes_ c3)) (w3, c3)) as (w4 & E4 & Hw4 & Ho4).
  rewrite (bind_ok _ _ _ _ _ E4). simpl snd. rewrite (bind_ok _ _ _ (w4, set_pending_nodes ∅ ∅ c3) tt), get_bind by done.
  unfold pendings in *. simpl in *. injection Hp1 as _ _ P1 _. injection Hp2 as _ _ P2 _. injection Hp3 as _ _ P3 _.
  destruct (drop_pending_spec o (set_in_order (pending_manually_added_groups_ c3)) (w4, set_pending_nodes ∅ ∅ c3))
    as ([w5 c5] & E5 & Ht5 & Ho5); [|apply NoDup_set_in_order|].
  { intros g Hh. unfold here in Hh. simpl in Hh. rewrite Hw4 in Hh. specialize (Ht3 g Hh).
    unfold group_associated in *. simpl in *. rewrite Hw4. rewrite elem_of_set_in_order, P3, P2, P1. exact Ht3. }
  rewrite (bind_ok _ _ _ _ _ E5). exists (w5, set_pending_groups ∅ ∅ c5).
  assert (Ho : objects (w, c) (w5, c5)).
  { transitivity (w1, c1); [exact Ho1|]. transitivity (w2, c2); [exact Ho2|]. transitivity (w3, c3); [exact Ho3|].
    transitivity (w4, c3); [exact Ho4|exact Ho5]. }
  split_and!; [done|exact Ho|]. intros g Hh Hog. apply (objects_here _ _ g Ho) in Hh. by apply (proj1 (Ht5 g Hh)).
Qed.

(** ** The methods leave the objects *)

Lemma keeps_same_objects (m : C unit) : quiet m -> Keeps objects m.
Proof. intros Hm st. destruct (Hm st) as (st' & E & Hs). rewrite E. by apply same_objects. Qed.

Lemma keeps_associate_node b n : Keeps objects (on_world (associate_node b n)).
Proof. intros st. apply objects_associate_node. Qed.

Lemma keeps_associate_group b g : Keeps objects (on_world (associate_group b g)).
Proof. intros st. apply (objects_associate b g st). Qed.

Lemma keeps_collector f : Keeps objects (on_collector f).
Proof. intros st. apply objects_collector. Qed.

#[local] Hint Resolve keeps_associate_node keeps_associate_group keeps_collector : keeps.
#[local] Hint Extern 1 (Keeps objects (keep_guard _)) => apply keeps_same_objects, quiet_keep_guard : keeps.

Definition request_done (o : N -> Prop) (r : Request) (st : Managed) : Prop :=
  tidy o (run_request r st).2 /\ objects st (run_request r st).2.

Lemma request_keeps o r st : tidy o st -> held st.1 r -> r <> Destroy -> request_done o r st.
Proof.
  intros Ht Hh Hr. destruct r as [n|n|g|g| |]; simpl in Hh; split; simpl; try done.
  - by apply add_node_tidy.
  - apply (fun H : Keeps objects (add_node n) => H st). unfold add_node. keeps_steps.
  - by apply remove_node_tidy.
  - apply (fun H : Keeps objects (remove_node n) => H st). unfold remove_node. keeps_steps.
  - by apply add_callback_group_tidy.
  - apply (fun H : Keeps objects (add_callback_group g) => H st). unfold add_callback_group. keeps_steps.
  - by apply remove_callback_group_tidy.
  - apply (fun H : Keeps objects (remove_callback_group g) => H st). unfold remove_callback_group. keeps_steps.
  - destruct (update_collections_spec o st Ht) as (st' & -> & ? & _). done.
  - destruct (update_collections_spec o st Ht) as (st' & -> & _ & ? & _). done.
Qed.

(** ** The invariant of the system *)

Definition others (es : gmap N ExecutorEntitiesCollector) (e g : N) : Prop :=
  exists e' c', e' <> e /\ es !! e' = Some c' /\ g ∈ owned c'.

Definition system_tidy (s : System) : Prop :=
  forall e c, executors s !! e = Some c -> tidy (others (executors s) e) (sys_world s, c).

Lemma owned_spec g c :
  g ∈ owned c <-> g ∈ automatically_added_groups_ c \/ g ∈ manually_added_groups_ c \/ g ∈ pending_manually_added_groups_ c.
Proof. unfold owned. set_solver. Qed.

(** From outside, a collector is tidy if its groups are with it and with
    nobody else. *)
Lemma tidy_elsewhere o o' w w' c :
  tidy o (w, c) -> objects (w, c) (w', c) ->
  (forall g, here (w', c) g -> o' g -> group_associated w' g = true /\ g ∉ owned c) ->
  (forall g, here (w', c) g -> g ∈ owned c -> group_associated w' g = true) ->
  tidy o' (w', c).
Proof.
  intros [Hg Hn] Ho H1 H2. split.
  - intros g Hh. pose proof Hh as Hh'. apply (objects_here _ _ g Ho) in Hh'. specialize (Hg g Hh'). specialize (H1 g Hh).
    specialize (H2 g Hh). rewrite owned_spec in H1, H2. unfold tidy_at in *. simpl in *. naive_solver.
  - intros n Hh. apply (objects_node_here _ _ n Ho) in Hh. by apply Hn.
Qed.

Lemma tidy_owned o w c g : tidy o (w, c) -> here (w, c) g -> g ∈ owned c -> group_associated w g = true /\ ~ o g.
Proof. intros [Hg _] Hh. rewrite owned_spec. specialize (Hg g Hh). unfold tidy_at in Hg. simpl in Hg. naive_solver. Qed.

Lemma tidy_other o w c g : tidy o (w, c) -> here (w, c) g -> o g -> group_associated w g = true.
Proof. intros [Hg _] Hh Ho. by apply (proj1 (Hg g Hh)). Qed.

Lemma others_insert es e c' e' g :
  e' <> e -> others (<[e := c']> es) e' g ->
  (exists e2 c2, e2 <> e' /\ e2 <> e /\ es !! e2 = Some c2 /\ g ∈ owned c2) \/ g ∈ owned c'.
Proof.
  intros He (e2 & c2 & H1 & H2 & H3). destruct (decide (e2 = e)) as [->|].
  - rewrite lookup_insert_eq in H2. injection H2 as <-. by right.
  - rewrite lookup_insert_ne in H2 by done. left. by exists e2, c2.
Qed.

Lemma others_self es e c' g : others (<[e := c']> es) e g <-> others es e g.
Proof.
  split; intros (e2 & c2 & H1 & H2 & H3); exists e2, c2; [rewrite lookup_insert_ne in H2 by done|rewrite lookup_insert_ne by done]; done.
Qed.

Lemma tidy_ext o o' st : (forall g, o g <-> o' g) -> tidy o st -> tidy o' st.
Proof. intros Ho [Hg Hn]. split; [|done]. intros g Hh. rewrite <- Ho. by apply Hg. Qed.

Lemma system_request s e c r :
  system_tidy s -> executors s !! e = Some c -> held (sys_world s) r -> r <> Destroy ->
  let st' := (run_request r (sys_world s, c)).2 in
  system_tidy (mkSystem st'.1 (<[e := st'.2]> (executors s))).
Proof.
  intros Hs He Hh Hr. destruct (request_keeps _ r (sys_world s, c) (Hs e c He) Hh Hr) as [Ht Ho].
  destruct (run_request r (sys_world s, c)) as [res [w' c']]. simpl in *. intros e' c2. simpl. destruct (decide (e' = e)) as [->|Hne].
  - rewrite lookup_insert_eq. intros [= <-]. eapply tidy_ext; [|exact Ht]. intros g. by rewrite others_self.
  - rewrite lookup_insert_ne by done. intros He'.
    assert (Hc : forall g, here (w', c') g -> g ∈ owned c2 -> group_associated w' g = true /\ g ∉ owned c').
    { intros g Hg Hin. assert (Hoth : others (executors s) e g) by by exists e', c2.
      split; [by eapply tidy_other|]. intros Hin'. by destruct (tidy_owned _ _ _ _ Ht Hg Hin'). }
    eapply (tidy_elsewhere (others (executors s) e') _ (sys_world s) w' c2); [by apply Hs|done| |].
    + intros g Hg Hoth. apply others_insert in Hoth as [(e3 & c3 & H1 & H1' & H2 & H3)|Hin]; [|split|done].
      * assert (Hg0 : here (sys_world s, c2) g) by by apply (objects_here (sys_world s, c) (w', c') g Ho).
        split; [eapply tidy_other; [exact Ht|exact Hg|by exists e3, c3]|].
        intros Hin. destruct (tidy_owned _ _ _ _ (Hs e' c2 He') Hg0 Hin) as [_ []]. by exists e3, c3.
      * by apply (tidy_owned _ _ _ _ Ht Hg Hin).
      * intros Hin2. by destruct (Hc g Hg Hin2).
    + intros g Hg Hin. by apply Hc.
Qed.

Lemma others_delete es e e' g : others (delete e es) e' g -> others es e' g.
Proof. intros (e2 & c2 & H1 & [_ H2]%lookup_delete_Some & H3). by exists e2, c2. Qed.

Lemma system_destroy s e c :
  system_tidy s -> executors s !! e = Some c ->
  system_tidy (mkSystem (destroy_collector (sys_world s, c)).2.1 (delete e (executors s))).
Proof.
  intros Hs He. destruct (destroy_tidy _ _ (Hs e c He)) as ([w' c'] & -> & Ho & Hf). intros e' c2. simpl.
  intros [Hne He']%lookup_delete_Some.
  assert (Hf2 : forall g, here (w', c2) g -> g ∈ owned c2 -> group_associated w' g = true).
  { intros g Hg Hin. apply Hf; [by apply (objects_here _ _ g Ho)|by exists e', c2]. }
  eapply (tidy_elsewhere (others (executors s) e') _ (sys_world s) w' c2); [by apply Hs|done| |done].
  intros g Hg (e3 & c3 & H1 & [H2 H2']%lookup_delete_Some & H3).
  assert (Hg0 : here (sys_world s, c2) g) by by apply (objects_here (sys_world s, c) (w', c') g Ho).
  split; [apply Hf; [done|by exists e3, c3]|].
  intros Hin. destruct (tidy_owned _ _ _ _ (Hs e' c2 He') Hg0 Hin) as [_ []]. by exists e3, c3.
Qed.

Lemma system_world s w' : system_tidy s -> evolves (executors s) (sys_world s) w' -> system_tidy (mkSystem w' (executors s)).
Proof.
  intros Hs [Hev Hevn] e c He. simpl in *. destruct (Hs e c He) as [Hg Hn]. split.
  - intros g [x' Hx']. unfold group_associated. simpl in *. rewrite Hx'. destruct (Hev g x' Hx') as [(x & Hx & ->)|(Hx & -> & Hnew)].
    + assert (Hh : here (sys_world s, c) g) by by eexists. specialize (Hg g Hh). unfold group_associated in Hg.
      simpl in Hg. by rewrite Hx in Hg.
    + destruct (Hnew e c He) as [Ho Hp]. rewrite owned_spec in Ho. unfold tidy_at. simpl.
      assert (~ others (executors s) e g) by (intros (e2 & c2 & _ & H2 & H3); by destruct (Hnew e2 c2 H2)). naive_solver.
  - intros n Hh Hd. destruct (Hevn n Hh) as [Hh0|Hnew]; [by apply Hn|by destruct (Hnew e c He)].
Qed.

Lemma system_new s e t : system_tidy s -> executors s !! e = None -> system_tidy (mkSystem (sys_world s) (<[e := new_collector t]> (executors s))).
Proof.
  intros Hs He e' c. simpl. destruct (decide (e' = e)) as [->|Hne].
  - rewrite lookup_insert_eq. intros [= <-]. split; [|by intros n _ []%not_elem_of_empty]. intros g Hh. simpl.
    assert (Ho : others (<[e:=new_collector t]> (executors s)) e g -> group_associated (sys_world s) g = true).
    { rewrite others_self. intros (e2 & c2 & _ & H2 & H3). by apply (tidy_owned _ _ c2 _ (Hs e2 c2 H2)). }
    unfold tidy_at. set_solver.
  - rewrite lookup_insert_ne by done. intros He'. eapply tidy_ext; [|by apply Hs]. intros g. split.
    + intros (e2 & c2 & H1 & H2 & H3). exists e2, c2. rewrite lookup_insert_ne; [done|]. congruence.
    + intros [(e2 & c2 & ? & ? & ? & ?)|Hin]%others_insert; [by exists e2, c2| |done]. unfold owned in Hin. simpl in Hin. set_solver.
Qed.

Lemma reachable_tidy s : system_reachable s -> system_tidy s.
Proof.
  induction 1 as [w Hw|s s' _ IH Hstep]; [by intros e c|].
  destruct Hstep as [s e c r res w' c' He Hh Hr|s e t He|s w' Hev]; [|by apply system_new|by apply system_world].
  destruct r; try (pose proof (system_request s e c _ IH He Hh ltac:(done)) as H; simpl in H; simpl in Hr; by rewrite Hr in H).
  pose proof (system_destroy s e c IH He) as H. simpl in Hr. by rewrite Hr in H.
Qed.

(** ** What the collectors promise *)

(** C9: whatever the program and its executors do, a living group is with at
    most one executor, and then marked so; an executor's update never throws,
    and leaves it the living nodes and manually added groups that it had or
    was asked to add, without those that it was asked to remove, with every
    automatic group of its nodes in some executor. *)
Theorem groups_exclusive s :
  system_reachable s ->
  (forall e1 e2 c1 c2 g, executors s !! e1 = Some c1 -> executors s !! e2 = Some c2 -> is_Some (groups (sys_world s) !! g) ->
    g ∈ owned c1 -> g ∈ owned c2 -> e1 = e2) /\
  forall e c, executors s !! e = Some c ->
    (forall g, is_Some (groups (sys_world s) !! g) -> g ∈ owned c -> group_associated (sys_world s) g = true) /\
    exists w' c', update_collections (sys_world s, c) = (Ok tt, (w', c')) /\ pendings c' = (∅, ∅, ∅, ∅) /\
      (forall n, n ∈ weak_nodes_ c' <-> is_Some (nodes (sys_world s) !! n) /\
        (n ∈ weak_nodes_ c \/ n ∈ pending_added_nodes_ c) /\ n ∉ pending_removed_nodes_ c) /\
      (forall g, g ∈ manually_added_groups_ c' <-> is_Some (groups (sys_world s) !! g) /\
        (g ∈ manually_added_groups_ c \/ g ∈ pending_manually_added_groups_ c) /\ g ∉ pending_manually_removed_groups_ c) /\
      (forall g, g ∈ automatically_added_groups_ c' -> is_Some (groups (sys_world s) !! g)) /\
      forall n, n ∈ weak_nodes_ c' -> node_served n (w', c').
Proof.
  intros Hr. apply reachable_tidy in Hr as Hs. split.
  - intros e1 e2 c1 c2 g H1 H2 Hh G1 G2. destruct (decide (e1 = e2)) as [|Hne]; [done|].
    destruct (tidy_owned _ _ _ _ (Hs e1 c1 H1) Hh G1) as [_ []]. by exists e2, c2.
  - intros e c He. split; [intros g Hh Hin; by apply (tidy_owned _ _ _ _ (Hs e c He) Hh Hin)|].
    destruct (update_collections_spec _ _ (Hs e c He)) as ([w' c'] & E & _ & _ & Hp & Hn & Hm & Ha & Hserved).
    by exists w', c'.
Qed.

Definition busy (n : N) (c : ExecutorEntitiesCollector) : bool :=
  bool_decide (n ∈ weak_nodes_ c) || bool_decide (n ∈ pending_added_nodes_ c).

Lemma add_node_eq n w c :
  add_node n (w, c) =
    (if node_associated w n then Throw NodeAlreadyAdded
     else if busy n c && negb (bool_decide (n ∈ pending_removed_nodes_ c)) then Throw NodeAlreadyInThisExecutor else Ok tt,
     (associate_node true n w,
      if node_associated w n || busy n c && negb (bool_decide (n ∈ pending_removed_nodes_ c)) then c
      else set_pending_nodes ({[n]} ∪ pending_added_nodes_ c) (pending_removed_nodes_ c) c)).
Proof. unfold add_node, busy. rewrite get_bind. cbv zeta. destruct (node_associated w n); [done|]. unfold mbind, ST_bind. simpl. by destruct (_ && _). Qed.

Lemma remove_node_eq n w c :
  remove_node n (w, c) =
    (if negb (node_associated w n) then Throw NodeNeedsExecutor
     else if negb (busy n c) || bool_decide (n ∈ pending_removed_nodes_ c) then Throw NodeNeedsThisExecutor else Ok tt,
     (associate_node false n w,
      if negb (node_associated w n) || (negb (busy n c) || bool_decide (n ∈ pending_removed_nodes_ c)) then c
      else set_pending_nodes (pending_added_nodes_ c) ({[n]} ∪ pending_removed_nodes_ c) c)).
Proof. unfold remove_node, busy. rewrite get_bind. cbv zeta. destruct (node_associated w n); [|done]. unfold mbind, ST_bind. simpl. by destruct (negb _ || _). Qed.

Lemma freed_node n w : node_associated (associate_node false n w) n = false.
Proof. unfold node_associated, associate_node. simpl. rewrite lookup_alter_eq. by destruct (nodes w !! n). Qed.

Lemma system_moves s e c r :
  system_reachable s -> executors s !! e = Some c -> held (sys_world s) r -> r <> Destroy ->
  let st' := (run_request r (sys_world s, c)).2 in
  system_reachable (mkSystem st'.1 (<[e := st'.2]> (executors s))).
Proof.
  intros Hr He Hh Hd. eapply reach_step; [exact Hr|]. destruct (run_request r (sys_world s, c)) as [res [w' c']] eqn:E.
  pose proof (step_request s e c r res w' c' He Hh E) as H. by destruct r.
Qed.

Lemma node_here_associate b n w n' : is_Some (nodes (associate_node b n w) !! n') <-> is_Some (nodes w !! n').
Proof.
  unfold associate_node. simpl. destruct (decide (n' = n)) as [->|Hn]; [rewrite lookup_alter_eq|by rewrite lookup_alter_ne].
  apply fmap_is_Some.
Qed.

(** nodes have no such protection.  If the program asks an executor to
    remove the node of another one, the request is refused with the right
    exception, yet the node can then be added to this executor as well, which
    was refused before: there is a state in which both have it. *)
Theorem remove_node_frees_foreign_node s e1 e2 c1 c2 n :
  system_reachable s -> executors s !! e1 = Some c1 -> executors s !! e2 = Some c2 -> e1 <> e2 ->
  is_Some (nodes (sys_world s) !! n) -> node_associated (sys_world s) n = true -> n ∈ weak_nodes_ c1 ->
  n ∉ weak_nodes_ c2 -> n ∉ pending_added_nodes_ c2 -> n ∉ pending_removed_nodes_ c2 ->
  (add_node n (sys_world s, c2)).1 = Throw NodeAlreadyAdded /\
  (remove_node n (sys_world s, c2)).1 = Throw NodeNeedsThisExecutor /\
  exists s' c2', system_reachable s' /\ executors s' !! e1 = Some c1 /\ executors s' !! e2 = Some c2' /\
    n ∈ weak_nodes_ c1 /\ n ∈ weak_nodes_ c2'.
Proof.
  intros Hr H1 H2 Hne Hn Ha Hw1 Hw2 Hp2 Hq2.
  assert (Hb : busy n c2 = false) by (unfold busy; by rewrite !bool_decide_false).
  split; [by rewrite add_node_eq, Ha|]. split; [by rewrite remove_node_eq, Ha, Hb|].
  pose proof (system_moves s e2 c2 (RemoveNode n) Hr H2 Hn ltac:(done)) as R1. cbn [run_request] in R1.
  rewrite remove_node_eq, Ha, Hb in R1. simpl in R1. apply (node_here_associate false n) in Hn as Hn1.
  pose proof (system_moves _ e2 c2 (AddNode n) R1 ltac:(apply lookup_insert_eq) Hn1 ltac:(done)) as R2.
  cbn [run_request sys_world executors] in R2. rewrite add_node_eq, freed_node, Hb in R2. simpl in R2. rewrite insert_insert_eq in R2.
  set (c3 := set_pending_nodes _ _ _) in R2. apply (node_here_associate true n) in Hn1 as Hn2.
  pose proof (system_moves _ e2 c3 Update R2 ltac:(apply lookup_insert_eq) I ltac:(done)) as R3.
  destruct (update_collections_spec _ _ (reachable_tidy _ R2 e2 c3 ltac:(apply lookup_insert_eq)))
    as ([w4 c4] & E4 & _ & _ & _ & Hw & _).
  cbn [run_request sys_world executors] in *. rewrite E4 in R3. cbn [fst snd] in R3. rewrite insert_insert_eq in R3.
  eexists _, c4. split_and!; [exact R3|simpl; by rewrite lookup_insert_ne|apply lookup_insert_eq|done|].
  apply Hw. simpl. split_and!; [done|right; set_solver|done].
Qed.

(** Requests to remove a node and to add it again, before the executor looks,
    all succeed; the node is then gone: the update adds before it removes. *)
Lemma readded_node_is_lost o w c n :
  tidy o (w, c) -> node_associated w n = true -> n ∈ weak_nodes_ c -> n ∉ pending_removed_nodes_ c ->
  exists st', (remove_node n;; add_node n;; update_collections) (w, c) = (Ok tt, st') /\ n ∉ weak_nodes_ st'.2.
Proof.
  intros Ht Ha Hw Hr. assert (Hb : busy n c = true) by (unfold busy; by rewrite bool_decide_true).
  pose proof (remove_node_tidy o n (w, c) Ht) as Ht1. pose proof (remove_node_eq n w c) as Er.
  rewrite Ha, Hb, bool_decide_false in Er by done. simpl in Er. rewrite Er in Ht1. rewrite (bind_ok _ _ _ _ _ Er). simpl snd in Ht1.
  set (c1 := set_pending_nodes _ _ _) in *.
  pose proof (add_node_tidy o n _ Ht1) as Ht2. pose proof (add_node_eq n (associate_node false n w) c1) as Ea.
  rewrite freed_node, (bool_decide_true (n ∈ pending_removed_nodes_ c1)), andb_false_r in Ea by set_solver. simpl in Ea.
  rewrite Ea in Ht2. rewrite (bind_ok _ _ _ _ _ Ea). simpl snd in Ht2.
  destruct (update_collections_spec o _ Ht2) as (st' & E' & _ & _ & _ & Hn & _). exists st'. split; [done|].
  intros (_ & _ & Hq)%Hn. apply Hq. simpl. set_solver.
Qed.

(** ** An example

    The node 1, with the group 10 that joins automatically, is with the
    executor 1; the group 11 is added by hand; the executor 2 has nothing. *)

Definition example_world : World :=
  mkWorld (<[10%N := new_callback_group MutuallyExclusive true 100]> (<[11%N := new_callback_group Reentrant false 101]> ∅))
    (<[1%N := mkNode [10%N] false 102]> ∅) ∅ ∅ ∅ ∅ true.

Definition requested (e : N) (r : Request) (s : System) : System :=
  match executors s !! e with
  | Some c =>
    let st := (run_request r (sys_world s, c)).2 in mkSystem st.1 (<[e := st.2]> (executors s))
  | None => s
  end.

Definition with_executor (e : N) (s : System) : System := mkSystem (sys_world s) (<[e := new_collector (mkNotify ∅ false)]> (executors s)).

Definition example_system : System :=
  requested 1 Update (requested 1 (AddGroup 11) (requested 1 (AddNode 1) (with_executor 2 (with_executor 1 (mkSystem example_world ∅))))).

Lemma requested_reachable e r s : system_reachable s -> held (sys_world s) r -> r <> Destroy -> system_reachable (requested e r s).
Proof. intros Hs Hh Hr. unfold requested. destruct (executors s !! e) eqn:E; [by apply system_moves|done]. Qed.

Lemma with_executor_reachable e s : system_reachable s -> executors s !! e = None -> system_reachable (with_executor e s).
Proof. intros Hs He. eapply reach_step; [done|by apply step_new]. Qed.

Lemma example_reachable : system_reachable example_system.
Proof.
  repeat (apply requested_reachable; [|by (exact I || (vm_compute; eexists; reflexivity))|done]).
  repeat (apply with_executor_reachable; [|done]). apply reach_start. simpl. intros g x.
  intros [[_ <-]|[_ [[_ <-]|[_ H]]%lookup_insert_Some]]%lookup_insert_Some; done.
Qed.

Definition example_collector (e : N) : ExecutorEntitiesCollector := default (new_collector (mkNotify ∅ false)) (executors example_system !! e).

Lemma example_collector_some e :
  bool_decide (is_Some (executors example_system !! e)) = true -> executors example_system !! e = Some (example_collector e).
Proof. intros [c Hc]%bool_decide_eq_true. unfold example_collector. by rewrite Hc. Qed.

Lemma groups_exclusive_witness :
  exists w' c', update_collections (sys_world example_system, example_collector 1) = (Ok tt, (w', c')) /\
    pendings c' = (∅, ∅, ∅, ∅) /\ group_associated (sys_world example_system) 11 = true.
Proof.
  destruct (groups_exclusive example_system example_reachable) as [_ H].
  destruct (H 1%N (example_collector 1) (example_collector_some 1 ltac:(vm_compute; reflexivity))) as [Hf (w' & c' & E & Hp & _)].
  exists w', c'. split; [exact E|]. split; [exact Hp|]. apply Hf.
  - vm_compute. eexists. reflexivity.
  - apply (bool_decide_unpack _). vm_compute. exact I.
Defined.

Lemma remove_node_frees_foreign_node_witness :
  exists s' c2', system_reachable s' /\ executors s' !! 1%N = Some (example_collector 1) /\ executors s' !! 2%N = Some c2' /\
    1%N ∈ weak_nodes_ (example_collector 1) /\ 1%N ∈ weak_nodes_ c2'.
Proof.
  eapply (remove_node_frees_foreign_node example_system 1 2 (example_collector 1) (example_collector 2) 1).
  - exact example_reachable.
  - apply example_collector_some. vm_compute. reflexivity.
  - apply example_collector_some. vm_compute. reflexivity.
  - done.
  - vm_compute. eexists. reflexivity.
  - vm_compute. reflexivity.
  - apply (bool_decide_unpack _). vm_compute. exact I.
  - apply (bool_decide_unpack _). vm_compute. exact I.
  - apply (bool_decide_unpack _). vm_compute. exact I.
  - apply (bool_decide_unpack _). vm_compute. exact I.
Defined.
