(* ===== verification/ExecutorWaitSet.v ===== *)
(** * The wait set of an executor

    [rclcpp::WaitSet]: [wait_set_template.hpp] with the policies
    [dynamic_storage.hpp], [detail/storage_policy_common.hpp] and
    [sequential_synchronization.hpp], over [WaitSet]; and the result of a wait,
    [wait_result.hpp].

    The set has weak pointers, which it locks while it waits and while a
    result is held; the world does not change during a call.  A subscription
    is added without its events and its intra-process waitable, as executors
    do. *)

From Stdlib Require Import ZArith Lia.
From stdpp Require Import base numbers list gmap.
From S2P Require Import Prelude Computation RclTypes Timer WaitSet CallbackGroups EntitiesCollector.
#[local] Open Scope Z_scope.

(** ** State *)

(** [weak_]: [subscriptions_] and its companions; [shared_]:
    [shared_subscriptions_] and its companions, with null pointers. *)
Record ClientWaitSet := mkClientWaitSet {
  weak_ : EntityKind -> list N;
  shared_ : EntityKind -> list (option N);
  ownership_reference_counter_ : nat;
  needs_pruning_ : bool;
  needs_resize_ : bool;
  rcl_wait_set_ : rcl_wait_set_t;
  wait_result_holding_ : bool;
  wait_result_dirty_ : bool;
}.

Definition set_weak (k : EntityKind) (l : list N) (s : ClientWaitSet) : ClientWaitSet :=
  mkClientWaitSet (fun k' => if bool_decide (k' = k) then l else weak_ s k') (shared_ s) (ownership_reference_counter_ s)
    (needs_pruning_ s) true (rcl_wait_set_ s) (wait_result_holding_ s) (wait_result_dirty_ s).
Definition set_ownership (shared : EntityKind -> list (option N)) (n : nat) (s : ClientWaitSet) : ClientWaitSet :=
  mkClientWaitSet (weak_ s) shared n (needs_pruning_ s) (needs_resize_ s) (rcl_wait_set_ s) (wait_result_holding_ s)
    (wait_result_dirty_ s).
Definition set_needs_pruning (s : ClientWaitSet) : ClientWaitSet :=
  mkClientWaitSet (weak_ s) (shared_ s) (ownership_reference_counter_ s) true (needs_resize_ s) (rcl_wait_set_ s)
    (wait_result_holding_ s) (wait_result_dirty_ s).
Definition set_rcl (r : rcl_wait_set_t) (s : ClientWaitSet) : ClientWaitSet :=
  mkClientWaitSet (weak_ s) (shared_ s) (ownership_reference_counter_ s) (needs_pruning_ s) (needs_resize_ s) r
    (wait_result_holding_ s) (wait_result_dirty_ s).
Definition set_resized (s : ClientWaitSet) : ClientWaitSet :=
  mkClientWaitSet (weak_ s) (shared_ s) (ownership_reference_counter_ s) (needs_pruning_ s) false (rcl_wait_set_ s)
    (wait_result_holding_ s) (wait_result_dirty_ s).
Definition set_holding (holding dirty : bool) (s : ClientWaitSet) : ClientWaitSet :=
  mkClientWaitSet (weak_ s) (shared_ s) (ownership_reference_counter_ s) (needs_pruning_ s) (needs_resize_ s) (rcl_wait_set_ s)
    holding dirty.

(** What a waitable does for a wait set: [get_number_of_ready_*]; the virtual
    [add_to_wait_set], which may throw a code; [is_ready]. *)
Record Waitable := mkWaitable {
  number_of_ready : Kind -> nat;
  add_to_wait_set : rcl_wait_set_t -> Result rcl_ret_t rcl_wait_set_t;
  waitable_is_ready : rcl_wait_set_t -> bool;
}.

(** What is around a call: allocations, the handles of the middleware, the
    clocks of the timers and what they show, the middleware, and the steady
    clock when the time that is left is computed. *)
Record Outside := mkOutside {
  allocator : Allocator;
  rmw_handles : Kind -> N -> option N;
  clock_of_timer : N -> N;
  guard_of_timer : N -> option (option N);
  type_of_clock : N -> rcl_clock_type_t;
  ros_override : N -> bool;
  clock_readings : Readings;
  middleware : Rmw;
  steady_start : Z;
  steady_now : Z;
  waitable_of : N -> Waitable;
}.

Definition timer_table (o : Outside) (w : World) : TimerTable :=
  mkTimers (fun h => timer_handles w !! h) (clock_of_timer o) (guard_of_timer o) (type_of_clock o) (ros_override o).

Definition Waiting : Type := World * ClientWaitSet.
Notation W := (ST Waiting executor_error).

Definition on_set (f : ClientWaitSet -> ClientWaitSet) : W unit := modify (fun st => (st.1, f st.2)).

(** [RCPPUTILS_SCOPE_EXIT]. *)
Definition finally {S E A} (m : ST S E A) (f : S -> S) : ST S E A := fun st => let '(r, st) := m st in (r, f st).

(** ** Adding and removing *)

Definition in_use_by_wait_set (w : World) (e : N) : bool :=
  match entities w !! e with Some x => in_use_by_wait_set_ x | None => false end.
Definition set_in_use (b : bool) (e : N) (w : World) : World :=
  set_entities w (alter (fun x => mkEntity (entity_handle x) b) e (entities w)).

(** [entity] is alive. *)
Definition storage_has_entity (w : World) (entity : N) (l : list N) : bool :=
  existsb (fun e => bool_decide (e = entity) && alive w e) l.

(** The first pointer to [entity] is erased. *)
Fixpoint storage_erase (w : World) (entity : N) (l : list N) : list N :=
  match l with
  | [] => []
  | e :: l => if bool_decide (e = entity) && alive w e then l else e :: storage_erase w entity l
  end.

Definition mark_dirty : W unit :=
  on_set (fun s => if wait_result_holding_ s then set_holding true true s else s).

(** [add_subscription], [add_timer] and their companions. *)
Definition add_to_set (k : EntityKind) (e : N) : W unit :=
  '(w, _) ← get;
  let already_in_use := in_use_by_wait_set w e in
  modify (fun st => (set_in_use true e st.1, st.2));;
  if already_in_use then throw (AlreadyInUse k) else
  '(w, s) ← get;
  if storage_has_entity w e (weak_ s k) then throw (AlreadyInWaitSet k) else
  on_set (set_weak k (weak_ s k ++ [e]));;
  mark_dirty.

Definition remove_from_set (k : EntityKind) (e : N) : W unit :=
  modify (fun st => (set_in_use false e st.1, st.2));;
  '(w, s) ← get;
  if negb (storage_has_entity w e (weak_ s k)) then throw (NotInWaitSet k) else
  on_set (set_weak k (storage_erase w e (weak_ s k)));;
  mark_dirty.

Definition prune_deleted_entities : W unit :=
  modify (fun '(w, s) =>
    (w, mkClientWaitSet (fun k => List.filter (alive w) (weak_ s k)) (shared_ s) (ownership_reference_counter_ s)
          (needs_pruning_ s) (needs_resize_ s) (rcl_wait_set_ s) (wait_result_holding_ s) (wait_result_dirty_ s))).

(** ** Ownership *)

Definition lock (w : World) (e : N) : option N := if alive w e then Some e else None.

Definition storage_acquire_ownerships (w : World) (s : ClientWaitSet) : ClientWaitSet :=
  let n := S (ownership_reference_counter_ s) in
  if (1 <? n)%nat then set_ownership (shared_ s) n s
  else set_ownership (fun k => map (lock w) (weak_ s k)) n s.

Definition storage_release_ownerships (s : ClientWaitSet) : ClientWaitSet :=
  let n := pred (ownership_reference_counter_ s) in
  if (0 <? n)%nat then set_ownership (shared_ s) n s
  else set_ownership (fun k => map (fun _ => None) (shared_ s k)) n s.

(** ** Rebuilding the rcl wait set *)

(** The sum over the waitables that are alive. *)
Definition from_waitables (o : Outside) (l : list (option N)) (k : Kind) : nat :=
  sum_list (map (fun x => match x with Some e => number_of_ready (waitable_of o e) k | None => 0%nat end) l).

Definition has_null (l : list (option N)) : bool := existsb (fun x => match x with None => true | Some _ => false end) l.

Definition resize_if_needed (o : Outside) : W unit :=
  '(_, s) ← get;
  let from := from_waitables o (shared_ s Waitables) in
  let size k := length (shared_ s k) in
  if needs_resize_ s then
    on_set (fun s => if has_null (shared_ s Waitables) then set_needs_pruning s else s);;
    let '(ret, rcl) := rcl_wait_set_resize (allocator o) (rcl_wait_set_ s)
      (size Subscriptions + from SUBSCRIPTION) (size GuardConditions + from GUARD_CONDITION) (size Timers + from TIMER)
      (size Clients + from CLIENT) (size Services + from SERVICE) (from EVENT) in
    on_set (set_rcl rcl);;
    match ret with RCL_RET_OK => on_set set_resized | _ => throw (RclFailed ret) end
  else
    let '(ret, rcl) := rcl_wait_set_clear (rcl_wait_set_ s) in
    on_set (set_rcl rcl);;
    match ret with RCL_RET_OK => mret tt | _ => throw (RclFailed ret) end.

(** The rcl type of what is added by [rcl_wait_set_add_*]. *)
Definition kind_of (k : EntityKind) : option Kind :=
  match k with
  | Subscriptions => Some SUBSCRIPTION | GuardConditions => Some GUARD_CONDITION | Timers => Some TIMER
  | Clients => Some CLIENT | Services => Some SERVICE | Waitables => None
  end.

Definition handle_of (w : World) (e : N) : N := match entities w !! e with Some x => entity_handle x | None => e end.

(** The body of the loops that add: a null pointer is passed over. *)
Definition add_to_rcl (o : Outside) (k : EntityKind) (e : option N) : W unit :=
  match e with
  | None => on_set set_needs_pruning
  | Some e =>
    '(w, s) ← get;
    match kind_of k with
    | Some TIMER =>
      let '(ret, _, rcl) := rcl_wait_set_add_timer (timer_table o w) (rcl_wait_set_ s) (Some (handle_of w e)) in
      on_set (set_rcl rcl);;
      match ret with RCL_RET_OK => mret tt | _ => throw (RclFailed ret) end
    | Some k =>
      let '(ret, _, rcl) := rcl_wait_set_add k (rmw_handles o k) (rcl_wait_set_ s) (Some (handle_of w e)) in
      on_set (set_rcl rcl);;
      match ret with RCL_RET_OK => mret tt | _ => throw (RclFailed ret) end
    | None =>
      match add_to_wait_set (waitable_of o e) (rcl_wait_set_ s) with
      | Ok rcl => on_set (set_rcl rcl)
      | Throw ret => throw (RclFailed ret)
      end
    end
  end.

(** There are no extra guard conditions. *)
Definition rebuild_order : list EntityKind := [Subscriptions; GuardConditions; Timers; Clients; Services; Waitables].

Definition storage_rebuild_rcl_wait_set_with_sets (o : Outside) : W unit :=
  resize_if_needed o;;
  for_each (fun k =>
    '(_, s) ← get;
    for_each (add_to_rcl o k) (shared_ s k)) rebuild_order.

Definition storage_rebuild_rcl_wait_set (o : Outside) : W unit :=
  '(w, _) ← get;
  on_set (storage_acquire_ownerships w);;
  storage_rebuild_rcl_wait_set_with_sets o;;
  on_set storage_release_ownerships.

(** ** Results of a wait *)

Inductive WaitResultKind := Ready | Timeout | Empty | Invalid.

#[export] Instance WaitResultKind_eq_dec : EqDecision WaitResultKind.
Proof. solve_decision. Defined.

(** [has_wait_set]: the pointer to the wait set is not null. *)
Record WaitResult := mkWaitResult {
  wait_result_kind_ : WaitResultKind;
  has_wait_set : bool;
  next_waitable_index_ : nat;
}.

Definition wait_result_acquire : W unit :=
  '(w, s) ← get;
  if wait_result_holding_ s then throw WaitResultHeld else
  on_set (set_holding true false);;
  on_set (storage_acquire_ownerships w).

Definition wait_result_release : W unit :=
  '(_, s) ← get;
  if negb (wait_result_holding_ s) then throw WaitResultNotHeld else
  on_set (set_holding false false);;
  on_set storage_release_ownerships.

Definition create_wait_result (k : WaitResultKind) : W WaitResult :=
  match k with
  | Ready => wait_result_acquire;; mret (mkWaitResult Ready true 0)
  | _ => mret (mkWaitResult k false 0)
  end.

(** [~WaitResult]. *)
Definition destroy_wait_result (r : WaitResult) : W unit := if has_wait_set r then wait_result_release else mret tt.

(** ** Waiting *)

Definition calculate_time_left_to_wait (original_time_to_wait_ns start now : Z) : Z :=
  if original_time_to_wait_ns <? 0 then original_time_to_wait_ns
  else Z.max 0 (i64 (original_time_to_wait_ns - (now - start))).

(** Every branch leaves the loop in its first pass. *)
Definition sync_wait (o : Outside) (time_to_wait_ns : Z) : W WaitResult :=
  storage_rebuild_rcl_wait_set o;;
  '(w, s) ← get;
  let time_left := calculate_time_left_to_wait time_to_wait_ns (steady_start o) (steady_now o) in
  match @rcl_wait (middleware o) (timer_table o w) (clock_readings o) (rcl_wait_set_ s) time_left with
  | None => throw Undefined
  | Some (ret, rcl) =>
    on_set (set_rcl rcl);;
    match ret with
    | RCL_RET_OK => create_wait_result Ready
    | RCL_RET_TIMEOUT => create_wait_result Timeout
    | RCL_RET_WAIT_SET_EMPTY => create_wait_result Empty
    | _ => throw (RclFailed ret)
    end
  end.

Definition wait (o : Outside) (time_to_wait_ns : Z) : W WaitResult :=
  '(w, _) ← get;
  on_set (storage_acquire_ownerships w);;
  finally (sync_wait o time_to_wait_ns) (fun st => (st.1, storage_release_ownerships st.2)).

(** ** Looking at a result

    The methods also change the result. *)

Definition Looking : Type := Waiting * WaitResult.
Notation L := (ST Looking executor_error).

Definition get_wait_set : L ClientWaitSet :=
  '((_, s), r) ← get;
  if bool_decide (wait_result_kind_ r = Ready) then mret s else throw WaitResultNotReady.

Definition check_wait_result_dirty : L unit :=
  '(_, r) ← get;
  if has_wait_set r then
    s ← get_wait_set;
    if wait_result_dirty_ s
    then modify (fun st => (st.1, mkWaitResult Invalid (has_wait_set st.2) (next_waitable_index_ st.2)))
    else mret tt
  else mret tt.

(** The handles in the rcl wait set. *)
Definition rcl_handles (s : ClientWaitSet) (k : Kind) : list (option N) :=
  match rcl_wait_set_ s with Some w => handles (slots w k) | None => [] end.

(** The first place from [i] on that is below [n] and not null; reading
    beyond the end of the array is undefined. *)
Fixpoint first_ready (fuel : nat) (i n : nat) (l : list (option N)) : Result executor_error (option nat) :=
  match fuel with
  | O => Ok None
  | S fuel =>
    if (i <? n)%nat then
      match l !! i with
      | None => Throw Undefined
      | Some (Some _) => Ok (Some i)
      | Some None => first_ready fuel (S i) n l
      end
    else Ok None
  end.

Definition shared_at (s : ClientWaitSet) (k : EntityKind) (i : nat) : option N := mjoin (shared_ s k !! i).

Definition peek_next_ready_timer (start_index : nat) : L (option N * nat) :=
  check_wait_result_dirty;;
  '(_, r) ← get;
  if bool_decide (wait_result_kind_ r = Ready) then
    s ← get_wait_set;
    let n := length (shared_ s Timers) in
    found ← lift (first_ready (n - start_index) start_index n (rcl_handles s TIMER));
    match found with
    | Some ii => mret (shared_at s Timers ii, ii)
    | None => mret (None, Nat.max start_index n)
    end
  else mret (None, start_index).

(** [rcl_wait_set.timers[index] = nullptr] and the like. *)
Definition clear_handle (k : Kind) (i : nat) : L unit :=
  modify (fun '((w, s), r) =>
    ((w, set_rcl ((fun x => set_slots x k (set_handles (slots x k) (<[i := None]> (handles (slots x k))))) <$> rcl_wait_set_ s) s), r)).

Definition clear_timer_with_index (index : nat) : L unit :=
  s ← get_wait_set;
  if negb (index <? length (shared_ s Timers))%nat then throw TimerIndexOutOfRange else
  if negb (index <? length (rcl_handles s TIMER))%nat then throw Undefined else
  clear_handle TIMER index.

(** [next_ready_subscription] and its companions, [ek] the rcl type of [k]. *)
Definition next_ready (k : EntityKind) (ek : Kind) : L (option N) :=
  check_wait_result_dirty;;
  '(_, r) ← get;
  if bool_decide (wait_result_kind_ r = Ready) then
    s ← get_wait_set;
    let n := length (shared_ s k) in
    found ← lift (first_ready n 0 n (rcl_handles s ek));
    match found with
    | Some ii => clear_handle ek ii;; mret (shared_at s k ii)
    | None => mret None
    end
  else mret None.

(** The waitables from the next one on; the index moves past those that were
    looked at. *)
Fixpoint next_waitable (o : Outside) (rcl : rcl_wait_set_t) (i : nat) (l : list (option N)) : option N * nat :=
  match l with
  | [] => (None, i)
  | Some e :: l => if waitable_is_ready (waitable_of o e) rcl then (Some e, S i) else next_waitable o rcl (S i) l
  | None :: l => next_waitable o rcl (S i) l
  end.

Definition next_ready_waitable (o : Outside) : L (option N) :=
  check_wait_result_dirty;;
  '(_, r) ← get;
  if bool_decide (wait_result_kind_ r = Ready) then
    s ← get_wait_set;
    let '(found, i) := next_waitable o (rcl_wait_set_ s) (next_waitable_index_ r) (drop (next_waitable_index_ r) (shared_ s Waitables)) in
    modify (fun st => (st.1, mkWaitResult (wait_result_kind_ st.2) (has_wait_set st.2) i));;
    mret found
  else mret None.

(** ** A new wait set, with nothing in it

    The flags are those of [rcl_wait_set_init]. *)
Definition new_wait_set (o : Outside) (valid created destroyed fits : bool) : Result executor_error ClientWaitSet :=
  match rcl_wait_set_init (allocator o) valid created destroyed fits rcl_get_zero_initialized_wait_set 0 0 0 0 0 0 with
  | (RCL_RET_OK, rcl) =>
    match rcl_wait_set_clear rcl with
    | (RCL_RET_OK, rcl) => Ok (mkClientWaitSet (fun _ => []) (fun _ => []) 0 false false rcl false false)
    | (ret, _) => Throw (RclFailed ret)
    end
  | (ret, _) => Throw (RclFailed ret)
  end.
