(* ===== verification/Executor.v ===== *)
(** * Executors

    [rclcpp/src/rclcpp/executor.cpp], [executors/executor_entities_collection.cpp]
    with its header, [executors/single_threaded_executor.cpp],
    [executors/static_single_threaded_executor.cpp] and [any_executable.cpp]: what an
    executor waits for, what it takes next, and how it spins.

    What a callback does to the executor and the world is an argument; so is
    what is around each wait ([Outside]), and the order in which a
    [std::unordered_map] is walked ([WalkOrder]). *)

From Stdlib Require Import ZArith Lia.
From stdpp Require Import base numbers list gmap.
From S2P Require Import Prelude Computation OrderedMap RclTypes Timer WaitSet CallbackGroups EntitiesCollector ExecutorWaitSet.
#[local] Open Scope Z_scope.

(** The order of an [unordered_map] is some order. *)
Class WalkOrder := {
  walk {A} (m : gmap N A) : list (N * A);
  walk_perm {A} (m : gmap N A) : walk m ≡ₚ map_to_list m;
}.

(** ** State *)

(** [entry_group]: the weak pointer to the group, if it is not empty. *)
Record CollectionEntry := mkEntry { entry_entity : N; entry_group : option N }.

Definition EntityCollection : Type := gmap N CollectionEntry.
Definition ExecutorEntitiesCollection : Type := EntityKind -> EntityCollection.

(** [first_notify_waitable]: the address of [notify_waitable_], whose state
    is in the collector; [current_notify_waitable_]: the copy, with its
    address. *)
Record Executor := mkExecutor {
  world : World;
  collector_ : ExecutorEntitiesCollector;
  wait_set_ : ClientWaitSet;
  wait_result_ : option WaitResult;
  current_collection_ : ExecutorEntitiesCollection;
  spinning : bool;
  entities_need_rebuild_ : bool;
  first_notify_waitable : N;
  current_notify_waitable_ : N * ExecutorNotifyWaitable;
}.

Definition set_managed (st : Managed) (e : Executor) : Executor :=
  mkExecutor st.1 st.2 (wait_set_ e) (wait_result_ e) (current_collection_ e) (spinning e) (entities_need_rebuild_ e)
    (first_notify_waitable e) (current_notify_waitable_ e).
Definition set_waiting (st : Waiting) (e : Executor) : Executor :=
  mkExecutor st.1 (collector_ e) st.2 (wait_result_ e) (current_collection_ e) (spinning e) (entities_need_rebuild_ e)
    (first_notify_waitable e) (current_notify_waitable_ e).
Definition set_result (r : option WaitResult) (e : Executor) : Executor :=
  mkExecutor (world e) (collector_ e) (wait_set_ e) r (current_collection_ e) (spinning e) (entities_need_rebuild_ e)
    (first_notify_waitable e) (current_notify_waitable_ e).
Definition set_entry_map (c : ExecutorEntitiesCollection) (e : Executor) : Executor :=
  mkExecutor (world e) (collector_ e) (wait_set_ e) (wait_result_ e) c (spinning e) (entities_need_rebuild_ e)
    (first_notify_waitable e) (current_notify_waitable_ e).
Definition set_spinning (b : bool) (e : Executor) : Executor :=
  mkExecutor (world e) (collector_ e) (wait_set_ e) (wait_result_ e) (current_collection_ e) b (entities_need_rebuild_ e)
    (first_notify_waitable e) (current_notify_waitable_ e).
Definition set_need_rebuild (b : bool) (e : Executor) : Executor :=
  mkExecutor (world e) (collector_ e) (wait_set_ e) (wait_result_ e) (current_collection_ e) (spinning e) b
    (first_notify_waitable e) (current_notify_waitable_ e).
Definition set_current_notify (x : N * ExecutorNotifyWaitable) (e : Executor) : Executor :=
  mkExecutor (world e) (collector_ e) (wait_set_ e) (wait_result_ e) (current_collection_ e) (spinning e)
    (entities_need_rebuild_ e) (first_notify_waitable e) x.
Definition set_world (w : World) (e : Executor) : Executor := set_managed (w, collector_ e) e.

Notation X := (ST Executor executor_error).

(** The methods of the parts, on the executor. *)
Definition on_managed {A} (m : ST Managed executor_error A) : X A := fun e =>
  let '(r, st) := m (world e, collector_ e) in (r, set_managed st e).
Definition on_waiting {A} (m : ST Waiting executor_error A) : X A := fun e =>
  let '(r, st) := m (world e, wait_set_ e) in (r, set_waiting st e).
Definition on_result {A} (r : WaitResult) (m : ST Looking executor_error A) : X A := fun e =>
  let '(x, (st, r)) := m ((world e, wait_set_ e), r) in (x, set_result (Some r) (set_waiting st e)).

(** [wait_result_.reset()]. *)
Definition reset_wait_result : X unit :=
  e ← get;
  match wait_result_ e with
  | Some r => on_waiting (destroy_wait_result r);; modify (set_result None)
  | None => mret tt
  end.

(** ** The notify waitable in a wait set *)

Definition notify_as_waitable (o : Outside) (w : World) (t : ExecutorNotifyWaitable) : Waitable := {|
  number_of_ready k := match k with GUARD_CONDITION => get_number_of_ready_guard_conditions t | _ => 0%nat end;
  add_to_wait_set rcl :=
    fold_left (fun r gc =>
      let! rcl := r in
      match rcl_wait_set_add GUARD_CONDITION (rmw_handles o GUARD_CONDITION) rcl (Some gc) with
      | (RCL_RET_OK, _, rcl) => Ok rcl
      | (ret, _, _) => Throw ret
      end) (guards_to_wait_for w t) (Ok rcl);
  waitable_is_ready rcl := notify_is_ready w t (match rcl with Some x => handles (guard_conditions x) | None => [] end);
|}.

(** The waitables as the executor's wait set sees them. *)
Definition with_notify (e : Executor) (o : Outside) : Outside :=
  mkOutside (allocator o) (rmw_handles o) (clock_of_timer o) (guard_of_timer o) (type_of_clock o) (ros_override o)
    (clock_readings o) (middleware o) (steady_start o) (steady_now o)
    (fun x => if bool_decide (x = (current_notify_waitable_ e).1) then notify_as_waitable o (world e) (current_notify_waitable_ e).2
              else if bool_decide (x = first_notify_waitable e) then notify_as_waitable o (world e) (notify_waitable_ (collector_ e))
              else waitable_of o x).

(** ** Collections *)

Definition collection_kinds : list EntityKind := [Subscriptions; Timers; GuardConditions; Clients; Services; Waitables].

Definition no_entities : ExecutorEntitiesCollection := fun _ => ∅.

Definition collection_empty (c : ExecutorEntitiesCollection) : bool :=
  forallb (fun k => bool_decide (c k = ∅)) collection_kinds.

(** The collection and the number of entities that were removed. *)
Definition remove_expired_entities (w : World) (c : ExecutorEntitiesCollection) : ExecutorEntitiesCollection * nat :=
  (fun k => base.filter (fun kv : N * CollectionEntry => alive w (entry_entity kv.2) = true) (c k),
   sum_list (map (fun k => base.size (base.filter (fun kv : N * CollectionEntry => alive w (entry_entity kv.2) = false) (c k)))
     collection_kinds)).

(** Waitables are filed under their own address. *)
Definition key_of (w : World) (k : EntityKind) (e : N) : N := match k with Waitables => e | _ => handle_of w e end.

(** [insert]: an entry that is there stays. *)
Definition insert_new (key : N) (x : CollectionEntry) (m : EntityCollection) : EntityCollection :=
  match m !! key with Some _ => m | None => <[key := x]> m end.

Definition add_to_collection (k : EntityKind) (key : N) (x : CollectionEntry) (c : ExecutorEntitiesCollection)
    : ExecutorEntitiesCollection :=
  fun k' => if bool_decide (k' = k) then insert_new key x (c k) else c k'.

Definition build_entities_collection (w : World) (callback_groups : list N) : ExecutorEntitiesCollection :=
  fold_left (fun c g =>
    match groups w !! g with
    | None => c
    | Some x =>
      if can_be_taken_from_ x
      then fold_left (fun c '(k, e) => add_to_collection k (key_of w k e) (mkEntry e (Some g)) c) (collect_all_ptrs w x) c
      else c
    end) callback_groups no_entities.

(** ** Updating the wait set *)

Section Updating.
Context `{WalkOrder}.

(** The two loops of [update_entities]; the maps do not change under the
    iterators that are still used. *)
Definition remove_gone (k : EntityKind) (from : EntityCollection) : X unit :=
  e ← get;
  for_each (fun '(key, entry) =>
    match from !! key with
    | Some _ => mret tt
    | None =>
      e ← get;
      (if alive (world e) (entry_entity entry) then on_waiting (remove_from_set k (entry_entity entry)) else mret tt);;
      modify (fun e => set_entry_map (fun k' => if bool_decide (k' = k) then delete key (current_collection_ e k)
                                                 else current_collection_ e k') e)
    end) (walk (current_collection_ e k)).

Definition add_new (k : EntityKind) (from : EntityCollection) : X unit :=
  for_each (fun '(key, entry) =>
    e ← get;
    match current_collection_ e k !! key with
    | Some _ => mret tt
    | None =>
      (if alive (world e) (entry_entity entry) then on_waiting (add_to_set k (entry_entity entry)) else mret tt);;
      modify (fun e => set_entry_map (add_to_collection k key entry (current_collection_ e)) e)
    end) (walk from).

Definition update_entities (k : EntityKind) (from : EntityCollection) : X unit := remove_gone k from;; add_new k from.

Definition update_order : list EntityKind := [Timers; Subscriptions; Clients; Services; GuardConditions; Waitables].

(** The copy of the notify waitable takes the place of the last one, which is
    gone with its last pointer unless the wait set holds it, and that it does
    not without a result. *)
Definition replace_notify (address : N) (e : Executor) : Executor :=
  let t := copy_notify_waitable (notify_waitable_ (collector_ e)) in
  let old := (current_notify_waitable_ e).1 in
  let es := if bool_decide (old = first_notify_waitable e) then entities (world e) else delete old (entities (world e)) in
  set_current_notify (address, t) (set_world (set_entities (world e) (<[address := mkEntity address false]> es)) e).

Definition collect_entities (address : N) : X unit :=
  reset_wait_result;;
  on_managed update_collections;;
  e ← get;
  let collection := build_entities_collection (world e) (get_all_callback_groups (collector_ e)) in
  modify (replace_notify address);;
  let collection := add_to_collection Waitables address (mkEntry address None) collection in
  modify (fun e => set_entry_map (remove_expired_entities (world e) (current_collection_ e)).1 e);;
  for_each (fun k => update_entities k (collection k)) update_order;;
  on_waiting prune_deleted_entities.

(** ** Waiting for work *)

(** [address]: of the copy of the notify waitable, if one is made. *)
Definition wait_for_work (address : N) (o : Outside) (timeout : Z) : X unit :=
  reset_wait_result;;
  e ← get;
  modify (set_need_rebuild false);;
  (if entities_need_rebuild_ e || collection_empty (current_collection_ e) then collect_entities address else mret tt);;
  e ← get;
  r ← on_waiting (wait (with_notify e o) timeout);
  modify (set_result (Some r));;
  e ← get;
  if bool_decide (wait_result_kind_ r = Ready) &&
     waitable_is_ready (notify_as_waitable o (world e) (current_notify_waitable_ e).2) (rcl_wait_set_ (wait_set_ e))
  then modify (set_need_rebuild true)
  else mret tt.
End Updating.

(** ** The next thing to execute *)

(** [any_executable]: the one pointer that is not null.  [data]: what the call
    of the timer said. *)
Record AnyExecutable := mkAny {
  any_executable : option (EntityKind * N);
  any_group : option N;
  any_data : option rcl_timer_call_info_t;
}.

Definition no_executable : AnyExecutable := mkAny None None None.

(** The group of the entry that is filed under the key, if there is one, it
    lives and may be taken from. *)
Definition takeable_group (e : Executor) (k : EntityKind) (key : N) : option N :=
  match current_collection_ e k !! key with
  | Some entry =>
    match entry_group entry with
    | Some g =>
      match groups (world e) !! g with
      | Some x => if can_be_taken_from_ x then Some g else None
      | None => None
      end
    | None => None
    end
  | None => None
  end.

(** [wait_result_->...]. *)
Definition with_result {A} (m : ST Looking executor_error A) : X A :=
  e ← get;
  match wait_result_ e with Some r => on_result r m | None => throw Undefined end.

(** [TimerBase::call]: [None] for a timer that is canceled. *)
Definition timer_call (handle : N) (now : Now) : X (option rcl_timer_call_info_t) :=
  e ← get;
  let '(ret, info, t, _) := rcl_timer_call_with_info (timer_handles (world e) !! handle) now in
  modify (fun e => set_world (set_timer_handles (world e) (match t with
    | Some x => <[handle := x]> (timer_handles (world e))
    | None => timer_handles (world e)
    end)) e);;
  match ret with
  | RCL_RET_TIMER_CANCELED => mret None
  | RCL_RET_OK => mret info
  | _ => throw TimerCallFailed
  end.

(** [now_at]: the time at which the call of a timer looks at its clock. *)
Fixpoint next_timer (now_at : N -> Now) (fuel current_timer_index : nat) : X (option AnyExecutable) :=
  match fuel with
  | O => throw Unfinished
  | S fuel =>
    '(timer, timer_index) ← with_result (peek_next_ready_timer current_timer_index);
    match timer with
    | None => mret None
    | Some t =>
      e ← get;
      let handle := handle_of (world e) t in
      match takeable_group e Timers handle with
      | None => next_timer now_at fuel (S timer_index)
      | Some g =>
        with_result (clear_timer_with_index timer_index);;
        data ← timer_call handle (now_at handle);
        match data with
        | None => next_timer now_at fuel (S timer_index)
        | Some info => mret (Some (mkAny (Some (Timers, t)) (Some g) (Some info)))
        end
      end
    end
  end.

(** The loops for subscriptions, services, clients and waitables. *)
Fixpoint next_of_kind (k : EntityKind) (next : ST Looking executor_error (option N)) (fuel : nat) : X (option AnyExecutable) :=
  match fuel with
  | O => throw Unfinished
  | S fuel =>
    x ← with_result next;
    match x with
    | None => mret None
    | Some x =>
      e ← get;
      match takeable_group e k (key_of (world e) k x) with
      | None => next_of_kind k next fuel
      | Some g => mret (Some (mkAny (Some (k, x)) (Some g) None))
      end
    end
  end.

Definition or_else (m m' : X (option AnyExecutable)) : X (option AnyExecutable) :=
  x ← m;
  match x with Some _ => mret x | None => m' end.

(** A mutually exclusive group is closed while its executable is out. *)
Definition close_group (g : N) : X unit :=
  modify (fun e => set_world (on_group (fun x =>
    match type_ x with MutuallyExclusive => set_taken_from x false | Reentrant => x end) g (world e)) e).

(** Enough for each loop: one pass for each entity that is locked, and one to
    find none. *)
Definition passes (e : Executor) (k : EntityKind) : nat := S (length (shared_ (wait_set_ e) k)).

(** [None]: false is returned. *)
Definition get_next_ready_executable (o : Outside) (now_at : N -> Now) : X (option AnyExecutable) :=
  e ← get;
  match wait_result_ e with
  | None => mret None
  | Some r =>
    if negb (bool_decide (wait_result_kind_ r = Ready)) then mret None else
    x ← or_else (next_timer now_at (passes e Timers) 0)
       (or_else (next_of_kind Subscriptions (next_ready Subscriptions SUBSCRIPTION) (passes e Subscriptions))
       (or_else (next_of_kind Services (next_ready Services SERVICE) (passes e Services))
       (or_else (next_of_kind Clients (next_ready Clients CLIENT) (passes e Clients))
          (e ← get; next_of_kind Waitables (next_ready_waitable (with_notify e o)) (passes e Waitables)))));
    match x with
    | Some a => (match any_group a with Some g => close_group g | None => mret tt end);; mret (Some a)
    | None => mret None
    end
  end.

(** [CallbackGroup::can_be_taken_from().store(true)]. *)
Definition open_group (g : N) : X unit :=
  modify (fun e => set_world (on_group (fun x => set_taken_from x true) g (world e)) e).

(** [~AnyExecutable]. *)
Definition destroy_executable (a : AnyExecutable) : X unit :=
  match any_group a with Some g => open_group g | None => mret tt end.

(** ** Spinning

    [callback]: what the callback of an executable does; it may throw. *)

Section Spinning.
Context `{WalkOrder} (callback : AnyExecutable -> X unit).

(** What a pass of a loop finds outside: [rclcpp::ok], whether the time that
    was given is left, what is around a wait, the clocks of the timers that
    are called, and the address of a new object. *)
Record Turn := mkTurn {
  context_ok : bool;
  in_time : bool;
  around : Outside;
  timer_now : N -> Now;
  new_address : N;
}.

Definition get_next_executable (t : Turn) (timeout : Z) : X (option AnyExecutable) :=
  x ← get_next_ready_executable (around t) (timer_now t);
  match x with
  | Some a => mret (Some a)
  | None =>
    wait_for_work (new_address t) (around t) timeout;;
    e ← get;
    if negb (spinning e) then mret None else get_next_ready_executable (around t) (timer_now t)
  end.

(** [execute_any_executable]; there is no code for an executable without a
    group. *)
Definition execute_any_executable (a : AnyExecutable) : X unit :=
  e ← get;
  if negb (spinning e) then mret tt else
  match any_group a with
  | None => throw Undefined
  | Some g => callback a;; open_group g
  end.

(** To the end of its scope, where the executable is destroyed. *)
Definition execute_and_destroy (a : AnyExecutable) : X unit :=
  finally (execute_any_executable a) (fun e => (destroy_executable a e).2).

(** [spinning.exchange(true)] and the scope exit. *)
Definition while_spinning {A} (m : X A) : X A :=
  e ← get;
  modify (set_spinning true);;
  if spinning e then throw AlreadySpinning else finally m (set_spinning false).

Definition spin_once_impl (t : Turn) (timeout : Z) : X unit :=
  x ← get_next_executable t timeout;
  match x with Some a => execute_and_destroy a | None => mret tt end.

Definition spin_once (t : Turn) (timeout : Z) : X unit := while_spinning (spin_once_impl t timeout).

(** The loop of [spin_some_impl]; [i]: the passes before. *)
Fixpoint spin_some_loop (turn : nat -> Turn) (exhaustive : bool) (fuel i : nat) (just_waited : bool) : X unit :=
  match fuel with
  | O => throw Unfinished
  | S fuel =>
    e ← get;
    let t := turn i in
    if context_ok t && spinning e && in_time t then
      x ← get_next_ready_executable (around t) (timer_now t);
      match x with
      | Some a => execute_and_destroy a;; spin_some_loop turn exhaustive fuel (S i) false
      | None =>
        reset_wait_result;;
        if just_waited then mret tt else
        if exhaustive then
          wait_for_work (new_address t) (around t) 0;;
          spin_some_loop turn exhaustive fuel (S i) true
        else mret tt
      end
    else mret tt
  end.

Definition spin_some_impl (turn : nat -> Turn) (first : Turn) (exhaustive : bool) (fuel : nat) : X unit :=
  while_spinning (
    reset_wait_result;;
    wait_for_work (new_address first) (around first) 0;;
    spin_some_loop turn exhaustive fuel 0 true).

(** Whether [max_duration_not_elapsed]; zero is without limit. *)
Definition max_duration_not_elapsed (max_duration start now : Z) : bool := (max_duration =? 0) || (now - start <? max_duration).

Definition spin_some (turn : nat -> Turn) (first : Turn) (fuel : nat) : X unit := spin_some_impl turn first false fuel.

Definition spin_all (turn : nat -> Turn) (first : Turn) (max_duration : Z) (fuel : nat) : X unit :=
  if max_duration <? 0 then throw NegativeDuration else spin_some_impl turn first true fuel.

(** [SingleThreadedExecutor::spin]. *)
Fixpoint spin_loop (turn : nat -> Turn) (fuel i : nat) : X unit :=
  match fuel with
  | O => throw Unfinished
  | S fuel =>
    e ← get;
    let t := turn i in
    if context_ok t && spinning e then
      x ← get_next_executable t (-1);
      (match x with Some a => execute_and_destroy a | None => mret tt end);;
      spin_loop turn fuel (S i)
    else mret tt
  end.

Definition spin (turn : nat -> Turn) (fuel : nat) : X unit :=
  while_spinning (reset_wait_result;; modify (set_need_rebuild true);; spin_loop turn fuel 0).

(** [spin_until_future_complete_impl].  [ready]: whether the future is, at
    the start and after each pass; [now]: the steady clock then. *)
Inductive FutureReturnCode := SUCCESS | INTERRUPTED | TIMEOUT.

Fixpoint spin_until_loop (turn : nat -> Turn) (ready : nat -> bool) (now : nat -> Z) (timeout end_time : Z) (fuel i : nat)
    (timeout_left : Z) : X FutureReturnCode :=
  match fuel with
  | O => throw Unfinished
  | S fuel =>
    e ← get;
    let t := turn i in
    if context_ok t && spinning e then
      spin_once_impl t timeout_left;;
      if ready (S i) then mret SUCCESS else
      if timeout <? 0 then spin_until_loop turn ready now timeout end_time fuel (S i) timeout_left else
      if end_time <=? now (S i) then mret TIMEOUT else
      spin_until_loop turn ready now timeout end_time fuel (S i) (end_time - now (S i))
    else mret INTERRUPTED
  end.

Definition spin_until_future_complete_impl (turn : nat -> Turn) (ready : nat -> bool) (now : nat -> Z) (timeout : Z) (fuel : nat)
    : X FutureReturnCode :=
  if ready 0%nat then mret SUCCESS else
  let end_time := if 0 <? timeout then now 0%nat + timeout else now 0%nat in
  while_spinning (spin_until_loop turn ready now timeout end_time fuel 0 timeout).

Definition cancel : X unit := modify (set_spinning false).

(** ** [StaticSingleThreadedExecutor]

    The result of the wait is a local variable of the source; here it is kept
    where executors keep theirs, and goes with the end of its scope. *)

Definition collect_and_wait (t : Turn) (timeout : Z) : X bool :=
  e ← get;
  modify (set_need_rebuild false);;
  (if entities_need_rebuild_ e || collection_empty (current_collection_ e) then collect_entities (new_address t) else mret tt);;
  e ← get;
  r ← on_waiting (wait (with_notify e (around t)) timeout);
  if bool_decide (wait_result_kind_ r = Empty) then mret false else
  modify (set_result (Some r));;
  e ← get;
  (if bool_decide (wait_result_kind_ r = Ready) &&
      waitable_is_ready (notify_as_waitable (around t) (world e) (current_notify_waitable_ e).2) (rcl_wait_set_ (wait_set_ e))
   then modify (set_need_rebuild true) else mret tt);;
  mret true.

(** The loops of [execute_ready_executables]: whether something was executed,
    and whether the function returned. *)
Fixpoint static_of_kind (k : EntityKind) (next : ST Looking executor_error (option N)) (once : bool) (fuel : nat) (any : bool)
    : X (bool * bool) :=
  match fuel with
  | O => throw Unfinished
  | S fuel =>
    x ← with_result next;
    match x with
    | None => mret (any, false)
    | Some x =>
      e ← get;
      match current_collection_ e k !! key_of (world e) k x with
      | None => static_of_kind k next once fuel any
      | Some _ =>
        callback (mkAny (Some (k, x)) None None);;
        if once then mret (true, true) else static_of_kind k next once fuel true
      end
    end
  end.

(** A timer that is not in the collection is looked at again, and so is a
    canceled one, whose handle is null by then. *)
Fixpoint static_timers (now_at : N -> Now) (once : bool) (fuel current_timer_index : nat) (any : bool) : X (bool * bool) :=
  match fuel with
  | O => throw Unfinished
  | S fuel =>
    '(timer, timer_index) ← with_result (peek_next_ready_timer current_timer_index);
    match timer with
    | None => mret (any, false)
    | Some t =>
      e ← get;
      let handle := handle_of (world e) t in
      match current_collection_ e Timers !! handle with
      | None => static_timers now_at once fuel timer_index any
      | Some _ =>
        with_result (clear_timer_with_index timer_index);;
        data ← timer_call handle (now_at handle);
        match data with
        | None => static_timers now_at once fuel timer_index any
        | Some info =>
          callback (mkAny (Some (Timers, t)) None (Some info));;
          if once then mret (true, true) else static_timers now_at once fuel timer_index true
        end
      end
    end
  end.

Definition and_unless (m : X (bool * bool)) (k : bool -> X (bool * bool)) : X (bool * bool) :=
  '(any, stop) ← m; if (stop : bool) then mret (any, true) else k any.

Definition any_executed (m : X (bool * bool)) : X bool :=
  '(any, stop) ← m; mret (any : bool).

Definition static_waitables (t : Turn) (once : bool) (fuel : nat) (any : bool) : X (bool * bool) :=
  e ← get; static_of_kind Waitables (next_ready_waitable (with_notify e (around t))) once fuel any.

Definition execute_ready_executables (t : Turn) (once : bool) (fuel : nat) : X bool :=
  e ← get;
  match wait_result_ e with
  | Some r =>
    if negb (bool_decide (wait_result_kind_ r = Ready)) then mret false else
    any_executed (
      and_unless (static_of_kind Subscriptions (next_ready Subscriptions SUBSCRIPTION) once fuel false) (fun any : bool =>
      and_unless (static_timers (timer_now t) once fuel 0 any) (fun any : bool =>
      and_unless (static_of_kind Clients (next_ready Clients CLIENT) once fuel any) (fun any : bool =>
      and_unless (static_of_kind Services (next_ready Services SERVICE) once fuel any) (fun any : bool =>
      static_waitables t once fuel any)))))
  | None => mret false
  end.

(** What was executed, if there was a result. *)
Definition static_pass (t : Turn) (timeout : Z) (once : bool) (fuel : nat) : X (option bool) :=
  b ← collect_and_wait t timeout;
  if (b : bool) then work_available ← execute_ready_executables t once fuel; mret (Some (work_available : bool)) else mret None.

(** The local variable, destroyed also when something throws. *)
Definition local_result {A} (m : X A) : X A := fun e => let '(r, e1) := m e in (r, (reset_wait_result e1).2).

(** [spin_once_impl], one pass of [spin]; [context_ok] is tested again. *)
Definition static_spin_once_impl (t : Turn) (timeout : Z) (fuel : nat) : X unit :=
  e ← get;
  if context_ok t && spinning e then local_result (static_pass t timeout true fuel);; mret tt else mret tt.

Fixpoint static_spin_loop (turn : nat -> Turn) (fuel passes i : nat) : X unit :=
  match passes with
  | O => throw Unfinished
  | S passes =>
    e ← get;
    if context_ok (turn i) && spinning e
    then static_spin_once_impl (turn i) (-1) fuel;; static_spin_loop turn fuel passes (S i)
    else mret tt
  end.

Definition static_spin (turn : nat -> Turn) (fuel passes : nat) : X unit := while_spinning (static_spin_loop turn fuel passes 0).

Fixpoint static_spin_some_loop (turn : nat -> Turn) (exhaustive : bool) (fuel passes i : nat) : X unit :=
  match passes with
  | O => throw Unfinished
  | S passes =>
    e ← get;
    let t := turn i in
    if context_ok t && spinning e && in_time t then
      b ← local_result (static_pass t 0 false fuel);
      match b with
      | Some work_available =>
        if negb work_available || negb exhaustive then mret tt else static_spin_some_loop turn exhaustive fuel passes (S i)
      | None => static_spin_some_loop turn exhaustive fuel passes (S i)
      end
    else mret tt
  end.

Definition static_spin_some_impl (turn : nat -> Turn) (exhaustive : bool) (fuel passes : nat) : X unit :=
  while_spinning (static_spin_some_loop turn exhaustive fuel passes 0).

(** ** Nodes and groups *)

Definition trigger_entity_recollect (address : N) : X unit :=
  modify (set_need_rebuild true);;
  e ← get;
  if negb (spinning e) then modify (set_need_rebuild false);; collect_entities address else mret tt.

(** The methods with which nodes and groups are added and removed. *)
Definition and_recollect (m : ST Managed executor_error unit) (address : N) : X unit :=
  on_managed m;; trigger_entity_recollect address.

Definition executor_add_node (n : N) (address : N) : X unit := and_recollect (add_node n) address.
Definition executor_remove_node (n : N) (address : N) : X unit := and_recollect (remove_node n) address.
Definition executor_add_callback_group (g : N) (address : N) : X unit := and_recollect (add_callback_group g) address.
Definition executor_remove_callback_group (g : N) (address : N) : X unit := and_recollect (remove_callback_group g) address.

Definition executor_get_all_callback_groups : X (list N) :=
  on_managed update_collections;; e ← get; mret (get_all_callback_groups (collector_ e)).

(** [spin_node_some] and [spin_node_all], [spin_node_once_nanoseconds]: the
    node is with the executor only while it spins. *)
Definition spin_node (n : N) (a1 a2 : N) (m : X unit) : X unit :=
  executor_add_node n a1;; m;; executor_remove_node n a2.
End Spinning.

(** ** [ready_executables]

    A timer whose call throws ends the function. *)

Section ReadyExecutables.
Context `{WalkOrder}.

(** The entity and the group of the entry under a key, if both live and the
    group may be taken from. *)
Definition ready_entry (e : Executor) (k : EntityKind) (key : N) : option (N * N) :=
  match current_collection_ e k !! key with
  | Some entry =>
    if alive (world e) (entry_entity entry) then pair (entry_entity entry) <$> takeable_group e k key else None
  | None => None
  end.

Fixpoint ready_timer_executables (now_at : N -> Now) (l : list (option N)) : X (list AnyExecutable) :=
  match l with
  | [] => mret []
  | None :: l => ready_timer_executables now_at l
  | Some h :: l =>
    e ← get;
    match ready_entry e Timers h with
    | None => ready_timer_executables now_at l
    | Some (x, g) =>
      data ← timer_call (handle_of (world e) x) (now_at (handle_of (world e) x));
      match data with
      | None => ready_timer_executables now_at l
      | Some _ => rest ← ready_timer_executables now_at l; mret (mkAny (Some (Timers, x)) (Some g) None :: rest)
      end
    end
  end.

Definition ready_kind_executables (e : Executor) (k : EntityKind) (l : list (option N)) : list AnyExecutable :=
  omap (fun h => '(x, g) ← h ≫= ready_entry e k; Some (mkAny (Some (k, x)) (Some g) None)) l.

Definition ready_waitable_executables (e : Executor) (o : Outside) : list AnyExecutable :=
  omap (fun '(key, entry) =>
    if alive (world e) (entry_entity entry) &&
       waitable_is_ready (waitable_of (with_notify e o) (entry_entity entry)) (rcl_wait_set_ (wait_set_ e))
    then (fun g => mkAny (Some (Waitables, entry_entity entry)) (Some g) None) <$> takeable_group e Waitables key
    else None) (walk (current_collection_ e Waitables)).

(** The executables that are added to the queue. *)
Definition ready_executables (o : Outside) (now_at : N -> Now) : X (list AnyExecutable) :=
  e ← get;
  match wait_result_ e with
  | Some r =>
    if negb (bool_decide (wait_result_kind_ r = Ready)) then mret [] else
    let s := wait_set_ e in
    timers ← ready_timer_executables now_at (rcl_handles s TIMER);
    e ← get;
    mret (timers ++ ready_kind_executables e Subscriptions (rcl_handles s SUBSCRIPTION) ++
      ready_kind_executables e Services (rcl_handles s SERVICE) ++
      ready_kind_executables e Clients (rcl_handles s CLIENT) ++ ready_waitable_executables e o)
  | None => mret []
  end.

(** ** The executor's own beginning and end

    [first]: the address of the notify waitable; [interrupt], [shutdown]: the
    two guard conditions.  The end is that of [~Executor] and of the members
    that do something when they are destroyed. *)
Definition new_executor (w : World) (s : ClientWaitSet) (first interrupt shutdown : N) : Result executor_error Executor :=
  let w := set_entities (set_guards w ({[interrupt; shutdown]} ∪ guards w) (guard_callbacks w))
             (<[first := mkEntity first false]> (entities w)) in
  let '(t, w) := add_guard_condition (Some interrupt) (mkNotify ∅ false) w in
  let '(t, w) := add_guard_condition (Some shutdown) t w in
  let '(r, (w, s)) := add_to_set Waitables first (w, s) in
  let! _ := r in
  Ok (mkExecutor w (new_collector t) s None no_entities false true first (first, t)).

Definition destroy_executor (interrupt shutdown : N) : X unit :=
  on_managed (notify_remove (Some interrupt));;
  on_managed (notify_remove (Some shutdown));;
  for_each (fun k => update_entities k ∅) update_order;;
  reset_wait_result;;
  on_managed destroy_collector.
End ReadyExecutables.
