(* ===== verification/ExecutorExample.v ===== *)
(** * An executor, for the witnesses

    One node with a mutually exclusive group, of a timer, which is due, and a
    subscription; the middleware reports the first subscription. *)

From Stdlib Require Import ZArith Lia.
From stdpp Require Import base numbers list gmap.
From S2P Require Import Prelude Computation RclTypes Timer WaitSet CallbackGroups EntitiesCollector ExecutorWaitSet Executor.
#[local] Open Scope Z_scope.

#[export] Instance listed : WalkOrder := {| walk _ m := map_to_list m; walk_perm _ m := reflexivity _ |}.

Definition due_timer : rcl_timer_impl_t := mkTimer true true 10 0 500 0 false false 0.

Definition full_group : CallbackGroup :=
  set_ptrs (new_callback_group MutuallyExclusive true 100)
    (fun k => match k with Timers => [20%N] | Subscriptions => [21%N] | _ => [] end).

Definition one_node : World :=
  mkWorld {[10%N := full_group]} {[1%N := mkNode [10%N] false 102]} {[20%N := mkEntity 30 false; 21%N := mkEntity 31 false]}
    ∅ ∅ {[30%N := due_timer]} true.

Definition no_waitable : Waitable := mkWaitable (fun _ => 0%nat) (fun rcl => Ok rcl) (fun _ => false).

Definition quiet_surroundings : Outside := {|
  allocator := mkAllocator (fun _ => true) (fun _ => true);
  rmw_handles _ h := Some h;
  clock_of_timer _ := 0%N;
  guard_of_timer h := Some (Some (1000 + h)%N);
  type_of_clock _ := RCL_STEADY_TIME;
  ros_override _ := false;
  clock_readings := mkReadings (fun _ => Ok 1000) (fun _ => Ok 1000) (fun _ => Ok 1000);
  middleware := fun _ => (RMW_RET_OK, fun k i => match k, i with SUBSCRIPTION, O => true | _, _ => false end);
  steady_start := 0;
  steady_now := 0;
  waitable_of _ := no_waitable;
|}.

Definition quiet_turn (address : N) : Turn := mkTurn true true quiet_surroundings (fun _ => Ok 1000) address.

Definition nobody : Executor :=
  mkExecutor one_node (new_collector (mkNotify ∅ false)) (mkClientWaitSet (fun _ => []) (fun _ => []) 0 false false None false false)
    None no_entities false true 0 (0%N, mkNotify ∅ false).

(** The executor, with the node; and after a wait. *)
Definition some_executor : Executor :=
  match new_wait_set quiet_surroundings true true true true with
  | Ok s =>
    match new_executor one_node s 300 200 201 with
    | Ok e => (executor_add_node 1 301 e).2
    | Throw _ => nobody
    end
  | Throw _ => nobody
  end.

Definition after_wait : Executor := (wait_for_work 302 quiet_surroundings 0 some_executor).2.

Definition outcome_of {A} (m : X A) (e : Executor) : Result executor_error A := (m e).1.

Example wait_for_work_example : outcome_of (wait_for_work 302 quiet_surroundings 0) some_executor = Ok tt.
Proof. vm_compute. reflexivity. Qed.

(** The timer is taken; the subscription is not, since their group is closed. *)
Example two_taken :
  outcome_of (x ← get_next_ready_executable quiet_surroundings (fun _ => Ok 1000);
              y ← get_next_ready_executable quiet_surroundings (fun _ => Ok 1000); mret (x, y)) after_wait =
    Ok (Some (mkAny (Some (Timers, 20%N)) (Some 10%N) (Some (mkCallInfo 500 1000))), None).
Proof. vm_compute. reflexivity. Qed.

(** They take turns once the group is opened. *)
Example turns_taken :
  outcome_of (_ ← get_next_ready_executable quiet_surroundings (fun _ => Ok 1000); open_group 10;;
              get_next_ready_executable quiet_surroundings (fun _ => Ok 1000)) after_wait =
    Ok (Some (mkAny (Some (Subscriptions, 21%N)) (Some 10%N) None)).
Proof. vm_compute. reflexivity. Qed.
