(* ===== verification/ExecutorChoice.v ===== *)
(** * What an executor takes next

    [get_next_ready_executable] against its specification: of what the wait
    left ready, in the order timers, subscriptions, services, clients,
    waitables, the first whose group may be taken from
    ([get_next_ready_executable_spec]); and what it uses up
    ([get_next_ready_executable_ends]). *)

From Stdlib Require Import ZArith Lia.
From stdpp Require Import base numbers list gmap.
From S2P Require Import Prelude Computation RclTypes Timer WaitSet CallbackGroups EntitiesCollector ExecutorWaitSet Executor ExecutorExample.
#[local] Open Scope Z_scope.

(** ** Results that can be looked at *)

(** The four kinds whose handles the rcl wait set keeps for the executor. *)
Inductive rcl_pair : EntityKind -> Kind -> Prop :=
| pair_timer : rcl_pair Timers TIMER
| pair_subscription : rcl_pair Subscriptions SUBSCRIPTION
| pair_service : rcl_pair Services SERVICE
| pair_client : rcl_pair Clients CLIENT.

(** The entities of one kind that are left. *)
Definition left_ready (hs xs : list (option N)) : list N :=
  omap id (zip_with (fun h x => match h with Some _ => x | None => None end) hs xs).

(** The result can be looked at. *)
Definition holding (e : Executor) (r : WaitResult) : Prop :=
  wait_result_ e = Some r /\ wait_result_kind_ r = Ready /\ wait_result_dirty_ (wait_set_ e) = false.

(** ** Handles, set to null *)

Definition with_handles (ek : Kind) (l : list (option N)) (s : ClientWaitSet) : ClientWaitSet :=
  set_rcl ((fun x => set_slots x ek (set_handles (slots x ek) l)) <$> rcl_wait_set_ s) s.

Definition on_handles (ek : Kind) (l : list (option N)) (e : Executor) : Executor :=
  set_waiting (world e, with_handles ek l (wait_set_ e)) e.

Lemma rcl_handles_same s ek l : rcl_wait_set_ s <> None -> rcl_handles (with_handles ek l s) ek = l.
Proof. unfold rcl_handles, with_handles. simpl. destruct (rcl_wait_set_ s); [by destruct ek|done]. Qed.

Lemma rcl_handles_other s ek ek' l : ek' <> ek -> rcl_handles (with_handles ek l s) ek' = rcl_handles s ek'.
Proof. unfold rcl_handles, with_handles. simpl. destruct (rcl_wait_set_ s); [by destruct ek, ek'|done]. Qed.

Lemma with_handles_twice s ek l l' : with_handles ek l' (with_handles ek l s) = with_handles ek l' s.
Proof. unfold with_handles, set_rcl. simpl. f_equal. destruct (rcl_wait_set_ s) as [x|]; [|done]. simpl. f_equal. by destruct x, ek. Qed.

Lemma with_handles_id s ek : with_handles ek (rcl_handles s ek) s = s.
Proof.
  destruct s as [? ? ? ? ? r ? ?]. unfold with_handles, rcl_handles, set_rcl. simpl. f_equal.
  destruct r as [[[] [] [] [] [] []]|]; [by destruct ek|done].
Qed.

Lemma on_handles_id e ek : on_handles ek (rcl_handles (wait_set_ e) ek) e = e.
Proof. unfold on_handles, set_waiting. rewrite with_handles_id. by destruct e. Qed.

Lemma on_handles_twice e ek l l' : on_handles ek l' (on_handles ek l e) = on_handles ek l' e.
Proof. unfold on_handles, set_waiting. simpl. by rewrite with_handles_twice. Qed.

(** ** The first that is ready *)

Lemma first_ready_spec i n hs :
  (forall j, (i <= j < n)%nat -> is_Some (hs !! j)) ->
  match first_ready (n - i) i n hs with
  | Ok (Some j) => (i <= j < n)%nat /\ (exists h, hs !! j = Some (Some h)) /\ forall j', (i <= j' < j)%nat -> hs !! j' = Some None
  | Ok None => forall j', (i <= j' < n)%nat -> hs !! j' = Some None
  | Throw _ => False
  end.
Proof.
  remember (n - i)%nat as fuel eqn:Ef. revert i Ef. induction fuel as [|fuel IH]; intros i Ef Hh; simpl; [intros; lia|].
  rewrite (proj2 (Nat.ltb_lt i n)) by lia. destruct (Hh i) as [x Hx]; [lia|]. rewrite Hx. destruct x as [h|].
  - split; [lia|]. split; [by exists h|]. intros; lia.
  - specialize (IH (S i) ltac:(lia) ltac:(intros; apply Hh; lia)). destruct (first_ready fuel (S i) n hs) as [[j|]|err]; [| |done].
    + destruct IH as (Hj & Hs & Hn). split; [lia|]. split; [done|]. intros j' Hj'. destruct (decide (j' = i)) as [->|]; [done|apply Hn; lia].
    + intros j' Hj'. destruct (decide (j' = i)) as [->|]; [done|apply IH; lia].
Qed.

(** The entities that are left from the place [i] on. *)
Definition left_from (i : nat) (hs xs : list (option N)) : list N := left_ready (drop i hs) (drop i xs).

Definition ready_of (s : ClientWaitSet) (k : EntityKind) (ek : Kind) : list N := left_from 0 (rcl_handles s ek) (shared_ s k).

Lemma left_from_null i hs xs : hs !! i = Some None -> left_from i hs xs = left_from (S i) hs xs.
Proof.
  intros Hi. unfold left_from. rewrite (drop_S hs None i Hi). destruct (xs !! i) as [x|] eqn:Ex.
  - by rewrite (drop_S xs x i Ex).
  - rewrite !(drop_ge xs) by (apply lookup_ge_None in Ex; lia). unfold left_ready. simpl. by destruct (drop (S i) hs).
Qed.

Lemma left_from_nulls i j hs xs : (i <= j)%nat -> (forall j', (i <= j' < j)%nat -> hs !! j' = Some None) -> left_from i hs xs = left_from j hs xs.
Proof.
  intros Hij. induction Hij as [|j Hij IH]; intros Hn; [done|]. rewrite IH by (intros; apply Hn; lia). apply left_from_null, Hn. lia.
Qed.

Lemma left_from_ready j hs xs h x :
  hs !! j = Some (Some h) -> xs !! j = Some (Some x) -> left_from j hs xs = x :: left_from (S j) hs xs.
Proof. intros Hh Hx. unfold left_from. by rewrite (drop_S hs _ j Hh), (drop_S xs _ j Hx). Qed.

Lemma left_from_end i hs xs : (length xs <= i)%nat -> left_from i hs xs = [].
Proof. intros Hi. unfold left_from, left_ready. rewrite (drop_ge xs) by done. by destruct (drop i hs). Qed.

Lemma left_from_insert i j hs xs : (j < i)%nat -> left_from i (<[j := None]> hs) xs = left_from i hs xs.
Proof. intros Hj. unfold left_from. by rewrite drop_insert_lt. Qed.

(** The places of the first [n] from [i] on agree. *)
Definition agreed_from (i : nat) (hs xs : list (option N)) : Prop :=
  forall j, (i <= j < length xs)%nat ->
    match hs !! j with Some (Some _) => is_Some (mjoin (xs !! j)) | Some None => True | None => False end.

(** Every handle that is left belongs to an entity that is locked. *)
Definition agreed (s : ClientWaitSet) : Prop :=
  forall k ek, rcl_pair k ek -> agreed_from 0 (rcl_handles s ek) (shared_ s k).

Lemma first_left i hs xs :
  agreed_from i hs xs -> (i <= length xs)%nat ->
  (first_ready (length xs - i) i (length xs) hs = Ok None /\ left_from i hs xs = []) \/
  exists j x, first_ready (length xs - i) i (length xs) hs = Ok (Some j) /\ (i <= j < length xs)%nat /\
    xs !! j = Some (Some x) /\ (exists h, hs !! j = Some (Some h)) /\
    left_from i hs xs = x :: left_from (S j) hs xs /\ forall j', (i <= j' < j)%nat -> hs !! j' = Some None.
Proof.
  intros Ha Hi. pose proof (first_ready_spec i (length xs) hs) as Hf.
  destruct (first_ready _ _ _ _) as [[j|]|]; [| |exfalso].
  - right. destruct Hf as (Hj & [h Hh] & Hn); [intros j' Hj'; specialize (Ha j' Hj'); by destruct (hs !! j')|].
    pose proof (Ha j Hj) as Hx. rewrite Hh in Hx. destruct (xs !! j) as [[x|]|] eqn:Ex; try by destruct Hx.
    exists j, x. split_and!; try done; [lia|lia|by exists h|]. rewrite (left_from_nulls i j) by (done || lia). by apply left_from_ready with h.
  - left. split; [done|]. rewrite (left_from_nulls i (length xs)); [by apply left_from_end|done|].
    apply Hf. intros j' Hj'. specialize (Ha j' Hj'). by destruct (hs !! j').
  - apply Hf. intros j' Hj'. specialize (Ha j' Hj'). by destruct (hs !! j').
Qed.

Lemma left_from_length i hs xs : (length (left_from i hs xs) <= length xs - i)%nat.
Proof.
  rewrite <- length_drop. unfold left_from, left_ready. generalize (drop i hs), (drop i xs). intros l l'. revert l'.
  induction l as [|h l IH]; intros [|x l']; simpl; try lia. specialize (IH l'). unfold omap in IH. destruct h as [h|]; [destruct x|]; simpl; lia.
Qed.

Lemma agreed_from_later i j hs xs : (i <= j)%nat -> agreed_from i hs xs -> agreed_from j hs xs.
Proof. intros Hij Ha j' Hj'. apply Ha. lia. Qed.

(** Some handles were set to null. *)
Definition cleared (hs hs' : list (option N)) : Prop :=
  length hs' = length hs /\ forall j, hs' !! j = hs !! j \/ hs' !! j = Some None.

#[export] Instance cleared_preorder : PreOrder cleared.
Proof.
  split; [by split; auto|]. intros x y z [L1 H1] [L2 H2]. split; [congruence|]. intros j.
  destruct (H2 j) as [->|]; [apply H1|by right].
Qed.

Lemma cleared_insert j hs : cleared hs (<[j := None]> hs).
Proof.
  split; [apply length_insert|]. intros j'. destruct (decide (j' = j)) as [->|Hne]; [|left; by apply list_lookup_insert_ne].
  destruct (decide (j < length hs)%nat); [right; by apply list_lookup_insert_eq|left; by rewrite list_insert_ge by lia].
Qed.

Lemma rcl_handles_cleared s ek hs : cleared (rcl_handles s ek) hs -> rcl_handles (with_handles ek hs s) ek = hs.
Proof.
  intros [Hl _]. destruct (rcl_wait_set_ s) as [x|] eqn:E; [apply rcl_handles_same; congruence|].
  unfold rcl_handles, with_handles in *. simpl. rewrite E in *. by destruct hs.
Qed.

Lemma agreed_from_cleared i hs hs' xs : cleared hs hs' -> agreed_from i hs xs -> agreed_from i hs' xs.
Proof. intros [_ H] Ha j Hj. specialize (Ha j Hj). by destruct (H j) as [->| ->]. Qed.

(** ** Looking *)

Lemma set_result_same e r : wait_result_ e = Some r -> set_result (Some r) (set_waiting (world e, wait_set_ e) e) = e.
Proof. destruct e. simpl. by intros ->. Qed.

Lemma check_clean w s r :
  wait_result_kind_ r = Ready -> wait_result_dirty_ s = false -> check_wait_result_dirty ((w, s), r) = (Ok tt, ((w, s), r)).
Proof.
  intros Hk Hd. unfold check_wait_result_dirty. rewrite get_bind. destruct (has_wait_set r); [|done].
  unfold get_wait_set. unfold mbind, ST_bind. simpl. rewrite bool_decide_true by done. simpl. by rewrite Hd.
Qed.

Lemma get_wait_set_ready w s r : wait_result_kind_ r = Ready -> get_wait_set ((w, s), r) = (Ok s, ((w, s), r)).
Proof. intros Hk. unfold get_wait_set. rewrite get_bind. by rewrite bool_decide_true. Qed.

Lemma with_result_eq {A} (m : ST Looking executor_error A) e r x w s r' :
  wait_result_ e = Some r -> m ((world e, wait_set_ e), r) = (x, ((w, s), r')) ->
  with_result m e = (x, set_result (Some r') (set_waiting (w, s) e)).
Proof. intros Hr Hm. unfold with_result. rewrite get_bind, Hr. unfold on_result. by rewrite Hm. Qed.

Lemma on_handles_holding ek l e r : holding e r -> holding (on_handles ek l e) r.
Proof. done. Qed.

Lemma next_ready_spec k ek e r :
  holding e r -> agreed_from 0 (rcl_handles (wait_set_ e) ek) (shared_ (wait_set_ e) k) ->
  let hs := rcl_handles (wait_set_ e) ek in
  let xs := shared_ (wait_set_ e) k in
  (with_result (next_ready k ek) e = (Ok None, e) /\ left_from 0 hs xs = []) \/
  exists j x, with_result (next_ready k ek) e = (Ok (Some x), on_handles ek (<[j := None]> hs) e) /\
    left_from 0 hs xs = x :: left_from 0 (<[j := None]> hs) xs /\ rcl_wait_set_ (wait_set_ e) <> None.
Proof.
  intros (Hr & Hk & Hd) Ha hs xs. unfold next_ready.
  assert (E0 : forall A (m : ST Looking executor_error A), (check_wait_result_dirty;; m) ((world e, wait_set_ e), r) = m ((world e, wait_set_ e), r)).
  { intros A m. by rewrite (bind_ok _ _ _ _ _ (check_clean _ _ _ Hk Hd)). }
  destruct (first_left 0 hs xs Ha ltac:(lia)) as [[Ef El]|(j & x & Ef & Hj & Hx & [h Hh] & El & Hn)]; rewrite Nat.sub_0_r in Ef.
  - left. split; [|done]. rewrite <- (set_result_same e r Hr) at 2. apply with_result_eq with r; [done|].
    rewrite E0, get_bind, bool_decide_true by done. rewrite (bind_ok _ _ _ _ _ (get_wait_set_ready _ _ _ Hk)).
    rewrite (bind_ok _ _ ((world e, wait_set_ e), r) ((world e, wait_set_ e), r) None); [done|]. unfold lift. f_equal. exact Ef.
  - right. exists j, x. split_and!.
    + rewrite (with_result_eq _ e r (Ok (Some x)) (world e) (with_handles ek (<[j := None]> hs) (wait_set_ e)) r Hr).
      * f_equal. unfold on_handles. destruct e. simpl in *. by subst.
      * rewrite E0, get_bind, bool_decide_true by done. rewrite (bind_ok _ _ _ _ _ (get_wait_set_ready _ _ _ Hk)).
        rewrite (bind_ok _ _ ((world e, wait_set_ e), r) ((world e, wait_set_ e), r) (Some j)) by (unfold lift; f_equal; exact Ef).
        unfold clear_handle, mbind, ST_bind. simpl. unfold shared_at. fold xs. rewrite Hx. simpl. f_equal. f_equal. f_equal.
        unfold with_handles, hs, rcl_handles. f_equal. by destruct (rcl_wait_set_ (wait_set_ e)).
    + rewrite El. f_equal. rewrite (left_from_nulls 0 (S j)); [by rewrite left_from_insert by lia|lia|].
      intros j' Hj'. destruct (decide (j' = j)) as [->|Hne].
      * apply list_lookup_insert_eq. by eapply lookup_lt_Some.
      * rewrite list_lookup_insert_ne by done. apply Hn. lia.
    + unfold hs, rcl_handles in Hh. by destruct (rcl_wait_set_ (wait_set_ e)).
Qed.

(** ** The loops *)

Definition able (e : Executor) (k : EntityKind) (x : N) : option N := takeable_group e k (key_of (world e) k x).

Fixpoint first_able {A} (able : N -> option A) (l : list N) : option (N * A) :=
  match l with
  | [] => None
  | x :: l => match able x with Some g => Some (x, g) | None => first_able able l end
  end.

(** What is left of the others, if all that were looked at are cleared. *)
Fixpoint rest_after {A} (able : N -> option A) (l : list N) : list N :=
  match l with
  | [] => []
  | x :: l => match able x with Some _ => l | None => rest_after able l end
  end.

Definition executable_of (k : EntityKind) (xg : N * N) : AnyExecutable := mkAny (Some (k, xg.1)) (Some xg.2) None.

Lemma next_of_kind_spec k ek e r fuel :
  holding e r -> agreed_from 0 (rcl_handles (wait_set_ e) ek) (shared_ (wait_set_ e) k) ->
  (length (left_from 0 (rcl_handles (wait_set_ e) ek) (shared_ (wait_set_ e) k)) < fuel)%nat ->
  exists hs', cleared (rcl_handles (wait_set_ e) ek) hs' /\
    left_from 0 hs' (shared_ (wait_set_ e) k) = rest_after (able e k) (left_from 0 (rcl_handles (wait_set_ e) ek) (shared_ (wait_set_ e) k)) /\
    next_of_kind k (next_ready k ek) fuel e =
      (Ok (executable_of k <$> first_able (able e k) (left_from 0 (rcl_handles (wait_set_ e) ek) (shared_ (wait_set_ e) k))),
       on_handles ek hs' e).
Proof.
  revert e. induction fuel as [|fuel IH]; intros e Hh Ha Hf; [lia|]. simpl.
  destruct (next_ready_spec k ek e r Hh Ha) as [[E El]|(j & x & E & El & Hs)].
  - exists (rcl_handles (wait_set_ e) ek). by rewrite (bind_ok _ _ _ _ _ E), El, on_handles_id.
  - rewrite (bind_ok _ _ _ _ _ E), get_bind, El. simpl. rewrite El in Hf. simpl in Hf.
    set (e1 := on_handles ek (<[j := None]> (rcl_handles (wait_set_ e) ek)) e) in *.
    change (takeable_group e1 k (key_of (world e) k x)) with (able e k x).
    destruct (able e k x) as [g|] eqn:Eg.
    + exists (<[j := None]> (rcl_handles (wait_set_ e) ek)). by split; [apply cleared_insert|].
    + assert (E1 : rcl_handles (wait_set_ e1) ek = <[j := None]> (rcl_handles (wait_set_ e) ek)) by by apply rcl_handles_same.
      destruct (IH e1) as (hs' & Hc' & Hl' & E'); [done|rewrite E1; eapply agreed_from_cleared; [apply cleared_insert|done]|rewrite E1; simpl; lia|].
      exists hs'. rewrite E1 in E', Hc', Hl'. split; [etransitivity; [apply cleared_insert|exact Hc']|]. split; [exact Hl'|].
      change (shared_ (wait_set_ e1) k) with (shared_ (wait_set_ e) k) in E'. rewrite E'.
      unfold e1. by rewrite on_handles_twice.
Qed.

(** ** Timers *)

(** The group of a timer that may be taken from, and the timer, if it is not
    canceled. *)
Definition callable (e : Executor) (x : N) : option (N * rcl_timer_impl_t) :=
  g ← able e Timers x;
  t ← timer_handles (world e) !! handle_of (world e) x;
  if canceled t then None else Some (g, t).

Lemma callable_at e x g t : able e Timers x = Some g -> timer_handles (world e) !! handle_of (world e) x = Some t ->
  callable e x = if canceled t then None else Some (g, t).
Proof. intros Hg Ht. unfold callable. by rewrite Hg; simpl; rewrite Ht. Qed.

(** What is left of the timers: those whose group may not be taken from are
    passed over, canceled ones are cleared. *)
Fixpoint timers_after (e : Executor) (l : list N) : list N :=
  match l with
  | [] => []
  | x :: l =>
    match able e Timers x, callable e x with
    | None, _ => x :: timers_after e l
    | Some _, Some _ => l
    | Some _, None => timers_after e l
    end
  end.

Lemma timers_after_on_handles ek hs e l : timers_after (on_handles ek hs e) l = timers_after e l.
Proof.
  induction l as [|x l IH]; [done|]. simpl. rewrite IH.
  change (able (on_handles ek hs e)) with (able e). by change (callable (on_handles ek hs e)) with (callable e).
Qed.

(** Timers that exist and whose clocks work. *)
Definition runs (e : Executor) (now_at : N -> Now) (x : N) : Prop :=
  is_Some (timer_handles (world e) !! handle_of (world e) x) /\ exists n, now_at (handle_of (world e) x) = Ok n /\ 0 <= n.

Definition now_of (now_at : N -> Now) (h : N) : Z := match now_at h with Ok n => n | Throw _ => 0 end.

Definition called (t : rcl_timer_impl_t) (now : Z) : rcl_timer_impl_t :=
  set_times t now (next_after (next_call_time t) (period t) now) (time_credit t).

Definition with_timer (h : N) (t : rcl_timer_impl_t) (e : Executor) : Executor :=
  set_world (set_timer_handles (world e) (<[h := t]> (timer_handles (world e)))) e.

Lemma timer_call_spec e h t n :
  timer_handles (world e) !! h = Some t -> 0 <= n ->
  timer_call h (Ok n) e =
    if canceled t then (Ok None, e) else (Ok (Some (mkCallInfo (next_call_time t) n)), with_timer h (called t n) e).
Proof.
  intros Ht Hn. unfold timer_call. rewrite get_bind, Ht. unfold rcl_timer_call_with_info. destruct (canceled t).
  - unfold mbind, ST_bind. simpl. rewrite insert_id by done. f_equal. by destruct e as [[] ? ? ? ? ? ? ? ?].
  - rewrite (proj2 (Z.ltb_ge n 0)) by done. done.
Qed.

(** What the loop over the timers returns and leaves. *)
Definition timer_outcome (now_at : N -> Now) (found : option (N * (N * rcl_timer_impl_t))) (e : Executor)
    : option AnyExecutable * Executor :=
  match found with
  | Some (x, (g, t)) =>
    let h := handle_of (world e) x in
    let n := now_of now_at h in
    (Some (mkAny (Some (Timers, x)) (Some g) (Some (mkCallInfo (next_call_time t) n))), with_timer h (called t n) e)
  | None => (None, e)
  end.

Lemma peek_spec i e r :
  holding e r -> agreed_from i (rcl_handles (wait_set_ e) TIMER) (shared_ (wait_set_ e) Timers) ->
  (i <= length (shared_ (wait_set_ e) Timers))%nat ->
  let hs := rcl_handles (wait_set_ e) TIMER in
  let xs := shared_ (wait_set_ e) Timers in
  (exists n, with_result (peek_next_ready_timer i) e = (Ok (None, n), e) /\ left_from i hs xs = []) \/
  exists j x, with_result (peek_next_ready_timer i) e = (Ok (Some x, j), e) /\ (i <= j < length xs)%nat /\
    (exists h, hs !! j = Some (Some h)) /\ left_from i hs xs = x :: left_from (S j) hs xs /\ xs !! j = Some (Some x) /\
    forall j', (i <= j' < j)%nat -> hs !! j' = Some None.
Proof.
  intros (Hr & Hk & Hd) Ha Hi hs xs. unfold peek_next_ready_timer.
  assert (E0 : forall A (m : ST Looking executor_error A), (check_wait_result_dirty;; m) ((world e, wait_set_ e), r) = m ((world e, wait_set_ e), r)).
  { intros A m. by rewrite (bind_ok _ _ _ _ _ (check_clean _ _ _ Hk Hd)). }
  assert (E1 : forall A (m : ST Looking executor_error A) x, m ((world e, wait_set_ e), r) = (x, ((world e, wait_set_ e), r)) -> with_result m e = (x, e)).
  { intros A m x Hm. rewrite <- (set_result_same e r Hr) at 2. by apply with_result_eq with r. }
  destruct (first_left i hs xs Ha Hi) as [[Ef El]|(j & x & Ef & Hj & Hx & [h Hh] & El & Hn)].
  - left. eexists. split; [|done]. apply E1. rewrite E0, get_bind, bool_decide_true by done.
    rewrite (bind_ok _ _ _ _ _ (get_wait_set_ready _ _ _ Hk)).
    rewrite (bind_ok _ _ ((world e, wait_set_ e), r) ((world e, wait_set_ e), r) None); [done|]. unfold lift. f_equal. exact Ef.
  - right. exists j, x. split_and!; [|lia|lia|by exists h|done|done|done]. apply E1. rewrite E0, get_bind, bool_decide_true by done.
    rewrite (bind_ok _ _ _ _ _ (get_wait_set_ready _ _ _ Hk)).
    rewrite (bind_ok _ _ ((world e, wait_set_ e), r) ((world e, wait_set_ e), r) (Some j)) by (unfold lift; f_equal; exact Ef).
    unfold shared_at. fold xs. by rewrite Hx.
Qed.

Lemma clear_timer_spec j e r h :
  holding e r -> (j < length (shared_ (wait_set_ e) Timers))%nat -> rcl_handles (wait_set_ e) TIMER !! j = Some (Some h) ->
  with_result (clear_timer_with_index j) e = (Ok tt, on_handles TIMER (<[j := None]> (rcl_handles (wait_set_ e) TIMER)) e).
Proof.
  intros (Hr & Hk & Hd) Hj Hh.
  rewrite (with_result_eq _ e r (Ok tt) (world e) (with_handles TIMER (<[j := None]> (rcl_handles (wait_set_ e) TIMER)) (wait_set_ e)) r Hr).
  - f_equal. unfold on_handles. destruct e. simpl in *. by subst.
  - unfold clear_timer_with_index. rewrite (bind_ok _ _ _ _ _ (get_wait_set_ready _ _ _ Hk)).
    rewrite (proj2 (Nat.ltb_lt _ _) Hj). simpl negb. cbv iota.
    pose proof (lookup_lt_Some _ _ _ Hh) as Hl. rewrite (proj2 (Nat.ltb_lt _ _) Hl). unfold clear_handle, modify, with_handles, rcl_handles. simpl.
    by destruct (rcl_wait_set_ (wait_set_ e)).
Qed.

Lemma next_timer_spec now_at fuel i e r :
  holding e r -> agreed_from i (rcl_handles (wait_set_ e) TIMER) (shared_ (wait_set_ e) Timers) ->
  (i <= length (shared_ (wait_set_ e) Timers) < i + fuel)%nat ->
  Forall (runs e now_at) (left_from i (rcl_handles (wait_set_ e) TIMER) (shared_ (wait_set_ e) Timers)) ->
  exists hs', cleared (rcl_handles (wait_set_ e) TIMER) hs' /\
    (forall j, (j < i)%nat -> hs' !! j = rcl_handles (wait_set_ e) TIMER !! j) /\
    left_from i hs' (shared_ (wait_set_ e) Timers) =
      timers_after e (left_from i (rcl_handles (wait_set_ e) TIMER) (shared_ (wait_set_ e) Timers)) /\
    next_timer now_at fuel i e =
      let '(x, e') := timer_outcome now_at
        (first_able (callable e) (left_from i (rcl_handles (wait_set_ e) TIMER) (shared_ (wait_set_ e) Timers)))
        (on_handles TIMER hs' e) in (Ok x, e').
Proof.
  revert i e. induction fuel as [|fuel IH]; intros i e Hh Ha Hf Hruns; [lia|]. simpl.
  destruct (peek_spec i e r Hh Ha ltac:(lia)) as [(n & E & El)|(j & x & E & Hj & [h Hj'] & El & Hx & Hnull)]; rewrite El in *.
  - exists (rcl_handles (wait_set_ e) TIMER). by rewrite (bind_ok _ _ _ _ _ E), El, on_handles_id.
  - rewrite (bind_ok _ _ _ _ _ E), get_bind. apply Forall_cons_1 in Hruns as [[[t Ht] (n & Hn & Hn0)] Hruns].
    simpl. change (takeable_group e Timers (handle_of (world e) x)) with (able e Timers x).
    apply (agreed_from_later i (S j)) in Ha as Ha'; [|lia].
    destruct (able e Timers x) as [g|] eqn:Eg; [rewrite (callable_at e x g t Eg Ht)|].
    2:{ assert (callable e x = None) as -> by (unfold callable; by rewrite Eg).
      destruct (IH (S j) e Hh Ha' ltac:(lia) Hruns) as (hs' & Hc & Hs & Hl & E'). exists hs'. split; [done|]. split; [intros; apply Hs; lia|].
      split; [|done]. rewrite <- Hl, (left_from_nulls i j); [|lia|intros j' ?; rewrite Hs by lia; apply Hnull; lia].
      apply left_from_ready with h; [by rewrite Hs by lia|done]. }
    rewrite (bind_ok _ _ _ _ _ (clear_timer_spec j e r h Hh ltac:(lia) Hj')).
    set (hs1 := <[j := None]> (rcl_handles (wait_set_ e) TIMER)). simpl. rewrite Hn.
    assert (Hskip : forall hs', (forall j', (j' < S j)%nat -> hs' !! j' = hs1 !! j') ->
      left_from i hs' (shared_ (wait_set_ e) Timers) = left_from (S j) hs' (shared_ (wait_set_ e) Timers)).
    { intros hs' Hs. apply left_from_nulls; [lia|]. intros j' ?. rewrite Hs by lia. unfold hs1.
      destruct (decide (j' = j)) as [->|Hne]; [apply list_lookup_insert_eq; by eapply lookup_lt_Some|].
      rewrite list_lookup_insert_ne by done. apply Hnull. lia. }
    assert (Hfront : forall j', (j' < i)%nat -> hs1 !! j' = rcl_handles (wait_set_ e) TIMER !! j')
      by (intros j' ?; apply list_lookup_insert_ne; lia).
    pose proof (timer_call_spec (on_handles TIMER hs1 e) _ t n Ht Hn0) as Ec. destruct (canceled t); rewrite (bind_ok _ _ _ _ _ Ec).
    + assert (E1 : rcl_handles (wait_set_ (on_handles TIMER hs1 e)) TIMER = hs1) by apply rcl_handles_cleared, cleared_insert.
      destruct (IH (S j) (on_handles TIMER hs1 e)) as (hs' & Hc & Hs & Hl & E'); try done.
      * rewrite E1. eapply agreed_from_cleared; [apply cleared_insert|done].
      * simpl. lia.
      * rewrite E1. change (shared_ (wait_set_ (on_handles TIMER hs1 e)) Timers) with (shared_ (wait_set_ e) Timers).
        unfold hs1. by rewrite left_from_insert by lia.
      * exists hs'. rewrite E1 in Hc, Hs, Hl, E'.
        change (shared_ (wait_set_ (on_handles TIMER hs1 e)) Timers) with (shared_ (wait_set_ e) Timers) in E', Hl.
        rewrite timers_after_on_handles in Hl.
        assert (El1 : left_from (S j) hs1 (shared_ (wait_set_ e) Timers) = left_from (S j) (rcl_handles (wait_set_ e) TIMER) (shared_ (wait_set_ e) Timers))
          by (apply left_from_insert; lia).
        rewrite El1 in E', Hl. split; [etransitivity; [apply cleared_insert|exact Hc]|].
        split; [intros j' ?; rewrite Hs by lia; by apply Hfront|]. split; [by rewrite Hskip|]. by rewrite E', on_handles_twice.
    + exists hs1. split; [apply cleared_insert|]. split; [done|]. split; [|unfold timer_outcome; simpl; unfold now_of; by rewrite Hn].
      rewrite Hskip by done. apply left_from_insert. lia.
Qed.

(** ** Waitables *)

Definition ready_waitables (o : Outside) (rcl : rcl_wait_set_t) (l : list (option N)) : list N :=
  List.filter (fun e => waitable_is_ready (waitable_of o e) rcl) (omap id l).

Lemma next_waitable_spec o rcl i l :
  match ready_waitables o rcl l with
  | [] => next_waitable o rcl i l = (None, (i + length l)%nat)
  | x :: rest => exists n, next_waitable o rcl i l = (Some x, (i + S n)%nat) /\ ready_waitables o rcl (drop (S n) l) = rest
  end.
Proof.
  revert i. induction l as [|[x|] l IH]; intros i; [by rewrite Nat.add_0_r| |]; unfold ready_waitables in *; simpl.
  - destruct (waitable_is_ready _ _); [exists 0%nat; by rewrite Nat.add_1_r|]. specialize (IH (S i)). unfold omap in IH. destruct (List.filter _ _) as [|y rest].
    + by rewrite <- plus_n_Sm.
    + destruct IH as (n & -> & E). exists (S n). by rewrite <- !plus_n_Sm.
  - specialize (IH (S i)). unfold omap in IH. destruct (List.filter _ _) as [|y rest].
    + by rewrite <- plus_n_Sm.
    + destruct IH as (n & -> & E). exists (S n). by rewrite <- !plus_n_Sm.
Qed.

Definition at_waitable (i : nat) (r : WaitResult) : WaitResult := mkWaitResult (wait_result_kind_ r) (has_wait_set r) i.

Lemma next_ready_waitable_spec o e r :
  holding e r ->
  with_result (next_ready_waitable o) e =
    let '(found, i) := next_waitable o (rcl_wait_set_ (wait_set_ e)) (next_waitable_index_ r)
                         (drop (next_waitable_index_ r) (shared_ (wait_set_ e) Waitables)) in
    (Ok found, set_result (Some (at_waitable i r)) e).
Proof.
  intros (Hr & Hk & Hd). destruct (next_waitable _ _ _ _) as [found i] eqn:E.
  rewrite (with_result_eq _ e r (Ok found) (world e) (wait_set_ e) (at_waitable i r) Hr); [by destruct e|].
  unfold next_ready_waitable. rewrite (bind_ok _ _ _ _ _ (check_clean _ _ _ Hk Hd)), get_bind, bool_decide_true by done.
  rewrite (bind_ok _ _ _ _ _ (get_wait_set_ready _ _ _ Hk)), E. done.
Qed.

Lemma waitables_spec o e r fuel :
  holding e r ->
  (length (ready_waitables o (rcl_wait_set_ (wait_set_ e)) (drop (next_waitable_index_ r) (shared_ (wait_set_ e) Waitables))) < fuel)%nat ->
  exists i, ready_waitables o (rcl_wait_set_ (wait_set_ e)) (drop i (shared_ (wait_set_ e) Waitables)) =
    rest_after (able e Waitables) (ready_waitables o (rcl_wait_set_ (wait_set_ e)) (drop (next_waitable_index_ r) (shared_ (wait_set_ e) Waitables))) /\
    next_of_kind Waitables (next_ready_waitable o) fuel e =
    (Ok (executable_of Waitables <$> first_able (able e Waitables)
       (ready_waitables o (rcl_wait_set_ (wait_set_ e)) (drop (next_waitable_index_ r) (shared_ (wait_set_ e) Waitables)))),
     set_result (Some (at_waitable i r)) e).
Proof.
  revert e r. induction fuel as [|fuel IH]; intros e r Hh Hf; [lia|]. simpl. unfold mbind at 1, ST_bind at 1.
  rewrite (next_ready_waitable_spec o e r Hh).
  pose proof (next_waitable_spec o (rcl_wait_set_ (wait_set_ e)) (next_waitable_index_ r)
    (drop (next_waitable_index_ r) (shared_ (wait_set_ e) Waitables))) as Hn.
  destruct (ready_waitables _ _ _) as [|x rest].
  { rewrite Hn. simpl. eexists. split; [|done]. rewrite drop_ge; [done|]. rewrite length_drop. lia. }
  destruct Hn as (m & -> & Hrest). rewrite get_bind. simpl. rewrite drop_drop in Hrest.
  change (takeable_group (set_result ?r e) Waitables x) with (able e Waitables x).
  destruct (able e Waitables x) as [g|]; [by eexists|].
  set (r' := at_waitable (next_waitable_index_ r + S m) r).
  destruct (IH (set_result (Some r') e) r') as (i & El & E).
  - destruct Hh as (_ & ? & ?). done.
  - simpl. rewrite Hrest. simpl in Hf. lia.
  - exists i. simpl in E, El. rewrite Hrest in E, El. split; [exact El|]. etransitivity; [exact E|]. by destruct e.
Qed.

(** ** The choice *)

Definition or_then {A} (x y : option A) : option A := match x with Some _ => x | None => y end.

(** Of the entities of one kind, the first that is able, with its group. *)
Definition tagged {A} (k : EntityKind) (group : A -> N) (x : option (N * A)) : option (EntityKind * N * N) :=
  (fun '(x, a) => (k, x, group a)) <$> x.

(** What is to be executed next; [waitables]: those that are ready, as they
    are asked. *)
Definition choice (e : Executor) (waitables : list N) : option (EntityKind * N * N) :=
  let s := wait_set_ e in
  or_then (tagged Timers fst (first_able (callable e) (ready_of s Timers TIMER)))
  (or_then (tagged Subscriptions id (first_able (able e Subscriptions) (ready_of s Subscriptions SUBSCRIPTION)))
  (or_then (tagged Services id (first_able (able e Services) (ready_of s Services SERVICE)))
  (or_then (tagged Clients id (first_able (able e Clients) (ready_of s Clients CLIENT)))
     (tagged Waitables id (first_able (able e Waitables) waitables))))).

(** The world with the timer called, and the group closed. *)
Definition timer_called (now_at : N -> Now) (x : N) (w : World) : World :=
  let h := handle_of w x in
  set_timer_handles w (alter (fun t => called t (now_of now_at h)) h (timer_handles w)).

Definition group_closed (g : N) (w : World) : World :=
  on_group (fun x => match type_ x with MutuallyExclusive => set_taken_from x false | Reentrant => x end) g w.

Definition taken_world (now_at : N -> Now) (x : option (EntityKind * N * N)) (w : World) : World :=
  match x with
  | Some (Timers, t, g) => group_closed g (timer_called now_at t w)
  | Some (_, _, g) => group_closed g w
  | None => w
  end.

(** The order in which the kinds are looked at. *)
Definition rank (k : EntityKind) : nat :=
  match k with Timers => 0 | Subscriptions => 1 | Services => 2 | Clients => 3 | _ => 4 end.

(** What is left of the entities of kind [k], of which [l] were ready, when [x]
    was found: all of them if the search has not come to this kind. *)
Definition still_ready (e : Executor) (x : option (EntityKind * N * N)) (k : EntityKind) (l : list N) : list N :=
  if match x with Some (k', _, _) => (rank k' <? rank k)%nat | None => false end then l else
  match k with Timers => timers_after e l | _ => rest_after (able e k) l end.

Lemma agreed_on_handles k ek hs s : rcl_pair k ek -> agreed s -> cleared (rcl_handles s ek) hs -> agreed (with_handles ek hs s).
Proof.
  intros Hp Ha Hc k' ek' Hp'. specialize (Ha k' ek' Hp'). destruct (decide (ek' = ek)) as [->|Hne]; [|by rewrite rcl_handles_other].
  destruct (rcl_wait_set_ s) as [x|] eqn:E; [rewrite rcl_handles_same by congruence; by eapply agreed_from_cleared|].
  unfold rcl_handles, with_handles in *. simpl. by rewrite E in *.
Qed.

(** The same executor, but for the handles in its rcl wait set. *)
Definition alike (e e' : Executor) : Prop :=
  world e' = world e /\ current_collection_ e' = current_collection_ e /\ shared_ (wait_set_ e') = shared_ (wait_set_ e).

Lemma ready_on_handles k ek ek' hs e : ek' <> ek -> ready_of (wait_set_ (on_handles ek' hs e)) k ek = ready_of (wait_set_ e) k ek.
Proof. intros Hne. unfold ready_of. f_equal. apply rcl_handles_other. congruence. Qed.

Definition chosen (a : AnyExecutable) : option (EntityKind * N * N) :=
  '(k, x) ← any_executable a; g ← any_group a; Some (k, x, g).

(** The search, before the group is closed. *)
Definition search (o : Outside) (now_at : N -> Now) (e : Executor) : X (option AnyExecutable) :=
  or_else (next_timer now_at (passes e Timers) 0)
    (or_else (next_of_kind Subscriptions (next_ready Subscriptions SUBSCRIPTION) (passes e Subscriptions))
    (or_else (next_of_kind Services (next_ready Services SERVICE) (passes e Services))
    (or_else (next_of_kind Clients (next_ready Clients CLIENT) (passes e Clients))
       (e ← get; next_of_kind Waitables (next_ready_waitable (with_notify e o)) (passes e Waitables))))).

Lemma or_else_eq (m m' : X (option AnyExecutable)) e x e' :
  m e = (Ok x, e') -> or_else m m' e = match x with Some _ => (Ok x, e') | None => m' e' end.
Proof. intros Hm. unfold or_else. rewrite (bind_ok _ _ _ _ _ Hm). by destruct x. Qed.

(** A phase for one of the three kinds, after phases for others, leaves what
    the later ones look at. *)
Lemma phase_spec k ek e e' r m' :
  rcl_pair k ek -> alike e e' -> rcl_handles (wait_set_ e') ek = rcl_handles (wait_set_ e) ek -> holding e' r -> agreed (wait_set_ e') ->
  exists hs, holding (on_handles ek hs e') r /\ agreed (wait_set_ (on_handles ek hs e')) /\
    ready_of (wait_set_ (on_handles ek hs e')) k ek = rest_after (able e k) (ready_of (wait_set_ e) k ek) /\
    or_else (next_of_kind k (next_ready k ek) (passes e k)) m' e' =
      match executable_of k <$> first_able (able e k) (ready_of (wait_set_ e) k ek) with
      | Some a => (Ok (Some a), on_handles ek hs e')
      | None => m' (on_handles ek hs e')
      end.
Proof.
  intros Hp (Hw & Hc & Hs) Hr Hh Ha. destruct (next_of_kind_spec k ek e' r (passes e k) Hh (Ha k ek Hp)) as (hs & Hcl & Hl & E).
  - pose proof (left_from_length 0 (rcl_handles (wait_set_ e') ek) (shared_ (wait_set_ e') k)). unfold passes. rewrite Hs in *. lia.
  - assert (Hab : able e' k = able e k) by (unfold able, takeable_group; by rewrite Hw, Hc).
    exists hs. split; [done|]. split; [by eapply agreed_on_handles|]. split.
    { unfold ready_of. rewrite <- Hr, <- Hs, <- Hab, <- Hl. f_equal. by apply rcl_handles_cleared. }
    rewrite (or_else_eq _ _ _ _ _ E), Hr, Hs, Hab. unfold ready_of. by destruct (executable_of k <$> first_able (able e k) _).
Qed.

Lemma ready_waitables_length o rcl l : (length (ready_waitables o rcl l) <= length l)%nat.
Proof.
  unfold ready_waitables. etransitivity; [apply filter_length_le|]. induction l as [|[x|] l IH]; simpl; [done| |]; unfold omap in IH; lia.
Qed.

Lemma first_able_callable e l x g t :
  first_able (callable e) l = Some (x, (g, t)) -> timer_handles (world e) !! handle_of (world e) x = Some t /\ able e Timers x = Some g.
Proof.
  induction l as [|y l IH]; simpl; [done|]. destruct (callable e y) as [[g' t']|] eqn:E; [|exact IH].
  intros [= -> -> ->]. unfold callable in E. destruct (able e Timers x); [|done]. simpl in E.
  destruct (timer_handles (world e) !! handle_of (world e) x) as [t'|]; [|done]. simpl in E. destruct (canceled t'); [done|].
  by injection E as -> ->.
Qed.

Lemma alter_present {A} (f : A -> A) (m : gmap N A) h t : m !! h = Some t -> alter f h m = <[h := f t]> m.
Proof.
  intros Ht. apply map_eq. intros i. destruct (decide (i = h)) as [->|Hi].
  - by rewrite lookup_alter_eq, lookup_insert_eq, Ht.
  - by rewrite lookup_alter_ne, lookup_insert_ne.
Qed.

Definition search_world (now_at : N -> Now) (x : option (EntityKind * N * N)) (w : World) : World :=
  match x with Some (Timers, t, _) => timer_called now_at t w | _ => w end.

(** What the search promises of the executor that it leaves. *)
Definition searched (o : Outside) (now_at : N -> Now) (e : Executor) (r : WaitResult) (found : option AnyExecutable) (e' : Executor) : Prop :=
  (exists r', holding e' r' /\
     ready_waitables (with_notify e o) (rcl_wait_set_ (wait_set_ e')) (drop (next_waitable_index_ r') (shared_ (wait_set_ e) Waitables)) =
     still_ready e (found ≫= chosen) Waitables (ready_waitables (with_notify e o) (rcl_wait_set_ (wait_set_ e'))
       (drop (next_waitable_index_ r) (shared_ (wait_set_ e) Waitables)))) /\
  (forall k ek, rcl_pair k ek -> ready_of (wait_set_ e') k ek = still_ready e (found ≫= chosen) k (ready_of (wait_set_ e) k ek)) /\
  agreed (wait_set_ e') /\ (forall a, found = Some a -> is_Some (chosen a)) /\
  found ≫= chosen = choice e (ready_waitables (with_notify e o) (rcl_wait_set_ (wait_set_ e'))
         (drop (next_waitable_index_ r) (shared_ (wait_set_ e) Waitables))) /\
  world e' = search_world now_at (found ≫= chosen) (world e).

Lemma search_spec o now_at e r :
  holding e r -> agreed (wait_set_ e) -> Forall (runs e now_at) (ready_of (wait_set_ e) Timers TIMER) ->
  exists found e', search o now_at e e = (Ok found, e') /\ searched o now_at e r found e'.
Proof.
  intros Hh Ha Hruns. unfold search, searched.
  destruct (next_timer_spec now_at (passes e Timers) 0 e r Hh (Ha _ _ pair_timer)) as (hs0 & Hc0 & _ & Hl0 & E0);
    [unfold passes; lia|exact Hruns|].
  fold (ready_of (wait_set_ e) Timers TIMER) in E0, Hl0. set (e0 := on_handles TIMER hs0 e) in *.
  assert (Ha0 : agreed (wait_set_ e0)) by by eapply agreed_on_handles; [apply pair_timer|..].
  assert (R0 : ready_of (wait_set_ e0) Timers TIMER = timers_after e (ready_of (wait_set_ e) Timers TIMER))
    by (rewrite <- Hl0; unfold ready_of; f_equal; by apply rcl_handles_cleared).
  unfold choice. destruct (first_able (callable e) (ready_of (wait_set_ e) Timers TIMER)) as [[x [g t]]|] eqn:Et; simpl in E0.
  { rewrite (or_else_eq _ _ _ _ _ E0). apply first_able_callable in Et as [Ht _]. eexists _, _. split; [done|].
    split_and!; [by exists r| |done|by intros ? [= <-]|done|].
    - intros k ek []; [exact R0|..]; by apply ready_on_handles.
    - simpl. unfold timer_called. by rewrite (alter_present _ _ _ t Ht). }
  rewrite (or_else_eq _ _ _ _ _ E0). simpl or_then.
  destruct (phase_spec Subscriptions SUBSCRIPTION e e0 r
    (or_else (next_of_kind Services (next_ready Services SERVICE) (passes e Services))
    (or_else (next_of_kind Clients (next_ready Clients CLIENT) (passes e Clients))
       (e ← get; next_of_kind Waitables (next_ready_waitable (with_notify e o)) (passes e Waitables)))))
    as (hs1 & Hh1 & Ha1 & R1 & E1); try done; [by apply pair_subscription|by apply rcl_handles_other|].
  rewrite E1. set (e1 := on_handles SUBSCRIPTION hs1 e0) in *.
  destruct (first_able (able e Subscriptions) _) as [[x g]|];
    [eexists _, e1; split_and!; try done; [by exists r| |by intros ? [= <-]]|cbn [fmap option_fmap option_map or_then tagged]].
  { intros k ek []; [|exact R1|..]; unfold e1; rewrite ready_on_handles by done; [exact R0|..]; by apply ready_on_handles. }
  destruct (phase_spec Services SERVICE e e1 r
    (or_else (next_of_kind Clients (next_ready Clients CLIENT) (passes e Clients))
       (e ← get; next_of_kind Waitables (next_ready_waitable (with_notify e o)) (passes e Waitables))))
    as (hs2 & Hh2 & Ha2 & R2 & E2); try done; [by apply pair_service|unfold e1, e0; simpl; by rewrite !rcl_handles_other|].
  rewrite E2. set (e2 := on_handles SERVICE hs2 e1) in *.
  destruct (first_able (able e Services) _) as [[x g]|];
    [eexists _, e2; split_and!; try done; [by exists r| |by intros ? [= <-]]|cbn [fmap option_fmap option_map or_then tagged]].
  { intros k ek []; [| |exact R2|]; unfold e2; rewrite ready_on_handles by done; unfold e1; [|exact R1|];
      rewrite ready_on_handles by done; [exact R0|by apply ready_on_handles]. }
  destruct (phase_spec Clients CLIENT e e2 r
    (e ← get; next_of_kind Waitables (next_ready_waitable (with_notify e o)) (passes e Waitables)))
    as (hs3 & Hh3 & Ha3 & R3 & E3); try done; [by apply pair_client|unfold e2, e1, e0; simpl; by rewrite !rcl_handles_other|].
  rewrite E3. set (e3 := on_handles CLIENT hs3 e2) in *.
  assert (Hready : forall k ek, rcl_pair k ek -> ready_of (wait_set_ e3) k ek =
    match k with Timers => timers_after e | _ => rest_after (able e k) end (ready_of (wait_set_ e) k ek)).
  { intros k ek []; [| | |exact R3]; unfold e3; rewrite ready_on_handles by done; unfold e2; [| |exact R2];
      rewrite ready_on_handles by done; unfold e1; [|exact R1]; rewrite ready_on_handles by done; exact R0. }
  destruct (first_able (able e Clients) _) as [[x g]|];
    [eexists _, e3; split_and!; try done; [by exists r| |by intros ? [= <-]]|cbn [fmap option_fmap option_map or_then tagged]].
  { intros k ek Hp. rewrite (Hready k ek Hp). by destruct Hp. }
  rewrite get_bind. change (with_notify e3 o) with (with_notify e o). change (passes e3 Waitables) with (passes e Waitables).
  destruct (waitables_spec (with_notify e o) e3 r (passes e Waitables) Hh3) as (i & R4 & E4).
  { eapply Nat.le_lt_trans; [apply ready_waitables_length|]. rewrite length_drop. unfold passes. simpl. lia. }
  rewrite E4. eexists _, _. split; [done|].
  change (able e3 Waitables) with (able e Waitables) in *. change (shared_ (wait_set_ e3)) with (shared_ (wait_set_ e)) in *.
  change (rcl_wait_set_ (wait_set_ (set_result _ e3))) with (rcl_wait_set_ (wait_set_ e3)).
  change (world (set_result _ e3)) with (world e). change (wait_set_ (set_result _ e3)) with (wait_set_ e3).
  destruct (first_able (able e Waitables) _) as [[x g]|]; split_and!; try done; try by intros ? [= <-].
  1, 3: exists (at_waitable i r); split; [destruct Hh3 as (_ & ? & ?); done|exact R4].
  all: intros k ek Hp; rewrite (Hready k ek Hp); by destruct Hp.
Qed.

(** C7: given the result of a wait, an executor takes, of what is ready, in
    the order timers, subscriptions, services, clients, waitables and among
    these in the order of the wait set, the first whose group is alive and may
    be taken from, a timer only if it is not canceled; it says so if there is
    none.  The timer is called, a mutually exclusive group closed, and nothing
    else changes outside the result.  In the result, what was taken is no
    longer ready; nor is what was looked at before it, but for timers whose
    group may not be taken from; all the rest is ([still_ready]). *)
Theorem get_next_ready_executable_spec o now_at e r :
  holding e r -> agreed (wait_set_ e) -> Forall (runs e now_at) (ready_of (wait_set_ e) Timers TIMER) ->
  exists found e', get_next_ready_executable o now_at e = (Ok found, e') /\
    let waitables r' := ready_waitables (with_notify e o) (rcl_wait_set_ (wait_set_ e'))
      (drop (next_waitable_index_ r') (shared_ (wait_set_ e) Waitables)) in
    (exists r', holding e' r' /\ waitables r' = still_ready e (found ≫= chosen) Waitables (waitables r)) /\
    (forall k ek, rcl_pair k ek -> ready_of (wait_set_ e') k ek = still_ready e (found ≫= chosen) k (ready_of (wait_set_ e) k ek)) /\
    agreed (wait_set_ e') /\ (forall a, found = Some a -> is_Some (chosen a)) /\
    found ≫= chosen = choice e (waitables r) /\
    world e' = taken_world now_at (found ≫= chosen) (world e).
Proof.
  intros Hh Ha Hruns. destruct (search_spec o now_at e r Hh Ha Hruns) as (found & e1 & E & (r' & Hr' & Hwait) & Hready & Ha' & Hf & Hc & Hw).
  pose proof Hh as (Hr & Hk & Hd). unfold get_next_ready_executable. rewrite get_bind, Hr, bool_decide_true by done. cbn [negb].
  fold (search o now_at e). rewrite (bind_ok _ _ _ _ _ E). destruct found as [a|]; [|eexists _, e1; split_and!; try done; by exists r'].
  destruct (Hf a eq_refl) as [[[k x] g] Hx]. cbn [mbind option_bind] in *. rewrite Hx in *.
  assert (Eg : any_group a = Some g).
  { unfold chosen in Hx. destruct (any_executable a) as [[]|]; [|done]. by destruct (any_group a); [injection Hx as _ _ ->|]. }
  rewrite Eg. eexists (Some a), _. split; [done|]. cbn [mbind option_bind]. rewrite Hx.
  split_and!; [by exists r'|done|done|done|done|]. simpl. rewrite Hw. by destruct k.
Qed.

(** ** How much one wait can give

    Whatever the state, a loop over what is left ends, and each executable
    that is taken uses up a handle or a waitable. *)

Definition lives (hs : list (option N)) (n : nat) : nat := length (omap id (take n hs)).

Definition live (k : EntityKind) (ek : Kind) (e : Executor) : nat :=
  lives (rcl_handles (wait_set_ e) ek) (length (shared_ (wait_set_ e) k)).

Definition waitables_left (e : Executor) : nat :=
  length (shared_ (wait_set_ e) Waitables) - match wait_result_ e with Some r => next_waitable_index_ r | None => 0 end.

Definition budget (e : Executor) : nat :=
  live Timers TIMER e + live Subscriptions SUBSCRIPTION e + live Services SERVICE e + live Clients CLIENT e + waitables_left e.

Lemma lives_insert hs n j h : (j < n)%nat -> hs !! j = Some (Some h) -> S (lives (<[j := None]> hs) n) = lives hs n.
Proof.
  unfold lives. revert n j. induction hs as [|x hs IH]; intros [|n] [|j] Hj Hh; try done; try lia; simpl in *.
  - by injection Hh as ->.
  - specialize (IH n j ltac:(lia) Hh). unfold omap in IH. destruct x; simpl; lia.
Qed.

Lemma lives_le hs n : (lives hs n <= n)%nat.
Proof.
  unfold lives. revert n. induction hs as [|x hs IH]; intros [|n]; simpl; try lia. specialize (IH n). unfold omap in IH.
  destruct x; simpl; lia.
Qed.

(** At least [n] of the budget is used; the rest of the executor that the
    loops depend on stays. *)
Definition spends (n : nat) (e e' : Executor) : Prop :=
  shared_ (wait_set_ e') = shared_ (wait_set_ e) /\ spinning e' = spinning e /\ (n + budget e' <= budget e)%nat /\
  forall k ek, rcl_pair k ek -> (live k ek e' <= live k ek e)%nat.

Lemma spends_refl e : spends 0 e e.
Proof. done. Qed.

Lemma spends_trans n m e1 e2 e3 : spends n e1 e2 -> spends m e2 e3 -> spends (n + m) e1 e3.
Proof.
  intros (H1 & H2 & H3 & H4) (H5 & H6 & H7 & H8). split_and!; [congruence|congruence|lia|].
  intros k ek Hp. specialize (H4 k ek Hp). specialize (H8 k ek Hp). lia.
Qed.

Lemma spends_less n m e e' : (m <= n)%nat -> spends n e e' -> spends m e e'.
Proof. intros Hm (H1 & H2 & H3 & H4). split_and!; try done. lia. Qed.

Lemma spends_handle k ek j h e :
  rcl_pair k ek -> (j < length (shared_ (wait_set_ e) k))%nat -> rcl_handles (wait_set_ e) ek !! j = Some (Some h) ->
  spends 1 e (on_handles ek (<[j := None]> (rcl_handles (wait_set_ e) ek)) e).
Proof.
  intros Hp Hj Hh. set (e' := on_handles _ _ e).
  assert (Hs : rcl_wait_set_ (wait_set_ e) <> None) by (unfold rcl_handles in Hh; by destruct (rcl_wait_set_ (wait_set_ e))).
  assert (Hsame : S (live k ek e') = live k ek e).
  { unfold live, e'. simpl. rewrite rcl_handles_same by done. by apply lives_insert with h. }
  assert (Hother : forall k' ek', ek' <> ek -> live k' ek' e' = live k' ek' e).
  { intros k' ek' Hne. unfold live, e'. simpl. by rewrite rcl_handles_other. }
  split_and!; [done|done| |].
  - unfold budget. change (waitables_left e') with (waitables_left e).
    pose proof (Hother Timers TIMER). pose proof (Hother Subscriptions SUBSCRIPTION). pose proof (Hother Services SERVICE).
    pose proof (Hother Clients CLIENT). destruct Hp;
      repeat match goal with H : ?a <> ?b -> _ |- _ => first [specialize (H ltac:(discriminate))|clear H] end; lia.
  - intros k' ek' Hp'. destruct (decide (ek' = ek)) as [->|Hne]; [|by rewrite Hother].
    assert (k' = k) as -> by (destruct Hp; by inversion Hp'). lia.
Qed.

Definition got {A} (x : Result executor_error (option A)) : nat := match x with Ok (Some _) => 1 | _ => 0 end.

(** Steps that look. *)
Lemma looks {A} (m : ST Looking executor_error A) e x e' :
  with_result m e = (x, e') ->
  (wait_result_ e = None /\ x = Throw Undefined /\ e' = e) \/
  exists r w s r', wait_result_ e = Some r /\ m ((world e, wait_set_ e), r) = (x, ((w, s), r')) /\
    e' = set_result (Some r') (set_waiting (w, s) e).
Proof.
  unfold with_result. rewrite get_bind. destruct (wait_result_ e) as [r|] eqn:Er; [|intros [= <- <-]; by left].
  unfold on_result. destruct (m _) as [x' [[w s] r']] eqn:Em. intros [= <- <-]. right. by exists r, w, s, r'.
Qed.

Lemma check_dirty_any st x st' :
  check_wait_result_dirty st = (x, st') ->
  x <> Throw Unfinished /\ (st' = st \/ exists r, st' = (st.1, r) /\ next_waitable_index_ r = next_waitable_index_ st.2 /\ wait_result_kind_ r = Invalid).
Proof.
  destruct st as [[w s] r]. unfold check_wait_result_dirty, get_wait_set, mbind, ST_bind. simpl.
  destruct (has_wait_set r); [|by intros [= <- <-]; auto]. case_bool_decide; [|by intros [= <- <-]; auto]. simpl.
  destruct (wait_result_dirty_ s); intros [= <- <-]; split; try done; [right; by eexists|by left].
Qed.

(** The executor, but for the kind of its result. *)
Definition aside (e e' : Executor) : Prop :=
  e' = e \/ exists r r', wait_result_ e = Some r /\ next_waitable_index_ r' = next_waitable_index_ r /\ e' = set_result (Some r') e.

Lemma aside_same e e' :
  aside e e' -> shared_ (wait_set_ e') = shared_ (wait_set_ e) /\ spinning e' = spinning e /\
    (forall k ek, live k ek e' = live k ek e) /\ waitables_left e' = waitables_left e.
Proof. intros [->|(r & r' & Hr & Hi & ->)]; [done|]. split_and!; try done. unfold waitables_left. simpl. by rewrite Hr, Hi. Qed.

Lemma aside_spends e e' : aside e e' -> spends 0 e e'.
Proof.
  intros (H1 & H2 & H3 & H4)%aside_same. split_and!; [done|done| |intros; by rewrite H3]. unfold budget. by rewrite !H3, H4.
Qed.

(** A step that looks either gives up, or runs its body on the result. *)
Lemma looks_body {A} (body : ClientWaitSet -> WaitResult -> ST Looking executor_error A) (d : WaitResult -> A) e x e' :
  with_result (check_wait_result_dirty;;
    '(_, r) ← get;
    if bool_decide (wait_result_kind_ r = Ready) then s ← get_wait_set; body s r else mret (d r)) e = (x, e') ->
  (x <> Throw Unfinished /\ (forall a, x = Ok a -> exists r, a = d r) /\ aside e e') \/
  exists r w s r', wait_result_ e = Some r /\ body (wait_set_ e) r ((world e, wait_set_ e), r) = (x, ((w, s), r')) /\
    e' = set_result (Some r') (set_waiting (w, s) e).
Proof.
  assert (Hset : forall e : Executor, set_waiting (world e, wait_set_ e) e = e) by by intros [].
  intros [(_ & -> & ->)|(r & w & s & r' & Hr & Hm & ->)]%looks; [left; split_and!; (done || by left)|].
  unfold mbind at 1, ST_bind at 1 in Hm. destruct (check_wait_result_dirty _) as [[u|err] st1] eqn:Ec;
    apply check_dirty_any in Ec as (He & Hst).
  - rewrite get_bind in Hm. destruct Hst as [->|([k b i] & -> & Hi & Hk)].
    + case_bool_decide as Hk.
      * rewrite (bind_ok _ _ _ _ _ (get_wait_set_ready _ _ _ Hk)) in Hm. right. by exists r, w, s, r'.
      * injection Hm as <- <- <- <-. left. split_and!; [done|intros a [= <-]; by exists r|]. right. exists r, r. by rewrite Hset.
    + simpl in Hk. subst k. injection Hm as <- <- <- <-. left. split_and!; [done|intros a [= <-]; by eexists|]. right.
      exists r. eexists. rewrite Hset. split_and!; [done| |done]. done.
  - left. destruct Hst as [->|(r1 & -> & Hi & _)]; injection Hm as <- <- <- <-; (split_and!; [congruence|done|]); right; exists r;
      eexists; rewrite Hset; by split_and!.
Qed.

(** A step that looks: it comes to an end and uses up something if it finds
    something, also of what [measure] counts. *)
Definition steps_on {A} (m : X (option A)) (measure : Executor -> nat) : Prop :=
  forall e x e', m e = (x, e') -> x <> Throw Unfinished /\ spends (got x) e e' /\ (got x + measure e' <= measure e)%nat.

Lemma first_ready_any fuel i n hs :
  match first_ready fuel i n hs with
  | Ok (Some j) => (i <= j < n)%nat /\ exists h, hs !! j = Some (Some h)
  | Ok None => True
  | Throw err => err = Undefined
  end.
Proof.
  revert i. induction fuel as [|fuel IH]; intros i; simpl; [done|]. destruct (Nat.ltb_spec i n); [|done].
  destruct (hs !! i) as [[h|]|] eqn:E; [split; [lia|by exists h]| |done]. specialize (IH (S i)).
  destruct (first_ready fuel (S i) n hs) as [[j|]|]; [|done..]. destruct IH. split; [lia|done].
Qed.

Lemma clear_handle_eq ek j w s r :
  clear_handle ek j ((w, s), r) = (Ok tt, ((w, with_handles ek (<[j := None]> (rcl_handles s ek)) s), r)).
Proof.
  unfold clear_handle, modify, with_handles, rcl_handles. f_equal. f_equal. f_equal. f_equal. by destruct (rcl_wait_set_ s).
Qed.

Lemma set_waiting_id e : set_waiting (world e, wait_set_ e) e = e.
Proof. by destruct e. Qed.

Lemma set_result_id e r : wait_result_ e = Some r -> set_result (Some r) e = e.
Proof. destruct e. simpl. by intros ->. Qed.

Lemma next_ready_any k ek : rcl_pair k ek -> steps_on (with_result (next_ready k ek)) (live k ek).
Proof.
  intros Hp e x e' Hm. unfold next_ready in Hm. apply (looks_body _ (fun _ => None)) in Hm
    as [(Hx & Hd & Ha)|(r & w & s & r' & Hr & Hm & ->)].
  { assert (Hg : got x = 0%nat) by (destruct x as [a|]; [|done]; by destruct (Hd a eq_refl) as [_ ->]).
    rewrite Hg. split_and!; [done|by apply aside_spends|]. apply aside_same in Ha as (_ & _ & -> & _). lia. }
  unfold lift, mbind at 1, ST_bind at 1 in Hm.
  pose proof (first_ready_any (length (shared_ (wait_set_ e) k)) 0 (length (shared_ (wait_set_ e) k)) (rcl_handles (wait_set_ e) ek)) as Hf.
  destruct (first_ready _ _ _ _) as [[j|]|err].
  - destruct Hf as [Hj [h Hh]]. rewrite (bind_ok _ _ _ _ _ (clear_handle_eq _ _ _ _ _)) in Hm. injection Hm as <- <- <- <-.
    pose proof (spends_handle k ek j h e Hp ltac:(lia) Hh) as Hs. set (e1 := on_handles _ _ e) in Hs.
    assert (Hg : (got (Ok (shared_at (wait_set_ e) k j)) <= 1)%nat) by (destruct (shared_at _ _ _); simpl; lia).
    change (set_waiting (world e, with_handles ek (<[j:=None]> (rcl_handles (wait_set_ e) ek)) (wait_set_ e)) e) with e1.
    rewrite (set_result_id e1 r Hr). split_and!; [done|by apply (spends_less 1)|].
    unfold live at 1, e1. simpl. assert (Hset : rcl_wait_set_ (wait_set_ e) <> None) by (unfold rcl_handles in Hh; by destruct (rcl_wait_set_ (wait_set_ e))).
    rewrite rcl_handles_same by done. unfold live. pose proof (lives_insert (rcl_handles (wait_set_ e) ek) _ j h ltac:(apply Hj) Hh). destruct (shared_at _ _ _); lia.
  - injection Hm as <- <- <- <-. rewrite set_waiting_id, (set_result_id e r Hr). done.
  - injection Hm as <- <- <- <-. rewrite set_waiting_id, (set_result_id e r Hr). split; [congruence|done].
Qed.

Lemma next_waitable_moves o rcl i l : (i + got (Ok (next_waitable o rcl i l).1) <= (next_waitable o rcl i l).2 <= i + length l)%nat.
Proof.
  revert i. induction l as [|[x|] l IH]; intros i; simpl; [lia| |].
  - destruct (waitable_is_ready _ _); simpl; [lia|]. specialize (IH (S i)). simpl in IH. lia.
  - specialize (IH (S i)). simpl in IH. lia.
Qed.

Lemma next_ready_waitable_any o : steps_on (with_result (next_ready_waitable o)) waitables_left.
Proof.
  intros e x e' Hm. unfold next_ready_waitable in Hm. apply (looks_body _ (fun _ => None)) in Hm
    as [(Hx & Hd & Ha)|(r & w & s & r' & Hr & Hm & ->)].
  { assert (Hg : got x = 0%nat) by (destruct x as [a|]; [|done]; by destruct (Hd a eq_refl) as [_ ->]).
    rewrite Hg. split_and!; [done|by apply aside_spends|]. apply aside_same in Ha as (_ & _ & _ & ->). lia. }
  set (l := drop (next_waitable_index_ r) (shared_ (wait_set_ e) Waitables)) in Hm.
  pose proof (next_waitable_moves o (rcl_wait_set_ (wait_set_ e)) (next_waitable_index_ r) l) as Hn.
  destruct (next_waitable _ _ _ _) as [found i]. injection Hm as <- <- <- <-. rewrite set_waiting_id.
  unfold l in Hn. rewrite length_drop in Hn. simpl in Hn.
  split_and!; [done|split_and!; [done|done| |done]|]; unfold budget, live, waitables_left; simpl; rewrite Hr; destruct found; simpl in *; lia.
Qed.

Lemma next_of_kind_any k next measure fuel :
  steps_on (with_result next) measure ->
  forall e x e', next_of_kind k next fuel e = (x, e') -> spends (got x) e e' /\ ((measure e < fuel)%nat -> x <> Throw Unfinished).
Proof.
  intros Hs. induction fuel as [|fuel IH]; intros e x e'; simpl; [intros [= <- <-]; split; [done|lia]|].
  unfold mbind at 1, ST_bind at 1. destruct (with_result next e) as [y e1] eqn:E. destruct (Hs _ _ _ E) as (Hy & Hsp & Hm).
  destruct y as [[z|]|err]; [|intros [= <- <-]; done|intros [= <- <-]; by split; [|congruence]].
  rewrite get_bind. destruct (takeable_group _ _ _); [intros [= <- <-]; done|]. intros Hx. apply IH in Hx as [H1 H2]. split.
  - apply (spends_less (1 + got x)); [lia|]. by eapply spends_trans.
  - intros Hb. apply H2. simpl in Hm. lia.
Qed.

Lemma peek_any i e x e' :
  with_result (peek_next_ready_timer i) e = (x, e') ->
  x <> Throw Unfinished /\ aside e e' /\
  forall t j, x = Ok (Some t, j) -> (i <= j < length (shared_ (wait_set_ e') Timers))%nat /\
    exists h, rcl_handles (wait_set_ e') TIMER !! j = Some (Some h).
Proof.
  intros Hm. unfold peek_next_ready_timer in Hm. apply (looks_body _ (fun _ => (None, i))) in Hm
    as [(Hx & Hd & Ha)|(r & w & s & r' & Hr & Hm & ->)].
  { split_and!; [done|done|]. intros t j ->. destruct (Hd _ eq_refl) as [_ [=]]. }
  unfold lift, mbind at 1, ST_bind at 1 in Hm.
  pose proof (first_ready_any (length (shared_ (wait_set_ e) Timers) - i) i (length (shared_ (wait_set_ e) Timers)) (rcl_handles (wait_set_ e) TIMER)) as Hf.
  destruct (first_ready _ _ _ _) as [[j|]|err]; injection Hm as <- <- <- <-; rewrite set_waiting_id, (set_result_id e r Hr).
  - split_and!; [done|by left|]. intros t j' [= _ <-]. exact Hf.
  - split_and!; [done|by left|done].
  - split_and!; [congruence|by left|done].
Qed.

Lemma clear_timer_any j h e x e' :
  with_result (clear_timer_with_index j) e = (x, e') ->
  (j < length (shared_ (wait_set_ e) Timers))%nat -> rcl_handles (wait_set_ e) TIMER !! j = Some (Some h) ->
  match x with Ok _ => spends 1 e e' | Throw err => err <> Unfinished /\ e' = e end.
Proof.
  intros Hm Hj Hh. apply looks in Hm as [(_ & -> & ->)|(r & w & s & r' & Hr & Hm & ->)]; [done|].
  unfold clear_timer_with_index in Hm. destruct (decide (wait_result_kind_ r = Ready)) as [Hk|Hk].
  - rewrite (bind_ok _ _ _ _ _ (get_wait_set_ready _ _ _ Hk)), (proj2 (Nat.ltb_lt _ _) Hj) in Hm. cbn [negb] in Hm.
    rewrite (proj2 (Nat.ltb_lt _ _) (lookup_lt_Some _ _ _ Hh)) in Hm. cbn [negb] in Hm. rewrite clear_handle_eq in Hm.
    injection Hm as <- <- <- <-. pose proof (spends_handle _ _ _ _ _ pair_timer Hj Hh) as Hs. set (e1 := on_handles _ _ e) in Hs.
    change (spends 1 e (set_result (Some r) e1)). by rewrite (set_result_id e1 r).
  - unfold get_wait_set, mbind, ST_bind in Hm. simpl in Hm. rewrite bool_decide_false in Hm by done. injection Hm as <- <- <- <-.
    by rewrite set_waiting_id, set_result_id.
Qed.

Lemma spends_world e w : spends 0 e (set_world w e).
Proof. done. Qed.

Lemma timer_call_any h now e x e' : timer_call h now e = (x, e') -> x <> Throw Unfinished /\ spends 0 e e' /\ wait_set_ e' = wait_set_ e.
Proof.
  unfold timer_call. rewrite get_bind. destruct (rcl_timer_call_with_info _ _) as [[[ret info] t] cb].
  unfold mbind, ST_bind. simpl. destruct ret; by intros [= <- <-].
Qed.

Lemma next_timer_any now_at fuel i e x e' :
  next_timer now_at fuel i e = (x, e') ->
  spends (got x) e e' /\ ((length (shared_ (wait_set_ e) Timers) < i + fuel)%nat -> (0 < fuel)%nat -> x <> Throw Unfinished).
Proof.
  revert i e. induction fuel as [|fuel IH]; intros i e; simpl; [intros [= <- <-]; split; [done|lia]|].
  unfold mbind at 1, ST_bind at 1. destruct (with_result (peek_next_ready_timer i) e) as [y e1] eqn:Ep.
  apply peek_any in Ep as (Hy & Ha & Hpeek). apply aside_spends in Ha as Hs1. pose proof (aside_same _ _ Ha) as (Hsh & _).
  destruct y as [[[t|] j]|err]; [|intros [= <- <-]; done|intros [= <- <-]; by split; [|congruence]].
  destruct (Hpeek t j eq_refl) as [Hj [h Hh]]. rewrite get_bind.
  assert (Hnext : forall e2, spends 0 e e2 -> next_timer now_at fuel (S j) e2 = (x, e') ->
    spends (got x) e e' /\ ((length (shared_ (wait_set_ e) Timers) < i + S fuel)%nat -> (0 < S fuel)%nat -> x <> Throw Unfinished)).
  { intros e2 Hs2 Hx. apply IH in Hx as [H1 H2]. split; [by eapply (spends_trans 0)|]. intros Hl _.
    destruct Hs2 as (Hsh2 & _). rewrite Hsh2 in H2. rewrite Hsh in Hj. apply H2; lia. }
  destruct (takeable_group _ _ _) as [g|]; [|by apply Hnext].
  unfold mbind at 1, ST_bind at 1. destruct (with_result (clear_timer_with_index j) e1) as [y e2] eqn:Ec.
  pose proof (clear_timer_any j h e1 y e2 Ec ltac:(lia) Hh) as Hc. destruct y as [u|err].
  2:{ destruct Hc as [He ->]. intros [= <- <-]. split; [done|congruence]. }
  apply (spends_trans 0 1 e e1 e2 Hs1) in Hc.
  unfold mbind at 1, ST_bind at 1. destruct (timer_call _ _ e2) as [z e3] eqn:Et. apply timer_call_any in Et as (Hz & Hs3 & _).
  apply (spends_trans _ _ _ _ _ Hc) in Hs3. destruct z as [[info|]|err].
  - intros [= <- <-]. split; [exact Hs3|done].
  - apply Hnext. by apply (spends_less 1); [lia|].
  - intros [= <- <-]. split; [by apply (spends_less 1); [simpl; lia|]|congruence].
Qed.

Definition ends {A} (m : X (option A)) (e : Executor) : Prop := forall x e', m e = (x, e') -> spends (got x) e e' /\ x <> Throw Unfinished.

Lemma or_else_ends (m m' : X (option AnyExecutable)) e :
  ends m e -> (forall e', spends 0 e e' -> ends m' e') -> ends (or_else m m') e.
Proof.
  intros Hm Hm' x e'. unfold or_else, mbind, ST_bind. destruct (m e) as [[[a|]|err] e1] eqn:E; destruct (Hm _ _ E) as [Hs Hx].
  - by intros [= <- <-].
  - intros H. destruct (Hm' e1 Hs _ _ H) as [H1 H2]. split; [|done]. by eapply (spends_trans 0).
  - intros [= <- <-]. split; [done|congruence].
Qed.

(** Looking for the next executable always ends, and what it takes is used
    up. *)
Lemma get_next_ready_executable_ends o now_at e : ends (get_next_ready_executable o now_at) e.
Proof.
  intros x e'. unfold get_next_ready_executable. rewrite get_bind. destruct (wait_result_ e) as [r|]; [|by intros [= <- <-]].
  case_bool_decide; [|by intros [= <- <-]]. cbn [negb]. fold (search o now_at e).
  assert (Hs : ends (search o now_at e) e).
  { assert (Hkind : forall k ek e0, rcl_pair k ek -> spends 0 e e0 -> ends (next_of_kind k (next_ready k ek) (passes e k)) e0).
    { intros k ek e0 Hp (Hsh & _) y e1 Hy. destruct (next_of_kind_any _ _ _ _ (next_ready_any k ek Hp) _ _ _ Hy) as [H1 H2].
      split; [done|]. apply H2. unfold passes, live. rewrite Hsh. pose proof (lives_le (rcl_handles (wait_set_ e0) ek) (length (shared_ (wait_set_ e) k))). lia. }
    unfold search. apply or_else_ends.
    { intros y e1 Hy. apply next_timer_any in Hy as [H1 H2]. split; [done|]. apply H2; unfold passes; lia. }
    intros e1 H1. apply or_else_ends; [by apply Hkind; [constructor|]|]. intros e2 H2. pose proof (spends_trans 0 0 _ _ _ H1 H2) as H12.
    apply or_else_ends; [by apply Hkind; [constructor|]|]. intros e3 H3. pose proof (spends_trans 0 0 _ _ _ H12 H3) as H13.
    apply or_else_ends; [by apply Hkind; [constructor|]|]. intros e4 H4 y e5. rewrite get_bind. intros Hy.
    destruct (next_of_kind_any _ _ _ _ (next_ready_waitable_any (with_notify e4 o)) _ _ _ Hy) as [H5 H6].
    split; [done|]. apply H6. unfold passes, waitables_left. lia. }
  unfold mbind at 1, ST_bind at 1. destruct (search o now_at e e) as [y e1] eqn:Es. destruct (Hs _ _ Es) as [H1 H2].
  destruct y as [[a|]|err]; [|by intros [= <- <-]|intros [= <- <-]; split; [done|congruence]].
  destruct (any_group a); intros [= <- <-]; (split; [|done]); [|done]. apply (spends_trans 1 0 _ _ _ H1). apply spends_world.
Qed.

(** ** An example *)

Definition flag_of (e : Executor) (g : N) : option bool := can_be_taken_from_ <$> groups (world e) !! g.

Lemma after_wait_holding : holding after_wait (mkWaitResult Ready true 0).
Proof. split_and!; vm_compute; reflexivity. Qed.

Lemma after_wait_agreed : agreed (wait_set_ after_wait).
Proof.
  intros k ek []; intros j [_ Hj]; vm_compute in Hj; (destruct j as [|j]; [first [exfalso; lia|vm_compute; by eauto]|lia]).
Qed.

Lemma after_wait_runs : Forall (runs after_wait (fun _ => Ok 1000)) (ready_of (wait_set_ after_wait) Timers TIMER).
Proof.
  assert (E : ready_of (wait_set_ after_wait) Timers TIMER = [20%N]) by (vm_compute; reflexivity). rewrite E.
  repeat constructor; [vm_compute; by eexists|exists 1000; split; [done|lia]].
Qed.

Lemma get_next_ready_executable_spec_witness :
  exists found e', get_next_ready_executable quiet_surroundings (fun _ => Ok 1000) after_wait = (Ok found, e') /\
    found ≫= chosen = Some (Timers, 20%N, 10%N) /\ flag_of e' 10 = Some false.
Proof.
  destruct (get_next_ready_executable_spec quiet_surroundings (fun _ => Ok 1000) after_wait (mkWaitResult Ready true 0)
    after_wait_holding after_wait_agreed after_wait_runs) as (found & e' & E & _ & _ & _ & _ & Hc & Hw).
  exists found, e'. split; [exact E|].
  assert (Hf : found ≫= chosen = Some (Timers, 20%N, 10%N)).
  { rewrite Hc. unfold choice.
    assert (Et : first_able (callable after_wait) (ready_of (wait_set_ after_wait) Timers TIMER) = Some (20%N, (10%N, due_timer)))
      by (vm_compute; reflexivity). rewrite Et. reflexivity. }
  split; [exact Hf|]. unfold flag_of. rewrite Hw, Hf. vm_compute. reflexivity.
Defined.
