(* ===== verification/ExecutorSpinning.v ===== *)
(** * [spin_some] comes to an end

    What one wait left bounds the number of callbacks ([spin_some_bounded]),
    whatever the callbacks do, as long as they end. *)

From Stdlib Require Import ZArith Lia.
From stdpp Require Import base numbers list gmap.
From S2P Require Import Prelude Computation RclTypes Timer WaitSet CallbackGroups EntitiesCollector ExecutorWaitSet Executor ExecutorExample ExecutorChoice.
#[local] Open Scope Z_scope.

(** ** Methods that always end *)

#[local] Hint Extern 1 (Avoids _ (on_world _)) => apply Avoids_modify : avoids.
#[local] Hint Extern 1 (Avoids _ (on_collector _)) => apply Avoids_modify : avoids.
#[local] Hint Extern 1 (Avoids _ (on_set _)) => apply Avoids_modify : avoids.
#[local] Hint Extern 1 (Avoids _ mark_dirty) => apply Avoids_modify : avoids.
#[local] Hint Extern 1 (Avoids _ prune_deleted_entities) => apply Avoids_modify : avoids.
#[local] Hint Extern 1 (Avoids _ (notify_add _)) => apply Avoids_modify : avoids.

Lemma notify_remove_ends g : Avoids Unfinished (notify_remove g).
Proof. unfold notify_remove. avoids_steps. Qed.
#[local] Hint Resolve notify_remove_ends : avoids.

Lemma keep_guard_ends g : Avoids Unfinished (keep_guard g).
Proof. unfold keep_guard. avoids_steps. Qed.
Lemma drop_guard_ends g : Avoids Unfinished (drop_guard g).
Proof. unfold drop_guard. avoids_steps. Qed.
#[local] Hint Resolve keep_guard_ends drop_guard_ends : avoids.

Lemma remove_weak_callback_group_ends k g : Avoids Unfinished (remove_weak_callback_group k g).
Proof. unfold remove_weak_callback_group. avoids_steps. Qed.
Lemma remove_weak_node_ends n : Avoids Unfinished (remove_weak_node n).
Proof. unfold remove_weak_node. avoids_steps. Qed.
Lemma add_callback_group_to_collection_ends g k : Avoids Unfinished (add_callback_group_to_collection g k).
Proof. unfold add_callback_group_to_collection. avoids_steps. Qed.
#[local] Hint Resolve remove_weak_callback_group_ends remove_weak_node_ends add_callback_group_to_collection_ends : avoids.

Lemma add_automatic_ends l : Avoids Unfinished (add_automatically_associated_callback_groups l).
Proof. unfold add_automatically_associated_callback_groups, associate_automatically. avoids_steps. Qed.
#[local] Hint Resolve add_automatic_ends : avoids.

Lemma update_collections_ends : Avoids Unfinished update_collections.
Proof.
  unfold update_collections, process_queues, process_added_node, process_removed_node, process_added_group, process_removed_group,
    prune_invalid_nodes_and_groups. avoids_steps.
Qed.

Lemma add_to_set_ends k e : Avoids Unfinished (add_to_set k e).
Proof. unfold add_to_set. avoids_steps. Qed.
Lemma remove_from_set_ends k e : Avoids Unfinished (remove_from_set k e).
Proof. unfold remove_from_set. avoids_steps. Qed.
Lemma wait_result_release_ends : Avoids Unfinished wait_result_release.
Proof. unfold wait_result_release. avoids_steps. Qed.
Lemma create_wait_result_ends k : Avoids Unfinished (create_wait_result k).
Proof. unfold create_wait_result, wait_result_acquire. avoids_steps. Qed.
#[local] Hint Resolve update_collections_ends add_to_set_ends remove_from_set_ends wait_result_release_ends create_wait_result_ends : avoids.

Lemma finally_ends {S A} (m : ST S executor_error A) f : Avoids Unfinished m -> Avoids Unfinished (finally m f).
Proof. intros Hm st. unfold finally. specialize (Hm st). by destruct (m st). Qed.

Lemma rebuild_ends o : Avoids Unfinished (storage_rebuild_rcl_wait_set o).
Proof. unfold storage_rebuild_rcl_wait_set, storage_rebuild_rcl_wait_set_with_sets, resize_if_needed, add_to_rcl. avoids_steps. Qed.
#[local] Hint Resolve rebuild_ends : avoids.

Lemma wait_ends o t : Avoids Unfinished (wait o t).
Proof.
  unfold wait. apply Avoids_bind; [auto with avoids|intros []]. apply Avoids_bind; [auto with avoids|intros _]. apply finally_ends.
  unfold sync_wait. avoids_steps.
Qed.
#[local] Hint Resolve wait_ends : avoids.

Lemma on_managed_ends {A} (m : ST Managed executor_error A) : Avoids Unfinished m -> Avoids Unfinished (on_managed m).
Proof. intros Hm e. unfold on_managed. specialize (Hm (world e, collector_ e)). by destruct (m _). Qed.
Lemma on_waiting_ends {A} (m : ST Waiting executor_error A) : Avoids Unfinished m -> Avoids Unfinished (on_waiting m).
Proof. intros Hm e. unfold on_waiting. specialize (Hm (world e, wait_set_ e)). by destruct (m _). Qed.
#[local] Hint Resolve on_managed_ends on_waiting_ends : avoids.

Lemma reset_wait_result_ends : Avoids Unfinished reset_wait_result.
Proof. unfold reset_wait_result, destroy_wait_result. avoids_steps. apply on_waiting_ends. avoids_steps. Qed.
#[local] Hint Resolve reset_wait_result_ends : avoids.

Lemma wait_for_work_ends `{WalkOrder} address o t : Avoids Unfinished (wait_for_work address o t).
Proof. unfold wait_for_work, collect_entities, update_entities, remove_gone, add_new. avoids_steps. Qed.

(** ** The loop *)

Section Some.
Context `{WalkOrder} (callback : AnyExecutable -> X unit).

(** Callbacks come to an end and leave the wait set and the result alone: the
    methods that change them are for the executor. *)
Context (callback_ends : forall a, Avoids Unfinished (callback a)).
Context (callback_leaves : forall a e, wait_set_ (callback a e).2 = wait_set_ e /\ wait_result_ (callback a e).2 = wait_result_ e).

Lemma budget_same e e' : wait_set_ e' = wait_set_ e -> wait_result_ e' = wait_result_ e -> budget e' = budget e.
Proof. intros Hs Hr. unfold budget, live, waitables_left. by rewrite Hs, Hr. Qed.

Lemma execute_and_destroy_spec a e :
  (execute_and_destroy callback a e).1 <> Throw Unfinished /\ budget (execute_and_destroy callback a e).2 = budget e.
Proof.
  unfold execute_and_destroy, finally. destruct (execute_any_executable callback a e) as [x e1] eqn:E. simpl.
  assert (Hd : budget (destroy_executable a e1).2 = budget e1) by (unfold destroy_executable; by destruct (any_group a)).
  rewrite Hd. unfold execute_any_executable in E. rewrite get_bind in E. destruct (negb (spinning e)); [by injection E as <- <-|].
  destruct (any_group a) as [g|]; [|by injection E as <- <-]. unfold mbind, ST_bind in E. destruct (callback_leaves a e) as [Hs Hr].
  pose proof (callback_ends a e) as Hc. destruct (callback a e) as [[u|err] e2]; injection E as <- <-; simpl in *;
    (split; [congruence|]); by apply budget_same.
Qed.

(** The result does not depend on the passes, once there is one more than the
    budget. *)
Lemma spin_some_loop_ends turn n fuel i jw e :
  (budget e < n <= fuel)%nat ->
  spin_some_loop callback turn false fuel i jw e = spin_some_loop callback turn false n i jw e /\
  (spin_some_loop callback turn false n i jw e).1 <> Throw Unfinished.
Proof.
  revert fuel i jw e. induction n as [|n IH]; intros fuel i jw e Hn; [lia|]. destruct fuel as [|fuel]; [lia|]. simpl.
  rewrite !get_bind. destruct (context_ok (turn i) && spinning e && in_time (turn i)); [|done].
  unfold mbind at 1 4 7, ST_bind at 1 4 7.
  destruct (get_next_ready_executable _ _ e) as [x e1] eqn:E. apply get_next_ready_executable_ends in E as [(_ & _ & Hb & _) Hx].
  destruct x as [[a|]|err]; simpl in Hb; [|by split; [destruct jw|destruct jw; apply Avoids_bind; auto using reset_wait_result_ends, Avoids_ret]|].
  2:{ split; [done|simpl; congruence]. }
  unfold mbind, ST_bind. destruct (execute_and_destroy_spec a e1) as [H1 H2].
  destruct (execute_and_destroy callback a e1) as [[u|err] e2]; simpl in *; [|split; [done|congruence]]. apply IH. lia.
Qed.

(** C10: [spin_some] comes to an end.  If the callbacks do, it takes no more
    passes, each with one callback at most, than there are handles and
    waitables left by its one wait, and one more. *)
Theorem spin_some_bounded turn first e fuel :
  let waited := (wait_for_work (new_address first) (around first) 0 (reset_wait_result (set_spinning true e)).2).2 in
  (budget waited < fuel)%nat ->
  spin_some callback turn first fuel e = spin_some callback turn first (S (budget waited)) e /\
  (spin_some callback turn first fuel e).1 <> Throw Unfinished.
Proof.
  cbv zeta. intros Hf. unfold spin_some, spin_some_impl, while_spinning. rewrite !get_bind.
  unfold mbind at 1 5 9, ST_bind at 1 5 9. unfold modify. cbn [fst snd]. destruct (spinning e); [done|]. unfold finally.
  unfold mbind, ST_bind. pose proof (reset_wait_result_ends (set_spinning true e)) as Hr.
  destruct (reset_wait_result (set_spinning true e)) as [[u|err] e1]; [|split; [done|simpl in *; congruence]]. simpl in Hf |- *.
  pose proof (wait_for_work_ends (new_address first) (around first) 0 e1) as Hw.
  destruct (wait_for_work _ _ _ e1) as [[u'|err] e2]; [|split; [done|simpl in *; congruence]]. simpl in Hf |- *.
  destruct (spin_some_loop_ends turn (S (budget e2)) fuel 0 true e2 ltac:(lia)) as [E Hu]. rewrite E. split; [done|].
  by destruct (spin_some_loop callback turn false (S (budget e2)) 0 true e2).
Qed.
End Some.

Definition quiet_spin (fuel : nat) : Result executor_error unit * Executor :=
  spin_some (fun _ => mret tt) (fun i => quiet_turn (400 + N.of_nat i)) (quiet_turn 303) fuel some_executor.

Lemma spin_some_bounded_witness : quiet_spin 50 = quiet_spin 5 /\ (quiet_spin 50).1 <> Throw Unfinished.
Proof.
  pose proof (spin_some_bounded (fun _ => mret tt) (fun _ => Avoids_ret _ _) (fun _ _ => conj eq_refl eq_refl)
    (fun i => quiet_turn (400 + N.of_nat i)) (quiet_turn 303) some_executor 50) as H. cbv zeta in H.
  match type of H with (?b < _)%nat -> _ => assert (E : b = 4%nat) by (vm_compute; reflexivity); rewrite E in H end.
  apply H. lia.
Defined.
