(* ===== verification/ExecutorWaiting.v ===== *)
(** * Waiting for what the executor has

    [wait] against [rcl_wait_spec]: every living entity is offered, and what
    is left is ready ([wait_spec]); then, if nothing in the wait set has
    expired, each handle that is left is that of the entity at its place
    ([wait_agreed]), which is what [get_next_ready_executable_spec] asks for.
    With an expired entity that is not so ([expired_timer_shadows]). *)

From Stdlib Require Import ZArith Lia.
From stdpp Require Import base numbers list gmap.
From S2P Require Import Prelude Computation OrderedMap RclTypes Timer WaitSet WaitSetFacts CallbackGroups EntitiesCollector.
From S2P Require Import ExecutorWaitSet Executor ExecutorExample ExecutorChoice.
#[local] Open Scope Z_scope.

(** ** What waitables must do

    The promise that a wait set relies on: a waitable adds no more handles
    than it says, one after the other. *)

Section Filling.
Context (hd : Kind -> N -> N) (guard : N -> N).

Lemma filled_ext w (K K' : Kind -> list N) : (forall k, K k = K' k) -> filled hd guard w K -> filled hd guard w K'.
Proof. intros E [H1 H2 H3 H4 H5 H6 H7]. split; intros *; rewrite <- ?E; auto. Qed.

Class Lawful (wt : Waitable) (adds : Kind -> list N) : Prop := {
  lawful_number k : (length (adds k) <= number_of_ready wt k)%nat;
  lawful_add w (K : Kind -> list N) :
    filled hd guard w K -> (forall k, length (K k) + length (adds k) <= size_of w k)%nat ->
    exists w', add_to_wait_set wt (Some w) = Ok (Some w') /\ filled hd guard w' (fun k => K k ++ adds k) /\
      forall k, size_of w' k = size_of w k;
}.

(** [l] handles of type [ek] more. *)
Definition plus (K : Kind -> list N) (ek : Kind) (l : list N) : Kind -> list N :=
  fun k => if bool_decide (k = ek) then K ek ++ l else K k.

Lemma add_to_plus K ek l h k : add_to (plus K ek l) ek h k = plus K ek (l ++ [h]) k.
Proof.
  unfold add_to, plus. rewrite (bool_decide_true (ek = ek)) by done. case_bool_decide as E; [by rewrite app_assoc|done].
Qed.

Lemma plus_nil K ek k : plus K ek [] k = K k.
Proof. unfold plus. case_bool_decide as E; [subst; by rewrite app_nil_r|done]. Qed.

(** The executor's own waitable keeps the promise. *)
#[export] Instance notify_lawful o w t :
  (forall h, rmw_handles o GUARD_CONDITION h = Some (hd GUARD_CONDITION h)) ->
  Lawful (notify_as_waitable o w t) (fun k => match k with GUARD_CONDITION => guards_to_wait_for w t | _ => [] end).
Proof.
  intros Hr. split.
  - intros []; simpl; try lia. unfold guards_to_wait_for, get_number_of_ready_guard_conditions.
    etransitivity; [apply filter_length_le|]. by rewrite length_set_in_order.
  - simpl. intros rw K Hf Hroom. specialize (Hroom GUARD_CONDITION). simpl in Hroom. revert rw K Hf Hroom.
    assert (Hgen : forall l rw K, filled hd guard rw K -> (length (K GUARD_CONDITION) + length l <= size_of rw GUARD_CONDITION)%nat ->
      exists rw', fold_left (fun r gc => let! rcl := r in
        match rcl_wait_set_add GUARD_CONDITION (rmw_handles o GUARD_CONDITION) rcl (Some gc) with
        | (RCL_RET_OK, _, rcl) => Ok rcl
        | (ret, _, _) => Throw ret
        end) l (Ok (Some rw)) = Ok (Some rw') /\ filled hd guard rw' (plus K GUARD_CONDITION l) /\
        forall k, size_of rw' k = size_of rw k).
    { induction l as [|h l IH]; intros rw K Hf Hroom.
      - exists rw. split_and!; [done| |done]. eapply filled_ext; [|exact Hf]. intros k. by rewrite plus_nil.
      - simpl in Hroom. destruct (wait_set_add_filled hd guard rw K GUARD_CONDITION h _ ltac:(done) Hf ltac:(lia) (Hr h)) as (rw1 & E & Hf1 & Hs1).
        destruct (IH rw1 (add_to K GUARD_CONDITION h) Hf1) as (rw' & E' & Hf' & Hs').
        { rewrite Hs1, add_to_same, length_app. simpl. lia. }
        exists rw'. cbn [fold_left rbind]. rewrite E. split_and!; [exact E'| |intros k; by rewrite Hs'].
        eapply filled_ext; [|exact Hf']. intros k. unfold plus. case_bool_decide as Ek; [|by rewrite add_to_other].
        by rewrite add_to_same, <- app_assoc. }
    intros rw K Hf Hroom. destruct (Hgen _ rw K Hf Hroom) as (rw' & E & Hf' & Hs'). exists rw'. split_and!; [exact E| |exact Hs'].
    eapply filled_ext; [|exact Hf']. intros k. unfold plus. case_bool_decide as Ek; [by subst|]. destruct k; try done; by rewrite app_nil_r.
Qed.
End Filling.

(** ** Rebuilding *)

Section Rebuilding.
Context (hd : Kind -> N -> N) (guard : N -> N) (o : Outside).
Context (handles_known : forall k h, rmw_handles o k h = Some (hd k h)) (guards_known : forall h, guard_of_timer o h = Some (Some (guard h))).
Context (adds : N -> Kind -> list N) (lawful : forall e, Lawful hd guard (waitable_of o e) (adds e)).
Context (w : World).

(** What an entity of a kind, locked or not, brings to the rcl wait set. *)
Definition brings (k : EntityKind) (x : option N) (ek : Kind) : list N :=
  match x with
  | None => []
  | Some e =>
    match kind_of k with
    | Some ek' => if bool_decide (ek = ek') then [handle_of w e] else []
    | None => adds e ek
    end
  end.

Definition with_all (K : Kind -> list N) (k : EntityKind) (l : list (option N)) : Kind -> list N :=
  fun ek => K ek ++ concat (map (fun x => brings k x ek) l).

Section Loop.
Context (s0 : ClientWaitSet) (size : Kind -> nat).

(** The set while it is filled: [s0], but for the rcl wait set. *)
Definition filling (K : Kind -> list N) (st : Waiting) : Prop :=
  st.1 = w /\ weak_ st.2 = weak_ s0 /\ shared_ st.2 = shared_ s0 /\
  ownership_reference_counter_ st.2 = ownership_reference_counter_ s0 /\ needs_resize_ st.2 = false /\
  wait_result_holding_ st.2 = wait_result_holding_ s0 /\ wait_result_dirty_ st.2 = wait_result_dirty_ s0 /\
  exists rw, rcl_wait_set_ st.2 = Some rw /\ filled hd guard rw K /\ forall ek, size_of rw ek = size ek.

Lemma filling_set_rcl K K' st rw :
  filling K st -> filled hd guard rw K' -> (forall ek, size_of rw ek = size ek) -> filling K' (st.1, set_rcl (Some rw) st.2).
Proof. intros (H1 & H2 & H3 & H4 & H5 & H6 & H7 & _) Hf Hs. split_and!; try done. by exists rw. Qed.

Lemma filling_ext K K' st : (forall ek, K ek = K' ek) -> filling K st -> filling K' st.
Proof.
  intros E (H1 & H2 & H3 & H4 & H5 & H6 & H7 & rw & H8 & H9 & H10). split_and!; try done. exists rw. split_and!; try done.
  by eapply filled_ext.
Qed.

Lemma add_to_rcl_filling k x K st :
  filling K st -> (forall ek, (length (K ek) + length (brings k x ek) <= size ek)%nat) ->
  exists st', add_to_rcl o k x st = (Ok tt, st') /\ filling (fun ek => K ek ++ brings k x ek) st'.
Proof.
  intros Hst Hroom. destruct x as [e|]; simpl.
  2:{ eexists. split; [done|]. eapply filling_ext; [intros ek; symmetry; apply app_nil_r|]. exact Hst. }
  pose proof Hst as (Hw & _ & _ & _ & _ & _ & _ & rw & Hrw & Hf & Hs). destruct st as [w' s]. simpl in Hw. subst w'. simpl in Hrw.
  rewrite get_bind, Hrw. simpl in Hroom. unfold brings.
  assert (Hext : forall ek' rw', filled hd guard rw' (add_to K ek' (handle_of w e)) ->
    filled hd guard rw' (fun ek => K ek ++ (if bool_decide (ek = ek') then [handle_of w e] else []))).
  { intros ek' rw' Hf'. eapply filled_ext; [|exact Hf']. intros ek. unfold add_to. case_bool_decide; [by subst|by rewrite app_nil_r]. }
  destruct (kind_of k) as [ek'|] eqn:Ek.
  - specialize (Hroom ek'). rewrite bool_decide_true in Hroom by done. simpl in Hroom. rewrite <- Hs in Hroom.
    destruct (decide (ek' = TIMER)) as [->|Hne].
    + destruct (wait_set_add_timer_filled hd guard rw K (timer_table o w) (handle_of w e) Hf ltac:(lia) (guards_known _)) as (rw' & E & Hf' & Hs').
      rewrite E. eexists. split; [done|]. apply (filling_set_rcl K _ (w, s)); [done|by apply Hext|]. intros ek. by rewrite Hs'.
    + destruct (wait_set_add_filled hd guard rw K ek' (handle_of w e) _ Hne Hf ltac:(lia) (handles_known ek' _)) as (rw' & E & Hf' & Hs').
      exists (w, set_rcl (Some rw') s). split; [destruct ek'; try done; by rewrite E|].
      apply (filling_set_rcl K _ (w, s)); [done|by apply Hext|]. intros ek. by rewrite Hs'.
  - destruct (@lawful_add hd guard _ _ (lawful e) rw K Hf) as (rw' & E & Hf' & Hs'); [intros ek; rewrite Hs; apply Hroom|].
    rewrite E. eexists. split; [done|]. apply (filling_set_rcl K _ (w, s)); [done|done|]. intros ek. by rewrite Hs'.
Qed.

Lemma add_all_filling k l K st :
  filling K st -> (forall ek, (length (with_all K k l ek) <= size ek)%nat) ->
  exists st', for_each (add_to_rcl o k) l st = (Ok tt, st') /\ filling (with_all K k l) st'.
Proof.
  unfold with_all. revert K st. induction l as [|x l IH]; intros K st Hst Hroom; simpl in *.
  - exists st. split; [done|]. eapply filling_ext; [|exact Hst]. intros ek. by rewrite app_nil_r.
  - destruct (add_to_rcl_filling k x K st Hst) as (st1 & E1 & Hst1).
    { intros ek. specialize (Hroom ek). rewrite !length_app in Hroom. lia. }
    destruct (IH _ st1 Hst1) as (st' & E' & Hst').
    { intros ek. cbv beta. rewrite <- app_assoc. apply Hroom. }
    exists st'. split; [by rewrite (bind_ok _ _ _ _ _ E1)|]. eapply filling_ext; [|exact Hst']. intros ek. cbv beta. by rewrite <- app_assoc.
Qed.
End Loop.

(** The sizes that the arrays should have. *)
Definition wanted_size (shared : EntityKind -> list (option N)) (ek : Kind) : nat :=
  (match ek with
   | SUBSCRIPTION => length (shared Subscriptions) | GUARD_CONDITION => length (shared GuardConditions)
   | TIMER => length (shared Timers) | CLIENT => length (shared Clients) | SERVICE => length (shared Services) | EVENT => 0
   end + from_waitables o (shared Waitables) ek)%nat.

(** What the rcl wait set is filled with. *)
Definition own_handles (shared : EntityKind -> list (option N)) (ek : Kind) : list N :=
  map (handle_of w) (omap id
    match ek with
    | SUBSCRIPTION => shared Subscriptions | GUARD_CONDITION => shared GuardConditions | TIMER => shared Timers
    | CLIENT => shared Clients | SERVICE => shared Services | EVENT => []
    end).

Definition waitable_handles (shared : EntityKind -> list (option N)) (ek : Kind) : list N :=
  concat (map (fun x => brings Waitables x ek) (shared Waitables)).

Definition all_handles (shared : EntityKind -> list (option N)) (ek : Kind) : list N := own_handles shared ek ++ waitable_handles shared ek.

Lemma brings_own k ek l :
  kind_of k = Some ek -> forall ek', concat (map (fun x => brings k x ek') l) = if bool_decide (ek' = ek) then map (handle_of w) (omap id l) else [].
Proof.
  intros Hk ek'. induction l as [|[e|] l IH]; simpl; [by case_bool_decide| |].
  - rewrite Hk, IH. by case_bool_decide.
  - by rewrite IH.
Qed.

Definition filled_with (shared : EntityKind -> list (option N)) (ks : list EntityKind) (K : Kind -> list N) : Kind -> list N :=
  fold_left (fun K k => with_all K k (shared k)) ks K.

Lemma filled_with_all shared ek : filled_with shared rebuild_order (fun _ => []) ek = all_handles shared ek.
Proof.
  unfold filled_with, rebuild_order, with_all, all_handles, own_handles, waitable_handles. cbn [fold_left].
  rewrite (brings_own Subscriptions SUBSCRIPTION), (brings_own GuardConditions GUARD_CONDITION), (brings_own Timers TIMER),
    (brings_own Clients CLIENT), (brings_own Services SERVICE) by done. destruct ek; simpl; by rewrite ?app_nil_r.
Qed.

Lemma filled_with_grows shared ks K ek : (length (K ek) <= length (filled_with shared ks K ek))%nat.
Proof.
  revert K. induction ks as [|k ks IH]; intros K; simpl; [done|]. etransitivity; [|apply IH]. unfold with_all. rewrite length_app. lia.
Qed.

Lemma omap_length_le (l : list (option N)) : (length (omap id l) <= length l)%nat.
Proof. induction l as [|[x|] l IH]; simpl; [done| |]; unfold omap in IH; lia. Qed.

Lemma all_handles_fit shared ek : (length (all_handles shared ek) <= wanted_size shared ek)%nat.
Proof.
  unfold all_handles, wanted_size, own_handles. rewrite length_app, length_map.
  assert (Hw : (length (waitable_handles shared ek) <= from_waitables o (shared Waitables) ek)%nat).
  { unfold waitable_handles, from_waitables. induction (shared Waitables) as [|[e|] l IH]; simpl; [lia| |exact IH].
    rewrite length_app. pose proof (@lawful_number hd guard _ _ (lawful e) ek) as Hl. simpl in *. lia. }
  pose proof (omap_length_le (shared Subscriptions)). pose proof (omap_length_le (shared GuardConditions)).
  pose proof (omap_length_le (shared Timers)). pose proof (omap_length_le (shared Clients)). pose proof (omap_length_le (shared Services)).
  destruct ek; simpl; lia.
Qed.

Lemma add_kinds_filling s0 size ks K st :
  filling s0 size K st -> (forall ek, (length (filled_with (shared_ s0) ks K ek) <= size ek)%nat) ->
  exists st', for_each (fun k => '(_, s) ← get; for_each (add_to_rcl o k) (shared_ s k)) ks st = (Ok tt, st') /\
    filling s0 size (filled_with (shared_ s0) ks K) st'.
Proof.
  revert K st. induction ks as [|k ks IH]; intros K st Hst Hroom; [by exists st|]. cbn [for_each filled_with fold_left] in *.
  destruct (add_all_filling s0 size k (shared_ s0 k) K st Hst) as (st1 & E1 & Hst1).
  { intros ek. etransitivity; [apply (filled_with_grows (shared_ s0) ks)|apply Hroom]. }
  destruct (IH _ st1 Hst1 Hroom) as (st' & E' & Hst'). exists st'. split; [|done].
  destruct st as [w' s]. rewrite (bind_ok _ _ _ st1 tt); [done|]. rewrite get_bind.
  destruct Hst as (_ & _ & Hsh & _). simpl in Hsh. rewrite Hsh. exact E1.
Qed.

(** An rcl wait set that can be filled again. *)
Definition refillable (shared : EntityKind -> list (option N)) (s : ClientWaitSet) : Prop :=
  exists rw, rcl_wait_set_ s = Some rw /\ sized rw /\ (needs_resize_ s = true \/ forall ek, size_of rw ek = wanted_size shared ek).

Lemma resize_filling s :
  allocator o = fits_all -> refillable (shared_ s) s ->
  exists st', resize_if_needed o (w, s) = (Ok tt, st') /\ filling s (wanted_size (shared_ s)) (fun _ => []) st'.
Proof.
  intros Ha (rw & Hrw & Hs & Hn). unfold resize_if_needed. rewrite get_bind. destruct (needs_resize_ s) eqn:En.
  - assert (Ht : rmw (timers rw) = []) by (apply nil_length_inv, (proj1 Hs TIMER)).
    rewrite Ha, Hrw.
    match goal with |- context [rcl_wait_set_resize fits_all (Some rw) ?a ?b ?c ?d ?e ?f] =>
      destruct (resize_empties hd guard rw a b c d e f Hs Ht) as (rw' & E & Hf & Hsz); rewrite E end.
    exists (w, set_resized (set_rcl (Some rw') (if has_null (shared_ s Waitables) then set_needs_pruning s else s))). split; [done|].
    destruct (has_null (shared_ s Waitables)); (split_and!; try done); exists rw'; (split_and!; try done);
      intros ek; rewrite Hsz; unfold wanted_size; by destruct ek.
  - destruct Hn as [|Hsz]; [done|]. rewrite Hrw. destruct (rcl_wait_set_clear (Some rw)) as [ret rcl] eqn:E.
    assert (exists rw', ret = RCL_RET_OK /\ rcl = Some rw') as (rw' & -> & ->) by (injection E as <- <-; by eexists).
    destruct (clear_empties hd guard rw rw' Hs E) as [Hsz' Hf]. eexists. split; [done|]. split_and!; try done.
    exists rw'. split_and!; try done. intros ek. by rewrite Hsz'.
Qed.

Lemma rebuild_filling s :
  allocator o = fits_all -> refillable (shared_ s) s ->
  exists st', storage_rebuild_rcl_wait_set_with_sets o (w, s) = (Ok tt, st') /\
    filling s (wanted_size (shared_ s)) (all_handles (shared_ s)) st'.
Proof.
  intros Ha Hr. destruct (resize_filling s Ha Hr) as (st1 & E1 & H1).
  destruct (add_kinds_filling s (wanted_size (shared_ s)) rebuild_order _ st1 H1) as (st' & E' & H').
  { intros ek. rewrite filled_with_all. apply all_handles_fit. }
  exists st'. unfold storage_rebuild_rcl_wait_set_with_sets. rewrite (bind_ok _ _ _ _ _ E1). split; [done|].
  eapply filling_ext; [|exact H']. intros ek. apply filled_with_all.
Qed.

(** ** The wait *)

Definition locked (s : ClientWaitSet) : EntityKind -> list (option N) := fun k => map (lock w) (weak_ s k).

Definition ts : TimerTable := timer_table o w.

(** Something happened: the middleware says so, or a timer is due. *)
Definition happened (ret : rmw_wait_ret_t) (K : Kind -> list N) : bool :=
  match ret with RMW_RET_TIMEOUT => any_due ts (clock_readings o) K | _ => true end.

(** The wait set after a wait. *)
Record waited (s s' : ClientWaitSet) (yes : bool) (ready : Kind -> nat -> bool) : Prop := mkWaited {
  waited_weak : weak_ s' = weak_ s;
  waited_shared k : shared_ s' k = if yes then locked s k else map (fun _ => None) (locked s k);
  waited_holding : wait_result_holding_ s' = yes;
  waited_clean : yes = true -> wait_result_dirty_ s' = false;
  waited_handles ek : ek <> TIMER ->
    rcl_handles s' ek = left_over (fun i _ => ready ek i) (all_handles (locked s) ek) (wanted_size (locked s) ek);
  waited_timers : rcl_handles s' TIMER =
    left_over (due ts (clock_readings o)) (all_handles (locked s) TIMER) (wanted_size (locked s) TIMER);
}.

Lemma is_empty_wanted rw shared ek :
  (forall ek, size_of rw ek = wanted_size shared ek) -> wanted_size shared ek <> 0%nat -> is_empty rw = false.
Proof.
  intros Hs Hn. apply not_true_iff_false. unfold is_empty. intros He. rewrite forallb_forall in He.
  apply Hn. rewrite <- Hs. apply Nat.eqb_eq, He. destruct ek; simpl; auto 10.
Qed.

Lemma acquire_first s : ownership_reference_counter_ s = 0%nat ->
  storage_acquire_ownerships w s = set_ownership (locked s) 1 s.
Proof. intros Hc. unfold storage_acquire_ownerships. by rewrite Hc. Qed.

Lemma acquire_again w' s n : ownership_reference_counter_ s = S n -> storage_acquire_ownerships w' s = set_ownership (shared_ s) (S (S n)) s.
Proof. intros Hc. unfold storage_acquire_ownerships. by rewrite Hc. Qed.

Lemma release_again s n : ownership_reference_counter_ s = S (S n) -> storage_release_ownerships s = set_ownership (shared_ s) (S n) s.
Proof. intros Hc. unfold storage_release_ownerships. by rewrite Hc. Qed.

Lemma release_last s : ownership_reference_counter_ s = 1%nat ->
  storage_release_ownerships s = set_ownership (fun k => map (fun _ => None) (shared_ s k)) 0 s.
Proof. intros Hc. unfold storage_release_ownerships. by rewrite Hc. Qed.

Lemma rebuild_again s :
  allocator o = fits_all -> ownership_reference_counter_ s = 1%nat -> refillable (shared_ s) s ->
  exists st', storage_rebuild_rcl_wait_set o (w, s) = (Ok tt, st') /\
    filling s (wanted_size (shared_ s)) (all_handles (shared_ s)) st'.
Proof.
  intros Ha Hc Hr. unfold storage_rebuild_rcl_wait_set. rewrite get_bind.
  rewrite (bind_ok _ _ _ (w, set_ownership (shared_ s) 2 s) tt) by by (unfold on_set, modify; simpl; rewrite (acquire_again w s 0)).
  destruct (rebuild_filling (set_ownership (shared_ s) 2 s) Ha Hr) as ([w' s'] & E & Hf).
  rewrite (bind_ok _ _ _ _ _ E). destruct Hf as (Hw & H2 & H3 & H4 & H5). simpl in *. subst w'.
  exists (w, set_ownership (shared_ s') 1 s'). split; [unfold on_set, modify; simpl; by rewrite (release_again s' 0)|].
  destruct H5 as (H5 & H6 & H7 & H8). by split_and!.
Qed.

Lemma wait_spec s timeout t ek :
  allocator o = fits_all -> ownership_reference_counter_ s = 0%nat -> wait_result_holding_ s = false ->
  refillable (locked s) s -> wanted_size (locked s) ek <> 0%nat ->
  (forall h, h ∈ all_handles (locked s) TIMER -> is_Some (timer_handles w !! h)) ->
  (forall j, is_ok (after_now (clock_readings o) j) = true) ->
  (forall rw, filled hd guard rw (all_handles (locked s)) ->
    (compute_timeout ts (clock_readings o) rw (calculate_time_left_to_wait timeout (steady_start o) (steady_now o))).1 = Ok t) ->
  let '(ret, ready) := @rmw_wait (middleware o) (everything hd guard (all_handles (locked s)) t) in
  ret <> RMW_RET_ERROR ->
  let yes := happened ret (all_handles (locked s)) in
  exists s', wait o timeout (w, s) = (Ok (if yes then mkWaitResult Ready true 0 else mkWaitResult Timeout false 0), (w, s')) /\
    waited s s' yes ready.
Proof.
  intros Ha Hc Hh Hr He Htm Hok Ht. unfold wait. rewrite get_bind.
  rewrite (bind_ok _ _ _ (w, set_ownership (locked s) 1 s) tt) by by (unfold on_set, modify; simpl; rewrite acquire_first).
  destruct (rebuild_again (set_ownership (locked s) 1 s) Ha eq_refl Hr) as ([w' s1] & E1 & Hf). simpl shared_ in Hf.
  destruct Hf as (Hw & H2 & H3 & H4 & H5 & H6 & H7 & rw & Hrw & Hf & Hsz). simpl in *. subst w'.
  pose proof (@rcl_wait_spec hd guard ts (middleware o) rw (all_handles (locked s)) (clock_readings o)
    (calculate_time_left_to_wait timeout (steady_start o) (steady_now o)) t Hf (is_empty_wanted rw _ ek Hsz He) Htm Hok (Ht rw Hf)) as Hwait.
  destruct (@rmw_wait (middleware o) _) as [ret ready]. intros Hret. destruct (Hwait Hret) as (rw' & Ew & Hhs & Hts).
  assert (Hcode : match ret with RMW_RET_TIMEOUT => if any_due ts (clock_readings o) (all_handles (locked s)) then RCL_RET_OK else RCL_RET_TIMEOUT
      | _ => RCL_RET_OK end = if happened ret (all_handles (locked s)) then RCL_RET_OK else RCL_RET_TIMEOUT).
  { unfold happened. by destruct ret. }
  rewrite Hcode in Ew. unfold finally, sync_wait. rewrite (bind_ok _ _ _ _ _ E1), get_bind, Hrw. fold ts. rewrite Ew.
  rewrite (bind_ok _ _ _ (w, set_rcl (Some rw') s1) tt) by done. rewrite Hsz in Hts.
  assert (Hhs' : forall ek, ek <> TIMER -> handles (slots rw' ek) =
    left_over (fun i _ => ready ek i) (all_handles (locked s) ek) (wanted_size (locked s) ek)) by (intros ek' Hne; by rewrite Hhs, Hsz).
  destruct (happened ret (all_handles (locked s))).
  - unfold create_wait_result, wait_result_acquire, mbind, ST_bind, mret, ST_ret. simpl. rewrite H6, Hh. simpl.
    eexists. split; [done|]. rewrite (acquire_again w _ 0) by by simpl; rewrite H4. rewrite (release_again _ 0) by done.
    split; simpl; try done; intros; by rewrite H3.
  - eexists. split; [done|]. simpl. rewrite release_last by by simpl; rewrite H4. split; simpl; try done; [intros; by rewrite H3|by rewrite H6].
Qed.

(** With nothing to wait for. *)
Lemma wait_empty s timeout :
  allocator o = fits_all -> ownership_reference_counter_ s = 0%nat -> refillable (locked s) s ->
  (forall ek, wanted_size (locked s) ek = 0%nat) ->
  exists s', wait o timeout (w, s) = (Ok (mkWaitResult Empty false 0), (w, s')) /\ wait_result_holding_ s' = wait_result_holding_ s.
Proof.
  intros Ha Hc Hr He. unfold wait. rewrite get_bind.
  rewrite (bind_ok _ _ _ (w, set_ownership (locked s) 1 s) tt) by by (unfold on_set, modify; simpl; rewrite acquire_first).
  destruct (rebuild_again (set_ownership (locked s) 1 s) Ha eq_refl Hr) as ([w' s1] & E1 & Hf). simpl shared_ in Hf.
  destruct Hf as (Hw & H2 & H3 & H4 & H5 & H6 & H7 & rw & Hrw & Hf & Hsz). simpl in *. subst w'.
  assert (Hempty : is_empty rw = true) by (unfold is_empty; apply forallb_forall; intros ek _; by rewrite Hsz, He).
  unfold finally, sync_wait. rewrite (bind_ok _ _ _ _ _ E1), get_bind, Hrw. unfold rcl_wait. rewrite Hempty.
  rewrite (bind_ok _ _ _ (w, set_rcl (Some rw) s1) tt) by done. eexists. split; [done|].
  simpl. rewrite release_last by by simpl; rewrite H4. done.
Qed.

(** ** Handles and entities *)

(** The entities of a list, with their places, for which something holds. *)
Definition those (ready : nat -> N -> bool) (l : list N) : list N := omap id (imap (fun i e => if ready i e then Some e else None) l).

Lemma left_over_entities ready h l more n :
  left_from 0 (left_over ready (map h l ++ more) n) (map Some l) = those (fun i e => ready i (h e)) l.
Proof.
  unfold left_from, left_ready, left_over, those. rewrite !drop_0. generalize (replicate (n - length (map h l ++ more)) (@None N)). intros rest.
  revert ready. induction l as [|e l IH]; intros ready; simpl; [by destruct (_ ++ _)|].
  specialize (IH (fun i => ready (S i))). unfold omap in IH. simpl in IH. destruct (ready 0%nat (h e)); simpl; [f_equal|]; exact IH.
Qed.

Lemma left_over_agreed ready h l more n : agreed_from 0 (left_over ready (map h l ++ more) n) (map Some l).
Proof.
  intros j [_ Hj]. rewrite length_map in Hj. destruct (lookup_lt_is_Some_2 l j Hj) as [e He].
  unfold left_over. rewrite lookup_app_l by (rewrite length_imap, length_app, length_map; lia).
  rewrite list_lookup_imap, lookup_app_l by by rewrite length_map. rewrite !list_lookup_fmap, He. simpl.
  by destruct (ready j (h e)).
Qed.

Lemma locked_living s k : (forall e, e ∈ weak_ s k -> alive w e = true) -> locked s k = map Some (weak_ s k).
Proof.
  intros Ha. unfold locked. induction (weak_ s k) as [|e l IH]; [done|]. simpl. rewrite IH by (intros; apply Ha; by right).
  unfold lock. by rewrite Ha by by left.
Qed.

Lemma own_living s k ek :
  rcl_pair k ek -> (forall e, e ∈ weak_ s k -> alive w e = true) -> own_handles (locked s) ek = map (handle_of w) (weak_ s k).
Proof.
  intros Hp Ha. unfold own_handles.
  assert (Hs : omap id (locked s k) = weak_ s k).
  { rewrite locked_living by done. clear Ha. induction (weak_ s k) as [|e l IH]; [done|]. simpl. f_equal. exact IH. }
  destruct Hp; by rewrite Hs.
Qed.

(** Whether the middleware, or the timer, says that the entity is ready. *)
Definition said_ready (ready : Kind -> nat -> bool) (ek : Kind) (i : nat) (e : N) : bool :=
  match ek with TIMER => due ts (clock_readings o) i (handle_of w e) | _ => ready ek i end.

Lemma waited_handles_all s s' yes ready ek :
  waited s s' yes ready ->
  rcl_handles s' ek = left_over (match ek with TIMER => due ts (clock_readings o) | _ => fun i _ => ready ek i end)
    (all_handles (locked s) ek) (wanted_size (locked s) ek).
Proof. intros Hw. destruct (decide (ek = TIMER)) as [->|Hne]; [apply Hw|]. rewrite (waited_handles _ _ _ _ Hw ek Hne). by destruct ek. Qed.

Lemma waited_ready s s' ready k ek :
  waited s s' true ready -> rcl_pair k ek -> (forall e, e ∈ weak_ s k -> alive w e = true) ->
  ready_of s' k ek = those (said_ready ready ek) (weak_ s k) /\ agreed_from 0 (rcl_handles s' ek) (shared_ s' k).
Proof.
  intros Hw Hp Ha. unfold ready_of. rewrite (waited_shared _ _ _ _ Hw), (waited_handles_all _ _ _ _ ek Hw), locked_living by done.
  unfold all_handles. rewrite (own_living s k ek Hp Ha). split; [|apply left_over_agreed]. rewrite left_over_entities. by destruct Hp.
Qed.

(** ** What a wait is good for

    The state before it: nothing is held, and the allocations succeed. *)
Record prepared (s : ClientWaitSet) (left : Z) (t : option (Z * Z)) : Prop := mkPrepared {
  prepared_allocator : allocator o = fits_all;
  prepared_free : ownership_reference_counter_ s = 0%nat;
  prepared_no_result : wait_result_holding_ s = false;
  prepared_set : refillable (locked s) s;
  prepared_timers h : h ∈ all_handles (locked s) TIMER -> is_Some (timer_handles w !! h);
  prepared_clocks j : is_ok (after_now (clock_readings o) j) = true;
  prepared_timeout rw : filled hd guard rw (all_handles (locked s)) -> (compute_timeout ts (clock_readings o) rw left).1 = Ok t;
}.

Definition left_to_wait (timeout : Z) : Z := calculate_time_left_to_wait timeout (steady_start o) (steady_now o).

(** C11: an executor waits for its entities and the handles of its waitables.
    If none of its timers, subscriptions, services and clients has expired:
    when something happened, the result is [Ready] and can be looked at, and it
    has of each kind, in the order of the wait set, exactly those that the
    middleware reports and the timers that are due; when nothing did, the
    result is [Timeout], and [Empty] when there was nothing to wait for, and
    the wait set holds nothing. *)
Theorem wait_leaves_ready s timeout t :
  prepared s (left_to_wait timeout) t ->
  (forall k ek e, rcl_pair k ek -> e ∈ weak_ s k -> alive w e = true) ->
  ((forall ek, wanted_size (locked s) ek = 0%nat) ->
   exists s', wait o timeout (w, s) = (Ok (mkWaitResult Empty false 0), (w, s')) /\ wait_result_holding_ s' = false) /\
  forall ek, wanted_size (locked s) ek <> 0%nat ->
  let '(ret, ready) := @rmw_wait (middleware o) (everything hd guard (all_handles (locked s)) t) in
  ret <> RMW_RET_ERROR ->
  exists s',
    if happened ret (all_handles (locked s)) then
      wait o timeout (w, s) = (Ok (mkWaitResult Ready true 0), (w, s')) /\ wait_result_dirty_ s' = false /\ agreed s' /\
      forall k ek, rcl_pair k ek -> ready_of s' k ek = those (said_ready ready ek) (weak_ s k)
    else
      wait o timeout (w, s) = (Ok (mkWaitResult Timeout false 0), (w, s')) /\ wait_result_holding_ s' = false /\
      forall k, shared_ s' k = map (fun _ => None) (weak_ s k).
Proof.
  intros [H1 H2 H3 H4 H6 H7 H8] Ha. split.
  { intros He. destruct (wait_empty s timeout H1 H2 H4 He) as (s' & E & Hh). exists s'. by rewrite Hh. }
  intros ek H5. pose proof (wait_spec s timeout t ek H1 H2 H3 H4 H5 H6 H7 H8) as Hw.
  destruct (@rmw_wait (middleware o) _) as [ret ready]. intros Hret. destruct (Hw Hret) as (s' & E & Hs').
  exists s'. destruct (happened ret (all_handles (locked s))).
  - split_and!; [exact E|by apply (waited_clean _ _ _ _ Hs')| |];
      intros k ek' Hp; apply (waited_ready s s' ready k ek' Hs' Hp); intros e; by apply Ha with (ek := ek').
  - split_and!; [exact E|by apply (waited_holding _ _ _ _ Hs')|]. intros k. rewrite (waited_shared _ _ _ _ Hs'). unfold locked. by rewrite map_map.
Qed.

(** not so with an expired entity.  The handles in the rcl wait set move
    up to its place, while the locked entities stay at theirs: behind an
    expired timer at the head of the wait set, when the next one is due, no
    timer is found, however many are due and for how long; the wait set is not
    pruned before something is added or removed. *)
Theorem expired_timer_shadows s timeout t d rest h now_at fuel e :
  prepared s (left_to_wait timeout) t ->
  weak_ s Timers = d :: rest -> alive w d = false ->
  head (all_handles (locked s) TIMER) = Some h -> due ts (clock_readings o) 0 h = true ->
  world e = w -> wait_set_ e = s ->
  let '(ret, ready) := @rmw_wait (middleware o) (everything hd guard (all_handles (locked s)) t) in
  ret <> RMW_RET_ERROR ->
  exists e1 e', on_waiting (wait o timeout) e = (Ok (mkWaitResult Ready true 0), e1) /\
    next_timer now_at (S fuel) 0 (set_result (Some (mkWaitResult Ready true 0)) e1) = (Ok None, e').
Proof.
  intros [H1 H2 H3 H4 H6 H7 H8] Hd Hdead Hh Hdue Hew Hes.
  assert (H5 : wanted_size (locked s) TIMER <> 0%nat) by (unfold wanted_size, locked; by rewrite Hd).
  pose proof (wait_spec s timeout t TIMER H1 H2 H3 H4 H5 H6 H7 H8) as Hw.
  destruct (@rmw_wait (middleware o) _) as [ret ready]. intros Hret. destruct (Hw Hret) as (s' & E & Hs').
  destruct (all_handles (locked s) TIMER) as [|h' hs] eqn:Eh; [done|]. injection Hh as ->.
  assert (Hyes : happened ret (all_handles (locked s)) = true).
  { unfold happened, any_due. rewrite Eh. simpl. rewrite Hdue. by destruct ret. }
  rewrite Hyes in *. set (e1 := set_waiting (w, s') e).
  exists e1. set (r := mkWaitResult Ready true 0). set (e2 := set_result (Some r) e1). exists e2.
  split; [unfold on_waiting; by rewrite Hew, Hes, E|]. simpl.
  rewrite (bind_ok _ _ _ e2 (None, 0%nat)); [done|].
  rewrite (with_result_eq _ e2 r (Ok (None, 0%nat)) w s' r eq_refl); [done|].
  unfold peek_next_ready_timer. rewrite (bind_ok _ _ _ ((w, s'), r) tt) by by apply check_clean, (waited_clean _ _ _ _ Hs').
  rewrite get_bind. cbn [wait_result_kind_ r]. rewrite bool_decide_true by done. rewrite (bind_ok _ _ _ _ _ (get_wait_set_ready w s' r eq_refl)).
  rewrite (waited_shared _ _ _ _ Hs' Timers), (waited_timers _ _ _ _ Hs'), Eh. unfold locked. rewrite Hd. unfold left_over.
  cbn [map length Nat.sub first_ready imap lookup app]. unfold lift, mbind, ST_bind.
  cbn [first_ready Nat.ltb Nat.leb]. rewrite Hdue. simpl. unfold shared_at. rewrite (waited_shared _ _ _ _ Hs' Timers). unfold locked. rewrite Hd.
  simpl. unfold lock at 1. by rewrite Hdead.
Qed.
End Rebuilding.

(** ** An example

    The wait set has the timer and the subscription; or an expired timer
    first. *)

#[local] Instance no_waitable_lawful hd guard : Lawful hd guard no_waitable (fun _ => []).
Proof.
  split; [done|]. intros w K Hf _. exists w. split_and!; [done| |done]. eapply filled_ext; [|exact Hf]. intros k. by rewrite app_nil_r.
Qed.

Definition middleware_handle (_ : Kind) (h : N) : N := h.
Definition timer_guard_of (h : N) : N := (1000 + h)%N.

Definition empty_rcl : rcl_wait_set_impl_t := mkWaitSet no_slots no_slots no_slots no_slots no_slots no_slots.

Definition example_wait_set (timers : list N) : ClientWaitSet :=
  mkClientWaitSet (fun k => match k with Timers => timers | Subscriptions => [21%N] | _ => [] end) (fun _ => []) 0 false true
    (Some empty_rcl) false false.

Lemma example_prepared timers :
  timers = [20%N] \/ timers = [29%N; 20%N] ->
  prepared middleware_handle timer_guard_of quiet_surroundings (fun _ _ => []) one_node (example_wait_set timers) 0 (Some (0, 0)).
Proof.
  intros Ht. split; try done.
  - exists empty_rcl. split_and!; [done| |by left]. split; [intros []; split; done|intros []; done].
  - intros h. destruct Ht as [-> | ->];
      (match goal with |- h ∈ ?l -> _ => assert (E : l = [30%N]) by (vm_compute; reflexivity); rewrite E end);
      intros ->%list_elem_of_singleton; by eexists.
Qed.

Lemma wait_leaves_ready_witness :
  exists s', wait quiet_surroundings 0 (one_node, example_wait_set [20%N]) = (Ok (mkWaitResult Ready true 0), (one_node, s')) /\
    ready_of s' Timers TIMER = [20%N] /\ ready_of s' Subscriptions SUBSCRIPTION = [21%N].
Proof.
  destruct (wait_leaves_ready middleware_handle timer_guard_of quiet_surroundings (fun _ _ => eq_refl) (fun _ => eq_refl)
    (fun _ _ => []) (fun _ => no_waitable_lawful _ _) one_node (example_wait_set [20%N]) 0 (Some (0, 0)) (example_prepared _ (or_introl eq_refl)))
    as [_ Hw].
  - intros k ek x [] Hx; simpl in Hx; try (by apply not_elem_of_nil in Hx); apply list_elem_of_singleton in Hx as ->; vm_compute; reflexivity.
  - destruct (Hw SUBSCRIPTION ltac:(discriminate) ltac:(discriminate)) as [s' Hs'].
    assert (Hyes : happened quiet_surroundings one_node RMW_RET_OK
      (all_handles (fun _ _ => []) one_node (locked one_node (example_wait_set [20%N]))) = true) by (vm_compute; reflexivity).
    rewrite Hyes in Hs'. destruct Hs' as (E & _ & _ & Hr).
    exists s'. split; [exact E|]. split; [rewrite (Hr _ _ pair_timer)|rewrite (Hr _ _ pair_subscription)]; vm_compute; reflexivity.
Defined.

Definition expired_first : Executor :=
  mkExecutor one_node (new_collector (mkNotify ∅ false)) (example_wait_set [29%N; 20%N]) None no_entities true false 300
    (300%N, mkNotify ∅ false).

Lemma expired_timer_shadows_witness :
  exists e1 e', on_waiting (wait quiet_surroundings 0) expired_first = (Ok (mkWaitResult Ready true 0), e1) /\
    next_timer (fun _ => Ok 1000) 5 0 (set_result (Some (mkWaitResult Ready true 0)) e1) = (Ok None, e').
Proof.
  refine (expired_timer_shadows middleware_handle timer_guard_of quiet_surroundings (fun _ _ => eq_refl) (fun _ => eq_refl)
    (fun _ _ => []) (fun _ => no_waitable_lawful _ _) one_node (example_wait_set [29%N; 20%N]) 0 (Some (0, 0)) 29 [20%N] 30
    (fun _ => Ok 1000) 4 expired_first (example_prepared _ (or_intror eq_refl)) eq_refl eq_refl eq_refl eq_refl eq_refl eq_refl _).
  discriminate.
Defined.
