(* ===== verification/MultiThreaded.v ===== *)
(** * Threads and callback groups

    [executors/multi_threaded_executor.cpp]: several threads that take
    executables from one executor, one at a time under a mutex, and execute
    them at the same time.  Callbacks of a mutually exclusive group never
    overlap ([mutual_exclusion]); but a group whose executable is dropped
    because the executor was canceled stays closed
    ([canceled_group_stays_closed]). *)

From Stdlib Require Import ZArith Lia.
From stdpp Require Import base numbers list gmap.
From S2P Require Import Prelude Computation RclTypes Timer WaitSet CallbackGroups EntitiesCollector ExecutorWaitSet Executor ExecutorExample.
#[local] Open Scope Z_scope.

(** ** The threads

    Where a thread is in [run]: at the top of its loop; with an executable,
    before it executes it; in the callback; at the end. *)
Inductive Thread := AtTop | Took (a : AnyExecutable) | Running (a : AnyExecutable) | Returned.

Record Pool := mkPool { executor : Executor; threads : list Thread }.

(** The group of the executable that a thread has. *)
Definition holds (t : Thread) : option N := match t with Took a | Running a => any_group a | _ => None end.

(** What a thread does not change, the program may, while a callback runs or
    between: but for the flags of the groups whose executables are out, which
    are for those who took them. *)
Definition evolves_around (l : list Thread) (e e' : Executor) : Prop :=
  forall t g x', t ∈ l -> holds t = Some g -> groups (world e') !! g = Some x' ->
    exists x, groups (world e) !! g = Some x /\ type_ x' = type_ x /\ can_be_taken_from_ x' = can_be_taken_from_ x.

Section Threads.
Context `{WalkOrder} (next_exec_timeout_ : Z).

(** One pass of [run] is the steps from [AtTop] to [AtTop].  An exception
    ends the program: there is no step. *)
Inductive run_step : Pool -> Pool -> Prop :=
| run_take e l i t a e' :
    l !! i = Some AtTop -> context_ok t && spinning e = true ->
    get_next_executable t next_exec_timeout_ e = (Ok (Some a), e') ->
    run_step (mkPool e l) (mkPool e' (<[i := Took a]> l))
| run_nothing e l i t e' :
    l !! i = Some AtTop -> context_ok t && spinning e = true ->
    get_next_executable t next_exec_timeout_ e = (Ok None, e') ->
    run_step (mkPool e l) (mkPool e' l)
| run_return e l i t :
    l !! i = Some AtTop -> context_ok t && spinning e = false -> run_step (mkPool e l) (mkPool e (<[i := Returned]> l))
| run_execute e l i a :
    l !! i = Some (Took a) -> spinning e = true -> run_step (mkPool e l) (mkPool e (<[i := Running a]> l))
| run_skip e l i a :
    l !! i = Some (Took a) -> spinning e = false -> run_step (mkPool e l) (mkPool e (<[i := AtTop]> l))
| run_finish e l i a g :
    l !! i = Some (Running a) -> any_group a = Some g ->
    run_step (mkPool e l) (mkPool (open_group g e).2 (<[i := AtTop]> l))
| run_around e l e' :
    evolves_around l e e' -> run_step (mkPool e l) (mkPool e' l).

(** [spin]: the threads start. *)
Inductive run_reachable : Pool -> Prop :=
| run_start e n : run_reachable (mkPool e (replicate n AtTop))
| run_then s s' : run_reachable s -> run_step s s' -> run_reachable s'.

(** ** Flags *)

Definition flags (w : World) (g : N) : option (CallbackGroupType * bool) :=
  (fun x => (type_ x, can_be_taken_from_ x)) <$> groups w !! g.

Definition same_flags (w w' : World) : Prop := forall g, flags w' g = flags w g.

#[local] Instance same_flags_preorder : PreOrder same_flags.
Proof. split; [by intros w g|]. intros x y z H1 H2 g. by rewrite H2. Qed.

Definition flags_managed (st st' : Managed) : Prop := same_flags st.1 st'.1.
Definition flags_waiting (st st' : Waiting) : Prop := same_flags st.1 st'.1.
Definition flags_looking (st st' : Looking) : Prop := same_flags st.1.1 st'.1.1.
Definition flags_executor (e e' : Executor) : Prop := same_flags (world e) (world e').

#[local] Instance flags_managed_preorder : PreOrder flags_managed.
Proof. split; [by intros st g|]. intros x y z. unfold flags_managed. by transitivity y.1. Qed.
#[local] Instance flags_waiting_preorder : PreOrder flags_waiting.
Proof. split; [by intros st g|]. intros x y z. unfold flags_waiting. by transitivity y.1. Qed.
#[local] Instance flags_looking_preorder : PreOrder flags_looking.
Proof. split; [by intros st g|]. intros x y z. unfold flags_looking. by transitivity y.1.1. Qed.
#[local] Instance flags_executor_preorder : PreOrder flags_executor.
Proof. split; [by intros e g|]. intros x y z. unfold flags_executor. by transitivity (world y). Qed.

(** A change of a group that keeps its type and its flag. *)
Lemma flags_on_group f g w :
  (forall x, type_ (f x) = type_ x /\ can_be_taken_from_ (f x) = can_be_taken_from_ x) -> same_flags w (on_group f g w).
Proof.
  intros Hf g'. unfold flags, on_group. simpl. destruct (decide (g' = g)) as [->|Hg].
  - rewrite lookup_alter_eq. destruct (groups w !! g) as [x|]; [|done]. simpl. by destruct (Hf x) as [-> ->].
  - by rewrite lookup_alter_ne.
Qed.

Lemma keeps_on_world f : (forall w, same_flags w (f w)) -> Keeps flags_managed (on_world f).
Proof. intros Hf st. apply Hf. Qed.

Lemma keeps_associate_flags b g : Keeps flags_managed (on_world (associate_group b g)).
Proof. apply keeps_on_world. intros w. by apply flags_on_group. Qed.

Lemma keeps_associate_node_flags b n : Keeps flags_managed (on_world (associate_node b n)).
Proof. apply keeps_on_world. by intros w g. Qed.

Lemma keeps_on_collector_flags f : Keeps flags_managed (on_collector f).
Proof. by intros st g. Qed.

Lemma keeps_notify_add_flags g : Keeps flags_managed (notify_add g).
Proof.
  intros [w c] g'. simpl. unfold add_guard_condition. destruct g; [|done]. case_bool_decide; [|done]. by destruct (on_ready_callback_ _).
Qed.

Lemma keeps_notify_remove_flags g : Keeps flags_managed (notify_remove g).
Proof. intros [w c] g'. destruct g; [|done]. simpl. unfold remove_guard_condition. case_bool_decide; [|done]. by destruct (_ && _). Qed.

#[local] Hint Resolve keeps_associate_flags keeps_associate_node_flags keeps_on_collector_flags keeps_notify_add_flags
  keeps_notify_remove_flags : keeps.

Lemma keeps_keep_guard_flags g : Keeps flags_managed (keep_guard g).
Proof.
  intros [w c]. unfold keep_guard. rewrite get_bind.
  assert (Hs : same_flags w (get_notify_guard_condition g w).2).
  { unfold get_notify_guard_condition. destruct (groups w !! g); [|done]. destruct (context_valid w); [|done].
    by apply (flags_on_group set_guard_made g w). }
  destruct (get_notify_guard_condition g w) as [guard w']. simpl in Hs.
  transitivity (w', c); [exact Hs|]. rewrite (bind_ok _ _ _ (w', c) tt) by done. apply Keeps_bind; [apply _|auto with keeps..].
Qed.
#[local] Hint Resolve keeps_keep_guard_flags : keeps.

Lemma keeps_update_collections_flags : Keeps flags_managed update_collections.
Proof.
  unfold update_collections, process_queues, process_added_node, process_removed_node, process_added_group, process_removed_group,
    prune_invalid_nodes_and_groups, add_automatically_associated_callback_groups, associate_automatically,
    add_callback_group_to_collection, remove_weak_callback_group, remove_weak_node, drop_guard.
  keeps_steps.
Qed.

Lemma keeps_on_set_flags f : Keeps flags_waiting (on_set f).
Proof. by intros st g. Qed.
Lemma keeps_in_use_flags b e : Keeps (E := executor_error) flags_waiting (modify (fun st => (set_in_use b e st.1, st.2))).
Proof. by intros st g. Qed.
Lemma keeps_prune_flags : Keeps flags_waiting prune_deleted_entities.
Proof. by intros [w s] g. Qed.
Lemma keeps_mark_dirty_flags : Keeps flags_waiting mark_dirty.
Proof. by intros st g. Qed.
#[local] Hint Resolve keeps_on_set_flags keeps_in_use_flags keeps_prune_flags keeps_mark_dirty_flags : keeps.

Lemma keeps_add_to_set_flags k e : Keeps flags_waiting (add_to_set k e).
Proof. unfold add_to_set. keeps_steps. Qed.
Lemma keeps_remove_from_set_flags k e : Keeps flags_waiting (remove_from_set k e).
Proof. unfold remove_from_set. keeps_steps. Qed.
Lemma keeps_destroy_result_flags r : Keeps flags_waiting (destroy_wait_result r).
Proof. unfold destroy_wait_result, wait_result_release. keeps_steps. Qed.

Lemma keeps_finally {S A} R `{!Transitive R} (m : ST S executor_error A) f :
  Keeps R m -> (forall st, R st (f st)) -> Keeps R (finally m f).
Proof. intros Hm Hf st. unfold finally. specialize (Hm st). destruct (m st) as [x st1]. simpl in *. by transitivity st1. Qed.

Lemma keeps_wait_flags o t : Keeps flags_waiting (wait o t).
Proof.
  unfold wait. apply Keeps_bind; [apply _|auto with keeps|intros []]. apply Keeps_bind; [apply _|auto with keeps|intros _].
  apply keeps_finally; [apply _| |by intros st g].
  unfold sync_wait, storage_rebuild_rcl_wait_set, storage_rebuild_rcl_wait_set_with_sets, resize_if_needed, add_to_rcl,
    create_wait_result, wait_result_acquire. keeps_steps.
Qed.
#[local] Hint Resolve keeps_add_to_set_flags keeps_remove_from_set_flags keeps_destroy_result_flags keeps_wait_flags
  keeps_update_collections_flags : keeps.

Lemma keeps_clear_handle_flags k i : Keeps flags_looking (clear_handle k i).
Proof. by intros [[w s] r] g. Qed.
Lemma keeps_modify_result_flags f : Keeps (E := executor_error) flags_looking (modify (fun st : Looking => (st.1, f st))).
Proof. by intros st g. Qed.
#[local] Hint Resolve keeps_clear_handle_flags keeps_modify_result_flags : keeps.

Lemma keeps_get_wait_set_flags : Keeps flags_looking get_wait_set.
Proof. unfold get_wait_set. keeps_steps. Qed.
#[local] Hint Resolve keeps_get_wait_set_flags : keeps.

Lemma keeps_check_dirty_flags : Keeps flags_looking check_wait_result_dirty.
Proof. unfold check_wait_result_dirty. keeps_steps. Qed.
#[local] Hint Resolve keeps_check_dirty_flags : keeps.

Lemma keeps_peek_flags i : Keeps flags_looking (peek_next_ready_timer i).
Proof. unfold peek_next_ready_timer. keeps_steps. Qed.
Lemma keeps_clear_timer_flags i : Keeps flags_looking (clear_timer_with_index i).
Proof. unfold clear_timer_with_index. keeps_steps. Qed.
Lemma keeps_next_ready_flags k ek : Keeps flags_looking (next_ready k ek).
Proof. unfold next_ready. keeps_steps. Qed.
Lemma keeps_next_ready_waitable_flags o : Keeps flags_looking (next_ready_waitable o).
Proof. unfold next_ready_waitable. keeps_steps. Qed.
#[local] Hint Resolve keeps_peek_flags keeps_clear_timer_flags keeps_next_ready_flags keeps_next_ready_waitable_flags : keeps.

(** ** The executor *)

Lemma keeps_on_managed_flags {A} (m : ST Managed executor_error A) : Keeps flags_managed m -> Keeps flags_executor (on_managed m).
Proof. intros Hm e. unfold on_managed. specialize (Hm (world e, collector_ e)). by destruct (m _). Qed.
Lemma keeps_on_waiting_flags {A} (m : ST Waiting executor_error A) : Keeps flags_waiting m -> Keeps flags_executor (on_waiting m).
Proof. intros Hm e. unfold on_waiting. specialize (Hm (world e, wait_set_ e)). by destruct (m _). Qed.
Lemma keeps_with_result_flags {A} (m : ST Looking executor_error A) : Keeps flags_looking m -> Keeps flags_executor (with_result m).
Proof.
  intros Hm e. unfold with_result. rewrite get_bind. destruct (wait_result_ e) as [r|]; [|by intros g].
  unfold on_result. specialize (Hm ((world e, wait_set_ e), r)). by destruct (m _) as [x [[w s] r']].
Qed.
Lemma keeps_aside_flags f : (forall e, world (f e) = world e) -> Keeps (E := executor_error) flags_executor (modify f).
Proof. intros Hf e g. simpl. by rewrite Hf. Qed.
#[local] Hint Resolve keeps_on_managed_flags keeps_on_waiting_flags keeps_with_result_flags : keeps.
#[local] Hint Extern 2 (Keeps flags_executor (modify _)) => (apply keeps_aside_flags; done) : keeps.

Lemma keeps_replace_notify_flags a : Keeps (E := executor_error) flags_executor (modify (replace_notify a)).
Proof. by intros e g. Qed.
#[local] Hint Resolve keeps_replace_notify_flags : keeps.

Lemma keeps_wait_for_work_flags a o t : Keeps flags_executor (wait_for_work a o t).
Proof. unfold wait_for_work, collect_entities, update_entities, remove_gone, add_new, reset_wait_result. keeps_steps. Qed.

Lemma keeps_timer_call_flags h now : Keeps flags_executor (timer_call h now).
Proof.
  intros e g. unfold timer_call. rewrite get_bind. destruct (rcl_timer_call_with_info _ _) as [[[ret info] t] cb].
  unfold mbind, ST_bind. simpl. by destruct ret.
Qed.

(** What is picked has a group that could be taken from. *)
Definition picks (m : X (option AnyExecutable)) : Prop :=
  forall e x e', m e = (x, e') -> flags_executor e e' /\
    forall a, x = Ok (Some a) -> exists g ty, any_group a = Some g /\ flags (world e) g = Some (ty, true).

Lemma takeable_flags e k key g : takeable_group e k key = Some g -> exists ty, flags (world e) g = Some (ty, true).
Proof.
  unfold takeable_group, flags. destruct (current_collection_ e k !! key) as [[? [g'|]]|]; try done. simpl.
  destruct (groups (world e) !! g') as [x|] eqn:E; [|done]. destruct (can_be_taken_from_ x) eqn:Et; [|done].
  intros [= <-]. rewrite E. exists (type_ x). simpl. by rewrite Et.
Qed.

Lemma flags_transfer e e' g ty : flags_executor e e' -> flags (world e') g = Some (ty, true) -> flags (world e) g = Some (ty, true).
Proof. intros Hf. by rewrite (Hf g). Qed.

Lemma run_keeps {A} (m : X A) e x e' : Keeps flags_executor m -> m e = (x, e') -> flags_executor e e'.
Proof. intros Hm E. specialize (Hm e). by rewrite E in Hm. Qed.

Lemma next_of_kind_picks k next fuel : Keeps flags_looking next -> picks (next_of_kind k next fuel).
Proof.
  intros Hn. induction fuel as [|fuel IH]; intros e x e'; simpl; [by intros [= <- <-]|].
  unfold mbind at 1, ST_bind at 1. destruct (with_result next e) as [y e1] eqn:E.
  apply run_keeps in E; [|auto with keeps]. destruct y as [[z|]|err]; [|by intros [= <- <-]..]. rewrite get_bind.
  destruct (takeable_group _ _ _) as [g|] eqn:Eg.
  - intros [= <- <-]. split; [done|]. intros a [= <-]. apply takeable_flags in Eg as [ty Hty]. exists g, ty. split; [done|].
    by eapply flags_transfer.
  - intros Hx. apply IH in Hx as [H1 H2]. split; [by transitivity e1|]. intros a Ha. destruct (H2 a Ha) as (g & ty & Hg & Hty).
    exists g, ty. split; [done|]. by eapply flags_transfer.
Qed.

Lemma picks_later (m : X (option AnyExecutable)) e e1 x e' : picks m -> flags_executor e e1 -> m e1 = (x, e') ->
  flags_executor e e' /\ forall a, x = Ok (Some a) -> exists g ty, any_group a = Some g /\ flags (world e) g = Some (ty, true).
Proof.
  intros Hm He Hx. destruct (Hm _ _ _ Hx) as [H1 H2]. split; [by transitivity e1|].
  intros a Ha. destruct (H2 a Ha) as (g & ty & Hg & Hty). exists g, ty. split; [done|]. by eapply flags_transfer.
Qed.

Lemma next_timer_picks now_at fuel i : picks (next_timer now_at fuel i).
Proof.
  revert i. induction fuel as [|fuel IH]; intros i e x e'; simpl; [by intros [= <- <-]|].
  unfold mbind at 1, ST_bind at 1. destruct (with_result (peek_next_ready_timer i) e) as [y e1] eqn:E.
  apply run_keeps in E as H1; [|auto with keeps]. destruct y as [[[t|] j]|err]; [|by intros [= <- <-]..]. rewrite get_bind.
  destruct (takeable_group _ _ _) as [g|] eqn:Eg; [|by apply picks_later].
  apply takeable_flags in Eg as [ty Hty]. apply (flags_transfer e) in Hty; [|done].
  unfold mbind at 1, ST_bind at 1. destruct (with_result (clear_timer_with_index j) e1) as [y e2] eqn:E2.
  apply run_keeps in E2; [|auto with keeps]. assert (H2 : flags_executor e e2) by by transitivity e1.
  destruct y as [u|err]; [|by intros [= <- <-]].
  unfold mbind at 1, ST_bind at 1. destruct (timer_call _ _ e2) as [z e3] eqn:E3. apply run_keeps in E3; [|apply keeps_timer_call_flags].
  assert (H3 : flags_executor e e3) by by transitivity e2.
  destruct z as [[info|]|err]; [|by apply picks_later|by intros [= <- <-]].
  intros [= <- <-]. split; [done|]. intros a [= <-]. by exists g, ty.
Qed.

Lemma or_else_picks m m' : picks m -> picks m' -> picks (or_else m m').
Proof.
  intros Hm Hm' e x e'. unfold or_else, mbind, ST_bind. destruct (m e) as [[[a|]|err] e1] eqn:E; destruct (Hm _ _ _ E) as [H1 H2].
  - by intros [= <- <-].
  - by apply picks_later.
  - by intros [= <- <-].
Qed.

(** Flags after an executable was taken. *)
Definition taken_flags (e : Executor) (x : Result executor_error (option AnyExecutable)) (e' : Executor) : Prop :=
  match x with
  | Ok (Some a) => exists g ty, any_group a = Some g /\ flags (world e) g = Some (ty, true) /\
      forall g', flags (world e') g' = if bool_decide (g' = g) then Some (ty, bool_decide (ty = Reentrant)) else flags (world e) g'
  | _ => flags_executor e e'
  end.

Lemma get_next_ready_flags o now_at e x e' : get_next_ready_executable o now_at e = (x, e') -> taken_flags e x e'.
Proof.
  unfold get_next_ready_executable. rewrite get_bind. destruct (wait_result_ e) as [r|]; [|by intros [= <- <-]].
  case_bool_decide; [cbn [negb]|by intros [= <- <-]]. unfold mbind at 1, ST_bind at 1.
  match goal with |- context [match ?m with _ => _ end] => destruct m as [y e1] eqn:E end.
  assert (Hp : flags_executor e e1 /\ forall a, y = Ok (Some a) -> exists g ty, any_group a = Some g /\ flags (world e) g = Some (ty, true)).
  { revert E. apply picks_later; [|done]. repeat apply or_else_picks; try apply next_timer_picks; try (apply next_of_kind_picks; auto with keeps).
    intros e2 z e3. rewrite get_bind. apply next_of_kind_picks. auto with keeps. }
  destruct Hp as [H1 H2]. destruct y as [[a|]|err]; [|by intros [= <- <-]..]. destruct (H2 a eq_refl) as (g & ty & Hg & Hty).
  rewrite Hg. intros [= <- <-]. exists g, ty. split_and!; [done..|]. intros g'. simpl. unfold flags, on_group. simpl.
  rewrite <- (H1 g) in Hty. case_bool_decide as Hgg; [subst g'|].
  - rewrite lookup_alter_eq. unfold flags in Hty. destruct (groups (world e1) !! g) as [z|]; [|done]. simpl in *. injection Hty as <- Ht.
    destruct (type_ z) eqn:Ez; simpl; by rewrite ?Ez, ?Ht.
  - rewrite lookup_alter_ne by done. apply (H1 g').
Qed.

Lemma get_next_flags t timeout e x e' : get_next_executable t timeout e = (x, e') -> taken_flags e x e'.
Proof.
  unfold get_next_executable, mbind, ST_bind. destruct (get_next_ready_executable _ _ e) as [y e1] eqn:E.
  apply get_next_ready_flags in E. destruct y as [[a|]|err]; [by intros [= <- <-]| |by intros [= <- <-]]. simpl in E.
  destruct (wait_for_work _ _ _ e1) as [z e2] eqn:E2. apply run_keeps in E2; [|apply keeps_wait_for_work_flags].
  assert (H2 : flags_executor e e2) by by transitivity e1. destruct z as [u|err]; [|by intros [= <- <-]]. simpl.
  destruct (negb (spinning e2)); [by intros [= <- <-]|]. intros Hx. apply get_next_ready_flags in Hx. unfold taken_flags in *.
  destruct x as [[a|]|err]; [|by transitivity e2..]. destruct Hx as (g & ty & Hg & Hty & Hall). exists g, ty.
  split_and!; [done|by eapply flags_transfer|]. intros g'. by rewrite Hall, (H2 g').
Qed.

(** ** Callbacks of a group *)

(** A group whose executable is out is closed, if it is mutually exclusive,
    and then only one thread has one. *)
Definition exclusive (s : Pool) : Prop :=
  (forall i t g b, threads s !! i = Some t -> holds t = Some g -> flags (world (executor s)) g = Some (MutuallyExclusive, b) -> b = false) /\
  forall i j ti tj g b, i <> j -> threads s !! i = Some ti -> threads s !! j = Some tj -> holds ti = Some g -> holds tj = Some g ->
    flags (world (executor s)) g <> Some (MutuallyExclusive, b).

(** Threads that hold no more than before. *)
Lemma exclusive_release e l l' :
  (forall i t g, l' !! i = Some t -> holds t = Some g -> exists t0, l !! i = Some t0 /\ holds t0 = Some g) ->
  exclusive (mkPool e l) -> exclusive (mkPool e l').
Proof.
  intros Hl [H1 H2]. split; simpl in *.
  - intros i t g b Hi Ht. destruct (Hl i t g Hi Ht) as (t0 & ? & ?). by eapply H1.
  - intros i j ti tj g b Hij Hi Hj Hti Htj. destruct (Hl i ti g Hi Hti) as (t1 & ? & ?). destruct (Hl j tj g Hj Htj) as (t2 & ? & ?).
    by eapply H2.
Qed.

Lemma exclusive_flags e e' l : flags_executor e e' -> exclusive (mkPool e l) -> exclusive (mkPool e' l).
Proof. intros Hf [H1 H2]. split; simpl in *; intros *; rewrite (Hf g); eauto. Qed.

Lemma holds_insert (l : list Thread) i t0 t :
  l !! i = Some t0 -> (forall g, holds t = Some g -> holds t0 = Some g) ->
  forall j t' g, <[i := t]> l !! j = Some t' -> holds t' = Some g -> exists t1, l !! j = Some t1 /\ holds t1 = Some g.
Proof.
  intros Hi Ht j t' g Hj Hg. destruct (decide (j = i)) as [->|Hne].
  - rewrite list_lookup_insert_eq in Hj by by eapply lookup_lt_Some. injection Hj as <-. exists t0. auto.
  - rewrite list_lookup_insert_ne in Hj by done. by exists t'.
Qed.

Lemma exclusive_take e l i a e' :
  l !! i = Some AtTop -> taken_flags e (Ok (Some a)) e' -> exclusive (mkPool e l) -> exclusive (mkPool e' (<[i := Took a]> l)).
Proof.
  intros Hi (g & ty & Hg & Hty & Hall) [H1 H2]. simpl in *.
  assert (Hl : forall j t, <[i := Took a]> l !! j = Some t -> j = i /\ t = Took a \/ j <> i /\ l !! j = Some t).
  { intros j t Hj. destruct (decide (j = i)) as [->|Hne]; [|rewrite list_lookup_insert_ne in Hj by done; auto].
    rewrite list_lookup_insert_eq in Hj by by eapply lookup_lt_Some. injection Hj as <-. auto. }
  assert (Hfree : forall j t, l !! j = Some t -> holds t = Some g -> ty = Reentrant).
  { intros j t Hj Ht. destruct ty; [|done]. by specialize (H1 j t g true Hj Ht Hty). }
  split; simpl.
  - intros j t g' b [[-> ->]|[Hne Hj]]%Hl Ht; rewrite Hall.
    + simpl in Ht. rewrite Hg in Ht. injection Ht as <-. rewrite bool_decide_true by done. intros [= -> <-]. done.
    + destruct (decide (g' = g)) as [->|Hgg]; [rewrite bool_decide_true by done|rewrite bool_decide_false by done; by eapply H1].
      by rewrite (Hfree j t Hj Ht).
  - intros j k tj tk g' b Hjk [[-> ->]|[Hnj Hj]]%Hl [[-> ->]|[Hnk Hk]]%Hl Htj Htk; try done; rewrite Hall;
      (destruct (decide (g' = g)) as [->|Hgg]; [rewrite bool_decide_true by done|rewrite bool_decide_false by done]); simpl in *.
    + by rewrite (Hfree k tk Hk Htk).
    + rewrite Hg in Htj. congruence.
    + by rewrite (Hfree j tj Hj Htj).
    + rewrite Hg in Htk. congruence.
    + by rewrite (Hfree j tj Hj Htj).
    + by eapply (H2 j k).
Qed.

Lemma exclusive_finish e l i a g :
  l !! i = Some (Running a) -> any_group a = Some g -> exclusive (mkPool e l) ->
  exclusive (mkPool (open_group g e).2 (<[i := AtTop]> l)).
Proof.
  intros Hi Hg Hex. pose proof Hex as [_ Hold]. simpl in Hold.
  apply (exclusive_release e l (<[i := AtTop]> l)) in Hex; [|by apply (holds_insert l i (Running a) AtTop)]. destruct Hex as [H1 H2].
  assert (Hne : forall j t, <[i := AtTop]> l !! j = Some t -> holds t = Some g -> j <> i /\ l !! j = Some t).
  { intros j t Hj Ht. destruct (decide (j = i)) as [->|Hne].
    - rewrite list_lookup_insert_eq in Hj by by eapply lookup_lt_Some. by injection Hj as <-.
    - by rewrite list_lookup_insert_ne in Hj. }
  assert (Hf : forall g' ty b, flags (world (open_group g e).2) g' = Some (ty, b) -> g' = g /\ (exists b', flags (world e) g = Some (ty, b')) \/
    g' <> g /\ flags (world e) g' = Some (ty, b)).
  { intros g' ty b. unfold flags, open_group, on_group. simpl. destruct (decide (g' = g)) as [->|Hgg].
    - rewrite lookup_alter_eq. destruct (groups (world e) !! g) as [x|]; [|done]. simpl. intros [= <- _]. left. eauto.
    - rewrite lookup_alter_ne by done. auto. }
  split; simpl in *.
  - intros j t g' b Hj Ht [[-> [b' Hb]]|[Hgg Hb]]%Hf; [|by eapply H1]. exfalso. destruct (Hne j t Hj Ht) as [Hji Hj'].
    by apply (Hold j i t (Running a) g b' Hji).
  - intros j k tj tk g' b Hjk Hj Hk Htj Htk [[-> [b' Hb]]|[Hgg Hb]]%Hf; [|by eapply H2].
    by apply (H2 j k tj tk g b' Hjk).
Qed.

Lemma exclusive_reachable s : run_reachable s -> exclusive s.
Proof.
  induction 1 as [e n|s s' _ IH Hs].
  { split; simpl; intros *; intros ?%lookup_replicate || intros ? ?%lookup_replicate; naive_solver. }
  destruct Hs as [e l i t a e' Hi _ E|e l i t e' Hi _ E|e l i t Hi _|e l i a Hi _|e l i a Hi _|e l i a g Hi Hg|e l e' He].
  - apply get_next_flags in E. by apply (exclusive_take e).
  - apply get_next_flags in E. by apply (exclusive_flags e).
  - eapply exclusive_release; [|exact IH]. by apply (holds_insert l i AtTop Returned).
  - eapply exclusive_release; [|exact IH]. by apply (holds_insert l i (Took a) (Running a)).
  - eapply exclusive_release; [|exact IH]. by apply (holds_insert l i (Took a) AtTop).
  - by eapply exclusive_finish.
  - destruct IH as [H1 H2]. simpl in *.
    assert (Hf : forall t g ty b, t ∈ l -> holds t = Some g -> flags (world e') g = Some (ty, b) -> flags (world e) g = Some (ty, b)).
    { intros t g ty b Ht Hg. unfold flags. destruct (groups (world e') !! g) as [x'|] eqn:Ex; [|done]. simpl. intros [= <- <-].
      destruct (He t g x' Ht Hg Ex) as (x & -> & -> & ->). done. }
    split; simpl; intros *.
    + intros Hi Ht Hb. eapply H1; [done..|]. eapply Hf; [by eapply list_elem_of_lookup_2|done..].
    + intros Hij Hi Hj Hti Htj Hb. eapply H2; [done..|]. eapply Hf; [by eapply list_elem_of_lookup_2|done..].
Qed.

(** C8: whatever happens, a mutually exclusive group is never with two threads
    at once, from when its executable is taken to the end of the callback, and
    while one has it, the group may not be taken from. *)
Theorem mutual_exclusion s i ti g x :
  run_reachable s -> threads s !! i = Some ti -> holds ti = Some g ->
  groups (world (executor s)) !! g = Some x -> type_ x = MutuallyExclusive ->
  can_be_taken_from_ x = false /\ forall j tj, threads s !! j = Some tj -> holds tj = Some g -> j = i.
Proof.
  intros [H1 H2]%exclusive_reachable Hi Ht Hx Hty.
  assert (Hf : flags (world (executor s)) g = Some (MutuallyExclusive, can_be_taken_from_ x)) by (unfold flags; by rewrite Hx, <- Hty).
  split; [by eapply H1|]. intros j tj Hj Htj. destruct (decide (j = i)) as [|Hne]; [done|]. by destruct (H2 j i tj ti g _ Hne Hj Hi Htj Ht Hf).
Qed.

Lemma evolves_cancel l e : evolves_around l e (set_spinning false e).
Proof. intros t g x' _ _ Hx. by exists x'. Qed.

(** but if the executor is canceled while a thread has an executable and
    does not execute it yet, the thread drops it, and its mutually exclusive
    group stays closed with nobody to open it. *)
Theorem canceled_group_stays_closed s i a g x :
  run_reachable s -> threads s !! i = Some (Took a) -> any_group a = Some g ->
  groups (world (executor s)) !! g = Some x -> type_ x = MutuallyExclusive ->
  exists s', run_reachable s' /\ threads s' = <[i := AtTop]> (threads s) /\ groups (world (executor s')) !! g = Some x /\
    can_be_taken_from_ x = false /\ forall j t, threads s' !! j = Some t -> holds t <> Some g.
Proof.
  intros Hr Hi Hg Hx Hty. destruct s as [e l]. simpl in *.
  assert (Hs : exclusive (mkPool e l)) by by apply exclusive_reachable. destruct Hs as [H1 H2]. simpl in *.
  assert (Hf : flags (world e) g = Some (MutuallyExclusive, can_be_taken_from_ x)) by (unfold flags; by rewrite Hx, <- Hty).
  exists (mkPool (set_spinning false e) (<[i := AtTop]> l)). split_and!; simpl; try done; [|by eapply H1|].
  - eapply run_then; [|by apply (run_skip _ l i a)]. eapply run_then; [exact Hr|]. apply run_around, evolves_cancel.
  - intros j t Hj Ht. destruct (decide (j = i)) as [->|Hne].
    + rewrite list_lookup_insert_eq in Hj by by eapply lookup_lt_Some. by injection Hj as <-.
    + rewrite list_lookup_insert_ne in Hj by done. by apply (H2 j i t (Took a) g _ Hne Hj Hi Ht Hg Hf).
Qed.
End Threads.

(** ** Two threads, one of which has taken the timer *)

Definition spinning_executor : Executor := set_spinning true some_executor.

Definition example_take : Result executor_error (option AnyExecutable) * Executor := get_next_executable (quiet_turn 302) (-1) spinning_executor.

Definition example_timer_taken : AnyExecutable := mkAny (Some (Timers, 20%N)) (Some 10%N) (Some (mkCallInfo 500 1000)).

Lemma example_taken : run_reachable (-1) (mkPool example_take.2 [Took example_timer_taken; AtTop]).
Proof.
  eapply run_then; [apply (run_start (-1) spinning_executor 2)|].
  apply (run_take (-1) spinning_executor [AtTop; AtTop] 0 (quiet_turn 302) example_timer_taken example_take.2 eq_refl).
  - vm_compute. reflexivity.
  - assert (E : example_take.1 = Ok (Some example_timer_taken)) by (vm_compute; reflexivity). rewrite <- E. apply surjective_pairing.
Qed.

Definition closed_group : CallbackGroup := set_taken_from (set_guard_made (set_associated full_group true)) false.

Lemma example_closed : groups (world example_take.2) !! 10%N = Some closed_group.
Proof. vm_compute. reflexivity. Qed.

Lemma mutual_exclusion_witness :
  can_be_taken_from_ closed_group = false /\ holds AtTop <> holds (Took example_timer_taken).
Proof.
  destruct (mutual_exclusion (-1) (mkPool example_take.2 [Took example_timer_taken; AtTop]) 0 (Took example_timer_taken) 10 closed_group
    example_taken eq_refl eq_refl example_closed eq_refl) as [Hc Ho].
  split; [exact Hc|]. intros Hh. discriminate (Ho 1%nat AtTop eq_refl Hh).
Defined.

Lemma canceled_group_stays_closed_witness :
  exists s', run_reachable (-1) s' /\ threads s' = [AtTop; AtTop] /\ groups (world (executor s')) !! 10%N = Some closed_group.
Proof.
  destruct (canceled_group_stays_closed (-1) (mkPool example_take.2 [Took example_timer_taken; AtTop]) 0 example_timer_taken 10 closed_group
    example_taken eq_refl eq_refl example_closed eq_refl) as (s' & H1 & H2 & H3 & _).
  exists s'. split; [exact H1|]. split; [exact H2|exact H3].
Defined.
