(* ===== verification/Heap.v ===== *)
(** * Binary heaps of the C++ library

    [std::push_heap], [std::pop_heap] and [std::make_heap] on a vector, with
    the loops by which libstdc++ does them ([__push_heap], [__adjust_heap]):
    an element is taken out, which leaves a hole, the hole moves down to a
    leaf along the greater children, and then the element moves up from
    there.  [comp] is the comparison given to them; the head is an element
    that compares below no other. *)

From Stdlib Require Import ZArith Lia.
From stdpp Require Import base list.
From S2P Require Import Prelude.

(** ** The loops *)

Definition parent (i : nat) : nat := (i - 1) / 2.

Section Algorithms.
Context {A : Type} (comp : A -> A -> bool).

(** [__push_heap].  The hole moves to smaller places, so that [S hole] is
    fuel enough. *)
Fixpoint push_up (fuel hole top : nat) (value : A) (l : list A) : list A :=
  match fuel with
  | O => <[hole := value]> l
  | S fuel =>
    if (top <? hole)%nat then
      match l !! parent hole with
      | Some x => if comp x value then push_up fuel (parent hole) top value (<[hole := x]> l) else <[hole := value]> l
      | None => <[hole := value]> l
      end
    else <[hole := value]> l
  end.

(** The first part of [__adjust_heap]: where the hole ends, in the first [len]
    places; it moves to greater places. *)
Fixpoint sift_down (fuel hole len : nat) (l : list A) : nat * list A :=
  match fuel with
  | O => (hole, l)
  | S fuel =>
    if (hole <? (len - 1) / 2)%nat then
      let second := (2 * (hole + 1))%nat in
      match l !! second, l !! (second - 1)%nat with
      | Some x, Some y =>
        if comp x y then sift_down fuel (second - 1) len (<[hole := y]> l) else sift_down fuel second len (<[hole := x]> l)
      | _, _ => (hole, l)
      end
    else if Nat.even len && (hole =? (len - 2) / 2)%nat then
      match l !! (2 * (hole + 1) - 1)%nat with
      | Some y => ((2 * (hole + 1) - 1)%nat, <[hole := y]> l)
      | None => (hole, l)
      end
    else (hole, l)
  end.

Definition adjust_heap (hole len : nat) (value : A) (l : list A) : list A :=
  let '(hole', l) := sift_down (S len) hole len l in push_up (S hole') hole' hole value l.

Definition push_heap (l : list A) : list A :=
  match last l with
  | Some value => push_up (length l) (length l - 1) 0 value l
  | None => l
  end.

Definition pop_heap (l : list A) : list A :=
  if (1 <? length l)%nat then
    match last l, head l with
    | Some value, Some first => adjust_heap 0 (length l - 1) value (<[(length l - 1)%nat := first]> l)
    | _, _ => l
    end
  else l.

Fixpoint make_from (parent len : nat) (l : list A) : list A :=
  let l := match l !! parent with Some value => adjust_heap parent len value l | None => l end in
  match parent with O => l | S parent => make_from parent len l end.

Definition make_heap (l : list A) : list A :=
  if (length l <? 2)%nat then l else make_from ((length l - 2) / 2) (length l) l.
End Algorithms.

Example make_heap_example : make_heap (fun a b => (b <? a)%nat) [5; 3; 8; 1; 9; 2]%nat = [1; 3; 2; 5; 9; 8]%nat.
Proof. reflexivity. Qed.

(** ** Places *)

Lemma parent_lt i : (0 < i)%nat -> (parent i < i)%nat.
Proof. unfold parent. intros. apply Nat.Div0.div_lt_upper_bound. lia. Qed.

Lemma parent_child i c : parent c = i <-> (c = 2 * i + 1 \/ c = 2 * i + 2 \/ (c = 0 /\ i = 0))%nat.
Proof.
  unfold parent. split.
  - intros <-. pose proof (Nat.div_mod (c - 1) 2 ltac:(lia)). pose proof (Nat.mod_upper_bound (c - 1) 2 ltac:(lia)). lia.
  - intros [->|[->|[-> ->]]]; [..|done].
    + replace (2 * i + 1 - 1)%nat with (i * 2)%nat by lia. by apply Nat.div_mul.
    + replace (2 * i + 2 - 1)%nat with (1 + i * 2)%nat by lia. rewrite Nat.div_add by lia. done.
Qed.

(** [c] is in the subtree of [k]. *)
Inductive under (k : nat) : nat -> Prop :=
| under_root : under k k
| under_child c : (0 < c)%nat -> under k (parent c) -> under k c.

Lemma under_ge k h : under k h -> (k <= h)%nat.
Proof. induction 1 as [|c Hc _ IH]; [done|]. pose proof (parent_lt c Hc). lia. Qed.

Lemma under_parent k h : under k h -> (k < h)%nat -> under k (parent h).
Proof. destruct 1; [lia|done]. Qed.

(** The hole moves from [i] to [j]: what was at [j] goes to [i]. *)
Lemma move_hole {A} (l : list A) i j x v :
  i <> j -> (i < length l)%nat -> l !! j = Some x -> <[j := v]> (<[i := x]> l) ≡ₚ <[i := v]> l.
Proof.
  intros Hij Hi Hj. rewrite <- (Permutation_insert_swap (<[i := v]> l) i j v x).
  - by rewrite list_insert_insert_eq.
  - by apply list_lookup_insert_eq.
  - by rewrite list_lookup_insert_ne.
Qed.

(** Whatever the order, [push_heap] only exchanges elements. *)
Lemma push_up_perm {A} (comp : A -> A -> bool) fuel h k v l :
  (h < length l)%nat -> push_up comp fuel h k v l ≡ₚ <[h := v]> l.
Proof.
  revert h l. induction fuel as [|fuel IH]; intros h l Hl; [done|]. cbn [push_up].
  destruct (Nat.ltb_spec k h) as [Hkh|]; [|done]. destruct (l !! parent h) as [x|] eqn:Hx; [|done].
  destruct (comp x v); [|done]. pose proof (parent_lt h ltac:(lia)).
  rewrite IH by (rewrite length_insert; lia). apply move_hole; [lia..|done].
Qed.

Lemma push_heap_perm {A} (comp : A -> A -> bool) l : push_heap comp l ≡ₚ l.
Proof.
  unfold push_heap. destruct (last l) as [v|] eqn:E; [|done]. rewrite last_lookup in E.
  pose proof (lookup_lt_Some _ _ _ E). rewrite push_up_perm by lia.
  rewrite <- Nat.sub_1_r in E. by rewrite list_insert_id.
Qed.

(** So do the others. *)
Lemma sift_down_perm {A} (comp : A -> A -> bool) fuel h len l :
  (h < len <= length l)%nat ->
  let '(h', l') := sift_down comp fuel h len l in
  (h' < len)%nat /\ length l' = length l /\ (forall v, <[h' := v]> l' ≡ₚ <[h := v]> l) /\ forall i, (len <= i)%nat -> l' !! i = l !! i.
Proof.
  revert h l. induction fuel as [|fuel IH]; intros h l Hl; cbn [sift_down]; [by split_and!; [lia|..]|].
  pose proof (Nat.div_mod (len - 1) 2 ltac:(lia)). pose proof (Nat.mod_upper_bound (len - 1) 2 ltac:(lia)).
  assert (Hsame : (h < len)%nat /\ length l = length l /\ (forall v, <[h := v]> l ≡ₚ <[h := v]> l) /\ forall i, (len <= i)%nat -> l !! i = l !! i)
    by (by split_and!; [lia|..]).
  assert (Hstep : forall c x, (h < c < len)%nat -> l !! c = Some x ->
    let '(h', l') := sift_down comp fuel c len (<[h := x]> l) in
    (h' < len)%nat /\ length l' = length l /\ (forall v, <[h' := v]> l' ≡ₚ <[h := v]> l) /\ forall i, (len <= i)%nat -> l' !! i = l !! i).
  { intros c x Hc Hx. specialize (IH c (<[h := x]> l) ltac:(rewrite length_insert; lia)).
    destruct (sift_down comp fuel c len (<[h := x]> l)) as [h' l']. destruct IH as (H1 & H2 & H3 & H4). rewrite length_insert in H2.
    split_and!; try done; [intros v; rewrite H3; by apply move_hole; [lia..|]|].
    intros i Hi. by rewrite H4, list_lookup_insert_ne by lia. }
  destruct (Nat.ltb_spec h ((len - 1) / 2)) as [Hlt|Hge].
  - destruct (l !! (2 * (h + 1))%nat) as [x|] eqn:Hx; [|done]. destruct (l !! (2 * (h + 1) - 1)%nat) as [y|] eqn:Hy; [|done].
    destruct (comp x y); apply Hstep; done || lia.
  - destruct (Nat.even len && (h =? (len - 2) / 2)%nat) eqn:E; [|done].
    apply andb_true_iff in E as [[n En]%Nat.even_spec Eh%Nat.eqb_eq].
    assert (Hn : h = (n - 1)%nat) by (rewrite Eh, En; replace (2 * n - 2)%nat with ((n - 1) * 2)%nat by lia; by apply Nat.div_mul).
    destruct (l !! (2 * (h + 1) - 1)%nat) as [y|] eqn:Hy; [|done].
    split_and!; [lia|apply length_insert|intros v; by apply move_hole; [lia..|]|]. intros i Hi. by rewrite list_lookup_insert_ne by lia.
Qed.

Lemma push_up_after {A} (comp : A -> A -> bool) fuel h k v l i : (h < i)%nat -> push_up comp fuel h k v l !! i = l !! i.
Proof.
  revert h l. induction fuel as [|fuel IH]; intros h l Hi; cbn [push_up]; [by rewrite list_lookup_insert_ne by lia|].
  destruct (Nat.ltb_spec k h) as [Hkh|]; [|by rewrite list_lookup_insert_ne by lia].
  destruct (l !! parent h) as [x|]; [|by rewrite list_lookup_insert_ne by lia].
  destruct (comp x v); [|by rewrite list_lookup_insert_ne by lia]. pose proof (parent_lt h ltac:(lia)).
  rewrite IH by lia. by rewrite list_lookup_insert_ne by lia.
Qed.

Lemma adjust_heap_perm {A} (comp : A -> A -> bool) h len v l :
  (h < len <= length l)%nat ->
  adjust_heap comp h len v l ≡ₚ <[h := v]> l /\ forall i, (len <= i)%nat -> adjust_heap comp h len v l !! i = l !! i.
Proof.
  intros Hl. unfold adjust_heap. pose proof (sift_down_perm comp (S len) h len l Hl) as H.
  destruct (sift_down comp (S len) h len l) as [h' l']. destruct H as (H1 & H2 & H3 & H4). split.
  - rewrite push_up_perm by lia. apply H3.
  - intros i Hi. rewrite push_up_after by lia. by apply H4.
Qed.

(** ** Order *)

Section Order.
Context {A : Type} (key : A -> Z).

(** [comp a b]: [a] comes after [b]. *)
Definition later (a b : A) : bool := (key b <? key a)%Z.

Definition le_at (l : list A) (i j : nat) : Prop := forall x y, l !! i = Some x -> l !! j = Some y -> (key x <= key y)%Z.

(** The first [len] elements are in order below the places from [k] on. *)
Definition heap_from (k len : nat) (l : list A) : Prop :=
  forall i, (0 < i < len)%nat -> (k <= parent i)%nat -> le_at l (parent i) i.

Definition is_heap (l : list A) : Prop := heap_from 0 (length l) l.

(** They are so but for the place [h], whose children come after its parent. *)
Definition hole_from (k h len : nat) (l : list A) : Prop :=
  (forall i, (0 < i < len)%nat -> (k <= parent i)%nat -> i <> h -> parent i <> h -> le_at l (parent i) i) /\
  (forall c, (0 < c < len)%nat -> parent c = h -> (0 < h)%nat -> (k <= parent h)%nat -> le_at l (parent h) c).

Lemma hole_of_heap k len l : heap_from (S k) len l -> hole_from k k len l.
Proof.
  intros H. split.
  - intros i Hi Hk _ Hp. apply H; [done|lia].
  - intros c _ _ Hk Hp. pose proof (parent_lt k Hk). lia.
Qed.

(** What is at [j] goes up or down to the hole. *)
Lemma le_at_insert l h x i j :
  le_at (<[h := x]> l) i j <->
  forall a b, (if decide (i = h) then (h < length l)%nat /\ a = x else l !! i = Some a) ->
    (if decide (j = h) then (h < length l)%nat /\ b = x else l !! j = Some b) -> (key a <= key b)%Z.
Proof.
  unfold le_at. split; intros H a b Ha Hb; apply H; revert Ha Hb.
  - destruct (decide (i = h)) as [->|]; [|by rewrite list_lookup_insert_ne].
    intros [Hl ->] _. by apply list_lookup_insert_eq.
  - intros _. destruct (decide (j = h)) as [->|]; [|by rewrite list_lookup_insert_ne].
    intros [Hl ->]. by apply list_lookup_insert_eq.
  - destruct (decide (i = h)) as [->|]; [|by rewrite list_lookup_insert_ne].
    intros E _. apply list_lookup_insert_Some in E as [(_ & <- & ?)|[]]; done.
  - intros _. destruct (decide (j = h)) as [->|]; [|by rewrite list_lookup_insert_ne].
    intros E. apply list_lookup_insert_Some in E as [(_ & <- & ?)|[]]; done.
Qed.

(** Moving the hole down to the child [c] that comes first. *)
Lemma hole_down k h len l c x :
  hole_from k h len l -> (k <= h < length l)%nat -> (0 < c < len)%nat -> parent c = h -> l !! c = Some x ->
  (forall s, (0 < s < len)%nat -> parent s = h -> le_at l c s) ->
  hole_from k c len (<[h := x]> l).
Proof.
  intros [Ho Hb] Hh Hc Hp Hx Hs. pose proof (parent_lt c ltac:(lia)) as Hlt. split.
  - intros i Hi Hk Hic Hpc. apply le_at_insert. intros a b Ha Hb'.
    destruct (decide (i = h)) as [->|Hih].
    + destruct Hb' as [_ ->]. destruct (decide (parent h = h)) as [E|_]; [pose proof (parent_lt h ltac:(lia)); lia|].
      by apply (Hb c ltac:(lia) Hp ltac:(lia) Hk).
    + destruct (decide (parent i = h)) as [Hih'|Hih'].
      * destruct Ha as [_ ->]. by apply (Hs i).
      * by apply (Ho i).
  - intros d Hd Hpd H0 Hk. rewrite Hp. pose proof (parent_lt d ltac:(lia)). apply le_at_insert. intros a b Ha Hb'.
    rewrite decide_True in Ha by done. rewrite decide_False in Hb' by lia. destruct Ha as [_ ->].
    apply (Ho d); rewrite ?Hpd; [lia..|done|done].
Qed.

(** Moving it up. *)
Lemma hole_up k h len l x :
  hole_from k h len l -> (k < h < len)%nat -> (h < length l)%nat -> (k <= parent h)%nat -> l !! parent h = Some x ->
  hole_from k (parent h) len (<[h := x]> l).
Proof.
  intros [Ho Hb] Hh Hl Hk Hx. pose proof (parent_lt h ltac:(lia)) as Hlt. split.
  - intros i Hi Hki Hip Hpp. apply le_at_insert. intros a b Ha Hb'.
    destruct (decide (i = h)) as [->|Hih]; [done|].
    destruct (decide (parent i = h)) as [Hih'|Hih']; [|by apply (Ho i)].
    destruct Ha as [_ ->]. by apply (Hb i ltac:(lia) Hih' ltac:(lia) Hk).
  - intros c Hc Hpc H0 Hkp. pose proof (parent_lt (parent h) H0).
    assert (Hpp : le_at l (parent (parent h)) (parent h)) by (apply (Ho (parent h)); lia).
    apply le_at_insert. intros a b Ha Hb'. rewrite decide_False in Ha by lia. specialize (Hpp a x Ha Hx).
    destruct (decide (c = h)) as [->|Hch]; [by destruct Hb' as [_ ->]|].
    transitivity (key x); [done|]. apply (Ho c); rewrite ?Hpc; [lia..|done|done].
Qed.

(** Closing it. *)
Lemma hole_close k h len l v :
  hole_from k h len l -> (h < length l)%nat ->
  (forall c y, (0 < c < len)%nat -> parent c = h -> l !! c = Some y -> (key v <= key y)%Z) ->
  (forall x, (0 < h)%nat -> (k <= parent h)%nat -> l !! parent h = Some x -> (key x <= key v)%Z) ->
  heap_from k len (<[h := v]> l).
Proof.
  intros [Ho _] Hl Hc Hp i Hi Hk. apply le_at_insert. intros a b Ha Hb.
  destruct (decide (i = h)) as [->|Hih].
  - destruct Hb as [_ ->]. destruct (decide (parent h = h)) as [E|_]; [pose proof (parent_lt h ltac:(lia)); lia|].
    apply (Hp a); [lia|done..].
  - destruct (decide (parent i = h)) as [Hih'|Hih']; [|by apply (Ho i)].
    destruct Ha as [_ ->]. by apply (Hc i).
Qed.
End Order.

(** ** What the loops do *)

Section Loops.
Context {A : Type} (key : A -> Z).
Notation comp := (later key).

(** The places from [len] on are left alone. *)
Definition same_after (len : nat) (l l' : list A) : Prop :=
  length l' = length l /\ forall i, (len <= i)%nat -> l' !! i = l !! i.

Lemma same_after_insert len l h x : (h < len)%nat -> same_after len l (<[h := x]> l).
Proof. intros Hh. split; [apply length_insert|]. intros i Hi. by rewrite list_lookup_insert_ne by lia. Qed.

Lemma same_after_trans len l1 l2 l3 : same_after len l1 l2 -> same_after len l2 l3 -> same_after len l1 l3.
Proof. intros [E1 H1] [E2 H2]. split; [by rewrite E2|]. intros i Hi. by rewrite H2, H1. Qed.

Lemma push_up_spec fuel k h len value l :
  hole_from key k h len l -> under k h -> (h < len <= length l)%nat -> (h < fuel)%nat ->
  (forall c y, (0 < c < len)%nat -> parent c = h -> l !! c = Some y -> (key value <= key y)%Z) ->
  let l' := push_up comp fuel h k value l in
  heap_from key k len l' /\ l' ≡ₚ <[h := value]> l /\ same_after len l l'.
Proof.
  revert h l. induction fuel as [|fuel IH]; intros h l Hh Hu Hl Hf Hc; [lia|]. cbn [push_up].
  destruct (Nat.ltb_spec k h) as [Hkh|Hkh].
  2:{ split; [|by split; [|apply same_after_insert; lia]]. apply hole_close; [done|lia|done|].
      intros x H0 Hk. pose proof (parent_lt h H0). lia. }
  pose proof (under_parent k h Hu Hkh) as Hup. pose proof (under_ge k _ Hup) as Hkp. pose proof (parent_lt h ltac:(lia)) as Hlt.
  destruct (lookup_lt_is_Some_2 l (parent h) ltac:(lia)) as [x Hx]. rewrite Hx.
  destruct (later key x value) eqn:Hxv; unfold later in Hxv; [apply Z.ltb_lt in Hxv|apply Z.ltb_ge in Hxv].
  - destruct (IH (parent h) (<[h := x]> l)) as (H1 & H2 & H3); [by apply hole_up; [|lia..|]|done|rewrite length_insert; lia|lia| |].
    + intros c y Hc' Hpc. destruct (decide (c = h)) as [->|Hch].
      * rewrite list_lookup_insert_eq by lia. intros [= <-]. lia.
      * rewrite list_lookup_insert_ne by done. intros Hy. transitivity (key x); [lia|].
        apply (proj1 Hh c); rewrite ?Hpc; [lia..|done|done].
    + split; [done|]. split; [etransitivity; [exact H2|apply move_hole; [lia..|done]]|].
      eapply same_after_trans; [apply same_after_insert|exact H3]. lia.
  - split; [|by split; [|apply same_after_insert; lia]]. apply hole_close; [done|lia|done|].
    intros x' _ _ Hx'. rewrite Hx in Hx'. injection Hx' as <-. lia.
Qed.

(** One step down. *)
Lemma sift_step k h c len l x :
  hole_from key k h len l -> under k h -> (h < length l)%nat -> (0 < c < len)%nat -> parent c = h -> l !! c = Some x ->
  (forall s, (0 < s < len)%nat -> parent s = h -> le_at key l c s) ->
  hole_from key k c len (<[h := x]> l) /\ under k c /\ (h < c)%nat /\
    (forall v, <[c := v]> (<[h := x]> l) ≡ₚ <[h := v]> l) /\ same_after len l (<[h := x]> l).
Proof.
  intros Hh Hu Hl Hc Hp Hx Hs. pose proof (under_ge k h Hu). pose proof (parent_lt c ltac:(lia)).
  split; [by apply (hole_down key k h len l c x)|]. split; [apply under_child; [lia|by rewrite Hp]|]. split; [lia|].
  split; [intros v; apply move_hole; [lia..|done]|]. apply same_after_insert. lia.
Qed.

(** Among the children of a hole, one that comes first. *)
Lemma first_of_two l h len c d x y :
  (forall s, (0 < s < len)%nat -> parent s = h -> s = c \/ s = d) ->
  l !! c = Some x -> l !! d = Some y -> (key x <= key y)%Z ->
  forall s, (0 < s < len)%nat -> parent s = h -> le_at key l c s.
Proof. intros Hs Hx Hy Hxy s Hs' Hp a b Ha Hb. destruct (Hs s Hs' Hp) as [-> | ->]; simplify_eq; lia. Qed.

Lemma sift_down_spec fuel k h len l :
  hole_from key k h len l -> under k h -> (h < len <= length l)%nat -> (len < fuel + h)%nat ->
  let '(h', l') := sift_down comp fuel h len l in
  hole_from key k h' len l' /\ under k h' /\ (h' < len)%nat /\ (forall c, (0 < c < len)%nat -> parent c <> h') /\
    (forall v, <[h' := v]> l' ≡ₚ <[h := v]> l) /\ same_after len l l'.
Proof.
  revert h l. induction fuel as [|fuel IH]; intros h l Hh Hu Hl Hf; [lia|]. cbn [sift_down].
  pose proof (Nat.div_mod (len - 1) 2 ltac:(lia)) as D1. pose proof (Nat.mod_upper_bound (len - 1) 2 ltac:(lia)) as M1.
  destruct (Nat.ltb_spec h ((len - 1) / 2)) as [Hlt|Hge].
  - destruct (lookup_lt_is_Some_2 l (2 * (h + 1))%nat ltac:(lia)) as [x Hx].
    destruct (lookup_lt_is_Some_2 l (2 * (h + 1) - 1)%nat ltac:(lia)) as [y Hy]. rewrite Hx, Hy.
    assert (Hch : forall s, (0 < s < len)%nat -> parent s = h -> s = (2 * (h + 1))%nat \/ s = (2 * (h + 1) - 1)%nat)
      by (intros s Hs Hp; apply parent_child in Hp; lia).
    assert (Hstep : forall c z, c = (2 * (h + 1))%nat \/ c = (2 * (h + 1) - 1)%nat -> l !! c = Some z ->
        (forall s, (0 < s < len)%nat -> parent s = h -> le_at key l c s) ->
        let '(h', l') := sift_down comp fuel c len (<[h := z]> l) in
        hole_from key k h' len l' /\ under k h' /\ (h' < len)%nat /\ (forall c, (0 < c < len)%nat -> parent c <> h') /\
          (forall v, <[h' := v]> l' ≡ₚ <[h := v]> l) /\ same_after len l l').
    { intros c z Hc Hz Hmin.
      destruct (sift_step k h c len l z Hh Hu ltac:(lia) ltac:(lia) ltac:(apply parent_child; lia) Hz Hmin) as (H1 & H2 & H3 & H4 & H5).
      specialize (IH c (<[h := z]> l) H1 H2 ltac:(rewrite length_insert; lia) ltac:(lia)).
      destruct (sift_down comp fuel c len (<[h := z]> l)) as [h' l']. destruct IH as (I1 & I2 & I3 & I4 & I5 & I6).
      split_and!; try done; [intros v; by rewrite I5|]. by eapply same_after_trans. }
    destruct (later key x y) eqn:Hxy; unfold later in Hxy; [apply Z.ltb_lt in Hxy|apply Z.ltb_ge in Hxy].
    + apply Hstep; [by right|done|]. eapply first_of_two; [|exact Hy|exact Hx|lia]. intros s Hs Hp. destruct (Hch s Hs Hp); tauto.
    + apply Hstep; [by left|done|]. by eapply first_of_two; [|exact Hx|exact Hy|lia].
  - destruct (Nat.even len && (h =? (len - 2) / 2)%nat) eqn:E.
    + apply andb_true_iff in E as [[n En]%Nat.even_spec Eh%Nat.eqb_eq].
      assert (Hn : h = (n - 1)%nat) by (rewrite Eh, En; replace (2 * n - 2)%nat with ((n - 1) * 2)%nat by lia; by apply Nat.div_mul).
      destruct (lookup_lt_is_Some_2 l (2 * (h + 1) - 1)%nat ltac:(lia)) as [y Hy]. rewrite Hy.
      assert (Hch : forall s, (0 < s < len)%nat -> parent s = h -> s = (2 * (h + 1) - 1)%nat)
        by (intros s Hs Hp; apply parent_child in Hp; lia).
      destruct (sift_step k h (2 * (h + 1) - 1) len l y Hh Hu ltac:(lia) ltac:(lia) ltac:(apply parent_child; lia) Hy)
        as (H1 & H2 & H3 & H4 & H5).
      { intros s Hs Hp. rewrite (Hch s Hs Hp). intros a b Ha Hb. rewrite Ha in Hb. injection Hb as <-. lia. }
      split_and!; try done; [lia|]. intros c Hc Hp. apply parent_child in Hp. lia.
    + split; [done|]. split; [done|]. split; [lia|]. split; [|split; [done|by split]].
      intros c Hc Hp. apply parent_child in Hp. apply andb_false_iff in E as [E|E%Nat.eqb_neq].
      * assert (Nat.odd len = true) as [n En]%Nat.odd_spec by (by rewrite <- Nat.negb_even, E).
           subst len. replace (2 * n + 1 - 1)%nat with (n * 2)%nat in * by lia. rewrite Nat.div_mul in * by lia. lia.
      * pose proof (Nat.div_mod (len - 2) 2 ltac:(lia)). pose proof (Nat.mod_upper_bound (len - 2) 2 ltac:(lia)). lia.
Qed.

Lemma adjust_heap_spec k len value l :
  heap_from key (S k) len l -> (k < len <= length l)%nat ->
  let l' := adjust_heap comp k len value l in
  heap_from key k len l' /\ l' ≡ₚ <[k := value]> l /\ same_after len l l'.
Proof.
  intros Hh Hl. unfold adjust_heap.
  pose proof (sift_down_spec (S len) k k len l (hole_of_heap key k len l Hh) (under_root k) Hl ltac:(lia)) as H.
  destruct (sift_down comp (S len) k len l) as [h l1]. destruct H as (H1 & H2 & H3 & H4 & H5 & [E H6]).
  destruct (push_up_spec (S h) k h len value l1 H1 H2 ltac:(lia) ltac:(lia)) as (P1 & P2 & P3).
  { intros c y Hc Hp. by destruct (H4 c Hc). }
  split; [done|]. split; [by etransitivity; [exact P2|apply H5]|]. by eapply same_after_trans.
Qed.

(** ** The library functions *)

Lemma is_heap_min l x : is_heap key l -> head l = Some x -> forall y, y ∈ l -> (key x <= key y)%Z.
Proof.
  intros Hh Hx y [i Hi]%list_elem_of_lookup_1. revert y Hi. induction (lt_wf i) as [i _ IH]. intros y Hi.
  destruct i as [|i]; [destruct l; simplify_eq/=; lia|].
  pose proof (parent_lt (S i) ltac:(lia)) as Hlt. pose proof (lookup_lt_Some _ _ _ Hi) as Hl.
  destruct (lookup_lt_is_Some_2 l (parent (S i)) ltac:(lia)) as [z Hz].
  transitivity (key z); [by apply (IH _ Hlt)|]. by apply (Hh (S i) ltac:(lia) ltac:(lia)).
Qed.

(** Only the elements before the last need to be a heap. *)
Lemma push_heap_spec l x : is_heap key l -> is_heap key (push_heap comp (l ++ [x])) /\ push_heap comp (l ++ [x]) ≡ₚ l ++ [x].
Proof.
  intros Hh. unfold push_heap. rewrite last_snoc. rewrite length_app. simpl.
  replace (length l + 1 - 1)%nat with (length l) by lia.
  assert (Hlook : forall i y, (i < length l)%nat -> (l ++ [x]) !! i = Some y <-> l !! i = Some y)
    by (intros i y Hi; by rewrite lookup_app_l).
  destruct (push_up_spec (length l + 1) 0 (length l) (length l + 1) x (l ++ [x])) as (H1 & H2 & [E _]).
  - split.
    + intros i Hi _ Hne _. assert (Hil : (i < length l)%nat) by lia. pose proof (parent_lt i ltac:(lia)).
      intros a b Ha Hb. apply Hlook in Ha; [|lia]. apply Hlook in Hb; [|done]. by apply (Hh i ltac:(lia) ltac:(lia)).
    + intros c Hc Hp. pose proof (parent_lt c ltac:(lia)). lia.
  - clear. induction (lt_wf (length l)) as [n _ IH]. destruct n as [|n]; [constructor|].
    apply under_child; [lia|]. apply IH, parent_lt. lia.
  - rewrite length_app. simpl. lia.
  - lia.
  - intros c y Hc Hp. pose proof (parent_lt c ltac:(lia)). lia.
  - split; [unfold is_heap; by rewrite E, length_app|]. rewrite H2. by rewrite list_insert_id by by rewrite lookup_app_r, Nat.sub_diag.
Qed.

(** [pop_heap] asks for a heap; but the order of the head does not matter to
    it, and neither does the place of the last element. *)
Lemma pop_heap_spec first l x :
  heap_from key 1 (S (length l)) (first :: l) ->
  exists l', pop_heap comp (first :: l ++ [x]) = l' ++ [first] /\ is_heap key l' /\ l' ≡ₚ l ++ [x].
Proof.
  intros Hh. unfold pop_heap. rewrite app_comm_cons, last_snoc, length_app. simpl length.
  replace (S (length l) + 1 - 1)%nat with (S (length l)) by lia.
  destruct (Nat.ltb_spec 1 (S (length l) + 1)); [|lia]. cbn [head app].
  set (l1 := <[S (length l) := first]> (first :: l ++ [x])).
  assert (E1 : l1 = first :: l ++ [first]).
  { unfold l1. by rewrite app_comm_cons, insert_app_r_alt, Nat.sub_diag by (simpl; lia). }
  destruct (adjust_heap_spec 0 (S (length l)) x l1) as (H1 & H2 & [E H3]).
  - intros i Hi Hk. pose proof (parent_lt i ltac:(lia)). intros a b. rewrite E1, app_comm_cons.
    rewrite !lookup_app_l by (simpl; lia). by apply (Hh i).
  - rewrite E1. simpl. rewrite length_app. simpl. lia.
  - set (l2 := adjust_heap comp 0 (S (length l)) x l1) in *.
    assert (El : length l2 = S (S (length l))) by (rewrite E, E1; simpl; rewrite length_app; simpl; lia).
    assert (Hlast : l2 !! S (length l) = Some first).
    { rewrite H3, E1 by lia. rewrite app_comm_cons, lookup_app_r by (simpl; lia). simpl length. by rewrite Nat.sub_diag. }
    assert (E2 : l2 = take (S (length l)) l2 ++ [first]).
    { rewrite <- (take_drop (S (length l)) l2) at 1. f_equal. rewrite (drop_S l2 first) by done. f_equal.
      apply nil_length_inv. rewrite length_drop. lia. }
    exists (take (S (length l)) l2). split; [exact E2|]. split.
    + intros i Hi Hk a b. rewrite length_take in Hi. pose proof (parent_lt i ltac:(lia)).
      rewrite !lookup_take_lt by lia. apply (H1 i); lia.
    + rewrite E2, E1 in H2. simpl in H2. rewrite (Permutation_app_comm _ [first]) in H2. simpl in H2.
      rewrite app_comm_cons in H2. rewrite (Permutation_app_comm (x :: l) [first]) in H2. simpl in H2.
      apply Permutation_cons_inv in H2. rewrite H2. apply Permutation_cons_append.
Qed.

Lemma make_from_spec k len l :
  heap_from key (S k) len l -> (k < len <= length l)%nat ->
  heap_from key 0 len (make_from comp k len l) /\ make_from comp k len l ≡ₚ l /\ length (make_from comp k len l) = length l.
Proof.
  revert l. induction k as [|k IH]; intros l Hh Hl; cbn [make_from];
    match goal with |- context [l !! ?i] => destruct (lookup_lt_is_Some_2 l i ltac:(lia)) as [v Hv] end; rewrite Hv.
  - destruct (adjust_heap_spec 0 len v l Hh Hl) as (H1 & H2 & [E _]). split; [done|]. by rewrite H2, list_insert_id.
  - destruct (adjust_heap_spec (S k) len v l Hh Hl) as (H1 & H2 & [E _]).
    destruct (IH _ H1 ltac:(lia)) as (I1 & I2 & I3). split; [done|]. split; [|by rewrite I3].
    by rewrite I2, H2, list_insert_id.
Qed.

Lemma make_heap_spec l : is_heap key (make_heap comp l) /\ make_heap comp l ≡ₚ l.
Proof.
  unfold make_heap. destruct (Nat.ltb_spec (length l) 2) as [Hl|Hl]; [split; [|done]; intros i Hi; lia|].
  pose proof (Nat.div_mod (length l - 2) 2 ltac:(lia)) as D. pose proof (Nat.mod_upper_bound (length l - 2) 2 ltac:(lia)).
  destruct (make_from_spec ((length l - 2) / 2) (length l) l) as (H1 & H2 & H3).
  - intros i Hi Hk. pose proof (proj1 (parent_child (parent i) i) eq_refl). lia.
  - lia.
  - split; [unfold is_heap; by rewrite H3|done].
Qed.
End Loops.
