(* ===== verification/TimersManager.v ===== *)
(** * The timers of the events executor

    [rclcpp/src/rclcpp/experimental/timers_manager.cpp] and its header: timers
    in a heap, the one that triggers first at its root, which a thread or
    somebody else executes when they are due.

    [TimerMap] has the timers that are alive; the heap has weak pointers to
    them.  A method runs under the mutex of the manager.  The clocks stand
    still while it does: [now t] is what the clock of [t] shows, and clocks
    can be read.  A timer that is locked lives until the method returns.  What
    a callback of a timer does to the timers is an argument. *)

From Stdlib Require Import ZArith Lia.
From stdpp Require Import base numbers list gmap.
From S2P Require Import Prelude Computation RclTypes Timer Heap.
#[local] Open Scope Z_scope.

(** ** State *)

Abbreviation TimerMap := (gmap N rcl_timer_impl_t).

(** [on_ready_callback_]: whether there is one. *)
Record TimersManager := mkManager {
  weak_heap_ : list N;
  timers_updated_ : bool;
  running_ : bool;
  on_ready_callback_ : bool;
}.

Inductive timers_error := NullTimer | ThreadRunning | ThreadAlreadyRunning | TimerFailed (ret : rcl_ret_t) | DeadTimer.

Definition Managing : Type := TimerMap * TimersManager.
Notation M := (ST Managing timers_error).

Definition set_heap (h : list N) (m : TimersManager) : TimersManager :=
  mkManager h (timers_updated_ m) (running_ m) (on_ready_callback_ m).
Definition set_updated (b : bool) (m : TimersManager) : TimersManager :=
  mkManager (weak_heap_ m) b (running_ m) (on_ready_callback_ m).
Definition set_running (b : bool) (m : TimersManager) : TimersManager :=
  mkManager (weak_heap_ m) (timers_updated_ m) b (on_ready_callback_ m).

Definition on_manager (f : TimersManager -> TimersManager) : M unit := modify (fun st => (st.1, f st.2)).
Definition on_timers (f : TimerMap -> TimerMap) : M unit := modify (fun st => (f st.1, st.2)).

Definition new_timers_manager (on_ready_callback : bool) : TimersManager := mkManager [] false false on_ready_callback.

(** ** [TimerBase] *)

Definition Clocks : Type := N -> Z.

Section Timers.
Context (now : Clocks).

(** A canceled timer triggers at the end of time. *)
Definition time_until_trigger (w : TimerMap) (t : N) : Z :=
  match rcl_timer_get_time_until_next_call (w !! t) (Ok (now t)) with Ok z => z | Throw _ => int64_max end.

Definition timer_is_ready (w : TimerMap) (t : N) : bool :=
  match rcl_timer_is_ready (w !! t) (Ok (now t)) with Ok b => b | Throw _ => false end.

Definition timer_is_canceled (w : TimerMap) (t : N) : bool :=
  match rcl_timer_is_canceled (w !! t) with Ok b => b | Throw _ => false end.

(** [call]: [None] for a canceled timer. *)
Definition timer_call_info (t : N) : M (option rcl_timer_call_info_t) :=
  '(w, _) ← get;
  let '(ret, info, x, _) := rcl_timer_call_with_info (w !! t) (Ok (now t)) in
  on_timers (fun w => match x with Some x => <[t := x]> w | None => w end);;
  match ret with
  | RCL_RET_TIMER_CANCELED => mret None
  | RCL_RET_OK => mret info
  | _ => throw (TimerFailed ret)
  end.

(** [set_on_reset_callback] with the callback of the manager, which is called
    for the resets that it missed, and [clear_on_reset_callback]. *)
Definition watch_resets (t : N) : M unit :=
  '(w, _) ← get;
  match rcl_timer_set_on_reset_callback (w !! t) true with
  | Some (_, x, missed) =>
    on_timers (fun w => match x with Some x => <[t := x]> w | None => w end);;
    match missed with Some _ => on_manager (set_updated true) | None => mret tt end
  | None => throw DeadTimer
  end.

Definition clear_on_reset_callback (t : N) (w : TimerMap) : TimerMap :=
  match rcl_timer_set_on_reset_callback (w !! t) false with
  | Some (_, Some x, _) => <[t := x]> w
  | _ => w
  end.

(** ** [TimersHeap] *)

Definition timer_greater (w : TimerMap) : N -> N -> bool := later (time_until_trigger w).

Definition heap_add_timer (w : TimerMap) (timer : N) (h : list N) : bool * list N :=
  if bool_decide (timer ∈ h) then (false, h) else (true, push_heap (timer_greater w) (h ++ [timer])).

Fixpoint erase_timer (timer : N) (h : list N) : list N :=
  match h with
  | [] => []
  | t :: h => if bool_decide (t = timer) then h else t :: erase_timer timer h
  end.

Definition heapify (w : TimerMap) (h : list N) : list N := make_heap (timer_greater w) h.

Definition heap_remove_timer (w : TimerMap) (timer : N) (h : list N) : bool * list N :=
  if bool_decide (timer ∈ h) then (true, heapify w (erase_timer timer h)) else (false, h).

Definition heapify_root (w : TimerMap) (h : list N) : list N :=
  match h with
  | root :: _ => take (length h) (pop_heap (timer_greater w) (h ++ [root]))
  | [] => []
  end.

Definition heap_ready_timers (w : TimerMap) (h : list N) : nat := length (List.filter (timer_is_ready w) h).

(** ** [WeakTimersHeap] *)

Definition timer_alive (w : TimerMap) (t : N) : bool := bool_decide (is_Some (w !! t)).

Definition store (h : list N) : M unit := on_manager (set_heap h).

Definition validate_and_lock : M (list N) :=
  '(w, m) ← get;
  let locked_heap := List.filter (timer_alive w) (weak_heap_ m) in
  if forallb (timer_alive w) (weak_heap_ m) then mret locked_heap else
  let locked_heap := heapify w locked_heap in
  store locked_heap;;
  mret locked_heap.

Definition weak_add_timer (timer : N) : M bool :=
  locked_heap ← validate_and_lock;
  '(w, _) ← get;
  let '(added, h) := heap_add_timer w timer locked_heap in
  (if added : bool then store h else mret tt);;
  mret added.

Definition weak_remove_timer (timer : N) : M bool :=
  locked_heap ← validate_and_lock;
  '(w, _) ← get;
  let '(removed, h) := heap_remove_timer w timer locked_heap in
  (if removed : bool then store h else mret tt);;
  mret removed.

Definition get_timer (w : TimerMap) (timer_id : N) (h : list N) : option N :=
  List.find (fun t => timer_alive w t && (t =? timer_id)%N) h.

(** ** [TimersManager] *)

Definition add_timer (timer : option N) : M unit :=
  match timer with
  | None => throw NullTimer
  | Some timer =>
    added ← weak_add_timer timer;
    on_manager (fun m => set_updated (timers_updated_ m || added) m);;
    watch_resets timer
  end.

(** A null pointer is not in the heap. *)
Definition remove_timer (timer : option N) : M unit :=
  match timer with
  | None => validate_and_lock;; mret tt
  | Some timer =>
    removed ← weak_remove_timer timer;
    on_manager (fun m => set_updated (timers_updated_ m || removed) m);;
    if removed : bool then on_timers (clear_on_reset_callback timer) else mret tt
  end.

Definition clear : M unit :=
  locked_heap ← validate_and_lock;
  for_each (fun t => on_timers (clear_on_reset_callback t)) locked_heap;;
  on_manager (fun m => set_updated true (set_heap [] m)).

Definition start : M unit :=
  '(_, m) ← get;
  on_manager (set_running true);;
  if running_ m then throw ThreadAlreadyRunning else mret tt.

(** The thread ends before [stop] returns. *)
Definition stop : M unit := on_manager (fun m => set_updated true (set_running false m)).

(** The destructor. *)
Definition destroy_timers_manager : M unit := clear;; stop.

(** [None]: the head is canceled. *)
Definition get_head_timeout_unsafe : M (option Z) :=
  '(w, m) ← get;
  match weak_heap_ m with
  | [] => mret (Some int64_max)
  | head :: _ =>
    let timeout t := if timer_is_canceled w t then None else Some (time_until_trigger w t) in
    if timer_alive w head then mret (timeout head) else
    locked_heap ← validate_and_lock;
    match locked_heap with
    | [] => mret (Some int64_max)
    | head :: _ => mret (timeout head)
    end
  end.

(** Not while the thread is running. *)
Definition unless_running {A} (m : M A) : M A :=
  '(_, t) ← get; if running_ t then throw ThreadRunning else m.

Definition get_head_timeout : M (option Z) := unless_running get_head_timeout_unsafe.

Definition get_number_ready_timers : M nat :=
  unless_running (locked_heap ← validate_and_lock; '(w, _) ← get; mret (heap_ready_timers w locked_heap)).

Section Execution.
Context (execute_callback : N -> rcl_timer_call_info_t -> TimerMap -> TimerMap).

(** The first part of [execute_head_timer]: the locked heap, its head and the
    data of the call, if it is ready. *)
Definition call_head_timer : M (option (list N * N * rcl_timer_call_info_t)) :=
  timers_heap ← validate_and_lock;
  match timers_heap with
  | [] => mret None
  | head_timer :: _ =>
    '(w, _) ← get;
    if timer_is_ready w head_timer then
      data ← timer_call_info head_timer;
      mret ((fun info => (timers_heap, head_timer, info)) <$> data)
    else mret None
  end.

(** The last part. *)
Definition store_root (timers_heap : list N) : M unit := '(w, _) ← get; store (heapify_root w timers_heap).

(** Also what was executed. *)
Definition execute_head_timer : M (bool * option (N * rcl_timer_call_info_t)) :=
  unless_running (
    called ← call_head_timer;
    match called with
    | None => mret (false, None)
    | Some (timers_heap, head_timer, info) =>
      on_timers (execute_callback head_timer info);;
      store_root timers_heap;;
      mret (true, Some (head_timer, info))
    end).

Definition execute_ready_timer (timer_id : N) (data : rcl_timer_call_info_t) : M (option N) :=
  '(w, m) ← get;
  match get_timer w timer_id (weak_heap_ m) with
  | Some t => on_timers (execute_callback t data);; mret (Some t)
  | None => mret None
  end.

(** The loop; [n]: how many may still be executed.  Each timer that was called
    is given to [on_ready_callback_] if there is one, else executed; the list
    says which, in order. *)
Fixpoint execute_loop (n : nat) (h : list N) : M (list (N * rcl_timer_call_info_t) * list N) :=
  match n with
  | O => mret ([], h)
  | S n =>
    match h with
    | [] => throw DeadTimer
    | head_timer :: _ =>
      '(w, m) ← get;
      if timer_is_ready w head_timer then
        data ← timer_call_info head_timer;
        match data with
        | Some info => if on_ready_callback_ m then mret tt else on_timers (execute_callback head_timer info)
        | None => mret tt
        end;;
        '(w, _) ← get;
        '(l, h) ← execute_loop n (heapify_root w h);
        mret (match data with Some info => (head_timer, info) :: l | None => l end, h)
      else mret ([], h)
    end
  end.

Definition execute_ready_timers_unsafe : M (list (N * rcl_timer_call_info_t)) :=
  locked_heap ← validate_and_lock;
  match locked_heap with
  | [] => mret []
  | _ =>
    '(w, _) ← get;
    '(l, h) ← execute_loop (heap_ready_timers w locked_heap) locked_heap;
    store h;;
    mret l
  end.

(** ** [run_timers]

    A pass of the loop has two parts, between which the thread waits and has
    given the mutex back. *)
Inductive Sleep := UntilUpdated | AtMost (time_to_sleep : Z) | NotAtAll.

Definition reheap : M unit :=
  locked_heap ← validate_and_lock;
  '(w, _) ← get;
  store (heapify w locked_heap).

Definition before_sleep : M Sleep :=
  time_to_sleep ← get_head_timeout_unsafe;
  time_to_sleep ← match time_to_sleep with
                  | None => reheap;; get_head_timeout_unsafe
                  | Some z => mret (Some z)
                  end;
  mret (match time_to_sleep with
        | None => UntilUpdated
        | Some z => if z =? int64_max then UntilUpdated else if z =? 0 then NotAtAll else AtMost z
        end).

(** It goes on when [timers_updated_] is set, or the time is over. *)
Definition after_sleep (s : Sleep) : M (list (N * rcl_timer_call_info_t)) :=
  match s with UntilUpdated => reheap | _ => mret tt end;;
  on_manager (set_updated false);;
  execute_ready_timers_unsafe.
End Execution.
End Timers.

(** The thread: [times] has the clocks before and after each sleep. *)
Fixpoint run_timers (execute_callback : N -> rcl_timer_call_info_t -> TimerMap -> TimerMap) (times : list (Clocks * Clocks))
    : M (list (N * rcl_timer_call_info_t)) :=
  '(_, m) ← get;
  if running_ m then
    match times with
    | [] => mret []
    | (now, later) :: times =>
      s ← before_sleep now;
      l ← after_sleep later execute_callback s;
      l' ← run_timers execute_callback times;
      mret (l ++ l')
    end
  else mret [].
