(* ===== verification/TimersManagerFacts.v ===== *)
(** * Timers in order

    What [TimersManager] keeps while nobody but itself moves the timers that
    it has: its heap is in order ([manager_valid]), a timer that has died
    standing where it stood when it lived.  Each method is shown to keep it,
    with what it returns: [head_timeout_spec], [manager_ready_spec],
    [execute_head_timer_orderly], [before_sleep_orderly]. *)

From Stdlib Require Import ZArith Lia Sorting.Sorted.
From stdpp Require Import base numbers list gmap.
From S2P Require Import Prelude Computation RclTypes Timer Heap TimersManager.
#[local] Open Scope Z_scope.

(** ** When a timer is due *)

Definition due (w : TimerMap) (t : N) : Z :=
  match w !! t with Some x => if canceled x then int64_max else next_call_time x | None => int64_max end.

(** Times are positive and far from the end. *)
Definition sane_timer (x : rcl_timer_impl_t) : Prop := 0 <= next_call_time x < int64_max /\ 0 < period x.
Definition sane (w : TimerMap) : Prop := forall t x, w !! t = Some x -> sane_timer x.

Definition lives (w : TimerMap) (h : list N) : Prop := forall t, t ∈ h -> is_Some (w !! t).

Lemma lives_perm w h h' : h' ≡ₚ h -> lives w h -> lives w h'.
Proof. intros Hp Hl t Ht. apply Hl. by rewrite <- Hp. Qed.

(** Two orders that agree on the elements. *)
Lemma heap_from_ext {A} (k1 k2 : A -> Z) k len l :
  (forall x y, x ∈ l -> y ∈ l -> (k1 x <= k1 y)%Z -> (k2 x <= k2 y)%Z) -> heap_from k1 k len l -> heap_from k2 k len l.
Proof. intros Hk Hh i Hi Hp x y Hx Hy. apply Hk; [by eapply list_elem_of_lookup_2..|]. by apply (Hh i Hi Hp). Qed.

Lemma filter_perm {A} (f : A -> bool) l l' : l ≡ₚ l' -> List.filter f l ≡ₚ List.filter f l'.
Proof.
  induction 1 as [|x l l' _ IH|x y l|l1 l2 l3 _ IH1 _ IH2]; simpl; [done|by destruct (f x); [constructor|]| |by transitivity (List.filter f l2)].
  destruct (f x), (f y); try done. apply Permutation_swap.
Qed.

Lemma StronglySorted_ext {A} (R1 R2 : A -> A -> Prop) l :
  (forall a b, a ∈ l -> b ∈ l -> R1 a b -> R2 a b) -> StronglySorted R1 l -> StronglySorted R2 l.
Proof.
  intros HR Hs. induction Hs as [|x l _ IH Hx]; constructor.
  - apply IH. intros a b Ha Hb. apply HR; by right.
  - rewrite List.Forall_forall in Hx |- *. intros y Hy. apply HR; [by left| |by apply Hx].
    right. by apply list_elem_of_In.
Qed.

Section Clock.
Context (z : Z) (Hz : 0 <= z <= int64_max).
Notation now := (fun _ : N => z).

Lemma until_spec w t x :
  w !! t = Some x -> sane_timer x -> time_until_trigger now w t = if canceled x then int64_max else next_call_time x - z.
Proof using Hz.
  intros Ht [Hx _]. unfold time_until_trigger. rewrite Ht. simpl. destruct (canceled x); [done|]. simpl.
  assert (int64_min <= - int64_max) by (unfold int64_min, int64_max; lia). rewrite i64_id by lia. done.
Qed.

Lemma until_due w a b :
  sane w -> is_Some (w !! a) -> is_Some (w !! b) ->
  (time_until_trigger now w a <= time_until_trigger now w b)%Z <-> (due w a <= due w b)%Z.
Proof using Hz.
  intros Hs [x Hx] [y Hy]. rewrite (until_spec _ _ _ Hx), (until_spec _ _ _ Hy) by eauto. unfold due. rewrite Hx, Hy.
  destruct (Hs _ _ Hx) as [? _], (Hs _ _ Hy) as [? _]. destruct (canceled x), (canceled y); lia.
Qed.

Lemma ready_spec w t x :
  w !! t = Some x -> sane_timer x -> timer_is_ready now w t = negb (canceled x) && (next_call_time x <=? z).
Proof using Hz.
  intros Ht [Hx _]. unfold timer_is_ready. rewrite Ht. unfold rcl_timer_is_ready, rcl_timer_get_time_until_next_call.
  destruct (canceled x); [done|]. simpl. assert (int64_min <= - int64_max) by (unfold int64_min, int64_max; lia).
  rewrite i64_id by lia. by destruct (Z.leb_spec (next_call_time x - z) 0), (Z.leb_spec (next_call_time x) z); try lia.
Qed.

Lemma ready_due w t : sane w -> is_Some (w !! t) -> z < int64_max -> timer_is_ready now w t = (due w t <=? z).
Proof using Hz.
  intros Hs [x Hx] Hlt. rewrite (ready_spec _ _ _ Hx) by eauto. unfold due. rewrite Hx. destruct (canceled x); [|done].
  simpl. by destruct (Z.leb_spec int64_max z); [lia|].
Qed.

(** The heap operations, in the order in which timers are due. *)
Lemma due_heap w h h' :
  sane w -> lives w h -> h' ≡ₚ h -> is_heap (time_until_trigger now w) h' -> is_heap (due w) h'.
Proof using Hz.
  intros Hs Hl Hp. apply heap_from_ext. intros x y Hx Hy. rewrite Hp in Hx, Hy. apply until_due; auto.
Qed.

Lemma until_heap w h : sane w -> lives w h -> is_heap (due w) h -> is_heap (time_until_trigger now w) h.
Proof using Hz. intros Hs Hl. apply heap_from_ext. intros x y Hx Hy. apply until_due; auto. Qed.

Lemma heapify_spec w h : sane w -> lives w h -> is_heap (due w) (heapify now w h) /\ heapify now w h ≡ₚ h.
Proof using Hz.
  intros Hs Hl. destruct (make_heap_spec (time_until_trigger now w) h) as [H1 H2]. split; [|done]. by apply (due_heap w h).
Qed.

Lemma heap_add_spec w t h :
  sane w -> lives w (t :: h) -> is_heap (due w) h -> t ∉ h ->
  exists h', heap_add_timer now w t h = (true, h') /\ is_heap (due w) h' /\ h' ≡ₚ t :: h.
Proof using Hz.
  intros Hs Hl Hh Ht. unfold heap_add_timer. rewrite bool_decide_false by done.
  assert (Hl' : lives w h) by (intros x Hx; apply Hl; by right).
  destruct (push_heap_spec (time_until_trigger now w) h t (until_heap w h Hs Hl' Hh)) as [H1 H2].
  assert (H3 : push_heap (timer_greater now w) (h ++ [t]) ≡ₚ t :: h) by (etransitivity; [exact H2|by rewrite <- Permutation_cons_append]).
  eexists. split; [done|]. split; [|done]. by apply (due_heap w (t :: h)).
Qed.

Lemma heapify_root_spec w root rest :
  sane w -> lives w (root :: rest) -> heap_from (due w) 1 (S (length rest)) (root :: rest) ->
  is_heap (due w) (heapify_root now w (root :: rest)) /\ heapify_root now w (root :: rest) ≡ₚ root :: rest.
Proof using Hz.
  intros Hs Hl Hh. unfold heapify_root.
  destruct (pop_heap_spec (time_until_trigger now w) root rest root) as (l' & E & H1 & H2).
  { revert Hh. apply heap_from_ext. intros x y Hx Hy. apply until_due; auto. }
  assert (Hp : l' ≡ₚ root :: rest) by (etransitivity; [exact H2|by rewrite <- Permutation_cons_append]).
  assert (El : take (length (root :: rest)) (l' ++ [root]) = l').
  { rewrite take_app_le; [|by rewrite Hp]. apply take_ge. by rewrite Hp. }
  unfold timer_greater. rewrite <- app_comm_cons, E, El. split; [by apply (due_heap w (root :: rest))|done].
Qed.

(** Only the root has changed. *)
Lemma root_moves w w' root rest :
  sane w' -> lives w' (root :: rest) -> (forall t, t ∈ rest -> w' !! t = w !! t) -> is_heap (due w) (root :: rest) ->
  is_heap (due w') (heapify_root now w' (root :: rest)) /\ heapify_root now w' (root :: rest) ≡ₚ root :: rest.
Proof using Hz.
  intros Hs Hl Ho Hh. apply heapify_root_spec; [done..|]. intros i Hi Hk a b Ha Hb. pose proof (parent_lt i ltac:(lia)).
  destruct i as [|i]; [lia|]. destruct (parent (S i)) as [|p] eqn:Ep; [lia|]. simpl in Ha, Hb.
  unfold due. rewrite !Ho by by eapply list_elem_of_lookup_2.
  apply (Hh (S i)); [simpl; lia|lia|rewrite Ep; exact Ha|exact Hb].
Qed.

(** ** The loop over the timers that are ready *)

Section Loop.
Context (run : N -> rcl_timer_call_info_t -> TimerMap -> TimerMap) (m : TimersManager).
(** Callbacks leave the timers that exist alone. *)
Hypothesis run_keeps : forall t info w x, is_Some (w !! x) -> run t info w !! x = w !! x.
Hypothesis run_sane : forall t info w, sane w -> sane (run t info w).
Hypothesis Hend : z < int64_max.

Definition called (x : rcl_timer_impl_t) : rcl_timer_impl_t :=
  set_times x z (next_after (next_call_time x) (period x) z) (time_credit x).

(** There is room for another period. *)
Definition room (w : TimerMap) (t : N) : Prop :=
  forall x, w !! t = Some x -> next_call_time x + period x < int64_max /\ z + period x < int64_max.

Lemma called_sane w t x : w !! t = Some x -> sane_timer x -> room w t -> sane_timer (called x) /\ z < next_call_time (called x).
Proof using Hz Hend.
  intros Ht [H1 H2] Hr. destruct (Hr x Ht) as [R1 R2].
  destruct (next_after_positive (next_call_time x) (period x) z) as (k & Hk & En & Hlt & Hor); [lia..|].
  cbn zeta in *. unfold called, sane_timer. simpl. split; [|done]. split; [|done]. destruct Hor as [->|]; lia.
Qed.

(** The world after a timer was called and executed. *)
Definition executed (t : N) (x : rcl_timer_impl_t) (w : TimerMap) : TimerMap :=
  let w := <[t := called x]> w in
  if on_ready_callback_ m then w else run t (mkCallInfo (next_call_time x) z) w.

Lemma executed_others t x w y : is_Some (w !! y) -> y <> t -> executed t x w !! y = w !! y.
Proof using run_keeps.
  intros Hy Hne. unfold executed; cbv zeta. destruct (on_ready_callback_ m); [by rewrite lookup_insert_ne|].
  rewrite run_keeps by by rewrite lookup_insert_ne. by rewrite lookup_insert_ne.
Qed.

Lemma executed_same t x w : executed t x w !! t = Some (called x).
Proof using run_keeps.
  unfold executed; cbv zeta. destruct (on_ready_callback_ m); [apply lookup_insert_eq|].
  rewrite run_keeps by (rewrite lookup_insert_eq; by eexists). apply lookup_insert_eq.
Qed.

Lemma executed_sane t x w : sane w -> sane_timer (called x) -> sane (executed t x w).
Proof using run_sane.
  intros Hs Hx. assert (H1 : sane (<[t := called x]> w)).
  { intros y v Hy. apply lookup_insert_Some in Hy as [[_ <-]|[_ Hy]]; eauto. }
  unfold executed; cbv zeta. destruct (on_ready_callback_ m); auto.
Qed.

Lemma timer_call_ready w t x :
  w !! t = Some x -> canceled x = false ->
  timer_call_info now t (w, m) = (Ok (Some (mkCallInfo (next_call_time x) z)), (<[t := called x]> w, m)).
Proof using Hz.
  intros Ht Hc. unfold timer_call_info. rewrite get_bind. cbv beta iota. rewrite Ht. unfold rcl_timer_call_with_info. rewrite Hc.
  cbv beta iota. destruct (Z.ltb_spec z 0); [lia|]. done.
Qed.

(** One pass. *)
Lemma execute_loop_step n w root rest x :
  w !! root = Some x -> canceled x = false -> timer_is_ready now w root = true ->
  let w' := executed root x w in
  execute_loop now run (S n) (root :: rest) (w, m) =
    let '(r, st) := execute_loop now run n (heapify_root now w' (root :: rest)) (w', m) in
    (let! (l, h) := r in Ok ((root, mkCallInfo (next_call_time x) z) :: l, h), st).
Proof using Hz.
  intros Hx Hc Hr w'. cbn [execute_loop]. rewrite get_bind. cbv beta iota. rewrite Hr.
  rewrite (bind_ok _ _ _ _ _ (timer_call_ready w root x Hx Hc)). cbv beta iota.
  rewrite (bind_ok _ _ _ (w', m) tt) by (unfold w', executed; by destruct (on_ready_callback_ m)).
  rewrite get_bind. cbv beta iota. unfold mbind, ST_bind.
  by destruct (execute_loop now run n (heapify_root now w' (root :: rest)) (w', m)) as [[[l h]|e] st].
Qed.

Notation ready w := (List.filter (timer_is_ready now w)).

Lemma ready_none w h : length (ready w h) = 0%nat -> ready w h = [].
Proof. apply nil_length_inv. Qed.

(** What is executed is ready, once each, and in the order of being due. *)
Record once (w : TimerMap) (h : list N) (l : list (N * rcl_timer_call_info_t)) : Prop := {
  once_perm : l.*1 ≡ₚ ready w h;
  once_order : StronglySorted (fun a b => due w a <= due w b)%Z l.*1;
  once_info : Forall (fun '(t, i) => expected_call_time i = due w t /\ actual_call_time i = z) l;
}.

(** Nothing that can be ready is left. *)
Definition later_world (w w' : TimerMap) (h : list N) : Prop :=
  forall t, t ∈ h -> is_Some (w' !! t) /\ if timer_is_ready now w t then z < due w' t else w' !! t = w !! t.

Lemma execute_loop_spec n w h :
  sane w -> lives w h -> NoDup h -> is_heap (due w) h -> (forall t, t ∈ h -> timer_is_ready now w t = true -> room w t) -> n = length (ready w h) ->
  exists l w' h', execute_loop now run n h (w, m) = (Ok (l, h'), (w', m)) /\
    sane w' /\ h' ≡ₚ h /\ is_heap (due w') h' /\ later_world w w' h /\ once w h l.
Proof using Hz Hend run_keeps run_sane.
  revert w h. induction n as [|n IH]; intros w h Hs Hl Hn Hh Hroom Elen.
  { symmetry in Elen. apply ready_none in Elen. exists [], w, h. split_and!; try done.
    - intros t Ht. split; [by apply Hl|]. destruct (timer_is_ready now w t) eqn:E; [|done].
      assert (Hin : t ∈ ready w h) by (apply list_elem_of_In, filter_In; by rewrite <- list_elem_of_In).
      rewrite Elen in Hin. by apply elem_of_nil in Hin.
    - split; [by rewrite Elen|constructor|constructor]. }
  destruct h as [|root rest]; [done|].
  assert (Hroot : timer_is_ready now w root = true).
  { assert (exists t, t ∈ ready w (root :: rest)) as [t Ht].
    { destruct (ready w (root :: rest)) as [|t r]; [done|]. exists t. by left. }
    apply list_elem_of_In, filter_In in Ht as [Ht Hr]. apply list_elem_of_In in Ht.
    rewrite ready_due in Hr |- * by (done || (apply Hl; first [by left|done])).
    pose proof (is_heap_min (due w) (root :: rest) root Hh eq_refl t Ht). apply Z.leb_le in Hr. apply Z.leb_le. lia. }
  apply NoDup_cons in Hn as [Hnin Hn]. destruct (Hl root ltac:(by left)) as [x Hx].
  pose proof (ready_spec w root x Hx (Hs _ _ Hx)) as Er. rewrite Hroot in Er. symmetry in Er.
  apply andb_true_iff in Er as [Hc%negb_true_iff Hle%Z.leb_le].
  destruct (called_sane w root x Hx (Hs _ _ Hx) (Hroom root ltac:(by left) Hroot)) as [Hcs Hcz].
  set (w1 := executed root x w).
  assert (Hs1 : sane w1) by (apply executed_sane; auto).
  assert (Hothers : forall t, t ∈ rest -> w1 !! t = w !! t).
  { intros t Ht. apply executed_others; [apply Hl; by right|]. intros ->. done. }
  assert (Hsame : w1 !! root = Some (called x)) by (apply executed_same; auto).
  assert (Hdue : forall t, t ∈ rest -> due w1 t = due w t) by (intros t Ht; unfold due; by rewrite Hothers).
  assert (Hrd : forall t, t ∈ rest -> timer_is_ready now w1 t = timer_is_ready now w t)
    by (intros t Ht; unfold timer_is_ready; by rewrite Hothers).
  assert (Hl1 : lives w1 (root :: rest)).
  { intros t [->|Ht]%elem_of_cons; [by eexists|]. rewrite Hothers by done. apply Hl. by right. }
  destruct (root_moves w w1 root rest Hs1 Hl1 Hothers Hh) as [Hh1 Hp1].
  assert (Enr : timer_is_ready now w1 root = false).
  { rewrite ready_due by (done || by eexists). unfold due. rewrite Hsame. simpl.
    replace (canceled x) with false. apply Z.leb_gt. exact Hcz. }
  assert (Erd : ready w1 (root :: rest) = ready w rest).
  { cbn [List.filter]. rewrite Enr. apply filter_ext_in. intros t Ht. apply Hrd. by apply list_elem_of_In. }
  destruct (IH w1 (heapify_root now w1 (root :: rest))) as (l & w' & h' & E & I1 & I2 & I3 & I4 & [I5 I6 I7]);
    [done|by eapply lives_perm|rewrite Hp1; by apply NoDup_cons|done| | |].
  - intros t Ht Hr. rewrite Hp1 in Ht. apply elem_of_cons in Ht as [->|Ht]; [by rewrite Enr in Hr|].
    unfold room. rewrite Hothers by done. apply Hroom; [by right|by rewrite <- Hrd].
  - rewrite (filter_perm _ _ _ Hp1), Erd. simpl in Elen. rewrite Hroot in Elen. simpl in Elen. lia.
  - rewrite (filter_perm _ _ _ Hp1), Erd in I5.
    assert (Hin : forall t, t ∈ l.*1 -> t ∈ rest).
    { intros t Ht. rewrite I5 in Ht. apply list_elem_of_In, filter_In in Ht as [Ht _]. by apply list_elem_of_In. }
    exists ((root, mkCallInfo (next_call_time x) z) :: l), w', h'. split_and!; [|done|by rewrite I2|done| |].
    + rewrite (execute_loop_step n w root rest x Hx Hc Hroot). fold w1. by rewrite E.
    + intros t Ht. destruct (I4 t) as [I4a I4b]; [by rewrite Hp1|]. split; [done|].
      apply elem_of_cons in Ht as [->|Ht].
      * rewrite Hroot. rewrite Enr in I4b. unfold due. rewrite I4b, Hsame. simpl. by replace (canceled x) with false.
      * rewrite Hrd in I4b by done. destruct (timer_is_ready now w t); [done|]. by rewrite I4b, Hothers.
    + split.
      * simpl. rewrite Hroot. by rewrite I5.
      * simpl. constructor.
        -- revert I6. apply StronglySorted_ext. intros a b Ha Hb. by rewrite !Hdue by auto.
        -- apply Forall_forall. intros t Ht. apply (is_heap_min (due w) (root :: rest) root Hh eq_refl). right. by apply Hin.
      * constructor; [|].
        -- unfold due. rewrite Hx, Hc. done.
        -- rewrite Forall_forall in I7 |- *. intros [t i] Ht. destruct (I7 _ Ht) as [-> ->]. split; [|done].
           apply Hdue, Hin, list_elem_of_fmap. by exists (t, i).
Qed.

End Loop.

(** ** The manager *)

(** The heap has no timer twice, and it is in order; a dead timer has the place
    that it had when it was alive. *)
Definition manager_valid (st : Managing) : Prop :=
  NoDup (weak_heap_ st.2) /\
  exists k, is_heap k (weak_heap_ st.2) /\ forall t, t ∈ weak_heap_ st.2 -> is_Some (st.1 !! t) -> k t = due st.1 t.

Lemma is_heap_ext (k k' : N -> Z) h : is_heap k h -> (forall t, t ∈ h -> k t = k' t) -> is_heap k' h.
Proof. intros Hh Hk. eapply heap_from_ext; [|exact Hh]. intros x y Hx Hy. by rewrite !Hk. Qed.

Lemma valid_order w m : manager_valid (w, m) -> lives w (weak_heap_ m) -> is_heap (due w) (weak_heap_ m).
Proof. intros [_ (k & Hh & Hk)] Hl. apply (is_heap_ext k); auto. Qed.

Definition living (w : TimerMap) (h : list N) : list N := List.filter (timer_alive w) h.

Lemma elem_of_living w h t : t ∈ living w h <-> t ∈ h /\ is_Some (w !! t).
Proof. unfold living. rewrite !list_elem_of_In, filter_In. unfold timer_alive. by rewrite bool_decide_eq_true. Qed.

Lemma NoDup_living w h : NoDup h -> NoDup (living w h).
Proof. rewrite !NoDup_ListNoDup. apply List.NoDup_filter. Qed.

Lemma lives_living w h : lives w (living w h).
Proof. by intros t [_ Ht]%elem_of_living. Qed.

Lemma validate_spec w m :
  sane w -> manager_valid (w, m) ->
  exists h, validate_and_lock now (w, m) = (Ok h, (w, set_heap h m)) /\ h ≡ₚ living w (weak_heap_ m) /\ is_heap (due w) h.
Proof using Hz.
  intros Hs Hv. unfold validate_and_lock. rewrite get_bind. cbv beta iota.
  destruct (forallb (timer_alive w) (weak_heap_ m)) eqn:E.
  - assert (El : List.filter (timer_alive w) (weak_heap_ m) = weak_heap_ m).
    { by apply forallb_filter_id. }
    exists (weak_heap_ m). rewrite El. split; [by destruct m|]. unfold living. rewrite El. split; [done|]. apply (valid_order w m Hv).
    intros t Ht. rewrite forallb_forall in E. specialize (E t ltac:(by apply list_elem_of_In)). by apply bool_decide_eq_true in E.
  - destruct (heapify_spec w (living w (weak_heap_ m)) Hs (lives_living _ _)) as [H1 H2].
    eexists. split; [done|]. by split.
Qed.

Lemma valid_heap w m h : NoDup h -> is_heap (due w) h -> manager_valid (w, set_heap h m).
Proof. intros Hn Hh. split; [done|]. by exists (due w). Qed.

Lemma validated w m :
  sane w -> manager_valid (w, m) ->
  exists h, validate_and_lock now (w, m) = (Ok h, (w, set_heap h m)) /\ h ≡ₚ living w (weak_heap_ m) /\ is_heap (due w) h /\
    NoDup h /\ lives w h.
Proof using Hz.
  intros Hs Hv. destruct (validate_spec w m Hs Hv) as (h & E & Hp & Hh). exists h. split_and!; try done.
  - rewrite Hp. apply NoDup_living, Hv.
  - eapply lives_perm; [exact Hp|apply lives_living].
Qed.

Section Manager.
Context (run : N -> rcl_timer_call_info_t -> TimerMap -> TimerMap).
Hypothesis run_keeps : forall t info w x, is_Some (w !! x) -> run t info w !! x = w !! x.
Hypothesis run_sane : forall t info w, sane w -> sane (run t info w).
Hypothesis Hend : z < int64_max.

(** What is executed when the manager looks at its timers is every living
    timer that is due, once, in the order in which they were due; none is due
    afterwards, the others are as they were, and the heap is in order. *)
Lemma manager_ready_spec w m :
  sane w -> manager_valid (w, m) ->
  (forall t, t ∈ weak_heap_ m -> timer_is_ready now w t = true -> room w t) ->
  exists l w' h, execute_ready_timers_unsafe now run (w, m) = (Ok l, (w', set_heap h m)) /\
    once w (living w (weak_heap_ m)) l /\ sane w' /\ manager_valid (w', set_heap h m) /\
    h ≡ₚ living w (weak_heap_ m) /\ later_world w w' h.
Proof using Hz run_keeps run_sane Hend.
  intros Hs Hv Hroom. destruct (validated w m Hs Hv) as (h & E & Hp & Hh & Hn & Hl).
  unfold execute_ready_timers_unsafe. rewrite (bind_ok _ _ _ _ _ E). destruct h as [|root rest].
  - apply Permutation_nil in Hp. exists [], w, []. rewrite Hp. split_and!; try done; [by split; constructor|by apply valid_heap|].
    by intros t Ht%elem_of_nil.
  - rewrite get_bind. cbv beta iota. unfold heap_ready_timers.
    destruct (execute_loop_spec run (set_heap (root :: rest) m) run_keeps run_sane Hend
                (length (List.filter (timer_is_ready now w) (root :: rest))) w (root :: rest) Hs Hl Hn Hh)
      as (l & w' & h' & El & H1 & H2 & H3 & H4 & H5); [|done|].
    { intros t Ht. apply Hroom. rewrite Hp in Ht. by apply elem_of_living in Ht as [? _]. }
    rewrite (bind_ok _ _ _ _ _ El). cbv beta iota. exists l, w', h'. split; [by destruct m|]. split; [|split; [done|]].
    + destruct H5 as [O1 O2 O3]. split; [|done..]. by rewrite O1, (filter_perm _ _ _ Hp).
    + split; [apply valid_heap; [by rewrite H2|done]|]. split; [by rewrite H2|].
      intros t Ht. rewrite H2 in Ht. by apply H4.
Qed.

End Manager.
End Clock.
(** ** Every method keeps the heap in order *)

(** The timers of the heap die, or keep their schedule. *)
Definition unmoved (w w' : TimerMap) (h : list N) : Prop :=
  forall t y, t ∈ h -> w' !! t = Some y -> exists x, w !! t = Some x /\ next_call_time y = next_call_time x /\ canceled y = canceled x.

Definition orderly (st : Managing) : Prop := sane st.1 /\ manager_valid st.

Lemma orderly_unmoved w w' m m' :
  weak_heap_ m' = weak_heap_ m -> sane w' -> unmoved w w' (weak_heap_ m) -> orderly (w, m) -> orderly (w', m').
Proof.
  intros Em Hs Hu [_ [Hn (k & Hh & Hk)]]. split; [done|]. split; simpl in *; rewrite Em; [done|]. exists k. split; [done|].
  intros t Ht [y Hy]. destruct (Hu t y Ht Hy) as (x & Hx & E1 & E2). rewrite Hk by eauto.
  unfold due. by rewrite Hx, Hy, E1, E2.
Qed.

(** Whoever listens to resets does not move the timer. *)
Lemma orderly_reset w m m' t x f c :
  weak_heap_ m' = weak_heap_ m -> w !! t = Some x -> orderly (w, m) -> orderly (<[t := set_reset x f c]> w, m').
Proof.
  intros Em Hx Ho. apply (orderly_unmoved w _ m m' Em); [| |done].
  - intros u y Hy. apply lookup_insert_Some in Hy as [[<- <-]|[_ Hy]]; [apply (proj1 Ho t x Hx)|by apply (proj1 Ho u y)].
  - intros u y _ Hy. apply lookup_insert_Some in Hy as [[<- <-]|[_ Hy]]; eauto.
Qed.

Lemma orderly_manager w m m' : weak_heap_ m' = weak_heap_ m -> orderly (w, m) -> orderly (w, m').
Proof. intros Em Ho. by split; [apply Ho|]; unfold manager_valid; simpl; rewrite Em; apply Ho. Qed.

Lemma orderly_unwatch w m t : orderly (w, m) -> orderly (clear_on_reset_callback t w, m).
Proof.
  intros Ho. unfold clear_on_reset_callback. destruct (w !! t) as [x|] eqn:Hx; [|done]. simpl. by eapply orderly_reset.
Qed.

Lemma watch_resets_orderly st t : orderly st -> orderly (watch_resets t st).2.
Proof.
  destruct st as [w m]. intros Ho. unfold watch_resets. rewrite get_bind. cbv beta iota.
  destruct (w !! t) as [x|] eqn:Hx; [|done]. simpl.
  destruct (reset_counter x); simpl; unfold mbind, ST_bind; simpl; by eapply orderly_reset.
Qed.

Lemma stop_orderly st : orderly st -> orderly (stop st).2.
Proof. destruct st. by apply orderly_manager. Qed.

Lemma start_orderly st : orderly st -> orderly (start st).2.
Proof. destruct st as [w m]. intros Ho. unfold start. rewrite get_bind. cbv beta iota. unfold mbind, ST_bind. simpl. by destruct (running_ m). Qed.

Section Methods.
Context (z : Z) (Hz : 0 <= z <= int64_max).
Notation now := (fun _ : N => z).

Lemma validated_orderly w m :
  orderly (w, m) ->
  exists h, validate_and_lock now (w, m) = (Ok h, (w, set_heap h m)) /\ h ≡ₚ living w (weak_heap_ m) /\ is_heap (due w) h /\
    NoDup h /\ lives w h /\ orderly (w, set_heap h m).
Proof using Hz.
  intros [Hs Hv]. destruct (validated z Hz w m Hs Hv) as (h & E & Hp & Hh & Hn & Hl). exists h.
  split_and!; try done. split; [done|by apply valid_heap].
Qed.

Lemma heap_orderly w m h : sane w -> NoDup h -> is_heap (due w) h -> orderly (w, set_heap h m).
Proof. intros Hs Hn Hh. split; [done|]. by apply valid_heap. Qed.

Lemma add_timer_orderly st t : orderly st -> is_Some (st.1 !! t) -> orderly (add_timer now (Some t) st).2.
Proof using Hz.
  destruct st as [w m]. intros Ho Ht. simpl in Ht. unfold add_timer, weak_add_timer.
  destruct (validated_orderly w m Ho) as (h & E & Hp & Hh & Hn & Hl & Ho1).
  unfold mbind at 1, ST_bind at 1. rewrite (bind_ok _ _ _ _ _ E), get_bind. cbv beta iota.
  destruct (decide (t ∈ h)) as [Hin|Hin].
  - unfold heap_add_timer. rewrite bool_decide_true by done. cbv beta iota. unfold mbind, ST_bind. simpl.
    apply watch_resets_orderly. by eapply orderly_manager; [|exact Ho1].
  - destruct (heap_add_spec z Hz w t h (proj1 Ho)) as (h' & E' & Hh' & Hp'); [|done..|].
    { by intros x [->|Hx]%elem_of_cons; [|apply Hl]. }
    rewrite E'. cbv beta iota. unfold mbind, ST_bind. simpl. apply watch_resets_orderly.
    eapply orderly_manager; [|apply (heap_orderly w m h'); [apply Ho|by rewrite Hp'; apply NoDup_cons|done]]. done.
Qed.

Lemma erase_sublist t h : erase_timer t h `sublist_of` h.
Proof. induction h as [|x h IH]; [done|]. simpl. case_bool_decide; [by apply sublist_cons|by apply sublist_skip]. Qed.

Lemma remove_timer_orderly st t : orderly st -> orderly (remove_timer now t st).2.
Proof using Hz.
  destruct st as [w m]. intros Ho. unfold remove_timer, weak_remove_timer.
  destruct (validated_orderly w m Ho) as (h & E & Hp & Hh & Hn & Hl & Ho1).
  destruct t as [t|]; [|by rewrite (bind_ok _ _ _ _ _ E)].
  unfold mbind at 1, ST_bind at 1. rewrite (bind_ok _ _ _ _ _ E), get_bind. cbv beta iota. unfold heap_remove_timer.
  case_bool_decide; cbv beta iota; unfold mbind, ST_bind; simpl.
  - apply orderly_unwatch. pose proof (erase_sublist t h) as Hsub.
    destruct (heapify_spec z Hz w (erase_timer t h) (proj1 Ho)) as [H1 H2].
    { intros x Hx. apply Hl. by eapply elem_of_sublist. }
    eapply orderly_manager; [|apply (heap_orderly w m (heapify now w (erase_timer t h))); [apply Ho| |done]]; [done|].
    rewrite H2. by eapply sublist_NoDup.
  - by eapply orderly_manager; [|exact Ho1].
Qed.

Lemma clear_orderly st : orderly st -> orderly (clear now st).2.
Proof using Hz.
  destruct st as [w m]. intros Ho. unfold clear.
  destruct (validated_orderly w m Ho) as (h & E & Hp & Hh & Hn & Hl & Ho1). rewrite (bind_ok _ _ _ _ _ E).
  assert (Hf : forall l st, orderly st -> exists st', for_each (fun t => on_timers (clear_on_reset_callback t)) l st = (Ok tt, st') /\ orderly st').
  { induction l as [|t l IH]; intros st Hst; [by exists st|]. destruct st as [w1 m1]. simpl.
    apply (IH (clear_on_reset_callback t w1, m1)). by apply orderly_unwatch. }
  destruct (Hf h _ Ho1) as ([w1 m1] & E1 & Ho2). rewrite (bind_ok _ _ _ _ _ E1). split; [apply Ho2|].
  split; simpl; [constructor|]. exists (fun _ => 0). split; [intros i Hi; simpl in Hi; lia|]. by intros t Ht%elem_of_nil.
Qed.

Lemma reheap_orderly w m :
  orderly (w, m) ->
  exists m', reheap now (w, m) = (Ok tt, (w, m')) /\ orderly (w, m') /\ weak_heap_ m' ≡ₚ living w (weak_heap_ m).
Proof using Hz.
  intros Ho. unfold reheap.
  destruct (validated_orderly w m Ho) as (h & E & Hp & Hh & Hn & Hl & Ho1). rewrite (bind_ok _ _ _ _ _ E), get_bind. cbv beta iota.
  destruct (heapify_spec z Hz w h (proj1 Ho) Hl) as [H1 H2].
  eexists. split; [done|]. split; [|simpl; by rewrite H2].
  apply (heap_orderly w (set_heap h m)); [apply Ho| |done]. by rewrite H2.
Qed.

(** ** The head *)

(** The time until the first of them is due; [None] if all are canceled. *)
Definition earliest (w : TimerMap) (h : list N) (r : option Z) : Prop :=
  match r with
  | None => h <> [] /\ forall t, t ∈ h -> timer_is_canceled w t = true
  | Some d =>
    h = [] /\ d = int64_max \/
    exists t x, t ∈ h /\ w !! t = Some x /\ canceled x = false /\ d = next_call_time x - z /\
      forall u y, u ∈ h -> w !! u = Some y -> canceled y = false -> next_call_time x <= next_call_time y
  end.

Lemma canceled_spec w t x : w !! t = Some x -> timer_is_canceled w t = canceled x.
Proof. intros Hx. unfold timer_is_canceled. by rewrite Hx. Qed.

Lemma earliest_first w h head :
  sane w -> head ∈ h -> lives w h -> (forall t, t ∈ h -> (due w head <= due w t)%Z) ->
  earliest w h (if timer_is_canceled w head then None else Some (time_until_trigger now w head)).
Proof using Hz.
  intros Hs Hin Hl Hmin. destruct (Hl head Hin) as [x Hx]. rewrite (canceled_spec _ _ _ Hx), (until_spec z Hz _ _ _ Hx) by eauto.
  destruct (canceled x) eqn:Ex; simpl.
  - split; [by intros ->; apply elem_of_nil in Hin|]. intros t Ht. specialize (Hmin t Ht). destruct (Hl t Ht) as [y Hy].
    rewrite (canceled_spec _ _ _ Hy). unfold due in Hmin. rewrite Hx, Hy, Ex in Hmin. destruct (canceled y); [done|].
    destruct (Hs _ _ Hy). lia.
  - right. exists head, x. split_and!; try done. intros u y Hu Hy Ey. specialize (Hmin u Hu).
    unfold due in Hmin. by rewrite Hx, Hy, Ex, Ey in Hmin.
Qed.

Lemma earliest_perm w h h' r : h ≡ₚ h' -> earliest w h r -> earliest w h' r.
Proof.
  intros Hp. destruct r as [d|]; simpl.
  - intros [[-> ->]|(t & x & Ht & Hx & Ex & -> & Hm)]; [left; by apply Permutation_nil in Hp|].
    right. exists t, x. rewrite <- Hp. split_and!; try done. intros u y. rewrite <- Hp. apply Hm.
  - intros [Hne Hc]. split; [|intros t; rewrite <- Hp; apply Hc]. intros ->. symmetry in Hp. by apply Permutation_nil in Hp.
Qed.

(** "If it is still a valid pointer, it is guaranteed to be the correct head",
    whatever has died in the rest of the heap. *)
Lemma alive_head_first w m head h :
  orderly (w, m) -> weak_heap_ m = head :: h -> is_Some (w !! head) ->
  forall t, t ∈ living w (head :: h) -> (due w head <= due w t)%Z.
Proof.
  intros [_ [_ (k & Hh & Hk)]] Eh Hx t [Ht Hl]%elem_of_living. simpl in Hh, Hk. rewrite Eh in Hh, Hk.
  rewrite <- !Hk by (done || by left). by apply (is_heap_min k _ head Hh).
Qed.

Lemma head_timeout_spec w m :
  orderly (w, m) ->
  exists r m', get_head_timeout_unsafe now (w, m) = (Ok r, (w, m')) /\ orderly (w, m') /\ running_ m' = running_ m /\
    earliest w (living w (weak_heap_ m)) r.
Proof using Hz.
  intros Ho. unfold get_head_timeout_unsafe. rewrite get_bind. cbv beta iota. destruct (weak_heap_ m) as [|head h] eqn:Eh.
  { exists (Some int64_max), m. split_and!; try done. by left. }
  destruct (timer_alive w head) eqn:Ea.
  - exists (if timer_is_canceled w head then None else Some (time_until_trigger now w head)), m. split_and!; try done.
    apply bool_decide_eq_true in Ea. apply earliest_first; [apply Ho|apply elem_of_living; split; [by left|done]|by apply lives_living|].
    by eapply alive_head_first.
  - destruct (validated_orderly w m Ho) as (h' & E & Hp & Hh & Hn & Hl & Ho1). rewrite (bind_ok _ _ _ _ _ E), <- Eh.
    exists (match h' with [] => Some int64_max | t :: _ => if timer_is_canceled w t then None else Some (time_until_trigger now w t) end), (set_heap h' m).
    split; [by destruct h'|]. split; [done|]. split; [done|]. apply (earliest_perm w h'); [done|].
    destruct h' as [|t h']; [by left|]. apply earliest_first; [apply Ho|by left|done|]. by apply is_heap_min.
Qed.

(** ** Execution *)

Section Runs.
Context (run : N -> rcl_timer_call_info_t -> TimerMap -> TimerMap).

(** The callbacks leave alone the timers that there are. *)
Record harmless : Prop := {
  run_keeps : forall t info w x, is_Some (w !! x) -> run t info w !! x = w !! x;
  run_sane : forall t info w, sane w -> sane (run t info w);
}.

(** The timers of the heap that are ready have room for another period. *)
Definition roomy (st : Managing) : Prop :=
  forall t, t ∈ weak_heap_ st.2 -> timer_is_ready now st.1 t = true -> room z st.1 t.

Hypothesis Hrun : harmless.
Hypothesis Hend : z < int64_max.

Lemma execute_ready_timers_orderly st : orderly st -> roomy st -> orderly (execute_ready_timers_unsafe now run st).2.
Proof using Hz Hrun Hend.
  destruct st as [w m], Hrun as [Hk Hs']. intros [Hs Hv] Hr.
  destruct (manager_ready_spec z Hz run Hk Hs' Hend w m Hs Hv Hr) as (l & w' & h & E & _ & H1 & H2 & _). rewrite E. by split.
Qed.

(** The head is called if it is ready. *)
Lemma call_head_timer_spec w m :
  orderly (w, m) ->
  exists h, h ≡ₚ living w (weak_heap_ m) /\ is_heap (due w) h /\ NoDup h /\ lives w h /\ orderly (w, set_heap h m) /\
    ((exists root rest x, h = root :: rest /\ w !! root = Some x /\ canceled x = false /\ timer_is_ready now w root = true /\
      call_head_timer now (w, m) =
        (Ok (Some (h, root, mkCallInfo (next_call_time x) z)), (<[root := called z x]> w, set_heap h m))) \/
     (forall root, head h = Some root -> timer_is_ready now w root = false) /\
       call_head_timer now (w, m) = (Ok None, (w, set_heap h m))).
Proof using Hz.
  intros Ho. destruct (validated_orderly w m Ho) as (h & E & Hp & Hh & Hn & Hl & Ho1). exists h. split_and!; try done.
  unfold call_head_timer. rewrite (bind_ok _ _ _ _ _ E). destruct h as [|root rest]; [by right|]. rewrite get_bind. cbv beta iota.
  destruct (timer_is_ready now w root) eqn:Erd; [left|right; split; [by intros ? [= <-]|done]].
  destruct (Hl root ltac:(by left)) as [x Hx]. pose proof (ready_spec z Hz w root x Hx (proj1 Ho _ _ Hx)) as Er. rewrite Erd in Er.
  symmetry in Er. apply andb_true_iff in Er as [Hc%negb_true_iff _]. exists root, rest, x. split_and!; try done.
  by rewrite (bind_ok _ _ _ _ _ (timer_call_ready z Hz _ w root x Hx Hc)).
Qed.

(** It is executed while the heap waits for it. *)
Lemma execute_head_timer_orderly st : orderly st -> roomy st -> orderly (execute_head_timer now run st).2.
Proof using Hz Hrun Hend.
  destruct st as [w m], Hrun as [Hk Hs']. intros Ho Hr. unfold execute_head_timer, unless_running. rewrite get_bind. cbv beta iota.
  destruct (running_ m); [done|].
  destruct (call_head_timer_spec w m Ho) as (h & Hp & Hh & Hn & Hl & Ho1 & [(root & rest & x & -> & Hx & Hc & Erd & E)|[_ E]]);
    rewrite (bind_ok _ _ _ _ _ E); [|done]. cbv beta iota. unfold mbind, ST_bind. simpl.
  assert (Hroot : root ∈ weak_heap_ m).
  { assert (Hi : root ∈ root :: rest) by by left. rewrite Hp in Hi. by apply elem_of_living in Hi as [? _]. }
  destruct (called_sane z Hz Hend w root x Hx (proj1 Ho _ _ Hx) (Hr root Hroot Erd)) as [Hcs _].
  set (u := set_heap (root :: rest) (mkManager [] false false false)).
  change (run root _ _) with (executed z run u root x w). set (w' := executed z run u root x w).
  assert (Hsw : sane w') by (apply executed_sane; [done|apply Ho|done]). apply NoDup_cons in Hn as [Hnin Hn].
  assert (Hothers : forall t, t ∈ rest -> w' !! t = w !! t).
  { intros t Ht. apply executed_others; [done|apply Hl; by right|]. by intros ->. }
  assert (Hl' : lives w' (root :: rest)).
  { intros t [->|Ht]%elem_of_cons; [|rewrite Hothers by done; apply Hl; by right]. unfold w'. rewrite executed_same by done. by eexists. }
  destruct (root_moves z Hz w w' root rest Hsw Hl' Hothers Hh) as [H1 H2].
  apply (heap_orderly w' (set_heap (root :: rest) m)); [done| |done]. rewrite H2. by apply NoDup_cons.
Qed.

Lemma before_sleep_orderly w m :
  orderly (w, m) -> exists s m', before_sleep now (w, m) = (Ok s, (w, m')) /\ orderly (w, m').
Proof using Hz.
  intros Ho. unfold before_sleep. destruct (head_timeout_spec w m Ho) as (r & m1 & E1 & Ho1 & _).
  rewrite (bind_ok _ _ _ _ _ E1). destruct r as [d|]; [by do 2 eexists|].
  destruct (reheap_orderly w m1 Ho1) as (m2 & E2 & Ho2 & _). destruct (head_timeout_spec w m2 Ho2) as (r & m3 & E3 & Ho3 & _).
  exists (match r with None => UntilUpdated | Some z => if z =? int64_max then UntilUpdated else if z =? 0 then NotAtAll else AtMost z end), m3.
  split; [|done]. erewrite bind_ok; [|rewrite (bind_ok _ _ _ _ _ E2); exact E3]. done.
Qed.

Lemma after_sleep_orderly w m s :
  orderly (w, m) -> roomy (w, m) -> orderly (after_sleep now run s (w, m)).2.
Proof using Hz Hrun Hend.
  intros Ho Hr. unfold after_sleep. destruct s; [|apply execute_ready_timers_orderly; [by eapply orderly_manager|exact Hr]..].
  destruct (reheap_orderly w m Ho) as (m1 & E1 & Ho1 & Hp). rewrite (bind_ok _ _ _ _ _ E1).
  apply execute_ready_timers_orderly; [by eapply orderly_manager|]. intros t Ht. apply Hr. simpl in Ht. rewrite Hp in Ht.
  by apply elem_of_living in Ht as [? _].
Qed.
End Runs.
End Methods.
