(* ===== verification/TimersManagerRuns.v ===== *)
(** * Using the timers manager

    The states that a manager gets into ([managed]), what it does in them
    ([ready_timers_once], [head_timeout_earliest]), and what happens when a
    timer that is in the heap is canceled ([canceled_timer_starves]). *)

From Stdlib Require Import ZArith Lia Sorting.Sorted.
From stdpp Require Import base numbers list gmap.
From S2P Require Import Prelude Computation RclTypes Timer Heap TimersManager TimersManagerFacts.
#[local] Open Scope Z_scope.

(** ** What may happen to a manager *)








(** ** Below a canceled timer

    A heap of four timers: the two that are not on the way to the last change
    places, for good. *)

Section Starving.
Context (run : N -> rcl_timer_call_info_t -> TimerMap -> TimerMap) (run_keeps : forall t info w x, is_Some (w !! x) -> run t info w !! x = w !! x).
Context (x b y d : N) (Hne : NoDup [x; b; y; d]) (canceled_b last_d : rcl_timer_impl_t) (Hb : canceled canceled_b = true).

Definition calm_timer (v : rcl_timer_impl_t) : Prop :=
  canceled v = false /\ 0 <= next_call_time v <= 2 ^ 62 /\ 0 < period v <= 2 ^ 61.

Definition calm_clock (z : Z) : Prop := 0 <= z <= 2 ^ 61.

Record stuck (w : TimerMap) (h : list N) : Prop := {
  stuck_heap : exists p q, h = [p; b; q; d] /\ ([p; q] = [x; y] \/ [p; q] = [y; x]);
  stuck_x : exists v, w !! x = Some v /\ calm_timer v;
  stuck_y : exists v, w !! y = Some v /\ calm_timer v;
  stuck_b : w !! b = Some canceled_b;
  stuck_d : w !! d = Some last_d;
}.

Lemma calm_sane v : calm_timer v -> sane_timer v.
Proof. intros (_ & ? & ?). unfold sane_timer, int64_max. lia. Qed.

Lemma stuck_lives w h : stuck w h -> lives w h.
Proof.
  intros [(p & q & -> & Hpq) (vx & Hx & _) (vy & Hy & _) Hwb Hwd] t Ht.
  assert (t = x \/ t = y \/ t = b \/ t = d) as [-> | [-> | [-> | ->]]]; [|by eexists..].
  destruct Hpq as [[= -> ->] | [= -> ->]]; set_solver.
Qed.

Lemma calm_called z w t v : calm_clock z -> w !! t = Some v -> calm_timer v -> timer_is_ready (fun _ => z) w t = true -> calm_timer (called z v).
Proof.
  intros Hz Ht Hv Hr. unfold calm_clock in Hz. assert (Hz' : 0 <= z <= int64_max) by (unfold int64_max; lia).
  rewrite (ready_spec z Hz' w t v Ht (calm_sane v Hv)) in Hr. apply andb_true_iff in Hr as [_ Hle%Z.leb_le].
  destruct Hv as (Hc & Hn & Hp). unfold calm_timer, called. simpl.
  destruct (next_after_positive (next_call_time v) (period v) z) as (k & Hk & En & Hlt & Hor); [unfold int64_max; lia..|].
  cbn zeta in *. split; [done|]. split; [|done]. destruct Hor as [->|]; lia.
Qed.

(** The canceled timer is not moved. *)
Lemma stuck_moves z w p q :
  0 <= z <= int64_max -> w !! b = Some canceled_b -> (exists v, w !! q = Some v /\ sane_timer v) ->
  heapify_root (fun _ => z) w [p; b; q; d] = [p; b; q; d] \/ heapify_root (fun _ => z) w [p; b; q; d] = [q; b; p; d].
Proof using Hb.
  intros Hz Hwb (v & Hq & Hv). pose proof (until_spec z Hz w q v Hq Hv) as Eq.
  assert (Eb : time_until_trigger (fun _ => z) w b = int64_max).
  { unfold time_until_trigger. rewrite Hwb. simpl. by rewrite Hb. }
  assert (E : timer_greater (fun _ => z) w q b = false).
  { unfold timer_greater, later. rewrite Eb. apply Z.ltb_ge. rewrite Eq. destruct Hv. destruct (canceled v); lia. }
  unfold heapify_root. revert E. generalize (timer_greater (fun _ => z) w). intros c E. cbn. unfold adjust_heap. cbn. rewrite E. cbn.
  destruct (c q p); cbn; tauto.
Qed.

Lemma stuck_loop z n w m h :
  calm_clock z -> stuck w h ->
  exists l w' h', execute_loop (fun _ => z) run n h (w, m) = (Ok (l, h'), (w', m)) /\ stuck w' h' /\ forall t, t ∈ l.*1 -> t = x \/ t = y.
Proof using Hne Hb run_keeps.
  intros Hz. assert (Hz' : 0 <= z <= int64_max) by (unfold calm_clock in Hz; unfold int64_max; lia).
  revert w h. induction n as [|n IH]; intros w h Hs; [exists [], w, h; split_and!; try done; by intros t Ht%elem_of_nil|].
  pose proof Hs as [(p & q & -> & Hpq) Hx Hy Hwb Hwd].
  assert (exists v, w !! p = Some v /\ calm_timer v) as (v & Hp & Hv) by by destruct Hpq as [[= -> ->] | [= -> ->]].
  destruct (timer_is_ready (fun _ => z) w p) eqn:Er.
  2:{ exists [], w, [p; b; q; d]. cbn [execute_loop]. rewrite get_bind. cbv beta iota. rewrite Er. split_and!; try done. by intros t Ht%elem_of_nil. }
  rewrite (execute_loop_step z Hz' run m n w p [b; q; d] v Hp (proj1 Hv) Er).
  pose proof (calm_called z w p v Hz Hp Hv Er) as Hv'.
  pose proof (executed_same z run m run_keeps p v w) as Ep. set (w' := executed z run m p v w) in *.
  assert (Hother : forall t u, w !! t = Some u -> t <> p -> w' !! t = Some u).
  { intros t u Ht Hn. rewrite <- Ht. apply executed_others; [done|by eexists|done]. }
  assert (p <> b /\ p <> d /\ p <> q /\ (p = x \/ p = y)) as (Hpb & Hpd & Hpq' & Hpxy).
  { rewrite !NoDup_cons in Hne. destruct Hpq as [[= -> ->] | [= -> ->]]; set_solver. }
  assert (Hc : forall t, (exists u, w !! t = Some u /\ calm_timer u) -> exists u, w' !! t = Some u /\ calm_timer u).
  { intros t (u & Ht & Hu). destruct (decide (t = p)) as [->|Htp]; [by exists (called z v)|]. exists u. split; [by apply Hother|done]. }
  assert (Hs' : stuck w' (heapify_root (fun _ => z) w' [p; b; q; d])).
  { split; [|by apply Hc|by apply Hc|by apply Hother|by apply Hother].
    assert (Hq : exists u, w' !! q = Some u /\ sane_timer u).
    { destruct (Hc q) as (u & Hu & Hcu); [by destruct Hpq as [[= -> ->] | [= -> ->]]|]. exists u. split; [done|by apply calm_sane]. }
    destruct (stuck_moves z w' p q Hz' (Hother b _ Hwb ltac:(done)) Hq) as [-> | ->]; [by exists p, q|].
    exists q, p. split; [done|]. destruct Hpq as [[= -> ->] | [= -> ->]]; tauto. }
  destruct (IH w' _ Hs') as (l & w2 & h2 & E & H1 & H2). rewrite E.
  eexists _, w2, h2. split; [done|]. split; [done|]. intros t [->|Ht]%elem_of_cons; [done|by apply H2].
Qed.

(** Before the sleep the head is not canceled. *)
Lemma stuck_before z w m : calm_clock z -> stuck w (weak_heap_ m) -> exists s, before_sleep (fun _ => z) (w, m) = (Ok s, (w, m)) /\ s <> UntilUpdated.
Proof using Hb.
  intros Hz [(p & q & Eh & Hpq) Hx Hy _ _]. assert (Hz' : 0 <= z <= int64_max) by (unfold calm_clock in Hz; unfold int64_max; lia).
  assert (exists v, w !! p = Some v /\ calm_timer v) as (v & Hp & Hv) by by destruct Hpq as [[= -> ->] | [= -> ->]].
  assert (E : get_head_timeout_unsafe (fun _ => z) (w, m) = (Ok (Some (next_call_time v - z)), (w, m))).
  { unfold get_head_timeout_unsafe. rewrite get_bind. cbv beta iota. rewrite Eh. unfold timer_alive. rewrite bool_decide_true by by eexists.
    rewrite (canceled_spec _ _ _ Hp), (until_spec z Hz' _ _ _ Hp (calm_sane v Hv)). by rewrite (proj1 Hv). }
  unfold before_sleep. rewrite (bind_ok _ _ _ _ _ E). eexists. split; [done|]. destruct Hv as (_ & Hv & _). unfold calm_clock in Hz.
  destruct (Z.eqb_spec (next_call_time v - z) int64_max); [unfold int64_max in *; lia|]. by destruct (Z.eqb_spec (next_call_time v - z) 0).
Qed.

Lemma stuck_after z w m s :
  calm_clock z -> stuck w (weak_heap_ m) -> s <> UntilUpdated ->
  exists l w' m', after_sleep (fun _ => z) run s (w, m) = (Ok l, (w', m')) /\ stuck w' (weak_heap_ m') /\ running_ m' = running_ m /\
    forall t, t ∈ l.*1 -> t = x \/ t = y.
Proof using Hne Hb run_keeps.
  intros Hz Hs Hs'. set (m1 := set_updated false m).
  assert (E : after_sleep (fun _ => z) run s (w, m) = execute_ready_timers_unsafe (fun _ => z) run (w, m1)) by by destruct s. rewrite E. clear E.
  assert (Ev : validate_and_lock (fun _ => z) (w, m1) = (Ok (weak_heap_ m), (w, m1))).
  { pose proof (stuck_lives _ _ Hs) as Hl. unfold validate_and_lock. rewrite get_bind. cbv beta iota.
    assert (Ea : forallb (timer_alive w) (weak_heap_ m) = true).
    { apply forallb_forall. intros t Ht. apply bool_decide_eq_true, Hl. by apply list_elem_of_In. }
    change (weak_heap_ m1) with (weak_heap_ m). rewrite Ea. by rewrite forallb_filter_id. }
  unfold execute_ready_timers_unsafe. rewrite (bind_ok _ _ _ _ _ Ev).
  destruct (stuck_loop z (heap_ready_timers (fun _ => z) w (weak_heap_ m)) w m1 (weak_heap_ m) Hz Hs) as (l & w' & h' & El & H1 & H2).
  exists l, w', (set_heap h' m1). split; [|done].
  destruct (weak_heap_ m) as [|t h] eqn:Eh; [by destruct Hs as [(p & q & ? & _) _ _ _ _]|].
  rewrite get_bind. cbv beta iota. by rewrite (bind_ok _ _ _ _ _ El).
Qed.

Lemma stuck_run zs w m :
  Forall (fun '(z, z') => calm_clock z /\ calm_clock z') zs -> stuck w (weak_heap_ m) -> running_ m = true ->
  exists l w' m', run_timers run (List.map (fun '(z, z') => (fun _ => z, fun _ => z')) zs) (w, m) = (Ok l, (w', m')) /\
    stuck w' (weak_heap_ m') /\ forall t, t ∈ l.*1 -> t = x \/ t = y.
Proof using Hne Hb run_keeps.
  intros Hzs. revert w m. induction Hzs as [|[z z'] zs [Hz Hz'] _ IH]; intros w m Hs Hr; cbn [List.map run_timers]; rewrite get_bind; cbv beta iota;
    rewrite Hr; [exists [], w, m; split_and!; try done; by intros t Ht%elem_of_nil|].
  destruct (stuck_before z w m Hz Hs) as (s & E1 & Hn). rewrite (bind_ok _ _ _ _ _ E1).
  destruct (stuck_after z' w m s Hz' Hs Hn) as (l & w1 & m1 & E2 & Hs1 & Hr1 & H1). rewrite (bind_ok _ _ _ _ _ E2).
  destruct (IH w1 m1 Hs1 ltac:(by rewrite Hr1)) as (l' & w2 & m2 & E3 & Hs2 & H2). rewrite (bind_ok _ _ _ _ _ E3).
  exists (l ++ l'), w2, m2. split; [done|]. split; [done|]. intros t. rewrite fmap_app, elem_of_app. intros [Ht|Ht]; auto.
Qed.
End Starving.

(** A timer may be canceled while it is in the heap, and the thread puts the
    heap in order again only if the head is canceled.  In a heap of four
    timers of which the second is canceled, with nothing added or removed, the
    one below it is never executed, for however long the thread runs, and
    however long it was due. *)
Theorem canceled_timer_starves run w m x b y d zs :
  (forall t info w u, is_Some (w !! u) -> run t info w !! u = w !! u) ->
  weak_heap_ m = [x; b; y; d] -> NoDup [x; b; y; d] -> running_ m = true ->
  (exists v, w !! x = Some v /\ calm_timer v) -> (exists v, w !! y = Some v /\ calm_timer v) ->
  timer_is_canceled w b = true -> is_Some (w !! d) ->
  Forall (fun '(z, z') => calm_clock z /\ calm_clock z') zs ->
  exists l w' m', run_timers run (List.map (fun '(z, z') => (fun _ => z, fun _ => z')) zs) (w, m) = (Ok l, (w', m')) /\
    d ∉ l.*1 /\ w' !! d = w !! d.
Proof.
  intros Hk Eh Hne Hr Hx Hy Hb [vd Hd] Hzs. unfold timer_is_canceled in Hb. destruct (w !! b) as [vb|] eqn:Ew; [|done]. simpl in Hb.
  assert (Hs : stuck x b y d vb vd w (weak_heap_ m)) by (split; [by exists x, y; auto|done..]).
  destruct (stuck_run run Hk x b y d Hne vb vd Hb zs w m Hzs Hs Hr) as (l & w' & m' & E & [_ _ _ _ Hd'] & Hl).
  exists l, w', m'. split; [done|]. split; [|by rewrite Hd', Hd]. intros Hin. rewrite !NoDup_cons in Hne.
  destruct (Hl d Hin); set_solver.
Qed.

(** ** Witnesses *)

Definition timer_due (next : Z) (watched : bool) : rcl_timer_impl_t := mkTimer false true next 0 next 0 false watched 0.
Definition four_timers (watched : bool) : TimerMap :=
  list_to_map [(0%N, timer_due 10 watched); (1%N, timer_due 20 watched); (2%N, timer_due 12 watched); (3%N, timer_due 25 watched)].
Definition four_manager : TimersManager := mkManager [0; 1; 2; 3]%N true false false.
Definition leave (t : N) (info : rcl_timer_call_info_t) (w : TimerMap) : TimerMap := w.








Definition one_canceled : TimerMap := <[1%N := set_canceled (timer_due 20 true) true]> (four_timers true).

Example canceled_timer_starves_witness :
  timer_is_ready (fun _ => 100) one_canceled 3%N = true /\
  exists l w' m', run_timers leave (List.map (fun '(z, z') => (fun _ => z, fun _ => z')) [(0, 10); (11, 30); (31, 100)])
      (one_canceled, set_running true four_manager) = (Ok l, (w', m')) /\
    3%N ∉ l.*1 /\ w' !! 3%N = one_canceled !! 3%N.
Proof.
  split; [by vm_compute|].
  apply (canceled_timer_starves leave one_canceled (set_running true four_manager) 0%N 1%N 2%N 3%N);
    [done|done| |done|eexists; split; [done|]|eexists; split; [done|]|done|by eexists|].
  - by apply (bool_decide_eq_true_1 _); vm_compute.
  - unfold calm_timer; simpl; lia.
  - unfold calm_timer; simpl; lia.
  - repeat constructor; unfold calm_clock; lia.
Defined.
