(* ===== verification/TimersManagerMembers.v ===== *)
(** * Which timers a manager has

    What the operations of the manager do to the set of its timers, whatever
    the order of its heap and the times of the timers: for those who only have
    to know which timers are in it. *)

From Stdlib Require Import ZArith Lia.
From stdpp Require Import base numbers list gmap.
From S2P Require Import Prelude Computation RclTypes Timer Heap TimersManager TimersManagerFacts.
#[local] Open Scope Z_scope.

(** ** Timers of the manager *)

Definition same_timers (w w' : TimerMap) : Prop := forall t, is_Some (w' !! t) <-> is_Some (w !! t).

Lemma same_timers_living w w' h : same_timers w w' -> living w' h = living w h.
Proof. intros Hs. unfold living. apply List.filter_ext. intros t. apply bool_decide_ext, Hs. Qed.

Lemma insert_same w t x : is_Some (w !! t) -> same_timers w (<[t := x]> w).
Proof. intros Ht u. rewrite lookup_insert_is_Some'. destruct (decide (t = u)); naive_solver. Qed.

#[export] Instance living_proper w : Proper (Permutation ==> Permutation) (living w).
Proof. intros l l' Hp. by apply filter_perm. Qed.

Lemma living_living w h : living w (living w h) = living w h.
Proof. unfold living. induction h as [|x l IH]; [done|]. simpl. destruct (timer_alive w x) eqn:Ex; [simpl; by rewrite Ex, IH|done]. Qed.

(** Some heap, whatever the order. *)
Lemma validate_any now w m :
  exists h, validate_and_lock now (w, m) = (Ok h, (w, if forallb (timer_alive w) (weak_heap_ m) then m else set_heap h m)) /\
    h ≡ₚ living w (weak_heap_ m).
Proof.
  unfold validate_and_lock. rewrite get_bind. cbv beta iota. destruct (forallb (timer_alive w) (weak_heap_ m)) eqn:E.
  - by exists (List.filter (timer_alive w) (weak_heap_ m)).
  - eexists. split; [done|]. apply make_heap_spec.
Qed.

(** The heap of the state has the timers of the locked one, and dead ones. *)
Lemma validate_any_heap now w m h m' :
  validate_and_lock now (w, m) = (Ok h, (w, m')) -> NoDup (weak_heap_ m) ->
  NoDup (weak_heap_ m') /\ NoDup h /\ h ≡ₚ living w (weak_heap_ m) /\ h ≡ₚ living w (weak_heap_ m').
Proof.
  intros E Hn. destruct (validate_any now w m) as (h1 & E1 & Hp). rewrite E in E1. injection E1 as <- ->.
  assert (Hnh : NoDup h) by (rewrite Hp; by apply NoDup_living). split_and!; try done; [by destruct (forallb _ _)|].
  destruct (forallb _ _); [done|]. simpl. by rewrite Hp, living_living.
Qed.

(** What a method leaves of the manager. *)
Record manages (w : TimerMap) (m : TimersManager) (w' : TimerMap) (m' : TimersManager) (P : N -> Prop) : Prop := {
  manages_same : same_timers w w';
  manages_nodup : NoDup (weak_heap_ m');
  manages_ready : on_ready_callback_ m' = on_ready_callback_ m;
  manages_heap : forall u, is_Some (w !! u) -> u ∈ weak_heap_ m' <-> P u;
}.

Lemma validate_manages now w m :
  NoDup (weak_heap_ m) ->
  exists h m', validate_and_lock now (w, m) = (Ok h, (w, m')) /\ NoDup h /\ lives w h /\
    manages w m w m' (fun u => u ∈ weak_heap_ m) /\ forall u, is_Some (w !! u) -> u ∈ h <-> u ∈ weak_heap_ m.
Proof.
  intros Hn. destruct (validate_any now w m) as (h & E & Hp).
  destruct (validate_any_heap now w m h _ E Hn) as (H1 & H2 & _ & H3).
  assert (Hr : on_ready_callback_ (if forallb (timer_alive w) (weak_heap_ m) then m else set_heap h m) = on_ready_callback_ m)
    by by destruct (forallb _ _).
  revert E H1 H3 Hr. generalize (if forallb (timer_alive w) (weak_heap_ m) then m else set_heap h m). intros m' E H1 H3 Hr.
  exists h, m'. split; [exact E|]. split; [done|].
  assert (Hl : lives w h) by (eapply lives_perm; [exact Hp|apply lives_living]). split; [done|].
  assert (Hh : forall u, is_Some (w !! u) -> u ∈ h <-> u ∈ weak_heap_ m).
  { intros u Hu. rewrite Hp, elem_of_living. tauto. }
  split; [|done]. split; [done..|].
  intros u Hu. rewrite <- Hh by done. rewrite H3, elem_of_living. tauto.
Qed.

Lemma watch_resets_any w m t :
  is_Some (w !! t) -> exists w' b, watch_resets t (w, m) = (Ok tt, (w', set_updated b m)) /\ same_timers w w'.
Proof.
  intros [x Hx]. unfold watch_resets. rewrite get_bind. cbv beta iota. rewrite Hx. simpl.
  destruct (reset_counter x); unfold mbind, ST_bind; simpl; eexists _, _; (split; [|apply insert_same; by eexists]).
  - instantiate (1 := timers_updated_ m). by destruct m.
  - done.
Qed.

Lemma add_timer_any now w m t :
  NoDup (weak_heap_ m) -> is_Some (w !! t) ->
  exists w' m', add_timer now (Some t) (w, m) = (Ok tt, (w', m')) /\ manages w m w' m' (fun u => u = t \/ u ∈ weak_heap_ m).
Proof.
  intros Hn Ht. destruct (validate_manages now w m Hn) as (h & m1 & E & Hnh & Hl & [_ H2 H3 H4] & Hh).
  unfold add_timer, weak_add_timer. unfold mbind at 1, ST_bind at 1. rewrite (bind_ok _ _ _ _ _ E), get_bind. cbv beta iota.
  unfold heap_add_timer. case_bool_decide as Hin; cbv beta iota; unfold mbind, ST_bind; simpl.
  - destruct (watch_resets_any w (set_updated (timers_updated_ m1 || false) m1) t Ht) as (w' & b & E' & Hs).
    eexists _, _. split; [exact E'|]. split; [done|done|done|]. intros u Hu. simpl. rewrite H4 by done.
    split; [auto|intros [->|?]; [by apply Hh|done]].
  - match goal with |- context [set_heap ?l m1] => set (h' := l) end.
    assert (Hp : h' ≡ₚ t :: h).
    { unfold h'. rewrite push_heap_perm. by rewrite <- Permutation_cons_append. }
    destruct (watch_resets_any w (set_updated (timers_updated_ (set_heap h' m1) || true) (set_heap h' m1)) t Ht) as (w' & b & E' & Hs).
    eexists _, _. split; [exact E'|]. split; [done| |done|].
    + simpl. rewrite Hp. by apply NoDup_cons.
    + intros u Hu. simpl. rewrite Hp, elem_of_cons, Hh by done. done.
Qed.

Lemma erase_timer_spec t h u : NoDup h -> u ∈ erase_timer t h <-> u ∈ h /\ u <> t.
Proof.
  induction 1 as [|x h Hx Hn IH]; simpl; [rewrite elem_of_nil; tauto|]. case_bool_decide as E.
  - subst x. rewrite elem_of_cons. split; [intros Hu; split; [auto|by intros ->]|intros [[->|]]; tauto].
  - rewrite !elem_of_cons, IH. split; [intros [->|]; naive_solver|naive_solver].
Qed.

Lemma clear_reset_same t w : same_timers w (clear_on_reset_callback t w).
Proof.
  unfold clear_on_reset_callback. destruct (w !! t) as [x|] eqn:Hx; [|done]. simpl. apply insert_same. by eexists.
Qed.

Lemma remove_timer_any now w m t :
  NoDup (weak_heap_ m) ->
  exists w' m', remove_timer now (Some t) (w, m) = (Ok tt, (w', m')) /\ manages w m w' m' (fun u => u <> t /\ u ∈ weak_heap_ m).
Proof.
  intros Hn. destruct (validate_manages now w m Hn) as (h & m1 & E & Hnh & Hl & [_ H2 H3 H4] & Hh).
  unfold remove_timer, weak_remove_timer. unfold mbind at 1, ST_bind at 1. rewrite (bind_ok _ _ _ _ _ E), get_bind. cbv beta iota.
  unfold heap_remove_timer. case_bool_decide as Hin; cbv beta iota; unfold mbind, ST_bind; simpl.
  - eexists _, _. split; [done|]. assert (Hp : heapify now w (erase_timer t h) ≡ₚ erase_timer t h) by apply make_heap_spec.
    split; [apply clear_reset_same| |done|].
    + simpl. rewrite Hp. eapply sublist_NoDup; [exact Hnh|apply erase_sublist].
    + intros u Hu. simpl. rewrite Hp, erase_timer_spec, Hh by done. tauto.
  - eexists _, _. split; [done|]. split; [done|done|done|]. intros u Hu. simpl. rewrite H4 by done. rewrite <- Hh by done.
    split; [intros Hu'; split; [by intros ->|done]|tauto].
Qed.

Lemma heapify_root_perm now w h : heapify_root now w h ≡ₚ h.
Proof.
  destruct h as [|root rest]; [done|]. unfold heapify_root, pop_heap. rewrite <- app_comm_cons, app_comm_cons, last_snoc, length_app.
  simpl length. replace (S (length rest) + 1 - 1)%nat with (S (length rest)) by lia. destruct (Nat.ltb_spec 1 (S (length rest) + 1)); [|lia].
  cbn [head app]. set (l := root :: rest ++ [root]).
  assert (Hl : length l = S (S (length rest))) by (unfold l; simpl; rewrite length_app; simpl; lia).
  assert (Hlast : l !! S (length rest) = Some root) by (unfold l; rewrite app_comm_cons, lookup_app_r by (simpl; lia); simpl length; by rewrite Nat.sub_diag).
  rewrite (list_insert_id l _ root Hlast).
  destruct (adjust_heap_perm (timer_greater now w) 0 (S (length rest)) root l ltac:(lia)) as [Hp Hi].
  rewrite (list_insert_id l 0 root eq_refl) in Hp. specialize (Hi (S (length rest)) ltac:(lia)). rewrite Hlast in Hi.
  set (l' := adjust_heap _ _ _ _ _) in *. assert (El : l' = take (S (length rest)) l' ++ [root]).
  { rewrite <- (take_drop (S (length rest)) l') at 1. f_equal. rewrite (drop_S l' root) by done. f_equal.
    apply nil_length_inv. rewrite length_drop, Hp. lia. }
  rewrite El in Hp. unfold l in Hp. rewrite app_comm_cons in Hp. by apply Permutation_app_inv_r in Hp.
Qed.

(** Calls and callbacks do not make timers, or end them. *)
Lemma timer_call_same now t w m :
  exists r w', timer_call_info now t (w, m) = (r, (w', m)) /\ same_timers w w'.
Proof.
  unfold timer_call_info. rewrite get_bind. cbv beta iota. destruct (w !! t) as [x|] eqn:Hx.
  - assert (E : exists ret info y b, rcl_timer_call_with_info (Some x) (Ok (now t)) = (ret, info, y, b) /\ is_Some y).
    { unfold rcl_timer_call_with_info. destruct (canceled x); [by do 4 eexists|]. destruct (now t <? 0); by do 4 eexists. }
    destruct E as (ret & info & y & b & -> & [y' ->]). unfold mbind, ST_bind. simpl.
    assert (Hs : same_timers w (<[t := y']> w)) by (apply insert_same; by eexists). destruct ret; by do 2 eexists.
  - simpl. by do 2 eexists.
Qed.

Section Running.
Context (now : Clocks) (run : N -> rcl_timer_call_info_t -> TimerMap -> TimerMap) (Hrun : forall t info w, same_timers w (run t info w)).

Lemma same_timers_trans w1 w2 w3 : same_timers w1 w2 -> same_timers w2 w3 -> same_timers w1 w3.
Proof. intros H1 H2 t. by rewrite (H2 t). Qed.

Lemma execute_loop_any n h w m :
  exists r w', execute_loop now run n h (w, m) = (r, (w', m)) /\ same_timers w w' /\ forall l h', r = Ok (l, h') -> h' ≡ₚ h.
Proof using Hrun.
  revert h w. induction n as [|n IH]; intros h w; cbn [execute_loop]; [exists (Ok ([], h)), w; split_and!; [done..|by intros ? ? [= _ <-]]|].
  destruct h as [|root h]; [by exists (Throw DeadTimer), w|]. rewrite get_bind. cbv beta iota.
  destruct (timer_is_ready now w root); [|exists (Ok ([], root :: h)), w; split_and!; [done..|by intros ? ? [= _ <-]]].
  destruct (timer_call_same now root w m) as (r & w1 & E & Hs). unfold mbind at 1, ST_bind at 1. rewrite E.
  destruct r as [data|err]; [|by exists (Throw err), w1].
  assert (exists w2, (match data with Some info => if on_ready_callback_ m then mret tt else on_timers (run root info) | None => mret tt end : ST _ timers_error _)
    (w1, m) = (Ok tt, (w2, m)) /\ same_timers w1 w2) as (w2 & E2 & Hs2).
  { destruct data as [info|]; [|by exists w1]. destruct (on_ready_callback_ m); [by exists w1|]. exists (run root info w1). split; [done|apply Hrun]. }
  rewrite (bind_ok _ _ _ _ _ E2), get_bind. cbv beta iota. unfold mbind, ST_bind.
  destruct (IH (heapify_root now w2 (root :: h)) w2) as (r3 & w3 & E3 & Hs3 & Hp3). rewrite E3.
  assert (Hs' : same_timers w w3) by (eapply same_timers_trans; [exact Hs|]; by eapply same_timers_trans).
  destruct r3 as [[l h']|err]; eexists _, w3; (split; [done|]); (split; [done|]); [|done].
  intros l' h'' [= _ <-]. rewrite (Hp3 l h' eq_refl). apply heapify_root_perm.
Qed.

Lemma manages_trans w m w1 m1 w2 m2 :
  manages w m w1 m1 (fun u => u ∈ weak_heap_ m) -> manages w1 m1 w2 m2 (fun u => u ∈ weak_heap_ m1) ->
  manages w m w2 m2 (fun u => u ∈ weak_heap_ m).
Proof.
  intros [A1 A2 A3 A4] [B1 B2 B3 B4]. split; [by eapply same_timers_trans|done|congruence|].
  intros u Hu. rewrite B4 by by apply A1. by apply A4.
Qed.

Lemma manages_store w m w' h h' :
  same_timers w w' -> NoDup h -> h' ≡ₚ h -> (forall u, is_Some (w !! u) -> u ∈ h <-> u ∈ weak_heap_ m) ->
  manages w m w' (set_heap h' m) (fun u => u ∈ weak_heap_ m).
Proof.
  intros Hs Hn Hp Hh. split; [done|simpl; by rewrite Hp|done|]. intros u Hu. simpl. rewrite Hp. by apply Hh.
Qed.

Lemma execute_ready_timers_any w m :
  NoDup (weak_heap_ m) ->
  exists r w' m', execute_ready_timers_unsafe now run (w, m) = (r, (w', m')) /\ manages w m w' m' (fun u => u ∈ weak_heap_ m).
Proof using Hrun.
  intros Hn. destruct (validate_manages now w m Hn) as (h & m1 & E & Hnh & Hl & Hm & Hh).
  unfold execute_ready_timers_unsafe. rewrite (bind_ok _ _ _ _ _ E). destruct h as [|root rest]; [by exists (Ok []), w, m1|].
  rewrite get_bind. cbv beta iota.
  destruct (execute_loop_any (heap_ready_timers now w (root :: rest)) (root :: rest) w m1) as (r & w' & E' & Hs & Hp).
  unfold mbind, ST_bind. rewrite E'. destruct r as [[l h']|err].
  - eexists _, w', (set_heap h' m1). split; [done|]. eapply manages_trans; [exact Hm|]. apply (manages_store _ _ _ (root :: rest)); [done|done|by eapply Hp|].
    intros u Hu. rewrite Hh by done. symmetry. by apply Hm.
  - exists (Throw err), w', m1. split; [done|]. destruct Hm as [H1 H2 H3 H4]. by split.
Qed.

Lemma after_sleep_any s w m :
  NoDup (weak_heap_ m) ->
  exists r w' m', after_sleep now run s (w, m) = (r, (w', m')) /\ manages w m w' m' (fun u => u ∈ weak_heap_ m).
Proof using Hrun.
  intros Hn. unfold after_sleep.
  assert (exists m1, (match s with UntilUpdated => reheap now | _ => mret tt end : ST _ timers_error _) (w, m) = (Ok tt, (w, m1)) /\
    manages w m w m1 (fun u => u ∈ weak_heap_ m)) as (m1 & E1 & Hm1).
  { destruct s; [|by exists m..]. destruct (validate_manages now w m Hn) as (h & m1 & E & Hnh & Hl & Hm & Hh).
    unfold reheap. rewrite (bind_ok _ _ _ _ _ E), get_bind. cbv beta iota. eexists. split; [done|].
    eapply manages_trans; [exact Hm|]. apply (manages_store _ _ _ h); [done|done|apply make_heap_spec|].
    intros u Hu. rewrite Hh by done. symmetry. by apply Hm. }
  rewrite (bind_ok _ _ _ _ _ E1). rewrite (bind_ok _ _ _ (w, set_updated false m1) tt) by done.
  destruct (execute_ready_timers_any w (set_updated false m1)) as (r & w' & m' & E & Hm); [apply Hm1|].
  exists r, w', m'. split; [done|]. eapply manages_trans; [|exact Hm]. destruct Hm1 as [H1 H2 H3 H4]. by split.
Qed.
End Running.

(** The head, before and after its callback. *)
Lemma call_head_any now w m :
  NoDup (weak_heap_ m) ->
  exists r w' m', unless_running (call_head_timer now) (w, m) = (r, (w', m')) /\ manages w m w' m' (fun u => u ∈ weak_heap_ m) /\
    forall h t info, r = Ok (Some (h, t, info)) -> NoDup h /\ forall u, is_Some (w !! u) -> u ∈ h <-> u ∈ weak_heap_ m'.
Proof.
  intros Hn. unfold unless_running. rewrite get_bind. cbv beta iota.
  destruct (running_ m); [exists (Throw ThreadRunning), w, m; split_and!; [done|by split|done]|].
  destruct (validate_manages now w m Hn) as (h & m1 & E & Hnh & Hl & Hm & Hh).
  assert (Hh1 : forall u, is_Some (w !! u) -> u ∈ h <-> u ∈ weak_heap_ m1) by (intros u Hu; rewrite Hh by done; symmetry; by apply Hm).
  unfold call_head_timer. rewrite (bind_ok _ _ _ _ _ E).
  destruct h as [|root rest]; [by exists (Ok None), w, m1|]. rewrite get_bind. cbv beta iota.
  destruct (timer_is_ready now w root); [|by exists (Ok None), w, m1].
  destruct (timer_call_same now root w m1) as (r & w' & E' & Hs). unfold mbind, ST_bind. rewrite E'.
  assert (Hm' : manages w m w' m1 (fun u => u ∈ weak_heap_ m)) by (destruct Hm as [H1 H2 H3 H4]; by split).
  destruct r as [[info|]|err]; eexists _, w', m1; (split; [done|]); (split; [done|]); [|done..].
  by intros ? ? ? [= <- <- <-].
Qed.

Lemma store_root_any now w m h :
  NoDup h -> (forall u, is_Some (w !! u) -> u ∈ h <-> u ∈ weak_heap_ m) ->
  exists m', store_root now h (w, m) = (Ok tt, (w, m')) /\ manages w m w m' (fun u => u ∈ weak_heap_ m).
Proof.
  intros Hn Hh. unfold store_root. rewrite get_bind. cbv beta iota. eexists. split; [done|].
  apply (manages_store _ _ _ h); [done..|apply heapify_root_perm|done].
Qed.
