(* ===== verification/EventsExecutor.v ===== *)
(** * The events executor

    [rclcpp/src/rclcpp/experimental/executors/events_executor/events_executor.cpp]
    with its header, [simple_events_queue.hpp] and
    [events_executor_event_types.hpp]: an executor that does not wait for its
    entities, but is told by them what has happened.

    An entity tells it through the callback that the executor has set on it
    ([listeners]); what happened before it was set ([unread]) is told when it
    is, as the middleware does.  [timers_of] has the timers that are alive.
    What a callback of the user does is an argument. *)

From Stdlib Require Import ZArith Lia.
From stdpp Require Import base numbers list gmap.
From S2P Require Import Prelude Computation RclTypes Timer CallbackGroups EntitiesCollector ExecutorWaitSet Executor Heap TimersManager.
#[local] Open Scope Z_scope.

(** ** Events *)

Inductive ExecutorEventType := CLIENT_EVENT | SUBSCRIPTION_EVENT | SERVICE_EVENT | TIMER_EVENT | WAITABLE_EVENT.

#[export] Instance ExecutorEventType_eq_dec : EqDecision ExecutorEventType.
Proof. solve_decision. Defined.

Record ExecutorEvent := mkEvent {
  entity_key : N;
  data : option rcl_timer_call_info_t;
  waitable_data : Z;
  type : ExecutorEventType;
  num_events : nat;
}.

Definition single_event (event : ExecutorEvent) : ExecutorEvent :=
  mkEvent (entity_key event) (data event) (waitable_data event) (type event) 1.

(** [SimpleEventsQueue]. *)
Definition enqueue (event : ExecutorEvent) (event_queue : list ExecutorEvent) : list ExecutorEvent :=
  event_queue ++ replicate (num_events event) (single_event event).

Definition dequeue (event_queue : list ExecutorEvent) : option (ExecutorEvent * list ExecutorEvent) :=
  match event_queue with [] => None | event :: q => Some (event, q) end.

(** ** State *)

(** [notify_address]: of the notify waitable, whose state is in the collector. *)
Record EventsExecutor := mkEvents {
  managed_of : Managed;
  timers_of : TimerMap;
  timers_manager_ : TimersManager;
  current_entities_collection_ : ExecutorEntitiesCollection;
  event_queue_ : list ExecutorEvent;
  notify_waitable_event_pushed_ : bool;
  is_spinning : bool;
  notify_address : N;
  listeners : EntityKind -> gset N;
  unread : EntityKind -> N -> list Z;
}.

Inductive events_error := FromExecutor (e : executor_error) | FromTimers (e : timers_error).

Notation EX := (ST EventsExecutor events_error).

Definition events_world (e : EventsExecutor) : World := (managed_of e).1.

Definition set_managed_of (x : Managed) (e : EventsExecutor) : EventsExecutor :=
  mkEvents x (timers_of e) (timers_manager_ e) (current_entities_collection_ e) (event_queue_ e) (notify_waitable_event_pushed_ e)
    (is_spinning e) (notify_address e) (listeners e) (unread e).
Definition set_managing (x : Managing) (e : EventsExecutor) : EventsExecutor :=
  mkEvents (managed_of e) x.1 x.2 (current_entities_collection_ e) (event_queue_ e) (notify_waitable_event_pushed_ e)
    (is_spinning e) (notify_address e) (listeners e) (unread e).
Definition set_current (k : EntityKind) (x : EntityCollection) (e : EventsExecutor) : EventsExecutor :=
  mkEvents (managed_of e) (timers_of e) (timers_manager_ e)
    (fun k' => if bool_decide (k' = k) then x else current_entities_collection_ e k') (event_queue_ e)
    (notify_waitable_event_pushed_ e) (is_spinning e) (notify_address e) (listeners e) (unread e).
Definition set_queue (x : list ExecutorEvent) (e : EventsExecutor) : EventsExecutor :=
  mkEvents (managed_of e) (timers_of e) (timers_manager_ e) (current_entities_collection_ e) x (notify_waitable_event_pushed_ e)
    (is_spinning e) (notify_address e) (listeners e) (unread e).
Definition set_pushed (x : bool) (e : EventsExecutor) : EventsExecutor :=
  mkEvents (managed_of e) (timers_of e) (timers_manager_ e) (current_entities_collection_ e) (event_queue_ e) x
    (is_spinning e) (notify_address e) (listeners e) (unread e).
Definition set_is_spinning (x : bool) (e : EventsExecutor) : EventsExecutor :=
  mkEvents (managed_of e) (timers_of e) (timers_manager_ e) (current_entities_collection_ e) (event_queue_ e)
    (notify_waitable_event_pushed_ e) x (notify_address e) (listeners e) (unread e).
Definition set_listeners (k : EntityKind) (x : gset N) (e : EventsExecutor) : EventsExecutor :=
  mkEvents (managed_of e) (timers_of e) (timers_manager_ e) (current_entities_collection_ e) (event_queue_ e)
    (notify_waitable_event_pushed_ e) (is_spinning e) (notify_address e)
    (fun k' => if bool_decide (k' = k) then x else listeners e k') (unread e).
Definition set_unread (k : EntityKind) (n : N) (x : list Z) (e : EventsExecutor) : EventsExecutor :=
  mkEvents (managed_of e) (timers_of e) (timers_manager_ e) (current_entities_collection_ e) (event_queue_ e)
    (notify_waitable_event_pushed_ e) (is_spinning e) (notify_address e) (listeners e)
    (fun k' n' => if bool_decide (k' = k /\ n' = n) then x else unread e k' n').

(** The methods of the parts. *)
Definition with_collector {A} (m : ST Managed executor_error A) : EX A := fun e =>
  let '(r, st) := m (managed_of e) in
  (match r with Ok x => Ok x | Throw err => Throw (FromExecutor err) end, set_managed_of st e).
Definition with_timers {A} (m : ST Managing timers_error A) : EX A := fun e =>
  let '(r, st) := m (timers_of e, timers_manager_ e) in
  (match r with Ok x => Ok x | Throw err => Throw (FromTimers err) end, set_managing st e).

Definition push_event (event : ExecutorEvent) (e : EventsExecutor) : EventsExecutor := set_queue (enqueue event (event_queue_ e)) e.

(** ** What entities tell *)

Definition type_of (k : EntityKind) : ExecutorEventType :=
  match k with Clients => CLIENT_EVENT | Subscriptions => SUBSCRIPTION_EVENT | Services => SERVICE_EVENT
             | Timers => TIMER_EVENT | _ => WAITABLE_EVENT end.

(** Only waitables say more. *)
Definition passed_on (k : EntityKind) (waitable_data : Z) : Z := match k with Waitables => waitable_data | _ => -1 end.

(** The callbacks of [create_entity_callback] and
    [create_waitable_callback], which have the key of the entity. *)
Definition entity_callback (k : EntityKind) (entity : N) (waitable_data : Z) (num_events : nat) (e : EventsExecutor)
    : EventsExecutor :=
  push_event (mkEvent (key_of (events_world e) k entity) None (passed_on k waitable_data) (type_of k) num_events) e.

(** [set_on_new_message_callback] and its companions. *)
Definition set_listener (k : EntityKind) (entity : N) (e : EventsExecutor) : EventsExecutor :=
  let e1 := set_listeners k ({[entity]} ∪ listeners e k) e in
  set_unread k entity [] (fold_left (fun e d => entity_callback k entity d 1 e) (unread e k entity) e1).

Definition clear_listener (k : EntityKind) (entity : N) (e : EventsExecutor) : EventsExecutor :=
  set_listeners k (listeners e k ∖ {[entity]}) e.

(** Something happens to an entity that is alive. *)
Definition arrives (k : EntityKind) (entity : N) (waitable_data : Z) (e : EventsExecutor) : EventsExecutor :=
  if bool_decide (entity ∈ listeners e k) then entity_callback k entity waitable_data 1 e
  else set_unread k entity (unread e k entity ++ [waitable_data]) e.

(** The callback of the notify waitable. *)
Definition on_notify (waitable_data : Z) (e : EventsExecutor) : EventsExecutor :=
  if notify_waitable_event_pushed_ e then set_pushed true e
  else push_event (mkEvent (notify_address e) None waitable_data WAITABLE_EVENT 1) (set_pushed true e).

(** A guard condition is triggered. *)
Definition trigger (gc : N) (e : EventsExecutor) : EventsExecutor :=
  if bool_decide (gc ∈ guard_callbacks (events_world e)) then on_notify 0 e else e.

(** ** Collections *)

Section Collections.
Context `{WalkOrder} (now : Clocks).

Definition on_added (k : EntityKind) (entity : N) : EX unit :=
  match k with
  | Timers => with_timers (add_timer now (Some entity))
  | _ => modify (set_listener k entity)
  end.

Definition on_removed (k : EntityKind) (entity : N) : EX unit :=
  match k with
  | Timers => with_timers (remove_timer now (Some entity))
  | _ => modify (clear_listener k entity)
  end.

(** [update_entities]. *)
Definition update_removed (k : EntityKind) (update_from : EntityCollection) : EX unit :=
  e ← get;
  for_each (fun '(key, entry) =>
    match update_from !! key with
    | Some _ => mret tt
    | None =>
      e ← get;
      (if alive (events_world e) (entry_entity entry) then on_removed k (entry_entity entry) else mret tt);;
      modify (fun e => set_current k (delete key (current_entities_collection_ e k)) e)
    end) (walk (current_entities_collection_ e k)).

Definition update_added (k : EntityKind) (update_from : EntityCollection) : EX unit :=
  for_each (fun '(key, entry) =>
    e ← get;
    match current_entities_collection_ e k !! key with
    | Some _ => mret tt
    | None =>
      (if alive (events_world e) (entry_entity entry) then on_added k (entry_entity entry) else mret tt);;
      modify (fun e => set_current k (insert_new key entry (current_entities_collection_ e k)) e)
    end) (walk update_from).

Definition refresh_order : list EntityKind := [Timers; Subscriptions; Clients; Services; Waitables].

Definition refresh_current_collection (new_collection : ExecutorEntitiesCollection) : EX unit :=
  for_each (fun k => update_removed k (new_collection k);; update_added k (new_collection k)) refresh_order.

Definition add_notify_waitable_to_collection (e : EventsExecutor) (collection : EntityCollection) : EntityCollection :=
  insert_new (notify_address e) (mkEntry (notify_address e) None) collection.

Definition refresh_current_collection_from_callback_groups : EX unit :=
  with_collector update_collections;;
  e ← get;
  let new_collection := build_entities_collection (events_world e) (get_all_callback_groups (managed_of e).2) in
  let new_collection k :=
    match k with Waitables => add_notify_waitable_to_collection e (new_collection Waitables) | _ => new_collection k end in
  modify (fun e => set_current Waitables (add_notify_waitable_to_collection e (current_entities_collection_ e Waitables)) e);;
  refresh_current_collection new_collection.

(** ** Nodes and groups *)

Definition events_add_node (node_ptr : N) : EX unit :=
  with_collector (add_node node_ptr);; refresh_current_collection_from_callback_groups.
Definition events_remove_node (node_ptr : N) : EX unit :=
  with_collector (remove_node node_ptr);; refresh_current_collection_from_callback_groups.
Definition events_add_callback_group (group_ptr : N) : EX unit :=
  with_collector (add_callback_group group_ptr);; refresh_current_collection_from_callback_groups.
Definition events_remove_callback_group (group_ptr : N) : EX unit :=
  with_collector (remove_callback_group group_ptr);; refresh_current_collection_from_callback_groups.

(** The three methods that list groups, with their part of the collector. *)
Definition list_groups (groups_of : ExecutorEntitiesCollector -> list N) : EX (list N) :=
  with_collector update_collections;; e ← get; mret (groups_of (managed_of e).2).

(** The constructor, with the guard conditions of the executor and where the
    notify waitable is; and the destructor. *)
Definition new_events_executor (w : World) (ts : TimerMap) (address interrupt shutdown : N) (execute_timers_separate_thread : bool)
    : EventsExecutor :=
  let '(t, w) := add_guard_condition (Some interrupt) (mkNotify ∅ false) w in
  let '(t, w) := add_guard_condition (Some shutdown) t w in
  let '(t, w) := set_on_ready_callback t w in
  let '(t, w) := set_on_ready_callback t w in
  let w := set_entities w (<[address := mkEntity address false]> (entities w)) in
  mkEvents (w, new_collector t) ts (new_timers_manager (negb execute_timers_separate_thread))
    (fun k => match k with Waitables => {[address := mkEntry address None]} | _ => ∅ end) [] false false address
    (fun _ => ∅) (fun _ _ => []).

Definition destroy_events_executor : EX unit :=
  modify (set_is_spinning false);;
  modify (fun e => let '(t, w) := clear_on_ready_callback (notify_waitable_ (managed_of e).2) (events_world e) in
                   set_managed_of (w, set_notify t (managed_of e).2) e);;
  refresh_current_collection no_entities.
End Collections.

(** ** Execution *)

(** What is executed: an entity, with the data of a timer or a waitable. *)
Record Execution := mkExecution {
  execution_kind : EntityKind;
  execution_entity : N;
  execution_data : option rcl_timer_call_info_t;
  execution_waitable_data : Z;
}.

Section Execution.
Context `{WalkOrder} (callback : Execution -> EX unit).

Definition retrieve_entity (k : EntityKind) (entity_id : N) : EX (option N) :=
  e ← get;
  match current_entities_collection_ e k !! entity_id with
  | None => mret None
  | Some entry =>
    if alive (events_world e) (entry_entity entry) then mret (Some (entry_entity entry))
    else modify (set_current k (delete entity_id (current_entities_collection_ e k)));; mret None
  end.

(** [ExecutorNotifyWaitable::execute]. *)
Definition execute_notify (now : Clocks) : EX unit :=
  modify (set_pushed false);; refresh_current_collection_from_callback_groups now.

Definition execute_entity (k : EntityKind) (event : ExecutorEvent) (run : N -> EX unit) : EX unit :=
  entity ← retrieve_entity k (entity_key event);
  match entity with
  | Some entity => for_each (fun _ => run entity) (seq 0 (num_events event))
  | None => mret tt
  end.

(** [execute_ready_timer], with a callback that may do anything. *)
Definition execute_timer_event (event : ExecutorEvent) : EX unit :=
  e ← get;
  match get_timer (timers_of e) (entity_key event) (weak_heap_ (timers_manager_ e)) with
  | Some t => callback (mkExecution Timers t (data event) (-1))
  | None => mret tt
  end.

Definition execute_event (now : Clocks) (event : ExecutorEvent) : EX unit :=
  match type event with
  | CLIENT_EVENT => execute_entity Clients event (fun x => callback (mkExecution Clients x None (-1)))
  | SUBSCRIPTION_EVENT => execute_entity Subscriptions event (fun x => callback (mkExecution Subscriptions x None (-1)))
  | SERVICE_EVENT => execute_entity Services event (fun x => callback (mkExecution Services x None (-1)))
  | TIMER_EVENT => execute_timer_event event
  | WAITABLE_EVENT =>
    execute_entity Waitables event (fun x =>
      e ← get;
      if bool_decide (x = notify_address e) then execute_notify now
      else callback (mkExecution Waitables x None (waitable_data event)))
  end.

(** [TimersManager::execute_head_timer], with a callback that may do
    anything; [now]: the clocks before it, and after. *)
Definition execute_head (now : Clocks) : EX bool :=
  called ← with_timers (unless_running (call_head_timer now));
  match called with
  | None => mret false
  | Some (timers_heap, head_timer, info) =>
    callback (mkExecution Timers head_timer (Some info) (-1));;
    with_timers (store_root now timers_heap);;
    mret true
  end.

(** What the thread of the timers does when it wakes: it executes them, or
    tells the executor. *)
Definition timers_thread_wakes (now : Clocks) (run : N -> rcl_timer_call_info_t -> TimerMap -> TimerMap) (s : Sleep) : EX unit :=
  called ← with_timers (after_sleep now run s);
  e ← get;
  if TimersManager.on_ready_callback_ (timers_manager_ e)
  then modify (fun e => fold_left (fun e '(t, info) => push_event (mkEvent t (Some info) (-1) TIMER_EVENT 1) e) called e)
  else mret tt.

(** ** Spinning *)

(** What a pass finds: [rclcpp::ok], whether the time that was given is left,
    the clocks, and what the others do before it, or while it waits. *)
Record EventsTurn := mkEventsTurn {
  events_ok : bool;
  events_in_time : bool;
  clocks : Clocks;
  meanwhile : EventsExecutor -> EventsExecutor;
}.

Definition while_events {A} (m : EX A) : EX A :=
  e ← get;
  modify (set_is_spinning true);;
  if is_spinning e then throw (FromExecutor AlreadySpinning) else finally m (set_is_spinning false).

(** A wait without an end does not return if nothing comes. *)
Definition wait_for_event (t : EventsTurn) (timeout : Z) : EX (option ExecutorEvent) :=
  modify (meanwhile t);;
  e ← get;
  match dequeue (event_queue_ e) with
  | Some (event, q) => modify (set_queue q);; mret (Some event)
  | None => if timeout =? int64_max then throw (FromExecutor Unfinished) else mret None
  end.

Fixpoint events_spin_loop (turn : nat -> EventsTurn) (fuel i : nat) : EX unit :=
  match fuel with
  | O => throw (FromExecutor Unfinished)
  | S fuel =>
    e ← get;
    if events_ok (turn i) && is_spinning e then
      event ← wait_for_event (turn i) int64_max;
      (match event with Some event => execute_event (clocks (turn i)) event | None => mret tt end);;
      events_spin_loop turn fuel (S i)
    else mret tt
  end.

Definition events_spin (turn : nat -> EventsTurn) (fuel : nat) : EX unit :=
  while_events (
    with_timers start;;
    finally (events_spin_loop turn fuel 0) (fun e => (with_timers stop e).2)).

(** [executed_events], [executed_timers]: so far. *)
Fixpoint events_some_loop (turn : nat -> EventsTurn) (exhaustive : bool) (ready_events_at_start ready_timers_at_start : nat)
    (fuel i executed_events executed_timers : nat) : EX unit :=
  match fuel with
  | O => throw (FromExecutor Unfinished)
  | S fuel =>
    let t := turn i in
    modify (meanwhile t);;
    e ← get;
    if events_ok t && is_spinning e && events_in_time t then
      match (if exhaustive || (executed_events <? ready_events_at_start)%nat then dequeue (event_queue_ e) else None) with
      | Some (event, q) =>
        modify (set_queue q);;
        execute_event (clocks t) event;;
        events_some_loop turn exhaustive ready_events_at_start ready_timers_at_start fuel (S i) (S executed_events) executed_timers
      | None =>
        timer_executed ← (if exhaustive || (executed_timers <? ready_timers_at_start)%nat then execute_head (clocks t) else mret false);
        if timer_executed : bool
        then events_some_loop turn exhaustive ready_events_at_start ready_timers_at_start fuel (S i) executed_events (S executed_timers)
        else mret tt
      end
    else mret tt
  end.

(** [now]: the clocks at the start. *)
Definition events_spin_some_impl (now : Clocks) (turn : nat -> EventsTurn) (exhaustive : bool) (fuel : nat) : EX unit :=
  while_events (
    e ← get;
    let ready_events_at_start := length (event_queue_ e) in
    ready_timers_at_start ← with_timers (get_number_ready_timers now);
    events_some_loop turn exhaustive ready_events_at_start ready_timers_at_start fuel 0 0 0).

Definition events_spin_some (now : Clocks) (turn : nat -> EventsTurn) (fuel : nat) : EX unit :=
  events_spin_some_impl now turn false fuel.

Definition events_spin_all (max_duration : Z) (now : Clocks) (turn : nat -> EventsTurn) (fuel : nat) : EX unit :=
  if max_duration <=? 0 then throw (FromExecutor NegativeDuration) else events_spin_some_impl now turn true fuel.

(** [now]: the clocks before the wait; those of the turn are read after it. *)
Definition events_spin_once_impl (now : Clocks) (t : EventsTurn) (timeout : Z) : EX unit :=
  let timeout := if timeout <? 0 then int64_max else timeout in
  next_timer_timeout ← with_timers (get_head_timeout now);
  let '(timeout, is_timer_timeout) :=
    match next_timer_timeout with
    | Some d => if d <? timeout then (d, true) else (timeout, false)
    | None => (timeout, false)
    end in
  event ← wait_for_event t timeout;
  match event with
  | Some event => execute_event (clocks t) event
  | None => if is_timer_timeout : bool then (execute_head (clocks t);; mret tt) else mret tt
  end.

Definition events_spin_once (now : Clocks) (t : EventsTurn) (timeout : Z) : EX unit := while_events (events_spin_once_impl now t timeout).
End Execution.
