(* ===== verification/EventsExecutorFacts.v ===== *)
(** * What a refresh of the events executor does

    The invariant of the executor ([events_valid]), and what a refresh makes of
    its collection ([refresh_spec]): of one entity, of one kind of entities,
    and of all of them. *)

From Stdlib Require Import ZArith Lia.
From stdpp Require Import base numbers list gmap.
From S2P Require Import Prelude Computation RclTypes Timer CallbackGroups EntitiesCollector ExecutorWaitSet Executor Heap TimersManager TimersManagerFacts TimersManagerMembers EventsExecutor.
#[local] Open Scope Z_scope.

(** ** What a kind of entities has to do with the executor *)

(** The entities that the executor is told about. *)
Definition watched (e : EventsExecutor) (k : EntityKind) (x : N) : Prop :=
  match k with Timers => x ∈ weak_heap_ (timers_manager_ e) | _ => x ∈ listeners e k end.

Definition filed (m : EntityCollection) (x : N) : Prop := exists key entry, m !! key = Some entry /\ entry_entity entry = x.

Definition alive_in (e : EventsExecutor) (x : N) : Prop := alive (events_world e) x = true.

(** Entities that are alive are filed under their keys. *)
Definition keyed (e : EventsExecutor) (k : EntityKind) (m : EntityCollection) : Prop :=
  forall key entry, m !! key = Some entry -> alive_in e (entry_entity entry) -> key = key_of (events_world e) k (entry_entity entry).

(** The notify waitable is no entity of a group. *)
Definition proper_to (e : EventsExecutor) (k : EntityKind) (m : EntityCollection) : Prop :=
  forall key entry, m !! key = Some entry ->
    (entry_entity entry = notify_address e -> k = Waitables /\ key = notify_address e) /\
    (k = Timers -> alive_in e (entry_entity entry) -> is_Some (timers_of e !! entry_entity entry)).

Record kind_valid (k : EntityKind) (e : EventsExecutor) : Prop := {
  kind_keyed : keyed e k (current_entities_collection_ e k);
  kind_proper : proper_to e k (current_entities_collection_ e k);
  kind_watched : forall x, alive_in e x -> x <> notify_address e -> (k = Timers -> is_Some (timers_of e !! x)) ->
    watched e k x <-> filed (current_entities_collection_ e k) x;
}.

Definition is_notify_event (e : EventsExecutor) (event : ExecutorEvent) : Prop :=
  entity_key event = notify_address e /\ type event = WAITABLE_EVENT.

(** What changes when entities of one kind are added and removed. *)
Record touches (k : EntityKind) (e e' : EventsExecutor) : Prop := {
  touch_managed : managed_of e' = managed_of e;
  touch_address : notify_address e' = notify_address e;
  touch_pushed : notify_waitable_event_pushed_ e' = notify_waitable_event_pushed_ e;
  touch_spinning : is_spinning e' = is_spinning e;
  touch_ready : on_ready_callback_ (timers_manager_ e') = on_ready_callback_ (timers_manager_ e);
  touch_timers : same_timers (timers_of e) (timers_of e');
  touch_nodup : NoDup (weak_heap_ (timers_manager_ e)) -> NoDup (weak_heap_ (timers_manager_ e'));
  touch_current : forall k', k' <> k -> current_entities_collection_ e' k' = current_entities_collection_ e k';
  touch_watched : forall k' x, k' <> k -> (k' = Timers -> is_Some (timers_of e !! x)) -> watched e' k' x <-> watched e k' x;
  touch_address_unwatched : notify_address e ∉ listeners e Waitables -> notify_address e ∉ listeners e' Waitables;
  touch_queue : exists l, event_queue_ e' = event_queue_ e ++ l /\
    Forall (fun event => num_events event = 1%nat /\ ~ is_notify_event e event /\
      exists x, alive_in e x /\ type event = type_of k /\ entity_key event = key_of (events_world e) k x) l;
}.

#[export] Instance touches_preorder k : PreOrder (touches k).
Proof.
  split; [intros e; split; try done; exists []; by rewrite app_nil_r|].
  intros e1 e2 e3 [A1 A2 A3 A4 A5 A6 A7 A8 A9 A10 (l1 & A11 & F1)] [B1 B2 B3 B4 B5 B6 B7 B8 B9 B10 (l2 & B11 & F2)].
  assert (Hw : events_world e2 = events_world e1) by (unfold events_world; by rewrite A1).
  split; try congruence.
  - intros t. by rewrite (B6 t).
  - auto.
  - intros k' Hk. by rewrite B8, A8.
  - intros k' x Hk Ht. rewrite B9, A9; [done..|]. intros ->. apply A6. auto.
  - intros Ha. rewrite <- A2. apply B10. rewrite A2. auto.
  - exists (l1 ++ l2). split; [by rewrite B11, A11, app_assoc|]. apply Forall_app. split; [done|].
    eapply Forall_impl; [exact F2|]. intros event. simpl. unfold is_notify_event, alive_in. by rewrite A2, Hw.
Qed.

Lemma entity_callback_queue k x d e : event_queue_ (entity_callback k x d 1 e) =
  event_queue_ e ++ [mkEvent (key_of (events_world e) k x) None (passed_on k d) (type_of k) 1].
Proof. done. Qed.

(** [on_added]: for each kind its own. *)
Lemma set_listener_spec k x e :
  k <> Timers -> k <> GuardConditions -> x <> notify_address e -> alive_in e x ->
  let e' := set_listener k x e in
  touches k e e' /\ current_entities_collection_ e' k = current_entities_collection_ e k /\
    forall y, watched e' k y <-> y = x \/ watched e k y.
Proof.
  intros Hk Hg Hx Ha. unfold set_listener.
  set (e1 := set_listeners k ({[x]} ∪ listeners e k) e).
  assert (H : forall l e0, managed_of e0 = managed_of e1 ->
    let e2 := fold_left (fun e d => entity_callback k x d 1 e) l e0 in
    exists q, e2 = set_queue (event_queue_ e0 ++ q) e0 /\
      Forall (fun event => num_events event = 1%nat /\ type event = type_of k /\ entity_key event = key_of (events_world e) k x) q).
  { induction l as [|d l IH]; intros e0 E0; simpl; [exists []; split; [rewrite app_nil_r; by destruct e0|done]|].
    destruct (IH (entity_callback k x d 1 e0)) as (q & E & Hq); [done|]. cbn zeta in E.
    exists (mkEvent (key_of (events_world e) k x) None (passed_on k d) (type_of k) 1 :: q). split.
    - rewrite E, entity_callback_queue. unfold entity_callback, push_event, events_world. rewrite E0. simpl.
      unfold set_queue. simpl. by rewrite <- app_assoc.
    - by constructor. }
  destruct (H (unread e k x) e1 eq_refl) as (q & E & Hq). cbn zeta in *. rewrite E. clear H E.
  split; [|split; [done|]].
  - split; try done.
    + intros k' y Hk' _. destruct k'; simpl; try done; by rewrite bool_decide_false by done.
    + simpl. case_bool_decide as Ek; [subst k; set_solver|done].
    + exists q. split; [done|]. eapply Forall_impl; [exact Hq|]. intros event (H1 & H2 & H3). split; [done|]. split; [|by exists x].
      unfold is_notify_event. intros [Hkey Hty]. rewrite H2 in Hty. rewrite H3 in Hkey. destruct k; try done; simpl in Hkey; try done.
  - intros y. destruct k; simpl; set_solver.
Qed.

Lemma clear_listener_spec k x e :
  k <> Timers ->
  let e' := clear_listener k x e in
  touches k e e' /\ current_entities_collection_ e' k = current_entities_collection_ e k /\
    forall y, watched e' k y <-> y <> x /\ watched e k y.
Proof.
  intros Hk e'. split; [|split; [done|]].
  - split; try done.
    + intros k' y Hk' _. destruct k'; simpl; try done; by rewrite bool_decide_false by done.
    + simpl. case_bool_decide as Ek; [subst k; set_solver|done].
    + exists []. split; [by rewrite app_nil_r|done].
  - intros y. destruct k; simpl; set_solver.
Qed.

Section Loops.
Context `{WalkOrder} (now : Clocks).

(** On the timers. *)
Lemma with_timers_touches (m : ST Managing timers_error unit) e w' m' P :
  m (timers_of e, timers_manager_ e) = (Ok tt, (w', m')) -> manages (timers_of e) (timers_manager_ e) w' m' P ->
  let e' := set_managing (w', m') e in
  with_timers m e = (Ok tt, e') /\ touches Timers e e' /\ current_entities_collection_ e' Timers = current_entities_collection_ e Timers /\
    forall y, is_Some (timers_of e !! y) -> watched e' Timers y <-> P y.
Proof.
  intros E [H1 H2 H3 H4] e'. split; [unfold with_timers; by rewrite E|]. split; [|done].
  split; try done.
  - intros k' y Hk' _. by destruct k'.
  - exists []. split; [by rewrite app_nil_r|done].
Qed.

Lemma on_added_spec k x e :
  k <> GuardConditions -> x <> notify_address e -> alive_in e x -> (k = Timers -> is_Some (timers_of e !! x)) ->
  NoDup (weak_heap_ (timers_manager_ e)) ->
  exists e', on_added now k x e = (Ok tt, e') /\ touches k e e' /\ current_entities_collection_ e' k = current_entities_collection_ e k /\
    forall y, (k = Timers -> is_Some (timers_of e !! y)) -> watched e' k y <-> y = x \/ watched e k y.
Proof.
  intros Hg Hx Ha Ht Hn. destruct (decide (k = Timers)) as [->|Hk].
  - destruct (add_timer_any now _ (timers_manager_ e) x Hn (Ht eq_refl)) as (w' & m' & E & Hm).
    destruct (with_timers_touches _ e w' m' _ E Hm) as (H1 & H2 & H3 & H4). exists (set_managing (w', m') e).
    split_and!; try done. intros y Hy. by apply H4, Hy.
  - exists (set_listener k x e). destruct (set_listener_spec k x e Hk Hg Hx Ha) as (H1 & H2 & H3).
    split; [by destruct k|]. split_and!; auto.
Qed.

Lemma on_removed_spec k x e :
  NoDup (weak_heap_ (timers_manager_ e)) ->
  exists e', on_removed now k x e = (Ok tt, e') /\ touches k e e' /\ current_entities_collection_ e' k = current_entities_collection_ e k /\
    forall y, (k = Timers -> is_Some (timers_of e !! y)) -> watched e' k y <-> y <> x /\ watched e k y.
Proof.
  intros Hn. destruct (decide (k = Timers)) as [->|Hk].
  - destruct (remove_timer_any now (timers_of e) (timers_manager_ e) x Hn) as (w' & m' & E & Hm).
    destruct (with_timers_touches _ e w' m' _ E Hm) as (H1 & H2 & H3 & H4). exists (set_managing (w', m') e).
    split_and!; try done. intros y Hy. by apply H4, Hy.
  - exists (clear_listener k x e). destruct (clear_listener_spec k x e Hk) as (H1 & H2 & H3).
    split; [by destruct k|]. split_and!; auto.
Qed.

(** The collection of a kind is set. *)
Lemma set_current_touches k x e : touches k e (set_current k x e).
Proof.
  split; try done.
  - intros k' Hk. simpl. by rewrite bool_decide_false by done.
  - exists []. split; [by rewrite app_nil_r|done].
Qed.

Lemma set_current_eq k x e : current_entities_collection_ (set_current k x e) k = x.
Proof. simpl. by rewrite bool_decide_true. Qed.

Lemma set_current_watched k x e k' y : watched (set_current k x e) k' y <-> watched e k' y.
Proof. by destruct k'. Qed.

Lemma touches_alive k e e' x : touches k e e' -> alive_in e' x <-> alive_in e x.
Proof. intros [E _]. unfold alive_in, events_world. by rewrite E. Qed.

Lemma touches_keyed k k' e e' m : touches k e e' -> keyed e k' m -> keyed e' k' m.
Proof. intros [E _]. unfold keyed, alive_in, events_world. by rewrite E. Qed.

Lemma touches_proper k k' e e' m : touches k e e' -> proper_to e k' m -> proper_to e' k' m.
Proof.
  intros [E Ea _ _ _ Ht] Hp key entry Hm. unfold alive_in, events_world. rewrite E, Ea. destruct (Hp key entry Hm) as [H1 H2].
  split; [done|]. intros Hk Hal. apply Ht. auto.
Qed.
Lemma filed_delete m key entry y :
  m !! key = Some entry ->
  (forall k1 e1 k2 e2, m !! k1 = Some e1 -> m !! k2 = Some e2 -> entry_entity e1 = y -> entry_entity e2 = y -> k1 = k2) ->
  filed (delete key m) y <-> y <> entry_entity entry /\ filed m y.
Proof.
  intros Hm Hinj. split.
  - intros (key' & e' & [Hne Hk']%lookup_delete_Some & <-). split; [|by exists key', e'].
    intros E. apply Hne. by apply (Hinj key entry key' e').
  - intros [Hne (key' & e' & Hk' & <-)]. exists key', e'. split; [|done]. apply lookup_delete_Some. split; [|done]. intros <-. congruence.
Qed.

Lemma filed_insert m key entry y : m !! key = None -> filed (<[key := entry]> m) y <-> y = entry_entity entry \/ filed m y.
Proof.
  intros Hm. split.
  - intros (key' & e' & [[-> ->]|[Hne Hk']]%lookup_insert_Some & <-); [by left|right; by exists key', e'].
  - intros [->|(key' & e' & Hk' & <-)]; [exists key, entry; split; [apply lookup_insert_Some; by left|done]|].
    exists key', e'. split; [|done]. apply lookup_insert_Some. right. split; [|done]. intros <-. congruence.
Qed.

(** An entity of a valid kind is filed once. *)
Lemma keyed_once e k m y : keyed e k m -> alive_in e y -> forall k1 e1 k2 e2,
  m !! k1 = Some e1 -> m !! k2 = Some e2 -> entry_entity e1 = y -> entry_entity e2 = y -> k1 = k2.
Proof.
  intros Hk Hy k1 e1 k2 e2 H1 H2 E1 E2. rewrite (Hk _ _ H1), (Hk _ _ H2); by rewrite ?E1, ?E2.
Qed.

(** One entry is taken out. *)
Lemma remove_one k key entry e :
  k <> GuardConditions -> NoDup (weak_heap_ (timers_manager_ e)) -> kind_valid k e -> current_entities_collection_ e k !! key = Some entry ->
  (k = Waitables -> key <> notify_address e) ->
  exists e', ((e ← get; (if alive (events_world e) (entry_entity entry) then on_removed now k (entry_entity entry) else mret tt);;
               modify (fun e => set_current k (delete key (current_entities_collection_ e k)) e)) : EX unit) e = (Ok tt, e') /\
    touches k e e' /\ kind_valid k e' /\ current_entities_collection_ e' k = delete key (current_entities_collection_ e k).
Proof.
  intros Hg Hn [Hk Hp Hw] Hkey Hna. rewrite get_bind. cbv beta iota.
  assert (Hdel : forall e', touches k e e' -> current_entities_collection_ e' k = current_entities_collection_ e k ->
    (forall y, alive_in e y -> y <> notify_address e -> (k = Timers -> is_Some (timers_of e !! y)) ->
      watched e' k y <-> filed (delete key (current_entities_collection_ e k)) y) ->
    let e2 := set_current k (delete key (current_entities_collection_ e' k)) e' in
    touches k e e2 /\ kind_valid k e2 /\ current_entities_collection_ e2 k = delete key (current_entities_collection_ e k)).
  { intros e' Ht Ec Hf e2. assert (Ht2 : touches k e e2) by (etransitivity; [exact Ht|apply set_current_touches]).
    assert (Ec2 : current_entities_collection_ e2 k = delete key (current_entities_collection_ e k)) by (unfold e2; by rewrite set_current_eq, Ec).
    split; [done|]. split; [|done]. split; rewrite Ec2.
    - eapply touches_keyed; [exact Ht2|]. intros key' entry' [_ H']%lookup_delete_Some. by apply Hk.
    - eapply touches_proper; [exact Ht2|]. intros key' entry' [_ H']%lookup_delete_Some. by apply Hp.
    - intros y Hy Hya Hyt. unfold e2. rewrite set_current_watched. apply Hf.
      + by apply (touches_alive k e e2).
      + by rewrite <- (touch_address _ _ _ Ht2).
      + intros E. by apply (touch_timers _ _ _ Ht2), Hyt. }
  destruct (alive (events_world e) (entry_entity entry)) eqn:Ea.
  - destruct (on_removed_spec k (entry_entity entry) e Hn) as (e1 & E1 & Ht1 & Ec1 & Hw1). rewrite (bind_ok _ _ _ _ _ E1).
    eexists. split; [done|]. apply Hdel; [done..|]. intros y Hy Hya Hyt. rewrite Hw1, Hw by done. symmetry.
    apply filed_delete; [done..|]. by apply (keyed_once e k).
  - rewrite (bind_ok _ _ e e tt) by done. eexists. split; [done|]. apply Hdel; [done..|]. intros y Hy Hya Hyt. rewrite Hw by done.
    rewrite (filed_delete _ key entry); [|done..|by apply (keyed_once e k)]. split; [|tauto]. intros Hf. split; [|done].
    intros ->. unfold alive_in in Hy. congruence.
Qed.

(** One entry is put in. *)
Lemma add_one k key entry e :
  k <> GuardConditions -> NoDup (weak_heap_ (timers_manager_ e)) -> kind_valid k e -> current_entities_collection_ e k !! key = None ->
  (alive_in e (entry_entity entry) -> key = key_of (events_world e) k (entry_entity entry)) -> entry_entity entry <> notify_address e ->
  (k = Timers -> alive_in e (entry_entity entry) -> is_Some (timers_of e !! entry_entity entry)) ->
  exists e', (((if alive (events_world e) (entry_entity entry) then on_added now k (entry_entity entry) else mret tt);;
               modify (fun e => set_current k (insert_new key entry (current_entities_collection_ e k)) e)) : EX unit) e = (Ok tt, e') /\
    touches k e e' /\ kind_valid k e' /\ current_entities_collection_ e' k = <[key := entry]> (current_entities_collection_ e k).
Proof.
  intros Hg Hn [Hk Hp Hw] Hkey Hek Hea Het.
  assert (Hins : forall e', touches k e e' -> current_entities_collection_ e' k = current_entities_collection_ e k ->
    (forall y, alive_in e y -> y <> notify_address e -> (k = Timers -> is_Some (timers_of e !! y)) ->
      watched e' k y <-> filed (<[key := entry]> (current_entities_collection_ e k)) y) ->
    let e2 := set_current k (insert_new key entry (current_entities_collection_ e' k)) e' in
    touches k e e2 /\ kind_valid k e2 /\ current_entities_collection_ e2 k = <[key := entry]> (current_entities_collection_ e k)).
  { intros e' Ht Ec Hf e2. assert (Ht2 : touches k e e2) by (etransitivity; [exact Ht|apply set_current_touches]).
    assert (Ec2 : current_entities_collection_ e2 k = <[key := entry]> (current_entities_collection_ e k))
      by (unfold e2; rewrite set_current_eq, Ec; unfold insert_new; by rewrite Hkey).
    split; [done|]. split; [|done]. split; rewrite Ec2.
    - eapply touches_keyed; [exact Ht2|]. intros key' entry' [[<- <-]|[_ H']]%lookup_insert_Some; [done|by apply Hk].
    - eapply touches_proper; [exact Ht2|]. intros key' entry' [[<- <-]|[_ H']]%lookup_insert_Some; [done|by apply Hp].
    - intros y Hy Hya Hyt. unfold e2. rewrite set_current_watched. apply Hf.
      + by apply (touches_alive k e e2).
      + by rewrite <- (touch_address _ _ _ Ht2).
      + intros E. by apply (touch_timers _ _ _ Ht2), Hyt. }
  destruct (alive (events_world e) (entry_entity entry)) eqn:Ea.
  - destruct (on_added_spec k (entry_entity entry) e Hg Hea Ea) as (e1 & E1 & Ht1 & Ec1 & Hw1); [auto|done|]. rewrite (bind_ok _ _ _ _ _ E1).
    eexists. split; [done|]. apply Hins; [done..|]. intros y Hy Hya Hyt. by rewrite Hw1, Hw, filed_insert by done.
  - rewrite (bind_ok _ _ e e tt) by done. eexists. split; [done|]. apply Hins; [done..|]. intros y Hy Hya Hyt. rewrite Hw, filed_insert by done.
    split; [auto|]. intros [->|]; [|done]. unfold alive_in in Hy. congruence.
Qed.

(** ** The loops *)

(** For collections, as they are typed. *)
Lemma collection_delete_eq (m : EntityCollection) key : delete key m !! key = None.
Proof. apply lookup_delete_eq. Qed.
Lemma collection_delete_ne (m : EntityCollection) key key' : key <> key' -> delete key m !! key' = m !! key'.
Proof. apply lookup_delete_ne. Qed.
Lemma collection_insert_eq (m : EntityCollection) key x : <[key := x]> m !! key = Some x.
Proof. apply lookup_insert_eq. Qed.
Lemma collection_insert_ne (m : EntityCollection) key key' x : key <> key' -> <[key := x]> m !! key' = m !! key'.
Proof. apply lookup_insert_ne. Qed.

Definition heap_nodup (e : EventsExecutor) : Prop := NoDup (weak_heap_ (timers_manager_ e)).

Lemma removed_loop k (from : EntityCollection) l e :
  k <> GuardConditions -> heap_nodup e -> kind_valid k e -> NoDup l.*1 ->
  (forall key entry, (key, entry) ∈ l -> current_entities_collection_ e k !! key = Some entry) ->
  (k = Waitables -> is_Some (from !! notify_address e)) ->
  exists e', (for_each (fun '(key, entry) =>
      match from !! key with
      | Some _ => mret tt
      | None =>
        e ← get;
        (if alive (events_world e) (entry_entity entry) then on_removed now k (entry_entity entry) else mret tt);;
        modify (fun e => set_current k (delete key (current_entities_collection_ e k)) e)
      end) l : EX unit) e = (Ok tt, e') /\
    touches k e e' /\ kind_valid k e' /\
    forall key, current_entities_collection_ e' k !! key =
      if decide (key ∈ l.*1 /\ from !! key = None) then None else current_entities_collection_ e k !! key.
Proof.
  intros Hg. revert e. induction l as [|[key entry] l IH]; intros e Hn Hv Hl Hin Ha.
  { exists e. split_and!; try done. }
  simpl in Hl. apply NoDup_cons in Hl as [Hkey Hl]. cbn [for_each]. destruct (from !! key) as [x|] eqn:Ef.
  - rewrite (bind_ok _ _ e e tt) by done. destruct (IH e Hn Hv Hl) as (e' & E & Ht & Hv' & Hc); [intros; apply Hin; by right|done|].
    exists e'. split_and!; try done. intros key'. rewrite Hc. simpl.
    destruct (decide (key' ∈ l.*1 /\ _)) as [[]|Hd]; destruct (decide _) as [[[->|?]%elem_of_cons ?]|Hd']; try done; [|congruence|naive_solver].
    destruct Hd'. split; [by right|done].
  - destruct (remove_one k key entry e Hg Hn Hv) as (e1 & E1 & Ht1 & Hv1 & Hc1); [apply Hin; by left| |].
    { intros Hk ->. destruct (Ha Hk). congruence. }
    rewrite (bind_ok _ _ _ _ _ E1). destruct (IH e1) as (e' & E & Ht & Hv' & Hc); [by apply (touch_nodup _ _ _ Ht1)|done|done| |by rewrite (touch_address _ _ _ Ht1)|].
    { intros key' entry' Hk'. rewrite Hc1. apply lookup_delete_Some. split; [|apply Hin; by right]. intros ->.
      apply Hkey, list_elem_of_fmap. by exists (key', entry'). }
    exists e'. split_and!; try done; [by etransitivity|]. intros key'. rewrite Hc, Hc1. simpl. destruct (decide (key' = key)) as [->|Hne].
    + rewrite collection_delete_eq. destruct (decide (key ∈ key :: _ /\ _)) as [|[]]; [by destruct (decide _)|split; [by left|done]].
    + rewrite collection_delete_ne by done.
      destruct (decide (key' ∈ l.*1 /\ _)) as [[]|Hd]; destruct (decide _) as [[[->|?]%elem_of_cons ?]|Hd']; try done; [|naive_solver].
      destruct Hd'. split; [by right|done].
Qed.

Lemma update_removed_spec k (from : EntityCollection) e :
  k <> GuardConditions -> heap_nodup e -> kind_valid k e -> (k = Waitables -> is_Some (from !! notify_address e)) ->
  exists e', update_removed now k from e = (Ok tt, e') /\ touches k e e' /\ kind_valid k e' /\
    forall key, current_entities_collection_ e' k !! key = if decide (from !! key = None) then None else current_entities_collection_ e k !! key.
Proof.
  intros Hg Hn Hv Ha. unfold update_removed. rewrite get_bind. pose proof (walk_perm (current_entities_collection_ e k)) as Hp.
  destruct (removed_loop k from (walk (current_entities_collection_ e k)) e Hg Hn Hv) as (e' & E & Ht & Hv' & Hc); [| |done|].
  - rewrite Hp. apply NoDup_fst_map_to_list.
  - intros key entry Hin. rewrite Hp in Hin. by apply elem_of_map_to_list.
  - exists e'. split_and!; try done. intros key. rewrite Hc. destruct (decide (from !! key = None)) as [Hf|Hf].
    + destruct (decide _) as [|Hd]; [done|]. destruct (current_entities_collection_ e k !! key) as [entry|] eqn:Ek; [|done].
      destruct Hd. split; [|done]. rewrite Hp. apply list_elem_of_fmap. exists (key, entry). split; [done|]. by apply elem_of_map_to_list.
    + by rewrite decide_False by tauto.
Qed.

Lemma added_loop k l e :
  k <> GuardConditions -> heap_nodup e -> kind_valid k e -> NoDup l.*1 ->
  (forall key entry, (key, entry) ∈ l -> current_entities_collection_ e k !! key = None ->
    (alive_in e (entry_entity entry) -> key = key_of (events_world e) k (entry_entity entry)) /\ entry_entity entry <> notify_address e /\
    (k = Timers -> alive_in e (entry_entity entry) -> is_Some (timers_of e !! entry_entity entry))) ->
  exists e', (for_each (fun '(key, entry) =>
      e ← get;
      match current_entities_collection_ e k !! key with
      | Some _ => mret tt
      | None =>
        (if alive (events_world e) (entry_entity entry) then on_added now k (entry_entity entry) else mret tt);;
        modify (fun e => set_current k (insert_new key entry (current_entities_collection_ e k)) e)
      end) l : EX unit) e = (Ok tt, e') /\
    touches k e e' /\ kind_valid k e' /\
    forall key, current_entities_collection_ e' k !! key =
      match current_entities_collection_ e k !! key with Some x => Some x | None => (list_to_map l : EntityCollection) !! key end.
Proof.
  intros Hg. revert e. induction l as [|[key entry] l IH]; intros e Hn Hv Hl Hin.
  { exists e. split_and!; try done. intros key. by destruct (current_entities_collection_ e k !! key). }
  simpl in Hl. apply NoDup_cons in Hl as [Hkey Hl]. cbn [for_each]. unfold mbind at 1, ST_bind at 1. rewrite get_bind.
  destruct (current_entities_collection_ e k !! key) as [x|] eqn:Ec.
  - cbn. destruct (IH e Hn Hv Hl) as (e' & E & Ht & Hv' & Hc); [intros; apply Hin; [by right|done]|].
    exists e'. split_and!; try done. intros key'. rewrite Hc. simpl. destruct (current_entities_collection_ e k !! key') eqn:Ek'; [done|].
    rewrite collection_insert_ne; [done|]. congruence.
  - destruct (Hin key entry ltac:(by left) Ec) as (H1 & H2 & H3).
    destruct (add_one k key entry e Hg Hn Hv Ec H1 H2 H3) as (e1 & E1 & Ht1 & Hv1 & Hc1). rewrite E1.
    destruct (IH e1) as (e' & E & Ht & Hv' & Hc); [by apply (touch_nodup _ _ _ Ht1)|done|done| |].
    { intros key' entry' Hk' Hck. rewrite Hc1 in Hck. apply lookup_insert_None in Hck as [Hck Hne].
      destruct (Hin key' entry' ltac:(by right) Hck) as (G1 & G2 & G3). rewrite (touch_address _ _ _ Ht1).
      rewrite (touches_alive k e e1) by done. split_and!; [|done|intros ??; by apply (touch_timers _ _ _ Ht1); auto].
      unfold events_world. rewrite (touch_managed _ _ _ Ht1). exact G1. }
    exists e'. split_and!; try done; [by etransitivity|]. intros key'. rewrite Hc, Hc1. simpl.
    destruct (decide (key' = key)) as [->|Hne].
    + rewrite Ec. by rewrite !collection_insert_eq.
    + by rewrite !collection_insert_ne by done.
Qed.

Lemma update_added_spec k (from : EntityCollection) e :
  k <> GuardConditions -> heap_nodup e -> kind_valid k e -> keyed e k from -> proper_to e k from ->
  (k = Waitables -> is_Some (current_entities_collection_ e k !! notify_address e)) ->
  exists e', update_added now k from e = (Ok tt, e') /\ touches k e e' /\ kind_valid k e' /\
    forall key, current_entities_collection_ e' k !! key =
      match current_entities_collection_ e k !! key with Some x => Some x | None => from !! key end.
Proof.
  intros Hg Hn Hv Hk Hp Ha. unfold update_added. pose proof (walk_perm from) as Hw.
  destruct (added_loop k (walk from) e Hg Hn Hv) as (e' & E & Ht & Hv' & Hc).
  - rewrite Hw. apply NoDup_fst_map_to_list.
  - intros key entry Hin Hc. rewrite Hw in Hin. apply elem_of_map_to_list in Hin. destruct (Hp key entry Hin) as [H1 H2].
    split_and!; [by apply Hk| |done]. intros Ee. destruct (H1 Ee) as [Hk' ->]. destruct (Ha Hk'). congruence.
  - exists e'. split_and!; try done. intros key. rewrite Hc. destruct (current_entities_collection_ e k !! key); [done|].
    assert (Em : list_to_map (walk from) = from) by
      (rewrite <- (list_to_map_to_list from) at 2; apply list_to_map_proper; [rewrite Hw; apply NoDup_fst_map_to_list|done]).
    by rewrite Em.
Qed.

(** An entry of the old collection stays if its key is in the new one. *)
Lemma update_kind_spec k (from : EntityCollection) e :
  k <> GuardConditions -> heap_nodup e -> kind_valid k e -> keyed e k from -> proper_to e k from ->
  (k = Waitables -> is_Some (from !! notify_address e) /\ is_Some (current_entities_collection_ e k !! notify_address e)) ->
  exists e', (update_removed now k from;; update_added now k from) e = (Ok tt, e') /\ touches k e e' /\ kind_valid k e' /\
    forall key, current_entities_collection_ e' k !! key =
      match from !! key with
      | None => None
      | Some x => match current_entities_collection_ e k !! key with Some old => Some old | None => Some x end
      end.
Proof.
  intros Hg Hn Hv Hk Hp Ha. destruct (update_removed_spec k from e Hg Hn Hv) as (e1 & E1 & Ht1 & Hv1 & Hc1); [intros; by apply Ha|].
  destruct (update_added_spec k from e1 Hg) as (e2 & E2 & Ht2 & Hv2 & Hc2); [by apply (touch_nodup _ _ _ Ht1)|done|by eapply touches_keyed|by eapply touches_proper| |].
  - intros Hw. rewrite (touch_address _ _ _ Ht1), Hc1. destruct (Ha Hw) as [[x Hx] Hs]. by rewrite decide_False by congruence.
  - exists e2. split; [by rewrite (bind_ok _ _ _ _ _ E1)|]. split; [by etransitivity|]. split; [done|]. intros key. rewrite Hc2, Hc1.
    destruct (from !! key) as [x|]; [by rewrite decide_False by done|]. by rewrite decide_True by done.
Qed.
End Loops.

(** ** All kinds *)

(** What a refresh leaves alone. *)
Record steady (e e' : EventsExecutor) : Prop := {
  steady_managed : managed_of e' = managed_of e;
  steady_address : notify_address e' = notify_address e;
  steady_pushed : notify_waitable_event_pushed_ e' = notify_waitable_event_pushed_ e;
  steady_spinning : is_spinning e' = is_spinning e;
  steady_ready : on_ready_callback_ (timers_manager_ e') = on_ready_callback_ (timers_manager_ e);
  steady_timers : same_timers (timers_of e) (timers_of e');
  steady_nodup : heap_nodup e -> heap_nodup e';
  steady_unheard : notify_address e ∉ listeners e Waitables -> notify_address e ∉ listeners e' Waitables;
  steady_queue : exists l, event_queue_ e' = event_queue_ e ++ l /\
    Forall (fun event => num_events event = 1%nat /\ ~ is_notify_event e event) l;
}.

#[export] Instance steady_preorder : PreOrder steady.
Proof.
  split; [intros e; split; try done; exists []; by rewrite app_nil_r|].
  intros e1 e2 e3 [A1 A2 A3 A4 A5 A6 A7 A8 (l1 & A9 & F1)] [B1 B2 B3 B4 B5 B6 B7 B8 (l2 & B9 & F2)]. split; try congruence.
  - intros t. by rewrite (B6 t).
  - auto.
  - intros Ha. rewrite <- A2. apply B8. rewrite A2. auto.
  - exists (l1 ++ l2). split; [by rewrite B9, A9, app_assoc|]. apply Forall_app. split; [done|].
    eapply Forall_impl; [exact F2|]. intros event. simpl. unfold is_notify_event. by rewrite A2.
Qed.

Lemma touches_steady k e e' : touches k e e' -> steady e e'.
Proof.
  intros [A1 A2 A3 A4 A5 A6 A7 A8 A9 A10 (l & A11 & F)]. split; try done. exists l. split; [done|].
  eapply Forall_impl; [exact F|]. naive_solver.
Qed.

Lemma touches_kind_valid k k' e e' : touches k e e' -> k' <> k -> kind_valid k' e -> kind_valid k' e'.
Proof.
  intros Ht Hk [H1 H2 H3]. split; rewrite (touch_current _ _ _ Ht k' Hk).
  - by eapply touches_keyed.
  - by eapply touches_proper.
  - intros x Hx Ha Hti. apply (touches_alive k e e') in Hx; [|done]. rewrite (touch_address _ _ _ Ht) in Ha.
    assert (Hti' : k' = Timers -> is_Some (timers_of e !! x)) by (intros E; by apply (touch_timers _ _ _ Ht), Hti).
    rewrite (touch_watched _ _ _ Ht) by done. by apply H3.
Qed.

Definition refreshed (k : EntityKind) : Prop := k <> GuardConditions.

Lemma refresh_order_all k : k ∈ refresh_order <-> refreshed k.
Proof. unfold refresh_order, refreshed. rewrite !elem_of_cons, elem_of_nil. destruct k; naive_solver. Qed.

Definition merged (old new : EntityCollection) (key : N) : option CollectionEntry :=
  match new !! key with
  | None => None
  | Some x => match old !! key with Some y => Some y | None => Some x end
  end.

Lemma refresh_loop `{WalkOrder} now (nc : ExecutorEntitiesCollection) ks e :
  NoDup ks -> (forall k, k ∈ ks -> refreshed k) -> heap_nodup e -> (forall k, refreshed k -> kind_valid k e) ->
  (forall k, k ∈ ks -> keyed e k (nc k) /\ proper_to e k (nc k)) ->
  (Waitables ∈ ks -> is_Some (nc Waitables !! notify_address e) /\ is_Some (current_entities_collection_ e Waitables !! notify_address e)) ->
  exists e', (for_each (fun k => update_removed now k (nc k);; update_added now k (nc k)) ks : EX unit) e = (Ok tt, e') /\
    steady e e' /\ (forall k, refreshed k -> kind_valid k e') /\
    forall k, refreshed k -> forall key, current_entities_collection_ e' k !! key =
      if decide (k ∈ ks) then merged (current_entities_collection_ e k) (nc k) key else current_entities_collection_ e k !! key.
Proof.
  revert e. induction ks as [|k ks IH]; intros e Hks Hr Hn Hv Hnew Ha.
  { exists e. split_and!; try done. }
  apply NoDup_cons in Hks as [Hk Hks]. cbn [for_each].
  destruct (update_kind_spec now k (nc k) e) as (e1 & E1 & Ht1 & Hv1 & Hc1); [apply Hr; by left|done|apply Hv, Hr; by left|apply Hnew; by left|apply Hnew; by left| |].
  { intros ->. apply Ha. by left. }
  rewrite (bind_ok _ _ _ _ _ E1).
  destruct (IH e1 Hks) as (e2 & E2 & Hs2 & Hv2 & Hc2).
  - intros k' Hk'. apply Hr. by right.
  - by apply (touch_nodup _ _ _ Ht1).
  - intros k' Hk'. destruct (decide (k' = k)) as [->|Hne]; [done|]. eapply touches_kind_valid; eauto.
  - intros k' Hk'. destruct (Hnew k') as [G1 G2]; [by right|]. split; [by eapply touches_keyed|by eapply touches_proper].
  - intros Hw. rewrite (touch_address _ _ _ Ht1), (touch_current _ _ _ Ht1 Waitables) by congruence. apply Ha. by right.
  - exists e2. split; [done|]. split; [transitivity e1; [by eapply touches_steady|done]|]. split; [done|].
    intros k' Hk' key. rewrite Hc2 by done. destruct (decide (k' = k)) as [->|Hne].
    + rewrite decide_False by done. rewrite (decide_True (P := k ∈ k :: ks)) by by left. apply Hc1.
    + rewrite (touch_current _ _ _ Ht1 k' Hne). destruct (decide (k' ∈ ks)) as [Hin|Hin].
      * by rewrite (decide_True (P := k' ∈ k :: ks)) by by right.
      * rewrite (decide_False (P := k' ∈ k :: ks)); [done|]. by intros [->|?]%elem_of_cons.
Qed.

(** ** The entities of groups *)

Definition described (w : World) (gs : list N) (k : EntityKind) (key : N) (entry : CollectionEntry) : Prop :=
  exists g x, g ∈ gs /\ groups w !! g = Some x /\ can_be_taken_from_ x = true /\ entry_group entry = Some g /\
    (k, entry_entity entry) ∈ collect_all_ptrs w x /\ key = key_of w k (entry_entity entry).

Lemma fold_left_keeps {A B} (P : A -> Prop) (f : A -> B -> A) l a :
  P a -> (forall a b, b ∈ l -> P a -> P (f a b)) -> P (fold_left f l a).
Proof.
  revert a. induction l as [|b l IH]; intros a Ha Hf; simpl; [done|]. apply IH; [apply Hf; [by left|done]|].
  intros; apply Hf; [by right|done].
Qed.

Lemma build_spec w gs k key entry : build_entities_collection w gs k !! key = Some entry -> described w gs k key entry.
Proof.
  revert k key entry. apply (fold_left_keeps (fun c : ExecutorEntitiesCollection => forall k key entry, c k !! key = Some entry -> described w gs k key entry)).
  - intros k key entry Hk. change ((∅ : gmap N CollectionEntry) !! key = Some entry) in Hk. by rewrite lookup_empty in Hk.
  - intros c g Hg Hc. destruct (groups w !! g) as [x|] eqn:Ex; [|done]. destruct (can_be_taken_from_ x) eqn:Et; [|done].
    apply fold_left_keeps; [done|]. intros c' [k e] Hin Hc' k' key' entry'. unfold add_to_collection. case_bool_decide as Ek; [|apply Hc'].
    subst k'. unfold insert_new. destruct (c' k !! key_of w k e) as [y|] eqn:Ey; [apply Hc'|].
    intros [[<- <-]|[_ H']]%lookup_insert_Some; [|by apply Hc']. exists g, x. by split_and!.
Qed.

Lemma collected_alive w x k e : (k, e) ∈ collect_all_ptrs w x -> alive w e = true /\ e ∈ ptrs x k /\ k <> GuardConditions.
Proof.
  unfold collect_all_ptrs. rewrite list_elem_of_In, in_concat. intros (l & Hl & Hin). apply in_map_iff in Hl as (k' & <- & Hk').
  apply in_map_iff in Hin as (e' & [= -> ->] & He'). apply filter_In in He' as [He' Ha]. split; [done|]. split; [by apply list_elem_of_In|].
  unfold collected_kinds in Hk'. intros ->. naive_solver.
Qed.

Lemma add_to_collection_filed k key x c k' key' :
  is_Some (c k' !! key') \/ (k' = k /\ key' = key) -> is_Some (add_to_collection k key x c k' !! key').
Proof.
  unfold add_to_collection. case_bool_decide as E; [subst k'|intros [?|[? _]]; done]. unfold insert_new.
  destruct (c k !! key) as [y|] eqn:Ey; [intros [?|[_ ->]]; [done|by rewrite Ey]|].
  intros Hc. apply lookup_insert_is_Some'. naive_solver.
Qed.

(** What is to be taken is filed, or something else with its handle. *)
Lemma build_complete w gs g x k e :
  g ∈ gs -> groups w !! g = Some x -> can_be_taken_from_ x = true -> (k, e) ∈ collect_all_ptrs w x ->
  is_Some (build_entities_collection w gs k !! key_of w k e).
Proof.
  intros (l1 & l2 & ->)%list_elem_of_split Hx Ht (m1 & m2 & Em)%list_elem_of_split. unfold build_entities_collection.
  rewrite fold_left_app. cbn [fold_left]. generalize (fold_left (fun c g => match groups w !! g with None => c | Some x => if can_be_taken_from_ x
    then fold_left (fun c '(k, e) => add_to_collection k (key_of w k e) (mkEntry e (Some g)) c) (collect_all_ptrs w x) c else c end) l1 no_entities).
  intros c. rewrite Hx, Ht, Em, fold_left_app. cbn [fold_left].
  assert (Hinner : forall g l (c : ExecutorEntitiesCollection), is_Some (c k !! key_of w k e) ->
    is_Some (fold_left (fun c '(k, e) => add_to_collection k (key_of w k e) (mkEntry e (Some g)) c) l c k !! key_of w k e)).
  { intros g' l c' Hc. apply (fold_left_keeps (fun c : ExecutorEntitiesCollection => is_Some (c k !! key_of w k e))); [done|].
    intros c2 [k' e'] _ Hc2. apply add_to_collection_filed. by left. }
  apply (fold_left_keeps (fun c : ExecutorEntitiesCollection => is_Some (c k !! key_of w k e))).
  - apply Hinner, add_to_collection_filed. by right.
  - intros c2 g' _ Hc2. destruct (groups w !! g') as [x'|]; [|done]. destruct (can_be_taken_from_ x'); [|done]. by apply Hinner.
Qed.

(** ** What the collector leaves alone *)

Definition scenery (w w' : World) : Prop :=
  entities w' = entities w /\
  forall g, (fun x => (can_be_taken_from_ x, ptrs x)) <$> groups w' !! g = (fun x => (can_be_taken_from_ x, ptrs x)) <$> groups w !! g.

Definition scene (st st' : Managed) : Prop := scenery st.1 st'.1.

#[export] Instance scene_preorder : PreOrder scene.
Proof. split; [done|]. intros x y z [E1 H1] [E2 H2]. split; [congruence|]. intros g. by rewrite H2. Qed.

Lemma scenery_on_group f g w :
  (forall x, (can_be_taken_from_ (f x), ptrs (f x)) = (can_be_taken_from_ x, ptrs x)) -> scenery w (on_group f g w).
Proof.
  intros Hf. split; [done|]. intros g'. simpl. destruct (decide (g' = g)) as [->|Hne].
  - rewrite lookup_alter_eq. destruct (groups w !! g) as [x|]; [|done]. simpl. by rewrite Hf.
  - by rewrite lookup_alter_ne.
Qed.

Lemma scenery_guards w g c : scenery w (set_guards w g c).
Proof. done. Qed.

Lemma scene_on_collector f : Keeps scene (on_collector f).
Proof. by intros st. Qed.
Lemma scene_associate_node b n : Keeps scene (on_world (associate_node b n)).
Proof. by intros st. Qed.
Lemma scene_associate_group b g : Keeps scene (on_world (associate_group b g)).
Proof. intros st. by apply scenery_on_group. Qed.
Lemma scene_notify_add guard : Keeps scene (notify_add guard).
Proof.
  intros [w c]. unfold notify_add, modify, scene. simpl. unfold add_guard_condition. destruct guard; [|done].
  case_bool_decide; [|done]. by destruct (CallbackGroups.on_ready_callback_ _).
Qed.
Lemma scene_notify_remove guard : Keeps scene (notify_remove guard).
Proof.
  intros [w c]. destruct guard as [gc|]; [|done]. unfold notify_remove, modify, scene. simpl. unfold remove_guard_condition.
  case_bool_decide; [|done]. by destruct (_ && _).
Qed.
#[local] Hint Resolve scene_on_collector scene_associate_node scene_associate_group scene_notify_add scene_notify_remove : keeps.

Lemma scene_drop_guard g : Keeps scene (drop_guard g).
Proof. unfold drop_guard. keeps_steps. Qed.

Lemma scene_keep_guard g : Keeps scene (keep_guard g).
Proof.
  intros [w c]. unfold keep_guard. rewrite get_bind. cbv beta iota.
  assert (Hw : scenery w (get_notify_guard_condition g w).2).
  { unfold get_notify_guard_condition. destruct (groups w !! g); [|done]. destruct (context_valid w); [|done]. simpl.
    by apply (scenery_on_group set_guard_made). }
  destruct (get_notify_guard_condition g w) as [guard w']. rewrite (bind_ok _ _ _ (w', c) tt) by done.
  assert (Hk : Keeps scene (on_collector (fun c => set_group_guards
    (match weak_groups_to_guard_conditions_ c !! g with
     | Some _ => weak_groups_to_guard_conditions_ c
     | None => <[g := guard]> (weak_groups_to_guard_conditions_ c)
     end) c);; notify_add guard)) by keeps_steps.
  specialize (Hk (w', c)). by transitivity (w', c).
Qed.
#[local] Hint Resolve scene_drop_guard scene_keep_guard : keeps.

Lemma scene_remove_weak_node n : Keeps scene (remove_weak_node n).
Proof. unfold remove_weak_node. keeps_steps. Qed.
Lemma scene_remove_weak_group k g : Keeps scene (remove_weak_callback_group k g).
Proof. unfold remove_weak_callback_group. keeps_steps. Qed.
Lemma scene_add_group g k : Keeps scene (add_callback_group_to_collection g k).
Proof. unfold add_callback_group_to_collection. keeps_steps. Qed.
#[local] Hint Resolve scene_remove_weak_node scene_remove_weak_group scene_add_group : keeps.

Lemma scene_associate_automatically g : Keeps scene (associate_automatically g).
Proof. unfold associate_automatically. keeps_steps. Qed.
#[local] Hint Resolve scene_associate_automatically : keeps.
Lemma scene_join l : Keeps scene (add_automatically_associated_callback_groups l).
Proof. unfold add_automatically_associated_callback_groups. keeps_steps. Qed.
#[local] Hint Resolve scene_join : keeps.

Lemma scene_update_collections : Keeps scene update_collections.
Proof.
  unfold update_collections, process_queues, process_added_node, process_removed_node, process_added_group, process_removed_group,
    prune_invalid_nodes_and_groups.
  keeps_steps.
Qed.

Lemma scene_add_node n : Keeps scene (add_node n).
Proof. unfold add_node. keeps_steps. Qed.
Lemma scene_remove_node n : Keeps scene (remove_node n).
Proof. unfold remove_node. keeps_steps. Qed.
Lemma scene_add_callback_group g : Keeps scene (add_callback_group g).
Proof. unfold add_callback_group. keeps_steps. Qed.
Lemma scene_remove_callback_group g : Keeps scene (remove_callback_group g).
Proof. unfold remove_callback_group. keeps_steps. Qed.

(** ** A refresh *)

Definition notifies (e : EventsExecutor) (event : ExecutorEvent) : bool := bool_decide (is_notify_event e event).

(** [valid_groups]: of the world around. *)
Record events_valid (e : EventsExecutor) : Prop := {
  valid_kinds : forall k, refreshed k -> kind_valid k e;
  valid_nodup : heap_nodup e;
  valid_notify : current_entities_collection_ e Waitables !! notify_address e = Some (mkEntry (notify_address e) None);
  valid_alive : alive_in e (notify_address e);
  valid_unheard : notify_address e ∉ listeners e Waitables;
  valid_groups : forall g x k y, groups (events_world e) !! g = Some x -> (k, y) ∈ collect_all_ptrs (events_world e) x ->
    y <> notify_address e /\ (k = Timers -> is_Some (timers_of e !! y));
  valid_singles : Forall (fun event => num_events event = 1%nat) (event_queue_ e);
  valid_pushed : length (List.filter (notifies e) (event_queue_ e)) = if notify_waitable_event_pushed_ e then 1%nat else 0%nat;
}.

Lemma scenery_collected w w' x x' : entities w' = entities w -> ptrs x' = ptrs x -> collect_all_ptrs w' x' = collect_all_ptrs w x.
Proof. intros Ew Ex. unfold collect_all_ptrs, alive. by rewrite Ew, Ex. Qed.

Lemma scenery_group w w' g x' : scenery w w' -> groups w' !! g = Some x' ->
  exists x, groups w !! g = Some x /\ can_be_taken_from_ x = can_be_taken_from_ x' /\ ptrs x' = ptrs x.
Proof.
  intros [_ Hg] Hx'. specialize (Hg g). rewrite Hx' in Hg. destruct (groups w !! g) as [x|]; [|done].
  simpl in Hg. injection Hg as E1 E2. by exists x.
Qed.

Lemma scene_alive e st x : scene (managed_of e) st -> alive_in (set_managed_of st e) x <-> alive_in e x.
Proof. intros [E _]. unfold alive_in, events_world, alive. simpl. by rewrite E. Qed.

Lemma scene_key e st k x : scene (managed_of e) st -> key_of (events_world (set_managed_of st e)) k x = key_of (events_world e) k x.
Proof. intros [E _]. unfold key_of, handle_of, events_world. simpl. by rewrite E. Qed.

Lemma events_valid_scene e st : scene (managed_of e) st -> events_valid e -> events_valid (set_managed_of st e).
Proof.
  intros Hs [V1 V2 V3 V4 V5 V6 V7 V8]. split; try done.
  - intros k Hk. destruct (V1 k Hk) as [K1 K2 K3]. split.
    + intros key entry Hkey Ha. rewrite scene_key by done. apply scene_alive in Ha; [|done]. by apply K1.
    + intros key entry Hkey. destruct (K2 key entry Hkey) as [P1 P2]. split; [done|]. intros E Ha. apply scene_alive in Ha; auto.
    + intros x Ha. apply scene_alive in Ha; [|done]. by apply K3.
  - by apply scene_alive.
  - intros g x k y Hx Hin. destruct (scenery_group _ _ g x Hs Hx) as (x0 & Hx0 & _ & Ep).
    apply (V6 g x0 k y Hx0). erewrite <- scenery_collected; [exact Hin|apply Hs|done].
Qed.

(** The collection of the groups, with the notify waitable. *)
Definition new_collection_of (e : EventsExecutor) (k : EntityKind) : EntityCollection :=
  let new_collection := build_entities_collection (events_world e) (get_all_callback_groups (managed_of e).2) in
  match k with Waitables => add_notify_waitable_to_collection e (new_collection Waitables) | _ => new_collection k end.

Lemma add_notify_lookup e m key :
  add_notify_waitable_to_collection e m !! key =
    if decide (key = notify_address e) then Some (default (mkEntry (notify_address e) None) (m !! key)) else m !! key.
Proof.
  unfold add_notify_waitable_to_collection, insert_new. destruct (decide (key = notify_address e)) as [->|Hne].
  - destruct (m !! notify_address e) eqn:E; [by rewrite E|]. by rewrite collection_insert_eq.
  - destruct (m !! notify_address e) eqn:E; [done|]. by rewrite collection_insert_ne.
Qed.

Lemma new_collection_lookup e k key entry :
  new_collection_of e k !! key = Some entry ->
  described (events_world e) (get_all_callback_groups (managed_of e).2) k key entry \/
  k = Waitables /\ key = notify_address e /\ entry = mkEntry (notify_address e) None.
Proof.
  unfold new_collection_of. destruct (decide (k = Waitables)) as [->|Hk].
  - rewrite add_notify_lookup. destruct (decide (key = notify_address e)) as [->|Hne]; [|intros H; left; by apply build_spec].
    destruct (build_entities_collection _ _ Waitables !! notify_address e) as [y|] eqn:Ey; simpl; intros [= <-]; [left; by apply build_spec|by right].
  - intros Hl. left. apply build_spec. by destruct k.
Qed.

Lemma new_collection_valid e k : events_valid e -> keyed e k (new_collection_of e k) /\ proper_to e k (new_collection_of e k).
Proof.
  intros Hv. split; intros key entry Hkey; apply new_collection_lookup in Hkey as [(g & x & Hg & Hx & Ht & _ & Hin & ->)|(-> & -> & ->)].
  - done.
  - done.
  - destruct (valid_groups _ Hv g x k _ Hx Hin) as [H1 H2]. split; [|auto]. intros E. by destruct H1.
  - by split.
Qed.

(** The notify waitable is there already. *)
Lemma add_notify_known e : events_valid e -> add_notify_waitable_to_collection e (current_entities_collection_ e Waitables) = current_entities_collection_ e Waitables.
Proof. intros Hv. unfold add_notify_waitable_to_collection, insert_new. by rewrite (valid_notify _ Hv). Qed.

(** Kinds are handled as such, whatever their collections are as functions. *)
Lemma kind_valid_ext k e e' :
  managed_of e' = managed_of e -> timers_of e' = timers_of e -> timers_manager_ e' = timers_manager_ e -> notify_address e' = notify_address e ->
  listeners e' = listeners e -> current_entities_collection_ e' k = current_entities_collection_ e k -> kind_valid k e -> kind_valid k e'.
Proof.
  intros E1 E2 E3 E4 E5 E6 [H1 H2 H3]. unfold keyed, proper_to, alive_in, events_world in *.
  split; unfold keyed, proper_to, alive_in, events_world; rewrite ?E1, ?E2, ?E4, ?E6; try done.
  intros x Hx Ha Ht. rewrite <- H3 by done. unfold watched. by rewrite E3, E5.
Qed.

Lemma filter_nil {A} (f : A -> bool) l : Forall (fun x => f x = false) l -> List.filter f l = [].
Proof. induction 1 as [|x l Hx _ IH]; [done|]. simpl. by rewrite Hx. Qed.

Lemma events_valid_steady e e' :
  events_valid e -> steady e e' -> (forall k, refreshed k -> kind_valid k e') ->
  current_entities_collection_ e' Waitables !! notify_address e' = Some (mkEntry (notify_address e') None) -> events_valid e'.
Proof.
  intros [V1 V2 V3 V4 V5 V6 V7 V8] [S1 S2 S3 S4 S5 S6 S7 S8 (l & S9 & F)] Hk Hc.
  assert (Ew : events_world e' = events_world e) by (unfold events_world; by rewrite S1).
  split; try done.
  - by apply S7.
  - unfold alive_in. by rewrite Ew, S2.
  - rewrite S2. by apply S8.
  - rewrite Ew, S2. intros g x k y Hx Hin. destruct (V6 g x k y Hx Hin) as [H1 H2]. split; [done|]. intros E. by apply S6, H2.
  - rewrite S9. apply Forall_app. split; [done|]. eapply Forall_impl; [exact F|]. by intros ? [].
  - rewrite S9, S3, List.filter_app.
    assert (En : forall event, notifies e' event = notifies e event) by (intros event; unfold notifies, is_notify_event; by rewrite S2).
    rewrite (List.filter_ext _ _ En), (List.filter_ext _ (notifies e) En l).
    rewrite (filter_nil _ l), app_nil_r; [done|]. eapply Forall_impl; [exact F|]. intros event [_ Hn]. by apply bool_decide_eq_false.
Qed.

(** Something is to be watched if one of the groups has it. *)
Definition served (w : World) (gs : list N) (k : EntityKind) (x : N) : Prop :=
  exists g y, g ∈ gs /\ groups w !! g = Some y /\ can_be_taken_from_ y = true /\ alive w x = true /\ (k, x) ∈ collect_all_ptrs w y.

(** An expired entry of the collection has the key of [x]. *)
Definition shadowed (e : EventsExecutor) (k : EntityKind) (x : N) : Prop :=
  exists old, current_entities_collection_ e k !! key_of (events_world e) k x = Some old /\ ~ alive_in e (entry_entity old).

(** No two living entities share a handle. *)
Definition distinct_handles (w : World) : Prop :=
  forall x y, alive w x = true -> alive w y = true -> handle_of w x = handle_of w y -> x = y.

Lemma key_of_inj w k x y : distinct_handles w -> alive w x = true -> alive w y = true -> key_of w k x = key_of w k y -> x = y.
Proof. intros Hd Hx Hy. destruct k; simpl; auto. Qed.

Section Refresh.
Context `{WalkOrder} (now : Clocks).

Lemma refresh_current_spec e nc :
  events_valid e -> (forall k, refreshed k -> keyed e k (nc k) /\ proper_to e k (nc k)) -> is_Some (nc Waitables !! notify_address e) ->
  exists e', refresh_current_collection now nc e = (Ok tt, e') /\ events_valid e' /\ steady e e' /\
    forall k, refreshed k -> forall key, current_entities_collection_ e' k !! key = merged (current_entities_collection_ e k) (nc k) key.
Proof.
  intros Hv Hnew Ha. unfold refresh_current_collection.
  destruct (refresh_loop now nc refresh_order e) as (e' & E & Hs & Hk & Hc).
  - by apply (bool_decide_eq_true_1 _).
  - intros k. apply refresh_order_all.
  - apply Hv.
  - apply Hv.
  - intros k Hk. by apply Hnew, refresh_order_all.
  - intros _. split; [done|]. rewrite (valid_notify _ Hv). by eexists.
  - assert (Hc' : forall k, refreshed k -> forall key, current_entities_collection_ e' k !! key = merged (current_entities_collection_ e k) (nc k) key).
    { intros k Hr key. rewrite Hc by done. rewrite decide_True; [done|]. by apply refresh_order_all. }
    exists e'. split; [done|]. split; [|done]. apply (events_valid_steady e); try done.
    rewrite Hc' by done. rewrite (steady_address _ _ Hs). unfold merged. destruct Ha as [x ->]. by rewrite (valid_notify _ Hv).
Qed.

Lemma refresh_spec e :
  events_valid e ->
  let '(r, st) := update_collections (managed_of e) in
  exists e', refresh_current_collection_from_callback_groups now e = (match r with Ok _ => Ok tt | Throw err => Throw (FromExecutor err) end, e') /\
    events_valid e' /\ managed_of e' = st /\ (r = Ok tt -> steady (set_managed_of st e) e' /\
      forall k, refreshed k -> forall key, current_entities_collection_ e' k !! key =
        merged (current_entities_collection_ e k) (new_collection_of (set_managed_of st e) k) key).
Proof.
  intros Hv. pose proof (scene_update_collections (managed_of e)) as Hs. unfold refresh_current_collection_from_callback_groups.
  unfold mbind at 1, ST_bind at 1. unfold with_collector. destruct (update_collections (managed_of e)) as [[[]|err] st]; simpl in Hs.
  2:{ exists (set_managed_of st e). split_and!; try done. by apply events_valid_scene. }
  set (e1 := set_managed_of st e). assert (Hv1 : events_valid e1) by by apply events_valid_scene. rewrite get_bind. cbv beta iota zeta.
  set (e2 := set_current Waitables (add_notify_waitable_to_collection e1 (current_entities_collection_ e1 Waitables)) e1).
  rewrite (bind_ok _ _ e1 e2 tt) by done.
  assert (Ec : forall k, current_entities_collection_ e2 k = current_entities_collection_ e1 k).
  { intros k. unfold e2, set_current. cbn [current_entities_collection_]. case_bool_decide as E; [subst k; by apply add_notify_known|done]. }
  assert (Hv2 : events_valid e2).
  { destruct Hv1 as [V1 V2 V3 V4 V5 V6 V7 V8]. split; try done.
    - intros k Hk. apply (kind_valid_ext k e1); first [done|apply Ec|by apply V1].
    - rewrite Ec. exact V3. }
  destruct (refresh_current_spec e2 (new_collection_of e1) Hv2) as (e' & E & Hv' & Hst & Hc).
  - intros k _. exact (new_collection_valid e1 k Hv1).
  - unfold new_collection_of. rewrite add_notify_lookup. rewrite decide_True by done. by eexists.
  - exists e'. split; [exact E|]. split; [done|]. split; [by rewrite (steady_managed _ _ Hst)|]. intros _. split.
    + transitivity e2; [|done]. apply (touches_steady Waitables), set_current_touches.
    + intros k Hk key. rewrite Hc by done. by rewrite Ec.
Qed.
End Refresh.
