(* ===== verification/EventsExecutorRuns.v ===== *)
(** * Using the events executor

    An executor that is told what happens is right only if it is told by the
    entities that it has to serve: [refresh_watches] says which those are
    after its collection was refreshed, [canceled_head_blocks] which timers it
    takes no notice of. *)

From Stdlib Require Import ZArith Lia.
From stdpp Require Import base numbers list gmap.
From S2P Require Import Prelude Computation RclTypes Timer CallbackGroups EntitiesCollector ExecutorWaitSet Executor ExecutorExample ExecutorSpinning Heap TimersManager TimersManagerFacts TimersManagerMembers EventsExecutor EventsExecutorFacts.
#[local] Open Scope Z_scope.

(** ** What may happen to the executor *)

Definition groups_proper (e : EventsExecutor) : Prop :=
  forall g x k y, groups (events_world e) !! g = Some x -> (k, y) ∈ collect_all_ptrs (events_world e) x ->
    y <> notify_address e /\ (k = Timers -> is_Some (timers_of e !! y)).

(** The executor has not heard of it. *)
Definition unknown (e : EventsExecutor) (x : N) : Prop :=
  x ∉ weak_heap_ (timers_manager_ e) /\ forall k, x ∉ listeners e k /\ ~ filed (current_entities_collection_ e k) x.

(** The world changes: objects are destroyed, and made. *)
Record evolves_to (e e' : EventsExecutor) : Prop := {
  evolve_collector : (managed_of e').2 = (managed_of e).2;
  evolve_rest : e' = set_managing (timers_of e', timers_manager_ e) (set_managed_of (managed_of e') e);
  evolve_address : alive_in e' (notify_address e);
  evolve_alive : forall x, alive_in e' x ->
    alive_in e x /\ handle_of (events_world e') x = handle_of (events_world e) x /\ (is_Some (timers_of e' !! x) <-> is_Some (timers_of e !! x)) \/
    unknown e x;
  evolve_groups : groups_proper e';
}.

(** The methods; an entity, a guard condition, the timers' thread that tell
    the executor; an event that is taken from the queue, and a timer that is
    executed: what their callback does is a step of its own. *)
Inductive events_run `{WalkOrder} : EventsExecutor -> Prop :=
| run_new w ts address interrupt shutdown separate :
    groups_proper (new_events_executor w ts address interrupt shutdown separate) ->
    events_run (new_events_executor w ts address interrupt shutdown separate)
| run_add_node now n e : events_run e -> events_run (events_add_node now n e).2
| run_remove_node now n e : events_run e -> events_run (events_remove_node now n e).2
| run_add_group now g e : events_run e -> events_run (events_add_callback_group now g e).2
| run_remove_group now g e : events_run e -> events_run (events_remove_callback_group now g e).2
| run_list f e : events_run e -> events_run (list_groups f e).2
| run_arrives k x d e : refreshed k -> k <> Timers -> alive_in e x -> x <> notify_address e -> events_run e -> events_run (arrives k x d e)
| run_trigger gc e : events_run e -> events_run (trigger gc e)
| run_thread now run s e : (forall t info w, same_timers w (run t info w)) -> events_run e -> events_run (timers_thread_wakes now run s e).2
| run_event now event q e : event_queue_ e = event :: q -> events_run e -> events_run (execute_event (fun _ => mret tt) now event (set_queue q e)).2
| run_head now e : events_run e -> events_run (execute_head (fun _ => mret tt) now e).2
| run_spinning b e : events_run e -> events_run (set_is_spinning b e)
| run_evolves e e' : evolves_to e e' -> events_run e -> events_run e'.

Lemma valid_managing e w' m' :
  manages (timers_of e) (timers_manager_ e) w' m' (fun u => u ∈ weak_heap_ (timers_manager_ e)) -> events_valid e -> events_valid (set_managing (w', m') e).
Proof.
  intros [M1 M2 M3 M4] Hv. apply (events_valid_steady e); [done| | |exact (valid_notify _ Hv)].
  - split; try done. exists []. by rewrite app_nil_r.
  - intros k Hk. destruct (valid_kinds _ Hv k Hk) as [K1 K2 K3]. split; [done| |].
    + intros key entry Hkey. destruct (K2 key entry Hkey) as [P1 P2]. split; [done|]. intros E Ha. by apply M1, P2.
    + intros x Hx Ha Ht. assert (Ht' : k = Timers -> is_Some (timers_of e !! x)) by (intros E; by apply M1, Ht).
      rewrite <- K3 by done. destruct k; try done. simpl. by apply M4, Ht'.
Qed.

Lemma valid_push event e : num_events event = 1%nat -> notifies e event = false -> events_valid e -> events_valid (push_event event e).
Proof.
  intros H1 Hn Hv. apply (events_valid_steady e); [done| | |exact (valid_notify _ Hv)].
  - split; try done. exists [single_event event]. split; [unfold push_event, enqueue; simpl; by rewrite H1|].
    constructor; [|done]. split; [done|]. apply bool_decide_eq_false in Hn. exact Hn.
  - intros k Hk. by apply (kind_valid_ext k e), Hv.
Qed.

(** Pushing the notify event, and setting the flag. *)
Lemma valid_notified d e : events_valid e -> events_valid (on_notify d e).
Proof.
  intros Hv. pose proof Hv as [V1 V2 V3 V4 V5 V6 V7 V8]. unfold on_notify. destruct (notify_waitable_event_pushed_ e) eqn:Ep; split; try done.
  - intros k Hk. by apply (kind_valid_ext k e), V1.
  - intros k Hk. by apply (kind_valid_ext k e), V1.
  - simpl. apply Forall_app. split; [done|]. by constructor.
  - unfold push_event, enqueue. simpl. rewrite List.filter_app, length_app. change (notifies _) with (notifies e). rewrite V8. simpl.
    unfold notifies, is_notify_event. simpl. by rewrite bool_decide_true.
Qed.

Lemma arrives_valid k x d e : refreshed k -> k <> Timers -> alive_in e x -> x <> notify_address e -> events_valid e -> events_valid (arrives k x d e).
Proof.
  intros Hk Ht Ha Hx Hv. unfold arrives. case_bool_decide.
  - apply valid_push; [done| |done]. apply bool_decide_eq_false. unfold is_notify_event. simpl. intros [E1 E2]. destruct k; done.
  - pose proof Hv as [V1 V2 V3 V4 V5 V6 V7 V8]. split; try done. intros k' Hk'. by apply (kind_valid_ext k' e), V1.
Qed.

(** A smaller queue without the notify event. *)
Lemma valid_dequeue event q e :
  event_queue_ e = event :: q -> notifies e event = false -> events_valid e -> events_valid (set_queue q e).
Proof.
  intros Eq Hn [V1 V2 V3 V4 V5 V6 V7 V8]. rewrite Eq in V7, V8. split; try done.
  - intros k Hk. by apply (kind_valid_ext k e), V1.
  - by apply Forall_cons in V7 as [_ V7].
  - simpl in V8. by rewrite Hn in V8.
Qed.

Lemma valid_dequeue_notify event q e :
  event_queue_ e = event :: q -> notifies e event = true -> events_valid e -> events_valid (set_pushed false (set_queue q e)).
Proof.
  intros Eq Hn [V1 V2 V3 V4 V5 V6 V7 V8]. rewrite Eq in V7, V8. split; try done.
  - intros k Hk. by apply (kind_valid_ext k e), V1.
  - by apply Forall_cons in V7 as [_ V7].
  - simpl in V8 |- *. rewrite Hn in V8. simpl in V8. change (notifies _) with (notifies e). by destruct (notify_waitable_event_pushed_ e); lia.
Qed.

Section Steps.
Context `{WalkOrder}.

Lemma refresh_valid now e : events_valid e -> events_valid (refresh_current_collection_from_callback_groups now e).2.
Proof.
  intros Hv. pose proof (refresh_spec now e Hv) as Hr. destruct (update_collections (managed_of e)) as [r st].
  destruct Hr as (e' & E & Hv' & _). by rewrite E.
Qed.

Lemma request_valid now (m : ST Managed executor_error unit) e :
  Keeps scene m -> events_valid e -> events_valid ((with_collector m;; refresh_current_collection_from_callback_groups now) e).2.
Proof.
  intros Hm Hv. specialize (Hm (managed_of e)). unfold mbind, ST_bind, with_collector.
  destruct (m (managed_of e)) as [[x|err] st]; simpl in Hm |- *; [apply refresh_valid|]; by apply events_valid_scene.
Qed.

(** What the key of an event is looked up to. *)
Lemma retrieve_entity_spec k key e :
  refreshed k -> events_valid e ->
  exists r e', retrieve_entity k key e = (Ok r, e') /\ events_valid e' /\ event_queue_ e' = event_queue_ e /\ notify_address e' = notify_address e /\
    match r with
    | Some x => e' = e /\ alive_in e x /\ key = key_of (events_world e) k x /\ filed (current_entities_collection_ e k) x
    | None => True
    end.
Proof.
  intros Hk Hv. unfold retrieve_entity. rewrite get_bind. cbv beta iota.
  destruct (current_entities_collection_ e k !! key) as [entry|] eqn:Ec; [|by exists None, e].
  destruct (alive (events_world e) (entry_entity entry)) eqn:Ea.
  - exists (Some (entry_entity entry)), e. split_and!; try done; [|by exists key, entry].
    by apply (kind_keyed _ _ (valid_kinds _ Hv k Hk)).
  - assert (Hna : k = Waitables -> key <> notify_address e).
    { intros -> ->. rewrite (valid_notify _ Hv) in Ec. injection Ec as <-. pose proof (valid_alive _ Hv) as Hal.
      unfold alive_in in Hal. simpl in Ea. congruence. }
    destruct (remove_one (fun _ => 0) k key entry e Hk (valid_nodup _ Hv) (valid_kinds _ Hv k Hk) Ec Hna) as (e1 & E1 & Ht1 & Hk1 & Hc1).
    rewrite get_bind in E1. cbv beta iota in E1. rewrite Ea in E1. rewrite (bind_ok _ _ e e tt) in E1 by done.
    unfold modify in E1. injection E1 as E1. rewrite <- E1 in *.
    exists None, (set_current k (delete key (current_entities_collection_ e k)) e). split_and!; try done.
    apply (events_valid_steady e); [done|by apply (touches_steady k)| |].
    + intros k' Hk'. destruct (decide (k' = k)) as [->|Hne]; [done|]. eapply touches_kind_valid; [exact Ht1|done|by apply Hv].
    + simpl. case_bool_decide as E; [subst k; rewrite collection_delete_ne; [|by apply Hna]|]; apply (valid_notify _ Hv).
Qed.

Lemma execute_event_valid now event q e :
  event_queue_ e = event :: q -> events_valid e -> events_valid (execute_event (fun _ => mret tt) now event (set_queue q e)).2.
Proof.
  intros Eq Hv. assert (Hone : num_events event = 1%nat).
  { pose proof (valid_singles _ Hv) as Hs. rewrite Eq in Hs. by apply Forall_cons in Hs as [? _]. }
  assert (Hnop : forall k (run : N -> EX unit) e0, refreshed k -> events_valid e0 -> (forall x, run x = mret tt) -> events_valid (execute_entity k event run e0).2).
  { intros k run e0 Hk Hv0 Hrun. unfold execute_entity. destruct (retrieve_entity_spec k (entity_key event) e0 Hk Hv0) as (r & e1 & E & Hv1 & _).
    rewrite (bind_ok _ _ _ _ _ E). destruct r as [x|]; [|done]. rewrite Hone. cbn. by rewrite Hrun. }
  unfold execute_event. destruct (type event) eqn:Ety.
  1,2,3: apply Hnop; [done| |done]; apply (valid_dequeue event); [done| |done]; apply bool_decide_eq_false; unfold is_notify_event;
    rewrite Ety; by intros [_ ?].
  { unfold execute_timer_event. rewrite get_bind. cbv beta iota.
    assert (Hv0 : events_valid (set_queue q e)).
    { apply (valid_dequeue event); [done| |done]. apply bool_decide_eq_false. unfold is_notify_event. rewrite Ety. by intros [_ ?]. }
    by destruct (get_timer _ _ _). }
  destruct (decide (entity_key event = notify_address e)) as [Ek|Ek].
  - assert (Hn : notifies e event = true) by (apply bool_decide_eq_true; by split).
    set (e0 := set_queue q e).
    assert (Er : retrieve_entity Waitables (entity_key event) e0 = (Ok (Some (notify_address e)), e0)).
    { unfold retrieve_entity. rewrite get_bind. cbv beta iota. rewrite Ek. unfold e0. simpl. rewrite (valid_notify _ Hv).
      pose proof (valid_alive _ Hv) as Ha. unfold alive_in in Ha. simpl. change (events_world (set_queue q e)) with (events_world e). by rewrite Ha. }
    unfold execute_entity. rewrite (bind_ok _ _ _ _ _ Er). rewrite Hone. cbn [seq for_each].
    assert (Ev : ((e1 ← get; if bool_decide (notify_address e = notify_address e1) then execute_notify now else mret tt) : EX unit) e0 =
      execute_notify now e0) by (rewrite get_bind; cbv beta iota; by rewrite bool_decide_true).
    unfold mbind at 1, ST_bind at 1. rewrite Ev. unfold execute_notify. rewrite (bind_ok _ _ e0 (set_pushed false e0) tt) by done.
    pose proof (refresh_valid now _ (valid_dequeue_notify event q e Eq Hn Hv)) as Hr. fold e0 in Hr.
    by destruct (refresh_current_collection_from_callback_groups now (set_pushed false e0)) as [[[]|err] e1].
  - assert (Hv0 : events_valid (set_queue q e)).
    { apply (valid_dequeue event); [done| |done]. apply bool_decide_eq_false. unfold is_notify_event. by intros [? _]. }
    unfold execute_entity. destruct (retrieve_entity_spec Waitables (entity_key event) _ ltac:(done) Hv0) as (r & e1 & E & Hv1 & _ & Ea & Hr).
    rewrite (bind_ok _ _ _ _ _ E). destruct r as [x|]; [|done]. destruct Hr as (-> & _ & Hkx & _). simpl in Hkx.
    rewrite Hone. cbn [seq for_each].
    assert (Ev : ((e1 ← get; if bool_decide (x = notify_address e1) then execute_notify now else mret tt) : EX unit) (set_queue q e) =
      (Ok tt, set_queue q e)) by (rewrite get_bind; cbv beta iota; rewrite bool_decide_false; [done|simpl; congruence]).
    by rewrite (bind_ok _ _ _ _ _ Ev).
Qed.

Lemma with_timers_ok {A} (m : ST Managing timers_error A) e x st :
  m (timers_of e, timers_manager_ e) = (Ok x, st) -> with_timers m e = (Ok x, set_managing st e).
Proof. intros E. unfold with_timers. by rewrite E. Qed.

Lemma with_timers_throw {A} (m : ST Managing timers_error A) e err st :
  m (timers_of e, timers_manager_ e) = (Throw err, st) -> with_timers m e = (Throw (FromTimers err), set_managing st e).
Proof. intros E. unfold with_timers. by rewrite E. Qed.

Lemma execute_head_valid now e : events_valid e -> events_valid (execute_head (fun _ => mret tt) now e).2.
Proof.
  intros Hv. unfold execute_head.
  destruct (call_head_any now (timers_of e) (timers_manager_ e) (valid_nodup _ Hv)) as (r & w' & m' & E & Hm & Hh).
  pose proof (valid_managing e w' m' Hm Hv) as Hv1.
  destruct r as [called|err]; [|by rewrite (bind_throw _ _ _ _ _ (with_timers_throw _ _ _ _ E))].
  rewrite (bind_ok _ _ _ _ _ (with_timers_ok _ _ _ _ E)). destruct called as [[[h t] info]|]; [|done].
  destruct (Hh h t info eq_refl) as [Hn Hin]. rewrite (bind_ok _ _ _ (set_managing (w', m') e) tt) by done.
  destruct (store_root_any now w' m' h Hn) as (m2 & E2 & Hm2); [intros u Hu; by apply Hin, Hm|].
  rewrite (bind_ok _ _ _ _ _ (with_timers_ok (store_root now h) (set_managing (w', m') e) tt (w', m2) E2)).
  by apply (valid_managing (set_managing (w', m') e)).
Qed.

Lemma timers_thread_valid now run s e :
  (forall t info w, same_timers w (run t info w)) -> events_valid e -> events_valid (timers_thread_wakes now run s e).2.
Proof.
  intros Hrun Hv. unfold timers_thread_wakes.
  destruct (after_sleep_any now run Hrun s (timers_of e) (timers_manager_ e) (valid_nodup _ Hv)) as (r & w' & m' & E & Hm).
  pose proof (valid_managing e w' m' Hm Hv) as Hv1.
  destruct r as [called|err]; [|by rewrite (bind_throw _ _ _ _ _ (with_timers_throw _ _ _ _ E))].
  rewrite (bind_ok _ _ _ _ _ (with_timers_ok _ _ _ _ E)), get_bind. cbv beta iota. destruct (TimersManager.on_ready_callback_ _); [|done].
  unfold modify. simpl. clear E. revert Hv1. generalize (set_managing (w', m') e). induction called as [|[t info] l IH]; intros e1 Hv1; [done|].
  simpl. apply IH, valid_push; [done| |done]. apply bool_decide_eq_false. unfold is_notify_event. simpl. by intros [_ ?].
Qed.

Lemma evolves_valid e e' : evolves_to e e' -> events_valid e -> events_valid e'.
Proof.
  intros [V1 V2 V3 V4 V5] [K1 K2 K3 K4 K5 K6 K7 K8]. rewrite V2 in V3, V4, V5 |- *. split; try done.
  intros k Hk. destruct (K1 k Hk) as [H1 H2 H3]. split.
  - intros key entry Hkey Ha. destruct (V4 _ Ha) as [(Ha' & Eh & _)|[_ Hu]].
    + rewrite (H1 key entry Hkey Ha'). unfold key_of. destruct k; by rewrite ?Eh.
    + destruct (Hu k) as [_ Hf]. destruct Hf. by exists key, entry.
  - intros key entry Hkey. destruct (H2 key entry Hkey) as [P1 P2]. split; [done|]. intros E Ha. destruct (V4 _ Ha) as [(Ha' & _ & Et)|[_ Hu]].
    + by apply Et, P2.
    + destruct (Hu k) as [_ Hf]. destruct Hf. by exists key, entry.
  - intros x Ha Hx Ht. destruct (V4 _ Ha) as [(Ha' & _ & Et)|[Hh Hu]].
    + assert (Ht' : k = Timers -> is_Some (timers_of e !! x)) by (intros E; by apply Et, Ht). rewrite <- H3 by done. by destruct k.
    + destruct (Hu k) as [Hl Hf]. split; [|done]. intros Hw. exfalso. destruct k; simpl in Hw; done.
Qed.

Lemma first_collection_lookup address k key entry :
  (match k with Waitables => {[address := mkEntry address None]} | _ => ∅ end : EntityCollection) !! key = Some entry ->
  k = Waitables /\ key = address /\ entry = mkEntry address None.
Proof.
  assert (He : forall key, (∅ : EntityCollection) !! key = None) by (intros; apply lookup_empty).
  destruct k; rewrite ?He; try done. intros Hl. apply (lookup_singleton_Some (M := gmap N)) in Hl as [<- <-]. done.
Qed.

Lemma new_valid w ts address interrupt shutdown separate :
  groups_proper (new_events_executor w ts address interrupt shutdown separate) ->
  events_valid (new_events_executor w ts address interrupt shutdown separate).
Proof.
  intros Hg. unfold new_events_executor in *.
  destruct (add_guard_condition (Some interrupt) (mkNotify ∅ false) w) as [t1 w1].
  destruct (add_guard_condition (Some shutdown) t1 w1) as [t2 w2].
  destruct (CallbackGroups.set_on_ready_callback t2 w2) as [t3 w3]. destruct (CallbackGroups.set_on_ready_callback t3 w3) as [t4 w4].
  split; try done.
  - intros k _. split.
    + intros key entry Hkey _. by apply first_collection_lookup in Hkey as (-> & -> & ->).
    + intros key entry Hkey. by apply first_collection_lookup in Hkey as (-> & -> & ->).
    + intros x _ Hx _. split; [intros Hw; exfalso; by destruct k; simpl in Hw; first [apply elem_of_nil in Hw|apply elem_of_empty in Hw]|].
      intros (key & entry & Hkey & He). apply first_collection_lookup in Hkey as (-> & -> & ->). by destruct Hx.
  - constructor.
  - apply lookup_singleton_eq.
  - apply bool_decide_eq_true. simpl. rewrite lookup_insert_eq. by eexists.
Qed.

Lemma run_valid e : events_run e -> events_valid e.
Proof.
  induction 1; auto using new_valid, arrives_valid, timers_thread_valid, execute_event_valid, execute_head_valid.
  - apply request_valid; [apply scene_add_node|done].
  - apply request_valid; [apply scene_remove_node|done].
  - apply request_valid; [apply scene_add_callback_group|done].
  - apply request_valid; [apply scene_remove_callback_group|done].
  - pose proof (scene_update_collections (managed_of e)) as Hs. unfold list_groups, mbind, ST_bind, EventsExecutor.with_collector.
    destruct (update_collections (managed_of e)) as [[x|err] st]; simpl in Hs |- *; by apply events_valid_scene.
  - unfold trigger. case_bool_decide; [by apply valid_notified|done].
  - destruct IHevents_run as [V1 V2 V3 V4 V5 V6 V7 V8]. split; try done. intros k Hk. by apply (kind_valid_ext k e), V1.
  - by eapply evolves_valid.
Qed.
End Steps.

(** C16: Whatever was called and has happened: an entity that lives tells the
    executor, and a timer that lives is with its manager, exactly if it is in
    the executor's collection; and there is one event for the notify waitable
    in the queue if one was announced, and none if not, so that the announced
    change is neither missed nor queued twice. *)
Theorem events_invariant `{WalkOrder} e :
  events_run e ->
  (forall k x, refreshed k -> alive_in e x -> x <> notify_address e -> (k = Timers -> is_Some (timers_of e !! x)) ->
    watched e k x <-> filed (current_entities_collection_ e k) x) /\
  length (List.filter (notifies e) (event_queue_ e)) = if notify_waitable_event_pushed_ e then 1%nat else 0%nat.
Proof.
  intros Hv%run_valid. split; [|apply Hv]. intros k x Hk. by apply (kind_watched _ _ (valid_kinds _ Hv k Hk)).
Qed.

Lemma served_filed e k x :
  events_valid e -> refreshed k -> served (events_world e) (get_all_callback_groups (managed_of e).2) k x ->
  is_Some (new_collection_of e k !! key_of (events_world e) k x).
Proof.
  intros Hv Hk (g & y & Hg & Hy & Ht & Ha & Hin). pose proof (build_complete _ _ g y k x Hg Hy Ht Hin) as Hb.
  unfold new_collection_of. destruct (decide (k = Waitables)) as [->|Hne]; [|by destruct k].
  rewrite add_notify_lookup. destruct (decide _); [by eexists|done].
Qed.

(** What the new collection has under the key of [x] is [x]. *)
Lemma new_filed e k x entry :
  events_valid e -> distinct_handles (events_world e) -> alive_in e x -> x <> notify_address e ->
  new_collection_of e k !! key_of (events_world e) k x = Some entry ->
  entry_entity entry = x /\ served (events_world e) (get_all_callback_groups (managed_of e).2) k x.
Proof.
  intros Hv Hd Hx Ha Hl. apply new_collection_lookup in Hl as [(g & y & Hg & Hy & Ht & _ & Hin & Ek)|(-> & Ek & ->)]; [|done].
  destruct (collected_alive _ _ _ _ Hin) as (Hal & _). apply key_of_inj in Ek; [|done..]. subst x. split; [done|].
  exists g, y. by split_and!.
Qed.

(** A refresh leaves the executor listening exactly to the living entities
    of its groups, except those that have the handle of an entity that died
    while it was in the collection: these it never listens to, for its entry
    stays, however often the collection is refreshed. *)
Theorem refresh_watches `{WalkOrder} now e st :
  events_run e -> update_collections (managed_of e) = (Ok tt, st) -> distinct_handles st.1 ->
  exists e', refresh_current_collection_from_callback_groups now e = (Ok tt, e') /\ managed_of e' = st /\
    forall k x, refreshed k -> alive_in e' x -> x <> notify_address e -> (k = Timers -> is_Some (timers_of e' !! x)) ->
      (watched e' k x <-> served st.1 (get_all_callback_groups st.2) k x /\ ~ shadowed e k x) /\
      (served st.1 (get_all_callback_groups st.2) k x -> shadowed e k x -> shadowed e' k x).
Proof.
  intros Hv%run_valid E Hd. pose proof (refresh_spec now e Hv) as Hr. pose proof (scene_update_collections (managed_of e)) as Hs.
  rewrite E in Hr, Hs. simpl in Hs. destruct Hr as (e' & E' & Hv' & Em & Hok). exists e'. split; [done|]. split; [done|].
  destruct (Hok eq_refl) as [Hst Hc]. set (e1 := set_managed_of st e) in *. assert (Hv1 : events_valid e1) by by apply events_valid_scene.
  intros k x Hk Hx Ha Ht. assert (Ew : events_world e' = st.1) by (unfold events_world; by rewrite Em).
  assert (Hx1 : alive_in e1 x) by (unfold alive_in in *; by rewrite Ew in Hx).
  assert (Ekey : key_of (events_world e) k x = key_of st.1 k x) by (symmetry; apply (scene_key e st k x Hs)).
  assert (Hal : forall y, alive_in e y <-> alive st.1 y = true) by (intros y; symmetry; apply (scene_alive e st y Hs)).
  assert (Hold : forall old, current_entities_collection_ e k !! key_of st.1 k x = Some old -> alive st.1 (entry_entity old) = true -> entry_entity old = x).
  { intros old Hold Hal'. apply (key_of_inj st.1 k); [done|done|exact Hx1|]. symmetry.
    apply (kind_keyed _ _ (valid_kinds _ Hv1 k Hk)); [exact Hold|exact Hal']. }
  split.
  - assert (Hw : watched e' k x <-> filed (current_entities_collection_ e' k) x)
      by (apply (kind_watched _ _ (valid_kinds _ Hv' k Hk)); [done|by rewrite (steady_address _ _ Hst)|done]).
    rewrite Hw. split.
    + intros (key & entry & Hl & He).
      pose proof (kind_keyed _ _ (valid_kinds _ Hv' k Hk) key entry Hl) as Hkey. rewrite He, Ew in Hkey. rewrite (Hkey Hx) in Hl. clear Hkey.
      rewrite Hc in Hl by done. unfold merged in Hl. destruct (new_collection_of e1 k !! key_of st.1 k x) as [new|] eqn:En; [|done].
      destruct (new_filed e1 k x new Hv1 Hd Hx1 Ha En) as [_ Hserved]. split; [exact Hserved|].
      intros (old & Ho & Hna). rewrite Ekey in Ho. change (current_entities_collection_ e1 k) with (current_entities_collection_ e k) in Hl.
      rewrite Ho in Hl. injection Hl as ->. apply Hna, Hal. by rewrite He.
    + intros [Hserved Hns]. destruct (served_filed e1 k x Hv1 Hk Hserved) as [new En].
      destruct (new_filed e1 k x new Hv1 Hd Hx1 Ha En) as [Enx _].
      exists (key_of st.1 k x). rewrite Hc by done. unfold merged. change (current_entities_collection_ e1 k) with (current_entities_collection_ e k).
      change (events_world e1) with st.1 in En. rewrite En. destruct (current_entities_collection_ e k !! key_of st.1 k x) as [old|] eqn:Eo; [|by exists new].
      exists old. split; [done|]. apply Hold; [done|]. destruct (alive st.1 (entry_entity old)) eqn:Ea; [done|]. destruct Hns. exists old.
      rewrite Ekey. split; [done|]. rewrite Hal. congruence.
  - intros Hserved (old & Ho & Hna). exists old. rewrite Ew. split; [|unfold alive_in in *; by rewrite Ew, <- Hal].
    destruct (served_filed e1 k x Hv1 Hk Hserved) as [new En]. change (events_world e1) with st.1 in En. rewrite Hc by done. unfold merged.
    rewrite En. change (current_entities_collection_ e1 k) with (current_entities_collection_ e k). rewrite Ekey in Ho. by rewrite Ho.
Qed.

(** ** A canceled head *)

Lemma validate_alive now w m : lives w (weak_heap_ m) -> validate_and_lock now (w, m) = (Ok (weak_heap_ m), (w, m)).
Proof.
  intros Hl. unfold validate_and_lock. rewrite get_bind. cbv beta iota.
  assert (Ea : forallb (timer_alive w) (weak_heap_ m) = true).
  { apply forallb_forall. intros t Ht. apply bool_decide_eq_true, Hl. by apply list_elem_of_In. }
  rewrite Ea. by rewrite forallb_filter_id.
Qed.

(** The state of the timers, with a canceled head. *)
Record head_canceled (w : TimerMap) (m : TimersManager) : Prop := {
  canceled_living : lives w (weak_heap_ m);
  canceled_head : exists t rest, weak_heap_ m = t :: rest /\ timer_is_canceled w t = true;
  canceled_idle : running_ m = false;
}.

Lemma canceled_not_ready now w t : timer_is_canceled w t = true -> timer_is_ready now w t = false.
Proof.
  unfold timer_is_canceled, timer_is_ready. destruct (w !! t) as [x|]; [|done]. simpl. intros E.
  unfold rcl_timer_is_ready, rcl_timer_get_time_until_next_call. by rewrite E.
Qed.

Lemma canceled_timeout now w m : head_canceled w m -> get_head_timeout now (w, m) = (Ok None, (w, m)).
Proof.
  intros [Hl (t & rest & Eh & Hc) Hr]. unfold get_head_timeout, unless_running, get_head_timeout_unsafe.
  rewrite get_bind. cbv beta iota. rewrite Hr, get_bind. cbv beta iota. rewrite Eh. unfold timer_alive.
  rewrite bool_decide_true by (apply Hl; rewrite Eh; by left). by rewrite Hc.
Qed.

Lemma canceled_call now w m : head_canceled w m -> unless_running (call_head_timer now) (w, m) = (Ok None, (w, m)).
Proof.
  intros [Hl (t & rest & Eh & Hc) Hr]. unfold unless_running. rewrite get_bind. cbv beta iota. rewrite Hr. unfold call_head_timer.
  rewrite (bind_ok _ _ _ _ _ (validate_alive now w m Hl)), Eh, get_bind. cbv beta iota. by rewrite canceled_not_ready.
Qed.

Lemma canceled_number now w m :
  head_canceled w m -> get_number_ready_timers now (w, m) = (Ok (heap_ready_timers now w (weak_heap_ m)), (w, m)).
Proof.
  intros [Hl _ Hr]. unfold get_number_ready_timers, unless_running. rewrite get_bind. cbv beta iota. rewrite Hr.
  by rewrite (bind_ok _ _ _ _ _ (validate_alive now w m Hl)).
Qed.

(** If the head of the timers is canceled, the executor takes no notice of
    the timers below it, however long they are due: without an event,
    [spin_once] without a time limit waits for ever, and [spin_some] and
    [spin_all] return at once, at whatever time. *)
Theorem canceled_head_blocks `{WalkOrder} callback now turn t e fuel exhaustive :
  head_canceled (timers_of e) (timers_manager_ e) -> event_queue_ e = [] -> is_spinning e = false ->
  (forall i, meanwhile (turn i) = id) -> meanwhile t = id ->
  events_spin_once callback now t (-1) e = (Throw (FromExecutor Unfinished), e) /\
  events_spin_some_impl callback now turn exhaustive (S fuel) e = (Ok tt, e).
Proof.
  intros Hc Eq Es Hm Ht. set (e1 := set_is_spinning true e).
  assert (Ee : set_is_spinning false e1 = e) by (unfold e1; destruct e; simpl in *; by rewrite Es). assert (Em : forall st, st = (timers_of e, timers_manager_ e) -> set_managing st e1 = e1) by (by intros ? ->).
  split.
  - unfold events_spin_once, while_events. rewrite get_bind. cbv beta iota. rewrite (bind_ok _ _ e e1 tt) by done. rewrite Es.
    unfold finally, events_spin_once_impl. cbn [Z.ltb Z.compare].
    pose proof (with_timers_ok (get_head_timeout now) e1 None _ (canceled_timeout now _ _ Hc)) as E1. rewrite Em in E1 by done.
    rewrite (bind_ok _ _ _ _ _ E1). cbv beta iota. unfold wait_for_event. rewrite Ht.
    unfold mbind at 1 2, ST_bind at 1 2. unfold modify. cbn [id]. rewrite get_bind. cbv beta iota. change (event_queue_ e1) with (event_queue_ e).
    rewrite Eq. cbn [dequeue]. rewrite Z.eqb_refl. unfold throw. cbv beta iota. by rewrite Ee.
  - unfold events_spin_some_impl, while_events. rewrite get_bind. cbv beta iota. rewrite (bind_ok _ _ e e1 tt) by done. rewrite Es.
    unfold finally. rewrite get_bind. cbv beta iota zeta.
    pose proof (with_timers_ok (get_number_ready_timers now) e1 _ _ (canceled_number now _ _ Hc)) as E1. rewrite Em in E1 by done.
    rewrite (bind_ok _ _ _ _ _ E1). cbn [events_some_loop]. rewrite Hm. rewrite (bind_ok _ _ e1 e1 tt) by done. rewrite get_bind. cbv beta iota.
    destruct (events_ok (turn 0%nat) && is_spinning e1 && events_in_time (turn 0%nat)); [|cbn; by rewrite Ee].
    change (event_queue_ e1) with (event_queue_ e). rewrite Eq. cbn [dequeue length].
    assert (Hnone : forall b : bool, (if b then None else None : option (ExecutorEvent * list ExecutorEvent)) = None) by by intros [].
    rewrite Hnone. pose proof (with_timers_ok (unless_running (call_head_timer (clocks (turn 0%nat)))) e1 _ _ (canceled_call _ _ _ Hc)) as E2.
    rewrite Em in E2 by done.
    assert (Eh : execute_head callback (clocks (turn 0%nat)) e1 = (Ok false, e1)) by (unfold execute_head; by rewrite (bind_ok _ _ _ _ _ E2)).
    assert (Eb : forall b : bool, (if b then execute_head callback (clocks (turn 0%nat)) else mret false) e1 = (Ok false, e1)) by by intros [].
    rewrite (bind_ok _ _ _ _ _ (Eb _)). cbn. by rewrite Ee.
Qed.

(** ** [spin_some] ends *)

Section Ends.
Context `{WalkOrder} (callback : Execution -> EX unit).
Notation unfinished := (FromExecutor Unfinished).
Hypothesis callback_ends : forall x, Avoids unfinished (callback x).

Lemma with_collector_ends {A} (m : ST Managed executor_error A) : Avoids Unfinished m -> Avoids unfinished (EventsExecutor.with_collector m).
Proof.
  intros Hm e. unfold EventsExecutor.with_collector. specialize (Hm (managed_of e)). destruct (m (managed_of e)) as [[x|err] st]; simpl in *; congruence.
Qed.

Lemma with_timers_ends {A} (m : ST Managing timers_error A) : Avoids unfinished (with_timers m).
Proof. intros e. unfold with_timers. by destruct (m _) as [[x|err] st]. Qed.

#[local] Hint Resolve with_collector_ends with_timers_ends update_collections_ends callback_ends : avoids.

Lemma refresh_ends now : Avoids unfinished (refresh_current_collection_from_callback_groups now).
Proof.
  unfold refresh_current_collection_from_callback_groups, refresh_current_collection, update_removed, update_added, on_added, on_removed.
  avoids_steps.
Qed.
#[local] Hint Resolve refresh_ends : avoids.

Lemma execute_event_ends now event : Avoids unfinished (execute_event callback now event).
Proof. unfold execute_event, execute_entity, retrieve_entity, execute_timer_event, execute_notify. avoids_steps. Qed.

Lemma execute_head_ends now : Avoids unfinished (execute_head callback now).
Proof. unfold execute_head. avoids_steps. Qed.
#[local] Hint Resolve execute_event_ends execute_head_ends : avoids.

Lemma number_ready_le now w m n : (get_number_ready_timers now (w, m)).1 = Ok n -> (n <= length (weak_heap_ m))%nat.
Proof.
  unfold get_number_ready_timers, unless_running. rewrite get_bind. cbv beta iota. destruct (running_ m); [done|].
  destruct (validate_any now w m) as (h & E & Hp). rewrite (bind_ok _ _ _ _ _ E), get_bind. simpl. intros [= <-].
  unfold heap_ready_timers. etransitivity; [apply filter_length_le|]. rewrite Hp. apply filter_length_le.
Qed.

(** Every pass of the loop but the last uses up an event or a timer. *)
Lemma events_some_loop_ends turn re rt fuel i ee et :
  (re - ee + (rt - et) < fuel)%nat -> Avoids unfinished (events_some_loop callback turn false re rt fuel i ee et).
Proof using callback_ends.
  revert i ee et. induction fuel as [|fuel IH]; intros i ee et Hf; [lia|]. cbn [events_some_loop].
  assert (head_or_stop : Avoids unfinished (timer_executed ← (if (et <? rt)%nat then execute_head callback (clocks (turn i)) else mret false);
    if timer_executed : bool then events_some_loop callback turn false re rt fuel (S i) ee (S et) else mret tt)).
  { destruct (Nat.ltb_spec et rt) as [Ht|Ht]; [|by intros st]. apply Avoids_bind; [auto with avoids|intros []]; [apply IH; lia|auto with avoids]. }
  apply Avoids_bind; [auto with avoids|intros _]. apply Avoids_bind; [auto with avoids|intros e]. destruct (_ && _ && _); [|auto with avoids].
  simpl orb. destruct (Nat.ltb_spec ee re) as [He|He].
  - destruct (dequeue (event_queue_ e)) as [[event q]|].
    + apply Avoids_bind; [auto with avoids|intros _]. apply Avoids_bind; [auto with avoids|intros _]. apply IH. lia.
    + by apply head_or_stop.
  - by apply head_or_stop.
Qed.

(** [spin_some] ends after as many passes as there were events in the
    queue and timers that were ready when it began, and one more, whatever the
    callbacks and the others do meanwhile. *)
Theorem events_spin_some_ends now turn fuel e :
  (length (event_queue_ e) + length (weak_heap_ (timers_manager_ e)) < fuel)%nat ->
  (events_spin_some callback now turn fuel e).1 <> Throw unfinished.
Proof using callback_ends.
  intros Hf. unfold events_spin_some, events_spin_some_impl, while_events. rewrite get_bind. cbv beta iota.
  rewrite (bind_ok _ _ e (set_is_spinning true e) tt) by done. destruct (is_spinning e); [done|]. unfold finally. rewrite get_bind. cbv beta iota zeta.
  set (e1 := set_is_spinning true e).
  pose proof (number_ready_le now (timers_of e) (timers_manager_ e)) as Hn. unfold mbind, ST_bind, with_timers.
  change (timers_of e1, timers_manager_ e1) with (timers_of e, timers_manager_ e).
  destruct (get_number_ready_timers now (timers_of e, timers_manager_ e)) as [[n|err] st]; [|done]. specialize (Hn n eq_refl).
  pose proof (events_some_loop_ends turn (length (event_queue_ e)) n fuel 0 0 0 ltac:(lia) (set_managing st e1)) as Hl.
  change (event_queue_ e1) with (event_queue_ e).
  by destruct (events_some_loop callback turn false (length (event_queue_ e)) n fuel 0 0 0 (set_managing st e1)).
Qed.
End Ends.

(** ** Witnesses

    The node of the other examples; then its subscription is destroyed, and
    another one made, whose handle has the address of the last one's. *)

(** Only the world changes. *)
Lemma world_evolves e w :
  alive w (notify_address e) = true ->
  (forall x, alive w x = true -> alive_in e x /\ handle_of w x = handle_of (events_world e) x \/ unknown e x) ->
  groups_proper (set_managed_of (w, (managed_of e).2) e) -> evolves_to e (set_managed_of (w, (managed_of e).2) e).
Proof.
  intros Ha Hw Hg. split; [by destruct e|by destruct e|exact Ha| |exact Hg].
  intros x Hx. destruct (Hw x Hx) as [[H1 H2]|H1]; [left; split_and!; done|by right].
Qed.

Lemma filed_list (m : EntityCollection) x : filed m x -> x ∈ (fun kv => entry_entity kv.2) <$> map_to_list m.
Proof. intros (key & entry & Hl & <-). apply list_elem_of_fmap. exists (key, entry). split; [done|]. by apply elem_of_map_to_list. Qed.

#[local] Existing Instance listed.

Definition events_start : EventsExecutor := new_events_executor one_node {[20%N := due_timer]} 300 200 201 false.
Definition events_one : EventsExecutor := (events_add_node (fun _ => 400) 1 events_start).2.

Definition next_group : CallbackGroup :=
  set_ptrs (set_guard_made (set_associated full_group true)) (fun k => match k with Timers => [20%N] | Subscriptions => [22%N] | _ => [] end).

Definition next_world : World :=
  set_groups (set_entities (events_world events_one)
    {[20%N := mkEntity 30 false; 22%N := mkEntity 31 false; 300%N := mkEntity 300 false]}) {[10%N := next_group]}.

Definition events_two : EventsExecutor := set_managed_of (next_world, (managed_of events_one).2) events_one.

Lemma events_start_proper : groups_proper events_start.
Proof.
  intros g x k y Hx Hin. change (groups (events_world events_start)) with ({[10%N := full_group]} : gmap N CallbackGroup) in Hx.
  apply lookup_singleton_Some in Hx as [_ <-].
  assert (Hl : (k, y) ∈ [(Subscriptions, 21%N); (Timers, 20%N)]) by exact Hin.
  rewrite !elem_of_cons, elem_of_nil in Hl. destruct Hl as [[= -> ->]|[[= -> ->]|[]]]; (split; [done|]); [done|].
  intros _. by exists due_timer.
Qed.

Lemma events_one_run : events_run events_one.
Proof. apply run_add_node, run_new, events_start_proper. Qed.

Lemma next_entities x : alive next_world x = true -> x = 20%N \/ x = 22%N \/ x = 300%N.
Proof.
  unfold alive. intros [y Hy]%bool_decide_eq_true. unfold next_world in Hy. cbn [entities set_groups set_entities] in Hy.
  apply lookup_insert_Some in Hy as [[<- _]|[_ Hy]]; [by left|]. apply lookup_insert_Some in Hy as [[<- _]|[_ Hy]]; [by right; left|].
  apply lookup_singleton_Some in Hy as [<- _]. by right; right.
Qed.

Lemma events_one_unknown : unknown events_one 22.
Proof.
  split; [by apply (bool_decide_eq_true_1 _); vm_compute|]. intros k. split; [by apply (bool_decide_eq_true_1 _); destruct k; vm_compute|].
  intros Hf%filed_list. revert Hf. by apply (bool_decide_eq_true_1 _); destruct k; vm_compute.
Qed.

Lemma events_two_proper : groups_proper events_two.
Proof.
  intros g x k y Hx Hin. unfold events_two, events_world, set_managed_of in Hx. cbn [managed_of fst] in Hx.
  unfold next_world in Hx. cbn [groups set_groups] in Hx. apply lookup_singleton_Some in Hx as [_ <-].
  assert (Hl : (k, y) ∈ [(Subscriptions, 22%N); (Timers, 20%N)]) by (revert Hin; vm_compute; done).
  rewrite !elem_of_cons, elem_of_nil in Hl. destruct Hl as [[= -> ->]|[[= -> ->]|[]]]; (split; [done|]); [done|].
  intros _. by apply (bool_decide_eq_true_1 _); vm_compute.
Qed.

Lemma events_two_run : events_run events_two.
Proof.
  eapply run_evolves; [apply world_evolves|apply events_one_run].
  - by vm_compute.
  - intros x Hx. destruct (next_entities x Hx) as [-> | [-> | ->]]; [left; by split; vm_compute|right; apply events_one_unknown|].
    left. by split; vm_compute.
  - exact events_two_proper.
Qed.

Lemma events_invariant_witness :
  events_run events_one /\ (watched events_one Subscriptions 21 <-> filed (current_entities_collection_ events_one Subscriptions) 21).
Proof.
  split; [exact events_one_run|]. apply (events_invariant events_one events_one_run); [done|reflexivity|vm_compute; discriminate|discriminate].
Defined.

Lemma next_distinct : distinct_handles next_world.
Proof.
  intros x y Hx%next_entities Hy%next_entities. destruct Hx as [-> | [-> | ->]], Hy as [-> | [-> | ->]]; vm_compute; intros Eh; congruence.
Qed.

Lemma events_two_updates :
  exists st, update_collections (managed_of events_two) = (Ok tt, st) /\ distinct_handles st.1.
Proof.
  pose proof (scene_update_collections (managed_of events_two)) as [He _].
  assert (E : (update_collections (managed_of events_two)).1 = Ok tt) by by vm_compute.
  destruct (update_collections (managed_of events_two)) as [r st]. simpl in *. subst r. exists st. split; [done|].
  unfold distinct_handles, alive, handle_of. rewrite He. exact next_distinct.
Qed.

(** The new subscription is not listened to. *)
Lemma refresh_watches_witness :
  exists e', refresh_current_collection_from_callback_groups (fun _ => 400) events_two = (Ok tt, e') /\
    alive_in e' 22 /\ ~ watched e' Subscriptions 22.
Proof.
  destruct events_two_updates as (st & E & Hd).
  destruct (refresh_watches (fun _ => 400) events_two st events_two_run E Hd) as (e' & E' & Em & Hw). exists e'. split; [done|].
  assert (Ha : alive_in e' 22).
  { pose proof (scene_update_collections (managed_of events_two)) as [He _]. rewrite E in He. simpl in He.
    unfold alive_in, events_world, alive. rewrite Em, He. by vm_compute. }
  split; [done|]. destruct (Hw Subscriptions 22%N) as [H1 _]; [done|exact Ha|vm_compute; discriminate|discriminate|]. rewrite H1. intros [_ Hn]. apply Hn.
  exists (mkEntry 21 (Some 10%N)). split; by vm_compute.
Defined.

(** A manager with a canceled timer above one that is due. *)
Definition canceled_timer : rcl_timer_impl_t := mkTimer true true 10 0 500 0 true false 0.
Definition canceled_timers : TimerMap := {[20%N := canceled_timer; 22%N := due_timer]}.
Definition canceled_manager : TimersManager := set_heap [20%N; 22%N] (new_timers_manager true).
Definition events_canceled : EventsExecutor := set_managing (canceled_timers, canceled_manager) events_one.
Definition idle_turn : EventsTurn := mkEventsTurn true true (fun _ => 1000) id.

Lemma events_canceled_head : head_canceled canceled_timers canceled_manager.
Proof.
  split; [|by exists 20%N, [22%N]|done]. intros t Ht. change (t ∈ [20%N; 22%N]) in Ht.
  apply elem_of_cons in Ht as [->|Ht%elem_of_cons]; [by vm_compute; eexists|]. destruct Ht as [->|Ht%elem_of_nil]; [by vm_compute; eexists|done].
Qed.

Lemma canceled_head_blocks_witness :
  timer_is_ready (fun _ => 1000) canceled_timers 22 = true /\
  events_spin_once (fun _ => mret tt) (fun _ => 1000) idle_turn (-1) events_canceled = (Throw (FromExecutor Unfinished), events_canceled).
Proof.
  split; [by vm_compute|].
  destruct (canceled_head_blocks (fun _ => mret tt) (fun _ => 1000) (fun _ => idle_turn) idle_turn events_canceled 0 true) as [H _];
    [exact events_canceled_head|vm_compute; reflexivity|vm_compute; reflexivity|reflexivity|reflexivity|exact H].
Defined.

Lemma events_spin_some_ends_witness :
  Avoids (FromExecutor Unfinished : events_error) (mret tt : EX unit) /\
  (events_spin_some (fun _ => mret tt) (fun _ => 1000) (fun _ => idle_turn) 2 events_one).1 <> Throw (FromExecutor Unfinished).
Proof.
  split; [by intros st|]. apply events_spin_some_ends; [by intros x st|by apply (bool_decide_eq_true_1 _); vm_compute].
Defined.
