(* ===== verification/Lifecycle.v ===== *)
(** * The lifecycle state machine

    [rcl_lifecycle/src/transition_map.c], [default_state_machine.c] and
    [rcl_lifecycle.c]: an array of states, each with the transitions that
    leave it, and the machine that walks over it.

    A transition refers to its states by pointers into the array of states,
    which [reallocate] may move whenever a state is added.  The model keeps
    this: a pointer names the allocation it points into, a new allocation
    makes the old pointers invalid, and reading an invalid one is the error
    [DanglingPointer].  The allocator may refuse any request: [refuse k] tells
    whether it refuses the one with number [k].  An array that is [NULL] is
    the empty list, since no array is allocated with size 0.  Trace points and
    log texts are left out. *)

From Stdlib Require Import ZArith Lia String.
From stdpp Require Import base numbers list strings.
From S2P Require Import Prelude RclTypes.

(** ** Data *)

(** What ends a call without a return code. *)
Inductive lc_error := NullPointer | DanglingPointer | UninitializedRead | RuntimeError.

Record StatePtr := mkStatePtr { block : nat; index : nat }.

Record rcl_lifecycle_transition_t := mkTransition {
  tr_label : string;
  tr_id : Z;
  start : option StatePtr;
  goal : option StatePtr;
}.

Record rcl_lifecycle_state_t := mkState {
  st_label : string;
  st_id : Z;
  valid_transitions : list rcl_lifecycle_transition_t;
}.

Record rcl_lifecycle_transition_map_t := mkMap {
  states_block : nat;
  states : list rcl_lifecycle_state_t;
  transitions : list rcl_lifecycle_transition_t;
}.

Definition rcl_lifecycle_get_zero_initialized_transition_map : rcl_lifecycle_transition_map_t := mkMap 0 [] [].

(** [*p], for a pointer that may be [NULL] or point into an old array. *)
Definition deref_state (tm : rcl_lifecycle_transition_map_t) (p : option StatePtr)
    : Result lc_error rcl_lifecycle_state_t :=
  match p with
  | None => Throw NullPointer
  | Some p =>
    match (if (block p =? states_block tm)%nat then states tm !! index p else None) with
    | Some s => Ok s
    | None => Throw DanglingPointer
    end
  end.

(** ** The transition map *)

Definition rcl_lifecycle_transition_map_is_initialized (tm : rcl_lifecycle_transition_map_t) : rcl_ret_t :=
  match states tm, transitions tm with
  | [], [] => RCL_RET_ERROR
  | _, _ => RCL_RET_OK
  end.

Definition rcl_lifecycle_transition_map_fini (tm : rcl_lifecycle_transition_map_t)
    : rcl_ret_t * rcl_lifecycle_transition_map_t :=
  (RCL_RET_OK, mkMap (states_block tm) [] []).

(** The index of the first state with the identifier. *)
Fixpoint find_index (l : list rcl_lifecycle_state_t) (state_id : Z) : option nat :=
  match l with
  | [] => None
  | s :: l => if st_id s =? state_id then Some 0%nat else S <$> find_index l state_id
  end.

Definition rcl_lifecycle_get_state (tm : rcl_lifecycle_transition_map_t) (state_id : Z) : option StatePtr :=
  mkStatePtr (states_block tm) <$> find_index (states tm) state_id.

Definition rcl_lifecycle_get_transitions (tm : rcl_lifecycle_transition_map_t) (transition_id : Z)
    : option rcl_lifecycle_transition_t :=
  List.find (fun t => tr_id t =? transition_id) (transitions tm).

Section Allocator.
Variable refuse : nat -> bool.

(** The number of the allocation, and that of the next one. *)
Definition reallocate (k : nat) : option nat * nat :=
  (if refuse k then None else Some k, S k).

Definition rcl_lifecycle_register_state (tm : rcl_lifecycle_transition_map_t) (state : rcl_lifecycle_state_t)
    (k : nat) : rcl_ret_t * rcl_lifecycle_transition_map_t * nat :=
  match rcl_lifecycle_get_state tm (st_id state) with
  | Some _ => (RCL_RET_LIFECYCLE_STATE_REGISTERED, tm, k)
  | None =>
    let '(new_states, k) := reallocate k in
    match new_states with
    | None => (RCL_RET_BAD_ALLOC, tm, k)
    | Some b => (RCL_RET_OK, mkMap b (states tm ++ [state]) (transitions tm), k)
    end
  end.

Definition add_transition (t : rcl_lifecycle_transition_t) (s : rcl_lifecycle_state_t) : rcl_lifecycle_state_t :=
  mkState (st_label s) (st_id s) (valid_transitions s ++ [t]).

Definition rcl_lifecycle_register_transition (tm : rcl_lifecycle_transition_map_t)
    (transition : rcl_lifecycle_transition_t) (k : nat)
    : Result lc_error (rcl_ret_t * rcl_lifecycle_transition_map_t * nat) :=
  let! start_state := deref_state tm (start transition) in
  match rcl_lifecycle_get_state tm (st_id start_state) with
  | None => Ok (RCL_RET_LIFECYCLE_STATE_NOT_REGISTERED, tm, k)
  | Some state =>
    let! goal_state := deref_state tm (goal transition) in
    match rcl_lifecycle_get_state tm (st_id goal_state) with
    | None => Ok (RCL_RET_LIFECYCLE_STATE_NOT_REGISTERED, tm, k)
    | Some _ =>
      let '(new_transitions, k) := reallocate k in
      match new_transitions with
      | None => Ok (RCL_RET_BAD_ALLOC, tm, k)
      | Some _ =>
        let tm := mkMap (states_block tm) (states tm) (transitions tm ++ [transition]) in
        let '(new_valid_transitions, k) := reallocate k in
        match new_valid_transitions with
        | None => Ok (RCL_RET_BAD_ALLOC, tm, k)
        | Some _ =>
          Ok (RCL_RET_OK,
              mkMap (states_block tm) (alter (add_transition transition) (index state) (states tm)) (transitions tm),
              k)
        end
      end
    end
  end.

(** ** The default machine *)

(** [lifecycle_msgs/msg/State] and [Transition]. *)
Definition PRIMARY_STATE_UNKNOWN : Z := 0.
Definition PRIMARY_STATE_UNCONFIGURED : Z := 1.
Definition PRIMARY_STATE_INACTIVE : Z := 2.
Definition PRIMARY_STATE_ACTIVE : Z := 3.
Definition PRIMARY_STATE_FINALIZED : Z := 4.
Definition TRANSITION_STATE_CONFIGURING : Z := 10.
Definition TRANSITION_STATE_CLEANINGUP : Z := 11.
Definition TRANSITION_STATE_SHUTTINGDOWN : Z := 12.
Definition TRANSITION_STATE_ACTIVATING : Z := 13.
Definition TRANSITION_STATE_DEACTIVATING : Z := 14.
Definition TRANSITION_STATE_ERRORPROCESSING : Z := 15.

Definition TRANSITION_CONFIGURE : Z := 1.
Definition TRANSITION_CLEANUP : Z := 2.
Definition TRANSITION_ACTIVATE : Z := 3.
Definition TRANSITION_DEACTIVATE : Z := 4.
Definition TRANSITION_UNCONFIGURED_SHUTDOWN : Z := 5.
Definition TRANSITION_INACTIVE_SHUTDOWN : Z := 6.
Definition TRANSITION_ACTIVE_SHUTDOWN : Z := 7.
Definition TRANSITION_ON_CONFIGURE_SUCCESS : Z := 10.
Definition TRANSITION_ON_CONFIGURE_FAILURE : Z := 11.
Definition TRANSITION_ON_CONFIGURE_ERROR : Z := 12.
Definition TRANSITION_ON_CLEANUP_SUCCESS : Z := 20.
Definition TRANSITION_ON_CLEANUP_FAILURE : Z := 21.
Definition TRANSITION_ON_CLEANUP_ERROR : Z := 22.
Definition TRANSITION_ON_ACTIVATE_SUCCESS : Z := 30.
Definition TRANSITION_ON_ACTIVATE_FAILURE : Z := 31.
Definition TRANSITION_ON_ACTIVATE_ERROR : Z := 32.
Definition TRANSITION_ON_DEACTIVATE_SUCCESS : Z := 40.
Definition TRANSITION_ON_DEACTIVATE_FAILURE : Z := 41.
Definition TRANSITION_ON_DEACTIVATE_ERROR : Z := 42.
Definition TRANSITION_ON_SHUTDOWN_SUCCESS : Z := 50.
Definition TRANSITION_ON_SHUTDOWN_FAILURE : Z := 51.
Definition TRANSITION_ON_SHUTDOWN_ERROR : Z := 52.
Definition TRANSITION_ON_ERROR_SUCCESS : Z := 60.
Definition TRANSITION_ON_ERROR_FAILURE : Z := 61.
Definition TRANSITION_ON_ERROR_ERROR : Z := 62.

Definition rcl_lifecycle_configure_label : string := "configure".
Definition rcl_lifecycle_cleanup_label : string := "cleanup".
Definition rcl_lifecycle_activate_label : string := "activate".
Definition rcl_lifecycle_deactivate_label : string := "deactivate".
Definition rcl_lifecycle_shutdown_label : string := "shutdown".
Definition rcl_lifecycle_transition_success_label : string := "transition_success".
Definition rcl_lifecycle_transition_failure_label : string := "transition_failure".
Definition rcl_lifecycle_transition_error_label : string := "transition_error".

(** Register states one after the other, until one cannot be. *)
Fixpoint register_states (l : list rcl_lifecycle_state_t) (tm : rcl_lifecycle_transition_map_t) (k : nat)
    : rcl_ret_t * rcl_lifecycle_transition_map_t * nat :=
  match l with
  | [] => (RCL_RET_OK, tm, k)
  | s :: l =>
    let '(ret, tm, k) := rcl_lifecycle_register_state tm s k in
    if bool_decide (ret = RCL_RET_OK) then register_states l tm k else (ret, tm, k)
  end.

Definition primary_states : list rcl_lifecycle_state_t :=
  [ mkState "unknown" PRIMARY_STATE_UNKNOWN [];
    mkState "unconfigured" PRIMARY_STATE_UNCONFIGURED [];
    mkState "inactive" PRIMARY_STATE_INACTIVE [];
    mkState "active" PRIMARY_STATE_ACTIVE [];
    mkState "finalized" PRIMARY_STATE_FINALIZED [] ].

Definition _register_primary_states := register_states primary_states.

Definition transition_states : list rcl_lifecycle_state_t :=
  [ mkState "configuring" TRANSITION_STATE_CONFIGURING [];
    mkState "cleaningup" TRANSITION_STATE_CLEANINGUP [];
    mkState "shuttingdown" TRANSITION_STATE_SHUTTINGDOWN [];
    mkState "activating" TRANSITION_STATE_ACTIVATING [];
    mkState "deactivating" TRANSITION_STATE_DEACTIVATING [];
    mkState "errorprocessing" TRANSITION_STATE_ERRORPROCESSING [] ].

Definition _register_transition_states := register_states transition_states.

Fixpoint register_transitions (l : list rcl_lifecycle_transition_t) (tm : rcl_lifecycle_transition_map_t) (k : nat)
    : Result lc_error (rcl_ret_t * rcl_lifecycle_transition_map_t * nat) :=
  match l with
  | [] => Ok (RCL_RET_OK, tm, k)
  | t :: l =>
    let! (ret, tm, k) := rcl_lifecycle_register_transition tm t k in
    if bool_decide (ret = RCL_RET_OK) then register_transitions l tm k else Ok (ret, tm, k)
  end.

(** The transitions, with the states they refer to looked up in the map. *)
Definition default_transitions (tm : rcl_lifecycle_transition_map_t) : list rcl_lifecycle_transition_t :=
  let unconfigured_state := rcl_lifecycle_get_state tm PRIMARY_STATE_UNCONFIGURED in
  let inactive_state := rcl_lifecycle_get_state tm PRIMARY_STATE_INACTIVE in
  let active_state := rcl_lifecycle_get_state tm PRIMARY_STATE_ACTIVE in
  let finalized_state := rcl_lifecycle_get_state tm PRIMARY_STATE_FINALIZED in
  let configuring_state := rcl_lifecycle_get_state tm TRANSITION_STATE_CONFIGURING in
  let activating_state := rcl_lifecycle_get_state tm TRANSITION_STATE_ACTIVATING in
  let deactivating_state := rcl_lifecycle_get_state tm TRANSITION_STATE_DEACTIVATING in
  let cleaningup_state := rcl_lifecycle_get_state tm TRANSITION_STATE_CLEANINGUP in
  let shuttingdown_state := rcl_lifecycle_get_state tm TRANSITION_STATE_SHUTTINGDOWN in
  let errorprocessing_state := rcl_lifecycle_get_state tm TRANSITION_STATE_ERRORPROCESSING in
  let success := rcl_lifecycle_transition_success_label in
  let failure := rcl_lifecycle_transition_failure_label in
  let error := rcl_lifecycle_transition_error_label in
  [ mkTransition rcl_lifecycle_configure_label TRANSITION_CONFIGURE unconfigured_state configuring_state;
    mkTransition success TRANSITION_ON_CONFIGURE_SUCCESS configuring_state inactive_state;
    mkTransition failure TRANSITION_ON_CONFIGURE_FAILURE configuring_state unconfigured_state;
    mkTransition error TRANSITION_ON_CONFIGURE_ERROR configuring_state errorprocessing_state;
    mkTransition rcl_lifecycle_cleanup_label TRANSITION_CLEANUP inactive_state cleaningup_state;
    mkTransition success TRANSITION_ON_CLEANUP_SUCCESS cleaningup_state unconfigured_state;
    mkTransition failure TRANSITION_ON_CLEANUP_FAILURE cleaningup_state inactive_state;
    mkTransition error TRANSITION_ON_CLEANUP_ERROR cleaningup_state errorprocessing_state;
    mkTransition rcl_lifecycle_activate_label TRANSITION_ACTIVATE inactive_state activating_state;
    mkTransition success TRANSITION_ON_ACTIVATE_SUCCESS activating_state active_state;
    mkTransition failure TRANSITION_ON_ACTIVATE_FAILURE activating_state inactive_state;
    mkTransition error TRANSITION_ON_ACTIVATE_ERROR activating_state errorprocessing_state;
    mkTransition rcl_lifecycle_deactivate_label TRANSITION_DEACTIVATE active_state deactivating_state;
    mkTransition success TRANSITION_ON_DEACTIVATE_SUCCESS deactivating_state inactive_state;
    mkTransition failure TRANSITION_ON_DEACTIVATE_FAILURE deactivating_state active_state;
    mkTransition error TRANSITION_ON_DEACTIVATE_ERROR deactivating_state errorprocessing_state;
    mkTransition rcl_lifecycle_shutdown_label TRANSITION_UNCONFIGURED_SHUTDOWN unconfigured_state shuttingdown_state;
    mkTransition rcl_lifecycle_shutdown_label TRANSITION_INACTIVE_SHUTDOWN inactive_state shuttingdown_state;
    mkTransition rcl_lifecycle_shutdown_label TRANSITION_ACTIVE_SHUTDOWN active_state shuttingdown_state;
    mkTransition success TRANSITION_ON_SHUTDOWN_SUCCESS shuttingdown_state finalized_state;
    mkTransition failure TRANSITION_ON_SHUTDOWN_FAILURE shuttingdown_state finalized_state;
    mkTransition error TRANSITION_ON_SHUTDOWN_ERROR shuttingdown_state errorprocessing_state;
    mkTransition success TRANSITION_ON_ERROR_SUCCESS errorprocessing_state unconfigured_state;
    mkTransition failure TRANSITION_ON_ERROR_FAILURE errorprocessing_state finalized_state;
    mkTransition error TRANSITION_ON_ERROR_ERROR errorprocessing_state finalized_state ].

Definition _register_transitions (tm : rcl_lifecycle_transition_map_t) (k : nat)
    : Result lc_error (rcl_ret_t * rcl_lifecycle_transition_map_t * nat) :=
  register_transitions (default_transitions tm) tm k.

(** ** The state machine *)

(** Which of the services the machine was given exist. *)
Record rcl_lifecycle_com_interface_t := mkCom { srv_get_state : bool; srv_change_state : bool }.

Definition rcl_lifecycle_get_zero_initialized_com_interface : rcl_lifecycle_com_interface_t := mkCom false false.

Record rcl_lifecycle_state_machine_options_t := mkOptions {
  initialize_default_states : bool;
  enable_com_interface : bool;
}.

Record rcl_lifecycle_state_machine_t := mkMachine {
  current_state : option StatePtr;
  transition_map : rcl_lifecycle_transition_map_t;
  com_interface : rcl_lifecycle_com_interface_t;
  options : rcl_lifecycle_state_machine_options_t;
}.

Definition rcl_lifecycle_get_default_state_machine_options : rcl_lifecycle_state_machine_options_t :=
  mkOptions true true.

Definition rcl_lifecycle_get_zero_initialized_state_machine : rcl_lifecycle_state_machine_t :=
  mkMachine None rcl_lifecycle_get_zero_initialized_transition_map
    rcl_lifecycle_get_zero_initialized_com_interface rcl_lifecycle_get_default_state_machine_options.

Definition set_map (sm : rcl_lifecycle_state_machine_t) (tm : rcl_lifecycle_transition_map_t)
    : rcl_lifecycle_state_machine_t :=
  mkMachine (current_state sm) tm (com_interface sm) (options sm).

(** Register everything and start in [unconfigured]; what was registered
    before a failure is freed again. *)
Definition rcl_lifecycle_init_default_state_machine (sm : rcl_lifecycle_state_machine_t) (k : nat)
    : Result lc_error (rcl_ret_t * rcl_lifecycle_state_machine_t * nat) :=
  let fail tm k := Ok (RCL_RET_ERROR, set_map sm (rcl_lifecycle_transition_map_fini tm).2, k) in
  let '(ret, tm, k) := _register_primary_states (transition_map sm) k in
  if negb (bool_decide (ret = RCL_RET_OK)) then fail tm k else
  let '(ret, tm, k) := _register_transition_states tm k in
  if negb (bool_decide (ret = RCL_RET_OK)) then fail tm k else
  let! (ret, tm, k) := _register_transitions tm k in
  if negb (bool_decide (ret = RCL_RET_OK)) then fail tm k else
  Ok (ret, mkMachine (rcl_lifecycle_get_state tm PRIMARY_STATE_UNCONFIGURED) tm (com_interface sm) (options sm), k).

(** [com] is the communication interface that could be set up, and
    [com_fini] what finalising one returns and leaves. *)
Definition rcl_lifecycle_state_machine_fini
    (com_fini : rcl_lifecycle_com_interface_t -> rcl_ret_t * rcl_lifecycle_com_interface_t)
    (sm : rcl_lifecycle_state_machine_t) : rcl_ret_t * rcl_lifecycle_state_machine_t :=
  let '(com_ret, com) := com_fini (com_interface sm) in
  let '(map_ret, tm) := rcl_lifecycle_transition_map_fini (transition_map sm) in
  (if bool_decide (com_ret = RCL_RET_OK) && bool_decide (map_ret = RCL_RET_OK) then RCL_RET_OK else RCL_RET_ERROR,
   mkMachine (current_state sm) tm com (options sm)).

Definition rcl_lifecycle_state_machine_init
    (com_init : rcl_lifecycle_com_interface_t -> rcl_ret_t * rcl_lifecycle_com_interface_t)
    (com_publisher_init : rcl_lifecycle_com_interface_t -> rcl_ret_t * rcl_lifecycle_com_interface_t)
    (com_fini : rcl_lifecycle_com_interface_t -> rcl_ret_t * rcl_lifecycle_com_interface_t)
    (sm : rcl_lifecycle_state_machine_t) (opts : rcl_lifecycle_state_machine_options_t) (k : nat)
    : Result lc_error (rcl_ret_t * rcl_lifecycle_state_machine_t * nat) :=
  let '(ret, com) :=
    (if enable_com_interface opts then com_init else com_publisher_init) (com_interface sm) in
  let sm := mkMachine (current_state sm) (transition_map sm) com opts in
  if negb (bool_decide (ret = RCL_RET_OK)) then Ok (RCL_RET_ERROR, sm, k) else
  if initialize_default_states opts then
    let! (ret, sm, k) := rcl_lifecycle_init_default_state_machine sm k in
    if negb (bool_decide (ret = RCL_RET_OK)) then
      Ok (RCL_RET_ERROR, (rcl_lifecycle_state_machine_fini com_fini sm).2, k)
    else Ok (RCL_RET_OK, sm, k)
  else Ok (RCL_RET_OK, sm, k).
End Allocator.

Definition rcl_lifecycle_state_machine_is_initialized (sm : rcl_lifecycle_state_machine_t) : rcl_ret_t :=
  if enable_com_interface (options sm) && negb (srv_get_state (com_interface sm)) then RCL_RET_INVALID_ARGUMENT else
  if enable_com_interface (options sm) && negb (srv_change_state (com_interface sm)) then RCL_RET_INVALID_ARGUMENT else
  if negb (bool_decide (rcl_lifecycle_transition_map_is_initialized (transition_map sm) = RCL_RET_OK))
  then RCL_RET_INVALID_ARGUMENT
  else RCL_RET_OK.

Definition rcl_lifecycle_get_transition_by_id (state : rcl_lifecycle_state_t) (id : Z)
    : option rcl_lifecycle_transition_t :=
  List.find (fun t => tr_id t =? id) (valid_transitions state).

Definition rcl_lifecycle_get_transition_by_label (state : rcl_lifecycle_state_t) (label : string)
    : option rcl_lifecycle_transition_t :=
  List.find (fun t => (tr_label t =? label)%string) (valid_transitions state).

(** [lifecycle_msgs/msg/TransitionEvent]; identifiers are [uint8] there. *)
Record TransitionEvent := mkEvent {
  start_id : Z; start_label : string;
  goal_id : Z; goal_label : string;
}.

Section World.
(** [W] is the state of everything outside the machine, and [rcl_publish]
    sends a message, or fails to. *)
Context {W : Type} (rcl_publish : TransitionEvent -> W -> bool * W).

Definition rcl_lifecycle_com_interface_publish_notification (start goal : rcl_lifecycle_state_t) (w : W)
    : bool * W :=
  rcl_publish (mkEvent (wrap_u 8 (st_id start)) (st_label start) (wrap_u 8 (st_id goal)) (st_label goal)) w.

Definition _trigger_transition (sm : rcl_lifecycle_state_machine_t) (transition : option rcl_lifecycle_transition_t)
    (publish_notification : bool) (w : W) : Result lc_error (rcl_ret_t * rcl_lifecycle_state_machine_t * W) :=
  match transition with
  | None => Ok (RCL_RET_INVALID_ARGUMENT, sm, w)
  | Some t =>
    match goal t with
    | None => Ok (RCL_RET_INVALID_ARGUMENT, sm, w)
    | Some g =>
      let sm := mkMachine (Some g) (transition_map sm) (com_interface sm) (options sm) in
      if publish_notification then
        let! s := deref_state (transition_map sm) (start t) in
        let! g := deref_state (transition_map sm) (current_state sm) in
        let '(sent, w) := rcl_lifecycle_com_interface_publish_notification s g w in
        Ok (if sent then RCL_RET_OK else RCL_RET_ERROR, sm, w)
      else Ok (RCL_RET_OK, sm, w)
    end
  end.

(** A machine without a current state offers no transition. *)
Definition current_transition (find : rcl_lifecycle_state_t -> option rcl_lifecycle_transition_t)
    (sm : rcl_lifecycle_state_machine_t) : Result lc_error (option rcl_lifecycle_transition_t) :=
  match current_state sm with
  | None => Ok None
  | Some p => let! s := deref_state (transition_map sm) (Some p) in Ok (find s)
  end.

Definition rcl_lifecycle_trigger_transition_by_id (sm : rcl_lifecycle_state_machine_t) (id : Z)
    (publish_notification : bool) (w : W) : Result lc_error (rcl_ret_t * rcl_lifecycle_state_machine_t * W) :=
  let! t := current_transition (fun s => rcl_lifecycle_get_transition_by_id s id) sm in
  _trigger_transition sm t publish_notification w.

Definition rcl_lifecycle_trigger_transition_by_label (sm : rcl_lifecycle_state_machine_t) (label : string)
    (publish_notification : bool) (w : W) : Result lc_error (rcl_ret_t * rcl_lifecycle_state_machine_t * W) :=
  let! t := current_transition (fun s => rcl_lifecycle_get_transition_by_label s label) sm in
  _trigger_transition sm t publish_notification w.
End World.

(** ** Looking up states *)

Lemma find_index_Some l id i :
  find_index l id = Some i -> exists s, l !! i = Some s /\ st_id s = id.
Proof.
  revert i. induction l as [|s l IH]; intros i; [done|]. cbn [find_index].
  destruct (Z.eqb_spec (st_id s) id) as [Hs|Hs].
  - intros [= <-]. by exists s.
  - destruct (find_index l id) as [j|]; intros [= <-]. by apply IH.
Qed.

Lemma find_index_None l id : find_index l id = None <-> id ∉ st_id <$> l.
Proof.
  induction l as [|s l IH]; cbn [find_index].
  - split; [intros _ H; inversion H | done].
  - rewrite fmap_cons, not_elem_of_cons.
    destruct (Z.eqb_spec (st_id s) id) as [Hs|Hs].
    + split; [done | intros [H _]; congruence].
    + destruct (find_index l id) as [j|] eqn:E; cbn.
      * split; [done|]. intros [_ H]. by apply IH in H.
      * split; [|done]. intros _. split; [congruence | by apply IH].
Qed.

Lemma find_index_lookup l i s :
  NoDup (st_id <$> l) -> l !! i = Some s -> find_index l (st_id s) = Some i.
Proof.
  intros Hnd Hi. destruct (find_index l (st_id s)) as [j|] eqn:E.
  - apply find_index_Some in E as (s' & Hj & Hid). f_equal.
    apply (NoDup_lookup (st_id <$> l) j i (st_id s)); [done| |].
    + by rewrite list_lookup_fmap, Hj, <- Hid.
    + by rewrite list_lookup_fmap, Hi.
  - apply find_index_None in E. destruct E. apply list_elem_of_fmap_2.
    by apply list_elem_of_lookup_2 in Hi.
Qed.

Lemma deref_Ok tm p s :
  deref_state tm p = Ok s <->
  exists i, p = Some (mkStatePtr (states_block tm) i) /\ states tm !! i = Some s.
Proof.
  unfold deref_state. destruct p as [[b i]|]; cbn [block index].
  - destruct (Nat.eqb_spec b (states_block tm)) as [->|Hb].
    + destruct (states tm !! i) as [s'|] eqn:E.
      * split; [intros [= ->]; by exists i | intros (j & [= <-] & Hj); congruence].
      * split; [done | intros (j & [= <-] & Hj); congruence].
    + split; [done | intros (j & [= -> <-] & _); done].
  - split; [done | intros (i & ? & _); done].
Qed.

(** ** Well-formed maps

    The states have different identifiers, every transition starts and ends
    at a state of the map, and the transitions of a state are transitions of
    the map that start there. *)

Definition valid_ptr (tm : rcl_lifecycle_transition_map_t) (p : option StatePtr) : Prop :=
  exists s, deref_state tm p = Ok s.

Record wf_map (tm : rcl_lifecycle_transition_map_t) : Prop := mkWf {
  wf_ids : NoDup (st_id <$> states tm);
  wf_ends : forall t, t ∈ transitions tm -> valid_ptr tm (start t) /\ valid_ptr tm (goal t);
  wf_starts : forall i s t, states tm !! i = Some s -> t ∈ valid_transitions s ->
    t ∈ transitions tm /\ start t = Some (mkStatePtr (states_block tm) i);
}.

Lemma get_state_valid tm id p :
  rcl_lifecycle_get_state tm id = Some p -> exists s, deref_state tm (Some p) = Ok s /\ st_id s = id.
Proof.
  unfold rcl_lifecycle_get_state. intros (i & Hi & ->)%fmap_Some.
  apply find_index_Some in Hi as (s & Hs & Hid). exists s. split; [|done].
  apply deref_Ok. by exists i.
Qed.

Lemma get_state_deref tm p s :
  wf_map tm -> deref_state tm p = Ok s -> rcl_lifecycle_get_state tm (st_id s) = p.
Proof.
  intros Hwf (i & -> & Hi)%deref_Ok. unfold rcl_lifecycle_get_state.
  by rewrite (find_index_lookup _ i s (wf_ids _ Hwf) Hi).
Qed.

Lemma alter_add_lookup tm t i j s :
  alter (add_transition t) i (states tm) !! j = Some s ->
  exists s', states tm !! j = Some s' /\ s = (if (i =? j)%nat then add_transition t s' else s').
Proof.
  destruct (Nat.eqb_spec i j) as [->|Hn].
  - rewrite list_lookup_alter_eq. intros (s' & -> & Hs)%fmap_Some. by exists s'.
  - rewrite list_lookup_alter_ne by done. by exists s.
Qed.

Lemma alter_add_ids t i (l : list rcl_lifecycle_state_t) : st_id <$> alter (add_transition t) i l = st_id <$> l.
Proof.
  revert i. induction l as [|s l IH]; intros [|i]; try done.
  change (alter (add_transition t) (S i) (s :: l)) with (s :: alter (add_transition t) i l).
  by rewrite !fmap_cons, IH.
Qed.

(** What a pointer refers to depends on the array, not on the transitions. *)
Lemma valid_ptr_iff tm p :
  valid_ptr tm p <-> exists i, p = Some (mkStatePtr (states_block tm) i) /\ (i < length (states tm))%nat.
Proof.
  unfold valid_ptr. setoid_rewrite deref_Ok. split.
  - intros (s & i & -> & Hi). exists i. split; [done|]. by apply lookup_lt_Some in Hi.
  - intros (i & -> & [s Hs]%lookup_lt_is_Some). by exists s, i.
Qed.

Lemma valid_ptr_same tm tm' p :
  states_block tm' = states_block tm -> length (states tm') = length (states tm) ->
  valid_ptr tm' p <-> valid_ptr tm p.
Proof. intros Hb Hl. by rewrite !valid_ptr_iff, Hb, Hl. Qed.

Lemma valid_ends_same tm tm' t :
  states_block tm' = states_block tm -> length (states tm') = length (states tm) ->
  valid_ptr tm (start t) /\ valid_ptr tm (goal t) -> valid_ptr tm' (start t) /\ valid_ptr tm' (goal t).
Proof. intros Hb Hl [Hs Hg]. by split; apply (valid_ptr_same tm tm'). Qed.

Section Register.
Context (refuse : nat -> bool).

(** A state can be added as long as no transition is registered. *)
Lemma register_state_wf tm s k ret tm' k' :
  wf_map tm -> transitions tm = [] -> valid_transitions s = [] ->
  rcl_lifecycle_register_state refuse tm s k = (ret, tm', k') ->
  wf_map tm' /\ transitions tm' = [].
Proof.
  intros Hwf Ht Hs. unfold rcl_lifecycle_register_state, rcl_lifecycle_get_state.
  destruct (find_index _ _) as [i|] eqn:E; cbn; [by intros [= <- <- <-]|].
  destruct (refuse k); intros [= <- <- <-]; [done|]. split; [|done].
  assert (Hnone : forall i s', states tm !! i = Some s' -> valid_transitions s' = []).
  { intros i s' Hi. destruct (valid_transitions s') as [|t l] eqn:Ev; [done|].
    destruct (wf_starts tm Hwf i s' t Hi) as [Hin _]; [rewrite Ev; left|].
    rewrite Ht in Hin. inversion Hin. }
  split; cbn.
  - rewrite fmap_app, NoDup_app. repeat split; [apply Hwf| |apply NoDup_singleton].
    intros id Hid ->%list_elem_of_singleton. by apply find_index_None in E.
  - rewrite Ht. intros t H. inversion H.
  - intros i s' t [Hi|[Hl Hi]]%lookup_app_Some Hin.
    + rewrite (Hnone _ _ Hi) in Hin. inversion Hin.
    + destruct (i - length (states tm))%nat; cbn in Hi; [|done].
      injection Hi as <-. rewrite Hs in Hin. inversion Hin.
Qed.

Lemma register_transition_cases tm t k :
  wf_map tm -> valid_ptr tm (start t) -> valid_ptr tm (goal t) ->
  exists ret tm' k', rcl_lifecycle_register_transition refuse tm t k = Ok (ret, tm', k') /\
  ((ret = RCL_RET_BAD_ALLOC /\
    (tm' = tm \/ tm' = mkMap (states_block tm) (states tm) (transitions tm ++ [t]))) \/
   (ret = RCL_RET_OK /\ exists i, start t = Some (mkStatePtr (states_block tm) i) /\
    tm' = mkMap (states_block tm) (alter (add_transition t) i (states tm)) (transitions tm ++ [t]))).
Proof.
  intros Hwf [s Hs] [g Hg]. unfold rcl_lifecycle_register_transition. rewrite Hs, Hg. cbn [rbind].
  rewrite (get_state_deref _ _ _ Hwf Hs), (get_state_deref _ _ _ Hwf Hg).
  apply deref_Ok in Hs as (i & -> & _). apply deref_Ok in Hg as (j & -> & _). cbn.
  destruct (refuse k); cbn; [eauto 10|]. destruct (refuse (S k)); cbn; eauto 12.
Qed.

Lemma add_transition_wf tm t :
  wf_map tm -> valid_ptr tm (start t) -> valid_ptr tm (goal t) ->
  wf_map (mkMap (states_block tm) (states tm) (transitions tm ++ [t])).
Proof.
  intros [Hid He Hst] Hs Hg. split; cbn; [done| |].
  - intros t' [Ht|Ht]%elem_of_app.
    + by apply (valid_ends_same tm), He.
    + apply list_elem_of_singleton in Ht as ->. by apply (valid_ends_same tm).
  - intros i s t' Hi Ht'. destruct (Hst i s t' Hi Ht') as [H1 H2]. rewrite elem_of_app. auto.
Qed.

Lemma register_transition_wf tm t k ret tm' k' :
  wf_map tm -> valid_ptr tm (start t) -> valid_ptr tm (goal t) ->
  rcl_lifecycle_register_transition refuse tm t k = Ok (ret, tm', k') ->
  wf_map tm' /\ states_block tm' = states_block tm /\ length (states tm') = length (states tm).
Proof.
  intros Hwf Hs Hg Hr. pose proof (add_transition_wf tm t Hwf Hs Hg) as [Hid He Hst].
  destruct (register_transition_cases tm t k Hwf Hs Hg) as (ret' & tm'' & k'' & E & Hc).
  rewrite Hr in E. injection E as -> -> ->.
  destruct Hc as [(-> & [-> | ->])|(-> & i & Hi & ->)]; [done|by split|].
  split; [|cbn; by rewrite length_alter]. split; cbn in *.
  - by rewrite alter_add_ids.
  - intros t' Ht'. eapply valid_ends_same; [| |by apply He]; cbn; by rewrite ?length_alter.
  - intros j s t' (s' & Hj & ->)%alter_add_lookup Ht'.
    destruct (Nat.eqb_spec i j) as [->|Hn]; [|by apply (Hst j s' t')].
    cbn in Ht'. apply elem_of_app in Ht' as [Ht'|Ht']; [by apply (Hst j s' t')|].
    apply list_elem_of_singleton in Ht' as ->. split; [|done]. apply elem_of_app. right. left.
Qed.

Lemma register_states_wf l tm k ret tm' k' :
  wf_map tm -> transitions tm = [] -> Forall (fun s => valid_transitions s = []) l ->
  register_states refuse l tm k = (ret, tm', k') -> wf_map tm' /\ transitions tm' = [].
Proof.
  intros Hwf Ht Hl. revert tm k Hwf Ht. induction Hl as [|s l Hs _ IH]; cbn; intros tm k Hwf Ht.
  - by intros [= <- <- <-].
  - destruct (rcl_lifecycle_register_state refuse tm s k) as [[ret1 tm1] k1] eqn:E.
    destruct (register_state_wf _ _ _ _ _ _ Hwf Ht Hs E) as [Hwf1 Ht1].
    case_bool_decide; [by apply IH | by intros [= <- <- <-]].
Qed.

Lemma register_transitions_wf l tm k :
  wf_map tm -> Forall (fun t => valid_ptr tm (start t) /\ valid_ptr tm (goal t)) l ->
  exists ret tm' k', register_transitions refuse l tm k = Ok (ret, tm', k') /\ wf_map tm'.
Proof.
  revert tm k. induction l as [|t l IH]; intros tm k Hwf Hl; cbn [register_transitions]; [eauto|].
  apply Forall_cons in Hl as [[Hs Hg] Hl].
  destruct (register_transition_cases tm t k Hwf Hs Hg) as (ret & tm' & k' & E & _).
  destruct (register_transition_wf _ _ _ _ _ _ Hwf Hs Hg E) as (Hwf' & Hb & Hn).
  rewrite E. cbn [rbind]. case_bool_decide; [|eauto].
  apply IH; [done|]. eapply Forall_impl; [exact Hl|]. intros t' Ht'.
  by apply (valid_ends_same tm).
Qed.
End Register.

(** ** Registration and the allocator

    A registration succeeds when none of the allocations it makes is
    refused, and then its result is the one without refusals. *)

Abbreviation grant := (fun _ : nat => false).

Section Refusals.
Context (refuse : nat -> bool).

Definition granted (k n : nat) : Prop := forall i, (k <= i < k + n)%nat -> refuse i = false.

Lemma granted_split k n m : granted k (n + m) <-> granted k n /\ granted (k + n) m.
Proof.
  unfold granted. split.
  - intros H. split; intros i Hi; apply H; lia.
  - intros [H1 H2] i Hi. destruct (decide (i < k + n)%nat); [apply H1; lia | apply H2; lia].
Qed.

Lemma register_state_granted tm s k :
  refuse k = false -> rcl_lifecycle_register_state refuse tm s k = rcl_lifecycle_register_state grant tm s k.
Proof. intros H. unfold rcl_lifecycle_register_state, reallocate. by rewrite H. Qed.

Lemma register_state_OK tm s k tm' k' :
  rcl_lifecycle_register_state refuse tm s k = (RCL_RET_OK, tm', k') -> refuse k = false /\ k' = S k.
Proof.
  unfold rcl_lifecycle_register_state. destruct (rcl_lifecycle_get_state _ _); [done|]. cbn.
  destruct (refuse k); [done|]. by intros [= _ <-].
Qed.

Lemma register_transition_granted tm t k :
  granted k 2 ->
  rcl_lifecycle_register_transition refuse tm t k = rcl_lifecycle_register_transition grant tm t k.
Proof.
  intros H. unfold rcl_lifecycle_register_transition. cbn [reallocate].
  by rewrite (H k), (H (S k)) by lia.
Qed.

Lemma register_transition_OK tm t k tm' k' :
  rcl_lifecycle_register_transition refuse tm t k = Ok (RCL_RET_OK, tm', k') ->
  granted k 2 /\ k' = (k + 2)%nat.
Proof.
  unfold rcl_lifecycle_register_transition.
  destruct (deref_state _ _) as [s|]; [|done]. cbn [rbind].
  destruct (rcl_lifecycle_get_state _ _); [|done]. destruct (deref_state _ _); [|done]. cbn [rbind].
  destruct (rcl_lifecycle_get_state _ _); [|done]. cbn [reallocate].
  destruct (refuse k) eqn:E1; [done|]. destruct (refuse (S k)) eqn:E2; [done|].
  intros [= _ <-]. split; [|lia]. intros i Hi.
  assert (i = k \/ i = S k) as [-> | ->] by lia; done.
Qed.

Lemma register_states_OK l tm k tm' k' :
  register_states refuse l tm k = (RCL_RET_OK, tm', k') ->
  granted k (length l) /\ k' = (k + length l)%nat.
Proof.
  revert tm k. induction l as [|s l IH]; cbn [register_states length]; intros tm k.
  - intros [= <- <-]. split; [intros i Hi|]; lia.
  - destruct (rcl_lifecycle_register_state refuse tm s k) as [[ret1 tm1] k1] eqn:E.
    case_bool_decide as Hr; [|intros [= -> <- <-]; done]. subst ret1.
    apply register_state_OK in E as [Hk ->]. intros [Hg ->]%IH. split; [|lia].
    intros i Hi. destruct (decide (i = k)) as [->|]; [done|]. apply Hg. lia.
Qed.

Lemma register_transitions_OK l tm k tm' k' :
  register_transitions refuse l tm k = Ok (RCL_RET_OK, tm', k') ->
  granted k (2 * length l) /\ k' = (k + 2 * length l)%nat.
Proof.
  revert tm k. induction l as [|t l IH]; cbn [register_transitions length]; intros tm k.
  - intros [= <- <-]. split; [intros i Hi|]; lia.
  - destruct (rcl_lifecycle_register_transition refuse tm t k) as [[[ret1 tm1] k1]|] eqn:E; [|done].
    cbn [rbind]. case_bool_decide as Hr; [|intros [= -> <- <-]; done]. subst ret1.
    apply register_transition_OK in E as [Hk ->]. intros [Hg ->]%IH. split; [|lia].
    replace (2 * S (length l))%nat with (2 + 2 * length l)%nat by lia.
    by apply granted_split.
Qed.

Lemma register_states_granted l tm k :
  granted k (length l) -> register_states refuse l tm k = register_states grant l tm k.
Proof.
  revert tm k. induction l as [|s l IH]; intros tm k H; [done|]. cbn [register_states].
  rewrite register_state_granted by (apply H; cbn; lia).
  destruct (rcl_lifecycle_register_state grant tm s k) as [[ret tm1] k1] eqn:E.
  case_bool_decide as Hr; [|done]. subst ret.
  apply IH. intros i Hi. apply H.
  revert E. unfold rcl_lifecycle_register_state. destruct (rcl_lifecycle_get_state _ _); [done|].
  cbn. intros [= _ <-]. lia.
Qed.
End Refusals.

Lemma register_transitions_granted refuse l tm k :
  granted refuse k (2 * length l) ->
  register_transitions refuse l tm k = register_transitions grant l tm k.
Proof.
  revert tm k. induction l as [|t l IH]; intros tm k H; [done|]. cbn [register_transitions].
  replace (2 * length (t :: l))%nat with (2 + 2 * length l)%nat in H by (cbn; lia).
  apply granted_split in H as [H2 H].
  rewrite register_transition_granted by done.
  destruct (rcl_lifecycle_register_transition grant tm t k) as [[[ret tm1] k1]|] eqn:E; [|done].
  cbn [rbind]. case_bool_decide as Hr; [|done]. subst ret.
  apply register_transition_OK in E as [_ ->]. by apply IH.
Qed.

(** ** Building the default machine *)

(** The maps after the primary states, the transition states and the
    transitions are registered. *)
Definition primaries_map : rcl_lifecycle_transition_map_t :=
  Eval vm_compute in
    (_register_primary_states grant rcl_lifecycle_get_zero_initialized_transition_map 0).1.2.

Definition states_map : rcl_lifecycle_transition_map_t :=
  Eval vm_compute in (_register_transition_states grant primaries_map 5).1.2.

Definition default_map : rcl_lifecycle_transition_map_t :=
  Eval vm_compute in
    match _register_transitions grant states_map 11 with
    | Ok (_, tm, _) => tm
    | Throw _ => rcl_lifecycle_get_zero_initialized_transition_map
    end.

Definition default_machine (com : rcl_lifecycle_com_interface_t) (opts : rcl_lifecycle_state_machine_options_t)
    : rcl_lifecycle_state_machine_t :=
  mkMachine (rcl_lifecycle_get_state default_map PRIMARY_STATE_UNCONFIGURED) default_map com opts.

(** A machine on which nothing was registered yet. *)
Definition blank_machine (com : rcl_lifecycle_com_interface_t) (opts : rcl_lifecycle_state_machine_options_t)
    : rcl_lifecycle_state_machine_t :=
  mkMachine None rcl_lifecycle_get_zero_initialized_transition_map com opts.

Lemma empty_map_wf b : wf_map (mkMap b [] []).
Proof. split; [apply NoDup_nil_2 | intros t H; inversion H | intros i s t H; done]. Qed.

Lemma primaries_step :
  _register_primary_states grant rcl_lifecycle_get_zero_initialized_transition_map 0 =
  (RCL_RET_OK, primaries_map, 5%nat).
Proof. vm_compute. done. Qed.

Lemma states_step : _register_transition_states grant primaries_map 5 = (RCL_RET_OK, states_map, 11%nat).
Proof. vm_compute. done. Qed.

Lemma transitions_step : _register_transitions grant states_map 11 = Ok (RCL_RET_OK, default_map, 61%nat).
Proof. vm_compute. done. Qed.

Lemma primaries_map_wf : wf_map primaries_map /\ transitions primaries_map = [].
Proof.
  apply (register_states_wf grant primary_states _ 0 RCL_RET_OK _ 5 (empty_map_wf 0) eq_refl); [|apply primaries_step].
  repeat constructor.
Qed.

Lemma states_map_wf : wf_map states_map /\ transitions states_map = [].
Proof.
  destruct primaries_map_wf as [Hw Ht].
  apply (register_states_wf grant transition_states _ 5 RCL_RET_OK _ 11 Hw Ht); [|apply states_step].
  repeat constructor.
Qed.

Lemma default_transitions_valid :
  Forall (fun t => valid_ptr states_map (start t) /\ valid_ptr states_map (goal t)) (default_transitions states_map).
Proof. repeat constructor; by eexists. Qed.

Lemma default_map_wf : wf_map default_map.
Proof.
  destruct (register_transitions_wf grant _ _ 11 (proj1 states_map_wf) default_transitions_valid)
    as (ret & tm & k & E & Hw).
  fold (_register_transitions grant states_map 11) in E. rewrite transitions_step in E.
  by injection E as <- <- <-.
Qed.

Section Init.
Context (refuse : nat -> bool).

Lemma primaries_outcome :
  exists ret tm k,
    _register_primary_states refuse rcl_lifecycle_get_zero_initialized_transition_map 0 = (ret, tm, k) /\
    ((ret = RCL_RET_OK /\ tm = primaries_map /\ k = 5%nat /\ granted refuse 0 5) \/
     (ret <> RCL_RET_OK /\ ~ granted refuse 0 5)).
Proof.
  destruct (_register_primary_states refuse _ 0) as [[ret tm] k] eqn:E. exists ret, tm, k. split; [done|].
  pose proof (register_states_granted refuse primary_states rcl_lifecycle_get_zero_initialized_transition_map 0) as Hg.
  fold (_register_primary_states refuse) (_register_primary_states grant) in Hg.
  rewrite primaries_step, E in Hg.
  destruct (decide (ret = RCL_RET_OK)) as [->|Hn].
  - left. destruct (register_states_OK _ _ _ _ _ _ E) as [H _]. specialize (Hg H). by injection Hg as -> ->.
  - right. split; [done|]. intros H. specialize (Hg H). by injection Hg as ->.
Qed.

Lemma states_outcome :
  exists ret tm k, _register_transition_states refuse primaries_map 5 = (ret, tm, k) /\
    ((ret = RCL_RET_OK /\ tm = states_map /\ k = 11%nat /\ granted refuse 5 6) \/
     (ret <> RCL_RET_OK /\ ~ granted refuse 5 6)).
Proof.
  destruct (_register_transition_states refuse _ 5) as [[ret tm] k] eqn:E. exists ret, tm, k. split; [done|].
  pose proof (register_states_granted refuse transition_states primaries_map 5) as Hg.
  fold (_register_transition_states refuse) (_register_transition_states grant) in Hg.
  rewrite states_step, E in Hg.
  destruct (decide (ret = RCL_RET_OK)) as [->|Hn].
  - left. destruct (register_states_OK _ _ _ _ _ _ E) as [H _]. specialize (Hg H). by injection Hg as -> ->.
  - right. split; [done|]. intros H. specialize (Hg H). by injection Hg as ->.
Qed.

Lemma transitions_outcome :
  exists ret tm k, _register_transitions refuse states_map 11 = Ok (ret, tm, k) /\
    ((ret = RCL_RET_OK /\ tm = default_map /\ k = 61%nat /\ granted refuse 11 50) \/
     (ret <> RCL_RET_OK /\ ~ granted refuse 11 50)).
Proof.
  destruct (register_transitions_wf refuse _ _ 11 (proj1 states_map_wf) default_transitions_valid)
    as (ret & tm & k & E & _).
  exists ret, tm, k. split; [done|].
  pose proof (register_transitions_granted refuse (default_transitions states_map) states_map 11) as Hg.
  fold (_register_transitions grant states_map 11) in Hg. rewrite transitions_step, E in Hg.
  destruct (decide (ret = RCL_RET_OK)) as [->|Hn].
  - left. destruct (register_transitions_OK _ _ _ _ _ _ E) as [H _]. specialize (Hg H). by injection Hg as -> ->.
  - right. split; [done|]. intros H. specialize (Hg H). by injection Hg as ->.
Qed.

(** [rcl_lifecycle_init_default_state_machine] on an empty map never
    follows an invalid pointer, although the array of states moves while it
    is built and the allocator may refuse any request.  It succeeds exactly
    when none of its 61 allocations is refused; the machine is then the one
    of the design, in [unconfigured].  Otherwise it returns
    [RCL_RET_ERROR], leaves no current state and an empty map. *)
Theorem init_default_state_machine_spec com opts :
  exists ret sm k,
    rcl_lifecycle_init_default_state_machine refuse (blank_machine com opts) 0 = Ok (ret, sm, k) /\
    wf_map (transition_map sm) /\
    ((ret = RCL_RET_OK /\ (forall i, (i < 61)%nat -> refuse i = false) /\ sm = default_machine com opts) \/
     (ret = RCL_RET_ERROR /\ (exists i, (i < 61)%nat /\ refuse i = true) /\
      current_state sm = None /\ states (transition_map sm) = [] /\ transitions (transition_map sm) = [])).
Proof.
  assert (Hfail : forall k n, (k + n <= 61)%nat -> ~ granted refuse k n -> exists i, (i < 61)%nat /\ refuse i = true).
  { intros k n Hkn Hn. destruct (decide (Exists (fun i => refuse i = true) (seq k n))) as [He|He].
    - apply Exists_exists in He as (i & Hi%elem_of_seq & Ht). exists i. split; [lia|done].
    - destruct Hn. intros i Hi. apply not_true_is_false. intros Ht. apply He, Exists_exists.
      exists i. split; [by apply elem_of_seq|done]. }
  unfold rcl_lifecycle_init_default_state_machine. cbn [transition_map blank_machine].
  destruct primaries_outcome as (r1 & tm1 & k1 & -> & [(-> & -> & -> & G1)|[Hr Hn]]); cbn [negb bool_decide].
  2: { rewrite bool_decide_eq_false_2 by done. cbn. do 3 eexists. split; [done|].
       split; [apply empty_map_wf|]. right. repeat split; by eapply (Hfail 0 5)%nat; [lia|]. }
  rewrite bool_decide_eq_true_2 by done. cbn [negb].
  destruct states_outcome as (r2 & tm2 & k2 & -> & [(-> & -> & -> & G2)|[Hr Hn]]).
  2: { rewrite bool_decide_eq_false_2 by done. cbn. do 3 eexists. split; [done|].
       split; [apply empty_map_wf|]. right. repeat split; by eapply (Hfail 5 6)%nat; [lia|]. }
  rewrite bool_decide_eq_true_2 by done. cbn [negb].
  destruct transitions_outcome as (r3 & tm3 & k3 & -> & [(-> & -> & -> & G3)|[Hr Hn]]); cbn [rbind].
  2: { rewrite bool_decide_eq_false_2 by done. cbn. do 3 eexists. split; [done|].
       split; [apply empty_map_wf|]. right. repeat split; by eapply (Hfail 11 50)%nat; [lia|]. }
  do 3 eexists. split; [done|]. split; [apply default_map_wf|]. left. repeat split.
  intros i Hi. assert (H : granted refuse 0 (5 + (6 + 50))) by (rewrite !granted_split; done).
  apply H. lia.
Qed.
End Init.

(** The order matters: a state that is registered when transitions exist
    moves the array they point into.  [k] numbers a new allocation. *)
Lemma register_state_late refuse tm s k tm' k' t :
  wf_map tm -> t ∈ transitions tm -> k <> states_block tm ->
  rcl_lifecycle_register_state refuse tm s k = (RCL_RET_OK, tm', k') ->
  t ∈ transitions tm' /\ deref_state tm' (start t) = Throw DanglingPointer.
Proof.
  intros Hwf Ht Hk. destruct (wf_ends tm Hwf t Ht) as [[st (i & Hs & _)%deref_Ok] _].
  unfold rcl_lifecycle_register_state. destruct (rcl_lifecycle_get_state _ _); [done|]. cbn.
  destruct (refuse k); [done|]. intros [= <- <-]. split; [done|].
  rewrite Hs. cbn. by rewrite (proj2 (Nat.eqb_neq _ _)) by congruence.
Qed.

(** A refused second allocation reports failure but leaves the transition in
    the list of the map, which no state offers. *)
Lemma register_transition_half tm t k :
  wf_map tm -> valid_ptr tm (start t) -> valid_ptr tm (goal t) ->
  rcl_lifecycle_register_transition (fun i => (i =? S k)%nat) tm t k =
  Ok (RCL_RET_BAD_ALLOC, mkMap (states_block tm) (states tm) (transitions tm ++ [t]), S (S k)).
Proof.
  intros Hwf [s Hs] [g Hg]. unfold rcl_lifecycle_register_transition. rewrite Hs, Hg. cbn [rbind].
  rewrite (get_state_deref _ _ _ Hwf Hs), (get_state_deref _ _ _ Hwf Hg).
  apply deref_Ok in Hs as (i & -> & _). apply deref_Ok in Hg as (j & -> & _).
  cbn [reallocate]. rewrite (proj2 (Nat.eqb_neq k (S k))) by lia. by rewrite Nat.eqb_refl.
Qed.
