(* ===== verification/LifecycleNode.v ===== *)
(** * Managed nodes

    [rclcpp_lifecycle/src/lifecycle_node_interface_impl.cpp]: a node around a
    lifecycle machine, whose transitions run callbacks of the user, and the
    services that inspect and drive it from outside.

    Outside the node is a state [W], which the user's callbacks and
    [rcl_publish] may change.  A callback returns a code or ends with an
    exception; it does not itself ask for a transition of the same node.
    Each critical section of the code is a part of one step: requests come
    one after the other.  [State] objects do not own the state they denote;
    they are pointers into the map of the machine. *)

From Stdlib Require Import ZArith Lia String.
From stdpp Require Import base numbers list strings gmap.
From S2P Require Import Prelude TypeHash RclTypes Lifecycle.
#[local] Open Scope Z_scope.

Inductive CallbackReturn := SUCCESS | FAILURE | ERROR.

#[export] Instance callback_return_eq_dec : EqDecision CallbackReturn.
Proof. solve_decision. Defined.

Section Node.
Context {W : Type} (rcl_publish : TransitionEvent -> W -> bool * W).

(** [None] for an exception. *)
Definition Callback : Type := StatePtr -> W -> option CallbackReturn * W.

Record LifecycleNodeInterfaceImpl := mkNode {
  state_machine_ : rcl_lifecycle_state_machine_t;
  current_state_ : option StatePtr;
  cb_map_ : gmap Z Callback;
}.

(** The constructor of [State] from a pointer. *)
Definition State (p : option StatePtr) : Result lc_error StatePtr :=
  match p with
  | None => Throw RuntimeError
  | Some p => Ok p
  end.

(** [opts] are the default options but for the communication interface. *)
Definition init (refuse : nat -> bool)
    (com_init com_publisher_init com_fini : rcl_lifecycle_com_interface_t -> rcl_ret_t * rcl_lifecycle_com_interface_t)
    (cbs : gmap Z Callback) (enable_communication_interface : bool)
    : Result lc_error LifecycleNodeInterfaceImpl :=
  let! (ret, sm, _) :=
    rcl_lifecycle_state_machine_init refuse com_init com_publisher_init com_fini
      rcl_lifecycle_get_zero_initialized_state_machine
      (mkOptions (initialize_default_states rcl_lifecycle_get_default_state_machine_options)
        enable_communication_interface) 0 in
  if negb (bool_decide (ret = RCL_RET_OK)) then Throw RuntimeError else
  let! s := State (current_state sm) in
  Ok (mkNode sm (Some s) cbs).

Definition register_callback (n : LifecycleNodeInterfaceImpl) (lifecycle_transition : Z) (cb : Callback)
    : bool * LifecycleNodeInterfaceImpl :=
  (true, mkNode (state_machine_ n) (current_state_ n) (<[lifecycle_transition := cb]> (cb_map_ n))).

Definition initialized (n : LifecycleNodeInterfaceImpl) : bool :=
  bool_decide (rcl_lifecycle_state_machine_is_initialized (state_machine_ n) = RCL_RET_OK).

Definition node_map (n : LifecycleNodeInterfaceImpl) : rcl_lifecycle_transition_map_t :=
  transition_map (state_machine_ n).

(** [state_machine_.current_state], dereferenced *)
Definition machine_state (n : LifecycleNodeInterfaceImpl) : Result lc_error rcl_lifecycle_state_t :=
  deref_state (node_map n) (current_state (state_machine_ n)).

Definition execute_callback (n : LifecycleNodeInterfaceImpl) (cb_id : Z) (previous_state : StatePtr) (w : W)
    : CallbackReturn * W :=
  match cb_map_ n !! wrap_u 8 cb_id with
  | None => (SUCCESS, w)
  | Some callback =>
    let '(r, w) := callback previous_state w in
    (default ERROR r, w)
  end.

Definition get_label_for_return_code (cb_return_code : CallbackReturn) : string :=
  match cb_return_code with
  | SUCCESS => rcl_lifecycle_transition_success_label
  | FAILURE => rcl_lifecycle_transition_failure_label
  | ERROR => rcl_lifecycle_transition_error_label
  end.

Definition set_machine (n : LifecycleNodeInterfaceImpl) (sm : rcl_lifecycle_state_machine_t)
    : LifecycleNodeInterfaceImpl := mkNode sm (current_state_ n) (cb_map_ n).

(** [current_state_ = State(state_machine_.current_state)] *)
Definition update_current_state (n : LifecycleNodeInterfaceImpl) : Result lc_error LifecycleNodeInterfaceImpl :=
  let! s := State (current_state (state_machine_ n)) in
  Ok (mkNode (state_machine_ n) (Some s) (cb_map_ n)).

(** Answers of [change_state]: its return code and what it assigned to
    [cb_return_code], if anything. *)
Record Changed := mkChanged {
  ret_code : rcl_ret_t;
  cb_return_code : option CallbackReturn;
  node_after : LifecycleNodeInterfaceImpl;
  world_after : W;
}.

Definition change_state (n : LifecycleNodeInterfaceImpl) (transition_id : Z) (w : W) : Result lc_error Changed :=
  if negb (initialized n) then Ok (mkChanged RCL_RET_ERROR None n w) else
  let! initial_state := State (current_state (state_machine_ n)) in
  let! (ret, sm, w) :=
    rcl_lifecycle_trigger_transition_by_id rcl_publish (state_machine_ n) transition_id true w in
  let n := set_machine n sm in
  let! s := machine_state n in
  if negb (bool_decide (ret = RCL_RET_OK)) then Ok (mkChanged RCL_RET_ERROR None n w) else
  let! n := update_current_state n in
  let '(cb, w) := execute_callback n (st_id s) initial_state w in
  let! (ret, sm, w) :=
    rcl_lifecycle_trigger_transition_by_label rcl_publish (state_machine_ n) (get_label_for_return_code cb) true w in
  let n := set_machine n sm in
  let! s := machine_state n in
  if negb (bool_decide (ret = RCL_RET_OK)) then Ok (mkChanged RCL_RET_ERROR (Some cb) n w) else
  let! n := update_current_state n in
  if bool_decide (cb = ERROR) then
    let '(error_cb, w) := execute_callback n (st_id s) initial_state w in
    let! (ret, sm, w) :=
      rcl_lifecycle_trigger_transition_by_label rcl_publish (state_machine_ n)
        (get_label_for_return_code error_cb) true w in
    let n := set_machine n sm in
    if negb (bool_decide (ret = RCL_RET_OK)) then Ok (mkChanged RCL_RET_ERROR (Some cb) n w) else
    let! n := update_current_state n in
    Ok (mkChanged RCL_RET_OK (Some cb) n w)
  else
    let! n := update_current_state n in
    Ok (mkChanged RCL_RET_OK (Some cb) n w).

(** ** Requests from outside *)

(** [label.c_str()], as [strcmp] reads it *)
Definition c_string (label : string) : string :=
  string_of_list_ascii (c_str (list_ascii_of_string label)).

(** The service: a label takes precedence over the identifier. *)
Definition on_change_state (n : LifecycleNodeInterfaceImpl) (id : Z) (label : string) (w : W)
    : Result lc_error (bool * LifecycleNodeInterfaceImpl * W) :=
  if negb (initialized n) then Throw RuntimeError else
  let! lookup :=
    (if (String.length label =? 0)%nat then Ok (Some id)
     else
      let! t := current_transition (fun s => rcl_lifecycle_get_transition_by_label s (c_string label)) (state_machine_ n) in
      Ok ((fun t => wrap_u 8 (tr_id t)) <$> t)) in
  match lookup with
  | None => Ok (false, n, w)
  | Some transition_id =>
    let! c := change_state n transition_id w in
    match cb_return_code c with
    | None => Throw UninitializedRead
    | Some cb => Ok (bool_decide (cb = SUCCESS), node_after c, world_after c)
    end
  end.

Definition on_get_state (n : LifecycleNodeInterfaceImpl) : Result lc_error (Z * string) :=
  if negb (initialized n) then Throw RuntimeError else
  let! s := machine_state n in Ok (wrap_u 8 (st_id s), st_label s).

Definition on_get_available_states (n : LifecycleNodeInterfaceImpl) : Result lc_error (list (Z * string)) :=
  if negb (initialized n) then Throw RuntimeError else
  Ok ((fun s => (wrap_u 8 (st_id s), st_label s)) <$> states (node_map n)).

Record TransitionDescription := mkDescription {
  transition : Z * string;
  start_state : Z * string;
  goal_state : Z * string;
}.

Definition describe (tm : rcl_lifecycle_transition_map_t) (t : rcl_lifecycle_transition_t)
    : Result lc_error TransitionDescription :=
  let! s := deref_state tm (start t) in
  let! g := deref_state tm (goal t) in
  Ok (mkDescription (wrap_u 8 (tr_id t), tr_label t) (wrap_u 8 (st_id s), st_label s) (wrap_u 8 (st_id g), st_label g)).

Fixpoint describe_all (tm : rcl_lifecycle_transition_map_t) (l : list rcl_lifecycle_transition_t)
    : Result lc_error (list TransitionDescription) :=
  match l with
  | [] => Ok []
  | t :: l => let! d := describe tm t in let! ds := describe_all tm l in Ok (d :: ds)
  end.

Definition on_get_available_transitions (n : LifecycleNodeInterfaceImpl)
    : Result lc_error (list TransitionDescription) :=
  if negb (initialized n) then Throw RuntimeError else
  let! s := machine_state n in describe_all (node_map n) (valid_transitions s).

Definition on_get_transition_graph (n : LifecycleNodeInterfaceImpl) : Result lc_error (list TransitionDescription) :=
  if negb (initialized n) then Throw RuntimeError else
  describe_all (node_map n) (transitions (node_map n)).

Definition get_current_state (n : LifecycleNodeInterfaceImpl) : option StatePtr := current_state_ n.

(** [trigger_transition], by identifier and by label; the overloads differ
    in whether the caller sees [cb_return_code]. *)
Definition trigger_transition (n : LifecycleNodeInterfaceImpl) (transition_id : Z) (w : W)
    : Result lc_error (option StatePtr * LifecycleNodeInterfaceImpl * W) :=
  let! c := change_state n transition_id w in
  Ok (get_current_state (node_after c), node_after c, world_after c).

Definition trigger_transition_label (n : LifecycleNodeInterfaceImpl) (transition_label : string) (w : W)
    : Result lc_error (option StatePtr * LifecycleNodeInterfaceImpl * W) :=
  let! t := current_transition (fun s => rcl_lifecycle_get_transition_by_label s transition_label) (state_machine_ n) in
  match t with
  | None => Ok (get_current_state n, n, w)
  | Some t => trigger_transition n (wrap_u 8 (tr_id t)) w
  end.
End Node.
Arguments LifecycleNodeInterfaceImpl : clear implicits.
Arguments Callback : clear implicits.
Arguments Changed : clear implicits.

(** ** The life cycle of the design

    Requests are taken in primary states; they lead to a transition state,
    which the code of its callback leaves. *)

Inductive Primary := Unconfigured | Inactive | Active | Finalized.
Inductive Busy := Configuring | CleaningUp | ShuttingDown | Activating | Deactivating | ErrorProcessing.
Inductive LState := Prim (p : Primary) | Trans (b : Busy).

#[export] Instance primary_eq_dec : EqDecision Primary.
Proof. solve_decision. Defined.

Definition request (p : Primary) (id : Z) : option Busy :=
  match p with
  | Unconfigured =>
    if id =? TRANSITION_CONFIGURE then Some Configuring
    else if id =? TRANSITION_UNCONFIGURED_SHUTDOWN then Some ShuttingDown else None
  | Inactive =>
    if id =? TRANSITION_CLEANUP then Some CleaningUp
    else if id =? TRANSITION_ACTIVATE then Some Activating
    else if id =? TRANSITION_INACTIVE_SHUTDOWN then Some ShuttingDown else None
  | Active =>
    if id =? TRANSITION_DEACTIVATE then Some Deactivating
    else if id =? TRANSITION_ACTIVE_SHUTDOWN then Some ShuttingDown else None
  | Finalized => None
  end.

Definition finish (b : Busy) (r : CallbackReturn) : LState :=
  match b, r with
  | Configuring, SUCCESS => Prim Inactive
  | Configuring, FAILURE => Prim Unconfigured
  | CleaningUp, SUCCESS => Prim Unconfigured
  | CleaningUp, FAILURE => Prim Inactive
  | Activating, SUCCESS => Prim Active
  | Activating, FAILURE => Prim Inactive
  | Deactivating, SUCCESS => Prim Inactive
  | Deactivating, FAILURE => Prim Active
  | ShuttingDown, ERROR => Trans ErrorProcessing
  | ShuttingDown, _ => Prim Finalized
  | ErrorProcessing, SUCCESS => Prim Unconfigured
  | ErrorProcessing, _ => Prim Finalized
  | _, ERROR => Trans ErrorProcessing
  end.

(** The transitions by which a transition state can be left are also offered
    to requests, under identifiers of their own. *)
Definition finish_id (b : Busy) (r : CallbackReturn) : Z :=
  match b with
  | Configuring => 10 | CleaningUp => 20 | Activating => 30
  | Deactivating => 40 | ShuttingDown => 50 | ErrorProcessing => 60
  end + match r with SUCCESS => 0 | FAILURE => 1 | ERROR => 2 end.

Definition by_id (s : LState) (id : Z) : option LState :=
  match s with
  | Prim p => Trans <$> request p id
  | Trans b =>
    if id =? finish_id b SUCCESS then Some (finish b SUCCESS)
    else if id =? finish_id b FAILURE then Some (finish b FAILURE)
    else if id =? finish_id b ERROR then Some (finish b ERROR) else None
  end.

(** The code of the callback names the transition. *)
Definition by_code (s : LState) (r : CallbackReturn) : option LState :=
  match s with Prim _ => None | Trans b => Some (finish b r) end.

(** Where the states are in the default map. *)
Definition ptr (s : LState) : StatePtr :=
  mkStatePtr (states_block default_map)
    match s with
    | Prim Unconfigured => 1 | Prim Inactive => 2 | Prim Active => 3 | Prim Finalized => 4
    | Trans Configuring => 5 | Trans CleaningUp => 6 | Trans ShuttingDown => 7
    | Trans Activating => 8 | Trans Deactivating => 9 | Trans ErrorProcessing => 10
    end%nat.

Definition state_id (s : LState) : Z :=
  match s with
  | Prim Unconfigured => 1 | Prim Inactive => 2 | Prim Active => 3 | Prim Finalized => 4
  | Trans Configuring => 10 | Trans CleaningUp => 11 | Trans ShuttingDown => 12
  | Trans Activating => 13 | Trans Deactivating => 14 | Trans ErrorProcessing => 15
  end.

Definition state_label (s : LState) : string :=
  match s with
  | Prim Unconfigured => "unconfigured" | Prim Inactive => "inactive"
  | Prim Active => "active" | Prim Finalized => "finalized"
  | Trans Configuring => "configuring" | Trans CleaningUp => "cleaningup"
  | Trans ShuttingDown => "shuttingdown" | Trans Activating => "activating"
  | Trans Deactivating => "deactivating" | Trans ErrorProcessing => "errorprocessing"
  end.

Definition event (s s' : LState) : TransitionEvent :=
  mkEvent (state_id s) (state_label s) (state_id s') (state_label s').

(** ** The default map is this life cycle *)

Lemma deref_ptr s :
  exists st, deref_state default_map (Some (ptr s)) = Ok st /\ st_id st = state_id s /\ st_label st = state_label s.
Proof. destruct s as [[]|[]]; by eexists. Qed.

Lemma ptr_inj s s' : ptr s = ptr s' -> s = s'.
Proof. destruct s as [[]|[]], s' as [[]|[]]; by intros [=]. Qed.

Lemma state_id_u8 s : wrap_u 8 (state_id s) = state_id s.
Proof. by destruct s as [[]|[]]. Qed.

(** A transition that leads from one state to another, or none. *)
Definition leads (s : LState) (t : option rcl_lifecycle_transition_t) (goal_state : option LState) : Prop :=
  match t, goal_state with
  | Some t, Some s' => start t = Some (ptr s) /\ goal t = Some (ptr s')
  | None, None => True
  | _, _ => False
  end.

Lemma by_id_leads s id st :
  deref_state default_map (Some (ptr s)) = Ok st -> leads s (rcl_lifecycle_get_transition_by_id st id) (by_id s id).
Proof.
  intros Hs. destruct s as [p|b]; [destruct p | destruct b]; injection Hs as <-;
    unfold rcl_lifecycle_get_transition_by_id; cbn [valid_transitions List.find tr_id by_id request];
    rewrite ?(Z.eqb_sym _ id);
    repeat match goal with |- context [id =? ?c] => destruct (Z.eqb_spec id c) as [->|?]; [by cbn|] end; by cbn.
Qed.

Lemma by_code_leads s r st :
  deref_state default_map (Some (ptr s)) = Ok st ->
  leads s (rcl_lifecycle_get_transition_by_label st (get_label_for_return_code r)) (by_code s r).
Proof. intros Hs. destruct s as [[]|[]], r; injection Hs as <-; by cbn. Qed.

(** ** Steps of the machine *)

Section Steps.
Context {W : Type} (rcl_publish : TransitionEvent -> W -> bool * W).
Abbreviation node := (LifecycleNodeInterfaceImpl W).

Definition move (sm : rcl_lifecycle_state_machine_t) (s : LState) : rcl_lifecycle_state_machine_t :=
  mkMachine (Some (ptr s)) (transition_map sm) (com_interface sm) (options sm).

(** The machine is the default one and in state [s]. *)
Definition in_state (sm : rcl_lifecycle_state_machine_t) (s : LState) : Prop :=
  transition_map sm = default_map /\ current_state sm = Some (ptr s).

Lemma in_state_inj sm s s' : in_state sm s -> in_state sm s' -> s = s'.
Proof. intros [_ H] [_ H']. apply ptr_inj. congruence. Qed.

Lemma move_in_state sm s s' : in_state sm s -> in_state (move sm s') s'.
Proof. by intros [Hm _]. Qed.

Lemma move_move sm s s' : move (move sm s) s' = move sm s'.
Proof. done. Qed.

(** What a step to [g] does, or to nowhere. *)
Definition step_to (sm : rcl_lifecycle_state_machine_t) (s : LState) (g : option LState) (w : W)
    : rcl_ret_t * rcl_lifecycle_state_machine_t * W :=
  match g with
  | None => (RCL_RET_INVALID_ARGUMENT, sm, w)
  | Some s' =>
    let '(sent, w) := rcl_publish (event s s') w in
    (if sent then RCL_RET_OK else RCL_RET_ERROR, move sm s', w)
  end.

Lemma trigger_leads sm s t g w :
  in_state sm s -> leads s t g -> _trigger_transition rcl_publish sm t true w = Ok (step_to sm s g w).
Proof.
  intros [Hm Hc]. destruct t as [t|], g as [s'|]; try done. intros [Ht Hg].
  unfold _trigger_transition. rewrite Hg. cbn [transition_map current_state]. rewrite Hm, Ht.
  destruct (deref_ptr s) as (st & -> & Hid & Hlab), (deref_ptr s') as (st' & -> & Hid' & Hlab').
  cbn [rbind]. unfold rcl_lifecycle_com_interface_publish_notification.
  rewrite Hid, Hlab, Hid', Hlab', !state_id_u8. cbn [step_to].
  fold (event s s'). destruct (rcl_publish (event s s') w) as [sent w'].
  unfold move. by rewrite Hm.
Qed.

Lemma trigger_by_id_spec sm s id w :
  in_state sm s -> rcl_lifecycle_trigger_transition_by_id rcl_publish sm id true w = Ok (step_to sm s (by_id s id) w).
Proof.
  intros Hs. destruct (deref_ptr s) as (st & Hst & _). unfold rcl_lifecycle_trigger_transition_by_id, current_transition.
  destruct Hs as [Hm Hc]. rewrite Hc, Hm, Hst. cbn [rbind].
  by apply trigger_leads, by_id_leads.
Qed.

Lemma trigger_by_code_spec sm s r w :
  in_state sm s ->
  rcl_lifecycle_trigger_transition_by_label rcl_publish sm (get_label_for_return_code r) true w =
  Ok (step_to sm s (by_code s r) w).
Proof.
  intros Hs. destruct (deref_ptr s) as (st & Hst & _). unfold rcl_lifecycle_trigger_transition_by_label, current_transition.
  destruct Hs as [Hm Hc]. rewrite Hc, Hm, Hst. cbn [rbind].
  by apply trigger_leads, by_code_leads.
Qed.

(** ** What a request does *)

(** The node after a request, as the life cycle describes it: [shown] is what
    [get_current_state] answers. *)
Record RequestOutcome := mkOutcome {
  out_ret : rcl_ret_t;
  out_cb : option CallbackReturn;
  out_state : LState;
  out_shown : LState;
  out_world : W;
}.

(** The callback of a state, or success when there is none. *)
Definition run_callback (cbs : gmap Z (Callback W)) (s initial : LState) (w : W) : CallbackReturn * W :=
  match cbs !! state_id s with
  | None => (SUCCESS, w)
  | Some callback => let '(r, w) := callback (ptr initial) w in (default ERROR r, w)
  end.

(** Leave the transition state [s]; a failure of its callback leads to error
    processing, which has a callback of its own. *)
Definition finish_request (cbs : gmap Z (Callback W)) (initial s : LState) (w : W) : RequestOutcome :=
  let '(cb, w) := run_callback cbs s initial w in
  match by_code s cb with
  | None => mkOutcome RCL_RET_ERROR (Some cb) s s w
  | Some s2 =>
    let '(sent, w) := rcl_publish (event s s2) w in
    if negb sent then mkOutcome RCL_RET_ERROR (Some cb) s2 s w else
    if bool_decide (cb = ERROR) then
      let '(cb2, w) := run_callback cbs s2 initial w in
      match by_code s2 cb2 with
      | None => mkOutcome RCL_RET_ERROR (Some cb) s2 s2 w
      | Some s3 =>
        let '(sent, w) := rcl_publish (event s2 s3) w in
        if negb sent then mkOutcome RCL_RET_ERROR (Some cb) s3 s2 w
        else mkOutcome RCL_RET_OK (Some cb) s3 s3 w
      end
    else mkOutcome RCL_RET_OK (Some cb) s2 s2 w
  end.

Definition do_request (cbs : gmap Z (Callback W)) (s shown : LState) (id : Z) (w : W) : RequestOutcome :=
  match by_id s id with
  | None => mkOutcome RCL_RET_ERROR None s shown w
  | Some s1 =>
    let '(sent, w) := rcl_publish (event s s1) w in
    if negb sent then mkOutcome RCL_RET_ERROR None s1 shown w else finish_request cbs s s1 w
  end.

(** [n] is in state [s] and shows [shown]. *)
Definition repr (n : node) (s shown : LState) : Prop :=
  in_state (state_machine_ n) s /\ initialized n = true /\ current_state_ n = Some (ptr shown).

Lemma execute_callback_spec (n : node) s initial w :
  execute_callback n (state_id s) (ptr initial) w = run_callback (cb_map_ n) s initial w.
Proof. unfold execute_callback, run_callback. by rewrite state_id_u8. Qed.

Lemma machine_state_at (n : node) s :
  in_state (state_machine_ n) s -> exists st, machine_state n = Ok st /\ st_id st = state_id s.
Proof.
  intros [Hm Hc]. unfold machine_state, node_map. rewrite Hm, Hc.
  destruct (deref_ptr s) as (st & -> & Hid & _). by exists st.
Qed.

(** The node that shows [shown] after moving to [s]. *)
Definition node_at (n : node) (s shown : LState) : node :=
  mkNode (move (state_machine_ n) s) (Some (ptr shown)) (cb_map_ n).

Lemma node_at_repr n s0 sh0 s shown : repr n s0 sh0 -> repr (node_at n s shown) s shown.
Proof.
  intros (Hs & Hi & _). split; [by eapply move_in_state|]. split; [|done].
  unfold initialized in *. cbn. apply bool_decide_eq_true in Hi. by apply bool_decide_eq_true.
Qed.

Lemma repr_node_at n s shown : repr n s shown -> n = node_at n s shown.
Proof. destruct n as [[c m o p] cs cb]. by intros ([_ [= ->]] & _ & [= ->]). Qed.

(** The part of [change_state] after the start of the transition. *)
Definition changed (n : node) (o : RequestOutcome) : Changed W :=
  mkChanged (out_ret o) (out_cb o) (node_at n (out_state o) (out_shown o)) (out_world o).

Lemma set_machine_state (n : node) s s' :
  in_state (state_machine_ n) s ->
  exists st, machine_state (set_machine n (move (state_machine_ n) s')) = Ok st /\ st_id st = state_id s'.
Proof. intros Hs. apply machine_state_at. by eapply move_in_state. Qed.

Lemma update_node_at (n : node) s shown :
  update_current_state (node_at n s shown) = Ok (node_at n s s).
Proof. done. Qed.

Lemma set_machine_node_at (n : node) s s' shown :
  set_machine (node_at n s shown) (move (state_machine_ (node_at n s shown)) s') = node_at n s' shown.
Proof. done. Qed.

Lemma step_to_ok sm s s' w :
  step_to sm s (Some s') w =
  (if (rcl_publish (event s s') w).1 then RCL_RET_OK else RCL_RET_ERROR, move sm s', (rcl_publish (event s s') w).2).
Proof. cbn. by destruct (rcl_publish _ _). Qed.

Lemma node_in_state (n : node) s0 s shown :
  in_state (state_machine_ n) s0 -> in_state (state_machine_ (node_at n s shown)) s.
Proof. apply move_in_state. Qed.

(** C28: [change_state] refines the life cycle: for a node in any state, with
    any callbacks and whether or not notifications can be published, its
    return code, the code it stores, the state of the machine, the state it
    shows and the effects on the world, in their order, are those of
    [do_request]; no invalid pointer is followed. *)
Theorem change_state_refines (n : node) s shown id w :
  repr n s shown ->
  change_state rcl_publish n id w = Ok (changed n (do_request (cb_map_ n) s shown id w)).
Proof.
  intros Hr. pose proof Hr as (Hs & Hi & Hc). unfold change_state. rewrite Hi. cbn [negb].
  pose proof Hs as [_ ->]. cbn [State rbind]. rewrite (trigger_by_id_spec _ _ _ _ Hs). cbn [rbind].
  unfold do_request. destruct (by_id s id) as [s1|].
  2: { cbn [step_to]. unfold changed. cbn [out_ret out_cb out_state out_shown out_world].
       rewrite <- (repr_node_at _ _ _ Hr).
       assert (Hset : set_machine n (state_machine_ n) = n) by (by destruct n).
       rewrite Hset. by destruct (machine_state_at _ _ Hs) as (st & -> & _). }
  rewrite step_to_ok. destruct (rcl_publish (event s s1) w) as [sent1 w1]. cbn [fst snd].
  assert (Hn1 : set_machine n (move (state_machine_ n) s1) = node_at n s1 shown)
    by (unfold set_machine; by rewrite Hc). rewrite Hn1.
  destruct (machine_state_at (node_at n s1 shown) s1) as (st1 & -> & Hid1); [by eapply node_in_state|].
  cbn [rbind]. destruct sent1; cbn [negb]; [|by rewrite bool_decide_eq_false_2].
  rewrite bool_decide_eq_true_2 by done. cbn [negb]. rewrite update_node_at. cbn [rbind].
  rewrite Hid1, execute_callback_spec. unfold finish_request. cbn [cb_map_ node_at].
  destruct (run_callback (cb_map_ n) s1 s w1) as [cb w2].
  rewrite (trigger_by_code_spec _ s1 _ _ (node_in_state n s s1 s1 Hs)). cbn [rbind].
  destruct (by_code s1 cb) as [s2|].
  2: { cbn [step_to]. fold (node_at n s1 s1).
       assert (Hset : set_machine (node_at n s1 s1) (state_machine_ (node_at n s1 s1)) = node_at n s1 s1) by done.
       rewrite Hset. by destruct (machine_state_at (node_at n s1 s1) s1 (node_in_state n s s1 s1 Hs)) as (st & -> & _). }
  rewrite step_to_ok. destruct (rcl_publish (event s1 s2) w2) as [sent2 w3]. cbn [fst snd].
  fold (node_at n s1 s1). rewrite set_machine_node_at.
  destruct (machine_state_at (node_at n s2 s1) s2) as (st2 & -> & Hid2); [by eapply node_in_state|].
  cbn [rbind]. destruct sent2; cbn [negb]; [|by rewrite bool_decide_eq_false_2].
  rewrite bool_decide_eq_true_2 by done. cbn [negb]. rewrite update_node_at. cbn [rbind].
  case_bool_decide as He; [|done].
  rewrite Hid2, execute_callback_spec. cbn [cb_map_ node_at].
  destruct (run_callback (cb_map_ n) s2 s w3) as [cb2 w4].
  rewrite (trigger_by_code_spec _ s2 _ _ (node_in_state n s s2 s2 Hs)). cbn [rbind].
  destruct (by_code s2 cb2) as [s3|]; [|done].
  rewrite step_to_ok. destruct (rcl_publish (event s2 s3) w4) as [sent3 w5]. cbn [fst snd].
  destruct sent3; cbn [negb]; [|by rewrite bool_decide_eq_false_2].
  by rewrite bool_decide_eq_true_2.
Qed.

(** A request the state does not offer. *)
Lemma change_state_refused (n : node) s shown id w :
  repr n s shown -> by_id s id = None -> change_state rcl_publish n id w = Ok (mkChanged RCL_RET_ERROR None n w).
Proof.
  intros Hr Hn. rewrite (change_state_refines n s shown id w Hr). unfold do_request. rewrite Hn.
  unfold changed. cbn [out_ret out_cb out_state out_shown out_world]. by rewrite <- (repr_node_at _ _ _ Hr).
Qed.

(** ** Between requests *)

(** A state that error processing or success leaves at once. *)
Lemma finish_error b : finish b ERROR = Trans ErrorProcessing \/ b = ErrorProcessing.
Proof. destruct b; auto. Qed.

Lemma finish_primary b r :
  r <> ERROR \/ b = ErrorProcessing -> exists q, finish b r = Prim q.
Proof. intros H. destruct b, r; cbn; try eauto; by destruct H. Qed.

Lemma by_id_primary p id s : by_id (Prim p) id = Some s -> exists b, s = Trans b /\ b <> ErrorProcessing.
Proof.
  cbn. destruct p; cbn [request]; split_ifs; cbn; try done; intros [= <-]; eauto.
Qed.

(** The last state of a transition whose callback answers [r], and whose
    error processing answers [r2]. *)
Definition settle_in (b : Busy) (r r2 : CallbackReturn) : LState :=
  if bool_decide (r = ERROR) then finish ErrorProcessing r2 else finish b r.

Lemma settle_primary b r r2 : exists q, settle_in b r r2 = Prim q.
Proof. unfold settle_in. case_bool_decide; apply finish_primary; auto. Qed.

Section Reliable.
Hypothesis reliable : forall e w, (rcl_publish e w).1 = true.

Lemma finish_request_settles cbs initial b w :
  b <> ErrorProcessing ->
  let o := finish_request cbs initial (Trans b) w in
  exists r2, out_ret o = RCL_RET_OK /\ out_cb o = Some (run_callback cbs (Trans b) initial w).1 /\
    out_state o = settle_in b (run_callback cbs (Trans b) initial w).1 r2 /\ out_shown o = out_state o.
Proof.
  intros Hb. cbn zeta. unfold finish_request.
  destruct (run_callback cbs (Trans b) initial w) as [r w1]. cbn [by_code fst].
  pose proof (reliable (event (Trans b) (finish b r)) w1) as Hp.
  destruct (rcl_publish _ w1) as [sent w2]. cbn in Hp. subst sent. cbn [negb]. unfold settle_in.
  case_bool_decide as Hr; [|by exists SUCCESS].
  subst r. destruct (finish_error b) as [-> | ?]; [|done].
  destruct (run_callback cbs (Trans ErrorProcessing) initial w2) as [r2 w3]. cbn [by_code]. exists r2.
  pose proof (reliable (event (Trans ErrorProcessing) (finish ErrorProcessing r2)) w3) as Hp'.
  destruct (rcl_publish _ w3) as [sent w4]. cbn in Hp'. by subst sent.
Qed.

(** The outcome of a request in a primary state. *)
Lemma do_request_settles cbs p id w :
  let o := do_request cbs (Prim p) (Prim p) id w in
  (request p id = None /\ o = mkOutcome RCL_RET_ERROR None (Prim p) (Prim p) w) \/
  (exists b r2,
    let r := (run_callback cbs (Trans b) (Prim p) (rcl_publish (event (Prim p) (Trans b)) w).2).1 in
    request p id = Some b /\ out_ret o = RCL_RET_OK /\ out_cb o = Some r /\
    out_state o = settle_in b r r2 /\ out_shown o = out_state o).
Proof.
  cbn zeta. unfold do_request. cbn [by_id]. destruct (request p id) as [b|] eqn:Hb; cbn [fmap option_fmap option_map].
  2: { by left. }
  right. assert (Hne : b <> ErrorProcessing).
  { destruct (by_id_primary p id (Trans b)) as (b' & [= <-] & Hne); [cbn; by rewrite Hb|done]. }
  pose proof (reliable (event (Prim p) (Trans b)) w) as Hp.
  destruct (rcl_publish _ w) as [sent w1] eqn:Ep. cbn in Hp. subst sent. cbn [negb].
  destruct (finish_request_settles cbs (Prim p) b w1 Hne) as (r2 & H). exists b, r2. by rewrite Ep.
Qed.

(** A node between requests is in a primary state, and shows it: from
    such a state every request, valid or not and whatever the callbacks
    answer, ends in such a state again as long as notifications can be
    published.  Transition states are never visible between requests. *)
Theorem change_state_primary (n : node) p id w :
  repr n (Prim p) (Prim p) ->
  exists c q, change_state rcl_publish n id w = Ok c /\
    repr (node_after c) (Prim q) (Prim q) /\ cb_map_ (node_after c) = cb_map_ n /\
    (ret_code c = RCL_RET_OK <-> is_Some (request p id)).
Proof.
  intros Hr. rewrite (change_state_refines n _ _ id w Hr).
  destruct (do_request_settles (cb_map_ n) p id w) as [[Hq Ho]|(b & r2 & Hq & Hret & _ & Hs & Hsh)].
  - rewrite Ho. exists (changed n (mkOutcome RCL_RET_ERROR None (Prim p) (Prim p) w)), p.
    split; [done|]. split; [by eapply node_at_repr|]. split; [done|].
    rewrite Hq. split; [done | intros [b [=]]].
  - match type of Hs with _ = settle_in b ?r r2 => destruct (settle_primary b r r2) as [q Hp] end.
    rewrite Hp in Hs. rewrite Hs in Hsh.
    eexists _, q. split; [done|]. cbn [node_after changed]. rewrite Hs, Hsh.
    split; [by eapply node_at_repr|]. split; [done|]. cbn [ret_code changed]. rewrite Hret, Hq. by split.
Qed.
End Reliable.

(** When the notification of the start of a transition cannot be
    published, the machine stays in the transition state, its callback does
    not run and [get_current_state] goes on showing the primary state; every
    later request for a transition of the life cycle (identifiers 1 to 7) is
    refused and changes nothing. *)
Theorem unpublished_start_wedges (n : node) p id b w w1 :
  repr n (Prim p) (Prim p) -> request p id = Some b ->
  rcl_publish (event (Prim p) (Trans b)) w = (false, w1) ->
  exists n', change_state rcl_publish n id w = Ok (mkChanged RCL_RET_ERROR None n' w1) /\
    repr n' (Trans b) (Prim p) /\
    forall id' w', 1 <= id' <= 7 -> change_state rcl_publish n' id' w' = Ok (mkChanged RCL_RET_ERROR None n' w').
Proof.
  intros Hr Hq Hp. exists (node_at n (Trans b) (Prim p)).
  assert (Hr' : repr (node_at n (Trans b) (Prim p)) (Trans b) (Prim p)) by (by eapply node_at_repr).
  split; [|split; [done|]].
  - rewrite (change_state_refines n _ _ id w Hr). unfold do_request. cbn [by_id]. rewrite Hq. cbn.
    by rewrite Hp.
  - intros id' w' Hid. apply (change_state_refused _ _ _ _ _ Hr').
    destruct b; cbn; repeat match goal with |- context [id' =? ?c] =>
        rewrite (proj2 (Z.eqb_neq id' c)) by (unfold finish_id; lia) end; done.
Qed.
End Steps.

(** ** Creating a node *)

(** The state machine of a new node: [repr] holds of it, and an exception
    says that it could not be set up. *)
Section Creation.
Context {W : Type} (refuse : nat -> bool).
Context (com_init com_publisher_init com_fini :
  rcl_lifecycle_com_interface_t -> rcl_ret_t * rcl_lifecycle_com_interface_t).

(** A communication interface that was set up has its services. *)
Hypothesis com_init_services : forall c c', com_init c = (RCL_RET_OK, c') ->
  srv_get_state c' = true /\ srv_change_state c' = true.

(** A node is created exactly when its communication interface could be
    set up and none of the allocations was refused, and is then
    [unconfigured]; otherwise the constructor throws, having followed no
    invalid pointer. *)
Theorem init_spec (cbs : gmap Z (Callback W)) (enable : bool) :
  let com := (if enable then com_init else com_publisher_init) rcl_lifecycle_get_zero_initialized_com_interface in
  (exists n, init refuse com_init com_publisher_init com_fini cbs enable = Ok n /\ com.1 = RCL_RET_OK /\
     (forall i, (i < 61)%nat -> refuse i = false) /\
     repr n (Prim Unconfigured) (Prim Unconfigured) /\ cb_map_ n = cbs) \/
  (init refuse com_init com_publisher_init com_fini cbs enable = Throw RuntimeError /\
     (com.1 <> RCL_RET_OK \/ exists i, (i < 61)%nat /\ refuse i = true)).
Proof.
  cbn zeta. unfold init, rcl_lifecycle_state_machine_init. cbn [enable_com_interface initialize_default_states
    rcl_lifecycle_get_default_state_machine_options rcl_lifecycle_get_zero_initialized_state_machine com_interface].
  destruct ((if enable then com_init else com_publisher_init) _) as [ret com] eqn:Ec. cbn [fst].
  destruct (decide (ret = RCL_RET_OK)) as [->|Hr].
  2: { right. rewrite bool_decide_eq_false_2 by done. cbn. split; [done | by left]. }
  rewrite bool_decide_eq_true_2 by done. cbn [negb transition_map current_state].
  change (mkMachine (current_state rcl_lifecycle_get_zero_initialized_state_machine) _ com _)
    with (blank_machine com (mkOptions true enable)).
  destruct (init_default_state_machine_spec refuse com (mkOptions true enable)) as (r & sm & k & -> & _ & H).
  cbn [rbind]. destruct H as [(-> & Hg & ->)|(-> & Hf & _)].
  - left. cbn. eexists. split; [done|]. split; [done|]. split; [done|]. split; [|done].
    split; [done|]. split; [|done]. unfold initialized, rcl_lifecycle_state_machine_is_initialized. cbn.
    destruct enable; [|done]. by destruct (com_init_services _ _ Ec) as [-> ->].
  - right. cbn. destruct (com_fini com) as [[] ?]; (split; [done | by right]).
Qed.
End Creation.

(** ** Requests over time *)

Inductive Request := ById (id : Z) | ByLabel (label : string).

Section Runs.
Context {W : Type} (rcl_publish : TransitionEvent -> W -> bool * W).

Definition serve (n : LifecycleNodeInterfaceImpl W) (r : Request) (w : W)
    : Result lc_error (option StatePtr * LifecycleNodeInterfaceImpl W * W) :=
  match r with
  | ById id => trigger_transition rcl_publish n id w
  | ByLabel label => trigger_transition_label rcl_publish n label w
  end.

(** The node and the world after the first [k] requests of a sequence. *)
Fixpoint serve_all (n : LifecycleNodeInterfaceImpl W) (w : W) (requests : nat -> Request) (k : nat)
    : Result lc_error (LifecycleNodeInterfaceImpl W * W) :=
  match k with
  | O => Ok (n, w)
  | S k =>
    let! (n, w) := serve_all n w requests k in
    let! (_, n, w) := serve n (requests k) w in
    Ok (n, w)
  end.

Hypothesis reliable : forall e w, (rcl_publish e w).1 = true.

Definition idle (n : LifecycleNodeInterfaceImpl W) (p : Primary) : Prop := repr n (Prim p) (Prim p).

Lemma trigger_transition_idle n p id w :
  idle n p -> exists q n' w', trigger_transition rcl_publish n id w = Ok (Some (ptr (Prim q)), n', w') /\
    idle n' q /\ cb_map_ n' = cb_map_ n.
Proof.
  intros Hr. destruct (change_state_primary rcl_publish reliable n p id w Hr) as (c & q & Hc & Hq & Hcb & _).
  exists q, (node_after c), (world_after c). unfold trigger_transition. rewrite Hc. cbn [rbind].
  split; [|done]. unfold get_current_state. by destruct Hq as (_ & _ & ->).
Qed.

(** What the lookup of a label finds. *)
Lemma current_transition_idle (n : LifecycleNodeInterfaceImpl W) p find :
  idle n p -> exists st, deref_state default_map (Some (ptr (Prim p))) = Ok st /\
    current_transition find (state_machine_ n) = Ok (find st).
Proof.
  intros ([Hm Hc] & _). destruct (deref_ptr (Prim p)) as (st & Hst & _). exists st. split; [done|].
  unfold current_transition. by rewrite Hm, Hc, Hst.
Qed.

Lemma serve_idle n p r w :
  idle n p -> exists q n' w', serve n r w = Ok (Some (ptr (Prim q)), n', w') /\ idle n' q /\ cb_map_ n' = cb_map_ n.
Proof.
  intros Hr. destruct r as [id|label]; cbn [serve]; [by apply (trigger_transition_idle n p)|].
  unfold trigger_transition_label.
  destruct (current_transition_idle n p (fun s => rcl_lifecycle_get_transition_by_label s label) Hr) as (st & _ & ->).
  cbn [rbind]. destruct (rcl_lifecycle_get_transition_by_label st label) as [t|]; [by apply (trigger_transition_idle n p)|].
  exists p, n, w. split; [|done]. unfold get_current_state. by destruct Hr as (_ & _ & ->).
Qed.

Lemma serve_all_idle n p w requests k :
  idle n p -> exists q n' w', serve_all n w requests k = Ok (n', w') /\ idle n' q /\ cb_map_ n' = cb_map_ n.
Proof.
  intros Hr. induction k as [|k (q & n' & w' & E & Hq & Hcb)]; cbn [serve_all]; [by exists p, n, w|].
  rewrite E. cbn [rbind]. destruct (serve_idle n' q (requests k) w' Hq) as (q2 & n2 & w2 & -> & Hq2 & Hcb2).
  exists q2, n2, w2. split; [done|]. split; [done | congruence].
Qed.

(** ** The end of a node *)

Definition shutdown_id (p : Primary) : Z :=
  match p with
  | Unconfigured => TRANSITION_UNCONFIGURED_SHUTDOWN
  | Inactive => TRANSITION_INACTIVE_SHUTDOWN
  | _ => TRANSITION_ACTIVE_SHUTDOWN
  end.

(** A shutdown requested now would not run into error processing. *)
Definition shutdown_ok (n : LifecycleNodeInterfaceImpl W) (w : W) : Prop :=
  forall p, current_state_ n = Some (ptr (Prim p)) ->
  (run_callback (cb_map_ n) (Trans ShuttingDown) (Prim p)
    (rcl_publish (event (Prim p) (Trans ShuttingDown)) w).2).1 <> ERROR.

Lemma serve_finalized n r w : idle n Finalized -> serve n r w = Ok (Some (ptr (Prim Finalized)), n, w).
Proof.
  intros Hr. pose proof Hr as (_ & _ & Hc).
  assert (Hid : forall id, trigger_transition rcl_publish n id w = Ok (Some (ptr (Prim Finalized)), n, w)).
  { intros id. unfold trigger_transition, get_current_state.
    rewrite (change_state_refused rcl_publish n _ _ id w Hr) by done. cbn. by rewrite Hc. }
  destruct r as [id|label]; cbn [serve]; [done|]. unfold trigger_transition_label.
  destruct (current_transition_idle n Finalized (fun s => rcl_lifecycle_get_transition_by_label s label) Hr)
    as (st & _ & ->). cbn [rbind].
  destruct (rcl_lifecycle_get_transition_by_label st label); [apply Hid|]. unfold get_current_state. by rewrite Hc.
Qed.

Lemma serve_shutdown n p w :
  idle n p -> shutdown_ok n w ->
  exists n' w', serve n (ByLabel rcl_lifecycle_shutdown_label) w = Ok (Some (ptr (Prim Finalized)), n', w') /\
    idle n' Finalized.
Proof.
  intros Hr Hok. destruct (decide (p = Finalized)) as [->|Hp]; [exists n, w; split; [by apply serve_finalized | done]|].
  cbn [serve]. unfold trigger_transition_label.
  destruct (current_transition_idle n p
    (fun s => rcl_lifecycle_get_transition_by_label s rcl_lifecycle_shutdown_label) Hr) as (st & Hst & ->).
  cbn [rbind].
  assert (Ht : exists t, rcl_lifecycle_get_transition_by_label st rcl_lifecycle_shutdown_label = Some t /\
    wrap_u 8 (tr_id t) = shutdown_id p).
  { destruct p; [| | |done]; injection Hst as <-; by eexists. }
  destruct Ht as (t & -> & ->).
  unfold trigger_transition, get_current_state. rewrite (change_state_refines rcl_publish n _ _ _ w Hr).
  destruct (do_request_settles rcl_publish reliable (cb_map_ n) p (shutdown_id p) w)
    as [[Hn _]|(b & r2 & Hb & _ & _ & Hs & Hsh)]; [by destruct p|].
  assert (b = ShuttingDown) as -> by (destruct p; cbn in Hb; congruence).
  pose proof Hr as (_ & _ & Hc). specialize (Hok p Hc). unfold settle_in in Hs.
  rewrite bool_decide_eq_false_2 in Hs by done.
  assert (Hf : finish ShuttingDown (run_callback (cb_map_ n) (Trans ShuttingDown) (Prim p)
    (rcl_publish (event (Prim p) (Trans ShuttingDown)) w).2).1 = Prim Finalized)
    by (by destruct (run_callback _ _ _ _).1).
  rewrite Hf in Hs. rewrite Hs in Hsh. cbn [rbind changed node_after world_after current_state_ node_at].
  do 2 eexists. rewrite Hs, Hsh. split; [done|]. by eapply node_at_repr.
Qed.

(** C29: A node whose notifications are always published ([reliable]), and that is
    asked to shut down again and again, ends: if every request is followed by a
    later one for shutdown, and from some point on the shutdown callback does
    not fail with an error, then the node is eventually [finalized] and stays
    so forever.  (A notification that is not published can stop it:
    [unpublished_start_wedges].) *)
Theorem eventually_finalized n p w requests N :
  idle n p ->
  (forall k, exists j, (k <= j)%nat /\ requests j = ByLabel rcl_lifecycle_shutdown_label) ->
  (forall k n' w', (N <= k)%nat -> serve_all n w requests k = Ok (n', w') -> shutdown_ok n' w') ->
  exists m, forall k, (m <= k)%nat -> exists n' w', serve_all n w requests k = Ok (n', w') /\ idle n' Finalized.
Proof.
  intros Hr Hreq Hok. destruct (Hreq N) as (j & Hj & Hsh). exists (S j). intros k Hk.
  induction Hk as [|k Hk (n' & w' & E & Hf)]; cbn [serve_all].
  - destruct (serve_all_idle n p w requests j Hr) as (q & n' & w' & E & Hq & _).
    rewrite E, Hsh. cbn [rbind].
    destruct (serve_shutdown n' q w' Hq (Hok j n' w' Hj E)) as (n2 & w2 & -> & H2). by exists n2, w2.
  - rewrite E. cbn [rbind]. rewrite serve_finalized by done. by exists n', w'.
Qed.

(** Requests that lead from one primary state to another, if the callbacks
    succeed. *)
Definition route (p q : Primary) : list Z :=
  match p, q with
  | Unconfigured, Inactive => [TRANSITION_CONFIGURE]
  | Unconfigured, Active => [TRANSITION_CONFIGURE; TRANSITION_ACTIVATE]
  | Unconfigured, Finalized => [TRANSITION_UNCONFIGURED_SHUTDOWN]
  | Inactive, Unconfigured => [TRANSITION_CLEANUP]
  | Inactive, Active => [TRANSITION_ACTIVATE]
  | Inactive, Finalized => [TRANSITION_INACTIVE_SHUTDOWN]
  | Active, Inactive => [TRANSITION_DEACTIVATE]
  | Active, Unconfigured => [TRANSITION_DEACTIVATE; TRANSITION_CLEANUP]
  | Active, Finalized => [TRANSITION_ACTIVE_SHUTDOWN]
  | _, _ => []
  end.

Fixpoint serve_list (n : LifecycleNodeInterfaceImpl W) (w : W) (ids : list Z)
    : Result lc_error (LifecycleNodeInterfaceImpl W * W) :=
  match ids with
  | [] => Ok (n, w)
  | id :: ids => let! (_, n, w) := trigger_transition rcl_publish n id w in serve_list n w ids
  end.

(** The life cycle when callbacks succeed. *)
Definition succeed (s : option Primary) (id : Z) : option Primary :=
  p ← s; b ← request p id; match finish b SUCCESS with Prim q => Some q | Trans _ => None end.

Lemma succeed_None ids : foldl succeed None ids = None.
Proof. by induction ids. Qed.

Lemma serve_list_steps n p w ids q :
  idle n p ->
  (forall s initial w, (run_callback (cb_map_ n) s initial w).1 = SUCCESS) ->
  foldl succeed (Some p) ids = Some q ->
  exists n' w', serve_list n w ids = Ok (n', w') /\ idle n' q.
Proof.
  revert n p w. induction ids as [|id ids IH]; intros n p w Hr Hcb; cbn [foldl serve_list].
  - intros [= <-]. by exists n, w.
  - cbn [succeed mbind option_bind].
    destruct (do_request_settles rcl_publish reliable (cb_map_ n) p id w)
      as [[-> _]|(b & r2 & -> & _ & _ & Hs & Hsh)]; [by rewrite succeed_None|].
    rewrite Hcb in Hs. unfold settle_in in Hs. rewrite bool_decide_eq_false_2 in Hs by done.
    destruct (finish_primary b SUCCESS) as [q1 Hq1]; [by left|].
    cbn [mbind option_bind]. rewrite Hq1 in Hs |- *. rewrite Hs in Hsh.
    intros Hf. unfold trigger_transition. rewrite (change_state_refines rcl_publish n _ _ id w Hr).
    cbn [rbind changed node_after world_after]. rewrite Hs, Hsh.
    apply (IH _ q1); [by eapply node_at_repr | done | done].
Qed.

(** A node whose callbacks succeed can be brought from every primary state
    but [finalized] to every other. *)
Theorem route_reaches n p q w :
  idle n p -> p <> Finalized ->
  (forall s initial w, (run_callback (cb_map_ n) s initial w).1 = SUCCESS) ->
  exists n' w', serve_list n w (route p q) = Ok (n', w') /\ idle n' q.
Proof. intros Hr Hp Hcb. apply (serve_list_steps n p); [done|done|]. by destruct p, q. Qed.
End Runs.

(** ** The services *)

Section Services.
Context {W : Type} (rcl_publish : TransitionEvent -> W -> bool * W).

(** The service that changes states, asked by identifier: it reports
    whether the callback of the transition succeeded, and reads an
    uninitialised variable when there was no transition or its start could
    not be published. *)
Theorem on_change_state_by_id (n : LifecycleNodeInterfaceImpl W) s shown id w :
  repr n s shown ->
  let o := do_request rcl_publish (cb_map_ n) s shown id w in
  on_change_state rcl_publish n id "" w =
  match out_cb o with
  | None => Throw UninitializedRead
  | Some cb => Ok (bool_decide (cb = SUCCESS), node_after (changed n o), out_world o)
  end /\
  (out_cb o = None <->
   match by_id s id with None => True | Some s' => (rcl_publish (event s s') w).1 = false end).
Proof.
  intros Hr. pose proof Hr as (_ & Hi & _). cbn zeta. unfold on_change_state. rewrite Hi. cbn [negb String.length Nat.eqb rbind].
  rewrite (change_state_refines rcl_publish n s shown id w Hr). cbn [rbind]. split; [done|].
  unfold do_request. destruct (by_id s id) as [s1|]; [|done].
  destruct (rcl_publish (event s s1) w) as [[] w1]; cbn [negb fst]; [|done].
  split; [|done]. unfold finish_request. destruct (run_callback _ _ _ _) as [cb w2].
  destruct (by_code s1 cb) as [s2|]; [|done]. destruct (rcl_publish _ w2) as [[] w3]; cbn [negb]; [|done].
  case_bool_decide; [|done]. destruct (run_callback _ _ _ w3) as [cb2 w4].
  destruct (by_code s2 cb2) as [s3|]; [|done]. by destruct (rcl_publish _ w4) as [[] w5].
Qed.

(** What a state offers. *)
Definition offers (s : LState) : list (Z * LState) :=
  match s with
  | Prim Unconfigured => [(TRANSITION_CONFIGURE, Trans Configuring); (TRANSITION_UNCONFIGURED_SHUTDOWN, Trans ShuttingDown)]
  | Prim Inactive => [(TRANSITION_CLEANUP, Trans CleaningUp); (TRANSITION_ACTIVATE, Trans Activating);
      (TRANSITION_INACTIVE_SHUTDOWN, Trans ShuttingDown)]
  | Prim Active => [(TRANSITION_DEACTIVATE, Trans Deactivating); (TRANSITION_ACTIVE_SHUTDOWN, Trans ShuttingDown)]
  | Prim Finalized => []
  | Trans b => (fun r => (finish_id b r, finish b r)) <$> [SUCCESS; FAILURE; ERROR]
  end.

Lemma by_id_offers s id s' : by_id s id = Some s' <-> (id, s') ∈ offers s.
Proof.
  destruct s as [p|b]; [destruct p | destruct b]; cbn [by_id request offers fmap list_fmap];
    rewrite ?elem_of_cons, elem_of_nil;
    repeat match goal with |- context [id =? ?c] => destruct (Z.eqb_spec id c) as [->|?] end;
    cbn; naive_solver.
Qed.

Lemma available_offers (n : LifecycleNodeInterfaceImpl W) s shown :
  repr n s shown ->
  exists ds, on_get_available_transitions n = Ok ds /\
    (fun d => ((transition d).1, start_state d, goal_state d)) <$> ds =
    (fun o => (o.1, (state_id s, state_label s), (state_id o.2, state_label o.2))) <$> offers s.
Proof.
  intros ([Hm Hc] & Hi & _). unfold on_get_available_transitions, machine_state, node_map. rewrite Hi, Hm, Hc. cbn [negb].
  destruct s as [p|b]; [destruct p | destruct b]; (eexists; split; [reflexivity|]); reflexivity.
Qed.

Lemma state_id_inj s s' : state_id s = state_id s' -> s = s'.
Proof. destruct s as [[]|[]], s' as [[]|[]]; by cbn. Qed.

(** The service that lists the available transitions answers with
    exactly the transitions that a request for them would take. *)
Theorem on_get_available_transitions_exact (n : LifecycleNodeInterfaceImpl W) s shown :
  repr n s shown ->
  exists ds, on_get_available_transitions n = Ok ds /\
    (forall id s', by_id s id = Some s' <->
      exists d, d ∈ ds /\ (transition d).1 = id /\
        start_state d = (state_id s, state_label s) /\ goal_state d = (state_id s', state_label s')).
Proof.
  intros Hr. destruct (available_offers n s shown Hr) as (ds & Hds & E). exists ds. split; [done|].
  intros id s'. rewrite by_id_offers. split.
  - intros Ho. apply (list_elem_of_fmap_2
      (fun o : Z * LState => (o.1, (state_id s, state_label s), (state_id o.2, state_label o.2)))) in Ho.
    rewrite <- E in Ho. apply list_elem_of_fmap in Ho as (d & Hd & Hin). exists d.
    injection Hd as H1 H2 H3. by rewrite <- H1, <- H2, <- H3.
  - intros (d & Hin & Hid & Hst & Hg).
    apply (list_elem_of_fmap_2 (fun d => ((transition d).1, start_state d, goal_state d))) in Hin.
    rewrite E in Hin. apply list_elem_of_fmap in Hin as ([id' s''] & Ho & Hin). cbn in Ho.
    rewrite Hid, Hg in Ho. injection Ho as -> _ Hs _. by apply state_id_inj in Hs as ->.
Qed.
End Services.

(** ** Managed publishers

    [managed_entity.cpp], [lifecycle_publisher.hpp] and the default callbacks
    of [LifecycleNode]: publishers that the node switches on and off.  The
    node holds weak pointers to them; [alive] is what [lock] finds. *)

Record ManagedEntity := mkEntity {
  alive : bool;
  activated_ : bool;
  should_log_ : bool;
}.

Definition new_publisher : ManagedEntity := mkEntity true false true.

Definition entity_on_activate (e : ManagedEntity) : ManagedEntity := mkEntity (alive e) true true.
Definition entity_on_deactivate (e : ManagedEntity) : ManagedEntity := mkEntity (alive e) false (should_log_ e).

(** [publish]: whether the message is handed on. *)
Definition entity_publish (e : ManagedEntity) : bool * ManagedEntity :=
  if negb (activated_ e) then (false, mkEntity (alive e) (activated_ e) false) else (true, e).

Definition Entities : Type := list ManagedEntity.

Definition add_managed_entity (es : Entities) (e : ManagedEntity) : Entities := es ++ [e].
Definition on_activate (es : Entities) : Entities :=
  (fun e => if alive e then entity_on_activate e else e) <$> es.
Definition on_deactivate (es : Entities) : Entities :=
  (fun e => if alive e then entity_on_deactivate e else e) <$> es.

Definition succeeds : Callback Entities := fun _ es => (Some SUCCESS, es).

(** The callbacks of a node that overrides none of them. *)
Definition lifecycle_node_callbacks : gmap Z (Callback Entities) :=
  <[TRANSITION_STATE_CONFIGURING := succeeds]> (
  <[TRANSITION_STATE_CLEANINGUP := succeeds]> (
  <[TRANSITION_STATE_SHUTTINGDOWN := succeeds]> (
  <[TRANSITION_STATE_ACTIVATING := fun _ es => (Some SUCCESS, on_activate es)]> (
  <[TRANSITION_STATE_DEACTIVATING := fun _ es => (Some SUCCESS, on_deactivate es)]> (
  <[TRANSITION_STATE_ERRORPROCESSING := succeeds]> ∅))))).

Section Managed.
Context (rcl_publish : TransitionEvent -> Entities -> bool * Entities).
Hypothesis sends : forall e es, rcl_publish e es = (true, es).

(** What happens to a node and its publishers: requests, new publishers,
    publishers that are destroyed, messages that are published. *)
Inductive managed_step : LifecycleNodeInterfaceImpl Entities * Entities ->
    LifecycleNodeInterfaceImpl Entities * Entities -> Prop :=
| ms_request n es r q n' es' :
    serve rcl_publish n r es = Ok (q, n', es') -> managed_step (n, es) (n', es')
| ms_create n es : managed_step (n, es) (n, add_managed_entity es new_publisher)
| ms_destroy n es i :
    managed_step (n, es) (n, alter (fun e => mkEntity false (activated_ e) (should_log_ e)) i es)
| ms_publish n es i : managed_step (n, es) (n, alter (fun e => (entity_publish e).2) i es).

(** Switched off, as far as the publisher still exists. *)
Definition off (e : ManagedEntity) : Prop := alive e = true -> activated_ e = false.

Definition managed_inv (ne : LifecycleNodeInterfaceImpl Entities * Entities) : Prop :=
  exists p, idle ne.1 p /\ cb_map_ ne.1 = lifecycle_node_callbacks /\
    (p = Unconfigured \/ p = Inactive -> Forall off ne.2).

Lemma default_callback b initial es :
  run_callback lifecycle_node_callbacks (Trans b) initial es =
  (SUCCESS, match b with Activating => on_activate es | Deactivating => on_deactivate es | _ => es end).
Proof. by destruct b. Qed.

Lemma do_request_default p id es :
  do_request rcl_publish lifecycle_node_callbacks (Prim p) (Prim p) id es =
  match request p id with
  | None => mkOutcome RCL_RET_ERROR None (Prim p) (Prim p) es
  | Some b =>
    mkOutcome RCL_RET_OK (Some SUCCESS) (finish b SUCCESS) (finish b SUCCESS)
      (match b with Activating => on_activate es | Deactivating => on_deactivate es | _ => es end)
  end.
Proof.
  unfold do_request. cbn [by_id]. destruct (request p id) as [b|]; cbn [fmap option_fmap option_map]; [|done].
  rewrite sends. cbn [negb]. unfold finish_request. rewrite default_callback. cbn [by_code].
  by rewrite sends.
Qed.

Lemma on_deactivate_off es : Forall off (on_deactivate es).
Proof.
  apply Forall_fmap, Forall_true. intros e. cbn. unfold off. by destruct (alive e) eqn:E; cbn; rewrite ?E.
Qed.

Lemma trigger_managed n p id es q n' es' :
  idle n p -> cb_map_ n = lifecycle_node_callbacks -> (p = Unconfigured \/ p = Inactive -> Forall off es) ->
  trigger_transition rcl_publish n id es = Ok (q, n', es') -> managed_inv (n', es').
Proof.
  intros Hr Hcb Hoff. unfold trigger_transition. rewrite (change_state_refines rcl_publish n _ _ id es Hr), Hcb.
  rewrite do_request_default. cbn [rbind changed node_after world_after]. intros [= _ <- <-].
  destruct (request p id) as [b|] eqn:Hb; cbn [out_state out_shown out_world].
  2: { exists p. split; [by eapply node_at_repr|]. by split. }
  destruct (finish_primary b SUCCESS) as [p' Hp']; [by left|]. rewrite Hp'.
  exists p'. split; [by eapply node_at_repr|]. split; [done|]. cbn [snd]. intros Hp.
  destruct p; cbn in Hb; repeat match type of Hb with context [id =? ?c] => destruct (Z.eqb_spec id c) end;
    simplify_eq; cbn in Hp'; simplify_eq; try (apply on_deactivate_off); auto; by destruct Hp.
Qed.

Lemma Forall_alter_off f i es : (forall e, off e -> off (f e)) -> Forall off es -> Forall off (alter f i es).
Proof. intros Hf H. apply Forall_alter; [done|]. auto. Qed.

Lemma managed_step_inv ne ne' : managed_inv ne -> managed_step ne ne' -> managed_inv ne'.
Proof.
  intros (p & Hr & Hcb & Hoff) Hstep. destruct Hstep as [n es r q n' es' Hs|n es|n es i|n es i]; cbn in *.
  - destruct r as [id|label]; cbn [serve] in Hs; [by eapply trigger_managed|].
    unfold trigger_transition_label in Hs.
    destruct (current_transition_idle n p (fun s => rcl_lifecycle_get_transition_by_label s label) Hr) as (st & _ & E).
    rewrite E in Hs. cbn [rbind] in Hs. destruct (rcl_lifecycle_get_transition_by_label st label) as [t|].
    + by eapply trigger_managed.
    + injection Hs as _ <- <-. by exists p.
  - exists p. split; [done|]. split; [done|]. cbn. intros Hp. apply Forall_app. split; [auto|]. by repeat constructor.
  - exists p. split; [done|]. split; [done|]. cbn. intros Hp. apply Forall_alter_off; [done|auto].
  - exists p. split; [done|]. split; [done|]. cbn. intros Hp. apply Forall_alter_off; [|auto].
    unfold off, entity_publish. intros e He. by destruct (activated_ e) eqn:E; cbn; rewrite ?E.
Qed.

(** A managed publisher sends nothing before its node is first activated,
    nor after the node was deactivated: with the callbacks of
    [LifecycleNode], whatever requests are made and publishers created, in
    [unconfigured] and [inactive] no existing publisher passes a message
    on. *)
Theorem inactive_publishers_silent n es p ne e :
  idle n Unconfigured -> cb_map_ n = lifecycle_node_callbacks -> es = [] ->
  rtc managed_step (n, es) ne -> idle ne.1 p -> p = Unconfigured \/ p = Inactive ->
  e ∈ ne.2 -> alive e = true -> (entity_publish e).1 = false.
Proof.
  intros Hr Hcb -> Hsteps Hp Hsilent He Ha.
  assert (Hinv : managed_inv ne).
  { assert (H0 : managed_inv (n, [])) by (exists Unconfigured; split; [done|]; split; [done|]; by constructor).
    revert H0. induction Hsteps; eauto using managed_step_inv. }
  destruct Hinv as (p' & Hr' & _ & Hoff).
  pose proof (in_state_inj _ _ _ (proj1 Hp) (proj1 Hr')) as [= <-].
  specialize (Hoff Hsilent). rewrite Forall_forall in Hoff. unfold entity_publish. by rewrite (Hoff e He Ha).
Qed.

(** A node that is activated switches its publishers on; one that is shut
    down while active leaves them on. *)
Lemma shutdown_leaves_on n es :
  idle n Active -> cb_map_ n = lifecycle_node_callbacks ->
  exists n', trigger_transition rcl_publish n TRANSITION_ACTIVE_SHUTDOWN es = Ok (Some (ptr (Prim Finalized)), n', es) /\
    idle n' Finalized.
Proof.
  intros Hr Hcb. unfold trigger_transition.
  rewrite (change_state_refines rcl_publish n _ _ TRANSITION_ACTIVE_SHUTDOWN es Hr), Hcb, do_request_default.
  cbn. eexists. split; [done|]. by eapply node_at_repr.
Qed.
End Managed.

(** ** Instances *)

Definition example_node : LifecycleNodeInterfaceImpl Entities :=
  mkNode (default_machine (mkCom true true) (mkOptions true true)) (Some (ptr (Prim Unconfigured)))
    lifecycle_node_callbacks.

Definition always_sends : TransitionEvent -> Entities -> bool * Entities := fun _ es => (true, es).
Definition never_sends : TransitionEvent -> Entities -> bool * Entities := fun _ es => (false, es).

Lemma example_idle : idle example_node Unconfigured.
Proof. split; [done|]. split; [done|]. done. Qed.

Lemma always_sends_ok e es : (always_sends e es).1 = true.
Proof. done. Qed.

Lemma change_state_refines_witness :
  change_state always_sends example_node TRANSITION_CONFIGURE [] =
  Ok (changed example_node (mkOutcome RCL_RET_OK (Some SUCCESS) (Prim Inactive) (Prim Inactive) [])).
Proof.
  rewrite (change_state_refines always_sends example_node _ _ TRANSITION_CONFIGURE [] example_idle). reflexivity.
Defined.

Lemma change_state_primary_witness :
  exists c q, change_state always_sends example_node TRANSITION_CONFIGURE [] = Ok c /\
    repr (node_after c) (Prim q) (Prim q) /\ ret_code c = RCL_RET_OK.
Proof.
  destruct (change_state_primary always_sends always_sends_ok example_node Unconfigured TRANSITION_CONFIGURE []
    example_idle) as (c & q & H1 & H2 & _ & H3).
  exists c, q. split; [exact H1|]. split; [exact H2|]. apply H3. by exists Configuring.
Defined.

Lemma unpublished_start_wedges_witness :
  exists n', change_state never_sends example_node TRANSITION_CONFIGURE [] = Ok (mkChanged RCL_RET_ERROR None n' []) /\
    repr n' (Trans Configuring) (Prim Unconfigured) /\
    change_state never_sends n' TRANSITION_UNCONFIGURED_SHUTDOWN [] = Ok (mkChanged RCL_RET_ERROR None n' []).
Proof.
  destruct (unpublished_start_wedges never_sends example_node Unconfigured TRANSITION_CONFIGURE Configuring [] []
    example_idle eq_refl eq_refl) as (n' & H1 & H2 & H3).
  exists n'. split; [exact H1|]. split; [exact H2|]. apply H3. unfold TRANSITION_UNCONFIGURED_SHUTDOWN. lia.
Defined.

Lemma example_shutdown_ok k n' w' :
  serve_all always_sends example_node [] (fun _ => ByLabel rcl_lifecycle_shutdown_label) k = Ok (n', w') ->
  shutdown_ok always_sends n' w'.
Proof.
  intros E. destruct (serve_all_idle always_sends always_sends_ok example_node Unconfigured []
    (fun _ => ByLabel rcl_lifecycle_shutdown_label) k example_idle) as (q & n2 & w2 & E2 & _ & Hcb).
  rewrite E in E2. injection E2 as <- <-. intros p _. by rewrite Hcb.
Qed.

Lemma eventually_finalized_witness :
  exists m, forall k, (m <= k)%nat -> exists n' w',
    serve_all always_sends example_node [] (fun _ => ByLabel rcl_lifecycle_shutdown_label) k = Ok (n', w') /\
    idle n' Finalized.
Proof.
  apply (eventually_finalized always_sends always_sends_ok example_node Unconfigured [] _ 0 example_idle).
  - intros k. exists k. split; [lia|done].
  - intros k n' w' _. apply example_shutdown_ok.
Defined.

Lemma route_reaches_witness :
  exists n' w', serve_list always_sends example_node [] (route Unconfigured Active) = Ok (n', w') /\ idle n' Active.
Proof.
  apply (route_reaches always_sends always_sends_ok example_node Unconfigured Active [] example_idle); [done|].
  intros s initial w. destruct s as [[]|[]]; reflexivity.
Defined.

Lemma on_change_state_by_id_witness :
  on_change_state always_sends example_node TRANSITION_ACTIVATE "" [] = Throw UninitializedRead.
Proof.
  rewrite (proj1 (on_change_state_by_id always_sends example_node _ _ TRANSITION_ACTIVATE [] example_idle)). reflexivity.
Defined.

Lemma inactive_publishers_silent_witness :
  (entity_publish new_publisher).1 = false.
Proof.
  apply (inactive_publishers_silent always_sends (fun _ _ => eq_refl) example_node [] Unconfigured
    (example_node, [new_publisher]) new_publisher example_idle eq_refl eq_refl).
  - apply rtc_once. exact (ms_create always_sends example_node []).
  - exact example_idle.
  - by left.
  - left.
  - reflexivity.
Defined.
