(* ===== verification/ActionGoal.v ===== *)
(** * Goals of an action

    [rcl_action/src/rcl_action/goal_state_machine.c] and the parts of
    [types.h] and [action_server.c] that concern one goal: its states and
    events, its identifier and the time at which it was accepted.

    States are [int8_t] and events an unsigned enumeration, so both are
    integers here; an assertion that fails is an error of its own. *)

From Stdlib Require Import ZArith Lia.
From stdpp Require Import base numbers list.
From S2P Require Import Prelude RclTypes.
#[local] Open Scope Z_scope.

(** ** The state machine *)

Definition GOAL_STATE_UNKNOWN : Z := 0.
Definition GOAL_STATE_ACCEPTED : Z := 1.
Definition GOAL_STATE_EXECUTING : Z := 2.
Definition GOAL_STATE_CANCELING : Z := 3.
Definition GOAL_STATE_SUCCEEDED : Z := 4.
Definition GOAL_STATE_CANCELED : Z := 5.
Definition GOAL_STATE_ABORTED : Z := 6.
Definition GOAL_STATE_NUM_STATES : Z := 7.

Definition GOAL_EVENT_EXECUTE : Z := 0.
Definition GOAL_EVENT_CANCEL_GOAL : Z := 1.
Definition GOAL_EVENT_SUCCEED : Z := 2.
Definition GOAL_EVENT_ABORT : Z := 3.
Definition GOAL_EVENT_CANCELED : Z := 4.
Definition GOAL_EVENT_NUM_EVENTS : Z := 5.

Inductive assertion := AssertionFailed.

Definition checked (b : bool) (state : Z) : Result assertion Z :=
  if b then Ok state else Throw AssertionFailed.

Definition _execute_event_handler (state event : Z) : Result assertion Z :=
  checked ((state =? GOAL_STATE_ACCEPTED) && (event =? GOAL_EVENT_EXECUTE)) GOAL_STATE_EXECUTING.

Definition _cancel_goal_event_handler (state event : Z) : Result assertion Z :=
  checked (((state =? GOAL_STATE_ACCEPTED) || (state =? GOAL_STATE_EXECUTING)) && (event =? GOAL_EVENT_CANCEL_GOAL))
    GOAL_STATE_CANCELING.

Definition _succeed_event_handler (state event : Z) : Result assertion Z :=
  checked (((state =? GOAL_STATE_EXECUTING) || (state =? GOAL_STATE_CANCELING)) && (event =? GOAL_EVENT_SUCCEED))
    GOAL_STATE_SUCCEEDED.

Definition _abort_event_handler (state event : Z) : Result assertion Z :=
  checked (((state =? GOAL_STATE_EXECUTING) || (state =? GOAL_STATE_CANCELING)) && (event =? GOAL_EVENT_ABORT))
    GOAL_STATE_ABORTED.

Definition _canceled_event_handler (state event : Z) : Result assertion Z :=
  checked ((state =? GOAL_STATE_CANCELING) && (event =? GOAL_EVENT_CANCELED)) GOAL_STATE_CANCELED.

(** The table, row by row; what it does not list is [NULL]. *)
Definition _goal_state_transition_map : list (list (option (Z -> Z -> Result assertion Z))) :=
  let none := None in
  [ [none; none; none; none; none];
    [Some _execute_event_handler; Some _cancel_goal_event_handler; none; none; none];
    [none; Some _cancel_goal_event_handler; Some _succeed_event_handler; Some _abort_event_handler; none];
    [none; none; Some _succeed_event_handler; Some _abort_event_handler; Some _canceled_event_handler];
    [none; none; none; none; none];
    [none; none; none; none; none];
    [none; none; none; none; none] ].

Definition rcl_action_transition_goal_state (state event : Z) : Result assertion Z :=
  if (state <? 0) || (GOAL_STATE_NUM_STATES <=? state) || (GOAL_EVENT_NUM_EVENTS <=? event)
  then Ok GOAL_STATE_UNKNOWN else
  match _goal_state_transition_map !! Z.to_nat state ≫= (.!! Z.to_nat event) with
  | Some (Some handler) => handler state event
  | _ => Ok GOAL_STATE_UNKNOWN
  end.

(** The states of the design, with its transitions. *)
Inductive goal_step : Z -> Z -> Z -> Prop :=
| gs_execute : goal_step GOAL_STATE_ACCEPTED GOAL_EVENT_EXECUTE GOAL_STATE_EXECUTING
| gs_cancel_accepted : goal_step GOAL_STATE_ACCEPTED GOAL_EVENT_CANCEL_GOAL GOAL_STATE_CANCELING
| gs_cancel_executing : goal_step GOAL_STATE_EXECUTING GOAL_EVENT_CANCEL_GOAL GOAL_STATE_CANCELING
| gs_succeed s : s = GOAL_STATE_EXECUTING \/ s = GOAL_STATE_CANCELING ->
    goal_step s GOAL_EVENT_SUCCEED GOAL_STATE_SUCCEEDED
| gs_abort s : s = GOAL_STATE_EXECUTING \/ s = GOAL_STATE_CANCELING ->
    goal_step s GOAL_EVENT_ABORT GOAL_STATE_ABORTED
| gs_canceled : goal_step GOAL_STATE_CANCELING GOAL_EVENT_CANCELED GOAL_STATE_CANCELED.

Definition active_state (s : Z) : bool :=
  (s =? GOAL_STATE_ACCEPTED) || (s =? GOAL_STATE_EXECUTING) || (s =? GOAL_STATE_CANCELING).

Lemma goal_step_computes state event s :
  goal_step state event s -> rcl_action_transition_goal_state state event = Ok s.
Proof. by destruct 1 as [| | |s [-> | ->]|s [-> | ->]|]. Qed.

#[export] Hint Constructors goal_step : ros.

(** For every state and event, in range or not, the state machine of
    goals violates none of its assertions and implements the transitions of
    the design: it answers [s'] when the design leads to [s'], and unknown
    when the design has no transition. *)
Theorem transition_goal_state_spec state event :
  0 <= event ->
  exists s, rcl_action_transition_goal_state state event = Ok s /\
    (s = GOAL_STATE_UNKNOWN \/ goal_step state event s) /\
    (forall s', goal_step state event s' -> s = s').
Proof.
  intros He.
  enough (exists s, rcl_action_transition_goal_state state event = Ok s /\
    (s = GOAL_STATE_UNKNOWN \/ goal_step state event s)) as (s & Hs & H).
  { exists s. split; [done|]. split; [done|]. intros s' H'%goal_step_computes. congruence. }
  unfold rcl_action_transition_goal_state.
  destruct ((state <? 0) || (GOAL_STATE_NUM_STATES <=? state) || (GOAL_EVENT_NUM_EVENTS <=? event)) eqn:E;
    [by exists GOAL_STATE_UNKNOWN; auto|].
  rewrite !orb_false_iff, Z.ltb_ge, !Z.leb_gt in E.
  unfold GOAL_STATE_NUM_STATES, GOAL_EVENT_NUM_EVENTS in E.
  assert (Hs : state = 0 \/ state = 1 \/ state = 2 \/ state = 3 \/ state = 4 \/ state = 5 \/ state = 6) by lia.
  assert (Hv : event = 0 \/ event = 1 \/ event = 2 \/ event = 3 \/ event = 4) by lia.
  clear E He.
  destruct_or? Hs; destruct_or? Hv; subst; (eexists; split; [reflexivity|]);
    first [left; reflexivity | right; constructor; auto].
Qed.

(** Goals only move forward: no state that is left is entered again, and the
    final states have no transition. *)
Definition rank (s : Z) : Z :=
  if s =? GOAL_STATE_ACCEPTED then 0 else if s =? GOAL_STATE_EXECUTING then 1
  else if s =? GOAL_STATE_CANCELING then 2 else 3.

Lemma goal_step_rank s e s' : goal_step s e s' -> rank s < rank s' /\ active_state s = true.
Proof. by destruct 1 as [| | |s [-> | ->]|s [-> | ->]|]. Qed.

(** ** Identity and time *)

Definition UUID_SIZE : nat := 16.

Record rcl_action_goal_info_t := mkInfo { uuid : list Z; sec : Z; nanosec : Z }.

Definition uuidcmp (a b : list Z) : bool := bool_decide (a = b).
Definition zerouuid : list Z := replicate UUID_SIZE 0.
Definition uuidcmpzero (a : list Z) : bool := uuidcmp a zerouuid.

Definition rcl_action_get_zero_initialized_goal_info : rcl_action_goal_info_t := mkInfo zerouuid 0 0.

Definition RCUTILS_S_TO_NS (seconds : Z) : Z := i64 (seconds * 1000000000).
Definition RCUTILS_NS_TO_S (nanoseconds : Z) : Z := Z.quot nanoseconds 1000000000.

Definition _goal_info_stamp_to_nanosec (g : rcl_action_goal_info_t) : Z := i64 (RCUTILS_S_TO_NS (sec g) + nanosec g).

(** The members are [int32] and [uint32]. *)
Definition _nanosec_to_goal_info_stamp (ns : Z) (g : rcl_action_goal_info_t) : rcl_action_goal_info_t :=
  mkInfo (uuid g) (i32 (RCUTILS_NS_TO_S ns)) (u32 (Z.rem ns (RCUTILS_S_TO_NS 1))).

Lemma uuidcmp_eq a b : uuidcmp a b = true <-> a = b.
Proof. apply bool_decide_eq_true. Qed.

(** The time of a clock survives the stamp until the year 2038. *)
Lemma stamp_roundtrip ns g :
  0 <= ns < 2 ^ 31 * 1000000000 ->
  _goal_info_stamp_to_nanosec (_nanosec_to_goal_info_stamp ns g) = ns.
Proof.
  intros Hns. unfold _goal_info_stamp_to_nanosec, _nanosec_to_goal_info_stamp, RCUTILS_S_TO_NS, RCUTILS_NS_TO_S.
  cbn [sec nanosec]. change (i64 (1 * 1000000000)) with 1000000000.
  rewrite Z.quot_div_nonneg, Z.rem_mod_nonneg by lia.
  pose proof (Z.div_mod ns 1000000000 ltac:(lia)). pose proof (Z.mod_pos_bound ns 1000000000 ltac:(lia)).
  rewrite (wrap_s_id 32 (ns / 1000000000)) by (unfold in_s; lia).
  rewrite wrap_u_id by (unfold in_u; lia).
  assert (0 <= ns <= int64_max) by (unfold int64_max; lia).
  assert (int64_min <= 0) by (unfold int64_min; lia).
  rewrite (i64_id (ns / 1000000000 * 1000000000)) by lia. rewrite i64_id by lia. lia.
Qed.

(** Accepted events, one after the other. *)
Inductive goal_steps : Z -> list Z -> Z -> Prop :=
| gss_nil s : goal_steps s [] s
| gss_cons s e s1 es s2 : goal_step s e s1 -> goal_steps s1 es s2 -> goal_steps s (e :: es) s2.

(** A goal comes to an end: it accepts at most three events whatever they
    are, and as long as it is active there is one that it accepts. *)
Theorem goal_steps_bounded s es s' :
  goal_steps s es s' ->
  (length es <= 3)%nat /\ (active_state s' = true <-> exists e s2, 0 <= e /\ goal_step s' e s2).
Proof.
  intros H. split.
  - assert (Hr : forall x, 0 <= rank x <= 3) by (intros x; unfold rank; repeat (case_match; try lia)).
    enough (Z.of_nat (length es) <= rank s' - rank s) by (pose proof (Hr s); pose proof (Hr s'); lia).
    clear Hr. induction H as [|s e s1 es s2 Hs _ IH]; [cbn; lia|].
    apply goal_step_rank in Hs as [Hs _]. cbn [length]. lia.
  - unfold active_state. rewrite !orb_true_iff, !Z.eqb_eq. split.
    + intros [[-> | ->] | ->].
      * exists GOAL_EVENT_EXECUTE, GOAL_STATE_EXECUTING. split; [done | constructor].
      * exists GOAL_EVENT_SUCCEED, GOAL_STATE_SUCCEEDED. split; [done | constructor; auto].
      * exists GOAL_EVENT_CANCELED, GOAL_STATE_CANCELED. split; [done | constructor].
    + intros (e & s2 & _ & [| | |x [-> | ->]|x [-> | ->]|]); auto.
Qed.

Lemma transition_goal_state_spec_witness :
  exists s, rcl_action_transition_goal_state GOAL_STATE_CANCELING GOAL_EVENT_CANCELED = Ok s /\
    s = GOAL_STATE_CANCELED.
Proof.
  destruct (transition_goal_state_spec GOAL_STATE_CANCELING GOAL_EVENT_CANCELED ltac:(discriminate)) as (s & H1 & _ & H3).
  exists s. split; [exact H1|]. apply H3. constructor.
Defined.

Lemma goal_steps_bounded_witness :
  (length [GOAL_EVENT_EXECUTE; GOAL_EVENT_CANCEL_GOAL; GOAL_EVENT_CANCELED] <= 3)%nat.
Proof.
  apply (goal_steps_bounded GOAL_STATE_ACCEPTED _ GOAL_STATE_CANCELED).
  repeat (econstructor; [constructor|]). constructor.
Defined.
