(* ===== verification/ActionServer.v ===== *)
(** * Action servers

    [rcl_action/src/rcl_action/goal_handle.c] and [action_server.c]: the goals
    that a server tracks, from their acceptance to their expiry.

    The server holds an array of pointers to goal handles, each of which
    points to the data of its goal.  Arrays, handles and data are kept in
    three heaps; a key that is not in its heap was freed, and using it is an
    error ([UseAfterFree]).  The layer above copies handles, so that several
    may point to the same data.  [refuse k] tells whether the allocator
    refuses the request with number [k].  Services and publishers are left to
    the middleware: [valid] tells whether they are usable.  The clock is an
    argument of each call, as in [Timer]. *)

From Stdlib Require Import ZArith Lia.
From stdpp Require Import base numbers list gmap.
From S2P Require Import Prelude RclTypes Timer ActionGoal.
#[local] Open Scope Z_scope.

Inductive act_error := UseAfterFree | OutOfBounds | FailedAssertion.

Record goal_handle_impl := mkGoal { info : rcl_action_goal_info_t; goal_state : Z }.

(** Array cells and the [impl] of a handle may be [NULL]. *)
Record Heap := mkHeap {
  arrays : gmap nat (list (option nat));
  handles : gmap nat (option nat);
  impls : gmap nat goal_handle_impl;
  next_alloc : nat;
}.

Record rcl_action_server_impl_t := mkServer {
  valid : bool;
  expire_timer : rcl_timer_t;
  goal_handles : option nat;
  num_goal_handles : nat;
  result_timeout : Z;
}.

(** ** Goal handles *)

(** What a pointer to a handle gives: nothing if the handle is not valid. *)
Definition goal_of (h : Heap) (p : option nat) : Result act_error (option (nat * goal_handle_impl)) :=
  match p with
  | None => Ok None
  | Some p =>
    match handles h !! p with
    | None => Throw UseAfterFree
    | Some None => Ok None
    | Some (Some q) => match impls h !! q with None => Throw UseAfterFree | Some g => Ok (Some (q, g)) end
    end
  end.

Definition rcl_action_goal_handle_get_info (h : Heap) (p : option nat)
    : Result act_error (rcl_ret_t * option rcl_action_goal_info_t) :=
  let! g := goal_of h p in
  Ok match g with None => (RCL_RET_ACTION_GOAL_HANDLE_INVALID, None) | Some (_, g) => (RCL_RET_OK, Some (info g)) end.

Definition rcl_action_goal_handle_get_status (h : Heap) (p : option nat)
    : Result act_error (rcl_ret_t * option Z) :=
  let! g := goal_of h p in
  Ok match g with None => (RCL_RET_ACTION_GOAL_HANDLE_INVALID, None) | Some (_, g) => (RCL_RET_OK, Some (goal_state g)) end.

Definition rcl_action_goal_handle_is_active (h : Heap) (p : option nat) : Result act_error bool :=
  let! g := goal_of h p in
  Ok match g with None => false | Some (_, g) => active_state (goal_state g) end.

Definition transition (state event : Z) : Result act_error Z :=
  match rcl_action_transition_goal_state state event with
  | Ok s => Ok s
  | Throw AssertionFailed => Throw FailedAssertion
  end.

Definition rcl_action_goal_handle_is_cancelable (h : Heap) (p : option nat) : Result act_error bool :=
  let! g := goal_of h p in
  match g with
  | None => Ok false
  | Some (_, g) => let! s := transition (goal_state g) GOAL_EVENT_CANCEL_GOAL in Ok (GOAL_STATE_CANCELING =? s)
  end.

Definition set_impls (h : Heap) (m : gmap nat goal_handle_impl) : Heap :=
  mkHeap (arrays h) (handles h) m (next_alloc h).

Definition rcl_action_update_goal_state (h : Heap) (p : option nat) (goal_event : Z)
    : Result act_error (rcl_ret_t * Heap) :=
  let! g := goal_of h p in
  match g with
  | None => Ok (RCL_RET_ACTION_GOAL_HANDLE_INVALID, h)
  | Some (q, g) =>
    let! new_state := transition (goal_state g) goal_event in
    if GOAL_STATE_UNKNOWN =? new_state then Ok (RCL_RET_ACTION_GOAL_EVENT_INVALID, h)
    else Ok (RCL_RET_OK, set_impls h (<[q := mkGoal (info g) new_state]> (impls h)))
  end.

Definition grant_all (k : nat) : bool := false.

Section Server.
Variable refuse : nat -> bool.

(** The number of an allocation that is granted. *)
Definition allocate (h : Heap) : option nat * Heap :=
  (if refuse (next_alloc h) then None else Some (next_alloc h),
   mkHeap (arrays h) (handles h) (impls h) (S (next_alloc h))).

Definition set_arrays (h : Heap) (m : gmap nat (list (option nat))) : Heap :=
  mkHeap m (handles h) (impls h) (next_alloc h).
Definition set_handles (h : Heap) (m : gmap nat (option nat)) : Heap :=
  mkHeap (arrays h) m (impls h) (next_alloc h).

(** [reallocate]: a new array of [n] cells with the contents of the old one,
    which is freed, or nothing.  New cells are [NULL]. *)
Definition reallocate_array (h : Heap) (old : option nat) (n : nat) : Result act_error (option nat * Heap) :=
  let! cells :=
    match old with
    | None => Ok []
    | Some b => match arrays h !! b with None => Throw UseAfterFree | Some cells => Ok cells end
    end in
  let '(b, h) := allocate h in
  match b with
  | None => Ok (None, h)
  | Some b =>
    let freed := match old with None => arrays h | Some old => delete old (arrays h) end in
    Ok (Some b, set_arrays h (<[b := take n (cells ++ replicate n None)]> freed))
  end.

(** [p] points to a handle; a new one has no data. *)
Definition rcl_action_goal_handle_init (h : Heap) (p : nat) (g : rcl_action_goal_info_t)
    : Result act_error (rcl_ret_t * Heap) :=
  match handles h !! p with
  | None => Throw UseAfterFree
  | Some (Some _) => Ok (RCL_RET_ALREADY_INIT, h)
  | Some None =>
    let '(q, h) := allocate h in
    match q with
    | None => Ok (RCL_RET_BAD_ALLOC, h)
    | Some q =>
      Ok (RCL_RET_OK,
          set_impls (set_handles h (<[p := Some q]> (handles h))) (<[q := mkGoal g GOAL_STATE_ACCEPTED]> (impls h)))
    end
  end.

(** The data are freed; the handle goes on pointing to them. *)
Definition rcl_action_goal_handle_fini (h : Heap) (p : nat) : Result act_error (rcl_ret_t * Heap) :=
  match handles h !! p with
  | None => Throw UseAfterFree
  | Some None => Ok (RCL_RET_OK, h)
  | Some (Some q) =>
    match impls h !! q with
    | None => Throw UseAfterFree
    | Some _ => Ok (RCL_RET_OK, set_impls h (delete q (impls h)))
    end
  end.

(** [action_server->impl->goal_handles[i]] *)
Definition read_cell (h : Heap) (goals : option nat) (i : nat) : Result act_error (option nat) :=
  match goals with
  | None => Throw OutOfBounds
  | Some b =>
    match arrays h !! b with
    | None => Throw UseAfterFree
    | Some cells => match cells !! i with None => Throw OutOfBounds | Some c => Ok c end
    end
  end.

Definition write_cell (h : Heap) (goals : option nat) (i : nat) (c : option nat) : Result act_error Heap :=
  match goals with
  | None => Throw OutOfBounds
  | Some b =>
    match arrays h !! b with
    | None => Throw UseAfterFree
    | Some cells =>
      if (i <? length cells)%nat then Ok (set_arrays h (<[b := <[i := c]> cells]> (arrays h))) else Throw OutOfBounds
    end
  end.

(** ** Accepting goals *)

(** The loop from index [i], with [n] goals to look at. *)
Fixpoint goal_exists_from (h : Heap) (goals : option nat) (id : list Z) (i n : nat) : Result act_error bool :=
  match n with
  | O => Ok false
  | S n =>
    let! c := read_cell h goals i in
    let! (ret, g) := rcl_action_goal_handle_get_info h c in
    match g with
    | None => Ok false
    | Some g => if uuidcmp (uuid g) id then Ok true else goal_exists_from h goals id (S i) n
    end
  end.

Definition rcl_action_server_goal_exists (h : Heap) (s : rcl_action_server_impl_t) (g : rcl_action_goal_info_t)
    : Result act_error bool :=
  if negb (valid s) then Ok false else goal_exists_from h (goal_handles s) (uuid g) 0 (num_goal_handles s).

(** The new handle, or [NULL]. *)
Definition rcl_action_accept_new_goal (h : Heap) (s : rcl_action_server_impl_t) (g : rcl_action_goal_info_t) (now : Now)
    : Result act_error (option nat * rcl_action_server_impl_t * Heap) :=
  if negb (valid s) then Ok (None, s, h) else
  let! known := rcl_action_server_goal_exists h s g in
  if known : bool then Ok (None, s, h) else
  let n := num_goal_handles s in
  let! (new_array, h) := reallocate_array h (goal_handles s) (S n) in
  match new_array with
  | None => Ok (None, s, h)
  | Some b =>
    let '(p, h) := allocate h in
    match p with
    | None => Ok (None, s, h)
    | Some p =>
      let h := set_handles h (<[p := None]> (handles h)) in
      let! h := write_cell h (Some b) n (Some p) in
      match now with
      | Throw _ => Ok (None, s, h)
      | Ok now =>
        let! (ret, h) := rcl_action_goal_handle_init h p (_nanosec_to_goal_info_stamp now g) in
        if negb (bool_decide (ret = RCL_RET_OK)) then Ok (None, s, h)
        else Ok (Some p, mkServer (valid s) (expire_timer s) (Some b) (S n) (result_timeout s), h)
      end
    end
  end.

(** ** The expiry timer *)

(** The number of goals that are not active and the smallest time until one
    of them expires. *)
Fixpoint next_expiry (h : Heap) (goals : option nat) (timeout current_time : Z) (i n : nat) (inactive : nat) (period : Z)
    : Result act_error (rcl_ret_t * nat * Z) :=
  match n with
  | O => Ok (RCL_RET_OK, inactive, period)
  | S n =>
    let! c := read_cell h goals i in
    let! active := rcl_action_goal_handle_is_active h c in
    if active : bool then next_expiry h goals timeout current_time (S i) n inactive period else
    let! (ret, g) := rcl_action_goal_handle_get_info h c in
    match g with
    | None => Ok (RCL_RET_ERROR, inactive, period)
    | Some g =>
      let delta := i64 (timeout - i64 (current_time - _goal_info_stamp_to_nanosec g)) in
      next_expiry h goals timeout current_time (S i) n (S inactive) (if delta <? period then delta else period)
    end
  end.

(** The clock is read at the start and again by [rcl_timer_reset]. *)
Definition _recalculate_expire_timer (h : Heap) (timer : rcl_timer_t) (timeout : Z) (goals : option nat) (n : nat)
    (now now_reset : Now) : Result act_error (rcl_ret_t * rcl_timer_t) :=
  match now with
  | Throw _ => Ok (RCL_RET_ERROR, timer)
  | Ok current_time =>
    let! (ret, inactive, minimum_period) := next_expiry h goals timeout current_time 0 n 0 timeout in
    if negb (bool_decide (ret = RCL_RET_OK)) then Ok (RCL_RET_ERROR, timer) else
    if (n =? 0)%nat || (inactive =? 0)%nat then Ok (rcl_timer_cancel timer) else
    let minimum_period := if minimum_period <? 0 then 0 else minimum_period in
    let '(ret, timer, _) := rcl_timer_reset timer now_reset in
    if negb (bool_decide (ret = RCL_RET_OK)) then Ok (ret, timer) else
    let '(old_period, timer) := rcl_timer_exchange_period timer minimum_period in
    Ok (match old_period with Ok _ => RCL_RET_OK | Throw ret => ret end, timer)
  end.

Definition set_timer (s : rcl_action_server_impl_t) (t : rcl_timer_t) : rcl_action_server_impl_t :=
  mkServer (valid s) t (goal_handles s) (num_goal_handles s) (result_timeout s).

Definition rcl_action_notify_goal_done (h : Heap) (s : rcl_action_server_impl_t) (now now_reset : Now)
    : Result act_error (rcl_ret_t * rcl_action_server_impl_t) :=
  if negb (valid s) then Ok (RCL_RET_ACTION_SERVER_INVALID, s) else
  let! (ret, t) :=
    _recalculate_expire_timer h (expire_timer s) (result_timeout s) (goal_handles s) (num_goal_handles s) now now_reset in
  Ok (ret, set_timer s t).

(** ** Expiring goals *)

(** [for (post_i = i; (post_i + 1) < num; ++post_i) a[post_i] = a[post_i + 1]],
    with [n] steps left. *)
Fixpoint shift_cells (cells : list (option nat)) (i n : nat) : list (option nat) :=
  match n with
  | O => cells
  | S n => shift_cells (match cells !! S i with Some c => <[i := c]> cells | None => cells end) (S i) n
  end.

(** [deallocate(goal_handles[i]); goal_handles[i] = NULL] and the shift. *)
Definition remove_cell (h : Heap) (goals : option nat) (i num : nat) : Result act_error Heap :=
  let! c := read_cell h goals i in
  let h := match c with None => h | Some p => set_handles h (delete p (handles h)) end in
  let! h := write_cell h goals i None in
  match goals with
  | None => Ok h
  | Some b =>
    match arrays h !! b with
    | None => Throw UseAfterFree
    | Some cells => Ok (set_arrays h (<[b := shift_cells cells i (num - 1 - i)]> (arrays h)))
    end
  end.

Record ExpireState := mkExpire {
  ex_heap : Heap;
  ex_num : nat;
  ex_expired : list rcl_action_goal_info_t;
  ex_ret : rcl_ret_t;
}.

(** The loop at index [i]; the index stays when a goal is removed.  [cap] is
    the capacity of the output, if there is one. *)
Fixpoint expire_from (fuel : nat) (goals : option nat) (cap : option nat) (current_time timeout : Z) (i : nat)
    (st : ExpireState) : Result act_error ExpireState :=
  match fuel with
  | O => Ok st
  | S fuel =>
    if negb (i <? ex_num st)%nat then Ok st else
    if match cap with None => false | Some cap => (cap <=? length (ex_expired st))%nat end then Ok st else
    let! c := read_cell (ex_heap st) goals i in
    let! active := rcl_action_goal_handle_is_active (ex_heap st) c in
    if active : bool then expire_from fuel goals cap current_time timeout (S i) st else
    let! (ret, g) := rcl_action_goal_handle_get_info (ex_heap st) c in
    match g with
    | None =>
      expire_from fuel goals cap current_time timeout (S i)
        (mkExpire (ex_heap st) (ex_num st) (ex_expired st) RCL_RET_ERROR)
    | Some g =>
      if timeout <? i64 (current_time - _goal_info_stamp_to_nanosec g) then
        let! h := remove_cell (ex_heap st) goals i (ex_num st) in
        expire_from fuel goals cap current_time timeout i
          (mkExpire h (ex_num st - 1) (ex_expired st ++ [g]) (ex_ret st))
      else expire_from fuel goals cap current_time timeout (S i) st
    end
  end.

(** Free the array, or shrink it; a failure leaves the server as it was. *)
Definition shrink (s : rcl_action_server_impl_t) (st : ExpireState)
    : Result act_error (rcl_ret_t * rcl_action_server_impl_t * Heap) :=
  match ex_expired st with
  | [] => Ok (ex_ret st, s, ex_heap st)
  | _ =>
    if (ex_num st =? 0)%nat then
      let h := ex_heap st in
      Ok (ex_ret st, mkServer (valid s) (expire_timer s) None 0 (result_timeout s),
          match goal_handles s with None => h | Some b => set_arrays h (delete b (arrays h)) end)
    else
      let! (b, h) := reallocate_array (ex_heap st) (goal_handles s) (ex_num st) in
      Ok match b with
         | None => (RCL_RET_ERROR, s, h)
         | Some b => (ex_ret st, mkServer (valid s) (expire_timer s) (Some b) (ex_num st) (result_timeout s), h)
         end
  end.

Record Expired := mkExpired {
  expire_ret : rcl_ret_t;
  num_expired : nat;
  expired_goals : list rcl_action_goal_info_t;
  expire_server : rcl_action_server_impl_t;
  expire_heap : Heap;
}.

(** [goals_out], [num_out]: whether the output pointers are given. *)
Definition rcl_action_expire_goals (h : Heap) (s : rcl_action_server_impl_t) (goals_out num_out : bool) (capacity : nat)
    (now now_timer now_reset : Now) : Result act_error Expired :=
  let failed ret := Ok (mkExpired ret 0 [] s h) in
  if negb (valid s) then failed RCL_RET_ACTION_SERVER_INVALID else
  let output_expired := goals_out && num_out && negb (capacity =? 0)%nat in
  if negb output_expired && (goals_out || num_out || negb (capacity =? 0)%nat) then failed RCL_RET_INVALID_ARGUMENT else
  match now with
  | Throw _ => failed RCL_RET_ERROR
  | Ok current_time =>
    let! st :=
      expire_from (num_goal_handles s) (goal_handles s) (if output_expired then Some capacity else None)
        current_time (result_timeout s) 0 (mkExpire h (num_goal_handles s) [] RCL_RET_OK) in
    let! (ret, s, h) := shrink s st in
    let! (timer_ret, t) :=
      _recalculate_expire_timer h (expire_timer s) (result_timeout s) (goal_handles s) (num_goal_handles s)
        now_timer now_reset in
    Ok (mkExpired (if bool_decide (timer_ret = RCL_RET_OK) then ret else timer_ret) (length (ex_expired st))
          (ex_expired st) (set_timer s t) h)
  end.

(** ** Cancel requests *)

(** [action_msgs/srv/CancelGoal] *)
Definition ERROR_NONE : Z := 0.
Definition ERROR_REJECTED : Z := 1.
Definition ERROR_UNKNOWN_GOAL_ID : Z := 2.
Definition ERROR_GOAL_TERMINATED : Z := 3.

Record rcl_action_cancel_response_t := mkResponse { return_code : Z; goals_canceling : list rcl_action_goal_info_t }.

(** Look for the one goal with the identifier: the handles to cancel and the
    code of the response, with the code of the function. *)
Fixpoint cancel_one (h : Heap) (goals : option nat) (id : list Z) (i n : nat) (ret : rcl_ret_t)
    : Result act_error (list (option nat) * Z * rcl_ret_t) :=
  match n with
  | O => Ok ([], ERROR_UNKNOWN_GOAL_ID, ret)
  | S n =>
    let! c := read_cell h goals i in
    let! (r, g) := rcl_action_goal_handle_get_info h c in
    match g with
    | None => cancel_one h goals id (S i) n RCL_RET_ERROR
    | Some g =>
      if uuidcmp id (uuid g) then
        let! cancelable := rcl_action_goal_handle_is_cancelable h c in
        Ok (if cancelable : bool then ([c], ERROR_NONE, ret) else ([], ERROR_GOAL_TERMINATED, ret))
      else cancel_one h goals id (S i) n ret
    end
  end.

(** All goals at or before a time, and the one with the identifier. *)
Fixpoint cancel_many (h : Heap) (goals : option nat) (id : list Z) (request_nanosec : Z) (i n : nat) (ret : rcl_ret_t)
    (chosen : list (option nat)) : Result act_error (list (option nat) * rcl_ret_t) :=
  match n with
  | O => Ok (chosen, ret)
  | S n =>
    let! c := read_cell h goals i in
    let! (r, g) := rcl_action_goal_handle_get_info h c in
    match g with
    | None => cancel_many h goals id request_nanosec (S i) n RCL_RET_ERROR chosen
    | Some g =>
      let! cancelable := rcl_action_goal_handle_is_cancelable h c in
      cancel_many h goals id request_nanosec (S i) n ret
        (if cancelable && ((_goal_info_stamp_to_nanosec g <=? request_nanosec) || uuidcmp id (uuid g))
         then chosen ++ [c] else chosen)
    end
  end.

(** The information about the chosen goals; a handle without any leaves the
    zeros of the allocation. *)
Fixpoint collect (h : Heap) (chosen : list (option nat)) (ret : rcl_ret_t)
    : Result act_error (list rcl_action_goal_info_t * rcl_ret_t) :=
  match chosen with
  | [] => Ok ([], ret)
  | c :: chosen =>
    let! (r, g) := rcl_action_goal_handle_get_info h c in
    let! (gs, ret) := collect h chosen (match g with None => RCL_RET_ERROR | Some _ => ret end) in
    Ok (default rcl_action_get_zero_initialized_goal_info g :: gs, ret)
  end.

(** [rcl_action_cancel_response_init] *)
Definition rcl_action_cancel_response_init (h : Heap) (r : rcl_action_cancel_response_t) (n : nat)
    : rcl_ret_t * Heap :=
  if (n =? 0)%nat then (RCL_RET_INVALID_ARGUMENT, h) else
  if negb (return_code r =? 0) || (0 <? length (goals_canceling r))%nat then (RCL_RET_ALREADY_INIT, h) else
  let '(p, h) := allocate h in
  (match p with None => RCL_RET_BAD_ALLOC | Some _ => RCL_RET_OK end, h).

(** The array of chosen goals is allocated first, even for no goals. *)
Definition rcl_action_process_cancel_request (h : Heap) (s : rcl_action_server_impl_t)
    (request : rcl_action_goal_info_t) (response : rcl_action_cancel_response_t)
    : Result act_error (rcl_ret_t * rcl_action_cancel_response_t * Heap) :=
  if negb (valid s) then Ok (RCL_RET_ACTION_SERVER_INVALID, response, h) else
  let '(tmp, h) := allocate h in
  match tmp with
  | None => Ok (RCL_RET_BAD_ALLOC, response, h)
  | Some _ =>
    let id := uuid request in
    let request_nanosec := _goal_info_stamp_to_nanosec request in
    let! (chosen, code, ret) :=
      (if negb (uuidcmpzero id) && (request_nanosec =? 0) then
        cancel_one h (goal_handles s) id 0 (num_goal_handles s) RCL_RET_OK
      else
        let request_nanosec := if uuidcmpzero id && (request_nanosec =? 0) then int64_max else request_nanosec in
        let! (chosen, ret) :=
          cancel_many h (goal_handles s) id request_nanosec 0 (num_goal_handles s) RCL_RET_OK [] in
        Ok (chosen, ERROR_NONE, ret)) in
    match chosen with
    | [] => Ok (ret, mkResponse code [], h)
    | _ =>
      let '(init_ret, h) := rcl_action_cancel_response_init h (mkResponse code (goals_canceling response)) (length chosen) in
      if negb (bool_decide (init_ret = RCL_RET_OK)) then
        Ok (if bool_decide (init_ret = RCL_RET_BAD_ALLOC) then RCL_RET_BAD_ALLOC else RCL_RET_ERROR,
            mkResponse code (goals_canceling response), h)
      else
        let! (infos, ret) := collect h chosen ret in
        Ok (ret, mkResponse code infos, h)
    end
  end.

(** ** The status of all goals *)

Fixpoint statuses_from (h : Heap) (goals : option nat) (i n : nat)
    : Result act_error (rcl_ret_t * list (rcl_action_goal_info_t * Z)) :=
  match n with
  | O => Ok (RCL_RET_OK, [])
  | S n =>
    let! c := read_cell h goals i in
    let! (r1, g) := rcl_action_goal_handle_get_info h c in
    let! (r2, st) := rcl_action_goal_handle_get_status h c in
    match g, st with
    | Some g, Some st =>
      let! (ret, l) := statuses_from h goals (S i) n in
      Ok (ret, match ret with RCL_RET_OK => (g, st) :: l | _ => [] end)
    | _, _ => Ok (RCL_RET_ERROR, [])
    end
  end.

(** [status_message] is given empty. *)
Definition rcl_action_get_goal_status_array (h : Heap) (s : rcl_action_server_impl_t)
    : Result act_error (rcl_ret_t * list (rcl_action_goal_info_t * Z) * Heap) :=
  if negb (valid s) then Ok (RCL_RET_ACTION_SERVER_INVALID, [], h) else
  if (num_goal_handles s =? 0)%nat then Ok (RCL_RET_OK, [], h) else
  let '(p, h) := allocate h in
  match p with
  | None => Ok (RCL_RET_BAD_ALLOC, [], h)
  | Some _ =>
    let! (ret, l) := statuses_from h (goal_handles s) 0 (num_goal_handles s) in Ok (ret, l, h)
  end.
End Server.

(** ** The goals of a server

    [tracks h s ents gs]: the array of the server is allocated and holds
    pointers to handles whose data are [gs], in order; [ents] lists the
    addresses of the handles and of their data, and no two goals share memory.
    Every address in use is smaller than that of the next allocation. *)

Definition data_at (h : Heap) (e : nat * nat) (g : goal_handle_impl) : Prop :=
  handles h !! e.1 = Some (Some e.2) /\ impls h !! e.2 = Some g.

Record tracks (h : Heap) (s : rcl_action_server_impl_t) (ents : list (nat * nat)) (gs : list goal_handle_impl) : Prop
  := mkTracks {
  tr_valid : valid s = true;
  tr_num : num_goal_handles s = length gs;
  tr_array : match goal_handles s with
    | None => ents = []
    | Some b => arrays h !! b = Some ((fun e => Some e.1) <$> ents)
    end;
  tr_data : Forall2 (data_at h) ents gs;
  tr_handles_nodup : NoDup ents.*1;
  tr_impls_nodup : NoDup ents.*2;
  tr_arrays_old : forall b, is_Some (arrays h !! b) -> (b < next_alloc h)%nat;
  tr_handles_old : forall p, is_Some (handles h !! p) -> (p < next_alloc h)%nat;
  tr_impls_old : forall q, is_Some (impls h !! q) -> (q < next_alloc h)%nat;
}.

(** A new server tracks nothing. *)
Lemma tracks_empty k t timeout :
  tracks (mkHeap ∅ ∅ ∅ k) (mkServer true t None 0 timeout) [] [].
Proof.
  split; cbn; try done; try constructor; intros x [y Hy]; by rewrite lookup_empty in Hy.
Qed.

(** The goals from index [i] on, as the loops meet them. *)
Inductive goals_from (h : Heap) (goals : option nat) : nat -> list goal_handle_impl -> Prop :=
| gf_nil i : goals_from h goals i []
| gf_cons i p q g gs :
    read_cell h goals i = Ok (Some p) -> goal_of h (Some p) = Ok (Some (q, g)) ->
    goals_from h goals (S i) gs -> goals_from h goals i (g :: gs).

Lemma goal_of_data h e g : data_at h e g -> goal_of h (Some e.1) = Ok (Some (e.2, g)).
Proof. intros [H1 H2]. cbn. by rewrite H1, H2. Qed.

Lemma cells_goals_from h b pre ents gs :
  arrays h !! b = Some (pre ++ ((fun e => Some e.1) <$> ents)) -> Forall2 (data_at h) ents gs ->
  goals_from h (Some b) (length pre) gs.
Proof.
  intros Hb Hd. revert pre Hb. induction Hd as [|e g ents gs Hg _ IH]; intros pre Hb; [constructor|].
  econstructor.
  - cbn. by rewrite Hb, lookup_app_r, Nat.sub_diag by lia.
  - by apply goal_of_data.
  - specialize (IH (pre ++ [Some e.1])). rewrite length_app, Nat.add_1_r in IH. apply IH.
    by rewrite <- app_assoc.
Qed.

Lemma tracks_goals_from h s ents gs : tracks h s ents gs -> goals_from h (goal_handles s) 0 gs.
Proof.
  intros [_ _ Ha Hd _ _ _ _ _]. destruct (goal_handles s) as [b|].
  - by apply (cells_goals_from h b [] ents).
  - subst. inversion Hd; subst. constructor.
Qed.

(** The heap an allocation leaves. *)
Definition bump (h : Heap) : Heap := mkHeap (arrays h) (handles h) (impls h) (S (next_alloc h)).

Lemma goals_from_bump h goals i gs : goals_from h goals i gs -> goals_from (bump h) goals i gs.
Proof. induction 1; econstructor; done. Qed.

Lemma tracks_bump h s ents gs : tracks h s ents gs -> tracks (bump h) s ents gs.
Proof.
  intros [H1 H2 H3 H4 H5 H6 H7 H8 H9]. split; try done; intros x Hx; cbn in *; constructor.
  - by apply H7.
  - by apply H8.
  - by apply H9.
Qed.

(** ** The loops over the goals *)

Lemma goal_exists_from_spec h goals id i gs :
  goals_from h goals i gs ->
  goal_exists_from h goals id i (length gs) = Ok (existsb (fun g => uuidcmp (uuid (info g)) id) gs).
Proof.
  induction 1 as [|i p q g gs Hc Hg _ IH]; [done|]. cbn [goal_exists_from length existsb].
  rewrite Hc. cbn [rbind]. unfold rcl_action_goal_handle_get_info. rewrite Hg. cbn [rbind].
  destruct (uuidcmp _ id); [done|]. by rewrite IH.
Qed.

Definition cancelable (g : goal_handle_impl) : bool :=
  (goal_state g =? GOAL_STATE_ACCEPTED) || (goal_state g =? GOAL_STATE_EXECUTING).

Lemma is_cancelable_spec h c q g :
  goal_of h c = Ok (Some (q, g)) -> rcl_action_goal_handle_is_cancelable h c = Ok (cancelable g).
Proof.
  intros Hg. unfold rcl_action_goal_handle_is_cancelable. rewrite Hg. cbn [rbind]. unfold transition.
  destruct (transition_goal_state_spec (goal_state g) GOAL_EVENT_CANCEL_GOAL) as (s & E & Hs & Huniq); [done|].
  rewrite E. cbn [rbind]. f_equal. apply Bool.eq_iff_eq_true. unfold cancelable.
  rewrite orb_true_iff, !Z.eqb_eq. split.
  - intros <-. destruct Hs as [Hs|Hs]; [done|]. inversion Hs; auto.
  - intros [Hg'|Hg']; symmetry; apply Huniq; rewrite Hg'; constructor.
Qed.

Lemma is_active_spec h c q g :
  goal_of h c = Ok (Some (q, g)) -> rcl_action_goal_handle_is_active h c = Ok (active_state (goal_state g)).
Proof. intros Hg. unfold rcl_action_goal_handle_is_active. by rewrite Hg. Qed.

Lemma get_info_spec h c q g :
  goal_of h c = Ok (Some (q, g)) -> rcl_action_goal_handle_get_info h c = Ok (RCL_RET_OK, Some (info g)).
Proof. intros Hg. unfold rcl_action_goal_handle_get_info. by rewrite Hg. Qed.

Lemma get_status_spec h c q g :
  goal_of h c = Ok (Some (q, g)) -> rcl_action_goal_handle_get_status h c = Ok (RCL_RET_OK, Some (goal_state g)).
Proof. intros Hg. unfold rcl_action_goal_handle_get_status. by rewrite Hg. Qed.

Lemma statuses_from_spec h goals i gs :
  goals_from h goals i gs ->
  statuses_from h goals i (length gs) = Ok (RCL_RET_OK, (fun g => (info g, goal_state g)) <$> gs).
Proof.
  induction 1 as [|i p q g gs Hc Hg _ IH]; [done|]. cbn [statuses_from length].
  rewrite Hc. cbn [rbind]. rewrite (get_info_spec _ _ _ _ Hg), (get_status_spec _ _ _ _ Hg). cbn [rbind].
  by rewrite IH.
Qed.

(** Pointers to handles with the data [gs]. *)
Definition points_to (h : Heap) : list (option nat) -> list goal_handle_impl -> Prop :=
  Forall2 (fun c g => exists q, goal_of h c = Ok (Some (q, g))).

Lemma collect_spec h cs gs ret : points_to h cs gs -> collect h cs ret = Ok (info <$> gs, ret).
Proof.
  induction 1 as [|c g cs gs [q Hg] _ IH]; [done|]. cbn [collect].
  rewrite (get_info_spec _ _ _ _ Hg). cbn [rbind]. by rewrite IH.
Qed.

Lemma cancel_one_spec h goals id i gs ret :
  goals_from h goals i gs ->
  exists cs code, cancel_one h goals id i (length gs) ret = Ok (cs, code, ret) /\
  match List.find (fun g => uuidcmp id (uuid (info g))) gs with
  | None => cs = [] /\ code = ERROR_UNKNOWN_GOAL_ID
  | Some g => if cancelable g then points_to h cs [g] /\ code = ERROR_NONE
              else cs = [] /\ code = ERROR_GOAL_TERMINATED
  end.
Proof.
  induction 1 as [|i p q g gs Hc Hg _ IH]; [by do 2 eexists|]. cbn [cancel_one length List.find].
  rewrite Hc. cbn [rbind]. rewrite (get_info_spec _ _ _ _ Hg). cbn [rbind].
  destruct (uuidcmp id (uuid (info g))); [|exact IH].
  rewrite (is_cancelable_spec _ _ _ _ Hg). cbn [rbind].
  destruct (cancelable g); do 2 eexists; (split; [done|]); [|done].
  split; [|done]. constructor; [by exists q | constructor].
Qed.

Lemma cancel_many_spec h goals id t i gs ret chosen :
  goals_from h goals i gs ->
  exists cs, cancel_many h goals id t i (length gs) ret chosen = Ok (chosen ++ cs, ret) /\
  points_to h cs (List.filter (fun g => cancelable g &&
    ((_goal_info_stamp_to_nanosec (info g) <=? t) || uuidcmp id (uuid (info g)))) gs).
Proof.
  intros H. revert chosen. induction H as [|i p q g gs Hc Hg _ IH]; intros chosen.
  - exists []. rewrite app_nil_r. split; [done | constructor].
  - cbn [cancel_many length List.filter]. rewrite Hc. cbn [rbind]. rewrite (get_info_spec _ _ _ _ Hg). cbn [rbind].
    rewrite (is_cancelable_spec _ _ _ _ Hg). cbn [rbind]. destruct (cancelable g && _) eqn:E.
    + destruct (IH (chosen ++ [Some p])) as (cs & -> & Hcs). exists (Some p :: cs).
      rewrite <- app_assoc. split; [done|]. constructor; [by exists q | done].
    + by destruct (IH chosen) as (cs & -> & Hcs); exists cs.
Qed.

(** ** Cancelling *)

(** The policy of [action_msgs/srv/CancelGoal]. *)
Definition wants (request : rcl_action_goal_info_t) (g : rcl_action_goal_info_t) : bool :=
  let all_ids := uuidcmpzero (uuid request) in
  let t := _goal_info_stamp_to_nanosec request in
  let no_time := t =? 0 in
  if all_ids && no_time then true
  else if all_ids then _goal_info_stamp_to_nanosec g <=? t
  else if no_time then uuidcmp (uuid request) (uuid g)
  else uuidcmp (uuid request) (uuid g) || (_goal_info_stamp_to_nanosec g <=? t).

(** The code of the response: an error only if one goal was asked for. *)
Definition cancel_code (request : rcl_action_goal_info_t) (gs : list goal_handle_impl) : Z :=
  if negb (uuidcmpzero (uuid request)) && (_goal_info_stamp_to_nanosec request =? 0) then
    match List.find (fun g => uuidcmp (uuid request) (uuid (info g))) gs with
    | None => ERROR_UNKNOWN_GOAL_ID
    | Some g => if cancelable g then ERROR_NONE else ERROR_GOAL_TERMINATED
    end
  else ERROR_NONE.

Definition unique_ids (gs : list goal_handle_impl) : Prop := NoDup ((fun g => uuid (info g)) <$> gs).
Definition proper_ids (gs : list goal_handle_impl) : Prop :=
  unique_ids gs /\ Forall (fun g => uuid (info g) <> zerouuid) gs.

Lemma filter_no_id id gs (P : goal_handle_impl -> bool) :
  id ∉ ((fun g => uuid (info g)) <$> gs) ->
  List.filter (fun g => P g && uuidcmp id (uuid (info g))) gs = [].
Proof.
  induction gs as [|g gs IH]; [done|]. rewrite fmap_cons, not_elem_of_cons. intros [Hg Hgs]. cbn [List.filter].
  assert (uuidcmp id (uuid (info g)) = false) as -> by (by apply bool_decide_eq_false).
  rewrite andb_false_r. by apply IH.
Qed.

(** At most one goal has an identifier. *)
Lemma filter_unique_id id gs (P : goal_handle_impl -> bool) :
  unique_ids gs ->
  List.filter (fun g => P g && uuidcmp id (uuid (info g))) gs =
  match List.find (fun g => uuidcmp id (uuid (info g))) gs with
  | Some g => if P g then [g] else []
  | None => []
  end.
Proof.
  unfold unique_ids. induction gs as [|g gs IH]; [done|]. rewrite fmap_cons, NoDup_cons. intros [Hg Hgs].
  cbn [List.filter List.find]. destruct (uuidcmp id (uuid (info g))) eqn:E.
  - apply uuidcmp_eq in E as ->. rewrite andb_true_r, filter_no_id by done. by destruct (P g).
  - rewrite andb_false_r. by apply IH.
Qed.

Lemma list_filter_ext {A} (P Q : A -> bool) l :
  (forall x, x ∈ l -> P x = Q x) -> List.filter P l = List.filter Q l.
Proof.
  induction l as [|x l IH]; intros H; [done|]. cbn [List.filter]. rewrite (H x) by left.
  rewrite IH; [done|]. intros y Hy. apply H. by right.
Qed.

(** The goals the loops choose are those of the policy. *)
Lemma many_is_policy request gs :
  proper_ids gs -> uuidcmpzero (uuid request) || negb (_goal_info_stamp_to_nanosec request =? 0) = true ->
  let t := _goal_info_stamp_to_nanosec request in
  List.filter (fun g => cancelable g && ((_goal_info_stamp_to_nanosec (info g) <=?
    (if uuidcmpzero (uuid request) && (t =? 0) then int64_max else t)) || uuidcmp (uuid request) (uuid (info g)))) gs =
  List.filter (fun g => cancelable g && wants request (info g)) gs.
Proof.
  intros [_ Hz] Hm. cbn zeta. apply list_filter_ext. intros g Hg. f_equal. unfold wants.
  rewrite Forall_forall in Hz. specialize (Hz g Hg).
  destruct (uuidcmpzero (uuid request)) eqn:Ez; cbn [andb orb negb] in *.
  - apply uuidcmp_eq in Ez. assert (uuidcmp (uuid request) (uuid (info g)) = false) as ->
      by (apply bool_decide_eq_false; congruence). rewrite orb_false_r.
    destruct (_goal_info_stamp_to_nanosec request =? 0); [|done].
    apply Z.leb_le. unfold _goal_info_stamp_to_nanosec. apply i64_range.
  - apply negb_true_iff in Hm. rewrite Hm. apply orb_comm.
Qed.

Section CancelSpec.
Context (refuse : nat -> bool) (h : Heap) (s : rcl_action_server_impl_t) (ents : list (nat * nat)) (gs : list goal_handle_impl).

(** What is left to do when the goals are chosen. *)
Lemma cancel_respond h' chosen cs code :
  points_to h' cs chosen -> refuse (next_alloc h') = false ->
  (chosen <> [] -> code = ERROR_NONE) ->
  exists h'', match cs with
    | [] => Ok (RCL_RET_OK, mkResponse code [], h')
    | _ =>
      let '(init_ret, h) := rcl_action_cancel_response_init refuse h' (mkResponse code []) (length cs) in
      if negb (bool_decide (init_ret = RCL_RET_OK)) then
        Ok (if bool_decide (init_ret = RCL_RET_BAD_ALLOC) then RCL_RET_BAD_ALLOC else RCL_RET_ERROR,
            mkResponse code [], h)
      else
        let! (infos, ret) := collect h cs RCL_RET_OK in
        Ok (ret, mkResponse code infos, h)
    end = Ok (RCL_RET_OK, mkResponse code (info <$> chosen), h'') /\ (h'' = h' \/ h'' = bump h').
Proof.
  intros Hp Hr Hc. destruct Hp as [|c g cs chosen Hg Hp].
  - exists h'. auto.
  - unfold rcl_action_cancel_response_init, allocate. rewrite Hc by done. cbn -[collect]. rewrite Hr. cbn -[collect].
    fold (bump h').
    assert (Hpb : points_to (bump h') (c :: cs) (g :: chosen)) by (constructor; [exact Hg | exact Hp]).
    rewrite (collect_spec (bump h') _ _ RCL_RET_OK Hpb). cbn. eauto.
Qed.

(** A cancel request answers, in the order of acceptance, with exactly
    the goals that the policy of the service definition names and that can be
    cancelled, and changes none; the code of the response is an error only
    when a single goal was asked for and it is unknown or cannot be cancelled.
    Memory is not refused and the goals have distinct non-zero identifiers. *)
Theorem process_cancel_request_spec request :
  tracks h s ents gs -> proper_ids gs ->
  refuse (next_alloc h) = false -> refuse (S (next_alloc h)) = false ->
  exists h', rcl_action_process_cancel_request refuse h s request (mkResponse 0 []) =
      Ok (RCL_RET_OK, mkResponse (cancel_code request gs)
            (info <$> List.filter (fun g => cancelable g && wants request (info g)) gs), h') /\
    tracks h' s ents gs.
Proof.
  intros Ht Hids Hr1 Hr2. unfold rcl_action_process_cancel_request, allocate.
  rewrite (tr_valid _ _ _ _ Ht), Hr1. cbn [negb]. fold (bump h).
  pose proof (goals_from_bump _ _ _ _ (tracks_goals_from _ _ _ _ Ht)) as Hf.
  pose proof (tracks_bump _ _ _ _ (tracks_bump _ _ _ _ Ht)) as Ht2.
  pose proof (tracks_bump _ _ _ _ Ht) as Ht1.
  rewrite (tr_num _ _ _ _ Ht). unfold cancel_code.
  destruct (negb (uuidcmpzero (uuid request)) && (_goal_info_stamp_to_nanosec request =? 0)) eqn:E.
  - destruct (cancel_one_spec _ _ (uuid request) 0 gs RCL_RET_OK Hf) as (cs & code & -> & Hcs). cbn [rbind goals_canceling].
    assert (Hw : List.filter (fun g => cancelable g && wants request (info g)) gs =
      List.filter (fun g => cancelable g && uuidcmp (uuid request) (uuid (info g))) gs).
    { apply list_filter_ext. intros g _. apply andb_true_iff in E as [E1 E2]. apply negb_true_iff in E1.
      unfold wants. by rewrite E1, E2. }
    rewrite Hw, filter_unique_id by apply Hids.
    destruct (List.find _ gs) as [g|]; [destruct (cancelable g)|]; destruct Hcs as [Hcs ->].
    + destruct (cancel_respond (bump h) [g] cs ERROR_NONE Hcs Hr2 (fun _ => eq_refl)) as (h' & -> & [-> | ->]); eauto.
    + subst cs. eexists. by split.
    + subst cs. eexists. by split.
  - destruct (cancel_many_spec _ _ (uuid request)
      (if uuidcmpzero (uuid request) && (_goal_info_stamp_to_nanosec request =? 0) then int64_max
       else _goal_info_stamp_to_nanosec request) 0 gs RCL_RET_OK [] Hf) as (cs & -> & Hcs).
    cbn [rbind app goals_canceling].
    rewrite many_is_policy in Hcs; [|done|by destruct (uuidcmpzero _), (_ =? 0)].
    destruct (cancel_respond (bump h) _ cs ERROR_NONE Hcs Hr2 (fun _ => eq_refl)) as (h' & -> & [-> | ->]); eauto.
Qed.
End CancelSpec.

(** ** Accepting *)

Lemma grow_cells {A} (cells : list A) x : take (S (length cells)) (cells ++ replicate (S (length cells)) x) = cells ++ [x].
Proof. rewrite take_app_ge by lia. replace (S (length cells) - length cells)%nat with 1%nat by lia. done. Qed.

Lemma write_last {A} (cells : list A) x y : <[length cells := y]> (cells ++ [x]) = cells ++ [y].
Proof. rewrite <- (Nat.add_0_r (length cells)). by rewrite insert_app_r. Qed.

Lemma data_preserved h h' ents gs :
  Forall2 (data_at h) ents gs ->
  (forall e, e ∈ ents -> handles h' !! e.1 = handles h !! e.1 /\ impls h' !! e.2 = impls h !! e.2) ->
  Forall2 (data_at h') ents gs.
Proof.
  rewrite !Forall2_same_length_lookup. intros [Hl Hd] Hp. split; [done|]. intros i e g He Hg.
  destruct (Hp e) as [H1 H2]; [by apply list_elem_of_lookup_2 in He|].
  destruct (Hd i e g He Hg) as [H3 H4]. split; congruence.
Qed.

(** A key below [n] was there or is the one inserted. *)
Lemma insert_old {A} (m : gmap nat A) k x n i :
  (forall j, is_Some (m !! j) -> (j < n)%nat) -> (k < n)%nat -> is_Some (<[k := x]> m !! i) -> (i < n)%nat.
Proof. intros Hm Hk [-> | [_ H]]%lookup_insert_is_Some; [done|]. by apply Hm. Qed.

Section AcceptSpec.
Context (refuse : nat -> bool) (h : Heap) (s : rcl_action_server_impl_t) (ents : list (nat * nat)) (gs : list goal_handle_impl).
Hypothesis Ht : tracks h s ents gs.
Abbreviation k := (next_alloc h).

Lemma server_goal_exists_spec g :
  rcl_action_server_goal_exists h s g = Ok (existsb (fun g' => uuidcmp (uuid (info g')) (uuid g)) gs).
Proof.
  unfold rcl_action_server_goal_exists. rewrite (tr_valid _ _ _ _ Ht), (tr_num _ _ _ _ Ht). cbn [negb].
  by apply goal_exists_from_spec, (tracks_goals_from _ _ ents).
Qed.

Lemma ents_length : length ents = length gs.
Proof. apply (Forall2_length _ _ _ (tr_data _ _ _ _ Ht)). Qed.

(** The array with room for one more goal. *)
Lemma reallocate_grow :
  refuse k = false ->
  exists freed, reallocate_array refuse h (goal_handles s) (S (length gs)) =
    Ok (Some k, mkHeap (<[k := ((fun e => Some e.1) <$> ents) ++ [None]]> freed) (handles h) (impls h) (S k)) /\
  freed = match goal_handles s with None => arrays h | Some b => delete b (arrays h) end.
Proof.
  intros Hr. unfold reallocate_array, allocate.
  pose proof (tr_array _ _ _ _ Ht) as Ha. pose proof ents_length as Hl.
  assert (Hg : take (S (length gs)) (((fun e : nat * nat => Some e.1) <$> ents) ++ replicate (S (length gs)) None) =
    ((fun e => Some e.1) <$> ents) ++ [None]).
  { rewrite <- Hl, <- (length_fmap (fun e : nat * nat => Some e.1)). apply grow_cells. }
  destruct (goal_handles s) as [b|]; [rewrite Ha | subst ents]; cbn [rbind]; rewrite Hr; eexists; split; try done.
  - by rewrite Hg.
  - by rewrite <- Hg.
Qed.

Lemma old_lt e : e ∈ ents -> (e.1 < k)%nat /\ (e.2 < k)%nat.
Proof.
  intros (i & Hi)%list_elem_of_lookup. destruct (Forall2_lookup_l _ _ _ _ _ (tr_data _ _ _ _ Ht) Hi) as (g & _ & H1 & H2).
  split; [apply (tr_handles_old _ _ _ _ Ht) | apply (tr_impls_old _ _ _ _ Ht)]; eauto.
Qed.

(** A goal is accepted once: an identifier that is tracked is refused and
    changes nothing; any other becomes the last of the tracked goals, in state
    accepted and stamped with the time of the clock, and the others, with
    their data, stay as they were. *)
Theorem accept_new_goal_spec g ns :
  refuse k = false -> refuse (S k) = false -> refuse (S (S k)) = false ->
  match List.find (fun g' => uuidcmp (uuid (info g')) (uuid g)) gs with
  | Some _ => rcl_action_accept_new_goal refuse h s g (Ok ns) = Ok (None, s, h)
  | None =>
    exists p q s' h', rcl_action_accept_new_goal refuse h s g (Ok ns) = Ok (Some p, s', h') /\
      tracks h' s' (ents ++ [(p, q)]) (gs ++ [mkGoal (_nanosec_to_goal_info_stamp ns g) GOAL_STATE_ACCEPTED]) /\
      (unique_ids gs -> unique_ids (gs ++ [mkGoal (_nanosec_to_goal_info_stamp ns g) GOAL_STATE_ACCEPTED]))
  end.
Proof.
  intros Hr1 Hr2 Hr3. unfold rcl_action_accept_new_goal. rewrite (tr_valid _ _ _ _ Ht), server_goal_exists_spec.
  cbn [negb rbind]. destruct (List.find _ gs) as [g0|] eqn:Ef.
  { apply find_some in Ef as [Hin He]. by rewrite (proj2 (existsb_exists _ _) (ex_intro _ g0 (conj Hin He))). }
  assert (existsb (fun g' => uuidcmp (uuid (info g')) (uuid g)) gs = false) as ->.
  { apply not_true_is_false. intros (g0 & Hin & He)%existsb_exists. by rewrite (find_none _ _ Ef g0 Hin) in He. }
  rewrite (tr_num _ _ _ _ Ht). destruct (reallocate_grow Hr1) as (freed & -> & Hfreed). cbn [rbind].
  unfold allocate. cbn [next_alloc]. rewrite Hr2. cbn [rbind write_cell set_handles arrays handles impls].
  rewrite lookup_insert_eq, length_app, length_fmap, ents_length. cbn [length].
  rewrite (proj2 (Nat.ltb_lt _ _)) by lia. unfold rcl_action_goal_handle_init, allocate.
  cbn [rbind set_arrays set_handles arrays handles impls next_alloc]. rewrite lookup_insert_eq, Hr3.
  cbn [rbind]. rewrite bool_decide_eq_true_2 by done. cbn [negb].
  do 4 eexists. split; [reflexivity|]. split.
  - assert (Hw : <[length gs := Some (S k)]> (((fun e : nat * nat => Some e.1) <$> ents) ++ [None]) =
      (fun e : nat * nat => Some e.1) <$> (ents ++ [(S k, S (S k))])).
    { rewrite fmap_app. cbn. rewrite <- ents_length, <- (length_fmap (fun e : nat * nat => Some e.1)). apply write_last. }
    assert (Hfresh : forall e, e ∈ ents -> e.1 <> S k /\ e.2 <> S (S k)) by (intros e He; pose proof (old_lt e He); lia).
    assert (Hle : forall A (m : gmap nat A) i, (forall j, is_Some (m !! j) -> (j < k)%nat) ->
      is_Some (m !! i) -> (i < S (S (S k)))%nat) by (intros A m i Hm Hi; specialize (Hm i Hi); lia).
    split; cbn; try done.
    + rewrite length_app. cbn. lia.
    + by rewrite insert_insert_eq, lookup_insert_eq, Hw.
    + apply Forall2_app; [|constructor; [|constructor]].
      * apply (data_preserved h); [apply (tr_data _ _ _ _ Ht)|]. intros e He. cbn.
        destruct (Hfresh e He). by rewrite !lookup_insert_ne.
      * split; cbn; by rewrite lookup_insert_eq.
    + rewrite fmap_app. apply NoDup_app. split; [apply (tr_handles_nodup _ _ _ _ Ht)|]. split; [|apply NoDup_singleton].
      intros x (e & -> & He)%list_elem_of_fmap Hx%list_elem_of_singleton. by destruct (Hfresh e He).
    + rewrite fmap_app. apply NoDup_app. split; [apply (tr_impls_nodup _ _ _ _ Ht)|]. split; [|apply NoDup_singleton].
      intros x (e & -> & He)%list_elem_of_fmap Hx%list_elem_of_singleton. by destruct (Hfresh e He).
    + intros b. rewrite insert_insert_eq. apply insert_old; [|lia]. intros b'. apply Hle. intros j Hj.
      apply (tr_arrays_old _ _ _ _ Ht). subst freed. destruct (goal_handles s); [|done].
      destruct Hj as [x Hx]. apply lookup_delete_Some in Hx as [_ Hx]. by exists x.
    + intros p. rewrite insert_insert_eq. apply insert_old; [|lia]. intros j. apply Hle, (tr_handles_old _ _ _ _ Ht).
    + intros q. apply insert_old; [|lia]. intros j. apply Hle, (tr_impls_old _ _ _ _ Ht).
  - unfold unique_ids. intros Hu. rewrite fmap_app. apply NoDup_app. split; [done|]. split; [|apply NoDup_singleton].
    intros x (g0 & -> & Hin)%list_elem_of_fmap Hx%list_elem_of_singleton. cbn in Hx.
    apply list_elem_of_In in Hin. pose proof (find_none _ _ Ef g0 Hin) as Hn. cbn in Hn.
    rewrite Hx in Hn. by rewrite (proj2 (uuidcmp_eq _ _) eq_refl) in Hn.
Qed.

(** When the second allocation of an acceptance is refused, the server is
    left with a pointer to the array of goals that was just freed: with goals
    tracked before, the next operation that looks at them uses freed memory. *)
Theorem accept_refused_dangles g now :
  gs <> [] -> List.find (fun g' => uuidcmp (uuid (info g')) (uuid g)) gs = None ->
  refuse k = false -> refuse (S k) = true ->
  exists h', rcl_action_accept_new_goal refuse h s g now = Ok (None, s, h') /\
    (forall g', rcl_action_server_goal_exists h' s g' = Throw UseAfterFree) /\
    (forall g' now', rcl_action_accept_new_goal refuse h' s g' now' = Throw UseAfterFree).
Proof.
  intros Hne Hf Hr1 Hr2.
  assert (He : existsb (fun g' => uuidcmp (uuid (info g')) (uuid g)) gs = false).
  { apply not_true_is_false. intros (g0 & Hin & He)%existsb_exists. by rewrite (find_none _ _ Hf g0 Hin) in He. }
  unfold rcl_action_accept_new_goal at 1. rewrite (tr_valid _ _ _ _ Ht), server_goal_exists_spec, He.
  cbn [negb rbind]. rewrite (tr_num _ _ _ _ Ht). destruct (reallocate_grow Hr1) as (freed & -> & Hfreed). cbn [rbind].
  unfold allocate. cbn [next_alloc]. rewrite Hr2. eexists. split; [reflexivity|].
  match goal with |- (forall g', rcl_action_server_goal_exists ?hp s g' = _) /\ _ => set (h' := hp) end.
  assert (Hex : forall g', rcl_action_server_goal_exists h' s g' = Throw UseAfterFree).
  { intros g'. unfold rcl_action_server_goal_exists. rewrite (tr_valid _ _ _ _ Ht), (tr_num _ _ _ _ Ht).
    pose proof (tr_array _ _ _ _ Ht) as Ha. pose proof ents_length as Hl.
    destruct (length gs) as [|n] eqn:El; [by apply nil_length_inv in El|]. cbn [negb goal_exists_from].
    destruct (goal_handles s) as [b|]; [|by rewrite Ha in Hl].
    assert (Hb : (b < k)%nat) by (apply (tr_arrays_old _ _ _ _ Ht); eauto).
    cbn [read_cell h' arrays]. rewrite lookup_insert_ne by lia. subst freed. by rewrite lookup_delete_eq. }
  split; [exact Hex|]. intros g' now'. unfold rcl_action_accept_new_goal.
  by rewrite (tr_valid _ _ _ _ Ht), Hex.
Qed.
End AcceptSpec.

(** ** Expiry *)

Lemma shift_cells_spec pre c suf junk :
  exists x, shift_cells (pre ++ c :: suf ++ junk) (length pre) (length suf) = pre ++ suf ++ x :: junk.
Proof.
  revert pre c. induction suf as [|d suf IH]; intros pre c; cbn [shift_cells length app]; [by exists c|].
  assert (H : (pre ++ c :: d :: suf ++ junk) !! S (length pre) = Some d).
  { rewrite lookup_app_r by lia. by replace (S (length pre) - length pre)%nat with 1%nat by lia. }
  rewrite H. destruct (IH (pre ++ [d]) d) as (x & Hx). exists x.
  rewrite length_app, Nat.add_1_r in Hx. cbn in Hx.
  rewrite <- (Nat.add_0_r (length pre)) at 1. rewrite insert_app_r. cbn.
  rewrite <- !app_assoc in Hx. exact Hx.
Qed.

Definition is_expired (current_time timeout : Z) (g : goal_handle_impl) : bool :=
  negb (active_state (goal_state g)) &&
  (timeout <? i64 (current_time - _goal_info_stamp_to_nanosec (info g))).

(** The goals that stay and those that expire, of which there are at most
    [cap]. *)
Fixpoint expire_list (current_time timeout : Z) (cap : option nat) (gs : list goal_handle_impl)
    : list goal_handle_impl * list goal_handle_impl :=
  match gs with
  | [] => ([], [])
  | g :: gs' =>
    if bool_decide (cap = Some 0%nat) then (gs, []) else
    if is_expired current_time timeout g then
      let '(kept, gone) := expire_list current_time timeout (Nat.pred <$> cap) gs' in (kept, g :: gone)
    else
      let '(kept, gone) := expire_list current_time timeout cap gs' in (g :: kept, gone)
  end.

Lemma expire_list_all now timeout gs :
  expire_list now timeout None gs =
  (List.filter (fun g => negb (is_expired now timeout g)) gs, List.filter (is_expired now timeout) gs).
Proof.
  induction gs as [|g gs IH]; [done|]. cbn [expire_list List.filter fmap option_fmap option_map].
  rewrite bool_decide_eq_false_2 by done. rewrite IH. by destruct (is_expired now timeout g).
Qed.

Lemma expire_list_cap now timeout n gs : (length (expire_list now timeout (Some n) gs).2 <= n)%nat.
Proof.
  revert n. induction gs as [|g gs IH]; intros n; [cbn; lia|]. cbn [expire_list].
  case_bool_decide; [cbn; lia|]. cbn [fmap option_fmap option_map].
  destruct (is_expired now timeout g).
  - specialize (IH (pred n)). destruct (expire_list now timeout (Some (pred n)) gs). cbn in *.
    assert (n <> 0%nat) by congruence. lia.
  - specialize (IH n). by destruct (expire_list now timeout (Some n) gs).
Qed.

(** The heap while goals expire: memory is only given back. *)
Record shrunk (h0 h : Heap) : Prop := mkShrunk {
  sh_impls : impls h = impls h0;
  sh_next : next_alloc h = next_alloc h0;
  sh_handles : forall p, is_Some (handles h !! p) -> is_Some (handles h0 !! p);
  sh_arrays : forall b, is_Some (arrays h !! b) -> is_Some (arrays h0 !! b);
}.

Lemma shrunk_refl h : shrunk h h.
Proof. by split. Qed.

Lemma shrunk_trans h0 h1 h2 : shrunk h0 h1 -> shrunk h1 h2 -> shrunk h0 h2.
Proof. intros [A1 B1 C1 D1] [A2 B2 C2 D2]. split; [congruence|congruence|eauto|eauto]. Qed.

Definition cells_of (ents : list (nat * nat)) : list (option nat) := (fun e => Some e.1) <$> ents.

(** The array holds the handles of [ents] and some cells behind them. *)
Record array_holds (h : Heap) (b : nat) (ents : list (nat * nat)) (gs : list goal_handle_impl) : Prop := mkHeld {
  he_array : exists junk, arrays h !! b = Some (cells_of ents ++ junk);
  he_data : Forall2 (data_at h) ents gs;
  he_nodup : NoDup ents.*1;
}.

(** Removing the handle at the head of what is still to be looked at. *)
Lemma remove_cell_spec h b epre e esuf gpre g gsuf :
  array_holds h b (epre ++ e :: esuf) (gpre ++ g :: gsuf) -> length epre = length gpre ->
  exists h', remove_cell h (Some b) (length gpre) (length gpre + S (length gsuf)) = Ok h' /\
    array_holds h' b (epre ++ esuf) (gpre ++ gsuf) /\ shrunk h h'.
Proof.
  intros [[junk Ha] Hd Hn] Hl.
  assert (Hcells : cells_of (epre ++ e :: esuf) ++ junk = cells_of epre ++ Some e.1 :: cells_of esuf ++ junk).
  { unfold cells_of. by rewrite fmap_app, fmap_cons, <- app_assoc. }
  rewrite Hcells in Ha.
  assert (Hlen : length (cells_of epre) = length gpre) by (unfold cells_of; by rewrite length_fmap).
  assert (Hs : length (cells_of esuf) = length gsuf).
  { unfold cells_of. rewrite length_fmap. apply Forall2_length in Hd. rewrite !length_app in Hd. cbn in Hd. lia. }
  unfold remove_cell. cbn [read_cell]. rewrite Ha, lookup_app_r, Hlen, Nat.sub_diag by lia. cbn [lookup list_lookup rbind].
  cbn [write_cell set_handles arrays]. rewrite Ha.
  rewrite (proj2 (Nat.ltb_lt _ _)) by (rewrite length_app, Hlen; cbn; lia).
  cbn [rbind set_arrays arrays]. rewrite lookup_insert_eq.
  replace (length gpre + S (length gsuf) - 1 - length gpre)%nat with (length (cells_of esuf)) by lia.
  assert (Hins : <[length gpre := None]> (cells_of epre ++ Some e.1 :: cells_of esuf ++ junk) =
    cells_of epre ++ None :: cells_of esuf ++ junk).
  { rewrite <- Hlen, <- (Nat.add_0_r (length (cells_of epre))). by rewrite insert_app_r. }
  rewrite Hins. destruct (shift_cells_spec (cells_of epre) None (cells_of esuf) junk) as (x & Hx).
  rewrite Hlen in Hx. rewrite Hx. eexists. split; [reflexivity|].
  rewrite fmap_app, fmap_cons in Hn. apply NoDup_app in Hn as (Hn1 & Hn2 & Hn3).
  apply NoDup_cons in Hn3 as [He Hn3]. split; [split|]; cbn.
  - exists (x :: junk). rewrite insert_insert_eq, lookup_insert_eq. unfold cells_of. by rewrite fmap_app, <- app_assoc.
  - apply Forall2_app_inv_l in Hd as (g1 & g2 & H1 & H2 & Heq). inversion H2 as [|? g' ? g2' Hg H2']; subst.
    apply app_inj_1 in Heq as [<- [= <- <-]]; [|by apply Forall2_length in H1; congruence].
    apply (data_preserved h); [by apply Forall2_app|]. intros e' He'. cbn. split; [|done].
    apply lookup_delete_ne. intros Heq. apply elem_of_app in He' as [He'|He'].
    + apply (Hn2 e.1); [rewrite Heq; by apply list_elem_of_fmap_2 | left].
    + apply He. rewrite Heq. by apply list_elem_of_fmap_2.
  - rewrite fmap_app. apply NoDup_app. split; [done|]. split; [|done]. intros y Hy Hy'. apply (Hn2 y Hy). by right.
  - split; cbn; try done.
    + intros p [y Hy]. apply lookup_delete_Some in Hy as [_ Hy]. by exists y.
    + intros b'. rewrite insert_insert_eq. intros [-> | [_ H]]%lookup_insert_is_Some; [by rewrite Ha|done].
Qed.

(** What the capacity still allows. *)
Definition cap_left (cap : option nat) (expired : list rcl_action_goal_info_t) : option nat :=
  (fun c => c - length expired)%nat <$> cap.

Lemma cap_left_zero cap expired :
  match cap with None => false | Some cap => (cap <=? length expired)%nat end =
  bool_decide (cap_left cap expired = Some 0%nat).
Proof.
  destruct cap as [c|]; cbn; [|by rewrite bool_decide_eq_false_2].
  destruct (Nat.leb_spec c (length expired)).
  - rewrite bool_decide_eq_true_2; [done|]. f_equal. lia.
  - rewrite bool_decide_eq_false_2; [done|]. intros [=]. lia.
Qed.

Lemma cap_left_pred cap expired g : cap_left cap (expired ++ [g]) = Nat.pred <$> cap_left cap expired.
Proof. destruct cap as [c|]; cbn; [|done]. rewrite length_app. cbn. f_equal. lia. Qed.

Lemma held_data h b ents gs i e g :
  array_holds h b ents gs -> ents !! i = Some e -> gs !! i = Some g ->
  read_cell h (Some b) i = Ok (Some e.1) /\ goal_of h (Some e.1) = Ok (Some (e.2, g)).
Proof.
  intros [[junk Ha] Hd _] He Hg. split.
  - cbn. rewrite Ha, lookup_app_l by (unfold cells_of; rewrite length_fmap; by apply lookup_lt_Some in He).
    unfold cells_of. by rewrite list_lookup_fmap, He.
  - apply goal_of_data. by apply (Forall2_lookup_lr _ _ _ i e g Hd).
Qed.

Lemma expire_from_spec now timeout cap b fuel : forall gsuf gpre epre esuf h ex ret,
  array_holds h b (epre ++ esuf) (gpre ++ gsuf) -> length epre = length gpre -> (length gsuf <= fuel)%nat ->
  let '(kept, gone) := expire_list now timeout (cap_left cap ex) gsuf in
  exists h' ents',
    expire_from fuel (Some b) cap now timeout (length gpre) (mkExpire h (length gpre + length gsuf) ex ret) =
      Ok (mkExpire h' (length gpre + length kept) (ex ++ (info <$> gone)) ret) /\
    array_holds h' b ents' (gpre ++ kept) /\ shrunk h h' /\ ents' `sublist_of` (epre ++ esuf) /\
    (gone = [] -> h' = h /\ ents' = epre ++ esuf).
Proof.
  induction fuel as [|fuel IH]; intros gsuf gpre epre esuf h ex ret Hh Hl Hf.
  { destruct gsuf; [|cbn in Hf; lia]. cbn. exists h, (epre ++ esuf). rewrite (app_nil_r ex). auto 10 using shrunk_refl. }
  destruct gsuf as [|g gsuf].
  { cbn [expire_list expire_from length ex_num]. rewrite (proj2 (Nat.ltb_ge _ _)) by lia. cbn.
    exists h, (epre ++ esuf). rewrite (app_nil_r ex). auto 10 using shrunk_refl. }
  destruct esuf as [|e esuf].
  { pose proof (Forall2_length _ _ _ (he_data _ _ _ _ Hh)) as H. rewrite !length_app in H. cbn in H. lia. }
  cbn [expire_list expire_from ex_num ex_expired ex_heap ex_ret].
  rewrite (proj2 (Nat.ltb_lt _ _)) by (cbn; lia). cbn [negb]. rewrite cap_left_zero.
  case_bool_decide as Hcap.
  { exists h, (epre ++ e :: esuf). cbn [fmap list_fmap]. rewrite (app_nil_r ex). auto 10 using shrunk_refl. }
  destruct (held_data h b _ _ (length gpre) e g Hh) as [Hc Hg];
    [by rewrite lookup_app_r, Hl, Nat.sub_diag by lia | by rewrite lookup_app_r, Nat.sub_diag by lia|].
  rewrite Hc. cbn [rbind]. rewrite (is_active_spec _ _ _ _ Hg), (get_info_spec _ _ _ _ Hg). cbn [rbind].
  (* the loop goes on behind a goal that stays *)
  assert (Hkeep : let '(kept, gone) := expire_list now timeout (cap_left cap ex) gsuf in
    exists h' ents',
      expire_from fuel (Some b) cap now timeout (S (length gpre)) (mkExpire h (length gpre + length (g :: gsuf)) ex ret) =
        Ok (mkExpire h' (length gpre + length (g :: kept)) (ex ++ (info <$> gone)) ret) /\
      array_holds h' b ents' (gpre ++ g :: kept) /\ shrunk h h' /\ ents' `sublist_of` (epre ++ e :: esuf) /\
      (gone = [] -> h' = h /\ ents' = epre ++ e :: esuf)).
  { specialize (IH gsuf (gpre ++ [g]) (epre ++ [e]) esuf h ex ret).
    rewrite <- !app_assoc, !length_app, !Nat.add_1_r in IH. cbn [app length] in IH.
    specialize (IH Hh (f_equal S Hl) ltac:(cbn in Hf; lia)).
    destruct (expire_list now timeout (cap_left cap ex) gsuf) as [kept gone].
    destruct IH as (h' & ents' & E & Hh' & Hs & Hsub & Hsame). exists h', ents'.
    rewrite <- app_assoc in Hh'. cbn [length] in E |- *. rewrite <- !plus_n_Sm. split; [exact E|]. split; [exact Hh'|]. auto. }
  unfold is_expired. destruct (active_state (goal_state g)); cbn [negb andb].
  { destruct (expire_list now timeout (cap_left cap ex) gsuf) as [kept gone]. exact Hkeep. }
  destruct (timeout <? _).
  - destruct (remove_cell_spec h b epre e esuf gpre g gsuf Hh Hl) as (h1 & Hr & Hh1 & Hs1).
    cbn [length]. rewrite Hr. cbn [rbind].
    specialize (IH gsuf gpre epre esuf h1 (ex ++ [info g]) ret Hh1 Hl ltac:(cbn in Hf; lia)).
    rewrite cap_left_pred in IH.
    replace (length gpre + S (length gsuf) - 1)%nat with (length gpre + length gsuf)%nat by lia.
    destruct (expire_list now timeout (Nat.pred <$> cap_left cap ex) gsuf) as [kept gone].
    destruct IH as (h' & ents' & E & Hh' & Hs & Hsub & _). exists h', ents'.
    rewrite fmap_cons. rewrite <- app_assoc in E. cbn [app] in E. split; [exact E|]. split; [done|].
    split; [by eapply shrunk_trans|]. split; [|done]. etrans; [exact Hsub|].
    apply sublist_app; [done|]. by apply sublist_cons.
  - destruct (expire_list now timeout (cap_left cap ex) gsuf) as [kept gone]. exact Hkeep.
Qed.

(** ** The expiry timer *)

(** The time until a goal expires, counted from its acceptance. *)
Definition time_left (timeout current_time : Z) (g : goal_handle_impl) : Z :=
  i64 (timeout - i64 (current_time - _goal_info_stamp_to_nanosec (info g))).

Definition inactive (g : goal_handle_impl) : bool := negb (active_state (goal_state g)).

Definition shortest (timeout current_time : Z) (gs : list goal_handle_impl) (period : Z) : Z :=
  foldl (fun m g => if inactive g then (if time_left timeout current_time g <? m then time_left timeout current_time g else m)
                    else m) period gs.

Lemma next_expiry_spec h goals timeout now i gs n period :
  goals_from h goals i gs ->
  next_expiry h goals timeout now i (length gs) n period =
  Ok (RCL_RET_OK, (n + length (List.filter inactive gs))%nat, shortest timeout now gs period).
Proof.
  intros H. revert n period. induction H as [|i p q g gs Hc Hg _ IH]; intros n period;
    [by rewrite Nat.add_0_r|]. cbn [next_expiry length List.filter]. rewrite Hc. cbn [rbind].
  rewrite (is_active_spec _ _ _ _ Hg), (get_info_spec _ _ _ _ Hg). cbn [rbind].
  assert (Hs : shortest timeout now (g :: gs) period = shortest timeout now gs
    (if inactive g then (if time_left timeout now g <? period then time_left timeout now g else period) else period)) by done.
  rewrite Hs. assert (Hi : inactive g = negb (active_state (goal_state g))) by done. rewrite Hi.
  destruct (active_state (goal_state g)); cbn [negb]; [apply IH|].
  rewrite IH. cbn [length]. by rewrite Nat.add_succ_comm.
Qed.

Section TimerSpec.
Context (h : Heap) (s : rcl_action_server_impl_t) (ents : list (nat * nat)) (gs : list goal_handle_impl).
Hypothesis Ht : tracks h s ents gs.

(** The timer is stopped while no goal is done, and restarted otherwise. *)
Lemma recalculate_spec t now now_reset :
  expire_timer s = Some t ->
  _recalculate_expire_timer h (expire_timer s) (result_timeout s) (goal_handles s) (num_goal_handles s) (Ok now) (Ok now_reset) =
  Ok (RCL_RET_OK,
    if existsb inactive gs then
      (rcl_timer_exchange_period (rcl_timer_reset (Some t) (Ok now_reset)).1.2
         (let m := shortest (result_timeout s) now gs (result_timeout s) in if m <? 0 then 0 else m)).2
    else (rcl_timer_cancel (Some t)).2).
Proof.
  intros Htm. unfold _recalculate_expire_timer. rewrite (tr_num _ _ _ _ Ht), Htm.
  rewrite (next_expiry_spec _ _ _ _ _ _ _ _ (tracks_goals_from _ _ _ _ Ht)). cbn [rbind].
  rewrite bool_decide_eq_true_2 by done. cbn [negb Nat.add].
  assert (Hex : existsb inactive gs = negb (length gs =? 0)%nat && negb (length (List.filter inactive gs) =? 0)%nat).
  { clear. induction gs as [|g l IH]; [done|]. cbn [existsb List.filter length]. destruct (inactive g); [done|].
    cbn [orb]. rewrite IH. by destruct l. }
  rewrite Hex. destruct (length gs =? 0)%nat; cbn [orb negb andb]; [done|].
  destruct (length (List.filter inactive gs) =? 0)%nat; cbn [negb]; [done|].
  cbn [rcl_timer_reset]. destruct (on_reset_callback _); by rewrite bool_decide_eq_true_2.
Qed.

(** When a goal is done, the expiry timer is restarted, but with the
    period it had: its next call is due one old period from now, whatever
    time is left until the next goal expires. *)
Theorem notify_goal_done_old_period t now now_reset :
  expire_timer s = Some t -> existsb inactive gs = true -> in_s 64 (now_reset + period t) ->
  exists s' t', rcl_action_notify_goal_done h s (Ok now) (Ok now_reset) = Ok (RCL_RET_OK, s') /\
    expire_timer s' = Some t' /\ canceled t' = false /\ next_call_time t' = now_reset + period t /\
    period t' = Z.max 0 (shortest (result_timeout s) now gs (result_timeout s)).
Proof.
  intros Htm Hin Hr. unfold rcl_action_notify_goal_done. rewrite (tr_valid _ _ _ _ Ht). cbn [negb].
  rewrite (recalculate_spec t) by done. rewrite Hin. cbn [rbind].
  destruct (reset_then_exchange t now_reset
    (let m := shortest (result_timeout s) now gs (result_timeout s) in if m <? 0 then 0 else m) Hr)
    as (t' & E & H1 & H2 & H3). cbn zeta in E |- *. rewrite E.
  do 2 eexists. split; [reflexivity|]. split; [reflexivity|]. split; [done|]. split; [done|].
  rewrite H2. cbn zeta. destruct (Z.ltb_spec (shortest (result_timeout s) now gs (result_timeout s)) 0); lia.
Qed.
End TimerSpec.

Section ExpireSpec.
Context (refuse : nat -> bool) (h : Heap) (s : rcl_action_server_impl_t) (ents : list (nat * nat)) (gs : list goal_handle_impl).
Hypothesis Ht : tracks h s ents gs.

Lemma sublist_entries_nodup (l k : list (nat * nat)) (f : nat * nat -> nat) :
  l `sublist_of` k -> NoDup (f <$> k) -> NoDup (f <$> l).
Proof. intros Hs Hk. eapply sublist_NoDup; [exact Hk|]. by apply fmap_sublist. Qed.

(** What the loop leaves. *)
Record looped (h' : Heap) (ents' : list (nat * nat)) (kept gone : list goal_handle_impl) : Prop := mkLooped {
  lo_shrunk : shrunk h h';
  lo_sub : ents' `sublist_of` ents;
  lo_data : Forall2 (data_at h') ents' kept;
  lo_same : gone = [] -> h' = h /\ ents' = ents;
  lo_array : match goal_handles s with
    | None => gone = []
    | Some b => exists junk, arrays h' !! b = Some (cells_of ents' ++ junk)
    end;
}.

Lemma expire_loop cap now :
  let '(kept, gone) := expire_list now (result_timeout s) cap gs in
  exists h' ents',
    expire_from (length gs) (goal_handles s) cap now (result_timeout s) 0 (mkExpire h (length gs) [] RCL_RET_OK) =
      Ok (mkExpire h' (length kept) (info <$> gone) RCL_RET_OK) /\ looped h' ents' kept gone.
Proof.
  pose proof (tr_array _ _ _ _ Ht) as Ha. pose proof (tr_data _ _ _ _ Ht) as Hd.
  destruct (goal_handles s) as [b|] eqn:Eb.
  - assert (Hh : array_holds h b ([] ++ ents) ([] ++ gs)).
    { split; [|done|apply (tr_handles_nodup _ _ _ _ Ht)]. exists []. by rewrite app_nil_r. }
    pose proof (expire_from_spec now (result_timeout s) cap b (length gs) gs [] [] ents h [] RCL_RET_OK Hh eq_refl
      (le_n _)) as H.
    assert (Hcap : cap_left cap [] = cap) by (destruct cap as [c|]; [|done]; cbn; f_equal; lia).
    rewrite Hcap in H. destruct (expire_list now (result_timeout s) cap gs) as [kept gone].
    destruct H as (h' & ents' & E & [Ha' Hd' _] & Hs & Hsub & Hsame). exists h', ents'.
    split; [exact E|]. split; [done|done|done|done|]. by rewrite Eb.
  - assert (Hg : gs = []) by (rewrite Ha in Hd; by inversion Hd). rewrite Hg. cbn. exists h, ents. split; [done|].
    split; [apply shrunk_refl|done|rewrite Ha; constructor|done|]. by rewrite Eb.
Qed.

Lemma looped_nodup h' ents' kept gone (f : nat * nat -> nat) :
  looped h' ents' kept gone -> NoDup (f <$> ents) -> NoDup (f <$> ents').
Proof. intros Hl. apply sublist_entries_nodup, Hl. Qed.

(** Freeing or shrinking the array. *)
Lemma shrink_spec h' ents' kept gone :
  looped h' ents' kept gone -> (gone = [] -> kept = gs) -> refuse (next_alloc h) = false ->
  exists s' h'', shrink refuse s (mkExpire h' (length kept) (info <$> gone) RCL_RET_OK) = Ok (RCL_RET_OK, s', h'') /\
    tracks h'' s' ents' kept /\ expire_timer s' = expire_timer s /\ result_timeout s' = result_timeout s.
Proof.
  intros Hl Hk Hr. pose proof Hl as [[Hi Hn Hsh Hsa] Hsub Hd Hsame Ha].
  unfold shrink. cbn [ex_expired ex_num ex_heap ex_ret].
  destruct gone as [|g gone].
  { destruct (Hsame eq_refl) as [-> ->]. rewrite (Hk eq_refl). by exists s, h. }
  rewrite fmap_cons. cbn iota.
  destruct (goal_handles s) as [b|] eqn:Eb; [|done]. destruct Ha as [junk Ha].
  pose proof (looped_nodup _ _ _ _ fst Hl (tr_handles_nodup _ _ _ _ Ht)) as Hnd1.
  pose proof (looped_nodup _ _ _ _ snd Hl (tr_impls_nodup _ _ _ _ Ht)) as Hnd2.
  destruct (Nat.eqb_spec (length kept) 0) as [E|E].
  - apply nil_length_inv in E as ->. inversion Hd; subst. do 2 eexists. split; [reflexivity|]. split; [|done].
    split; cbn; try done; [apply (tr_valid _ _ _ _ Ht)| | |]; rewrite ?Hn.
    + intros b' [y [_ Hy]%lookup_delete_Some]. apply (tr_arrays_old _ _ _ _ Ht), Hsa. eauto.
    + intros p Hp. by apply (tr_handles_old _ _ _ _ Ht), Hsh.
    + intros q. rewrite Hi. apply (tr_impls_old _ _ _ _ Ht).
  - unfold reallocate_array, allocate. rewrite Ha. cbn [rbind]. rewrite Hn, Hr. cbn [rbind].
    do 2 eexists. split; [reflexivity|]. split; [|done].
    assert (Hlen : length kept = length (cells_of ents'))
      by (unfold cells_of; rewrite length_fmap; symmetry; by eapply Forall2_length).
    split; cbn; try done.
    + apply (tr_valid _ _ _ _ Ht).
    + rewrite lookup_insert_eq, Hlen, <- app_assoc. f_equal. apply take_app_length.
    + intros b'. apply insert_old; [|lia]. intros j [y [_ Hy]%lookup_delete_Some].
      assert (j < next_alloc h)%nat; [|lia]. apply (tr_arrays_old _ _ _ _ Ht), Hsa. eauto.
    + intros p Hp. assert (p < next_alloc h)%nat; [|lia]. by apply (tr_handles_old _ _ _ _ Ht), Hsh.
    + intros q. rewrite Hi. intros Hq. assert (q < next_alloc h)%nat; [|lia]. by apply (tr_impls_old _ _ _ _ Ht).
Qed.

Lemma expire_list_none now timeout cap l : (expire_list now timeout cap l).2 = [] -> (expire_list now timeout cap l).1 = l.
Proof.
  revert cap. induction l as [|g l IH]; intros cap; [done|]. cbn [expire_list]. case_bool_decide; [done|].
  destruct (is_expired now timeout g).
  - by destruct (expire_list now timeout (Nat.pred <$> cap) l).
  - specialize (IH cap). destruct (expire_list now timeout cap l). cbn in *. intros H'. by rewrite IH.
Qed.

(** Expiry removes exactly the goals that are done and whose acceptance
    is longer ago than the result timeout, at most as many as the output can
    hold and the oldest first, reports them, and goes on tracking the others
    in order; afterwards the timer runs exactly if a tracked goal is done.
    Memory is not refused and the clock answers. *)
Theorem expire_goals_spec cap now now_timer now_reset t :
  cap <> Some 0%nat -> refuse (next_alloc h) = false -> expire_timer s = Some t ->
  let '(kept, gone) := expire_list now (result_timeout s) cap gs in
  exists r ents',
    rcl_action_expire_goals refuse h s (bool_decide (is_Some cap)) (bool_decide (is_Some cap)) (default 0%nat cap)
      (Ok now) (Ok now_timer) (Ok now_reset) = Ok r /\
    expire_ret r = RCL_RET_OK /\ num_expired r = length gone /\ expired_goals r = info <$> gone /\
    tracks (expire_heap r) (expire_server r) ents' kept /\
    rcl_timer_is_canceled (expire_timer (expire_server r)) = Ok (negb (existsb inactive kept)).
Proof.
  intros Hc Hr Htm. pose proof (expire_loop cap now) as H.
  pose proof (expire_list_none now (result_timeout s) cap gs) as Hnone.
  destruct (expire_list now (result_timeout s) cap gs) as [kept gone].
  destruct H as (h' & ents' & E & Hl). cbn [fst snd] in Hnone.
  unfold rcl_action_expire_goals. rewrite (tr_valid _ _ _ _ Ht), (tr_num _ _ _ _ Ht). cbn [negb].
  destruct (shrink_spec h' ents' kept gone Hl Hnone Hr) as (s' & h'' & Esh & Htr & Ht' & Hto).
  assert (Hargs : bool_decide (is_Some cap) && bool_decide (is_Some cap) && negb (default 0 cap =? 0)%nat =
      bool_decide (is_Some cap) /\
    negb (bool_decide (is_Some cap)) && (bool_decide (is_Some cap) || bool_decide (is_Some cap) ||
      negb (default 0 cap =? 0)%nat) = false /\
    (if bool_decide (is_Some cap) then Some (default 0%nat cap) else None) = cap).
  { destruct cap as [[|c]|]; [done|done|done]. }
  destruct Hargs as (H1 & H2 & H3). rewrite H1, H2, H3, E. cbn [rbind]. rewrite Esh. cbn [rbind].
  rewrite (recalculate_spec h'' s' ents' kept Htr t now_timer now_reset) by congruence. cbn [rbind].
  eexists _, ents'. split; [reflexivity|].
  rewrite bool_decide_eq_true_2 by done. cbn [expire_ret num_expired expired_goals expire_heap expire_server ex_expired].
  rewrite length_fmap. split; [done|]. split; [done|]. split; [done|]. split; [by destruct Htr|].
  destruct (existsb inactive kept); [|done]. cbn [set_timer expire_timer rcl_timer_reset].
  by destruct (on_reset_callback _).
Qed.
End ExpireSpec.

(** ** Updating *)

Lemma data_at_insert h ents gs i p q g g' :
  Forall2 (data_at h) ents gs -> NoDup ents.*2 -> ents !! i = Some (p, q) -> gs !! i = Some g ->
  Forall2 (data_at (set_impls h (<[q := g']> (impls h)))) ents (<[i := g']> gs).
Proof.
  intros Hd Hn He Hg. rewrite Forall2_same_length_lookup. split; [rewrite length_insert; by eapply Forall2_length|].
  intros j [p' q'] g2 He' Hg2. destruct (decide (i = j)) as [<-|Hij].
  - assert ((p', q') = (p, q)) as [= -> ->] by congruence.
    rewrite list_lookup_insert_eq in Hg2 by (by apply lookup_lt_Some in Hg). injection Hg2 as <-.
    destruct (Forall2_lookup_lr _ _ _ i (p, q) g Hd He Hg) as [H1 H2]. split; cbn; [done|]. by rewrite lookup_insert_eq.
  - rewrite list_lookup_insert_ne in Hg2 by done.
    destruct (Forall2_lookup_lr _ _ _ j (p', q') g2 Hd He' Hg2) as [H1 H2]. split; cbn; [done|].
    rewrite lookup_insert_ne; [done|]. intros ->. apply Hij.
    apply (NoDup_lookup ents.*2 i j q'); [done| |]; by rewrite list_lookup_fmap, ?He, ?He'.
Qed.

(** An event moves one goal, as the design says, and leaves every other
    goal of the server alone; an event that the state of the goal does not
    accept is reported and changes nothing. *)
Theorem update_goal_state_spec h s ents gs i p q g event :
  tracks h s ents gs -> ents !! i = Some (p, q) -> gs !! i = Some g -> 0 <= event ->
  (exists s', goal_step (goal_state g) event s' /\
    exists h', rcl_action_update_goal_state h (Some p) event = Ok (RCL_RET_OK, h') /\
      tracks h' s ents (<[i := mkGoal (info g) s']> gs)) \/
  ((forall s', ~ goal_step (goal_state g) event s') /\
    rcl_action_update_goal_state h (Some p) event = Ok (RCL_RET_ACTION_GOAL_EVENT_INVALID, h)).
Proof.
  intros Ht He Hg Hev. pose proof (Forall2_lookup_lr _ _ _ i (p, q) g (tr_data _ _ _ _ Ht) He Hg) as Hd.
  pose proof (goal_of_data h (p, q) g Hd) as Hgo. cbn [fst] in Hgo.
  unfold rcl_action_update_goal_state. rewrite Hgo. cbn [rbind snd]. unfold transition.
  destruct (transition_goal_state_spec (goal_state g) event Hev) as (s' & E & Hs & Huniq). rewrite E. cbn [rbind].
  destruct (Z.eqb_spec GOAL_STATE_UNKNOWN s') as [Hu|Hu].
  - right. split; [|done]. intros s2 H2. assert (s' = s2) by auto. subst. by inversion H2.
  - left. exists s'. destruct Hs as [Hs|Hs]; [congruence|]. split; [done|]. eexists. split; [reflexivity|].
    pose proof Ht as [H1 H2 H3 H4 H5 H6 H7 H8 H9]. split; try done.
    + by rewrite length_insert.
    + by eapply data_at_insert.
    + cbn. intros q'. apply insert_old; [done|]. apply H9. exists g. by destruct Hd.
Qed.

(** A handle that was finalised once is not safe to use or to finalise. *)
Lemma goal_handle_fini_twice h p q g :
  handles h !! p = Some (Some q) -> impls h !! q = Some g ->
  exists h', rcl_action_goal_handle_fini h p = Ok (RCL_RET_OK, h') /\
    rcl_action_goal_handle_fini h' p = Throw UseAfterFree /\ goal_of h' (Some p) = Throw UseAfterFree.
Proof.
  intros Hp Hq. unfold rcl_action_goal_handle_fini at 1. rewrite Hp, Hq. eexists. split; [reflexivity|].
  unfold rcl_action_goal_handle_fini, goal_of. cbn. by rewrite Hp, lookup_delete_eq.
Qed.

(** The status message lists the tracked goals. *)
Lemma get_goal_status_array_spec refuse h s ents gs :
  tracks h s ents gs -> refuse (next_alloc h) = false ->
  exists h', rcl_action_get_goal_status_array refuse h s =
    Ok (RCL_RET_OK, (fun g => (info g, goal_state g)) <$> gs, h') /\ tracks h' s ents gs.
Proof.
  intros Ht Hr. unfold rcl_action_get_goal_status_array. rewrite (tr_valid _ _ _ _ Ht), (tr_num _ _ _ _ Ht). cbn [negb].
  destruct (Nat.eqb_spec (length gs) 0) as [E|E]; [apply nil_length_inv in E as ->; by exists h|].
  unfold allocate. rewrite Hr. fold (bump h).
  rewrite (statuses_from_spec _ _ _ _ (goals_from_bump _ _ _ _ (tracks_goals_from _ _ _ _ Ht))). cbn [rbind].
  eexists. split; [reflexivity|]. by apply tracks_bump.
Qed.

(** ** An instance: one goal that is executing and one that succeeded *)

Definition example_info (n sec : Z) : rcl_action_goal_info_t := mkInfo (n :: replicate 15 0) sec 0.

Definition example_goals : list goal_handle_impl :=
  [mkGoal (example_info 1 10) GOAL_STATE_EXECUTING; mkGoal (example_info 2 20) GOAL_STATE_SUCCEEDED].

Definition example_ents : list (nat * nat) := [(1, 2); (3, 4)]%nat.

Definition example_heap : Heap :=
  mkHeap (<[0%nat := cells_of example_ents]> ∅)
    (<[1%nat := Some 2%nat]> (<[3%nat := Some 4%nat]> ∅))
    (<[2%nat := mkGoal (example_info 1 10) GOAL_STATE_EXECUTING]>
      (<[4%nat := mkGoal (example_info 2 20) GOAL_STATE_SUCCEEDED]> ∅)) 5.

Definition example_timer : rcl_timer_impl_t := mkTimer false false 10000000000 0 10000000000 0 true false 0.

Definition example_server : rcl_action_server_impl_t :=
  mkServer true (Some example_timer) (Some 0%nat) 2 10000000000.

Lemma example_tracks : tracks example_heap example_server example_ents example_goals.
Proof.
  split; try done; try (by apply (bool_decide_unpack _); vm_compute).
  - repeat constructor.
  - intros b. cbn. intros [-> | [_ [x Hx]]]%lookup_insert_is_Some; [lia|]. by rewrite lookup_empty in Hx.
  - intros p. cbn. intros [-> | [_ [-> | [_ [x Hx]]]%lookup_insert_is_Some]]%lookup_insert_is_Some; [lia|lia|].
    by rewrite lookup_empty in Hx.
  - intros q. cbn. intros [-> | [_ [-> | [_ [x Hx]]]%lookup_insert_is_Some]]%lookup_insert_is_Some; [lia|lia|].
    by rewrite lookup_empty in Hx.
Qed.

Lemma example_ids : proper_ids example_goals.
Proof. split; [apply (bool_decide_unpack _); by vm_compute | repeat constructor; by intros [=]]. Qed.

Lemma process_cancel_request_spec_witness :
  exists h', rcl_action_process_cancel_request grant_all example_heap example_server (example_info 1 0) (mkResponse 0 []) =
    Ok (RCL_RET_OK, mkResponse ERROR_NONE [example_info 1 10], h').
Proof.
  destruct (process_cancel_request_spec grant_all example_heap example_server example_ents example_goals
    (example_info 1 0) example_tracks example_ids eq_refl eq_refl) as (h' & E & _).
  exists h'. rewrite E. reflexivity.
Defined.

Lemma accept_new_goal_spec_witness :
  exists p q s' h', rcl_action_accept_new_goal grant_all example_heap example_server (example_info 3 0) (Ok 30000000000) =
    Ok (Some p, s', h') /\
    tracks h' s' (example_ents ++ [(p, q)]) (example_goals ++ [mkGoal (example_info 3 30) GOAL_STATE_ACCEPTED]).
Proof.
  destruct (accept_new_goal_spec grant_all example_heap example_server example_ents example_goals example_tracks
    (example_info 3 0) 30000000000 eq_refl eq_refl eq_refl) as (p & q & s' & h' & E & Ht & _).
  exists p, q, s', h'. split; [exact E | exact Ht].
Defined.

Lemma accept_refused_dangles_witness :
  exists h', rcl_action_accept_new_goal (fun k => (k =? 6)%nat) example_heap example_server (example_info 3 0) (Ok 0) =
    Ok (None, example_server, h') /\
    rcl_action_server_goal_exists h' example_server (example_info 1 0) = Throw UseAfterFree.
Proof.
  destruct (accept_refused_dangles (fun k => (k =? 6)%nat) example_heap example_server example_ents example_goals
    example_tracks (example_info 3 0) (Ok 0) ltac:(discriminate) eq_refl eq_refl eq_refl) as (h' & H1 & H2 & _).
  exists h'. split; [exact H1 | apply H2].
Defined.

Lemma update_goal_state_spec_witness :
  exists h', rcl_action_update_goal_state example_heap (Some 1%nat) GOAL_EVENT_ABORT = Ok (RCL_RET_OK, h') /\
    tracks h' example_server example_ents
      [mkGoal (example_info 1 10) GOAL_STATE_ABORTED; mkGoal (example_info 2 20) GOAL_STATE_SUCCEEDED].
Proof.
  destruct (update_goal_state_spec example_heap example_server example_ents example_goals 0 1 2
    (mkGoal (example_info 1 10) GOAL_STATE_EXECUTING) GOAL_EVENT_ABORT example_tracks eq_refl eq_refl ltac:(discriminate))
    as [(s' & Hs & h' & E & Ht)|[Hno _]].
  - exists h'. split; [exact E|]. apply goal_step_computes in Hs. vm_compute in Hs. injection Hs as <-. exact Ht.
  - exfalso. apply (Hno GOAL_STATE_ABORTED). constructor. by left.
Defined.

Lemma notify_goal_done_old_period_witness :
  exists s' t', rcl_action_notify_goal_done example_heap example_server (Ok 25000000000) (Ok 25000000000) =
      Ok (RCL_RET_OK, s') /\
    expire_timer s' = Some t' /\ next_call_time t' = 35000000000 /\ period t' = 5000000000.
Proof.
  destruct (notify_goal_done_old_period example_heap example_server example_ents example_goals example_tracks
    example_timer 25000000000 25000000000 eq_refl eq_refl ltac:(vm_compute; by split)) as (s' & t' & H1 & H2 & _ & H3 & H4).
  exists s', t'. split; [exact H1|]. split; [exact H2|]. split; [exact H3|]. rewrite H4. reflexivity.
Defined.

Lemma expire_goals_spec_witness :
  exists r ents', rcl_action_expire_goals grant_all example_heap example_server false false 0 (Ok 40000000000)
      (Ok 40000000000) (Ok 40000000000) = Ok r /\
    expired_goals r = [example_info 2 20] /\
    tracks (expire_heap r) (expire_server r) ents' [mkGoal (example_info 1 10) GOAL_STATE_EXECUTING].
Proof.
  destruct (expire_goals_spec grant_all example_heap example_server example_ents example_goals example_tracks
    None 40000000000 40000000000 40000000000 example_timer ltac:(discriminate) eq_refl eq_refl)
    as (r & ents' & H1 & _ & _ & H2 & H3 & _).
  exists r, ents'. split; [exact H1|]. split; [exact H2 | exact H3].
Defined.
