(* ===== verification/BagCache.v ===== *)
(** * The message caches of rosbag2

    [rosbag2/rosbag2_cpp/src/rosbag2_cpp/cache/]: the two buffers
    ([message_cache_buffer.cpp], [message_cache_circular_buffer.cpp]) and the
    two caches over them ([message_cache.cpp], [circular_message_cache.cpp]),
    between the subscriptions of a recorder and the thread that writes.

    A method that takes the mutex of the producer's buffer once is one
    function; what [push] does after it has given it back is a list of further
    steps.  No mutex is held while a dropped message is counted, so reading the
    count and storing it are two of them; between two threads that is a data
    race, of which only the lost update is modelled.  [wait_for_data] has two
    parts, the look at the cache before the wait and the waking.  The class [MessageCacheInterface] is the interface
    of that name, [MessageCacheLaws] what the thread relies on.

    The theorem: the circular buffer has the newest messages that fit. *)

From Stdlib Require Import ZArith Lia.
From stdpp Require Import base numbers list gmap strings.
From S2P Require Import Prelude.
#[local] Open Scope Z_scope.

(** [rosbag2_storage::SerializedBagMessage], with the length of its data. *)
Record BagMessage := mkMessage {
  topic_name : string;
  buffer_length : Z;
  recv_timestamp : Z;
}.

#[export] Instance BagMessage_eq_dec : EqDecision BagMessage.
Proof. solve_decision. Defined.

(** ** [MessageCacheBuffer] *)

Record MessageCacheBuffer := mkBuffer {
  buffer_ : list BagMessage;
  buffer_bytes_size_ : Z;
  max_bytes_size_ : Z;
  drop_messages_ : bool;
}.

Definition new_buffer (max_cache_size : Z) : MessageCacheBuffer := mkBuffer [] 0 max_cache_size false.

Definition buffer_push (msg : BagMessage) (b : MessageCacheBuffer) : bool * MessageCacheBuffer :=
  let pushed := negb (drop_messages_ b) in
  let '(buffer, bytes) :=
    if pushed then (buffer_ b ++ [msg], u64 (buffer_bytes_size_ b + buffer_length msg)) else (buffer_ b, buffer_bytes_size_ b) in
  (pushed, mkBuffer buffer bytes (max_bytes_size_ b) (if max_bytes_size_ b <=? bytes then true else drop_messages_ b)).

Definition buffer_clear (b : MessageCacheBuffer) : MessageCacheBuffer := mkBuffer [] 0 (max_bytes_size_ b) false.

(** ** [MessageCacheCircularBuffer] *)

Record CircularBuffer := mkCircular {
  circular_ : list BagMessage;
  circular_bytes_size_ : Z;
  circular_max_size_ : Z;
}.

Definition new_circular (max_cache_size : Z) : CircularBuffer := mkCircular [] 0 max_cache_size.

(** The loop; [None]: it takes the front of an empty deque. *)
Fixpoint remove_old (limit bytes : Z) (buffer : list BagMessage) : option (Z * list BagMessage) :=
  if limit <? bytes then
    match buffer with
    | [] => None
    | front :: buffer => remove_old limit (u64 (bytes - buffer_length front)) buffer
    end
  else Some (bytes, buffer).

Definition circular_push (msg : BagMessage) (b : CircularBuffer) : option (bool * CircularBuffer) :=
  if circular_max_size_ b <? buffer_length msg then Some (false, b) else
  match remove_old (u64 (circular_max_size_ b - buffer_length msg)) (circular_bytes_size_ b) (circular_ b) with
  | None => None
  | Some (bytes, buffer) => Some (true, mkCircular (buffer ++ [msg]) (u64 (bytes + buffer_length msg)) (circular_max_size_ b))
  end.

Definition circular_clear (b : CircularBuffer) : CircularBuffer := mkCircular [] 0 (circular_max_size_ b).

(** ** [MessageCache] *)

(** What a [push] has yet to do; [n]: the count that it has read. *)
Inductive PushStep := ReadDropped (topic : string) | StoreDropped (topic : string) (n : Z) | NotifyDataReady.

#[export] Instance PushStep_eq_dec : EqDecision PushStep.
Proof. solve_decision. Defined.

Record MessageCache := mkCache {
  producer_buffer_ : MessageCacheBuffer;
  consumer_buffer_ : MessageCacheBuffer;
  data_ready_ : bool;
  flushing_ : bool;
  messages_dropped_per_topic_ : gmap string Z;
}.

Definition new_cache (max_buffer_size : Z) : MessageCache :=
  mkCache (new_buffer max_buffer_size) (new_buffer max_buffer_size) false false ∅.

Definition set_buffers (p c : MessageCacheBuffer) (m : MessageCache) : MessageCache :=
  mkCache p c (data_ready_ m) (flushing_ m) (messages_dropped_per_topic_ m).
Definition set_data_ready (b : bool) (m : MessageCache) : MessageCache :=
  mkCache (producer_buffer_ m) (consumer_buffer_ m) b (flushing_ m) (messages_dropped_per_topic_ m).
Definition set_flushing (b : bool) (m : MessageCache) : MessageCache :=
  mkCache (producer_buffer_ m) (consumer_buffer_ m) (data_ready_ m) b (messages_dropped_per_topic_ m).

Definition dropped_of (topic : string) (m : MessageCache) : Z := default 0 (messages_dropped_per_topic_ m !! topic).

(** The end of [messages_dropped_per_topic_[topic]++], of 32 bits. *)
Definition store_dropped (topic : string) (n : Z) (m : MessageCache) : MessageCache :=
  mkCache (producer_buffer_ m) (consumer_buffer_ m) (data_ready_ m) (flushing_ m) (<[topic := u32 (n + 1)]> (messages_dropped_per_topic_ m)).

Definition cache_push (msg : BagMessage) (m : MessageCache) : bool * MessageCache :=
  let '(pushed, b) := buffer_push msg (producer_buffer_ m) in (pushed, set_buffers b (consumer_buffer_ m) m).

Definition cache_notify_data_ready : MessageCache -> MessageCache := set_data_ready true.

(** The rest of [push]. *)
Definition cache_after_push (msg : BagMessage) (pushed : bool) : list PushStep :=
  (if pushed then [] else [ReadDropped (topic_name msg)]) ++ [NotifyDataReady].

(** A step, with one that it leaves to be done next. *)
Definition cache_push_step (step : PushStep) (m : MessageCache) : option PushStep * MessageCache :=
  match step with
  | ReadDropped topic => (Some (StoreDropped topic (dropped_of topic m)), m)
  | StoreDropped topic n => (None, store_dropped topic n m)
  | NotifyDataReady => (None, cache_notify_data_ready m)
  end.

(** [None]: the thread waits. *)
Definition cache_wait (m : MessageCache) : option MessageCache := if flushing_ m then Some m else None.
Definition cache_wake (m : MessageCache) : option MessageCache :=
  if data_ready_ m || flushing_ m then Some (set_data_ready false m) else None.

Definition cache_swap_buffers (m : MessageCache) : MessageCache := set_buffers (consumer_buffer_ m) (producer_buffer_ m) m.
Definition cache_clear_consumer (m : MessageCache) : MessageCache := set_buffers (producer_buffer_ m) (buffer_clear (consumer_buffer_ m)) m.

(** [log_dropped]: the number of lost messages, and that of the others. *)
Definition log_dropped (m : MessageCache) : Z * nat :=
  (map_fold (fun _ lost total => u64 (total + lost)) 0 (messages_dropped_per_topic_ m),
   (length (buffer_ (producer_buffer_ m)) + length (buffer_ (consumer_buffer_ m)))%nat).

(** ** [CircularMessageCache] *)

(** [circular_fault]: a deque was used that is empty. *)
Record CircularMessageCache := mkCircularCache {
  circular_producer_ : CircularBuffer;
  circular_consumer_ : CircularBuffer;
  circular_ready_ : bool;
  circular_flushing_ : bool;
  circular_fault : bool;
}.

Definition new_circular_cache (max_buffer_size : Z) : CircularMessageCache :=
  mkCircularCache (new_circular max_buffer_size) (new_circular max_buffer_size) false false false.

Definition set_circular_buffers (p c : CircularBuffer) (m : CircularMessageCache) : CircularMessageCache :=
  mkCircularCache p c (circular_ready_ m) (circular_flushing_ m) (circular_fault m).
Definition set_circular_ready (b : bool) (m : CircularMessageCache) : CircularMessageCache :=
  mkCircularCache (circular_producer_ m) (circular_consumer_ m) b (circular_flushing_ m) (circular_fault m).
Definition set_circular_flushing (b : bool) (m : CircularMessageCache) : CircularMessageCache :=
  mkCircularCache (circular_producer_ m) (circular_consumer_ m) (circular_ready_ m) b (circular_fault m).
Definition fail_circular (m : CircularMessageCache) : CircularMessageCache :=
  mkCircularCache (circular_producer_ m) (circular_consumer_ m) (circular_ready_ m) (circular_flushing_ m) true.

Definition circular_cache_push (msg : BagMessage) (m : CircularMessageCache) : bool * CircularMessageCache :=
  match circular_push msg (circular_producer_ m) with
  | Some (pushed, b) => (pushed, set_circular_buffers b (circular_consumer_ m) m)
  | None => (false, fail_circular m)
  end.

Definition circular_wait (m : CircularMessageCache) : option CircularMessageCache := if circular_flushing_ m then Some m else None.
Definition circular_wake (m : CircularMessageCache) : option CircularMessageCache :=
  if circular_ready_ m || circular_flushing_ m then Some m else None.

Definition circular_swap_buffers (m : CircularMessageCache) : CircularMessageCache :=
  if circular_ready_ m then
    set_circular_ready false (set_circular_buffers (circular_clear (circular_consumer_ m)) (circular_producer_ m) m)
  else m.

Definition circular_clear_consumer (m : CircularMessageCache) : CircularMessageCache :=
  set_circular_buffers (circular_producer_ m) (circular_clear (circular_consumer_ m)) m.

(** ** The interface *)

Class MessageCacheInterface (C : Type) := {
  push : BagMessage -> C -> bool * C;
  after_push : BagMessage -> bool -> list PushStep;
  push_step : PushStep -> C -> option PushStep * C;
  wait_for_data : C -> option C;
  wake : C -> option C;
  swap_buffers : C -> C;
  consumer_data : C -> list BagMessage;
  clear_consumer : C -> C;
  begin_flushing : C -> C;
  done_flushing : C -> C;
  notify_data_ready : C -> C;
}.

#[export] Instance MessageCache_interface : MessageCacheInterface MessageCache := {|
  push := cache_push;
  after_push := cache_after_push;
  push_step := cache_push_step;
  wait_for_data := cache_wait;
  wake := cache_wake;
  swap_buffers := cache_swap_buffers;
  consumer_data m := buffer_ (consumer_buffer_ m);
  clear_consumer := cache_clear_consumer;
  begin_flushing := set_flushing true;
  done_flushing := set_flushing false;
  notify_data_ready := cache_notify_data_ready;
|}.

#[export] Instance CircularMessageCache_interface : MessageCacheInterface CircularMessageCache := {|
  push := circular_cache_push;
  after_push _ _ := [];
  push_step _ c := (None, c);
  wait_for_data := circular_wait;
  wake := circular_wake;
  swap_buffers := circular_swap_buffers;
  consumer_data m := circular_ (circular_consumer_ m);
  clear_consumer := circular_clear_consumer;
  begin_flushing := set_circular_flushing true;
  done_flushing := set_circular_flushing false;
  notify_data_ready := set_circular_ready true;
|}.

(** A cache that is flushing lets nobody wait, and only [done_flushing] ends
    it. *)
Class MessageCacheLaws (C : Type) `{MessageCacheInterface C} := {
  flushes : C -> bool;
  flushes_begun c : flushes (begin_flushing c) = true;
  flushes_push msg c : flushes (push msg c).2 = flushes c;
  flushes_step step c : flushes (push_step step c).2 = flushes c;
  flushes_swap c : flushes (swap_buffers c) = flushes c;
  flushes_clear c : flushes (clear_consumer c) = flushes c;
  flushes_notify c : flushes (notify_data_ready c) = flushes c;
  flushes_wait c c' : wait_for_data c = Some c' -> flushes c' = flushes c;
  flushes_wake c c' : wake c = Some c' -> flushes c' = flushes c;
  wakes_flushing c : flushes c = true -> is_Some (wake c);
}.

#[export] Instance MessageCache_laws : MessageCacheLaws MessageCache.
Proof.
  refine {| flushes := flushing_ |}; try done.
  - intros msg c. unfold push. simpl. unfold cache_push. by destruct (buffer_push _ _).
  - by intros [].
  - intros c c'. simpl. unfold cache_wait. case_match; by intros [= <-].
  - intros c c'. simpl. unfold cache_wake. case_match; by intros [= <-].
  - intros c Hf. simpl. unfold cache_wake. rewrite Hf, orb_true_r. by eexists.
Defined.

#[export] Instance CircularMessageCache_laws : MessageCacheLaws CircularMessageCache.
Proof.
  refine {| flushes := circular_flushing_ |}; try done.
  - intros msg c. simpl. unfold circular_cache_push. by destruct (circular_push _ _) as [[]|].
  - intros c. simpl. unfold circular_swap_buffers. by case_match.
  - intros c c'. simpl. unfold circular_wait. case_match; by intros [= <-].
  - intros c c'. simpl. unfold circular_wake. case_match; by intros [= <-].
  - intros c Hf. simpl. unfold circular_wake. rewrite Hf, orb_true_r. by eexists.
Defined.

(** ** The circular buffer *)

Definition bytes_of (l : list BagMessage) : Z := foldr (fun m n => buffer_length m + n) 0 l.

Lemma bytes_of_app l1 l2 : bytes_of (l1 ++ l2) = bytes_of l1 + bytes_of l2.
Proof. induction l1 as [|m l IH]; simpl; lia. Qed.

Definition sized (m : BagMessage) : Prop := in_u 64 (buffer_length m).

Lemma bytes_of_nonneg l : Forall sized l -> 0 <= bytes_of l.
Proof. induction 1 as [|m l [Hm _] _ IH]; simpl; lia. Qed.

(** The longest end of [l] that has no more than [size] bytes. *)
Record newest (size : Z) (l s : list BagMessage) : Prop := {
  newest_end : exists old, l = old ++ s;
  newest_fits : bytes_of s <= size;
  newest_longest : forall old s', l = old ++ s' -> bytes_of s' <= size -> (length s' <= length s)%nat;
}.

Lemma remove_old_spec limit buffer :
  0 <= limit -> Forall sized buffer -> bytes_of buffer < 2 ^ 64 ->
  exists s, remove_old limit (bytes_of buffer) buffer = Some (bytes_of s, s) /\ newest limit buffer s.
Proof.
  intros Hl Hs. induction Hs as [|m l [Hm _] Hs IH]; intros Hb; cbn [remove_old].
  - rewrite (proj2 (Z.ltb_ge limit (bytes_of []))) by done. exists []. split; [done|]. split; [by exists []|done|].
    intros old s' E _. destruct s'; [done|]. by destruct old.
  - destruct (Z.ltb_spec limit (bytes_of (m :: l))) as [Hlt|Hge].
    + simpl in Hb. pose proof (bytes_of_nonneg l Hs). replace (u64 (bytes_of (m :: l) - buffer_length m)) with (bytes_of l).
      2:{ simpl. rewrite wrap_u_id by (unfold in_u; lia). lia. }
      destruct IH as (s & E & [[old ->] N2 N3]); [lia|]. exists s. split; [done|]. split; [by exists (m :: old)|done|].
      intros old' s' E' Hs'. destruct old' as [|m' old']; [simpl in E'; subst s'; simpl in *; lia|]. injection E' as -> E'. by apply (N3 old').
    + exists (m :: l). split; [done|]. split; [by exists []|done|]. intros old s' -> _. rewrite length_app. lia.
Qed.

(** Another message, for which the old ones make room. *)
Lemma newest_snoc size l s s' m :
  newest size l s -> newest (size - buffer_length m) s s' -> buffer_length m <= size -> 0 <= buffer_length m ->
  newest size (l ++ [m]) (s' ++ [m]).
Proof.
  intros [[o1 ->] N2 N3] [[o2 ->] M2 M3] Hm Hnn. split.
  - exists (o1 ++ o2). by rewrite <- !app_assoc.
  - rewrite bytes_of_app. simpl. lia.
  - intros old t E Ht. destruct t as [|x t _] using rev_ind; [simpl; lia|]. rewrite (app_assoc old) in E.
    apply app_inj_tail in E as [E ->]. rewrite bytes_of_app in Ht. simpl in Ht. rewrite !length_app. simpl.
    enough (length t <= length s')%nat by lia.
    assert (Hlen : (length t <= length (o2 ++ s'))%nat) by (apply (N3 old t); [done|lia]).
    apply app_eq_inv in E as [(k & -> & ->)|(k & -> & E)]; [|by apply (M3 k t); [|lia]].
    rewrite length_app in Hlen. destruct k; [|simpl in Hlen; lia]. apply (M3 [] (o2 ++ s')); [done|simpl in Ht; lia].
Qed.

(** [push] for a whole list. *)
Definition push_all (l : list BagMessage) (b : CircularBuffer) : option CircularBuffer :=
  foldl (fun b msg => b ← b; snd <$> circular_push msg b) (Some b) l.

Lemma circular_push_spec size msg l b :
  in_u 64 size -> sized msg -> Forall sized l -> circular_max_size_ b = size -> circular_bytes_size_ b = bytes_of (circular_ b) ->
  newest size l (circular_ b) ->
  exists b', circular_push msg b = Some (bool_decide (buffer_length msg <= size), b') /\ circular_max_size_ b' = size /\
    circular_bytes_size_ b' = bytes_of (circular_ b') /\
    newest size (l ++ if bool_decide (buffer_length msg <= size) then [msg] else []) (circular_ b').
Proof.
  intros Hsize Hmsg Hl Hmax Hb Hn. unfold circular_push. rewrite Hmax. unfold sized, in_u in *. destruct (Z.ltb_spec size (buffer_length msg)) as [Hlt|Hge].
  - rewrite bool_decide_false by lia. exists b. rewrite app_nil_r. by split_and!.
  - rewrite bool_decide_true by done. rewrite wrap_u_id by (unfold in_u; lia). rewrite Hb.
    assert (Hs : Forall sized (circular_ b)) by (destruct (newest_end _ _ _ Hn) as [old Eo]; rewrite Eo in Hl; by apply Forall_app in Hl as [_ ?]).
    pose proof (newest_fits _ _ _ Hn) as Hfit.
    destruct (remove_old_spec (size - buffer_length msg) (circular_ b)) as (s & -> & Hnew); [lia|done|lia|].
    eexists. split; [done|]. simpl. split; [done|]. pose proof (newest_fits _ _ _ Hnew). split.
    + rewrite bytes_of_app. simpl. destruct (newest_end _ _ _ Hnew) as [old Eo]. rewrite Eo in Hs. apply Forall_app in Hs as [_ Hs].
      pose proof (bytes_of_nonneg s Hs). rewrite wrap_u_id by (unfold in_u; lia). lia.
    + eapply newest_snoc; [exact Hn|exact Hnew|lia|lia].
Qed.

(** Whatever was pushed, the circular buffer never takes the front of an
    empty deque, counts its bytes right, and has the newest of the messages
    that are not larger than itself: as many as fit, in order. *)
Theorem circular_keeps_newest size l :
  in_u 64 size -> Forall sized l ->
  exists b, push_all l (new_circular size) = Some b /\ circular_bytes_size_ b = bytes_of (circular_ b) /\
    newest size (filter (fun m => buffer_length m <= size) l) (circular_ b).
Proof.
  intros Hsize Hl. enough (exists b, push_all l (new_circular size) = Some b /\ circular_max_size_ b = size /\
    circular_bytes_size_ b = bytes_of (circular_ b) /\ newest size (filter (fun m => buffer_length m <= size) l) (circular_ b)) by naive_solver.
  induction l as [|m l IH] using rev_ind.
  - eexists. split; [done|]. split_and!; [done|done|]. split; [by exists []|destruct Hsize; done|]. intros old [|] E _; [done|by destruct old].
  - apply Forall_app in Hl as [Hl [Hm _]%Forall_cons]. destruct (IH Hl) as (b & E & Hmax & Hb & Hn).
    assert (Hf : Forall sized (filter (fun m => buffer_length m <= size) l)) by (rewrite Forall_forall in Hl |- *; intros x [_ Hx]%list_elem_of_filter; auto).
    destruct (circular_push_spec size m _ b Hsize Hm Hf Hmax Hb Hn) as (b' & E' & Hmax' & Hb' & Hn').
    exists b'. unfold push_all in *. rewrite foldl_app, E. simpl. rewrite E'. split_and!; [done|done|done|].
    rewrite filter_app, filter_cons. by case_bool_decide as Hle; [rewrite decide_True by done|rewrite decide_False by done].
Qed.

Lemma circular_keeps_newest_witness :
  exists b, push_all [mkMessage "a" 40 0; mkMessage "b" 70 1; mkMessage "a" 120 2; mkMessage "a" 30 3] (new_circular 100) = Some b /\
    circular_ b = [mkMessage "b" 70 1; mkMessage "a" 30 3] /\ newest 100 [mkMessage "a" 40 0; mkMessage "b" 70 1; mkMessage "a" 30 3] (circular_ b).
Proof.
  destruct (circular_keeps_newest 100 [mkMessage "a" 40 0; mkMessage "b" 70 1; mkMessage "a" 120 2; mkMessage "a" 30 3]) as (b & E & _ & Hn).
  - by vm_compute.
  - repeat (constructor; [by vm_compute|]). constructor.
  - exists b. split; [done|]. split; [vm_compute in E; by injection E as <-|exact Hn].
Defined.
