(* ===== verification/CacheConsumer.v ===== *)
(** * The thread that empties the caches of rosbag2

    [rosbag2/rosbag2_cpp/src/rosbag2_cpp/cache/cache_consumer.cpp] over any
    cache ([BagCache.MessageCacheInterface]): the thread is the function
    [exec_consuming_step], from one point of its loop to the next; [later] are
    the states that are reached while messages are pushed, by any number of
    threads, and the owner of the consumer stops and starts it, and
    [one_by_one] those in which no two pushes overlap.

    The theorems: no accepted message is lost, and the others are counted, all
    of them if they are pushed one after the other ([messages_conserved];
    otherwise [lost_count]), [stop] leaves nothing behind
    ([stop_writes_everything]), and the thread ends ([consumer_ends]). *)

From Stdlib Require Import ZArith Lia.
From stdpp Require Import base numbers list gmap strings.
From S2P Require Import Prelude BagCache.
#[local] Open Scope Z_scope.

(** Where the thread is in its loop; [Joined]: there is none. *)
Inductive Point := Entering | Waiting | Swapping | Consuming | Checking | Ended | Joined.

#[export] Instance Point_eq_dec : EqDecision Point.
Proof. solve_decision. Defined.

(** How far [stop] is. *)
Inductive Stage := Working | Flushing | Issued.

#[export] Instance Stage_eq_dec : EqDecision Stage.
Proof. solve_decision. Defined.

Section CacheConsumer.
Context {C : Type} `{MessageCacheInterface C}.

(** [pushes]: what those under way have yet to do; [written]: what
    [consume_callback_] was called with. *)
Record CacheConsumer := mkConsumer {
  message_cache_ : C;
  pushes : list (list PushStep);
  is_stop_issued_ : bool;
  point : Point;
  flushing : bool;
  written : list (list BagMessage);
  stage : Stage;
}.

Definition set_cache (c : C) (s : CacheConsumer) : CacheConsumer :=
  mkConsumer c (pushes s) (is_stop_issued_ s) (point s) (flushing s) (written s) (stage s).
Definition set_pushes (l : list (list PushStep)) (s : CacheConsumer) : CacheConsumer :=
  mkConsumer (message_cache_ s) l (is_stop_issued_ s) (point s) (flushing s) (written s) (stage s).
Definition set_stop_issued (b : bool) (s : CacheConsumer) : CacheConsumer :=
  mkConsumer (message_cache_ s) (pushes s) b (point s) (flushing s) (written s) (stage s).
Definition set_thread (p : Point) (b : bool) (s : CacheConsumer) : CacheConsumer :=
  mkConsumer (message_cache_ s) (pushes s) (is_stop_issued_ s) p b (written s) (stage s).
Definition set_stage (x : Stage) (s : CacheConsumer) : CacheConsumer :=
  mkConsumer (message_cache_ s) (pushes s) (is_stop_issued_ s) (point s) (flushing s) (written s) x.
Definition consume (s : CacheConsumer) : CacheConsumer :=
  mkConsumer (clear_consumer (message_cache_ s)) (pushes s) (is_stop_issued_ s) (point s) (flushing s)
    (written s ++ [consumer_data (message_cache_ s)]) (stage s).

(** The constructor: the thread is started. *)
Definition new_consumer (message_cache : C) : CacheConsumer := mkConsumer message_cache [] false Entering false [] Working.

(** [None]: the thread waits, or there is none. *)
Definition exec_consuming_step (s : CacheConsumer) : option CacheConsumer :=
  let goes p s := set_thread p (flushing s) s in
  match point s with
  | Entering => Some (match wait_for_data (message_cache_ s) with
                      | Some c => goes Swapping (set_cache c s)
                      | None => goes Waiting s
                      end)
  | Waiting => (fun c => goes Swapping (set_cache c s)) <$> wake (message_cache_ s)
  | Swapping => Some (goes Consuming (set_cache (swap_buffers (message_cache_ s)) s))
  | Consuming => Some (goes Checking (consume s))
  | Checking => Some (set_thread (if flushing s then Ended else Entering) (flushing s || is_stop_issued_ s) s)
  | Ended | Joined => None
  end.

(** The first and the other steps of [push]. *)
Definition begin_push (msg : BagMessage) (s : CacheConsumer) : bool * CacheConsumer :=
  let '(pushed, c) := push msg (message_cache_ s) in
  (pushed, set_pushes (after_push msg pushed :: pushes s) (set_cache c s)).

Definition continue_push (i : nat) (s : CacheConsumer) : CacheConsumer :=
  match pushes s !! i with
  | Some (step :: steps) =>
    let '(more, c) := push_step step (message_cache_ s) in
    set_pushes (<[i := option_list more ++ steps]> (pushes s)) (set_cache c s)
  | _ => s
  end.

(** [SequentialWriter::take_snapshot]. *)
Definition take_snapshot (s : CacheConsumer) : CacheConsumer := set_cache (notify_data_ready (message_cache_ s)) s.

(** The steps of [stop]. *)
Definition stop_begins (s : CacheConsumer) : CacheConsumer := set_stage Flushing (set_cache (begin_flushing (message_cache_ s)) s).
Definition stop_issues (s : CacheConsumer) : CacheConsumer := set_stage Issued (set_stop_issued true s).
Definition stop_joins (s : CacheConsumer) : CacheConsumer :=
  set_stage Working (set_cache (done_flushing (message_cache_ s)) (set_thread Joined (flushing s) s)).

Definition start (s : CacheConsumer) : CacheConsumer :=
  let s := set_stop_issued false s in
  if bool_decide (point s = Joined) then set_thread Entering false s else s.

(** What the others may do, with what they pushed. *)
Inductive other_step : list (BagMessage * bool) -> CacheConsumer -> CacheConsumer -> Prop :=
| step_push msg s : other_step [(msg, (begin_push msg s).1)] s (begin_push msg s).2
| step_continue i s : other_step [] s (continue_push i s)
| step_snapshot s : other_step [] s (take_snapshot s)
| step_stop s : stage s = Working -> other_step [] s (stop_begins s)
| step_issue s : stage s = Flushing -> other_step [] s (stop_issues s)
| step_join s : stage s = Issued -> point s = Ended \/ point s = Joined -> other_step [] s (stop_joins s)
| step_start s : stage s = Working -> other_step [] s (start s).

(** From one state to another. *)
Inductive later (s : CacheConsumer) : list (BagMessage * bool) -> CacheConsumer -> Prop :=
| later_here : later s [] s
| later_other log l s1 s2 : later s log s1 -> other_step l s1 s2 -> later s (log ++ l) s2
| later_thread log s1 s2 : later s log s1 -> exec_consuming_step s1 = Some s2 -> later s log s2.

(** From one state to another, where no [push] begins before the one before it
    has returned. *)
Inductive one_by_one (s : CacheConsumer) : list (BagMessage * bool) -> CacheConsumer -> Prop :=
| one_here : one_by_one s [] s
| one_other log l s1 s2 : one_by_one s log s1 -> other_step l s1 s2 -> (l <> [] -> concat (pushes s1) = []) -> one_by_one s (log ++ l) s2
| one_thread log s1 s2 : one_by_one s log s1 -> exec_consuming_step s1 = Some s2 -> one_by_one s log s2.

Lemma one_by_one_later s log s' : one_by_one s log s' -> later s log s'.
Proof. induction 1; by econstructor. Qed.

(** While [stop] waits for the thread, with the number of its steps. *)
Inductive waiting (s : CacheConsumer) : nat -> CacheConsumer -> Prop :=
| waiting_here : waiting s 0 s
| waiting_other n l s1 s2 : waiting s n s1 -> other_step l s1 s2 -> stage s2 = Issued -> waiting s n s2
| waiting_thread n s1 s2 : waiting s n s1 -> exec_consuming_step s1 = Some s2 -> waiting s (S n) s2.
End CacheConsumer.
Arguments CacheConsumer C : clear implicits.

Definition accepted (log : list (BagMessage * bool)) : list BagMessage := fst <$> filter (fun e => e.2 = true) log.

Definition rejected (topic : string) (log : list (BagMessage * bool)) : nat :=
  length (filter (fun e => e.2 = false /\ topic_name e.1 = topic) log).

Lemma continue_push_eq {C} `{MessageCacheInterface C} i (s : CacheConsumer C) step steps : pushes s !! i = Some (step :: steps) ->
  continue_push i s = set_pushes (<[i := option_list (push_step step (message_cache_ s)).1 ++ steps]> (pushes s))
    (set_cache (push_step step (message_cache_ s)).2 s).
Proof. intros Hi. unfold continue_push. rewrite Hi. by destruct (push_step step (message_cache_ s)). Qed.

(** A push is done, or takes a step. *)
Lemma continue_push_cases {C} `{MessageCacheInterface C} i (s : CacheConsumer C) :
  continue_push i s = s \/ exists step steps, pushes s !! i = Some (step :: steps).
Proof. unfold continue_push. destruct (pushes s !! i) as [[|step steps]|]; [by left|right; eauto|by left]. Qed.

(** ** The thread ends *)

Section Ends.
Context {C : Type} `{MessageCacheLaws C}.

(** How many steps are left, at most. *)
Definition steps_left (s : CacheConsumer C) : nat :=
  match point s with Entering => 5 | Waiting => 4 | Swapping => 3 | Consuming => 2 | Checking => 1 | Ended | Joined => 0 end
  + if flushing s then 0 else match point s with Ended | Joined => 0 | _ => 5 end.

Record stopping (s : CacheConsumer C) : Prop := {
  stop_stage : stage s = Issued;
  stop_issued : is_stop_issued_ s = true;
  stop_flushes : flushes (message_cache_ s) = true;
}.

Lemma stopping_other l s s' : stopping s -> other_step l s s' -> stage s' = Issued ->
  stopping s' /\ point s' = point s /\ flushing s' = flushing s.
Proof.
  intros [H1 H2 H3] Hs. destruct Hs as [msg s|i s|s|s Hst|s Hst|s Hst|s Hst]; intros Hi; try congruence; try done.
  - unfold begin_push in *. pose proof (flushes_push msg (message_cache_ s)) as Hf. destruct (push msg (message_cache_ s)) as [b c].
    simpl in *. split; [|done]. split; simpl; [done|done|by rewrite Hf].
  - destruct (continue_push_cases i s) as [->|(step & steps & Hi')]; [done|]. rewrite (continue_push_eq i s _ _ Hi'). split; [|done].
    split; try done. simpl. by rewrite flushes_step.
  - split; [|done]. split; try done. simpl. by rewrite flushes_notify.
Qed.

Lemma stopping_thread s s' : stopping s -> exec_consuming_step s = Some s' -> stopping s' /\ (S (steps_left s') <= steps_left s)%nat.
Proof.
  intros [H1 H2 H3] Hs. unfold exec_consuming_step in Hs. unfold steps_left. destruct (point s) eqn:Hp; try done.
  - injection Hs as <-. destruct (wait_for_data (message_cache_ s)) as [c|] eqn:Hw; simpl; (split; [split; try done; simpl|destruct (flushing s); lia]).
    by rewrite (flushes_wait _ _ Hw).
  - destruct (wake (message_cache_ s)) as [c|] eqn:Hw; [|done]. injection Hs as <-. simpl. split; [split; try done; simpl|destruct (flushing s); lia].
    by rewrite (flushes_wake _ _ Hw).
  - injection Hs as <-. simpl. split; [split; try done; simpl; by rewrite flushes_swap|destruct (flushing s); lia].
  - injection Hs as <-. simpl. split; [split; try done; simpl; by rewrite flushes_clear|destruct (flushing s); lia].
  - injection Hs as <-. simpl. rewrite H2. split; [done|]. by destruct (flushing s); simpl; lia.
Qed.

Lemma stopping_moves s : stopping s -> point s = Ended \/ point s = Joined \/ is_Some (exec_consuming_step s).
Proof.
  intros [H1 H2 H3]. unfold exec_consuming_step. destruct (point s); try (right; right; by eexists); [|by left|by right; left].
  right. right. destruct (wakes_flushing _ H3) as [c ->]. by eexists.
Qed.

Lemma waiting_stopping s n s' : stopping s -> waiting s n s' -> stopping s' /\ (n + steps_left s' <= steps_left s)%nat.
Proof.
  intros Hs. induction 1 as [|n l s1 s2 _ [IH1 IH2] Ho Hi|n s1 s2 _ [IH1 IH2] Ht]; [by split|..].
  - destruct (stopping_other l s1 s2 IH1 Ho Hi) as (H1 & H2 & H3). split; [done|]. unfold steps_left in *. by rewrite H2, H3.
  - destruct (stopping_thread s1 s2 IH1 Ht) as [H1 H2]. split; [done|]. lia.
Qed.
End Ends.

Section Recorded.
Context {C : Type} `{MessageCacheLaws C} (c0 : C).

Record stage_valid (s : CacheConsumer C) : Prop := {
  stage_flushes : stage s <> Working -> flushes (message_cache_ s) = true;
  stage_issued : stage s = Issued -> is_stop_issued_ s = true;
  stage_runs : point s <> Joined -> stage s <> Issued -> is_stop_issued_ s = false /\ flushing s = false /\ point s <> Ended;
}.

Lemma stage_other l s s' : stage_valid s -> other_step l s s' -> stage_valid s'.
Proof.
  intros [H1 H2 H3] Hs. destruct Hs as [msg s|i s|s|s Hst|s Hst|s Hst Hp|s Hst].
  - unfold begin_push. pose proof (flushes_push msg (message_cache_ s)) as Hf. destruct (push msg (message_cache_ s)) as [b c]. simpl in *.
    split; simpl; try assumption; try done. by rewrite Hf.
  - destruct (continue_push_cases i s) as [->|(step & steps & Hi')]; [by split|]. rewrite (continue_push_eq i s _ _ Hi').
    split; simpl; try assumption; try done. by rewrite flushes_step.
  - split; simpl; try assumption; try done. by rewrite flushes_notify.
  - split; simpl; try assumption; try done; [intros _; apply flushes_begun|]. intros Hj _. apply H3; [done|congruence].
  - split; simpl; try assumption; try done. intros _. apply H1. congruence.
  - split; simpl; try assumption; try done.
  - unfold start. split; case_bool_decide as Hj; simpl in *; try congruence; [done|]. intros _ _. split; [done|]. apply H3; congruence.
Qed.

Lemma stage_thread s s' : stage_valid s -> exec_consuming_step s = Some s' -> stage_valid s'.
Proof.
  intros [H1 H2 H3] Hs. unfold exec_consuming_step in Hs. destruct (point s) eqn:Hp; try done.
  - injection Hs as <-. destruct (wait_for_data (message_cache_ s)) as [c|] eqn:Hw; split; simpl; try assumption; try done; try (intros _ Hi; destruct (H3 ltac:(done) Hi) as (? & ? & _); by split_and!).
    by rewrite (flushes_wait _ _ Hw).
  - destruct (wake (message_cache_ s)) as [c|] eqn:Hw; [|done]. injection Hs as <-.
    split; simpl; try assumption; try done; try (intros _ Hi; destruct (H3 ltac:(done) Hi) as (? & ? & _); by split_and!). by rewrite (flushes_wake _ _ Hw).
  - injection Hs as <-. split; simpl; try assumption; try done; try (intros _ Hi; destruct (H3 ltac:(done) Hi) as (? & ? & _); by split_and!). by rewrite flushes_swap.
  - injection Hs as <-. split; simpl; try assumption; try done; try (intros _ Hi; destruct (H3 ltac:(done) Hi) as (? & ? & _); by split_and!). by rewrite flushes_clear.
  - injection Hs as <-. split; simpl; try assumption; try done. intros _ Hi. destruct (H3 ltac:(done) Hi) as (-> & -> & _). done.
Qed.

Lemma recorded_stage log s : later (new_consumer c0) log s -> stage_valid s.
Proof. induction 1; [by split|by eapply stage_other|by eapply stage_thread]. Qed.

Lemma issue_stopping log s : later (new_consumer c0) log s -> stage s = Flushing -> stopping (stop_issues s).
Proof. intros Hr Hs. destruct (recorded_stage _ _ Hr) as [H1 _ _]. split; simpl; [done|done|]. apply H1. congruence. Qed.

(** C25: Once [stop] has been issued the thread ends: after at most ten steps
    of its own, whatever the others do meanwhile, and it is never made to
    wait. *)
Theorem consumer_ends log s n s' :
  later (new_consumer c0) log s -> stage s = Flushing -> waiting (stop_issues s) n s' ->
  (n <= 10)%nat /\ (point s' = Ended \/ point s' = Joined \/ is_Some (exec_consuming_step s')).
Proof.
  intros Hr Hs Hw. destruct (waiting_stopping _ _ _ (issue_stopping _ _ Hr Hs) Hw) as [H1 H2]. split.
  - unfold steps_left in H2 at 2. simpl in H2. destruct (point s), (flushing s); simpl in H2; lia.
  - by apply stopping_moves.
Qed.
End Recorded.

(** ** Nothing is lost *)

Lemma accepted_app l1 l2 : accepted (l1 ++ l2) = accepted l1 ++ accepted l2.
Proof. unfold accepted. by rewrite filter_app, fmap_app. Qed.

Lemma rejected_app t l1 l2 : rejected t (l1 ++ l2) = (rejected t l1 + rejected t l2)%nat.
Proof. unfold rejected. by rewrite filter_app, length_app. Qed.

Notation Consumer := (CacheConsumer MessageCache).

Definition produced (s : Consumer) : list BagMessage := buffer_ (producer_buffer_ (message_cache_ s)).
Definition to_consume (s : Consumer) : list BagMessage := buffer_ (consumer_buffer_ (message_cache_ s)).

Record conserves (log : list (BagMessage * bool)) (s : Consumer) : Prop := {
  conserved : concat (written s) ++ to_consume s ++ produced s = accepted log;
  consumed : point s <> Consuming -> to_consume s = [];
}.

(** What a push that was dropped does not touch. *)
Lemma push_step_buffers step (m : MessageCache) :
  producer_buffer_ (push_step step m).2 = producer_buffer_ m /\ consumer_buffer_ (push_step step m).2 = consumer_buffer_ m.
Proof. by destruct step. Qed.

Lemma conserves_push msg log s : conserves log s -> conserves (log ++ [(msg, (begin_push msg s).1)]) (begin_push msg s).2.
Proof.
  intros [H1 H2]. unfold begin_push. simpl. unfold cache_push, buffer_push. set (b := producer_buffer_ (message_cache_ s)) in *.
  destruct (drop_messages_ b) eqn:Ed; simpl; split; simpl; try done; rewrite accepted_app; simpl.
  - by rewrite app_nil_r.
  - rewrite <- H1. unfold produced, to_consume, b. simpl. by rewrite <- !app_assoc.
Qed.

Lemma conserves_other l log s s' : conserves log s -> other_step l s s' -> conserves (log ++ l) s'.
Proof.
  intros Hc Hs. destruct Hs as [msg s|i s|s|s Hst|s Hst|s Hst Hp|s Hst]; [by apply conserves_push|..]; rewrite ?app_nil_r; destruct Hc as [H1 H2].
  - destruct (continue_push_cases i s) as [->|(step & steps & Hi)]; [by split|]. rewrite (continue_push_eq i s _ _ Hi).
    destruct (push_step_buffers step (message_cache_ s)) as [B1 B2]. split; unfold to_consume, produced in *; simpl in *; by rewrite B2, ?B1.
  - by split.
  - by split.
  - by split.
  - split; simpl; try done. intros _. apply H2. by destruct Hp as [-> | ->].
  - unfold start. case_bool_decide as Hj; split; simpl in *; try done. intros _. apply H2. by rewrite Hj.
Qed.

Lemma conserves_thread log s s' : conserves log s -> exec_consuming_step s = Some s' -> conserves log s'.
Proof.
  intros [H1 H2] Hs. unfold exec_consuming_step in Hs. destruct (point s) eqn:Hp; try done.
  - injection Hs as <-. simpl. unfold cache_wait. destruct (flushing_ _); split; simpl; try done; intros _; by apply H2.
  - simpl in Hs. unfold cache_wake in Hs. destruct (_ || _); [|done]. injection Hs as <-. split; simpl; try done. intros _; by apply H2.
  - injection Hs as <-. split; simpl; try done. rewrite <- H1. unfold to_consume, produced in *. simpl. rewrite H2 by done. by rewrite app_nil_r.
  - injection Hs as <-. split; simpl; try done. rewrite <- H1, concat_app. simpl. by rewrite app_nil_r, <- app_assoc.
  - injection Hs as <-. split; simpl; try done. intros _; by apply H2.
Qed.

Lemma recorded_conserves size log s : later (new_consumer (new_cache size)) log s -> conserves log s.
Proof.
  induction 1; [|by eapply conserves_other|by eapply conserves_thread]. by split.
Qed.

(** ** The counts *)

Lemma dropped_store topic topic' n m : dropped_of topic (store_dropped topic' n m) = if decide (topic = topic') then u32 (n + 1) else dropped_of topic m.
Proof.
  unfold dropped_of, store_dropped. simpl. destruct (decide (topic = topic')) as [->|Hne]; [by rewrite lookup_insert_eq|by rewrite lookup_insert_ne].
Qed.

(** What pushes and counts are for. *)
Definition same_counts (s s' : Consumer) : Prop :=
  pushes s' = pushes s /\ messages_dropped_per_topic_ (message_cache_ s') = messages_dropped_per_topic_ (message_cache_ s).

(** The steps by which they change. *)
Lemma other_counts l (s s' : Consumer) : other_step l s s' ->
  (l = [] /\ same_counts s s') \/ (exists msg, l = [(msg, (begin_push msg s).1)] /\ s' = (begin_push msg s).2) \/
  (exists i step steps, l = [] /\ pushes s !! i = Some (step :: steps) /\ s' = continue_push i s).
Proof.
  intros Hs. destruct Hs as [msg s|i s|s|s Hst|s Hst|s Hst Hp|s Hst]; try (left; by split_and!).
  - right. left. by exists msg.
  - destruct (continue_push_cases i s) as [->|(step & steps & Hi)]; [left; by split_and!|right; right; by exists i, step, steps].
  - left. split; [done|]. unfold start. by case_bool_decide.
Qed.

Lemma thread_counts (s s' : Consumer) : exec_consuming_step s = Some s' -> same_counts s s'.
Proof.
  unfold exec_consuming_step. destruct (point s); try done; simpl; unfold cache_wait, cache_wake; try (by intros [= <-]).
  - destruct (flushing_ _); by intros [= <-].
  - destruct (_ || _); [|done]. by intros [= <-].
Qed.

Lemma dropped_same topic s s' : same_counts s s' -> dropped_of topic (message_cache_ s') = dropped_of topic (message_cache_ s).
Proof. intros [_ Hd]. unfold dropped_of. by rewrite Hd. Qed.

(** What a push that begins has to do, and what it does to the log. *)
Lemma begin_push_counts msg (s : Consumer) :
  pushes (begin_push msg s).2 = cache_after_push msg (begin_push msg s).1 :: pushes s /\
  messages_dropped_per_topic_ (message_cache_ (begin_push msg s).2) = messages_dropped_per_topic_ (message_cache_ s).
Proof. unfold begin_push. simpl. unfold cache_push, buffer_push. by destruct (drop_messages_ _). Qed.

Lemma rejected_one topic msg (pushed : bool) : rejected topic [(msg, pushed)] = if pushed then 0%nat else if decide (topic_name msg = topic) then 1%nat else 0%nat.
Proof.
  unfold rejected. destruct pushed; [rewrite filter_cons_False; [done|by intros [? _]]|].
  destruct (decide (topic_name msg = topic)); [by rewrite filter_cons_True|rewrite filter_cons_False; [done|by intros [_ ?]]].
Qed.

(** *** Of any pushes

    Two pushes may read the same count, of which one is lost; there are never
    too many. *)

(** Pushes that have not read the count yet. *)
Definition unread (topic : string) (l : list (list PushStep)) : nat := length (filter (fun x => x = ReadDropped topic) (concat l)).

Lemma unread_cons topic l ls : unread topic (l :: ls) = (unread topic [l] + unread topic ls)%nat.
Proof. unfold unread. simpl. by rewrite app_nil_r, filter_app, length_app. Qed.

Lemma unread_insert topic (ls : list (list PushStep)) i step steps more : ls !! i = Some (step :: steps) ->
  (forall x, more = Some x -> x <> ReadDropped topic) ->
  unread topic ls = (unread topic (<[i := option_list more ++ steps]> ls) + if decide (step = ReadDropped topic) then 1 else 0)%nat.
Proof.
  intros Hi Hmore. revert i Hi. induction ls as [|l ls IH]; intros [|i] Hi; [done|done| |].
  - injection Hi as ->. simpl. rewrite (unread_cons topic (step :: steps)), (unread_cons topic (option_list more ++ steps)).
    assert (E : unread topic [option_list more ++ steps] = unread topic [steps]).
    { unfold unread. simpl. rewrite !app_nil_r. destruct more as [x|]; [|done]. simpl. rewrite filter_cons_False; [done|]. by apply Hmore. }
    rewrite E. unfold unread at 1 3. simpl. rewrite filter_cons. destruct (decide (step = ReadDropped topic)); simpl; lia.
  - simpl. rewrite unread_cons, (unread_cons topic l (<[i := _]> ls)), (IH i Hi). lia.
Qed.

(** The count, and those that will be stored, are at most [v]. *)
Definition at_most (topic : string) (v : Z) (s : Consumer) : Prop :=
  0 <= dropped_of topic (message_cache_ s) <= v /\ forall n, StoreDropped topic n ∈ concat (pushes s) -> 0 <= n < v.

Definition bounded (log : list (BagMessage * bool)) (s : Consumer) : Prop :=
  forall topic, exists v, at_most topic v s /\ v + Z.of_nat (unread topic (pushes s)) <= Z.of_nat (rejected topic log).

Lemma bounded_same log s s' : bounded log s -> same_counts s s' -> bounded log s'.
Proof.
  intros Hb Hs topic. destruct (Hb topic) as (v & [H1 H2] & H3). exists v. pose proof Hs as [Hp _]. rewrite Hp.
  split; [|done]. split; [by rewrite (dropped_same topic s s' Hs)|by rewrite Hp].
Qed.

Lemma unread_push topic msg (pushed : bool) :
  unread topic [cache_after_push msg pushed] = if pushed then 0%nat else if decide (topic_name msg = topic) then 1%nat else 0%nat.
Proof.
  unfold unread, cache_after_push. destruct pushed; cbn [concat app]; rewrite !filter_cons, filter_nil; rewrite (decide_False (P := NotifyDataReady = _)) by done; [done|].
  destruct (decide (topic_name msg = topic)) as [<-|Hne]; [by rewrite decide_True|by rewrite decide_False by congruence].
Qed.

Lemma bounded_push msg log s : bounded log s -> bounded (log ++ [(msg, (begin_push msg s).1)]) (begin_push msg s).2.
Proof.
  intros Hb topic. destruct (Hb topic) as (v & [H1 H2] & H3). destruct (begin_push_counts msg s) as [Ep Ed].
  exists v. rewrite rejected_app, rejected_one, Ep, unread_cons. unfold at_most, dropped_of. rewrite Ed, Ep. split; [split; [done|]|].
  - intros n. simpl. unfold cache_after_push. rewrite !elem_of_app. destruct (begin_push msg s).1; simpl;
      intros [[Hin|Hin]|Hin]; try (by apply H2); repeat (apply elem_of_cons in Hin as [?|Hin]; [done|]); by apply elem_of_nil in Hin.
  - rewrite unread_push. destruct (begin_push msg s).1; [lia|]. destruct (decide (topic_name msg = topic)); lia.
Qed.

Lemma elem_of_concat_insert {A} (x : A) (ls : list (list A)) i l : x ∈ concat (<[i := l]> ls) -> x ∈ l \/ x ∈ concat ls.
Proof.
  revert i. induction ls as [|k ls IH]; intros [|i]; simpl; rewrite ?elem_of_app; [by right|by right|tauto|].
  intros [Hx|Hx]; [tauto|]. destruct (IH i Hx); tauto.
Qed.

Lemma elem_of_concat_lookup {A} (x : A) (ls : list (list A)) i l : ls !! i = Some l -> x ∈ l -> x ∈ concat ls.
Proof.
  revert i. induction ls as [|k ls IH]; intros [|i] Hi Hx; [done|done| |]; simpl; rewrite elem_of_app.
  - injection Hi as ->. by left.
  - right. by eapply IH.
Qed.

Lemma bounded_continue log i s step steps : pushes s !! i = Some (step :: steps) -> bounded log s -> bounded log (continue_push i s).
Proof.
  intros Hi Hb topic. destruct (Hb topic) as (v & [H1 H2] & H3). rewrite (continue_push_eq i s _ _ Hi).
  assert (Hin : forall x, x ∈ concat (<[i := option_list (push_step step (message_cache_ s)).1 ++ steps]> (pushes s)) ->
    Some x = (push_step step (message_cache_ s)).1 \/ x ∈ concat (pushes s)).
  { intros x Hx. apply elem_of_concat_insert in Hx as [Hx|Hx]; [|by right]. apply elem_of_app in Hx as [Hx|Hx].
    - left. destruct (push_step step (message_cache_ s)).1 as [y|]; simpl in Hx; [|by apply elem_of_nil in Hx].
      by apply list_elem_of_singleton in Hx as ->.
    - right. eapply elem_of_concat_lookup; [exact Hi|by right]. }
  assert (Hun := unread_insert topic (pushes s) i step steps (push_step step (message_cache_ s)).1 Hi
    ltac:(by destruct step; intros x [= <-])).
  rewrite Hun in H3. clear Hun. destruct step as [t|t n|]; simpl in *.
  - destruct (decide (topic = t)) as [->|Hne].
    + exists (v + 1). rewrite decide_True in H3 by done. split; [|lia]. split; simpl; [lia|].
      intros n [Hx|Hx]%Hin; [injection Hx as ->; lia|]. specialize (H2 n Hx). lia.
    + exists v. rewrite decide_False in H3 by congruence. split; [|lia]. split; simpl; [done|].
      intros n [Hx|Hx]%Hin; [congruence|by apply H2].
  - exists v. split; [|lia]. split; simpl.
    + rewrite dropped_store. destruct (decide (topic = t)) as [->|]; [|done].
      assert (0 <= n < v) by (apply H2; eapply elem_of_concat_lookup; [exact Hi|by left]).
      pose proof (wrap_u_range 32 (n + 1) ltac:(lia)). unfold in_u in *. split; [lia|]. unfold wrap_u. pose proof (Z.mod_le (n + 1) (2 ^ 32)). lia.
    + intros n' [Hx|Hx]%Hin; [done|by apply H2].
  - exists v. split; [|lia]. split; simpl; [done|]. intros n' [Hx|Hx]%Hin; [done|by apply H2].
Qed.

Lemma recorded_bounded size log s : later (new_consumer (new_cache size)) log s -> bounded log s.
Proof.
  induction 1 as [|log l s1 s2 _ IH Ho|log s1 s2 _ IH Ht].
  - intros topic. exists 0. split; [|done]. split; [done|]. by intros n ?%elem_of_nil.
  - apply other_counts in Ho as [[-> Hs]|[(msg & -> & ->)|(i & step & steps & -> & Hi & ->)]].
    + rewrite app_nil_r. by eapply bounded_same.
    + by apply bounded_push.
    + rewrite app_nil_r. by eapply bounded_continue.
  - eapply bounded_same; [done|by apply thread_counts].
Qed.

(** *** One after the other *)

(** The count when the last push is done. *)
Definition count_after (topic : string) (steps : list PushStep) (m : MessageCache) : Z :=
  match steps with
  | ReadDropped t :: _ => dropped_of topic m + if decide (topic = t) then 1 else 0
  | StoreDropped t n :: _ => if decide (topic = t) then n + 1 else dropped_of topic m
  | _ => dropped_of topic m
  end.

Record exact (log : list (BagMessage * bool)) (s : Consumer) : Prop := {
  exact_others : concat (tail (pushes s)) = [];
  exact_rest : Forall (fun x => x = NotifyDataReady) (tail (default [] (head (pushes s))));
  exact_count topic : u32 (count_after topic (default [] (head (pushes s))) (message_cache_ s)) = u32 (Z.of_nat (rejected topic log));
}.

Lemma count_after_notify topic l m : Forall (fun x => x = NotifyDataReady) l -> count_after topic l m = dropped_of topic m.
Proof. by destruct 1 as [|x l -> _]. Qed.

Lemma count_after_same topic l (s s' : Consumer) : same_counts s s' -> count_after topic l (message_cache_ s') = count_after topic l (message_cache_ s).
Proof. intros Hs. unfold count_after. by rewrite !(dropped_same _ s s' Hs). Qed.

Lemma exact_same log s s' : exact log s -> same_counts s s' -> exact log s'.
Proof.
  intros [H1 H2 H3] Hs. pose proof Hs as [Hp _]. split; rewrite Hp; [done|done|]. intros topic. by rewrite (count_after_same topic _ s s' Hs).
Qed.

Lemma exact_push msg log s : exact log s -> concat (pushes s) = [] -> exact (log ++ [(msg, (begin_push msg s).1)]) (begin_push msg s).2.
Proof.
  intros [H1 H2 H3] Hn. destruct (begin_push_counts msg s) as [Ep Ed]. split; rewrite Ep; [done|by destruct (begin_push msg s).1; repeat constructor|].
  intros topic. rewrite rejected_app, rejected_one. specialize (H3 topic).
  assert (Hd : count_after topic (default [] (head (pushes s))) (message_cache_ s) = dropped_of topic (message_cache_ s)).
  { destruct (pushes s) as [|[|x l] ls]; [done|done|]. simpl in Hn. discriminate Hn. }
  rewrite Hd in H3. assert (Hd' : dropped_of topic (message_cache_ (begin_push msg s).2) = dropped_of topic (message_cache_ s))
    by (unfold dropped_of; by rewrite Ed).
  simpl. destruct (begin_push msg s).1; simpl; rewrite Hd', ?Nat.add_0_r; [done|].
  rewrite <- wrap_u_add_l, H3, wrap_u_add_l. f_equal.
  destruct (decide (topic = topic_name msg)) as [->|Hne]; [rewrite decide_True by done|rewrite decide_False by congruence]; lia.
Qed.

Lemma exact_continue log i s step steps : pushes s !! i = Some (step :: steps) -> exact log s -> exact log (continue_push i s).
Proof.
  intros Hi [H1 H2 H3]. assert (i = 0%nat) as ->.
  { destruct i as [|i]; [done|]. exfalso. destruct (pushes s) as [|l ls]; [done|].
    assert (Hx : step ∈ concat ls) by (eapply elem_of_concat_lookup; [exact Hi|by left]). simpl in H1. rewrite H1 in Hx. by apply elem_of_nil in Hx. }
  destruct (pushes s) as [|l ls] eqn:Ep; [done|]. injection Hi as ->. simpl in *.
  rewrite (continue_push_eq 0 s step steps) by by rewrite Ep. rewrite Ep. split; simpl; [done|by destruct step; simpl; [|destruct H2..]|].
  intros topic. rewrite <- H3. destruct step as [t|t n|]; simpl.
  - destruct (decide (topic = t)) as [->|]; [done|by rewrite Z.add_0_r].
  - rewrite count_after_notify by done. rewrite dropped_store. destruct (decide (topic = t)); [|done].
    unfold wrap_u. by rewrite Zmod_mod.
  - by rewrite count_after_notify.
Qed.

Lemma one_by_one_exact size log s : one_by_one (new_consumer (new_cache size)) log s -> exact log s.
Proof.
  induction 1 as [|log l s1 s2 _ IH Ho Hl|log s1 s2 _ IH Ht]; [by split| |eapply exact_same; [done|by apply thread_counts]].
  apply other_counts in Ho as [[-> Hs]|[(msg & -> & ->)|(i & step & steps & -> & Hi & ->)]].
  - rewrite app_nil_r. by eapply exact_same.
  - apply exact_push; [done|by apply Hl].
  - rewrite app_nil_r. by eapply exact_continue.
Qed.

Lemma exact_done log s topic : exact log s -> concat (pushes s) = [] ->
  u32 (dropped_of topic (message_cache_ s)) = u32 (Z.of_nat (rejected topic log)).
Proof.
  intros [_ _ H] Hn. rewrite <- H. destruct (pushes s) as [|[|x l] ls]; [done|done|]. simpl in Hn. discriminate Hn.
Qed.

(** C24: At every moment, whatever the threads have done: what was written,
    what is in the consumer's buffer and what is in the producer's are, in
    this order, the messages that were pushed when the buffer was not full.
    The count of the others for a topic is never too high; if no push begins
    before the one before it has returned, as under the mutex of the writer, it
    is right, by 32 bits, after each of them.  (Otherwise some may not be
    counted: [lost_count].) *)
Theorem messages_conserved size log s :
  later (new_consumer (new_cache size)) log s ->
  concat (written s) ++ to_consume s ++ produced s = accepted log /\
  (forall topic, 0 <= dropped_of topic (message_cache_ s) <= Z.of_nat (rejected topic log)) /\
  (one_by_one (new_consumer (new_cache size)) log s -> concat (pushes s) = [] ->
   forall topic, u32 (dropped_of topic (message_cache_ s)) = u32 (Z.of_nat (rejected topic log))).
Proof.
  intros Hl. split_and!; [by apply (recorded_conserves _ _ _ Hl)| |].
  - intros topic. destruct (recorded_bounded _ _ _ Hl topic) as (v & [H1 _] & H2). lia.
  - intros Ho%one_by_one_exact Hn topic. by apply exact_done.
Qed.

(** What the thread has to write, once it has been told to. *)
Definition last_round (acc : list BagMessage) (s : Consumer) : Prop :=
  point s = Joined \/
  (flushing s = true ->
   match point s with
   | Consuming => acc `prefix_of` concat (written s) ++ to_consume s
   | Checking | Ended => acc `prefix_of` concat (written s)
   | _ => True
   end) /\ (flushing s = false -> point s <> Ended).

Lemma other_thread l (s s' : Consumer) : other_step l s s' -> stage s' = Issued ->
  point s' = point s /\ flushing s' = flushing s /\ written s' = written s /\ to_consume s' = to_consume s.
Proof.
  intros Hs. destruct Hs as [msg s|i s|s|s Hst|s Hst|s Hst Hp|s Hst]; try done; try (simpl; congruence).
  - intros _. unfold begin_push. simpl. unfold cache_push. by destruct (buffer_push _ _).
  - intros _. unfold continue_push. destruct (pushes s !! i) as [[|step steps]|]; try done. by destruct step.
  - unfold start. case_bool_decide; simpl; congruence.
Qed.

Lemma last_round_waiting log s n s' :
  conserves log s -> last_round (accepted log) s -> waiting s n s' ->
  last_round (accepted log) s' /\ exists l, conserves (log ++ l) s'.
Proof.
  intros Hc Hl. induction 1 as [|n l s1 s2 _ [IH [l1 IHc]] Ho Hi|n s1 s2 _ [IH [l1 IHc]] Ht].
  - split; [done|]. exists []. by rewrite app_nil_r.
  - split.
    + destruct (other_thread l s1 s2 Ho Hi) as (E1 & E2 & E3 & E4). unfold last_round. by rewrite E1, E2, E3, E4.
    + exists (l1 ++ l). rewrite app_assoc. by eapply conserves_other.
  - split; [|exists l1; by eapply conserves_thread]. destruct IHc as [H1 H2]. rewrite accepted_app in H1.
    unfold last_round in IH |- *. unfold exec_consuming_step in Ht. destruct (point s1) eqn:Hp; try done.
    + injection Ht as <-. right. simpl. destruct (cache_wait (message_cache_ s1)); by split.
    + simpl in Ht. destruct (cache_wake (message_cache_ s1)) as [c|]; [|done]. injection Ht as <-. right. by split.
    + injection Ht as <-. right. split; [|done]. intros _. simpl. exists (accepted l1). rewrite <- H1.
      unfold to_consume, produced in *. simpl. rewrite H2 by done. by rewrite !app_nil_l.
    + injection Ht as <-. right. destruct IH as [?|[IH _]]; [done|]. split; [|done]. intros Hf. simpl in *. specialize (IH Hf).
      rewrite concat_app. simpl. by rewrite app_nil_r.
    + injection Ht as <-. right. destruct IH as [?|[IH _]]; [done|]. simpl. destruct (flushing s1); simpl; [|done]. split; [by intros _; apply IH|done].
Qed.

(** When the thread has ended after [stop], every message that was in the
    cache when [stop] was issued has been written, in order. *)
Theorem stop_writes_everything size log s n s' :
  later (new_consumer (new_cache size)) log s -> stage s = Flushing -> waiting (stop_issues s) n s' -> point s' = Ended ->
  accepted log `prefix_of` concat (written s').
Proof.
  intros Hr Hs Hw Hp. pose proof (recorded_conserves _ _ _ Hr) as Hc. destruct (recorded_stage _ _ _ Hr) as [_ _ H3].
  destruct (last_round_waiting log (stop_issues s) n s') as [Hl _]; [| |done|].
  - destruct Hc as [C1 C2]. by split.
  - destruct (decide (point s = Joined)) as [Hj|Hj]; [by left|right]. simpl. destruct (H3 Hj) as (_ & Hf & He); [congruence|].
    split; [congruence|done].
  - destruct Hl as [Hj|[Hl He]]; [congruence|]. rewrite Hp in Hl. apply Hl. destruct (flushing s'); [done|by destruct He].
Qed.

(** ** Witnesses *)

Fixpoint thread_steps {C} `{MessageCacheInterface C} (n : nat) (s : CacheConsumer C) : option (CacheConsumer C) :=
  match n with O => Some s | S n => s ← thread_steps n s; exec_consuming_step s end.

Lemma thread_steps_waiting {C} `{MessageCacheInterface C} n (s s' : CacheConsumer C) : thread_steps n s = Some s' -> waiting s n s'.
Proof.
  revert s'. induction n as [|n IH]; simpl; intros s' E; [injection E as <-; constructor|].
  destruct (thread_steps n s) as [s1|]; [|done]. by apply (waiting_thread _ n s1), E; apply IH.
Qed.

Definition message_a : BagMessage := mkMessage "a" 40 1.
Definition message_b : BagMessage := mkMessage "b" 40 2.

(** The buffer is full after two messages. *)
Definition one_pushed : Consumer := continue_push 0 (begin_push message_a (new_consumer (new_cache 50))).2.
Definition two_pushed : Consumer := continue_push 0 (begin_push message_a one_pushed).2.

(** A third one is counted. *)
Definition three_pushed : Consumer := continue_push 0 (continue_push 0 (continue_push 0 (begin_push message_b two_pushed).2)).
Definition three_log : list (BagMessage * bool) := [(message_a, true); (message_a, true); (message_b, false)].

Lemma one_continued log i (s s' : Consumer) : one_by_one s log s' -> one_by_one s log (continue_push i s').
Proof. intros Ho. rewrite <- (app_nil_r log). eapply one_other; [exact Ho|constructor|done]. Qed.

Lemma one_begun msg log (s s' : Consumer) : one_by_one s log s' -> concat (pushes s') = [] ->
  one_by_one s (log ++ [(msg, (begin_push msg s').1)]) (begin_push msg s').2.
Proof. intros Ho Hn. eapply one_other; [exact Ho|constructor|done]. Qed.

Lemma three_recorded : one_by_one (new_consumer (new_cache 50)) three_log three_pushed.
Proof.
  do 3 apply one_continued. refine (one_begun message_b [(message_a, true); (message_a, true)] _ two_pushed _ eq_refl).
  apply one_continued. refine (one_begun message_a [(message_a, true)] _ one_pushed _ eq_refl).
  apply one_continued. refine (one_begun message_a [] _ (new_consumer (new_cache 50)) _ eq_refl). constructor.
Qed.

Lemma messages_conserved_witness :
  concat (written three_pushed) ++ to_consume three_pushed ++ produced three_pushed = [message_a; message_a] /\
  u32 (dropped_of "b" (message_cache_ three_pushed)) = 1.
Proof.
  destruct (messages_conserved 50 three_log three_pushed (one_by_one_later _ _ _ three_recorded)) as (H1 & _ & H2). split; [exact H1|].
  rewrite (H2 three_recorded); by vm_compute.
Defined.

(** Two threads read the count of the same topic before one of them stores
    it: two messages are dropped, one is counted. *)
Example lost_count :
  let s := (begin_push message_b (begin_push message_b two_pushed).2).2 in
  let s' := fold_left (fun s i => continue_push i s) [0; 1; 0; 1; 0; 1]%nat s in
  rejected "b" (three_log ++ [(message_b, false)]) = 2%nat /\ (begin_push message_b (begin_push message_b two_pushed).2).1 = false /\
  concat (pushes s') = [] /\ dropped_of "b" (message_cache_ s') = 1.
Proof. by vm_compute. Qed.

Definition stop_begun : Consumer := stop_begins three_pushed.

Lemma stop_recorded : later (new_consumer (new_cache 50)) three_log stop_begun.
Proof.
  exact (later_other _ three_log [] three_pushed stop_begun (one_by_one_later _ _ _ three_recorded) (step_stop three_pushed eq_refl)).
Qed.

Definition stop_done : Consumer := default stop_begun (thread_steps 8 (stop_issues stop_begun)).

Lemma stop_waits : waiting (stop_issues stop_begun) 8 stop_done.
Proof. apply thread_steps_waiting. by vm_compute. Qed.

Lemma stop_writes_everything_witness : [message_a; message_a] `prefix_of` concat (written stop_done).
Proof.
  exact (stop_writes_everything 50 three_log stop_begun 8 stop_done stop_recorded eq_refl stop_waits eq_refl).
Defined.

Lemma consumer_ends_witness : (8 <= 10)%nat /\ point stop_done = Ended.
Proof.
  destruct (consumer_ends (new_cache 50) three_log stop_begun 8 stop_done stop_recorded eq_refl stop_waits) as [H _].
  split; [exact H|reflexivity].
Defined.

(** A message that is pushed while the cache is flushing is accepted all the
    same, and stays behind when the thread has ended. *)
Example pushed_too_late :
  let s := (begin_push message_b stop_done).2 in point s = Ended /\ produced s = [message_b].
Proof. by vm_compute. Qed.
