(* ===== verification/PlayerClock.v ===== *)
(** * The clock of the rosbag2 player

    [rosbag2/rosbag2_cpp/src/rosbag2_cpp/clocks/time_controller_clock.cpp]: a
    clock that can be paused and run at another rate.  Readings of the steady
    clock, [now_fn], are arguments, in nanoseconds; a method that reads it
    twice has two.  The rate is a [double] in the code: what is computed with
    it is the class [RateArithmetic], with an instance for doubles, as in the
    code, and one for rationals, for exact arithmetic.  The sums of 64-bit
    integers wrap around here, where the code leaves them undefined; the
    theorems say when they do not.

    The theorems are about the clock in exact arithmetic: without a jump the
    time never goes back ([time_never_goes_back]), and [sleep_until] wakes at
    most one nanosecond early ([ros_to_steady_close]). *)

From Stdlib Require Import ZArith QArith Lia Floats.
From stdpp Require Import base numbers list.
From S2P Require Import Prelude RclTime.
#[local] Open Scope Z_scope.

(** [rate_le_0], [rate_eqb]: comparisons.  [scale]: the product with a
    duration, as an integer; [unscale]: the quotient. *)
Class RateArithmetic (R : Type) := {
  rate_one : R;
  rate_le_0 : R -> bool;
  rate_eqb : R -> R -> bool;
  scale : R -> Z -> Z;
  unscale : Z -> R -> Z;
}.

Definition to_int64 (x : float) : Z := i64 (trunc (Prim2SF x)).

#[export] Instance double_rate : RateArithmetic float := {|
  rate_one := 1%float;
  rate_le_0 r := (r <=? 0)%float;
  rate_eqb r r' := (r =? r')%float;
  scale r d := to_int64 (r * double_of_Z d)%float;
  unscale d r := to_int64 (double_of_Z d / r)%float;
|}.

#[export] Instance rational_rate : RateArithmetic Q := {|
  rate_one := 1%Q;
  rate_le_0 r := Qle_bool r 0;
  rate_eqb := Qeq_bool;
  scale r d := Z.quot (Qnum r * d) (Zpos (Qden r));
  unscale d r := Z.quot (d * Zpos (Qden r)) (Qnum r);
|}.

Lemma scale_0 (r : Q) : scale r 0 = 0.
Proof. simpl. by rewrite Z.mul_0_r. Qed.

(** More time on one clock is not less on the other. *)
Lemma scale_mono (r : Q) a b : rate_le_0 r = false -> a <= b -> scale r a <= scale r b.
Proof.
  intros Hr Hab. simpl in *. apply Z.quot_le_mono; [lia|]. apply Z.mul_le_mono_nonneg_l; [|done].
  apply not_true_iff_false in Hr. rewrite Qle_bool_iff in Hr. unfold Qle in Hr. simpl in Hr. lia.
Qed.

(** ** The clock *)

Section Clock.
Context {R : Type} `{RateArithmetic R}.

Record TimeControllerClock := mkClock {
  reference_ros : Z;
  reference_steady : Z;
  rate : R;
  paused : bool;
  sleep_time_while_paused : Z;
}.

Definition new_clock (starting_time : Z) (now : Z) (sleep_time_while_paused : Z) (paused : bool) : TimeControllerClock :=
  mkClock starting_time now rate_one paused sleep_time_while_paused.

Definition steady_to_ros (c : TimeControllerClock) (steady_time : Z) : Z :=
  i64 (reference_ros c + scale (rate c) (i64 (steady_time - reference_steady c))).

Definition ros_to_steady (c : TimeControllerClock) (ros_time : Z) : Z :=
  i64 (reference_steady c + unscale (i64 (ros_time - reference_ros c)) (rate c)).

Definition ros_now (now : Z) (c : TimeControllerClock) : Z := if paused c then reference_ros c else steady_to_ros c now.

(** [snapshot(ros_time)], and [snapshot()], which reads the clock twice. *)
Definition snapshot_at (ros_time now : Z) (c : TimeControllerClock) : TimeControllerClock :=
  mkClock ros_time now (rate c) (paused c) (sleep_time_while_paused c).
Definition snapshot (now now' : Z) (c : TimeControllerClock) : TimeControllerClock := snapshot_at (ros_now now c) now' c.

Definition set_rate (r : R) (now now' : Z) (c : TimeControllerClock) : bool * TimeControllerClock :=
  if rate_le_0 r then (false, c)
  else if rate_eqb (rate c) r then (true, c)
  else let c := snapshot now now' c in
       (true, mkClock (reference_ros c) (reference_steady c) r (paused c) (sleep_time_while_paused c)).

Definition set_paused (b : bool) (c : TimeControllerClock) : TimeControllerClock :=
  mkClock (reference_ros c) (reference_steady c) (rate c) b (sleep_time_while_paused c).

Definition pause (now now' : Z) (c : TimeControllerClock) : TimeControllerClock :=
  if paused c then c else set_paused true (snapshot now now' c).
Definition resume (now now' : Z) (c : TimeControllerClock) : TimeControllerClock :=
  if paused c then set_paused false (snapshot now now' c) else c.
Definition jump (ros_time now : Z) (c : TimeControllerClock) : TimeControllerClock := snapshot_at ros_time now c.

(** How [sleep_until] waits: for so long, until that time, or not at all. *)
Inductive Nap := WaitFor (duration : Z) | WaitUntil (steady : Z) | NoWait.

Definition sleep_begins (until now : Z) (c : TimeControllerClock) : Nap :=
  if paused c then WaitFor (sleep_time_while_paused c)
  else if now <? ros_to_steady c until then WaitUntil (ros_to_steady c until) else NoWait.

(** After the wait: the clock as it is then, and when the time is read. *)
Definition sleep_ends (until now : Z) (c c' : TimeControllerClock) : bool :=
  if paused c then false else until <=? ros_now now c'.
End Clock.
Arguments TimeControllerClock R : clear implicits.

(** ** The time never goes back *)

Section Exact.
Implicit Type c : TimeControllerClock Q.

(** The time can be read without an overflow. *)
Definition in_range (now : Z) (c : TimeControllerClock Q) : Prop :=
  is_int64 (reference_ros c) /\
  (paused c = false -> is_int64 (now - reference_steady c) /\ is_int64 (reference_ros c + scale (rate c) (now - reference_steady c))).

Record clock_valid (now : Z) (c : TimeControllerClock Q) : Prop := {
  clock_rate : rate_le_0 (rate c) = false;
  clock_reference : reference_steady c <= now;
}.

Lemma ros_now_exact now c : in_range now c ->
  ros_now now c = if paused c then reference_ros c else reference_ros c + scale (rate c) (now - reference_steady c).
Proof.
  intros [_ Hi]. unfold ros_now, steady_to_ros. destruct (paused c); [done|]. destruct Hi as [H1 H2]; [done|].
  rewrite (i64_id (now - _)) by done. by apply i64_id.
Qed.

Lemma ros_now_int64 now c : in_range now c -> is_int64 (ros_now now c).
Proof. intros Hi. rewrite ros_now_exact by done. destruct Hi as [H1 H2]. destruct (paused c); [done|]. by apply H2. Qed.

Lemma ros_now_mono now now' c : rate_le_0 (rate c) = false -> now <= now' -> in_range now c -> in_range now' c -> ros_now now c <= ros_now now' c.
Proof.
  intros Hr Hle H1 H2. rewrite !ros_now_exact by done. destruct (paused c); [lia|].
  pose proof (scale_mono (rate c) (now - reference_steady c) (now' - reference_steady c) Hr ltac:(lia)). lia.
Qed.

(** A new reference, whatever else is changed. *)
Lemma ros_now_reference ros now c : is_int64 ros -> reference_ros c = ros -> reference_steady c = now -> ros_now now c = ros /\ in_range now c.
Proof.
  intros Hros E1 E2. assert (Hin : in_range now c).
  { unfold in_range. rewrite E1, E2, Z.sub_diag, scale_0, Z.add_0_r. split; [done|]. intros _. split; [|done].
    unfold is_int64, int64_min, int64_max. lia. }
  split; [|done]. rewrite ros_now_exact by done. rewrite E1, E2, Z.sub_diag, scale_0. destruct (paused c); lia.
Qed.

(** What a method does to the clock, between the steady times [t] and [now]:
    it goes on from what it shows, or from a moment later. *)
Record goes_on (t : Z) (c : TimeControllerClock Q) (now : Z) (c' : TimeControllerClock Q) : Prop := {
  goes_valid : clock_valid now c';
  goes_range : in_range now c';
  goes_later : ros_now t c <= ros_now now c';
}.

Lemma goes_on_same t c now : clock_valid t c -> t <= now -> in_range t c -> in_range now c -> goes_on t c now c.
Proof. intros [Hr Hv] Hle H1 H2. split; [split; [done|lia]|done|by apply ros_now_mono]. Qed.

Lemma goes_on_snapshot t c now now' c' :
  clock_valid t c -> t <= now <= now' -> in_range t c -> in_range now c ->
  reference_ros c' = ros_now now c -> reference_steady c' = now' -> rate_le_0 (rate c') = false -> goes_on t c now' c'.
Proof.
  intros [Hr Hv] Ht H1 H2 E1 E2 Hr'. destruct (ros_now_reference (ros_now now c) now' c' (ros_now_int64 _ _ H2) E1 E2) as [E3 H3].
  split; [split; [done|lia]|done|]. rewrite E3. apply ros_now_mono; [done|lia|done|done].
Qed.

(** [plays c0 t0 shown c t]: from [c0] at the steady time [t0] on, [now] has
    shown these times, the last one in front; then there is [c], at [t]. *)
Inductive plays (c0 : TimeControllerClock Q) (t0 : Z) : list Z -> TimeControllerClock Q -> Z -> Prop :=
| plays_start : plays c0 t0 [] c0 t0
| plays_now shown c t now : plays c0 t0 shown c t -> t <= now -> in_range now c -> plays c0 t0 (ros_now now c :: shown) c now
| plays_rate shown c t r now now' :
    plays c0 t0 shown c t -> t <= now <= now' -> in_range now c -> in_range now' c -> plays c0 t0 shown (set_rate r now now' c).2 now'
| plays_pause shown c t now now' :
    plays c0 t0 shown c t -> t <= now <= now' -> in_range now c -> in_range now' c -> plays c0 t0 shown (pause now now' c) now'
| plays_resume shown c t now now' :
    plays c0 t0 shown c t -> t <= now <= now' -> in_range now c -> in_range now' c -> plays c0 t0 shown (resume now now' c) now'.

Lemma set_rate_goes_on r t c now now' :
  clock_valid t c -> t <= now <= now' -> in_range t c -> in_range now c -> in_range now' c -> goes_on t c now' (set_rate r now now' c).2.
Proof.
  intros Hv Ht H1 H2 H3. unfold set_rate. destruct (rate_le_0 r) eqn:Hr; [apply goes_on_same; try done; lia|].
  destruct (rate_eqb (rate c) r); [apply goes_on_same; try done; lia|]. by apply (goes_on_snapshot t c now).
Qed.

Lemma pause_goes_on t c now now' :
  clock_valid t c -> t <= now <= now' -> in_range t c -> in_range now c -> in_range now' c -> goes_on t c now' (pause now now' c).
Proof.
  intros Hv Ht H1 H2 H3. unfold pause. destruct (paused c); [apply goes_on_same; try done; lia|]. apply (goes_on_snapshot t c now); try done. apply Hv.
Qed.

Lemma resume_goes_on t c now now' :
  clock_valid t c -> t <= now <= now' -> in_range t c -> in_range now c -> in_range now' c -> goes_on t c now' (resume now now' c).
Proof.
  intros Hv Ht H1 H2 H3. unfold resume. destruct (paused c); [|apply goes_on_same; try done; lia]. apply (goes_on_snapshot t c now); try done. apply Hv.
Qed.

Lemma plays_valid c0 t0 shown c t :
  clock_valid t0 c0 -> in_range t0 c0 -> plays c0 t0 shown c t ->
  clock_valid t c /\ in_range t c /\ descending id shown /\ forall x, x ∈ shown -> x <= ros_now t c.
Proof.
  intros Hv0 Hr0. assert (Hstep : forall (shown : list Z) c t c' now, goes_on t c now c' -> (forall x, x ∈ shown -> x <= ros_now t c) ->
    forall x, x ∈ shown -> x <= ros_now now c').
  { intros l d u d' now [_ _ Hg] Hl x Hx. specialize (Hl x Hx). lia. }
  induction 1 as [|shown c t now _ (V & I & D & L) Hle Hin|shown c t r now now' _ (V & I & D & L) Ht Hi Hi'|shown c t now now' _ (V & I & D & L) Ht Hi Hi'
    |shown c t now now' _ (V & I & D & L) Ht Hi Hi'].
  - split_and!; try done; [constructor|by intros x ?%elem_of_nil].
  - pose proof (goes_on_same t c now V Hle I Hin) as Hg. pose proof (Hstep _ _ _ _ _ Hg L) as Hl.
    split; [apply Hg|]. split; [done|]. split; [by apply descending_cons|]. intros x [->|Hx]%elem_of_cons; [done|by apply Hl].
  - pose proof (set_rate_goes_on r t c now now' V Ht I Hi Hi') as Hg. split_and!; [apply Hg|apply Hg|done|by apply (Hstep shown c t)].
  - pose proof (pause_goes_on t c now now' V Ht I Hi Hi') as Hg. split_and!; [apply Hg|apply Hg|done|by apply (Hstep shown c t)].
  - pose proof (resume_goes_on t c now now' V Ht I Hi Hi') as Hg. split_and!; [apply Hg|apply Hg|done|by apply (Hstep shown c t)].
Qed.

(** C26: In exact arithmetic, with rationals for the doubles of the code: however
    the clock is paused, resumed and run at other rates, without a jump and
    without an overflow, the times that it shows never go back. *)
Theorem time_never_goes_back c0 t0 shown c t :
  clock_valid t0 c0 -> in_range t0 c0 -> plays c0 t0 shown c t -> descending id shown.
Proof. intros Hv Hi Hp. by apply (plays_valid c0 t0 shown c t). Qed.
End Exact.

(** ** Sleeping *)

(** The player sleeps until the steady time of a message.  In exact
    arithmetic it is then shown a time that is not later, and a nanosecond
    after it one that is not earlier. *)
Theorem ros_to_steady_close (c : TimeControllerClock Q) u :
  rate_le_0 (rate c) = false -> paused c = false -> reference_ros c <= u ->
  is_int64 (u - reference_ros c) -> is_int64 (reference_steady c + unscale (u - reference_ros c) (rate c)) ->
  in_range (ros_to_steady c u) c -> in_range (ros_to_steady c u + 1) c ->
  ros_now (ros_to_steady c u) c <= u <= ros_now (ros_to_steady c u + 1) c.
Proof.
  intros Hr Hp Hu I1 I2 R1 R2. rewrite !ros_now_exact by done. rewrite Hp.
  assert (E : ros_to_steady c u = reference_steady c + unscale (u - reference_ros c) (rate c)).
  { unfold ros_to_steady. rewrite (i64_id (u - _)) by done. by apply i64_id. }
  rewrite E. clear E R1 R2 I1 I2. set (d := u - reference_ros c). assert (Hd : 0 <= d) by lia.
  replace (reference_steady c + unscale d (rate c) - reference_steady c) with (unscale d (rate c)) by lia.
  replace (reference_steady c + unscale d (rate c) + 1 - reference_steady c) with (unscale d (rate c) + 1) by lia.
  simpl in *. apply not_true_iff_false in Hr. rewrite Qle_bool_iff in Hr. unfold Qle in Hr. simpl in Hr.
  destruct (rate c) as [p q]. simpl in *. assert (Hpos : 0 < p) by lia. clear Hr.
  assert (Ek : Z.quot (d * Zpos q) p = d * Zpos q / p) by (apply Z.quot_div_nonneg; lia). rewrite Ek. set (k := d * Zpos q / p).
  assert (H1 : p * k <= d * Zpos q) by (apply Z.mul_div_le; lia).
  assert (H2 : d * Zpos q < p * (k + 1)) by (unfold k; pose proof (Z.mul_succ_div_gt (d * Zpos q) p Hpos); lia).
  assert (Hk : 0 <= k) by (apply Z.div_pos; lia).
  assert (E1 : Z.quot (p * k) (Zpos q) = p * k / Zpos q) by (apply Z.quot_div_nonneg; lia).
  assert (E2 : Z.quot (p * (k + 1)) (Zpos q) = p * (k + 1) / Zpos q) by (apply Z.quot_div_nonneg; lia). rewrite E1, E2.
  assert (H3 : p * k / Zpos q <= d) by (apply Z.div_le_upper_bound; lia).
  assert (H4 : d <= p * (k + 1) / Zpos q) by (apply Z.div_le_lower_bound; lia). lia.
Qed.

(** ** Witnesses *)

Definition clock_start : TimeControllerClock Q := new_clock 1000 0 100 false.
Definition clock_faster : TimeControllerClock Q := (set_rate (3 # 2) 20 21 clock_start).2.
Definition clock_paused : TimeControllerClock Q := pause 40 40 clock_faster.

Ltac in_int64 := unfold in_range, is_int64; vm_compute; intuition congruence.

Lemma time_never_goes_back_witness : descending id [1048; 1033; 1010].
Proof.
  assert (E : [1048; 1033; 1010] = [ros_now 100 clock_paused; ros_now 30 clock_faster; ros_now 10 clock_start]) by (vm_compute; reflexivity).
  rewrite E. apply (time_never_goes_back clock_start 0 _ clock_paused 100); [split; [reflexivity|simpl; lia]|in_int64|].
  apply (plays_now _ _ _ clock_paused 40 100); [|lia|in_int64]. apply (plays_pause _ _ _ clock_faster 30 40 40); [|lia|in_int64|in_int64].
  apply (plays_now _ _ _ clock_faster 21 30); [|lia|in_int64].
  apply (plays_rate _ _ _ clock_start 10 (3 # 2) 20 21); [|lia|in_int64|in_int64].
  apply (plays_now _ _ [] clock_start 0 10); [constructor|lia|in_int64].
Defined.

Lemma ros_to_steady_close_witness :
  ros_now (ros_to_steady clock_faster 1030) clock_faster <= 1030 <= ros_now (ros_to_steady clock_faster 1030 + 1) clock_faster.
Proof. apply ros_to_steady_close; try in_int64; first [reflexivity|vm_compute; congruence]. Defined.

(** The same run with doubles. *)
Example doubles_agree :
  let c := (set_rate 1.5%float 20 21 (new_clock (R := float) 1000 0 100 false)).2 in
  [ros_now 30 c; ros_now 100 (pause 40 40 c)] = [1033; 1048].
Proof. vm_compute. reflexivity. Qed.

(** A rate that is not a number is not refused. *)
Example nan_accepted : (set_rate nan 20 21 (new_clock 1000 0 100 false)).1 = true.
Proof. reflexivity. Qed.

(** The longest duration, as a double, is one nanosecond too long: at the rate
    of one it overflows. *)
Example doubles_overflow : scale 1%float int64_max = int64_min /\ scale 1%Q int64_max = int64_max.
Proof. split; vm_compute; reflexivity. Qed.
