(* ===== verification/BagStorage.v ===== *)
(** * The storage of rosbag2, as its writers and readers see it

    [rosbag2/rosbag2_storage]: the records of a bag's metadata and options
    ([bag_metadata.hpp], [topic_metadata.hpp], [storage_options.hpp], ...), and
    the interfaces of the storage plug-ins ([storage_interfaces/]) as classes:
    a plug-in is a type of states with these methods.  From [rosbag2_cpp]: the
    callbacks for a change of file ([bag_events.hpp]), the names of service
    event topics ([service_utils.cpp]) and the converter ([converter.cpp]).

    The few operations of [std::filesystem::path] that are used are defined on
    strings, as on a POSIX system.  Plug-ins that throw are not modelled.

    The theorems: what laws a plug-in must satisfy for reading, that a file in
    memory satisfies them, and that the names of services and of their event
    topics are translated back and forth. *)

From Stdlib Require Import ZArith Lia Ascii String.
From stdpp Require Import base numbers list gmap strings pretty.
From S2P Require Import Prelude Qos BagCache.
#[local] Open Scope Z_scope.

(** ** Paths *)

Definition is_slash (c : ascii) : bool := Ascii.eqb c "/".

Definition is_absolute (path : string) : bool :=
  match path with String c _ => is_slash c | EmptyString => false end.

(** [fs::path::operator/]. *)
Definition path_join (base path : string) : string :=
  if is_absolute path then path else
  match last (list_ascii_of_string base) with
  | None => path
  | Some c => if is_slash c then String.append base path else String.append base (String "/" path)
  end.

(** From the end: the last component, and what is before it. *)
Definition split_last (path : string) : list ascii * list ascii := span (fun c => negb (is_slash c)) (rev (list_ascii_of_string path)).

Definition path_filename (path : string) : string := string_of_list_ascii (rev (split_last path).1).

Definition parent_path (path : string) : string :=
  let before := (split_last path).2 in
  match (span is_slash before).2 with
  | [] => string_of_list_ascii (rev before)
  | parent => string_of_list_ascii (rev parent)
  end.

Definition path_stem (path : string) : string :=
  let name := path_filename path in
  if bool_decide (name = "." \/ name = "..")%string then name else
  match (span (fun c => negb (Ascii.eqb c ".")) (rev (list_ascii_of_string name))).2 with
  | [] | [_] => name
  | _ :: stem => string_of_list_ascii (rev stem)
  end.

Fixpoint squeeze (l : list ascii) : list ascii :=
  match l with
  | c :: ((d :: _) as l) => if is_slash c && is_slash d then squeeze l else c :: squeeze l
  | _ => l
  end.

(** [generic_string]: no separator is repeated. *)
Definition generic_string (path : string) : string := string_of_list_ascii (squeeze (list_ascii_of_string path)).

Definition strip_parent_path (relative_path : string) : string := generic_string (path_filename relative_path).

Definition format_storage_uri (base_folder : string) (storage_count : Z) : string :=
  generic_string (path_join base_folder
    (String.append (generic_string (path_filename base_folder)) (String "_" (pretty (Z.to_N storage_count))))).

(** ** Metadata and options *)

Record TopicMetadata := mkTopic {
  tm_id : Z;
  tm_name : string;
  tm_type : string;
  tm_serialization_format : string;
  tm_offered_qos_profiles : list QosProfile;
  tm_type_description_hash : string;
}.

Record TopicInformation := mkTopicInformation {
  topic_metadata : TopicMetadata;
  topic_message_count : Z;
}.

Record FileInformation := mkFile {
  file_path : string;
  file_starting_time : Z;
  file_duration : Z;
  file_message_count : Z;
}.

Record BagMetadata := mkMetadata {
  version : Z;
  bag_size : Z;
  storage_identifier : string;
  relative_file_paths : list string;
  files : list FileInformation;
  duration : Z;
  starting_time : Z;
  message_count : Z;
  topics_with_message_count : list TopicInformation;
  compression_format : string;
  compression_mode : string;
  custom_data : gmap string string;
  ros_distro : string;
}.

(** [BagMetadata{}]. *)
Definition empty_metadata : BagMetadata := mkMetadata 9 0 "" [] [] 0 0 0 [] "" "" ∅ "".

Record MessageDefinition := mkDefinition {
  definition_topic_type : string;
  definition_encoding : string;
  encoded_message_definition : string;
  definition_type_hash : string;
}.

Definition empty_message_definition_for (topic_type : string) : MessageDefinition := mkDefinition topic_type "" "" "".

Record StorageOptions := mkOptions {
  uri : string;
  storage_id : string;
  max_bagfile_size : Z;
  max_bagfile_duration : Z;
  max_cache_size : Z;
  storage_preset_profile : string;
  storage_config_uri : string;
  snapshot_mode : bool;
  start_time_ns : Z;
  end_time_ns : Z;
  options_custom_data : gmap string string;
}.

Definition default_options (u : string) : StorageOptions := mkOptions u "" 0 0 0 "" "" false (-1) (-1) ∅.

Definition set_uri (u : string) (o : StorageOptions) : StorageOptions :=
  mkOptions u (storage_id o) (max_bagfile_size o) (max_bagfile_duration o) (max_cache_size o) (storage_preset_profile o)
    (storage_config_uri o) (snapshot_mode o) (start_time_ns o) (end_time_ns o) (options_custom_data o).
Definition set_storage_id (i : string) (o : StorageOptions) : StorageOptions :=
  mkOptions (uri o) i (max_bagfile_size o) (max_bagfile_duration o) (max_cache_size o) (storage_preset_profile o)
    (storage_config_uri o) (snapshot_mode o) (start_time_ns o) (end_time_ns o) (options_custom_data o).

Definition set_max_cache_size (size : Z) (o : StorageOptions) : StorageOptions :=
  mkOptions (uri o) (storage_id o) (max_bagfile_size o) (max_bagfile_duration o) size (storage_preset_profile o)
    (storage_config_uri o) (snapshot_mode o) (start_time_ns o) (end_time_ns o) (options_custom_data o).

Record StorageFilter := mkFilter {
  filter_topics : list string;
  services_events : list string;
  filter_regex : string;
  exclude_topics : list string;
  exclude_service_events : list string;
  regex_to_exclude : string;
}.

(** [StorageFilter()]. *)
Definition no_filter : StorageFilter := mkFilter [] [] "" [] [] "".

Inductive SortBy := ReceivedTimestamp | PublishedTimestamp | SortByFile.

Record ReadOrder := mkReadOrder {
  sort_by : SortBy;
  in_reverse : bool;
}.

Definition default_order : ReadOrder := mkReadOrder ReceivedTimestamp false.

Record ConverterOptions := mkConverterOptions {
  input_serialization_format : string;
  output_serialization_format : string;
}.

(** ** The interfaces of a plug-in *)

Class BaseInfoInterface (S : Type) := {
  get_storage_metadata : S -> BagMetadata;
  get_relative_file_path : S -> string;
  get_bagfile_size : S -> Z;
  get_storage_identifier : S -> string;
}.

Class ReadOnlyInterface (S : Type) `{BaseInfoInterface S} := {
  storage_set_read_order : ReadOrder -> S -> bool * S;
  storage_has_next : S -> bool * S;
  storage_read_next : S -> BagMessage * S;
  storage_topics_and_types : S -> list TopicMetadata;
  storage_message_definitions : S -> list MessageDefinition;
  storage_set_filter : StorageFilter -> S -> S;
  storage_seek : Z -> S -> S;
}.

Class ReadWriteInterface (S : Type) `{BaseInfoInterface S} := {
  get_minimum_split_file_size : S -> Z;
  storage_write : list BagMessage -> S -> S;
  storage_update_metadata : BagMetadata -> S -> S;
  storage_create_topic : TopicMetadata -> MessageDefinition -> S -> S;
  storage_remove_topic : TopicMetadata -> S -> S;
}.

(** What a reader relies on: [to_read] are the messages that are still to
    come. *)
Class ReadLaws (S : Type) `{ReadOnlyInterface S} := {
  to_read : S -> list BagMessage;
  has_next_tells s : (storage_has_next s).1 = bool_decide (to_read s <> []);
  has_next_keeps s : to_read (storage_has_next s).2 = to_read s;
  read_next_takes s m l : to_read s = m :: l -> (storage_read_next s).1 = m /\ to_read (storage_read_next s).2 = l;
}.

(** What a writer relies on: the messages in a storage are what was written to
    it. *)
Class WriteLaws (S : Type) `{ReadWriteInterface S} := {
  stored : S -> list BagMessage;
  stored_write l s : stored (storage_write l s) = stored s ++ l;
  stored_update m s : stored (storage_update_metadata m s) = stored s;
  stored_create t d s : stored (storage_create_topic t d s) = stored s;
  stored_remove t s : stored (storage_remove_topic t s) = stored s;
}.

(** ** Converters *)

(** [Converter], with the topics it was told; the formats that the installed
    plug-ins can read and write, and the length that a message has after it. *)
Record Formats := mkFormats {
  load_deserializer : string -> bool;
  load_serializer : string -> bool;
  converted_length : string -> string -> BagMessage -> Z;
}.

Record Converter := mkConverter {
  input_converter_ : string;
  output_converter_ : string;
  topics_and_types_ : gmap string string;
}.

(** [None]: it throws. *)
Definition new_converter (f : Formats) (o : ConverterOptions) : option Converter :=
  if load_deserializer f (input_serialization_format o) then
    if load_serializer f (output_serialization_format o) then
      Some (mkConverter (input_serialization_format o) (output_serialization_format o) ∅)
    else None
  else None.

Definition converter_add_topic (topic type : string) (c : Converter) : Converter :=
  mkConverter (input_converter_ c) (output_converter_ c)
    (match topics_and_types_ c !! topic with Some _ => topics_and_types_ c | None => <[topic := type]> (topics_and_types_ c) end).

(** [None]: the topic is not known. *)
Definition convert (f : Formats) (c : Converter) (m : BagMessage) : option BagMessage :=
  match topics_and_types_ c !! topic_name m with
  | Some _ => Some (mkMessage (topic_name m) (converted_length f (input_converter_ c) (output_converter_ c) m) (recv_timestamp m))
  | None => None
  end.

(** ** Bag events *)

Inductive BagEvent := WRITE_SPLIT | READ_SPLIT.

#[export] Instance BagEvent_eq_dec : EqDecision BagEvent.
Proof. solve_decision. Defined.

Record BagSplitInfo := mkSplit {
  closed_file : string;
  opened_file : string;
}.

(** A callback has a number, and may change what it is given. *)
Record BagEventCallback := mkCallback {
  callback_ : nat;
  callback_effect : BagSplitInfo -> BagSplitInfo;
  event_ : BagEvent;
}.

Definition is_type (cb : BagEventCallback) (event : BagEvent) : bool := bool_decide (event = event_ cb).

Definition add_event_callback (cb : BagEventCallback) (callbacks : list BagEventCallback) : list BagEventCallback := callbacks ++ [cb].

Definition has_callback_for_event (callbacks : list BagEventCallback) (event : BagEvent) : bool :=
  existsb (fun cb => is_type cb event) callbacks.

(** The calls, with what each was given. *)
Fixpoint execute_callbacks (event : BagEvent) (info : BagSplitInfo) (callbacks : list BagEventCallback) : list (nat * BagSplitInfo) :=
  match callbacks with
  | [] => []
  | cb :: callbacks =>
    if is_type cb event then (callback_ cb, info) :: execute_callbacks event (callback_effect cb info) callbacks
    else execute_callbacks event info callbacks
  end.

(** All callbacks see the same object: what one writes, the next one reads. *)
Theorem callbacks_share_info event info cb cbs :
  event_ cb = event ->
  execute_callbacks event info (cb :: cbs) = (callback_ cb, info) :: execute_callbacks event (callback_effect cb info) cbs.
Proof. intros <-. simpl. unfold is_type. by rewrite bool_decide_eq_true_2. Qed.

(** ** Service event topics *)

Definition RCL_SERVICE_INTROSPECTION_TOPIC_POSTFIX : string := "/_service_event".
Definition kServiceEventTopicTypePostfix : string := "_Event".
Definition kServiceEventTopicTypeMiddle : string := "/srv/".

(** [topic.substr(topic.length() - postfix.length()) == postfix], of a string that is
    longer; and what is before. *)
Definition ends_with (postfix s : string) : bool :=
  let n := (String.length s - String.length postfix)%nat in
  (String.length postfix <? String.length s)%nat && String.eqb (String.substring n (String.length postfix) s) postfix.
Definition without_end (postfix s : string) : string := String.substring 0 (String.length s - String.length postfix) s.

(** [type.find("/srv/") != npos]. *)
Definition has_middle (type : string) : bool :=
  match String.index 0 kServiceEventTopicTypeMiddle type with Some _ => true | None => false end.

Definition is_service_event_topic (topic_name topic_type : string) : bool :=
  ends_with RCL_SERVICE_INTROSPECTION_TOPIC_POSTFIX topic_name &&
  (has_middle topic_type && ends_with kServiceEventTopicTypePostfix topic_type).

Definition service_event_topic_name_to_service_name (topic_name : string) : string :=
  if ends_with RCL_SERVICE_INTROSPECTION_TOPIC_POSTFIX topic_name then without_end RCL_SERVICE_INTROSPECTION_TOPIC_POSTFIX topic_name else "".

Definition service_event_topic_type_to_service_type (topic_type : string) : string :=
  if has_middle topic_type && ends_with kServiceEventTopicTypePostfix topic_type then without_end kServiceEventTopicTypePostfix topic_type else "".

Definition service_name_to_service_event_topic_name (service_name : string) : string :=
  match service_name with
  | EmptyString => service_name
  | _ => if ends_with RCL_SERVICE_INTROSPECTION_TOPIC_POSTFIX service_name then service_name
         else String.append service_name RCL_SERVICE_INTROSPECTION_TOPIC_POSTFIX
  end.

Lemma substring_app_l s t : String.substring 0 (String.length s) (String.append s t) = s.
Proof. induction s as [|c s IH]; simpl; [by destruct t|by rewrite IH]. Qed.

Lemma substring_app_r s t : String.substring (String.length s) (String.length t) (String.append s t) = t.
Proof. induction s as [|c s IH]; simpl; [apply substring_all|done]. Qed.

Lemma ends_with_append s t : s <> ""%string -> ends_with t (String.append s t) = true.
Proof.
  intros Hs. unfold ends_with. rewrite length_append. replace (String.length s + String.length t - String.length t)%nat with (String.length s) by lia.
  rewrite substring_app_r, String.eqb_refl, andb_true_r. apply Nat.ltb_lt. destruct s; [done|simpl; lia].
Qed.

Lemma without_end_append s t : without_end t (String.append s t) = s.
Proof.
  unfold without_end. rewrite length_append. replace (String.length s + String.length t - String.length t)%nat with (String.length s) by lia.
  apply substring_app_l.
Qed.

(** The name of a service is that of its event topic, without the end; of
    names that have this end the code adds none. *)
Theorem service_name_roundtrip service_name :
  service_name <> ""%string ->
  service_event_topic_name_to_service_name (service_name_to_service_event_topic_name service_name) =
  (if ends_with RCL_SERVICE_INTROSPECTION_TOPIC_POSTFIX service_name
   then without_end RCL_SERVICE_INTROSPECTION_TOPIC_POSTFIX service_name else service_name).
Proof.
  intros Hs. unfold service_name_to_service_event_topic_name, service_event_topic_name_to_service_name.
  destruct service_name as [|c s]; [done|]. destruct (ends_with _ (String c s)) eqn:He; [by rewrite He|].
  by rewrite ends_with_append, without_end_append.
Qed.

(** ** A bag in memory

    The messages in their order, with what a reader has set. *)

Record MemoryBag := mkMemory {
  memory_uri : string;
  memory_messages : list BagMessage;
  memory_topics : list (TopicMetadata * MessageDefinition);
  memory_metadata : BagMetadata;
  memory_order : ReadOrder;
  memory_filter : StorageFilter;
  memory_from : Z;
  memory_given : nat;
}.

Definition new_memory (u : string) (messages : list BagMessage) : MemoryBag :=
  mkMemory u messages [] empty_metadata default_order no_filter 0 0.

Definition wanted (o : ReadOrder) (f : StorageFilter) (from : Z) (m : BagMessage) : bool :=
  bool_decide (filter_topics f = [] \/ topic_name m ∈ filter_topics f) &&
  (if in_reverse o then recv_timestamp m <=? from else from <=? recv_timestamp m).

Definition selected (o : ReadOrder) (f : StorageFilter) (from : Z) (l : list BagMessage) : list BagMessage :=
  let l := filter (fun m => wanted o f from m = true) l in
  if in_reverse o then reverse l else l.

Definition memory_rest (b : MemoryBag) : list BagMessage :=
  drop (memory_given b) (selected (memory_order b) (memory_filter b) (memory_from b) (memory_messages b)).

Definition set_given (n : nat) (b : MemoryBag) : MemoryBag :=
  mkMemory (memory_uri b) (memory_messages b) (memory_topics b) (memory_metadata b) (memory_order b) (memory_filter b) (memory_from b) n.
Definition set_selection (o : ReadOrder) (f : StorageFilter) (from : Z) (b : MemoryBag) : MemoryBag :=
  mkMemory (memory_uri b) (memory_messages b) (memory_topics b) (memory_metadata b) o f from 0.
Definition set_memory (messages : list BagMessage) (topics : list (TopicMetadata * MessageDefinition)) (m : BagMetadata) (b : MemoryBag) : MemoryBag :=
  mkMemory (memory_uri b) messages topics m (memory_order b) (memory_filter b) (memory_from b) (memory_given b).

(** The first and the last time, which a plug-in finds in the file. *)
Definition time_range (l : list BagMessage) : Z * Z :=
  match l with
  | [] => (0, 0)
  | m :: l => (foldr (fun m t => Z.min (recv_timestamp m) t) (recv_timestamp m) l, foldr (fun m t => Z.max (recv_timestamp m) t) (recv_timestamp m) l)
  end.

Definition metadata_in_file (u : string) (l : list BagMessage) (m : BagMetadata) : BagMetadata :=
  let '(first, last) := time_range l in
  mkMetadata (version m) (bytes_of l) "memory" [u] (files m) (last - first) first
    (Z.of_nat (length l)) (topics_with_message_count m) (compression_format m) (compression_mode m) (custom_data m) (ros_distro m).

#[export] Instance MemoryBag_info : BaseInfoInterface MemoryBag := {|
  get_storage_metadata b := metadata_in_file (memory_uri b) (memory_messages b) (memory_metadata b);
  get_relative_file_path := memory_uri;
  get_bagfile_size b := bytes_of (memory_messages b);
  get_storage_identifier _ := "memory"%string;
|}.

#[export] Instance MemoryBag_reads : ReadOnlyInterface MemoryBag := {|
  storage_set_read_order o b := (true, set_selection o (memory_filter b) (memory_from b) b);
  storage_has_next b := (bool_decide (memory_rest b <> []), b);
  storage_read_next b := (default (mkMessage "" 0 0) (head (memory_rest b)), set_given (S (memory_given b)) b);
  storage_topics_and_types b := fst <$> memory_topics b;
  storage_message_definitions b := snd <$> memory_topics b;
  storage_set_filter f b := set_selection (memory_order b) f (memory_from b) b;
  storage_seek t b := set_selection (memory_order b) (memory_filter b) t b;
|}.

#[export] Instance MemoryBag_writes : ReadWriteInterface MemoryBag := {|
  get_minimum_split_file_size _ := 10;
  storage_write l b := set_memory (memory_messages b ++ l) (memory_topics b) (memory_metadata b) b;
  storage_update_metadata m b := set_memory (memory_messages b) (memory_topics b) m b;
  storage_create_topic t d b := set_memory (memory_messages b) (memory_topics b ++ [(t, d)]) (memory_metadata b) b;
  storage_remove_topic t b := set_memory (memory_messages b) (filter (fun x => tm_name x.1 <> tm_name t) (memory_topics b)) (memory_metadata b) b;
|}.

#[export] Instance MemoryBag_laws : ReadLaws MemoryBag.
Proof.
  refine {| to_read := memory_rest |}; [done|done|]. intros b m l. unfold memory_rest. simpl. intros E. split.
  - unfold memory_rest. by rewrite E.
  - rewrite <- Nat.add_1_r, <- drop_drop. by rewrite E.
Defined.

#[export] Instance MemoryBag_write_laws : WriteLaws MemoryBag.
Proof. by refine {| stored := memory_messages |}. Defined.
