(* ===== verification/SequentialReader.v ===== *)
(** * The reader of rosbag2

    [rosbag2/rosbag2_cpp/src/rosbag2_cpp/readers/sequential_reader.cpp]: a bag
    is a list of files; the reader has one of them open and goes to the next
    (or, in reverse, the previous) one when there is nothing left in it, or when
    it is told to seek a time that the file does not cover.

    What a plug-in finds in a file is given by [open_read_only]; a file does not
    change while it is read.  The two recursive methods take fuel and throw
    [Unfinished] without it.

    The theorems: reading to the end gives the messages of all files, each file
    in its order ([reads_every_file]); a seek ends in a file that has the
    time, or at an end of the bag, but never when the time is between two
    files ([seek_spec]). *)

From Stdlib Require Import ZArith Lia Ascii String.
From stdpp Require Import base numbers list gmap strings.
From S2P Require Import Prelude Computation BagCache BagStorage.
#[local] Open Scope Z_scope.

Inductive ReaderError :=
| NotOpen | NoStorage | AtEnd | ReadOrderRefused | BadFolder | BadMetadata | FormatsDiffer | NoConverter | UnknownTopic
| Unfinished   (** the fuel is used up *)
| Fault        (** a use of an iterator that points to nothing *).

(** What is outside: the files, and what [std::filesystem], [MetadataIo] and
    the converters make of them. *)
Record ReaderEnvironment (S : Type) := mkReaderEnvironment {
  open_read_only : StorageOptions -> option S;
  metadata_file_exists : string -> bool;
  read_metadata : string -> option BagMetadata;
  path_exists : string -> bool;
  is_directory : string -> bool;
  formats : Formats;
}.
Arguments open_read_only {S}.
Arguments metadata_file_exists {S}.
Arguments read_metadata {S}.
Arguments path_exists {S}.
Arguments is_directory {S}.
Arguments formats {S}.

Section SequentialReader.
Context {S : Type} `{ReadOnlyInterface S} (env : ReaderEnvironment S).

(** [current_file_iterator_] is the index of the file; [None]: it has not been
    set.  [read_events]: the calls of callbacks. *)
Record SequentialReader := mkReader {
  storage_ : option S;
  converter_ : option Converter;
  metadata_ : BagMetadata;
  seek_time_ : Z;
  topics_filter_ : StorageFilter;
  topics_metadata_ : list TopicMetadata;
  file_paths_ : list string;
  current_file_iterator_ : option nat;
  preprocessed_file_paths_ : gset string;
  base_folder_ : string;
  storage_options_ : StorageOptions;
  callbacks_ : list BagEventCallback;
  read_order_ : ReadOrder;
  read_events : list (nat * BagSplitInfo);
}.

Definition new_reader : SequentialReader :=
  mkReader None None empty_metadata 0 no_filter [] [] None ∅ "" (default_options "") [] default_order [].

Definition set_storage (x : option S) (r : SequentialReader) : SequentialReader :=
  mkReader x (converter_ r) (metadata_ r) (seek_time_ r) (topics_filter_ r) (topics_metadata_ r) (file_paths_ r)
    (current_file_iterator_ r) (preprocessed_file_paths_ r) (base_folder_ r) (storage_options_ r) (callbacks_ r) (read_order_ r) (read_events r).
Definition set_converter (x : option Converter) (r : SequentialReader) : SequentialReader :=
  mkReader (storage_ r) x (metadata_ r) (seek_time_ r) (topics_filter_ r) (topics_metadata_ r) (file_paths_ r)
    (current_file_iterator_ r) (preprocessed_file_paths_ r) (base_folder_ r) (storage_options_ r) (callbacks_ r) (read_order_ r) (read_events r).
Definition set_metadata (x : BagMetadata) (r : SequentialReader) : SequentialReader :=
  mkReader (storage_ r) (converter_ r) x (seek_time_ r) (topics_filter_ r) (topics_metadata_ r) (file_paths_ r)
    (current_file_iterator_ r) (preprocessed_file_paths_ r) (base_folder_ r) (storage_options_ r) (callbacks_ r) (read_order_ r) (read_events r).
Definition set_seek_time (x : Z) (r : SequentialReader) : SequentialReader :=
  mkReader (storage_ r) (converter_ r) (metadata_ r) x (topics_filter_ r) (topics_metadata_ r) (file_paths_ r)
    (current_file_iterator_ r) (preprocessed_file_paths_ r) (base_folder_ r) (storage_options_ r) (callbacks_ r) (read_order_ r) (read_events r).
Definition set_topics_filter (x : StorageFilter) (r : SequentialReader) : SequentialReader :=
  mkReader (storage_ r) (converter_ r) (metadata_ r) (seek_time_ r) x (topics_metadata_ r) (file_paths_ r)
    (current_file_iterator_ r) (preprocessed_file_paths_ r) (base_folder_ r) (storage_options_ r) (callbacks_ r) (read_order_ r) (read_events r).
Definition set_topics_metadata (x : list TopicMetadata) (r : SequentialReader) : SequentialReader :=
  mkReader (storage_ r) (converter_ r) (metadata_ r) (seek_time_ r) (topics_filter_ r) x (file_paths_ r)
    (current_file_iterator_ r) (preprocessed_file_paths_ r) (base_folder_ r) (storage_options_ r) (callbacks_ r) (read_order_ r) (read_events r).
Definition set_paths (x : list string) (i : option nat) (r : SequentialReader) : SequentialReader :=
  mkReader (storage_ r) (converter_ r) (metadata_ r) (seek_time_ r) (topics_filter_ r) (topics_metadata_ r) x
    i (preprocessed_file_paths_ r) (base_folder_ r) (storage_options_ r) (callbacks_ r) (read_order_ r) (read_events r).
Definition set_preprocessed (x : gset string) (r : SequentialReader) : SequentialReader :=
  mkReader (storage_ r) (converter_ r) (metadata_ r) (seek_time_ r) (topics_filter_ r) (topics_metadata_ r) (file_paths_ r)
    (current_file_iterator_ r) x (base_folder_ r) (storage_options_ r) (callbacks_ r) (read_order_ r) (read_events r).
Definition set_options (folder : string) (x : StorageOptions) (r : SequentialReader) : SequentialReader :=
  mkReader (storage_ r) (converter_ r) (metadata_ r) (seek_time_ r) (topics_filter_ r) (topics_metadata_ r) (file_paths_ r)
    (current_file_iterator_ r) (preprocessed_file_paths_ r) folder x (callbacks_ r) (read_order_ r) (read_events r).
Definition set_order (x : ReadOrder) (r : SequentialReader) : SequentialReader :=
  mkReader (storage_ r) (converter_ r) (metadata_ r) (seek_time_ r) (topics_filter_ r) (topics_metadata_ r) (file_paths_ r)
    (current_file_iterator_ r) (preprocessed_file_paths_ r) (base_folder_ r) (storage_options_ r) (callbacks_ r) x (read_events r).
Definition set_callbacks (x : list BagEventCallback) (r : SequentialReader) : SequentialReader :=
  mkReader (storage_ r) (converter_ r) (metadata_ r) (seek_time_ r) (topics_filter_ r) (topics_metadata_ r) (file_paths_ r)
    (current_file_iterator_ r) (preprocessed_file_paths_ r) (base_folder_ r) (storage_options_ r) x (read_order_ r) (read_events r).
Definition add_events (l : list (nat * BagSplitInfo)) (r : SequentialReader) : SequentialReader :=
  mkReader (storage_ r) (converter_ r) (metadata_ r) (seek_time_ r) (topics_filter_ r) (topics_metadata_ r) (file_paths_ r)
    (current_file_iterator_ r) (preprocessed_file_paths_ r) (base_folder_ r) (storage_options_ r) (callbacks_ r) (read_order_ r) (read_events r ++ l).

Notation M := (ST SequentialReader ReaderError).

(** The storage, or the exception of a reader that is not open. *)
Definition the_storage : M S := r ← get; match storage_ r with Some s => mret s | None => throw NotOpen end.

Definition put_storage (s : S) : M unit := modify (set_storage (Some s)).

(** ** The files *)

Definition resolve_relative_paths (base_folder : string) (relative_files : list string) (version : Z) : M (list string) :=
  let base_path := if version <? 4 then parent_path base_folder else base_folder in
  if path_exists env base_path then
    if is_directory env base_path then
      mret ((fun file => if is_absolute file then file else generic_string (path_join base_path file)) <$> relative_files)
    else throw BadFolder
  else throw BadFolder.

Definition current_index : M nat := r ← get; match current_file_iterator_ r with Some i => mret i | None => throw Fault end.

Definition get_current_file : M string :=
  i ← current_index; r ← get; match file_paths_ r !! i with Some path => mret path | None => throw Fault end.

Definition get_current_uri : M string := path ← get_current_file; mret (generic_string (path_stem path)).

Definition has_next_file : M bool := i ← current_index; r ← get; mret (negb (bool_decide (i + 1 = length (file_paths_ r))%nat)).
Definition has_prev_file : M bool := i ← current_index; mret (negb (bool_decide (i = 0%nat))).

Definition set_filter (f : StorageFilter) : M unit :=
  modify (set_topics_filter f);; s ← the_storage; put_storage (storage_set_filter f s).

Definition reset_filter : M unit := set_filter no_filter.

Definition set_read_order (order : ReadOrder) : M bool :=
  s ← the_storage; modify (set_order order);;
  let '(accepted, s) := storage_set_read_order order s in put_storage s;; mret accepted.

(** [preprocess_current_file] does nothing here. *)
Definition load_current_file : M unit :=
  path ← get_current_file;
  modify (fun r => set_preprocessed ({[path]} ∪ preprocessed_file_paths_ r) r);;
  modify (fun r => set_options (base_folder_ r) (set_uri path (storage_options_ r)) r);;
  r ← get;
  modify (set_storage (open_read_only env (storage_options_ r)));;
  match open_read_only env (storage_options_ r) with
  | None => throw NoStorage
  | Some s =>
    put_storage (storage_seek (seek_time_ r) (storage_set_read_order (read_order_ r) s).2);;
    set_filter (topics_filter_ r)
  end.

(** To another file; what is done to the index is [move]. *)
Definition load_file (move : nat -> nat) : M unit :=
  closed ← get_current_file;
  i ← current_index;
  modify (fun r => set_paths (file_paths_ r) (Some (move i)) r);;
  opened ← get_current_file;
  load_current_file;;
  modify (fun r => add_events (execute_callbacks READ_SPLIT (mkSplit closed opened) (callbacks_ r)) r).

Definition load_next_file : M unit := load_file (fun i => i + 1)%nat.
Definition load_prev_file : M unit := load_file (fun i => i - 1)%nat.

(** ** Opening *)

Definition check_topics_serialization_formats (topics : list TopicInformation) : M unit :=
  match topics with
  | [] => throw Fault
  | t :: _ =>
    if forallb (fun x => String.eqb (tm_serialization_format (topic_metadata x)) (tm_serialization_format (topic_metadata t))) topics
    then mret tt else throw FormatsDiffer
  end.

Definition check_converter_serialization_format (converter_format storage_format : string) : M unit :=
  if String.eqb converter_format "" || String.eqb converter_format storage_format then mret tt else
  match new_converter (formats env) (mkConverterOptions storage_format converter_format) with
  | None => throw NoConverter
  | Some c =>
    s ← the_storage;
    modify (set_converter (Some (foldl (fun c t => converter_add_topic (tm_name t) (tm_type t) c) c (storage_topics_and_types s))))
  end.

Definition fill_topics_metadata : M unit :=
  the_storage;; modify (fun r => set_topics_metadata (topic_metadata <$> topics_with_message_count (metadata_ r)) r).

(** The end of [open], for a bag with files. *)
Definition open_topics (output_format : string) : M unit :=
  r ← get;
  match topics_with_message_count (metadata_ r) with
  | [] => mret tt
  | (t :: _) as topics =>
    fill_topics_metadata;;
    check_topics_serialization_formats topics;;
    check_converter_serialization_format output_format (tm_serialization_format (topic_metadata t))
  end.

Definition open_with_metadata (options : StorageOptions) (output_format : string) : M unit :=
  match read_metadata env (uri options) with
  | None => throw BadMetadata
  | Some m =>
    modify (set_metadata m);;
    (if String.eqb (storage_id options) ""
     then modify (fun r => set_options (base_folder_ r) (set_storage_id (storage_identifier m) (storage_options_ r)) r) else mret tt);;
    match relative_file_paths m with
    | [] => mret tt
    | _ =>
      paths ← resolve_relative_paths (uri options) (relative_file_paths m) (version m);
      modify (set_paths paths (Some 0%nat));;
      load_current_file;;
      open_topics output_format
    end
  end.

Definition kFallbackOrder : ReadOrder := mkReadOrder SortByFile false.

Definition open_without_metadata (output_format : string) : M unit :=
  r ← get;
  modify (set_storage (open_read_only env (storage_options_ r)));;
  match open_read_only env (storage_options_ r) with
  | None => throw NoStorage
  | Some _ =>
    accepted ← set_read_order (read_order_ r);
    (if accepted : bool then mret tt else
     accepted ← set_read_order kFallbackOrder;
     if accepted : bool then mret tt else throw ReadOrderRefused : M unit);;
    s ← the_storage;
    modify (set_metadata (get_storage_metadata s));;
    match relative_file_paths (get_storage_metadata s) with
    | [] => mret tt
    | paths => modify (set_paths paths (Some 0%nat));; open_topics output_format
    end
  end.

Definition open (options : StorageOptions) (converter_options : ConverterOptions) : M unit :=
  modify (set_options (uri options) options);;
  if metadata_file_exists env (uri options) then open_with_metadata options (output_serialization_format converter_options)
  else open_without_metadata (output_serialization_format converter_options).

Definition close : M unit := modify (set_storage None).

(** ** Reading *)

Fixpoint has_next_loop (fuel : nat) : M bool :=
  match fuel with
  | O => throw Unfinished
  | Datatypes.S fuel =>
    s ← the_storage;
    let '(next, s) := storage_has_next s in
    put_storage s;;
    if next then mret true else
    r ← get;
    next_file ← (if in_reverse (read_order_ r) then mret false else has_next_file);
    if next_file : bool then load_next_file;; has_next_loop fuel else
    prev_file ← (if in_reverse (read_order_ r) then has_prev_file else mret false);
    if prev_file : bool then load_prev_file;; has_next_loop fuel else
    mret false
  end.

(** As many rounds as there are files. *)
Definition has_next : M bool := r ← get; has_next_loop (Datatypes.S (length (file_paths_ r))).

Definition read_next : M BagMessage :=
  the_storage;;
  next ← has_next;
  if next : bool then
    s ← the_storage;
    let '(message, s) := storage_read_next s in
    put_storage s;;
    r ← get;
    match converter_ r with
    | None => mret message
    | Some c => match convert (formats env) c message with Some m => mret m | None => throw UnknownTopic end
    end
  else throw AtEnd.

Fixpoint seek (fuel : nat) (timestamp : Z) : M unit :=
  match fuel with
  | O => throw Unfinished
  | Datatypes.S fuel =>
    modify (set_seek_time timestamp);;
    s ← the_storage;
    let start_time := starting_time (get_storage_metadata s) in
    let end_time := i64 (start_time + duration (get_storage_metadata s)) in
    prev_file ← (if timestamp <? start_time then has_prev_file else mret false);
    if prev_file : bool then load_prev_file;; seek fuel timestamp else
    next_file ← (if end_time <? timestamp then has_next_file else mret false);
    if next_file : bool then load_next_file;; seek fuel timestamp else
    put_storage (storage_seek timestamp s)
  end.

(** ** Questions *)

Definition get_metadata : M BagMetadata := the_storage;; r ← get; mret (metadata_ r).
Definition get_all_topics_and_types : M (list TopicMetadata) := the_storage;; r ← get; mret (topics_metadata_ r).
Definition get_all_message_definitions : M (list MessageDefinition) := s ← the_storage; mret (storage_message_definitions s).

Definition add_event_callbacks (cb : option BagEventCallback) : M unit :=
  match cb with
  | Some cb => modify (fun r => set_callbacks (add_event_callback cb (callbacks_ r)) r)
  | None => mret tt
  end.

(** [while (reader.has_next()) reader.read_next();], for [n] messages at most. *)
Fixpoint read_all (n : nat) : M (list BagMessage) :=
  match n with
  | O => throw Unfinished
  | Datatypes.S n =>
    next ← has_next;
    if next : bool then m ← read_next; l ← read_all n; mret (m :: l) else mret []
  end.
End SequentialReader.
Arguments SequentialReader S : clear implicits.

(** ** Reading to the end *)

Section Reading.
Context {S : Type} `{ReadLaws S} (env : ReaderEnvironment S).

(** The file of every path can be opened; [contents] is what a reader gets
    that has set its order, filter and time. *)
Record readable (paths : list string) (contents : string -> ReadOrder -> StorageFilter -> Z -> list BagMessage) : Prop := {
  opens path o : path ∈ paths -> is_Some (open_read_only env (set_uri path o));
  opened path o s order f t : open_read_only env (set_uri path o) = Some s ->
    to_read (storage_set_filter f (storage_seek t (storage_set_read_order order s).2)) = contents path order f t;
}.

(** What no step of reading changes. *)
Record same_bag (r r' : SequentialReader S) : Prop := {
  same_paths : file_paths_ r' = file_paths_ r;
  same_order : read_order_ r' = read_order_ r;
  same_filter : topics_filter_ r' = topics_filter_ r;
  same_time : seek_time_ r' = seek_time_ r;
  same_converter : converter_ r' = converter_ r;
}.

#[export] Instance same_bag_preorder : PreOrder same_bag.
Proof. split; [by split|]. intros r1 r2 r3 [] []. split; congruence. Qed.

Definition at_file (r : SequentialReader S) (s : S) (i : nat) : Prop :=
  storage_ r = Some s /\ current_file_iterator_ r = Some i /\ (i < length (file_paths_ r))%nat.

Lemma current_index_at (r : SequentialReader S) i : current_file_iterator_ r = Some i -> current_index r = (Ok i, r).
Proof. intros Hi. unfold current_index. rewrite get_bind. by rewrite Hi. Qed.

Lemma get_current_file_at (r : SequentialReader S) i path : current_file_iterator_ r = Some i -> file_paths_ r !! i = Some path -> get_current_file r = (Ok path, r).
Proof. intros Hi Hp. unfold get_current_file. rewrite (bind_ok _ _ _ _ _ (current_index_at r i Hi)), get_bind. by rewrite Hp. Qed.

(** The storage of a file that has just been opened. *)
Definition prepared (r : SequentialReader S) (s : S) : S :=
  storage_set_filter (topics_filter_ r) (storage_seek (seek_time_ r) (storage_set_read_order (read_order_ r) s).2).

Lemma load_current_file_spec (r : SequentialReader S) i path s :
  current_file_iterator_ r = Some i -> file_paths_ r !! i = Some path -> open_read_only env (set_uri path (storage_options_ r)) = Some s ->
  exists r', load_current_file env r = (Ok tt, r') /\ at_file r' (prepared r s) i /\ same_bag r r' /\ callbacks_ r' = callbacks_ r.
Proof.
  intros Hi Hp Ho. unfold load_current_file. rewrite (bind_ok _ _ _ _ _ (get_current_file_at r i path Hi Hp)).
  unfold set_filter, the_storage, put_storage, mbind, ST_bind, get, modify, mret, ST_ret. cbn. rewrite Ho. cbn.
  eexists. split_and!; [done| |by split|done]. split_and!; [done|done|]. cbn. by eapply lookup_lt_Some.
Qed.

(** Going to the file of index [move i]. *)
Lemma load_file_spec move r s i path :
  at_file r s i -> file_paths_ r !! move i = Some path -> is_Some (open_read_only env (set_uri path (storage_options_ r))) ->
  exists r' s0, load_file env move r = (Ok tt, r') /\ at_file r' (prepared r s0) (move i) /\ same_bag r r' /\
    open_read_only env (set_uri path (storage_options_ r)) = Some s0.
Proof.
  intros (Hs & Hi & Hlt) Hp [s0 Ho]. destruct (lookup_lt_is_Some_2 _ _ Hlt) as [old Hold].
  unfold load_file. rewrite (bind_ok _ _ _ _ _ (get_current_file_at r i old Hi Hold)), (bind_ok _ _ _ _ _ (current_index_at r i Hi)).
  set (r1 := set_paths (file_paths_ r) (Some (move i)) r).
  rewrite (bind_ok _ _ _ r1 tt) by done. rewrite (bind_ok _ _ r1 _ _ (get_current_file_at r1 (move i) path eq_refl Hp)).
  destruct (load_current_file_spec r1 (move i) path s0) as (r2 & E & (A1 & A2 & A3) & [] & _); [done..|].
  rewrite (bind_ok _ _ _ _ _ E). eexists _, s0. split_and!; [done| |by split|done]. by split_and!.
Qed.

(** The files that are left, in the order in which they are read. *)
Definition files_left (r : SequentialReader S) (i : nat) : list string :=
  if in_reverse (read_order_ r) then reverse (take i (file_paths_ r)) else drop (i + 1) (file_paths_ r).

Section Contents.
Context (contents : string -> ReadOrder -> StorageFilter -> Z -> list BagMessage).

(** [l]: what is still to be read. *)
Definition reading (r : SequentialReader S) (l : list BagMessage) : Prop :=
  exists s i, at_file r s i /\
    l = to_read s ++ concat ((fun path => contents path (read_order_ r) (topics_filter_ r) (seek_time_ r)) <$> files_left r i).

Lemma files_left_same r r' i : same_bag r r' -> files_left r' i = files_left r i.
Proof. intros []. unfold files_left. by rewrite same_paths0, same_order0. Qed.

Lemma reading_file r r' s i : same_bag r r' -> at_file r' s i ->
  reading r' (to_read s ++ concat ((fun path => contents path (read_order_ r) (topics_filter_ r) (seek_time_ r)) <$> files_left r i)).
Proof. intros Hb Ha. exists s, i. split; [done|]. rewrite (files_left_same r r' i Hb). by destruct Hb as [_ -> -> -> _]. Qed.

(** The next file, in the direction of reading. *)
Definition step_to (r : SequentialReader S) (i : nat) : nat := if in_reverse (read_order_ r) then i - 1 else i + 1.

Lemma files_left_step r i path l : (i < length (file_paths_ r))%nat -> files_left r i = path :: l ->
  file_paths_ r !! step_to r i = Some path /\ files_left r (step_to r i) = l.
Proof.
  unfold files_left, step_to. intros Hi. destruct (in_reverse (read_order_ r)).
  - destruct i as [|i]; [done|]. rewrite (take_S_r _ _ (default "" (file_paths_ r !! i))).
    2:{ destruct (lookup_lt_is_Some_2 (file_paths_ r) i) as [x ->]; [lia|done]. }
    rewrite reverse_app. simpl. intros [= <- <-]. rewrite Nat.sub_0_r. split; [|done].
    destruct (lookup_lt_is_Some_2 (file_paths_ r) i) as [x ->]; [lia|done].
  - intros E. split; [by rewrite <- (Nat.add_0_r (i + 1)), <- lookup_drop, E|].
    replace (i + 1 + 1)%nat with ((i + 1) + 1)%nat by lia. by rewrite <- drop_drop, E.
Qed.

Lemma files_left_none r i : (i < length (file_paths_ r))%nat ->
  files_left r i = [] <-> if in_reverse (read_order_ r) then i = 0%nat else (i + 1)%nat = length (file_paths_ r).
Proof.
  intros Hi. unfold files_left. destruct (in_reverse (read_order_ r)).
  - split; [|by intros ->]. intros E%(f_equal length). rewrite length_reverse, length_take in E. simpl in E. lia.
  - split; [intros E%(f_equal length); rewrite length_drop in E; simpl in E; lia|]. intros ->. apply drop_all.
Qed.

Lemma at_file_put (r : SequentialReader S) s s' i : at_file r s i -> at_file (set_storage (Some s') r) s' i /\ same_bag r (set_storage (Some s') r).
Proof. intros (E1 & E2 & E3). by split. Qed.

Lemma the_storage_at (r : SequentialReader S) s : storage_ r = Some s -> the_storage r = (Ok s, r).
Proof. intros Hs. unfold the_storage. rewrite get_bind. by rewrite Hs. Qed.

Lemma has_next_file_at (r : SequentialReader S) i : current_file_iterator_ r = Some i ->
  has_next_file r = (Ok (negb (bool_decide (i + 1 = length (file_paths_ r))%nat)), r).
Proof. intros Hi. unfold has_next_file. by rewrite (bind_ok _ _ _ _ _ (current_index_at r i Hi)), get_bind. Qed.

Lemma has_prev_file_at (r : SequentialReader S) i : current_file_iterator_ r = Some i ->
  has_prev_file r = (Ok (negb (bool_decide (i = 0%nat))), r).
Proof. intros Hi. unfold has_prev_file. by rewrite (bind_ok _ _ _ _ _ (current_index_at r i Hi)). Qed.

(** Only what is done to the index of the file that is open matters. *)
Lemma load_file_move move move' (r : SequentialReader S) i : current_file_iterator_ r = Some i -> move i = move' i ->
  load_file env move r = load_file env move' r.
Proof.
  intros Hi Hm. unfold load_file, mbind, ST_bind. destruct (get_current_file r) as [[x|e] r'] eqn:E; [|done].
  assert (r' = r) as ->.
  { unfold get_current_file in E. rewrite (bind_ok _ _ _ _ _ (current_index_at r i Hi)), get_bind in E.
    unfold mret, ST_ret, throw in E. destruct (file_paths_ r !! i); congruence. }
  by rewrite (current_index_at r i Hi), Hm.
Qed.

(** One round of [has_next], after the storage was asked. *)
Lemma has_next_round fuel r s i :
  at_file r s i ->
  has_next_loop env (Datatypes.S fuel) r =
  let r1 := set_storage (Some (storage_has_next s).2) r in
  if bool_decide (to_read s <> []) then (Ok true, r1) else
  match files_left r i with
  | [] => (Ok false, r1)
  | _ => (load_file env (fun _ => step_to r i) ≫= fun _ => has_next_loop env fuel) r1
  end.
Proof.
  intros (Hs & Hi & Hlt). cbn zeta. rewrite <- has_next_tells. pose proof (files_left_none r i Hlt) as Hleft.
  cbn [has_next_loop]. rewrite (bind_ok _ _ _ _ _ (the_storage_at r s Hs)).
  destruct (storage_has_next s) as [next s1]. cbn [fst snd]. set (r1 := set_storage (Some s1) r). rewrite (bind_ok _ _ _ r1 tt) by done.
  destruct next; [done|]. rewrite get_bind. unfold step_to. change (read_order_ r1) with (read_order_ r).
  destruct (in_reverse (read_order_ r)).
  - rewrite (bind_ok _ _ _ r1 false) by done. rewrite (bind_ok _ _ _ _ _ (has_prev_file_at r1 i Hi)).
    destruct (decide (i = 0%nat)) as [He|Hne].
    + rewrite bool_decide_eq_true_2 by done. by rewrite (proj2 Hleft).
    + rewrite bool_decide_eq_false_2 by done. destruct (files_left r i) eqn:E; [by destruct Hne; apply (proj1 Hleft)|].
      cbn [negb]. unfold mbind, ST_bind, load_prev_file. by rewrite (load_file_move _ (fun _ => i - 1)%nat r1 i).
  - rewrite (bind_ok _ _ _ _ _ (has_next_file_at r1 i Hi)). change (file_paths_ r1) with (file_paths_ r).
    destruct (decide ((i + 1)%nat = length (file_paths_ r))) as [He|Hne].
    + rewrite bool_decide_eq_true_2 by done. cbn [negb]. rewrite (bind_ok _ _ _ r1 false) by done. by rewrite (proj2 Hleft).
    + rewrite bool_decide_eq_false_2 by done. destruct (files_left r i) eqn:E; [by destruct Hne; apply (proj1 Hleft)|].
      cbn [negb]. unfold mbind, ST_bind, load_next_file. by rewrite (load_file_move _ (fun _ => i + 1)%nat r1 i).
Qed.

(** [has_next] finds the file in which reading goes on. *)
Lemma has_next_loop_spec fuel r l :
  readable (file_paths_ r) contents -> reading r l -> (forall s i, at_file r s i -> length (files_left r i) < fuel)%nat ->
  exists r', has_next_loop env fuel r = (Ok (bool_decide (l <> [])), r') /\ same_bag r r' /\ reading r' l /\
    (forall m l', l = m :: l' -> exists s i l1, at_file r' s i /\ to_read s = m :: l1).
Proof.
  revert r. induction fuel as [|fuel IH]; intros r Hr (s & i & Ha & Hl) Hf; [by specialize (Hf s i Ha); lia|].
  rewrite (has_next_round _ _ _ _ Ha). cbn zeta. destruct (at_file_put r s (storage_has_next s).2 i Ha) as [Ha1 Hb1].
  set (r1 := set_storage _ r) in *. pose proof (reading_file r r1 _ i Hb1 Ha1) as Hread. rewrite has_next_keeps in Hread.
  destruct (to_read s) as [|m l1] eqn:Es.
  - rewrite bool_decide_eq_false_2 by (intros []; done). destruct (files_left r i) as [|path paths] eqn:El.
    + simpl in Hl. subst l. exists r1. rewrite bool_decide_eq_false_2 by (intros []; done). by split_and!.
    + destruct (files_left_step r i path paths) as [Hp Hrest]; [by apply Ha|done|].
      destruct (load_file_spec (fun _ => step_to r i) r1 _ i path Ha1) as (r2 & s0 & E & Ha2 & Hb2 & Ho); [done|by eapply opens, list_elem_of_lookup_2|].
      rewrite (bind_ok _ _ _ _ _ E). assert (Hb : same_bag r r2) by (by transitivity r1).
      destruct (IH r2) as (r' & E' & Hb' & Hl' & Hm').
      * destruct Hb as [-> _ _ _ _]. done.
      * pose proof (reading_file r r2 _ _ Hb Ha2) as Hread2. rewrite Hrest in Hread2. unfold prepared in Hread2.
        rewrite (opened _ _ Hr _ _ _ _ _ _ Ho) in Hread2. rewrite Hl. simpl. exact Hread2.
      * intros s' i' (_ & Hi' & _). destruct Ha2 as (_ & Hi2 & _). rewrite Hi2 in Hi'. injection Hi' as <-.
        rewrite (files_left_same r r2 _ Hb), Hrest. specialize (Hf s i Ha). rewrite El in Hf. simpl in Hf. lia.
      * exists r'. split_and!; [done|by transitivity r2|done|done].
  - rewrite bool_decide_eq_true_2 by done. exists r1. rewrite Hl in *. rewrite bool_decide_eq_true_2 by done. split_and!; [done|done|done|].
    intros m' l' [= <- _]. exists (storage_has_next s).2, i, l1. split; [done|]. by rewrite has_next_keeps.
Qed.

Lemma has_next_spec r l :
  readable (file_paths_ r) contents -> reading r l ->
  exists r', has_next env r = (Ok (bool_decide (l <> [])), r') /\ same_bag r r' /\ reading r' l /\
    (forall m l', l = m :: l' -> exists s i l1, at_file r' s i /\ to_read s = m :: l1).
Proof.
  intros Hr Hl. unfold has_next. rewrite get_bind. apply has_next_loop_spec; [done|done|].
  intros s i (_ & _ & Hi). unfold files_left. destruct (in_reverse _); rewrite ?length_reverse, ?length_take, ?length_drop; lia.
Qed.

Lemma read_next_spec r m l :
  readable (file_paths_ r) contents -> converter_ r = None -> reading r (m :: l) ->
  exists r', read_next env r = (Ok m, r') /\ same_bag r r' /\ reading r' l.
Proof.
  intros Hr Hc Hl. destruct (has_next_spec r _ Hr Hl) as (r1 & E & Hb & (s & i & Ha & Heq) & Hm).
  destruct (Hm m l eq_refl) as (s' & i' & l1 & Ha' & Hl1).
  assert (s' = s /\ i' = i) as [-> ->]. { destruct Ha as (A1 & A2 & _), Ha' as (B1 & B2 & _). split; congruence. }
  destruct (read_next_takes s m l1 Hl1) as [Em Et].
  unfold read_next. destruct Hl as (s0 & i0 & (A1 & A2 & A3) & _). rewrite (bind_ok _ _ _ _ _ (the_storage_at r s0 A1)).
  rewrite (bind_ok _ _ _ _ _ E). rewrite bool_decide_eq_true_2 by done. rewrite (bind_ok _ _ _ _ _ (the_storage_at r1 s (proj1 Ha))).
  destruct (storage_read_next s) as [m' s1]. simpl in Em, Et. subst m'. destruct (at_file_put r1 s s1 i Ha) as [Ha2 Hb2].
  rewrite (bind_ok _ _ _ (set_storage (Some s1) r1) tt) by done. rewrite get_bind. cbn [converter_ set_storage].
  rewrite (same_converter _ _ Hb), Hc. eexists. split_and!; [done|by transitivity r1|].
  pose proof (reading_file r1 _ s1 i Hb2 Ha2) as Hread. rewrite Et in Hread. rewrite Hl1 in Heq. injection Heq as ->. exact Hread.
Qed.

Lemma read_next_end r :
  readable (file_paths_ r) contents -> reading r [] -> exists r', read_next env r = (Throw AtEnd, r') /\ reading r' [].
Proof.
  intros Hr Hl. destruct (has_next_spec r _ Hr Hl) as (r1 & E & Hb & Hl' & _). exists r1. split; [|done].
  destruct Hl as (s0 & i0 & (A1 & A2 & A3) & _). unfold read_next. rewrite (bind_ok _ _ _ _ _ (the_storage_at r s0 A1)).
  by rewrite (bind_ok _ _ _ _ _ E).
Qed.

(** C21: Reading to the end gives the messages that are left in the file that is
    open and those of all files after it (before it, in reverse), file by file,
    each once and in the order of its file; then there are no more. *)
Theorem reads_every_file r l n :
  readable (file_paths_ r) contents -> converter_ r = None -> reading r l -> (length l < n)%nat ->
  exists r', read_all env n r = (Ok l, r') /\ (has_next env r').1 = Ok false.
Proof.
  revert r n. induction l as [|m l IH]; intros r [|n] Hr Hc Hl Hn; simpl in Hn; try lia; cbn [read_all];
    destruct (has_next_spec r _ Hr Hl) as (r1 & E & Hb & Hl1 & _); rewrite (bind_ok _ _ _ _ _ E);
    pose proof Hr as Hr1; rewrite <- (same_paths _ _ Hb) in Hr1.
  - exists r1. split; [done|]. destruct (has_next_spec r1 _ Hr1 Hl1) as (r2 & E2 & _). by rewrite E2.
  - rewrite bool_decide_eq_true_2 by done.
    destruct (read_next_spec r1 m l) as (r2 & E2 & Hb2 & Hl2); [done|by rewrite (same_converter _ _ Hb)|done|].
    rewrite (bind_ok _ _ _ _ _ E2).
    destruct (IH r2 n) as (r' & E' & Hn'); [by rewrite (same_paths _ _ Hb2)| |done|lia|].
    { by rewrite (same_converter _ _ Hb2), (same_converter _ _ Hb). }
    rewrite (bind_ok _ _ _ _ _ E'). by exists r'.
Qed.
End Contents.

(** ** Seeking *)

Section Seeking.
Context (first last : string -> Z).

(** The times that a plug-in finds in a file. *)
Definition times_of (path : string) (s : S) : Prop :=
  starting_time (get_storage_metadata s) = first path /\ i64 (starting_time (get_storage_metadata s) + duration (get_storage_metadata s)) = last path.

Record timed (paths : list string) : Prop := {
  timed_opens path o : path ∈ paths -> is_Some (open_read_only env (set_uri path o));
  timed_file path o s order f t : open_read_only env (set_uri path o) = Some s ->
    times_of path (storage_set_filter f (storage_seek t (storage_set_read_order order s).2));
}.

(** A reader with a file of the bag open. *)
Definition in_file (r : SequentialReader S) (s : S) (i : nat) : Prop :=
  at_file r s i /\ forall path, file_paths_ r !! i = Some path -> times_of path s.

(** One round of [seek]. *)
Lemma seek_round fuel t r s i path :
  in_file r s i -> file_paths_ r !! i = Some path ->
  seek env (Datatypes.S fuel) t r =
  let r1 := set_seek_time t r in
  if (t <? first path) && negb (bool_decide (i = 0%nat)) then (load_file env (fun _ => i - 1)%nat ≫= fun _ => seek env fuel t) r1 else
  if (last path <? t) && negb (bool_decide (i + 1 = length (file_paths_ r))%nat) then
    (load_file env (fun _ => i + 1)%nat ≫= fun _ => seek env fuel t) r1
  else (Ok tt, set_storage (Some (storage_seek t s)) r1).
Proof.
  intros [(Hs & Hi & Hlt) Ht] Hp. destruct (Ht path Hp) as [H2 H3]. cbn zeta. set (r1 := set_seek_time t r). cbn [seek].
  rewrite (bind_ok _ _ _ r1 tt) by done. rewrite (bind_ok _ _ _ _ _ (the_storage_at r1 s Hs)). rewrite H3, H2.
  assert (E1 : (if t <? first path then has_prev_file else mret false) r1 = (Ok ((t <? first path) && negb (bool_decide (i = 0%nat))), r1)).
  { destruct (t <? first path); [by rewrite (has_prev_file_at r1 i Hi)|done]. }
  rewrite (bind_ok _ _ _ _ _ E1). destruct (_ && _).
  { unfold mbind, ST_bind, load_prev_file. by rewrite (load_file_move _ (fun _ => i - 1)%nat r1 i). }
  assert (E2 : (if last path <? t then has_next_file else mret false) r1 =
               (Ok ((last path <? t) && negb (bool_decide (i + 1 = length (file_paths_ r))%nat)), r1)).
  { destruct (last path <? t); [by rewrite (has_next_file_at r1 i Hi)|done]. }
  rewrite (bind_ok _ _ _ _ _ E2). destruct (_ && _); [|done].
  unfold mbind, ST_bind, load_next_file. by rewrite (load_file_move _ (fun _ => i + 1)%nat r1 i).
Qed.

(** Another file is opened. *)
Lemma seek_load j t r s i :
  timed (file_paths_ r) -> in_file r s i -> (j < length (file_paths_ r))%nat ->
  exists r' s', load_file env (fun _ => j) (set_seek_time t r) = (Ok tt, r') /\ in_file r' s' j /\ file_paths_ r' = file_paths_ r.
Proof.
  intros Hf [(Hs & Hi & Hlt) _] Hj. destruct (lookup_lt_is_Some_2 (file_paths_ r) j) as [path Hp]; [done|].
  destruct (load_file_spec (fun _ => j) (set_seek_time t r) s i path) as (r' & s0 & E & Ha & Hb & Ho);
    [done|done|by eapply timed_opens, list_elem_of_lookup_2|].
  exists r', (prepared (set_seek_time t r) s0). pose proof (same_paths _ _ Hb) as Hpaths. split_and!; [done| |done]. split; [done|].
  intros path'. rewrite Hpaths. simpl. rewrite Hp. intros [= <-]. by eapply timed_file.
Qed.

(** The files follow one another in time. *)
Definition in_time_order (paths : list string) : Prop :=
  (forall path, path ∈ paths -> first path <= last path) /\
  forall i j p q, (i < j)%nat -> paths !! i = Some p -> paths !! j = Some q -> last p <= first q.

(** The time is after one file and before the next. *)
Definition between_files (paths : list string) (t : Z) : Prop :=
  exists k p q, paths !! k = Some p /\ paths !! (k + 1)%nat = Some q /\ last p < t < first q.

(** The file in which a seek ends: only the first may begin later, only the
    last may end before. *)
Definition seek_ended (t : Z) (r : SequentialReader S) : Prop :=
  exists s j path, storage_ r = Some (storage_seek t s) /\ current_file_iterator_ r = Some j /\ file_paths_ r !! j = Some path /\ times_of path s /\
    (t < first path -> j = 0%nat) /\ (last path < t -> (j + 1)%nat = length (file_paths_ r)).

Lemma in_file_path r s i : in_file r s i -> exists path, file_paths_ r !! i = Some path.
Proof. intros [(_ & _ & Hi) _]. by apply lookup_lt_is_Some_2. Qed.

Lemma seek_stays fuel t r s i path :
  in_file r s i -> file_paths_ r !! i = Some path ->
  (t < first path -> i = 0%nat) -> (last path < t -> (i + 1)%nat = length (file_paths_ r)) ->
  exists r', seek env (Datatypes.S fuel) t r = (Ok tt, r') /\ seek_ended t r'.
Proof.
  intros Hi Hp H2 H3. rewrite (seek_round fuel t r s i path Hi Hp). cbn zeta.
  destruct Hi as [(Hs & Hi & Hlt) Ht].
  assert ((t <? first path) && negb (bool_decide (i = 0%nat)) = false) as ->.
  { destruct (Z.ltb_spec t (first path)) as [Hlt'|]; [|done]. by rewrite bool_decide_eq_true_2 by auto. }
  assert ((last path <? t) && negb (bool_decide (i + 1 = length (file_paths_ r))%nat) = false) as ->.
  { destruct (Z.ltb_spec (last path) t) as [Hlt'|]; [|done]. by rewrite bool_decide_eq_true_2 by auto. }
  eexists. split; [done|]. exists s, i, path. split_and!; [done|done|done|by apply Ht|done|done].
Qed.

Lemma seek_backward t fuel : forall r s i path,
  timed (file_paths_ r) -> ~ between_files (file_paths_ r) t -> in_file r s i -> file_paths_ r !! i = Some path ->
  t <= last path -> (i < fuel)%nat -> exists r', seek env fuel t r = (Ok tt, r') /\ seek_ended t r'.
Proof.
  induction fuel as [|fuel IH]; intros r s i path Hf Hg Hi Hp Ht Hn; [lia|].
  destruct (decide (t < first path /\ i <> 0%nat)) as [[Hlt Hne]|Hstay].
  - rewrite (seek_round fuel t r s i path Hi Hp). cbn zeta. rewrite (proj2 (Z.ltb_lt _ _) Hlt), bool_decide_eq_false_2 by done. simpl.
    assert (Hlen : (i < length (file_paths_ r))%nat) by (by eapply lookup_lt_Some).
    destruct (seek_load (i - 1) t r s i Hf Hi) as (r1 & s1 & E & Hi1 & Hpaths); [lia|]. rewrite (bind_ok _ _ _ _ _ E).
    destruct (in_file_path r1 s1 (i - 1) Hi1) as [p1 Hp1]. rewrite Hpaths in Hp1. apply (IH r1 s1 (i - 1)%nat p1); rewrite ?Hpaths; try done; [|lia].
    apply Z.nlt_ge. intros Hgap. apply Hg. exists (i - 1)%nat, p1, path. split_and!; [done| |done|done].
    by replace (i - 1 + 1)%nat with i by lia.
  - apply (seek_stays fuel t r s i path); [done|done| |intros; lia]. intros Hlt. destruct (decide (i = 0%nat)); [done|]. by destruct Hstay.
Qed.

Lemma seek_forward t fuel : forall r s i path,
  timed (file_paths_ r) -> ~ between_files (file_paths_ r) t -> in_file r s i -> file_paths_ r !! i = Some path ->
  first path <= t -> (length (file_paths_ r) <= i + fuel)%nat -> exists r', seek env fuel t r = (Ok tt, r') /\ seek_ended t r'.
Proof.
  induction fuel as [|fuel IH]; intros r s i path Hf Hg Hi Hp Ht Hn; [by apply lookup_lt_Some in Hp; lia|].
  destruct (decide (last path < t /\ (i + 1)%nat <> length (file_paths_ r))) as [[Hlt Hne]|Hstay].
  - rewrite (seek_round fuel t r s i path Hi Hp). cbn zeta. rewrite (proj2 (Z.ltb_ge _ _) Ht), (proj2 (Z.ltb_lt _ _) Hlt).
    rewrite (bool_decide_eq_false_2 _ Hne). simpl. assert (Hlen : (i < length (file_paths_ r))%nat) by (by eapply lookup_lt_Some).
    destruct (seek_load (i + 1) t r s i Hf Hi) as (r1 & s1 & E & Hi1 & Hpaths); [lia|]. rewrite (bind_ok _ _ _ _ _ E).
    destruct (in_file_path r1 s1 (i + 1) Hi1) as [p1 Hp1]. rewrite Hpaths in Hp1. apply (IH r1 s1 (i + 1)%nat p1); rewrite ?Hpaths; try done; [|lia].
    apply Z.nlt_ge. intros Hgap. apply Hg. exists i, path, p1. by split_and!.
  - apply (seek_stays fuel t r s i path); [done|done|intros; lia|]. intros Hlt. destruct (decide ((i + 1)%nat = length (file_paths_ r))); [done|]. by destruct Hstay.
Qed.

(** In a gap every file sends the reader on. *)
Lemma seek_in_gap t fuel : forall r s i,
  timed (file_paths_ r) -> in_time_order (file_paths_ r) -> between_files (file_paths_ r) t -> in_file r s i ->
  (seek env fuel t r).1 = Throw Unfinished.
Proof.
  induction fuel as [|fuel IH]; intros r s i Hf Ho Hg Hi; [done|].
  destruct (in_file_path r s i Hi) as [path Hp]. rewrite (seek_round fuel t r s i path Hi Hp). cbn zeta.
  assert (Hlen : (i < length (file_paths_ r))%nat) by (by eapply lookup_lt_Some).
  assert (Hself : first path <= last path) by (apply Ho; by eapply list_elem_of_lookup_2).
  destruct Hg as (k & p & q & Hkp & Hkq & Hgap). pose proof (lookup_lt_Some _ _ _ Hkq) as Hklen.
  destruct (decide (i <= k)%nat) as [Hle|Hgt].
  - assert (Hlast : last path <= last p).
    { destruct (decide (i = k)) as [->|Hne]; [by rewrite Hkp in Hp; injection Hp as ->|].
      assert (last path <= first p) by (apply (proj2 Ho i k); [lia|done|done]).
      assert (first p <= last p) by (apply Ho; by eapply list_elem_of_lookup_2). lia. }
    rewrite (proj2 (Z.ltb_ge t _)) by lia. rewrite (proj2 (Z.ltb_lt _ t)) by lia. cbn [andb]. rewrite bool_decide_eq_false_2 by lia. simpl.
    destruct (seek_load (i + 1) t r s i Hf Hi) as (r1 & s1 & E & Hi1 & Hpaths); [lia|]. rewrite (bind_ok _ _ _ _ _ E).
    apply (IH r1 s1 (i + 1)%nat); rewrite ?Hpaths; try done. by exists k, p, q.
  - assert (Hfirst : first q <= first path).
    { destruct (decide (i = k + 1)%nat) as [->|Hne]; [by rewrite Hkq in Hp; injection Hp as ->|].
      assert (last q <= first path) by (apply (proj2 Ho (k + 1)%nat i); [lia|done|done]).
      assert (first q <= last q) by (apply Ho; by eapply list_elem_of_lookup_2). lia. }
    rewrite (proj2 (Z.ltb_lt t _)) by lia. rewrite bool_decide_eq_false_2 by lia. simpl.
    destruct (seek_load (i - 1) t r s i Hf Hi) as (r1 & s1 & E & Hi1 & Hpaths); [lia|]. rewrite (bind_ok _ _ _ _ _ E).
    apply (IH r1 s1 (i - 1)%nat); rewrite ?Hpaths; try done. by exists k, p, q.
Qed.

(** C22: A seek ends, in as many rounds as there are files and in the file that
    has the time, unless the time is after one file and before the next: then
    it goes from the one to the other and back and never ends. *)
Theorem seek_spec t r s i :
  timed (file_paths_ r) -> in_time_order (file_paths_ r) -> in_file r s i ->
  (~ between_files (file_paths_ r) t -> exists r', seek env (length (file_paths_ r)) t r = (Ok tt, r') /\ seek_ended t r') /\
  (between_files (file_paths_ r) t -> forall fuel, (seek env fuel t r).1 = Throw Unfinished).
Proof.
  intros Hf Ho Hi. split; [|intros Hg fuel; by eapply seek_in_gap]. intros Hg.
  destruct (in_file_path r s i Hi) as [path Hp]. pose proof (lookup_lt_Some _ _ _ Hp) as Hlen.
  destruct (decide (first path <= t)) as [Hle|Hgt].
  - eapply seek_forward; [done|done|done|done|done|lia].
  - eapply seek_backward; [done|done|done|done| |lia]. assert (first path <= last path) by (apply Ho; by eapply list_elem_of_lookup_2). lia.
Qed.
End Seeking.
End Reading.

(** ** Bags in memory *)

Definition any_format : Formats := mkFormats (fun _ => true) (fun _ => true) (fun _ _ => buffer_length).

(** A directory with these files and their metadata. *)
Definition memory_environment (disk : list (string * list BagMessage)) (m : BagMetadata) : ReaderEnvironment MemoryBag :=
  mkReaderEnvironment MemoryBag (fun o => new_memory (uri o) <$> (list_to_map disk : gmap string (list BagMessage)) !! uri o)
    (fun _ => true) (fun _ => Some m) (fun _ => true) (fun _ => true) any_format.

Definition memory_contents (disk : list (string * list BagMessage)) (path : string) (order : ReadOrder) (f : StorageFilter) (t : Z) : list BagMessage :=
  selected order f t (default [] ((list_to_map disk : gmap string (list BagMessage)) !! path)).

Lemma memory_opens disk m o s : open_read_only (memory_environment disk m) o = Some s ->
  exists l, (list_to_map disk : gmap string (list BagMessage)) !! uri o = Some l /\ s = new_memory (uri o) l.
Proof. simpl. intros (l & E & Hs)%fmap_Some. eauto. Qed.

Lemma memory_readable disk m paths :
  Forall (fun path => is_Some ((list_to_map disk : gmap string (list BagMessage)) !! path)) paths ->
  readable (memory_environment disk m) paths (memory_contents disk).
Proof.
  intros Hp. split.
  - intros path o Hin. rewrite Forall_forall in Hp. destruct (Hp path Hin) as [l E]. simpl. rewrite E. by eexists.
  - intros path o s order f t (l & E & ->)%memory_opens. simpl in *. unfold memory_contents. by rewrite E.
Qed.

Definition first_time (disk : list (string * list BagMessage)) (path : string) : Z :=
  (time_range (default [] ((list_to_map disk : gmap string (list BagMessage)) !! path))).1.
Definition last_time (disk : list (string * list BagMessage)) (path : string) : Z :=
  (time_range (default [] ((list_to_map disk : gmap string (list BagMessage)) !! path))).2.

Lemma memory_timed disk m paths :
  Forall (fun path => is_Some ((list_to_map disk : gmap string (list BagMessage)) !! path)) paths ->
  (forall path, int64_min <= last_time disk path <= int64_max) ->
  timed (memory_environment disk m) (first_time disk) (last_time disk) paths.
Proof.
  intros Hp Hr. split; [apply (memory_readable disk m paths Hp)|].
  intros path o s order f t (l & E & ->)%memory_opens. specialize (Hr path). unfold times_of, first_time, last_time in *. simpl in *. rewrite E in *. simpl in *.
  unfold metadata_in_file. destruct (time_range l) as [t1 t2]. simpl in *. split; [done|]. rewrite i64_id; lia.
Qed.

(** Two files; nothing was recorded between 2 and 5. *)
Definition two_files : list (string * list BagMessage) :=
  [("bag/bag_0", [mkMessage "a" 8 1; mkMessage "b" 8 2]); ("bag/bag_1", [mkMessage "a" 8 5; mkMessage "b" 8 6])]%string.

Definition two_metadata : BagMetadata := mkMetadata 9 0 "memory" ["bag_0"; "bag_1"]%string [] 5 1 4 [] "" "" ∅ "".

Definition two_environment : ReaderEnvironment MemoryBag := memory_environment two_files two_metadata.

Definition two_reader : SequentialReader MemoryBag :=
  (open two_environment (default_options "bag") (mkConverterOptions "" "") new_reader).2.

Lemma two_readable : Forall (fun path => is_Some ((list_to_map two_files : gmap string (list BagMessage)) !! path)) (file_paths_ two_reader).
Proof. repeat (constructor; [by eexists; vm_compute|]). constructor. Qed.

Lemma reads_every_file_witness :
  exists r', read_all two_environment 5 two_reader =
    (Ok [mkMessage "a" 8 1; mkMessage "b" 8 2; mkMessage "a" 8 5; mkMessage "b" 8 6], r') /\ (has_next two_environment r').1 = Ok false.
Proof.
  apply (reads_every_file two_environment (memory_contents two_files)).
  - apply memory_readable, two_readable.
  - by vm_compute.
  - exists (default (new_memory "" []) (storage_ two_reader)), 0%nat. split; [|by vm_compute]. split_and!; [by vm_compute|by vm_compute|vm_compute; lia].
  - simpl. lia.
Defined.

#[local] Notation first_of_two := (first_time two_files).
#[local] Notation last_of_two := (last_time two_files).

Lemma two_timed : timed two_environment first_of_two last_of_two (file_paths_ two_reader).
Proof.
  apply memory_timed; [apply two_readable|]. intros path. unfold last_time. destruct (_ !! path) as [l|] eqn:E; [|by vm_compute].
  apply elem_of_list_to_map_2 in E. repeat (apply elem_of_cons in E as [[= -> ->]|E]; [by vm_compute|]). by apply elem_of_nil in E.
Qed.

Lemma two_in_time_order : in_time_order first_of_two last_of_two (file_paths_ two_reader).
Proof.
  split.
  - intros path Hp. vm_compute in Hp. repeat (apply elem_of_cons in Hp as [->|Hp]; [by vm_compute|]). by apply elem_of_nil in Hp.
  - intros [|[|i]] [|[|j]] p q Hij E1 E2; try lia; vm_compute in E1, E2; try done; try (destruct i; done); try (destruct j; done).
    injection E1 as <-. injection E2 as <-. by vm_compute.
Qed.

Lemma two_in_file : in_file first_of_two last_of_two two_reader (default (new_memory "" []) (storage_ two_reader)) 0.
Proof.
  split; [split_and!; [by vm_compute|by vm_compute|vm_compute; lia]|]. intros path E. vm_compute in E. injection E as <-. by vm_compute.
Qed.

(** Time 3 is between the files, time 5 in the second. *)
Lemma seek_spec_witness :
  (seek two_environment 100 3 two_reader).1 = Throw Unfinished /\
  exists r', seek two_environment 2 5 two_reader = (Ok tt, r') /\ seek_ended first_of_two last_of_two 5 r'.
Proof.
  split.
  - apply (seek_spec two_environment first_of_two last_of_two 3 two_reader _ 0 two_timed two_in_time_order two_in_file).
    exists 0%nat, "bag/bag_0"%string, "bag/bag_1"%string. split_and!; by vm_compute.
  - apply (seek_spec two_environment first_of_two last_of_two 5 two_reader _ 0 two_timed two_in_time_order two_in_file).
    intros ([|[|k]] & p & q & E1 & E2 & Ht); vm_compute in E1, E2; [|done|by destruct k].
    injection E1 as <-. injection E2 as <-. vm_compute in Ht. by destruct Ht.
Defined.

(** The next file has what the seek was for. *)
Example seek_five : exists r', seek two_environment 2 5 two_reader = (Ok tt, r') /\ (read_next two_environment r').1 = Ok (mkMessage "a" 8 5).
Proof. eexists. by vm_compute. Qed.
