(* ===== verification/SequentialWriter.v ===== *)
(** * The writer of rosbag2

    [rosbag2/rosbag2_cpp/src/rosbag2_cpp/writers/sequential_writer.cpp]: the
    messages of a bag go to one storage file after another, directly or
    through a cache that a thread empties ([CacheConsumer]), and the metadata
    of the bag are kept along the way.

    The methods run under the mutex of [rosbag2_cpp::Writer], so they follow one
    another ([take_snapshot] and [add_event_callbacks] are called without it,
    and are one step each); the thread takes its steps between them ([thread_step]) and,
    inside of them, while [stop] waits for it.  A storage that is let go stays
    in [closed_storages].

    This file has the definitions.  The theorems of [SequentialWriterFacts] and
    [SequentialWriterMetadata]: in every order of calls and steps of the thread
    the files, the buffers and the count of what was dropped together are what
    was accepted, in order ([recording_conserves]); after a split everything
    accepted before is in files that are closed, and the new one is empty
    ([split_flushes]); the counts and times of the metadata
    ([metadata_of_messages]). *)

From Stdlib Require Import ZArith Lia Ascii String.
From stdpp Require Import base numbers list gmap strings.
From S2P Require Import Prelude Computation BagCache CacheConsumer BagStorage.
#[local] Open Scope Z_scope.

Inductive WriterError :=
| DirectoryExists | DirectoryNotCreated | NoStorage | SplitSizeTooSmall | SnapshotWithoutCache | NoConverter
| NotOpen | UnknownTopic | TopicMissing | RolloverFailed
| Unfinished    (** the thread does not end *)
| NullPointer   (** a pointer that is null, or the last of no files, is used *).

(** The cache and its thread. *)
Inductive Caches :=
| NoCache
| Plain (c : CacheConsumer MessageCache)
| Snapshot (c : CacheConsumer CircularMessageCache).

Definition on_consumer (f : forall C : Type, MessageCacheInterface C -> CacheConsumer C -> CacheConsumer C) (x : Caches) : Caches :=
  match x with
  | NoCache => NoCache
  | Plain c => Plain (f _ _ c)
  | Snapshot c => Snapshot (f _ _ c)
  end.

(** What is outside. *)
Record WriterEnvironment (S : Type) := mkWriterEnvironment {
  open_read_write : StorageOptions -> option S;
  folder_exists : string -> bool;
  create_directories : string -> bool;
  file_size : string -> option Z;
  get_full_text : string -> option MessageDefinition;
  default_storage_id : string;
  ROS_DISTRO : string;
  writer_formats : Formats;
}.
Arguments open_read_write {S}.
Arguments folder_exists {S}.
Arguments create_directories {S}.
Arguments file_size {S}.
Arguments get_full_text {S}.
Arguments default_storage_id {S}.
Arguments ROS_DISTRO {S}.
Arguments writer_formats {S}.

(** ** The metadata *)

Definition set_starting_time (x : Z) (m : BagMetadata) : BagMetadata :=
  mkMetadata (version m) (bag_size m) (storage_identifier m) (relative_file_paths m) (files m) (duration m) x (message_count m)
    (topics_with_message_count m) (compression_format m) (compression_mode m) (custom_data m) (ros_distro m).
Definition set_duration (x : Z) (m : BagMetadata) : BagMetadata :=
  mkMetadata (version m) (bag_size m) (storage_identifier m) (relative_file_paths m) (files m) x (starting_time m) (message_count m)
    (topics_with_message_count m) (compression_format m) (compression_mode m) (custom_data m) (ros_distro m).
Definition set_files (paths : list string) (x : list FileInformation) (m : BagMetadata) : BagMetadata :=
  mkMetadata (version m) (bag_size m) (storage_identifier m) paths x (duration m) (starting_time m) (message_count m)
    (topics_with_message_count m) (compression_format m) (compression_mode m) (custom_data m) (ros_distro m).
Definition set_totals (size count : Z) (topics : list TopicInformation) (m : BagMetadata) : BagMetadata :=
  mkMetadata (version m) size (storage_identifier m) (relative_file_paths m) (files m) (duration m) (starting_time m) count
    topics (compression_format m) (compression_mode m) (custom_data m) (ros_distro m).

(** A change of [files.back()]. *)
Fixpoint change_back {A} (f : A -> A) (l : list A) : list A :=
  match l with
  | [] => []
  | [x] => [f x]
  | x :: l => x :: change_back f l
  end.

Definition on_back (f : FileInformation -> FileInformation) (m : BagMetadata) : BagMetadata :=
  set_files (relative_file_paths m) (change_back f (files m)) m.

Definition back_starts (t : Z) (f : FileInformation) : FileInformation := mkFile (file_path f) t (file_duration f) (file_message_count f).

(** The times of the file for a message of time [t]. *)
Definition back_times (t : Z) (f : FileInformation) : FileInformation :=
  let starts := Z.min (file_starting_time f) t in
  mkFile (file_path f) starts (Z.max (file_duration f) (i64 (t - starts))) (file_message_count f).
Definition back_counts (f : FileInformation) : FileInformation :=
  mkFile (file_path f) (file_starting_time f) (file_duration f) (u64 (file_message_count f + 1)).

(** The times of the bag and of its last file. *)
Definition note_message (t : Z) (m : BagMetadata) : BagMetadata :=
  let starts := Z.min (starting_time m) t in
  on_back (back_times t) (set_duration (Z.max (duration m) (i64 (t - starts))) (set_starting_time starts m)).

(** A new file, with the latest time of all as its start. *)
Definition new_file (path : string) : FileInformation := mkFile (strip_parent_path path) int64_max 0 0.

Definition add_file (path : string) (m : BagMetadata) : BagMetadata :=
  set_files (relative_file_paths m ++ [strip_parent_path path]) (files m ++ [new_file path]) m.

Section SequentialWriter.
Context {S : Type} `{ReadWriteInterface S} (env : WriterEnvironment S).

Record SequentialWriter := mkWriter {
  base_folder_ : string;
  storage_ : option S;
  converter_ : option Converter;
  caches : Caches;
  use_cache_ : bool;
  storage_options_ : StorageOptions;
  topics_names_to_info_ : gmap string TopicInformation;
  topic_names_to_message_definitions_ : gmap string MessageDefinition;
  metadata_ : BagMetadata;
  is_first_message_ : bool;
  is_open_ : bool;
  callbacks_ : list BagEventCallback;
  split_events : list (nat * BagSplitInfo);
  closed_storages : list S;
  written_metadata : list (string * BagMetadata);
}.

Definition new_writer : SequentialWriter :=
  mkWriter "" None None NoCache false (default_options "") ∅ ∅ empty_metadata true false [] [] [] [].

Definition set_base (folder : string) (o : StorageOptions) (w : SequentialWriter) : SequentialWriter :=
  mkWriter folder (storage_ w) (converter_ w) (caches w) (use_cache_ w) o (topics_names_to_info_ w)
    (topic_names_to_message_definitions_ w) (metadata_ w) (is_first_message_ w) (is_open_ w) (callbacks_ w) (split_events w) (closed_storages w) (written_metadata w).
Definition set_storage (s : option S) (w : SequentialWriter) : SequentialWriter :=
  mkWriter (base_folder_ w) s (converter_ w) (caches w) (use_cache_ w) (storage_options_ w) (topics_names_to_info_ w)
    (topic_names_to_message_definitions_ w) (metadata_ w) (is_first_message_ w) (is_open_ w) (callbacks_ w) (split_events w) (closed_storages w) (written_metadata w).
(** The storage is let go. *)
Definition replace_storage (s : option S) (w : SequentialWriter) : SequentialWriter :=
  mkWriter (base_folder_ w) s (converter_ w) (caches w) (use_cache_ w) (storage_options_ w) (topics_names_to_info_ w)
    (topic_names_to_message_definitions_ w) (metadata_ w) (is_first_message_ w) (is_open_ w) (callbacks_ w) (split_events w)
    (closed_storages w ++ option_list (storage_ w)) (written_metadata w).
Definition set_converter (c : option Converter) (w : SequentialWriter) : SequentialWriter :=
  mkWriter (base_folder_ w) (storage_ w) c (caches w) (use_cache_ w) (storage_options_ w) (topics_names_to_info_ w)
    (topic_names_to_message_definitions_ w) (metadata_ w) (is_first_message_ w) (is_open_ w) (callbacks_ w) (split_events w) (closed_storages w) (written_metadata w).
Definition set_caches (c : Caches) (w : SequentialWriter) : SequentialWriter :=
  mkWriter (base_folder_ w) (storage_ w) (converter_ w) c (use_cache_ w) (storage_options_ w) (topics_names_to_info_ w)
    (topic_names_to_message_definitions_ w) (metadata_ w) (is_first_message_ w) (is_open_ w) (callbacks_ w) (split_events w) (closed_storages w) (written_metadata w).
Definition set_use_cache (b : bool) (w : SequentialWriter) : SequentialWriter :=
  mkWriter (base_folder_ w) (storage_ w) (converter_ w) (caches w) b (storage_options_ w) (topics_names_to_info_ w)
    (topic_names_to_message_definitions_ w) (metadata_ w) (is_first_message_ w) (is_open_ w) (callbacks_ w) (split_events w) (closed_storages w) (written_metadata w).
Definition set_topics (t : gmap string TopicInformation) (d : gmap string MessageDefinition) (w : SequentialWriter) : SequentialWriter :=
  mkWriter (base_folder_ w) (storage_ w) (converter_ w) (caches w) (use_cache_ w) (storage_options_ w) t
    d (metadata_ w) (is_first_message_ w) (is_open_ w) (callbacks_ w) (split_events w) (closed_storages w) (written_metadata w).
Definition set_metadata (m : BagMetadata) (w : SequentialWriter) : SequentialWriter :=
  mkWriter (base_folder_ w) (storage_ w) (converter_ w) (caches w) (use_cache_ w) (storage_options_ w) (topics_names_to_info_ w)
    (topic_names_to_message_definitions_ w) m (is_first_message_ w) (is_open_ w) (callbacks_ w) (split_events w) (closed_storages w) (written_metadata w).
Definition set_first (b : bool) (w : SequentialWriter) : SequentialWriter :=
  mkWriter (base_folder_ w) (storage_ w) (converter_ w) (caches w) (use_cache_ w) (storage_options_ w) (topics_names_to_info_ w)
    (topic_names_to_message_definitions_ w) (metadata_ w) b (is_open_ w) (callbacks_ w) (split_events w) (closed_storages w) (written_metadata w).
Definition set_open (b : bool) (w : SequentialWriter) : SequentialWriter :=
  mkWriter (base_folder_ w) (storage_ w) (converter_ w) (caches w) (use_cache_ w) (storage_options_ w) (topics_names_to_info_ w)
    (topic_names_to_message_definitions_ w) (metadata_ w) (is_first_message_ w) b (callbacks_ w) (split_events w) (closed_storages w) (written_metadata w).
Definition set_callbacks (l : list BagEventCallback) (w : SequentialWriter) : SequentialWriter :=
  mkWriter (base_folder_ w) (storage_ w) (converter_ w) (caches w) (use_cache_ w) (storage_options_ w) (topics_names_to_info_ w)
    (topic_names_to_message_definitions_ w) (metadata_ w) (is_first_message_ w) (is_open_ w) l (split_events w) (closed_storages w) (written_metadata w).
Definition add_split (closed opened : string) (w : SequentialWriter) : SequentialWriter :=
  mkWriter (base_folder_ w) (storage_ w) (converter_ w) (caches w) (use_cache_ w) (storage_options_ w) (topics_names_to_info_ w)
    (topic_names_to_message_definitions_ w) (metadata_ w) (is_first_message_ w) (is_open_ w) (callbacks_ w)
    (split_events w ++ execute_callbacks WRITE_SPLIT (mkSplit closed opened) (callbacks_ w)) (closed_storages w) (written_metadata w).
Definition add_written (w : SequentialWriter) : SequentialWriter :=
  mkWriter (base_folder_ w) (storage_ w) (converter_ w) (caches w) (use_cache_ w) (storage_options_ w) (topics_names_to_info_ w)
    (topic_names_to_message_definitions_ w) (metadata_ w) (is_first_message_ w) (is_open_ w) (callbacks_ w) (split_events w) (closed_storages w)
    (written_metadata w ++ [(base_folder_ w, metadata_ w)]).

Notation M := (ST SequentialWriter WriterError).

Definition the_storage : M S := w ← get; match storage_ w with Some s => mret s | None => throw NullPointer end.
Definition put_storage (s : S) : M unit := modify (set_storage (Some s)).

(** Both maps have the same topics. *)
Definition topic_definition (w : SequentialWriter) (name : string) : MessageDefinition :=
  default (mkDefinition "" "" "" "") (topic_names_to_message_definitions_ w !! name).

(** ** The thread *)

Definition count_topic (topic : string) (t : gmap string TopicInformation) : gmap string TopicInformation :=
  alter (fun i => mkTopicInformation (topic_metadata i) (u64 (topic_message_count i + 1))) topic t.

(** The callback of the consumer. *)
Definition write_messages (messages : list BagMessage) : M unit :=
  match messages with
  | [] => mret tt
  | _ =>
    s ← the_storage;
    put_storage (storage_write messages s);;
    modify (fun w => set_topics (foldl (fun t m => count_topic (topic_name m) t) (topics_names_to_info_ w) messages)
                       (topic_names_to_message_definitions_ w) w)
  end.

(** A step of the consumer's thread, and what it hands to the callback. *)
Definition consumer_step {C} `{MessageCacheInterface C} (c : CacheConsumer C) : option (CacheConsumer C * list BagMessage) :=
  c' ← exec_consuming_step c;
  Some (c', if bool_decide (point c = Consuming) then consumer_data (message_cache_ c) else []).

(** Whether the thread had a step to take. *)
Definition thread_step : M bool :=
  w ← get;
  match (match caches w with
         | NoCache => None
         | Plain c => p ← consumer_step c; Some (Plain p.1, p.2)
         | Snapshot c => p ← consumer_step c; Some (Snapshot p.1, p.2)
         end) with
  | None => mret false
  | Some (c, messages) => modify (set_caches c);; write_messages messages;; mret true
  end.

Definition change_consumer (f : forall C : Type, MessageCacheInterface C -> CacheConsumer C -> CacheConsumer C) : M unit :=
  modify (fun w => set_caches (on_consumer f (caches w)) w).

(** The thread runs until it has ended. *)
Fixpoint finish_thread (fuel : nat) : M unit :=
  match fuel with
  | O => throw Unfinished
  | Datatypes.S fuel => moved ← thread_step; if moved : bool then finish_thread fuel else mret tt
  end.

(** [CacheConsumer::stop]; its thread takes ten steps at most. *)
Definition stop_consumer : M unit :=
  change_consumer (fun C _ => stop_begins);;
  change_consumer (fun C _ => stop_issues);;
  finish_thread 11;;
  change_consumer (fun C _ => stop_joins).

Definition start_consumer : M unit := change_consumer (fun C _ => start).

(** [message_cache_->push]. *)
Definition push_message (m : BagMessage) (C : Type) `{MessageCacheInterface C} (c : CacheConsumer C) : CacheConsumer C :=
  continue_push 0 (continue_push 0 (continue_push 0 (begin_push m c).2)).

Definition push_cache (m : BagMessage) : M unit :=
  w ← get;
  match caches w with
  | NoCache => throw NullPointer
  | _ => change_consumer (push_message m)
  end.

(** ** Opening *)

Definition init_metadata (s : S) : M unit :=
  modify (fun w =>
    let path := get_relative_file_path s in
    set_metadata (mkMetadata 9 0 (get_storage_identifier s) [strip_parent_path path] [new_file path] 0 int64_max 0 [] "" ""
      (options_custom_data (storage_options_ w)) (ROS_DISTRO env)) w).

Definition open_caches (o : StorageOptions) : Caches :=
  if 0 <? max_cache_size o then
    if snapshot_mode o then Snapshot (new_consumer (new_circular_cache (max_cache_size o)))
    else Plain (new_consumer (new_cache (max_cache_size o)))
  else NoCache.

(** The part after the folder was made. *)
Definition open_storage (options : StorageOptions) : M unit :=
  modify (fun w => set_base (base_folder_ w) (set_uri (format_storage_uri (base_folder_ w) 0) (storage_options_ w)) w);;
  w ← get;
  modify (replace_storage (open_read_write env (storage_options_ w)));;
  match open_read_write env (storage_options_ w) with
  | None => throw NoStorage
  | Some s =>
    if negb (max_bagfile_size options =? 0) && (max_bagfile_size options <? get_minimum_split_file_size s) then throw SplitSizeTooSmall else
    modify (set_use_cache (0 <? max_cache_size options));;
    if snapshot_mode options && negb (0 <? max_cache_size options) then throw SnapshotWithoutCache else
    (if 0 <? max_cache_size options then modify (set_caches (open_caches options)) else mret tt);;
    init_metadata s;;
    w ← get;
    put_storage (storage_update_metadata (metadata_ w) s);;
    modify (set_open true)
  end.

Definition open (options : StorageOptions) (converter_options : ConverterOptions) : M unit :=
  w ← get;
  if is_open_ w then mret tt else
  modify (set_base (uri options) (if String.eqb (storage_id options) "" then set_storage_id (default_storage_id env) options else options));;
  (if String.eqb (output_serialization_format converter_options) (input_serialization_format converter_options) then mret tt else
   match new_converter (writer_formats env) converter_options with
   | Some c => modify (set_converter (Some c))
   | None => throw NoConverter
   end : M unit);;
  if folder_exists env (uri options) then throw DirectoryExists else
  if negb (create_directories env (uri options)) then throw DirectoryNotCreated else
  open_storage options.

(** ** Topics *)

Definition create_topic_with (topic : TopicMetadata) (definition : MessageDefinition) : M unit :=
  w ← get;
  match topics_names_to_info_ w !! tm_name topic with
  | Some _ => mret tt
  | None =>
    if negb (is_open_ w) then throw NotOpen else
    modify (fun w => set_topics (<[tm_name topic := mkTopicInformation topic 0]> (topics_names_to_info_ w))
      (match topic_names_to_message_definitions_ w !! tm_name topic with
       | Some _ => topic_names_to_message_definitions_ w
       | None => <[tm_name topic := definition]> (topic_names_to_message_definitions_ w)
       end) w);;
    s ← the_storage;
    put_storage (storage_create_topic topic definition s);;
    modify (fun w => set_converter (converter_add_topic (tm_name topic) (tm_type topic) <$> converter_ w) w)
  end.

Definition create_topic (topic : TopicMetadata) : M unit :=
  w ← get;
  match topics_names_to_info_ w !! tm_name topic with
  | Some _ => mret tt
  | None =>
    let topic_type := if is_service_event_topic (tm_name topic) (tm_type topic)
                      then service_event_topic_type_to_service_type (tm_type topic) else tm_type topic in
    create_topic_with topic (default (empty_message_definition_for topic_type) (get_full_text env topic_type))
  end.

Definition remove_topic (topic : TopicMetadata) : M unit :=
  w ← get;
  if negb (is_open_ w) then throw NotOpen else
  let info := topics_names_to_info_ w !! tm_name topic in
  let definition := topic_names_to_message_definitions_ w !! tm_name topic in
  modify (fun w => set_topics (delete (tm_name topic) (topics_names_to_info_ w))
    (if info then delete (tm_name topic) (topic_names_to_message_definitions_ w) else topic_names_to_message_definitions_ w) w);;
  match info, definition with
  | Some _, Some _ => s ← the_storage; put_storage (storage_remove_topic topic s)
  | _, _ => throw TopicMissing
  end.

(** ** Splitting *)

(** The part with the storages. *)
Definition roll_over : M unit :=
  s ← the_storage;
  modify (fun w => set_storage (Some (storage_update_metadata (metadata_ w) s)) w);;
  modify (fun w => set_base (base_folder_ w)
    (set_uri (format_storage_uri (base_folder_ w) (Z.of_nat (length (relative_file_paths (metadata_ w))))) (storage_options_ w)) w);;
  w ← get;
  modify (replace_storage (open_read_write env (storage_options_ w)));;
  match open_read_write env (storage_options_ w) with
  | None => throw RolloverFailed
  | Some s =>
    put_storage (foldl (fun s t => storage_create_topic (topic_metadata t.2) (topic_definition w t.1) s)
      (storage_update_metadata (metadata_ w) s) (map_to_list (topics_names_to_info_ w)))
  end.

Definition switch_to_next_storage : M unit :=
  w ← get;
  (if use_cache_ w then stop_consumer else mret tt);;
  roll_over;;
  (if use_cache_ w then start_consumer else mret tt).

Definition split_bagfile_local (callbacks : bool) : M string :=
  s ← the_storage;
  let closed := get_relative_file_path s in
  switch_to_next_storage;;
  s ← the_storage;
  let opened := get_relative_file_path s in
  modify (fun w => set_metadata (add_file opened (metadata_ w)) w);;
  (if callbacks then modify (add_split closed opened) else mret tt);;
  mret opened.

Definition split_bagfile : M unit := opened ← split_bagfile_local true; mret tt.

(** ** Writing *)

Definition message_within_accepted_time_range (o : StorageOptions) (t : Z) : bool :=
  negb ((0 <=? start_time_ns o) && (t <? start_time_ns o)) && negb ((0 <=? end_time_ns o) && (end_time_ns o <? t)).

Definition should_split_bagfile (t : Z) : M bool :=
  w ← get;
  let o := storage_options_ w in
  by_size ← (if max_bagfile_size o =? 0 then mret false else s ← the_storage; mret (max_bagfile_size o <=? get_bagfile_size s) : M bool);
  if max_bagfile_duration o =? 0 then mret by_size else
  match last (files (metadata_ w)) with
  | None => throw NullPointer
  | Some f => mret (by_size || (i64 (i64 (max_bagfile_duration o) * 1000000000) <? i64 (t - file_starting_time f)))
  end.

Definition get_writeable_message (m : BagMessage) : M BagMessage :=
  w ← get;
  match converter_ w with
  | None => mret m
  | Some c => match convert (writer_formats env) c m with Some m => mret m | None => throw UnknownTopic end
  end.

(** The storage or the cache gets the message. *)
Definition store_message (topic : string) (m : BagMessage) : M unit :=
  w ← get;
  if max_cache_size (storage_options_ w) =? 0 then
    s ← the_storage;
    put_storage (storage_write [m] s);;
    modify (fun w => set_topics (count_topic topic (topics_names_to_info_ w)) (topic_names_to_message_definitions_ w) w)
  else push_cache m.

(** The part after the checks. *)
Definition write_accepted (m : BagMessage) : M unit :=
  let t := recv_timestamp m in
  modify (fun w => if is_first_message_ w then set_first false (set_metadata (set_starting_time t (metadata_ w)) w) else w);;
  split ← should_split_bagfile t;
  (if split : bool then split_bagfile;; modify (fun w => set_metadata (on_back (back_starts t) (metadata_ w)) w) else mret tt : M unit);;
  modify (fun w => set_metadata (note_message t (metadata_ w)) w);;
  converted ← get_writeable_message m;
  modify (fun w => set_metadata (on_back back_counts (metadata_ w)) w);;
  store_message (topic_name m) converted.

Definition write (m : BagMessage) : M unit :=
  w ← get;
  if negb (is_open_ w) then throw NotOpen else
  if negb (message_within_accepted_time_range (storage_options_ w) (recv_timestamp m)) then mret tt else
  match topics_names_to_info_ w !! topic_name m with
  | None => throw UnknownTopic
  | Some _ => write_accepted m
  end.

Definition take_snapshot : M bool :=
  w ← get;
  if negb (snapshot_mode (storage_options_ w)) then mret false else
  match caches w with
  | NoCache => throw NullPointer
  | _ => change_consumer (fun C _ => CacheConsumer.take_snapshot);; mret true
  end.

(** ** Closing *)

Definition finalize_metadata : M unit :=
  modify (fun w =>
    let m := metadata_ w in
    let topics := (map_to_list (topics_names_to_info_ w)).*2 in
    set_metadata (set_totals (foldl (fun n path => u64 (n + default 0 (file_size env path))) 0 (relative_file_paths m))
      (foldl (fun n t => u64 (n + topic_message_count t)) 0 topics) topics m) w).

(** The part after the thread has stopped. *)
Definition close_bag : M unit :=
  w ← get;
  (if String.eqb (base_folder_ w) "" then mret tt else
   finalize_metadata;;
   modify (fun w => set_storage (storage_update_metadata (metadata_ w) <$> storage_ w) w);;
   modify add_written : M unit);;
  modify (replace_storage None);;
  modify (fun w =>
    match last (relative_file_paths (metadata_ w)) with
    | Some path => add_split (generic_string (path_join (base_folder_ w) path)) "" w
    | None => w
    end);;
  modify (set_topics ∅ ∅);;
  modify (set_converter None).

Definition close : M unit :=
  w ← get;
  if negb (is_open_ w) then mret tt else
  modify (set_open false);;
  (if use_cache_ w then stop_consumer;; modify (set_caches NoCache) else mret tt : M unit);;
  close_bag.

(** The destructor. *)
Definition destroy : M unit := modify (set_callbacks []);; close.

Definition add_event_callbacks (cb : option BagEventCallback) : M unit :=
  match cb with
  | Some cb => modify (fun w => set_callbacks (add_event_callback cb (callbacks_ w)) w)
  | None => mret tt
  end.
End SequentialWriter.
Arguments SequentialWriter S : clear implicits.
