(* ===== verification/SequentialWriterFacts.v ===== *)
(** * The files of a recording

    Theorems about [SequentialWriter]: what was accepted is in the files, in
    the cache, or counted as dropped ([recording_conserves]), and all of it is
    in files after [close] ([close_writes_everything]) and after a split
    ([split_flushes]).

    The proofs rest on the invariants of the thread ([CacheConsumer]): the
    writer's files are what the thread has written ([faithful]).  Both kinds of
    caches are treated at once ([CacheKind]); a property of files and caches is
    carried through the calls by [file_property]. *)

From Stdlib Require Import ZArith Lia Ascii String.
From stdpp Require Import base numbers list gmap strings.
From S2P Require Import Prelude Computation BagCache CacheConsumer BagStorage SequentialWriter.
#[local] Open Scope Z_scope.

(** ** What was accepted *)

Section Recording.
Context {S : Type} `{WriteLaws S} (env : WriterEnvironment S).

(** New storages are empty. *)
Context (fresh : forall o s, open_read_write env o = Some s -> stored s = []).

(** What is in the files. *)
Definition in_files (w : SequentialWriter S) : list BagMessage :=
  concat (stored <$> closed_storages w) ++ from_option stored [] (storage_ w).

(** A cache, with the files it was emptied into; [log] was pushed. *)
Definition cached {C} `{MessageCacheInterface C} (c0 : C) (log : list (BagMessage * bool)) (files : list BagMessage) (st : Stage)
    (c : CacheConsumer C) : Prop :=
  one_by_one (new_consumer c0) log c /\ files = concat (written c) /\ stage c = st /\ Forall (fun steps => steps = []) (pushes c).

Section Cached.
Context {C : Type} `{MessageCacheInterface C} (c0 : C).

Lemma cached_other log files st c c' :
  cached c0 log files st c -> other_step [] c c' -> written c' = written c -> pushes c' = pushes c -> cached c0 log files (stage c') c'.
Proof.
  intros (Hl & Hf & Hst & Hp) Ho Hw Hps. split_and!; [|by rewrite Hw|done|by rewrite Hps].
  rewrite <- (app_nil_r log). by eapply one_other.
Qed.

Lemma consumer_step_keeps (c c' : CacheConsumer C) batch : consumer_step c = Some (c', batch) ->
  exec_consuming_step c = Some c' /\ concat (written c') = concat (written c) ++ batch /\ stage c' = stage c /\ pushes c' = pushes c.
Proof.
  unfold consumer_step, exec_consuming_step. destruct (point c) eqn:Hpt; simpl; try done.
  - destruct (wait_for_data _); intros [= <- <-]; simpl; by rewrite app_nil_r.
  - destruct (wake _); intros; simplify_eq/=. by rewrite app_nil_r.
  - intros [= <- <-]. simpl. by rewrite app_nil_r.
  - intros [= <- <-]. simpl. rewrite concat_app. simpl. by rewrite app_nil_r.
  - intros [= <- <-]. simpl. by rewrite app_nil_r.
Qed.

Lemma cached_thread log files st c c' batch :
  cached c0 log files st c -> consumer_step c = Some (c', batch) -> cached c0 log (files ++ batch) st c'.
Proof.
  intros (Hl & Hf & Hst & Hp) (Ht & Hw & Hst' & Hp')%consumer_step_keeps.
  unfold cached. rewrite Hw, Hst', Hp', Hf. split_and!; [by eapply one_thread|done..].
Qed.

Lemma returned_pushes (c : CacheConsumer C) : Forall (fun steps => steps = []) (pushes c) -> concat (pushes c) = [].
Proof. by induction 1 as [|l ls -> _ IH]. Qed.

Lemma continue_push_keeps i (c : CacheConsumer C) :
  written (continue_push i c) = written c /\ stage (continue_push i c) = stage c /\ point (continue_push i c) = point c.
Proof. destruct (continue_push_cases i c) as [->|(step & steps & Hi)]; [done|]. by rewrite (continue_push_eq i c _ _ Hi). Qed.

Lemma push_message_keeps m (c : CacheConsumer C) :
  written (push_message m C c) = written c /\ stage (push_message m C c) = stage c /\ point (push_message m C c) = point c.
Proof.
  unfold push_message. repeat match goal with |- context [continue_push ?i ?d] => destruct (continue_push_keeps i d) as (-> & -> & ->) end.
  unfold begin_push. by destruct (push m (message_cache_ c)).
Qed.

Lemma cached_push m log files st c : pushes (push_message m C c) = [] :: pushes c ->
  cached c0 log files st c -> cached c0 (log ++ [(m, (begin_push m c).1)]) files st (push_message m C c).
Proof.
  intros Hret (Hl & Hf & Hst & Hp).
  assert (Hb : one_by_one (new_consumer c0) (log ++ [(m, (begin_push m c).1)]) (begin_push m c).2)
    by (eapply one_other; [done|constructor|intros _; by apply returned_pushes]).
  destruct (push_message_keeps m c) as (Ew & Est & _). unfold cached. rewrite Hret, Ew, Est. split_and!; [|done|done|by constructor].
  unfold push_message. do 3 (rewrite <- (app_nil_r (log ++ _)); eapply one_other; [|constructor|done]). done.
Qed.
End Cached.

(** The two kinds of caches. *)
Class CacheKind (C : Type) `{MessageCacheLaws C} := {
  wrap : CacheConsumer C -> Caches;
  kind_new : Z -> C;
  wrap_inj c c' : wrap c = wrap c' -> c = c';
  wrap_change f c : on_consumer f (wrap c) = wrap (f C _ c);
  wrap_step (w : SequentialWriter S) c : caches w = wrap c ->
    thread_step w = (match consumer_step c with
                     | None => mret false
                     | Some (c, messages) => modify (set_caches (wrap c));; write_messages messages;; mret true
                     end) w;
  wrap_push m (w : SequentialWriter S) c : caches w = wrap c -> push_cache m w = change_consumer (push_message m) w;
  wrap_returns m c : pushes (push_message m C c) = [] :: pushes c;
}.

#[local] Instance Plain_kind : CacheKind MessageCache.
Proof.
  refine {| wrap := Plain; kind_new := new_cache |}; try done.
  - by intros c c' [= ->].
  - intros w c Hc. unfold thread_step. rewrite get_bind, Hc. by destruct (consumer_step c) as [[c' l]|].
  - intros m w c Hc. unfold push_cache. by rewrite get_bind, Hc.
  - intros m c. unfold push_message, begin_push. simpl. unfold cache_push, buffer_push. by destruct (drop_messages_ _).
Defined.

#[local] Instance Snapshot_kind : CacheKind CircularMessageCache.
Proof.
  refine {| wrap := Snapshot; kind_new := new_circular_cache |}; try done.
  - by intros c c' [= ->].
  - intros w c Hc. unfold thread_step. rewrite get_bind, Hc. by destruct (consumer_step c) as [[c' l]|].
  - intros m w c Hc. unfold push_cache. by rewrite get_bind, Hc.
  - intros m c. unfold push_message, begin_push. simpl. by destruct (circular_cache_push m (message_cache_ c)).
Defined.

(** What the steps of the thread leave alone. *)
Record same_writer (w w' : SequentialWriter S) : Prop := {
  same_options : storage_options_ w' = storage_options_ w;
  same_metadata : metadata_ w' = metadata_ w;
  same_closed : closed_storages w' = closed_storages w;
  same_folder : base_folder_ w' = base_folder_ w;
  same_storage : storage_ w' = None <-> storage_ w = None;
  same_converter : converter_ w' = converter_ w;
}.

#[export] Instance same_writer_preorder : PreOrder same_writer.
Proof. split; [by split|]. intros w1 w2 w3 [] []. split; try congruence. by etrans. Qed.

Section Kind.
Context {C : Type} `{CacheKind C}.

(** [log] was pushed. *)
Record faithful (st : Stage) (log : list (BagMessage * bool)) (w : SequentialWriter S) (c : CacheConsumer C) : Prop := {
  faithful_caches : caches w = wrap c;
  faithful_size : max_cache_size (storage_options_ w) <> 0;
  faithful_use : use_cache_ w = true;
  faithful_cached : cached (kind_new (max_cache_size (storage_options_ w))) log (in_files w) st c;
  faithful_storage : storage_ w = None -> point c = Joined;
}.

Lemma write_messages_spec l (w : SequentialWriter S) : (storage_ w = None -> l = []) ->
  exists w', write_messages l w = (Ok tt, w') /\ in_files w' = in_files w ++ l /\ caches w' = caches w /\ use_cache_ w' = use_cache_ w /\ same_writer w w'.
Proof.
  intros Hn. destruct l as [|m l]; [exists w; rewrite app_nil_r; by split_and!|].
  destruct (storage_ w) as [s|] eqn:Hs; [|by discriminate Hn]. unfold write_messages, the_storage, put_storage, mbind, ST_bind, get, modify, mret, ST_ret.
  rewrite Hs. eexists. split_and!; [done| |done|done|].
  - unfold in_files. simpl. rewrite Hs. simpl. by rewrite stored_write, <- app_assoc.
  - split; simpl; try done. by rewrite Hs.
Qed.

Lemma thread_step_spec st log w c :
  faithful st log w c ->
  exists w', same_writer w w' /\
    match consumer_step c with
    | None => thread_step w = (Ok false, w') /\ faithful st log w' c
    | Some (c', _) => thread_step w = (Ok true, w') /\ faithful st log w' c'
    end.
Proof.
  intros [F1 F2 F3 F4 F5]. rewrite (wrap_step w c F1). destruct (consumer_step c) as [[c' l]|] eqn:E; [|by exists w; split_and!].
  set (w1 := set_caches (wrap c') w). destruct (write_messages_spec l w1) as (w' & E' & Hf & Hc & Hu & Hw).
  { intros Hn. unfold consumer_step, exec_consuming_step in E. by rewrite (F5 Hn) in E. }
  exists w'. assert (Hs : same_writer w w') by (by transitivity w1; [split|]). split; [done|]. split.
  - rewrite (bind_ok _ _ _ w1 tt) by done. by rewrite (bind_ok _ _ _ _ _ E').
  - split; [by rewrite Hc|by rewrite (same_options _ _ Hs)|by rewrite Hu|rewrite (same_options _ _ Hs), Hf; by eapply cached_thread|].
    intros Hn%(same_storage _ _ Hs). unfold consumer_step, exec_consuming_step in E. by rewrite (F5 Hn) in E.
Qed.

(** What another thread does to the cache. *)
Lemma change_consumer_spec f st log w c :
  faithful st log w c -> other_step [] c (f C _ c) -> written (f C _ c) = written c -> pushes (f C _ c) = pushes c ->
  (point c = Joined -> storage_ w = None -> point (f C _ c) = Joined) ->
  exists w', change_consumer f w = (Ok tt, w') /\ same_writer w w' /\ faithful (stage (f C _ c)) log w' (f C _ c).
Proof.
  intros [F1 F2 F3 F4 F5] Ho Hw Hp Hj. eexists. split; [done|]. split; [by split|]. split; simpl; try done.
  - by rewrite F1, wrap_change.
  - by eapply cached_other.
  - auto.
Qed.

Lemma finish_thread_spec n : forall log w c,
  faithful Issued log w c -> stopping c -> (steps_left c < n)%nat ->
  exists w' c' k, finish_thread n w = (Ok tt, w') /\ same_writer w w' /\ faithful Issued log w' c' /\ waiting c k c' /\
    (point c' = Ended \/ point c' = Joined).
Proof.
  induction n as [|n IH]; intros log w c Hf Hst Hn; [lia|]. destruct (thread_step_spec Issued log w c Hf) as (w1 & Hs & Hstep).
  cbn [finish_thread]. destruct (consumer_step c) as [[c1 l]|] eqn:E.
  - destruct Hstep as [Ew Hf1]. rewrite (bind_ok _ _ _ _ _ Ew). pose proof (consumer_step_keeps c c1 l E) as (Et & _ & _ & _).
    destruct (stopping_thread c c1 Hst Et) as [Hst1 Hle]. destruct (IH log w1 c1 Hf1 Hst1) as (w2 & c2 & k & E2 & Hs2 & Hf2 & Hw2 & Hp2); [lia|].
    exists w2, c2, (Datatypes.S k). split_and!; [done|by transitivity w1|done| |done].
    clear -Et Hw2. induction Hw2 as [|k l s1 s2 _ IH Ho Hi|k s1 s2 _ IH Ht].
    + eapply waiting_thread; [constructor|done].
    + by eapply waiting_other.
    + by eapply waiting_thread.
  - destruct Hstep as [Ew Hf1]. rewrite (bind_ok _ _ _ _ _ Ew). exists w1, c, 0%nat. split_and!; [done|done|done|constructor|].
    destruct (stopping_moves c Hst) as [?|[?|[c' Hm]]]; [by left|by right|]. unfold consumer_step in E. by rewrite Hm in E.
Qed.

(** [stop] returns, with the thread joined; [c1] is the cache when the stop
    was issued. *)
Lemma stop_consumer_spec log w c :
  faithful Working log w c ->
  exists w' c', stop_consumer w = (Ok tt, w') /\ same_writer w w' /\ faithful Working log w' c' /\ point c' = Joined /\
    exists c1 c2 k, waiting c1 k c2 /\ c1 = stop_issues (stop_begins c) /\ (point c2 = Ended \/ point c2 = Joined) /\ c' = stop_joins c2.
Proof.
  intros Hf. pose proof (faithful_cached _ _ _ _ Hf) as (Hl & _ & Hst & _). unfold stop_consumer.
  destruct (change_consumer_spec (fun C _ => stop_begins) Working log w c Hf) as (w1 & E1 & S1 & F1); [by constructor|done|done|done|].
  rewrite (bind_ok _ _ _ _ _ E1).
  destruct (change_consumer_spec (fun C _ => stop_issues) Flushing log w1 (stop_begins c) F1) as (w2 & E2 & S2 & F2); [by constructor|done|done|done|].
  rewrite (bind_ok _ _ _ _ _ E2).
  assert (Hstop : stopping (stop_issues (stop_begins c))).
  { eapply (issue_stopping (kind_new (max_cache_size (storage_options_ w)))); [|done].
    eapply later_other; [by apply one_by_one_later|by constructor]. }
  destruct (finish_thread_spec 11 log w2 _ F2 Hstop) as (w3 & c3 & k & E3 & S3 & F3 & W3 & P3).
  { unfold steps_left. simpl. destruct (point c), (flushing c); lia. }
  rewrite (bind_ok _ _ _ _ _ E3). pose proof (faithful_cached _ _ _ _ F3) as (_ & _ & Hst3 & _).
  destruct (change_consumer_spec (fun C _ => stop_joins) Issued log w3 c3 F3) as (w4 & E4 & S4 & F4); [by constructor|done|done|done|].
  exists w4, (stop_joins c3). split_and!; [done|by do 3 (etrans; [done|])|done|done|]. by exists (stop_issues (stop_begins c)), c3, k.
Qed.

Lemma start_consumer_spec log w c : faithful Working log w c -> storage_ w <> None ->
  exists w', start_consumer w = (Ok tt, w') /\ same_writer w w' /\ faithful Working log w' (start c).
Proof.
  intros Hf Hs. pose proof (faithful_cached _ _ _ _ Hf) as (_ & _ & Hst & _).
  assert (Hw : written (start c) = written c /\ pushes (start c) = pushes c /\ stage (start c) = stage c) by (unfold start; by case_bool_decide).
  destruct Hw as (Hw & Hp & Hst'). destruct (change_consumer_spec (fun C _ => start) Working log w c Hf) as (w' & E & Hsame & Hf');
    [by constructor|done|done|done|]. rewrite Hst', Hst in Hf'. by exists w'.
Qed.
End Kind.

(** *** The storages *)

(** What the next storage is opened with. *)
Definition next_options (w : SequentialWriter S) : StorageOptions :=
  set_uri (format_storage_uri (base_folder_ w) (Z.of_nat (length (relative_file_paths (metadata_ w))))) (storage_options_ w).

Lemma stored_creates (w : SequentialWriter S) l s :
  stored (foldl (fun s (t : string * TopicInformation) => storage_create_topic (topic_metadata t.2) (topic_definition w t.1) s) s l) = stored s.
Proof. revert s. induction l as [|t l IH]; intros s; simpl; [done|]. by rewrite IH, stored_create. Qed.

(** What has nothing to do with files leaves [faithful]. *)
Record same_files (w w' : SequentialWriter S) : Prop := {
  files_caches : caches w' = caches w;
  files_use : use_cache_ w' = use_cache_ w;
  files_size : max_cache_size (storage_options_ w') = max_cache_size (storage_options_ w);
  files_stored : in_files w' = in_files w;
}.

#[export] Instance same_files_preorder : PreOrder same_files.
Proof. split; [by split|]. intros w1 w2 w3 [] []. split; congruence. Qed.

Lemma roll_over_spec w s :
  storage_ w = Some s ->
  exists w', same_files w w' /\
    match open_read_write env (next_options w) with
    | None => roll_over env w = (Throw RolloverFailed, w') /\ storage_ w' = None
    | Some _ => roll_over env w = (Ok tt, w') /\ concat (stored <$> closed_storages w') = in_files w /\
                  exists s', storage_ w' = Some s' /\ stored s' = []
    end.
Proof.
  intros Hs. unfold roll_over, the_storage, put_storage, mbind, ST_bind, get, modify, mret, ST_ret. rewrite Hs. cbn.
  fold (next_options w).
  assert (Hclosed : concat (stored <$> closed_storages w ++ [storage_update_metadata (metadata_ w) s]) = in_files w).
  { unfold in_files. rewrite Hs, fmap_app, concat_app. simpl. by rewrite stored_update, app_nil_r. }
  destruct (open_read_write env (next_options w)) as [s'|] eqn:E.
  - eexists. split; [|split; [done|split; [exact Hclosed|eexists; split; [done|]]]]; simpl.
    + split; simpl; try done. unfold in_files at 1. simpl. by rewrite Hclosed, stored_creates, stored_update, (fresh _ _ E), app_nil_r.
    + by rewrite stored_creates, stored_update, (fresh _ _ E).
  - eexists. split; [|done]. split; simpl; try done. unfold in_files at 1. simpl. by rewrite Hclosed, app_nil_r.
Qed.

Lemma faithful_same {C} `{CacheKind C} st log w w' c :
  faithful st log w c -> same_files w w' -> (storage_ w' = None -> storage_ w = None \/ point c = Joined) -> faithful st log w' c.
Proof.
  intros [F1 F2 F3 F4 F5] [E1 E2 E3 E4] Hs. split; [by rewrite E1|by rewrite E3|by rewrite E2|by rewrite E3, E4|].
  intros Hn. destruct (Hs Hn); auto.
Qed.

(** Without a cache. *)
Definition uncached (acc : list BagMessage) (w : SequentialWriter S) : Prop :=
  caches w = NoCache /\ max_cache_size (storage_options_ w) = 0 /\ use_cache_ w = false /\ in_files w = acc.

Lemma uncached_same acc w w' : uncached acc w -> same_files w w' -> uncached acc w'.
Proof. intros (U1 & U2 & U3 & U4) [E1 E2 E3 E4]. unfold uncached. by rewrite E1, E2, E3, E4. Qed.

(** *** Splitting *)

(** The files are closed, except for a new one. *)
Definition split_off (files : list BagMessage) (w : SequentialWriter S) : Prop :=
  concat (stored <$> closed_storages w) = files /\ exists s, storage_ w = Some s /\ stored s = [].

(** After the switch, the metadata and the callbacks. *)
Lemma split_after_switch cb w s w1 :
  storage_ w = Some s -> switch_to_next_storage env w = (Ok tt, w1) -> storage_ w1 <> None ->
  exists path w', split_bagfile_local env cb w = (Ok path, w') /\ same_files w1 w' /\ storage_ w' = storage_ w1 /\
    closed_storages w' = closed_storages w1 /\ converter_ w' = converter_ w1.
Proof.
  intros Hs E Hn. destruct (storage_ w1) as [s1|] eqn:Hs1; [|done]. unfold split_bagfile_local.
  assert (Et : the_storage w = (Ok s, w)) by (unfold the_storage; rewrite get_bind; by rewrite Hs).
  assert (Et1 : the_storage w1 = (Ok s1, w1)) by (unfold the_storage; rewrite get_bind; by rewrite Hs1).
  rewrite (bind_ok _ _ _ _ _ Et), (bind_ok _ _ _ _ _ E), (bind_ok _ _ _ _ _ Et1).
  destruct cb; unfold mbind, ST_bind, modify, mret, ST_ret; eexists _, _; (split; [done|]); split_and!; try done; by split.
Qed.

Lemma split_failed cb w s w1 e :
  storage_ w = Some s -> switch_to_next_storage env w = (Throw e, w1) -> split_bagfile_local env cb w = (Throw e, w1).
Proof.
  intros Hs E. unfold split_bagfile_local.
  assert (Et : the_storage w = (Ok s, w)) by (unfold the_storage; rewrite get_bind; by rewrite Hs).
  by rewrite (bind_ok _ _ _ _ _ Et), (bind_throw _ _ _ _ _ E).
Qed.

Lemma split_uncached cb acc w s :
  uncached acc w -> storage_ w = Some s ->
  match open_read_write env (next_options w) with
  | None => exists w', split_bagfile_local env cb w = (Throw RolloverFailed, w') /\ uncached acc w'
  | Some _ => exists path w', split_bagfile_local env cb w = (Ok path, w') /\ uncached acc w' /\ split_off acc w'
  end.
Proof.
  intros Hu Hs. pose proof Hu as (U1 & U2 & U3 & U4). destruct (roll_over_spec w s Hs) as (w1 & Hsame & Hroll).
  pose proof (uncached_same _ _ _ Hu Hsame) as Hu1.
  destruct (open_read_write env (next_options w)).
  - destruct Hroll as (E & Hc & s' & Hs' & Hempty).
    assert (Hsw : switch_to_next_storage env w = (Ok tt, w1)).
    { unfold switch_to_next_storage. rewrite get_bind, U3. rewrite (bind_ok _ _ _ w tt) by done. by rewrite (bind_ok _ _ _ _ _ E). }
    destruct (split_after_switch cb w s w1 Hs Hsw) as (path & w' & E' & Hsame' & Es & Ec & _); [by rewrite Hs'|].
    exists path, w'. split_and!; [done|by eapply uncached_same|]. split; [rewrite Ec, Hc; by apply U4|]. exists s'. by rewrite Es.
  - destruct Hroll as [E Hnone]. exists w1. split; [|done]. apply (split_failed cb w s); [done|].
    unfold switch_to_next_storage. rewrite get_bind, U3. rewrite (bind_ok _ _ _ w tt) by done. by rewrite (bind_throw _ _ _ _ _ E).
Qed.

(** The thread has been stopped: [c1] is the cache then. *)
Definition stopped {C} `{MessageCacheInterface C} (c c1 : CacheConsumer C) : Prop :=
  point c1 = Joined /\ exists c2 k, waiting (stop_issues (stop_begins c)) k c2 /\ (point c2 = Ended \/ point c2 = Joined) /\ c1 = stop_joins c2.

Lemma split_cached {C} `{CacheKind C} cb log w c s :
  faithful Working log w c -> storage_ w = Some s ->
  exists c1, stopped c c1 /\ one_by_one (new_consumer (kind_new (max_cache_size (storage_options_ w)))) log c1 /\
  match open_read_write env (next_options w) with
  | None => exists w', split_bagfile_local env cb w = (Throw RolloverFailed, w') /\ faithful Working log w' c1 /\ storage_ w' = None
  | Some _ => exists path w', split_bagfile_local env cb w = (Ok path, w') /\ faithful Working log w' (start c1) /\
                split_off (concat (written c1)) w'
  end.
Proof.
  intros Hf Hs. destruct (stop_consumer_spec log w c Hf) as (w1 & c1 & E1 & Hsame & Hf1 & Hj & c0 & c2 & k & Hw & -> & He & Hc1).
  exists c1. split; [split; [done|by exists c2, k]|]. pose proof (faithful_cached _ _ _ _ Hf1) as (Hl1 & Hfiles & _ & _).
  split; [by rewrite (same_options _ _ Hsame) in Hl1|].
  assert (Hn : next_options w1 = next_options w). { unfold next_options. by destruct Hsame as [-> -> _ -> _ _]. }
  assert (exists s1, storage_ w1 = Some s1) as [s1 Hs1].
  { destruct (storage_ w1) as [s1|] eqn:Hs1; [by eexists|]. apply (same_storage _ _ Hsame) in Hs1. congruence. }
  destruct (roll_over_spec w1 s1 Hs1) as (w2 & Hsame2 & Hroll). rewrite Hn in Hroll.
  assert (Hf2 : faithful Working log w2 c1) by (eapply faithful_same; [done|done|by right]).
  destruct (open_read_write env (next_options w)).
  - destruct Hroll as (E & Hc & s' & Hs' & Hempty).
    destruct (start_consumer_spec log w2 c1 Hf2) as (w3 & E3 & Hsame3 & Hf3); [by rewrite Hs'|].
    assert (Hsw : switch_to_next_storage env w = (Ok tt, w3)).
    { unfold switch_to_next_storage. rewrite get_bind, (faithful_use _ _ _ _ Hf).
      by rewrite (bind_ok _ _ _ _ _ E1), (bind_ok _ _ _ _ _ E). }
    assert (Hs3 : storage_ w3 = Some s') by (injection E3 as <-; done).
    destruct (split_after_switch cb w s w3 Hs Hsw) as (path & w' & E' & Hsame' & Es & Ec & _); [by rewrite Hs3|].
    exists path, w'. split_and!; [done|eapply faithful_same; [done|done|rewrite Es, Hs3; done]|].
    split; [by rewrite Ec, (same_closed _ _ Hsame3), Hc|]. exists s'. by rewrite Es.
  - destruct Hroll as [E Hnone]. exists w2. split; [|done]. apply (split_failed cb w s); [done|].
    unfold switch_to_next_storage. rewrite get_bind, (faithful_use _ _ _ _ Hf).
    by rewrite (bind_ok _ _ _ _ _ E1), (bind_throw _ _ _ _ _ E).
Qed.

(** The cache that drops messages has nothing left. *)
Lemma stopped_flushes size log c c1 :
  one_by_one (new_consumer (new_cache size)) log c -> stage c = Working -> point c <> Joined -> stopped c c1 ->
  one_by_one (new_consumer (new_cache size)) log c1 -> concat (written c1) = accepted log /\ to_consume c1 = [] /\ produced c1 = [].
Proof.
  intros Hl%one_by_one_later Hst Hp (Hj & c2 & k & Hw & He & ->) Hl1%one_by_one_later. pose proof (recorded_conserves _ _ _ Hl1) as [Hc _].
  assert (Hb : later (new_consumer (new_cache size)) log (stop_begins c)).
  { rewrite <- (app_nil_r log). eapply later_other; [exact Hl|by apply step_stop]. }
  destruct (recorded_stage _ _ _ Hb) as [_ _ Hruns]. destruct (Hruns Hp) as (_ & Hflush & Hended); [done|].
  destruct (last_round_waiting log (stop_issues (stop_begins c)) k c2) as [Hlast _]; [|right; simpl in *; split; [congruence|done]|done|].
  { destruct (recorded_conserves _ _ _ Hb) as [C1 C2]. by split. }
  assert (Hnj : point c2 <> Joined).
  { clear -Hw Hp. induction Hw as [|k l s1 s2 _ IH Ho Hi|k s1 s2 _ IH Ht]; [done|by destruct (other_thread l s1 s2 Ho Hi) as (-> & _)|].
    unfold exec_consuming_step in Ht. destruct (point s1); simplify_eq/=; try done; try by destruct (cache_wait _).
    - by destruct (cache_wake _); simplify_eq/=.
    - by destruct (flushing s1). }
  destruct Hlast as [?|[Hlast Hend]]; [done|]. destruct He as [He|?]; [|done]. rewrite He in Hlast.
  assert (Hpre : accepted log `prefix_of` concat (written c2)) by (apply Hlast; destruct (flushing c2); [done|by destruct Hend]).
  change (concat (written (stop_joins c2))) with (concat (written c2)) in *. rewrite <- Hc in Hpre. destruct Hpre as [l Hpre].
  apply (f_equal length) in Hpre as Hlen. rewrite !length_app in Hlen.
  assert (to_consume (stop_joins c2) = [] /\ produced (stop_joins c2) = []) as [E1 E2] by (split; apply nil_length_inv; lia).
  split_and!; [|done|done]. by rewrite <- Hc, E1, E2, !app_nil_r.
Qed.

(** *** Writing *)

(** What is handed to the storage or the cache for a message. *)
Definition written_form (w : SequentialWriter S) (m : BagMessage) : option BagMessage :=
  match converter_ w with None => Some m | Some c => convert (writer_formats env) c m end.

Notation same_conversion := (fun w w' : SequentialWriter S => converter_ w' = converter_ w).

#[local] Instance same_conversion_preorder : PreOrder same_conversion.
Proof. split; [done|]. intros w1 w2 w3 E1 E2. by rewrite E2. Qed.

Lemma Keeps_modify f : (forall w, converter_ (f w) = converter_ w) -> Keeps same_conversion (modify (E := WriterError) f).
Proof. intros Hf w. apply Hf. Qed.

#[local] Hint Extern 1 (Keeps _ (modify _)) => (apply Keeps_modify; done) : keeps.

Lemma thread_step_keeps : Keeps same_conversion thread_step.
Proof.
  unfold thread_step, write_messages, the_storage, put_storage. apply Keeps_bind; [apply _|eauto with keeps|]. intros w.
  destruct (match caches w with NoCache => None | _ => _ end) as [[c l]|]; [|eauto with keeps].
  apply Keeps_bind; [apply _|eauto with keeps|]. intros _. apply Keeps_bind; [apply _| |eauto with keeps].
  destruct l; [eauto with keeps|]. apply Keeps_bind; [apply _| |].
  - apply Keeps_bind; [apply _|eauto with keeps|]. intros w'. destruct (storage_ w'); eauto with keeps.
  - intros s. apply Keeps_bind; [apply _|eauto with keeps|]. intros _. eauto with keeps.
Qed.

Lemma finish_thread_keeps n : Keeps same_conversion (finish_thread n).
Proof.
  induction n as [|n IH]; cbn [finish_thread]; [eauto with keeps|]. apply Keeps_bind; [apply _|apply thread_step_keeps|].
  intros []; eauto with keeps.
Qed.

Lemma the_storage_keeps : Keeps same_conversion the_storage.
Proof. unfold the_storage. apply Keeps_bind; [apply _|eauto with keeps|]. intros w. destruct (storage_ w); eauto with keeps. Qed.

#[local] Hint Resolve finish_thread_keeps the_storage_keeps : keeps.

Lemma split_keeps cb : Keeps same_conversion (split_bagfile_local env cb).
Proof.
  unfold split_bagfile_local, switch_to_next_storage, stop_consumer, start_consumer, change_consumer, roll_over, put_storage. keeps_steps.
Qed.

#[local] Hint Resolve split_keeps : keeps.
#[local] Hint Extern 2 (Keeps _ (modify _)) => (apply Keeps_modify; intros w; by destruct (is_first_message_ w)) : keeps.

Lemma write_accepted_keeps m : Keeps same_conversion (write_accepted env m).
Proof.
  unfold write_accepted, should_split_bagfile, split_bagfile, get_writeable_message, store_message, push_cache, change_consumer, put_storage. keeps_steps.
Qed.

(** A property of writers that only depends on files and caches. *)
Record file_property (P : SequentialWriter S -> Prop) : Prop := {
  property_same w w' : P w -> same_files w w' -> (storage_ w' = None <-> storage_ w = None) -> P w';
  property_split w s : P w -> storage_ w = Some s -> P (split_bagfile_local env true w).2;
}.

Lemma change_metadata_same f (w : SequentialWriter S) : same_files w (set_metadata (f (metadata_ w)) w).
Proof. by split. Qed.

Lemma the_storage_some (w : SequentialWriter S) s : storage_ w = Some s -> the_storage w = (Ok s, w).
Proof. intros Hs. unfold the_storage. rewrite get_bind. by rewrite Hs. Qed.

Lemma the_storage_none (w : SequentialWriter S) : storage_ w = None -> the_storage w = (Throw NullPointer, w).
Proof. intros Hs. unfold the_storage. rewrite get_bind. by rewrite Hs. Qed.

Lemma should_split_state t (w : SequentialWriter S) : (should_split_bagfile t w).2 = w.
Proof.
  unfold should_split_bagfile. rewrite get_bind. unfold mbind, ST_bind. destruct (max_bagfile_size _ =? 0); cbn.
  - destruct (max_bagfile_duration _ =? 0); [done|]. by destruct (last _).
  - destruct (storage_ w) as [s|] eqn:Hs; [rewrite (the_storage_some w s Hs)|by rewrite (the_storage_none w Hs)].
    cbn. destruct (max_bagfile_duration _ =? 0); [done|]. by destruct (last _).
Qed.

Lemma split_bagfile_spec P w : file_property P -> P w -> P (split_bagfile env w).2 /\ converter_ (split_bagfile env w).2 = converter_ w.
Proof.
  intros [Hsame Hsplit] Hw. unfold split_bagfile, mbind, ST_bind. pose proof (split_keeps true w) as Hc.
  destruct (storage_ w) as [s|] eqn:Hs.
  - specialize (Hsplit w s Hw Hs). destruct (split_bagfile_local env true w) as [[path|e] w1]; done.
  - unfold split_bagfile_local, mbind, ST_bind in *. by rewrite (the_storage_none w Hs) in *.
Qed.

(** Up to the storage or the cache. *)
Lemma write_accepted_spec P w m :
  file_property P -> P w ->
  (exists e w', write_accepted env m w = (Throw e, w') /\ P w') \/
  (exists conv w1, written_form w m = Some conv /\ P w1 /\ write_accepted env m w = store_message (topic_name m) conv w1).
Proof.
  intros HP Hw. remember (write_accepted env m w) as out eqn:Hout. unfold write_accepted in Hout.
  set (w1 := if is_first_message_ w then set_first false (set_metadata (set_starting_time (recv_timestamp m) (metadata_ w)) w) else w).
  assert (Hw1 : P w1 /\ converter_ w1 = converter_ w).
  { unfold w1. destruct (is_first_message_ w); [|done]. split; [|done]. apply (property_same P HP w); [done|by split|done]. }
  rewrite (bind_ok _ _ w w1 tt) in Hout by done. destruct Hw1 as [P1 C1].
  pose proof (should_split_state (recv_timestamp m) w1) as Hst. unfold mbind at 1, ST_bind at 1 in Hout.
  destruct (should_split_bagfile (recv_timestamp m) w1) as [[split|e] w2]; simpl in Hst; subst w2; [|left; by eexists _, _].
  match type of Hout with context [(?x ≫= _) w1] => set (mid := x) in Hout end.
  assert (Hmid : P (mid w1).2 /\ converter_ (mid w1).2 = converter_ w).
  { unfold mid. destruct split; [|by split]. destruct (split_bagfile_spec P w1 HP P1) as [P2 C2]. unfold mbind, ST_bind.
    destruct (split_bagfile env w1) as [[[]|e] w2]; simpl in *; [|by rewrite C2, C1]. split; [|by rewrite C2, C1].
    apply (property_same P HP w2); [done|apply (change_metadata_same (on_back (back_starts (recv_timestamp m))))|done]. }
  unfold mbind at 1, ST_bind at 1 in Hout. destruct (mid w1) as [[[]|e] w2]; simpl in Hmid; destruct Hmid as [P2 C2]; [|left; by eexists _, _].
  set (w3 := set_metadata (note_message (recv_timestamp m) (metadata_ w2)) w2) in Hout. rewrite (bind_ok _ _ _ w3 tt) in Hout by done.
  assert (P3 : P w3) by (apply (property_same P HP w2); [done|apply (change_metadata_same (note_message (recv_timestamp m)))|done]).
  set (w4 := set_metadata (on_back back_counts (metadata_ w3)) w3).
  assert (P4 : P w4) by (apply (property_same P HP w3); [done|apply (change_metadata_same (on_back back_counts))|done]).
  unfold get_writeable_message in Hout. unfold mbind at 1, ST_bind at 1 in Hout. rewrite get_bind in Hout.
  change (converter_ w3) with (converter_ w2) in Hout. rewrite C2 in Hout. unfold written_form.
  destruct (converter_ w) as [c|]; [|right; exists m, w4; split_and!; [done|done|exact Hout]].
  destruct (convert (writer_formats env) c m) as [conv|]; [right; exists conv, w4; split_and!; [done|done|exact Hout]|].
  left. exists UnknownTopic, w3. by split.
Qed.

(** *** Calls *)

Inductive Call :=
| Write (m : BagMessage)
| Split
| CreateTopic (topic : TopicMetadata) (definition : MessageDefinition)
| CreateTopicByType (topic : TopicMetadata)
| RemoveTopic (topic : TopicMetadata)
| TakeSnapshot
| ThreadStep.

Definition perform (x : Call) (w : SequentialWriter S) : bool * SequentialWriter S :=
  match x with
  | Write m => let '(r, w) := write env m w in (is_ok r, w)
  | Split => let '(r, w) := split_bagfile env w in (is_ok r, w)
  | CreateTopic t d => let '(r, w) := create_topic_with t d w in (is_ok r, w)
  | CreateTopicByType t => let '(r, w) := create_topic env t w in (is_ok r, w)
  | RemoveTopic t => let '(r, w) := remove_topic t w in (is_ok r, w)
  | TakeSnapshot => let '(r, w) := take_snapshot w in (is_ok r, w)
  | ThreadStep => let '(r, w) := thread_step w in (is_ok r, w)
  end.

(** A message is accepted when [write] returns and its time is in the range. *)
Definition accepted_by (w : SequentialWriter S) (x : Call) : list BagMessage :=
  match x with
  | Write m => if (perform x w).1 && message_within_accepted_time_range (storage_options_ w) (recv_timestamp m)
               then option_list (written_form w m) else []
  | _ => []
  end.

Inductive recorded (w0 : SequentialWriter S) : list BagMessage -> SequentialWriter S -> Prop :=
| recorded_here : recorded w0 [] w0
| recorded_call acc w x : recorded w0 acc w -> recorded w0 (acc ++ accepted_by w x) (perform x w).2.

Section Property.
Context (P : SequentialWriter S -> Prop) (HP : file_property P).

Definition keeping (w w' : SequentialWriter S) : Prop := P w -> P w'.

#[local] Instance keeping_preorder : PreOrder keeping.
Proof. split; [by intros w Hw|]. intros w1 w2 w3 E1 E2 Hw. by apply E2, E1. Qed.

Lemma keeping_modify f : (forall w, same_files w (f w) /\ storage_ (f w) = storage_ w) -> Keeps keeping (modify (E := WriterError) f).
Proof. intros Hf w Hw. destruct (Hf w) as [Hs Hst]. apply (property_same P HP w); [done|exact Hs|]. unfold modify. simpl. by rewrite Hst. Qed.

Lemma keeping_storage (g : S -> S) (k : ST (SequentialWriter S) WriterError unit) :
  (forall s, stored (g s) = stored s) -> Keeps keeping k -> Keeps keeping (s ← the_storage; put_storage (g s);; k).
Proof.
  intros Hg Hk w Hw. destruct (storage_ w) as [s|] eqn:E.
  - rewrite (bind_ok _ _ _ _ _ (the_storage_some w s E)). rewrite (bind_ok _ _ _ (set_storage (Some (g s)) w) tt) by done. apply Hk.
    apply (property_same P HP w); [done| |simpl; by rewrite E]. split; try done. unfold in_files. rewrite E. simpl. by rewrite Hg.
  - by rewrite (bind_throw _ _ _ _ _ (the_storage_none w E)).
Qed.

#[local] Hint Extern 1 (Keeps keeping (modify _)) => (apply keeping_modify; done) : keeps.

Lemma create_topic_with_keeps t d : Keeps keeping (create_topic_with t d).
Proof.
  unfold create_topic_with. apply Keeps_bind; [apply _|eauto with keeps|]. intros w. destruct (topics_names_to_info_ w !! tm_name t); [eauto with keeps|].
  destruct (negb (is_open_ w)); [eauto with keeps|]. apply Keeps_bind; [apply _|apply keeping_modify; intros w1; by split; [split|]|]. intros _.
  apply keeping_storage; [apply stored_create|]. apply keeping_modify. intros w1. by split; [split|].
Qed.

Lemma create_topic_keeps t : Keeps keeping (create_topic env t).
Proof.
  unfold create_topic. apply Keeps_bind; [apply _|eauto with keeps|]. intros w.
  destruct (topics_names_to_info_ w !! tm_name t); [eauto with keeps|]. apply create_topic_with_keeps.
Qed.

Lemma remove_topic_keeps t : Keeps keeping (remove_topic t).
Proof.
  unfold remove_topic. apply Keeps_bind; [apply _|eauto with keeps|]. intros w. destruct (negb (is_open_ w)); [eauto with keeps|].
  apply Keeps_bind; [apply _|apply keeping_modify; intros w1; by split; [split|]|]. intros _.
  destruct (topics_names_to_info_ w !! tm_name t), (topic_names_to_message_definitions_ w !! tm_name t); eauto with keeps.
  intros w1 Hw. pose proof (keeping_storage (storage_remove_topic t) (mret tt) (stored_remove t) (Keeps_ret _ tt) w1 Hw) as Hk.
  unfold mbind, ST_bind in *. by destruct (the_storage w1) as [[s|e] w2].
Qed.
End Property.

(** *** Without a cache *)

Lemma uncached_property acc : file_property (uncached acc).
Proof.
  split; [intros; by eapply uncached_same|]. intros w s Hw Hs. pose proof (split_uncached true acc w s Hw Hs) as Hsplit.
  destruct (open_read_write env (next_options w)).
  - destruct Hsplit as (path & w' & -> & Hw' & _). done.
  - by destruct Hsplit as (w' & -> & Hw').
Qed.

Lemma store_uncached topic conv acc w :
  uncached acc w -> match storage_ w with
                    | None => store_message topic conv w = (Throw NullPointer, w)
                    | Some _ => exists w', store_message topic conv w = (Ok tt, w') /\ uncached (acc ++ [conv]) w'
                    end.
Proof.
  intros (U1 & U2 & U3 & U4). unfold store_message. rewrite get_bind, U2. simpl. destruct (storage_ w) as [s|] eqn:E.
  - rewrite (bind_ok _ _ _ _ _ (the_storage_some w s E)). eexists. split; [done|]. split_and!; try done.
    unfold in_files in *. rewrite E in U4. simpl in *. by rewrite stored_write, app_assoc, U4.
  - by rewrite (bind_throw _ _ _ _ _ (the_storage_none w E)).
Qed.

Lemma perform_uncached acc w x : uncached acc w -> uncached (acc ++ accepted_by w x) (perform x w).2.
Proof.
  intros Hw. pose proof (uncached_property acc) as HP. destruct x as [m| |t d|t|t| |]; simpl; rewrite ?app_nil_r.
  - unfold write. rewrite get_bind. destruct (negb (is_open_ w)); [by rewrite app_nil_r|].
    destruct (message_within_accepted_time_range _ _); simpl; [|by rewrite app_nil_r].
    destruct (topics_names_to_info_ w !! topic_name m); [|by rewrite app_nil_r].
    destruct (write_accepted_spec _ w m HP Hw) as [(e & w' & -> & Hw')|(conv & w1 & Hform & Hw1 & ->)]; [by rewrite app_nil_r|].
    rewrite Hform. pose proof (store_uncached (topic_name m) conv acc w1 Hw1) as Hst. destruct (storage_ w1).
    + destruct Hst as (w' & -> & Hw'). done.
    + rewrite Hst. simpl. by rewrite app_nil_r.
  - pose proof (proj1 (split_bagfile_spec _ w HP Hw)) as Hs. by destruct (split_bagfile env w).
  - pose proof (create_topic_with_keeps _ HP t d w Hw). by destruct (create_topic_with t d w).
  - pose proof (create_topic_keeps _ HP t w Hw). by destruct (create_topic env t w).
  - pose proof (remove_topic_keeps _ HP t w Hw). by destruct (remove_topic t w).
  - destruct Hw as (U1 & U2 & U3 & U4). unfold take_snapshot. rewrite get_bind, U1. by destruct (negb _).
  - destruct Hw as (U1 & U2 & U3 & U4). unfold thread_step. by rewrite get_bind, U1.
Qed.

(** *** With a cache *)

Section Cache.
Context {C : Type} `{CacheKind C}.

Definition caching (log : list (BagMessage * bool)) (w : SequentialWriter S) : Prop :=
  exists c, faithful Working log w c /\ (storage_ w = None <-> point c = Joined).

Lemma caching_property log : file_property (caching log).
Proof.
  split.
  - intros w w' (c & Hf & Hp) Hsame Hs. exists c. split; [|by rewrite Hs]. eapply faithful_same; [done|done|]. rewrite Hs. by left.
  - intros w s (c & Hf & Hp) Hs. destruct (split_cached true log w c s Hf Hs) as (c1 & [Hj _] & _ & Hsplit).
    destruct (open_read_write env (next_options w)).
    + destruct Hsplit as (path & w' & -> & Hf' & _ & s' & Hs' & _). exists (start c1). split; [done|]. simpl. rewrite Hs'.
      unfold start. simpl. by rewrite bool_decide_eq_true_2.
    + destruct Hsplit as (w' & -> & Hf' & Hs'). by exists c1.
Qed.

Lemma store_cached topic conv log w : caching log w ->
  exists b w', store_message topic conv w = (Ok tt, w') /\ caching (log ++ [(conv, b)]) w'.
Proof.
  intros (c & [F1 F2 F3 F4 F5] & Hp). exists (begin_push conv c).1.
  unfold store_message. rewrite get_bind, (proj2 (Z.eqb_neq _ _) F2), (wrap_push conv w c F1). eexists. split; [done|].
  exists (push_message conv C c). simpl. pose proof (push_message_keeps conv c) as (_ & _ & ->). split; [|done]. split; simpl; try done.
  - by rewrite F1, wrap_change.
  - apply cached_push; [apply wrap_returns|done].
  - pose proof (push_message_keeps conv c) as (_ & _ & ->). auto.
Qed.

Lemma consumer_step_point (c c' : CacheConsumer C) l : consumer_step c = Some (c', l) -> point c <> Joined /\ point c' <> Joined.
Proof.
  unfold consumer_step, exec_consuming_step. destruct (point c) eqn:Hpt; simpl; try done.
  - by destruct (wait_for_data _); intros [= <- <-].
  - by destruct (wake _); intros; simplify_eq/=.
  - by intros [= <- <-].
  - by intros [= <- <-].
  - intros [= <- <-]. simpl. by destruct (flushing c).
Qed.

Lemma thread_step_caching log w : caching log w -> caching log (thread_step w).2.
Proof.
  intros (c & Hf & Hp). destruct (thread_step_spec Working log w c Hf) as (w' & Hsame & Hstep).
  destruct (consumer_step c) as [[c' l]|] eqn:E; destruct Hstep as [-> Hf'].
  - exists c'. split; [done|]. destruct (consumer_step_point _ _ _ E) as [P1 P2]. rewrite (same_storage _ _ Hsame), Hp. tauto.
  - exists c. split; [done|]. by rewrite (same_storage _ _ Hsame), Hp.
Qed.

Lemma snapshot_caching log w : caching log w -> caching log (take_snapshot w).2.
Proof.
  intros (c & Hf & Hp). unfold take_snapshot. rewrite get_bind. destruct (negb _); [by exists c|].
  pose proof (faithful_cached _ _ _ _ Hf) as (_ & _ & Hst & _).
  destruct (change_consumer_spec (fun C _ => CacheConsumer.take_snapshot) Working log w c Hf) as (w' & E & Hsame & Hf');
    [apply step_snapshot|done|done|done|]. simpl in Hf'. rewrite Hst in Hf'.
  assert (caching log w') by (exists (CacheConsumer.take_snapshot c); split; [done|by rewrite (same_storage _ _ Hsame), Hp]).
  destruct (caches w) eqn:Ec; [by exists c|..]; by rewrite (bind_ok _ _ _ _ _ E).
Qed.

Lemma perform_cached log w x : caching log w -> exists log', log'.*1 = accepted_by w x /\ caching (log ++ log') (perform x w).2.
Proof.
  intros Hw. pose proof (caching_property log) as HP.
  assert (Hnone : forall w', caching log w' -> exists log' : list (BagMessage * bool), log'.*1 = [] /\ caching (log ++ log') w').
  { intros w' Hw'. exists []. by rewrite app_nil_r. }
  destruct x as [m| |t d|t|t| |]; simpl.
  - unfold write. rewrite get_bind. destruct (negb (is_open_ w)); [by apply Hnone|].
    destruct (message_within_accepted_time_range _ _); simpl; [|by apply Hnone].
    destruct (topics_names_to_info_ w !! topic_name m); [|by apply Hnone].
    destruct (write_accepted_spec _ w m HP Hw) as [(e & w' & -> & Hw')|(conv & w1 & Hform & Hw1 & ->)]; [by apply Hnone|].
    rewrite Hform. destruct (store_cached (topic_name m) conv log w1 Hw1) as (b & w' & -> & Hw'). by exists [(conv, b)].
  - apply Hnone. pose proof (proj1 (split_bagfile_spec _ w HP Hw)) as Hs. by destruct (split_bagfile env w).
  - apply Hnone. pose proof (create_topic_with_keeps _ HP t d w Hw). by destruct (create_topic_with t d w).
  - apply Hnone. pose proof (create_topic_keeps _ HP t w Hw). by destruct (create_topic env t w).
  - apply Hnone. pose proof (remove_topic_keeps _ HP t w Hw). by destruct (remove_topic t w).
  - apply Hnone. pose proof (snapshot_caching log w Hw). by destruct (take_snapshot w).
  - apply Hnone. pose proof (thread_step_caching log w Hw). by destruct (thread_step w).
Qed.
End Cache.

(** *** From the opening on *)

Lemma open_storage_spec (o : StorageOptions) (w w0 : SequentialWriter S) :
  open_storage env o w = (Ok tt, w0) -> closed_storages w = [] -> storage_ w = None -> caches w = NoCache -> 
  max_cache_size (storage_options_ w) = max_cache_size o ->
  use_cache_ w0 = (0 <? max_cache_size o) /\ caches w0 = open_caches o /\ in_files w0 = [] /\ storage_ w0 <> None /\
  max_cache_size (storage_options_ w0) = max_cache_size o /\ snapshot_mode (storage_options_ w0) = snapshot_mode (storage_options_ w).
Proof.
  intros E Hc Hs Hn Hsz. unfold open_storage, mbind, ST_bind, modify, get in E. cbn in E.
  destruct (open_read_write env _) as [s|] eqn:Eo; [|done]. destruct (_ && _); [done|]. cbn in E.
  destruct (snapshot_mode o && negb (0 <? max_cache_size o)); [done|]. cbn in E.
  assert (Hf : stored s = []) by (by eapply fresh). unfold open_caches.
  destruct (0 <? max_cache_size o) eqn:Ez; cbn in E; injection E as <-; unfold in_files, open_caches; simpl;
    rewrite Hs, Hc; simpl; rewrite ?stored_update, ?Hf; split_and!; try done; by rewrite Ez.
Qed.

Lemma open_spec o co w0 :
  open env o co new_writer = (Ok tt, w0) ->
  use_cache_ w0 = (0 <? max_cache_size o) /\ caches w0 = open_caches o /\ in_files w0 = [] /\ storage_ w0 <> None /\
  max_cache_size (storage_options_ w0) = max_cache_size o /\ snapshot_mode (storage_options_ w0) = snapshot_mode o.
Proof.
  unfold open. rewrite get_bind. cbn [is_open_ new_writer].
  set (options := if String.eqb (storage_id o) "" then _ else o).
  assert (Ho : max_cache_size options = max_cache_size o /\ snapshot_mode options = snapshot_mode o).
  { unfold options. by destruct (String.eqb (storage_id o) ""). }
  destruct Ho as [Ho1 Ho2]. rewrite (bind_ok _ _ _ (set_base (uri o) options new_writer) tt) by done.
  intros (u & w1 & Hconv & E)%bind_inv. assert (Hw1 : exists c, w1 = set_converter c (set_base (uri o) options new_writer)).
  { destruct (String.eqb (output_serialization_format co) _); [injection Hconv as _ <-; by exists None|].
    destruct (new_converter _ co) as [c|]; [|done]. injection Hconv as _ <-. by exists (Some c). }
  destruct Hw1 as [c ->]. destruct (folder_exists env (uri o)); [done|]. destruct (negb (create_directories env (uri o))); [done|].
  rewrite <- Ho2. apply (open_storage_spec o (set_converter c (set_base (uri o) options new_writer)) w0 E); done.
Qed.

Lemma close_bag_spec w s : storage_ w = Some s ->
  exists w', close_bag env w = (Ok tt, w') /\ concat (stored <$> closed_storages w') = in_files w /\ storage_ w' = None.
Proof.
  intros Hs. unfold close_bag. rewrite get_bind. unfold mbind at 1, ST_bind at 1.
  match goal with |- context [(if String.eqb (base_folder_ w) "" then ?x else ?y) w] =>
    set (first := if String.eqb (base_folder_ w) "" then x else y) end.
  assert (Hfirst : exists w1 s1, first w = (Ok tt, w1) /\ storage_ w1 = Some s1 /\ stored s1 = stored s /\ closed_storages w1 = closed_storages w).
  { unfold first. destruct (String.eqb (base_folder_ w) ""); [by exists w, s|].
    unfold finalize_metadata, mbind, ST_bind, modify. eexists _, _. split; [done|]. simpl. rewrite Hs. split_and!; [done|apply stored_update|done]. }
  destruct Hfirst as (w1 & s1 & -> & Hs1 & Hst & Hcl). unfold mbind, ST_bind, modify.
  eexists. split; [done|]. unfold in_files. rewrite Hs.
  set (w2 := replace_storage None w1). assert (H2 : concat (stored <$> closed_storages w2) = concat (stored <$> closed_storages w) ++ stored s).
  { unfold w2. simpl. rewrite Hs1, fmap_app, concat_app, Hcl. simpl. by rewrite Hst, app_nil_r. }
  destruct (last (relative_file_paths (metadata_ w2))); split; done.
Qed.

(** ** What a recording keeps *)

Definition in_cache (w : SequentialWriter S) : list BagMessage :=
  match caches w with Plain c => to_consume c ++ produced c | _ => [] end.

Definition dropped (topic : string) (w : SequentialWriter S) : Z :=
  match caches w with Plain c => dropped_of topic (message_cache_ c) | _ => 0 end.

(** A writer that has been opened, without the snapshot mode. *)
Context (o : StorageOptions) (co : ConverterOptions) (w0 : SequentialWriter S).
Context (Hopen : open env o co new_writer = (Ok tt, w0)) (Hsize : 0 <= max_cache_size o) (Hmode : snapshot_mode o = false).

(** The two kinds of states that are reached. *)
Lemma recorded_spec acc w : recorded w0 acc w ->
  (max_cache_size o = 0 /\ uncached acc w) \/
  (exists log, log.*1 = acc /\ caching (C := MessageCache) log w /\ max_cache_size o <> 0).
Proof.
  destruct (open_spec o co w0 Hopen) as (Hu & Hc & Hf & Hs & Hsz & _). unfold open_caches in Hc. rewrite Hmode in Hc.
  induction 1 as [|acc w x _ [[Hz IH]|(log & <- & IH & Hne)]].
  - destruct (Z.ltb_spec 0 (max_cache_size o)) as [Hlt|Hge].
    + right. exists []. split_and!; [done| |lia]. exists (new_consumer (new_cache (max_cache_size o))). split; [|by split; [|done]].
      split; [by rewrite Hc|lia|done| |done]. rewrite Hsz, Hf. split_and!; [constructor|done|done|constructor].
    + left. split; [lia|]. split_and!; [done|lia|done|done].
  - left. split; [done|]. by apply perform_uncached.
  - right. destruct (perform_cached log w x IH) as (log' & <- & Hc'). exists (log ++ log'). split_and!; [by rewrite fmap_app|done|done].
Qed.

(** What a log of pushes says of the cache of [w]. *)
Definition logged (acc : list BagMessage) (log : list (BagMessage * bool)) (w : SequentialWriter S) : Prop :=
  log.*1 = acc /\ (forall topic, u32 (dropped topic w) = u32 (Z.of_nat (rejected topic log))) /\ (max_cache_size o = 0 -> accepted log = acc).

Lemma logged_all acc w : uncached acc w -> logged acc ((fun m => (m, true)) <$> acc) w /\ accepted ((fun m => (m, true)) <$> acc) = acc.
Proof.
  intros (U1 & _). assert (Hacc : accepted ((fun m => (m, true)) <$> acc) = acc).
  { unfold accepted. rewrite filter_all; [by rewrite <- list_fmap_compose, list_fmap_id|]. apply Forall_fmap, Forall_forall. by intros m _. }
  split; [|done]. split_and!; [|intros topic|done].
  - by rewrite <- list_fmap_compose, list_fmap_id.
  - unfold dropped, rejected. rewrite U1, filter_none; [done|]. apply Forall_fmap, Forall_forall. intros m _ [? _]. done.
Qed.

Lemma logged_cached log w c : max_cache_size o <> 0 -> faithful (C := MessageCache) Working log w c -> logged log.*1 log w.
Proof.
  intros Hne [F1 F2 F3 (Hl & _ & _ & Hp) F5]. split_and!; [done| |done].
  intros topic. unfold dropped. rewrite F1. apply exact_done; [by apply one_by_one_exact in Hl|by apply returned_pushes].
Qed.

(** C18: Outside the snapshot mode, in every order of calls and steps of the
    thread: what is in the files, then what is in the cache, are the messages
    that were accepted and not dropped, in their order; the dropped ones are
    counted, by 32 bits, and without a cache there are none. *)
Theorem recording_conserves acc w :
  recorded w0 acc w -> exists log, logged acc log w /\ in_files w ++ in_cache w = accepted log.
Proof.
  intros [[Hz Hu]|(log & <- & (c & Hf & Hp) & Hne)]%recorded_spec.
  - exists ((fun m => (m, true)) <$> acc). destruct (logged_all acc w Hu) as [Hl ->]. split; [done|].
    destruct Hu as (U1 & _ & _ & U4). unfold in_cache. by rewrite U1, app_nil_r.
  - exists log. split; [by eapply logged_cached|]. destruct Hf as [F1 F2 F3 (Hl & Hfiles & _) F5].
    apply one_by_one_later in Hl. pose proof (recorded_conserves _ _ _ Hl) as [Hc _]. unfold in_cache. rewrite F1, Hfiles. exact Hc.
Qed.

(** C19: Outside the snapshot mode, [close] of a bag that has a storage open (no
    rollover has failed) ends, and what was accepted and not dropped is in the
    files, which are closed. *)
Theorem close_writes_everything acc w :
  recorded w0 acc w -> is_open_ w = true -> storage_ w <> None ->
  exists w' log, close env w = (Ok tt, w') /\ logged acc log w /\ concat (stored <$> closed_storages w') = accepted log /\ storage_ w' = None.
Proof.
  intros Hr Hopened Hs. destruct (storage_ w) as [s|] eqn:Es; [|done]. unfold close. rewrite get_bind, Hopened. cbn [negb].
  set (w1 := set_open false w). rewrite (bind_ok _ _ _ w1 tt) by done.
  apply recorded_spec in Hr as [[Hz Hu]|(log & <- & (c & Hf & Hp) & Hne)].
  - destruct (logged_all acc w Hu) as [Hl Hacc]. destruct Hu as (U1 & U2 & U3 & U4). rewrite U3, (bind_ok _ _ _ w1 tt) by done.
    destruct (close_bag_spec w1 s Es) as (w' & -> & Hc & Hn). exists w', ((fun m => (m, true)) <$> acc). by rewrite Hc, Hacc.
  - pose proof (logged_cached log w c Hne Hf) as Hl. rewrite (faithful_use _ _ _ _ Hf).
    assert (Hf1 : faithful Working log w1 c) by (eapply faithful_same; [done|by split|by left]).
    destruct (stop_consumer_spec log w1 c Hf1) as (w2 & c1 & E & Hsame & Hf2 & Hj & c0 & c2 & k & Hw & -> & He & Hc1).
    rewrite (bind_ok _ _ _ (set_caches NoCache w2) tt) by (by rewrite (bind_ok _ _ _ _ _ E)).
    assert (exists s2, storage_ w2 = Some s2) as [s2 Hs2].
    { destruct (storage_ w2) as [s2|] eqn:Hs2; [by eexists|]. apply (same_storage _ _ Hsame) in Hs2. simpl in Hs2. congruence. }
    destruct (close_bag_spec (set_caches NoCache w2) s2 Hs2) as (w' & -> & Hc & Hn). exists w', log. split_and!; [done|done| |done].
    rewrite Hc. change (in_files (set_caches NoCache w2)) with (in_files w2).
    destruct Hf2 as [_ _ _ (Hl2 & -> & _) _]. destruct Hf as [_ _ _ (Hl1 & _ & Hst & _) _].
    rewrite (same_options _ _ Hsame) in Hl2. eapply stopped_flushes; [exact Hl1|done| |split; [done|by exists c2, k]|exact Hl2].
    rewrite <- Hp. congruence.
Qed.

(** A split does so too; the new file is empty. *)
Theorem split_flushes acc w s :
  recorded w0 acc w -> storage_ w = Some s ->
  match open_read_write env (next_options w) with
  | None => (split_bagfile env w).1 = Throw RolloverFailed
  | Some _ => exists w' log, split_bagfile env w = (Ok tt, w') /\ logged acc log w /\ split_off (accepted log) w'
  end.
Proof.
  intros Hr Hs. unfold split_bagfile. apply recorded_spec in Hr as [[Hz Hu]|(log & <- & (c & Hf & Hp) & Hne)].
  - destruct (logged_all acc w Hu) as [Hl Hacc]. pose proof (split_uncached true acc w s Hu Hs) as Hsplit.
    destruct (open_read_write env (next_options w)).
    + destruct Hsplit as (path & w' & E & _ & Hoff). exists w', ((fun m => (m, true)) <$> acc). by rewrite (bind_ok _ _ _ _ _ E), Hacc.
    + destruct Hsplit as (w' & E & _). by rewrite (bind_throw _ _ _ _ _ E).
  - pose proof (logged_cached log w c Hne Hf) as Hl. destruct (split_cached true log w c s Hf Hs) as (c1 & Hstop & Hl1 & Hsplit).
    destruct (open_read_write env (next_options w)).
    + destruct Hsplit as (path & w' & E & _ & Hoff). exists w', log. split_and!; [by rewrite (bind_ok _ _ _ _ _ E)|done|].
      destruct Hf as [_ _ _ (Hl0 & _ & Hst & _) _]. destruct (stopped_flushes _ log c c1 Hl0 Hst) as [<- _]; [|done|done|done].
      rewrite <- Hp. congruence.
    + destruct Hsplit as (w' & E & _). by rewrite (bind_throw _ _ _ _ _ E).
Qed.
End Recording.
