(* ===== verification/SequentialWriterMetadata.v ===== *)
(** * The metadata of a recording

    Theorems about [SequentialWriter]: for every file of a recording without a
    cache, and for the bag, the metadata count the messages and give their
    earliest time ([metadata_of_messages]).  The durations are right for
    messages in the order of their times; [SequentialWriterRuns] has what they
    are otherwise. *)

From Stdlib Require Import ZArith Lia Ascii String.
From stdpp Require Import base numbers list gmap strings sorting.
From S2P Require Import Prelude Computation BagCache CacheConsumer BagStorage SequentialWriter SequentialWriterFacts.
#[local] Open Scope Z_scope.

(** ** The metadata of a recording *)

Definition times (l : list BagMessage) : list Z := recv_timestamp <$> l.

(** The first time and the duration, as they are kept along the way. *)
Definition span_step (p : Z * Z) (t : Z) : Z * Z := (Z.min p.1 t, Z.max p.2 (t - Z.min p.1 t)).
Definition span_of (l : list Z) : Z * Z := foldl span_step (int64_max, 0) l.

Definition valid_time (t : Z) : Prop := 0 <= t <= int64_max.

Lemma span_of_snoc l t : span_of (l ++ [t]) = span_step (span_of l) t.
Proof. unfold span_of. by rewrite foldl_app. Qed.

Lemma span_of_range l : Forall valid_time l -> valid_time (span_of l).1.
Proof.
  induction l as [|t l IH] using rev_ind; [done|]. intros [Hl Ht]%Forall_app. apply Forall_cons in Ht as [Ht _].
  specialize (IH Hl). rewrite span_of_snoc. unfold valid_time, span_step, int64_max in *. cbn [fst snd]. lia.
Qed.

(** The start is the earliest time, whatever the order. *)
Lemma span_of_start l : Forall valid_time l -> (span_of l).1 = foldr Z.min int64_max l.
Proof.
  induction l as [|t l IH] using rev_ind; [done|]. intros [Hl Ht]%Forall_app. apply Forall_cons in Ht as [Ht _].
  rewrite span_of_snoc, foldr_app. simpl. rewrite IH by done.
  assert (Hb : forall b, b <= int64_max -> Z.min (foldr Z.min int64_max l) b = foldr Z.min b l).
  { clear. intros b Hb. induction l as [|x l IH]; simpl; [lia|]. rewrite <- IH. lia. }
  unfold valid_time in Ht. rewrite Hb by lia. f_equal. lia.
Qed.

(** In order the duration is the time from the first to the last. *)
Lemma span_of_duration a l : Forall valid_time (a :: l) -> ascending id (a :: l) ->
  span_of (a :: l) = (a, default a (last (a :: l)) - a).
Proof.
  induction l as [|t l IH] using rev_ind; intros Hv Ho.
  - apply Forall_cons in Hv as [Hv _]. unfold valid_time, int64_max in Hv. unfold span_of, span_step, int64_max. simpl. f_equal; lia.
  - rewrite app_comm_cons in *. apply Forall_app in Hv as [Hv Ht]. apply ascending_app in Ho as (Ho2 & Ho1 & _).
    rewrite span_of_snoc, IH by done. rewrite last_snoc. unfold span_step. simpl.
    destruct (last (a :: l)) as [b|] eqn:Hb; [|by apply last_None in Hb]. simpl.
    apply last_Some_elem_of in Hb as Hin.
    assert (a <= t) by (apply (Ho2 a t); [by left|by left]). assert (b <= t) by (apply (Ho2 b t); [done|by left]).
    f_equal; simpl in *; lia.
Qed.

Section Metadata.
Context {S : Type} `{WriteLaws S} (env : WriterEnvironment S).
Context (fresh : forall o s, open_read_write env o = Some s -> stored s = []).

(** What the metadata say of a file. *)
Record file_agrees (f : FileInformation) (s : S) : Prop := {
  agrees_count : file_message_count f = u64 (Z.of_nat (length (stored s)));
  agrees_span : (file_starting_time f, file_duration f) = span_of (times (stored s));
}.

Definition meta_agrees (acc : list BagMessage) (w : SequentialWriter S) : Prop :=
  forall s, storage_ w = Some s ->
    Forall2 file_agrees (files (metadata_ w)) (closed_storages w ++ [s]) /\
    (starting_time (metadata_ w), duration (metadata_ w)) = span_of (times acc) /\
    (is_first_message_ w = true -> acc = []).

Lemma change_back_snoc {A} (f : A -> A) l x : change_back f (l ++ [x]) = l ++ [f x].
Proof. induction l as [|y l IH]; simpl; [done|]. rewrite IH. by destruct l. Qed.

(** A message of time [t] that the metadata are told. *)
Lemma span_next starts dur l t : Forall valid_time l -> valid_time t -> (starts, dur) = span_of l ->
  (Z.min starts t, Z.max dur (i64 (t - Z.min starts t))) = span_of (l ++ [t]).
Proof.
  intros Hl Ht E. rewrite span_of_snoc, <- E. unfold span_step. simpl. pose proof (span_of_range l Hl) as Hr. rewrite <- E in Hr. simpl in Hr.
  rewrite i64_id; [done|]. unfold valid_time, int64_max, int64_min in *. lia.
Qed.

(** The first message of a file. *)
Lemma span_first t dur : valid_time t -> dur = 0 -> (Z.min t t, Z.max dur (i64 (t - Z.min t t))) = span_of [t].
Proof.
  intros Ht ->. rewrite Z.min_id, Z.sub_diag. change (i64 0) with 0. unfold valid_time in Ht. unfold span_of, span_step. cbn [foldl fst snd].
  f_equal; lia.
Qed.

Lemma split_files cb (w : SequentialWriter S) s :
  use_cache_ w = false -> storage_ w = Some s ->
  match open_read_write env (next_options w) with
  | None => exists w', split_bagfile_local env cb w = (Throw RolloverFailed, w') /\ storage_ w' = None
  | Some _ => exists path w' s1 s2, split_bagfile_local env cb w = (Ok path, w') /\ closed_storages w' = closed_storages w ++ [s1] /\
      stored s1 = stored s /\ storage_ w' = Some s2 /\ stored s2 = [] /\ metadata_ w' = add_file path (metadata_ w) /\
      is_first_message_ w' = is_first_message_ w /\ converter_ w' = converter_ w /\
      max_cache_size (storage_options_ w') = max_cache_size (storage_options_ w)
  end.
Proof.
  intros Hu Hs. remember (split_bagfile_local env cb w) as out eqn:Hout. unfold split_bagfile_local in Hout.
  rewrite (bind_ok _ _ _ _ _ (the_storage_some w s Hs)) in Hout.
  unfold switch_to_next_storage, roll_over in Hout. unfold mbind at 1, ST_bind at 1 in Hout. rewrite get_bind, Hu in Hout.
  rewrite (bind_ok _ _ _ w tt) in Hout by done. unfold mbind at 1, ST_bind at 1 in Hout.
  rewrite (bind_ok _ _ _ _ _ (the_storage_some w s Hs)) in Hout.
  set (s1 := storage_update_metadata (metadata_ w) s). set (w1 := set_storage (Some s1) w). rewrite (bind_ok _ _ _ w1 tt) in Hout by done.
  set (w2 := set_base (base_folder_ w) (next_options w) w1). rewrite (bind_ok _ _ _ w2 tt) in Hout by done. rewrite get_bind in Hout.
  change (storage_options_ w2) with (next_options w) in Hout. destruct (open_read_write env (next_options w)) as [s'|] eqn:E.
  - set (w3 := replace_storage (Some s') w2). rewrite (bind_ok _ _ _ w3 tt) in Hout by done.
    unfold put_storage, modify, the_storage, get, mret, ST_ret, mbind, ST_bind in Hout. cbn in Hout.
    destruct cb; eexists _, _, s1, _; (split; [exact Hout|]); cbn; split_and!; try done;
      try (by apply stored_update); by rewrite (stored_creates w2), stored_update, (fresh _ _ E).
  - by exists (replace_storage None w2).
Qed.

Lemma should_split_some t (w : SequentialWriter S) s fs f : storage_ w = Some s -> files (metadata_ w) = fs ++ [f] ->
  exists b, should_split_bagfile t w = (Ok b, w).
Proof.
  intros Hs Hf. unfold should_split_bagfile. rewrite get_bind. cbv beta zeta. rewrite Hf, last_snoc. unfold mbind, ST_bind.
  destruct (max_bagfile_size _ =? 0); [|rewrite (the_storage_some w s Hs)]; cbn; destruct (max_bagfile_duration _ =? 0); by eexists.
Qed.

(** The last file and its storage, before a message of time [t] is noted. *)
Definition ready_for (t : Z) (w : SequentialWriter S) (s : S) : Prop :=
  exists fs f, files (metadata_ w) = fs ++ [f] /\ Forall2 file_agrees fs (closed_storages w) /\
    file_message_count f = u64 (Z.of_nat (length (stored s))) /\
    (file_starting_time (back_times t f), file_duration (back_times t f)) = span_of (times (stored s) ++ [t]).

Lemma ready_agrees t (w : SequentialWriter S) s : valid_time t -> Forall valid_time (times (stored s)) ->
  Forall2 file_agrees (files (metadata_ w)) (closed_storages w ++ [s]) -> ready_for t w s.
Proof.
  intros Ht Hv (fs & l & Hfs & Hl & Heq)%Forall2_app_inv_r. apply Forall2_cons_inv_r in Hl as (f & l' & [Hc Hsp] & Hl & ->).
  apply Forall2_nil_inv_r in Hl as ->. exists fs, f. split_and!; [done|done|done|]. by apply span_next.
Qed.

(** The state in which a message is stored, after the metadata were told. *)
Definition noted (t : Z) (w : SequentialWriter S) : SequentialWriter S :=
  set_metadata (on_back back_counts (note_message t (metadata_ w))) (set_metadata (note_message t (metadata_ w)) w).

(** A message that is written to an open storage. *)
Lemma note_and_store m (w : SequentialWriter S) s l :
  storage_ w = Some s -> max_cache_size (storage_options_ w) = 0 ->
  exists w', store_message (topic_name m) m (noted (recv_timestamp m) w) = (Ok tt, w') /\
    (ready_for (recv_timestamp m) w s -> is_first_message_ w = false ->
     (starting_time (note_message (recv_timestamp m) (metadata_ w)), duration (note_message (recv_timestamp m) (metadata_ w))) = span_of (times (l ++ [m])) ->
     meta_agrees (l ++ [m]) w').
Proof.
  intros Hs Hz. unfold store_message. rewrite get_bind. cbn [storage_options_ set_metadata noted]. rewrite Hz. simpl.
  set (w1 := noted _ w). rewrite (bind_ok _ _ _ _ _ (the_storage_some w1 s Hs)). eexists. split; [done|].
  intros (fs & f & Hf & Hfs & Hc & Hsp) Hfirst Hl s' [= <-]. cbn. rewrite Hf, !change_back_snoc. split_and!; [|exact Hl|by rewrite Hfirst].
  apply Forall2_app; [done|]. constructor; [|constructor]. split; simpl.
  - rewrite stored_write, length_app, Hc. rewrite wrap_u_add_l. f_equal. simpl. lia.
  - rewrite stored_write. unfold times in *. rewrite fmap_app. exact Hsp.
Qed.

Lemma write_meta acc w m s :
  uncached acc w -> converter_ w = None -> meta_agrees acc w -> Forall valid_time (times acc) -> storage_ w = Some s ->
  match write_accepted env m w with
  | (Ok _, w') => valid_time (recv_timestamp m) -> meta_agrees (acc ++ [m]) w'
  | (Throw _, w') => storage_ w' = None
  end.
Proof.
  intros (U1 & U2 & U3 & U4) Hconv Hmeta Hv Hs. remember (write_accepted env m w) as out eqn:Hout. unfold write_accepted in Hout.
  set (t := recv_timestamp m) in *. destruct (Hmeta s Hs) as (Hfiles & Hspan & Hfirst).
  set (w1 := if is_first_message_ w then set_first false (set_metadata (set_starting_time t (metadata_ w)) w) else w).
  rewrite (bind_ok _ _ w w1 tt) in Hout by done.
  assert (Hvs : Forall valid_time (times (stored s))).
  { rewrite <- U4 in Hv. unfold in_files, times in Hv. rewrite Hs, fmap_app in Hv. by apply Forall_app in Hv as [_ Hv]. }
  assert (Hw1 : files (metadata_ w1) = files (metadata_ w) /\ closed_storages w1 = closed_storages w /\ storage_ w1 = Some s /\
    use_cache_ w1 = false /\ converter_ w1 = None /\ max_cache_size (storage_options_ w1) = 0 /\ is_first_message_ w1 = false /\
    (valid_time t -> (starting_time (note_message t (metadata_ w1)), duration (note_message t (metadata_ w1))) = span_of (times (acc ++ [m])))).
  { assert (Hd : duration (metadata_ w) = (span_of (times acc)).2) by (by rewrite <- Hspan). unfold times in *. rewrite fmap_app.
    unfold w1. destruct (is_first_message_ w) eqn:Ef; simpl; split_and!; try done.
    - intros Ht. rewrite (Hfirst eq_refl) in Hd |- *. by apply span_first.
    - intros Ht. by apply span_next. }
  destruct Hw1 as (F1 & F2 & F3 & F4 & F5 & F6 & F7 & F8). clearbody w1. clear Hmeta.
  rewrite <- F1, <- F2 in Hfiles. pose proof Hfiles as (fs & l & _ & Hl & Hfs)%Forall2_app_inv_r.
  apply Forall2_cons_inv_r in Hl as (f & l' & _ & Hl & ->). apply Forall2_nil_inv_r in Hl as ->.
  destruct (should_split_some t w1 s fs f F3 Hfs) as [b Hb]. rewrite (bind_ok _ _ _ _ _ Hb) in Hout. destruct b.
  - pose proof (split_files true w1 s F4 F3) as Hsplit. destruct (open_read_write env (next_options w1)).
    + destruct Hsplit as (path & w2 & s1 & s2 & E & G1 & G2 & G3 & G4 & G5 & G6 & G7 & G8).
      rewrite F5 in G7. rewrite F6 in G8. set (w3 := set_metadata (on_back (back_starts t) (metadata_ w2)) w2).
      assert (Emid : (split_bagfile env ≫= fun _ => modify (fun w => set_metadata (on_back (back_starts t) (metadata_ w)) w)) w1 = (Ok tt, w3)).
      { unfold split_bagfile, mbind, ST_bind. by rewrite E. }
      rewrite (bind_ok _ _ _ _ _ Emid) in Hout.
      rewrite (bind_ok _ _ _ (set_metadata (note_message t (metadata_ w3)) w3) tt) in Hout by done.
      assert (Hg : get_writeable_message env m (set_metadata (note_message t (metadata_ w3)) w3) = (Ok m, set_metadata (note_message t (metadata_ w3)) w3)).
      { unfold get_writeable_message. rewrite get_bind. cbn [converter_ set_metadata w3]. by rewrite G7. }
      rewrite (bind_ok _ _ _ _ _ Hg) in Hout.
      destruct (note_and_store m w3 s2 acc) as (w' & E' & Hm); [done|done|].
      lazymatch type of Hout with out = ?x => assert (Ex : x = (Ok tt, w')) by exact E'; rewrite Ex in Hout end. subst out.
      intros Ht. apply Hm; [|cbn; by rewrite G6|cbn; rewrite G5; by apply F8].
      fold t. exists (files (metadata_ w1)), (back_starts t (new_file path)). cbn. rewrite G5. cbn. rewrite change_back_snoc, G1, G4. split_and!; try done.
      * apply Forall2_app_inv_r in Hfiles as (fs1 & l1 & Hfs1 & Hl1 & ->). apply Forall2_app; [done|].
        apply Forall2_cons_inv_r in Hl1 as (f1 & l2 & [C1 C2] & Hl1 & ->). apply Forall2_nil_inv_r in Hl1 as ->.
        constructor; [|constructor]. by split; rewrite G2.
      * by apply span_first.
    + destruct Hsplit as (w2 & E & Hn). unfold split_bagfile, mbind, ST_bind in Hout. rewrite E in Hout. by subst out.
  - rewrite (bind_ok _ _ _ w1 tt) in Hout by done. rewrite (bind_ok _ _ _ (set_metadata (note_message t (metadata_ w1)) w1) tt) in Hout by done.
    assert (Hg : get_writeable_message env m (set_metadata (note_message t (metadata_ w1)) w1) = (Ok m, set_metadata (note_message t (metadata_ w1)) w1)).
    { unfold get_writeable_message. rewrite get_bind. cbn [converter_ set_metadata]. by rewrite F5. }
    rewrite (bind_ok _ _ _ _ _ Hg) in Hout.
    destruct (note_and_store m w1 s acc) as (w' & E & Hm); [done|done|].
    lazymatch type of Hout with out = ?x => assert (Ex : x = (Ok tt, w')) by exact E; rewrite Ex in Hout end. subst out.
    intros Ht. apply Hm; [by apply ready_agrees|done|by apply F8].
Qed.

Lemma file_agrees_same f s s' : stored s' = stored s -> file_agrees f s -> file_agrees f s'.
Proof. intros E [C1 C2]. split; by rewrite E. Qed.

(** Calls that leave the metadata alone. *)
Record same_meta (w w' : SequentialWriter S) : Prop := {
  meta_metadata : metadata_ w' = metadata_ w;
  meta_closed : closed_storages w' = closed_storages w;
  meta_first : is_first_message_ w' = is_first_message_ w;
  meta_converter : converter_ w = None -> converter_ w' = None;
  meta_storage s' : storage_ w' = Some s' -> exists s, storage_ w = Some s /\ stored s' = stored s;
}.

#[export] Instance same_meta_preorder : PreOrder same_meta.
Proof.
  split; [by split; eauto|]. intros w1 w2 w3 [E1 E2 E3 E4 E5] [F1 F2 F3 F4 F5]. split; try congruence; [auto|].
  intros s' (s & Hs & ->)%F5. by apply E5.
Qed.

Lemma meta_agrees_same acc w w' : meta_agrees acc w -> same_meta w w' -> meta_agrees acc w'.
Proof.
  intros Hm [E1 E2 E3 _ E5] s' (s & Hs & Est)%E5. destruct (Hm s Hs) as (Hf & Hsp & Hfi). rewrite E1, E2, E3. split_and!; [|done|done].
  apply Forall2_app_inv_r in Hf as (fs & l & Hfs & Hl & ->). apply Forall2_app; [done|].
  apply Forall2_cons_inv_r in Hl as (f & l' & Hfa & Hl & ->). apply Forall2_nil_inv_r in Hl as ->.
  constructor; [by eapply file_agrees_same|constructor].
Qed.

Lemma same_meta_storage (g : S -> S) (k : ST (SequentialWriter S) WriterError unit) :
  (forall s, stored (g s) = stored s) -> Keeps same_meta k -> Keeps same_meta (s ← the_storage; put_storage (g s);; k).
Proof.
  intros Hg Hk w. destruct (storage_ w) as [s|] eqn:E.
  - rewrite (bind_ok _ _ _ _ _ (the_storage_some w s E)). rewrite (bind_ok _ _ _ (set_storage (Some (g s)) w) tt) by done.
    etransitivity; [|apply Hk]. split; try done. intros s' [= <-]. exists s. by rewrite Hg.
  - rewrite (bind_throw _ _ _ _ _ (the_storage_none w E)). simpl. reflexivity.
Qed.

Lemma same_meta_modify f : (forall w : SequentialWriter S, same_meta w (f w)) -> Keeps same_meta (modify (E := WriterError) f).
Proof. intros Hf w. apply Hf. Qed.

Lemma create_topic_with_meta t d : Keeps same_meta (create_topic_with t d).
Proof.
  unfold create_topic_with. apply Keeps_bind; [apply _|eauto with keeps|]. intros w. destruct (topics_names_to_info_ w !! tm_name t); [eauto with keeps|].
  destruct (negb (is_open_ w)); [eauto with keeps|]. apply Keeps_bind; [apply _|apply same_meta_modify; intros w1; split; eauto|]. intros _.
  apply same_meta_storage; [apply stored_create|]. apply same_meta_modify. intros w1. split; eauto. simpl. by intros ->.
Qed.

Lemma create_topic_meta t : Keeps same_meta (create_topic env t).
Proof.
  unfold create_topic. apply Keeps_bind; [apply _|eauto with keeps|]. intros w.
  destruct (topics_names_to_info_ w !! tm_name t); [eauto with keeps|]. apply create_topic_with_meta.
Qed.

Lemma remove_topic_meta t : Keeps same_meta (remove_topic (S := S) t).
Proof.
  unfold remove_topic. apply Keeps_bind; [apply _|eauto with keeps|]. intros w. destruct (negb (is_open_ w)); [eauto with keeps|].
  apply Keeps_bind; [apply _|apply same_meta_modify; intros w1; split; eauto|]. intros _.
  destruct (topics_names_to_info_ w !! tm_name t), (topic_names_to_message_definitions_ w !! tm_name t); eauto with keeps.
  intros w1. pose proof (same_meta_storage (storage_remove_topic t) (mret tt) (stored_remove t) (Keeps_ret _ tt) w1) as Hk.
  unfold mbind, ST_bind in *. by destruct (the_storage w1) as [[s|e] w2].
Qed.

(** Without a converter and without a cache. *)
Definition plain_recording (acc : list BagMessage) (w : SequentialWriter S) : Prop :=
  uncached acc w /\ converter_ w = None /\ (Forall valid_time (times acc) -> meta_agrees acc w).

Lemma plain_same acc w w' : plain_recording acc w -> uncached acc w' -> same_meta w w' -> plain_recording acc w'.
Proof.
  intros (_ & Hc & Hm) Hu Hs. split; [done|]. split; [by apply Hs|]. intros Hv. eapply meta_agrees_same; [by apply Hm|done].
Qed.

(** After a failed change of files. *)
Lemma no_storage_property acc : file_property env (fun w : SequentialWriter S => uncached acc w /\ storage_ w = None).
Proof.
  split; [|intros w s [_ Hn] Hs; congruence]. intros w w' [Hu Hn] Hsame Hs. split; [by eapply uncached_same|by apply Hs].
Qed.

Lemma write_plain acc w m : plain_recording acc w ->
  plain_recording (acc ++ accepted_by env w (Write m)) (perform env (Write m) w).2.
Proof.
  intros (Hu & Hc & Hm). pose proof (perform_uncached env fresh acc w (Write m) Hu) as Hu'. split; [done|]. revert Hu'. simpl. unfold write. rewrite get_bind.
  destruct (negb (is_open_ w)); [by rewrite app_nil_r|].
  destruct (message_within_accepted_time_range _ _); simpl; [|by rewrite app_nil_r].
  destruct (topics_names_to_info_ w !! topic_name m); [|by rewrite app_nil_r].
  pose proof (write_accepted_keeps env m w) as Hk. simpl in Hk. unfold written_form. rewrite Hc.
  destruct (storage_ w) as [s|] eqn:Hs.
  - pose proof (fun Hv => write_meta acc w m s Hu Hc (Hm Hv) Hv Hs) as Hw.
    destruct (write_accepted env m w) as [[u|e] w']; simpl in *; intros Hu'; (split; [by rewrite Hk|]).
    + unfold times. rewrite fmap_app. intros [Hv Ht]%Forall_app. apply Forall_cons in Ht as [Ht _]. by apply Hw.
    + rewrite app_nil_r. intros Hv s' Hs'. rewrite (Hw Hv) in Hs'. done.
  - destruct (write_accepted_spec env _ w m (no_storage_property acc) (conj Hu Hs)) as [(e & w' & E & _ & Hn)|(conv & w1 & _ & [Hu1 Hn] & E)].
    + rewrite E in *. simpl in *. intros _. split; [by rewrite Hk|]. intros _ s' Hs'. congruence.
    + pose proof (store_uncached (topic_name m) conv acc w1 Hu1) as Hst. rewrite Hn in Hst. rewrite E, Hst in *. simpl in *.
      intros _. split; [by rewrite Hk|]. intros _ s' Hs'. congruence.
Qed.

Lemma split_plain acc w : plain_recording acc w -> plain_recording acc (split_bagfile env w).2.
Proof.
  intros (Hu & Hc & Hm). pose proof (split_bagfile_spec env _ w (uncached_property env fresh acc) Hu) as [Hu' Hk]. split; [done|]. split; [by rewrite Hk|].
  intros Hv. specialize (Hm Hv). unfold split_bagfile, mbind, ST_bind in *. destruct (storage_ w) as [s|] eqn:Hs.
  - destruct Hu as (U1 & U2 & U3 & U4). pose proof (split_files true w s U3 Hs) as Hsplit. destruct (open_read_write env (next_options w)).
    + destruct Hsplit as (path & w2 & s1 & s2 & E & G1 & G2 & G3 & G4 & G5 & G6 & G7 & G8). rewrite E. simpl. intros s' Hs'.
      assert (s' = s2) as -> by congruence. destruct (Hm s Hs) as (Hf & Hsp & Hfi). rewrite G5, G1, G6. split_and!; [|done|done].
      simpl. apply Forall2_app; [|constructor; [|constructor]; split; by rewrite G4].
      apply Forall2_app_inv_r in Hf as (fs & l & Hfs & Hl & ->). apply Forall2_app; [done|].
      apply Forall2_cons_inv_r in Hl as (f & l' & Hfa & Hl & ->). apply Forall2_nil_inv_r in Hl as ->.
      constructor; [by eapply file_agrees_same|constructor].
    + destruct Hsplit as (w2 & E & Hn). rewrite E. simpl. intros s' Hs'. congruence.
  - unfold split_bagfile_local. rewrite (bind_throw _ _ _ _ _ (the_storage_none w Hs)). simpl. intros s' Hs'. congruence.
Qed.

Lemma perform_plain acc w x : plain_recording acc w -> plain_recording (acc ++ accepted_by env w x) (perform env x w).2.
Proof.
  intros Hw. destruct (Hw) as (Hu & Hc & Hm). pose proof (perform_uncached env fresh acc w x Hu) as Hu'.
  destruct x as [m| |t d|t|t| |]; [by apply write_plain|..]; simpl in *; rewrite app_nil_r in *.
  - pose proof (split_plain acc w Hw). by destruct (split_bagfile env w).
  - pose proof (create_topic_with_meta t d w). destruct (create_topic_with t d w). by eapply plain_same.
  - pose proof (create_topic_meta t w). destruct (create_topic env t w). by eapply plain_same.
  - pose proof (remove_topic_meta t w). destruct (remove_topic t w). by eapply plain_same.
  - destruct Hu as (U1 & _). unfold take_snapshot in *. rewrite get_bind, U1 in *. by destruct (negb _).
  - destruct Hu as (U1 & _). unfold thread_step in *. by rewrite get_bind, U1 in *.
Qed.

Lemma opened_plain o co w0 :
  open env o co new_writer = (Ok tt, w0) -> max_cache_size o = 0 -> snapshot_mode o = false ->
  output_serialization_format co = input_serialization_format co -> plain_recording [] w0.
Proof.
  intros Hopen Hz Hmode Hform. destruct (open_spec env fresh o co w0 Hopen) as (O1 & O2 & O3 & _ & O5 & _).
  split; [split_and!; [by rewrite O2; unfold open_caches; rewrite Hz|by rewrite O5|by rewrite O1, Hz|done]|]. revert Hopen.
  unfold open. rewrite get_bind. cbn [is_open_ new_writer]. rewrite Hform, String.eqb_refl.
  set (options := if String.eqb (storage_id o) "" then _ else o). set (w1 := set_base (uri o) options (new_writer (S := S))).
  rewrite (bind_ok _ _ _ w1 tt) by done. rewrite (bind_ok _ _ _ w1 tt) by done.
  destruct (folder_exists env (uri o)); [done|]. destruct (negb (create_directories env (uri o))); [done|].
  unfold open_storage, mbind, ST_bind, modify, get. cbn. destruct (open_read_write env _) as [s|] eqn:Eo; [|done].
  destruct (_ && _); [done|]. rewrite Hmode, Hz. cbn. intros [= <-]. cbn. split; [done|]. intros _ s' [= <-]. split_and!; [|done|done].
  constructor; [|constructor]. split; simpl; by rewrite stored_update, (fresh _ _ Eo).
Qed.

(** A start, a duration and a count that describe the messages [l]. *)
Record describes (starts dur : Z) (l : list BagMessage) : Prop := {
  describes_start : starts = foldr Z.min int64_max (times l);
  describes_order a b : ascending id (times l) -> head (times l) = Some a -> last (times l) = Some b -> starts = a /\ dur = b - a;
}.

Lemma span_describes starts dur l : Forall valid_time (times l) -> (starts, dur) = span_of (times l) -> describes starts dur l.
Proof.
  intros Hv E. split; [by rewrite <- span_of_start, <- E|]. intros a b Ho Ha Hb. destruct (times l) as [|x t]; [done|]. injection Ha as ->.
  rewrite span_of_duration, Hb in E by done. by injection E as -> ->.
Qed.

Lemma Forall2_mono {A B} (P Q : A -> B -> Prop) l k : Forall2 P l k -> (forall x y, y ∈ k -> P x y -> Q x y) -> Forall2 Q l k.
Proof.
  intros Hl HQ. induction Hl as [|x y l k Hxy Hl IH]; constructor; [apply HQ; [by left|done]|]. apply IH. intros x' y' Hy. apply HQ. by right.
Qed.

(** C20: As long as messages are written directly, without a cache, the snapshot
    mode and a conversion: the metadata of every file count the messages in it,
    its start is their earliest time, and if they came in the order of their
    times, its duration is the time from the first to the last.  The start and
    the duration of the whole bag are those of all messages in the same way. *)
Theorem metadata_of_messages o co w0 acc w s :
  open env o co new_writer = (Ok tt, w0) -> max_cache_size o = 0 -> snapshot_mode o = false ->
  output_serialization_format co = input_serialization_format co -> recorded env w0 acc w -> storage_ w = Some s -> Forall valid_time (times acc) ->
  Forall2 (fun f s => file_message_count f = u64 (Z.of_nat (length (stored s))) /\ describes (file_starting_time f) (file_duration f) (stored s))
    (files (metadata_ w)) (closed_storages w ++ [s]) /\
  describes (starting_time (metadata_ w)) (duration (metadata_ w)) acc.
Proof.
  intros Hopen Hz Hmode Hform Hrec Hs Hv.
  assert (Hplain : plain_recording acc w).
  { clear Hs Hv. induction Hrec as [|acc w x _ IH]; [by eapply opened_plain|by apply perform_plain]. }
  destruct Hplain as (Hu & _ & Hm). destruct (Hm Hv s Hs) as (Hf & Hsp & _). split; [|by apply span_describes].
  assert (Hin : Forall valid_time (times (concat (stored <$> (closed_storages w ++ [s]))))).
  { destruct Hu as (_ & _ & _ & Hin). unfold in_files in Hin. rewrite Hs in Hin. simpl in Hin.
    rewrite fmap_app, concat_app. simpl. by rewrite app_nil_r, Hin. }
  eapply Forall2_mono; [exact Hf|]. intros f s' Hs' [C1 C2]. split; [done|]. apply span_describes; [|done].
  unfold times in *. rewrite Forall_fmap, Forall_forall in Hin |- *. intros m Hmem. apply Hin. apply list_elem_of_In, in_concat.
  exists (stored s'). split; apply list_elem_of_In; [|done]. by apply list_elem_of_fmap_2.
Qed.
End Metadata.
