(* ===== verification/SequentialWriterRuns.v ===== *)
(** * Recordings, run

    Sequences of calls of [SequentialWriter] over storages in memory: the
    witnesses of the theorems about recordings, the states in which metadata
    and messages go wrong, and what the calls on a closed bag return. *)

From Stdlib Require Import ZArith Lia Ascii String.
From stdpp Require Import base numbers list gmap strings sorting.
From S2P Require Import Prelude Computation BagCache CacheConsumer BagStorage SequentialWriter SequentialWriterFacts SequentialWriterMetadata.
#[local] Open Scope Z_scope.

(** ** Recordings in memory *)

Fixpoint run_calls {S} `{ReadWriteInterface S} (env : WriterEnvironment S) (l : list Call) (acc : list BagMessage) (w : SequentialWriter S) :
    list BagMessage * SequentialWriter S :=
  match l with
  | [] => (acc, w)
  | x :: l => run_calls env l (acc ++ accepted_by env w x) (perform env x w).2
  end.

Lemma recorded_calls {S} `{ReadWriteInterface S} (env : WriterEnvironment S) w0 l acc w :
  recorded env w0 acc w -> recorded env w0 (run_calls env l acc w).1 (run_calls env l acc w).2.
Proof. revert acc w. induction l as [|x l IH]; intros acc w Hr; [done|]. by apply IH, recorded_call. Qed.

Definition memory_formats : Formats := mkFormats (fun _ => true) (fun _ => true) (fun _ _ => buffer_length).

(** The file of index 1 cannot be opened if [broken]. *)
Definition memory_writer_environment (broken : bool) : WriterEnvironment MemoryBag :=
  mkWriterEnvironment MemoryBag
    (fun o => if broken && String.eqb (uri o) "bag/bag_1" then None else Some (new_memory (uri o) []))
    (fun _ => false) (fun _ => true) (fun path => if String.prefix "bag/" path then Some 100 else None)
    (fun _ => None) "memory" "jazzy" memory_formats.

Lemma memory_fresh broken o s : open_read_write (memory_writer_environment broken) o = Some s -> stored s = [].
Proof. simpl. destruct (_ && _); [done|]. by intros [= <-]. Qed.

Definition bag_options (file_size cache_size : Z) (snapshot : bool) : StorageOptions :=
  mkOptions "bag" "memory" file_size 0 cache_size "" "" snapshot (-1) (-1) ∅.

Definition same_format : ConverterOptions := mkConverterOptions "cdr" "cdr".
Definition a_topic : TopicMetadata := mkTopic 0 "a" "t" "cdr" [] "".
Definition at_time (t : Z) : BagMessage := mkMessage "a" 16 t.

Definition opened_bag (broken : bool) (o : StorageOptions) : SequentialWriter MemoryBag :=
  (open (memory_writer_environment broken) o same_format new_writer).2.

Definition create_a : Call := CreateTopic a_topic (empty_message_definition_for "t").

(** Three messages, in two files. *)
Definition direct_options : StorageOptions := bag_options 20 0 false.
Definition direct_calls : list Call := [create_a; Write (at_time 10); Write (at_time 20); Write (at_time 30)].
Definition direct_run := run_calls (memory_writer_environment false) direct_calls [] (opened_bag false direct_options).

Lemma direct_recorded : recorded (memory_writer_environment false) (opened_bag false direct_options) direct_run.1 direct_run.2.
Proof. unfold direct_run. apply (recorded_calls _ _ direct_calls), recorded_here. Qed.

Example direct_files : memory_messages <$> closed_storages direct_run.2 = [[at_time 10; at_time 20]] /\
  (memory_messages <$> storage_ direct_run.2) = Some [at_time 30].
Proof. by vm_compute. Qed.

(** A cache that is full after two messages. *)
Definition cached_options : StorageOptions := bag_options 0 30 false.
Definition cached_calls : list Call :=
  [create_a; ThreadStep; Write (at_time 10); Write (at_time 20); Write (at_time 30); ThreadStep; ThreadStep; Write (at_time 40)].
Definition cached_run := run_calls (memory_writer_environment false) cached_calls [] (opened_bag false cached_options).

Lemma cached_recorded : recorded (memory_writer_environment false) (opened_bag false cached_options) cached_run.1 cached_run.2.
Proof. unfold cached_run. apply (recorded_calls _ _ cached_calls), recorded_here. Qed.

Example cached_state : cached_run.1 = [at_time 10; at_time 20; at_time 30; at_time 40] /\ dropped "a" cached_run.2 = 1 /\
  in_files cached_run.2 = [] /\ in_cache cached_run.2 = [at_time 10; at_time 20; at_time 40].
Proof. by vm_compute. Qed.

Lemma recording_conserves_witness :
  exists log, logged cached_options cached_run.1 log cached_run.2 /\ in_files cached_run.2 ++ in_cache cached_run.2 = accepted log.
Proof.
  apply (recording_conserves (memory_writer_environment false) (memory_fresh false) cached_options same_format (opened_bag false cached_options)).
  - by vm_compute.
  - by vm_compute.
  - by vm_compute.
  - exact cached_recorded.
Defined.

Lemma close_writes_everything_witness :
  exists w' log, close (memory_writer_environment false) cached_run.2 = (Ok tt, w') /\ logged cached_options cached_run.1 log cached_run.2 /\
    concat (stored <$> closed_storages w') = accepted log /\ storage_ w' = None.
Proof.
  apply (close_writes_everything (memory_writer_environment false) (memory_fresh false) cached_options same_format (opened_bag false cached_options)).
  - by vm_compute.
  - by vm_compute.
  - by vm_compute.
  - exact cached_recorded.
  - by vm_compute.
  - by vm_compute.
Defined.

Lemma metadata_of_messages_witness :
  Forall2 (fun f s => file_message_count f = u64 (Z.of_nat (length (stored s))) /\ describes (file_starting_time f) (file_duration f) (stored s))
    (files (metadata_ direct_run.2)) (closed_storages direct_run.2 ++ [default (new_memory "" []) (storage_ direct_run.2)]) /\
  describes (starting_time (metadata_ direct_run.2)) (duration (metadata_ direct_run.2)) [at_time 10; at_time 20; at_time 30].
Proof.
  apply (metadata_of_messages (memory_writer_environment false) (memory_fresh false) direct_options same_format (opened_bag false direct_options)).
  - by vm_compute.
  - by vm_compute.
  - by vm_compute.
  - by vm_compute.
  - assert (E : direct_run.1 = [at_time 10; at_time 20; at_time 30]) by (by vm_compute). rewrite <- E. exact direct_recorded.
  - by vm_compute.
  - repeat (constructor; [by vm_compute|]). constructor.
Defined.

(** ** Where the metadata and the checks fall short *)

(** A message that comes late moves the start and leaves the duration: the
    message of time 20 is after its end. *)
Example late_message : let w := (run_calls (memory_writer_environment false) [create_a; Write (at_time 10); Write (at_time 20); Write (at_time 5)] []
                                   (opened_bag false (bag_options 0 0 false))).2 in
  starting_time (metadata_ w) = 5 /\ duration (metadata_ w) = 10.
Proof. by vm_compute. Qed.

(** The count of a file counts what the cache dropped. *)
Example dropped_counted : file_message_count <$> files (metadata_ cached_run.2) = [4].
Proof. by vm_compute. Qed.

(** The sizes of the files are asked for by their names without the folder. *)
Example size_not_found : let w := (close (memory_writer_environment false) direct_run.2).2 in
  relative_file_paths (metadata_ w) = ["bag_0"; "bag_1"]%string /\ bag_size (metadata_ w) = 0 /\
  file_size (memory_writer_environment false) "bag/bag_0" = Some 100.
Proof. by vm_compute. Qed.

(** After a file could not be opened messages are still accepted, and lost. *)
Definition broken_run := run_calls (memory_writer_environment true)
  [create_a; Write (at_time 10); Split; Write (at_time 20)] [] (opened_bag true (bag_options 0 100 false)).

Example lost_after_failure : broken_run.1 = [at_time 10; at_time 20] /\ is_open_ broken_run.2 = true /\
  let w := (close (memory_writer_environment true) broken_run.2).2 in
  concat (memory_messages <$> closed_storages w) = [at_time 10] /\ storage_ w = None /\ dropped "a" broken_run.2 = 0.
Proof. by vm_compute. Qed.

Section Checks.
Context {S : Type} `{ReadWriteInterface S} (env : WriterEnvironment S).

(** [split_bagfile] is the one method that does not ask whether the bag is
    open. *)
Theorem split_without_storage (w : SequentialWriter S) : storage_ w = None -> split_bagfile env w = (Throw NullPointer, w).
Proof. intros Hs. unfold split_bagfile, split_bagfile_local, the_storage, mbind, ST_bind, get. by rewrite Hs. Qed.

Theorem closed_calls (w : SequentialWriter S) m topic definition :
  is_open_ w = false ->
  write env m w = (Throw NotOpen, w) /\ remove_topic topic w = (Throw NotOpen, w) /\ close env w = (Ok tt, w) /\
  (topics_names_to_info_ w !! tm_name topic = None -> create_topic_with topic definition w = (Throw NotOpen, w)).
Proof.
  intros Hc. unfold write, remove_topic, close, create_topic_with. rewrite !get_bind, Hc. split_and!; try done. by intros ->.
Qed.
End Checks.
