(* ===== verification/BagRewrite.v ===== *)
(** * Rewriting bags

    [rosbag2/rosbag2_transport]: the choice of topics ([topic_filter.cpp]) and
    the function that reads several bags and writes their messages, in the
    order of their times, to others ([bag_rewrite.cpp]).

    The inputs are readers ([SequentialReader]) with the message that was taken
    from each but not yet used; the outputs are writers ([SequentialWriter]).
    [std::regex] and the search for the libraries of message types are
    arguments.  Compressed bags are not modelled.

    The theorems: the loop writes every message of every input once, and in the
    order of the times if each input is in this order ([inputs_merged]); a
    topic that is excluded is not taken, whatever else is asked for
    ([excluded_not_taken]). *)

From Stdlib Require Import ZArith Lia Ascii String.
From stdpp Require Import base numbers list gmap strings sorting.
From S2P Require Import Prelude OrderedMap Computation Qos BagCache BagStorage SequentialWriter SequentialWriterRuns SequentialReader.
#[local] Open Scope Z_scope.

(** ** The choice of topics *)

(** The fields of [RecordOptions] that the filter reads. *)
Record RecordOptions := mkRecordOptions {
  all_topics : bool;
  all_services : bool;
  topics : list string;
  topic_types : list string;
  services : list string;
  exclude_record_topics : list string;
  exclude_topic_types : list string;
  exclude_record_services : list string;
  rmw_serialization_format : string;
  regex : string;
  exclude_regex : string;
  include_hidden_topics : bool;
  include_unpublished_topics : bool;
  ignore_leaf_topics : bool;
}.

Definition has_single_type (types : list string) : bool :=
  match types with
  | [] => false
  | reference_type :: _ => forallb (fun t => String.eqb reference_type t) types
  end.

(** The parts between the separators; of these the empty ones are left out. *)
Fixpoint tokens (l : list ascii) : list (list ascii) :=
  match l with
  | [] => [[]]
  | c :: l =>
    if is_slash c then [] :: tokens l else
    match tokens l with
    | [] => [[c]]
    | t :: ts => (c :: t) :: ts
    end
  end.

Definition topic_is_hidden (topic_name : string) : bool :=
  existsb (fun t => match t with c :: _ => Ascii.eqb c "_" | [] => false end) (tokens (list_ascii_of_string topic_name)).

Definition in_list (x : string) (l : list string) : bool := existsb (String.eqb x) l.

(** The part of [extract_type_identifier] that decides and the package. *)
Definition type_package (full_type : string) : option string :=
  let '(name, before) := split_last full_type in
  match before, name with
  | _ :: _ :: _, _ :: _ => Some (string_of_list_ascii (span (fun c => negb (is_slash c)) (list_ascii_of_string full_type)).1)
  | _, _ => None
  end.

(** [published], [subscribed]: the topics with publishers and with
    subscriptions; there is no graph without them. *)
Record Graph := mkGraph {
  published : list string;
  subscribed : list string;
}.

Section TopicFilter.
Context (regex_search : string -> string -> bool) (has_library : string -> bool).

Record TopicFilter := mkTopicFilter {
  record_options_ : RecordOptions;
  allow_unknown_types_ : bool;
  node_graph_ : option Graph;
}.

Definition type_is_known (topic_type : string) : bool :=
  match type_package topic_type with Some package => has_library package | None => false end.

(** The includes, for a name and the lists it may be in. *)
Definition included (o : RecordOptions) (listed : bool) (name : string) : bool :=
  listed || (negb (String.eqb (regex o) "") && regex_search (regex o) name).

Definition excluded_by_regex (o : RecordOptions) (name : string) : bool :=
  negb (String.eqb (exclude_regex o) "") && regex_search (exclude_regex o) name.

Definition take_plain_topic (o : RecordOptions) (topic_name topic_type : string) : bool :=
  if negb (all_topics o) && bool_decide (topics o = []) && bool_decide (topic_types o = []) && String.eqb (regex o) "" &&
     negb (include_hidden_topics o) then false else
  if negb (all_topics o) && negb (included o (in_list topic_name (topics o) || in_list topic_type (topic_types o)) topic_name) then false else
  if in_list topic_type (exclude_topic_types o) then false else
  if in_list topic_name (exclude_record_topics o) then false else
  if excluded_by_regex o topic_name then false else
  negb (negb (include_hidden_topics o) && topic_is_hidden topic_name).

Definition take_service_topic (o : RecordOptions) (topic_name : string) : bool :=
  if negb (all_services o) && bool_decide (services o = []) && String.eqb (regex o) "" then false else
  let service_name := service_event_topic_name_to_service_name topic_name in
  if negb (all_services o) && negb (included o (in_list topic_name (services o)) service_name) then false else
  if in_list topic_name (exclude_record_services o) then false else
  negb (excluded_by_regex o service_name).

Definition take_topic (f : TopicFilter) (topic_name : string) (types : list string) : bool :=
  let o := record_options_ f in
  match types with
  | topic_type :: _ =>
    if negb (has_single_type types) then false else
    if negb (include_unpublished_topics o) && match node_graph_ f with Some g => negb (in_list topic_name (published g)) | None => false end then false else
    if ignore_leaf_topics o && match node_graph_ f with Some g => negb (in_list topic_name (subscribed g)) | None => false end then false else
    (if is_service_event_topic topic_name topic_type then take_service_topic o topic_name else take_plain_topic o topic_name topic_type) &&
    (allow_unknown_types_ f || type_is_known topic_type)
  | [] => false
  end.

Definition filter_topics (f : TopicFilter) (names_and_types : list (string * list string)) : list (string * string) :=
  (fun x => (x.1, default "" (head x.2))) <$> filter (fun x => take_topic f x.1 x.2 = true) names_and_types.

(** Excluding wins. *)
Theorem excluded_not_taken f topic_name types :
  (if is_service_event_topic topic_name (default "" (head types))
   then in_list topic_name (exclude_record_services (record_options_ f)) ||
        excluded_by_regex (record_options_ f) (service_event_topic_name_to_service_name topic_name)
   else in_list topic_name (exclude_record_topics (record_options_ f)) ||
        in_list (default "" (head types)) (exclude_topic_types (record_options_ f)) || excluded_by_regex (record_options_ f) topic_name) = true ->
  take_topic f topic_name types = false.
Proof.
  destruct types as [|t types]; [done|]. simpl head. simpl default. unfold take_topic, take_service_topic, take_plain_topic.
  repeat case_match; simpl; try done; intros E; repeat (apply orb_true_iff in E as [E|E]);
    first [congruence|by rewrite E].
Qed.
End TopicFilter.

(** ** The loop *)

Section Rewrite.
Context {S W : Type} `{ReadOnlyInterface S} `{!BaseInfoInterface W} `{!ReadWriteInterface W}.
Context (renv : ReaderEnvironment S) (wenv : WriterEnvironment W).

(** An input, and what was taken from it. *)
Definition Input : Type := SequentialReader.SequentialReader S * option BagMessage.

(** [next_messages[i]], refilled. *)
Definition refill (x : Input) : Result ReaderError unit * Input :=
  match x.2 with
  | Some _ => (Ok tt, x)
  | None =>
    match SequentialReader.has_next renv x.1 with
    | (Ok true, r) => match SequentialReader.read_next renv r with
                      | (Ok m, r) => (Ok tt, (r, Some m))
                      | (Throw e, r) => (Throw e, (r, None))
                      end
    | (Ok false, r) => (Ok tt, (r, None))
    | (Throw e, r) => (Throw e, (r, None))
    end
  end.

(** [earliest]: the index of a message and the message. *)
Definition earlier (earliest : option (nat * BagMessage)) (i : nat) (msg : option BagMessage) : option (nat * BagMessage) :=
  match msg with
  | None => earliest
  | Some m =>
    match earliest with
    | None => Some (i, m)
    | Some (_, e) => if recv_timestamp m <? recv_timestamp e then Some (i, m) else earliest
    end
  end.

Fixpoint find_earliest (earliest : option (nat * BagMessage)) (i : nat) (inputs : list Input) :
    Result ReaderError (option (nat * BagMessage)) * list Input :=
  match inputs with
  | [] => (Ok earliest, [])
  | x :: inputs =>
    match refill x with
    | (Throw e, x) => (Throw e, x :: inputs)
    | (Ok _, x) => let '(r, inputs) := find_earliest (earlier earliest i x.2) (i + 1) inputs in (r, x :: inputs)
    end
  end.

Definition get_next (inputs : list Input) : Result ReaderError (option BagMessage) * list Input :=
  match find_earliest None 0 inputs with
  | (Throw e, inputs) => (Throw e, inputs)
  | (Ok None, inputs) => (Ok None, inputs)
  | (Ok (Some (i, m)), inputs) => (Ok (Some m), alter (fun x : Input => (x.1, None)) i inputs)
  end.

Inductive RewriteError := ReadFailed (e : ReaderError) | WriteFailed (e : WriterError) | NoBags | Endless.

(** The writers that want a topic, by their indices. *)
Definition Outputs : Type := gmap string (list nat).

Definition write_to (m : BagMessage) (i : nat) (writers : list (SequentialWriter.SequentialWriter W)) :
    Result RewriteError unit * list (SequentialWriter.SequentialWriter W) :=
  match writers !! i with
  | None => (Ok tt, writers)
  | Some w => match SequentialWriter.write wenv m w with
              | (Ok _, w) => (Ok tt, <[i := w]> writers)
              | (Throw e, w) => (Throw (WriteFailed e), <[i := w]> writers)
              end
  end.

Definition write_outputs (outputs : Outputs) (m : BagMessage) : ST (list (SequentialWriter.SequentialWriter W)) RewriteError unit :=
  for_each (write_to m) (default [] (outputs !! topic_name m)).

(** For [n] messages at most. *)
Fixpoint rewrite_loop (n : nat) (outputs : Outputs) (inputs : list Input) (writers : list (SequentialWriter.SequentialWriter W)) :
    Result RewriteError unit * list (SequentialWriter.SequentialWriter W) :=
  match n with
  | O => (Throw Endless, writers)
  | Datatypes.S n =>
    match get_next inputs with
    | (Throw e, _) => (Throw (ReadFailed e), writers)
    | (Ok None, _) => (Ok tt, writers)
    | (Ok (Some m), inputs) =>
      match write_outputs outputs m writers with
      | (Throw e, writers) => (Throw e, writers)
      | (Ok _, writers) => rewrite_loop n outputs inputs writers
      end
    end
  end.

(** The messages that the loop takes. *)
Fixpoint take_all (n : nat) (inputs : list Input) : option (list BagMessage) :=
  match n with
  | O => None
  | Datatypes.S n =>
    match get_next inputs with
    | (Throw _, _) => None
    | (Ok None, _) => Some []
    | (Ok (Some m), inputs) => l ← take_all n inputs; Some (m :: l)
    end
  end.
End Rewrite.

(** ** Setting up *)

Section Setup.
Context (regex_search : string -> string -> bool) (has_library : string -> bool).
Context {S W : Type} `{ReadOnlyInterface S} `{!BaseInfoInterface W} `{!ReadWriteInterface W}.
Context (renv : ReaderEnvironment S) (wenv : WriterEnvironment W).

Notation Writers := (list (SequentialWriter.SequentialWriter W)).

(** What is found in the inputs. *)
Record Gathered := mkGathered {
  input_topics : gmap string (list string);
  input_topics_qos_profiles : gmap string (list QosProfile);
  input_topics_serialization_format : gmap string string;
  message_definitions_map : gmap string MessageDefinition;
}.

Definition gather_topic (g : Gathered) (t : TopicMetadata) : Gathered :=
  mkGathered
    (<[tm_name t := default [] (input_topics g !! tm_name t) ++ [tm_type t]]> (input_topics g))
    (<[tm_name t := default [] (input_topics_qos_profiles g !! tm_name t) ++ tm_offered_qos_profiles t]> (input_topics_qos_profiles g))
    (<[tm_name t := tm_serialization_format t]> (input_topics_serialization_format g))
    (message_definitions_map g).

Definition gather_definition (g : Gathered) (d : MessageDefinition) : Gathered :=
  mkGathered (input_topics g) (input_topics_qos_profiles g) (input_topics_serialization_format g)
    (<[definition_topic_type d := d]> (message_definitions_map g)).

(** [None]: a reader is not open. *)
Fixpoint gather (g : Gathered) (readers : list (SequentialReader.SequentialReader S)) : option Gathered :=
  match readers with
  | [] => Some g
  | r :: readers =>
    match SequentialReader.storage_ r with
    | None => None
    | Some s =>
      gather (foldl gather_definition (foldl gather_topic g (SequentialReader.topics_metadata_ r)) (storage_message_definitions s)) readers
    end
  end.

(** The topic of a writer. *)
Definition output_topic (g : Gathered) (o : RecordOptions) (x : string * string) : TopicMetadata :=
  mkTopic 0 x.1 x.2
    (if String.eqb (rmw_serialization_format o) "" then default ""%string (input_topics_serialization_format g !! x.1) else rmw_serialization_format o)
    (default [] (input_topics_qos_profiles g !! x.1)) "".

Definition create_output (g : Gathered) (o : RecordOptions) (x : string * string) : ST (SequentialWriter.SequentialWriter W) WriterError unit :=
  match message_definitions_map g !! x.2 with
  | Some d => SequentialWriter.create_topic_with (output_topic g o x) d
  | None => SequentialWriter.create_topic wenv (output_topic g o x)
  end.

Definition add_output (i : nat) (outputs : Outputs) (x : string * string) : Outputs :=
  <[x.1 := default [] (outputs !! x.1) ++ [i]]> outputs.

(** The writers from index [i] on. *)
Fixpoint setup_outputs (g : Gathered) (i : nat) (outputs : Outputs) (l : list (SequentialWriter.SequentialWriter W * RecordOptions)) :
    Result RewriteError Outputs * Writers :=
  match l with
  | [] => (Ok outputs, [])
  | (w, o) :: l =>
    let chosen := filter_topics regex_search has_library (mkTopicFilter o false None) (in_order (input_topics g)) in
    match for_each (create_output g o) chosen w with
    | (Throw e, w) => (Throw (WriteFailed e), w :: (fst <$> l))
    | (Ok _, w) => let '(r, ws) := setup_outputs g (i + 1) (foldl (add_output i) outputs chosen) l in (r, w :: ws)
    end
  end.

Definition perform_rewrite (n : nat) (readers : list (SequentialReader.SequentialReader S))
    (l : list (SequentialWriter.SequentialWriter W * RecordOptions)) : Result RewriteError unit * Writers :=
  match readers, l with
  | [], _ | _, [] => (Throw NoBags, fst <$> l)
  | _, _ =>
    match gather (mkGathered ∅ ∅ ∅ ∅) readers with
    | None => (Throw (ReadFailed NotOpen), fst <$> l)
    | Some g =>
      match setup_outputs g 0 ∅ l with
      | (Throw e, ws) => (Throw e, ws)
      | (Ok outputs, ws) => rewrite_loop renv wenv n outputs ((fun r => (r, None)) <$> readers) ws
      end
    end
  end.

(** ** The function *)

Definition blank_converter_options : ConverterOptions := mkConverterOptions "" "".

Fixpoint open_inputs (l : list StorageOptions) : Result RewriteError (list (SequentialReader.SequentialReader S)) :=
  match l with
  | [] => Ok []
  | o :: l =>
    match SequentialReader.open renv o blank_converter_options SequentialReader.new_reader with
    | (Throw e, _) => Throw (ReadFailed e)
    | (Ok _, r) => match open_inputs l with Throw e => Throw e | Ok rs => Ok (r :: rs) end
    end
  end.

(** The writers that were made, with an exception if one could not be opened. *)
Fixpoint open_outputs (l : list (StorageOptions * RecordOptions)) : Result RewriteError unit * list (SequentialWriter.SequentialWriter W * RecordOptions) :=
  match l with
  | [] => (Ok tt, [])
  | (o, record_options) :: l =>
    match SequentialWriter.open wenv (set_max_cache_size 0 o) blank_converter_options SequentialWriter.new_writer with
    | (Throw e, w) => (Throw (WriteFailed e), [(w, record_options)])
    | (Ok _, w) => let '(r, ws) := open_outputs l in (r, (w, record_options) :: ws)
    end
  end.

(** The writers, after they were destroyed, which is also done after an
    exception. *)
Definition bag_rewrite (n : nat) (input_options : list StorageOptions) (output_options : list (StorageOptions * RecordOptions)) :
    Result RewriteError unit * Writers :=
  match open_inputs input_options with
  | Throw e => (Throw e, [])
  | Ok readers =>
    let '(r, ws) := match open_outputs output_options with
                    | (Throw e, l) => (Throw e, fst <$> l)
                    | (Ok _, l) => perform_rewrite n readers l
                    end in
    (r, (fun w => (SequentialWriter.destroy wenv w).2) <$> ws)
  end.
End Setup.

(** ** Every message once, in order *)

Section Merge.
Context {S : Type} `{ReadLaws S} (renv : ReaderEnvironment S).
Context (contents : string -> ReadOrder -> StorageFilter -> Z -> list BagMessage).

(** What an input still has to give. *)
Definition gives (x : Input (S := S)) (l : list BagMessage) : Prop :=
  readable renv (SequentialReader.file_paths_ x.1) contents /\ SequentialReader.converter_ x.1 = None /\
  exists l', reading contents x.1 l' /\ l = option_list x.2 ++ l'.

Lemma refill_spec x l : gives x l -> exists x', refill renv x = (Ok tt, x') /\ gives x' l /\ x'.2 = head l.
Proof.
  intros (Hr & Hc & l' & Hl & Heq). unfold refill. destruct x as [r [m|]]; simpl in *; subst l.
  - exists (r, Some m). split_and!; [done| |done]. split_and!; [done|done|]. by exists l'.
  - destruct (has_next_spec renv contents r l' Hr Hl) as (r1 & -> & Hb & Hl1 & _). destruct l' as [|m l'].
    + rewrite bool_decide_eq_false_2 by (intros []; done). exists (r1, None). split_and!; [done| |done].
      split_and!; simpl; [by rewrite (same_paths _ _ Hb)|by rewrite (same_converter _ _ Hb)|by exists []].
    + rewrite bool_decide_eq_true_2 by done.
      destruct (read_next_spec renv contents r1 m l') as (r2 & -> & Hb2 & Hl2); [by rewrite (same_paths _ _ Hb)|by rewrite (same_converter _ _ Hb)|done|].
      exists (r2, Some m). split_and!; [done| |done]. split_and!; simpl; [| |by exists l'].
      * by rewrite (same_paths _ _ Hb2), (same_paths _ _ Hb).
      * by rewrite (same_converter _ _ Hb2), (same_converter _ _ Hb).
Qed.

(** The search, in the lists of what is left. *)
Fixpoint earliest_of (e : option (nat * BagMessage)) (i : nat) (ls : list (list BagMessage)) : option (nat * BagMessage) :=
  match ls with
  | [] => e
  | l :: ls => earliest_of (earlier e i (head l)) (i + 1) ls
  end.

Lemma find_earliest_spec e i inputs ls : Forall2 gives inputs ls ->
  exists inputs', find_earliest renv e i inputs = (Ok (earliest_of e i ls), inputs') /\ Forall2 (fun x l => gives x l /\ x.2 = head l) inputs' ls.
Proof.
  intros Hg. revert e i. induction Hg as [|x l inputs ls Hx Hg IH]; intros e i; simpl; [by exists []|].
  destruct (refill_spec x l Hx) as (x' & -> & Hx' & Hh). destruct (IH (earlier e i x'.2) (i + 1)%nat) as (inputs' & -> & Hg').
  exists (x' :: inputs'). rewrite Hh. split; [done|]. by constructor.
Qed.

(** The earliest of [e] and the heads: it is one of them, and none is earlier. *)
Lemma earliest_of_spec e i ls :
  match earliest_of e i ls with
  | None => e = None /\ Forall (fun l => l = []) ls
  | Some (k, m) =>
    (e = Some (k, m) \/ exists l j, ls !! j = Some (m :: l) /\ k = (i + j)%nat) /\
    (forall k' m', e = Some (k', m') -> recv_timestamp m <= recv_timestamp m') /\
    (forall l m', l ∈ ls -> head l = Some m' -> recv_timestamp m <= recv_timestamp m')
  end.
Proof.
  revert e i. induction ls as [|l ls IH]; intros e i; simpl.
  - destruct e as [[k m]|]; [|done]. split_and!; [by left|intros k' m' [= -> ->]; lia|]. by intros l m' ?%elem_of_nil.
  - specialize (IH (earlier e i (head l)) (i + 1)%nat). destruct (earliest_of _ (i + 1) ls) as [[k m]|].
    + destruct IH as (Hin & He & Hls).
      assert (Hhead : forall m', head l = Some m' -> recv_timestamp m <= recv_timestamp m').
      { intros m' Hm'. unfold earlier in He. rewrite Hm' in He. destruct e as [[ke me]|]; [|by eapply He].
        destruct (Z.ltb_spec (recv_timestamp m') (recv_timestamp me)) as [Hlt|Hge]; [by eapply He|].
        specialize (He ke me eq_refl). lia. }
      split_and!.
      * destruct Hin as [Hin|(l' & j & Hj & ->)]; [|right; exists l', (Datatypes.S j); split; [done|lia]].
        unfold earlier in Hin. destruct l as [|h l]; simpl in Hin; [by left|].
        destruct e as [[ke me]|]; [destruct (recv_timestamp h <? recv_timestamp me); [|by left]|]; injection Hin as <- <-;
          right; exists l, 0%nat; (split; [done|lia]).
      * intros k' m' ->. unfold earlier in He. destruct (head l) as [h|]; [|by eapply He].
        destruct (Z.ltb_spec (recv_timestamp h) (recv_timestamp m')) as [Hlt|Hge]; [|by eapply He].
        specialize (He i h eq_refl). lia.
      * intros l' m' [->|Hl']%elem_of_cons Hm'; [by apply Hhead|by eapply Hls].
    + destruct IH as [He Hls]. destruct l as [|h l]; [by split; [|constructor]|]. simpl in He. exfalso. destruct e as [[ke me]|]; [|done].
      by destruct (_ <? _).
Qed.

Lemma get_next_spec inputs ls : Forall2 gives inputs ls ->
  match get_next renv inputs with
  | (Throw _, _) => False
  | (Ok None, _) => Forall (fun l => l = []) ls
  | (Ok (Some m), inputs') => exists i l, ls !! i = Some (m :: l) /\ Forall2 gives inputs' (alter tail i ls) /\
      (forall l' m', l' ∈ ls -> head l' = Some m' -> recv_timestamp m <= recv_timestamp m')
  end.
Proof.
  intros Hg. unfold get_next. destruct (find_earliest_spec None 0 inputs ls Hg) as (inputs1 & -> & Hg1).
  pose proof (earliest_of_spec None 0 ls) as He. destruct (earliest_of None 0 ls) as [[i m]|]; [|by apply He].
  destruct He as ([?|(l & j & Hj & ->)] & _ & Hmin); [done|]. simpl. exists j, l. split_and!; [done| |done].
  assert (Hg2 : Forall2 gives inputs1 ls) by (eapply Forall2_impl; [exact Hg1|]; by intros x y [? _]).
  apply Forall2_alter; [done|]. intros x y Hx Hy _. rewrite Hj in Hy. injection Hy as <-.
  destruct (Forall2_lookup_lr _ _ _ _ _ _ Hg1 Hx Hj) as [(Hr & Hc & l' & Hl' & Heq) Hhead]. simpl in Hhead. rewrite Hhead in Heq. injection Heq as ->.
  split_and!; [done|done|]. by exists l'.
Qed.

Lemma concat_alter_tail (ls : list (list BagMessage)) i m l : ls !! i = Some (m :: l) -> concat ls ≡ₚ m :: concat (alter tail i ls).
Proof.
  revert i. induction ls as [|k ls IH]; intros [|i] Hi; [done|done|by injection Hi as ->|]. simpl. rewrite (IH i Hi). by rewrite Permutation_middle.
Qed.

Lemma take_all_spec n inputs ls :
  Forall2 gives inputs ls -> (length (concat ls) < n)%nat ->
  exists l, take_all renv n inputs = Some l /\ l ≡ₚ concat ls /\
    (Forall (ascending recv_timestamp) ls -> ascending recv_timestamp l).
Proof.
  revert inputs ls. induction n as [|n IH]; intros inputs ls Hg Hn; [lia|]. simpl. pose proof (get_next_spec inputs ls Hg) as Hnext.
  destruct (get_next renv inputs) as [[[m|]|e] inputs']; [| |done].
  - destruct Hnext as (i & l & Hi & Hg' & Hmin). pose proof (concat_alter_tail ls i m l Hi) as Hperm.
    destruct (IH inputs' (alter tail i ls) Hg') as (l' & -> & Hp & Ho).
    { apply Permutation_length in Hperm. simpl in Hperm. lia. }
    exists (m :: l'). split_and!; [done|by rewrite Hp, Hperm|]. intros Hall. apply ascending_cons. split.
    + intros y Hy. assert (Hy' : y ∈ concat ls) by (rewrite Hperm; right; by rewrite <- Hp).
      apply list_elem_of_In, in_concat in Hy' as (k' & Hk' & Hyk). apply list_elem_of_In in Hk', Hyk.
      rewrite Forall_forall in Hall. specialize (Hall k' Hk').
      destruct k' as [|h k']; [by apply elem_of_nil in Hyk|]. specialize (Hmin (h :: k') h Hk' eq_refl).
      apply ascending_cons in Hall as [Hh _]. apply elem_of_cons in Hyk as [->|Hyk]; [done|]. specialize (Hh y Hyk). lia.
    + apply Ho. apply Forall_alter; [done|]. intros k Hk. rewrite Hi in Hk. injection Hk as <-.
      rewrite Forall_forall in Hall. specialize (Hall (m :: l) (list_elem_of_lookup_2 _ _ _ Hi)). by apply ascending_cons in Hall as [_ ?].
  - exists []. assert (concat ls = []) as ->. { clear -Hnext. induction Hnext as [|l ls -> _ IH]; [done|exact IH]. }
    split_and!; [done|done|]. intros _. constructor.
Qed.
Context {W : Type} `{!BaseInfoInterface W} `{!ReadWriteInterface W} (wenv : WriterEnvironment W).

Lemma rewrite_loop_taken n inputs l outputs writers : take_all renv n inputs = Some l ->
  rewrite_loop renv wenv n outputs inputs writers = for_each (write_outputs wenv outputs) l writers.
Proof.
  revert inputs l writers. induction n as [|n IH]; intros inputs l writers; [done|]. simpl.
  destruct (get_next renv inputs) as [[[m|]|e] inputs']; [|by intros [= <-]|done].
  destruct (take_all renv n inputs') as [l'|] eqn:El; [|done]. intros [= <-]. simpl. unfold mbind, ST_bind.
  destruct (write_outputs wenv outputs m writers) as [[u|e] writers']; [|done]. by apply IH.
Qed.

(** C23: The loop ends, and what it writes, to the writers that want it, is
    every message of every input once; if the messages of each input are in the
    order of their times, so are those that are written. *)
Theorem inputs_merged n inputs ls :
  Forall2 gives inputs ls -> (length (concat ls) < n)%nat ->
  exists l, (forall outputs writers, rewrite_loop renv wenv n outputs inputs writers = for_each (write_outputs wenv outputs) l writers) /\
    l ≡ₚ concat ls /\ (Forall (ascending recv_timestamp) ls -> ascending recv_timestamp l).
Proof.
  intros Hg Hn. destruct (take_all_spec n inputs ls Hg Hn) as (l & Hl & Hp & Ho). exists l. split; [|done].
  intros outputs writers. by apply rewrite_loop_taken.
Qed.
End Merge.

(** ** Two bags in memory *)

Definition laser_topic : TopicMetadata := mkTopic 0 "scan" "pkg/msg/Scan" "cdr" [] "".
Definition scan_at (t : Z) : BagMessage := mkMessage "scan" 8 t.

Definition scan_file (u : string) (l : list BagMessage) : MemoryBag :=
  mkMemory u l [(laser_topic, empty_message_definition_for "pkg/msg/Scan")]
    (mkMetadata 9 0 "memory" [] [] 0 0 0 [mkTopicInformation laser_topic 2] "" "" ∅ "") default_order no_filter 0 0.

Definition scan_files (path : string) : option (list BagMessage) :=
  if String.eqb path "p" then Some [scan_at 1; scan_at 4] else if String.eqb path "q" then Some [scan_at 2; scan_at 3] else None.

(** Files without metadata. *)
Definition scan_environment : ReaderEnvironment MemoryBag :=
  mkReaderEnvironment MemoryBag (fun o => scan_file (uri o) <$> scan_files (uri o)) (fun _ => false) (fun _ => None) (fun _ => true) (fun _ => true)
    SequentialReader.any_format.

Definition scan_reader (path : string) : SequentialReader.SequentialReader MemoryBag :=
  (SequentialReader.open scan_environment (default_options path) (mkConverterOptions "" "") SequentialReader.new_reader).2.

Definition scan_contents (path : string) (order : ReadOrder) (f : StorageFilter) (t : Z) : list BagMessage :=
  selected order f t (default [] (scan_files path)).

Lemma scan_readable path : is_Some (scan_files path) -> readable scan_environment [path] scan_contents.
Proof.
  intros [l Hl]. split.
  - intros path' o ->%list_elem_of_singleton. simpl. rewrite Hl. by eexists.
  - intros path' o s order f t. simpl. intros (l' & E & ->)%fmap_Some. unfold scan_contents. simpl in *. by rewrite E.
Qed.

Lemma scan_gives path l : SequentialReader.file_paths_ (scan_reader path) = [path] -> is_Some (scan_files path) ->
  SequentialReader.converter_ (scan_reader path) = None ->
  at_file (scan_reader path) (default (scan_file "" []) (SequentialReader.storage_ (scan_reader path))) 0 ->
  l = to_read (default (scan_file "" []) (SequentialReader.storage_ (scan_reader path))) -> gives scan_environment scan_contents (scan_reader path, None) l.
Proof.
  intros Hp Hf Hc Ha ->. split_and!; simpl; [rewrite Hp; by apply scan_readable|done|]. eexists. split; [|done].
  eexists _, 0%nat. split; [exact Ha|]. unfold files_left. rewrite Hp.
  destruct (in_reverse _); simpl; by rewrite app_nil_r.
Qed.

Lemma inputs_merged_witness :
  exists l, (forall outputs writers, rewrite_loop scan_environment (memory_writer_environment false) 5 outputs [(scan_reader "p", None); (scan_reader "q", None)] writers =
      for_each (write_outputs (memory_writer_environment false) outputs) l writers) /\
    l ≡ₚ [scan_at 1; scan_at 4; scan_at 2; scan_at 3] /\
    (Forall (ascending recv_timestamp) [[scan_at 1; scan_at 4]; [scan_at 2; scan_at 3]] -> ascending recv_timestamp l).
Proof.
  apply (inputs_merged scan_environment scan_contents (memory_writer_environment false) 5 _ [[scan_at 1; scan_at 4]; [scan_at 2; scan_at 3]]).
  - constructor; [|constructor; [|constructor]]; (apply scan_gives; [by vm_compute|by eexists; vm_compute|by vm_compute| |by vm_compute]);
      (split_and!; [by vm_compute|by vm_compute|vm_compute; lia]).
  - simpl. lia.
Defined.

(** All of it: both bags are written to one, in order. *)
Definition take_everything : RecordOptions := mkRecordOptions true false [] [] [] [] [] [] "" "" "" false false false.

Example rewrite_two_bags :
  let '(r, ws) := bag_rewrite (fun _ _ => false) (fun _ => true) scan_environment (memory_writer_environment false) 5
                    [default_options "p"; default_options "q"] [(bag_options 0 100 false, take_everything)] in
  r = Ok tt /\ ((fun w => memory_messages <$> SequentialWriter.closed_storages w) <$> ws) = [[[scan_at 1; scan_at 2; scan_at 3; scan_at 4]]].
Proof. by vm_compute. Qed.
