(* ===== verification/Reindexer.v ===== *)
(** * The reindexer of rosbag2

    [rosbag2/rosbag2_cpp/src/rosbag2_cpp/reindexer.cpp]: the metadata of a bag
    whose [metadata.yaml] is lost are made from its files, which one reader
    ([SequentialReader]) opens one after the other.

    The fixed regular expression of the names is a function on strings
    ([bag_number]); the sort is one of those that [std::sort] may be.  Numbers
    that do not fit 64 bits, of which [std::stoul] throws, are not modelled.

    The theorems: the files are exactly those with such a name, in the order of
    their numbers ([bag_files_spec]); the totals of the metadata
    ([aggregate_totals]), of which the duration is the sum of those of the
    files and not the time that the bag covers ([gaps_not_counted]). *)

From Stdlib Require Import ZArith Lia Ascii String.
From stdpp Require Import base numbers list gmap strings sorting.
From S2P Require Import Prelude OrderedMap Computation BagCache BagStorage SequentialReader.
#[local] Open Scope Z_scope.

(** ** The names *)

Definition is_digit (c : ascii) : bool := (48 <=? Ascii.N_of_ascii c)%N && (Ascii.N_of_ascii c <=? 57)%N.
Definition is_alphanumeric (c : ascii) : bool :=
  is_digit c || ((65 <=? Ascii.N_of_ascii c)%N && (Ascii.N_of_ascii c <=? 90)%N) || ((97 <=? Ascii.N_of_ascii c)%N && (Ascii.N_of_ascii c <=? 122)%N).

(** What [.] does not match. *)
Definition ends_line (c : ascii) : bool := (Ascii.N_of_ascii c =? 10)%N || (Ascii.N_of_ascii c =? 13)%N.

(** The value of digits, the last first. *)
Fixpoint digits_value (l : list ascii) : Z :=
  match l with [] => 0 | c :: l => Z.of_N (Ascii.N_of_ascii c) - 48 + 10 * digits_value l end.

(** [.+_(\d+)\.([a-zA-Z0-9])+], read from the end; the number. *)
Definition bag_number (name : string) : option Z :=
  match span is_alphanumeric (rev (list_ascii_of_string name)) with
  | (_ :: _, dot :: rest) =>
    if Ascii.eqb dot "." then
      match span is_digit rest with
      | ((_ :: _) as digits, underscore :: (_ :: _) as before) =>
        if Ascii.eqb underscore "_" && forallb (fun c => negb (ends_line c)) before then Some (digits_value digits) else None
      | _ => None
      end
    else None
  | _ => None
  end.

Example number_of_name : bag_number "bag_12.db3" = Some 12 /\ bag_number "_1.db3" = None /\ bag_number "bag_1." = None /\ bag_number "metadata.yaml" = None.
Proof. by vm_compute. Qed.

Definition number_le (x y : string) : Prop := default 0 (bag_number x) <= default 0 (bag_number y).

#[export] Instance number_le_dec : RelDecision number_le.
Proof. intros x y. unfold number_le. apply _. Defined.

#[export] Instance number_le_total : Total number_le.
Proof. intros x y. unfold number_le. lia. Qed.

#[export] Instance number_le_trans : Transitive number_le.
Proof. intros x y z. unfold number_le. lia. Qed.

(** The files of a directory with these entries. *)
Definition get_bag_files (base_folder : string) (entries : list string) : list string :=
  path_join base_folder <$> merge_sort number_le (filter (fun name => is_Some (bag_number name)) entries).

Theorem bag_files_spec base_folder entries :
  exists names, get_bag_files base_folder entries = path_join base_folder <$> names /\
    names ≡ₚ filter (fun name => is_Some (bag_number name)) entries /\ StronglySorted number_le names.
Proof.
  eexists. split; [done|]. split; [apply merge_sort_Permutation|]. apply (StronglySorted_merge_sort number_le).
Qed.

(** ** The metadata *)

Definition init_metadata (files : list string) (o : StorageOptions) : BagMetadata :=
  mkMetadata 9 0 (storage_id o) ((fun path => generic_string (path_filename path)) <$> files) [] 0 int64_max 0 [] "" "" ∅ "".

(** The options for one file: they are given in the order of the fields, and
    the last one given lands in [storage_preset_profile]. *)
Definition file_options (path : string) (o : StorageOptions) : StorageOptions :=
  mkOptions path (storage_id o) (max_bagfile_size o) (max_bagfile_duration o) (max_cache_size o) (storage_config_uri o) "" false (-1) (-1) ∅.

Definition merge_topic (t : TopicInformation) (old : TopicInformation) : TopicInformation :=
  let m := topic_metadata old in
  let n := topic_metadata t in
  mkTopicInformation
    (mkTopic (tm_id m) (tm_name m) (if String.eqb (tm_type n) "" then tm_type m else tm_type n)
      (if String.eqb (tm_serialization_format n) "" then tm_serialization_format m else tm_serialization_format n)
      (match tm_offered_qos_profiles n with [] => tm_offered_qos_profiles m | profiles => profiles end) (tm_type_description_hash m))
    (u64 (topic_message_count old + topic_message_count t)).

Definition add_topic (topics : gmap string TopicInformation) (t : TopicInformation) : gmap string TopicInformation :=
  let name := tm_name (topic_metadata t) in
  match topics !! name with
  | None => <[name := t]> topics
  | Some old => <[name := merge_topic t old]> topics
  end.

(** The metadata so far, the topics and the latest start of a file. *)
Record Progress := mkProgress {
  progress_metadata : BagMetadata;
  temp_topic_info : gmap string TopicInformation;
  latest_log_start : Z;
}.

(** What a file with the metadata [t] and [size] bytes adds. *)
Definition aggregate_file (size : Z) (t : BagMetadata) (p : Progress) : Progress :=
  let m := progress_metadata p in
  let later := latest_log_start p <? starting_time t in
  mkProgress
    (mkMetadata (version m) (u64 (bag_size m + size)) (storage_identifier t) (relative_file_paths m) (files m)
      (i64 (duration m + duration t)) (if starting_time t <? starting_time m then starting_time t else starting_time m)
      (u64 (message_count m + message_count t)) (topics_with_message_count m) (compression_format m) (compression_mode m)
      (if later && negb (bool_decide (custom_data t = ∅)) then custom_data t else custom_data m)
      (if later && negb (String.eqb (ros_distro t) "") then ros_distro t else ros_distro m))
    (foldl add_topic (temp_topic_info p) (topics_with_message_count t))
    (if later then starting_time t else latest_log_start p).

Section Reindexer.
Context {S : Type} `{ReadOnlyInterface S} (env : ReaderEnvironment S) (file_size : string -> Z).

Fixpoint aggregate_files (o : StorageOptions) (files : list string) (p : Progress) : ST (SequentialReader S) ReaderError Progress :=
  match files with
  | [] => mret p
  | path :: files =>
    open env (file_options path o) (mkConverterOptions "" "");;
    t ← get_metadata;
    close;;
    aggregate_files o files (aggregate_file (file_size path) t p)
  end.

Definition aggregate_metadata (o : StorageOptions) (files : list string) (m : BagMetadata) : ST (SequentialReader S) ReaderError BagMetadata :=
  p ← aggregate_files o files (mkProgress m ∅ int64_min);
  let m := progress_metadata p in
  mret (mkMetadata (version m) (bag_size m) (storage_identifier m) (relative_file_paths m) (BagStorage.files m) (duration m) (starting_time m) (message_count m)
    (topics_with_message_count m ++ (in_order (temp_topic_info p)).*2) (compression_format m) (compression_mode m) (custom_data m) (ros_distro m)).

(** The metadata that are written; [None]: there are no files. *)
Definition reindex (o : StorageOptions) (entries : list string) : option (Result ReaderError BagMetadata) :=
  match entries, get_bag_files (uri o) entries with
  | [], _ | _, [] => None
  | _, files => Some (aggregate_metadata o files (init_metadata files o) new_reader).1
  end.
End Reindexer.

(** ** The totals *)

(** What the files say, for the whole bag. *)
Definition aggregate (l : list (Z * BagMetadata)) (p : Progress) : Progress := foldl (fun p x => aggregate_file x.1 x.2 p) p l.

Definition sum_of (f : BagMetadata -> Z) (l : list (Z * BagMetadata)) : Z := foldr (fun x n => f x.2 + n) 0 l.

Lemma sum_of_snoc f l x : sum_of f (l ++ [x]) = sum_of f l + f x.2.
Proof. unfold sum_of. induction l as [|y l IH]; simpl; lia. Qed.

Lemma i64_step a b : i64 (i64 a + b) = i64 (a + b).
Proof.
  unfold wrap_s. replace ((a + 2 ^ (64 - 1)) mod 2 ^ 64 - 2 ^ (64 - 1) + b + 2 ^ (64 - 1)) with ((a + 2 ^ (64 - 1)) mod 2 ^ 64 + b) by lia.
  rewrite Z.add_mod_idemp_l by done. do 2 f_equal. lia.
Qed.

Lemma min_snoc l t : foldr Z.min int64_max (l ++ [t]) = Z.min (foldr Z.min int64_max l) t.
Proof. rewrite foldr_app. simpl. induction l as [|x l IH]; simpl; [lia|]. rewrite IH. lia. Qed.

(** The totals of the metadata: sums, by their widths, and the earliest start.
    The duration is the sum of the durations of the files. *)
Theorem aggregate_totals files o l :
  let m := progress_metadata (aggregate l (mkProgress (init_metadata files o) ∅ int64_min)) in
  message_count m = u64 (sum_of message_count l) /\ duration m = i64 (sum_of duration l) /\
  starting_time m = foldr Z.min int64_max ((fun x => starting_time x.2) <$> l) /\
  bag_size m = u64 (foldr (fun x n => x.1 + n) 0 l) /\
  relative_file_paths m = (fun path => generic_string (path_filename path)) <$> files.
Proof.
  induction l as [|x l IH] using rev_ind; [done|]. unfold aggregate in *. rewrite foldl_app. cbn [foldl] in *.
  set (p := foldl _ _ l) in *. cbn zeta in *. destruct IH as (I1 & I2 & I3 & I4 & I5).
  unfold aggregate_file. cbn [progress_metadata message_count duration starting_time bag_size relative_file_paths].
  rewrite I1, I2, I3, I4, I5, !sum_of_snoc, wrap_u_add_l, i64_step, fmap_app, wrap_u_add_l. simpl. rewrite min_snoc. split_and!; try done.
  - destruct (Z.ltb_spec (starting_time x.2) (foldr Z.min int64_max ((fun x => starting_time x.2) <$> l))); lia.
  - f_equal. rewrite foldr_app. simpl. clear. induction l as [|y l IH]; simpl; lia.
Qed.

Section Reading.
Context {S : Type} `{ReadOnlyInterface S} (env : ReaderEnvironment S) (file_size : string -> Z).

(** The reader opens the file and finds the metadata [t]. *)
Definition opens_with (o : StorageOptions) (path : string) (t : BagMetadata) : Prop :=
  forall r, exists r', open env (file_options path o) (mkConverterOptions "" "") r = (Ok tt, r') /\ storage_ r' <> None /\ metadata_ r' = t.

(** The loop over the files is [aggregate]. *)
Lemma aggregate_files_spec o files ts p r : Forall2 (opens_with o) files ts ->
  (aggregate_files env file_size o files p r).1 = Ok (aggregate (zip (file_size <$> files) ts) p).
Proof.
  intros Hf. revert p r. induction Hf as [|path t files ts Ht Hf IH]; intros p r; [done|]. cbn [aggregate_files].
  destruct (Ht r) as (r1 & E & Hs & <-). rewrite (bind_ok _ _ _ _ _ E).
  assert (Em : get_metadata r1 = (Ok (metadata_ r1), r1)).
  { unfold get_metadata, the_storage, mbind, ST_bind, get. by destruct (storage_ r1). }
  rewrite (bind_ok _ _ _ _ _ Em). rewrite (bind_ok _ _ _ (set_storage None r1) tt) by done. apply IH.
Qed.
End Reading.

(** ** A bag in memory *)

Definition lost_files : list (string * list BagMessage) :=
  [("bag/bag_0.db3", [mkMessage "a" 8 1; mkMessage "b" 8 2]); ("bag/bag_1.db3", [mkMessage "a" 8 5; mkMessage "b" 8 6])]%string.

(** A bag without [metadata.yaml]. *)
Definition lost_environment : ReaderEnvironment MemoryBag :=
  mkReaderEnvironment MemoryBag (fun o => new_memory (uri o) <$> (list_to_map lost_files : gmap string (list BagMessage)) !! uri o)
    (fun _ => false) (fun _ => None) (fun _ => true) (fun _ => true) any_format.

(** The files last from 1 to 2 and from 5 to 6, the bag from 1 to 6. *)
Example gaps_not_counted :
  match reindex lost_environment (fun _ => 100) (default_options "bag") ["notes.txt"; "bag_1.db3"; "bag_0.db3"]%string with
  | Some (Ok m) => relative_file_paths m = ["bag_0.db3"; "bag_1.db3"]%string /\ starting_time m = 1 /\ duration m = 2 /\ message_count m = 4
  | _ => False
  end.
Proof. by vm_compute. Qed.
